(* ===== verification/_CoqProject ===== *)
-Q . S2P
Prelude.v
BTree.v
Types.v
LibMappings.v
Hierarchy.v
StringTables.v
SymbolTable.v
LibTable.v
FrameTables.v
StackTable.v
Samples.v
Markers.v
ThreadModel.v
ThreadSafety.v
ProfileModel.v
ProfileOrder.v
ProfileSafety.v
ProfileRuns.v
RecorderMarkers.v
ProfileCalls.v
ContextSwitch.v
UnresolvedSamples.v
StackConversion.v
FrameLimiter.v
EventSorter.v
FileInventory.v
RustStr.v
PathFiles.v
MarkerFile.v
Flush.v
FlushMarkers.v
Recycling.v
JitCategories.v
SyntheticJit.v
PerfMap.v
JitDump.v
LinuxThreads.v
LinuxProcess.v
Processes.v
RecordingEnd.v
PerCpu.v
SampleStack.v
Converter.v
ConverterInvariant.v
ConverterHandlers.v
ConverterEvents.v
ObjectFiles.v
CodeIds.v
PeMappings.v
ObjectRewriter.v
KernelSymbols.v
MappedFiles.v
MappedFilesSafety.v
Demangle.v
PerfImport.v
ImportSafety.v
LineBuffer.v
Nom.v
BreakpadRecords.v
BreakpadIndex.v
IndexedRecords.v
Symindex.v
SymindexRoundTrip.v
MappedPath.v
SymbolMaps.v
BreakpadSymbolMap.v
BreakpadFunc.v
BreakpadLookup.v
BreakpadFile.v
ChunkedReads.v
JitDumpMap.v
ExternalFiles.v
ObjectSymbolMap.v
ExternalLookups.v
ElfFiles.v
SymbolManager.v
Symbolicate.v
SymbolicateAnswers.v
SourceApi.v
