(* ===== verification/Prelude.v ===== *)
(** * samply: from recorded events to a processed profile

    samply records a program (perf events on Linux, Mach and ETW elsewhere),
    attributes stack samples to processes, threads and libraries, and writes a
    profile for the Firefox profiler. This development models the parts of it that
    hold its own logic: the profile builder (crate fxprof-processed-profile), the
    recorder for Linux and its platform independent half (samply/src/linux_shared
    and shared), the sources of symbols (samply-symbols) with the symbolication and
    source requests that are answered from them (samply-api), and the quota manager.
    File names below are relative to src/.

    ** How the parts interact

    A recorder reads events, on Linux merged in time order by the [EventSorter] or
    from a perf.data file ([PerfImport]). The [Converter] handles each: it finds the
    [Process] and the thread it is about in [Processes], whose entries are made on
    demand, and recycled by name. Context switches and samples of a thread go to the
    [ContextSwitchHandler], which yields CPU deltas and groups of off-CPU samples.
    Stacks are interned in [UnresolvedStacks] and samples are buffered in
    [UnresolvedSamples], because the libraries they run in are only known later.
    Mapped files become libraries of the profile, modules of the unwinder and
    operations in the queue of the process. At the end of a process or of the
    recording the library mappings are replayed in time order
    ([LibMappingsHierarchy]), each stack is converted back ([StackConverter]),
    limited in depth ([StackDepthLimitingFrameIter]) and added to the [Profile],
    which resolves addresses, interns everything into the tables of a [Thread] and
    serializes them. Later, addresses of the profile are symbolicated: a request
    ([Symbolicate]) names libraries and addresses, the [SymbolManager] tries the
    files in which symbols of a library can be and takes the first that fits its
    debug id. The symbols are those of a jitdump file, of an object file
    ([ObjectSymbolMap]) with the separate files that have its debug information
    ([ElfFiles], ExternalLookups.v), or of a breakpad symbol file. That is indexed
    while it is downloaded ([BreakpadIndexParser]), the index is kept on disk as a
    .symindex file, and [BreakpadSymbolMap] looks addresses up in file and index,
    reading only the records it needs. Files are read through a cache of chunks
    (ChunkedReads.v). Source paths are shown through the [PathMapper], and
    [SourceApi] gives out the source files that the answers name, and no others.

    ** Files

    The foundation:
    - Prelude: computations that can panic ([res]), machine integers, tables with
      an interning index ([index_wf]), sorting, the tactics and the hint database
      [samply]; [UnstableSort] is the interface of [sort_unstable_by].
    - BTree: [std::collections::BTreeMap] as a strictly sorted association list.
    - Types: the plain data of category.rs, frame.rs, timestamp.rs, cpu_delta.rs
      and the like, floats as [spec_float], and the JSON values that are written
      ([Serialize]).

    The profile builder, fxprof-processed-profile/src:
    - LibMappings: lib_mappings.rs.
    - StringTables: string_table.rs, thread_string_table.rs.
    - SymbolTable, LibTable: library_info.rs, global_lib_table.rs. Debug ids are
      an interface ([DebugIdType]), their type belongs to another crate.
    - FrameTables: func_table.rs, resource_table.rs, native_symbols.rs,
      frame_table.rs.
    - StackTable: stack_table.rs.
    - Samples: sample_table.rs, counters.rs.
    - Markers: markers.rs, marker_table.rs.
    - ThreadModel: thread.rs. ThreadSafety: the invariant of a thread inside a
      profile ([Thread.wf] and the lemmas that its operations keep it).
    - ProfileModel: process.rs, profile.rs. ProfileOrder: the ids and the order of
      threads. ProfileSafety, ProfileRuns: the invariant of a profile, the type of
      all API calls ([ProfileRuns.op]) and what any valid sequence of them
      guarantees.

    The recorder, samply/src, independent of the platform (shared):
    - Hierarchy: lib_mappings.rs.
    - ContextSwitch: context_switch.rs.
    - UnresolvedSamples: unresolved_samples.rs and process_off_cpu_sample_group of
      linux_shared/converter.rs.
    - StackConversion: stack_converter.rs. FrameLimiter:
      stack_depth_limiting_frame_iter.rs.
    - RustStr: the parts of [str] and [char] the program uses, and UTF-8 (Module
      [Utf8]). PathFiles: utils.rs over an interface of the file system ([Files]).
    - MarkerFile: marker_file.rs, counter_file.rs, over a parser of JSON text.
    - Flush, FlushMarkers: process_sample_data.rs, which puts these parts together
      at the end of a process; the markers with a static schema and their types
      are in RecorderMarkers.
    - Recycling: recycling.rs, jit_function_recycler.rs.
    - JitCategories: jit_category_manager.rs. SyntheticJit:
      synthetic_jit_library.rs. PerfMap: perf_map.rs. JitDump:
      jitdump_manager.rs over a reader of jitdump records ([JitDumpReader]).
    - PerCpu: per_cpu.rs.
    - ProfileCalls: the vocabulary for all of these: which sequences of valid calls
      a step of the recorder makes ([by_calls_of], [changes], [evolves]).

    The recorder, samply/src, on Linux (linux_shared, linux, import):
    - LinuxThreads, LinuxProcess, Processes: thread.rs, process_threads.rs,
      process.rs, processes.rs. RecordingEnd: the end of a recording.
    - SampleStack: get_sample_stack of converter.rs, convert_regs.rs and
      rss_stat.rs.
    - Converter: the handlers of converter.rs for samples, context switches, forks,
      exits, renames and files found by their names. ConverterInvariant,
      ConverterHandlers, ConverterEvents: the invariant and that they keep it.
    - ObjectFiles: what the recorder takes from object files, avma_range.rs and
      svma_file_range.rs (Module [VmaBias]). CodeIds: code and debug IDs, of
      samply-symbols. PeMappings: pe_mappings.rs. ObjectRewriter:
      object_rewriter.rs, injected_jit_object.rs. KernelSymbols:
      kernel_symbols.rs. Demangle: demangling, of samply-symbols.
    - MappedFiles: vdso.rs and the handlers of converter.rs for mapped files.
      MappedFilesSafety: that they keep the invariant.
    - PerfImport: event_interpretation.rs, Converter::new and import/perf.rs.
      ImportSafety: the whole import.
    - EventSorter: linux/sorter.rs.

    Symbol files, samply-symbols/src:
    - LineBuffer: the line buffer of breakpad/index.rs. Nom: the parser combinators
      the line parsers are made of. BreakpadRecords: those parsers. BreakpadIndex:
      [BreakpadIndexParser]. IndexedRecords: what the index of a file given in
      chunks holds.
    - Symindex: the .symindex format of breakpad/index.rs, written and read;
      SymindexRoundTrip.
    - MappedPath: mapped_path.rs, path_mapper.rs.
    - SymbolMaps: the types of shared.rs that lookups exchange, the interface of
      file contents ([FileContents]), compact_symbol_table.rs. ChunkedReads:
      chunked_read_buffer_manager.rs and cache.rs.
    - BreakpadSymbolMap: breakpad/symbol_map.rs. BreakpadFunc: the inlined calls of
      a function. BreakpadLookup, BreakpadFile: lookups in a file with its index.
    - JitDumpMap: jitdump.rs. ObjectSymbolMap: symbol_map_object.rs.
    - ExternalFiles: the frames of dwarf.rs, external_file.rs. ExternalLookups:
      symbol_map.rs, error.rs, and the interface of the embedder ([Helper] of
      shared.rs). ElfFiles: elf.rs and the sections of dwarf.rs.
    - SymbolManager: lib.rs.

    The requests, samply-api/src:
    - Symbolicate: symbolicate/mod.rs, looked_up_addresses.rs, request_json.rs and
      response_json.rs. SymbolicateAnswers: what is answered to a request.
    - SourceApi: source/mod.rs, hex.rs.

    The quota manager, samply-quota-manager/src:
    - FileInventory: file_inventory.rs and the eviction of quota_manager.rs, over
      interfaces of the database ([Database]) and the file system
      ([FileSystem]) with the laws the code relies on.

    ** Conventions

    Each Rust struct is a record (or the tuple or list it wraps), each method a
    definition of the same name in the Module of its struct, taking the old state
    and returning the new one. A method that can panic returns [res]. Integers
    keep their width: the operators wrap as in a release build, and the casts are
    explicit. [usize] indexes of vectors are [nat]. A hash map used as an index is
    a [gmap]; where the code iterates over a map, the map is ordered. [f64] is
    [spec_float] with 53 bits. Lazy iterators are the items they still yield, or a
    state with its [next] function.

    ** Loops and fuel

    Loops over data are structural. The others take fuel, and a lemma next to each
    shows that the fuel given is enough: draining a queue of mapping operations
    takes its length (drain_enough), [convert_back] the number of nodes since a
    prefix has a smaller handle, the binary search of a symbol table the
    length of the table, collecting an iterator with a state of its own the number
    of items it can still yield, reading a jitdump file the records its reader says
    remain, parsing text its length, a hexadecimal number 16 digits, splitting a chunk into
    lines its length, reading a file in chunks its size, the checksum of a debug file
    the chunks of that file, walking the inlined calls at an address their number,
    and answering a lookup with external files the files it can still ask for. Where
    running out is [None] (the type [loops] is an [option] of [res]), the theorems
    show that it does not happen.

    ** What is proved

    - The import ([ImportSafety.import_completes]): whatever records a perf.data file
      has, in whatever order, the import ends with a profile that can be written.
      What it assumes of the input is listed there: mostly complete records, files
      that parse and tables within 32 bits. Its invariant says that all handles that the recorder keeps (of threads,
      processes, libraries, strings, categories, stacks) are ones the profile gave
      out, that every change of the profile is by valid calls, and how much each
      handler can make the tables grow.
    - Whole runs ([ProfileRuns]): any sequence of valid API calls ([op_valid]: handles
      the profile gave out, ordered mappings, fewer than 256 subcategories, ...) runs
      without a panic and leaves a profile that serializes without a panic; a sample
      added after it is stored with the stack whose rows describe its frames, and
      leaves the rest of the profile as it was. The flush of a process's samples is such a sequence
      ([Flush]).
    - Resolution ([LibMappings], [Hierarchy], [SymbolTable], [GlobalLibTable]):
      which mapping an address resolves to after any operations, exact conversion
      to relative addresses, the levels of the lookup, symbol lookup, used
      libraries.
    - Interning ([StringTable], [ThreadStringTable], [FrameTable], [StackTable],
      [MarkerTable]): handles stand for what was interned, equal handles for equal
      values, and what is written decodes to it.
    - Samples ([SampleTable], [Thread], [UnresolvedSamples], [OffCpuSamples],
      [ContextSwitch]): columns as lists of rows, coalescing of samples without
      CPU time, the buffered samples as a refinement of the thread tables,
      conservation of running and sleeping time.
    - Order and identity ([ThreadOrder], [UniqueIds], [EventSorter]).
    - Stack shaping ([StackConversion], [FrameLimiter]): the lazy passes give what a
      description of each frame and the frames around it says.
    - Files that the recorder reads ([PerfMap], [JitDump], [MarkerFile],
      [JitCategories], [FlushMarkers]): what is in them is what ends up in the
      profile, for files whose functions are not empty and fit into 32 bits.
    - Binaries ([VmaBias], [KernelSymbols], [ObjectRewriter], [CodeIds],
      [PeMappings], [Demangle]): addresses in files and in memory agree, the symbol
      list of the kernel is read as it is written, repaired files are laid out as
      their headers say (but for the data that the types of their sections lose),
      identifiers and names are read back.
    - Breakpad symbol files ([BreakpadFile], [IndexedRecords], [SymindexRoundTrip]):
      however a file is cut into chunks, its index holds the offsets of its records,
      it is read back from disk as it was written, and lookups through it answer
      as if nothing was asked before and, of functions whose records are in order, what
      an independent reading of the block says, inlined calls included. Paths of version control
      systems are printed and read back ([MappedPath]).
    - Other sources of symbols ([SymbolList], [JitDumpMap], [SymbolMap],
      [ElfFiles], [ChunkedCaching]): lookups in the symbols of an object file and of a
      jitdump file (of functions with code) agree with a search of what is in the file,
      lookups that need
      other files end with what those files say, separate debug files are only used
      if build id or checksum fit, and reading through the cache is reading the file, but
      that a string which was found before is found again.
    - Requests ([SymbolManager], [SymbolicateAnswers], [SourceApi]): the symbol map
      is the one of the first candidate that fits, the answer to a symbolication
      request has for each address what the symbol map of its library says (that its
      caches do not show is proved for breakpad, jitdump and linked mach-O files and
      assumed of others, [answers_as]), and the
      source API only shows files that debug information names.
    - The quota manager ([FileInventory]).
    - Behaviours that do not meet their intent are theorems too:
      [moved_sample_unsorted], [overestimate_truncates], [zero_interval_panics],
      [missing_file_panics].

    ** Not modelled

    Recording on each platform (system calls), parsing of object files, of pdb files
    and of DWARF, the downloads of wholesym, the servers and command lines: they
    drive parsers, unwinders and operating system interfaces of other crates. Where
    modelled code uses such parsers they are interfaces with the behaviour it relies
    on ([ElfFiles], [Gimli], [Nom], [DebugIdType]). JSON is modelled as a
    value, not as text. Of the import, the choice of the unwinder and the time stamps
    of the file. Of the symbol manager, mach-O, PE and pdb files and the images of
    the dyld cache; of the API, disassembly, which is the work of decoders of other
    crates. The older profile builder gecko_profile serializes text directly, and
    the Windows and macOS recorders are driven by their event streams. *)
From Stdlib Require Export Ascii.
From stdpp Require Export sorting pretty numbers prelude gmap strings list.
From stdpp Require Import options.
#[export] Set Default Goal Selector "!".

(** * Computations that can panic

    A Rust function that can hit an [unwrap] of [None], an index out of range,
    a failed [assert!] or a division by zero is modelled in [res]: [Panic] is
    the unwound computation, and the caller's state after it is not observable.
    A Rust [Option] stays an [option]. *)
Inductive res (A : Type) : Type :=
| Ok (a : A)
| Panic.
Arguments Ok {A} a.
Arguments Panic {A}.

#[export] Instance res_ret : MRet res := λ A a, Ok a.
#[export] Instance res_bind : MBind res := λ A B f r,
  match r with Ok a => f a | Panic => Panic end.
#[export] Instance res_fmap : FMap res := λ A B f r,
  match r with Ok a => Ok (f a) | Panic => Panic end.
#[export] Instance res_eq_dec {A} `{EqDecision A} : EqDecision (res A).
Proof. solve_decision. Defined.

(** [Option::unwrap], [Option::expect]. *)
Definition unwrap {A} (o : option A) : res A :=
  match o with Some a => Ok a | None => Panic end.

(** [assert!]. *)
Definition assert (b : bool) : res unit := if b then Ok tt else Panic.

(** [slice[i]]: panics out of range. *)
Definition index {A} (l : list A) (i : nat) : res A := unwrap (l !! i).

(** [slice[i] = x]: panics out of range. *)
Definition index_set {A} (l : list A) (i : nat) (x : A) : res (list A) :=
  if decide (i < length l)%nat then Ok (<[i := x]> l) else Panic.

(** [Vec::push]. *)
Definition push {A} (l : list A) (x : A) : list A := l ++ [x].

Definition is_Ok {A} (r : res A) : Prop := ∃ a, r = Ok a.

(** * Loops

    A computation with loops that take fuel: [None] if one has not ended. *)
Definition loops (A : Type) : Type := option (res A).
#[global] Instance loops_ret : MRet loops := λ A a, Some (Ok a).
#[global] Instance loops_bind : MBind loops := λ A B f m,
  match m with Some (Ok a) => f a | Some Panic => Some Panic | None => None end.
Definition ended {A} (m : option A) : loops A := Ok <$> m.
Definition returned {A} (r : res A) : loops A := Some r.

(** * Machine integers

    An unsigned [w]-bit integer is a [Z] in [0, 2^w). The plain operators are
    those of a release build, which wraps; the saturating and checked ones are
    the methods of the same name. [usize] values that index or measure a vector
    are [nat]: a vector never holds more than [isize::MAX] elements. *)
Open Scope Z_scope.

Definition u8_range (z : Z) : Prop := 0 ≤ z < 2 ^ 8.
Definition u16_range (z : Z) : Prop := 0 ≤ z < 2 ^ 16.
Definition u32_range (z : Z) : Prop := 0 ≤ z < 2 ^ 32.
Definition u64_range (z : Z) : Prop := 0 ≤ z < 2 ^ 64.

Definition wrap_u8 (z : Z) : Z := z mod 2 ^ 8.
Definition wrap_u16 (z : Z) : Z := z mod 2 ^ 16.
Definition wrap_u32 (z : Z) : Z := z mod 2 ^ 32.
Definition wrap_u64 (z : Z) : Z := z mod 2 ^ 64.
(** Two's complement [i32] and [i64]. *)
Definition wrap_i32 (z : Z) : Z := (z + 2 ^ 31) mod 2 ^ 32 - 2 ^ 31.
Definition wrap_i64 (z : Z) : Z := (z + 2 ^ 63) mod 2 ^ 64 - 2 ^ 63.

Definition sub_u64 (a b : Z) : Z := wrap_u64 (a - b).
Definition add_u64 (a b : Z) : Z := wrap_u64 (a + b).
Definition mul_u64 (a b : Z) : Z := wrap_u64 (a * b).
Definition add_u32 (a b : Z) : Z := wrap_u32 (a + b).
Definition saturating_sub (a b : Z) : Z := Z.max 0 (a - b).
Definition saturating_add_u32 (a b : Z) : Z := Z.min (2 ^ 32 - 1) (a + b).
Definition checked_sub (a b : Z) : option Z := if a <? b then None else Some (a - b).
(** Integer division, which panics on a zero divisor. *)
Definition div_u64 (a b : Z) : res Z := if b =? 0 then Panic else Ok (a / b).

(** [usize as u32]. *)
Definition u32_of_usize (n : nat) : Z := wrap_u32 (Z.of_nat n).
(** [u32 as usize]. *)
Definition usize_of_u32 (z : Z) : nat := Z.to_nat z.

(** * Sorting

    [slice::sort_by] is stable. *)
Fixpoint insert_sorted {A} (le : A → A → bool) (x : A) (l : list A) : list A :=
  match l with
  | [] => [x]
  | y :: l' => if le x y then x :: y :: l' else y :: insert_sorted le x l'
  end.

Definition stable_sort {A} (le : A → A → bool) (l : list A) : list A :=
  foldr (insert_sorted le) [] l.

(** [slice::sort_unstable_by_key] promises a permutation sorted by the key, and
    leaves the order of equal keys open: clients are proved against the
    promise. *)
Class UnstableSort := {
  sort_unstable_by_key : ∀ {A : Type}, (A → Z) → list A → list A;
  sort_unstable_permutation : ∀ {A} (key : A → Z) (l : list A),
    sort_unstable_by_key key l ≡ₚ l;
  sort_unstable_sorted : ∀ {A} (key : A → Z) (l : list A),
    StronglySorted (λ x y, key x ≤ key y) (sort_unstable_by_key key l)
}.

(** * Decimal and hexadecimal printing ([format!] with plain and x arguments) *)
Definition dec_string (z : Z) : string := pretty z.
Definition hex_digit (d : Z) : ascii :=
  ascii_of_nat (Z.to_nat (if d <? 10 then 48 + d else 87 + d)).
Fixpoint hex_digits (fuel : nat) (z : Z) (acc : string) : string :=
  match fuel with
  | O => acc
  | S fuel' =>
      let acc' := String (hex_digit (z mod 16)) acc in
      if z <? 16 then acc' else hex_digits fuel' (z / 16) acc'
  end.
(** The sixteen digits a [u64] can have. *)
Definition hex_string (z : Z) : string := "0x" +:+ hex_digits 16 z "".

(** * Interning tables

    Most tables of the program are a hash map from a key to the position at
    which the key was appended to parallel vectors. [index_wf h keys m] is that
    invariant for an index type whose [n]th value is [h n]. *)
Definition index_wf {K I} `{Countable K} (h : nat → I) (keys : list K) (m : gmap K I) : Prop :=
  NoDup keys ∧ ∀ k i, m !! k = Some i ↔ ∃ n, keys !! n = Some k ∧ i = h n.

(** * Lemmas and automation *)

(** Splits the binds of a computation known to have succeeded. *)
Lemma bind_Ok {A B} (f : A → res B) (r : res A) b :
  r ≫= f = Ok b → ∃ a, r = Ok a ∧ f a = Ok b.
Proof. destruct r; [eauto | done]. Qed.

Lemma fmap_Ok {A B} (f : A → B) (r : res A) b :
  f <$> r = Ok b → ∃ a, r = Ok a ∧ f a = b.
Proof. destruct r; [|done]. intros [= <-]. by exists a. Qed.

Lemma unwrap_Ok {A} (o : option A) a : unwrap o = Ok a ↔ o = Some a.
Proof. destruct o; naive_solver. Qed.

Lemma index_Ok {A} (l : list A) i a : index l i = Ok a ↔ l !! i = Some a.
Proof. apply unwrap_Ok. Qed.

Lemma index_lt {A} (l : list A) i : (i < length l)%nat → is_Ok (index l i).
Proof. intros [x Hx]%lookup_lt_is_Some. exists x. by apply index_Ok. Qed.

Lemma index_set_Ok {A} (l l' : list A) i x :
  index_set l i x = Ok l' ↔ (i < length l)%nat ∧ l' = <[i := x]> l.
Proof. unfold index_set. case_decide; split; intros Heq; simplify_eq; intuition congruence. Qed.

Lemma assert_Ok b u : assert b = Ok u ↔ b = true.
Proof. destruct b, u; naive_solver. Qed.

Ltac res_inv :=
  repeat match goal with
  | H : Ok _ = Ok _ |- _ => injection H as H; subst
  | H : Panic = Ok _ |- _ => discriminate H
  | H : mbind _ _ = Ok _ |- _ =>
      apply bind_Ok in H; let a := fresh "r" in let Ha := fresh "Hr" in destruct H as (a & Ha & H)
  | H : unwrap _ = Ok _ |- _ => apply unwrap_Ok in H
  | H : index _ _ = Ok _ |- _ => apply index_Ok in H
  | H : assert _ = Ok _ |- _ => apply assert_Ok in H
  | H : mret _ = Ok _ |- _ => injection H as H; subst
  end.

(** ** Machine integers *)
Lemma lookup_app_Some_snoc {A} (l : list A) x n y :
  (l ++ [x]) !! n = Some y → l !! n = Some y ∨ (n = length l ∧ y = x).
Proof.
  intros [?|[Hle Hn]]%lookup_app_Some; [by left|right].
  destruct (n - length l)%nat eqn:E; simplify_eq/=. split; [lia|done].
Qed.

Lemma lookup_snoc {A} (l : list A) x : (l ++ [x]) !! length l = Some x.
Proof. rewrite lookup_app_r, Nat.sub_diag by done. done. Qed.

Lemma wrap_u32_range z : u32_range (wrap_u32 z).
Proof. apply Z.mod_pos_bound; lia. Qed.
Lemma wrap_u64_range z : u64_range (wrap_u64 z).
Proof. apply Z.mod_pos_bound; lia. Qed.
Lemma wrap_u32_id z : u32_range z → wrap_u32 z = z.
Proof. apply Z.mod_small. Qed.
Lemma wrap_u64_id z : u64_range z → wrap_u64 z = z.
Proof. apply Z.mod_small. Qed.
Lemma wrap_i32_id z : - 2 ^ 31 ≤ z < 2 ^ 31 → wrap_i32 z = z.
Proof. unfold wrap_i32. intros. rewrite Z.mod_small; lia. Qed.

Lemma sub_u64_id a b : u64_range a → u64_range b → b ≤ a → sub_u64 a b = a - b.
Proof. unfold u64_range. intros. apply wrap_u64_id. unfold u64_range. lia. Qed.
Lemma add_u64_id a b : 0 ≤ a → 0 ≤ b → a + b < 2 ^ 64 → add_u64 a b = a + b.
Proof. intros. apply wrap_u64_id. unfold u64_range. lia. Qed.
Lemma mul_u64_id a b : 0 ≤ a → 0 ≤ b → a * b < 2 ^ 64 → mul_u64 a b = a * b.
Proof. intros. apply wrap_u64_id. unfold u64_range. nia. Qed.
Lemma add_u32_id a b : 0 ≤ a → 0 ≤ b → a + b < 2 ^ 32 → add_u32 a b = a + b.
Proof. intros. apply wrap_u32_id. unfold u32_range. lia. Qed.

Lemma u32_of_usize_id n : Z.of_nat n < 2 ^ 32 → u32_of_usize n = Z.of_nat n.
Proof. intros. apply wrap_u32_id. unfold u32_range. lia. Qed.
Lemma usize_of_u32_of_usize n : Z.of_nat n < 2 ^ 32 → usize_of_u32 (u32_of_usize n) = n.
Proof. intros. rewrite u32_of_usize_id by done. unfold usize_of_u32. lia. Qed.
Lemma u32_of_usize_inj n m :
  Z.of_nat n < 2 ^ 32 → Z.of_nat m < 2 ^ 32 → u32_of_usize n = u32_of_usize m → n = m.
Proof. intros. rewrite !u32_of_usize_id in * by done. lia. Qed.

Lemma elem_of_concat {A} (x : A) (ls : list (list A)) : x ∈ concat ls ↔ ∃ l, x ∈ l ∧ l ∈ ls.
Proof.
  induction ls as [|l ls IH]; simpl; [set_solver|]. rewrite elem_of_app, IH. set_solver.
Qed.

(** ** Sorting *)
Section sorting.
Context {A : Type} (le : A → A → bool).

Lemma insert_sorted_permutation x l : insert_sorted le x l ≡ₚ x :: l.
Proof.
  induction l as [|y l IH]; simpl; [done|]. destruct (le x y); [done|].
  rewrite IH. apply Permutation_swap.
Qed.

Lemma stable_sort_permutation l : stable_sort le l ≡ₚ l.
Proof. induction l as [|x l IH]; simpl; [done|]. by rewrite insert_sorted_permutation, IH. Qed.

Context (le_trans : ∀ x y z, le x y = true → le y z = true → le x z = true).
Context (le_total : ∀ x y, le x y = true ∨ le y x = true).

Lemma insert_sorted_sorted x l :
  StronglySorted (λ a b, le a b = true) l →
  StronglySorted (λ a b, le a b = true) (insert_sorted le x l).
Proof using le_trans le_total.
  induction 1 as [|y l Hl IH Hy]; simpl.
  { by repeat constructor. }
  destruct (le x y) eqn:Exy.
  - constructor; [by constructor|]. constructor; [done|].
    eapply Forall_impl; [exact Hy|]. intros z Hz. simpl in Hz. by eapply le_trans.
  - constructor; [done|]. rewrite insert_sorted_permutation. constructor; [|done].
    destruct (le_total x y); congruence.
Qed.

Lemma stable_sort_sorted l : StronglySorted (λ a b, le a b = true) (stable_sort le l).
Proof using le_trans le_total.
  induction l as [|x l IH]; simpl; [constructor|]. by apply insert_sorted_sorted.
Qed.
End sorting.

Lemma StronglySorted_weaken {A} (R S : A → A → Prop) l :
  (∀ x y, R x y → S x y) → StronglySorted R l → StronglySorted S l.
Proof.
  intros HRS. induction 1 as [|x l Hl IH Hx]; constructor; [done|].
  eapply Forall_impl; [exact Hx|]. auto.
Qed.

#[export] Program Instance stable_unstable_sort : UnstableSort := {|
  sort_unstable_by_key A key l := stable_sort (λ x y, key x <=? key y) l
|}.
Next Obligation. intros. apply stable_sort_permutation. Qed.
Next Obligation.
  intros A key l.
  apply StronglySorted_weaken with (λ x y, (key x <=? key y) = true).
  { intros x y. apply Z.leb_le. }
  apply stable_sort_sorted; intros; rewrite ?Z.leb_le in *; lia.
Qed.

(** ** Interning tables *)
Section interning.
Context {K I : Type} `{Countable K} (h : nat → I).

Lemma index_wf_empty : index_wf h [] (∅ : gmap K I).
Proof.
  split; [constructor|]. intros k i. rewrite lookup_empty. split; [done|].
  intros (n & ? & _). by destruct n.
Qed.

Lemma index_wf_fresh keys (m : gmap K I) k :
  index_wf h keys m → m !! k = None → k ∉ keys.
Proof.
  intros [_ Hm] Hk [n Hn]%list_elem_of_lookup.
  assert (m !! k = Some (h n)) by (apply Hm; eauto). congruence.
Qed.

Lemma index_wf_push keys (m : gmap K I) k :
  index_wf h keys m → m !! k = None →
  index_wf h (keys ++ [k]) (<[k := h (length keys)]> m).
Proof.
  intros Hwf Hk. pose proof (index_wf_fresh _ _ _ Hwf Hk) as Hin.
  destruct Hwf as [Hnd Hm]. split.
  { apply NoDup_app. split_and!; [done| |apply NoDup_singleton]. set_solver. }
  intros k' i. destruct (decide (k' = k)) as [->|Hne].
  - rewrite lookup_insert_eq. split.
    + intros [= <-]. exists (length keys). by rewrite lookup_snoc.
    + intros (n & [Hn|[-> _]]%lookup_app_Some_snoc & ->); [|done].
      exfalso. apply Hin. apply list_elem_of_lookup. eauto.
  - rewrite lookup_insert_ne by done. rewrite Hm. split.
    + intros (n & Hn & ->). exists n. split; [|done]. by apply lookup_app_l_Some.
    + intros (n & [Hn|[-> [= <-]]]%lookup_app_Some_snoc & ->); [eauto|done].
Qed.

Lemma index_wf_Some keys (m : gmap K I) k i :
  index_wf h keys m → m !! k = Some i → ∃ n, keys !! n = Some k ∧ i = h n.
Proof. intros [_ Hm]. apply Hm. Qed.

Lemma index_wf_In keys (m : gmap K I) n k :
  index_wf h keys m → keys !! n = Some k → m !! k = Some (h n).
Proof. intros [_ Hm] Hn. apply Hm. eauto. Qed.
End interning.

(** ** The contents of a map of collections, up to their order *)
Section gathering.
Context {K A B : Type} `{Countable K} (f : K → A → list B).

Definition gather (m : gmap K A) : list B :=
  concat ((λ p, f p.1 p.2) <$> map_to_list m).

Lemma gather_empty : gather ∅ = [].
Proof. done. Qed.

Lemma gather_fresh m k a : m !! k = None → gather (<[k := a]> m) ≡ₚ f k a ++ gather m.
Proof.
  intros Hk. unfold gather. rewrite map_to_list_insert by done. done.
Qed.

Lemma gather_delete m k a : m !! k = Some a → gather m ≡ₚ f k a ++ gather (delete k m).
Proof.
  intros Hk. rewrite <-(insert_delete_id m k a) at 1 by done.
  apply gather_fresh, lookup_delete_eq.
Qed.

Lemma gather_insert m k a : gather (<[k := a]> m) ≡ₚ f k a ++ gather (delete k m).
Proof. rewrite <-insert_delete_eq. apply gather_fresh, lookup_delete_eq. Qed.

Lemma gather_elem m b : b ∈ gather m ↔ ∃ k a, m !! k = Some a ∧ b ∈ f k a.
Proof.
  unfold gather. rewrite elem_of_concat. split.
  - intros (l & Hb & ([k a] & -> & Hin)%list_elem_of_fmap). apply elem_of_map_to_list in Hin. eauto.
  - intros (k & a & Hk & Hb). exists (f k a). split; [done|]. apply list_elem_of_fmap.
    exists (k, a). split; [done|]. by apply elem_of_map_to_list.
Qed.
End gathering.

Create HintDb samply.
#[export] Hint Resolve index_wf_empty wrap_u32_range wrap_u64_range : samply.
