(* ===== verification/BTree.v ===== *)
(** The ordered map [std::collections::BTreeMap] with unsigned integer keys, and
    the operations of it the program uses, as a strictly sorted association
    list. *)
From S2P Require Import Prelude.
From stdpp Require Import options.
Open Scope Z_scope.

(** * Operations *)
Notation btree V := (list (Z * V)).

Section btree.
Context {V : Type}.
Implicit Types (m : btree V) (k : Z) (v : V).

(** [BTreeMap::insert]: replaces the value of an existing key. *)
Fixpoint btree_insert k v m : btree V :=
  match m with
  | [] => [(k, v)]
  | (k', v') :: m' =>
      if k <? k' then (k, v) :: (k', v') :: m'
      else if k =? k' then (k, v) :: m'
      else (k', v') :: btree_insert k v m'
  end.

(** [BTreeMap::get]. *)
Fixpoint btree_get k m : option V :=
  match m with
  | [] => None
  | (k', v') :: m' => if k =? k' then Some v' else btree_get k m'
  end.

(** [BTreeMap::remove]: the removed value and the rest. *)
Definition btree_remove k m : option V * btree V :=
  (btree_get k m, filter (λ kv, kv.1 ≠ k) m).

(** [map.range(..=hi)]. *)
Definition btree_range_to_inclusive (hi : Z) m : list (Z * V) :=
  filter (λ kv, kv.1 ≤ hi) m.

(** [map.range(lo..hi)]: panics when the range is decreasing. *)
Definition btree_range (lo hi : Z) m : res (list (Z * V)) :=
  if hi <? lo then Panic else Ok (filter (λ kv, lo ≤ kv.1 < hi) m).

(** [iter.next_back()]. *)
Definition next_back (l : list (Z * V)) : option (Z * V) := last l.

(** Keys strictly increase. *)
Definition btree_wf m : Prop := StronglySorted (λ a b, a.1 < b.1) m.
End btree.

(** * Laws *)
Section laws.
Context {V : Type}.
Implicit Types (m : btree V) (k : Z) (v : V).

Lemma btree_wf_nil : btree_wf (V := V) [].
Proof. constructor. Qed.

Lemma btree_insert_elem k v m k' v' :
  btree_wf m →
  (k', v') ∈ btree_insert k v m ↔ (k' = k ∧ v' = v) ∨ (k' ≠ k ∧ (k', v') ∈ m).
Proof.
  induction 1 as [|[k0 v0] m Hm IH Hlt]; simpl.
  { set_solver. }
  rewrite Forall_forall in Hlt.
  assert (∀ x, (k', x) ∈ m → k0 < k') as Hlt' by (intros x Hx; apply (Hlt _ Hx)).
  destruct (Z.ltb_spec k k0); [|destruct (Z.eqb_spec k k0)];
    rewrite !elem_of_cons, ?IH; clear Hlt IH.
  - split; [|naive_solver]. intros [?|[?|Hin]]; simplify_eq; [by left|right..].
    { split; [lia|auto]. }
    split; [|auto]. apply Hlt' in Hin. lia.
  - subst. split; [|naive_solver]. intros [?|Hin]; simplify_eq; [by left|right].
    split; [|auto]. apply Hlt' in Hin. lia.
  - naive_solver.
Qed.

Lemma btree_insert_wf k v m : btree_wf m → btree_wf (btree_insert k v m).
Proof.
  intros Hwf. induction Hwf as [|[k0 v0] m Hm IH Hlt]; simpl.
  { repeat constructor. }
  pose proof Hlt as Hlt'. rewrite Forall_forall in Hlt'.
  destruct (Z.ltb_spec k k0); [|destruct (Z.eqb_spec k k0)].
  - constructor; [by constructor|]. constructor; [done|].
    eapply Forall_impl; [exact Hlt|]. simpl. lia.
  - subst. by constructor.
  - constructor; [done|]. apply Forall_forall. intros [k' v'] Hin. simpl.
    apply btree_insert_elem in Hin as [[-> ->]|[_ Hin]]; [lia| |done].
    apply (Hlt' _ Hin).
Qed.

Lemma btree_filter_wf (P : Z * V → Prop) `{∀ x, Decision (P x)} m :
  btree_wf m → btree_wf (filter P m).
Proof.
  induction 1 as [|kv m Hm IH Hlt]; [constructor|].
  rewrite filter_cons. case_decide; [|done]. constructor; [done|].
  apply Forall_forall. intros x [_ Hx]%list_elem_of_filter.
  rewrite Forall_forall in Hlt. auto.
Qed.

Lemma btree_remove_wf k m : btree_wf m → btree_wf (btree_remove k m).2.
Proof. apply btree_filter_wf. Qed.

Lemma btree_wf_key_inj m k v v' :
  btree_wf m → (k, v) ∈ m → (k, v') ∈ m → v = v'.
Proof.
  induction 1 as [|[k0 v0] m Hm IH Hlt]; [set_solver|].
  rewrite Forall_forall in Hlt.
  intros [?|H1]%elem_of_cons [?|H2]%elem_of_cons; simplify_eq; [done| | |auto].
  - specialize (Hlt _ H2). simpl in Hlt. lia.
  - specialize (Hlt _ H1). simpl in Hlt. lia.
Qed.

Lemma btree_get_elem k v m : btree_wf m → btree_get k m = Some v ↔ (k, v) ∈ m.
Proof.
  intros Hwf. pose proof (btree_wf_key_inj m k) as Hinj.
  induction m as [|[k0 v0] m IH]; simpl; [set_solver|].
  destruct (Z.eqb_spec k k0) as [->|].
  - split; [intros [= ->]; set_solver|]. intros Hin. f_equal.
    eapply Hinj; [done| |done]. set_solver.
  - rewrite elem_of_cons, IH; [naive_solver|by apply StronglySorted_inv in Hwf as [??]|].
    intros v1 v2 _ H1 H2. apply Hinj; [done|set_solver..].
Qed.

(** The last entry of [range(..=hi)] is the one with the greatest key. *)
Lemma btree_last_le_Some m hi k v :
  btree_wf m →
  next_back (btree_range_to_inclusive hi m) = Some (k, v) ↔
  (k, v) ∈ m ∧ k ≤ hi ∧ ∀ k' v', (k', v') ∈ m → k' ≤ hi → k' ≤ k.
Proof.
  unfold next_back, btree_range_to_inclusive. intros Hwf.
  assert (∀ k v, last (filter (λ kv, kv.1 ≤ hi) m) = Some (k, v) →
    (k, v) ∈ m ∧ k ≤ hi ∧ ∀ k' v', (k', v') ∈ m → k' ≤ hi → k' ≤ k) as Hlast.
  { clear k v. intros k v [l Hl]%last_Some.
    assert ((k, v) ∈ filter (λ kv : Z * V, kv.1 ≤ hi) m) as [??]%list_elem_of_filter
      by (rewrite Hl; set_solver).
    split_and!; [done..|]. intros k' v' Hin Hle.
    assert ((k', v') ∈ l ++ [(k, v)]) as [Hin'|Hin']%elem_of_app
      by (rewrite <- Hl; by apply list_elem_of_filter); [|set_solver].
    apply (btree_filter_wf (λ kv, kv.1 ≤ hi)) in Hwf. rewrite Hl in Hwf.
    apply StronglySorted_app_1_elem_of with (x1 := (k', v')) (x2 := (k, v)) in Hwf;
      simpl in *; [lia|done|set_solver]. }
  split; [apply Hlast|]. intros (Hin & Hle & Hmax).
  destruct (last _) as [[k1 v1]|] eqn:E.
  - destruct (Hlast k1 v1 eq_refl) as (Hin1 & Hle1 & Hmax1).
    assert (k1 = k) as -> by (apply Z.le_antisymm; eauto).
    by rewrite (btree_wf_key_inj m k v1 v).
  - apply last_None in E. assert ((k, v) ∈ filter (λ kv : Z * V, kv.1 ≤ hi) m) as Hf
      by by apply list_elem_of_filter.
    rewrite E in Hf. set_solver.
Qed.

Lemma btree_last_le_None m hi :
  next_back (btree_range_to_inclusive hi m) = None ↔ ∀ k v, (k, v) ∈ m → hi < k.
Proof.
  unfold next_back, btree_range_to_inclusive. rewrite last_None. split.
  - intros Hnil k v Hin. destruct (Z.lt_ge_cases hi k); [done|].
    exfalso. eapply (filter_nil_not_elem_of (λ kv : Z * V, kv.1 ≤ hi)); [done| |done]. done.
  - intros Hlt. destruct (filter _ m) as [|[k v] l] eqn:E; [done|exfalso].
    assert ((k, v) ∈ filter (λ kv : Z * V, kv.1 ≤ hi) m) as [? Hin]%list_elem_of_filter
      by (rewrite E; set_solver).
    specialize (Hlt _ _ Hin). simpl in *. lia.
Qed.
End laws.

#[export] Hint Resolve btree_wf_nil btree_insert_wf btree_filter_wf btree_remove_wf : samply.
