(* ===== verification/Types.v ===== *)
(** The plain data the components share: handles, categories, frames and times
    of fxprof-processed-profile (category.rs, category_color.rs, graph_color.rs,
    frame.rs, timestamp.rs, cpu_delta.rs and the handle newtypes), the JSON
    values its [Serialize] implementations produce, and the unresolved stack
    frames of samply/src/shared/types.rs and timestamp_converter.rs.

    A newtype over an integer is that integer. An [f64] is the Standard
    Library's [spec_float] at 53 bits of precision. *)
From S2P Require Import Prelude.
From Stdlib Require Import SpecFloat.
From stdpp Require Import options.
Open Scope Z_scope.

(** * Binary64 floating point *)
Notation f64 := spec_float.
Definition f64_div : f64 → f64 → f64 := SFdiv 53 1024.
Definition f64_mul : f64 → f64 → f64 := SFmul 53 1024.
(** [z as f64]: rounds to nearest, ties to even. *)
Definition f64_of_Z (z : Z) : f64 := binary_normalize 53 1024 z 0 false.
(** [f as u64]: truncates, saturates, and takes NaN to zero. *)
Definition u64_of_f64 (f : f64) : Z :=
  match f with
  | S754_zero _ | S754_nan => 0
  | S754_infinity s => if s then 0 else 2 ^ 64 - 1
  | S754_finite s m e =>
      if s then 0
      else Z.min (2 ^ 64 - 1) (if 0 <=? e then Zpos m * 2 ^ e else Zpos m / 2 ^ (- e))
  end.

(** * JSON values, as [serde_json] builds them *)
Inductive json :=
| JNull
| JBool (b : bool)
| JInt (z : Z)
| JFloat (f : f64)
| JString (s : string)
| JArr (elements : list json)
| JObj (entries : list (string * json)).

Class Serialize (A : Type) := serialize : A → json.
#[global] Instance serialize_Z : Serialize Z := JInt.
#[global] Instance serialize_nat : Serialize nat := λ n, JInt (Z.of_nat n).
#[global] Instance serialize_f64 : Serialize f64 := JFloat.
#[global] Instance serialize_bool : Serialize bool := JBool.
#[global] Instance serialize_string : Serialize string := JString.
#[global] Instance serialize_option {A} `{Serialize A} : Serialize (option A) :=
  from_option serialize JNull.
#[global] Instance serialize_list {A} `{Serialize A} : Serialize (list A) :=
  λ l, JArr (serialize <$> l).

(** * Times *)
(** [Timestamp] and [SamplingInterval]: nanoseconds; [CpuDelta]: microseconds. *)
Record Timestamp := { nanos : Z }.
Record CpuDelta := { micros : Z }.
#[global] Instance Timestamp_eq_dec : EqDecision Timestamp.
Proof. solve_decision. Defined.
#[global] Instance CpuDelta_eq_dec : EqDecision CpuDelta.
Proof. solve_decision. Defined.

Definition from_nanos_since_reference (nanos' : Z) : Timestamp := {| nanos := nanos' |}.
Definition from_millis_since_reference (millis : f64) : Timestamp :=
  {| nanos := u64_of_f64 (f64_mul millis (f64_of_Z 1000000)) |}.
(** Float milliseconds. *)
#[global] Instance serialize_Timestamp : Serialize Timestamp := λ t,
  JFloat (f64_div (f64_of_Z (nanos t)) (f64_of_Z 1000000)).
(** The derived [PartialOrd]. *)
Definition Timestamp_ltb (a b : Timestamp) : bool := nanos a <? nanos b.

Definition CpuDelta_ZERO : CpuDelta := {| micros := 0 |}.
Definition CpuDelta_from_nanos (nanos' : Z) : CpuDelta := {| micros := nanos' / 1000 |}.
Definition CpuDelta_from_micros (micros' : Z) : CpuDelta := {| micros := micros' |}.
Definition CpuDelta_from_millis (millis : f64) : CpuDelta :=
  {| micros := u64_of_f64 (f64_mul millis (f64_of_Z 1000)) |}.
Definition CpuDelta_is_zero (d : CpuDelta) : bool := micros d =? 0.
#[global] Instance serialize_CpuDelta : Serialize CpuDelta := λ d, JInt (micros d).

Record TimestampConverter := { reference_raw : Z; raw_to_ns_factor : Z }.
Definition convert_time (c : TimestampConverter) (timestamp_raw : Z) : Timestamp :=
  from_nanos_since_reference
    (mul_u64 (saturating_sub timestamp_raw (reference_raw c)) (raw_to_ns_factor c)).
Definition convert_cpu_delta (c : TimestampConverter) (delta_raw : Z) : CpuDelta :=
  CpuDelta_from_nanos (mul_u64 delta_raw (raw_to_ns_factor c)).
Definition convert_us (c : TimestampConverter) (time_us : Z) : Timestamp :=
  from_nanos_since_reference
    (saturating_sub (mul_u64 time_us 1000)
       (mul_u64 (reference_raw c) (raw_to_ns_factor c))).

(** * Handles *)
Notation ProcessHandle := nat.
Notation ThreadHandle := nat.
Notation LibraryHandle := nat.
Notation MarkerHandle := nat.
Notation MarkerTypeHandle := nat.
Notation CounterHandle := nat.
Notation GlobalLibIndex := nat.
(** [u32] newtypes. *)
Notation StringIndex := Z.
Notation GlobalStringIndex := Z.
Notation ThreadInternalStringIndex := Z.
Notation StringHandle := Z.
Notation FuncIndex := Z.
Notation ResourceIndex := Z.
Notation NativeSymbolIndex := Z.

(** * Categories *)
Inductive CategoryColor :=
| Transparent | LightBlue | Red | LightRed | Orange | Blue | Green | Purple
| Yellow | Brown | Magenta | LightGreen | Gray | DarkGray.
#[global] Instance serialize_CategoryColor : Serialize CategoryColor := λ c,
  JString match c with
    | Transparent => "transparent"
    | LightBlue => "lightblue"
    | Red => "red"
    | LightRed => "lightred"
    | Orange => "orange"
    | Blue => "blue"
    | Green => "green"
    | Purple => "purple"
    | Yellow => "yellow"
    | Brown => "brown"
    | Magenta => "magenta"
    | LightGreen => "lightgreen"
    | Gray => "grey"
    | DarkGray => "darkgray"
    end.

Module GraphColor.
Inductive t := Blue | Green | Grey | Ink | Magenta | Orange | Purple | Red | Teal | Yellow.
#[global] Instance serialize_GraphColor : Serialize t := λ c,
  JString match c with
    | Blue => "blue"
    | Green => "green"
    | Grey => "grey"
    | Ink => "ink"
    | Magenta => "magenta"
    | Orange => "orange"
    | Purple => "purple"
    | Red => "red"
    | Teal => "teal"
    | Yellow => "yellow"
    end.
End GraphColor.

(** A [u16] newtype. *)
Notation CategoryHandle := Z.
Definition CategoryHandle_OTHER : CategoryHandle := 0.
(** A [u8] newtype. *)
Notation SubcategoryIndex := Z.

Record CategoryPairHandle := {
  pair_category : CategoryHandle;
  pair_subcategory : option SubcategoryIndex
}.
#[global] Instance CategoryPairHandle_eq_dec : EqDecision CategoryPairHandle.
Proof. solve_decision. Defined.
#[global] Program Instance CategoryPairHandle_countable : Countable CategoryPairHandle :=
  inj_countable' (λ p, (pair_category p, pair_subcategory p))
    (λ p, {| pair_category := p.1; pair_subcategory := p.2 |}) _.
Next Obligation. by intros []. Qed.

(** [impl From<CategoryHandle> for CategoryPairHandle]. *)
Definition CategoryPairHandle_from (category : CategoryHandle) : CategoryPairHandle :=
  {| pair_category := category; pair_subcategory := None |}.

Record Category := {
  category_name : string;
  category_color : CategoryColor;
  subcategories : list string
}.

(** [u8::try_from(len).unwrap()] limits a category to 256 subcategories. *)
Definition Category_add_subcategory (c : Category) (subcategory_name : string)
    : res (Category * SubcategoryIndex) :=
  let len := Z.of_nat (length (subcategories c)) in
  subcategory_index ← unwrap (if len <? 2 ^ 8 then Some len else None);
  Ok ({| category_name := category_name c; category_color := category_color c;
         subcategories := push (subcategories c) subcategory_name |}, subcategory_index).

#[global] Instance serialize_Category : Serialize Category := λ c,
  JObj [("name", serialize (category_name c));
        ("color", serialize (category_color c));
        ("subcategories", serialize (push (subcategories c) "Other"))].

Inductive Subcategory :=
| Normal (index : SubcategoryIndex)
| Other (category : CategoryHandle).
#[global] Instance Subcategory_eq_dec : EqDecision Subcategory.
Proof. solve_decision. Defined.

(** The [match subcategory_index] of stack_table.rs and frame_table.rs. *)
Definition subcategory_of_pair (p : CategoryPairHandle) : Subcategory :=
  match pair_subcategory p with
  | Some index => Normal index
  | None => Other (pair_category p)
  end.

(** [SerializableSubcategoryColumn]: panics on a category handle out of range. *)
Definition subcategory_element (categories : list Category) (s : Subcategory) : res json :=
  match s with
  | Normal index => Ok (JInt index)
  | Other category =>
      c ← Prelude.index categories (Z.to_nat category);
      Ok (serialize (length (subcategories c)))
  end.
Definition serialize_subcategory_column (column : list Subcategory) (categories : list Category)
    : res json :=
  JArr <$> mapM (subcategory_element categories) column.

(** * Frames *)
(** The [u32] bits of [FrameFlags]. *)
Notation FrameFlags := Z.
Definition IS_JS : FrameFlags := 1.
Definition IS_RELEVANT_FOR_JS : FrameFlags := 2.
Definition FrameFlags_empty : FrameFlags := 0.
Definition flags_intersects (a b : FrameFlags) : bool := negb (Z.land a b =? 0).
Definition flags_contains (a b : FrameFlags) : bool := Z.land a b =? b.

Inductive Frame :=
| InstructionPointer (ip : Z)
| ReturnAddress (ra : Z)
| AdjustedReturnAddress (ara : Z)
| RelativeAddressFromInstructionPointer (lib : LibraryHandle) (relative_address : Z)
| RelativeAddressFromReturnAddress (lib : LibraryHandle) (relative_address : Z)
| RelativeAddressFromAdjustedReturnAddress (lib : LibraryHandle) (relative_address : Z)
| Label (string_index : StringHandle).

Record FrameInfo := {
  frame : Frame;
  category_pair : CategoryPairHandle;
  flags : FrameFlags
}.
#[global] Instance Frame_eq_dec : EqDecision Frame.
Proof. solve_decision. Defined.
#[global] Instance FrameInfo_eq_dec : EqDecision FrameInfo.
Proof. solve_decision. Defined.

(** * Unresolved stack frames (samply/src/shared/types.rs) *)
Inductive StackMode := User | Kernel.
#[global] Instance StackMode_eq_dec : EqDecision StackMode.
Proof. solve_decision. Defined.

Inductive StackFrame :=
| SF_InstructionPointer (addr : Z) (mode : StackMode)
| SF_ReturnAddress (addr : Z) (mode : StackMode)
| SF_AdjustedReturnAddress (addr : Z) (mode : StackMode)
| SF_TruncatedStackMarker.
#[global] Instance StackFrame_eq_dec : EqDecision StackFrame.
Proof. solve_decision. Defined.
#[global] Program Instance StackMode_countable : Countable StackMode :=
  inj_countable' (λ m, if decide (m = User) then true else false)
    (λ b, if b : bool then User else Kernel) _.
Next Obligation. by intros []. Qed.
#[global] Program Instance StackFrame_countable : Countable StackFrame :=
  inj_countable' (λ f, match f with
    | SF_InstructionPointer a m => inl (inl (a, m))
    | SF_ReturnAddress a m => inl (inr (a, m))
    | SF_AdjustedReturnAddress a m => inr (inl (a, m))
    | SF_TruncatedStackMarker => inr (inr tt) end)
   (λ c, match c with
    | inl (inl (a, m)) => SF_InstructionPointer a m
    | inl (inr (a, m)) => SF_ReturnAddress a m
    | inr (inl (a, m)) => SF_AdjustedReturnAddress a m
    | inr (inr tt) => SF_TruncatedStackMarker end) _.
Next Obligation. by intros []. Qed.

Definition stack_mode (f : StackFrame) : option StackMode :=
  match f with
  | SF_InstructionPointer _ m | SF_ReturnAddress _ m | SF_AdjustedReturnAddress _ m => Some m
  | SF_TruncatedStackMarker => None
  end.

(** * Columns *)

(** [SerializableSingleValueColumn]. *)
Definition serialize_single_value_column (value : json) (len : nat) : json :=
  JArr (replicate len value).

(** [SerializableOptionalTimestampColumn]: a missing timestamp is written 0.0. *)
Definition serialize_optional_timestamp_column (column : list (option Timestamp)) : json :=
  JArr ((λ t, match t with
              | Some timestamp => serialize timestamp
              | None => JFloat (S754_zero false)
              end) <$> column).

(** The entry of an object, and the length of an array. *)
Fixpoint entry (key : string) (entries : list (string * json)) : option json :=
  match entries with
  | [] => None
  | (k, v) :: entries' => if decide (k = key) then Some v else entry key entries'
  end.
Definition json_field (key : string) (j : json) : option json :=
  match j with JObj entries => entry key entries | _ => None end.
Definition json_length (j : json) : option nat :=
  match j with JArr elements => Some (length elements) | _ => None end.
