(* ===== verification/LibMappings.v ===== *)
(** Address-space maps: [LibMappings<T>] of
    fxprof-processed-profile/src/lib_mappings.rs. *)
From S2P Require Import Prelude BTree.
From stdpp Require Import options.
Open Scope Z_scope.

Module LibMappings.

(** * Data *)
Record Mapping (T : Type) := {
  start_avma : Z;
  end_avma : Z;
  relative_address_at_start : Z;
  value : T
}.
Arguments Build_Mapping {T}.
Arguments start_avma {T}.
Arguments end_avma {T}.
Arguments relative_address_at_start {T}.
Arguments value {T}.

(** The [BTreeMap<u64, Mapping<T>>] field [map], keyed by the start address. *)
Notation LibMappings T := (btree (Mapping T)).

Section ops.
Context {T : Type}.
Implicit Types (m : LibMappings T) (mp : Mapping T).

Definition new : LibMappings T := [].

(** * Operations *)
Definition lookup_impl m (avma : Z) : option (Mapping T) :=
  match next_back (btree_range_to_inclusive avma m) with
  | Some (_start_avma, last_mapping) =>
      if avma <? end_avma last_mapping then Some last_mapping else None
  | None => None
  end.

Definition add_mapping m (start_avma' end_avma' relative_address_at_start' : Z) (value' : T)
    : res (LibMappings T) :=
  let removal_avma_range_start :=
    match lookup_impl m start_avma' with
    | Some mapping_overlapping_with_start_avma =>
        start_avma mapping_overlapping_with_start_avma
    | None => start_avma'
    end in
  range ← btree_range removal_avma_range_start end_avma' m;
  let overlapping_keys := range.*1 in
  let m' := foldl (λ m key, (btree_remove key m).2) m overlapping_keys in
  Ok (btree_insert start_avma'
        {| start_avma := start_avma'; end_avma := end_avma';
           relative_address_at_start := relative_address_at_start'; value := value' |} m').

Definition remove_mapping m (start_avma' : Z) : option (Z * T) * LibMappings T :=
  let '(removed, m') := btree_remove start_avma' m in
  ((λ mp, (relative_address_at_start mp, value mp)) <$> removed, m').

Definition clear m : LibMappings T := [].

Definition lookup m (avma : Z) : option T := value <$> lookup_impl m avma.

(** [(avma - start) as u32] truncates; the [u32] sum wraps. *)
Definition convert_address m (avma : Z) : option (Z * T) :=
  mapping ← lookup_impl m avma;
  let offset_from_mapping_start := wrap_u32 (sub_u64 avma (start_avma mapping)) in
  let relative_address :=
    add_u32 (relative_address_at_start mapping) offset_from_mapping_start in
  Some (relative_address, value mapping).

(** * Invariant: sorted by start, keyed by start, and disjoint *)
Definition wf m : Prop :=
  btree_wf m ∧
  (∀ k mp, (k, mp) ∈ m → k = start_avma mp) ∧
  (∀ k mp k' mp', (k, mp) ∈ m → (k', mp') ∈ m → k < k' → end_avma mp ≤ k').

Definition covers mp (avma : Z) : Prop := start_avma mp ≤ avma < end_avma mp.

(** The half-open ranges of [mp] and [s..e] share an address. *)
Definition overlaps mp (s e : Z) : bool := (start_avma mp <? e) && (s <? end_avma mp).

(** The ranges are addresses, no range is longer than the [u32] relative
    addresses can count, and the relative addresses it spans do not wrap. *)
Definition fits mp : Prop :=
  u64_range (start_avma mp) ∧ u64_range (end_avma mp) ∧
  0 ≤ relative_address_at_start mp ∧
  relative_address_at_start mp + (end_avma mp - start_avma mp) ≤ 2 ^ 32.

(** A sequence of mutations, as the client performs them. *)
Inductive op :=
| Add (start_avma' end_avma' relative_address_at_start' : Z) (value' : T)
| Remove (start_avma' : Z)
| Clear.

Definition apply_op (o : op) m : res (LibMappings T) :=
  match o with
  | Add s e r v => add_mapping m s e r v
  | Remove s => Ok (remove_mapping m s).2
  | Clear => Ok (clear m)
  end.

Fixpoint run (ops : list op) m : res (LibMappings T) :=
  match ops with
  | [] => Ok m
  | o :: ops' => apply_op o m ≫= run ops'
  end.

(** Mappings are added with their range the right way round. *)
Definition op_ordered (o : op) : Prop :=
  match o with Add s e _ _ => s ≤ e | _ => True end.

(** * Lemmas *)
Lemma wf_new_mappings : wf new.
Proof. split_and!; [apply btree_wf_nil|set_solver..]. Qed.

Lemma lookup_impl_Some m a mp :
  wf m → lookup_impl m a = Some mp ↔ (start_avma mp, mp) ∈ m ∧ covers mp a.
Proof.
  intros (Hwf & Hkey & Hdisj). unfold lookup_impl, covers.
  destruct (next_back _) as [[k mp0]|] eqn:E.
  - apply btree_last_le_Some in E as (Hin & Hle & Hmax); [|done].
    pose proof (Hkey _ _ Hin) as ->. destruct (Z.ltb_spec a (end_avma mp0)).
    + split; [intros [= <-]; auto with lia|]. intros (Hin' & Hs & He). f_equal.
      assert (start_avma mp ≤ start_avma mp0) by eauto.
      destruct (decide (start_avma mp = start_avma mp0)) as [Heq|].
      { rewrite Heq in Hin'. by eapply btree_wf_key_inj. }
      assert (end_avma mp ≤ start_avma mp0) by (eapply Hdisj; [exact Hin'|exact Hin|lia]). lia.
    + split; [done|]. intros (Hin' & Hs & He).
      assert (start_avma mp ≤ start_avma mp0) by eauto.
      destruct (decide (start_avma mp = start_avma mp0)) as [Heq|].
      { rewrite Heq in Hin'. assert (mp = mp0) as -> by by eapply btree_wf_key_inj. lia. }
      assert (end_avma mp ≤ start_avma mp0) by (eapply Hdisj; [exact Hin'|exact Hin|lia]). lia.
  - rewrite btree_last_le_None in E. split; [done|]. intros (Hin & ? & _).
    specialize (E _ _ Hin). lia.
Qed.

Lemma foldl_remove_elem (keys : list Z) m k mp :
  (k, mp) ∈ foldl (λ m key, (btree_remove key m).2) m keys ↔ (k, mp) ∈ m ∧ k ∉ keys.
Proof.
  revert m. induction keys as [|key keys IH]; intros m; simpl; [set_solver|].
  rewrite IH, list_elem_of_filter. simpl. set_solver.
Qed.

Lemma foldl_remove_wf (keys : list Z) m :
  btree_wf m → btree_wf (foldl (λ m key, (btree_remove key m).2) m keys).
Proof.
  revert m. induction keys as [|key keys IH]; intros m Hwf; simpl; [done|].
  apply IH, btree_remove_wf, Hwf.
Qed.

(** The start of the range of keys that [add_mapping] removes. *)
Definition removal_start m (s : Z) : Z :=
  match lookup_impl m s with Some mp => start_avma mp | None => s end.

Lemma removal_start_le m s : wf m → removal_start m s ≤ s.
Proof.
  intros Hwf. unfold removal_start. destruct (lookup_impl m s) eqn:E; [|lia].
  apply lookup_impl_Some in E as (_ & ? & _); done.
Qed.

Lemma add_mapping_Ok m s e r v m' :
  wf m → add_mapping m s e r v = Ok m' →
  removal_start m s ≤ e ∧ btree_wf m' ∧
  ∀ k mp, (k, mp) ∈ m' ↔
    (k = s ∧ mp = {| start_avma := s; end_avma := e;
                     relative_address_at_start := r; value := v |}) ∨
    (k ≠ s ∧ (k, mp) ∈ m ∧ ¬ removal_start m s ≤ k < e).
Proof.
  intros (Hwf & Hkey & Hdisj). unfold add_mapping.
  change (match lookup_impl m s with Some _ => _ | None => _ end) with (removal_start m s).
  unfold btree_range. intros Hadd. destruct (Z.ltb_spec e (removal_start m s)); [done|].
  simpl in Hadd. injection Hadd as <-. split_and!; [done| |].
  - by apply btree_insert_wf, foldl_remove_wf.
  - intros k mp. rewrite btree_insert_elem by by apply foldl_remove_wf.
    rewrite foldl_remove_elem, list_elem_of_fmap.
    split; (intros [?|(Hne & Hin & Hr)]; [by left|right]); split_and!; try done.
    + intros Hrange. apply Hr. exists (k, mp). split; [done|].
      by apply list_elem_of_filter.
    + intros ([k' mp'] & -> & [Hr' _]%list_elem_of_filter). by apply Hr.
Qed.

Lemma add_mapping_ordered m s e r v : wf m → s ≤ e → is_Ok (add_mapping m s e r v).
Proof.
  intros Hwf Hse. unfold add_mapping.
  change (match lookup_impl m s with Some _ => _ | None => _ end) with (removal_start m s).
  pose proof (removal_start_le m s Hwf). unfold btree_range.
  destruct (Z.ltb_spec e (removal_start m s)); [lia|]. by eexists.
Qed.

(** What is left to the side of the removed range does not reach into it. *)
Lemma kept_below m s k mp :
  wf m → (k, mp) ∈ m → k < removal_start m s → end_avma mp ≤ removal_start m s.
Proof.
  intros Hwf Hin Hlt. pose proof Hwf as (_ & Hkey & Hdisj).
  unfold removal_start in *. destruct (lookup_impl m s) as [mp'|] eqn:E.
  - apply lookup_impl_Some in E as [Hin' _]; [|done]. by eapply (Hdisj k mp _ mp').
  - destruct (Z.le_gt_cases (end_avma mp) s); [done|].
    assert (lookup_impl m s = Some mp); [|congruence].
    apply lookup_impl_Some; [done|]. pose proof (Hkey _ _ Hin) as ->.
    split; [done|]. unfold covers. lia.
Qed.

Lemma add_mapping_wf m s e r v m' :
  wf m → s ≤ e → add_mapping m s e r v = Ok m' → wf m'.
Proof.
  intros Hwf Hse Hadd. pose proof Hwf as (_ & Hkey & Hdisj).
  apply add_mapping_Ok in Hadd as (Hle & Hbt & Hin); [|done]. split_and!; [done| |].
  - intros k mp [[-> ->]|(_ & Hk & _)]%Hin; [done|by apply Hkey].
  - intros k mp k' mp' [[-> ->]|(Hne & Hk & Hr)]%Hin [[-> ->]|(Hne' & Hk' & Hr')]%Hin Hlt;
      simpl; [lia| | |by eapply (Hdisj k mp)].
    + pose proof (removal_start_le m s Hwf). lia.
    + pose proof (removal_start_le m s Hwf).
      pose proof (kept_below m s k mp Hwf Hk). lia.
Qed.

Lemma remove_mapping_wf m s : wf m → wf (remove_mapping m s).2.
Proof.
  intros (Hwf & Hkey & Hdisj). unfold remove_mapping. simpl.
  split_and!; [by apply btree_filter_wf| |].
  - intros k mp [_ Hk]%list_elem_of_filter. by apply Hkey.
  - intros k mp k' mp' [_ Hk]%list_elem_of_filter [_ Hk']%list_elem_of_filter.
    by eapply Hdisj.
Qed.

Lemma apply_op_wf o m : wf m → op_ordered o → ∃ m', apply_op o m = Ok m' ∧ wf m'.
Proof.
  intros Hwf Ho. destruct o as [s e r v|s|]; simpl in *.
  - destruct (add_mapping_ordered m s e r v Hwf Ho) as [m' Hm'].
    exists m'. split; [done|]. by eapply add_mapping_wf.
  - eexists. split; [done|]. by apply remove_mapping_wf.
  - eexists. split; [done|]. apply wf_new_mappings.
Qed.

(** An old mapping survives exactly when the new range misses it. *)
Lemma removed_overlaps m s e k mp a :
  wf m → s < e → (k, mp) ∈ m → covers mp a →
  (removal_start m s ≤ k < e ∨ k = s) ↔ overlaps mp s e = true.
Proof.
  intros Hwf Hse Hin [Ha Ha']. pose proof Hwf as (_ & Hkey & Hdisj).
  pose proof (Hkey _ _ Hin) as ->. unfold overlaps.
  rewrite andb_true_iff, !Z.ltb_lt. pose proof (removal_start_le m s Hwf) as Hrs.
  split; [|intros [H1 H2]; destruct (Z.le_gt_cases (removal_start m s) (start_avma mp))].
  - intros [[H1 H2]|H1]; [split; [lia|]|lia].
    destruct (Z.lt_ge_cases s (end_avma mp)); [done|]. exfalso.
    unfold removal_start in *. destruct (lookup_impl m s) as [mp'|] eqn:E; [|lia].
    apply lookup_impl_Some in E as [Hin' [??]]; [|done].
    destruct (decide (start_avma mp = start_avma mp')) as [Heq|].
    + assert (mp = mp') as -> by
        (eapply btree_wf_key_inj; [apply Hwf|exact Hin|by rewrite Heq]). lia.
    + assert (end_avma mp' ≤ start_avma mp) by (eapply Hdisj; [exact Hin'|exact Hin|lia]). lia.
  - left. lia.
  - pose proof (kept_below m s _ mp Hwf Hin). lia.
Qed.
End ops.

(** What an address resolves to after an addition. *)
Lemma add_mapping_lookup_impl {T} (m : LibMappings T) (s e r : Z) (v : T) :
  wf m → s < e →
  ∃ m', add_mapping m s e r v = Ok m' ∧
    ∀ a, lookup_impl m' a =
      if (s <=? a) && (a <? e) then
        Some {| start_avma := s; end_avma := e; relative_address_at_start := r; value := v |}
      else
        match lookup_impl m a with
        | Some old => if overlaps old s e then None else Some old
        | None => None
        end.
Proof.
  intros Hwf Hse. destruct (add_mapping_ordered m s e r v Hwf) as [m' Hadd]; [lia|].
  exists m'. split; [done|]. intros a.
  assert (wf m') as Hwf' by (eapply add_mapping_wf; [done| |done]; lia).
  apply add_mapping_Ok in Hadd as (_ & _ & Hin); [|done].
  apply option_eq. intros mp. rewrite lookup_impl_Some, Hin by done.
  destruct ((s <=? a) && (a <? e)) eqn:Ea.
  - rewrite andb_true_iff, Z.leb_le, Z.ltb_lt in Ea. split.
    + intros [[[_ ->]|(Hne & Hk & Hr)] Hc]; [done|]. exfalso.
      pose proof (removed_overlaps m s e _ mp a Hwf Hse Hk Hc) as Hov.
      assert (overlaps mp s e = true) as Hov'; [|intuition lia].
      unfold overlaps, covers in *. rewrite andb_true_iff, !Z.ltb_lt. lia.
    + intros [= <-]. split; [by left|]. unfold covers. simpl. lia.
  - rewrite andb_false_iff, Z.leb_gt, Z.ltb_ge in Ea. split.
    + intros [[[_ ->]|(Hne & Hk & Hr)] Hc]; [unfold covers in Hc; simpl in Hc; lia|].
      rewrite (proj2 (lookup_impl_Some m a mp Hwf)) by done.
      pose proof (removed_overlaps m s e _ mp a Hwf Hse Hk Hc) as Hov.
      destruct (overlaps mp s e); [|done]. intuition lia.
    + destruct (lookup_impl m a) as [old|] eqn:E; [|done].
      apply lookup_impl_Some in E as [Hk Hc]; [|done].
      pose proof (removed_overlaps m s e _ old a Hwf Hse Hk Hc) as Hov.
      destruct (overlaps old s e); [done|]. intros [= <-]. split; [right|done].
      intuition congruence.
Qed.

(** * Properties *)

(** C17: Adding a mapping never panics when its range is the right way round.
    Afterwards an address inside the range resolves to the new value, at the
    new mapping's relative address plus the distance from its start; an address
    outside of it resolves as before, unless the mapping it was in shares an
    address with the new range, and to nothing then. *)
Theorem add_mapping_convert {T} (m : LibMappings T) (s e r : Z) (v : T) :
  wf m → s < e →
  ∃ m', add_mapping m s e r v = Ok m' ∧
    ∀ a,
      let displaced := match lookup_impl m a with Some old => overlaps old s e | None => false end in
      lookup m' a =
        (if (s <=? a) && (a <? e) then Some v else if displaced then None else lookup m a) ∧
      convert_address m' a =
        (if (s <=? a) && (a <? e) then Some (add_u32 r (wrap_u32 (sub_u64 a s)), v)
         else if displaced then None else convert_address m a).
Proof.
  intros Hwf Hse. destruct (add_mapping_lookup_impl m s e r v Hwf Hse) as (m' & Hm' & Hl).
  exists m'. split; [done|]. intros a. unfold lookup, convert_address. rewrite Hl.
  destruct (_ && _); [done|]. destruct (lookup_impl m a) as [old|]; [|done].
  by destruct (overlaps old s e).
Qed.

Example add_mapping_convert_witness :
  ∃ m' : LibMappings nat,
    add_mapping (btree_insert 100 {| start_avma := 100; end_avma := 200;
      relative_address_at_start := 7; value := 1%nat |} []) 150 250 9 2%nat = Ok m' ∧
    lookup m' 120 = None ∧ convert_address m' 160 = Some (19, 2%nat).
Proof.
  destruct (add_mapping_convert (btree_insert 100 {| start_avma := 100; end_avma := 200;
      relative_address_at_start := 7; value := 1%nat |} []) 150 250 9 2%nat) as (m' & Hm' & Hl).
  - split_and!; [repeat constructor| |].
    + intros k mp [?|[]%elem_of_nil]%elem_of_cons. by simplify_eq/=.
    + intros k mp k' mp' [?|[]%elem_of_nil]%elem_of_cons [?|[]%elem_of_nil]%elem_of_cons.
      simplify_eq/=. lia.
  - lia.
  - exists m'. split; [done|]. rewrite (proj1 (Hl 120)), (proj2 (Hl 160)). by vm_compute.
Defined.

(** C18: From the empty map, no sequence of additions (each with its range the right
    way round), removals and clears panics, and the mappings it leaves are
    pairwise disjoint: an address is covered by at most one of them, the one
    [lookup_impl] finds. *)
Theorem run_disjoint {T} (ops : list (op (T := T))) :
  Forall op_ordered ops →
  ∃ m, run ops new = Ok m ∧
    ∀ a mp, lookup_impl m a = Some mp ↔
      (mp ∈ m.*2 ∧ covers mp a ∧ ∀ mp', mp' ∈ m.*2 → covers mp' a → mp' = mp).
Proof.
  intros Hops.
  assert (∀ m0, wf m0 → ∃ m, run ops m0 = Ok m ∧ wf m) as Hrun.
  { induction Hops as [|o ops Ho Hops IH]; intros m0 Hm0; simpl; [eauto|].
    destruct (apply_op_wf o m0 Hm0 Ho) as (m1 & -> & Hm1). simpl. by apply IH. }
  destruct (Hrun new wf_new_mappings) as (m & Hm & Hwf). exists m. split; [done|]. intros a mp.
  assert (∀ mp', mp' ∈ m.*2 ↔ (start_avma mp', mp') ∈ m) as Hin.
  { intros mp'. rewrite list_elem_of_fmap. split; [|by eexists (_, _)].
    intros ([k mp''] & -> & Hk). simpl in *. pose proof Hwf as (_ & Hkey & _).
    by rewrite <-(Hkey _ _ Hk). }
  split.
  - intros Hl. pose proof (proj1 (lookup_impl_Some m a mp Hwf) Hl) as [H1 H2].
    rewrite Hin. split_and!; [done..|]. intros mp' H1' H2'.
    assert (lookup_impl m a = Some mp'); [|congruence].
    apply lookup_impl_Some; [done|]. by rewrite <-Hin.
  - intros (H1 & H2 & _). apply lookup_impl_Some; [done|]. by rewrite <-Hin.
Qed.

Example run_disjoint_witness :
  ∃ m, run [Add 0 10 0 1%nat; Add 5 20 0 2%nat; Remove 7; Add 30 30 0 3%nat] new = Ok m ∧
    lookup m 12 = Some 2%nat.
Proof.
  destruct (run_disjoint [Add 0 10 0 1%nat; Add 5 20 0 2%nat; Remove 7; Add 30 30 0 3%nat])
    as (m & Hm & _).
  - repeat constructor; simpl; lia.
  - exists m. split; [done|]. vm_compute in Hm. by injection Hm as <-.
Defined.

(** In a well-formed map over [u64] addresses, an address converts exactly when a
    mapping covers it; the relative address is the mapping's plus the distance
    from its start modulo 2^32, and exactly that sum for a mapping that fits. *)
Theorem convert_address_exact {T} (m : LibMappings T) (a r : Z) (v : T) :
  wf m → u64_range a → (∀ mp, mp ∈ m.*2 → u64_range (start_avma mp)) →
  convert_address m a = Some (r, v) ↔
  ∃ mp, lookup_impl m a = Some mp ∧ v = value mp ∧
    r = (relative_address_at_start mp + (a - start_avma mp)) mod 2 ^ 32 ∧
    (fits mp → r = relative_address_at_start mp + (a - start_avma mp)).
Proof.
  intros Hwf Ha Hr. unfold convert_address.
  destruct (lookup_impl m a) as [mp|] eqn:E; simpl; [|naive_solver].
  apply lookup_impl_Some in E as [Hin [Hs He]]; [|done].
  assert (u64_range (start_avma mp)) as Hsr by (apply Hr, list_elem_of_fmap; by eexists (_, _)).
  rewrite sub_u64_id by done.
  assert (add_u32 (relative_address_at_start mp) (wrap_u32 (a - start_avma mp)) =
    (relative_address_at_start mp + (a - start_avma mp)) mod 2 ^ 32) as ->.
  { unfold add_u32, wrap_u32. by rewrite Zplus_mod_idemp_r. }
  split; [|by intros (? & [= <-] & -> & -> & _)].
  intros [= <- <-]. exists mp. split_and!; [done..|].
  intros (_ & _ & H0 & Hlen). apply Z.mod_small. lia.
Qed.

Example convert_address_exact_witness :
  convert_address (btree_insert 4096 {| start_avma := 4096; end_avma := 8192;
    relative_address_at_start := 256; value := 1%nat |} []) 4100 = Some (260, 1%nat).
Proof.
  apply convert_address_exact.
  - split_and!; [repeat constructor| |].
    + intros k mp [?|[]%elem_of_nil]%elem_of_cons. by simplify_eq/=.
    + intros k mp k' mp' [?|[]%elem_of_nil]%elem_of_cons [?|[]%elem_of_nil]%elem_of_cons.
      simplify_eq/=. lia.
  - unfold u64_range. lia.
  - intros mp [?|[]%elem_of_nil]%elem_of_cons. simplify_eq/=. unfold u64_range. lia.
  - exists {| start_avma := 4096; end_avma := 8192; relative_address_at_start := 256; value := 1%nat |}.
    by split_and!; [vm_compute..|intros _].
Defined.
End LibMappings.
