(* ===== verification/Hierarchy.v ===== *)
(** The timestamped library mappings of one process, samply/src/shared/lib_mappings.rs:
    queues of mapping operations and the three-level lookup (regular libraries,
    jitdump files in order, perf map) that resolves user addresses. *)
From S2P Require Import Prelude BTree Types LibMappings.
From stdpp Require Import options.
Open Scope Z_scope.

Module Hierarchy.

(** * Data *)
(** [JsName] and [JsFrame] of jit_category_manager.rs. *)
Inductive JsName := SelfHosted (name : StringHandle) | NonSelfHosted (name : StringHandle).
Inductive JsFrame :=
| NativeFrameIsJs
| RegularInAdditionToNativeFrame (name : JsName)
| BaselineInterpreterStub (name : JsName)
| BaselineInterpreter.
Inductive AndroidArtInfo := LibArt | JavaFrame.
#[global] Instance JsName_eq_dec : EqDecision JsName.
Proof. solve_decision. Defined.
#[global] Instance JsFrame_eq_dec : EqDecision JsFrame.
Proof. solve_decision. Defined.
#[global] Instance AndroidArtInfo_eq_dec : EqDecision AndroidArtInfo.
Proof. solve_decision. Defined.

Record LibMappingInfo := {
  lib_handle : LibraryHandle;
  category : option CategoryPairHandle;
  js_frame : option JsFrame;
  art_info : option AndroidArtInfo
}.

Definition new_lib (lib : LibraryHandle) : LibMappingInfo :=
  {| lib_handle := lib; category := None; js_frame := None; art_info := None |}.
Definition new_lib_with_category (lib : LibraryHandle) (c : CategoryPairHandle) : LibMappingInfo :=
  {| lib_handle := lib; category := Some c; js_frame := None; art_info := None |}.
Definition new_jit_function (lib : LibraryHandle) (c : CategoryPairHandle) (js : option JsFrame)
    : LibMappingInfo :=
  {| lib_handle := lib; category := Some c; js_frame := js; art_info := None |}.
Definition new_libart_mapping (lib : LibraryHandle) : LibMappingInfo :=
  {| lib_handle := lib; category := None; js_frame := None; art_info := Some LibArt |}.
Definition new_java_mapping (lib : LibraryHandle) (c : option CategoryPairHandle) : LibMappingInfo :=
  {| lib_handle := lib; category := c; js_frame := None; art_info := Some JavaFrame |}.

Record LibMappingAdd := {
  add_start_avma : Z;
  add_end_avma : Z;
  add_relative_address_at_start : Z;
  add_info : LibMappingInfo
}.
Record LibMappingMove := { old_start_avma : Z; new_start_avma : Z; new_end_avma : Z }.
Record LibMappingRemove := { remove_start_avma : Z }.

Inductive LibMappingOp :=
| Add (op : LibMappingAdd)
| Move (op : LibMappingMove)
| Remove (op : LibMappingRemove)
| Clear.

Notation Mappings := (LibMappings.LibMappings LibMappingInfo).

(** [LibMappingOpQueue], and what is left of its iterator. *)
Notation LibMappingOpQueue := (list (Z * LibMappingOp)).

Record LibMappingsHierarchy := {
  regular_libs : Mappings * LibMappingOpQueue;
  jitdumps : list (Mappings * LibMappingOpQueue);
  perf_map : option Mappings
}.

(** * Operations *)
Definition queue_push (q : LibMappingOpQueue) (timestamp : Z) (op : LibMappingOp)
    : LibMappingOpQueue := push q (timestamp, op).

Definition next_op_if_at_or_before (q : LibMappingOpQueue) (timestamp : Z)
    : option LibMappingOp * LibMappingOpQueue :=
  match q with
  | [] => (None, q)
  | (t, op) :: q' => if timestamp <? t then (None, q) else (Some op, q')
  end.

Definition apply_to (op : LibMappingOp) (m : Mappings) : res Mappings :=
  match op with
  | Add op =>
      LibMappings.add_mapping m (add_start_avma op) (add_end_avma op)
        (add_relative_address_at_start op) (add_info op)
  | Move op =>
      match LibMappings.remove_mapping m (old_start_avma op) with
      | (Some (relative_address_at_start, info), m') =>
          LibMappings.add_mapping m' (new_start_avma op) (new_end_avma op)
            relative_address_at_start info
      | (None, m') => Ok m'
      end
  | Remove op => Ok (LibMappings.remove_mapping m (remove_start_avma op)).2
  | Clear => Ok (LibMappings.clear m)
  end.

(** The [while let Some(op) = ...next_op_if_at_or_before(timestamp)] loop. Each
    round takes an element off the queue, so its length is enough fuel. *)
Fixpoint drain (fuel : nat) (timestamp : Z) (mq : Mappings * LibMappingOpQueue)
    : res (Mappings * LibMappingOpQueue) :=
  match next_op_if_at_or_before mq.2 timestamp with
  | (None, q) => Ok (mq.1, q)
  | (Some op, q) =>
      match fuel with
      | O => Panic
      | S fuel' => m ← apply_to op mq.1; drain fuel' timestamp (m, q)
      end
  end.
Definition drain_queue (timestamp : Z) (mq : Mappings * LibMappingOpQueue) :=
  drain (length mq.2) timestamp mq.

Definition new (regular_lib_mappings_ops : LibMappingOpQueue) : LibMappingsHierarchy :=
  {| regular_libs := (LibMappings.new, regular_lib_mappings_ops); jitdumps := [];
     perf_map := None |}.

Definition add_jitdump_lib_mappings_ops (h : LibMappingsHierarchy) (ops : LibMappingOpQueue)
    : LibMappingsHierarchy :=
  {| regular_libs := regular_libs h;
     jitdumps := push (jitdumps h) (LibMappings.new, ops);
     perf_map := perf_map h |}.

Definition add_perf_map_mappings (h : LibMappingsHierarchy) (mappings : Mappings)
    : LibMappingsHierarchy :=
  {| regular_libs := regular_libs h; jitdumps := jitdumps h; perf_map := Some mappings |}.

Definition process_ops (h : LibMappingsHierarchy) (timestamp : Z) : res LibMappingsHierarchy :=
  regular ← drain_queue timestamp (regular_libs h);
  jits ← mapM (drain_queue timestamp) (jitdumps h);
  Ok {| regular_libs := regular; jitdumps := jits; perf_map := perf_map h |}.

(** The [for (mappings, _ops) in &self.jitdumps] loop. *)
Fixpoint convert_in_jitdumps (js : list (Mappings * LibMappingOpQueue)) (address : Z)
    : option (Z * LibMappingInfo) :=
  match js with
  | [] => None
  | (mappings, _) :: js' =>
      match LibMappings.convert_address mappings address with
      | Some x => Some x
      | None => convert_in_jitdumps js' address
      end
  end.

Definition convert_address (h : LibMappingsHierarchy) (address : Z)
    : option (Z * LibMappingInfo) :=
  match LibMappings.convert_address (regular_libs h).1 address with
  | Some x => Some x
  | None =>
      match convert_in_jitdumps (jitdumps h) address with
      | Some x => Some x
      | None =>
          match perf_map h with
          | Some perf_map =>
              match LibMappings.convert_address perf_map address with
              | Some x => Some x
              | None => None
              end
          | None => None
          end
      end
  end.

(** * Specification: the operations due at a time, in queue order *)

(** The leading operations whose time has come. A later operation with an
    earlier timestamp waits behind an operation that is not due. *)
Fixpoint due (timestamp : Z) (q : LibMappingOpQueue) : list LibMappingOp :=
  match q with
  | [] => []
  | (t, op) :: q' => if timestamp <? t then [] else op :: due timestamp q'
  end.
Definition apply_all (ops : list LibMappingOp) (m : Mappings) : res Mappings :=
  foldl (λ r op, r ≫= apply_to op) (Ok m) ops.

(** Every range in the queue is the right way round. *)
Definition op_ordered (op : LibMappingOp) : Prop :=
  match op with
  | Add op => add_start_avma op ≤ add_end_avma op
  | Move op => new_start_avma op ≤ new_end_avma op
  | _ => True
  end.
Definition queue_ordered (q : LibMappingOpQueue) : Prop := Forall (λ p, op_ordered p.2) q.
Definition level_wf (mq : Mappings * LibMappingOpQueue) : Prop :=
  LibMappings.wf mq.1 ∧ queue_ordered mq.2.
Definition wf (h : LibMappingsHierarchy) : Prop :=
  level_wf (regular_libs h) ∧ Forall level_wf (jitdumps h) ∧
  (∀ m, perf_map h = Some m → LibMappings.wf m).

(** * Lemmas *)
Lemma apply_all_cons op ops m : apply_all (op :: ops) m = apply_to op m ≫= apply_all ops.
Proof.
  unfold apply_all. simpl. destruct (apply_to op m) as [m'|]; simpl; [done|].
  induction ops; simpl in *; done.
Qed.

Lemma drain_enough fuel timestamp m q :
  (length q ≤ fuel)%nat →
  drain fuel timestamp (m, q) =
  m' ← apply_all (due timestamp q) m; Ok (m', drop (length (due timestamp q)) q).
Proof.
  revert fuel m. induction q as [|[t op] q IH]; intros fuel m Hle; [by destruct fuel|].
  destruct fuel as [|fuel]; simpl in *; [lia|].
  destruct (timestamp <? t); [done|]. rewrite apply_all_cons.
  destruct (apply_to op m) as [m'|]; simpl; [|done]. apply IH. lia.
Qed.

Lemma drain_queue_spec timestamp m q :
  drain_queue timestamp (m, q) =
  m' ← apply_all (due timestamp q) m; Ok (m', drop (length (due timestamp q)) q).
Proof. by apply drain_enough. Qed.

Lemma apply_to_wf op m :
  LibMappings.wf m → op_ordered op → ∃ m', apply_to op m = Ok m' ∧ LibMappings.wf m'.
Proof.
  intros Hwf Hop. destruct op as [op|op|op|].
  - by apply (LibMappings.apply_op_wf (LibMappings.Add _ _ _ _)).
  - pose proof (LibMappings.remove_mapping_wf m (old_start_avma op) Hwf) as Hwf'.
    unfold apply_to. destruct (LibMappings.remove_mapping m _) as [[[r i]|] m']; [|by exists m'].
    by apply (LibMappings.apply_op_wf (LibMappings.Add _ _ _ _)).
  - eexists. split; [done|]. by apply LibMappings.remove_mapping_wf.
  - eexists. split; [done|]. apply LibMappings.wf_new_mappings.
Qed.

Lemma drain_queue_wf timestamp mq :
  level_wf mq → ∃ mq', drain_queue timestamp mq = Ok mq' ∧ level_wf mq'.
Proof.
  destruct mq as [m q]. intros [Hm Hq]. rewrite drain_queue_spec. simpl in *.
  assert (∀ ops m0, Forall op_ordered ops → LibMappings.wf m0 →
    ∃ m1, apply_all ops m0 = Ok m1 ∧ LibMappings.wf m1) as Hall.
  { intros ops m0 Hops. revert m0. induction Hops as [|op ops Hop Hops IH]; intros m0 Hm0.
    { by exists m0. }
    rewrite apply_all_cons. destruct (apply_to_wf op m0 Hm0 Hop) as (m1 & -> & Hm1).
    simpl. by apply IH. }
  destruct (Hall (due timestamp q) m) as (m1 & -> & Hm1); [|done|].
  - clear Hm Hall. induction Hq as [|[t op] q Hop Hq IH]; simpl; [constructor|].
    destruct (timestamp <? t); [constructor|]. by constructor.
  - simpl. eexists. split; [done|]. split; [done|]. by apply Forall_drop.
Qed.

Lemma due_split t1 t2 q :
  t1 ≤ t2 →
  due t2 q = due t1 q ++ due t2 (drop (length (due t1 q)) q).
Proof.
  intros Hle. induction q as [|[t op] q IH]; simpl; [done|].
  destruct (Z.ltb_spec t1 t); simpl; [done|].
  destruct (Z.ltb_spec t2 t); [lia|]. by rewrite IH at 1.
Qed.

Lemma apply_all_app ops1 ops2 m :
  apply_all (ops1 ++ ops2) m = apply_all ops1 m ≫= apply_all ops2.
Proof.
  revert m. induction ops1 as [|op ops1 IH]; intros m; [done|].
  rewrite <-app_comm_cons, !apply_all_cons. by destruct (apply_to op m); simpl.
Qed.

Lemma drain_queue_compose t1 t2 mq :
  t1 ≤ t2 → (drain_queue t1 mq ≫= drain_queue t2) = drain_queue t2 mq.
Proof.
  intros Hle. destruct mq as [m q]. rewrite !drain_queue_spec.
  rewrite (due_split t1 t2 q Hle), apply_all_app.
  destruct (apply_all (due t1 q) m) as [m1|]; simpl; [|done].
  rewrite drain_queue_spec. destruct (apply_all _ m1) as [m2|]; simpl; [|done].
  do 2 f_equal. by rewrite drop_drop, length_app.
Qed.

Lemma drain_levels_compose t1 t2 levels :
  t1 ≤ t2 →
  (mapM (drain_queue t1) levels ≫= mapM (drain_queue t2)) = mapM (drain_queue t2) levels.
Proof.
  intros Hle. induction levels as [|mq levels IH]; [done|]. simpl.
  rewrite <-(drain_queue_compose t1 t2 mq Hle), <-IH.
  destruct (drain_queue t1 mq) as [mq1|]; simpl; [|done].
  destruct (mapM (drain_queue t1) levels) as [levels1|]; simpl; [done|].
  by destruct (drain_queue t2 mq1).
Qed.

Lemma drain_levels_wf timestamp levels :
  Forall level_wf levels →
  ∃ levels', mapM (drain_queue timestamp) levels = Ok levels' ∧ Forall level_wf levels'.
Proof.
  induction 1 as [|mq levels Hmq Hlevels (levels' & Hl & Hwf)]; [by exists []|].
  destruct (drain_queue_wf timestamp mq Hmq) as (mq' & Hmq' & Hwf'). simpl.
  rewrite Hmq', Hl. simpl. eexists. split; [done|]. by constructor.
Qed.

(** * Properties *)

(** Applying the due operations at one time and then at a later time is the same,
    panics included, as applying them at the later time only: how the samples
    batch the calls does not matter. *)
Theorem process_ops_compose (h : LibMappingsHierarchy) (t1 t2 : Z) :
  t1 ≤ t2 →
  (h' ← process_ops h t1; process_ops h' t2) = process_ops h t2.
Proof.
  intros Hle. unfold process_ops.
  rewrite <-(drain_queue_compose t1 t2 (regular_libs h) Hle),
    <-(drain_levels_compose t1 t2 (jitdumps h) Hle).
  destruct (drain_queue t1 (regular_libs h)) as [r1|]; simpl; [|done].
  destruct (mapM (drain_queue t1) (jitdumps h)) as [l1|]; simpl; [done|].
  by destruct (drain_queue t2 r1).
Qed.

Example process_ops_compose_witness :
  let add s e := Add {| add_start_avma := s; add_end_avma := e;
                        add_relative_address_at_start := 0; add_info := new_lib 3%nat |} in
  let h := new [(1, add 10 20); (5, Clear); (9, add 30 40)] in
  (h' ← process_ops h 2; process_ops h' 9) = process_ops h 9 ∧
  ((λ h, (convert_address h 15, convert_address h 32)) <$> process_ops h 9)
    = Ok (None, Some (2, new_lib 3%nat)).
Proof. split; [apply process_ops_compose; lia|by vm_compute]. Defined.

(** C19: When every range in the queues is the right way round, applying the due
    operations never panics, keeps the mappings of every level disjoint, and the
    user address lookup then gives precedence to the regular libraries, then to
    the jitdump files in the order they were added, then to the perf map. *)
Theorem process_ops_resolve (h : LibMappingsHierarchy) (t a : Z) :
  wf h →
  ∃ h', process_ops h t = Ok h' ∧ wf h' ∧
    apply_all (due t (regular_libs h).2) (regular_libs h).1 = Ok (regular_libs h').1 ∧
    Forall2 (λ l l', apply_all (due t l.2) l.1 = Ok l'.1) (jitdumps h) (jitdumps h') ∧
    convert_address h' a =
      head (omap (λ m, LibMappings.convert_address m a)
        ((regular_libs h').1 :: (jitdumps h').*1 ++ option_list (perf_map h'))).
Proof.
  intros (Hreg & Hjit & Hperf). unfold process_ops.
  destruct (drain_queue_wf t _ Hreg) as (r' & Hr & Hwr).
  destruct (drain_levels_wf t _ Hjit) as (l' & Hl & Hwl).
  rewrite Hr, Hl. simpl. eexists. split; [done|]. split_and!.
  - done.
  - destruct (regular_libs h) as [m q]. rewrite drain_queue_spec in Hr.
    apply bind_Ok in Hr as (m' & Hm' & [= <-]). by simpl.
  - clear Hr Hwr Hreg Hperf Hjit Hwl. simpl. revert l' Hl.
    induction (jitdumps h) as [|[m q] js IH]; intros l' Hl; simpl in Hl; res_inv.
    { constructor. }
    rewrite drain_queue_spec in Hr. res_inv. constructor; [done|]. by apply IH.
  - simpl. unfold convert_address. simpl.
    destruct (LibMappings.convert_address r'.1 a); simpl; [done|].
    clear. induction l' as [|[m q] l' IH]; simpl.
    + destruct (perf_map h); simpl; [|done].
      by destruct (LibMappings.convert_address _ a).
    + by destruct (LibMappings.convert_address m a); simpl.
Qed.

Example process_ops_resolve_witness :
  let add s e lib := Add {| add_start_avma := s; add_end_avma := e;
                        add_relative_address_at_start := 0; add_info := new_lib lib |} in
  let h := add_jitdump_lib_mappings_ops (new [(1, add 10 20 1%nat)]) [(2, add 15 30 2%nat)] in
  ∃ h', process_ops h 3 = Ok h' ∧ convert_address h' 16 = Some (6, new_lib 1%nat) ∧
    convert_address h' 25 = Some (10, new_lib 2%nat).
Proof.
  intros add h. destruct (process_ops_resolve h 3 16) as (h' & Hh' & _).
  - split_and!; [| |done].
    + split; [apply LibMappings.wf_new_mappings|repeat constructor; simpl; lia].
    + repeat constructor; simpl; try lia; apply LibMappings.wf_new_mappings.
  - exists h'. vm_compute in Hh'. injection Hh' as <-. by vm_compute.
Defined.
End Hierarchy.
