(* ===== verification/StringTables.v ===== *)
(** String interning: fxprof-processed-profile/src/string_table.rs (Module
    [StringTable], which is also the global table) and thread_string_table.rs
    (Module [ThreadStringTable]). *)
From S2P Require Import Prelude Types.
From stdpp Require Import options.
Open Scope Z_scope.

Module StringTable.

(** * Data *)
Record StringTable := {
  strings : list string;
  index : gmap string StringIndex
}.

Definition new : StringTable := {| strings := []; index := ∅ |}.

(** * Operations *)
Definition index_for_string (t : StringTable) (s : string) : StringTable * StringIndex :=
  match index t !! s with
  | Some string_index => (t, string_index)
  | None =>
      let string_index := u32_of_usize (length (strings t)) in
      ({| strings := push (strings t) s; index := <[s := string_index]> (index t) |},
       string_index)
  end.

Definition get_string (t : StringTable) (i : StringIndex) : option string :=
  strings t !! usize_of_u32 i.

#[global] Instance serialize_StringTable : Serialize StringTable := λ t, serialize (strings t).

(** * Invariant *)
Definition wf (t : StringTable) : Prop := index_wf u32_of_usize (strings t) (index t).

(** Fewer strings than a [u32] can number. *)
Definition fits (t : StringTable) : Prop := Z.of_nat (length (strings t)) < 2 ^ 32.

(** What was interned stays interned, under the same index. *)
Definition extends (t t' : StringTable) : Prop := strings t `prefix_of` strings t'.

#[global] Instance extends_preorder : PreOrder extends.
Proof. split; [by intros t; unfold extends|]. intros t1 t2 t3. unfold extends. by etrans. Qed.

(** Interning a sequence of strings, one call after the other. *)
Fixpoint intern_all (ss : list string) (t : StringTable) : StringTable * list StringIndex :=
  match ss with
  | [] => (t, [])
  | s :: ss' =>
      let '(t1, i) := index_for_string t s in
      let '(t2, ids) := intern_all ss' t1 in
      (t2, i :: ids)
  end.

(** * Lemmas *)
Lemma wf_new_strings : wf new.
Proof. apply index_wf_empty. Qed.

Lemma index_for_string_wf t s : wf t → wf (index_for_string t s).1.
Proof.
  intros Hwf. unfold index_for_string. destruct (index t !! s) eqn:E; [done|].
  by apply index_wf_push.
Qed.

Lemma index_for_string_extends t s : extends t (index_for_string t s).1.
Proof.
  unfold index_for_string, extends. destruct (index t !! s); [done|]. by apply prefix_app_r.
Qed.

Lemma index_for_string_length t s :
  (length (strings t) ≤ length (strings (index_for_string t s).1)
    ≤ S (length (strings t)))%nat.
Proof.
  unfold index_for_string, push. destruct (index t !! s); simpl; [lia|].
  rewrite length_app. simpl. lia.
Qed.

Lemma get_string_extends t t' i s : extends t t' → get_string t i = Some s → get_string t' i = Some s.
Proof. unfold extends, get_string. eauto using prefix_lookup_Some. Qed.

Lemma get_index_for_string t s :
  wf t → fits (index_for_string t s).1 →
  get_string (index_for_string t s).1 (index_for_string t s).2 = Some s.
Proof.
  unfold index_for_string, get_string, fits. intros Hwf Hfits.
  destruct (index t !! s) as [i|] eqn:E; simpl in *.
  - apply (index_wf_Some _ _ _ _ _ Hwf) in E as (n & Hn & ->).
    rewrite usize_of_u32_of_usize; [done|]. apply lookup_lt_Some in Hn. lia.
  - unfold push in *. rewrite length_app in Hfits. simpl in Hfits.
    rewrite usize_of_u32_of_usize by lia. apply lookup_snoc.
Qed.

(** A string has one index. *)
Lemma get_string_inj t i j s :
  wf t → u32_range i → u32_range j →
  get_string t i = Some s → get_string t j = Some s → i = j.
Proof.
  unfold get_string, usize_of_u32. intros [Hnd _] Hi Hj H1 H2.
  pose proof (NoDup_lookup _ _ _ _ Hnd H1 H2). unfold u32_range in *. lia.
Qed.

Lemma index_for_string_range t s : wf t → u32_range (index_for_string t s).2.
Proof.
  unfold index_for_string. intros Hwf.
  destruct (index t !! s) as [i|] eqn:E; simpl; [|apply wrap_u32_range].
  apply (index_wf_Some _ _ _ _ _ Hwf) in E as (n & _ & ->). apply wrap_u32_range.
Qed.

Lemma intern_all_spec ss t t' ids :
  intern_all ss t = (t', ids) → wf t → fits t' →
  wf t' ∧ extends t t' ∧ Forall2 (λ s i, u32_range i ∧ get_string t' i = Some s) ss ids.
Proof.
  revert t ids. induction ss as [|s ss IH]; intros t ids; simpl.
  { intros [= -> <-] ??. split_and!; [done..|constructor]. }
  destruct (index_for_string t s) as [t1 i] eqn:E1.
  destruct (intern_all ss t1) as [t2 ids'] eqn:E2. intros [= -> <-] Hwf Hfits.
  pose proof (index_for_string_wf t s Hwf) as Hwf1.
  pose proof (index_for_string_extends t s) as Hext1.
  pose proof (get_index_for_string t s Hwf) as Hget.
  pose proof (index_for_string_range t s Hwf) as Hrange.
  rewrite E1 in Hwf1, Hext1, Hget, Hrange. simpl in *.
  destruct (IH _ _ E2 Hwf1 Hfits) as (Hwf2 & Hext2 & Hall). split_and!; [done|by etrans|].
  constructor; [|done]. split; [done|]. eapply get_string_extends; [done|]. apply Hget.
  unfold fits in *. apply prefix_length in Hext2. lia.
Qed.

Lemma intern_all_length ss t :
  (length (strings (intern_all ss t).1) ≤ length (strings t) + length ss)%nat.
Proof.
  revert t. induction ss as [|s ss IH]; intros t; simpl; [lia|].
  pose proof (index_for_string_length t s). specialize (IH (index_for_string t s).1).
  destruct (index_for_string t s) as [t1 i]. simpl in *.
  destruct (intern_all ss t1). simpl in *. lia.
Qed.

#[export] Hint Resolve wf_new_strings index_for_string_wf index_for_string_extends : samply.

(** * Properties *)

(** Interning any sequence of fewer than 2^32 strings in a new table gives
    handles that all resolve to their string in the final table, and two calls
    get the same handle exactly when they pass the same string. *)
Theorem intern_all_faithful (ss : list string) :
  Z.of_nat (length ss) < 2 ^ 32 →
  let '(t, handles) := intern_all ss new in
  length handles = length ss ∧
  (∀ k i, handles !! k = Some i → get_string t i = ss !! k) ∧
  (∀ k l i j, handles !! k = Some i → handles !! l = Some j → i = j ↔ ss !! k = ss !! l).
Proof.
  intros Hlen. destruct (intern_all ss new) as [t handles] eqn:E.
  assert (fits t) as Hfits.
  { unfold fits. pose proof (intern_all_length ss new) as Hle. rewrite E in Hle. simpl in Hle. lia. }
  destruct (intern_all_spec _ _ _ _ E wf_new_strings Hfits) as (Hwf & _ & Hall).
  split_and!.
  - symmetry. by eapply Forall2_length.
  - intros k i Hk. by destruct (Forall2_lookup_r _ _ _ _ _ Hall Hk) as (s & -> & _ & ->).
  - intros k l i j Hk Hl.
    destruct (Forall2_lookup_r _ _ _ _ _ Hall Hk) as (s & Hs & Hri & Hgi).
    destruct (Forall2_lookup_r _ _ _ _ _ Hall Hl) as (s' & Hs' & Hrj & Hgj).
    rewrite Hs, Hs'. split; [congruence|]. intros [= <-]. by eapply get_string_inj.
Qed.

Example intern_all_faithful_witness :
  Z.of_nat (length ["a"; "b"; "a"]) < 2 ^ 32 ∧
  let '(t, handles) := intern_all ["a"; "b"; "a"] new in
  length handles = 3%nat ∧ handles !! 0%nat = handles !! 2%nat.
Proof.
  assert (Z.of_nat (length ["a"; "b"; "a"]) < 2 ^ 32) as Hlen by (simpl; lia).
  split; [done|]. pose proof (intern_all_faithful ["a"; "b"; "a"] Hlen) as H.
  destruct (intern_all _ new) as [t handles] eqn:E. destruct H as (H & _ & _).
  split; [done|]. vm_compute in E. by injection E as <- <-.
Defined.
End StringTable.

Module ThreadStringTable.
Import StringTable.

(** * Data *)
Record ThreadStringTable := {
  table : StringTable;
  global_to_local_string : gmap GlobalStringIndex ThreadInternalStringIndex
}.

Definition new : ThreadStringTable :=
  {| table := StringTable.new; global_to_local_string := ∅ |}.

(** * Operations *)
Definition index_for_string (t : ThreadStringTable) (s : string)
    : ThreadStringTable * ThreadInternalStringIndex :=
  let '(table', i) := StringTable.index_for_string (table t) s in
  ({| table := table'; global_to_local_string := global_to_local_string t |}, i).

(** Panics when the global index is not one of the global table. *)
Definition index_for_global_string (t : ThreadStringTable) (global_index : GlobalStringIndex)
    (global_table : StringTable) : res (ThreadStringTable * ThreadInternalStringIndex) :=
  match global_to_local_string t !! global_index with
  | Some i => Ok (t, i)
  | None =>
      s ← unwrap (get_string global_table global_index);
      let '(table', i) := StringTable.index_for_string (table t) s in
      Ok ({| table := table';
             global_to_local_string := <[global_index := i]> (global_to_local_string t) |}, i)
  end.

Definition get_string (t : ThreadStringTable) (i : ThreadInternalStringIndex) : option string :=
  StringTable.get_string (table t) i.

#[global] Instance serialize_ThreadStringTable : Serialize ThreadStringTable :=
  λ t, serialize (table t).

(** * Invariant: a cached translation keeps the string *)
Definition wf (t : ThreadStringTable) (global_table : StringTable) : Prop :=
  StringTable.wf (table t) ∧ fits (table t) ∧
  ∀ g l, global_to_local_string t !! g = Some l →
    u32_range l ∧
    ∃ s, StringTable.get_string global_table g = Some s ∧ get_string t l = Some s.

Definition extends (t t' : ThreadStringTable) : Prop :=
  StringTable.extends (table t) (table t').

#[global] Instance thread_extends_preorder : PreOrder extends.
Proof. split; [by intros t; unfold extends|]. intros t1 t2 t3. unfold extends. by etrans. Qed.

(** * Lemmas *)
Lemma wf_new_thread g : wf new g.
Proof. split_and!; [apply wf_new_strings|done|]. intros g' l Hl. simpl in Hl. by rewrite lookup_empty in Hl. Qed.

Lemma wf_extends_global t g g' :
  wf t g → StringTable.extends g g' → wf t g'.
Proof.
  intros (Hwf & Hfits & Hmap) Hext. split_and!; [done..|]. intros gi l Hl.
  destruct (Hmap _ _ Hl) as (Hr & s & Hs & ?). split; [done|]. exists s.
  split; [|done]. by eapply get_string_extends.
Qed.

(** Interning one string: the translations stay valid because the local table
    only grows. *)
Lemma local_intern t g s :
  wf t g → let '(table', i) := StringTable.index_for_string (table t) s in
  fits table' →
  StringTable.wf table' ∧ StringTable.extends (table t) table' ∧ u32_range i ∧
  StringTable.get_string table' i = Some s ∧
  ∀ gi l, global_to_local_string t !! gi = Some l →
    u32_range l ∧ ∃ s, StringTable.get_string g gi = Some s ∧
    StringTable.get_string table' l = Some s.
Proof.
  intros (Hwf & Hfits & Hmap).
  pose proof (index_for_string_wf (table t) s Hwf) as H1.
  pose proof (index_for_string_extends (table t) s) as H2.
  pose proof (get_index_for_string (table t) s Hwf) as H3.
  pose proof (index_for_string_range (table t) s Hwf) as H4.
  destruct (StringTable.index_for_string (table t) s) as [table' i]. simpl in *.
  intros Hf. split_and!; [done..|by apply H3|]. intros gi l Hl.
  destruct (Hmap _ _ Hl) as (Hr & s' & ? & ?). split; [done|]. exists s'. split; [done|].
  by eapply get_string_extends.
Qed.

Lemma index_for_string_spec t g s t' i :
  index_for_string t s = (t', i) → wf t g → fits (table t') →
  wf t' g ∧ extends t t' ∧ u32_range i ∧ get_string t' i = Some s.
Proof.
  unfold index_for_string. intros Heq Hwf Hfits. pose proof (local_intern t g s Hwf) as Hl.
  destruct (StringTable.index_for_string (table t) s) as [table' i']. injection Heq as <- <-.
  destruct (Hl Hfits) as (? & ? & ? & ? & ?). by split_and!.
Qed.

Lemma index_for_global_string_spec t g gi s :
  wf t g → StringTable.get_string g gi = Some s →
  ∃ t' i, index_for_global_string t gi g = Ok (t', i) ∧
    (fits (table t') →
     wf t' g ∧ extends t t' ∧ u32_range i ∧ get_string t' i = Some s).
Proof.
  intros Hwf Hs. unfold index_for_global_string.
  destruct (global_to_local_string t !! gi) as [l|] eqn:E.
  - exists t, l. split; [done|]. intros Hfits.
    destruct Hwf as (Hwf & _ & Hmap). destruct (Hmap _ _ E) as (Hr & s' & Hs' & Hl).
    split_and!; [done|done|done|congruence].
  - rewrite Hs. simpl. pose proof (local_intern t g s Hwf) as Hl.
    destruct (StringTable.index_for_string (table t) s) as [table' i].
    do 2 eexists. split; [done|]. simpl. intros Hfits.
    destruct (Hl Hfits) as (? & ? & ? & ? & Hmap). split_and!; [split_and!|done..]; [done..|].
    simpl. intros g' l'. destruct (decide (gi = g')) as [->|].
    + rewrite lookup_insert_eq. intros [= <-]. eauto.
    + rewrite lookup_insert_ne by done. apply Hmap.
Qed.

(** A caller interns a string of its own or one of the global table. *)
Inductive request := Local (s : string) | Global (global_index : GlobalStringIndex).

Definition serve (g : StringTable) (r : request) (t : ThreadStringTable)
    : res (ThreadStringTable * ThreadInternalStringIndex) :=
  match r with
  | Local s => Ok (index_for_string t s)
  | Global gi => index_for_global_string t gi g
  end.

Fixpoint serve_all (g : StringTable) (rs : list request) (t : ThreadStringTable)
    : res (ThreadStringTable * list ThreadInternalStringIndex) :=
  match rs with
  | [] => Ok (t, [])
  | r :: rs' =>
      '(t1, i) ← serve g r t;
      '(t2, ids) ← serve_all g rs' t1;
      Ok (t2, i :: ids)
  end.

(** The string a request stands for. *)
Definition requested (g : StringTable) (r : request) : option string :=
  match r with Local s => Some s | Global gi => StringTable.get_string g gi end.

Lemma serve_length g r t t' i :
  serve g r t = Ok (t', i) →
  (length (strings (table t')) ≤ S (length (strings (table t))))%nat.
Proof.
  destruct r as [s|gi]; simpl; intros Hr.
  - unfold index_for_string in Hr. pose proof (index_for_string_length (table t) s).
    destruct (StringTable.index_for_string _ _). res_inv. simpl in *. lia.
  - unfold index_for_global_string in Hr. destruct (global_to_local_string t !! gi); [res_inv; lia|].
    res_inv. pose proof (index_for_string_length (table t) r).
    destruct (StringTable.index_for_string _ _). res_inv. simpl in *. lia.
Qed.

Lemma serve_spec g r t s :
  wf t g → requested g r = Some s →
  (Z.of_nat (S (length (strings (table t)))) < 2 ^ 32) →
  ∃ t' i, serve g r t = Ok (t', i) ∧
    wf t' g ∧ extends t t' ∧ u32_range i ∧ get_string t' i = Some s.
Proof.
  intros Hwf Hreq Hlen. destruct r as [s'|gi]; simpl in *.
  - injection Hreq as ->. destruct (index_for_string t s) as [t' i] eqn:E.
    exists t', i. split; [done|]. eapply index_for_string_spec; [done..|].
    pose proof (serve_length g (Local s) t t' i) as Hle. simpl in Hle. rewrite E in Hle.
    specialize (Hle eq_refl). unfold fits. lia.
  - destruct (index_for_global_string_spec t g gi s Hwf Hreq) as (t' & i & E & Hspec).
    exists t', i. split; [done|]. apply Hspec.
    pose proof (serve_length g (Global gi) t t' i E). unfold fits. lia.
Qed.

Lemma serve_all_spec g rs t :
  wf t g → Forall (λ r, is_Some (requested g r)) rs →
  (Z.of_nat (length (strings (table t)) + length rs) < 2 ^ 32) →
  ∃ t' ids, serve_all g rs t = Ok (t', ids) ∧ wf t' g ∧ extends t t' ∧
    Forall2 (λ r i, u32_range i ∧ get_string t' i = requested g r) rs ids.
Proof.
  intros Hwf Hrs. revert t Hwf.
  induction Hrs as [|r rs [s Hs] Hrs IH]; intros t Hwf Hlen; simpl in *.
  { exists t, []. split_and!; [done..|constructor]. }
  destruct (serve_spec g r t s Hwf Hs) as (t1 & i & Hserve & Hwf1 & Hext1 & Hi & Hget); [lia|].
  pose proof (serve_length g r t t1 i Hserve).
  destruct (IH t1 Hwf1) as (t2 & ids & Hall & Hwf2 & Hext2 & HF); [lia|].
  rewrite Hserve. simpl. rewrite Hall. simpl. do 2 eexists. split; [done|].
  split_and!; [done|by etrans|]. constructor; [|done]. split; [done|].
  rewrite Hs. by eapply get_string_extends.
Qed.

(** * Properties *)

(** Any sequence of internings on a new thread table, of local strings and of
    valid global handles, succeeds; every returned local handle resolves to the
    requested string in the final table, and two requests get the same local
    handle exactly when they stand for the same string, whichever way each of
    them came in. *)
Theorem serve_all_coherent (g : StringTable) (rs : list request) :
  (∀ r, r ∈ rs → is_Some (requested g r)) → Z.of_nat (length rs) < 2 ^ 32 →
  ∃ t handles, serve_all g rs new = Ok (t, handles) ∧ length handles = length rs ∧
    (∀ k i, handles !! k = Some i → get_string t i = rs !! k ≫= requested g) ∧
    (∀ k l i j, handles !! k = Some i → handles !! l = Some j →
       i = j ↔ rs !! k ≫= requested g = rs !! l ≫= requested g).
Proof.
  intros Hrs Hlen.
  destruct (serve_all_spec g rs new) as (t & handles & Hall & Hwf & _ & HF).
  - apply wf_new_thread.
  - by apply Forall_forall.
  - done.
  - exists t, handles. split_and!; [done|symmetry; by eapply Forall2_length| |].
    + intros k i Hk. by destruct (Forall2_lookup_r _ _ _ _ _ HF Hk) as (r & -> & _ & ->).
    + intros k l i j Hk Hl.
      destruct (Forall2_lookup_r _ _ _ _ _ HF Hk) as (r & Hr & Hi & Hgi).
      destruct (Forall2_lookup_r _ _ _ _ _ HF Hl) as (r' & Hr' & Hj & Hgj).
      rewrite Hr, Hr'. simpl. split; [congruence|]. intros Heq.
      assert (is_Some (requested g r)) as [s Hs] by (apply Hrs, list_elem_of_lookup; eauto).
      destruct Hwf as (Hwf & _ & _). eapply get_string_inj; [done..| |].
      * unfold get_string in Hgi. rewrite Hgi. done.
      * unfold get_string in Hgj. rewrite Hgj, <-Heq. done.
Qed.

Example serve_all_coherent_witness :
  let g := (intern_all ["main"; "lib"] StringTable.new).1 in
  ∃ t handles, serve_all g [Local "lib"; Global 1; Global 0; Global 1] new = Ok (t, handles) ∧
    handles = [0; 0; 1; 0].
Proof.
  intros g.
  destruct (serve_all_coherent g [Local "lib"; Global 1; Global 0; Global 1])
    as (t & handles & H & _).
  - intros r Hr. rewrite !elem_of_cons, elem_of_nil in Hr.
    destruct Hr as [->|[->|[->|[->|[]]]]]; by vm_compute; eexists.
  - simpl. lia.
  - exists t, handles. split; [done|]. vm_compute in H. by injection H as <- <-.
Defined.
End ThreadStringTable.
