(* ===== verification/SymbolTable.v ===== *)
(** The symbol tables attached to libraries: [Symbol] and [SymbolTable] of
    fxprof-processed-profile/src/library_info.rs. *)
From S2P Require Import Prelude Types.
From stdpp Require Import options.
Open Scope Z_scope.

Module SymbolTable.

(** * Data *)
Record Symbol := { address : Z; size : option Z; name : string }.
Record SymbolTable := { symbols : list Symbol }.
#[global] Instance Symbol_eq_dec : EqDecision Symbol.
Proof. solve_decision. Defined.
#[global] Instance SymbolTable_eq_dec : EqDecision SymbolTable.
Proof. solve_decision. Defined.
#[global] Program Instance Symbol_countable : Countable Symbol :=
  inj_countable' (λ s, (address s, size s, name s))
    (λ p, {| address := p.1.1; size := p.1.2; name := p.2 |}) _.
Next Obligation. by intros []. Qed.
#[global] Program Instance SymbolTable_countable : Countable SymbolTable :=
  inj_countable' symbols (λ l, {| symbols := l |}) _.
Next Obligation. by intros []. Qed.

(** * Operations *)
(** The derived [Ord]: address, then size with [None] first, then name. *)
Definition option_compare (a b : option Z) : comparison :=
  match a, b with
  | None, None => Eq
  | None, Some _ => Lt
  | Some _, None => Gt
  | Some x, Some y => (x ?= y)%Z
  end.
Definition Symbol_compare (a b : Symbol) : comparison :=
  match (address a ?= address b)%Z with
  | Eq =>
      match option_compare (size a) (size b) with
      | Eq => String.compare (name a) (name b)
      | c => c
      end
  | c => c
  end.
Definition Symbol_leb (a b : Symbol) : bool :=
  match Symbol_compare a b with Gt => false | _ => true end.

(** [Vec::dedup_by_key]: drops an element whose key equals that of the last one
    kept. *)
Fixpoint dedup_from {A} (key : A → Z) (last : A) (l : list A) : list A :=
  match l with
  | [] => []
  | x :: l' => if key x =? key last then dedup_from key last l' else x :: dedup_from key x l'
  end.
Definition dedup_by_key {A} (key : A → Z) (l : list A) : list A :=
  match l with [] => [] | x :: l' => x :: dedup_from key x l' end.

Definition new (syms : list Symbol) : SymbolTable :=
  {| symbols := dedup_by_key address (stable_sort Symbol_leb syms) |}.

(** [slice::binary_search_by_key]: [Ok] of a matching position or [Err] of the
    insertion point, by halving [left..right]. *)
Inductive search_result := Found (i : nat) | NotFound (i : nat).
Fixpoint binary_search_loop {A} (key : A → Z) (l : list A) (k : Z) (fuel left right : nat)
    : search_result :=
  match fuel with
  | O => NotFound left
  | S fuel' =>
      if decide (left < right)%nat then
        let mid := (left + (right - left) / 2)%nat in
        match l !! mid with
        | None => NotFound left
        | Some x =>
            match (key x ?= k)%Z with
            | Lt => binary_search_loop key l k fuel' (S mid) right
            | Gt => binary_search_loop key l k fuel' left mid
            | Eq => Found mid
            end
        end
      else NotFound left
  end.
Definition binary_search_by_key {A} (key : A → Z) (l : list A) (k : Z) : search_result :=
  binary_search_loop key l k (S (length l)) 0 (length l).

Definition lookup (t : SymbolTable) (address' : Z) : res (option Symbol) :=
  let index :=
    match binary_search_by_key address (symbols t) address' with
    | Found i => Some i
    | NotFound O => None
    | NotFound (S i) => Some i
    end in
  match index with
  | None => Ok None
  | Some i =>
      symbol ← Prelude.index (symbols t) i;
      Ok match size symbol with
         | Some size =>
             if address' <? saturating_add_u32 (address symbol) size then Some symbol else None
         | None => Some symbol
         end
  end.

(** * Specification *)
Definition in_symbol (s : Symbol) (a : Z) : Prop :=
  match size s with
  | Some size => a < saturating_add_u32 (address s) size
  | None => True
  end.

(** [s] is the symbol [a] falls to: of the symbols that start at the last start
    at or before [a], the least one; and [a] is inside of it. *)
Definition resolves (syms : list Symbol) (a : Z) (s : Symbol) : Prop :=
  s ∈ syms ∧ address s ≤ a ∧
  (∀ s', s' ∈ syms → address s' ≤ a → address s' ≤ address s) ∧
  (∀ s', s' ∈ syms → address s' = address s → Symbol_leb s s' = true) ∧
  in_symbol s a.

(** * The order is total *)
Lemma option_compare_antisym a b : option_compare a b = CompOpp (option_compare b a).
Proof. destruct a, b; simpl; [apply Z.compare_antisym|done..]. Qed.

Lemma Symbol_compare_antisym a b : Symbol_compare a b = CompOpp (Symbol_compare b a).
Proof.
  unfold Symbol_compare. rewrite (Z.compare_antisym (address b) (address a)).
  destruct (address b ?= address a)%Z; simpl; [|done..].
  rewrite (option_compare_antisym (size a)).
  destruct (option_compare (size b) (size a)); simpl; [|done..].
  apply String.compare_antisym.
Qed.

Lemma Symbol_leb_total a b : Symbol_leb a b = true ∨ Symbol_leb b a = true.
Proof.
  unfold Symbol_leb. rewrite (Symbol_compare_antisym b a).
  destruct (Symbol_compare a b); simpl; auto.
Qed.

(** [a ≤ b] unfolded level by level. *)
Definition option_le (a b : option Z) : Prop :=
  match a, b with None, _ => True | Some _, None => False | Some x, Some y => x ≤ y end.
Lemma option_compare_spec a b :
  match option_compare a b with
  | Eq => a = b
  | Lt => option_le a b ∧ a ≠ b
  | Gt => ¬ option_le a b
  end.
Proof.
  destruct a as [x|], b as [y|]; simpl; try naive_solver.
  destruct (Z.compare_spec x y); [congruence|split; [lia|naive_solver lia]|lia].
Qed.
Lemma option_le_trans a b c : option_le a b → option_le b c → option_le a c.
Proof. destruct a, b, c; simpl; naive_solver lia. Qed.
Lemma option_le_antisym a b : option_le a b → option_le b a → a = b.
Proof. destruct a, b; simpl; try done. intros. f_equal. lia. Qed.

Lemma Symbol_leb_spec a b :
  Symbol_leb a b = true ↔
  address a < address b ∨
  (address a = address b ∧
   ((option_le (size a) (size b) ∧ size a ≠ size b) ∨
    (size a = size b ∧ (name a ≤ name b)%string))).
Proof.
  unfold Symbol_leb, Symbol_compare.
  destruct (Z.compare_spec (address a) (address b)); [|naive_solver lia..].
  pose proof (option_compare_spec (size a) (size b)) as Hsize.
  destruct (option_compare (size a) (size b)).
  - unfold String.le, String.leb. rewrite Is_true_true.
    destruct (String.compare (name a) (name b)); naive_solver lia.
  - naive_solver lia.
  - split; [done|]. intros [?|(_ & [[? _]|[Heq _]])]; [lia|done|].
    rewrite Heq in Hsize. destruct (size b); simpl in Hsize; [lia|done].
Qed.

Lemma Symbol_leb_trans a b c :
  Symbol_leb a b = true → Symbol_leb b c = true → Symbol_leb a c = true.
Proof.
  rewrite !Symbol_leb_spec.
  intros [H1|(H1 & H2)] [H3|(H3 & H4)]; [left; lia..|right].
  split; [lia|]. destruct H2 as [[H2 H2']|[H2 H2']], H4 as [[H4 H4']|[H4 H4']].
  - left. split; [by eapply option_le_trans|]. intros Heq. apply H2'.
    rewrite <-Heq in H4. by apply option_le_antisym.
  - left. by rewrite <-H4.
  - left. by rewrite H2.
  - right. split; [congruence|]. by etrans.
Qed.

Lemma Symbol_leb_antisym a b : Symbol_leb a b = true → Symbol_leb b a = true → a = b.
Proof.
  rewrite !Symbol_leb_spec. intros [?|(Ha & H)] [?|(Hb & H')]; [lia..|].
  assert (size a = size b) as Hs.
  { destruct H as [[H _]|[? _]], H' as [[H' _]|[? _]]; [|congruence..].
    by apply option_le_antisym. }
  destruct H as [[_ ?]|[_ H]]; [done|]. destruct H' as [[_ ?]|[_ H']]; [done|].
  destruct a, b; simpl in *; f_equal; [done..|]. by apply (anti_symm String.le).
Qed.

(** * Sorting and deduplication *)
Lemma dedup_from_elem (l : list Symbol) last s :
  StronglySorted (λ a b, Symbol_leb a b = true) (last :: l) →
  s ∈ dedup_from address last l ↔
  s ∈ l ∧ address last < address s ∧
  ∀ s', s' ∈ l → address s' = address s → Symbol_leb s s' = true.
Proof.
  revert last. induction l as [|x l IH]; intros last Hs; simpl; [set_solver|].
  apply StronglySorted_cons in Hs as [Hlast Hs].
  pose proof Hs as Hs'. apply StronglySorted_cons in Hs' as [Hx Hl].
  rewrite Forall_forall in Hx. rewrite Forall_cons, Forall_forall in Hlast.
  destruct Hlast as [Hlx Hlast].
  assert (address last ≤ address x) as Hle
    by (apply Symbol_leb_spec in Hlx as [?|[? _]]; lia).
  destruct (Z.eqb_spec (address x) (address last)) as [Heq|Hne].
  - rewrite IH by by apply StronglySorted_cons; rewrite Forall_forall.
    setoid_rewrite elem_of_cons. split.
    + intros (Hin & Hlt & Hmin). split_and!; [by right|done|].
      intros s' [->|Hs0]; [lia|by apply Hmin].
    + intros ([->|Hin] & Hlt & Hmin); [lia|]. split_and!; [done..|]. auto.
  - rewrite elem_of_cons, IH by done. setoid_rewrite elem_of_cons. split.
    + intros [->|(Hin & Hlt & Hmin)].
      * split_and!; [by left|lia|]. intros s' [->|Hs0] _; [|by apply Hx].
        destruct (Symbol_leb_total x x); done.
      * split_and!; [by right|lia|]. intros s' [->|Hs0]; [lia|by apply Hmin].
    + intros ([->|Hin] & Hlt & Hmin); [by left|].
      destruct (decide (address s = address x)) as [Heq'|].
      * left. specialize (Hmin x (or_introl eq_refl) (eq_sym Heq')).
        specialize (Hx _ Hin). by apply Symbol_leb_antisym.
      * right. split_and!; [done| |by auto].
        apply Hx, Symbol_leb_spec in Hin as [?|[? _]]; lia.
Qed.

Lemma dedup_from_sorted (l : list Symbol) last :
  StronglySorted (λ a b, Symbol_leb a b = true) (last :: l) →
  StronglySorted (λ a b, address a < address b) (last :: dedup_from address last l).
Proof.
  revert last. induction l as [|x l IH]; intros last Hs; simpl; [by repeat constructor|].
  pose proof Hs as Hs'. apply StronglySorted_cons in Hs' as [Hlast Hx].
  rewrite Forall_cons in Hlast. destruct Hlast as [Hlx Hlast].
  destruct (Z.eqb_spec (address x) (address last)) as [Heq|Hne].
  - apply IH. apply StronglySorted_cons in Hx as [_ Hl]. by apply StronglySorted_cons.
  - pose proof (IH x Hx) as Hd. apply StronglySorted_cons. split; [|done].
    apply StronglySorted_cons in Hd as [Hd _].
    assert (address last < address x) by (apply Symbol_leb_spec in Hlx as [?|[? _]]; lia).
    constructor; [done|]. eapply Forall_impl; [exact Hd|]. simpl. lia.
Qed.

(** What [new] keeps: of the symbols at one address the least. *)
Lemma new_elem syms s :
  s ∈ symbols (new syms) ↔
  s ∈ syms ∧ ∀ s', s' ∈ syms → address s' = address s → Symbol_leb s s' = true.
Proof.
  assert (∀ x, x ∈ syms ↔ x ∈ stable_sort Symbol_leb syms) as Hin
    by (intros x; by rewrite stable_sort_permutation).
  setoid_rewrite Hin. unfold new. simpl.
  pose proof (stable_sort_sorted Symbol_leb Symbol_leb_trans Symbol_leb_total syms) as Hs.
  destruct (stable_sort Symbol_leb syms) as [|x l]; simpl; [set_solver|].
  rewrite elem_of_cons, dedup_from_elem by done. setoid_rewrite elem_of_cons.
  apply StronglySorted_cons in Hs as [Hx Hl]. rewrite Forall_forall in Hx.
  destruct (Symbol_leb_total x x) as [Hxx|Hxx]; split.
  all: try (intros [->|(Hin' & Hlt & Hmin)];
    [split; [by left|intros s' [->|Hs'] _; [done|by apply Hx]]
    |split; [by right|intros s' [->|Hs'] Heq; [lia|by apply Hmin]]]).
  all: intros [[->|Hin'] Hmin]; [by left|].
  all: destruct (decide (address x = address s)) as [Heq|Hne];
    [left; apply Symbol_leb_antisym; [by apply Hmin; [left|]|by apply Hx]|right].
  all: split_and!; [done| |by auto].
  all: apply Hx, Symbol_leb_spec in Hin' as [?|[? _]]; lia.
Qed.

Lemma new_sorted syms : StronglySorted (λ a b, address a < address b) (symbols (new syms)).
Proof.
  unfold new. simpl.
  pose proof (stable_sort_sorted Symbol_leb Symbol_leb_trans Symbol_leb_total syms) as Hs.
  destruct (stable_sort Symbol_leb syms) as [|x l]; simpl; [constructor|].
  by apply dedup_from_sorted.
Qed.

(** Every address keeps one of its symbols. *)
Lemma least_at syms s :
  s ∈ syms →
  ∃ s0, s0 ∈ symbols (new syms) ∧ address s0 = address s.
Proof.
  intros Hs. setoid_rewrite new_elem.
  set (l := filter (λ x, address x = address s) syms).
  assert (∀ x, x ∈ l ↔ x ∈ stable_sort Symbol_leb l) as Hin
    by (intros x; by rewrite stable_sort_permutation).
  pose proof (stable_sort_sorted Symbol_leb Symbol_leb_trans Symbol_leb_total l) as Hsorted.
  destruct (stable_sort Symbol_leb l) as [|s0 l0].
  { assert (s ∈ l) as Hl by by apply list_elem_of_filter. apply Hin in Hl. set_solver. }
  apply StronglySorted_cons in Hsorted as [H0 _]. rewrite Forall_forall in H0.
  assert (s0 ∈ l) as [Heq Hs0]%list_elem_of_filter by (apply Hin; by left).
  exists s0. split_and!; [done| |done]. intros s' Hs' Heq'.
  assert (s' ∈ l) as [->|Hl']%Hin%elem_of_cons by (apply list_elem_of_filter; split; [lia|done]);
    [|by apply H0].
  by destruct (Symbol_leb_total s0 s0).
Qed.

(** * Binary search *)
Lemma sorted_lookup {A} (key : A → Z) (l : list A) i j x y :
  StronglySorted (λ a b, key a < key b) l →
  l !! i = Some x → l !! j = Some y → (i < j)%nat → key x < key y.
Proof.
  intros Hs Hi Hj Hij. apply list_elem_of_split_length in Hi as (l1 & l2 & -> & ->).
  apply StronglySorted_app in Hs as (_ & _ & Hs). apply StronglySorted_cons in Hs as [Hx _].
  rewrite Forall_forall in Hx. apply Hx. apply list_elem_of_lookup.
  rewrite lookup_app_r in Hj by lia. exists (j - length l1 - 1)%nat.
  destruct (j - length l1)%nat eqn:E; [lia|]. simpl in Hj. by replace (S n - 1)%nat with n by lia.
Qed.

Lemma binary_search_loop_spec {A} (key : A → Z) (l : list A) k fuel left right :
  StronglySorted (λ a b, key a < key b) l →
  (left ≤ right ≤ length l)%nat → (right - left < fuel)%nat →
  (∀ i x, l !! i = Some x → (i < left)%nat → key x < k) →
  (∀ i x, l !! i = Some x → (right ≤ i)%nat → k < key x) →
  match binary_search_loop key l k fuel left right with
  | Found i => ∃ x, l !! i = Some x ∧ key x = k
  | NotFound i => (i ≤ length l)%nat ∧
      (∀ j x, l !! j = Some x → ((j < i)%nat → key x < k) ∧ ((i ≤ j)%nat → k < key x))
  end.
Proof.
  intros Hs. revert left right. induction fuel as [|fuel IH]; intros left right Hle Hfuel Hl Hr; [lia|].
  cbn [binary_search_loop]. case_decide as Hlt.
  - set (mid := (left + (right - left) / 2)%nat).
    assert (left ≤ mid < right)%nat as Hmid.
    { subst mid. assert ((right - left) / 2 < right - left)%nat by (apply Nat.div_lt; lia). lia. }
    destruct (lookup_lt_is_Some_2 l mid) as [x Hx]; [lia|]. rewrite Hx.
    destruct (Z.compare_spec (key x) k) as [Heq|Hxk|Hxk].
    + by exists x.
    + apply IH; [lia|lia| |done]. intros i y Hy Hi.
      destruct (decide (i = mid)) as [->|]; [naive_solver|].
      pose proof (sorted_lookup key l i mid y x Hs Hy Hx). lia.
    + apply IH; [lia|lia|done|]. intros i y Hy Hi.
      destruct (decide (i = mid)) as [->|]; [naive_solver|].
      pose proof (sorted_lookup key l mid i x y Hs Hx Hy). lia.
  - split; [lia|]. intros j x Hx. split; intros; [by eapply Hl|]. eapply Hr; [done|lia].
Qed.

Lemma binary_search_by_key_spec {A} (key : A → Z) (l : list A) k :
  StronglySorted (λ a b, key a < key b) l →
  match binary_search_by_key key l k with
  | Found i => ∃ x, l !! i = Some x ∧ key x = k
  | NotFound i => (i ≤ length l)%nat ∧
      (∀ j x, l !! j = Some x → ((j < i)%nat → key x < k) ∧ ((i ≤ j)%nat → k < key x))
  end.
Proof.
  intros Hs. apply binary_search_loop_spec; [done|lia|lia|lia|].
  intros i x Hx Hi. apply lookup_lt_Some in Hx. lia.
Qed.

(** The entry a lookup inspects is the last one that starts at or before [a]. *)
Lemma lookup_new_Some syms a :
  ∃ o, lookup (new syms) a = Ok o ∧
    ∀ s, o = Some s ↔ s ∈ symbols (new syms) ∧ address s ≤ a ∧
      (∀ s', s' ∈ symbols (new syms) → address s' ≤ a → address s' ≤ address s) ∧
      in_symbol s a.
Proof.
  pose proof (new_sorted syms) as Hs. set (l := symbols (new syms)) in *. unfold lookup. fold l.
  assert (∀ i s, l !! i = Some s → address s ≤ a →
    (∀ j s', l !! j = Some s' → (i < j)%nat → a < address s') →
    ∃ o, Ok (match size s with
         | Some size => if a <? saturating_add_u32 (address s) size then Some s else None
         | None => Some s end) = Ok o ∧
    ∀ s0, o = Some s0 ↔ s0 ∈ l ∧ address s0 ≤ a ∧
      (∀ s', s' ∈ l → address s' ≤ a → address s' ≤ address s0) ∧ in_symbol s0 a) as Hcase.
  { intros i s Hi Hle Hnext. eexists. split; [done|]. intros s0.
    assert (∀ s', s' ∈ l → address s' ≤ a → address s' ≤ address s) as Hmax.
    { intros s' [j Hj]%list_elem_of_lookup Ha. destruct (Nat.lt_trichotomy i j) as [?|[->|?]].
      - specialize (Hnext _ _ Hj). lia.
      - naive_solver lia.
      - pose proof (sorted_lookup address l j i s' s Hs Hj Hi). lia. }
    trans (s0 = s ∧ in_symbol s a).
    { unfold in_symbol. destruct (size s) as [size|]; [|naive_solver].
      destruct (Z.ltb_spec a (saturating_add_u32 (address s) size)); naive_solver lia. }
    split.
    - intros [-> Hin]. split_and!; [|done..]. apply list_elem_of_lookup. eauto.
    - intros ([j Hj]%list_elem_of_lookup & Hle0 & Hmax0 & Hin).
      assert (address s0 = address s) as Heq.
      { apply Z.le_antisymm; [apply Hmax; [|done]; apply list_elem_of_lookup; eauto|].
        apply Hmax0; [|done]. apply list_elem_of_lookup. eauto. }
      assert (i = j) as ->.
      { destruct (Nat.lt_trichotomy i j) as [?|[->|?]]; [|done|].
        - pose proof (sorted_lookup address l i j s s0 Hs Hi Hj). lia.
        - pose proof (sorted_lookup address l j i s0 s Hs Hj Hi). lia. }
      assert (s0 = s) as -> by congruence. done. }
  pose proof (binary_search_by_key_spec address l a Hs) as Hb.
  destruct (binary_search_by_key address l a) as [i|[|i]].
  - destruct Hb as (s & Hi & Ha). unfold Prelude.index. rewrite Hi. simpl.
    eapply Hcase; [exact Hi|lia|]. intros j s' Hj Hij.
    pose proof (sorted_lookup address l i j s s' Hs Hi Hj Hij). lia.
  - exists None. split; [done|]. intros s. split; [done|].
    intros ([j Hj]%list_elem_of_lookup & Hle & _). destruct Hb as [_ Hb].
    destruct (Hb _ _ Hj) as [_ Hge]. specialize (Hge ltac:(lia)). lia.
  - destruct Hb as [Hlen Hb]. destruct (lookup_lt_is_Some_2 l i) as [s Hi]; [lia|].
    unfold Prelude.index. rewrite Hi. simpl. eapply Hcase; [exact Hi| |].
    + destruct (Hb _ _ Hi) as [Hlt _]. specialize (Hlt ltac:(lia)). lia.
    + intros j s' Hj Hij. destruct (Hb _ _ Hj) as [_ Hge]. apply Hge. lia.
Qed.

(** * Properties *)

(** A symbol table built from any list of symbols, in any order and with
    duplicate addresses, never panics on a lookup, and the lookup (sort,
    deduplication, binary search and size check together) returns exactly the
    symbol the address falls to: of the symbols that start at the last start at
    or before the address the one that is least in the derived order, provided
    the address is inside its size. *)
Theorem lookup_resolves (syms : list Symbol) (a : Z) :
  ∃ o, lookup (new syms) a = Ok o ∧ ∀ s, o = Some s ↔ resolves syms a s.
Proof.
  destruct (lookup_new_Some syms a) as (o & Ho & Hspec). exists o. split; [done|].
  intros s. rewrite Hspec. unfold resolves. rewrite new_elem. split.
  - intros ([Hin Hmin] & Hle & Hmax & Hinside). split_and!; [done..| |done|done].
    intros s' Hs' Hle'.
    destruct (least_at syms s' Hs') as (s0 & Hs0 & Heq).
    rewrite <-Heq. apply Hmax; [done|lia].
  - intros (Hin & Hle & Hmax & Hmin & Hinside). split_and!; [done..| |done].
    intros s' [Hs' _]%new_elem. by apply Hmax.
Qed.
End SymbolTable.
