(* ===== verification/LibTable.v ===== *)
(** The libraries of a profile: [LibraryInfo] of
    fxprof-processed-profile/src/library_info.rs and the [GlobalLibTable] of
    global_lib_table.rs. *)
From S2P Require Import Prelude Types SymbolTable.
From stdpp Require Import options.
Open Scope Z_scope.

(** The [DebugId] of the debugid crate: the program compares, hashes and prints
    it. *)
Class DebugIdType := {
  DebugId : Type;
  DebugId_eq_dec :: EqDecision DebugId;
  DebugId_countable :: Countable DebugId;
  (** [debug_id.breakpad().to_string()] *)
  breakpad : DebugId → string
}.
(** Debug IDs that are their own text, for the examples. *)
Definition string_debug_ids : DebugIdType := {| DebugId := string; breakpad := id |}.

Module LibraryInfo.
Section library_info.
Context {D : DebugIdType}.

Record LibraryInfo := {
  name : string;
  debug_name : string;
  path : string;
  debug_path : string;
  debug_id : DebugId;
  code_id : option string;
  arch : option string;
  symbol_table : option SymbolTable.SymbolTable
}.
#[global] Instance LibraryInfo_eq_dec : EqDecision LibraryInfo.
Proof. solve_decision. Defined.
#[global] Program Instance LibraryInfo_countable : Countable LibraryInfo :=
  inj_countable'
    (λ l, ((name l, debug_name l, path l, debug_path l),
           (debug_id l, code_id l, arch l, symbol_table l)))
    (λ p, let '((n, dn, pa, dp), (di, ci, ar, st)) := p in
          {| name := n; debug_name := dn; path := pa; debug_path := dp;
             debug_id := di; code_id := ci; arch := ar; symbol_table := st |}) _.
Next Obligation. by intros []. Qed.

#[global] Instance serialize_LibraryInfo : Serialize LibraryInfo := λ l,
  JObj [("name", serialize (name l));
        ("path", serialize (path l));
        ("debugName", serialize (debug_name l));
        ("debugPath", serialize (debug_path l));
        ("breakpadId", serialize (breakpad (debug_id l)));
        ("codeId", serialize (code_id l));
        ("arch", serialize (arch l))].

Definition with_symbol_table (l : LibraryInfo) (t : option SymbolTable.SymbolTable) : LibraryInfo :=
  {| name := name l; debug_name := debug_name l; path := path l; debug_path := debug_path l;
     debug_id := debug_id l; code_id := code_id l; arch := arch l; symbol_table := t |}.

(** Equal up to the symbol table, which [set_lib_symbol_table] replaces. *)
Definition same_library (l l' : LibraryInfo) : Prop :=
  with_symbol_table l None = with_symbol_table l' None.
#[global] Instance same_library_equivalence : Equivalence same_library.
Proof. split; unfold same_library; [by intros ?|by intros ??|intros ???; congruence]. Qed.

Lemma with_symbol_table_same l t : same_library l (with_symbol_table l t).
Proof. done. Qed.
#[global] Instance same_library_name : Proper (same_library ==> eq) name.
Proof. intros l l' Heq. by injection Heq. Qed.
End library_info.
End LibraryInfo.

Module GlobalLibTable.
Import LibraryInfo.
Section global_lib_table.
Context {D : DebugIdType}.

(** * Data *)
Record GlobalLibTable := {
  all_libs : list LibraryInfo;
  used_libs : list LibraryHandle;
  lib_map : gmap LibraryInfo LibraryHandle;
  used_lib_map : gmap LibraryHandle GlobalLibIndex;
  used_libs_seen_rvas : list (gset Z)
}.

#[global] Instance GlobalLibTable_eq_dec : EqDecision GlobalLibTable.
Proof. solve_decision. Defined.

Definition new : GlobalLibTable :=
  {| all_libs := []; used_libs := []; lib_map := ∅; used_lib_map := ∅;
     used_libs_seen_rvas := [] |}.

(** * Operations *)
Definition handle_for_lib (t : GlobalLibTable) (lib : LibraryInfo)
    : GlobalLibTable * LibraryHandle :=
  match lib_map t !! lib with
  | Some handle => (t, handle)
  | None =>
      let handle := length (all_libs t) in
      ({| all_libs := push (all_libs t) lib; used_libs := used_libs t;
          lib_map := <[lib := handle]> (lib_map t); used_lib_map := used_lib_map t;
          used_libs_seen_rvas := used_libs_seen_rvas t |}, handle)
  end.

Definition set_lib_symbol_table (t : GlobalLibTable) (library : LibraryHandle)
    (symbol_table' : SymbolTable.SymbolTable) : res GlobalLibTable :=
  lib ← index (all_libs t) library;
  libs ← index_set (all_libs t) library (with_symbol_table lib (Some symbol_table'));
  Ok {| all_libs := libs; used_libs := used_libs t; lib_map := lib_map t;
        used_lib_map := used_lib_map t; used_libs_seen_rvas := used_libs_seen_rvas t |}.

Definition index_for_used_lib (t : GlobalLibTable) (lib_handle : LibraryHandle)
    : GlobalLibTable * GlobalLibIndex :=
  match used_lib_map t !! lib_handle with
  | Some i => (t, i)
  | None =>
      let i := length (used_libs t) in
      ({| all_libs := all_libs t; used_libs := push (used_libs t) lib_handle;
          lib_map := lib_map t; used_lib_map := <[lib_handle := i]> (used_lib_map t);
          used_libs_seen_rvas := push (used_libs_seen_rvas t) ∅ |}, i)
  end.

Definition get_lib (t : GlobalLibTable) (i : GlobalLibIndex) : option LibraryInfo :=
  handle ← used_libs t !! i;
  all_libs t !! handle.

Definition add_lib_used_rva (t : GlobalLibTable) (i : GlobalLibIndex) (address : Z)
    : res GlobalLibTable :=
  rvas ← index (used_libs_seen_rvas t) i;
  seen ← index_set (used_libs_seen_rvas t) i ({[address]} ∪ rvas);
  Ok {| all_libs := all_libs t; used_libs := used_libs t; lib_map := lib_map t;
        used_lib_map := used_lib_map t; used_libs_seen_rvas := seen |}.

(** [UsedLibraryAddressesIterator]: its state is the next index. *)
Definition next (t : GlobalLibTable) (next_used_lib_index : nat)
    : res (option (LibraryInfo * gset Z) * nat) :=
  match used_libs_seen_rvas t !! next_used_lib_index with
  | None => Ok (None, next_used_lib_index)
  | Some rvas =>
      lib_handle ← index (used_libs t) next_used_lib_index;
      info ← index (all_libs t) lib_handle;
      Ok (Some (info, rvas), S next_used_lib_index)
  end.

(** A [for] loop over [lib_used_rva_iter()]. *)
Fixpoint collect (fuel : nat) (t : GlobalLibTable) (i : nat) : res (list (LibraryInfo * gset Z)) :=
  match fuel with
  | O => Panic
  | S fuel' =>
      '(item, i') ← next t i;
      match item with
      | None => Ok []
      | Some item => items ← collect fuel' t i'; Ok (item :: items)
      end
  end.
Definition lib_used_rva_iter (t : GlobalLibTable) : res (list (LibraryInfo * gset Z)) :=
  collect (S (length (used_libs_seen_rvas t))) t 0.

Definition serialize_global_lib_table (t : GlobalLibTable) : res json :=
  JArr <$> mapM (λ handle, serialize <$> index (all_libs t) handle) (used_libs t).

(** * Invariant

    [keys] are the libraries as they were when they were added. *)
Record wf_keys (keys : list LibraryInfo) (t : GlobalLibTable) : Prop := {
  wf_lib_map : index_wf id keys (lib_map t);
  wf_all_libs : Forall2 same_library keys (all_libs t);
  wf_used_lib_map : index_wf id (used_libs t) (used_lib_map t);
  wf_seen : length (used_libs_seen_rvas t) = length (used_libs t);
  wf_used_libs : Forall (λ h, (h < length (all_libs t))%nat) (used_libs t)
}.
Definition wf (t : GlobalLibTable) : Prop := ∃ keys, wf_keys keys t.

(** * The operations as steps *)
Inductive op :=
| AddLib (lib : LibraryInfo)
| SetLibSymbolTable (library : LibraryHandle) (symbols : SymbolTable.SymbolTable)
| UseLib (library : LibraryHandle)
| AddUsedRva (i : GlobalLibIndex) (address : Z).

Definition apply_op (o : op) (t : GlobalLibTable) : res GlobalLibTable :=
  match o with
  | AddLib lib => Ok (handle_for_lib t lib).1
  | SetLibSymbolTable library symbols => set_lib_symbol_table t library symbols
  | UseLib library => Ok (index_for_used_lib t library).1
  | AddUsedRva i address => add_lib_used_rva t i address
  end.

(** Handles and indexes are opaque to callers: they pass ones they were given. *)
Definition op_valid (o : op) (t : GlobalLibTable) : Prop :=
  match o with
  | AddLib _ => True
  | SetLibSymbolTable h _ | UseLib h => (h < length (all_libs t))%nat
  | AddUsedRva i _ => (i < length (used_libs t))%nat
  end.

Inductive reaches (t0 : GlobalLibTable) : list op → GlobalLibTable → Prop :=
| reaches_refl : reaches t0 [] t0
| reaches_step ops t o t' :
    reaches t0 ops t → op_valid o t → apply_op o t = Ok t' → reaches t0 (ops ++ [o]) t'.

#[local] Instance op_valid_dec o t : Decision (op_valid o t).
Proof. destruct o; simpl; apply _. Defined.

(** The steps executed one after the other, as long as they are valid. *)
Fixpoint run (ops : list op) (t : GlobalLibTable) : res GlobalLibTable :=
  match ops with
  | [] => Ok t
  | o :: ops' => if decide (op_valid o t) then apply_op o t ≫= run ops' else Panic
  end.

(** * Lemmas *)
Lemma reaches_app t0 ops t ops' t' :
  reaches t0 ops t → reaches t ops' t' → reaches t0 (ops ++ ops') t'.
Proof.
  intros Hr. induction 1 as [|ops' t1 o t2 Hr' IH Hv Ho]; [by rewrite app_nil_r|].
  rewrite app_assoc. by eapply reaches_step.
Qed.

Lemma run_reaches ops t t' : run ops t = Ok t' → reaches t ops t'.
Proof.
  revert t. induction ops as [|o ops IH]; intros t Hrun; simpl in Hrun.
  { injection Hrun as ->. constructor. }
  case_decide; [|done]. destruct (apply_op o t) as [t1|] eqn:E; [|done].
  apply (reaches_app _ [o] t1); [|by apply IH]. apply (reaches_step _ [] t o); [constructor|done..].
Qed.

Lemma wf_new_libs : wf new.
Proof. exists []. split; simpl; eauto with samply. Qed.

Lemma handle_for_lib_wf keys t lib :
  wf_keys keys t → ∃ keys', wf_keys keys' (handle_for_lib t lib).1 ∧
    keys `prefix_of` keys' ∧ keys' !! (handle_for_lib t lib).2 = Some lib.
Proof.
  intros [Hmap Hall Hused Hseen Hlt]. unfold handle_for_lib.
  destruct (lib_map t !! lib) as [h|] eqn:E; simpl.
  - exists keys. split_and!; [by split|done|].
    by apply (index_wf_Some _ _ _ _ _ Hmap) in E as (n & ? & ->).
  - exists (keys ++ [lib]). pose proof (Forall2_length _ _ _ Hall) as Hlen. split_and!.
    + split; simpl; [|by apply Forall2_app; repeat constructor|done|done|].
      * rewrite <-Hlen. by apply (index_wf_push id).
      * eapply Forall_impl; [exact Hlt|]. simpl. unfold push. rewrite length_app. simpl. lia.
    + by apply prefix_app_r.
    + rewrite <-Hlen. apply lookup_snoc.
Qed.

Lemma index_for_used_lib_wf keys t h :
  wf_keys keys t → (h < length (all_libs t))%nat →
  wf_keys keys (index_for_used_lib t h).1 ∧
  used_libs (index_for_used_lib t h).1 !! (index_for_used_lib t h).2 = Some h ∧
  used_libs t `prefix_of` used_libs (index_for_used_lib t h).1 ∧
  all_libs (index_for_used_lib t h).1 = all_libs t.
Proof.
  intros [Hmap Hall Hused Hseen Hlt] Hh. unfold index_for_used_lib.
  destruct (used_lib_map t !! h) as [i|] eqn:E; simpl.
  - split_and!; [by split| |done|done].
    by apply (index_wf_Some _ _ _ _ _ Hused) in E as (n & ? & ->).
  - unfold push. split_and!; [split; simpl|apply lookup_snoc|by apply prefix_app_r|done]; [done..| | |].
    + by apply (index_wf_push id).
    + unfold push. rewrite !length_app. simpl. lia.
    + apply Forall_app. split; [done|]. by constructor.
Qed.

Lemma set_lib_symbol_table_wf keys t h symbols :
  wf_keys keys t → (h < length (all_libs t))%nat →
  ∃ t', set_lib_symbol_table t h symbols = Ok t' ∧ wf_keys keys t' ∧
    used_libs t' = used_libs t ∧ length (all_libs t') = length (all_libs t) ∧
    used_libs_seen_rvas t' = used_libs_seen_rvas t.
Proof.
  intros [Hmap Hall Hused Hseen Hlt] Hh. unfold set_lib_symbol_table.
  destruct (lookup_lt_is_Some_2 _ _ Hh) as [lib Hlib].
  unfold index, index_set. rewrite Hlib. simpl. rewrite decide_True by done. simpl.
  eexists. split; [done|]. split_and!; [|done|simpl; by rewrite length_insert|done].
  split; simpl; [done| |done|done|by rewrite length_insert].
  destruct (lookup_lt_is_Some_2 keys h) as [k Hk]; [by rewrite (Forall2_length _ _ _ Hall)|].
  rewrite <-(list_insert_id keys h k Hk). apply Forall2_insert; [done|].
  pose proof (Forall2_lookup_lr _ _ _ _ _ _ Hall Hk Hlib) as Hsame. exact Hsame.
Qed.

Lemma add_lib_used_rva_wf keys t i a :
  wf_keys keys t → (i < length (used_libs t))%nat →
  ∃ t', add_lib_used_rva t i a = Ok t' ∧ wf_keys keys t' ∧
    used_libs t' = used_libs t ∧ all_libs t' = all_libs t ∧
    ∃ rvas, used_libs_seen_rvas t !! i = Some rvas ∧
      used_libs_seen_rvas t' = <[i := {[a]} ∪ rvas]> (used_libs_seen_rvas t).
Proof.
  intros [Hmap Hall Hused Hseen Hlt] Hi. unfold add_lib_used_rva. rewrite <-Hseen in Hi.
  destruct (lookup_lt_is_Some_2 _ _ Hi) as [rvas Hr].
  unfold index, index_set. rewrite Hr. simpl. rewrite decide_True by done. simpl.
  eexists. split; [done|]. split_and!; [|done|done|by exists rvas].
  split; simpl; [done..| |done]. by rewrite length_insert.
Qed.

Lemma apply_op_ok keys t o :
  wf_keys keys t → op_valid o t →
  ∃ t' keys', apply_op o t = Ok t' ∧ wf_keys keys' t' ∧ keys `prefix_of` keys'.
Proof.
  intros Hwf Hv. destruct o as [lib|h s|h|i a]; simpl in *.
  - destruct (handle_for_lib_wf keys t lib Hwf) as (keys' & ? & ? & _). eauto.
  - destruct (set_lib_symbol_table_wf keys t h s Hwf Hv) as (t' & ? & ? & _). eauto.
  - destruct (index_for_used_lib_wf keys t h Hwf Hv) as [? _]. eauto.
  - destruct (add_lib_used_rva_wf keys t i a Hwf Hv) as (t' & ? & ? & _). eauto.
Qed.

Lemma reaches_wf_keys t0 ops t keys :
  reaches t0 ops t → wf_keys keys t0 → ∃ keys', wf_keys keys' t ∧ keys `prefix_of` keys'.
Proof.
  intros Hr Hwf0. induction Hr as [|ops t o t' _ (keys' & Hwf & Hpre) Hv Ho]; [by eexists|].
  destruct (apply_op_ok keys' t o Hwf Hv) as (t'' & keys'' & Ho' & ? & ?). assert (t'' = t') as -> by congruence.
  exists keys''. split; [done|by etrans].
Qed.

Lemma reaches_wf ops t : reaches new ops t → wf t.
Proof.
  intros Hr. destruct wf_new_libs as [keys Hwf].
  destruct (reaches_wf_keys _ _ _ _ Hr Hwf) as (keys' & ? & _). by exists keys'.
Qed.

(** ** The used addresses *)
Lemma next_wf keys t i :
  wf_keys keys t →
  next t i = match used_libs_seen_rvas t !! i with
             | None => Ok (None, i)
             | Some rvas => match get_lib t i with
                            | Some info => Ok (Some (info, rvas), S i)
                            | None => Panic
                            end
             end ∧
  (is_Some (used_libs_seen_rvas t !! i) → is_Some (get_lib t i)).
Proof.
  intros [_ _ _ Hseen Hlt]. unfold next, get_lib, index.
  destruct (used_libs_seen_rvas t !! i) as [rvas|] eqn:E; [|split; [done|by intros []]].
  destruct (lookup_lt_is_Some_2 (used_libs t) i) as [h Hh].
  { apply lookup_lt_Some in E. lia. }
  rewrite Hh. simpl. rewrite Forall_forall in Hlt.
  destruct (lookup_lt_is_Some_2 (all_libs t) h) as [info Hinfo].
  { apply Hlt, list_elem_of_lookup. eauto. }
  rewrite Hinfo. simpl. split; [done|]. by eexists.
Qed.

Lemma collect_libs_spec keys t fuel i :
  wf_keys keys t → (length (used_libs_seen_rvas t) < fuel + i)%nat →
  (i ≤ length (used_libs_seen_rvas t))%nat →
  ∃ l, collect fuel t i = Ok l ∧
    (i + length l = length (used_libs_seen_rvas t))%nat ∧
    ∀ j info rvas, l !! j = Some (info, rvas) →
      get_lib t (i + j) = Some info ∧ used_libs_seen_rvas t !! (i + j)%nat = Some rvas.
Proof.
  intros Hwf. revert i. induction fuel as [|fuel IH]; intros i Hfuel Hi; [lia|]. simpl.
  destruct (next_wf keys t i Hwf) as [-> Hsome].
  destruct (used_libs_seen_rvas t !! i) as [rvas|] eqn:E.
  - destruct Hsome as [info Hinfo]; [done|]. rewrite Hinfo. simpl.
    apply lookup_lt_Some in E as Hlt.
    destruct (IH (S i)) as (l & -> & Hlen & Hl); [lia|lia|].
    eexists. split; [done|]. simpl. split; [lia|]. intros [|j] info' rvas'; simpl.
    + intros [= <- <-]. by rewrite Nat.add_0_r.
    + intros Hj. rewrite <-Nat.add_succ_comm. by apply Hl.
  - exists []. split; [done|]. simpl. apply lookup_ge_None in E. split; [lia|]. by intros [].
Qed.

Definition rvas_exact (ops : list op) (t : GlobalLibTable) : Prop :=
  ∀ i rvas a, used_libs_seen_rvas t !! i = Some rvas → a ∈ rvas ↔ AddUsedRva i a ∈ ops.

(** An index is not added to before it exists. *)
Definition rvas_known (ops : list op) (t : GlobalLibTable) : Prop :=
  ∀ i a, AddUsedRva i a ∈ ops → (i < length (used_libs_seen_rvas t))%nat.

Lemma reaches_rvas ops t : reaches new ops t → rvas_exact ops t ∧ rvas_known ops t.
Proof.
  induction 1 as [|ops t o t' Hr [IH IHk] Hv Ho].
  { split; [by intros []|]. intros i a. by rewrite elem_of_nil. }
  destruct (reaches_wf _ _ Hr) as [keys Hwf]. unfold rvas_exact, rvas_known.
  setoid_rewrite elem_of_app. setoid_rewrite list_elem_of_singleton.
  assert (∀ o', (∀ i a, AddUsedRva i a ≠ o') →
    (∀ i rvas a, used_libs_seen_rvas t !! i = Some rvas →
       a ∈ rvas ↔ AddUsedRva i a ∈ ops ∨ AddUsedRva i a = o') ∧
    (∀ i a, AddUsedRva i a ∈ ops ∨ AddUsedRva i a = o' →
       (i < length (used_libs_seen_rvas t))%nat)) as Hother.
  { intros o' Hne. split.
    - intros i rvas a Hi. rewrite (IH i rvas a Hi). specialize (Hne i a). tauto.
    - intros i a [Hin|Heq]; [by eapply IHk|]. by destruct (Hne i a). }
  destruct o as [lib|h s|h|i a]; simpl in *.
  - injection Ho as <-. unfold handle_for_lib. destruct (lib_map t !! lib); simpl;
      (apply Hother; intros ??; discriminate).
  - destruct (set_lib_symbol_table_wf keys t h s Hwf Hv) as (t'' & ? & _ & _ & _ & Hsame).
    assert (t'' = t') as -> by congruence. rewrite Hsame. apply Hother. intros ??; discriminate.
  - injection Ho as <-. unfold index_for_used_lib.
    destruct (used_lib_map t !! h); simpl; [apply Hother; intros ??; discriminate|].
    unfold push. split.
    + intros i rvas a [Hi|[-> ->]]%lookup_app_Some_snoc; 
        [apply (Hother (UseLib h)); [intros ??; discriminate|done]|].
      split; [set_solver|]. intros [Hin|?]; [|done]. apply IHk in Hin. lia.
    + intros i a [Hin|?]; [|done]. apply IHk in Hin. rewrite length_app. lia.
  - destruct (add_lib_used_rva_wf keys t i a Hwf Hv) as (t'' & ? & _ & _ & _ & rvas & Hrv & Hseen).
    assert (t'' = t') as -> by congruence. rewrite Hseen. split.
    + intros j rvas' a'. destruct (decide (i = j)) as [<-|Hne].
      * rewrite list_lookup_insert_eq by by eapply lookup_lt_Some. intros [= <-].
        rewrite elem_of_union, elem_of_singleton, (IH _ _ a' Hrv).
        split; [intros [->|?]; auto|intros [?|[= ->]]; auto].
      * rewrite list_lookup_insert_ne by done. intros Hj. rewrite (IH _ _ a' Hj).
        split; [auto|]. by intros [?|[= -> ->]].
    + intros j a'. rewrite length_insert. intros [Hin|[= -> ->]]; [by eapply IHk|].
      by eapply lookup_lt_Some.
Qed.
End global_lib_table.
#[export] Hint Resolve wf_new_libs : samply.

(** * Properties *)
Section properties.
Context {D : DebugIdType}.

(** After any sequence of operations with handles and indexes the table gave
    out, no further such operation panics and neither does the iteration over
    the used libraries, which yields for every used library, in the order of
    their indexes, its current information and exactly the addresses that were
    recorded for it. *)
Theorem lib_used_rva_iter_exact (ops : list op) (t : GlobalLibTable) :
  reaches new ops t →
  (∀ o, op_valid o t → is_Ok (apply_op o t)) ∧
  ∃ items, lib_used_rva_iter t = Ok items ∧ length items = length (used_libs t) ∧
    ∀ i info rvas, items !! i = Some (info, rvas) →
      get_lib t i = Some info ∧ ∀ a, a ∈ rvas ↔ AddUsedRva i a ∈ ops.
Proof.
  intros Hr. destruct (reaches_wf _ _ Hr) as [keys Hwf]. split.
  - intros o Hv. destruct (apply_op_ok keys t o Hwf Hv) as (t' & ? & ? & _). by exists t'.
  - destruct (collect_libs_spec keys t (S (length (used_libs_seen_rvas t))) 0 Hwf)
      as (items & Hitems & Hlen & Hspec); [lia|lia|].
    exists items. split_and!; [done|rewrite <-(wf_seen _ _ Hwf); done|].
    intros i info rvas Hi. destruct (Hspec _ _ _ Hi) as [Hget Hrvas]. split; [done|].
    intros a. by apply (reaches_rvas _ _ Hr).
Qed.

(** Adding two libraries, with any operations in between, gives the same
    handle exactly when they are equal, symbol tables included, and a handle
    keeps referring to the library it was given for whatever happens later: only
    its symbol table can change. *)
Theorem handle_for_lib_faithful (ops ops' : list op) (t t1 t2 : GlobalLibTable)
    (lib lib' : LibraryInfo) (h : LibraryHandle) :
  reaches new ops t → handle_for_lib t lib = (t1, h) → reaches t1 ops' t2 →
  (∃ info, all_libs t2 !! h = Some info ∧ same_library lib info) ∧
  ((handle_for_lib t2 lib').2 = h ↔ lib' = lib).
Proof.
  intros Hr Hh Hr'. destruct (reaches_wf _ _ Hr) as [keys Hwf].
  destruct (handle_for_lib_wf keys t lib Hwf) as (keys1 & Hwf1 & _ & Hk).
  rewrite Hh in Hwf1, Hk. simpl in *.
  destruct (reaches_wf_keys _ _ _ _ Hr' Hwf1) as (keys2 & Hwf2 & Hpre).
  apply (prefix_lookup_Some _ _ _ _ Hk) in Hpre as Hk2. split.
  - pose proof (wf_all_libs _ _ Hwf2) as HF.
    destruct (Forall2_lookup_l _ _ _ _ _ HF Hk2) as (info & ? & ?). eauto.
  - destruct (handle_for_lib_wf keys2 t2 lib' Hwf2) as (keys3 & Hwf3 & Hpre3 & Hk3).
    apply (prefix_lookup_Some _ _ _ _ Hk2) in Hpre3 as Hk2'.
    split; [intros Heq; rewrite Heq in Hk3; congruence|]. intros ->.
    destruct (wf_lib_map _ _ Hwf3) as [Hnd _]. by eapply NoDup_lookup.
Qed.
End properties.

#[local] Existing Instance string_debug_ids.
#[local] Definition example_lib : LibraryInfo := {|
  name := "libc"; debug_name := "libc"; path := "/lib/libc.so"; debug_path := "/lib/libc.so";
  debug_id := "A0"; code_id := None; arch := None; symbol_table := None |}.
#[local] Definition example_ops : list op :=
  [AddLib example_lib; UseLib 0%nat; AddUsedRva 0%nat 4096].
#[local] Definition example_table : GlobalLibTable :=
  {| all_libs := [example_lib]; used_libs := [0%nat]; lib_map := {[example_lib := 0%nat]};
     used_lib_map := {[0%nat := 0%nat]}; used_libs_seen_rvas := [{[4096]}] |}.

Example lib_used_rva_iter_exact_witness :
  lib_used_rva_iter example_table = Ok [(example_lib, {[4096]})].
Proof.
  destruct (lib_used_rva_iter_exact example_ops example_table
    ltac:(apply run_reaches, (bool_decide_unpack _); by vm_compute)) as (_ & items & H & _).
  vm_compute in H. injection H as <-. by vm_compute.
Defined.

Example handle_for_lib_faithful_witness :
  (handle_for_lib example_table example_lib).2 = 0%nat ↔ example_lib = example_lib.
Proof.
  pose proof (handle_for_lib_faithful [] [UseLib 0%nat; AddUsedRva 0%nat 4096] new
    (handle_for_lib new example_lib).1 example_table example_lib example_lib 0%nat
    (reaches_refl new) ltac:(apply (bool_decide_unpack _); by vm_compute) ltac:(apply run_reaches, (bool_decide_unpack _); by vm_compute)) as [_ H].
  exact H.
Defined.
End GlobalLibTable.
