(* ===== verification/FrameTables.v ===== *)
(** The tables of a thread that describe its stack frames, of
    fxprof-processed-profile/src: [FuncTable] (func_table.rs), [ResourceTable]
    (resource_table.rs), [NativeSymbols] (native_symbols.rs) and [FrameTable]
    (frame_table.rs). *)
From S2P Require Import Prelude Types StringTables SymbolTable LibTable.
From stdpp Require Import options.
Open Scope Z_scope.

(** [-1] stands for a missing value in two of the columns. *)
Definition serialize_or_minus_one (column : list (option Z)) : json :=
  JArr (from_option JInt (JInt (-1)) <$> column).

Module FuncTable.

(** * Data *)
Notation FuncKey := (ThreadInternalStringIndex * option ResourceIndex * FrameFlags)%type.
Record FuncTable := {
  names : list ThreadInternalStringIndex;
  resources : list (option ResourceIndex);
  flags : list FrameFlags;
  func_name_and_resource_and_flags_to_func_index : gmap FuncKey nat;
  contains_js_function : bool
}.
Definition new : FuncTable :=
  {| names := []; resources := []; flags := [];
     func_name_and_resource_and_flags_to_func_index := ∅; contains_js_function := false |}.

(** * Operations *)
Definition index_for_func (t : FuncTable) (name : ThreadInternalStringIndex)
    (resource : option ResourceIndex) (flags' : FrameFlags) : FuncTable * FuncIndex :=
  let m := func_name_and_resource_and_flags_to_func_index t in
  let '(t1, func_index) :=
    match m !! (name, resource, flags') with
    | Some i => (t, i)
    | None =>
        let i := length (names t) in
        ({| names := push (names t) name; resources := push (resources t) resource;
            flags := push (flags t) flags';
            func_name_and_resource_and_flags_to_func_index := <[(name, resource, flags') := i]> m;
            contains_js_function := contains_js_function t |}, i)
    end in
  let t2 :=
    if flags_intersects flags' (Z.lor IS_JS IS_RELEVANT_FOR_JS) then
      {| names := names t1; resources := resources t1; flags := flags t1;
         func_name_and_resource_and_flags_to_func_index :=
           func_name_and_resource_and_flags_to_func_index t1;
         contains_js_function := true |}
    else t1 in
  (t2, u32_of_usize func_index).

Definition serialize_flag_column (flags' : list FrameFlags) (flag : FrameFlags) : json :=
  JArr ((λ item_flags, JBool (flags_contains item_flags flag)) <$> flags').

#[global] Instance serialize_FuncTable : Serialize FuncTable := λ t,
  let len := length (names t) in
  JObj [("length", serialize len);
        ("name", serialize (names t));
        ("isJS", serialize_flag_column (flags t) IS_JS);
        ("relevantForJS", serialize_flag_column (flags t) IS_RELEVANT_FOR_JS);
        ("resource", serialize_or_minus_one (resources t));
        ("fileName", serialize_single_value_column JNull len);
        ("lineNumber", serialize_single_value_column JNull len);
        ("columnNumber", serialize_single_value_column JNull len)].

(** * Invariant *)
Definition is_js (flags' : FrameFlags) : bool :=
  flags_intersects flags' (Z.lor IS_JS IS_RELEVANT_FOR_JS).

Record wf_keys (keys : list FuncKey) (t : FuncTable) : Prop := {
  wf_names : names t = (λ k, k.1.1) <$> keys;
  wf_resources : resources t = (λ k, k.1.2) <$> keys;
  wf_flags : flags t = (λ k, k.2) <$> keys;
  wf_index : index_wf id keys (func_name_and_resource_and_flags_to_func_index t);
  wf_js : contains_js_function t = existsb (λ k, is_js k.2) keys
}.
Definition wf (t : FuncTable) : Prop := ∃ keys, wf_keys keys t.

(** The row of an index. *)
Definition func_entry (t : FuncTable) (i : FuncIndex) : option FuncKey :=
  let n := usize_of_u32 i in
  name ← names t !! n;
  resource ← resources t !! n;
  flags' ← flags t !! n;
  Some (name, resource, flags').

Definition extends (t t' : FuncTable) : Prop :=
  names t `prefix_of` names t' ∧ resources t `prefix_of` resources t' ∧
  flags t `prefix_of` flags t'.
#[global] Instance extends_preorder : PreOrder extends.
Proof.
  split; [by intros ?; split_and!|].
  intros t1 t2 t3 (? & ? & ?) (? & ? & ?). split_and!; by etrans.
Qed.

(** * Lemmas *)
Lemma wf_new_funcs : wf new.
Proof. exists []. split; simpl; eauto with samply. Qed.

Lemma existsb_js_In keys k :
  k ∈ keys → is_js k.2 = true → existsb (λ k : FuncKey, is_js k.2) keys = true.
Proof. intros Hin Hjs. apply existsb_exists. exists k. by rewrite <-list_elem_of_In. Qed.

Lemma index_for_func_spec keys t name resource flags' :
  wf_keys keys t →
  let '(t', i) := index_for_func t name resource flags' in
  ∃ keys' n, wf_keys keys' t' ∧ keys `prefix_of` keys' ∧ extends t t' ∧
    keys' !! n = Some (name, resource, flags') ∧ i = u32_of_usize n ∧
    (length keys' ≤ S (length keys))%nat.
Proof.
  intros Hwf. pose proof Hwf as [Hn Hr Hf Hidx Hjs]. unfold index_for_func. fold (is_js flags').
  set (k := (name, resource, flags')).
  destruct (func_name_and_resource_and_flags_to_func_index t !! k) as [i|] eqn:E.
  - apply (index_wf_Some _ _ _ _ _ Hidx) in E as (n & Hn' & ->). exists keys, n.
    split_and!; [|done| |done|done|lia].
    + destruct (is_js flags') eqn:Eflags; [|done]. split; simpl; [done..|].
      symmetry. by apply (existsb_js_In _ k); [apply list_elem_of_lookup; eauto|].
    + destruct (is_js flags'); [|done]. by split_and!.
  - exists (keys ++ [k]), (length keys).
    assert (length (names t) = length keys) as Hlen by by rewrite Hn, length_fmap.
    split_and!; [|by apply prefix_app_r| |apply lookup_snoc|by rewrite Hlen|
      rewrite length_app; simpl; lia].
    + assert (existsb (λ k, is_js k.2) (keys ++ [k]) = existsb (λ k, is_js k.2) keys || is_js flags')
        as Hex by (rewrite existsb_app; simpl; by rewrite orb_false_r).
      assert (index_wf id (keys ++ [k]) (<[k := length (names t)]>
        (func_name_and_resource_and_flags_to_func_index t))) as Hidx'
        by (rewrite Hlen; by apply (index_wf_push id)).
      rewrite <-Hjs in Hex.
      destruct (is_js flags') eqn:Eflags; split; unfold push;
        first [exact Hidx' | simpl; rewrite ?fmap_app; simpl; congruence
              | rewrite Hex; simpl; by rewrite ?orb_true_r, ?orb_false_r].
    + destruct (is_js flags'); split_and!; simpl; unfold push; by apply prefix_app_r.
Qed.

Lemma func_entry_extends t t' i e :
  extends t t' → func_entry t i = Some e → func_entry t' i = Some e.
Proof.
  intros (Hn & Hr & Hf) He. unfold func_entry in *.
  destruct (names t !! _) eqn:E1; [|done]. destruct (resources t !! _) eqn:E2; [|done].
  destruct (flags t !! _) eqn:E3; [|done].
  rewrite (prefix_lookup_Some _ _ _ _ E1 Hn), (prefix_lookup_Some _ _ _ _ E2 Hr).
  simpl. by rewrite (prefix_lookup_Some _ _ _ _ E3 Hf).
Qed.

Lemma wf_keys_entry keys t n k :
  wf_keys keys t → Z.of_nat (length keys) < 2 ^ 32 → keys !! n = Some k →
  func_entry t (u32_of_usize n) = Some k.
Proof.
  intros [Hn Hr Hf _ _] Hlen Hk. unfold func_entry.
  rewrite usize_of_u32_of_usize by (apply lookup_lt_Some in Hk; lia).
  rewrite Hn, Hr, Hf, !list_lookup_fmap, Hk. simpl. by destruct k as [[] ?].
Qed.

Lemma wf_keys_length keys t : wf_keys keys t → length (names t) = length keys.
Proof. intros [-> _ _ _ _]. apply length_fmap. Qed.
End FuncTable.

Module ResourceTable.
Section resource_table.
Context {D : DebugIdType}.

(** * Data *)
Record ResourceTable := {
  resource_libs : list GlobalLibIndex;
  resource_names : list ThreadInternalStringIndex;
  lib_to_resource : gmap GlobalLibIndex ResourceIndex
}.
Definition new : ResourceTable :=
  {| resource_libs := []; resource_names := []; lib_to_resource := ∅ |}.

(** * Operations *)

(** Panics when the index is not one of a used library. *)
Definition resource_for_lib (t : ResourceTable) (lib_index : GlobalLibIndex)
    (global_libs : GlobalLibTable.GlobalLibTable)
    (thread_string_table : ThreadStringTable.ThreadStringTable)
    : res (ResourceTable * ThreadStringTable.ThreadStringTable * ResourceIndex) :=
  match lib_to_resource t !! lib_index with
  | Some resource => Ok (t, thread_string_table, resource)
  | None =>
      let resource := u32_of_usize (length (resource_libs t)) in
      lib ← unwrap (GlobalLibTable.get_lib global_libs lib_index);
      let '(strings, name) :=
        ThreadStringTable.index_for_string thread_string_table (LibraryInfo.name lib) in
      Ok ({| resource_libs := push (resource_libs t) lib_index;
             resource_names := push (resource_names t) name;
             lib_to_resource := <[lib_index := resource]> (lib_to_resource t) |},
          strings, resource)
  end.

Definition RESOURCE_TYPE_LIB : Z := 1.
#[global] Instance serialize_ResourceTable : Serialize ResourceTable := λ t,
  let len := length (resource_libs t) in
  JObj [("length", serialize len);
        ("lib", serialize (resource_libs t));
        ("name", serialize (resource_names t));
        ("host", serialize_single_value_column JNull len);
        ("type", serialize_single_value_column (JInt RESOURCE_TYPE_LIB) len)].

(** * Invariant: a row has the name of its library *)
Definition names_lib (g : GlobalLibTable.GlobalLibTable) (st : ThreadStringTable.ThreadStringTable)
    (lib : GlobalLibIndex) (name : ThreadInternalStringIndex) : Prop :=
  ∃ info, GlobalLibTable.get_lib g lib = Some info ∧
    ThreadStringTable.get_string st name = Some (LibraryInfo.name info).
Definition wf (t : ResourceTable) (g : GlobalLibTable.GlobalLibTable)
    (st : ThreadStringTable.ThreadStringTable) : Prop :=
  index_wf u32_of_usize (resource_libs t) (lib_to_resource t) ∧
  Forall2 (names_lib g st) (resource_libs t) (resource_names t).

Definition extends (t t' : ResourceTable) : Prop :=
  resource_libs t `prefix_of` resource_libs t'.
#[global] Instance extends_preorder : PreOrder extends.
Proof. split; [intros ?; by unfold extends|]. intros t1 t2 t3. unfold extends. by etrans. Qed.

(** * Lemmas *)
Lemma wf_new_resources g st : wf new g st.
Proof. split; simpl; eauto with samply. Qed.

Lemma wf_mono_resources t g g' st st' :
  wf t g st → (∀ i, GlobalLibTable.get_lib g' i = GlobalLibTable.get_lib g i) →
  ThreadStringTable.extends st st' → wf t g' st'.
Proof.
  intros [Hi HF] Hg Hst. split; [done|]. eapply Forall2_impl; [exact HF|].
  intros lib name (info & Hlib & Hname). exists info. rewrite Hg. split; [done|].
  by eapply StringTable.get_string_extends.
Qed.

Lemma resource_for_lib_spec t g gs st lib info :
  wf t g st → ThreadStringTable.wf st gs → GlobalLibTable.get_lib g lib = Some info →
  Z.of_nat (S (length (StringTable.strings (ThreadStringTable.table st)))) < 2 ^ 32 →
  ∃ t' st' r, resource_for_lib t lib g st = Ok (t', st', r) ∧ wf t' g st' ∧
    ThreadStringTable.wf st' gs ∧ ThreadStringTable.extends st st' ∧ extends t t' ∧
    (∃ n, resource_libs t' !! n = Some lib ∧ r = u32_of_usize n) ∧
    (length (resource_libs t') ≤ S (length (resource_libs t)))%nat ∧
    (length (StringTable.strings (ThreadStringTable.table st')) ≤
       S (length (StringTable.strings (ThreadStringTable.table st))))%nat.
Proof.
  intros Hwf Hst Hlib Hroom. pose proof Hwf as [Hi HF]. unfold resource_for_lib.
  destruct (lib_to_resource t !! lib) as [r|] eqn:E.
  - exists t, st, r. split_and!; [done..| |lia|lia].
    by apply (index_wf_Some _ _ _ _ _ Hi) in E as (n & ? & ->); eauto.
  - rewrite Hlib. simpl.
    destruct (ThreadStringTable.index_for_string st (LibraryInfo.name info)) as [st' name] eqn:Es.
    pose proof (ThreadStringTable.serve_length gs (ThreadStringTable.Local (LibraryInfo.name info))
      st st' name) as Hlen. simpl in Hlen. rewrite Es in Hlen. specialize (Hlen eq_refl).
    destruct (ThreadStringTable.index_for_string_spec _ gs _ _ _ Es Hst)
      as (Hst' & Hext & _ & Hname); [unfold StringTable.fits; lia|].
    do 3 eexists. split; [done|]. simpl. unfold push, extends.
    split_and!; [split; simpl|done|done|simpl; by apply prefix_app_r| | |done].
    + by apply (index_wf_push u32_of_usize).
    + apply Forall2_app; [|repeat constructor; by exists info].
      eapply Forall2_impl; [exact HF|]. intros lib' name' (info' & ? & ?). exists info'.
      split; [done|]. by eapply StringTable.get_string_extends.
    + eexists. split; [apply lookup_snoc|done].
    + rewrite length_app. simpl. lia.
Qed.

Lemma wf_length t g st : wf t g st → length (resource_names t) = length (resource_libs t).
Proof. intros [_ HF]. by apply Forall2_length in HF. Qed.
End resource_table.
End ResourceTable.

Module NativeSymbols.
Section native_symbols.
Context {D : DebugIdType}.

(** * Data *)
Record NativeSymbols := {
  addresses : list Z;
  function_sizes : list (option Z);
  lib_indexes : list GlobalLibIndex;
  names : list ThreadInternalStringIndex;
  lib_and_symbol_address_to_symbol_index : gmap (GlobalLibIndex * Z) nat
}.
Definition new : NativeSymbols :=
  {| addresses := []; function_sizes := []; lib_indexes := []; names := [];
     lib_and_symbol_address_to_symbol_index := ∅ |}.

(** * Operations *)
Definition symbol_index_and_string_index_for_symbol (t : NativeSymbols)
    (lib_index : GlobalLibIndex) (symbol : SymbolTable.Symbol)
    (string_table : ThreadStringTable.ThreadStringTable)
    : res (NativeSymbols * ThreadStringTable.ThreadStringTable *
           (NativeSymbolIndex * ThreadInternalStringIndex)) :=
  let m := lib_and_symbol_address_to_symbol_index t in
  let key := (lib_index, SymbolTable.address symbol) in
  let '(t', string_table', symbol_index) :=
    match m !! key with
    | Some i => (t, string_table, i)
    | None =>
        let native_symbol_index := length (addresses t) in
        let '(string_table', name) :=
          ThreadStringTable.index_for_string string_table (SymbolTable.name symbol) in
        ({| addresses := push (addresses t) (SymbolTable.address symbol);
            function_sizes := push (function_sizes t) (SymbolTable.size symbol);
            lib_indexes := push (lib_indexes t) lib_index;
            names := push (names t) name;
            lib_and_symbol_address_to_symbol_index := <[key := native_symbol_index]> m |},
         string_table', native_symbol_index)
    end in
  name_string_index ← index (names t') symbol_index;
  Ok (t', string_table', (u32_of_usize symbol_index, name_string_index)).

#[global] Instance serialize_NativeSymbols : Serialize NativeSymbols := λ t,
  JObj [("length", serialize (length (names t)));
        ("address", serialize (addresses t));
        ("functionSize", serialize (function_sizes t));
        ("libIndex", serialize (lib_indexes t));
        ("name", serialize (names t))].

(** * Invariant: the rows are symbols of their libraries

    [rows] are the symbols behind the rows. *)
Definition symbol_of (g : GlobalLibTable.GlobalLibTable) (lib : GlobalLibIndex)
    (s : SymbolTable.Symbol) : Prop :=
  ∃ info syms, GlobalLibTable.get_lib g lib = Some info ∧
    LibraryInfo.symbol_table info = Some (SymbolTable.new syms) ∧
    s ∈ SymbolTable.symbols (SymbolTable.new syms).

Record wf_rows (rows : list (GlobalLibIndex * SymbolTable.Symbol)) (t : NativeSymbols)
    (g : GlobalLibTable.GlobalLibTable) (st : ThreadStringTable.ThreadStringTable) : Prop := {
  wf_addresses : addresses t = (λ r, SymbolTable.address r.2) <$> rows;
  wf_sizes : function_sizes t = (λ r, SymbolTable.size r.2) <$> rows;
  wf_libs : lib_indexes t = fst <$> rows;
  wf_names : Forall2 (λ r name, ThreadStringTable.get_string st name = Some (SymbolTable.name r.2))
    rows (names t);
  wf_symbols : Forall (λ r, symbol_of g r.1 r.2) rows;
  wf_index : index_wf id ((λ r, (r.1, SymbolTable.address r.2)) <$> rows)
    (lib_and_symbol_address_to_symbol_index t)
}.
Definition wf t g st : Prop := ∃ rows, wf_rows rows t g st.

(** The row of an index: library, symbol address and size. *)
Definition symbol_entry (t : NativeSymbols) (i : NativeSymbolIndex)
    : option (GlobalLibIndex * Z * option Z) :=
  let n := usize_of_u32 i in
  lib ← lib_indexes t !! n;
  address ← addresses t !! n;
  size ← function_sizes t !! n;
  Some (lib, address, size).

Definition extends (t t' : NativeSymbols) : Prop :=
  addresses t `prefix_of` addresses t' ∧ function_sizes t `prefix_of` function_sizes t' ∧
  lib_indexes t `prefix_of` lib_indexes t'.
#[global] Instance extends_preorder : PreOrder extends.
Proof.
  split; [by intros ?; split_and!|].
  intros t1 t2 t3 (? & ? & ?) (? & ? & ?). split_and!; by etrans.
Qed.

(** * Lemmas *)
Lemma wf_new_symbols g st : wf new g st.
Proof. exists []. split; simpl; eauto with samply. Qed.

Lemma wf_mono_symbols t g g' st st' :
  wf t g st → (∀ i, GlobalLibTable.get_lib g' i = GlobalLibTable.get_lib g i) →
  ThreadStringTable.extends st st' → wf t g' st'.
Proof.
  intros [rows [Ha Hs Hl Hn Hsym Hi]] Hg Hst. exists rows. split; [done..| | |done].
  - eapply Forall2_impl; [exact Hn|]. intros r name. by apply StringTable.get_string_extends.
  - eapply Forall_impl; [exact Hsym|]. intros r (info & syms & ? & ? & ?). exists info, syms.
    by rewrite Hg.
Qed.

(** A library has one symbol at an address. *)
Lemma symbol_of_unique g lib s s' :
  symbol_of g lib s → symbol_of g lib s' → SymbolTable.address s = SymbolTable.address s' → s = s'.
Proof.
  intros (info & syms & Hg & Ht & Hs) (info' & syms' & Hg' & Ht' & Hs') Ha.
  assert (SymbolTable.new syms = SymbolTable.new syms') as Heq by congruence. rewrite <-Heq in Hs'.
  apply list_elem_of_lookup in Hs as [i Hi], Hs' as [j Hj].
  pose proof (SymbolTable.new_sorted syms) as Hsorted.
  destruct (Nat.lt_trichotomy i j) as [?|[->|?]]; [|congruence|].
  - pose proof (SymbolTable.sorted_lookup SymbolTable.address _ _ _ _ _ Hsorted Hi Hj). lia.
  - pose proof (SymbolTable.sorted_lookup SymbolTable.address _ _ _ _ _ Hsorted Hj Hi). lia.
Qed.

Lemma symbol_entry_extends t t' i e :
  extends t t' → symbol_entry t i = Some e → symbol_entry t' i = Some e.
Proof.
  intros (Ha & Hs & Hl) He. unfold symbol_entry in *.
  destruct (lib_indexes t !! _) eqn:E1; [|done]. destruct (addresses t !! _) eqn:E2; [|done].
  destruct (function_sizes t !! _) eqn:E3; [|done].
  rewrite (prefix_lookup_Some _ _ _ _ E1 Hl), (prefix_lookup_Some _ _ _ _ E2 Ha).
  simpl. by rewrite (prefix_lookup_Some _ _ _ _ E3 Hs).
Qed.

Lemma wf_rows_entry rows t g st n lib s :
  wf_rows rows t g st → Z.of_nat (length rows) < 2 ^ 32 → rows !! n = Some (lib, s) →
  symbol_entry t (u32_of_usize n) = Some (lib, SymbolTable.address s, SymbolTable.size s).
Proof.
  intros [Ha Hs Hl _ _ _] Hlen Hk. unfold symbol_entry.
  rewrite usize_of_u32_of_usize by (apply lookup_lt_Some in Hk; lia).
  by rewrite Ha, Hs, Hl, !list_lookup_fmap, Hk.
Qed.

Lemma symbol_index_spec t g gs st lib s :
  wf t g st → ThreadStringTable.wf st gs → symbol_of g lib s →
  Z.of_nat (S (length (StringTable.strings (ThreadStringTable.table st)))) < 2 ^ 32 →
  Z.of_nat (S (length (addresses t))) < 2 ^ 32 →
  ∃ t' st' i name,
    symbol_index_and_string_index_for_symbol t lib s st = Ok (t', st', (i, name)) ∧
    wf t' g st' ∧ ThreadStringTable.wf st' gs ∧ ThreadStringTable.extends st st' ∧ extends t t' ∧
    symbol_entry t' i = Some (lib, SymbolTable.address s, SymbolTable.size s) ∧
    ThreadStringTable.get_string st' name = Some (SymbolTable.name s) ∧
    (length (addresses t') ≤ S (length (addresses t)))%nat ∧
    (length (StringTable.strings (ThreadStringTable.table st')) ≤
       S (length (StringTable.strings (ThreadStringTable.table st))))%nat.
Proof.
  intros [rows Hwf] Hst Hsym Hroom Hroom'. pose proof Hwf as [Ha Hs Hl Hn Hsyms Hi].
  assert (length (addresses t) = length rows) as Hlen by by rewrite Ha, length_fmap.
  unfold symbol_index_and_string_index_for_symbol.
  destruct (lib_and_symbol_address_to_symbol_index t !! (lib, SymbolTable.address s)) as [i|] eqn:E.
  - apply (index_wf_Some _ _ _ _ _ Hi) in E as (n & Hk & ->). rewrite list_lookup_fmap in Hk.
    destruct (rows !! n) as [[lib' s']|] eqn:En; simplify_eq/=.
    pose proof (Forall_lookup_1 _ _ _ _ Hsyms En) as Hsym'. simpl in Hsym'.
    assert (s' = s) as -> by by eapply symbol_of_unique.
    destruct (Forall2_lookup_l _ _ _ _ _ Hn En) as (name & Hname & Hget).
    unfold index. rewrite Hname. simpl. exists t, st, (u32_of_usize n), name.
    split_and!; [done|by exists rows|done..| |done|lia|lia].
    eapply wf_rows_entry; [done|lia|done].
  - destruct (ThreadStringTable.index_for_string st (SymbolTable.name s)) as [st' name] eqn:Es.
    pose proof (ThreadStringTable.serve_length gs (ThreadStringTable.Local (SymbolTable.name s))
      st st' name) as Hslen. simpl in Hslen. rewrite Es in Hslen. specialize (Hslen eq_refl).
    destruct (ThreadStringTable.index_for_string_spec _ gs _ _ _ Es Hst)
      as (Hst' & Hext & _ & Hname); [unfold StringTable.fits; lia|].
    pose proof (Forall2_length _ _ _ Hn) as Hnlen. unfold index, push. simpl.
    rewrite Hlen, Hnlen, lookup_snoc. simpl. do 4 eexists. split; [done|].
    set (t' := {| addresses := addresses t ++ _ |}).
    assert (wf_rows (rows ++ [(lib, s)]) t' g st') as Hwf'.
    { split; simpl; rewrite ?fmap_app, ?Ha, ?Hs, ?Hl; [done..| | |].
      - apply Forall2_app; [|by repeat constructor]. eapply Forall2_impl; [exact Hn|].
        intros r name'. by apply StringTable.get_string_extends.
      - apply Forall_app. split; [done|]. by repeat constructor.
      - rewrite <-Hnlen, <-(length_fmap (λ r, (r.1, SymbolTable.address r.2)) rows).
        by apply (index_wf_push id). }
    split_and!; [by eexists|done|done| | |done| |done].
    + split_and!; simpl; by apply prefix_app_r.
    + eapply wf_rows_entry; [done|rewrite length_app; simpl; lia|]. rewrite <-Hnlen. apply lookup_snoc.
    + simpl. rewrite length_app. simpl. lia.
Qed.

Lemma wf_lengths t g st :
  wf t g st → length (function_sizes t) = length (addresses t) ∧
    length (lib_indexes t) = length (addresses t) ∧ length (names t) = length (addresses t).
Proof.
  intros [rows [-> -> -> Hn _ _]]. apply Forall2_length in Hn. by rewrite !length_fmap.
Qed.
End native_symbols.
End NativeSymbols.

Module FrameTable.
Section frame_table.
Context {D : DebugIdType}.

(** * Data *)
Inductive InternalFrameLocation :=
| UnknownAddress (address : Z)
| AddressInLib (address : Z) (lib : GlobalLibIndex)
| Label (string_index : ThreadInternalStringIndex).
Record InternalFrame := {
  location : InternalFrameLocation;
  category_pair : CategoryPairHandle;
  flags : FrameFlags
}.
#[global] Instance InternalFrameLocation_eq_dec : EqDecision InternalFrameLocation.
Proof. solve_decision. Defined.
#[global] Program Instance InternalFrameLocation_countable : Countable InternalFrameLocation :=
  inj_countable'
    (λ l, match l with
          | UnknownAddress a => inl (inl a)
          | AddressInLib a i => inl (inr (a, i))
          | Label s => inr s
          end)
    (λ c, match c with
          | inl (inl a) => UnknownAddress a
          | inl (inr (a, i)) => AddressInLib a i
          | inr s => Label s
          end) _.
Next Obligation. by intros []. Qed.
#[global] Instance InternalFrame_eq_dec : EqDecision InternalFrame.
Proof. solve_decision. Defined.
#[global] Program Instance InternalFrame_countable : Countable InternalFrame :=
  inj_countable' (λ f, (location f, category_pair f, flags f))
    (λ p, {| location := p.1.1; category_pair := p.1.2; flags := p.2 |}) _.
Next Obligation. by intros []. Qed.

Record FrameTable := {
  addresses : list (option Z);
  categories : list CategoryHandle;
  subcategories : list Subcategory;
  funcs : list FuncIndex;
  native_symbols : list (option NativeSymbolIndex);
  internal_frame_to_frame_index : gmap InternalFrame nat
}.
Definition new : FrameTable :=
  {| addresses := []; categories := []; subcategories := []; funcs := []; native_symbols := [];
     internal_frame_to_frame_index := ∅ |}.

(** The tables [index_for_frame] gets references to. *)
Record Tables := {
  string_table : ThreadStringTable.ThreadStringTable;
  resource_table : ResourceTable.ResourceTable;
  func_table : FuncTable.FuncTable;
  native_symbol_table : NativeSymbols.NativeSymbols;
  global_libs : GlobalLibTable.GlobalLibTable
}.

(** * Operations *)
(** [format!("0x{address:x}")], interned. *)
Definition address_string (c : Tables) (address : Z) : Tables * ThreadInternalStringIndex :=
  let '(strings, s) := ThreadStringTable.index_for_string (string_table c) (hex_string address) in
  ({| string_table := strings; resource_table := resource_table c; func_table := func_table c;
      native_symbol_table := native_symbol_table c; global_libs := global_libs c |}, s).

(** The [match frame.location]: address, name, native symbol and resource. *)
Definition locate (c : Tables) (location' : InternalFrameLocation)
    : res (Tables * (option Z * ThreadInternalStringIndex * option NativeSymbolIndex *
                     option ResourceIndex)) :=
  match location' with
  | UnknownAddress address =>
      let '(c', s) := address_string c address in
      Ok (c', (None, s, None, None))
  | AddressInLib address lib_index =>
      '(resources, strings, resource) ←
        ResourceTable.resource_for_lib (resource_table c) lib_index (global_libs c) (string_table c);
      lib ← unwrap (GlobalLibTable.get_lib (global_libs c) lib_index);
      symbol ← match LibraryInfo.symbol_table lib with
               | Some table => SymbolTable.lookup table address
               | None => Ok None
               end;
      match symbol with
      | Some symbol =>
          '(natives, strings', (native_symbol, s)) ←
            NativeSymbols.symbol_index_and_string_index_for_symbol (native_symbol_table c)
              lib_index symbol strings;
          Ok ({| string_table := strings'; resource_table := resources;
                 func_table := func_table c; native_symbol_table := natives;
                 global_libs := global_libs c |},
              (Some address, s, Some native_symbol, Some resource))
      | None =>
          libs ← GlobalLibTable.add_lib_used_rva (global_libs c) lib_index address;
          let '(c', s) := address_string
            {| string_table := strings; resource_table := resources; func_table := func_table c;
               native_symbol_table := native_symbol_table c; global_libs := libs |} address in
          Ok (c', (Some address, s, None, Some resource))
      end
  | Label string_index => Ok (c, (None, string_index, None, None))
  end.

Definition index_for_frame (t : FrameTable) (c : Tables) (frame' : InternalFrame)
    : res (FrameTable * Tables * nat) :=
  match internal_frame_to_frame_index t !! frame' with
  | Some i => Ok (t, c, i)
  | None =>
      let frame_index := length (addresses t) in
      '(c1, (address, location_string_index, native_symbol, resource)) ← locate c (location frame');
      let '(funcs', func_index) :=
        FuncTable.index_for_func (func_table c1) location_string_index resource (flags frame') in
      Ok ({| addresses := push (addresses t) address;
             categories := push (categories t) (pair_category (category_pair frame'));
             subcategories := push (subcategories t) (subcategory_of_pair (category_pair frame'));
             funcs := push (funcs t) func_index;
             native_symbols := push (native_symbols t) native_symbol;
             internal_frame_to_frame_index :=
               <[frame' := frame_index]> (internal_frame_to_frame_index t) |},
          {| string_table := string_table c1; resource_table := resource_table c1;
             func_table := funcs'; native_symbol_table := native_symbol_table c1;
             global_libs := global_libs c1 |},
          frame_index)
  end.

Definition serialize_frame_table (t : FrameTable) (categories' : list Category) : res json :=
  let len := length (addresses t) in
  subcategory_column ← serialize_subcategory_column (subcategories t) categories';
  Ok (JObj [("length", serialize len);
            ("address", serialize_or_minus_one (addresses t));
            ("inlineDepth", serialize_single_value_column (JInt 0) len);
            ("category", serialize (categories t));
            ("subcategory", subcategory_column);
            ("func", serialize (funcs t));
            ("nativeSymbol", serialize (native_symbols t));
            ("innerWindowID", serialize_single_value_column JNull len);
            ("implementation", serialize_single_value_column JNull len);
            ("line", serialize_single_value_column JNull len);
            ("column", serialize_single_value_column JNull len)]).

(** A sequence of calls. *)
Fixpoint index_for_frames (t : FrameTable) (c : Tables) (frames : list InternalFrame)
    : res (FrameTable * Tables * list nat) :=
  match frames with
  | [] => Ok (t, c, [])
  | frame' :: frames' =>
      '(t1, c1, i) ← index_for_frame t c frame';
      '(t2, c2, l) ← index_for_frames t1 c1 frames';
      Ok (t2, c2, i :: l)
  end.

(** * Specification: what a row says about its frame *)

(** The symbol of a library address. *)
Definition frame_symbol (g : GlobalLibTable.GlobalLibTable) (lib : GlobalLibIndex) (address : Z)
    : option SymbolTable.Symbol :=
  info ← GlobalLibTable.get_lib g lib;
  table ← LibraryInfo.symbol_table info;
  match SymbolTable.lookup table address with Ok symbol => symbol | Panic => None end.

Definition describes_location (c : Tables) (location' : InternalFrameLocation)
    (row : option Z * ThreadInternalStringIndex * option NativeSymbolIndex * option ResourceIndex)
    : Prop :=
  let '(address, name, native_symbol, resource) := row in
  let named s := ThreadStringTable.get_string (string_table c) name = Some s in
  match location' with
  | UnknownAddress a =>
      address = None ∧ named (hex_string a) ∧ native_symbol = None ∧ resource = None
  | AddressInLib a lib =>
      address = Some a ∧
      (∃ n, resource = Some (u32_of_usize n) ∧
        ResourceTable.resource_libs (resource_table c) !! n = Some lib) ∧
      match frame_symbol (global_libs c) lib a with
      | Some symbol =>
          named (SymbolTable.name symbol) ∧
          ∃ i, native_symbol = Some i ∧
            NativeSymbols.symbol_entry (native_symbol_table c) i =
              Some (lib, SymbolTable.address symbol, SymbolTable.size symbol)
      | None => named (hex_string a) ∧ native_symbol = None
      end
  | Label s => address = None ∧ name = s ∧ native_symbol = None ∧ resource = None
  end.

Definition describes (t : FrameTable) (c : Tables) (frame' : InternalFrame) (i : nat) : Prop :=
  ∃ address name native_symbol resource func,
    describes_location c (location frame') (address, name, native_symbol, resource) ∧
    addresses t !! i = Some address ∧
    native_symbols t !! i = Some native_symbol ∧
    funcs t !! i = Some func ∧
    FuncTable.func_entry (func_table c) func = Some (name, resource, flags frame') ∧
    categories t !! i = Some (pair_category (category_pair frame')) ∧
    subcategories t !! i = Some (subcategory_of_pair (category_pair frame')).

(** What a caller can pass: indexes that were given out. *)
Definition frame_valid (c : Tables) (frame' : InternalFrame) : Prop :=
  match location frame' with
  | UnknownAddress _ => True
  | AddressInLib _ lib => (lib < length (GlobalLibTable.used_libs (global_libs c)))%nat
  | Label s => is_Some (ThreadStringTable.get_string (string_table c) s)
  end.

(** Addresses without a symbol are recorded for later symbolication. *)
Definition unsymbolicated (c : Tables) (frames : list InternalFrame) (lib : GlobalLibIndex) (a : Z)
    : Prop :=
  frame_symbol (global_libs c) lib a = None ∧
  ∃ frame', frame' ∈ frames ∧ location frame' = AddressInLib a lib.

Definition seen (c : Tables) (lib : GlobalLibIndex) : gset Z :=
  default ∅ (GlobalLibTable.used_libs_seen_rvas (global_libs c) !! lib).

(** * Invariant, for the profile's string table [gs] *)
Context (gs : StringTable.StringTable).

(** Every symbol table was made by [SymbolTable::new]. *)
Definition tables_built (g : GlobalLibTable.GlobalLibTable) : Prop :=
  ∀ lib info table, GlobalLibTable.all_libs g !! lib = Some info →
    LibraryInfo.symbol_table info = Some table → ∃ syms, table = SymbolTable.new syms.
Lemma built_get_lib g i info table :
  tables_built g → GlobalLibTable.get_lib g i = Some info →
  LibraryInfo.symbol_table info = Some table → ∃ syms, table = SymbolTable.new syms.
Proof.
  unfold GlobalLibTable.get_lib. intros Hb.
  destruct (GlobalLibTable.used_libs g !! i) as [lib|]; [|done]. apply Hb.
Qed.

Record tables_wf (c : Tables) : Prop := {
  wf_strings : ThreadStringTable.wf (string_table c) gs;
  wf_resources : ResourceTable.wf (resource_table c) (global_libs c) (string_table c);
  wf_funcs : FuncTable.wf (func_table c);
  wf_natives : NativeSymbols.wf (native_symbol_table c) (global_libs c) (string_table c);
  wf_libs : GlobalLibTable.wf (global_libs c);
  wf_built : tables_built (global_libs c)
}.

(** [room k c]: [k] more frames fit the 32-bit indexes. *)
Definition room (k : nat) (c : Tables) : Prop :=
  Z.of_nat (length (StringTable.strings (ThreadStringTable.table (string_table c))) + 2 * k) < 2 ^ 32 ∧
  Z.of_nat (length (FuncTable.names (func_table c)) + k) < 2 ^ 32 ∧
  Z.of_nat (length (ResourceTable.resource_libs (resource_table c)) + k) < 2 ^ 32 ∧
  Z.of_nat (length (NativeSymbols.addresses (native_symbol_table c)) + k) < 2 ^ 32.

(** The tables only grow. *)
Record tables_le (c c' : Tables) : Prop := {
  le_strings : ThreadStringTable.extends (string_table c) (string_table c');
  le_resources : ResourceTable.extends (resource_table c) (resource_table c');
  le_funcs : FuncTable.extends (func_table c) (func_table c');
  le_natives : NativeSymbols.extends (native_symbol_table c) (native_symbol_table c');
  le_libs : ∀ i, GlobalLibTable.get_lib (global_libs c') i = GlobalLibTable.get_lib (global_libs c) i;
  le_used : GlobalLibTable.used_libs (global_libs c') = GlobalLibTable.used_libs (global_libs c);
  le_all : GlobalLibTable.all_libs (global_libs c') = GlobalLibTable.all_libs (global_libs c)
}.
#[global] Instance tables_le_preorder : PreOrder tables_le.
Proof.
  split; [intros c; by split|].
  intros c1 c2 c3 [] []. split; [by etrans..|intros i| |]; congruence.
Qed.

Record wf_keys (keys : list InternalFrame) (t : FrameTable) (c : Tables) : Prop := {
  wf_tables : tables_wf c;
  wf_index : index_wf id keys (internal_frame_to_frame_index t);
  wf_rows : ∀ i frame', keys !! i = Some frame' → describes t c frame' i;
  wf_addresses_len : length (addresses t) = length keys;
  wf_categories_len : length (categories t) = length keys;
  wf_subcategories_len : length (subcategories t) = length keys;
  wf_funcs_len : length (funcs t) = length keys;
  wf_natives_len : length (native_symbols t) = length keys;
  wf_seen : ∀ lib a, unsymbolicated c keys lib a → a ∈ seen c lib
}.
Definition wf (t : FrameTable) (c : Tables) : Prop := ∃ keys, wf_keys keys t c.

(** * Lemmas *)
Lemma frame_symbol_le c c' lib a :
  tables_le c c' → frame_symbol (global_libs c') lib a = frame_symbol (global_libs c) lib a.
Proof. intros Hle. unfold frame_symbol. by rewrite (le_libs _ _ Hle). Qed.

Lemma describes_location_le c c' l row :
  tables_le c c' → describes_location c l row → describes_location c' l row.
Proof.
  intros Hle. destruct row as [[[address name] native] resource]. unfold describes_location.
  assert (∀ s, ThreadStringTable.get_string (string_table c) name = Some s →
    ThreadStringTable.get_string (string_table c') name = Some s) as Hs
    by (intros s; apply StringTable.get_string_extends, Hle).
  destruct l as [a|a lib|s].
  - intros (? & ? & ? & ?). split_and!; auto.
  - rewrite (frame_symbol_le c c') by done. intros (? & (n & ? & Hn) & Hsym).
    split_and!; [done| |].
    + exists n. split; [done|]. eapply prefix_lookup_Some; [done|apply Hle].
    + destruct (frame_symbol _ _ _) as [symbol|]; [|destruct Hsym; auto].
      destruct Hsym as (? & i & ? & Hi). split; [auto|]. exists i. split; [done|].
      eapply NativeSymbols.symbol_entry_extends; [apply Hle|done].
  - done.
Qed.

Lemma describes_le t c c' frame' i :
  tables_le c c' → describes t c frame' i → describes t c' frame' i.
Proof.
  intros Hle (address & name & native & resource & func & Hloc & ? & ? & ? & Hf & ? & ?).
  exists address, name, native, resource, func.
  split_and!; [by eapply describes_location_le|done..| |done|done].
  eapply FuncTable.func_entry_extends; [apply Hle|done].
Qed.

Lemma wf_new_tables g :
  GlobalLibTable.wf g → tables_built g →
  wf new {| string_table := ThreadStringTable.new; resource_table := ResourceTable.new;
            func_table := FuncTable.new; native_symbol_table := NativeSymbols.new;
            global_libs := g |}.
Proof.
  intros Hg Hb. exists []. split; simpl; [|eauto with samply|done..|].
  - split; simpl; [|by apply ResourceTable.wf_new_resources|by apply FuncTable.wf_new_funcs
                   |by apply NativeSymbols.wf_new_symbols|done|done].
    apply ThreadStringTable.wf_new_thread.
  - intros lib a (_ & f & Hf%elem_of_nil & _). done.
Qed.

(** ** One frame *)
Definition strings_of (c : Tables) : nat :=
  length (StringTable.strings (ThreadStringTable.table (string_table c))).

Lemma address_string_spec c a :
  tables_wf c → Z.of_nat (S (strings_of c)) < 2 ^ 32 →
  let '(c', s) := address_string c a in
  tables_wf c' ∧ tables_le c c' ∧
  ThreadStringTable.get_string (string_table c') s = Some (hex_string a) ∧
  (strings_of c' ≤ S (strings_of c))%nat ∧
  func_table c' = func_table c ∧ resource_table c' = resource_table c ∧
  native_symbol_table c' = native_symbol_table c ∧ global_libs c' = global_libs c.
Proof.
  intros [Hst Hr Hf Hn Hl Hb] Hroom. unfold address_string, strings_of in *.
  destruct (ThreadStringTable.index_for_string (string_table c) (hex_string a)) as [st s] eqn:E.
  pose proof (ThreadStringTable.serve_length gs (ThreadStringTable.Local (hex_string a))
    (string_table c) st s) as Hlen. simpl in Hlen. rewrite E in Hlen. specialize (Hlen eq_refl).
  destruct (ThreadStringTable.index_for_string_spec _ gs _ _ _ E Hst) as (Hst' & Hext & _ & Hs);
    [unfold StringTable.fits; lia|].
  simpl. split_and!; [|by split|done..].
  split; simpl; [done| |done| |done|done].
  - by eapply ResourceTable.wf_mono_resources.
  - by eapply NativeSymbols.wf_mono_symbols.
Qed.

Lemma frame_symbol_of g lib a symbol :
  tables_built g → frame_symbol g lib a = Some symbol → NativeSymbols.symbol_of g lib symbol.
Proof.
  unfold frame_symbol. intros Hb Hs.
  destruct (GlobalLibTable.get_lib g lib) as [info|] eqn:El; [|done]. simpl in Hs.
  destruct (LibraryInfo.symbol_table info) as [table|] eqn:Et; [|done]. simpl in Hs.
  destruct (built_get_lib _ _ _ _ Hb El Et) as [syms ->]. exists info, syms. split_and!; [done..|].
  destruct (SymbolTable.lookup_new_Some syms a) as (o & Ho & Hspec). rewrite Ho in Hs. subst o.
  by apply Hspec.
Qed.

(** The lookup of [locate] never panics. *)
Lemma locate_symbol g lib info a :
  tables_built g → GlobalLibTable.get_lib g lib = Some info →
  match LibraryInfo.symbol_table info with
  | Some table => SymbolTable.lookup table a
  | None => Ok None
  end = Ok (frame_symbol g lib a).
Proof.
  intros Hb Hl. unfold frame_symbol. rewrite Hl. simpl.
  destruct (LibraryInfo.symbol_table info) as [table|] eqn:Et; [|done]. simpl.
  destruct (built_get_lib _ _ _ _ Hb Hl Et) as [syms ->].
  by destruct (SymbolTable.lookup_new_Some syms a) as (o & -> & _).
Qed.

(** Recording an address changes nothing but the recorded addresses. *)
Lemma add_rva_le c libs lib a strings resources :
  tables_wf c → (lib < length (GlobalLibTable.used_libs (global_libs c)))%nat →
  GlobalLibTable.add_lib_used_rva (global_libs c) lib a = Ok libs →
  ResourceTable.wf resources (global_libs c) strings →
  ThreadStringTable.extends (string_table c) strings →
  ResourceTable.extends (resource_table c) resources →
  ThreadStringTable.wf strings gs →
  let c' := {| string_table := strings; resource_table := resources; func_table := func_table c;
               native_symbol_table := native_symbol_table c; global_libs := libs |} in
  tables_wf c' ∧ tables_le c c' ∧
  (∀ lib' a', a' ∈ seen c' lib' ↔ a' ∈ seen c lib' ∨ (lib' = lib ∧ a' = a)).
Proof.
  intros [_ _ Hf Hn [keys Hl] Hb] Hlib Hadd Hr Hse Hre Hst. simpl.
  destruct (GlobalLibTable.add_lib_used_rva_wf keys (global_libs c) lib a Hl Hlib)
    as (libs' & Hadd' & Hl' & Hused & Hall & rvas & Hrvas & Hseen).
  assert (libs' = libs) as -> by congruence.
  assert (∀ i, GlobalLibTable.get_lib libs i = GlobalLibTable.get_lib (global_libs c) i) as Hget
    by (intros i; unfold GlobalLibTable.get_lib; by rewrite Hused, Hall).
  split_and!.
  - split; simpl; [done| |done| |by exists keys|].
    + by eapply ResourceTable.wf_mono_resources.
    + by eapply NativeSymbols.wf_mono_symbols.
    + intros lib' info table. rewrite Hall. apply Hb.
  - by split.
  - intros lib' a'. unfold seen. simpl. rewrite Hseen.
    destruct (decide (lib' = lib)) as [->|Hne].
    + rewrite list_lookup_insert_eq by by eapply lookup_lt_Some. rewrite Hrvas. simpl. set_solver.
    + rewrite list_lookup_insert_ne by done. naive_solver.
Qed.

Lemma seen_same c c' : global_libs c' = global_libs c → seen c' = seen c.
Proof. unfold seen. by intros ->. Qed.

(** What [locate] does for one location. *)
Definition located (c : Tables) (l : InternalFrameLocation) (c' : Tables)
    (row : option Z * ThreadInternalStringIndex * option NativeSymbolIndex * option ResourceIndex)
    : Prop :=
  tables_wf c' ∧ tables_le c c' ∧ describes_location c' l row ∧
  (strings_of c' ≤ strings_of c + 2)%nat ∧
  FuncTable.names (func_table c') = FuncTable.names (func_table c) ∧
  (length (ResourceTable.resource_libs (resource_table c')) ≤
     S (length (ResourceTable.resource_libs (resource_table c))))%nat ∧
  (length (NativeSymbols.addresses (native_symbol_table c')) ≤
     S (length (NativeSymbols.addresses (native_symbol_table c))))%nat ∧
  (∀ lib a, a ∈ seen c' lib ↔
     a ∈ seen c lib ∨ (l = AddressInLib a lib ∧ frame_symbol (global_libs c) lib a = None)).

Lemma locate_in_lib c a lib :
  tables_wf c → room 1 c → (lib < length (GlobalLibTable.used_libs (global_libs c)))%nat →
  ∃ c' row, locate c (AddressInLib a lib) = Ok (c', row) ∧ located c (AddressInLib a lib) c' row.
Proof.
  intros Hwf (Hroom & _ & _ & Hroomn) Hlib. pose proof Hwf as [Hst Hr Hf Hn [keys Hl] Hb].
  assert (is_Some (GlobalLibTable.get_lib (global_libs c) lib)) as [info Hinfo].
  { destruct (GlobalLibTable.next_wf keys (global_libs c) lib Hl) as [_ H]. apply H.
    apply lookup_lt_is_Some. by rewrite (GlobalLibTable.wf_seen _ _ Hl). }
  unfold locate.
  destruct (ResourceTable.resource_for_lib_spec _ _ gs _ _ _ Hr Hst Hinfo)
    as (rt & st & r & -> & Hr' & Hst' & Hse & Hre & (n & Hn' & ->) & Hrlen & Hslen); [lia|].
  simpl. rewrite Hinfo. simpl. rewrite (locate_symbol _ _ _ _ Hb Hinfo). simpl.
  destruct (frame_symbol (global_libs c) lib a) as [symbol|] eqn:Esym.
  - pose proof (frame_symbol_of _ _ _ _ Hb Esym) as Hsym.
    destruct (NativeSymbols.symbol_index_spec (native_symbol_table c) (global_libs c) gs st lib symbol)
      as (nt & st' & i & name & -> & Hn'' & Hst'' & Hse' & Hne & Hentry & Hname & Hnlen & Hslen');
      [by eapply NativeSymbols.wf_mono_symbols|done|done|lia|lia|].
    simpl. do 2 eexists. split; [done|].
    unfold located, strings_of. simpl. rewrite Esym. split_and!; [|split; simpl|..]; try done; try lia.
    + split; simpl; [done| |done|done|by exists keys|done]. by eapply ResourceTable.wf_mono_resources.
    + by etrans.
    + eauto.
    + eauto.
    + intros lib' a'. unfold seen. simpl. split; [auto|]. intros [?|[[= -> ->] ?]]; [done|congruence].
  - destruct (GlobalLibTable.add_lib_used_rva_wf keys (global_libs c) lib a Hl Hlib)
      as (libs & Hadd & _). rewrite Hadd. simpl.
    destruct (add_rva_le c libs lib a st rt Hwf Hlib Hadd Hr' Hse Hre) as (Hwf1 & Hle1 & Hseen);
      [done|].
    match goal with |- context [address_string ?c1 a] => set (c1' := c1) in * end.
    pose proof (address_string_spec c1' a Hwf1) as Hs. unfold strings_of in Hs at 1. simpl in Hs.
    destruct (address_string c1' a) as [c2 s].
    destruct Hs as (Hwf2 & Hle2 & Hname & Hslen' & Hf2 & Hr2 & Hn2 & Hg2); [lia|].
    do 2 eexists. split; [done|].
    unfold located, strings_of in *. subst c1'. simpl in *.
    split; [done|]. split; [by etrans|]. split.
    { rewrite (frame_symbol_le c c2), Esym by by etrans. rewrite Hr2.
      split_and!; [done|by eexists|done|done]. }
    split_and!; [lia|by rewrite Hf2|by rewrite Hr2|rewrite Hn2; lia|].
    intros lib' a'. unfold seen at 1. rewrite Hg2. etrans; [apply (Hseen lib' a')|].
    split; (intros [?|H]; [by left|right]).
    + destruct H as [-> ->]. done.
    + destruct H as [[= -> ->] ?]. done.
Qed.

Lemma locate_spec c l frame' :
  tables_wf c → room 1 c → location frame' = l → frame_valid c frame' →
  ∃ c' row, locate c l = Ok (c', row) ∧ located c l c' row.
Proof.
  intros Hwf Hroom Hl Hv. unfold frame_valid in Hv. rewrite Hl in Hv. destruct l as [a|a lib|s].
  - destruct Hroom as (Hroom & _). simpl.
    pose proof (address_string_spec c a Hwf) as Hs. destruct (address_string c a) as [c' s].
    destruct Hs as (Hwf' & Hle & Hname & Hlen & Hf & Hr & Hn & Hg); [unfold strings_of; lia|].
    do 2 eexists. split; [done|]. unfold located. rewrite Hf, Hr, Hn, (seen_same c c' Hg).
    split_and!; [done..|lia|done|lia|lia|]. intros lib a'. split; [auto|]. by intros [?|[? _]].
  - by apply locate_in_lib.
  - do 2 eexists. split; [done|]. unfold located. split_and!; [done..|lia|done|lia|lia|].
    intros lib a'. split; [auto|]. by intros [?|[? _]].
Qed.

Lemma unsymbolicated_le c c' frames lib a :
  tables_le c c' → unsymbolicated c' frames lib a ↔ unsymbolicated c frames lib a.
Proof. intros Hle. unfold unsymbolicated. by rewrite (frame_symbol_le c c'). Qed.

Lemma unsymbolicated_cons c frame' frames lib a :
  unsymbolicated c (frame' :: frames) lib a ↔
  unsymbolicated c [frame'] lib a ∨ unsymbolicated c frames lib a.
Proof.
  unfold unsymbolicated. setoid_rewrite elem_of_cons. setoid_rewrite elem_of_nil. naive_solver.
Qed.

(** A new row behind the old ones. *)
Lemma describes_push t c frame' i address category subcategory func native m :
  describes t c frame' i →
  describes {| addresses := push (addresses t) address;
               categories := push (categories t) category;
               subcategories := push (subcategories t) subcategory;
               funcs := push (funcs t) func;
               native_symbols := push (native_symbols t) native;
               internal_frame_to_frame_index := m |} c frame' i.
Proof.
  intros (a & n & ns & r & f & ? & ? & ? & ? & ? & ? & ?). exists a, n, ns, r, f. unfold push. simpl.
  split_and!; try done; by apply lookup_app_l_Some.
Qed.

(** How much the tables with 32-bit indexes grow for [k] frames. *)
Definition grown (k : nat) (c c' : Tables) : Prop :=
  (strings_of c' ≤ strings_of c + 2 * k ∧
   length (FuncTable.names (func_table c')) ≤ length (FuncTable.names (func_table c)) + k ∧
   length (ResourceTable.resource_libs (resource_table c')) ≤
     length (ResourceTable.resource_libs (resource_table c)) + k ∧
   length (NativeSymbols.addresses (native_symbol_table c')) ≤
     length (NativeSymbols.addresses (native_symbol_table c)) + k)%nat.
Lemma grown_room j k c c' : grown j c c' → room (j + k) c → room k c'.
Proof. unfold grown, room, strings_of. lia. Qed.

(** What one call guarantees. *)
Definition indexed (keys : list InternalFrame) (t : FrameTable) (c : Tables)
    (frames : list InternalFrame) (keys' : list InternalFrame) (t' : FrameTable) (c' : Tables)
    : Prop :=
  wf_keys keys' t' c' ∧ tables_le c c' ∧ keys `prefix_of` keys' ∧
  (∀ lib a, a ∈ seen c' lib ↔ a ∈ seen c lib ∨ unsymbolicated c frames lib a) ∧
  (∀ f, f ∈ keys' → f ∈ keys ∨ f ∈ frames) ∧ grown (length frames) c c'.

Lemma index_for_frame_spec keys t c frame' :
  wf_keys keys t c → room 1 c → frame_valid c frame' →
  ∃ t' c' i keys', index_for_frame t c frame' = Ok (t', c', i) ∧
    keys' !! i = Some frame' ∧ indexed keys t c [frame'] keys' t' c'.
Proof.
  intros Hwf Hroom Hv. pose proof Hwf as [Ht Hi Hrows Hla Hlc Hls Hlf Hln Hseen].
  unfold index_for_frame, indexed.
  destruct (internal_frame_to_frame_index t !! frame') as [i|] eqn:E.
  - apply (index_wf_Some _ _ _ _ _ Hi) in E as (n & Hn & ->). exists t, c, n, keys.
    split_and!; [done..| |by left|].
    + intros lib a. split; [by left|]. intros [?|(Hs & f & ->%list_elem_of_singleton & Hf)]; [done|].
      apply Hseen. split; [done|]. exists frame'. split; [|done]. apply list_elem_of_lookup. eauto.
    + unfold grown. simpl. lia.
  - destruct (locate_spec c (location frame') frame' Ht Hroom eq_refl Hv)
      as (c1 & [[[address name] native] resource] & -> & Ht1 & Hle1 & Hloc & Hstr & Hfn & Hrl & Hnl & Hsn).
    simpl. destruct (wf_funcs _ Ht1) as [fkeys Hfk].
    pose proof (FuncTable.index_for_func_spec fkeys (func_table c1) name resource (flags frame') Hfk)
      as Hfunc.
    destruct (FuncTable.index_for_func (func_table c1) name resource (flags frame')) as [ft func].
    destruct Hfunc as (fkeys' & n & Hfk' & _ & Hfle & Hn & -> & Hflen).
    match goal with |- context [Ok (?t2, ?c2, _)] => set (t' := t2); set (c' := c2) end.
    assert (tables_le c1 c') as Hle2 by (destruct (tables_le_preorder.(PreOrder_Reflexive) c1); by split).
    assert (tables_le c c') as Hle by by etrans.
    pose proof (FuncTable.wf_keys_length _ _ Hfk) as Hfl.
    pose proof (FuncTable.wf_keys_length _ _ Hfk') as Hfl'.
    destruct Hroom as (Hroom1 & Hroom2 & Hroom3 & Hroom4).
    assert (∀ lib a, a ∈ seen c' lib ↔ a ∈ seen c lib ∨ unsymbolicated c [frame'] lib a) as Hseen'.
    { intros lib a. etrans; [apply (Hsn lib a)|]. unfold unsymbolicated.
      setoid_rewrite list_elem_of_singleton. naive_solver. }
    exists t', c', (length (addresses t)), (keys ++ [frame']). rewrite Hla.
    split_and!; [done|apply lookup_snoc|..|by apply prefix_app_r|done|by intros f [?|?]%elem_of_app; [left|right]|];
      [|done|].
    + split; simpl; unfold push; rewrite ?length_app; simpl; try lia.
      * destruct Ht1. split; try done. by exists fkeys'.
      * rewrite Hla. by apply (index_wf_push id).
      * intros i f [Hf|[-> ->]]%lookup_app_Some_snoc.
        { apply describes_push. eapply describes_le; [done|by apply Hrows]. }
        exists address, name, native, resource, (u32_of_usize n). simpl. unfold push.
        rewrite <-Hla at 1. rewrite lookup_snoc. rewrite <-Hln at 1. rewrite lookup_snoc.
        rewrite <-Hlf at 1. rewrite lookup_snoc. rewrite <-Hlc at 1. rewrite lookup_snoc.
        rewrite <-Hls at 1. rewrite lookup_snoc.
        split_and!; try done.
        eapply FuncTable.wf_keys_entry; [done| |done]. rewrite Hfn in Hfl. lia.
      * intros lib a (Hs & f & [Hf|Hf]%elem_of_app & Hloc').
        -- apply Hseen'. left. apply Hseen. split; [by rewrite <-(frame_symbol_le c c')|eauto].
        -- apply Hseen'. right. split; [by rewrite <-(frame_symbol_le c c')|eauto].
    + unfold grown, strings_of in *. simpl. rewrite Hfn in Hfl. lia.
Qed.

Lemma frame_valid_le c c' frame' : tables_le c c' → frame_valid c frame' → frame_valid c' frame'.
Proof.
  intros Hle. unfold frame_valid. destruct (location frame'); [done| |].
  - by rewrite (le_used _ _ Hle).
  - intros [s Hs]. exists s. eapply StringTable.get_string_extends; [apply Hle|done].
Qed.

Lemma index_for_frames_spec frames keys t c :
  wf_keys keys t c → room (length frames) c → Forall (frame_valid c) frames →
  ∃ t' c' l keys', index_for_frames t c frames = Ok (t', c', l) ∧
    Forall2 (λ f i, keys' !! i = Some f) frames l ∧ indexed keys t c frames keys' t' c'.
Proof.
  revert keys t c. induction frames as [|f frames IH]; intros keys t c Hwf Hroom Hv; simpl.
  { exists t, c, [], keys. split_and!; [done|constructor|].
    split_and!; [done..| |by left|unfold grown; simpl; lia].
    intros lib a. split; [by left|]. intros [?|(_ & f & Hf%elem_of_nil & _)]; done. }
  apply Forall_cons in Hv as [Hvf Hv]. simpl in Hroom.
  destruct (index_for_frame_spec keys t c f Hwf) as (t1 & c1 & i & keys1 & -> & Hi & H1);
    [unfold room in *; lia|done|].
  destruct H1 as (Hwf1 & Hle1 & Hpre1 & Hs1 & Hk1 & Hgrown1). simpl in Hgrown1.
  destruct (IH keys1 t1 c1 Hwf1) as (t2 & c2 & l & keys2 & Heq & HF & Hwf2 & Hle2 & Hpre2 & Hs2 & Hk2 & Hgrown2);
    [by eapply (grown_room 1)|by eapply Forall_impl; [exact Hv|]; intros; eapply frame_valid_le|].
  simpl. rewrite Heq. simpl. exists t2, c2, (i :: l), keys2. split_and!; [done| |].
  - constructor; [|done]. by eapply prefix_lookup_Some.
  - split_and!; [done|by etrans|by etrans| | |unfold grown in *; simpl; lia].
    2: { intros x [Hx|?]%Hk2; [|by right; right]. apply Hk1 in Hx as [?|Hx]; [by left|right].
         apply list_elem_of_singleton in Hx as ->. by left. }
    intros lib a. rewrite Hs2, Hs1, (unsymbolicated_le c c1), (unsymbolicated_cons c f frames) by done.
    tauto.
Qed.

(** ** Libraries used by other threads

    The library table is the profile's: between two calls for one thread, the
    others use more libraries and record more addresses. *)
Record libs_le (g g' : GlobalLibTable.GlobalLibTable) : Prop := {
  libs_le_get : ∀ i info, GlobalLibTable.get_lib g i = Some info → GlobalLibTable.get_lib g' i = Some info;
  libs_le_seen : ∀ i a, a ∈ default ∅ (GlobalLibTable.used_libs_seen_rvas g !! i) →
    a ∈ default ∅ (GlobalLibTable.used_libs_seen_rvas g' !! i)
}.
#[global] Instance libs_le_preorder : PreOrder libs_le.
Proof. split; [intros g; by split|]. intros g1 g2 g3 [] []. split; eauto. Qed.

Definition with_libs (c : Tables) (g : GlobalLibTable.GlobalLibTable) : Tables :=
  {| string_table := string_table c; resource_table := resource_table c; func_table := func_table c;
     native_symbol_table := native_symbol_table c; global_libs := g |}.

Lemma frame_symbol_grow g g' lib info a :
  libs_le g g' → GlobalLibTable.get_lib g lib = Some info → frame_symbol g' lib a = frame_symbol g lib a.
Proof. intros Hle Hg. unfold frame_symbol. by rewrite Hg, (libs_le_get _ _ Hle _ _ Hg). Qed.

(** The library of a row is used. *)
Lemma describes_lib_used t c frame' i a lib :
  ResourceTable.wf (resource_table c) (global_libs c) (string_table c) →
  describes t c frame' i → location frame' = AddressInLib a lib →
  is_Some (GlobalLibTable.get_lib (global_libs c) lib).
Proof.
  intros [_ HF] (address & name & native & resource & func & Hloc & _) Hl. rewrite Hl in Hloc.
  destruct Hloc as (_ & (n & _ & Hn) & _).
  destruct (Forall2_lookup_l _ _ _ _ _ HF Hn) as (s & _ & info & Hinfo & _). by exists info.
Qed.

Lemma describes_grow t c g frame' i :
  ResourceTable.wf (resource_table c) (global_libs c) (string_table c) → libs_le (global_libs c) g →
  describes t c frame' i → describes t (with_libs c g) frame' i.
Proof.
  intros Hr Hle Hd.
  assert (∀ a lib, location frame' = AddressInLib a lib →
    frame_symbol g lib a = frame_symbol (global_libs c) lib a) as Hsym.
  { intros a lib Hl. destruct (describes_lib_used t c frame' i a lib Hr Hd Hl) as [info Hinfo].
    by eapply frame_symbol_grow. }
  destruct Hd as (address & name & native & resource & func & Hloc & Hrest).
  exists address, name, native, resource, func. split; [|done].
  destruct (location frame') as [a|a lib|s]; [done| |done]. simpl in *. by rewrite (Hsym a lib).
Qed.

Lemma symbol_of_grow g g' lib s :
  libs_le g g' → NativeSymbols.symbol_of g lib s → NativeSymbols.symbol_of g' lib s.
Proof.
  intros Hle (info & syms & Hg & ? & ?). exists info, syms. split_and!; [|done..].
  by apply (libs_le_get _ _ Hle).
Qed.

Lemma wf_libs_grow keys t c g :
  wf_keys keys t c → GlobalLibTable.wf g → tables_built g → libs_le (global_libs c) g →
  wf_keys keys t (with_libs c g).
Proof.
  intros [[Hst Hr Hf [rows Hn] Hl Hb] Hi Hrows Hla Hlc Hls Hlf Hln Hseen] Hg Hbg Hle.
  split; try done.
  - split; simpl; try done.
    + destruct Hr as [Hri HF]. split; [done|]. eapply Forall2_impl; [exact HF|].
      intros lib name (info & Hinfo & ?). exists info. split; [by apply (libs_le_get _ _ Hle)|done].
    + destruct Hn as [? ? ? ? Hsym ?]. exists rows. split; try done.
      eapply Forall_impl; [exact Hsym|]. intros r. by apply symbol_of_grow.
  - intros i f Hf'. apply describes_grow; [done..|]. by apply Hrows.
  - intros lib a (Hs & f & Hf' & Hloc). apply (libs_le_seen _ _ Hle). apply Hseen.
    split; [|by exists f]. apply list_elem_of_lookup in Hf' as [i Hif].
    destruct (describes_lib_used t c f i a lib Hr (Hrows _ _ Hif) Hloc) as [info Hinfo].
    by rewrite <-(frame_symbol_grow (global_libs c) g lib info a).
Qed.

Lemma tables_le_libs c c' :
  tables_le c c' → (∀ lib a, a ∈ seen c lib → a ∈ seen c' lib) → libs_le (global_libs c) (global_libs c').
Proof.
  intros Hle Hseen. split; [|exact Hseen]. intros i info. by rewrite (le_libs _ _ Hle).
Qed.

(** ** Strings added for other reasons *)
Definition with_strings (c : Tables) (st : ThreadStringTable.ThreadStringTable) : Tables :=
  {| string_table := st; resource_table := resource_table c; func_table := func_table c;
     native_symbol_table := native_symbol_table c; global_libs := global_libs c |}.
End frame_table.

Lemma wf_strings_grow `{DebugIdType} gs gs' keys t c st :
  wf_keys gs keys t c → ThreadStringTable.wf st gs' → ThreadStringTable.extends (string_table c) st →
  wf_keys gs' keys t (with_strings c st).
Proof.
  intros [[Hst Hr Hf Hn Hl Hb] Hi Hrows Hla Hlc Hls Hlf Hln Hseen] Hst' Hext.
  assert (tables_le c (with_strings c st)) as Hle by by split.
  split; try done.
  - split; simpl; try done; [by eapply ResourceTable.wf_mono_resources|by eapply NativeSymbols.wf_mono_symbols].
  - intros i f Hf'. eapply describes_le; [done|]. by apply Hrows.
Qed.

(** * Properties *)
Section properties.
Context {D : DebugIdType}.

(** C20: Resolving any sequence of frames in a thread's tables never panics, as
    long as the caller passes handles it was given and the new entries fit the
    32-bit indexes. Two frames of the sequence get one index exactly when they
    are equal. At the end the row of every index says exactly what its frame is:
    the category pair, the flags, the address and the library it is in, and as
    the name the symbol the address resolves to with its native symbol, or the
    hexadecimal address where the library has no symbol for it. And the
    addresses recorded for later symbolication are the earlier ones together
    with exactly the library addresses that have no symbol. *)
Theorem index_for_frames_describes (gs : StringTable.StringTable) (t : FrameTable) (c : Tables)
    (frames : list InternalFrame) :
  wf gs t c → room (length frames) c → Forall (frame_valid c) frames →
  ∃ t' c' l, index_for_frames t c frames = Ok (t', c', l) ∧ wf gs t' c' ∧ tables_le c c' ∧
    length l = length frames ∧
    (∀ k frame' i, frames !! k = Some frame' → l !! k = Some i → describes t' c' frame' i) ∧
    (∀ k k' i i', l !! k = Some i → l !! k' = Some i' → i = i' ↔ frames !! k = frames !! k') ∧
    (∀ lib a, a ∈ seen c' lib ↔ a ∈ seen c lib ∨ unsymbolicated c frames lib a).
Proof.
  intros [keys Hwf] Hroom Hv.
  destruct (index_for_frames_spec gs frames keys t c Hwf Hroom Hv)
    as (t' & c' & l & keys' & Heq & HF & Hwf' & Hle & _ & Hseen & _).
  exists t', c', l. split_and!; [done|by exists keys'|done|by rewrite (Forall2_length _ _ _ HF)| | |done].
  - intros k f i Hf Hi. eapply wf_rows; [done|]. by eapply Forall2_lookup_lr in HF.
  - intros k k' i i' Hi Hi'.
    destruct (Forall2_lookup_r _ _ _ _ _ HF Hi) as (f & -> & Hk).
    destruct (Forall2_lookup_r _ _ _ _ _ HF Hi') as (f' & -> & Hk').
    destruct (wf_index _ _ _ _ Hwf') as [Hnd _].
    split; [intros <-; congruence|]. intros [= <-]. by eapply NoDup_lookup.
Qed.
End properties.

#[local] Existing Instance string_debug_ids.
#[local] Definition example_lib : LibraryInfo.LibraryInfo := {|
  LibraryInfo.name := "kernel"; LibraryInfo.debug_name := "kernel"; LibraryInfo.path := "kernel";
  LibraryInfo.debug_path := "kernel"; LibraryInfo.debug_id := "K0" : DebugId;
  LibraryInfo.code_id := None; LibraryInfo.arch := None;
  LibraryInfo.symbol_table := Some (SymbolTable.new
    [{| SymbolTable.address := 16; SymbolTable.size := Some 16; SymbolTable.name := "schedule" |}])
|}.
#[local] Definition example_libs : GlobalLibTable.GlobalLibTable :=
  (GlobalLibTable.index_for_used_lib
    (GlobalLibTable.handle_for_lib GlobalLibTable.new example_lib).1 0%nat).1.
#[local] Definition example_tables : Tables := {|
  string_table := ThreadStringTable.new; resource_table := ResourceTable.new;
  func_table := FuncTable.new; native_symbol_table := NativeSymbols.new;
  global_libs := example_libs |}.
#[local] Definition in_lib (a : Z) : InternalFrame := {|
  location := AddressInLib a 0%nat; category_pair := CategoryPairHandle_from 0; flags := 0 |}.

Lemma example_tables_wf : wf StringTable.new new example_tables.
Proof.
  apply wf_new_tables.
  - apply (GlobalLibTable.reaches_wf [GlobalLibTable.AddLib example_lib; GlobalLibTable.UseLib 0%nat]).
    by apply GlobalLibTable.run_reaches.
  - intros [|lib] info table; [|done]. intros [= <-] [= <-]. by eexists.
Qed.

Example index_for_frames_describes_witness :
  ∃ t c l, index_for_frames new example_tables [in_lib 20; in_lib 4096; in_lib 20] = Ok (t, c, l) ∧
    l = [0; 1; 0]%nat ∧ elements (seen c 0) = [4096] ∧ describes t c (in_lib 20) 0.
Proof.
  destruct (index_for_frames_describes StringTable.new new example_tables [in_lib 20; in_lib 4096; in_lib 20]
    example_tables_wf) as (t & c & l & H & _ & _ & _ & Hd & _ & _).
  - split_and!; vm_compute; reflexivity.
  - repeat constructor; vm_compute; lia.
  - assert ((λ '(_, c, l), (l, elements (seen c 0))) <$>
      index_for_frames new example_tables [in_lib 20; in_lib 4096; in_lib 20] =
      Ok ([0; 1; 0]%nat, [4096])) as Hrun by by vm_compute.
    rewrite H in Hrun. injection Hrun as Hl Hs. exists t, c, l. split_and!; [done..|]. apply (Hd 0%nat (in_lib 20) 0%nat); by rewrite ?Hl.
Defined.
End FrameTable.
