(* ===== verification/StackTable.v ===== *)
(** The tree of call stacks of a thread: [StackTable] of
    fxprof-processed-profile/src/stack_table.rs. *)
From S2P Require Import Prelude Types.
From stdpp Require Import options.
Open Scope Z_scope.

Module StackTable.

(** * Data *)
Record StackTable := {
  stack_prefixes : list (option nat);
  stack_frames : list nat;
  stack_categories : list CategoryHandle;
  stack_subcategories : list Subcategory;
  index : gmap (option nat * nat) nat
}.
Definition new : StackTable :=
  {| stack_prefixes := []; stack_frames := []; stack_categories := [];
     stack_subcategories := []; index := ∅ |}.

(** * Operations *)
Definition index_for_stack (t : StackTable) (prefix : option nat) (frame' : nat)
    (category_pair' : CategoryPairHandle) : StackTable * nat :=
  match index t !! (prefix, frame') with
  | Some stack => (t, stack)
  | None =>
      let stack := length (stack_prefixes t) in
      ({| stack_prefixes := push (stack_prefixes t) prefix;
          stack_frames := push (stack_frames t) frame';
          stack_categories := push (stack_categories t) (pair_category category_pair');
          stack_subcategories := push (stack_subcategories t) (subcategory_of_pair category_pair');
          index := <[(prefix, frame') := stack]> (index t) |}, stack)
  end.

Definition serialize_with_categories (t : StackTable) (categories : list Category) : res json :=
  subcategory_column ← serialize_subcategory_column (stack_subcategories t) categories;
  Ok (JObj [("length", serialize (length (stack_prefixes t)));
            ("prefix", serialize (stack_prefixes t));
            ("frame", serialize (stack_frames t));
            ("category", serialize (stack_categories t));
            ("subcategory", subcategory_column)]).

(** The way [Profile::stack_index_for_frames] adds a call stack, root first. *)
Fixpoint add_frames (t : StackTable) (prefix : option nat)
    (frames : list (nat * CategoryPairHandle)) : StackTable * option nat :=
  match frames with
  | [] => (t, prefix)
  | (frame', category_pair') :: frames' =>
      let '(t', stack) := index_for_stack t prefix frame' category_pair' in
      add_frames t' (Some stack) frames'
  end.
Fixpoint add_stacks (t : StackTable) (stacks : list (list (nat * CategoryPairHandle)))
    : StackTable * list (option nat) :=
  match stacks with
  | [] => (t, [])
  | frames :: stacks' =>
      let '(t1, stack) := add_frames t None frames in
      let '(t2, l) := add_stacks t1 stacks' in
      (t2, stack :: l)
  end.

(** Call stacks with the category pairs of their frames. *)
Definition with_pairs (pair_of : nat → CategoryPairHandle) (frames : list nat)
    : list (nat * CategoryPairHandle) :=
  (λ f, (f, pair_of f)) <$> frames.

(** * Specification

    The nodes on the way from a stack to the root, leaf first, as a consumer of
    the two columns walks them; [None] if the walk has not ended after [fuel]
    steps or left the table. *)
Fixpoint walk (fuel : nat) (t : StackTable) (stack : option nat) : option (list nat) :=
  match stack, fuel with
  | None, _ => Some []
  | Some _, O => None
  | Some i, S fuel' =>
      prefix ← stack_prefixes t !! i;
      rest ← walk fuel' t prefix;
      Some (i :: rest)
  end.
(** The length of the table is enough fuel for every stack. *)
Definition nodes (t : StackTable) (stack : option nat) : option (list nat) :=
  walk (length (stack_prefixes t)) t stack.

(** What a node says: its frame, category and subcategory. *)
Definition node (t : StackTable) (i : nat) : option (nat * CategoryHandle * Subcategory) :=
  frame' ← stack_frames t !! i;
  category ← stack_categories t !! i;
  subcategory ← stack_subcategories t !! i;
  Some (frame', category, subcategory).
(** The call stack of an index, root first. *)
Definition call_stack (t : StackTable) (stack : option nat)
    : option (list (nat * CategoryHandle * Subcategory)) :=
  l ← nodes t stack;
  mapM (node t) (reverse l).

(** * Invariant: a prefix is an earlier row *)
Record wf_keys (keys : list (option nat * nat)) (t : StackTable) : Prop := {
  wf_index : index_wf id keys (index t);
  wf_prefixes : stack_prefixes t = fst <$> keys;
  wf_frames : stack_frames t = snd <$> keys;
  wf_categories : length (stack_categories t) = length keys;
  wf_subcategories : length (stack_subcategories t) = length keys;
  wf_order : ∀ i j, stack_prefixes t !! i = Some (Some j) → (j < i)%nat
}.
Definition wf (t : StackTable) : Prop := ∃ keys, wf_keys keys t.

(** The rows carry the category pair [pair_of] assigns to their frame. *)
Definition categories_of (pair_of : nat → CategoryPairHandle) (t : StackTable) : Prop :=
  ∀ i frame', stack_frames t !! i = Some frame' →
    stack_categories t !! i = Some (pair_category (pair_of frame')) ∧
    stack_subcategories t !! i = Some (subcategory_of_pair (pair_of frame')).

Definition extends (t t' : StackTable) : Prop :=
  stack_prefixes t `prefix_of` stack_prefixes t' ∧ stack_frames t `prefix_of` stack_frames t' ∧
  stack_categories t `prefix_of` stack_categories t' ∧
  stack_subcategories t `prefix_of` stack_subcategories t'.
#[global] Instance extends_preorder : PreOrder extends.
Proof.
  split; [by intros ?; split_and!|].
  intros t1 t2 t3 (? & ? & ? & ?) (? & ? & ? & ?). split_and!; by etrans.
Qed.

(** A stack is a row of the table. *)
Definition in_table (t : StackTable) (stack : option nat) : Prop :=
  ∀ i, stack = Some i → (i < length (stack_prefixes t))%nat.

(** * Lemmas *)
Lemma wf_new_stacks : wf new.
Proof. exists []. split; simpl; by eauto with samply. Qed.

Lemma wf_keys_lengths keys t :
  wf_keys keys t → length (stack_prefixes t) = length keys ∧ length (stack_frames t) = length keys.
Proof. intros [_ -> -> _ _ _]. by rewrite !length_fmap. Qed.

Lemma index_for_stack_spec keys t pair_of prefix frame' :
  wf_keys keys t → categories_of pair_of t → in_table t prefix →
  let '(t', i) := index_for_stack t prefix frame' (pair_of frame') in
  ∃ keys', wf_keys keys' t' ∧ categories_of pair_of t' ∧ extends t t' ∧
    keys `prefix_of` keys' ∧ keys' !! i = Some (prefix, frame').
Proof.
  intros Hwf Hcat Hin. pose proof Hwf as [Hi Hp Hf Hc Hs Ho].
  destruct (wf_keys_lengths _ _ Hwf) as [Hpl Hfl]. unfold index_for_stack.
  destruct (index t !! (prefix, frame')) as [i|] eqn:E.
  - apply (index_wf_Some _ _ _ _ _ Hi) in E as (n & Hn & ->). exists keys.
    split_and!; done.
  - exists (keys ++ [(prefix, frame')]).
    split_and!; [| |split_and!; simpl; by apply prefix_app_r|by apply prefix_app_r|
      rewrite Hpl; apply lookup_snoc].
    + split; simpl; unfold push; rewrite ?fmap_app, ?length_app; simpl; try lia; try congruence.
      * rewrite Hpl. by apply (index_wf_push id).
      * intros i j [Hij|[-> Hij]]%lookup_app_Some_snoc; [by eapply Ho|].
        apply Hin. by rewrite Hij.
    + intros i f. simpl. unfold push. intros [Hi'|[-> ->]]%lookup_app_Some_snoc.
      * destruct (Hcat _ _ Hi'). split; by apply lookup_app_l_Some.
      * split; [rewrite Hfl, <-Hc|rewrite Hfl, <-Hs]; apply lookup_snoc.
Qed.

Lemma walk_extends fuel fuel' t t' stack l :
  extends t t' → (fuel ≤ fuel')%nat → walk fuel t stack = Some l → walk fuel' t' stack = Some l.
Proof.
  intros Hext. revert fuel' stack l.
  induction fuel as [|fuel IH]; intros fuel' [i|] l Hle Hw; simpl in *; try done.
  - destruct fuel'; done.
  - destruct fuel' as [|fuel']; [lia|]. simpl.
    destruct (stack_prefixes t !! i) as [prefix|] eqn:E; [|done].
    rewrite (prefix_lookup_Some _ _ _ _ E (proj1 Hext)). simpl in *.
    destruct (walk fuel t prefix) as [rest|] eqn:Ew; [|done].
    rewrite (IH fuel' prefix rest) by (done || lia). done.
  - destruct fuel'; done.
Qed.

(** The walk from row [i] ends within [i + 1] steps. *)
Lemma walk_total keys t i :
  wf_keys keys t → (i < length (stack_prefixes t))%nat → is_Some (walk (S i) t (Some i)).
Proof.
  intros Hwf. induction (lt_wf i) as [i _ IH]. intros Hi. simpl.
  destruct (lookup_lt_is_Some_2 _ _ Hi) as [[j|] Hp]; rewrite Hp; simpl; [|by destruct i; eexists].
  pose proof (wf_order _ _ Hwf _ _ Hp) as Hj.
  destruct (IH j Hj) as [l Hl]; [lia|].
  rewrite (walk_extends (S j) i t t _ l) by (done || lia). by eexists.
Qed.

Lemma nodes_cons keys t i prefix l :
  wf_keys keys t → stack_prefixes t !! i = Some prefix → nodes t prefix = Some l →
  nodes t (Some i) = Some (i :: l).
Proof.
  intros Hwf Hp Hl. unfold nodes in *.
  destruct (walk_total keys t i Hwf) as [l' Hl']; [by eapply lookup_lt_Some|].
  simpl in Hl'. rewrite Hp in Hl'. simpl in Hl'.
  destruct (walk i t prefix) as [l''|] eqn:E; [|done]. simpl in Hl'.
  pose proof (lookup_lt_Some _ _ _ Hp) as Hi.
  assert (walk (length (stack_prefixes t)) t prefix = Some l'') as Heq
    by (eapply walk_extends; [done| |exact E]; lia).
  eapply (walk_extends (S i) _ t t); [done|lia|]. simpl. rewrite Hp. simpl. rewrite E. simpl. congruence.
Qed.

Lemma nodes_extends t t' stack l :
  extends t t' → nodes t stack = Some l → nodes t' stack = Some l.
Proof. intros Hext. apply walk_extends; [done|]. by apply prefix_length, Hext. Qed.

Lemma node_extends t t' i x : extends t t' → node t i = Some x → node t' i = Some x.
Proof.
  intros (_ & Hf & Hc & Hs) Hx. unfold node in *.
  destruct (stack_frames t !! i) eqn:E1; [|done]. destruct (stack_categories t !! i) eqn:E2; [|done].
  destruct (stack_subcategories t !! i) eqn:E3; [|done].
  rewrite (prefix_lookup_Some _ _ _ _ E1 Hf). simpl. rewrite (prefix_lookup_Some _ _ _ _ E2 Hc).
  simpl. by rewrite (prefix_lookup_Some _ _ _ _ E3 Hs).
Qed.

Lemma mapM_node_extends t t' l xs :
  extends t t' → mapM (node t) l = Some xs → mapM (node t') l = Some xs.
Proof.
  intros Hext. rewrite !mapM_Some. intros HF. eapply Forall2_impl; [exact HF|].
  intros. by eapply node_extends.
Qed.

Lemma call_stack_extends t t' stack xs :
  extends t t' → call_stack t stack = Some xs → call_stack t' stack = Some xs.
Proof.
  unfold call_stack. intros Hext Hx. destruct (nodes t stack) as [l|] eqn:E; [|done].
  rewrite (nodes_extends t t' stack l) by done. simpl in *. by eapply mapM_node_extends.
Qed.

(** The entry of a frame on a call stack. *)
Definition entry_of (pair_of : nat → CategoryPairHandle) (frame' : nat)
    : nat * CategoryHandle * Subcategory :=
  (frame', pair_category (pair_of frame'), subcategory_of_pair (pair_of frame')).

Lemma call_stack_snoc keys t pair_of i prefix frame' xs :
  wf_keys keys t → categories_of pair_of t → keys !! i = Some (prefix, frame') →
  call_stack t prefix = Some xs → call_stack t (Some i) = Some (xs ++ [entry_of pair_of frame']).
Proof.
  intros Hwf Hcat Hk Hx. unfold call_stack in *.
  destruct (nodes t prefix) as [l|] eqn:El; [|done]. simpl in Hx.
  assert (stack_prefixes t !! i = Some prefix) as Hp
    by (by rewrite (wf_prefixes _ _ Hwf), list_lookup_fmap, Hk).
  assert (stack_frames t !! i = Some frame') as Hf
    by (by rewrite (wf_frames _ _ Hwf), list_lookup_fmap, Hk).
  rewrite (nodes_cons keys t i prefix l) by done. simpl. rewrite reverse_cons.
  apply mapM_Some. apply mapM_Some in Hx. apply Forall2_app; [done|]. constructor; [|done].
  unfold node, entry_of. rewrite Hf. destruct (Hcat _ _ Hf) as [Hc Hs].
  simpl. rewrite Hc. simpl. by rewrite Hs.
Qed.

Lemma add_frames_spec pair_of frames keys t prefix xs :
  wf_keys keys t → categories_of pair_of t → in_table t prefix →
  call_stack t prefix = Some xs →
  let '(t', stack) := add_frames t prefix (with_pairs pair_of frames) in
  ∃ keys', wf_keys keys' t' ∧ categories_of pair_of t' ∧ extends t t' ∧ in_table t' stack ∧
    call_stack t' stack = Some (xs ++ (entry_of pair_of <$> frames)).
Proof.
  revert keys t prefix xs.
  induction frames as [|f frames IH]; intros keys t prefix xs Hwf Hcat Hin Hx; simpl.
  { exists keys. rewrite app_nil_r. split_and!; done. }
  pose proof (index_for_stack_spec keys t pair_of prefix f Hwf Hcat Hin) as H1.
  destruct (index_for_stack t prefix f (pair_of f)) as [t1 i].
  destruct H1 as (keys1 & Hwf1 & Hcat1 & Hext1 & _ & Hi).
  assert (in_table t1 (Some i)) as Hin1.
  { intros j [= <-]. rewrite (proj1 (wf_keys_lengths _ _ Hwf1)). by eapply lookup_lt_Some. }
  pose proof (call_stack_extends _ _ _ _ Hext1 Hx) as Hx1.
  pose proof (call_stack_snoc keys1 t1 pair_of i prefix f xs Hwf1 Hcat1 Hi Hx1) as Hx2.
  specialize (IH keys1 t1 (Some i) _ Hwf1 Hcat1 Hin1 Hx2).
  destruct (add_frames t1 (Some i) _) as [t2 stack].
  destruct IH as (keys2 & ? & ? & ? & ? & Hcs). exists keys2.
  rewrite <-app_assoc in Hcs. split_and!; try done. by etrans.
Qed.

Lemma add_stacks_spec pair_of stacks keys t :
  wf_keys keys t → categories_of pair_of t →
  let '(t', l) := add_stacks t (with_pairs pair_of <$> stacks) in
  ∃ keys', wf_keys keys' t' ∧ categories_of pair_of t' ∧ extends t t' ∧
    Forall2 (λ frames stack, in_table t' stack ∧
      call_stack t' stack = Some (entry_of pair_of <$> frames)) stacks l.
Proof.
  revert keys t. induction stacks as [|frames stacks IH]; intros keys t Hwf Hcat; simpl.
  { exists keys. split_and!; done. }
  pose proof (add_frames_spec pair_of frames keys t None [] Hwf Hcat) as H1.
  destruct (add_frames t None _) as [t1 stack].
  destruct H1 as (keys1 & Hwf1 & Hcat1 & Hext1 & Hin1 & Hcs1).
  { by intros i. }
  { unfold call_stack, nodes. by destruct (length (stack_prefixes t)). }
  specialize (IH keys1 t1 Hwf1 Hcat1). destruct (add_stacks t1 _) as [t2 l].
  destruct IH as (keys2 & Hwf2 & Hcat2 & Hext2 & HF). exists keys2.
  split_and!; [done..|by etrans|]. constructor; [|done]. split.
  - intros i Hi. apply Hin1 in Hi. eapply Nat.lt_le_trans; [done|]. apply prefix_length, Hext2.
  - by eapply call_stack_extends.
Qed.

(** Two rows with one call stack are one row. *)
Lemma walk_prefix fuel t i l :
  walk fuel t (Some i) = Some l →
  ∃ prefix l', stack_prefixes t !! i = Some prefix ∧ l = i :: l' ∧
    ∃ fuel', walk fuel' t prefix = Some l'.
Proof.
  destruct fuel as [|fuel]; [done|]. simpl.
  destruct (stack_prefixes t !! i) as [prefix|]; [|done]. simpl.
  destruct (walk fuel t prefix) as [l'|] eqn:E; [|done]. intros [= <-].
  exists prefix, l'. eauto.
Qed.

Lemma walk_inj keys t fuel fuel' stack stack' l l' :
  wf_keys keys t → walk fuel t stack = Some l → walk fuel' t stack' = Some l' →
  (stack_frames t !!.) <$> l = (stack_frames t !!.) <$> l' → stack = stack'.
Proof.
  intros Hwf. revert fuel fuel' stack stack' l'.
  induction l as [|i l IH]; intros fuel fuel' stack stack' l' Hw Hw' Heq.
  - destruct l'; [|done]. destruct stack as [j|].
    { apply walk_prefix in Hw as (? & ? & _ & ? & _). done. }
    destruct stack' as [j|]; [|done].
    apply walk_prefix in Hw' as (? & ? & _ & ? & _). done.
  - destruct l' as [|i' l']; [done|]. simpl in Heq. injection Heq as Hf Heq.
    destruct stack as [j|]; [|by destruct fuel]. destruct stack' as [j'|]; [|by destruct fuel'].
    apply walk_prefix in Hw as (p & l1 & Hp & [= <- <-] & f1 & Hw).
    apply walk_prefix in Hw' as (p' & l1' & Hp' & [= <- <-] & f1' & Hw').
    assert (p = p') as <- by by eapply IH.
    f_equal. rewrite (wf_frames _ _ Hwf), !list_lookup_fmap in Hf.
    rewrite (wf_prefixes _ _ Hwf), list_lookup_fmap in Hp, Hp'.
    destruct (keys !! i) as [[? f]|] eqn:E1; simplify_eq/=.
    destruct (keys !! i') as [[? f']|] eqn:E2; simplify_eq/=.
    destruct (wf_index _ _ Hwf) as [Hnd _]. by eapply NoDup_lookup.
Qed.

Lemma mapM_node_frames t l xs :
  mapM (node t) l = Some xs → (stack_frames t !!.) <$> l = (λ x, Some x.1.1) <$> xs.
Proof.
  rewrite mapM_Some. induction 1 as [|i x l xs Hx _ IH]; simpl; [done|]. f_equal; [|done].
  unfold node in Hx. destruct (stack_frames t !! i); [|done].
  destruct (stack_categories t !! i); [|done]. destruct (stack_subcategories t !! i); [|done].
  by simplify_eq/=.
Qed.

Lemma call_stack_inj keys t stack stack' xs :
  wf_keys keys t → call_stack t stack = Some xs → call_stack t stack' = Some xs → stack = stack'.
Proof.
  unfold call_stack, nodes. intros Hwf H H'.
  destruct (walk _ t stack) as [l|] eqn:E; [|done]. destruct (walk _ t stack') as [l'|] eqn:E'; [|done].
  simpl in *. apply mapM_node_frames in H, H'.
  eapply walk_inj; [done..|]. rewrite fmap_reverse in H, H'.
  apply (inj reverse). congruence.
Qed.

(** * Properties *)

(** C21: Interning any sequence of call stacks in a new table, where the category
    pair is the one of the frame (as the frame table ensures), gives stack
    indexes from which walking the prefix column to the root terminates and
    returns exactly the frames of the call stack in order, with their category
    and subcategory; and two call stacks get one index exactly when they have
    the same frames. *)
Theorem add_stacks_round_trip (pair_of : nat → CategoryPairHandle) (stacks : list (list nat)) :
  let '(t, l) := add_stacks new (with_pairs pair_of <$> stacks) in
  length l = length stacks ∧
  (∀ k frames stack, stacks !! k = Some frames → l !! k = Some stack →
     call_stack t stack = Some (entry_of pair_of <$> frames)) ∧
  (∀ k k' stack stack', l !! k = Some stack → l !! k' = Some stack' →
     stack = stack' ↔ stacks !! k = stacks !! k').
Proof.
  destruct wf_new_stacks as [keys Hwf].
  pose proof (add_stacks_spec pair_of stacks keys new Hwf) as H.
  destruct (add_stacks new _) as [t l]. destruct H as (keys' & Hwf' & _ & _ & HF); [by intros i f|].
  split_and!; [symmetry; by eapply Forall2_length| |].
  - intros k frames stack Hk Hl. by destruct (Forall2_lookup_lr _ _ _ _ _ _ HF Hk Hl).
  - intros k k' stack stack' Hk Hk'.
    destruct (Forall2_lookup_r _ _ _ _ _ HF Hk) as (fs & -> & _ & Hcs).
    destruct (Forall2_lookup_r _ _ _ _ _ HF Hk') as (fs' & -> & _ & Hcs'). split.
    + intros <-. rewrite Hcs in Hcs'. injection Hcs' as Heq. f_equal.
      apply (f_equal (fmap (λ x, x.1.1))) in Heq. rewrite <-!list_fmap_compose in Heq.
      by rewrite !list_fmap_id in Heq.
    + intros [= <-]. by eapply call_stack_inj.
Qed.
End StackTable.
