(* ===== verification/Samples.v ===== *)
(** The sample columns of fxprof-processed-profile/src: [SampleTable] and
    [NativeAllocationsTable] (sample_table.rs) and [Counter] (counters.rs). *)
From S2P Require Import Prelude Types.
From stdpp Require Import options.
Open Scope Z_scope.

Inductive WeightType := Samples | TracingMs | Bytes.
#[global] Instance WeightType_eq_dec : EqDecision WeightType.
Proof. solve_decision. Defined.
Definition WeightType_to_string (w : WeightType) : string :=
  match w with Samples => "samples" | TracingMs => "tracing-ms" | Bytes => "bytes" end.

Module SampleTable.

(** * Data *)
Record SampleTable := {
  sample_type : WeightType;
  (** [i32] *)
  sample_weights : list Z;
  sample_timestamps : list Timestamp;
  sample_stack_indexes : list (option nat);
  sample_cpu_deltas : list CpuDelta;
  sorted_by_time : bool;
  last_sample_timestamp : Timestamp
}.
#[global] Instance SampleTable_eq_dec : EqDecision SampleTable.
Proof. solve_decision. Defined.
Definition new : SampleTable :=
  {| sample_type := Samples; sample_weights := []; sample_timestamps := [];
     sample_stack_indexes := []; sample_cpu_deltas := []; sorted_by_time := true;
     last_sample_timestamp := from_nanos_since_reference 0 |}.

(** * Operations *)
Definition add_sample (t : SampleTable) (timestamp : Timestamp) (stack_index : option nat)
    (cpu_delta : CpuDelta) (weight : Z) : SampleTable :=
  {| sample_type := sample_type t;
     sample_weights := push (sample_weights t) weight;
     sample_timestamps := push (sample_timestamps t) timestamp;
     sample_stack_indexes := push (sample_stack_indexes t) stack_index;
     sample_cpu_deltas := push (sample_cpu_deltas t) cpu_delta;
     sorted_by_time :=
       if Timestamp_ltb timestamp (last_sample_timestamp t) then false else sorted_by_time t;
     last_sample_timestamp := timestamp |}.

(** [*l.last_mut().unwrap() = f(..)] *)
Definition modify_last {A} (f : A → A) (l : list A) : res (list A) :=
  x ← unwrap (last l);
  Ok (<[pred (length l) := f x]> l).

(** Panics when there is no sample. *)
Definition modify_last_sample (t : SampleTable) (timestamp : Timestamp) (weight : Z)
    : res SampleTable :=
  weights ← modify_last (λ w, wrap_i32 (w + weight)) (sample_weights t);
  timestamps ← modify_last (λ _, timestamp) (sample_timestamps t);
  Ok {| sample_type := sample_type t; sample_weights := weights; sample_timestamps := timestamps;
        sample_stack_indexes := sample_stack_indexes t; sample_cpu_deltas := sample_cpu_deltas t;
        sorted_by_time := sorted_by_time t; last_sample_timestamp := last_sample_timestamp t |}.

(** [SliceWithPermutation] *)
Definition serialize_with_permutation {A} `{Serialize A} (column : list A) (indexes : list nat)
    : res json :=
  JArr <$> mapM (λ i, serialize <$> index column i) indexes.

(** The order the columns are written in. *)
Definition sorted_indexes `{UnstableSort} (t : SampleTable) : res (list nat) :=
  let len := length (sample_timestamps t) in
  if sorted_by_time t then Ok (seq 0 len)
  else
    (** The key of an index out of range would panic; there is none. *)
    _ ← mapM (index (sample_timestamps t)) (seq 0 len);
    Ok (sort_unstable_by_key (λ i, from_option nanos 0 (sample_timestamps t !! i)) (seq 0 len)).

Definition serialize_sample_table `{UnstableSort} (t : SampleTable) : res json :=
  let len := length (sample_timestamps t) in
  let header := [("length", serialize len);
                 ("weightType", JString (WeightType_to_string (sample_type t)))] in
  if sorted_by_time t then
    Ok (JObj (header ++ [("stack", serialize (sample_stack_indexes t));
                         ("time", serialize (sample_timestamps t));
                         ("weight", serialize (sample_weights t));
                         ("threadCPUDelta", serialize (sample_cpu_deltas t))]))
  else
    indexes ← sorted_indexes t;
    stack ← serialize_with_permutation (sample_stack_indexes t) indexes;
    time ← serialize_with_permutation (sample_timestamps t) indexes;
    weight ← serialize_with_permutation (sample_weights t) indexes;
    delta ← serialize_with_permutation (sample_cpu_deltas t) indexes;
    Ok (JObj (header ++ [("stack", stack); ("time", time); ("weight", weight);
                         ("threadCPUDelta", delta)])).

(** * Specification: the table is a list of rows *)
Record row := {
  row_timestamp : Timestamp;
  row_stack : option nat;
  row_cpu_delta : CpuDelta;
  row_weight : Z
}.

Record wf_rows (rows : list row) (t : SampleTable) : Prop := {
  wf_weights : sample_weights t = row_weight <$> rows;
  wf_timestamps : sample_timestamps t = row_timestamp <$> rows;
  wf_stacks : sample_stack_indexes t = row_stack <$> rows;
  wf_deltas : sample_cpu_deltas t = row_cpu_delta <$> rows
}.

Inductive op :=
| AddSample (timestamp : Timestamp) (stack_index : option nat) (cpu_delta : CpuDelta) (weight : Z)
| ModifyLastSample (timestamp : Timestamp) (weight : Z).
Definition apply_op (o : op) (t : SampleTable) : res SampleTable :=
  match o with
  | AddSample ts stack delta weight => Ok (add_sample t ts stack delta weight)
  | ModifyLastSample ts weight => modify_last_sample t ts weight
  end.
Fixpoint run (ops : list op) (t : SampleTable) : res SampleTable :=
  match ops with [] => Ok t | o :: ops' => apply_op o t ≫= run ops' end.

(** The reference: rows without the table's flags. *)
Definition modify_row (timestamp : Timestamp) (weight : Z) (r : row) : row :=
  {| row_timestamp := timestamp; row_stack := row_stack r; row_cpu_delta := row_cpu_delta r;
     row_weight := wrap_i32 (row_weight r + weight) |}.
Definition spec_op (o : op) (rows : list row) : res (list row) :=
  match o with
  | AddSample ts stack delta weight =>
      Ok (rows ++ [{| row_timestamp := ts; row_stack := stack; row_cpu_delta := delta;
                      row_weight := weight |}])
  | ModifyLastSample ts weight => modify_last (modify_row ts weight) rows
  end.
Fixpoint spec (ops : list op) (rows : list row) : res (list row) :=
  match ops with [] => Ok rows | o :: ops' => spec_op o rows ≫= spec ops' end.

(** What is written for a list of rows. *)
Definition serialize_rows (type : WeightType) (rows : list row) : json :=
  JObj [("length", serialize (length rows));
        ("weightType", JString (WeightType_to_string type));
        ("stack", serialize (row_stack <$> rows));
        ("time", serialize (row_timestamp <$> rows));
        ("weight", serialize (row_weight <$> rows));
        ("threadCPUDelta", serialize (row_cpu_delta <$> rows))].

Definition rows_sorted (rows : list row) : Prop :=
  StronglySorted (λ r r', nanos (row_timestamp r) ≤ nanos (row_timestamp r')) rows.

(** Samples come in any order, but the last sample is only moved forward, and
    the sample added after a moved one is not before it: [latest] is the time of
    the last row and [moved] whether it was moved there. *)
Fixpoint moves_forward (latest : Z) (moved : bool) (ops : list op) : Prop :=
  match ops with
  | [] => True
  | AddSample ts _ _ _ :: ops' =>
      (moved = true → latest ≤ nanos ts) ∧ moves_forward (nanos ts) false ops'
  | ModifyLastSample ts _ :: ops' => latest ≤ nanos ts ∧ moves_forward (nanos ts) true ops'
  end.

(** * Lemmas *)
Lemma modify_last_fmap {A B} (f : A → A) (g : B → B) (h : A → B) (l : list A) :
  (∀ x, h (f x) = g (h x)) → 
  modify_last g (list_fmap _ _ h l) = res_fmap _ _ (list_fmap _ _ h) (modify_last f l).
Proof.
  intros Hh. unfold modify_last. rewrite fmap_last. destruct (last l) as [x|]; simpl; [|done].
  by rewrite list_fmap_insert, length_fmap, Hh.
Qed.

Lemma modify_last_snoc {A} (f : A → A) (l : list A) x : modify_last f (l ++ [x]) = Ok (l ++ [f x]).
Proof.
  unfold modify_last. rewrite last_snoc, length_app. simpl. f_equal.
  rewrite Nat.add_1_r. simpl. rewrite insert_app_r_alt by done. by rewrite Nat.sub_diag.
Qed.

(** The column the modification leaves alone. *)
Lemma modify_last_same {A B} (f : A → A) (h : A → B) (l l' : list A) :
  (∀ x, h (f x) = h x) → modify_last f l = Ok l' → list_fmap _ _ h l' = list_fmap _ _ h l.
Proof.
  intros Hh. destruct l as [|x l _] using rev_ind; [done|].
  rewrite modify_last_snoc. intros [= <-].
  change (h <$> l ++ [f x] = h <$> l ++ [x]). rewrite !fmap_app. simpl. by rewrite Hh.
Qed.

Lemma apply_op_rows o rows t :
  wf_rows rows t →
  match spec_op o rows with
  | Ok rows' => ∃ t', apply_op o t = Ok t' ∧ wf_rows rows' t' ∧ sample_type t' = sample_type t
  | Panic => apply_op o t = Panic
  end.
Proof.
  intros [Hw Ht Hs Hd]. destruct o as [ts stack delta weight|ts weight]; simpl.
  - eexists. split; [done|]. split; [|done]. unfold add_sample, push.
    split; simpl; rewrite fmap_app; simpl; congruence.
  - unfold modify_last_sample.
    rewrite Hw, (modify_last_fmap (modify_row ts weight)) by done.
    rewrite Ht, (modify_last_fmap (modify_row ts weight)) by done.
    destruct (modify_last (modify_row ts weight) rows) as [rows'|] eqn:E; simpl; [|done].
    eexists. split; [done|]. split; [|done]. split; simpl; [done..| |].
    + rewrite Hs. symmetry. by apply (modify_last_same (modify_row ts weight) row_stack).
    + rewrite Hd. symmetry. by apply (modify_last_same (modify_row ts weight) row_cpu_delta).
Qed.

Lemma run_rows ops rows t :
  wf_rows rows t →
  match spec ops rows with
  | Ok rows' => ∃ t', run ops t = Ok t' ∧ wf_rows rows' t' ∧ sample_type t' = sample_type t
  | Panic => run ops t = Panic
  end.
Proof.
  revert rows t. induction ops as [|o ops IH]; intros rows t Hwf; simpl; [by eauto|].
  pose proof (apply_op_rows o rows t Hwf) as Ho.
  destruct (spec_op o rows) as [rows1|]; simpl; [|by rewrite Ho].
  destruct Ho as (t1 & -> & Hwf1 & Hty1). simpl. specialize (IH rows1 t1 Hwf1).
  destruct (spec ops rows1) as [rows2|]; [|done].
  destruct IH as (t2 & ? & ? & ?). exists t2. split_and!; [done..|congruence].
Qed.

Lemma wf_rows_new_samples : wf_rows [] new.
Proof. done. Qed.

(** ** Sortedness *)
Lemma rows_sorted_snoc rows r :
  rows_sorted (rows ++ [r]) ↔
  rows_sorted rows ∧ ∀ r', r' ∈ rows → nanos (row_timestamp r') ≤ nanos (row_timestamp r).
Proof.
  unfold rows_sorted. rewrite StronglySorted_app. split.
  - intros (H1 & H2 & _). split; [done|]. intros r' Hr'. by apply H1; [|left].
  - intros [H1 H2]. split_and!; [|done|by repeat constructor].
    intros r' r'' Hr' ->%list_elem_of_singleton. by apply H2.
Qed.

Definition last_time (rows : list row) : Z := from_option (λ r, nanos (row_timestamp r)) 0 (last rows).

Lemma rows_sorted_last rows r :
  rows_sorted rows → r ∈ rows → nanos (row_timestamp r) ≤ last_time rows.
Proof.
  unfold last_time. destruct rows as [|x rows _] using rev_ind; [set_solver|].
  rewrite last_snoc, rows_sorted_snoc. simpl. intros [_ H] [Hr| ->%list_elem_of_singleton]%elem_of_app;
    [by apply H|done].
Qed.

(** While the flag is set the rows are in order, and unless the last row was
    moved the remembered timestamp is its own. *)
Record time_wf (moved : bool) (rows : list row) (t : SampleTable) : Prop := {
  time_sorted : sorted_by_time t = true → rows_sorted rows;
  time_last : moved = false → nanos (last_sample_timestamp t) = last_time rows;
  time_le : nanos (last_sample_timestamp t) ≤ last_time rows
}.

Lemma apply_op_time o ops moved rows t t' rows' :
  time_wf moved rows t → moves_forward (last_time rows) moved (o :: ops) →
  apply_op o t = Ok t' → spec_op o rows = Ok rows' →
  ∃ moved', time_wf moved' rows' t' ∧ moves_forward (last_time rows') moved' ops.
Proof.
  intros [Hs Hl Hle]. destruct o as [ts stack delta weight|ts weight]; simpl.
  - intros [Hmoved Hops] [= <-] [= <-]. exists false. unfold last_time. rewrite last_snoc. simpl.
    split; [|done]. split; simpl; [|by unfold last_time; rewrite last_snoc..].
    unfold Timestamp_ltb. destruct (Z.ltb_spec (nanos ts) (nanos (last_sample_timestamp t))); [done|].
      intros Hsorted. apply rows_sorted_snoc. split; [by apply Hs|].
      intros r Hr. apply (rows_sorted_last _ _ (Hs Hsorted)) in Hr. simpl.
      destruct moved; [specialize (Hmoved eq_refl); lia|]. specialize (Hl eq_refl). lia.
  - intros [Hmoved Hops] Ht Hrows. unfold modify_last_sample in Ht. res_inv.
    destruct rows as [|last_row rows _] using rev_ind; [done|].
    rewrite modify_last_snoc in Hrows. injection Hrows as <-. exists true.
    unfold last_time in *. rewrite last_snoc in *. simpl in *. split; [|done].
    split; simpl; [|done|unfold last_time; rewrite last_snoc; simpl; lia].
    intros Hsorted%Hs. rewrite rows_sorted_snoc in *. destruct Hsorted as [? Hall].
    split; [done|]. intros x Hx. simpl. specialize (Hall _ Hx). lia.
Qed.

Lemma run_time ops moved rows t t' rows' :
  wf_rows rows t → time_wf moved rows t → moves_forward (last_time rows) moved ops →
  run ops t = Ok t' → spec ops rows = Ok rows' → sorted_by_time t' = true → rows_sorted rows'.
Proof.
  revert moved rows t. induction ops as [|o ops IH]; intros moved rows t Hwf Ht Hm Hrun Hspec; simpl in *.
  { res_inv. apply Ht. }
  destruct (spec_op o rows) as [rows1|] eqn:Eo; [|done].
  destruct (apply_op o t) as [t1|] eqn:Et; [|done].
  destruct (apply_op_time o ops moved rows t t1 rows1 Ht Hm Et Eo) as (moved' & Ht1 & Hm1).
  pose proof (apply_op_rows o rows t Hwf) as Hwf1. rewrite Eo, Et in Hwf1.
  destruct Hwf1 as (? & [= <-] & Hwf1 & _). by eapply IH.
Qed.

(** ** Serialization *)
Lemma serialize_with_permutation_Ok {A} `{Serialize A} (column : list A) indexes l :
  Forall2 (λ i x, column !! i = Some x) indexes l →
  serialize_with_permutation column indexes = Ok (serialize l).
Proof.
  intros HF. unfold serialize_with_permutation.
  assert (mapM (λ i, serialize <$> index column i) indexes = Ok (serialize <$> l)) as ->; [|done].
  induction HF as [|i x indexes l Hx _ IH]; simpl; [done|].
  apply index_Ok in Hx. rewrite Hx. simpl. by rewrite IH.
Qed.

Lemma drop_cons {A} (l : list A) k x l' :
  drop k l = x :: l' → l !! k = Some x ∧ drop (S k) l = l'.
Proof.
  intros Hk. split; [by rewrite <-(Nat.add_0_r k), <-lookup_drop, Hk|].
  by rewrite <-Nat.add_1_r, <-drop_drop, Hk.
Qed.

Lemma mapM_index_Ok {A} (l : list A) : mapM (index l) (seq 0 (length l)) = Ok l.
Proof.
  assert (∀ k l', drop k l = l' → mapM (index l) (seq k (length l')) = Ok l') as H; [|by apply H].
  intros k l'. revert k. induction l' as [|x l' IH]; intros k Hk; simpl; [done|].
  apply drop_cons in Hk as [Hx Hk]. apply index_Ok in Hx. rewrite Hx. simpl. by rewrite (IH (S k)).
Qed.

(** The rows in the order of [indexes]. *)
Lemma permuted_rows {A} (l : list A) indexes :
  indexes ≡ₚ seq 0 (length l) →
  ∃ l', Forall2 (λ i x, l !! i = Some x) indexes l' ∧ l' ≡ₚ l.
Proof.
  intros Hp.
  assert (Forall (λ i, (i < length l)%nat) indexes) as Hlt.
  { rewrite Hp. apply Forall_forall. intros i. rewrite elem_of_seq. lia. }
  exists (omap (l !!.) indexes). split.
  - clear Hp. induction Hlt as [|i indexes Hi _ IH]; simpl; [constructor|].
    destruct (lookup_lt_is_Some_2 _ _ Hi) as [x Hx]. rewrite Hx. by constructor.
  - rewrite Hp. clear.
    assert (∀ k l', drop k l = l' → omap (l !!.) (seq k (length l')) = l') as H.
    { intros k l'. revert k. induction l' as [|x l' IH]; intros k Hk; simpl; [done|].
      apply drop_cons in Hk as [Hx Hk]. rewrite Hx. f_equal. by apply IH. }
    by rewrite (H 0%nat l).
Qed.

Lemma serialize_permuted rows t indexes type :
  wf_rows rows t → indexes ≡ₚ seq 0 (length rows) →
  ∃ rows', rows' ≡ₚ rows ∧ Forall2 (λ i r, rows !! i = Some r) indexes rows' ∧
    (stack ← serialize_with_permutation (sample_stack_indexes t) indexes;
     time ← serialize_with_permutation (sample_timestamps t) indexes;
     weight ← serialize_with_permutation (sample_weights t) indexes;
     delta ← serialize_with_permutation (sample_cpu_deltas t) indexes;
     Ok (JObj ([("length", serialize (length (sample_timestamps t)));
                ("weightType", JString (WeightType_to_string type))] ++
               [("stack", stack); ("time", time); ("weight", weight); ("threadCPUDelta", delta)])))
    = Ok (serialize_rows type rows').
Proof.
  intros [Hw Ht Hs Hd] Hp. destruct (permuted_rows rows indexes Hp) as (rows' & HF & Hrows').
  exists rows'. split_and!; [done..|].
  assert (∀ {A} (f : row → A), Forall2 (λ i x, (f <$> rows) !! i = Some x) indexes (f <$> rows')) as Hcol.
  { intros A f. apply Forall2_fmap_r. eapply Forall2_impl; [exact HF|]. intros i r Hi. simpl.
    by rewrite list_lookup_fmap, Hi. }
  rewrite Hs, Ht, Hw, Hd.
  rewrite (serialize_with_permutation_Ok _ _ _ (Hcol _ row_stack)). simpl.
  rewrite (serialize_with_permutation_Ok _ _ _ (Hcol _ row_timestamp)). simpl.
  rewrite (serialize_with_permutation_Ok _ _ _ (Hcol _ row_weight)). simpl.
  rewrite (serialize_with_permutation_Ok _ _ _ (Hcol _ row_cpu_delta)). simpl.
  unfold serialize_rows. by rewrite length_fmap, (Permutation_length Hrows').
Qed.

Lemma StronglySorted_Forall2 {A B} (R : A → A → Prop) (S : B → B → Prop) (P : A → B → Prop) l k :
  (∀ x y a b, P x a → P y b → R x y → S a b) →
  Forall2 P l k → StronglySorted R l → StronglySorted S k.
Proof.
  intros HRS. induction 1 as [|x a l k Hx HF IH]; intros Hs; [constructor|].
  apply StronglySorted_cons in Hs as [Hall Hs]. constructor; [by apply IH|].
  apply Forall_forall. intros b Hb. apply list_elem_of_lookup in Hb as [i Hi].
  destruct (Forall2_lookup_r _ _ _ _ _ HF Hi) as (y & Hy & Hyb).
  eapply HRS; [done..|]. rewrite Forall_forall in Hall. apply Hall, list_elem_of_lookup. eauto.
Qed.

Lemma serialize_table_rows `{UnstableSort} rows t :
  wf_rows rows t →
  ∃ rows', serialize_sample_table t = Ok (serialize_rows (sample_type t) rows') ∧ rows' ≡ₚ rows ∧
    (sorted_by_time t = false → rows_sorted rows') ∧ (sorted_by_time t = true → rows' = rows).
Proof.
  intros Hwf. pose proof Hwf as [Hw Ht Hs Hd]. unfold serialize_sample_table, sorted_indexes.
  destruct (sorted_by_time t).
  - exists rows. split_and!; [|done..]. unfold serialize_rows. by rewrite Hs, Ht, Hw, Hd, length_fmap.
  - rewrite mapM_index_Ok. cbn [mbind res_bind].
    set (key := λ i, from_option nanos 0 (sample_timestamps t !! i)).
    pose proof (sort_unstable_permutation key (seq 0 (length (sample_timestamps t)))) as Hp.
    pose proof (sort_unstable_sorted key (seq 0 (length (sample_timestamps t)))) as Hsorted.
    assert (length (sample_timestamps t) = length rows) as Hlen by by rewrite Ht, length_fmap.
    rewrite Hlen in Hp at 2.
    destruct (serialize_permuted rows t _ (sample_type t) Hwf Hp) as (rows' & Hrows' & HF & Heq).
    exists rows'. split_and!; [exact Heq|done| |done]. intros _.
    eapply StronglySorted_Forall2; [|exact HF|exact Hsorted].
    intros i j r r' Hi Hj. subst key. simpl. by rewrite Ht, !list_lookup_fmap, Hi, Hj.
Qed.

(** * Properties *)

(** C30: For every sequence of added and modified samples the table behaves as a
    plain list of rows: it panics exactly when a modification has no sample to
    modify, and otherwise its serialization succeeds, whatever the unstable sort
    does with equal timestamps, and writes a permutation of those rows, with the
    four columns permuted together and weights that wrap like [i32]. The rows
    are written in the order of time if samples are only moved forward and none
    is added before a moved one. *)
Theorem serialize_sample_table_rows `{UnstableSort} (ops : list op) :
  match spec ops [] with
  | Panic => run ops new = Panic
  | Ok rows => ∃ t rows',
      run ops new = Ok t ∧ serialize_sample_table t = Ok (serialize_rows Samples rows') ∧
      rows' ≡ₚ rows ∧ (moves_forward 0 false ops → rows_sorted rows')
  end.
Proof.
  pose proof (run_rows ops [] new wf_rows_new_samples) as Hrun.
  destruct (spec ops []) as [rows|] eqn:Es; [|done]. destruct Hrun as (t & Ht & Hwf & Hty).
  destruct (serialize_table_rows rows t Hwf) as (rows' & Hser & Hp & Hf & Htrue).
  exists t, rows'. rewrite Hty in Hser. split_and!; [done..|]. intros Hm.
  destruct (sorted_by_time t) eqn:E; [|by apply Hf]. rewrite (Htrue eq_refl).
  eapply (run_time ops false [] new); [done| |done|done|done|done].
  split; [intros; constructor|done|done].
Qed.

(** Moving the last sample and then adding one before it leaves the table
    marked as sorted: the time column is then written out of order, although
    the table sorts its columns for samples that were added out of order. *)
Theorem moved_sample_unsorted `{UnstableSort} (stack : option nat) :
  ∃ t rows,
    run [AddSample {| nanos := 10 |} stack CpuDelta_ZERO 1;
         ModifyLastSample {| nanos := 20 |} 1;
         AddSample {| nanos := 15 |} stack {| micros := 1 |} 1] new = Ok t ∧
    sorted_by_time t = true ∧ serialize_sample_table t = Ok (serialize_rows Samples rows) ∧
    row_timestamp <$> rows = [{| nanos := 20 |}; {| nanos := 15 |}] ∧ ¬ rows_sorted rows.
Proof.
  do 2 eexists. split; [reflexivity|]. split; [reflexivity|].
  split; [|split].
  - unfold serialize_sample_table. simpl.
    by instantiate (1 :=
      [{| row_timestamp := {| nanos := 20 |}; row_stack := stack; row_cpu_delta := CpuDelta_ZERO;
          row_weight := 2 |};
       {| row_timestamp := {| nanos := 15 |}; row_stack := stack;
          row_cpu_delta := {| micros := 1 |}; row_weight := 1 |}]).
  - done.
  - intros Hs. apply StronglySorted_cons in Hs as [Hall _]. apply Forall_cons in Hall as [Hle _].
    simpl in Hle. lia.
Qed.
End SampleTable.

Module NativeAllocations.

(** * Data *)
Record NativeAllocationsTable := {
  time : list Timestamp;
  stack : list (option nat);
  (** [i64] *)
  allocation_size : list Z;
  allocation_address : list Z
}.
Definition default : NativeAllocationsTable :=
  {| time := []; stack := []; allocation_size := []; allocation_address := [] |}.

(** * Operations *)
Definition add_sample (t : NativeAllocationsTable) (timestamp : Timestamp)
    (stack_index : option nat) (allocation_address' allocation_size' : Z)
    : NativeAllocationsTable :=
  {| time := push (time t) timestamp;
     stack := push (stack t) stack_index;
     allocation_size := push (allocation_size t) allocation_size';
     allocation_address := push (allocation_address t) allocation_address' |}.

#[global] Instance serialize_NativeAllocationsTable : Serialize NativeAllocationsTable := λ t,
  let len := length (time t) in
  JObj [("time", serialize (time t));
        ("weight", serialize (allocation_size t));
        ("weightType", JString (WeightType_to_string Bytes));
        ("stack", serialize (stack t));
        ("memoryAddress", serialize (allocation_address t));
        ("threadId", serialize_single_value_column (JInt 0) len);
        ("length", serialize len)].
End NativeAllocations.

Module Counter.

(** * Data *)
Record CounterSamples := { time : list Timestamp; number : list Z; count : list f64 }.
Record Counter := {
  name : string;
  category : string;
  description : string;
  process : ProcessHandle;
  pid : string;
  color : option GraphColor.t;
  samples : CounterSamples
}.
Definition CounterSamples_new : CounterSamples := {| time := []; number := []; count := [] |}.
Definition new (name' category' description' : string) (process' : ProcessHandle) (pid' : string)
    (color' : option GraphColor.t) : Counter :=
  {| name := name'; category := category'; description := description'; process := process';
     pid := pid'; color := color'; samples := CounterSamples_new |}.

(** * Operations *)
Definition CounterSamples_add_sample (s : CounterSamples) (timestamp : Timestamp)
    (value_delta : f64) (number_of_operations_delta : Z) : CounterSamples :=
  {| time := push (time s) timestamp; number := push (number s) number_of_operations_delta;
     count := push (count s) value_delta |}.
Definition add_sample (c : Counter) (timestamp : Timestamp) (value_delta : f64)
    (number_of_operations_delta : Z) : Counter :=
  {| name := name c; category := category c; description := description c; process := process c;
     pid := pid c; color := color c;
     samples := CounterSamples_add_sample (samples c) timestamp value_delta
                  number_of_operations_delta |}.

#[global] Instance serialize_CounterSamples : Serialize CounterSamples := λ s,
  JObj [("length", serialize (length (time s)));
        ("count", serialize (count s));
        ("number", serialize (number s));
        ("time", serialize (time s))].
Definition serialize_counter (c : Counter) (main_thread_index : nat) : json :=
  JObj ([("category", serialize (category c));
         ("name", serialize (name c));
         ("description", serialize (description c));
         ("mainThreadIndex", serialize main_thread_index);
         ("pid", serialize (pid c))] ++
        match color c with Some color => [("color", serialize color)] | None => [] end ++
        [("samples", serialize (samples c))]).
End Counter.
