(* ===== verification/Markers.v ===== *)
(** Markers: the schemas of fxprof-processed-profile/src/markers.rs (Module
    [Schema]) and the [MarkerTable] of marker_table.rs (Module [MarkerTable]). *)
From S2P Require Import Prelude Types StringTables.
From stdpp Require Import options.
Open Scope Z_scope.

Module Schema.

(** * Data *)
Inductive MarkerTiming :=
| Instant (s : Timestamp)
| Interval (s e : Timestamp)
| IntervalStart (s : Timestamp)
| IntervalEnd (e : Timestamp).

Inductive MarkerGraphType := Bar | Line | LineFilled.
Record MarkerGraph := {
  graph_key : string;
  graph_type : MarkerGraphType;
  graph_color : option GraphColor.t
}.

Inductive MarkerLocation :=
| MarkerChart | MarkerTable | TimelineOverview | TimelineMemory | TimelineIPC | TimelineFileIO
| StackChart.
Record MarkerStaticField := { static_label : string; static_value : string }.

Inductive MarkerFieldFormat :=
| Url | FilePath | SanitizedString | String
| Duration | Time | Seconds | Milliseconds | Microseconds | Nanoseconds | Bytes | Percentage
| Integer | Decimal.
Inductive MarkerFieldFormatKind := KString | KNumber.
#[global] Instance MarkerFieldFormat_eq_dec : EqDecision MarkerFieldFormat.
Proof. solve_decision. Defined.
#[global] Instance MarkerFieldFormatKind_eq_dec : EqDecision MarkerFieldFormatKind.
Proof. solve_decision. Defined.

Record MarkerFieldSchema := {
  key : string;
  label : string;
  format : MarkerFieldFormat;
  searchable : bool
}.
(** What a client registers. *)
Record MarkerSchema := {
  ms_type_name : string;
  ms_locations : list MarkerLocation;
  ms_chart_label : option string;
  ms_tooltip_label : option string;
  ms_table_label : option string;
  ms_fields : list MarkerFieldSchema;
  ms_static_fields : list MarkerStaticField;
  ms_graphs : list MarkerGraph
}.
Record InternalMarkerSchema := {
  type_name : string;
  locations : list MarkerLocation;
  chart_label : option string;
  tooltip_label : option string;
  table_label : option string;
  fields : list MarkerFieldSchema;
  string_field_count : nat;
  number_field_count : nat;
  static_fields : list MarkerStaticField;
  graphs : list MarkerGraph
}.

(** The [Serialize] implementations that serde's derive macro generates. *)
Class DerivedSerialize := {
  serialize_MarkerLocation :: Serialize MarkerLocation;
  serialize_MarkerStaticField :: Serialize MarkerStaticField;
  serialize_MarkerFieldSchema :: Serialize MarkerFieldSchema
}.

(** * Operations *)
Definition kind (f : MarkerFieldFormat) : MarkerFieldFormatKind :=
  match f with
  | Url | FilePath | SanitizedString | String => KString
  | Duration | Time | Seconds | Milliseconds | Microseconds | Nanoseconds | Bytes | Percentage
  | Integer | Decimal => KNumber
  end.

(** [.iter().filter(..).count()] *)
Definition count_kind (k : MarkerFieldFormatKind) (fs : list MarkerFieldSchema) : nat :=
  length (filter (λ f, kind (format f) = k) fs).

(** [impl From<MarkerSchema> for InternalMarkerSchema] *)
Definition from_schema (schema : MarkerSchema) : InternalMarkerSchema :=
  {| type_name := ms_type_name schema;
     locations := ms_locations schema;
     chart_label := ms_chart_label schema;
     tooltip_label := ms_tooltip_label schema;
     table_label := ms_table_label schema;
     fields := ms_fields schema;
     string_field_count := count_kind KString (ms_fields schema);
     number_field_count := count_kind KNumber (ms_fields schema);
     static_fields := ms_static_fields schema;
     graphs := ms_graphs schema |}.

#[global] Instance serialize_MarkerGraphType : Serialize MarkerGraphType := λ t,
  JString match t with Bar => "bar" | Line => "line" | LineFilled => "line-filled" end.
#[global] Instance serialize_MarkerGraph : Serialize MarkerGraph := λ g,
  JObj ([("key", serialize (graph_key g)); ("type", serialize (graph_type g))] ++
        match graph_color g with Some color => [("color", serialize color)] | None => [] end).

(** An [Option] that is only written when it is there. *)
Definition optional_entry (k : string) (v : option string) : list (string * json) :=
  match v with Some v => [(k, serialize v)] | None => [] end.

Definition serialize_fields `{DerivedSerialize} (s : InternalMarkerSchema) : json :=
  JArr ((serialize <$> fields s) ++ (serialize <$> static_fields s)).
Definition serialize_graphs (s : InternalMarkerSchema) : json := JArr (serialize <$> graphs s).
#[global] Instance serialize_InternalMarkerSchema `{DerivedSerialize}
    : Serialize InternalMarkerSchema := λ s,
  JObj ([("name", serialize (type_name s)); ("display", serialize (locations s))] ++
        optional_entry "chartLabel" (chart_label s) ++
        optional_entry "tooltipLabel" (tooltip_label s) ++
        optional_entry "tableLabel" (table_label s) ++
        [("data", serialize_fields s); ("graphs", serialize_graphs s)]).

(** The trait [Marker]: the methods that give a marker's field values. They may
    be [unreachable!] for the fields of the other kind. *)
Record Marker := {
  string_field_value : Z → res StringHandle;
  number_field_value : Z → res f64
}.
End Schema.

Module MarkerTable.
Import Schema.

(** * Data *)
Inductive Phase := PInstant | PInterval | PIntervalStart | PIntervalEnd.
Definition Phase_as_u8 (p : Phase) : Z :=
  match p with PInstant => 0 | PInterval => 1 | PIntervalStart => 2 | PIntervalEnd => 3 end.
#[global] Instance serialize_Phase : Serialize Phase := λ p, JInt (Phase_as_u8 p).

Record MarkerTable := {
  marker_categories : list CategoryHandle;
  marker_name_string_indexes : list ThreadInternalStringIndex;
  marker_starts : list (option Timestamp);
  marker_ends : list (option Timestamp);
  marker_phases : list Phase;
  marker_type_handles : list MarkerTypeHandle;
  marker_stacks : list (option nat);
  marker_field_number_values : list f64;
  marker_field_string_values : list StringIndex
}.
Definition new : MarkerTable :=
  {| marker_categories := []; marker_name_string_indexes := []; marker_starts := [];
     marker_ends := []; marker_phases := []; marker_type_handles := []; marker_stacks := [];
     marker_field_number_values := []; marker_field_string_values := [] |}.

(** * Operations *)
Definition split_timing (timing : MarkerTiming) : option Timestamp * option Timestamp * Phase :=
  match timing with
  | Instant s => (Some s, None, PInstant)
  | Interval s e => (Some s, Some e, PInterval)
  | IntervalStart s => (Some s, None, PIntervalStart)
  | IntervalEnd e => (None, Some e, PIntervalEnd)
  end.

(** The loop over [schema.fields().iter().enumerate()]: [field_index] is the
    index of the first of [fs]. *)
Fixpoint add_fields (marker : Marker) (field_index : nat) (fs : list MarkerFieldSchema)
    (strings : list StringIndex) (numbers : list f64)
    (thread_string_table : ThreadStringTable.ThreadStringTable)
    (global_string_table : StringTable.StringTable)
    : res (list StringIndex * list f64 * ThreadStringTable.ThreadStringTable) :=
  match fs with
  | [] => Ok (strings, numbers, thread_string_table)
  | field :: fs' =>
      match kind (format field) with
      | KString =>
          global_string_index ← string_field_value marker (u32_of_usize field_index);
          '(thread_string_table', string_index) ←
            (if decide (format field = String) then
               ThreadStringTable.index_for_global_string thread_string_table
                 global_string_index global_string_table
             else Ok (thread_string_table, global_string_index));
          add_fields marker (S field_index) fs' (push strings string_index) numbers
            thread_string_table' global_string_table
      | KNumber =>
          number_value ← number_field_value marker (u32_of_usize field_index);
          add_fields marker (S field_index) fs' strings (push numbers number_value)
            thread_string_table global_string_table
      end
  end.

Definition add_marker (t : MarkerTable) (name_string_index : ThreadInternalStringIndex)
    (marker_type_handle : MarkerTypeHandle) (schema : InternalMarkerSchema) (marker : Marker)
    (timing : MarkerTiming) (category : CategoryHandle)
    (thread_string_table : ThreadStringTable.ThreadStringTable)
    (global_string_table : StringTable.StringTable)
    : res (MarkerTable * ThreadStringTable.ThreadStringTable * MarkerHandle) :=
  let '(s, e, phase) := split_timing timing in
  '(strings, numbers, thread_string_table') ←
    add_fields marker 0 (fields schema) (marker_field_string_values t)
      (marker_field_number_values t) thread_string_table global_string_table;
  let categories := push (marker_categories t) category in
  Ok ({| marker_categories := categories;
         marker_name_string_indexes := push (marker_name_string_indexes t) name_string_index;
         marker_starts := push (marker_starts t) s;
         marker_ends := push (marker_ends t) e;
         marker_phases := push (marker_phases t) phase;
         marker_type_handles := push (marker_type_handles t) marker_type_handle;
         marker_stacks := push (marker_stacks t) None;
         marker_field_number_values := numbers;
         marker_field_string_values := strings |},
      thread_string_table', (length categories - 1)%nat).

(** Panics on a handle of another thread. *)
Definition set_marker_stack (t : MarkerTable) (marker : MarkerHandle) (stack_index : option nat)
    : res MarkerTable :=
  stacks ← index_set (marker_stacks t) marker stack_index;
  Ok {| marker_categories := marker_categories t;
        marker_name_string_indexes := marker_name_string_indexes t;
        marker_starts := marker_starts t; marker_ends := marker_ends t;
        marker_phases := marker_phases t; marker_type_handles := marker_type_handles t;
        marker_stacks := stacks;
        marker_field_number_values := marker_field_number_values t;
        marker_field_string_values := marker_field_string_values t |}.

(** [slice::split_at] and [slice::split_first().unwrap()]. *)
Definition split_at {A} (l : list A) (mid : nat) : res (list A * list A) :=
  if decide (mid ≤ length l)%nat then Ok (take mid l, drop mid l) else Panic.
Definition split_first {A} (l : list A) : res (A * list A) :=
  match l with x :: l' => Ok (x, l') | [] => Panic end.

(** The loop of [SerializableMarkerDataElement] over the fields. *)
Fixpoint serialize_field_values (global_string_table : StringTable.StringTable)
    (fs : list MarkerFieldSchema) (string_fields : list StringIndex) (number_fields : list f64)
    : res (list (string * json)) :=
  match fs with
  | [] => Ok []
  | field :: fs' =>
      match kind (format field) with
      | KString =>
          '(value, string_fields') ← split_first string_fields;
          entry ← (if decide (format field = String) then Ok (JInt value)
                   else JString <$> unwrap (StringTable.get_string global_string_table value));
          entries ← serialize_field_values global_string_table fs' string_fields' number_fields;
          Ok ((key field, entry) :: entries)
      | KNumber =>
          '(value, number_fields') ← split_first number_fields;
          entries ← serialize_field_values global_string_table fs' string_fields number_fields';
          Ok ((key field, JFloat value) :: entries)
      end
  end.

Definition serialize_cause (stack_index : nat) : json := JObj [("stack", serialize stack_index)].

Definition serialize_data_element (global_string_table : StringTable.StringTable)
    (stack_index : option nat) (schema : InternalMarkerSchema)
    (string_fields : list StringIndex) (number_fields : list f64) : res json :=
  entries ← serialize_field_values global_string_table (fields schema) string_fields number_fields;
  Ok (JObj ([("type", serialize (type_name schema))] ++
            match stack_index with Some i => [("cause", serialize_cause i)] | None => [] end ++
            entries)).

(** The loop [for i in 0..len] of [SerializableMarkerTableDataColumn]: [n] rounds
    are left, starting at [i]. *)
Fixpoint serialize_data_from (t : MarkerTable) (schemas : list InternalMarkerSchema)
    (global_string_table : StringTable.StringTable) (n i : nat)
    (remaining_string_fields : list StringIndex) (remaining_number_fields : list f64)
    : res (list json) :=
  match n with
  | O => Ok []
  | S n' =>
      marker_type_handle ← index (marker_type_handles t) i;
      stack_index ← index (marker_stacks t) i;
      schema ← index schemas marker_type_handle;
      '(string_fields, strings') ← split_at remaining_string_fields (string_field_count schema);
      '(number_fields, numbers') ← split_at remaining_number_fields (number_field_count schema);
      element ← serialize_data_element global_string_table stack_index schema string_fields
                  number_fields;
      elements ← serialize_data_from t schemas global_string_table n' (S i) strings' numbers';
      Ok (element :: elements)
  end.
Definition serialize_data_column (t : MarkerTable) (schemas : list InternalMarkerSchema)
    (global_string_table : StringTable.StringTable) : res (list json) :=
  serialize_data_from t schemas global_string_table (length (marker_name_string_indexes t)) 0
    (marker_field_string_values t) (marker_field_number_values t).

Definition serialize_marker_table (t : MarkerTable) (schemas : list InternalMarkerSchema)
    (global_string_table : StringTable.StringTable) : res json :=
  data ← serialize_data_column t schemas global_string_table;
  Ok (JObj [("length", serialize (length (marker_name_string_indexes t)));
            ("category", serialize (marker_categories t));
            ("data", JArr data);
            ("endTime", serialize_optional_timestamp_column (marker_ends t));
            ("name", serialize (marker_name_string_indexes t));
            ("phase", serialize (marker_phases t));
            ("startTime", serialize_optional_timestamp_column (marker_starts t))]).

(** * Specification *)

(** The string a field of a marker stands for. *)
Definition field_string (gst : StringTable.StringTable) (marker : Marker) (i : nat) : option string :=
  match string_field_value marker (u32_of_usize i) with
  | Ok handle => StringTable.get_string gst handle
  | Panic => None
  end.
(** The method for a field of the schema returns, a string handle of the profile
    for a string. *)
Definition field_ok (gst : StringTable.StringTable) (marker : Marker) (i : nat)
    (field : MarkerFieldSchema) : Prop :=
  match kind (format field) with
  | KString => is_Some (field_string gst marker i)
  | KNumber => is_Ok (number_field_value marker (u32_of_usize i))
  end.

(** What the JSON entries of a marker's fields must be: in the order of the
    schema, under the field's key, the number, the string, or for a unique string
    an index that stands for it in the thread's string array. *)
Fixpoint fields_json (gst : StringTable.StringTable) (tst : ThreadStringTable.ThreadStringTable)
    (marker : Marker) (i : nat) (fs : list MarkerFieldSchema) (entries : list (string * json))
    : Prop :=
  match fs, entries with
  | [], [] => True
  | field :: fs', (k, v) :: entries' =>
      k = key field ∧
      match kind (format field) with
      | KString => ∃ s, field_string gst marker i = Some s ∧
          if decide (format field = String) then
            ∃ l, v = JInt l ∧ ThreadStringTable.get_string tst l = Some s
          else v = JString s
      | KNumber => ∃ f, number_field_value marker (u32_of_usize i) = Ok f ∧ v = JFloat f
      end ∧
      fields_json gst tst marker (S i) fs' entries'
  | _, _ => False
  end.

Definition element_json (gst : StringTable.StringTable) (tst : ThreadStringTable.ThreadStringTable)
    (schema : InternalMarkerSchema) (marker : Marker) (stack : option nat) (element : json) : Prop :=
  ∃ entries, fields_json gst tst marker 0 (fields schema) entries ∧
    element = JObj (("type", JString (type_name schema)) ::
      match stack with Some i => [("cause", JObj [("stack", serialize i)])] | None => [] end ++
      entries).

(** * The operations as steps *)
Inductive op :=
| AddMarker (name_string_index : ThreadInternalStringIndex) (marker_type_handle : MarkerTypeHandle)
    (marker : Marker) (timing : MarkerTiming) (category : CategoryHandle)
| SetMarkerStack (handle : MarkerHandle) (stack_index : option nat).

Definition apply_op (schemas : list InternalMarkerSchema) (gst : StringTable.StringTable) (o : op)
    (st : MarkerTable * ThreadStringTable.ThreadStringTable)
    : res (MarkerTable * ThreadStringTable.ThreadStringTable) :=
  let '(t, tst) := st in
  match o with
  | AddMarker name h marker timing category =>
      schema ← index schemas h;
      '(t', tst', _) ← add_marker t name h schema marker timing category tst gst;
      Ok (t', tst')
  | SetMarkerStack handle stack_index =>
      t' ← set_marker_stack t handle stack_index;
      Ok (t', tst)
  end.
Fixpoint run (schemas : list InternalMarkerSchema) (gst : StringTable.StringTable) (ops : list op)
    (st : MarkerTable * ThreadStringTable.ThreadStringTable)
    : res (MarkerTable * ThreadStringTable.ThreadStringTable) :=
  match ops with
  | [] => Ok st
  | o :: ops' => apply_op schemas gst o st ≫= run schemas gst ops'
  end.

(** The markers a sequence of operations adds, with their last stack. *)
Definition spec_op (o : op) (rows : list (MarkerTypeHandle * Marker * option nat)) :=
  match o with
  | AddMarker _ h marker _ _ => rows ++ [(h, marker, None)]
  | SetMarkerStack handle stack_index => alter (λ r, (r.1, stack_index)) handle rows
  end.
Definition spec (ops : list op) (rows : list (MarkerTypeHandle * Marker * option nat)) :=
  foldl (λ rows o, spec_op o rows) rows ops.

(** A registered type and string handles of the profile. *)
Definition marker_valid (schemas : list InternalMarkerSchema) (gst : StringTable.StringTable)
    (h : MarkerTypeHandle) (marker : Marker) : Prop :=
  ∃ schema, schemas !! h = Some schema ∧
    ∀ i field, fields schema !! i = Some field → field_ok gst marker i field.
Definition op_valid schemas gst (rows : list (MarkerTypeHandle * Marker * option nat)) (o : op) : Prop :=
  match o with
  | AddMarker _ h marker _ _ => marker_valid schemas gst h marker
  | SetMarkerStack handle _ => (handle < length rows)%nat
  end.
Fixpoint ops_valid schemas gst rows (ops : list op) : Prop :=
  match ops with
  | [] => True
  | o :: ops' => op_valid schemas gst rows o ∧ ops_valid schemas gst (spec_op o rows) ops'
  end.

(** How many strings the operations can add to the thread's table. *)
Definition op_strings (schemas : list InternalMarkerSchema) (o : op) : nat :=
  match o with
  | AddMarker _ h _ _ _ => from_option (λ s, length (fields s)) 0%nat (schemas !! h)
  | SetMarkerStack _ _ => 0
  end.
Definition strings_needed (schemas : list InternalMarkerSchema) (ops : list op) : nat :=
  sum_list (op_strings schemas <$> ops).

(** * Invariant: the flat columns are the concatenated fields *)
Fixpoint encodes (gst : StringTable.StringTable) (tst : ThreadStringTable.ThreadStringTable)
    (marker : Marker) (i : nat) (fs : list MarkerFieldSchema)
    (strings : list StringIndex) (numbers : list f64) : Prop :=
  match fs with
  | [] => strings = [] ∧ numbers = []
  | field :: fs' =>
      match kind (format field) with
      | KString => ∃ x strings' s, strings = x :: strings' ∧ field_string gst marker i = Some s ∧
          (if decide (format field = String) then ThreadStringTable.get_string tst x = Some s
           else StringTable.get_string gst x = Some s) ∧
          encodes gst tst marker (S i) fs' strings' numbers
      | KNumber => ∃ f numbers', number_field_value marker (u32_of_usize i) = Ok f ∧
          numbers = f :: numbers' ∧
          encodes gst tst marker (S i) fs' strings numbers'
      end
  end.

Record wf_rows (schemas : list InternalMarkerSchema) (gst : StringTable.StringTable)
    (rows : list (MarkerTypeHandle * Marker * option nat)) (t : MarkerTable)
    (tst : ThreadStringTable.ThreadStringTable) : Prop := {
  wf_tst : ThreadStringTable.wf tst gst;
  wf_types : marker_type_handles t = (λ r, r.1.1) <$> rows;
  wf_stacks : marker_stacks t = (λ r, r.2) <$> rows;
  wf_names : length (marker_name_string_indexes t) = length rows;
  wf_marker_categories : length (marker_categories t) = length rows;
  wf_segments : ∃ segments,
    marker_field_string_values t = concat segments.*1 ∧
    marker_field_number_values t = concat segments.*2 ∧
    Forall2 (λ r seg, ∃ schema, schemas !! r.1.1 = Some schema ∧
      encodes gst tst r.1.2 0 (fields schema) seg.1 seg.2) rows segments
}.

(** * Lemmas *)
Lemma field_string_mono gst gst' marker i s :
  StringTable.extends gst gst' → field_string gst marker i = Some s → field_string gst' marker i = Some s.
Proof.
  intros Hg. unfold field_string. destruct (string_field_value _ _); [|done].
  by apply StringTable.get_string_extends.
Qed.

Lemma encodes_mono gst gst' tst tst' marker i fs strings numbers :
  StringTable.extends gst gst' → ThreadStringTable.extends tst tst' →
  encodes gst tst marker i fs strings numbers → encodes gst' tst' marker i fs strings numbers.
Proof.
  intros Hg Ht. revert i strings numbers. induction fs as [|f fs IH]; intros i strings numbers; simpl; [done|].
  destruct (kind (format f)).
  - intros (x & strings' & s & -> & Hs & Hx & Hrest). exists x, strings', s.
    split_and!; [done|by eapply field_string_mono| |by apply IH].
    destruct (decide (format f = String)); by eapply StringTable.get_string_extends.
  - intros (v & numbers' & Hv & -> & Hrest). exists v, numbers'. auto.
Qed.

Lemma encodes_length gst tst marker i fs strings numbers :
  encodes gst tst marker i fs strings numbers →
  length strings = count_kind KString fs ∧ length numbers = count_kind KNumber fs.
Proof.
  unfold count_kind. revert i strings numbers.
  induction fs as [|f fs IH]; intros i strings numbers; simpl; [by intros [-> ->]|].
  rewrite !filter_cons. destruct (kind (format f)) eqn:E.
  - rewrite decide_True, decide_False by done.
    intros (x & strings' & s & -> & _ & _ & Hrest). simpl. apply IH in Hrest. lia.
  - rewrite decide_False, decide_True by done. intros (f0 & numbers' & _ & -> & Hrest). simpl. apply IH in Hrest. lia.
Qed.

Lemma add_fields_spec marker i fs gst tst strings numbers :
  ThreadStringTable.wf tst gst →
  (∀ j field, fs !! j = Some field → field_ok gst marker (i + j) field) →
  Z.of_nat (length (StringTable.strings (ThreadStringTable.table tst)) + length fs) < 2 ^ 32 →
  ∃ tst' strs nums,
    add_fields marker i fs strings numbers tst gst = Ok (strings ++ strs, numbers ++ nums, tst') ∧
    encodes gst tst' marker i fs strs nums ∧
    ThreadStringTable.wf tst' gst ∧ ThreadStringTable.extends tst tst' ∧
    (length (StringTable.strings (ThreadStringTable.table tst')) ≤
       length (StringTable.strings (ThreadStringTable.table tst)) + length fs)%nat.
Proof.
  revert i tst strings numbers. induction fs as [|f fs IH]; intros i tst strings numbers Hwf Hv Hroom; simpl in *.
  { exists tst, [], []. rewrite !app_nil_r. split_and!; try done. lia. }
  assert (∀ j field, fs !! j = Some field → field_ok gst marker (S i + j) field) as Hv'
    by (intros j field Hj; rewrite Nat.add_succ_comm; by apply (Hv (S j) field)).
  pose proof (Hv 0%nat f eq_refl) as Hf0. unfold field_ok in Hf0. rewrite Nat.add_0_r in Hf0.
  destruct (kind (format f)) eqn:E.
  - destruct Hf0 as [s Hs]. pose proof Hs as Hs'. unfold field_string in Hs'.
    destruct (string_field_value marker (u32_of_usize i)) as [h|]; [|done]. cbn [mbind res_bind].
    destruct (decide (format f = String)) as [Hf|Hf].
    + destruct (ThreadStringTable.serve_spec gst
        (ThreadStringTable.Global h) tst s Hwf Hs')
        as (tst1 & x & Hserve & Hwf1 & Hext1 & _ & Hget); [lia|]. simpl in Hserve.
      pose proof (ThreadStringTable.serve_length gst
        (ThreadStringTable.Global h) tst tst1 x Hserve) as Hlen.
      rewrite Hserve. simpl.
      destruct (IH (S i) tst1 (push strings x) numbers Hwf1 Hv')
        as (tst2 & strs & nums & -> & Henc & Hwf2 & Hext2 & Hlen2); [lia|].
      exists tst2, (x :: strs), nums. unfold push. rewrite <-app_assoc.
      split_and!; [done| |done|by etrans|lia].
      exists x, strs, s. split_and!; try done. by eapply StringTable.get_string_extends.
    + simpl. destruct (IH (S i) tst (push strings h) numbers Hwf Hv')
        as (tst2 & strs & nums & -> & Henc & Hwf2 & Hext2 & Hlen2); [lia|].
      exists tst2, (h :: strs), nums. unfold push. rewrite <-app_assoc.
      split_and!; [done| |done|done|lia]. by exists h, strs, s.
  - destruct Hf0 as [v Hval]. rewrite Hval. cbn [mbind res_bind].
    destruct (IH (S i) tst strings (push numbers v) Hwf Hv')
      as (tst2 & strs & nums & -> & Henc & Hwf2 & Hext2 & Hlen2); [lia|].
    exists tst2, strs, (v :: nums). unfold push.
    rewrite <-app_assoc. split_and!; [done| |done|done|lia]. by exists v, nums.
Qed.

Lemma serialize_field_values_spec gst tst marker i fs strings numbers :
  encodes gst tst marker i fs strings numbers →
  ∃ entries, serialize_field_values gst fs strings numbers = Ok entries ∧
    fields_json gst tst marker i fs entries.
Proof.
  revert i strings numbers. induction fs as [|f fs IH]; intros i strings numbers; simpl.
  { intros _. by exists []. }
  destruct (kind (format f)).
  - intros (x & strings' & s & -> & Hs & Hx & Hrest). simpl.
    destruct (IH _ _ _ Hrest) as (entries & He & Hj).
    destruct (decide (format f = String)); simpl.
    + rewrite He. simpl. eexists. split; [done|]. simpl. split_and!; try done. exists s. eauto.
    + rewrite Hx. simpl. rewrite He. simpl. eexists. split; [done|]. simpl. split_and!; try done. eauto.
  - intros (v & numbers' & Hv & -> & Hrest). simpl. destruct (IH _ _ _ Hrest) as (entries & -> & Hj). simpl.
    eexists. split; [done|]. split_and!; [done|by exists v|done].
Qed.

Lemma split_at_app {A} (l k : list A) n : n = length l → split_at (l ++ k) n = Ok (l, k).
Proof.
  intros ->. unfold split_at. rewrite length_app, decide_True by lia.
  by rewrite take_app_length, drop_app_length.
Qed.

Lemma serialize_data_from_spec schemas gst tst (t : MarkerTable) rows segments i :
  (∀ h schema, schemas !! h = Some schema → ∃ ms, schema = from_schema ms) →
  (∀ k r, rows !! k = Some r → marker_type_handles t !! (i + k)%nat = Some r.1.1 ∧
     marker_stacks t !! (i + k)%nat = Some r.2) →
  Forall2 (λ r seg, ∃ schema, schemas !! r.1.1 = Some schema ∧
    encodes gst tst r.1.2 0 (fields schema) seg.1 seg.2) rows segments →
  ∃ elements,
    serialize_data_from t schemas gst (length rows) i (concat segments.*1) (concat segments.*2) =
      Ok elements ∧
    Forall2 (λ r e, ∃ schema, schemas !! r.1.1 = Some schema ∧
      element_json gst tst schema r.1.2 r.2 e) rows elements.
Proof.
  intros Hbuilt Hrows HF. revert i Hrows.
  induction HF as [|r seg rows segments (schema & Hschema & Henc) _ IH]; intros i Hrows.
  { exists []. by split. }
  simpl. destruct (Hrows 0%nat r eq_refl) as [Hty Hst]. rewrite Nat.add_0_r in Hty, Hst.
  apply index_Ok in Hty, Hst. rewrite Hty, Hst. simpl.
  rewrite (proj2 (index_Ok _ _ _) Hschema). simpl.
  destruct (encodes_length _ _ _ _ _ _ _ Henc) as [Hsl Hnl].
  destruct (Hbuilt _ _ Hschema) as [ms Hms].
  rewrite split_at_app by (subst schema; done). simpl.
  rewrite split_at_app by (subst schema; done). simpl.
  destruct (serialize_field_values_spec _ _ _ _ _ _ _ Henc) as (entries & He & Hj).
  unfold serialize_data_element. rewrite He. simpl.
  destruct (IH (S i)) as (elements & Hel & HF').
  { intros k r' Hk. rewrite Nat.add_succ_comm. by apply (Hrows (S k)). }
  change (list_fmap _ _ fst segments) with (segments.*1).
  change (list_fmap _ _ snd segments) with (segments.*2).
  rewrite Hel. simpl. eexists. split; [done|]. constructor; [|done].
  exists schema. split; [done|]. by exists entries.
Qed.

Lemma apply_op_marker_rows schemas gst o rows t tst :
  wf_rows schemas gst rows t tst → op_valid schemas gst rows o →
  Z.of_nat (length (StringTable.strings (ThreadStringTable.table tst)) + op_strings schemas o) < 2 ^ 32 →
  ∃ t' tst', apply_op schemas gst o (t, tst) = Ok (t', tst') ∧
    wf_rows schemas gst (spec_op o rows) t' tst' ∧ ThreadStringTable.extends tst tst' ∧
    (length (StringTable.strings (ThreadStringTable.table tst')) ≤
       length (StringTable.strings (ThreadStringTable.table tst)) + op_strings schemas o)%nat.
Proof.
  intros [Hst Hty Hsk Hnm Hcat (segments & Hss & Hns & HF)] Hv Hroom.
  destruct o as [name h marker timing category|handle stack]; simpl in *.
  - destruct Hv as (schema & Hschema & Hv). rewrite Hschema in *. simpl in *.
    unfold index, add_marker. rewrite Hschema. simpl.
    destruct (split_timing timing) as [[s e] phase].
    destruct (add_fields_spec marker 0 (fields schema) gst tst (marker_field_string_values t)
      (marker_field_number_values t) Hst Hv Hroom)
      as (tst' & strs & nums & -> & Henc & Hst' & Hext & Hlen).
    simpl. do 2 eexists. split; [done|]. split_and!; [|done|done].
    unfold push. split; simpl;
      [done|rewrite fmap_app; simpl; congruence..|rewrite !length_app; simpl; lia|
       rewrite !length_app; simpl; lia|].
    exists (segments ++ [(strs, nums)]). rewrite !fmap_app, !concat_app. simpl.
    rewrite !app_nil_r. split_and!; [congruence..|]. apply Forall2_app.
    + eapply Forall2_impl; [exact HF|]. intros r seg (sc & ? & ?). exists sc. split; [done|].
      by eapply encodes_mono.
    + repeat constructor. by exists schema.
  - unfold set_marker_stack, index_set. rewrite Hsk, length_fmap, decide_True by done. simpl.
    do 2 eexists. split; [done|]. split_and!; [|done|lia]. split; simpl; [done| | | | |].
    + rewrite Hty. clear. revert handle. induction rows as [|r rows IH]; intros [|handle]; simpl; try done.
      f_equal. apply IH.
    + clear -Hv. revert handle Hv. induction rows as [|r rows IH]; intros [|handle] Hv; simpl in *; try done; try lia.
      f_equal. apply IH. lia.
    + by rewrite length_alter.
    + by rewrite length_alter.
    + exists segments. split_and!; [done..|]. clear -HF. revert handle.
      induction HF as [|r seg rows segments Hr HF IH]; intros [|handle]; simpl; constructor; try done.
      apply IH.
Qed.

Lemma run_marker_rows schemas gst ops rows t tst :
  wf_rows schemas gst rows t tst → ops_valid schemas gst rows ops →
  Z.of_nat (length (StringTable.strings (ThreadStringTable.table tst)) + strings_needed schemas ops)
    < 2 ^ 32 →
  ∃ t' tst', run schemas gst ops (t, tst) = Ok (t', tst') ∧
    wf_rows schemas gst (spec ops rows) t' tst' ∧ ThreadStringTable.extends tst tst'.
Proof.
  unfold strings_needed. revert rows t tst.
  induction ops as [|o ops IH]; intros rows t tst Hwf Hv Hroom; [by exists t, tst|].
  cbn [ops_valid run fmap list_fmap sum_list sum_list_with] in *. destruct Hv as [Hvo Hv].
  simpl in Hroom.
  destruct (apply_op_marker_rows schemas gst o rows t tst Hwf Hvo) as (t1 & tst1 & Ho & Hwf1 & Hext1 & Hlen); [lia|].
  rewrite Ho. simpl.
  destruct (IH (spec_op o rows) t1 tst1 Hwf1 Hv) as (t2 & tst2 & Hrun & Hwf2 & Hext2); [lia|].
  exists t2, tst2. split_and!; [done|done|by etrans].
Qed.

Lemma wf_rows_new_markers schemas gst tst : ThreadStringTable.wf tst gst → wf_rows schemas gst [] new tst.
Proof. intros Hst. split; try done. by exists []. Qed.

(** * Properties *)

(** C25: Adding any sequence of markers of registered types, with string handles
    of the profile, and setting stacks on markers that were added, never panics,
    and neither does writing the data column, whatever strings are added to the
    profile in between. The flat value columns are split again at exactly the
    right places: every element has the type name of its marker's schema, the
    last stack that was set as its cause, and for every field of the schema, in
    order and under its key, the number, the string, or for a unique string an
    index of the string in the thread's table. *)
Theorem marker_data_round_trip (schemas : list InternalMarkerSchema)
    (gst gst' : StringTable.StringTable) (tst : ThreadStringTable.ThreadStringTable) (ops : list op) :
  (∀ h schema, schemas !! h = Some schema → ∃ ms, schema = from_schema ms) →
  ThreadStringTable.wf tst gst → StringTable.extends gst gst' → ops_valid schemas gst [] ops →
  Z.of_nat (length (StringTable.strings (ThreadStringTable.table tst)) + strings_needed schemas ops)
    < 2 ^ 32 →
  ∃ t tst' elements, run schemas gst ops (new, tst) = Ok (t, tst') ∧
    ThreadStringTable.wf tst' gst ∧
    serialize_data_column t schemas gst' = Ok elements ∧
    Forall2 (λ r e, ∃ schema, schemas !! r.1.1 = Some schema ∧
      element_json gst' tst' schema r.1.2 r.2 e) (spec ops []) elements.
Proof.
  intros Hbuilt Hst Hext Hv Hroom.
  destruct (run_marker_rows schemas gst ops [] new tst (wf_rows_new_markers _ _ _ Hst) Hv Hroom)
    as (t & tst' & Hrun & [Hst' Hty Hsk Hnm Hcat (segments & Hss & Hns & HF)] & _).
  destruct (serialize_data_from_spec schemas gst' tst' t (spec ops []) segments 0 Hbuilt)
    as (elements & Hel & HF').
  - intros k r Hk. simpl. rewrite Hty, Hsk, !list_lookup_fmap, Hk. done.
  - eapply Forall2_impl; [exact HF|]. intros r seg (sc & ? & ?). exists sc. split; [done|].
    by eapply encodes_mono.
  - exists t, tst', elements. split_and!; try done. unfold serialize_data_column.
    by rewrite Hnm, Hss, Hns.
Qed.

#[local] Definition example_schema : InternalMarkerSchema := from_schema {|
  ms_type_name := "Text"; ms_locations := []; ms_chart_label := None; ms_tooltip_label := None;
  ms_table_label := None; ms_static_fields := []; ms_graphs := [];
  ms_fields := [{| key := "size"; label := ""; format := Bytes; searchable := false |};
                {| key := "name"; label := ""; format := String; searchable := true |};
                {| key := "url"; label := ""; format := Url; searchable := true |}] |}.
#[local] Definition example_marker : Marker :=
  {| string_field_value := λ i, Ok (if i =? 1 then 1 else 0); number_field_value := λ i, Ok (f64_of_Z i) |}.
#[local] Definition example_strings : StringTable.StringTable :=
  (StringTable.intern_all ["http"; "load"] StringTable.new).1.

Example marker_data_round_trip_witness :
  ∃ t tst' elements,
    run [example_schema] example_strings
      [AddMarker 0 0 example_marker (Instant {| nanos := 5 |}) 0; SetMarkerStack 0 (Some 3%nat)]
      (new, ThreadStringTable.new) = Ok (t, tst') ∧
    serialize_data_column t [example_schema] example_strings = Ok elements ∧
    elements = [JObj [("type", JString "Text"); ("cause", JObj [("stack", JInt 3)]);
      ("size", JFloat (f64_of_Z 0)); ("name", JInt 0); ("url", JString "http")]].
Proof.
  destruct (marker_data_round_trip [example_schema] example_strings example_strings
    ThreadStringTable.new
    [AddMarker 0 0 example_marker (Instant {| nanos := 5 |}) 0; SetMarkerStack 0 (Some 3%nat)])
    as (t & tst' & elements & Hrun & _ & Hel & _).
  - intros [|h] schema; [|done]. intros [= <-]. by eexists.
  - apply ThreadStringTable.wf_new_thread.
  - done.
  - split; [|by split; [simpl; lia|]]. exists example_schema. split; [done|].
    intros [|[|[|i]]] field Hf; simpl in Hf; simplify_eq/=; vm_compute; by eexists.
  - vm_compute. done.
  - exists t, tst', elements. split_and!; [done..|].
    vm_compute in Hrun. injection Hrun as <- _. vm_compute in Hel. by injection Hel as <-.
Defined.
End MarkerTable.
