(* ===== verification/ThreadModel.v ===== *)
(** One thread of a profile: [Thread] of fxprof-processed-profile/src/thread.rs,
    which owns the tables of the other files. *)
From S2P Require Import Prelude Types StringTables SymbolTable LibTable FrameTables StackTable.
From S2P Require Import Samples Markers.
From stdpp Require Import options.
Open Scope Z_scope.

(** The derived and standard [Ord] instances a comparison is built from:
    [then_with] continues with the next key on equality. *)
Definition then_with (c d : comparison) : comparison := match c with Eq => d | _ => c end.
Definition bool_compare (a b : bool) : comparison :=
  match a, b with false, true => Lt | true, false => Gt | _, _ => Eq end.
Definition option_string_compare (a b : option string) : comparison :=
  match a, b with
  | None, None => Eq
  | None, Some _ => Lt
  | Some _, None => Gt
  | Some x, Some y => String.compare x y
  end.

Module Thread.
Section thread.
Context {D : DebugIdType}.

(** * Data *)
Record Thread := {
  process : ProcessHandle;
  tid : string;
  name : option string;
  start_time : Timestamp;
  end_time : option Timestamp;
  is_main : bool;
  stack_table : StackTable.StackTable;
  frame_table : FrameTable.FrameTable;
  func_table : FuncTable.FuncTable;
  samples : SampleTable.SampleTable;
  native_allocations : option NativeAllocations.NativeAllocationsTable;
  markers : MarkerTable.MarkerTable;
  resources : ResourceTable.ResourceTable;
  native_symbols : NativeSymbols.NativeSymbols;
  string_table : ThreadStringTable.ThreadStringTable;
  last_sample_stack : option nat;
  last_sample_was_zero_cpu : bool
}.

Definition new (process' : ProcessHandle) (tid' : string) (start_time' : Timestamp)
    (is_main' : bool) : Thread :=
  {| process := process'; tid := tid'; name := None; start_time := start_time';
     end_time := None; is_main := is_main';
     stack_table := StackTable.new; frame_table := FrameTable.new; func_table := FuncTable.new;
     samples := SampleTable.new; native_allocations := None; markers := MarkerTable.new;
     resources := ResourceTable.new; native_symbols := NativeSymbols.new;
     string_table := ThreadStringTable.new; last_sample_stack := None;
     last_sample_was_zero_cpu := false |}.

(** * Field updates *)
Definition with_info (th : Thread) (tid' : string) (name' : option string)
    (start_time' : Timestamp) (end_time' : option Timestamp) : Thread :=
  {| process := process th; tid := tid'; name := name'; start_time := start_time';
     end_time := end_time'; is_main := is_main th;
     stack_table := stack_table th; frame_table := frame_table th; func_table := func_table th;
     samples := samples th; native_allocations := native_allocations th; markers := markers th;
     resources := resources th; native_symbols := native_symbols th;
     string_table := string_table th; last_sample_stack := last_sample_stack th;
     last_sample_was_zero_cpu := last_sample_was_zero_cpu th |}.
Definition with_tables (th : Thread) (frame_table' : FrameTable.FrameTable) (c : FrameTable.Tables)
    : Thread :=
  {| process := process th; tid := tid th; name := name th; start_time := start_time th;
     end_time := end_time th; is_main := is_main th;
     stack_table := stack_table th; frame_table := frame_table';
     func_table := FrameTable.func_table c;
     samples := samples th; native_allocations := native_allocations th; markers := markers th;
     resources := FrameTable.resource_table c; native_symbols := FrameTable.native_symbol_table c;
     string_table := FrameTable.string_table c; last_sample_stack := last_sample_stack th;
     last_sample_was_zero_cpu := last_sample_was_zero_cpu th |}.
Definition with_stack_table (th : Thread) (stack_table' : StackTable.StackTable) : Thread :=
  {| process := process th; tid := tid th; name := name th; start_time := start_time th;
     end_time := end_time th; is_main := is_main th;
     stack_table := stack_table'; frame_table := frame_table th; func_table := func_table th;
     samples := samples th; native_allocations := native_allocations th; markers := markers th;
     resources := resources th; native_symbols := native_symbols th;
     string_table := string_table th; last_sample_stack := last_sample_stack th;
     last_sample_was_zero_cpu := last_sample_was_zero_cpu th |}.
Definition with_samples (th : Thread) (samples' : SampleTable.SampleTable) (stack : option nat)
    (zero_cpu : bool) : Thread :=
  {| process := process th; tid := tid th; name := name th; start_time := start_time th;
     end_time := end_time th; is_main := is_main th;
     stack_table := stack_table th; frame_table := frame_table th; func_table := func_table th;
     samples := samples'; native_allocations := native_allocations th; markers := markers th;
     resources := resources th; native_symbols := native_symbols th;
     string_table := string_table th; last_sample_stack := stack;
     last_sample_was_zero_cpu := zero_cpu |}.
Definition with_markers (th : Thread) (markers' : MarkerTable.MarkerTable)
    (string_table' : ThreadStringTable.ThreadStringTable) : Thread :=
  {| process := process th; tid := tid th; name := name th; start_time := start_time th;
     end_time := end_time th; is_main := is_main th;
     stack_table := stack_table th; frame_table := frame_table th; func_table := func_table th;
     samples := samples th; native_allocations := native_allocations th; markers := markers';
     resources := resources th; native_symbols := native_symbols th;
     string_table := string_table'; last_sample_stack := last_sample_stack th;
     last_sample_was_zero_cpu := last_sample_was_zero_cpu th |}.
Definition with_allocations (th : Thread) (a : NativeAllocations.NativeAllocationsTable) : Thread :=
  {| process := process th; tid := tid th; name := name th; start_time := start_time th;
     end_time := end_time th; is_main := is_main th;
     stack_table := stack_table th; frame_table := frame_table th; func_table := func_table th;
     samples := samples th; native_allocations := Some a; markers := markers th;
     resources := resources th; native_symbols := native_symbols th;
     string_table := string_table th; last_sample_stack := last_sample_stack th;
     last_sample_was_zero_cpu := last_sample_was_zero_cpu th |}.

(** * Operations *)
Definition set_name (th : Thread) (name' : string) : Thread :=
  with_info th (tid th) (Some name') (start_time th) (end_time th).
Definition set_start_time (th : Thread) (t : Timestamp) : Thread :=
  with_info th (tid th) (name th) t (end_time th).
Definition set_end_time (th : Thread) (t : Timestamp) : Thread :=
  with_info th (tid th) (name th) (start_time th) (Some t).
Definition set_tid (th : Thread) (tid' : string) : Thread :=
  with_info th tid' (name th) (start_time th) (end_time th).

Definition convert_string_index (th : Thread) (global_table : StringTable.StringTable)
    (i : GlobalStringIndex) : res (Thread * ThreadInternalStringIndex) :=
  '(strings, l) ← ThreadStringTable.index_for_global_string (string_table th) i global_table;
  Ok (with_markers th (markers th) strings, l).

(** The references [frame_index_for_frame] passes on. *)
Definition tables (th : Thread) (global_libs : GlobalLibTable.GlobalLibTable) : FrameTable.Tables :=
  {| FrameTable.string_table := string_table th; FrameTable.resource_table := resources th;
     FrameTable.func_table := func_table th;
     FrameTable.native_symbol_table := native_symbols th; FrameTable.global_libs := global_libs |}.

Definition frame_index_for_frame (th : Thread) (frame' : FrameTable.InternalFrame)
    (global_libs : GlobalLibTable.GlobalLibTable)
    : res (Thread * GlobalLibTable.GlobalLibTable * nat) :=
  '(frames, c, i) ← FrameTable.index_for_frame (frame_table th) (tables th global_libs) frame';
  Ok (with_tables th frames c, FrameTable.global_libs c, i).

Definition stack_index_for_stack (th : Thread) (prefix : option nat) (frame' : nat)
    (category_pair : CategoryPairHandle) : Thread * nat :=
  let '(stacks, i) := StackTable.index_for_stack (stack_table th) prefix frame' category_pair in
  (with_stack_table th stacks, i).

Definition add_sample (th : Thread) (timestamp : Timestamp) (stack_index : option nat)
    (cpu_delta : CpuDelta) (weight : Z) : Thread :=
  with_samples th (SampleTable.add_sample (samples th) timestamp stack_index cpu_delta weight)
    stack_index (bool_decide (cpu_delta = CpuDelta_ZERO)).

Definition add_allocation_sample (th : Thread) (timestamp : Timestamp) (stack_index : option nat)
    (allocation_address allocation_size : Z) : Thread :=
  let allocations := default NativeAllocations.default (native_allocations th) in
  with_allocations th
    (NativeAllocations.add_sample allocations timestamp stack_index allocation_address
       allocation_size).

Definition add_sample_same_stack_zero_cpu (th : Thread) (timestamp : Timestamp) (weight : Z)
    : res Thread :=
  if last_sample_was_zero_cpu th then
    samples' ← SampleTable.modify_last_sample (samples th) timestamp weight;
    Ok (with_samples th samples' (last_sample_stack th) true)
  else
    let stack_index := last_sample_stack th in
    Ok (with_samples th
          (SampleTable.add_sample (samples th) timestamp stack_index CpuDelta_ZERO weight)
          stack_index true).

Definition add_marker (th : Thread) (name_string_index : ThreadInternalStringIndex)
    (marker_type_handle : MarkerTypeHandle) (schema : Schema.InternalMarkerSchema)
    (marker : Schema.Marker) (timing : Schema.MarkerTiming) (category : CategoryHandle)
    (global_string_table : StringTable.StringTable) : res (Thread * MarkerHandle) :=
  '(markers', strings, handle) ←
    MarkerTable.add_marker (markers th) name_string_index marker_type_handle schema marker timing
      category (string_table th) global_string_table;
  Ok (with_markers th markers' strings, handle).

Definition set_marker_stack (th : Thread) (marker : MarkerHandle) (stack_index : option nat)
    : res Thread :=
  markers' ← MarkerTable.set_marker_stack (markers th) marker stack_index;
  Ok (with_markers th markers' (string_table th)).

Definition contains_js_function (th : Thread) : bool :=
  FuncTable.contains_js_function (func_table th).

(** The main thread first, then by start time, name and tid. *)
Definition cmp_for_json_order (a b : Thread) : comparison :=
  then_with (bool_compare (negb (is_main a)) (negb (is_main b)))
    (then_with (nanos (start_time a) ?= nanos (start_time b))%Z
       (then_with (option_string_compare (name a) (name b))
          (String.compare (tid a) (tid b)))).

Definition thread_name (th : Thread) (process_name : string) : string :=
  match is_main th, name th with
  | true, _ => process_name
  | false, Some name => name
  | false, None => "Thread <" +:+ tid th +:+ ">"
  end.

Definition serialize_with `{UnstableSort} (th : Thread) (categories : list Category)
    (process_start_time : Timestamp) (process_end_time : option Timestamp)
    (process_name pid : string) (marker_schemas : list Schema.InternalMarkerSchema)
    (global_string_table : StringTable.StringTable) : res json :=
  frame_table' ← FrameTable.serialize_frame_table (frame_table th) categories;
  markers' ← MarkerTable.serialize_marker_table (markers th) marker_schemas global_string_table;
  samples' ← SampleTable.serialize_sample_table (samples th);
  stack_table' ← StackTable.serialize_with_categories (stack_table th) categories;
  Ok (JObj ([("frameTable", frame_table');
             ("funcTable", serialize (func_table th));
             ("markers", markers');
             ("name", JString (thread_name th process_name));
             ("isMainThread", serialize (is_main th));
             ("nativeSymbols", serialize (native_symbols th));
             ("pausedRanges", JArr []);
             ("pid", JString pid);
             ("processName", JString process_name);
             ("processShutdownTime", serialize process_end_time);
             ("processStartupTime", serialize process_start_time);
             ("processType", JString "default");
             ("registerTime", serialize (start_time th));
             ("resourceTable", serialize (resources th));
             ("samples", samples')] ++
            match native_allocations th with
            | Some allocations => [("nativeAllocations", serialize allocations)]
            | None => []
            end ++
            [("stackTable", stack_table');
             ("stringArray", serialize (string_table th));
             ("tid", JString (tid th));
             ("unregisterTime", serialize (end_time th))])).

(** * Samples: what the flags of a thread stand for *)
Inductive sample_op :=
| AddSample (timestamp : Timestamp) (stack_index : option nat) (cpu_delta : CpuDelta) (weight : Z)
| SameStackZeroCpu (timestamp : Timestamp) (weight : Z).
Definition apply_sample_op (o : sample_op) (th : Thread) : res Thread :=
  match o with
  | AddSample ts stack delta weight => Ok (add_sample th ts stack delta weight)
  | SameStackZeroCpu ts weight => add_sample_same_stack_zero_cpu th ts weight
  end.
Fixpoint run_samples (ops : list sample_op) (th : Thread) : res Thread :=
  match ops with [] => Ok th | o :: ops' => apply_sample_op o th ≫= run_samples ops' end.

(** The specification: a sample with the last stack and no CPU time is merged
    into the last row if that has no CPU time either. *)
Definition spec_sample_op (o : sample_op) (rows : list SampleTable.row) : list SampleTable.row :=
  match o with
  | AddSample ts stack delta weight =>
      rows ++ [SampleTable.Build_row ts stack delta weight]
  | SameStackZeroCpu ts weight =>
      match last rows with
      | Some r =>
          if decide (SampleTable.row_cpu_delta r = CpuDelta_ZERO) then
            removelast rows ++ [SampleTable.modify_row ts weight r]
          else rows ++ [SampleTable.Build_row ts (SampleTable.row_stack r) CpuDelta_ZERO weight]
      | None => [SampleTable.Build_row ts None CpuDelta_ZERO weight]
      end
  end.
Definition spec_samples (ops : list sample_op) (rows : list SampleTable.row) :=
  foldl (λ rows o, spec_sample_op o rows) rows ops.
Definition op_weight (o : sample_op) : Z :=
  match o with AddSample _ _ _ w | SameStackZeroCpu _ w => w end.
Definition total_weight (rows : list SampleTable.row) : Z :=
  foldr Z.add 0 (SampleTable.row_weight <$> rows).

Record samples_wf (rows : list SampleTable.row) (th : Thread) : Prop := {
  samples_rows : SampleTable.wf_rows rows (samples th);
  samples_stack : last_sample_stack th = last rows ≫= SampleTable.row_stack;
  samples_zero : last_sample_was_zero_cpu th =
    match last rows with
    | Some r => bool_decide (SampleTable.row_cpu_delta r = CpuDelta_ZERO)
    | None => false
    end
}.

Lemma samples_wf_new p tid' t m : samples_wf [] (new p tid' t m).
Proof. by split. Qed.

Lemma removelast_snoc {A} (l : list A) x : removelast (l ++ [x]) = l.
Proof. apply removelast_last. Qed.

Lemma apply_sample_op_spec o rows th :
  samples_wf rows th →
  ∃ th', apply_sample_op o th = Ok th' ∧ samples_wf (spec_sample_op o rows) th' ∧
    ∃ samples' stack zero, th' = with_samples th samples' stack zero.
Proof.
  intros [Hrows Hstack Hzero]. destruct o as [ts stack delta weight|ts weight]; simpl.
  - eexists. split; [done|]. split; [|by do 3 eexists].
    destruct (SampleTable.apply_op_rows (SampleTable.AddSample ts stack delta weight) rows _ Hrows)
      as (t' & [= <-] & ? & _).
    split; simpl; [done|..]; by rewrite last_snoc.
  - unfold add_sample_same_stack_zero_cpu. rewrite Hzero.
    destruct rows as [|r rows _] using rev_ind.
    + simpl. eexists. split; [done|]. split; [|by do 3 eexists].
      destruct (SampleTable.apply_op_rows
        (SampleTable.AddSample ts (last_sample_stack th) CpuDelta_ZERO weight) [] _ Hrows)
        as (t' & [= <-] & Hwf & _).
      rewrite Hstack in *. by split.
    + rewrite last_snoc. case_bool_decide as Hd; [rewrite decide_True by done|rewrite decide_False by done].
      * pose proof (SampleTable.apply_op_rows (SampleTable.ModifyLastSample ts weight) _ _ Hrows) as Hop.
        simpl in Hop. rewrite SampleTable.modify_last_snoc in Hop.
        destruct Hop as (t' & -> & Hwf & _). simpl. eexists. split; [done|].
        split; [|by do 3 eexists]. rewrite removelast_snoc.
        rewrite last_snoc in Hstack. split; simpl; [done|..]; rewrite last_snoc; simpl; [done|].
        by rewrite bool_decide_true.
      * eexists. split; [done|]. split; [|by do 3 eexists].
        destruct (SampleTable.apply_op_rows
          (SampleTable.AddSample ts (last_sample_stack th) CpuDelta_ZERO weight) _ _ Hrows)
          as (t' & [= <-] & Hwf & _).
        rewrite last_snoc in Hstack. simpl in Hstack. rewrite Hstack in *.
        split; simpl; [done|..]; by rewrite last_snoc.
Qed.

Lemma run_samples_spec ops rows th :
  samples_wf rows th →
  ∃ th', run_samples ops th = Ok th' ∧ samples_wf (spec_samples ops rows) th'.
Proof.
  revert rows th. induction ops as [|o ops IH]; intros rows th Hwf; simpl; [by eauto|].
  destruct (apply_sample_op_spec o rows th Hwf) as (th1 & -> & Hwf1 & _). simpl. by apply IH.
Qed.

Lemma total_weight_snoc rows r : total_weight (rows ++ [r]) = total_weight rows + SampleTable.row_weight r.
Proof.
  unfold total_weight. induction rows as [|x rows IH]; simpl; [lia|].
  change (list_fmap _ _ SampleTable.row_weight (rows ++ [r])) with (SampleTable.row_weight <$> rows ++ [r]).
  rewrite IH. unfold fmap. lia.
Qed.

Lemma wrap_i32_idem_l a b : wrap_i32 (wrap_i32 a + b) = wrap_i32 (a + b).
Proof.
  unfold wrap_i32. f_equal.
  replace ((a + 2 ^ 31) mod 2 ^ 32 - 2 ^ 31 + b + 2 ^ 31) with ((a + 2 ^ 31) mod 2 ^ 32 + b) by lia.
  rewrite Zplus_mod_idemp_l. f_equal. lia.
Qed.
Lemma wrap_i32_idem_r a b : wrap_i32 (a + wrap_i32 b) = wrap_i32 (a + b).
Proof. rewrite Z.add_comm, wrap_i32_idem_l. f_equal. lia. Qed.

Lemma spec_samples_weight ops rows :
  wrap_i32 (total_weight (spec_samples ops rows)) =
  wrap_i32 (total_weight rows + foldr Z.add 0 (op_weight <$> ops)).
Proof.
  revert rows. induction ops as [|o ops IH]; intros rows; simpl; [f_equal; lia|].
  change (spec_samples (o :: ops) rows) with (spec_samples ops (spec_sample_op o rows)).
  rewrite IH. change (list_fmap _ _ op_weight ops) with (op_weight <$> ops).
  set (rest := foldr Z.add 0 (op_weight <$> ops)).
  destruct o as [ts stack delta weight|ts weight]; simpl.
  - rewrite total_weight_snoc. simpl. f_equal. lia.
  - destruct rows as [|r rows _] using rev_ind; simpl; [unfold total_weight; simpl; f_equal; lia|].
    rewrite last_snoc. destruct (decide _).
    + rewrite removelast_snoc, !total_weight_snoc. simpl.
      rewrite <-Z.add_assoc, (Z.add_comm (wrap_i32 _)), Z.add_assoc, wrap_i32_idem_r. f_equal. lia.
    + rewrite !total_weight_snoc. simpl. f_equal. lia.
Qed.
End thread.

(** * Properties *)

(** C28: On a new thread no sequence of [add_sample] and
    [add_sample_same_stack_zero_cpu] calls panics, and the samples are the ones
    of the specification that has no flags: a zero-CPU sample repeats the stack
    of the last sample and is merged into it, adding its weight and taking over
    its time, exactly when the last sample has no CPU time itself. The weights
    written sum up to the weights that were passed, modulo 2^32. *)
Theorem run_samples_coalesces `{DebugIdType} (p : ProcessHandle) (tid' : string) (t : Timestamp)
    (m : bool) (ops : list sample_op) :
  ∃ th, run_samples ops (new p tid' t m) = Ok th ∧
    SampleTable.wf_rows (spec_samples ops []) (samples th) ∧
    wrap_i32 (total_weight (spec_samples ops [])) = wrap_i32 (foldr Z.add 0 (op_weight <$> ops)).
Proof.
  destruct (run_samples_spec ops [] _ (samples_wf_new p tid' t m)) as (th & Hrun & [Hrows _ _]).
  exists th. split_and!; [done..|apply (spec_samples_weight ops [])].
Qed.
End Thread.
