(* ===== verification/ThreadSafety.v ===== *)
(** The invariant of a thread inside a profile, and that every operation of
    thread.rs preserves it. *)
From S2P Require Import Prelude Types StringTables SymbolTable LibTable FrameTables StackTable.
From S2P Require Import Samples Markers ThreadModel.
From stdpp Require Import options.
Open Scope Z_scope.

Module ThreadSafety.
Section thread_safety.
Context {D : DebugIdType}.

(** * What a thread relies on: the tables of its profile *)
Record env := {
  e_strings : StringTable.StringTable;
  e_libs : GlobalLibTable.GlobalLibTable;
  e_schemas : list Schema.InternalMarkerSchema;
  e_categories : nat
}.
Record env_wf (e : env) : Prop := {
  env_strings : StringTable.wf (e_strings e);
  env_libs : GlobalLibTable.wf (e_libs e);
  env_built : FrameTable.tables_built (e_libs e);
  env_schemas : ∀ h schema, e_schemas e !! h = Some schema → ∃ ms, schema = Schema.from_schema ms
}.
(** The tables of the profile only grow. *)
Record env_le (e e' : env) : Prop := {
  env_le_strings : StringTable.extends (e_strings e) (e_strings e');
  env_le_libs : FrameTable.libs_le (e_libs e) (e_libs e');
  env_le_schemas : e_schemas e `prefix_of` e_schemas e';
  env_le_categories : (e_categories e ≤ e_categories e')%nat
}.
#[global] Instance env_le_preorder : PreOrder env_le.
Proof.
  split; [intros e; by split|].
  intros e1 e2 e3 [] []. split; [by etrans|by etrans|by etrans|lia].
Qed.
Definition with_libs (e : env) (g : GlobalLibTable.GlobalLibTable) : env :=
  {| e_strings := e_strings e; e_libs := g; e_schemas := e_schemas e;
     e_categories := e_categories e |}.

Definition category_ok (cats : nat) (p : CategoryPairHandle) : Prop :=
  (Z.to_nat (pair_category p) < cats)%nat.

(** * The invariant

    [keys] are the thread's frames, and [n] bounds the sizes of the tables with
    32-bit indexes. *)
Record stack_rows (keys : list FrameTable.InternalFrame) (t : StackTable.StackTable) : Prop := {
  stack_keys : StackTable.wf t;
  stack_frames_ok : ∀ i f, StackTable.stack_frames t !! i = Some f →
    ∃ k, keys !! f = Some k ∧
      StackTable.stack_categories t !! i = Some (pair_category (FrameTable.category_pair k)) ∧
      StackTable.stack_subcategories t !! i =
        Some (subcategory_of_pair (FrameTable.category_pair k))
}.

Definition sizes (n : nat) (th : Thread.Thread) : Prop :=
  (length (StringTable.strings (ThreadStringTable.table (Thread.string_table th))) ≤ n ∧
   length (FuncTable.names (Thread.func_table th)) ≤ n ∧
   length (ResourceTable.resource_libs (Thread.resources th)) ≤ n ∧
   length (NativeSymbols.addresses (Thread.native_symbols th)) ≤ n)%nat.

Record wf_keys (keys : list FrameTable.InternalFrame) (e : env) (n : nat) (th : Thread.Thread)
    : Prop := {
  wf_frames : FrameTable.wf_keys (e_strings e) keys (Thread.frame_table th)
    (Thread.tables th (e_libs e));
  wf_categories : Forall (λ k, category_ok (e_categories e) (FrameTable.category_pair k)) keys;
  wf_stacks : stack_rows keys (Thread.stack_table th);
  wf_samples : ∃ rows, Thread.samples_wf rows th;
  wf_markers : ∃ rows, MarkerTable.wf_rows (e_schemas e) (e_strings e) rows (Thread.markers th)
    (Thread.string_table th);
  wf_sizes : sizes n th
}.
Definition wf (e : env) (n : nat) (th : Thread.Thread) : Prop := ∃ keys, wf_keys keys e n th.

(** * Growth of the profile *)
Lemma markers_grow schemas schemas' gst gst' rows t tst tst' :
  MarkerTable.wf_rows schemas gst rows t tst → schemas `prefix_of` schemas' →
  StringTable.extends gst gst' → ThreadStringTable.wf tst' gst' →
  ThreadStringTable.extends tst tst' → MarkerTable.wf_rows schemas' gst' rows t tst'.
Proof.
  intros [Hst Hty Hsk Hnm Hcat (segments & ? & ? & HF)] Hs Hg Hst' Hext. split; [done..|].
  exists segments. split_and!; [done..|]. eapply Forall2_impl; [exact HF|].
  intros r seg (schema & Hschema & ?). exists schema. split; [by eapply prefix_lookup_Some|].
  by eapply MarkerTable.encodes_mono.
Qed.

Lemma wf_keys_strings keys e n th :
  wf_keys keys e n th → ThreadStringTable.wf (Thread.string_table th) (e_strings e).
Proof. intros [Hf _ _ _ _ _]. apply (FrameTable.wf_tables _ _ _ _ Hf). Qed.

Lemma wf_grow keys e e' n n' th :
  wf_keys keys e n th → env_wf e' → env_le e e' → (n ≤ n')%nat → wf_keys keys e' n' th.
Proof.
  intros Hwf [Hs Hl Hb Hsc] [Hes Hel Hesc Hec] Hn.
  pose proof (wf_keys_strings _ _ _ _ Hwf) as Hst.
  destruct Hwf as [Hf Hc Hst' Hsm [rows Hm] Hsz].
  assert (ThreadStringTable.wf (Thread.string_table th) (e_strings e')) as Hst''
    by by eapply ThreadStringTable.wf_extends_global.
  split; [| |done|done| |].
  - eapply (FrameTable.wf_strings_grow (e_strings e) (e_strings e') _ _ _ (Thread.string_table th))
      in Hf; [|done|done].
    by apply (FrameTable.wf_libs_grow _ _ _ _ (e_libs e')) in Hf.
  - eapply Forall_impl; [exact Hc|]. unfold category_ok. intros k. simpl. lia.
  - exists rows. by eapply markers_grow.
  - unfold sizes in *. lia.
Qed.

Lemma wf_new_thread_in e n p tid t m : env_wf e → wf e n (Thread.new p tid t m).
Proof.
  intros [Hs Hl Hb Hsc]. exists []. split.
  - destruct (FrameTable.wf_new_tables (e_strings e) (e_libs e) Hl Hb) as [keys Hk].
    (* the empty frame table has no keys *)
    assert (keys = []) as -> by (apply FrameTable.wf_addresses_len in Hk; by destruct keys).
    exact Hk.
  - constructor.
  - split; [apply StackTable.wf_new_stacks|]. intros i f Hf. simpl in Hf. by rewrite lookup_nil in Hf.
  - exists []. apply Thread.samples_wf_new.
  - exists []. apply MarkerTable.wf_rows_new_markers, ThreadStringTable.wf_new_thread.
  - unfold sizes. simpl. lia.
Qed.

(** * Operations that leave the tables alone *)
Lemma wf_info keys e n th tid name t t' :
  wf_keys keys e n th → wf_keys keys e n (Thread.with_info th tid name t t').
Proof. intros [Hf Hc Hst [rows [? ? ?]] Hm Hsz]. split; try done. exists rows. by split. Qed.

Lemma wf_allocations keys e n th a :
  wf_keys keys e n th → wf_keys keys e n (Thread.with_allocations th a).
Proof. intros [Hf Hc Hst [rows [? ? ?]] Hm Hsz]. split; try done. exists rows. by split. Qed.

Lemma wf_sample_op keys e n th o :
  wf_keys keys e n th →
  ∃ th', Thread.apply_sample_op o th = Ok th' ∧ wf_keys keys e n th' ∧
    Thread.process th' = Thread.process th.
Proof.
  intros [Hf Hc Hst [rows Hs] Hm Hsz].
  destruct (Thread.apply_sample_op_spec o rows th Hs) as (th' & Hop & Hs' & s & st & z & ->).
  eexists. split; [done|]. split; [|done]. split; try done. by exists (Thread.spec_sample_op o rows).
Qed.

(** * Strings and markers *)
Lemma wf_with_strings keys e n th st markers' rows :
  wf_keys keys e n th → ThreadStringTable.wf st (e_strings e) →
  ThreadStringTable.extends (Thread.string_table th) st →
  MarkerTable.wf_rows (e_schemas e) (e_strings e) rows markers' st →
  (length (StringTable.strings (ThreadStringTable.table st)) ≤ n)%nat →
  wf_keys keys e n (Thread.with_markers th markers' st).
Proof.
  intros [Hf Hc Hst [srows [? ? ?]] Hm Hsz] Hst' Hext Hrows Hlen. split; try done.
  - by apply (FrameTable.wf_strings_grow (e_strings e) (e_strings e) _ _ _ st) in Hf.
  - by exists srows.
  - by exists rows.
  - unfold sizes in *. simpl. lia.
Qed.

Lemma convert_string_index_ok keys e n th i :
  wf_keys keys e n th → is_Some (StringTable.get_string (e_strings e) i) →
  Z.of_nat (S n) < 2 ^ 32 →
  ∃ th' l, Thread.convert_string_index th (e_strings e) i = Ok (th', l) ∧
    wf_keys keys e (S n) th' ∧ Thread.process th' = Thread.process th ∧
    ThreadStringTable.get_string (Thread.string_table th') l = StringTable.get_string (e_strings e) i ∧
    ∃ st, th' = Thread.with_markers th (Thread.markers th) st ∧
      ThreadStringTable.extends (Thread.string_table th) st.
Proof.
  intros Hwf [s Hs] Hn. pose proof (wf_keys_strings _ _ _ _ Hwf) as Hst.
  destruct (wf_sizes _ _ _ _ Hwf) as (Hsz & ? & ? & ?).
  destruct (ThreadStringTable.serve_spec (e_strings e) (ThreadStringTable.Global i) _ s Hst Hs)
    as (st & l & Hserve & Hst' & Hext & _ & Hget); [lia|].
  pose proof (ThreadStringTable.serve_length _ _ _ _ _ Hserve) as Hlen. simpl in Hserve.
  unfold Thread.convert_string_index. rewrite Hserve. simpl. do 2 eexists. split; [done|].
  split_and!; [|done|simpl; rewrite Hs; exact Hget|by eexists].
  destruct (wf_markers _ _ _ _ Hwf) as [rows Hm].
  eapply wf_with_strings; [|done|done| |lia].
  - destruct Hwf. split; try done. unfold sizes in *. lia.
  - by eapply markers_grow.
Qed.

Lemma add_marker_ok keys e n th name h marker timing category :
  wf_keys keys e n th → MarkerTable.marker_valid (e_schemas e) (e_strings e) h marker →
  Z.of_nat (n + from_option (λ s, length (Schema.fields s)) 0%nat (e_schemas e !! h)) < 2 ^ 32 →
  ∃ schema th' i, e_schemas e !! h = Some schema ∧
    Thread.add_marker th name h schema marker timing category (e_strings e) = Ok (th', i) ∧
    wf_keys keys e (n + length (Schema.fields schema)) th' ∧
    Thread.process th' = Thread.process th.
Proof.
  intros Hwf Hv Hn. destruct (wf_markers _ _ _ _ Hwf) as [rows Hm].
  destruct (wf_sizes _ _ _ _ Hwf) as (Hsz & ? & ? & ?).
  pose proof Hv as (schema & Hschema & _). rewrite Hschema in Hn. simpl in Hn.
  destruct (MarkerTable.apply_op_marker_rows (e_schemas e) (e_strings e)
    (MarkerTable.AddMarker name h marker timing category) rows _ _ Hm Hv)
    as (t' & st & Hop & Hrows & Hext & Hlen); [simpl; rewrite Hschema; simpl; lia|].
  simpl in Hop, Hlen. unfold index in Hop. rewrite Hschema in Hop, Hlen. simpl in Hop, Hlen.
  destruct (MarkerTable.add_marker (Thread.markers th) name h schema marker timing category
    (Thread.string_table th) (e_strings e)) as [[[t'' st'] i]|] eqn:E; [|done].
  simpl in Hop. injection Hop as -> ->.
  exists schema. unfold Thread.add_marker. rewrite E. simpl. do 2 eexists. split_and!; [done..| |done].
  eapply wf_with_strings; [|by apply (MarkerTable.wf_tst _ _ _ _ _ Hrows)|done|done|lia].
  destruct Hwf. split; try done. unfold sizes in *. lia.
Qed.

Lemma set_marker_stack_ok keys e n th h stack :
  wf_keys keys e n th → (h < length (MarkerTable.marker_stacks (Thread.markers th)))%nat →
  Z.of_nat n < 2 ^ 32 →
  ∃ th', Thread.set_marker_stack th h stack = Ok th' ∧ wf_keys keys e n th' ∧
    Thread.process th' = Thread.process th.
Proof.
  intros Hwf Hh Hn. destruct (wf_markers _ _ _ _ Hwf) as [rows Hm].
  destruct (wf_sizes _ _ _ _ Hwf) as (Hsz & ? & ? & ?).
  rewrite (MarkerTable.wf_stacks _ _ _ _ _ Hm), length_fmap in Hh.
  destruct (MarkerTable.apply_op_marker_rows (e_schemas e) (e_strings e)
    (MarkerTable.SetMarkerStack h stack) rows _ _ Hm Hh)
    as (t' & st & Hop & Hrows & Hext & Hlen); [simpl; lia|].
  simpl in Hop. unfold Thread.set_marker_stack.
  destruct (MarkerTable.set_marker_stack (Thread.markers th) h stack) as [t''|]; [|done].
  simpl in *. injection Hop as -> <-. eexists. split_and!; [done| |done].
  eapply wf_with_strings; [done|by eapply wf_keys_strings|done|done|done].
Qed.

(** * Frames and stacks *)

(** One frame: the row of its index says what it is. *)
Lemma frame_index_ok keys e n th frame' :
  wf_keys keys e n th → env_wf e →
  FrameTable.frame_valid (Thread.tables th (e_libs e)) frame' →
  category_ok (e_categories e) (FrameTable.category_pair frame') →
  Z.of_nat (n + 2) < 2 ^ 32 →
  ∃ th' g i keys', Thread.frame_index_for_frame th frame' (e_libs e) = Ok (th', g, i) ∧
    wf_keys keys' (with_libs e g) (n + 2) th' ∧ keys `prefix_of` keys' ∧ keys' !! i = Some frame' ∧
    env_wf (with_libs e g) ∧ env_le e (with_libs e g) ∧
    GlobalLibTable.used_libs g = GlobalLibTable.used_libs (e_libs e) ∧
    GlobalLibTable.all_libs g = GlobalLibTable.all_libs (e_libs e) ∧
    Thread.process th' = Thread.process th ∧ Thread.stack_table th' = Thread.stack_table th ∧
    Thread.samples th' = Thread.samples th ∧ Thread.markers th' = Thread.markers th ∧
    ThreadStringTable.extends (Thread.string_table th) (Thread.string_table th').
Proof.
  intros Hwf Henv Hv Hcat Hn. pose proof Hwf as [Hf Hc Hst Hsm [mrows Hm] Hsz].
  destruct Hsz as (Hs1 & Hs2 & Hs3 & Hs4).
  destruct (FrameTable.index_for_frame_spec _ keys _ _ frame' Hf)
    as (t' & c' & i & keys' & Heq & Hi & Hf' & Hle & Hpre & Hseen & Hk & Hgrown);
    [unfold FrameTable.room; simpl; lia|done|].
  unfold Thread.frame_index_for_frame. rewrite Heq. simpl.
  exists (Thread.with_tables th t' c'), (FrameTable.global_libs c'), i, keys'.
  assert (FrameTable.libs_le (e_libs e) (FrameTable.global_libs c')) as Hlibs.
  { apply (FrameTable.tables_le_libs _ _ Hle). intros lib a Ha. apply Hseen. by left. }
  assert (env_wf (with_libs e (FrameTable.global_libs c'))) as Henv'.
  { destruct Henv. destruct (FrameTable.wf_tables _ _ _ _ Hf'). by split. }
  assert (env_le e (with_libs e (FrameTable.global_libs c'))) as Henvle by by split.
  split_and!; try done; [|by apply (FrameTable.le_used _ _ Hle)|by apply (FrameTable.le_all _ _ Hle)
                         |by apply (FrameTable.le_strings _ _ Hle)].
  split.
  - destruct c'. exact Hf'.
  - apply Forall_forall. intros k [Hin| ->%list_elem_of_singleton]%Hk; [|done].
    rewrite Forall_forall in Hc. by apply Hc.
  - destruct Hst as [Hskeys Hrows]. split; [done|]. intros j f Hj.
    destruct (Hrows _ _ Hj) as (k & Hkey & ?). exists k. split; [by eapply prefix_lookup_Some|done].
  - destruct Hsm as [srows [? ? ?]]. by exists srows.
  - exists mrows. eapply markers_grow; [done|done|done| |apply (FrameTable.le_strings _ _ Hle)].
    apply (FrameTable.wf_strings _ _ (FrameTable.wf_tables _ _ _ _ Hf')).
  - unfold sizes, FrameTable.grown, FrameTable.strings_of in *. simpl in *. lia.
Qed.

(** One stack node for a frame of the thread. *)
Lemma stack_index_ok keys e n th prefix f k :
  wf_keys keys e n th → StackTable.in_table (Thread.stack_table th) prefix →
  keys !! f = Some k →
  let '(th', i) := Thread.stack_index_for_stack th prefix f (FrameTable.category_pair k) in
  wf_keys keys e n th' ∧ StackTable.in_table (Thread.stack_table th') (Some i) ∧
  Thread.process th' = Thread.process th ∧ Thread.samples th' = Thread.samples th ∧
  Thread.markers th' = Thread.markers th ∧ Thread.frame_table th' = Thread.frame_table th ∧
  (∀ g, Thread.tables th' g = Thread.tables th g) ∧
  StackTable.extends (Thread.stack_table th) (Thread.stack_table th') ∧
  (∀ xs, StackTable.call_stack (Thread.stack_table th) prefix = Some xs →
     StackTable.call_stack (Thread.stack_table th') (Some i) =
       Some (xs ++ [(f, pair_category (FrameTable.category_pair k),
                     subcategory_of_pair (FrameTable.category_pair k))])).
Proof.
  intros Hwf Hin Hk. pose proof Hwf as [Hf Hc [[skeys Hskeys] Hrows] [srows Hs] Hm Hsz].
  set (pair_of := λ f, default (FrameTable.category_pair k) (FrameTable.category_pair <$> keys !! f)).
  assert (pair_of f = FrameTable.category_pair k) as Hpair by (unfold pair_of; by rewrite Hk).
  assert (StackTable.categories_of pair_of (Thread.stack_table th)) as Hcats.
  { intros j g Hj. destruct (Hrows _ _ Hj) as (k' & Hk' & ? & ?). unfold pair_of. by rewrite Hk'. }
  pose proof (StackTable.index_for_stack_spec skeys _ pair_of prefix f Hskeys Hcats Hin) as Hspec.
  unfold Thread.stack_index_for_stack. rewrite Hpair in Hspec.
  destruct (StackTable.index_for_stack _ _ _ _) as [t' i] eqn:E.
  destruct Hspec as (skeys' & Hskeys' & Hcats' & Hext & _ & Hi).
  split_and!; try done.
  - split; try done; [|by exists srows; destruct Hs]. split; [by exists skeys'|].
    intros j g Hj. destruct (Hcats' _ _ Hj) as [Hc1 Hc2]. simpl in *.
    assert (is_Some (keys !! g)) as [k' Hk'].
    { unfold StackTable.index_for_stack in E. destruct (_ !! (prefix, f)).
      - injection E as <- _. destruct (Hrows _ _ Hj) as (k' & ? & _). by exists k'.
      - injection E as <- _. simpl in Hj. apply lookup_app_Some_snoc in Hj as [Hj|[_ ->]]; [|by exists k].
        destruct (Hrows _ _ Hj) as (k' & ? & _). by exists k'. }
    exists k'. unfold pair_of in Hc1, Hc2. rewrite Hk' in Hc1, Hc2. done.
  - intros j [= <-]. simpl. rewrite (proj1 (StackTable.wf_keys_lengths _ _ Hskeys')).
    by eapply lookup_lt_Some.
  - intros xs Hxs. simpl.
    rewrite (StackTable.call_stack_snoc skeys' t' pair_of i prefix f xs);
      [unfold StackTable.entry_of; by rewrite Hpair|done..|]. by eapply StackTable.call_stack_extends.
Qed.

(** * Serialization *)
Lemma subcategories_ok (column : list Subcategory) (categories : list Category) :
  (∀ s, s ∈ column → match s with Normal _ => True
                     | Other c => (Z.to_nat c < length categories)%nat end) →
  is_Ok (serialize_subcategory_column column categories).
Proof.
  unfold serialize_subcategory_column. intros Hall.
  assert (is_Ok (mapM (subcategory_element categories) column)) as [l Hl];
    [|rewrite Hl; simpl; by eexists].
  induction column as [|s column IH]; simpl; [by eexists|].
  destruct IH as [l Hl]; [intros s' Hs'; apply Hall; by right|].
  specialize (Hall s ltac:(by left)).
  assert (is_Ok (subcategory_element categories s)) as [j Hj].
  { destruct s as [i|c]; simpl; [by eexists|]. destruct (index_lt _ _ Hall) as [x Hx].
    rewrite Hx. simpl. by eexists. }
  rewrite Hj. simpl. rewrite Hl. simpl. by eexists.
Qed.

Lemma subcategory_of_pair_ok cats p :
  category_ok cats p →
  match subcategory_of_pair p with Normal _ => True | Other c => (Z.to_nat c < cats)%nat end.
Proof. unfold category_ok, subcategory_of_pair. by destruct (pair_subcategory p). Qed.

Lemma serialize_ok `{UnstableSort} keys e n th categories t t' name pid :
  wf_keys keys e n th → env_wf e → length categories = e_categories e →
  is_Ok (Thread.serialize_with th categories t t' name pid (e_schemas e) (e_strings e)).
Proof.
  intros [Hf Hc [[skeys Hskeys] Hrows] [srows [Hs _ _]] [mrows Hm] _] Henv Hcats.
  rewrite Forall_forall in Hc. unfold Thread.serialize_with.
  assert (is_Ok (FrameTable.serialize_frame_table (Thread.frame_table th) categories)) as [j1 ->].
  { unfold FrameTable.serialize_frame_table.
    destruct (subcategories_ok (FrameTable.subcategories (Thread.frame_table th)) categories) as [j ->];
      [|simpl; by eexists].
    intros s [i Hi]%list_elem_of_lookup. pose proof (lookup_lt_Some _ _ _ Hi) as Hlt.
    rewrite (FrameTable.wf_subcategories_len _ _ _ _ Hf) in Hlt.
    destruct (lookup_lt_is_Some_2 _ _ Hlt) as [k Hk].
    destruct (FrameTable.wf_rows _ _ _ _ Hf _ _ Hk) as (? & ? & ? & ? & ? & _ & _ & _ & _ & _ & _ & Hsub).
    assert (s = subcategory_of_pair (FrameTable.category_pair k)) as -> by congruence.
    rewrite Hcats. apply subcategory_of_pair_ok, Hc, list_elem_of_lookup. eauto. }
  cbn [mbind res_bind].
  assert (is_Ok (MarkerTable.serialize_marker_table (Thread.markers th) (e_schemas e) (e_strings e)))
    as [j2 ->].
  { destruct Hm as [_ Hty Hsk Hnm _ (segments & Hss & Hns & HF)].
    unfold MarkerTable.serialize_marker_table, MarkerTable.serialize_data_column.
    destruct (MarkerTable.serialize_data_from_spec (e_schemas e) (e_strings e)
      (Thread.string_table th) (Thread.markers th) mrows segments 0) as (els & Hels & _);
      [by destruct Henv| |done|].
    - intros k r Hk. simpl. by rewrite Hty, Hsk, !list_lookup_fmap, Hk.
    - rewrite Hnm, Hss, Hns, Hels. simpl. by eexists. }
  cbn [mbind res_bind].
  destruct (SampleTable.serialize_table_rows srows _ Hs) as (rows' & -> & _). cbn [mbind res_bind].
  unfold StackTable.serialize_with_categories.
  destruct (subcategories_ok (StackTable.stack_subcategories (Thread.stack_table th)) categories)
    as [j4 ->]; [|simpl; by eexists].
  intros s [i Hi]%list_elem_of_lookup. pose proof (lookup_lt_Some _ _ _ Hi) as Hlt.
  rewrite (StackTable.wf_subcategories _ _ Hskeys), <-(proj2 (StackTable.wf_keys_lengths _ _ Hskeys)) in Hlt.
  destruct (lookup_lt_is_Some_2 _ _ Hlt) as [f Hfr].
  destruct (Hrows _ _ Hfr) as (k & Hk & _ & Hsub).
  assert (s = subcategory_of_pair (FrameTable.category_pair k)) as -> by congruence.
  rewrite Hcats. apply subcategory_of_pair_ok, Hc, list_elem_of_lookup. eauto.
Qed.
End thread_safety.
End ThreadSafety.
