(* ===== verification/ProfileModel.v ===== *)
(** The profile: [Process] (fxprof-processed-profile/src/process.rs) and
    [Profile] with all its operations and its serialization (profile.rs). *)
From S2P Require Import Prelude BTree Types LibMappings StringTables SymbolTable LibTable.
From S2P Require Import FrameTables StackTable Samples Markers ThreadModel.
From stdpp Require Import options.
Open Scope Z_scope.

(** A sort with a comparator that looks its arguments up in a table: handles
    that are not in the table would panic when they are compared. *)
Definition sort_handles {A} (cmp : A → A → comparison) (table : list A) (handles : list nat)
    : res (list nat) :=
  let le (i j : nat) : bool :=
    match table !! i, table !! j with
    | Some a, Some b => match cmp a b with Gt => false | _ => true end
    | _, _ => true
    end in
  match handles with
  | [] | [_] => Ok handles
  | _ => _ ← mapM (index table) handles; Ok (stable_sort le handles)
  end.

Module Process.
Section process.
Context {D : DebugIdType}.

(** * Data *)
Record Process := {
  pid : string;
  name : string;
  threads : list ThreadHandle;
  start_time : Timestamp;
  end_time : option Timestamp;
  libs : LibMappings.LibMappings LibraryHandle
}.
Definition new (name' pid' : string) (start_time' : Timestamp) : Process :=
  {| pid := pid'; name := name'; threads := []; start_time := start_time'; end_time := None;
     libs := LibMappings.new |}.

(** * Operations *)
Definition thread_handle_for_allocations (p : Process) : option ThreadHandle := head (threads p).
Definition set_start_time (p : Process) (t : Timestamp) : Process :=
  {| pid := pid p; name := name p; threads := threads p; start_time := t; end_time := end_time p;
     libs := libs p |}.
Definition set_end_time (p : Process) (t : Timestamp) : Process :=
  {| pid := pid p; name := name p; threads := threads p; start_time := start_time p;
     end_time := Some t; libs := libs p |}.
Definition set_name (p : Process) (name' : string) : Process :=
  {| pid := pid p; name := name'; threads := threads p; start_time := start_time p;
     end_time := end_time p; libs := libs p |}.
Definition add_thread (p : Process) (thread : ThreadHandle) : Process :=
  {| pid := pid p; name := name p; threads := push (threads p) thread; start_time := start_time p;
     end_time := end_time p; libs := libs p |}.
Definition with_libs (p : Process) (libs' : LibMappings.LibMappings LibraryHandle) : Process :=
  {| pid := pid p; name := name p; threads := threads p; start_time := start_time p;
     end_time := end_time p; libs := libs' |}.

Definition cmp_for_json_order (a b : Process) : comparison :=
  then_with (nanos (start_time a) ?= nanos (start_time b))%Z (String.compare (pid a) (pid b)).

(** The kernel's libraries first, then the process's. *)
Definition convert_address (p : Process) (global_libs : GlobalLibTable.GlobalLibTable)
    (kernel_libs : LibMappings.LibMappings LibraryHandle) (address : Z)
    : GlobalLibTable.GlobalLibTable * FrameTable.InternalFrameLocation :=
  match (match LibMappings.convert_address kernel_libs address with
         | Some x => Some x
         | None => LibMappings.convert_address (libs p) address
         end) with
  | Some (relative_address, lib_handle) =>
      let '(libs', global_lib_index) := GlobalLibTable.index_for_used_lib global_libs lib_handle in
      (libs', FrameTable.AddressInLib relative_address global_lib_index)
  | None => (global_libs, FrameTable.UnknownAddress address)
  end.

Definition add_lib_mapping (p : Process) (lib : LibraryHandle)
    (start_avma end_avma relative_address_at_start : Z) : res Process :=
  libs' ← LibMappings.add_mapping (libs p) start_avma end_avma relative_address_at_start lib;
  Ok (with_libs p libs').
Definition remove_lib_mapping (p : Process) (start_avma : Z) : Process :=
  with_libs p (LibMappings.remove_mapping (libs p) start_avma).2.
Definition remove_all_lib_mappings (p : Process) : Process :=
  with_libs p (LibMappings.clear (libs p)).
End process.
End Process.

Module Profile.
Section profile.
Context {D : DebugIdType}.

(** * Data *)
Record Profile := {
  product : string;
  os_name : option string;
  (** [SamplingInterval], in nanoseconds *)
  interval : Z;
  global_libs : GlobalLibTable.GlobalLibTable;
  kernel_libs : LibMappings.LibMappings LibraryHandle;
  categories : list Category;
  processes : list Process.Process;
  counters : list Counter.Counter;
  threads : list Thread.Thread;
  (** [ReferenceTimestamp], in milliseconds *)
  reference_timestamp : f64;
  string_table : StringTable.StringTable;
  marker_schemas : list Schema.InternalMarkerSchema;
  static_schema_marker_types : gmap string MarkerTypeHandle;
  used_pids : gmap Z Z;
  used_tids : gmap Z Z
}.

Definition new (product' : string) (reference_timestamp' : f64) (interval' : Z) : Profile :=
  {| product := product'; os_name := None; interval := interval';
     global_libs := GlobalLibTable.new; kernel_libs := LibMappings.new;
     categories := [{| category_name := "Other"; category_color := Gray; subcategories := [] |}];
     processes := []; counters := []; threads := [];
     reference_timestamp := reference_timestamp'; string_table := StringTable.new;
     marker_schemas := []; static_schema_marker_types := ∅; used_pids := ∅; used_tids := ∅ |}.

(** * Field updates *)
Definition with_meta (p : Profile) (product' : string) (os_name' : option string) (interval' : Z)
    (reference_timestamp' : f64) : Profile :=
  {| product := product'; os_name := os_name'; interval := interval';
     global_libs := global_libs p; kernel_libs := kernel_libs p; categories := categories p;
     processes := processes p; counters := counters p; threads := threads p;
     reference_timestamp := reference_timestamp'; string_table := string_table p;
     marker_schemas := marker_schemas p;
     static_schema_marker_types := static_schema_marker_types p;
     used_pids := used_pids p; used_tids := used_tids p |}.
Definition with_libs (p : Profile) (global_libs' : GlobalLibTable.GlobalLibTable)
    (kernel_libs' : LibMappings.LibMappings LibraryHandle) : Profile :=
  {| product := product p; os_name := os_name p; interval := interval p;
     global_libs := global_libs'; kernel_libs := kernel_libs'; categories := categories p;
     processes := processes p; counters := counters p; threads := threads p;
     reference_timestamp := reference_timestamp p; string_table := string_table p;
     marker_schemas := marker_schemas p;
     static_schema_marker_types := static_schema_marker_types p;
     used_pids := used_pids p; used_tids := used_tids p |}.
Definition with_categories (p : Profile) (categories' : list Category) : Profile :=
  {| product := product p; os_name := os_name p; interval := interval p;
     global_libs := global_libs p; kernel_libs := kernel_libs p; categories := categories';
     processes := processes p; counters := counters p; threads := threads p;
     reference_timestamp := reference_timestamp p; string_table := string_table p;
     marker_schemas := marker_schemas p;
     static_schema_marker_types := static_schema_marker_types p;
     used_pids := used_pids p; used_tids := used_tids p |}.
Definition with_processes (p : Profile) (processes' : list Process.Process) (used_pids' : gmap Z Z)
    : Profile :=
  {| product := product p; os_name := os_name p; interval := interval p;
     global_libs := global_libs p; kernel_libs := kernel_libs p; categories := categories p;
     processes := processes'; counters := counters p; threads := threads p;
     reference_timestamp := reference_timestamp p; string_table := string_table p;
     marker_schemas := marker_schemas p;
     static_schema_marker_types := static_schema_marker_types p;
     used_pids := used_pids'; used_tids := used_tids p |}.
Definition with_threads (p : Profile) (threads' : list Thread.Thread) (used_tids' : gmap Z Z)
    : Profile :=
  {| product := product p; os_name := os_name p; interval := interval p;
     global_libs := global_libs p; kernel_libs := kernel_libs p; categories := categories p;
     processes := processes p; counters := counters p; threads := threads';
     reference_timestamp := reference_timestamp p; string_table := string_table p;
     marker_schemas := marker_schemas p;
     static_schema_marker_types := static_schema_marker_types p;
     used_pids := used_pids p; used_tids := used_tids' |}.
Definition with_counters (p : Profile) (counters' : list Counter.Counter) : Profile :=
  {| product := product p; os_name := os_name p; interval := interval p;
     global_libs := global_libs p; kernel_libs := kernel_libs p; categories := categories p;
     processes := processes p; counters := counters'; threads := threads p;
     reference_timestamp := reference_timestamp p; string_table := string_table p;
     marker_schemas := marker_schemas p;
     static_schema_marker_types := static_schema_marker_types p;
     used_pids := used_pids p; used_tids := used_tids p |}.
Definition with_schemas (p : Profile) (string_table' : StringTable.StringTable)
    (marker_schemas' : list Schema.InternalMarkerSchema) (types : gmap string MarkerTypeHandle)
    : Profile :=
  {| product := product p; os_name := os_name p; interval := interval p;
     global_libs := global_libs p; kernel_libs := kernel_libs p; categories := categories p;
     processes := processes p; counters := counters p; threads := threads p;
     reference_timestamp := reference_timestamp p; string_table := string_table';
     marker_schemas := marker_schemas'; static_schema_marker_types := types;
     used_pids := used_pids p; used_tids := used_tids p |}.

(** [self.threads[handle.0]] and [self.processes[handle.0]], updated in place. *)
Definition update_thread (p : Profile) (thread : ThreadHandle)
    (f : Thread.Thread → res Thread.Thread) : res Profile :=
  th ← index (threads p) thread;
  th' ← f th;
  threads' ← index_set (threads p) thread th';
  Ok (with_threads p threads' (used_tids p)).
Definition update_process (p : Profile) (process : ProcessHandle)
    (f : Process.Process → res Process.Process) : res Profile :=
  pr ← index (processes p) process;
  pr' ← f pr;
  processes' ← index_set (processes p) process pr';
  Ok (with_processes p processes' (used_pids p)).

(** * Operations *)
Definition set_interval (p : Profile) (interval' : Z) : Profile :=
  with_meta p (product p) (os_name p) interval' (reference_timestamp p).
Definition set_reference_timestamp (p : Profile) (t : f64) : Profile :=
  with_meta p (product p) (os_name p) (interval p) t.
Definition set_product (p : Profile) (product' : string) : Profile :=
  with_meta p product' (os_name p) (interval p) (reference_timestamp p).
Definition set_os_name (p : Profile) (os_name' : string) : Profile :=
  with_meta p (product p) (Some os_name') (interval p) (reference_timestamp p).

Definition add_category (p : Profile) (name : string) (color : CategoryColor)
    : Profile * CategoryHandle :=
  let handle := wrap_u16 (Z.of_nat (length (categories p))) in
  (with_categories p (push (categories p)
     {| category_name := name; category_color := color; subcategories := [] |}), handle).

Definition add_subcategory (p : Profile) (category : CategoryHandle) (name : string)
    : res (Profile * CategoryPairHandle) :=
  let i := Z.to_nat category in
  c ← index (categories p) i;
  '(c', subcategory) ← Category_add_subcategory c name;
  categories' ← index_set (categories p) i c';
  Ok (with_categories p categories',
      {| pair_category := category; pair_subcategory := Some subcategory |}).

(** The [u32] suffix wraps. *)
Definition make_unique_pid_or_tid (map : gmap Z Z) (id : Z) : gmap Z Z * string :=
  match map !! id with
  | Some suffix =>
      (<[id := add_u32 suffix 1]> map, dec_string id +:+ "." +:+ dec_string suffix)
  | None => (<[id := 1]> map, dec_string id)
  end.

Definition add_process (p : Profile) (name : string) (pid : Z) (start_time : Timestamp)
    : Profile * ProcessHandle :=
  let '(used_pids', pid') := make_unique_pid_or_tid (used_pids p) pid in
  let handle := length (processes p) in
  (with_processes p (push (processes p) (Process.new name pid' start_time)) used_pids', handle).

Definition add_counter (p : Profile) (process : ProcessHandle) (name category description : string)
    (color : option GraphColor.t) : res (Profile * CounterHandle) :=
  let handle := length (counters p) in
  pr ← index (processes p) process;
  Ok (with_counters p (push (counters p)
        (Counter.new name category description process (Process.pid pr) color)), handle).

Definition set_process_start_time (p : Profile) (process : ProcessHandle) (t : Timestamp) :=
  update_process p process (λ pr, Ok (Process.set_start_time pr t)).
Definition set_process_end_time (p : Profile) (process : ProcessHandle) (t : Timestamp) :=
  update_process p process (λ pr, Ok (Process.set_end_time pr t)).
Definition set_process_name (p : Profile) (process : ProcessHandle) (name : string) :=
  update_process p process (λ pr, Ok (Process.set_name pr name)).

Definition add_lib (p : Profile) (library : LibraryInfo.LibraryInfo) : Profile * LibraryHandle :=
  let '(libs, handle) := GlobalLibTable.handle_for_lib (global_libs p) library in
  (with_libs p libs (kernel_libs p), handle).
Definition set_lib_symbol_table (p : Profile) (library : LibraryHandle)
    (symbol_table : SymbolTable.SymbolTable) : res Profile :=
  libs ← GlobalLibTable.set_lib_symbol_table (global_libs p) library symbol_table;
  Ok (with_libs p libs (kernel_libs p)).

Definition add_lib_mapping (p : Profile) (process : ProcessHandle) (lib : LibraryHandle)
    (start_avma end_avma relative_address_at_start : Z) : res Profile :=
  update_process p process
    (λ pr, Process.add_lib_mapping pr lib start_avma end_avma relative_address_at_start).
Definition remove_lib_mapping (p : Profile) (process : ProcessHandle) (start_avma : Z) :=
  update_process p process (λ pr, Ok (Process.remove_lib_mapping pr start_avma)).
Definition clear_process_lib_mappings (p : Profile) (process : ProcessHandle) :=
  update_process p process (λ pr, Ok (Process.remove_all_lib_mappings pr)).
Definition add_kernel_lib_mapping (p : Profile) (lib : LibraryHandle)
    (start_avma end_avma relative_address_at_start : Z) : res Profile :=
  kernel ← LibMappings.add_mapping (kernel_libs p) start_avma end_avma
             relative_address_at_start lib;
  Ok (with_libs p (global_libs p) kernel).
Definition remove_kernel_lib_mapping (p : Profile) (start_avma : Z) : Profile :=
  with_libs p (global_libs p) (LibMappings.remove_mapping (kernel_libs p) start_avma).2.

Definition add_thread (p : Profile) (process : ProcessHandle) (tid : Z) (start_time : Timestamp)
    (is_main : bool) : res (Profile * ThreadHandle) :=
  let '(used_tids', tid') := make_unique_pid_or_tid (used_tids p) tid in
  let handle := length (threads p) in
  let p' := with_threads p (push (threads p) (Thread.new process tid' start_time is_main))
              used_tids' in
  p'' ← update_process p' process (λ pr, Ok (Process.add_thread pr handle));
  Ok (p'', handle).

Definition set_thread_name (p : Profile) (thread : ThreadHandle) (name : string) :=
  update_thread p thread (λ th, Ok (Thread.set_name th name)).
Definition set_thread_start_time (p : Profile) (thread : ThreadHandle) (t : Timestamp) :=
  update_thread p thread (λ th, Ok (Thread.set_start_time th t)).
Definition set_thread_end_time (p : Profile) (thread : ThreadHandle) (t : Timestamp) :=
  update_thread p thread (λ th, Ok (Thread.set_end_time th t)).
Definition set_thread_tid (p : Profile) (thread : ThreadHandle) (tid : Z) : res Profile :=
  let '(used_tids', tid') := make_unique_pid_or_tid (used_tids p) tid in
  update_thread (with_threads p (threads p) used_tids') thread (λ th, Ok (Thread.set_tid th tid')).

Definition intern_string (p : Profile) (s : string) : Profile * StringHandle :=
  let '(strings, i) := StringTable.index_for_string (string_table p) s in
  (with_schemas p strings (marker_schemas p) (static_schema_marker_types p), i).
Definition get_string (p : Profile) (handle : StringHandle) : res string :=
  unwrap (StringTable.get_string (string_table p) handle).

(** ** Stacks *)
(** The [match frame_info.frame]. *)
Definition locate_frame (pr : Process.Process) (kernel : LibMappings.LibMappings LibraryHandle)
    (strings : StringTable.StringTable) (g : GlobalLibTable.GlobalLibTable) (th : Thread.Thread)
    (frame' : Frame)
    : res (GlobalLibTable.GlobalLibTable * Thread.Thread * FrameTable.InternalFrameLocation) :=
  match frame' with
  | InstructionPointer ip =>
      let '(g', l) := Process.convert_address pr g kernel ip in Ok (g', th, l)
  | ReturnAddress ra =>
      let '(g', l) := Process.convert_address pr g kernel (saturating_sub ra 1) in Ok (g', th, l)
  | AdjustedReturnAddress ara =>
      let '(g', l) := Process.convert_address pr g kernel ara in Ok (g', th, l)
  | RelativeAddressFromInstructionPointer lib relative_address =>
      let '(g', i) := GlobalLibTable.index_for_used_lib g lib in
      Ok (g', th, FrameTable.AddressInLib relative_address i)
  | RelativeAddressFromReturnAddress lib relative_address =>
      let '(g', i) := GlobalLibTable.index_for_used_lib g lib in
      Ok (g', th, FrameTable.AddressInLib (saturating_sub relative_address 1) i)
  | RelativeAddressFromAdjustedReturnAddress lib adjusted_relative_address =>
      let '(g', i) := GlobalLibTable.index_for_used_lib g lib in
      Ok (g', th, FrameTable.AddressInLib adjusted_relative_address i)
  | Label string_index =>
      '(th', thread_string_index) ← Thread.convert_string_index th strings string_index;
      Ok (g, th', FrameTable.Label thread_string_index)
  end.

(** The loop [for frame_info in frames]. *)
Fixpoint add_frames (pr : Process.Process) (kernel : LibMappings.LibMappings LibraryHandle)
    (strings : StringTable.StringTable) (frames : list FrameInfo)
    (g : GlobalLibTable.GlobalLibTable) (th : Thread.Thread) (prefix : option nat)
    : res (GlobalLibTable.GlobalLibTable * Thread.Thread * option nat) :=
  match frames with
  | [] => Ok (g, th, prefix)
  | frame_info :: frames' =>
      '(g1, th1, location) ← locate_frame pr kernel strings g th (frame frame_info);
      let internal_frame :=
        {| FrameTable.location := location; FrameTable.category_pair := category_pair frame_info;
           FrameTable.flags := flags frame_info |} in
      '(th2, g2, frame_index) ← Thread.frame_index_for_frame th1 internal_frame g1;
      let '(th3, stack) :=
        Thread.stack_index_for_stack th2 prefix frame_index (category_pair frame_info) in
      add_frames pr kernel strings frames' g2 th3 (Some stack)
  end.

Definition stack_index_for_frames (p : Profile) (thread : ThreadHandle) (frames : list FrameInfo)
    : res (Profile * option nat) :=
  th ← index (threads p) thread;
  pr ← index (processes p) (Thread.process th);
  '(g, th', stack) ← add_frames pr (kernel_libs p) (string_table p) frames (global_libs p) th None;
  threads' ← index_set (threads p) thread th';
  Ok (with_threads (with_libs p g (kernel_libs p)) threads' (used_tids p), stack).

Definition add_sample (p : Profile) (thread : ThreadHandle) (timestamp : Timestamp)
    (frames : list FrameInfo) (cpu_delta : CpuDelta) (weight : Z) : res Profile :=
  '(p', stack_index) ← stack_index_for_frames p thread frames;
  update_thread p' thread (λ th, Ok (Thread.add_sample th timestamp stack_index cpu_delta weight)).
Definition add_sample_same_stack_zero_cpu (p : Profile) (thread : ThreadHandle)
    (timestamp : Timestamp) (weight : Z) : res Profile :=
  update_thread p thread (λ th, Thread.add_sample_same_stack_zero_cpu th timestamp weight).

(** The sample goes to the first thread of the thread's process. *)
Definition add_allocation_sample (p : Profile) (thread : ThreadHandle) (timestamp : Timestamp)
    (frames : list FrameInfo) (allocation_address allocation_size : Z) : res Profile :=
  th ← index (threads p) thread;
  pr ← index (processes p) (Thread.process th);
  allocation_thread ← unwrap (Process.thread_handle_for_allocations pr);
  '(p', stack_index) ← stack_index_for_frames p allocation_thread frames;
  update_thread p' allocation_thread
    (λ th, Ok (Thread.add_allocation_sample th timestamp stack_index allocation_address
                 allocation_size)).

(** ** Markers *)
Definition register_marker_type (p : Profile) (schema : Schema.MarkerSchema)
    : Profile * MarkerTypeHandle :=
  let handle := length (marker_schemas p) in
  (with_schemas p (string_table p) (push (marker_schemas p) (Schema.from_schema schema))
     (static_schema_marker_types p), handle).

(** The associated constant and function of a [StaticSchemaMarker] type. *)
Record StaticSchema := { UNIQUE_MARKER_TYPE_NAME : string; schema : Schema.MarkerSchema }.
Definition static_schema_marker_type (p : Profile) (t : StaticSchema)
    : Profile * MarkerTypeHandle :=
  match static_schema_marker_types p !! UNIQUE_MARKER_TYPE_NAME t with
  | Some handle => (p, handle)
  | None =>
      let handle := length (marker_schemas p) in
      (with_schemas p (string_table p) (push (marker_schemas p) (Schema.from_schema (schema t)))
         (<[UNIQUE_MARKER_TYPE_NAME t := handle]> (static_schema_marker_types p)), handle)
  end.

(** The methods of a [Marker] that get the profile, besides its field values. *)
Record Marker := {
  marker_type : Profile → Profile * MarkerTypeHandle;
  marker_name : Profile → Profile * StringHandle;
  marker_category : Profile → Profile * CategoryHandle;
  marker_fields : Schema.Marker
}.

Definition add_marker (p : Profile) (thread : ThreadHandle) (timing : Schema.MarkerTiming)
    (marker : Marker) : res (Profile * MarkerHandle) :=
  let '(p1, marker_type') := marker_type marker p in
  let '(p2, name) := marker_name marker p1 in
  let '(p3, category) := marker_category marker p2 in
  th ← index (threads p3) thread;
  '(th1, name_thread_string_index) ← Thread.convert_string_index th (string_table p3) name;
  schema' ← index (marker_schemas p3) marker_type';
  '(th2, handle) ← Thread.add_marker th1 name_thread_string_index marker_type' schema'
                     (marker_fields marker) timing category (string_table p3);
  threads' ← index_set (threads p3) thread th2;
  Ok (with_threads p3 threads' (used_tids p3), handle).

Definition set_marker_stack (p : Profile) (thread : ThreadHandle) (marker : MarkerHandle)
    (stack_frames : list FrameInfo) : res Profile :=
  '(p', stack_index) ← stack_index_for_frames p thread stack_frames;
  update_thread p' thread (λ th, Thread.set_marker_stack th marker stack_index).

Definition add_counter_sample (p : Profile) (counter : CounterHandle) (timestamp : Timestamp)
    (value_delta : f64) (number_of_operations_delta : Z) : res Profile :=
  c ← index (counters p) counter;
  counters' ← index_set (counters p) counter
                (Counter.add_sample c timestamp value_delta number_of_operations_delta);
  Ok (with_counters p counters').

(** ** Serialization *)
Definition process_le (p : Profile) := sort_handles Process.cmp_for_json_order (processes p).
Definition thread_le (p : Profile) := sort_handles Thread.cmp_for_json_order (threads p).

(** The loop [for process in sorted_processes]. *)
Fixpoint sorted_threads_loop (p : Profile) (sorted_processes : list ProcessHandle)
    (sorted_threads : list ThreadHandle) (first_thread_index_per_process : list nat)
    : res (list ThreadHandle * list nat) :=
  match sorted_processes with
  | [] => Ok (sorted_threads, first_thread_index_per_process)
  | process :: rest =>
      let prev_len := length sorted_threads in
      firsts ← index_set first_thread_index_per_process process prev_len;
      pr ← index (processes p) process;
      sorted_threads_for_this_process ← thread_le p (Process.threads pr);
      sorted_threads_loop p rest (sorted_threads ++ sorted_threads_for_this_process) firsts
  end.
Definition sorted_threads (p : Profile) : res (list ThreadHandle * list nat) :=
  let first_thread_index_per_process := replicate (length (processes p)) 0%nat in
  sorted_processes ← process_le p (seq 0 (length (processes p)));
  sorted_threads_loop p sorted_processes [] first_thread_index_per_process.

Definition contains_js_function (p : Profile) : bool :=
  existsb Thread.contains_js_function (threads p).

Section serialize.
Context `{UnstableSort} `{Schema.DerivedSerialize}.

Definition interval_ms (p : Profile) : f64 :=
  f64_mul (f64_div (f64_of_Z (interval p)) (f64_of_Z 1000000000)) (f64_of_Z 1000).

Definition serialize_meta (p : Profile) : json :=
  let schemas := stable_sort
    (λ a b, match String.compare (Schema.type_name a) (Schema.type_name b) with
            | Gt => false | _ => true end) (marker_schemas p) in
  JObj ([("categories", serialize (categories p));
         ("debug", JBool false);
         ("extensions", JObj [("length", JInt 0); ("baseURL", JArr []); ("id", JArr []);
                              ("name", JArr [])]);
         ("interval", JFloat (interval_ms p));
         ("preprocessedProfileVersion", JInt 49);
         ("processType", JInt 0);
         ("product", JString (product p))] ++
        match os_name p with Some os_name => [("oscpu", JString os_name)] | None => [] end ++
        [("sampleUnits", JObj [("time", JString "ms"); ("eventDelay", JString "ms");
                               ("threadCPUDelta", JString "µs")]);
         ("startTime", JFloat (reference_timestamp p));
         ("symbolicated", JBool false);
         ("pausedRanges", JArr []);
         ("version", JInt 24);
         ("usesOnlyOneStackType", JBool (negb (contains_js_function p)));
         ("doesNotUseFrameImplementation", JBool true);
         ("sourceCodeIsNotOnSearchfox", JBool true);
         ("markerSchema", serialize schemas)]).

Definition serialize_thread (p : Profile) (thread : ThreadHandle) : res json :=
  th ← index (threads p) thread;
  pr ← index (processes p) (Thread.process th);
  Thread.serialize_with th (categories p) (Process.start_time pr) (Process.end_time pr)
    (Process.name pr) (Process.pid pr) (marker_schemas p) (string_table p).

Definition serialize_counter (first_thread_index_per_process : list nat) (c : Counter.Counter)
    : res json :=
  main_thread_index ← index first_thread_index_per_process (Counter.process c);
  Ok (Counter.serialize_counter c main_thread_index).

Definition serialize_profile (p : Profile) : res json :=
  '(sorted_threads', first_thread_index_per_process) ← sorted_threads p;
  libs ← GlobalLibTable.serialize_global_lib_table (global_libs p);
  threads' ← mapM (serialize_thread p) sorted_threads';
  counters' ← mapM (serialize_counter first_thread_index_per_process) (counters p);
  Ok (JObj [("meta", serialize_meta p);
            ("libs", libs);
            ("threads", JArr threads');
            ("pages", JArr []);
            ("profilerOverhead", JArr []);
            ("counters", JArr counters')]).
End serialize.
End profile.
End Profile.
