(* ===== verification/ProfileOrder.v ===== *)
(** What a profile hands out and in which order it is written: the process and
    thread ids of [Profile::make_unique_pid_or_tid] and the thread order of
    [Profile::sorted_threads] (fxprof-processed-profile/src/profile.rs). *)
From S2P Require Import Prelude Types LibTable Samples ThreadModel ProfileModel.
From stdpp Require Import options.
Open Scope Z_scope.

Module UniqueIds.
Import Profile.

(** The ids a sequence of requests gets. *)
Fixpoint make_ids (ids : list Z) (map : gmap Z Z) : gmap Z Z * list string :=
  match ids with
  | [] => (map, [])
  | id :: ids' =>
      let '(map1, s) := make_unique_pid_or_tid map id in
      let '(map2, l) := make_ids ids' map1 in
      (map2, s :: l)
  end.

(** * Printed numbers contain no dot *)
Fixpoint no_dot (s : string) : Prop :=
  match s with EmptyString => True | String c s' => c ≠ "."%char ∧ no_dot s' end.

Lemma pretty_N_char_no_dot x : pretty_N_char x ≠ "."%char.
Proof. unfold pretty_N_char. by repeat case_match. Qed.

Lemma pretty_N_go_no_dot x s : no_dot s → no_dot (pretty_N_go x s).
Proof.
  revert s. induction (N.lt_wf_0 x) as [x _ IH]. intros s Hs.
  destruct (decide (0 < x)%N) as [Hx|Hx].
  - rewrite pretty_N_go_step by done. apply IH; [by apply N.div_lt|].
    split; [apply pretty_N_char_no_dot|done].
  - by assert (x = 0%N) as -> by lia.
Qed.

Lemma dec_string_no_dot z : 0 ≤ z → no_dot (dec_string z).
Proof.
  intros Hz. unfold dec_string, pretty, pretty_Z. destruct z as [|p|p]; [by vm_compute| |lia].
  change (no_dot (pretty_N (N.pos p))). unfold pretty_N. case_decide; [done|].
  by apply pretty_N_go_no_dot.
Qed.

Lemma append_dot_inj s s' t t' :
  no_dot s → no_dot s' → s +:+ "." +:+ t = s' +:+ "." +:+ t' → s = s' ∧ t = t'.
Proof.
  revert s'. induction s as [|c s IH]; intros [|c' s']; simpl.
  - intros _ _ Heq. injection Heq as Heq. split; [done|exact Heq].
  - intros _ [Hc _] Heq. injection Heq as Heq _. by destruct Hc.
  - intros [Hc _] _ Heq. injection Heq as Heq _. by destruct Hc.
  - intros [_ Hs] [_ Hs'] Heq. injection Heq as -> Heq.
    destruct (IH s' Hs Hs' Heq) as [-> ->]. done.
Qed.

Lemma no_dot_append s t : ¬ no_dot (s +:+ "." +:+ t).
Proof. induction s as [|c s IH]; simpl; [by intros [? _]|by intros [_ ?]]. Qed.

(** An id and how often it was asked for before. *)
Definition render (p : Z * nat) : string :=
  match p.2 with
  | O => dec_string p.1
  | S k => dec_string p.1 +:+ "." +:+ dec_string (Z.of_nat (S k))
  end.

Lemma dec_string_inj a b : dec_string a = dec_string b → a = b.
Proof. intros H. by apply (inj (pretty (A := Z))). Qed.

Lemma render_inj p q : 0 ≤ p.1 → 0 ≤ q.1 → render p = render q → p = q.
Proof.
  destruct p as [a [|k]], q as [b [|l]]; unfold render; simpl fst; simpl snd; intros Ha Hb Heq.
  - by apply dec_string_inj in Heq as ->.
  - exfalso. eapply no_dot_append. rewrite <-Heq. by apply dec_string_no_dot.
  - exfalso. eapply no_dot_append. rewrite Heq. by apply dec_string_no_dot.
  - apply append_dot_inj in Heq as [->%dec_string_inj H2%dec_string_inj]; [|by apply dec_string_no_dot..].
    f_equal. lia.
Qed.

(** The map counts the requests. *)
Definition counts (seen : list Z) (map : gmap Z Z) : Prop :=
  ∀ id, map !! id = match length (filter (λ x, x = id) seen) with
                    | O => None | S k => Some (Z.of_nat (S k)) end.

(** The pairs behind the ids. *)
Fixpoint occurrences (seen ids : list Z) : list (Z * nat) :=
  match ids with
  | [] => []
  | id :: ids' => (id, length (filter (λ x, x = id) seen)) :: occurrences (seen ++ [id]) ids'
  end.

Lemma make_ids_render seen ids map :
  counts seen map → Z.of_nat (length seen + length ids) < 2 ^ 32 →
  (make_ids ids map).2 = render <$> occurrences seen ids.
Proof.
  revert seen map. induction ids as [|id ids IH]; intros seen map Hc Hlen; simpl; [done|].
  assert (length (filter (λ x, x = id) seen) ≤ length seen)%nat as Hle by apply length_filter.
  assert (counts (seen ++ [id]) (make_unique_pid_or_tid map id).1 ∧
    (make_unique_pid_or_tid map id).2 = render (id, length (filter (λ x, x = id) seen))) as [Hc' Hs].
  { unfold make_unique_pid_or_tid, render. simpl fst; simpl snd.
    pose proof (Hc id) as Hid. destruct (length (filter (λ x, x = id) seen)) as [|k] eqn:E; rewrite Hid.
    - split; [|done]. intros id'. rewrite filter_app, length_app. simpl.
      destruct (decide (id = id')) as [<-|Hne].
      + rewrite lookup_insert_eq, E, filter_cons_True by done. done.
      + rewrite lookup_insert_ne, filter_cons_False, filter_nil, Nat.add_0_r by done. apply Hc.
    - split; [|done]. intros id'. rewrite filter_app, length_app. simpl fst.
      destruct (decide (id = id')) as [<-|Hne].
      + rewrite lookup_insert_eq, E, filter_cons_True by done. simpl. f_equal.
        simpl in Hlen. rewrite add_u32_id by lia. lia.
      + rewrite lookup_insert_ne, filter_cons_False, filter_nil, Nat.add_0_r by done. apply Hc. }
  destruct (make_unique_pid_or_tid map id) as [map1 s]. simpl in *.
  specialize (IH (seen ++ [id]) map1 Hc'). destruct (make_ids ids map1) as [map2 l]. simpl in *.
  rewrite length_app in IH. simpl in IH. rewrite IH by lia. by rewrite Hs.
Qed.

Lemma occurrences_ge seen ids id k :
  (id, k) ∈ occurrences seen ids → id ∈ ids ∧ (length (filter (λ x, x = id) seen) ≤ k)%nat.
Proof.
  revert seen. induction ids as [|x ids IH]; intros seen; simpl; [by intros ?%elem_of_nil|].
  rewrite elem_of_cons. intros [[= -> ->]|Hin]; [split; [by left|lia]|].
  apply IH in Hin as [? Hle]. rewrite filter_app, length_app in Hle. split; [by right|lia].
Qed.

Lemma occurrences_NoDup seen ids : NoDup (occurrences seen ids).
Proof.
  revert seen. induction ids as [|x ids IH]; intros seen; simpl; constructor; [|apply IH].
  intros [_ Hle]%occurrences_ge. rewrite filter_app, length_app, filter_cons_True in Hle by done.
  simpl in Hle. lia.
Qed.

(** * Properties *)

(** C29: All process ids (and likewise all thread ids) a profile hands out are
    different, however often one id is asked for: the first gets its plain
    number, a later one the number with the count of the earlier ones behind a
    dot, and no two such strings collide. *)
Theorem make_ids_unique (ids : list Z) :
  (∀ id, id ∈ ids → u32_range id) → Z.of_nat (length ids) < 2 ^ 32 →
  length (make_ids ids ∅).2 = length ids ∧ NoDup (make_ids ids ∅).2.
Proof.
  intros Hids Hlen. rewrite (make_ids_render [] ids ∅) by done. split.
  - rewrite length_fmap. generalize (@nil Z). clear. induction ids; intros s; simpl; [done|]. by f_equal.
  - apply NoDup_fmap_2_strong; [|apply occurrences_NoDup].
    intros [a k] [b l] [Ha _]%occurrences_ge [Hb _]%occurrences_ge. apply render_inj; simpl.
    + by apply Hids in Ha as [? _].
    + by apply Hids in Hb as [? _].
Qed.

Example make_ids_unique_witness :
  (make_ids [7; 7; 12; 7] ∅).2 = ["7"; "7.1"; "12"; "7.2"] ∧ NoDup (make_ids [7; 7; 12; 7] ∅).2.
Proof.
  split; [by vm_compute|]. apply (make_ids_unique [7; 7; 12; 7]); [|simpl; lia].
  intros id. rewrite !elem_of_cons, elem_of_nil. unfold u32_range. lia.
Defined.
End UniqueIds.

(** * Comparison functions that are total preorders *)
Class TotalCompare {A} (cmp : A → A → comparison) := {
  cmp_opp a b : cmp b a = CompOpp (cmp a b);
  cmp_eq_l a b c : cmp a b = Eq → cmp a c = cmp b c;
  cmp_lt_trans a b c : cmp a b = Lt → cmp b c = Lt → cmp a c = Lt
}.

#[export] Instance Z_total_compare : TotalCompare Z.compare.
Proof.
  split.
  - intros a b. apply Z.compare_antisym.
  - by intros a b c ->%Z.compare_eq.
  - intros a b c. rewrite !Z.compare_lt_iff. lia.
Qed.

Lemma string_compare_le a b : String.compare a b ≠ Gt ↔ (a ≤ b)%string.
Proof.
  unfold String.le, String.leb. rewrite Is_true_true. destruct (String.compare a b); naive_solver.
Qed.
Lemma string_compare_eq a b : String.compare a b = Eq → a = b.
Proof.
  intros H. apply (anti_symm String.le); apply string_compare_le; [by rewrite H|].
  by rewrite String.compare_antisym, H.
Qed.
Lemma string_compare_refl a : String.compare a a = Eq.
Proof. pose proof (String.compare_antisym a a) as H. by destruct (String.compare a a). Qed.

#[export] Instance String_total_compare : TotalCompare String.compare.
Proof.
  split.
  - intros a b. apply String.compare_antisym.
  - by intros a b c ->%string_compare_eq.
  - intros a b c Hab Hbc. destruct (String.compare a c) eqn:E; [| done|].
    + apply string_compare_eq in E as ->. rewrite String.compare_antisym, Hbc in Hab. done.
    + assert (String.compare a c ≠ Gt) as Hle; [|congruence].
      apply string_compare_le. trans b; apply string_compare_le; congruence.
Qed.

#[export] Instance bool_total_compare : TotalCompare bool_compare.
Proof. split; [by intros [] []|by intros [] [] []|by intros [] [] []]. Qed.

#[export] Instance option_string_total_compare : TotalCompare option_string_compare.
Proof.
  split.
  - intros [a|] [b|]; simpl; [apply cmp_opp|done..].
  - intros [a|] [b|] [c|]; simpl; try done. apply cmp_eq_l.
  - intros [a|] [b|] [c|]; simpl; try done. apply cmp_lt_trans.
Qed.

(** Comparing by a key, and lexicographically. *)
Lemma key_total_compare {A B} (f : A → B) cmp :
  TotalCompare cmp → TotalCompare (λ a b, cmp (f a) (f b)).
Proof.
  intros Hc. split; intros; [apply cmp_opp|by apply cmp_eq_l|by eapply cmp_lt_trans].
Qed.
Lemma then_total_compare {A} (c d : A → A → comparison) :
  TotalCompare c → TotalCompare d → TotalCompare (λ a b, then_with (c a b) (d a b)).
Proof.
  intros Hc Hd. split.
  - intros x y. rewrite (cmp_opp (cmp := c) x y), (cmp_opp (cmp := d) x y). by destruct (c x y).
  - intros x y z. destruct (c x y) eqn:E; simpl; [|done..]. intros Hxy.
    rewrite (cmp_eq_l (cmp := c) x y z) by done. by rewrite (cmp_eq_l (cmp := d) x y z).
  - intros x y z. destruct (c x y) eqn:E; simpl; [| |done].
    + rewrite (cmp_eq_l (cmp := c) x y z) by done. destruct (c y z); simpl; [|done..].
      intros. by apply (cmp_lt_trans (cmp := d) x y z).
    + intros _. destruct (c y z) eqn:E'; simpl; [| |done].
      * intros _. pose proof (cmp_eq_l (cmp := c) y z x E') as Heq.
        by rewrite (cmp_opp (cmp := c) z x), <-Heq, (cmp_opp (cmp := c) x y), E.
      * intros _. by rewrite (cmp_lt_trans (cmp := c) x y z).
Qed.

#[export] Instance process_total_compare `{DebugIdType} : TotalCompare Process.cmp_for_json_order.
Proof.
  apply (then_total_compare (λ a b, (_ ?= _)%Z) (λ a b, String.compare _ _)).
  - apply (key_total_compare (λ a, nanos (Process.start_time a)) Z.compare _).
  - apply (key_total_compare Process.pid String.compare _).
Qed.
#[export] Instance thread_total_compare `{DebugIdType} : TotalCompare Thread.cmp_for_json_order.
Proof.
  apply (then_total_compare (λ a b, bool_compare _ _) (λ a b, then_with _ _)).
  { apply (key_total_compare (λ a, negb (Thread.is_main a)) bool_compare _). }
  apply (then_total_compare (λ a b, (_ ?= _)%Z) (λ a b, then_with _ _)).
  { apply (key_total_compare (λ a, nanos (Thread.start_time a)) Z.compare _). }
  apply (then_total_compare (λ a b, option_string_compare _ _) (λ a b, String.compare _ _)).
  - apply (key_total_compare Thread.name option_string_compare _).
  - apply (key_total_compare Thread.tid String.compare _).
Qed.

(** * Sorting handles *)
Definition handle_le {A} (cmp : A → A → comparison) (table : list A) (i j : nat) : Prop :=
  ∃ a b, table !! i = Some a ∧ table !! j = Some b ∧ cmp a b ≠ Gt.

Lemma mapM_index_some {A} (table : list A) (l : list nat) :
  Forall (λ i, (i < length table)%nat) l → is_Ok (mapM (index table) l).
Proof.
  induction 1 as [|i l Hi _ [x IH]]; simpl; [by eexists|].
  destruct (index_lt _ _ Hi) as [a Ha]. rewrite Ha. simpl. rewrite IH. simpl. by eexists.
Qed.

Lemma sort_handles_spec {A} (cmp : A → A → comparison) `{!TotalCompare cmp} (table : list A)
    (handles : list nat) :
  Forall (λ i, (i < length table)%nat) handles →
  ∃ l, sort_handles cmp table handles = Ok l ∧ l ≡ₚ handles ∧
    StronglySorted (handle_le cmp table) l.
Proof.
  intros Hlt. unfold sort_handles.
  destruct handles as [|i [|j handles]]; [by exists []; repeat constructor|
    by exists [i]; repeat constructor|].
  destruct (mapM_index_some _ _ Hlt) as [x Hx]. rewrite Hx. cbn [mbind res_bind].
  set (le := λ i j : nat, match table !! i, table !! j with
    | Some a, Some b => match cmp a b with Gt => false | _ => true end | _, _ => true end).
  set (hs := i :: j :: handles) in *. exists (stable_sort le hs).
  split_and!; [done|apply stable_sort_permutation|].
  clearbody hs. clear i j handles Hx x.
  (* restricted to the handles in the table, the order is total and transitive *)
  induction Hlt as [|h hs Hh Hlt IH]; simpl; [constructor|].
  assert (Forall (λ i, (i < length table)%nat) (stable_sort le hs)) as Hlt'
    by by rewrite stable_sort_permutation.
  revert IH Hlt'. generalize (stable_sort le hs). clear Hlt hs. intros l Hs Hl.
  destruct (lookup_lt_is_Some_2 _ _ Hh) as [a Ha].
  induction Hs as [|k l Hs IH Hk]; simpl; [by repeat constructor|].
  apply Forall_cons in Hl as [Hkl Hl].
  destruct (lookup_lt_is_Some_2 _ _ Hkl) as [b Hb].
  assert (le h k = match cmp a b with Gt => false | _ => true end) as Hle
    by (unfold le; by rewrite Ha, Hb).
  destruct (le h k) eqn:E.
  - assert (handle_le cmp table h k) as Hhk
      by (exists a, b; split_and!; [done..|by destruct (cmp a b)]).
    constructor; [by constructor|]. constructor; [done|].
    eapply Forall_impl; [exact Hk|]. simpl. intros m (b' & c & Hb' & Hc & Hbc).
    assert (b' = b) as -> by congruence. exists a, c. split_and!; [done..|].
    destruct Hhk as (? & ? & Ha' & Hb'' & Hab).
    assert (cmp a b ≠ Gt) as Hab' by congruence.
    destruct (cmp a b) eqn:E1; [by rewrite (cmp_eq_l (cmp := cmp) a b c)| |done].
    destruct (cmp b c) eqn:E2; [| |done].
    + by rewrite (cmp_opp (cmp := cmp) c a), <-(cmp_eq_l (cmp := cmp) b c a E2),
        (cmp_opp (cmp := cmp) a b), E1.
    + by rewrite (cmp_lt_trans (cmp := cmp) a b c).
  - constructor; [by apply IH|]. rewrite insert_sorted_permutation. constructor; [|done].
    exists b, a. split_and!; [done..|]. rewrite (cmp_opp (cmp := cmp) a b). by destruct (cmp a b).
Qed.

Module ThreadOrder.
Import Profile.
Section thread_order.
Context {D : DebugIdType}.

(** Every thread belongs to exactly one process, which lists it once. *)
Definition owned (p : Profile) : Prop :=
  concat (Process.threads <$> processes p) ≡ₚ seq 0 (length (threads p)).

Lemma owned_valid p i pr :
  owned p → processes p !! i = Some pr →
  Forall (λ h, (h < length (threads p))%nat) (Process.threads pr).
Proof.
  intros Ho Hi. apply Forall_forall. intros h Hh.
  assert (h ∈ concat (Process.threads <$> processes p)) as Hin.
  { apply elem_of_concat. exists (Process.threads pr). split; [done|].
    apply list_elem_of_fmap. exists pr. split; [done|]. apply list_elem_of_lookup. eauto. }
  unfold owned in Ho. rewrite Ho in Hin. apply elem_of_seq in Hin. lia.
Qed.

(** The threads of one process, as they are written. *)
Definition is_group (p : Profile) (i : ProcessHandle) (group : list ThreadHandle) : Prop :=
  ∃ pr, processes p !! i = Some pr ∧ group ≡ₚ Process.threads pr ∧
    StronglySorted (handle_le Thread.cmp_for_json_order (threads p)) group.

Lemma sorted_threads_loop_spec p order acc firsts :
  owned p → Forall (λ i, (i < length (processes p))%nat) order → NoDup order →
  length firsts = length (processes p) →
  ∃ groups firsts', sorted_threads_loop p order acc firsts = Ok (acc ++ concat groups, firsts') ∧
    Forall2 (is_group p) order groups ∧ length firsts' = length (processes p) ∧
    (∀ i, i ∉ order → firsts' !! i = firsts !! i) ∧
    (∀ k i, order !! k = Some i →
       firsts' !! i = Some (length acc + length (concat (take k groups)))%nat).
Proof.
  intros Ho. revert acc firsts. induction order as [|i order IH]; intros acc firsts Hlt Hnd Hlen; simpl.
  { exists [], firsts. rewrite app_nil_r. split_and!; try done. }
  apply Forall_cons in Hlt as [Hi Hlt]. apply NoDup_cons in Hnd as [Hni Hnd].
  destruct (lookup_lt_is_Some_2 _ _ Hi) as [pr Hpr].
  unfold index_set. rewrite Hlen, decide_True by done. simpl.
  rewrite (proj2 (index_Ok _ _ _) Hpr). simpl.
  destruct (sort_handles_spec Thread.cmp_for_json_order (threads p) (Process.threads pr))
    as (group & Hg & Hperm & Hsorted); [by eapply owned_valid|].
  unfold thread_le. rewrite Hg. simpl.
  destruct (IH (acc ++ group) (<[i := length acc]> firsts)) as (groups & firsts' & Heq & HF & Hl & Hout & Hk);
    [done..|by rewrite length_insert|].
  unfold index_set, thread_le in Heq. rewrite Heq.
  exists (group :: groups), firsts'. simpl. rewrite app_assoc. split_and!; [done| |done| |].
  - constructor; [|done]. by exists pr.
  - intros j [Hji Hj]%not_elem_of_cons. rewrite Hout by done. by rewrite list_lookup_insert_ne.
  - intros [|k] j; simpl.
    + intros [= <-]. rewrite Hout by done. rewrite list_lookup_insert_eq by lia. f_equal. lia.
    + intros Hj. rewrite (Hk k j Hj), !length_app. f_equal. lia.
Qed.

Lemma groups_permutation p order groups :
  Forall2 (is_group p) order groups →
  concat groups ≡ₚ concat (omap (λ i, Process.threads <$> processes p !! i) order).
Proof.
  induction 1 as [|i g order groups (pr & Hpr & Hg & _) _ IH]; simpl; [done|].
  rewrite Hpr. simpl. by rewrite Hg, IH.
Qed.

Lemma omap_lookup_seq {A B} (f : A → B) (l : list A) :
  omap (λ i, f <$> l !! i) (seq 0 (length l)) = f <$> l.
Proof.
  assert (∀ k l', drop k l = l' → omap (λ i, f <$> l !! i) (seq k (length l')) = f <$> l') as H;
    [|by apply H].
  intros k l'. revert k. induction l' as [|x l' IH]; intros k Hk; simpl; [done|].
  apply SampleTable.drop_cons in Hk as [Hx Hk]. rewrite Hx. simpl. f_equal. by apply IH.
Qed.

Lemma concat_permutation {A} (l k : list (list A)) : l ≡ₚ k → concat l ≡ₚ concat k.
Proof.
  induction 1; simpl; [done|by f_equiv| |by etrans].
  rewrite !(assoc_L (++)). f_equiv. apply Permutation_app_comm.
Qed.
End thread_order.

(** When every thread belongs to one process, [sorted_threads] does not panic
    and lists every thread exactly once: the processes in their order (start
    time, then pid), and the threads of each process together, in their order
    (the main thread first, then by start time, name and tid). The index it
    records for a process is the position at which its threads begin. *)
Theorem sorted_threads_grouped `{DebugIdType} (p : Profile) :
  owned p →
  ∃ l firsts order groups, sorted_threads p = Ok (l, firsts) ∧
    l ≡ₚ seq 0 (length (threads p)) ∧
    order ≡ₚ seq 0 (length (processes p)) ∧
    StronglySorted (handle_le Process.cmp_for_json_order (processes p)) order ∧
    l = concat groups ∧ Forall2 (is_group p) order groups ∧
    (∀ k i, order !! k = Some i → firsts !! i = Some (length (concat (take k groups)))).
Proof.
  intros Ho. unfold sorted_threads, process_le.
  assert (Forall (λ i, (i < length (processes p))%nat) (seq 0 (length (processes p)))) as Hlt
    by (apply Forall_forall; intros i; rewrite elem_of_seq; lia).
  destruct (sort_handles_spec Process.cmp_for_json_order (processes p) _ Hlt)
    as (order & -> & Hperm & Hsorted). cbn [mbind res_bind].
  destruct (sorted_threads_loop_spec p order [] (replicate (length (processes p)) 0%nat) Ho)
    as (groups & firsts & -> & HF & _ & _ & Hk).
  - by rewrite Hperm.
  - rewrite Hperm. apply NoDup_seq.
  - apply length_replicate.
  - exists (concat groups), firsts, order, groups. split_and!; try done.
    rewrite (groups_permutation p order groups HF).
    etrans; [|exact Ho]. apply concat_permutation. rewrite Hperm. by rewrite omap_lookup_seq.
Qed.

#[local] Existing Instance string_debug_ids.
#[local] Definition example_profile : res Profile :=
  let p := new "example" (f64_of_Z 0) 1000000 in
  let '(p, a) := add_process p "a" 10 {| nanos := 5 |} in
  let '(p, b) := add_process p "b" 11 {| nanos := 3 |} in
  '(p, _) ← add_thread p a 10 {| nanos := 5 |} true;
  '(p, _) ← add_thread p b 12 {| nanos := 4 |} false;
  '(p, _) ← add_thread p b 11 {| nanos := 4 |} true;
  Ok p.

Example sorted_threads_grouped_witness :
  ∃ p l firsts, example_profile = Ok p ∧ sorted_threads p = Ok (l, firsts) ∧
    l = [2; 1; 0]%nat ∧ firsts = [2; 0]%nat.
Proof.
  destruct example_profile as [p|] eqn:E; [|by vm_compute in E].
  assert (owned p) as Ho by (vm_compute in E; injection E as <-; by vm_compute; solve_Permutation).
  destruct (sorted_threads_grouped p Ho) as (l & firsts & _ & _ & H & _).
  exists p, l, firsts. split_and!; [done..| |].
  - vm_compute in E. injection E as <-. vm_compute in H. by injection H as <- _.
  - vm_compute in E. injection E as <-. vm_compute in H. by injection H as _ <-.
Defined.
End ThreadOrder.
