(* ===== verification/ProfileSafety.v ===== *)
(** A profile is safe to use: no sequence of API calls that passes handles the
    profile gave out panics, writing the profile never panics, and the stacks of
    the samples are the frames that were passed in
    (fxprof-processed-profile/src/profile.rs). *)
From S2P Require Import Prelude BTree Types LibMappings StringTables SymbolTable LibTable.
From S2P Require Import FrameTables StackTable Samples Markers ThreadModel ThreadSafety.
From S2P Require Import ProfileModel ProfileOrder.
From stdpp Require Import options.
Open Scope Z_scope.

Module ProfileSafety.
Import ThreadSafety Profile.
Section profile_safety.
Context {D : DebugIdType}.

(** * The loop over the frames of a stack *)

(** What a caller may pass as a frame. *)
Definition frame_info_valid (nlibs cats : nat) (strings : StringTable.StringTable) (f : FrameInfo)
    : Prop :=
  category_ok cats (category_pair f) ∧
  match frame f with
  | InstructionPointer _ | ReturnAddress _ | AdjustedReturnAddress _ => True
  | RelativeAddressFromInstructionPointer lib _ | RelativeAddressFromReturnAddress lib _
  | RelativeAddressFromAdjustedReturnAddress lib _ => (lib < nlibs)%nat
  | Label s => is_Some (StringTable.get_string strings s)
  end.

(** All libraries of a map exist. *)
Definition mappings_ok (nlibs : nat) (m : LibMappings.LibMappings LibraryHandle) : Prop :=
  LibMappings.wf m ∧ ∀ k mp, (k, mp) ∈ m → (LibMappings.value mp < nlibs)%nat.

Lemma convert_address_lib nlibs m a r lib :
  mappings_ok nlibs m → LibMappings.convert_address m a = Some (r, lib) → (lib < nlibs)%nat.
Proof.
  intros [Hwf Hlibs] Hc. unfold LibMappings.convert_address in Hc.
  destruct (LibMappings.lookup_impl m a) as [mp|] eqn:E; [|done]. simpl in Hc.
  apply LibMappings.lookup_impl_Some in E as [Hin _]; [|done].
  apply Hlibs in Hin. congruence.
Qed.

(** The specification of the resolution of one frame, against the final tables. *)
Definition address_location (pr : Process.Process) (kernel : LibMappings.LibMappings LibraryHandle)
    (g : GlobalLibTable.GlobalLibTable) (a : Z) (l : FrameTable.InternalFrameLocation) : Prop :=
  match LibMappings.convert_address kernel a, LibMappings.convert_address (Process.libs pr) a with
  | Some (r, lib), _ | None, Some (r, lib) =>
      ∃ i, l = FrameTable.AddressInLib r i ∧ GlobalLibTable.used_libs g !! i = Some lib
  | None, None => l = FrameTable.UnknownAddress a
  end.
Definition lib_location (g : GlobalLibTable.GlobalLibTable) (lib : LibraryHandle) (a : Z)
    (l : FrameTable.InternalFrameLocation) : Prop :=
  ∃ i, l = FrameTable.AddressInLib a i ∧ GlobalLibTable.used_libs g !! i = Some lib.
Definition resolves_to (pr : Process.Process) (kernel : LibMappings.LibMappings LibraryHandle)
    (strings : StringTable.StringTable) (g : GlobalLibTable.GlobalLibTable)
    (st : ThreadStringTable.ThreadStringTable) (f : Frame) (l : FrameTable.InternalFrameLocation)
    : Prop :=
  match f with
  | InstructionPointer a | AdjustedReturnAddress a => address_location pr kernel g a l
  | ReturnAddress a => address_location pr kernel g (Z.max 0 (a - 1)) l
  | RelativeAddressFromInstructionPointer lib a
  | RelativeAddressFromAdjustedReturnAddress lib a => lib_location g lib a l
  | RelativeAddressFromReturnAddress lib a => lib_location g lib (Z.max 0 (a - 1)) l
  | Label s => ∃ i, l = FrameTable.Label i ∧
      ThreadStringTable.get_string st i = StringTable.get_string strings s
  end.

Lemma resolves_to_mono pr kernel strings g g' st st' f l :
  GlobalLibTable.used_libs g `prefix_of` GlobalLibTable.used_libs g' →
  ThreadStringTable.extends st st' →
  (∀ s, f = Label s → is_Some (StringTable.get_string strings s)) →
  resolves_to pr kernel strings g st f l → resolves_to pr kernel strings g' st' f l.
Proof.
  intros Hg Hst Hs. unfold resolves_to, address_location, lib_location.
  destruct f; repeat case_match; try done.
  all: try (intros (i & ? & ?); exists i; split; [done|by eapply prefix_lookup_Some]).
  intros (i & ? & Heq). exists i. split; [done|]. destruct (Hs _ eq_refl) as [s Hs'].
  rewrite Hs' in *. by eapply StringTable.get_string_extends.
Qed.

(** ** Using a library *)
Lemma use_lib_ok e lib :
  env_wf e → (lib < length (GlobalLibTable.all_libs (e_libs e)))%nat →
  let '(g, i) := GlobalLibTable.index_for_used_lib (e_libs e) lib in
  env_wf (ThreadSafety.with_libs e g) ∧ env_le e (ThreadSafety.with_libs e g) ∧
  GlobalLibTable.used_libs (e_libs e) `prefix_of` GlobalLibTable.used_libs g ∧
  GlobalLibTable.all_libs g = GlobalLibTable.all_libs (e_libs e) ∧
  GlobalLibTable.used_libs g !! i = Some lib.
Proof.
  intros [Hs [keys Hl] Hb Hsc] Hlib.
  destruct (GlobalLibTable.index_for_used_lib_wf keys (e_libs e) lib Hl Hlib)
    as (Hl' & Hi & Hpre & Hall).
  assert (∀ i a, a ∈ default ∅ (GlobalLibTable.used_libs_seen_rvas (e_libs e) !! i) →
    a ∈ default ∅ (GlobalLibTable.used_libs_seen_rvas
      (GlobalLibTable.index_for_used_lib (e_libs e) lib).1 !! i)) as Hseen.
  { intros i a. unfold GlobalLibTable.index_for_used_lib.
    destruct (GlobalLibTable.used_lib_map (e_libs e) !! lib); simpl; [done|].
    destruct (GlobalLibTable.used_libs_seen_rvas (e_libs e) !! i) eqn:E; [|set_solver].
    unfold push. by rewrite (lookup_app_l_Some _ _ _ _ E). }
  destruct (GlobalLibTable.index_for_used_lib (e_libs e) lib) as [g i]. simpl in *.
  assert (∀ j info, GlobalLibTable.get_lib (e_libs e) j = Some info →
    GlobalLibTable.get_lib g j = Some info) as Hget.
  { intros j info. unfold GlobalLibTable.get_lib. rewrite Hall.
    destruct (GlobalLibTable.used_libs (e_libs e) !! j) eqn:E; [|done].
    by rewrite (prefix_lookup_Some _ _ _ _ E Hpre). }
  split_and!; try done.
  split; simpl; [done|by exists keys| |done]. intros h info table. rewrite Hall. apply Hb.
Qed.

(** ** One frame is located *)
Definition libs_of (e : env) : nat := length (GlobalLibTable.all_libs (e_libs e)).

(** What no sample changes of its thread, the tables of stacks, frames and samples apart. *)
Definition description (th : Thread.Thread)
    : string * option string * Timestamp * option Timestamp * bool * option NativeAllocations.NativeAllocationsTable :=
  (Thread.tid th, Thread.name th, Thread.start_time th, Thread.end_time th, Thread.is_main th,
   Thread.native_allocations th).

Lemma convert_string_index_description th strings s th' l :
  Thread.convert_string_index th strings s = Ok (th', l) →
  description th' = description th ∧ Thread.stack_table th' = Thread.stack_table th.
Proof.
  unfold Thread.convert_string_index. destruct (ThreadStringTable.index_for_global_string _ _ _) as [[t i]|]; [|done].
  by intros [= <- _].
Qed.
Lemma frame_index_description th k g th' g' i :
  Thread.frame_index_for_frame th k g = Ok (th', g', i) → description th' = description th.
Proof.
  unfold Thread.frame_index_for_frame. destruct (FrameTable.index_for_frame _ _ _) as [[[t c] j]|]; [|done].
  by intros [= <- _ _].
Qed.
Lemma stack_index_description th prefix f c th' i :
  Thread.stack_index_for_stack th prefix f c = (th', i) → description th' = description th.
Proof.
  unfold Thread.stack_index_for_stack. destruct (StackTable.index_for_stack _ _ _ _) as [t j]. by intros [= <- _].
Qed.

(** What a step of the loop keeps: [th] under [e] became [th'] under [g]. *)
Record advances (e : env) (th : Thread.Thread) (g : GlobalLibTable.GlobalLibTable)
    (th' : Thread.Thread) : Prop := {
  adv_wf : env_wf (ThreadSafety.with_libs e g);
  adv_le : env_le e (ThreadSafety.with_libs e g);
  adv_used : GlobalLibTable.used_libs (e_libs e) `prefix_of` GlobalLibTable.used_libs g;
  adv_all : GlobalLibTable.all_libs g = GlobalLibTable.all_libs (e_libs e);
  adv_process : Thread.process th' = Thread.process th;
  adv_samples : Thread.samples th' = Thread.samples th;
  adv_markers : Thread.markers th' = Thread.markers th;
  adv_strings : ThreadStringTable.extends (Thread.string_table th) (Thread.string_table th');
  adv_description : description th' = description th;
  adv_stacks : StackTable.extends (Thread.stack_table th) (Thread.stack_table th')
}.
Lemma advances_refl e th : env_wf e → advances e th (e_libs e) th.
Proof. intros He. destruct e. by split. Qed.
Lemma advances_trans e th g th' g' th'' :
  advances e th g th' → advances (ThreadSafety.with_libs e g) th' g' th'' → advances e th g' th''.
Proof.
  intros [H1 H2 H3 H4 H5 H6 H7 H8 H9 H10] [K1 K2 K3 K4 K5 K6 K7 K8 K9 K10]. simpl in *.
  split; [exact K1|by etrans|by etrans|congruence..|by etrans|by etrans|by etrans].
Qed.

Lemma convert_address_ok e th pr kernel a :
  env_wf e → mappings_ok (libs_of e) kernel → mappings_ok (libs_of e) (Process.libs pr) →
  let '(g, l) := Process.convert_address pr (e_libs e) kernel a in
  advances e th g th ∧ address_location pr kernel g a l ∧
  ∀ c p f, FrameTable.global_libs c = g →
    FrameTable.frame_valid c {| FrameTable.location := l; FrameTable.category_pair := p;
                                FrameTable.flags := f |}.
Proof.
  intros He Hk Hp. unfold Process.convert_address, address_location.
  assert (∀ m r lib, mappings_ok (libs_of e) m → LibMappings.convert_address m a = Some (r, lib) →
    let '(g, i) := GlobalLibTable.index_for_used_lib (e_libs e) lib in
    advances e th g th ∧
    (∃ j, FrameTable.AddressInLib r i = FrameTable.AddressInLib r j ∧
       GlobalLibTable.used_libs g !! j = Some lib) ∧
    ∀ c p f, FrameTable.global_libs c = g →
      FrameTable.frame_valid c {| FrameTable.location := FrameTable.AddressInLib r i;
        FrameTable.category_pair := p; FrameTable.flags := f |}) as Hin.
  { intros m r lib Hm E. pose proof (convert_address_lib _ _ _ _ _ Hm E) as Hlib.
    pose proof (use_lib_ok e lib He Hlib) as Huse.
    destruct (GlobalLibTable.index_for_used_lib (e_libs e) lib) as [g i].
    destruct Huse as (? & ? & ? & ? & Hi). split_and!; [by split|by exists i|].
    intros c p f <-. unfold FrameTable.frame_valid. simpl. by eapply lookup_lt_Some. }
  destruct (LibMappings.convert_address kernel a) as [[r lib]|] eqn:E1.
  { specialize (Hin _ _ _ Hk E1). by destruct (GlobalLibTable.index_for_used_lib _ _). }
  destruct (LibMappings.convert_address (Process.libs pr) a) as [[r lib]|] eqn:E2.
  { specialize (Hin _ _ _ Hp E2). by destruct (GlobalLibTable.index_for_used_lib _ _). }
  split_and!; [by apply advances_refl|done|done].
Qed.

Lemma lib_frame_ok e th lib a :
  env_wf e → (lib < libs_of e)%nat →
  let '(g, i) := GlobalLibTable.index_for_used_lib (e_libs e) lib in
  advances e th g th ∧ lib_location g lib a (FrameTable.AddressInLib a i) ∧
  ∀ c p f, FrameTable.global_libs c = g →
    FrameTable.frame_valid c {| FrameTable.location := FrameTable.AddressInLib a i;
      FrameTable.category_pair := p; FrameTable.flags := f |}.
Proof.
  intros He Hlib. pose proof (use_lib_ok e lib He Hlib) as Huse.
  destruct (GlobalLibTable.index_for_used_lib (e_libs e) lib) as [g i].
  destruct Huse as (? & ? & ? & ? & Hi). split_and!; [by split|by exists i|].
  intros c p f <-. unfold FrameTable.frame_valid. simpl. by eapply lookup_lt_Some.
Qed.

Lemma locate_frame_ok keys e n th pr kernel f :
  wf_keys keys e n th → env_wf e → mappings_ok (libs_of e) kernel →
  mappings_ok (libs_of e) (Process.libs pr) →
  frame_info_valid (libs_of e) (e_categories e) (e_strings e) f →
  Z.of_nat (S n) < 2 ^ 32 →
  ∃ g th' l, locate_frame pr kernel (e_strings e) (e_libs e) th (frame f) = Ok (g, th', l) ∧
    advances e th g th' ∧ wf_keys keys (ThreadSafety.with_libs e g) (S n) th' ∧
    resolves_to pr kernel (e_strings e) g (Thread.string_table th') (frame f) l ∧
    (∀ p fl, FrameTable.frame_valid (Thread.tables th' g)
       {| FrameTable.location := l; FrameTable.category_pair := p; FrameTable.flags := fl |}) ∧
    Thread.stack_table th' = Thread.stack_table th.
Proof.
  intros Hwf He Hk Hp [_ Hv] Hn.
  assert (∀ g l, advances e th g th →
    (∀ c p fl, FrameTable.global_libs c = g → FrameTable.frame_valid c
       {| FrameTable.location := l; FrameTable.category_pair := p; FrameTable.flags := fl |}) →
    resolves_to pr kernel (e_strings e) g (Thread.string_table th) (frame f) l →
    ∃ g' th' l', Ok (g, th, l) = Ok (g', th', l') ∧
      advances e th g' th' ∧ wf_keys keys (ThreadSafety.with_libs e g') (S n) th' ∧
      resolves_to pr kernel (e_strings e) g' (Thread.string_table th') (frame f) l' ∧
      (∀ p fl, FrameTable.frame_valid (Thread.tables th' g')
         {| FrameTable.location := l'; FrameTable.category_pair := p; FrameTable.flags := fl |}) ∧
      Thread.stack_table th' = Thread.stack_table th) as Hdone.
  { intros g l Hadv Hval Hres. exists g, th, l. split_and!; try done; [|by intros p fl; apply Hval].
    eapply wf_grow; [done|apply Hadv|apply Hadv|lia]. }
  destruct (frame f) as [a|a|a|lib a|lib a|lib a|s] eqn:Ef; simpl in *.
  1-3: match goal with |- context [Process.convert_address _ _ _ ?b] =>
      pose proof (convert_address_ok e th pr kernel b He Hk Hp) as Hc;
      destruct (Process.convert_address pr (e_libs e) kernel b) as [g l] end;
    destruct Hc as (? & ? & ?); by apply Hdone.
  1-3: match goal with |- context [FrameTable.AddressInLib ?b _] =>
      pose proof (lib_frame_ok e th lib b He Hv) as Hc end;
    destruct (GlobalLibTable.index_for_used_lib (e_libs e) lib) as [g i];
    destruct Hc as (? & ? & ?); by apply Hdone.
  destruct (convert_string_index_ok keys e n th s Hwf Hv Hn)
    as (th' & l & Heq & Hwf' & Hpr & Hget & st & -> & Hext).
  destruct (convert_string_index_description _ _ _ _ _ Heq) as [Hdesc _]. rewrite Heq.
  simpl. do 3 eexists. split; [done|]. split_and!.
  - destruct (advances_refl e th He). by split.
  - by destruct e.
  - by exists l.
  - intros p fl. unfold FrameTable.frame_valid. simpl in *. by rewrite Hget.
  - done.
Qed.

(** ** The whole stack *)
Definition internal (f : FrameInfo) (k : FrameTable.InternalFrame) : Prop :=
  FrameTable.category_pair k = category_pair f ∧ FrameTable.flags k = flags f.

(** The rows a call stack consists of. *)
Definition stack_entry (f : FrameInfo) (i : nat) : nat * CategoryHandle * Subcategory :=
  (i, pair_category (category_pair f), subcategory_of_pair (category_pair f)).

Lemma add_frames_ok frames keys e n th pr kernel prefix xs :
  wf_keys keys e n th → env_wf e → mappings_ok (libs_of e) kernel →
  mappings_ok (libs_of e) (Process.libs pr) →
  Forall (frame_info_valid (libs_of e) (e_categories e) (e_strings e)) frames →
  Z.of_nat (n + 3 * length frames) < 2 ^ 32 →
  StackTable.in_table (Thread.stack_table th) prefix →
  StackTable.call_stack (Thread.stack_table th) prefix = Some xs →
  ∃ g th' stack keys' l,
    add_frames pr kernel (e_strings e) frames (e_libs e) th prefix = Ok (g, th', stack) ∧
    advances e th g th' ∧
    wf_keys keys' (ThreadSafety.with_libs e g) (n + 3 * length frames) th' ∧
    keys `prefix_of` keys' ∧
    StackTable.call_stack (Thread.stack_table th') stack =
      Some (xs ++ zip_with stack_entry frames l) ∧
    Forall2 (λ f i, ∃ k, keys' !! i = Some k ∧ internal f k ∧
      resolves_to pr kernel (e_strings e) g (Thread.string_table th') (frame f)
        (FrameTable.location k)) frames l.
Proof.
  revert keys e n th prefix xs. induction frames as [|f frames IH];
    intros keys e n th prefix xs Hwf He Hk Hp Hv Hn Hin Hxs; simpl.
  { exists (e_libs e), th, prefix, keys, []. rewrite app_nil_r, Nat.add_0_r.
    split_and!; [done|by apply advances_refl|by destruct e|done|done|constructor]. }
  apply Forall_cons in Hv as [Hvf Hv]. simpl in Hn.
  destruct (locate_frame_ok keys e n th pr kernel f Hwf He Hk Hp Hvf)
    as (g1 & th1 & l1 & -> & Hadv1 & Hwf1 & Hres & Hval & Hsk1); [lia|]. simpl.
  set (k := {| FrameTable.location := l1; FrameTable.category_pair := category_pair f;
               FrameTable.flags := flags f |}).
  destruct (frame_index_ok keys _ (S n) th1 k Hwf1 (adv_wf _ _ _ _ Hadv1) (Hval _ _) (proj1 Hvf))
    as (th2 & g2 & i & keys2 & Heq & Hwf2 & Hpre2 & Hi & He2 & Hle2 & Hused2 & Hall2 & Hpr2 & Hsk2 & Hsm2 & Hmk2 & Hst2);
    [lia|].
  simpl in Heq. rewrite Heq. simpl.
  assert (advances (ThreadSafety.with_libs e g1) th1 g2 th2) as Hadv2
    by (split; try done; [by rewrite Hused2|by eapply frame_index_description|by rewrite Hsk2]).
  pose proof (stack_index_ok keys2 _ _ th2 prefix i k Hwf2) as Hstack.
  destruct (Thread.stack_index_for_stack th2 prefix i (category_pair f)) as [th3 stack] eqn:E3.
  change (FrameTable.category_pair k) with (category_pair f) in Hstack. rewrite E3 in Hstack.
  destruct Hstack as (Hwf3 & Hin3 & Hpr3 & Hsm3 & Hmk3 & Hfr3 & Htab3 & Hext3 & Hcs3);
    [by rewrite Hsk2, Hsk1|done|].
  assert (Thread.string_table th3 = Thread.string_table th2) as Hst3
    by (specialize (Htab3 g2); by injection Htab3).
  assert (advances (ThreadSafety.with_libs e g2) th2 g2 th3) as Hadv3.
  { pose proof (advances_refl (ThreadSafety.with_libs e g2) th2 He2) as [? ? ? ? ? ? ? ? ? ?].
    split; try done; [by rewrite Hst3|by eapply stack_index_description]. }
  assert (advances e th g2 th3) as Hadv
    by (eapply advances_trans; [eapply advances_trans; [exact Hadv1|exact Hadv2]|exact Hadv3]).
  assert (libs_of (ThreadSafety.with_libs e g2) = libs_of e) as Hlibs
    by (unfold libs_of; simpl; by rewrite (adv_all _ _ _ _ Hadv)).
  destruct (IH keys2 (ThreadSafety.with_libs e g2) (S n + 2)%nat th3 (Some stack)
    (xs ++ [stack_entry f i]) Hwf3 He2)
    as (g4 & th4 & stack4 & keys4 & l4 & Heq4 & Hadv4 & Hwf4 & Hpre4 & Hcs4 & HF4);
    [by rewrite Hlibs..|lia|done|by apply Hcs3; rewrite Hsk2, Hsk1|].
  simpl in Heq4. rewrite Heq4.
  assert (advances e th g4 th4) as Hadv04 by (eapply advances_trans; [exact Hadv|exact Hadv4]).
  exists g4, th4, stack4, keys4, (i :: l4). simpl.
  rewrite <-app_assoc in Hcs4. split_and!; try done; [|by etrans|].
  - eapply wf_grow; [exact Hwf4|apply Hadv4|done|lia].
  - constructor; [|done]. exists k. split; [by eapply prefix_lookup_Some|split; [done|]].
    eapply resolves_to_mono; [| | |exact Hres].
    + etrans; [|apply Hadv4]. simpl. rewrite Hused2. done.
    + etrans; [exact Hst2|]. rewrite <-Hst3. apply Hadv4.
    + intros s Hs. destruct Hvf as [_ Hvf]. by rewrite Hs in Hvf.
Qed.
End profile_safety.
End ProfileSafety.
