(* ===== verification/ProfileRuns.v ===== *)
(** Whole runs of a profile: the operations of
    fxprof-processed-profile/src/profile.rs as one type, the invariant they keep,
    and what a valid sequence of calls guarantees. *)
From S2P Require Import Prelude BTree Types LibMappings StringTables SymbolTable LibTable.
From S2P Require Import FrameTables StackTable Samples Markers ThreadModel ThreadSafety.
From S2P Require Import ProfileModel ProfileOrder ProfileSafety.
From stdpp Require Import options.
Open Scope Z_scope.

Module ProfileRuns.
Import ThreadSafety Profile ProfileSafety.
Section profile_runs.
Context {D : DebugIdType}.

(** * The calls *)

(** A marker type is registered at run time or belongs to the marker's type. *)
Inductive marker_type_source :=
| Registered (h : MarkerTypeHandle)
| Static (t : StaticSchema).
Inductive op :=
| SetInterval (interval' : Z)
| SetReferenceTimestamp (t : f64)
| SetProduct (product' : string)
| SetOsName (os_name' : string)
| AddCategory (name : string) (color : CategoryColor)
| AddSubcategory (category : CategoryHandle) (name : string)
| AddProcess (name : string) (pid : Z) (start_time : Timestamp)
| AddCounter (process : ProcessHandle) (name category description : string)
    (color : option GraphColor.t)
| SetProcessStartTime (process : ProcessHandle) (t : Timestamp)
| SetProcessEndTime (process : ProcessHandle) (t : Timestamp)
| SetProcessName (process : ProcessHandle) (name : string)
| AddLib (library : LibraryInfo.LibraryInfo)
| SetLibSymbolTable (library : LibraryHandle) (symbols : list SymbolTable.Symbol)
| AddLibMapping (process : ProcessHandle) (lib : LibraryHandle) (start_avma end_avma relative : Z)
| RemoveLibMapping (process : ProcessHandle) (start_avma : Z)
| ClearProcessLibMappings (process : ProcessHandle)
| AddKernelLibMapping (lib : LibraryHandle) (start_avma end_avma relative : Z)
| RemoveKernelLibMapping (start_avma : Z)
| AddThread (process : ProcessHandle) (tid : Z) (start_time : Timestamp) (is_main : bool)
| SetThreadName (thread : ThreadHandle) (name : string)
| SetThreadStartTime (thread : ThreadHandle) (t : Timestamp)
| SetThreadEndTime (thread : ThreadHandle) (t : Timestamp)
| SetThreadTid (thread : ThreadHandle) (tid : Z)
| InternString (s : string)
| AddSample (thread : ThreadHandle) (t : Timestamp) (frames : list FrameInfo) (delta : CpuDelta)
    (weight : Z)
| AddSampleSameStackZeroCpu (thread : ThreadHandle) (t : Timestamp) (weight : Z)
| AddAllocationSample (thread : ThreadHandle) (t : Timestamp) (frames : list FrameInfo)
    (address size : Z)
| RegisterMarkerType (schema' : Schema.MarkerSchema)
| AddMarker (thread : ThreadHandle) (timing : Schema.MarkerTiming) (type : marker_type_source)
    (name : StringHandle) (category : CategoryHandle) (fields : Schema.Marker)
| SetMarkerStack (thread : ThreadHandle) (marker : MarkerHandle) (frames : list FrameInfo)
| AddCounterSample (counter : CounterHandle) (t : Timestamp) (value : f64) (operations : Z).

Definition type_of_source (type : marker_type_source) (p : Profile)
    : Profile * MarkerTypeHandle :=
  match type with Registered h => (p, h) | Static t => static_schema_marker_type p t end.
Definition marker_of (type : marker_type_source) (name : StringHandle) (category : CategoryHandle)
    (fields : Schema.Marker) : Marker :=
  {| marker_type := type_of_source type; marker_name := λ p, (p, name);
     marker_category := λ p, (p, category); marker_fields := fields |}.

(** The profile after the call; the handles a call returns are positions. *)
Definition apply_op (o : op) (p : Profile) : res Profile :=
  match o with
  | SetInterval i => Ok (set_interval p i)
  | SetReferenceTimestamp t => Ok (set_reference_timestamp p t)
  | SetProduct s => Ok (set_product p s)
  | SetOsName s => Ok (set_os_name p s)
  | AddCategory name color => Ok (add_category p name color).1
  | AddSubcategory category name => fst <$> add_subcategory p category name
  | AddProcess name pid t => Ok (add_process p name pid t).1
  | AddCounter process name category description color =>
      fst <$> add_counter p process name category description color
  | SetProcessStartTime process t => set_process_start_time p process t
  | SetProcessEndTime process t => set_process_end_time p process t
  | SetProcessName process name => set_process_name p process name
  | AddLib library => Ok (add_lib p library).1
  | SetLibSymbolTable library symbols =>
      set_lib_symbol_table p library (SymbolTable.new symbols)
  | AddLibMapping process lib s e r => add_lib_mapping p process lib s e r
  | RemoveLibMapping process s => remove_lib_mapping p process s
  | ClearProcessLibMappings process => clear_process_lib_mappings p process
  | AddKernelLibMapping lib s e r => add_kernel_lib_mapping p lib s e r
  | RemoveKernelLibMapping s => Ok (remove_kernel_lib_mapping p s)
  | AddThread process tid t is_main => fst <$> add_thread p process tid t is_main
  | SetThreadName thread name => set_thread_name p thread name
  | SetThreadStartTime thread t => set_thread_start_time p thread t
  | SetThreadEndTime thread t => set_thread_end_time p thread t
  | SetThreadTid thread tid => set_thread_tid p thread tid
  | InternString s => Ok (intern_string p s).1
  | AddSample thread t frames delta weight => add_sample p thread t frames delta weight
  | AddSampleSameStackZeroCpu thread t weight => add_sample_same_stack_zero_cpu p thread t weight
  | AddAllocationSample thread t frames address size =>
      add_allocation_sample p thread t frames address size
  | RegisterMarkerType schema' => Ok (register_marker_type p schema').1
  | AddMarker thread timing type name category fields =>
      fst <$> add_marker p thread timing (marker_of type name category fields)
  | SetMarkerStack thread marker frames => set_marker_stack p thread marker frames
  | AddCounterSample counter t value operations => add_counter_sample p counter t value operations
  end.
Fixpoint run (ops : list op) (p : Profile) : res Profile :=
  match ops with [] => Ok p | o :: ops' => apply_op o p ≫= run ops' end.

(** * Which calls are valid

    Handles are the ones the profile gave out, a mapping does not end before it
    starts, a category gets at most 256 subcategories, symbol tables come from
    [SymbolTable::new], and a library's symbol table is set before the library
    is used by a frame. *)
Definition env_of (p : Profile) : env :=
  {| e_strings := string_table p; e_libs := global_libs p; e_schemas := marker_schemas p;
     e_categories := length (categories p) |}.
Definition num_libs (p : Profile) : nat := length (GlobalLibTable.all_libs (global_libs p)).
Definition frames_valid (p : Profile) (frames : list FrameInfo) : Prop :=
  Forall (frame_info_valid (num_libs p) (length (categories p)) (string_table p)) frames.

Definition op_valid (o : op) (p : Profile) : Prop :=
  let thread_ok h := (h < length (threads p))%nat in
  let process_ok h := (h < length (processes p))%nat in
  let lib_ok h := (h < num_libs p)%nat in
  match o with
  | SetInterval _ | SetReferenceTimestamp _ | SetProduct _ | SetOsName _ | AddCategory _ _
  | AddProcess _ _ _ | RemoveKernelLibMapping _ | InternString _ | RegisterMarkerType _ => True
  | AddLib library => ∀ table, LibraryInfo.symbol_table library = Some table →
      ∃ symbols, table = SymbolTable.new symbols
  | AddSubcategory category _ => ∃ c, categories p !! Z.to_nat category = Some c ∧
      (length (subcategories c) < 256)%nat
  | AddCounter process _ _ _ _ | SetProcessStartTime process _ | SetProcessEndTime process _
  | SetProcessName process _ | RemoveLibMapping process _ | ClearProcessLibMappings process
  | AddThread process _ _ _ => process_ok process
  | SetLibSymbolTable library _ =>
      lib_ok library ∧ library ∉ GlobalLibTable.used_libs (global_libs p)
  | AddLibMapping process lib s e _ => process_ok process ∧ lib_ok lib ∧ s ≤ e
  | AddKernelLibMapping lib s e _ => lib_ok lib ∧ s ≤ e
  | SetThreadName thread _ | SetThreadStartTime thread _ | SetThreadEndTime thread _
  | SetThreadTid thread _ | AddSampleSameStackZeroCpu thread _ _ => thread_ok thread
  | AddSample thread _ frames _ _ | AddAllocationSample thread _ frames _ _ =>
      thread_ok thread ∧ frames_valid p frames
  | AddMarker thread _ type name _ fields =>
      thread_ok thread ∧ is_Some (StringTable.get_string (string_table p) name) ∧
      let '(p1, h) := type_of_source type p in
      MarkerTable.marker_valid (marker_schemas p1) (string_table p) h fields
  | SetMarkerStack thread marker frames =>
      frames_valid p frames ∧ ∃ th, threads p !! thread = Some th ∧
        (marker < length (MarkerTable.marker_stacks (Thread.markers th)))%nat
  | AddCounterSample counter _ _ _ => (counter < length (counters p))%nat
  end.

(** By how much a call can grow a table with 32-bit indexes. *)
Definition cost (o : op) (p : Profile) : nat :=
  match o with
  | InternString _ => 1
  | AddSample _ _ frames _ _ | AddAllocationSample _ _ frames _ _
  | SetMarkerStack _ _ frames => 3 * length frames
  | AddMarker _ _ type _ _ _ =>
      let '(p1, h) := type_of_source type p in
      1 + from_option (λ s, length (Schema.fields s)) 0%nat (marker_schemas p1 !! h)
  | _ => 0
  end.

(** Every call is valid in the profile it is made on, and [n] counts the growth
    so far. (That no call panics is what is proved.) *)
Fixpoint valid_run (n : nat) (ops : list op) (p : Profile) : Prop :=
  match ops with
  | [] => True
  | o :: ops' => op_valid o p ∧ Z.of_nat (n + cost o p) < 2 ^ 32 ∧
      match apply_op o p with Ok p' => valid_run (n + cost o p) ops' p' | Panic => True end
  end.

(** * Invariant *)

(** Which process a thread belongs to is written down on both sides; a process's
    first thread exists as soon as one of its threads does. *)
Definition shape (p : Profile) : list (list ThreadHandle) * list ProcessHandle * list ProcessHandle :=
  (Process.threads <$> processes p, Thread.process <$> threads p, Counter.process <$> counters p).
Record shape_wf (s : list (list ThreadHandle) * list ProcessHandle * list ProcessHandle) : Prop := {
  shape_owned : concat s.1.1 ≡ₚ seq 0 (length s.1.2);
  shape_listed : ∀ h i, s.1.2 !! h = Some i → ∃ ts, s.1.1 !! i = Some ts ∧ h ∈ ts;
  shape_counters : Forall (λ i, (i < length s.1.1)%nat) s.2
}.

Record wf (n : nat) (p : Profile) : Prop := {
  wf_env : env_wf (env_of p);
  wf_strings : (length (StringTable.strings (string_table p)) ≤ n)%nat;
  wf_threads : Forall (ThreadSafety.wf (env_of p) n) (threads p);
  wf_processes : Forall (λ pr, mappings_ok (num_libs p) (Process.libs pr)) (processes p);
  wf_kernel : mappings_ok (num_libs p) (kernel_libs p);
  wf_shape : shape_wf (shape p);
  wf_static : ∀ name h, static_schema_marker_types p !! name = Some h →
    (h < length (marker_schemas p))%nat
}.

Lemma mappings_ok_mono n n' m : (n ≤ n')%nat → mappings_ok n m → mappings_ok n' m.
Proof. intros Hle [Hwf Hm]. split; [done|]. intros k mp Hin. specialize (Hm _ _ Hin). lia. Qed.

Lemma wf_new_profile product' t i : wf 0 (new product' t i).
Proof.
  split; simpl; try done.
  - split; simpl; [apply StringTable.wf_new_strings|apply GlobalLibTable.wf_new_libs| |].
    + intros [|lib] info table Hl; done.
    + intros [|h] schema' Hl; done.
  - split; [apply LibMappings.wf_new_mappings|]. intros k mp Hin. by apply elem_of_nil in Hin.
Qed.

(** Everything a change of some parts has to show. *)
Lemma wf_update n n' p p' :
  wf n p → (n ≤ n')%nat → env_wf (env_of p') → env_le (env_of p) (env_of p') →
  (num_libs p ≤ num_libs p')%nat →
  (length (StringTable.strings (string_table p')) ≤ n')%nat →
  (∀ th, th ∈ threads p' → th ∈ threads p ∨ ThreadSafety.wf (env_of p') n' th) →
  (∀ pr, pr ∈ processes p' → (∃ pr0, pr0 ∈ processes p ∧ Process.libs pr = Process.libs pr0) ∨
     mappings_ok (num_libs p') (Process.libs pr)) →
  (kernel_libs p' = kernel_libs p ∨ mappings_ok (num_libs p') (kernel_libs p')) →
  shape_wf (shape p') →
  (∀ name h, static_schema_marker_types p' !! name = Some h →
     (h < length (marker_schemas p'))%nat) →
  wf n' p'.
Proof.
  intros [He Hs Hth Hpr Hk Hsh Hst] Hn He' Hle Hlibs Hs' Hth' Hpr' Hk' Hsh' Hst'.
  rewrite Forall_forall in Hth. rewrite Forall_forall in Hpr. split; try done.
  - apply Forall_forall. intros th [Hin|?]%Hth'; [|done].
    destruct (Hth th Hin) as [keys Hkeys]. exists keys. by eapply wf_grow.
  - apply Forall_forall. intros pr [(pr0 & Hin & ->)|?]%Hpr'; [|done].
    eapply mappings_ok_mono; [done|]. by apply Hpr.
  - destruct Hk' as [->|]; [|done]. by eapply mappings_ok_mono.
Qed.

Lemma env_of_wf_libs p g k :
  ThreadSafety.with_libs (env_of p) g = env_of (Profile.with_libs p g k).
Proof. done. Qed.

(** Element-wise updates keep what does not depend on the updated part. *)
Lemma elem_of_insert {A} (l : list A) i x y : y ∈ <[i := x]> l → y ∈ l ∨ y = x.
Proof.
  intros [j Hj]%list_elem_of_lookup. destruct (decide (i = j)) as [->|Hne].
  - destruct (decide (j < length l)%nat).
    + rewrite list_lookup_insert_eq in Hj by done. naive_solver.
    + rewrite list_insert_ge in Hj by lia. left. apply list_elem_of_lookup. eauto.
  - rewrite list_lookup_insert_ne in Hj by done. left. apply list_elem_of_lookup. eauto.
Qed.

Lemma fmap_insert_same {A B} (f : A → B) (l : list A) (i : nat) x y :
  l !! i = Some x → f y = f x → f <$> <[i := y]> l = f <$> l.
Proof.
  intros Hi Hf. rewrite list_fmap_insert, list_insert_id; [done|].
  by rewrite list_lookup_fmap, Hi, Hf.
Qed.

Lemma index_set_insert {A} (l : list A) i x y :
  l !! i = Some x → index_set l i y = Ok (<[i := y]> l).
Proof. intros Hi. apply index_set_Ok. split; [by eapply lookup_lt_Some|done]. Qed.

Lemma update_thread_Ok p thread th th' f :
  threads p !! thread = Some th → f th = Ok th' →
  update_thread p thread f = Ok (with_threads p (<[thread := th']> (threads p)) (used_tids p)).
Proof.
  intros Hth Hf. unfold update_thread. rewrite (proj2 (index_Ok _ _ _) Hth). simpl.
  rewrite Hf. simpl. by rewrite (index_set_insert _ _ th).
Qed.

Lemma update_process_Ok p process pr pr' f :
  processes p !! process = Some pr → f pr = Ok pr' →
  update_process p process f = Ok (with_processes p (<[process := pr']> (processes p)) (used_pids p)).
Proof.
  intros Hpr Hf. unfold update_process. rewrite (proj2 (index_Ok _ _ _) Hpr). simpl.
  rewrite Hf. simpl. by rewrite (index_set_insert _ _ pr).
Qed.

Lemma wf_thread n p thread th :
  wf n p → threads p !! thread = Some th →
  ThreadSafety.wf (env_of p) n th ∧
  ∃ pr, processes p !! Thread.process th = Some pr ∧ thread ∈ Process.threads pr ∧
    mappings_ok (num_libs p) (Process.libs pr).
Proof.
  intros Hwf Hth. split.
  { pose proof (wf_threads _ _ Hwf) as Hall. rewrite Forall_lookup in Hall. by eapply Hall. }
  destruct (shape_listed _ (wf_shape _ _ Hwf) thread (Thread.process th)) as (ts & Hts & Hin).
  { simpl. by rewrite list_lookup_fmap, Hth. }
  simpl in Hts. rewrite list_lookup_fmap in Hts. apply fmap_Some in Hts as (pr & Hpr & ->).
  exists pr. split_and!; [done..|].
  pose proof (wf_processes _ _ Hwf) as Hall. rewrite Forall_lookup in Hall. by eapply Hall.
Qed.

(** A thread's update, possibly after the libraries were used. *)
Lemma wf_with_thread n n' p g used thread th th' :
  wf n p → (n ≤ n')%nat → env_wf (env_of (Profile.with_libs p g (kernel_libs p))) →
  env_le (env_of p) (env_of (Profile.with_libs p g (kernel_libs p))) →
  GlobalLibTable.all_libs g = GlobalLibTable.all_libs (global_libs p) →
  threads p !! thread = Some th → Thread.process th' = Thread.process th →
  ThreadSafety.wf (env_of (Profile.with_libs p g (kernel_libs p))) n' th' →
  wf n' (with_threads (Profile.with_libs p g (kernel_libs p)) (<[thread := th']> (threads p)) used).
Proof.
  intros Hwf Hn He Hle Hall Hth Hpr Hth'.
  apply (wf_update n n' p); try done.
  - unfold num_libs. simpl. by rewrite Hall.
  - simpl. pose proof (wf_strings _ _ Hwf). lia.
  - simpl. intros t [?| ->]%elem_of_insert; [by left|by right].
  - intros pr Hin. left. by exists pr.
  - by left.
  - unfold shape. simpl. rewrite (fmap_insert_same _ _ _ th) by done. apply (wf_shape _ _ Hwf).
  - apply (wf_static _ _ Hwf).
Qed.

Lemma with_libs_id p : Profile.with_libs p (global_libs p) (kernel_libs p) = p.
Proof. by destruct p. Qed.

Lemma update_thread_wf n n' p thread th f th' used :
  wf n p → (n ≤ n')%nat → threads p !! thread = Some th → f th = Ok th' →
  ThreadSafety.wf (env_of p) n' th' → Thread.process th' = Thread.process th →
  ∃ p', update_thread (with_threads p (threads p) used) thread f = Ok p' ∧ wf n' p'.
Proof.
  intros Hwf Hn Hth Hf Hth' Hpr.
  rewrite (update_thread_Ok _ _ th th') by done. eexists. split; [done|].
  pose proof (wf_with_thread n n' p (global_libs p) used thread th th') as H.
  rewrite with_libs_id in H. apply H; try done. apply (wf_env _ _ Hwf).
Qed.

Lemma update_process_wf n p process pr f pr' :
  wf n p → processes p !! process = Some pr → f pr = Ok pr' →
  Process.threads pr' = Process.threads pr →
  (Process.libs pr' = Process.libs pr ∨ mappings_ok (num_libs p) (Process.libs pr')) →
  ∃ p', update_process p process f = Ok p' ∧ wf n p'.
Proof.
  intros Hwf Hpr Hf Hth Hlibs. rewrite (update_process_Ok _ _ pr pr') by done. eexists.
  split; [done|]. apply (wf_update n n p); try done.
  - apply (wf_env _ _ Hwf).
  - apply (wf_strings _ _ Hwf).
  - by left.
  - simpl. intros q [Hin| ->]%elem_of_insert; [left; by exists q|].
    destruct Hlibs; [left|by right]. exists pr. split; [|done]. apply list_elem_of_lookup. eauto.
  - by left.
  - unfold shape. simpl. rewrite (fmap_insert_same _ _ _ pr) by done. apply (wf_shape _ _ Hwf).
  - apply (wf_static _ _ Hwf).
Qed.

(** * Stacks *)

(** What the loop over the frames leaves behind: row [i] of the frame table is
    the frame [f]. *)
Definition frame_row (p : Profile) (pr : Process.Process) (g : GlobalLibTable.GlobalLibTable)
    (th : Thread.Thread) (f : FrameInfo) (i : nat) : Prop :=
  ∃ k, FrameTable.describes (Thread.frame_table th) (Thread.tables th g) k i ∧ internal f k ∧
    resolves_to pr (kernel_libs p) (string_table p) g (Thread.string_table th) (frame f)
      (FrameTable.location k).

(** Every row of the frame table of [th] describes what it described. *)
Definition rows_kept (p : Profile) (th : Thread.Thread) (g : GlobalLibTable.GlobalLibTable)
    (th' : Thread.Thread) : Prop :=
  ∃ keys, length keys = length (FrameTable.addresses (Thread.frame_table th)) ∧
    ∀ i k, keys !! i = Some k →
      FrameTable.describes (Thread.frame_table th) (Thread.tables th (global_libs p)) k i ∧
      FrameTable.describes (Thread.frame_table th') (Thread.tables th' g) k i.

Lemma stack_index_for_frames_ok n p thread th frames :
  wf n p → threads p !! thread = Some th → frames_valid p frames →
  Z.of_nat (n + 3 * length frames) < 2 ^ 32 →
  ∃ pr g th' stack rows,
    processes p !! Thread.process th = Some pr ∧
    stack_index_for_frames p thread frames =
      Ok (with_threads (Profile.with_libs p g (kernel_libs p)) (<[thread := th']> (threads p))
            (used_tids p), stack) ∧
    advances (env_of p) th g th' ∧
    ThreadSafety.wf (env_of (Profile.with_libs p g (kernel_libs p))) (n + 3 * length frames) th' ∧
    StackTable.call_stack (Thread.stack_table th') stack =
      Some (zip_with stack_entry frames rows) ∧
    Forall2 (frame_row p pr g th') frames rows ∧ rows_kept p th g th'.
Proof.
  intros Hwf Hth Hv Hn. destruct (wf_thread _ _ _ _ Hwf Hth) as [[keys Hkeys] (pr & Hpr & _ & Hm)].
  destruct (add_frames_ok frames keys (env_of p) n th pr (kernel_libs p) None [])
    as (g & th' & stack & keys' & rows & Heq & Hadv & Hwf' & Hpre & Hcs & HF);
    [done|apply (wf_env _ _ Hwf)|apply (wf_kernel _ _ Hwf)|done|done|done|by intros i| |].
  { unfold StackTable.call_stack, StackTable.nodes. by destruct (length (StackTable.stack_prefixes _)). }
  exists pr, g, th', stack, rows. split_and!; [done| |done|by exists keys'|done| |].
  - unfold stack_index_for_frames. rewrite (proj2 (index_Ok _ _ _) Hth). simpl.
    rewrite (proj2 (index_Ok _ _ _) Hpr). simpl. simpl in Heq. rewrite Heq. simpl.
    by rewrite (index_set_insert _ _ th).
  - eapply Forall2_impl; [exact HF|]. intros f i (k & Hk & Hint & Hres). exists k.
    split_and!; [|done..]. destruct (wf_frames _ _ _ _ Hwf') as [_ _ Hrows _ _ _ _ _ _].
    by apply Hrows.
  - destruct (wf_frames _ _ _ _ Hwf') as [_ _ Hrows' _ _ _ _ _ _].
    destruct (wf_frames _ _ _ _ Hkeys) as [_ _ Hrows Hlen _ _ _ _ _]. exists keys. split; [done|].
    intros i k Hk. split; [by apply Hrows|]. apply Hrows'. by eapply prefix_lookup_Some.
Qed.

Lemma advances_env p th g th' :
  advances (env_of p) th g th' →
  env_wf (env_of (Profile.with_libs p g (kernel_libs p))) ∧
  env_le (env_of p) (env_of (Profile.with_libs p g (kernel_libs p))) ∧
  GlobalLibTable.all_libs g = GlobalLibTable.all_libs (global_libs p) ∧
  Thread.process th' = Thread.process th.
Proof. intros []. by split_and!. Qed.

(** The thread after the stack, and an update of the thread that uses it. *)
Lemma with_stack_ok n p thread th frames (f : option nat → Thread.Thread → res Thread.Thread) :
  wf n p → threads p !! thread = Some th → frames_valid p frames →
  Z.of_nat (n + 3 * length frames) < 2 ^ 32 →
  (∀ stack th' e, Thread.process th' = Thread.process th → Thread.samples th' = Thread.samples th →
     ThreadSafety.wf e (n + 3 * length frames) th' → e_schemas e = marker_schemas p →
     (∃ g, advances (env_of p) th g th') →
     ∃ th'', f stack th' = Ok th'' ∧ ThreadSafety.wf e (n + 3 * length frames) th'' ∧
       Thread.process th'' = Thread.process th') →
  ∃ p', ('(p', stack) ← stack_index_for_frames p thread frames; update_thread p' thread (f stack)) =
      Ok p' ∧ wf (n + 3 * length frames) p'.
Proof.
  intros Hwf Hth Hv Hn Hf.
  destruct (stack_index_for_frames_ok n p thread th frames Hwf Hth Hv Hn)
    as (pr & g & th' & stack & rows & Hpr & Heq & Hadv & Hwf' & _).
  destruct (advances_env _ _ _ _ Hadv) as (He & Hle & Hall & Hpr').
  destruct (Hf stack th' _ Hpr' (adv_samples _ _ _ _ Hadv) Hwf') as (th'' & Hf' & Hwf'' & Hpr'');
    [done|by exists g|].
  rewrite Heq. simpl.
  rewrite (update_thread_Ok _ _ th' th'');
    [|simpl; rewrite list_lookup_insert_eq; [done|by eapply lookup_lt_Some]|done].
  eexists. split; [done|]. simpl. rewrite list_insert_insert, decide_True by done.
  apply (wf_with_thread n _ p g _ thread th); try done; [lia|congruence].
Qed.

(** * Every call keeps the invariant *)
Ltac keeps Hwf :=
  first [ done | by left | (intros ? ?; by left) | (let q := fresh in intros q ?; left; by exists q)
        | apply (wf_env _ _ Hwf) | apply (wf_strings _ _ Hwf) | apply (wf_shape _ _ Hwf)
        | apply (wf_static _ _ Hwf) | apply Nat.le_refl | idtac ].

Lemma wf_meta n p product' os interval' t : wf n p → wf n (with_meta p product' os interval' t).
Proof. intros Hwf. apply (wf_update n n p); keeps Hwf. Qed.

(** ** Categories and counters *)
Lemma wf_with_categories n p cs :
  wf n p → (length (categories p) ≤ length cs)%nat → wf n (with_categories p cs).
Proof.
  intros Hwf Hlen. pose proof (wf_env _ _ Hwf) as [? ? ? ?].
  apply (wf_update n n p); keeps Hwf; by split.
Qed.

Lemma wf_with_counters n p cs :
  wf n p → Forall (λ c, (Counter.process c < length (processes p))%nat) cs →
  wf n (with_counters p cs).
Proof.
  intros Hwf Hcs. apply (wf_update n n p); keeps Hwf.
  destruct (wf_shape _ _ Hwf). split; simpl in *; [done|done|].
  apply Forall_fmap. eapply Forall_impl; [exact Hcs|]. intros c. simpl. by rewrite length_fmap.
Qed.

Lemma wf_counter_processes n p :
  wf n p → Forall (λ c, (Counter.process c < length (processes p))%nat) (counters p).
Proof.
  intros Hwf. pose proof (shape_counters _ (wf_shape _ _ Hwf)) as Hc. simpl in Hc.
  rewrite Forall_fmap in Hc. eapply Forall_impl; [exact Hc|]. intros c. simpl.
  by rewrite length_fmap.
Qed.

(** ** Libraries *)
Lemma wf_with_libs n p g :
  wf n p → GlobalLibTable.wf g → FrameTable.tables_built g →
  FrameTable.libs_le (global_libs p) g → (num_libs p ≤ length (GlobalLibTable.all_libs g))%nat →
  wf n (Profile.with_libs p g (kernel_libs p)).
Proof.
  intros Hwf Hg Hb Hle Hn. pose proof (wf_env _ _ Hwf) as [? ? ? ?].
  apply (wf_update n n p); keeps Hwf; by split.
Qed.

Lemma add_lib_ok n p library :
  wf n p → op_valid (AddLib library) p → wf n (add_lib p library).1.
Proof.
  intros Hwf Hv. pose proof (wf_env _ _ Hwf) as [_ [keys Hg] Hb _]. simpl in Hg, Hb.
  destruct (GlobalLibTable.handle_for_lib_wf keys _ library Hg) as (keys' & Hg' & _).
  unfold add_lib.
  assert (∀ g h, GlobalLibTable.handle_for_lib (global_libs p) library = (g, h) →
    (GlobalLibTable.all_libs g = GlobalLibTable.all_libs (global_libs p) ∨
     GlobalLibTable.all_libs g = GlobalLibTable.all_libs (global_libs p) ++ [library]) ∧
    GlobalLibTable.used_libs g = GlobalLibTable.used_libs (global_libs p) ∧
    GlobalLibTable.used_libs_seen_rvas g = GlobalLibTable.used_libs_seen_rvas (global_libs p))
    as Hsame.
  { intros g h. unfold GlobalLibTable.handle_for_lib.
    destruct (_ !! library); intros [= <- _]; split_and!; try done; [by left|by right]. }
  destruct (GlobalLibTable.handle_for_lib _ _) as [g h]. simpl in *.
  destruct (Hsame g h eq_refl) as (Hall & Hused & Hseen).
  apply wf_with_libs; [done|by exists keys'| | |].
  - intros lib info table Hlib. destruct Hall as [Hall|Hall]; rewrite Hall in Hlib; [by eapply Hb|].
    apply lookup_app_Some_snoc in Hlib as [Hlib|[_ ->]]; [by eapply Hb|apply Hv].
  - split; [|by rewrite Hseen]. intros i info. unfold GlobalLibTable.get_lib. rewrite Hused.
    destruct (GlobalLibTable.used_libs _ !! i) as [lib|]; simpl; [|done].
    destruct Hall as [->| ->]; [done|]. apply lookup_app_l_Some.
  - unfold num_libs. destruct Hall as [->| ->]; [done|]. rewrite length_app. simpl. lia.
Qed.

Lemma set_lib_symbol_table_ok n p library symbols :
  wf n p → op_valid (SetLibSymbolTable library symbols) p →
  ∃ p', set_lib_symbol_table p library (SymbolTable.new symbols) = Ok p' ∧ wf n p'.
Proof.
  intros Hwf [Hlib Hnew]. pose proof (wf_env _ _ Hwf) as [_ [keys Hg] Hb _]. simpl in Hg, Hb.
  destruct (GlobalLibTable.set_lib_symbol_table_wf keys _ library (SymbolTable.new symbols) Hg Hlib)
    as (g & Heq & Hg' & Hused & Hlen & Hseen).
  unfold set_lib_symbol_table. rewrite Heq. simpl. eexists. split; [done|].
  destruct (lookup_lt_is_Some_2 _ _ Hlib) as [info Hinfo].
  assert (GlobalLibTable.all_libs g = <[library :=
    LibraryInfo.with_symbol_table info (Some (SymbolTable.new symbols))]>
      (GlobalLibTable.all_libs (global_libs p))) as Hall.
  { unfold GlobalLibTable.set_lib_symbol_table in Heq.
    rewrite (proj2 (index_Ok _ _ _) Hinfo) in Heq. simpl in Heq.
    rewrite (index_set_insert _ _ info) in Heq by done. simpl in Heq. by injection Heq as <-. }
  apply wf_with_libs; [done|by exists keys| | |by rewrite Hlen].
  - intros lib info' table Hl Ht. rewrite Hall in Hl.
    apply list_lookup_insert_Some in Hl as [(-> & <- & _)|[_ Hl]]; [|by eapply Hb].
    exists symbols. by injection Ht.
  - split; [|by rewrite Hseen]. intros i info'. unfold GlobalLibTable.get_lib. rewrite Hused.
    destruct (GlobalLibTable.used_libs _ !! i) as [lib|] eqn:El; simpl; [|done].
    rewrite Hall, list_lookup_insert_ne; [done|]. intros ->. apply Hnew.
    apply list_elem_of_lookup. eauto.
Qed.

(** ** Mappings *)
Lemma add_mapping_ok nlibs m s e r lib :
  mappings_ok nlibs m → (lib < nlibs)%nat → s ≤ e →
  ∃ m', LibMappings.add_mapping m s e r lib = Ok m' ∧ mappings_ok nlibs m'.
Proof.
  intros [Hwf Hm] Hlib Hse. destruct (LibMappings.add_mapping_ordered m s e r lib Hwf Hse) as [m' Hm'].
  exists m'. split; [done|]. split; [by eapply LibMappings.add_mapping_wf|].
  apply LibMappings.add_mapping_Ok in Hm' as (_ & _ & Hin); [|done].
  intros k mp [[_ ->]|(_ & ? & _)]%Hin; [done|by eapply Hm].
Qed.

Lemma remove_mapping_ok nlibs m s : mappings_ok nlibs m → mappings_ok nlibs (LibMappings.remove_mapping m s).2.
Proof.
  intros [Hwf Hm]. split; [by apply LibMappings.remove_mapping_wf|].
  intros k mp [_ Hin]%list_elem_of_filter. by eapply Hm.
Qed.

Lemma wf_with_kernel n p m :
  wf n p → mappings_ok (num_libs p) m → wf n (Profile.with_libs p (global_libs p) m).
Proof. intros Hwf Hm. apply (wf_update n n p); keeps Hwf. by right. Qed.

(** ** Processes and threads *)
Lemma add_process_ok n p name pid t : wf n p → wf n (add_process p name pid t).1.
Proof.
  intros Hwf. unfold add_process. destruct (make_unique_pid_or_tid _ _) as [used pid']. simpl.
  apply (wf_update n n p); keeps Hwf.
  - simpl. intros pr [Hin| ->%list_elem_of_singleton]%elem_of_app; [left; by exists pr|right].
    split; [apply LibMappings.wf_new_mappings|]. intros k mp Hin. by apply elem_of_nil in Hin.
  - destruct (wf_shape _ _ Hwf) as [Ho Hl Hc]. unfold shape, push in *. simpl in *.
    rewrite fmap_app. split; simpl.
    + by rewrite concat_app, app_nil_r.
    + intros h i Hh. destruct (Hl h i Hh) as (ts & Hts & ?). exists ts.
      split; [by apply lookup_app_l_Some|done].
    + eapply Forall_impl; [exact Hc|]. intros i. simpl. rewrite length_app. lia.
Qed.

Lemma add_thread_ok n p process tid t m :
  wf n p → (process < length (processes p))%nat →
  ∃ p' h, add_thread p process tid t m = Ok (p', h) ∧ wf n p'.
Proof.
  intros Hwf Hp. destruct (lookup_lt_is_Some_2 _ _ Hp) as [pr Hpr]. unfold add_thread.
  destruct (make_unique_pid_or_tid _ _) as [used tid'].
  rewrite (update_process_Ok _ _ pr (Process.add_thread pr (length (threads p)))) by done.
  simpl. do 2 eexists. split; [done|]. apply (wf_update n n p); keeps Hwf.
  - simpl. intros th [Hin| ->%list_elem_of_singleton]%elem_of_app; [by left|right].
    apply ThreadSafety.wf_new_thread_in, (wf_env _ _ Hwf).
  - simpl. intros q [Hin| ->]%elem_of_insert; [left; by exists q|].
    left. exists pr. split; [|done]. apply list_elem_of_lookup. eauto.
  - destruct (wf_shape _ _ Hwf) as [Ho Hl Hc]. unfold shape, push in *. simpl in *.
    rewrite fmap_app, list_fmap_insert. simpl. unfold push. split; simpl.
    + rewrite length_app, seq_app, length_fmap. simpl.
      rewrite length_fmap in Ho. rewrite <-Ho.
      destruct (list_elem_of_split_length (Process.threads <$> processes p) process (Process.threads pr))
        as (l1 & l2 & -> & ->); [by rewrite list_lookup_fmap, Hpr|].
      rewrite insert_app_r_alt, Nat.sub_diag by done. simpl.
      rewrite !concat_app. simpl. rewrite <-!app_assoc. do 2 f_equiv. apply Permutation_app_comm.
    + intros h i [Hh|[-> ->]]%lookup_app_Some_snoc.
      * destruct (Hl h i Hh) as (ts & Hts & Hin). destruct (decide (i = process)) as [->|Hne].
        -- exists (Process.threads pr ++ [length (threads p)]).
           rewrite list_lookup_fmap, Hpr in Hts. simpl in Hts. injection Hts as <-.
           rewrite list_lookup_insert_eq by (by rewrite length_fmap). split; [done|].
           apply elem_of_app. by left.
        -- exists ts. by rewrite list_lookup_insert_ne.
      * exists (Process.threads pr ++ [length (threads p)]).
        rewrite list_lookup_insert_eq by (by rewrite length_fmap). split; [done|].
        rewrite length_fmap. apply elem_of_app. right. by apply list_elem_of_singleton.
    + by rewrite length_insert.
Qed.

Lemma set_info_ok n p thread f used :
  wf n p → (thread < length (threads p))%nat →
  (∀ th, ∃ tid name t t', f th = Ok (Thread.with_info th tid name t t')) →
  ∃ p', update_thread (with_threads p (threads p) used) thread f = Ok p' ∧ wf n p'.
Proof.
  intros Hwf Hlt Hf. destruct (lookup_lt_is_Some_2 _ _ Hlt) as [th Hth].
  destruct (Hf th) as (tid & name & t & t' & Hf').
  apply (update_thread_wf n n p thread th f (Thread.with_info th tid name t t')); try done.
  destruct (wf_thread _ _ _ _ Hwf Hth) as [[keys Hkeys] _]. exists keys. by apply wf_info.
Qed.

Lemma with_threads_id p : with_threads p (threads p) (used_tids p) = p.
Proof. by destruct p. Qed.

Lemma set_process_ok n p process f :
  wf n p → (process < length (processes p))%nat →
  (∀ pr, ∃ pr', f pr = Ok pr' ∧ Process.threads pr' = Process.threads pr ∧
     (Process.libs pr' = Process.libs pr)) →
  ∃ p', update_process p process f = Ok p' ∧ wf n p'.
Proof.
  intros Hwf Hlt Hf. destruct (lookup_lt_is_Some_2 _ _ Hlt) as [pr Hpr].
  destruct (Hf pr) as (pr' & Hf' & Hth & Hl).
  apply (update_process_wf n p process pr f pr'); try done. by left.
Qed.

Lemma set_mappings_ok n p process f :
  wf n p → (process < length (processes p))%nat →
  (∀ pr, mappings_ok (num_libs p) (Process.libs pr) → ∃ m, f pr = Ok (Process.with_libs pr m) ∧
     mappings_ok (num_libs p) m) →
  ∃ p', update_process p process f = Ok p' ∧ wf n p'.
Proof.
  intros Hwf Hlt Hf. destruct (lookup_lt_is_Some_2 _ _ Hlt) as [pr Hpr].
  pose proof (wf_processes _ _ Hwf) as Hall. rewrite Forall_lookup in Hall.
  destruct (Hf pr (Hall _ _ Hpr)) as (m & Hf' & Hm).
  apply (update_process_wf n p process pr f (Process.with_libs pr m)); try done. by right.
Qed.

(** ** Strings and marker types *)
Lemma intern_string_ok n p s :
  wf n p → wf (n + 1) (intern_string p s).1.
Proof.
  intros Hwf. pose proof (wf_env _ _ Hwf) as [Hs ? ? ?]. simpl in Hs. unfold intern_string.
  pose proof (StringTable.index_for_string_wf _ s Hs) as Hs'.
  pose proof (StringTable.index_for_string_extends (string_table p) s) as Hext.
  pose proof (StringTable.index_for_string_length (string_table p) s) as Hlen.
  destruct (StringTable.index_for_string _ _) as [st i]. simpl in *.
  pose proof (wf_strings _ _ Hwf). apply (wf_update n (n + 1) p); keeps Hwf; [lia|by split..|].
  simpl. lia.
Qed.

Lemma add_schema_ok n p ms types :
  wf n p → (∀ name h, types !! name = Some h → (h < S (length (marker_schemas p)))%nat) →
  wf n (with_schemas p (string_table p) (push (marker_schemas p) (Schema.from_schema ms)) types).
Proof.
  intros Hwf Ht. pose proof (wf_env _ _ Hwf) as [? ? ? Hsc]. simpl in Hsc.
  apply (wf_update n n p); keeps Hwf.
  - split; simpl; try done. intros h schema' [Hh|[_ ->]]%lookup_app_Some_snoc; [by eapply Hsc|].
    by exists ms.
  - split; simpl; [done|done|by apply prefix_app_r|done].
  - simpl. unfold push. rewrite length_app. simpl. intros name h Hh. specialize (Ht _ _ Hh). lia.
Qed.

Lemma type_of_source_ok n p type :
  wf n p → wf n (type_of_source type p).1 ∧
  string_table (type_of_source type p).1 = string_table p ∧
  threads (type_of_source type p).1 = threads p.
Proof.
  intros Hwf. destruct type as [h|t]; simpl; [done|]. unfold static_schema_marker_type.
  destruct (_ !! _) eqn:E; simpl; [done|]. split_and!; [|done..].
  apply add_schema_ok; [done|]. intros name h.
  intros [(<- & <-)|[_ Hh]]%lookup_insert_Some; [lia|].
  pose proof (wf_static _ _ Hwf _ _ Hh). lia.
Qed.

Lemma wf_owned n p : wf n p → ThreadOrder.owned p.
Proof.
  intros Hwf. destruct (wf_shape _ _ Hwf) as [Ho _ _]. simpl in Ho. by rewrite length_fmap in Ho.
Qed.

(** ** Samples *)
Lemma add_sample_ok n p thread t frames delta weight :
  wf n p → op_valid (AddSample thread t frames delta weight) p →
  Z.of_nat (n + 3 * length frames) < 2 ^ 32 →
  ∃ p', add_sample p thread t frames delta weight = Ok p' ∧ wf (n + 3 * length frames) p'.
Proof.
  intros Hwf [Hlt Hv] Hn. destruct (lookup_lt_is_Some_2 _ _ Hlt) as [th Hth].
  apply (with_stack_ok n p thread th); try done. intros stack th' e Hpr Hsm [keys Hkeys] _ _.
  destruct (wf_sample_op keys e _ th' (Thread.AddSample t stack delta weight) Hkeys)
    as (th'' & Heq & ? & ?). simpl in Heq. exists th''. split_and!; [done|by exists keys|done].
Qed.

Lemma add_sample_same_stack_ok n p thread t weight :
  wf n p → (thread < length (threads p))%nat →
  ∃ p', add_sample_same_stack_zero_cpu p thread t weight = Ok p' ∧ wf n p'.
Proof.
  intros Hwf Hlt. destruct (lookup_lt_is_Some_2 _ _ Hlt) as [th Hth].
  destruct (wf_thread _ _ _ _ Hwf Hth) as [[keys Hkeys] _].
  destruct (wf_sample_op keys _ _ th (Thread.SameStackZeroCpu t weight) Hkeys)
    as (th' & Heq & ? & ?). unfold add_sample_same_stack_zero_cpu.
  pose proof (update_thread_wf n n p thread th
    (λ th, Thread.add_sample_same_stack_zero_cpu th t weight) th' (used_tids p)) as Hup.
  rewrite with_threads_id in Hup. apply Hup; try done. by exists keys.
Qed.

Lemma add_allocation_sample_ok n p thread t frames address size :
  wf n p → op_valid (AddAllocationSample thread t frames address size) p →
  Z.of_nat (n + 3 * length frames) < 2 ^ 32 →
  ∃ p', add_allocation_sample p thread t frames address size = Ok p' ∧
    wf (n + 3 * length frames) p'.
Proof.
  intros Hwf [Hlt Hv] Hn. destruct (lookup_lt_is_Some_2 _ _ Hlt) as [th Hth].
  destruct (wf_thread _ _ _ _ Hwf Hth) as [_ (pr & Hpr & Hin & _)]. unfold add_allocation_sample.
  rewrite (proj2 (index_Ok _ _ _) Hth). cbn [mbind res_bind].
  rewrite (proj2 (index_Ok _ _ _) Hpr). cbn [mbind res_bind].
  unfold Process.thread_handle_for_allocations.
  destruct (Process.threads pr) as [|h hs] eqn:Eth; [by apply elem_of_nil in Hin|].
  cbn [head unwrap mbind res_bind].
  assert (h < length (threads p))%nat as Hh.
  { pose proof (ThreadOrder.owned_valid p _ pr (wf_owned n p Hwf) Hpr) as Ho.
    rewrite Eth in Ho. by inversion Ho. }
  destruct (lookup_lt_is_Some_2 _ _ Hh) as [th2 Hth2].
  apply (with_stack_ok n p h th2); try done. intros stack th' e _ _ [keys Hkeys] _ _.
  eexists. split_and!; [done| |done]. exists keys. by apply wf_allocations.
Qed.

(** ** Markers *)
Lemma set_marker_stack_wf n p thread marker frames :
  wf n p → op_valid (SetMarkerStack thread marker frames) p →
  Z.of_nat (n + 3 * length frames) < 2 ^ 32 →
  ∃ p', set_marker_stack p thread marker frames = Ok p' ∧ wf (n + 3 * length frames) p'.
Proof.
  intros Hwf [Hv (th & Hth & Hm)] Hn.
  apply (with_stack_ok n p thread th frames (λ stack th, Thread.set_marker_stack th marker stack));
    try done.
  intros stack th' e _ _ [keys Hkeys] _ [g Hadv].
  destruct (set_marker_stack_ok keys e _ th' marker stack Hkeys) as (th'' & ? & ? & ?).
  - by rewrite (adv_markers _ _ _ _ Hadv).
  - done.
  - exists th''. split_and!; [done|by exists keys|done].
Qed.

Lemma add_marker_wf n p thread timing type name category fields :
  wf n p → op_valid (AddMarker thread timing type name category fields) p →
  Z.of_nat (n + cost (AddMarker thread timing type name category fields) p) < 2 ^ 32 →
  ∃ p' h, add_marker p thread timing (marker_of type name category fields) = Ok (p', h) ∧
    wf (n + cost (AddMarker thread timing type name category fields) p) p'.
Proof.
  intros Hwf (Hlt & Hname & Hv) Hn. pose proof (type_of_source_ok n p type Hwf) as (Hwf1 & Hst & Hths).
  unfold add_marker, marker_of, cost in *. simpl in *. destruct (type_of_source type p) as [p1 h].
  simpl in *. rewrite <-Hst in Hname, Hv. rewrite <-Hths in Hlt.
  destruct (lookup_lt_is_Some_2 _ _ Hlt) as [th Hth].
  destruct (wf_thread _ _ _ _ Hwf1 Hth) as [[keys Hkeys] _].
  rewrite (proj2 (index_Ok _ _ _) Hth). cbn [mbind res_bind].
  destruct (convert_string_index_ok keys (env_of p1) n th name Hkeys Hname)
    as (th1 & l & Hconv & Hkeys1 & Hpr1 & _); [lia|]. simpl in Hconv. rewrite Hconv.
  cbn [mbind res_bind].
  destruct (add_marker_ok keys (env_of p1) (S n) th1 l h fields timing category Hkeys1 Hv)
    as (sc & th2 & i & Hsc & Heq & Hkeys2 & Hpr2); [simpl; lia|].
  simpl in Hsc, Heq. rewrite (proj2 (index_Ok _ _ _) Hsc), Hsc in *. cbn [mbind res_bind].
  rewrite Heq. cbn [mbind res_bind]. rewrite (index_set_insert _ _ th) by done.
  cbn [mbind res_bind from_option]. do 2 eexists. split; [done|].
  pose proof (wf_with_thread n (n + S (length (Schema.fields sc))) p1 (global_libs p1) (used_tids p1)
    thread th th2) as H. rewrite with_libs_id in H.
  apply H; try done; [lia|apply (wf_env _ _ Hwf1)|congruence|]. exists keys.
  by replace (n + S (length (Schema.fields sc)))%nat with (S n + length (Schema.fields sc))%nat by lia.
Qed.

(** ** All calls *)
Lemma wf_weaken n n' p : wf n p → (n ≤ n')%nat → wf n' p.
Proof.
  intros Hwf Hn. apply (wf_update n n' p); keeps Hwf. pose proof (wf_strings _ _ Hwf). lia.
Qed.

Lemma op_ok n o p :
  wf n p → op_valid o p → Z.of_nat (n + cost o p) < 2 ^ 32 →
  ∃ p', apply_op o p = Ok p' ∧ wf (n + cost o p) p'.
Proof.
  intros Hwf Hv Hn.
  assert (∀ f h, cost o p = 0%nat → (∀ th, ∃ tid name t t', f th = Ok (Thread.with_info th tid name t t')) →
    (h < length (threads p))%nat → apply_op o p = update_thread p h f →
    ∃ p', apply_op o p = Ok p' ∧ wf (n + cost o p) p') as Hinfo.
  { intros f h -> Hf Hh ->. rewrite Nat.add_0_r.
    pose proof (set_info_ok n p h f (used_tids p) Hwf Hh Hf) as Hup.
    by rewrite with_threads_id in Hup. }
  destruct o; cbn [apply_op cost] in *; rewrite ?Nat.add_0_r in *.
  1-4: eexists; (split; [done|]); by apply wf_meta.
  - eexists. split; [done|]. apply wf_with_categories; [done|]. unfold push.
    rewrite length_app. lia.
  - destruct Hv as (c & Hc & Hlen). unfold add_subcategory, Category_add_subcategory.
    rewrite (proj2 (index_Ok _ _ _) Hc). cbn [mbind res_bind].
    destruct (Z.ltb_spec (Z.of_nat (length (subcategories c))) (2 ^ 8)); [|lia]. simpl.
    rewrite (index_set_insert _ _ c) by done. simpl. eexists. split; [done|].
    apply wf_with_categories; [done|]. by rewrite length_insert.
  - eexists. split; [done|]. by apply add_process_ok.
  - destruct (lookup_lt_is_Some_2 _ _ Hv) as [pr Hpr]. unfold add_counter.
    rewrite (proj2 (index_Ok _ _ _) Hpr). simpl. eexists. split; [done|].
    apply wf_with_counters; [done|]. apply Forall_app. split; [by apply wf_counter_processes with n|].
    by constructor.
  - apply set_process_ok; [done..|]. intros pr. by eexists.
  - apply set_process_ok; [done..|]. intros pr. by eexists.
  - apply set_process_ok; [done..|]. intros pr. by eexists.
  - eexists. split; [done|]. by apply add_lib_ok.
  - by apply set_lib_symbol_table_ok.
  - destruct Hv as (Hp & Hl & Hse). apply set_mappings_ok; [done..|]. intros pr Hm.
    destruct (add_mapping_ok _ _ start_avma end_avma relative lib Hm Hl Hse) as (m & Heq & Hm').
    exists m. unfold Process.add_lib_mapping. by rewrite Heq.
  - apply set_mappings_ok; [done..|]. intros pr Hm. eexists. split; [done|].
    by apply remove_mapping_ok.
  - apply set_mappings_ok; [done..|]. intros pr Hm. eexists. split; [done|].
    split; [apply LibMappings.wf_new_mappings|]. intros k mp Hin. by apply elem_of_nil in Hin.
  - destruct Hv as (Hl & Hse).
    destruct (add_mapping_ok _ _ start_avma end_avma relative lib (wf_kernel _ _ Hwf) Hl Hse)
      as (m & Heq & Hm'). unfold add_kernel_lib_mapping. rewrite Heq. eexists. split; [done|].
    by apply wf_with_kernel.
  - eexists. split; [done|]. apply wf_with_kernel, remove_mapping_ok, (wf_kernel _ _ Hwf). done.
  - destruct (add_thread_ok n p process tid start_time is_main Hwf Hv) as (p' & h & -> & ?).
    by exists p'.
  - eapply Hinfo; [done| |exact Hv|done]. intros th. by do 4 eexists.
  - eapply Hinfo; [done| |exact Hv|done]. intros th. by do 4 eexists.
  - eapply Hinfo; [done| |exact Hv|done]. intros th. by do 4 eexists.
  - unfold set_thread_tid. destruct (make_unique_pid_or_tid _ _) as [used tid'].
    apply set_info_ok; [done..|]. intros th. by do 4 eexists.
  - eexists. split; [done|]. by apply intern_string_ok.
  - by apply add_sample_ok.
  - by apply add_sample_same_stack_ok.
  - by apply add_allocation_sample_ok.
  - eexists. split; [done|]. apply add_schema_ok; [done|]. intros name h Hh.
    pose proof (wf_static _ _ Hwf _ _ Hh). lia.
  - destruct (add_marker_wf n p thread timing type name category fields Hwf Hv Hn) as (p' & h & -> & ?).
    by exists p'.
  - by apply set_marker_stack_wf.
  - destruct (lookup_lt_is_Some_2 _ _ Hv) as [c Hc]. unfold add_counter_sample.
    rewrite (proj2 (index_Ok _ _ _) Hc). simpl. rewrite (index_set_insert _ _ c) by done. simpl.
    eexists. split; [done|]. apply wf_with_counters; [done|].
    pose proof (wf_counter_processes _ _ Hwf) as Hall. apply Forall_insert; [done|].
    rewrite Forall_lookup in Hall. exact (Hall _ _ Hc).
Qed.

Lemma run_ok n ops p :
  wf n p → valid_run n ops p → ∃ p' n', run ops p = Ok p' ∧ wf n' p'.
Proof.
  revert n p. induction ops as [|o ops IH]; intros n p Hwf Hv; [by exists p, n|].
  destruct Hv as (Ho & Hn & Hv). destruct (op_ok n o p Hwf Ho Hn) as (p1 & Heq & Hwf1).
  rewrite Heq in Hv. cbn [run]. rewrite Heq. cbn [mbind res_bind]. by eapply IH.
Qed.

Lemma run_prefix_ok n ops ops' p p1 :
  wf n p → valid_run n (ops ++ ops') p → run ops p = Ok p1 →
  ∃ n', wf n' p1 ∧ valid_run n' ops' p1.
Proof.
  revert n p. induction ops as [|o ops IH]; intros n p Hwf Hv Hrun.
  { injection Hrun as <-. by exists n. }
  destruct Hv as (Ho & Hn & Hv). destruct (op_ok n o p Hwf Ho Hn) as (p2 & Heq & Hwf2).
  rewrite Heq in Hv. cbn [run] in Hrun. rewrite Heq in Hrun. cbn [mbind res_bind] in Hrun.
  by eapply IH.
Qed.

(** * Serialization *)
Lemma mapM_ok {A B} (f : A → res B) l : (∀ x, x ∈ l → is_Ok (f x)) → is_Ok (mapM f l).
Proof.
  induction l as [|x l IH]; intros Hf; simpl; [by eexists|].
  destruct (Hf x) as [y ->]; [by left|]. simpl.
  destruct IH as [l' ->]; [intros z Hz; apply Hf; by right|]. simpl. by eexists.
Qed.

Lemma sorted_threads_ok p :
  ThreadOrder.owned p → ∃ l firsts, sorted_threads p = Ok (l, firsts) ∧
    (∀ h, h ∈ l → (h < length (threads p))%nat) ∧ length firsts = length (processes p).
Proof.
  intros Ho. unfold sorted_threads, process_le.
  destruct (sort_handles_spec Process.cmp_for_json_order (processes p) (seq 0 (length (processes p))))
    as (order & -> & Hperm & _).
  { apply Forall_forall. intros i. rewrite elem_of_seq. lia. }
  cbn [mbind res_bind].
  destruct (ThreadOrder.sorted_threads_loop_spec p order [] (replicate (length (processes p)) 0%nat) Ho)
    as (groups & firsts & -> & HF & Hlen & _).
  - rewrite Hperm. apply Forall_forall. intros i. rewrite elem_of_seq. lia.
  - rewrite Hperm. apply NoDup_seq.
  - apply length_replicate.
  - do 2 eexists. split_and!; [done| |done]. simpl. intros h (group & Hh & Hg)%elem_of_concat.
    apply list_elem_of_lookup in Hg as [k Hk].
    destruct (Forall2_lookup_r _ _ _ _ _ HF Hk) as (i & _ & pr & Hpr & Hperm' & _).
    rewrite Hperm' in Hh. pose proof (ThreadOrder.owned_valid p i pr Ho Hpr) as Hall.
    rewrite Forall_forall in Hall. by apply Hall.
Qed.

Lemma serialize_profile_ok `{UnstableSort} `{Schema.DerivedSerialize} n p :
  wf n p → is_Ok (serialize_profile p).
Proof.
  intros Hwf. unfold serialize_profile.
  destruct (sorted_threads_ok p (wf_owned n p Hwf)) as (l & firsts & -> & Hl & Hfirsts).
  cbn [mbind res_bind].
  assert (is_Ok (GlobalLibTable.serialize_global_lib_table (global_libs p))) as [libs ->].
  { unfold GlobalLibTable.serialize_global_lib_table.
    pose proof (wf_env _ _ Hwf) as [_ [keys [_ _ _ _ Hu]] _ _]. simpl in Hu.
    destruct (mapM_ok (λ handle, serialize <$> index (GlobalLibTable.all_libs (global_libs p)) handle)
      (GlobalLibTable.used_libs (global_libs p))) as [js ->]; [|by eexists].
    intros h Hh. rewrite Forall_forall in Hu. destruct (index_lt _ _ (Hu h Hh)) as [x ->].
    by eexists. }
  cbn [mbind res_bind].
  destruct (mapM_ok (serialize_thread p) l) as [ts ->].
  { intros h Hh. destruct (lookup_lt_is_Some_2 _ _ (Hl h Hh)) as [th Hth].
    destruct (wf_thread _ _ _ _ Hwf Hth) as [[keys Hkeys] (pr & Hpr & _)].
    unfold serialize_thread. rewrite (proj2 (index_Ok _ _ _) Hth). cbn [mbind res_bind].
    rewrite (proj2 (index_Ok _ _ _) Hpr). cbn [mbind res_bind].
    apply (serialize_ok keys (env_of p) n th); [done|apply (wf_env _ _ Hwf)|done]. }
  cbn [mbind res_bind].
  destruct (mapM_ok (serialize_counter firsts) (counters p)) as [cs ->]; [|by eexists].
  intros c Hc. pose proof (wf_counter_processes _ _ Hwf) as Hall. rewrite Forall_forall in Hall.
  unfold serialize_counter. destruct (index_lt firsts (Counter.process c)) as [x ->].
  - rewrite Hfirsts. by apply Hall.
  - by eexists.
Qed.

(** * Deciding whether a run is valid *)
Definition is_someb {A} (o : option A) : bool := match o with Some _ => true | None => false end.
Definition frame_check (p : Profile) (f : FrameInfo) : bool :=
  (Z.to_nat (pair_category (category_pair f)) <? length (categories p))%nat &&
  match frame f with
  | InstructionPointer _ | ReturnAddress _ | AdjustedReturnAddress _ => true
  | RelativeAddressFromInstructionPointer lib _ | RelativeAddressFromReturnAddress lib _
  | RelativeAddressFromAdjustedReturnAddress lib _ => (lib <? num_libs p)%nat
  | Label s => is_someb (StringTable.get_string (string_table p) s)
  end.
Definition marker_check (p : Profile) (type : marker_type_source) (fields : Schema.Marker) : bool :=
  let '(p1, h) := type_of_source type p in
  match marker_schemas p1 !! h with
  | None => false
  | Some s =>
      forallb (λ '(i, field), match Schema.kind (Schema.format field) with
        | Schema.KString => is_someb (MarkerTable.field_string (string_table p) fields i)
        | Schema.KNumber =>
            match Schema.number_field_value fields (u32_of_usize i) with Ok _ => true | Panic => false end
        end) (imap pair (Schema.fields s))
  end.
Definition op_check (o : op) (p : Profile) : bool :=
  let thread_ok h := (h <? length (threads p))%nat in
  let process_ok h := (h <? length (processes p))%nat in
  let lib_ok h := (h <? num_libs p)%nat in
  match o with
  | SetInterval _ | SetReferenceTimestamp _ | SetProduct _ | SetOsName _ | AddCategory _ _
  | AddProcess _ _ _ | RemoveKernelLibMapping _ | InternString _ | RegisterMarkerType _ => true
  | AddLib library => negb (is_someb (LibraryInfo.symbol_table library))
  | AddSubcategory category _ =>
      match categories p !! Z.to_nat category with
      | Some c => (length (subcategories c) <? 256)%nat
      | None => false
      end
  | AddCounter process _ _ _ _ | SetProcessStartTime process _ | SetProcessEndTime process _
  | SetProcessName process _ | RemoveLibMapping process _ | ClearProcessLibMappings process
  | AddThread process _ _ _ => process_ok process
  | SetLibSymbolTable library _ =>
      lib_ok library && bool_decide (library ∉ GlobalLibTable.used_libs (global_libs p))
  | AddLibMapping process lib s e _ => process_ok process && lib_ok lib && (s <=? e)
  | AddKernelLibMapping lib s e _ => lib_ok lib && (s <=? e)
  | SetThreadName thread _ | SetThreadStartTime thread _ | SetThreadEndTime thread _
  | SetThreadTid thread _ | AddSampleSameStackZeroCpu thread _ _ => thread_ok thread
  | AddSample thread _ frames _ _ | AddAllocationSample thread _ frames _ _ =>
      thread_ok thread && forallb (frame_check p) frames
  | AddMarker thread _ type name _ fields =>
      thread_ok thread && is_someb (StringTable.get_string (string_table p) name) &&
      marker_check p type fields
  | SetMarkerStack thread marker frames =>
      forallb (frame_check p) frames &&
      match threads p !! thread with
      | Some th => (marker <? length (MarkerTable.marker_stacks (Thread.markers th)))%nat
      | None => false
      end
  | AddCounterSample counter _ _ _ => (counter <? length (counters p))%nat
  end.
Fixpoint run_check (n : nat) (ops : list op) (p : Profile) : bool :=
  match ops with
  | [] => true
  | o :: ops' => op_check o p && (Z.of_nat (n + cost o p) <? 2 ^ 32) &&
      match apply_op o p with Ok p' => run_check (n + cost o p) ops' p' | Panic => true end
  end.

Lemma is_someb_true {A} (o : option A) : is_someb o = true ↔ is_Some o.
Proof. destruct o; simpl; split; try done; by intros [? ?]. Qed.

Lemma frames_check_sound p frames : forallb (frame_check p) frames = true → frames_valid p frames.
Proof.
  intros Hf. apply Forall_forall. intros f Hin. rewrite forallb_forall in Hf.
  specialize (Hf f (proj1 (list_elem_of_In _ _) Hin)).
  apply andb_prop in Hf as [Hc Hv]. apply Nat.ltb_lt in Hc. split; [done|].
  destruct (frame f); try done; (by apply Nat.ltb_lt) || by apply is_someb_true.
Qed.

Lemma marker_check_sound p type fields :
  marker_check p type fields = true →
  let '(p1, h) := type_of_source type p in
  MarkerTable.marker_valid (marker_schemas p1) (string_table p) h fields.
Proof.
  unfold marker_check. destruct (type_of_source type p) as [p1 h].
  destruct (marker_schemas p1 !! h) as [s|] eqn:E; [|done]. intros Hf. exists s. split; [done|].
  intros i field Hi. rewrite forallb_forall in Hf. unfold MarkerTable.field_ok.
  assert (In (i, field) (imap pair (Schema.fields s))) as Hin.
  { apply list_elem_of_In, elem_of_lookup_imap. eauto. }
  specialize (Hf _ Hin). simpl in Hf. destruct (Schema.kind _); [by apply is_someb_true|].
  destruct (Schema.number_field_value fields _); [by eexists|done].
Qed.

Lemma op_check_sound o p : op_check o p = true → op_valid o p.
Proof.
  destruct o; simpl; rewrite ?andb_true_iff, ?Nat.ltb_lt, ?Z.leb_le; try done.
  - destruct (categories p !! _) as [c|]; [|done]. intros Hc%Nat.ltb_lt. by exists c.
  - intros Hl table Ht. by rewrite Ht in Hl.
  - by intros [? ?%bool_decide_eq_true].
  - tauto.
  - intros [? ?%frames_check_sound]. by split.
  - intros [? ?%frames_check_sound]. by split.
  - intros [[? Hn%is_someb_true] Hm%marker_check_sound]. by split_and!.
  - intros [? Hm]. destruct (threads p !! thread) as [th|] eqn:E; [|done].
    apply Nat.ltb_lt in Hm. split; [by apply frames_check_sound|by exists th].
Qed.

Lemma run_check_sound n ops p : run_check n ops p = true → valid_run n ops p.
Proof.
  revert n p. induction ops as [|o ops IH]; intros n p; simpl; [done|].
  intros [[Ho Hn]%andb_prop Hr]%andb_prop. apply op_check_sound in Ho. apply Z.ltb_lt in Hn.
  split_and!; [done..|]. destruct (apply_op o p); [by apply IH|done].
Qed.
End profile_runs.

(** * Properties *)

(** C2: Starting from a new profile, no sequence of valid API calls panics, and
    writing the profile afterwards does not panic either. A call is valid if the
    handles it passes (of processes, threads, counters, libraries, strings,
    categories and markers) are among those the profile gave out, a mapping does
    not end before it starts, a category has fewer than 256 subcategories when one
    is added, a symbol table was made by [SymbolTable::new] and is set for a library
    that no frame has used yet, and the fields of a marker have the kinds of its
    registered schema, with strings the profile knows. The tables with 32-bit
    indexes are assumed not to grow past them ([valid_run] counts the growth). *)
Theorem profile_ops_safe `{DebugIdType} `{UnstableSort} `{Schema.DerivedSerialize}
    (product' : string) (t : f64) (i : Z) (ops : list op) :
  valid_run 0 ops (new product' t i) →
  ∃ p, run ops (new product' t i) = Ok p ∧ is_Ok (serialize_profile p).
Proof.
  intros Hv. destruct (run_ok 0 ops _ (wf_new_profile product' t i) Hv) as (p & n & Hrun & Hwf).
  exists p. split; [done|]. by apply (serialize_profile_ok n).
Qed.

(** What of a profile is neither a thread nor the libraries of user space. *)
Definition apart_from_threads `{DebugIdType} (p : Profile) :=
  (product p, os_name p, interval p, kernel_libs p, categories p, processes p, counters p,
   (reference_timestamp p, string_table p, marker_schemas p, static_schema_marker_types p, used_pids p, used_tids p)).

(** C1: A sample added after any valid calls is stored faithfully: its row follows
    the thread's earlier samples with the given time, CPU delta and weight, and
    walking the stack table from its stack to the root meets, in order, one row of
    the frame table for each frame that was passed, under the frame's category.
    That row describes the frame: a label has the interned string, an absolute
    address is looked up in the kernel's libraries first and then in the process's
    (a return address one byte earlier), an address in a library has the library's
    resource and the symbol that contains it, and any other address its
    hexadecimal name. The other threads, and all of the profile that is no thread,
    are as they were, but that more libraries may be in use; of its own thread, the
    description (process, IDs, name, times, allocations), the markers, the earlier
    stacks and the rows of the earlier frames are as they were. *)
Theorem add_sample_faithful `{DebugIdType} (product' : string) (t0 : f64) (i : Z) (ops : list op)
    (p : Profile) (thread : ThreadHandle) (t : Timestamp) (frames : list FrameInfo)
    (delta : CpuDelta) (weight : Z) (th : Thread.Thread) :
  valid_run 0 (ops ++ [AddSample thread t frames delta weight]) (new product' t0 i) →
  run ops (new product' t0 i) = Ok p → threads p !! thread = Some th →
  ∃ p' pr th' samples stack rows,
    add_sample p thread t frames delta weight = Ok p' ∧
    (apart_from_threads p' = apart_from_threads p ∧ threads p' = <[thread := th']> (threads p) ∧
     GlobalLibTable.all_libs (global_libs p') = GlobalLibTable.all_libs (global_libs p) ∧
     GlobalLibTable.used_libs (global_libs p) `prefix_of` GlobalLibTable.used_libs (global_libs p')) ∧
    (Thread.process th' = Thread.process th ∧ description th' = description th ∧
     Thread.markers th' = Thread.markers th ∧
     (∀ s xs, StackTable.call_stack (Thread.stack_table th) s = Some xs →
        StackTable.call_stack (Thread.stack_table th') s = Some xs) ∧
     rows_kept p th (global_libs p') th') ∧
    processes p !! Thread.process th = Some pr ∧
    SampleTable.wf_rows samples (Thread.samples th) ∧
    SampleTable.wf_rows (samples ++ [SampleTable.Build_row t stack delta weight]) (Thread.samples th') ∧
    StackTable.call_stack (Thread.stack_table th') stack = Some (zip_with stack_entry frames rows) ∧
    Forall2 (frame_row p pr (global_libs p') th') frames rows.
Proof.
  intros Hv Hrun Hth.
  destruct (run_prefix_ok 0 ops _ _ p (wf_new_profile product' t0 i) Hv Hrun) as (n & Hwf & (_ & Hfr) & Hn & _).
  destruct (stack_index_for_frames_ok n p thread th frames Hwf Hth Hfr Hn)
    as (pr & g & th' & stack & rows & Hpr & Heq & Hadv & _ & Hcs & HF & Hkept).
  destruct (wf_thread _ _ _ _ Hwf Hth) as [[keys [_ _ _ [samples [Hs _ _]] _ _]] _].
  unfold add_sample. rewrite Heq. cbn [mbind res_bind].
  rewrite (update_thread_Ok _ _ th' (Thread.add_sample th' t stack delta weight));
    [|simpl; by rewrite list_lookup_insert_eq by (by eapply lookup_lt_Some)|done].
  eexists. exists pr, (Thread.add_sample th' t stack delta weight), samples, stack, rows.
  destruct Hadv as [_ _ Hused Hall Hprocess Hsamples Hmarkers _ Hdesc Hext].
  simpl. rewrite list_insert_insert, decide_True by done. split_and!; try done.
  - intros s xs. by apply StackTable.call_stack_extends.
  - simpl. rewrite Hsamples.
    destruct (SampleTable.apply_op_rows (SampleTable.AddSample t stack delta weight) samples _ Hs)
      as (s' & [= <-] & Hrows & _). exact Hrows.
Qed.

(** * Witnesses *)
#[local] Existing Instance string_debug_ids.
#[local] Instance example_serialize : Schema.DerivedSerialize :=
  {| Schema.serialize_MarkerLocation := λ _, JNull; Schema.serialize_MarkerStaticField := λ _, JNull;
     Schema.serialize_MarkerFieldSchema := λ _, JNull |}.
#[local] Definition example_lib : LibraryInfo.LibraryInfo := {|
  LibraryInfo.name := "libc"; LibraryInfo.debug_name := "libc"; LibraryInfo.path := "libc";
  LibraryInfo.debug_path := "libc"; LibraryInfo.debug_id := "A0" : DebugId;
  LibraryInfo.code_id := None; LibraryInfo.arch := None; LibraryInfo.symbol_table := None |}.
#[local] Definition example_frame (f : Frame) : FrameInfo :=
  {| frame := f; category_pair := CategoryPairHandle_from 0; flags := 0 |}.
#[local] Definition example_frames : list FrameInfo :=
  [example_frame (Label 0); example_frame (ReturnAddress 4120); example_frame (InstructionPointer 9)].
#[local] Definition example_schema : Schema.MarkerSchema :=
  {| Schema.ms_type_name := "Text"; Schema.ms_locations := []; Schema.ms_chart_label := None;
     Schema.ms_tooltip_label := None; Schema.ms_table_label := None; Schema.ms_fields := [];
     Schema.ms_static_fields := []; Schema.ms_graphs := [] |}.
#[local] Definition example_setup : list op :=
  [AddProcess "proc" 7 {| nanos := 0 |}; AddThread 0%nat 7 {| nanos := 0 |} true;
   InternString "main"; AddLib example_lib;
   SetLibSymbolTable 0%nat
     [{| SymbolTable.address := 16; SymbolTable.size := Some 16; SymbolTable.name := "malloc" |}];
   AddLibMapping 0%nat 0%nat 4096 8192 0].
#[local] Definition example_sample : op :=
  AddSample 0%nat {| nanos := 5 |} example_frames CpuDelta_ZERO 1.
#[local] Definition example_ops : list op :=
  example_setup ++ [example_sample; AddSampleSameStackZeroCpu 0%nat {| nanos := 6 |} 2;
    AddAllocationSample 0%nat {| nanos := 7 |} example_frames 4096 32;
    RegisterMarkerType example_schema;
    AddMarker 0%nat (Schema.Instant {| nanos := 8 |}) (Registered 0%nat) 0 0
      {| Schema.string_field_value := λ _, Ok 0; Schema.number_field_value := λ _, Ok (f64_of_Z 0) |};
    SetMarkerStack 0%nat 0%nat example_frames; AddCounter 0%nat "c" "m" "" None;
    AddCounterSample 0%nat {| nanos := 9 |} (f64_of_Z 1) 1].

Example profile_ops_safe_witness :
  ∃ p, run example_ops (new "example" (f64_of_Z 0) 1000000) = Ok p ∧ is_Ok (serialize_profile p).
Proof.
  apply profile_ops_safe, run_check_sound. by vm_compute.
Defined.

#[local] Definition setup_profile : res Profile :=
  run example_setup (new "example" (f64_of_Z 0) 1000000).
#[local] Definition main_thread (p : Profile) : res Thread.Thread := index (threads p) 0.

Example add_sample_faithful_witness :
  ∃ p p' th' rows, setup_profile = Ok p ∧
    add_sample p 0%nat {| nanos := 5 |} example_frames CpuDelta_ZERO 1 = Ok p' ∧
    threads p' !! 0%nat = Some th' ∧ rows = [0; 1; 2]%nat ∧
    StackTable.call_stack (Thread.stack_table th') (Some 2%nat) =
      Some (zip_with stack_entry example_frames rows).
Proof.
  assert (is_Ok setup_profile) as [p Hp].
  { assert ((λ _, tt) <$> setup_profile = Ok tt) as H by by vm_compute.
    destruct setup_profile as [p|]; [by exists p|done]. }
  assert ((λ p, length (threads p)) <$> setup_profile = Ok 1%nat) as Hlen by by vm_compute.
  rewrite Hp in Hlen. injection Hlen as Hlen.
  destruct (lookup_lt_is_Some_2 (threads p) 0) as [th Hth]; [by rewrite Hlen; lia|].
  destruct (add_sample_faithful "example" (f64_of_Z 0) 1000000 example_setup p 0 {| nanos := 5 |}
    example_frames CpuDelta_ZERO 1 th) as (p' & pr & th' & samples & stack & rows & Hadd & (_ & Hthreads & _) & _ & _ & Hs & Hcs & _);
    [apply run_check_sound; by vm_compute|exact Hp|exact Hth|].
  assert (threads p' !! 0%nat = Some th') as Hth'
    by (rewrite Hthreads; by apply list_lookup_insert_eq, lookup_lt_Some with th).
  assert ((p ← setup_profile; p' ← add_sample p 0%nat {| nanos := 5 |} example_frames CpuDelta_ZERO 1;
    th ← main_thread p';
    Ok (SampleTable.sample_stack_indexes (Thread.samples th),
        StackTable.call_stack (Thread.stack_table th) (Some 2%nat))) =
    Ok ([Some 2%nat], Some (zip_with stack_entry example_frames [0; 1; 2]%nat))) as Hrun by by vm_compute.
  rewrite Hp in Hrun. cbn [mbind res_bind] in Hrun. rewrite Hadd in Hrun. cbn [mbind res_bind] in Hrun.
  unfold main_thread in Hrun. rewrite (proj2 (index_Ok _ _ _) Hth') in Hrun.
  injection Hrun as _ Hrun. exists p, p', th', [0; 1; 2]%nat. by split_and!.
Defined.
End ProfileRuns.
