(* ===== verification/RecorderMarkers.v ===== *)
(** The marker types with a static schema: jit_function_add_marker.rs,
    process_sample_data.rs and per_cpu.rs of samply/src/shared, and [MmapMarker]
    of linux_shared/converter.rs. A field of the other kind is [unreachable!]. *)
From S2P Require Import Prelude Types StringTables LibTable Markers ProfileModel.
From stdpp Require Import options.
Open Scope Z_scope.

Module RecorderMarkers.
Import Schema Profile.

Definition chart_and_table : list MarkerLocation := [MarkerChart; MarkerTable].
Definition string_field (k l : string) : MarkerFieldSchema :=
  {| key := k; label := l; format := String; searchable := true |}.
Definition bytes_field (k l : string) : MarkerFieldSchema :=
  {| key := k; label := l; format := Bytes; searchable := true |}.
Definition description (text : string) : list MarkerStaticField :=
  [{| static_label := "Description"; static_value := text |}].

(** * Schemas: [UNIQUE_MARKER_TYPE_NAME] and [schema()] *)
Definition JitFunctionAddMarker : StaticSchema :=
  {| UNIQUE_MARKER_TYPE_NAME := "JitFunctionAdd";
     schema := {| ms_type_name := "JitFunctionAdd"; ms_locations := chart_and_table;
       ms_chart_label := Some "{marker.data.n}"; ms_tooltip_label := Some "{marker.data.n}";
       ms_table_label := Some "{marker.data.n}"; ms_fields := [string_field "n" "Function"];
       ms_static_fields := description "Emitted when a JIT function is added to the process.";
       ms_graphs := [] |} |}.
Definition RssStatMarker : StaticSchema :=
  {| UNIQUE_MARKER_TYPE_NAME := "RSS Anon";
     schema := {| ms_type_name := "RSS Anon"; ms_locations := chart_and_table;
       ms_chart_label := Some "{marker.data.totalBytes}";
       ms_tooltip_label := Some "{marker.data.totalBytes}";
       ms_table_label := Some "Total: {marker.data.totalBytes}, delta: {marker.data.deltaBytes}";
       ms_fields := [bytes_field "totalBytes" "Total bytes"; bytes_field "deltaBytes" "Delta"];
       ms_static_fields := description "Emitted when the kmem:rss_stat tracepoint is hit.";
       ms_graphs := [] |} |}.
Definition OtherEventMarker : StaticSchema :=
  {| UNIQUE_MARKER_TYPE_NAME := "Other event";
     schema := {| ms_type_name := "Other event"; ms_locations := chart_and_table;
       ms_chart_label := None; ms_tooltip_label := None; ms_table_label := None; ms_fields := [];
       ms_static_fields := description
         "Emitted for any records in a perf.data file which don't map to a known event.";
       ms_graphs := [] |} |}.
Definition UserTimingMarker : StaticSchema :=
  {| UNIQUE_MARKER_TYPE_NAME := "UserTiming";
     schema := {| ms_type_name := "UserTiming"; ms_locations := chart_and_table;
       ms_chart_label := Some "{marker.data.name}"; ms_tooltip_label := Some "{marker.data.name}";
       ms_table_label := Some "{marker.data.name}"; ms_fields := [string_field "name" "Name"];
       ms_static_fields := description "Emitted for performance.mark and performance.measure.";
       ms_graphs := [] |} |}.
Definition SchedSwitchMarkerOnCpuTrack : StaticSchema :=
  {| UNIQUE_MARKER_TYPE_NAME := "sched_switch";
     schema := {| ms_type_name := "sched_switch"; ms_locations := chart_and_table;
       ms_chart_label := None; ms_tooltip_label := None; ms_table_label := None; ms_fields := [];
       ms_static_fields := description "Emitted just before a running thread gets moved off-cpu.";
       ms_graphs := [] |} |}.
Definition SchedSwitchMarkerOnThreadTrack : StaticSchema :=
  {| UNIQUE_MARKER_TYPE_NAME := "sched_switch";
     schema := {| ms_type_name := "sched_switch"; ms_locations := chart_and_table;
       ms_chart_label := None; ms_tooltip_label := None; ms_table_label := None;
       ms_fields := [{| key := "cpu"; label := "cpu"; format := Integer; searchable := true |}];
       ms_static_fields := description "Emitted just before a running thread gets moved off-cpu.";
       ms_graphs := [] |} |}.
Definition ThreadNameMarkerForCpuTrack : StaticSchema :=
  {| UNIQUE_MARKER_TYPE_NAME := "ContextSwitch";
     schema := {| ms_type_name := "ContextSwitch"; ms_locations := chart_and_table;
       ms_chart_label := Some "{marker.data.thread}"; ms_tooltip_label := Some "{marker.data.thread}";
       ms_table_label := Some "{marker.name} - {marker.data.thread}";
       ms_fields := [string_field "thread" "Thread"]; ms_static_fields := []; ms_graphs := [] |} |}.
Definition OnCpuMarkerForThreadTrack : StaticSchema :=
  {| UNIQUE_MARKER_TYPE_NAME := "OnCpu";
     schema := {| ms_type_name := "OnCpu"; ms_locations := chart_and_table;
       ms_chart_label := Some "{marker.data.cpu}"; ms_tooltip_label := Some "{marker.data.cpu}";
       ms_table_label := Some
         "{marker.name} - {marker.data.cpu}, switch-out reason: {marker.data.outwhy}";
       ms_fields := [string_field "cpu" "CPU"; string_field "outwhy" "Switch-out reason"];
       ms_static_fields := []; ms_graphs := [] |} |}.
Definition MmapMarker : StaticSchema :=
  {| UNIQUE_MARKER_TYPE_NAME := "mmap";
     schema := {| ms_type_name := "mmap"; ms_locations := chart_and_table;
       ms_chart_label := Some "{marker.data.name}";
       ms_tooltip_label := Some "{marker.name} - {marker.data.name}";
       ms_table_label := Some "{marker.name} - {marker.data.name}";
       ms_fields := [string_field "name" "Details"]; ms_static_fields := []; ms_graphs := [] |} |}.

(** The types of the recorder that are the first of their name to be registered.
    SchedSwitchMarkerOnThreadTrack has the name of SchedSwitchMarkerOnCpuTrack, and a
    marker of it is only added after one of the latter: it gets the latter's
    schema. *)
Definition recorder_types : list StaticSchema :=
  [JitFunctionAddMarker; RssStatMarker; OtherEventMarker; UserTimingMarker;
   SchedSwitchMarkerOnCpuTrack; ThreadNameMarkerForCpuTrack; OnCpuMarkerForThreadTrack; MmapMarker].

(** * Markers: the instances of the types *)
Definition static_marker `{DebugIdType} (t : StaticSchema) (name : StringHandle + string)
    (fields : Schema.Marker) : Marker :=
  {| marker_type := λ p, static_schema_marker_type p t;
     marker_name := λ p, match name with inl h => (p, h) | inr s => intern_string p s end;
     marker_category := λ p, (p, CategoryHandle_OTHER);
     marker_fields := fields |}.

Definition no_fields : Schema.Marker :=
  {| string_field_value := λ _, Panic; number_field_value := λ _, Panic |}.
(** The one string, whatever the field index. *)
Definition one_string (s : StringHandle) : Schema.Marker :=
  {| string_field_value := λ _, Ok s; number_field_value := λ _, Panic |}.
Definition jit_function_add_marker `{DebugIdType} (name : StringHandle) : Marker :=
  static_marker JitFunctionAddMarker (inr "JitFunctionAdd") (one_string name).
Definition rss_stat_marker `{DebugIdType} (name : StringHandle) (total_bytes delta_bytes : Z) : Marker :=
  static_marker RssStatMarker (inl name)
    {| string_field_value := λ _, Panic;
       number_field_value := λ i,
         if i =? 0 then Ok (f64_of_Z total_bytes)
         else if i =? 1 then Ok (f64_of_Z delta_bytes) else Panic |}.
Definition other_event_marker `{DebugIdType} (name : StringHandle) : Marker :=
  static_marker OtherEventMarker (inl name) no_fields.
Definition user_timing_marker `{DebugIdType} (name : StringHandle) : Marker :=
  static_marker UserTimingMarker (inr "UserTiming") (one_string name).
Definition sched_switch_marker_on_cpu_track `{DebugIdType} : Marker :=
  static_marker SchedSwitchMarkerOnCpuTrack (inr "sched_switch") no_fields.
Definition sched_switch_marker_on_thread_track `{DebugIdType} (cpu : Z) : Marker :=
  static_marker SchedSwitchMarkerOnThreadTrack (inr "sched_switch")
    {| string_field_value := λ _, Panic; number_field_value := λ _, Ok (f64_of_Z cpu) |}.
Definition thread_name_marker_for_cpu_track `{DebugIdType} (cpu_name thread_name : StringHandle)
    : Marker :=
  static_marker ThreadNameMarkerForCpuTrack (inl cpu_name) (one_string thread_name).
Definition on_cpu_marker_for_thread_track `{DebugIdType} (cpu_name switch_out_reason : StringHandle)
    : Marker :=
  static_marker OnCpuMarkerForThreadTrack (inr "Running on CPU")
    {| string_field_value := λ i,
         if i =? 0 then Ok cpu_name else if i =? 1 then Ok switch_out_reason else Panic;
       number_field_value := λ _, Panic |}.
Definition mmap_marker `{DebugIdType} (path : StringHandle) : Marker :=
  static_marker MmapMarker (inr "mmap") (one_string path).

(** Names tell types apart. *)
Lemma recorder_type_name t t' :
  t ∈ recorder_types → t' ∈ recorder_types →
  UNIQUE_MARKER_TYPE_NAME t = UNIQUE_MARKER_TYPE_NAME t' → t = t'.
Proof.
  intros Ht Ht'. repeat (apply elem_of_cons in Ht as [->|Ht]); try (by apply elem_of_nil in Ht);
    repeat (apply elem_of_cons in Ht' as [->|Ht']); try (by apply elem_of_nil in Ht'); done.
Qed.
End RecorderMarkers.
