(* ===== verification/ProfileCalls.v ===== *)
(** Sequences of valid calls of the profile's interface, as the effect of a
    recorder's operations: their composition, their cost, and what the calls that
    do not add stacks leave as it is. *)
From S2P Require Import Prelude BTree Types LibMappings StringTables SymbolTable LibTable.
From S2P Require Import Samples Markers ThreadModel ThreadSafety ProfileModel ProfileSafety ProfileRuns RecorderMarkers.
From stdpp Require Import options.
Open Scope Z_scope.

Module ProfileCalls.
Import Profile ProfileRuns RecorderMarkers.
Section profile_calls.
Context {D : DebugIdType}.

(** * Runs *)
Fixpoint run_cost (ops : list op) (p : Profile) : nat :=
  match ops with
  | [] => 0
  | o :: ops' =>
      cost o p + match apply_op o p with Ok p' => run_cost ops' p' | Panic => 0 end
  end.

Lemma run_app ops ops' p : run (ops ++ ops') p = run ops p ≫= run ops'.
Proof.
  revert p. induction ops as [|o ops IH]; intros p; [done|]. simpl.
  destruct (apply_op o p); simpl; [apply IH|done].
Qed.

Lemma run_cost_app ops ops' p p1 :
  run ops p = Ok p1 → run_cost (ops ++ ops') p = (run_cost ops p + run_cost ops' p1)%nat.
Proof.
  revert p. induction ops as [|o ops IH]; intros p; simpl; [by intros [= ->]|].
  destruct (apply_op o p) as [p'|]; simpl; [|done]. intros Hrun. rewrite (IH p') by done. lia.
Qed.

Lemma valid_run_app n ops ops' p p1 :
  valid_run n ops p → run ops p = Ok p1 →
  valid_run (n + run_cost ops p) ops' p1 → valid_run n (ops ++ ops') p.
Proof.
  revert n p. induction ops as [|o ops IH]; intros n p; simpl.
  { intros _ [= ->]. by rewrite Nat.add_0_r. }
  intros (Hv & Hc & Hr). destruct (apply_op o p) as [p'|]; simpl; [|done].
  intros Hrun Hv'. split_and!; [done..|]. apply IH; [done..|].
  by rewrite <-Nat.add_assoc.
Qed.

(** A run that is valid keeps the invariant at its cost. *)
Lemma run_cost_wf n ops p :
  wf n p → valid_run n ops p → ∃ p', run ops p = Ok p' ∧ wf (n + run_cost ops p) p'.
Proof.
  revert n p. induction ops as [|o ops IH]; intros n p Hwf; simpl.
  { intros _. exists p. by rewrite Nat.add_0_r. }
  intros (Hv & Hc & Hr). destruct (op_ok n o p Hwf Hv Hc) as (p' & Heq & Hwf').
  rewrite Heq in *. simpl. rewrite Nat.add_assoc. by apply IH.
Qed.

(** * What a recorder does to the profile before the samples are flushed *)

(** The calls that neither add a stack nor change one, with the marker types of
    the recorder. *)
Definition unsampled (o : op) : Prop :=
  match o with
  | AddMarker _ _ (Static t) _ _ _ => t ∈ recorder_types
  | AddSample _ _ _ _ _ | AddSampleSameStackZeroCpu _ _ _ | AddAllocationSample _ _ _ _ _
  | SetMarkerStack _ _ _ => False
  | _ => True
  end.
(** Those that also leave processes and threads as they are. *)
Definition quiet (o : op) : Prop :=
  unsampled o ∧
  match o with
  | AddProcess _ _ _ | SetProcessStartTime _ _ | SetProcessEndTime _ _ | SetProcessName _ _
  | AddThread _ _ _ _ | SetThreadName _ _ | SetThreadStartTime _ _ | SetThreadEndTime _ _
  | SetThreadTid _ _ => False
  | _ => True
  end.
Class Unsampled (Q : op → Prop) := unsampled_calls : ∀ o, Q o → unsampled o.
#[global] Instance unsampled_unsampled : Unsampled unsampled.
Proof. by intros o. Qed.
#[global] Instance quiet_unsampled : Unsampled quiet.
Proof. by intros o [? _]. Qed.

(** A category keeps its name and color. *)
Definition category_labels (p : Profile) : list (string * CategoryColor) :=
  (λ c, (category_name c, category_color c)) <$> categories p.

Definition num_marker_stacks (th : Thread.Thread) : nat :=
  length (MarkerTable.marker_stacks (Thread.markers th)).

(** The types that are registered under a name are types of the recorder. *)
Definition statics_known (p : Profile) : Prop :=
  ∀ name h, static_schema_marker_types p !! name = Some h →
    ∃ t, t ∈ recorder_types ∧ UNIQUE_MARKER_TYPE_NAME t = name ∧
      marker_schemas p !! h = Some (Schema.from_schema (schema t)).

(** Later profiles have what earlier ones had, and no library came into use. *)
Record evolves (p p' : Profile) : Prop := {
  evolves_strings : StringTable.extends (string_table p) (string_table p');
  evolves_libs : (num_libs p ≤ num_libs p')%nat;
  evolves_categories : category_labels p `prefix_of` category_labels p';
  evolves_threads : (length (threads p) ≤ length (threads p'))%nat;
  evolves_processes : (length (processes p) ≤ length (processes p'))%nat;
  evolves_counters : (length (counters p) ≤ length (counters p'))%nat;
  evolves_markers : ∀ h th, threads p !! h = Some th →
    ∃ th', threads p' !! h = Some th' ∧ (num_marker_stacks th ≤ num_marker_stacks th')%nat;
  evolves_statics : statics_known p → statics_known p';
  evolves_schemas : marker_schemas p `prefix_of` marker_schemas p';
  evolves_used : GlobalLibTable.used_libs (global_libs p') = GlobalLibTable.used_libs (global_libs p)
}.
#[global] Instance evolves_preorder : PreOrder evolves.
Proof.
  split; [intros p; split; try done; eauto|]. intros p1 p2 p3 [] [].
  split; [by etrans|lia|by etrans|lia|lia|lia| |auto|by etrans|congruence]. intros h th Hth.
  destruct (evolves_markers0 h th Hth) as (th2 & Hth2 & ?).
  destruct (evolves_markers1 h th2 Hth2) as (th3 & ? & ?). exists th3. split; [done|lia].
Qed.
(** All but the threads change. *)
Lemma evolves_same_threads p p' :
  StringTable.extends (string_table p) (string_table p') → (num_libs p ≤ num_libs p')%nat →
  category_labels p `prefix_of` category_labels p' → threads p = threads p' →
  (length (processes p) ≤ length (processes p'))%nat → (length (counters p) ≤ length (counters p'))%nat →
  (statics_known p → statics_known p') → marker_schemas p `prefix_of` marker_schemas p' →
  GlobalLibTable.used_libs (global_libs p') = GlobalLibTable.used_libs (global_libs p) → evolves p p'.
Proof. intros ? ? ? Hth ? ? ? ? ?. split; rewrite <-?Hth; eauto. Qed.
Lemma evolves_num_categories p p' : evolves p p' → (length (categories p) ≤ length (categories p'))%nat.
Proof.
  intros He. pose proof (prefix_length _ _ (evolves_categories _ _ He)) as Hlen.
  unfold category_labels in Hlen. by rewrite !length_fmap in Hlen.
Qed.
(** Inverts the binds of a call that returned. *)
#[local] Ltac call_inv :=
  repeat match goal with
  | H : mbind _ _ = Ok _ |- _ =>
      apply bind_Ok in H; let a := fresh "r" in let Ha := fresh "Hr" in destruct H as (a & Ha & H)
  | H : fst <$> _ = Ok _ |- _ =>
      apply fmap_Ok in H; let Hp := fresh in destruct H as ([? ?] & H & Hp); simpl in Hp; subst
  | H : Ok _ = Ok _ |- _ => injection H; clear H; intros; subst
  | H : index_set _ _ _ = Ok _ |- _ => apply index_set_Ok in H as [? ->]
  end.

Lemma insert_thread_evolves p h th th' used :
  threads p !! h = Some th → (num_marker_stacks th ≤ num_marker_stacks th')%nat →
  evolves p (with_threads p (<[h := th']> (threads p)) used).
Proof.
  intros Hth Hle. split; simpl; rewrite ?length_insert; try done. intros i t Hi.
  destruct (decide (i = h)) as [->|Hne].
  - exists th'. rewrite list_lookup_insert_eq by (by eapply lookup_lt_Some). by simplify_eq.
  - exists t. by rewrite list_lookup_insert_ne.
Qed.
Lemma update_thread_evolves p h f p' :
  update_thread p h f = Ok p' →
  (∀ th th', f th = Ok th' → (num_marker_stacks th ≤ num_marker_stacks th')%nat) → evolves p p'.
Proof.
  intros Heq Hf. unfold update_thread in Heq. call_inv. apply index_Ok in Hr.
  by eapply insert_thread_evolves, Hf.
Qed.
Lemma update_process_evolves p h f p' : update_process p h f = Ok p' → evolves p p'.
Proof.
  intros Heq. unfold update_process in Heq. call_inv. apply evolves_same_threads; try done.
  simpl. by rewrite length_insert.
Qed.
Lemma intern_string_evolves p s : evolves p (intern_string p s).1.
Proof.
  unfold intern_string. pose proof (StringTable.index_for_string_extends (string_table p) s).
  destruct (StringTable.index_for_string _ s). by apply evolves_same_threads.
Qed.
Lemma add_lib_evolves p l : evolves p (add_lib p l).1.
Proof.
  unfold add_lib, GlobalLibTable.handle_for_lib. destruct (_ !! l);
    apply evolves_same_threads; try done. unfold num_libs. simpl. unfold push. rewrite length_app. lia.
Qed.
Lemma statics_known_push p sc name t :
  statics_known p → t ∈ recorder_types → UNIQUE_MARKER_TYPE_NAME t = name → sc = Schema.from_schema (schema t) →
  statics_known (with_schemas p (string_table p) (push (marker_schemas p) sc)
    (<[name := length (marker_schemas p)]> (static_schema_marker_types p))).
Proof.
  intros Hk Ht Hn -> name' h. simpl. unfold push. intros [[<- <-]|[_ Hh]]%lookup_insert_Some.
  - exists t. by rewrite lookup_snoc.
  - destruct (Hk _ _ Hh) as (t' & ? & ? & ?). exists t'. split_and!; [done..|]. by apply lookup_app_l_Some.
Qed.
Lemma type_of_source_evolves type p :
  (∀ t, type = Static t → t ∈ recorder_types) → evolves p (type_of_source type p).1.
Proof.
  intros Hknown.
  destruct type as [h|t]; [done|]. simpl. unfold static_schema_marker_type.
  destruct (_ !! _); [done|]. apply evolves_same_threads; try done.
  - intros Hk. eapply statics_known_push; [done|by apply Hknown|done|done].
  - by apply prefix_app_r.
Qed.
Lemma add_marker_stacks th name h sc fields timing category strings th' i :
  Thread.add_marker th name h sc fields timing category strings = Ok (th', i) →
  num_marker_stacks th' = S (num_marker_stacks th) ∧
  i = length (MarkerTable.marker_categories (Thread.markers th)).
Proof.
  unfold Thread.add_marker, MarkerTable.add_marker. destruct (MarkerTable.split_timing timing) as [[s e] ph].
  destruct (MarkerTable.add_fields _ _ _ _ _ _ _) as [[[? ?] ?]|]; simpl; [|done].
  intros [= <- <-]. unfold num_marker_stacks, push. simpl. rewrite !length_app. simpl. split; lia.
Qed.

Lemma convert_string_stacks th strings i th' l :
  Thread.convert_string_index th strings i = Ok (th', l) → Thread.markers th' = Thread.markers th.
Proof.
  unfold Thread.convert_string_index. destruct (ThreadStringTable.index_for_global_string _ _ _) as [[? ?]|]; simpl; [|done].
  by intros [= <- _].
Qed.

Lemma unsampled_evolves o p p' : unsampled o → apply_op o p = Ok p' → evolves p p'.
Proof.
  intros Hq Heq. destruct o; try done; cbn [apply_op] in Heq;
    try (eapply update_thread_evolves; [done|]; by intros th th' [= <-]);
    try (by eapply update_process_evolves); call_inv;
    try (by apply evolves_same_threads); try apply intern_string_evolves; try apply add_lib_evolves.
  - apply evolves_same_threads; try done. unfold category_labels. simpl. unfold push.
    rewrite fmap_app. by apply prefix_app_r.
  - unfold add_subcategory in Heq. call_inv. destruct r0 as [c' i]. call_inv.
    apply evolves_same_threads; try done. unfold category_labels. cbn [categories with_categories].
    unfold Category_add_subcategory in *. call_inv. apply index_Ok in Hr.
    rewrite list_fmap_insert. rewrite list_insert_id; [done|]. by rewrite list_lookup_fmap, Hr.
  - unfold add_process. destruct (make_unique_pid_or_tid _ _). apply evolves_same_threads; try done.
    simpl. unfold push. rewrite length_app. lia.
  - unfold add_counter in Heq. call_inv. apply evolves_same_threads; try done. simpl. unfold push.
    rewrite length_app. lia.
  - unfold set_lib_symbol_table, GlobalLibTable.set_lib_symbol_table in Heq. call_inv.
    apply evolves_same_threads; try done. unfold num_libs. simpl. by rewrite length_insert.
  - unfold add_kernel_lib_mapping in Heq. call_inv. by apply evolves_same_threads.
  - unfold add_thread in Heq. destruct (make_unique_pid_or_tid _ _). call_inv.
    etrans; [|by eapply update_process_evolves]. split; simpl; unfold push; rewrite ?length_app; try done; [lia|].
    intros h th Hth. exists th. split; [by apply lookup_app_l_Some|done].
  - unfold set_thread_tid in Heq. destruct (make_unique_pid_or_tid _ _).
    etrans; [|eapply update_thread_evolves; [done|]; by intros th th' [= <-]]. by apply evolves_same_threads.
  - apply evolves_same_threads; try done; [|by apply prefix_app_r]. intros Hk name h Hh.
    destruct (Hk name h Hh) as (t & ? & ? & ?). exists t. split_and!; [done..|]. simpl. unfold push.
    by apply lookup_app_l_Some.
  - unfold add_marker in Heq. cbn [marker_type marker_name marker_category marker_of] in Heq.
    assert (∀ t, type = Static t → t ∈ recorder_types) as Hknown by (by intros t ->).
    pose proof (type_of_source_evolves type p Hknown) as Ht. destruct (type_of_source type p) as [p1 h1].
    call_inv. destruct r0 as [th1 l]. call_inv. destruct r1 as [th2 i]. call_inv.
    etrans; [exact Ht|]. apply index_Ok in Hr. eapply insert_thread_evolves; [done|].
    apply add_marker_stacks in Hr2 as [-> _].
    apply convert_string_stacks in Hr0. unfold num_marker_stacks. rewrite Hr0. lia.
  - unfold add_counter_sample in Heq. call_inv. apply evolves_same_threads; try done. simpl. by rewrite length_insert.
Qed.

(** ** What the calls of a component leave as it is *)
Definition thread_names (p : Profile) : list (option string) := Thread.name <$> threads p.
Definition process_names (p : Profile) : list string := Process.name <$> processes p.

Lemma fmap_insert_id {A B} (f : A → B) (l : list A) i x y :
  l !! i = Some x → f y = f x → f <$> <[i := y]> l = f <$> l.
Proof.
  intros Hi Hf. rewrite list_fmap_insert, Hf. apply list_insert_id. by rewrite list_lookup_fmap, Hi.
Qed.

Lemma quiet_names o p p' :
  quiet o → apply_op o p = Ok p' → thread_names p' = thread_names p ∧ process_names p' = process_names p.
Proof.
  intros [Hu Hq] Heq. destruct o; try done; cbn [apply_op] in Heq;
    unfold add_lib_mapping, remove_lib_mapping, clear_process_lib_mappings, update_process in Heq;
    call_inv; try done;
    try (split; [done|]; apply index_Ok in Hr; by eapply fmap_insert_id).
  - unfold add_subcategory in Heq. call_inv. by destruct r0; call_inv.
  - unfold add_counter in Heq. by call_inv.
  - unfold add_lib. by destruct (GlobalLibTable.handle_for_lib _ _).
  - unfold set_lib_symbol_table in Heq. by call_inv.
  - unfold Process.add_lib_mapping in Hr0. call_inv. split; [done|]. apply index_Ok in Hr.
    by eapply fmap_insert_id.
  - unfold add_kernel_lib_mapping in Heq. by call_inv.
  - unfold intern_string. by destruct (StringTable.index_for_string _ _).
  - unfold add_marker in Heq. cbn [marker_type marker_name marker_category marker_of] in Heq.
    assert (threads (type_of_source type p).1 = threads p ∧ processes (type_of_source type p).1 = processes p)
      as [Ht Hp].
    { destruct type as [h|t]; [done|]. simpl. unfold static_schema_marker_type.
      by destruct (_ !! _). }
    destruct (type_of_source type p) as [p1 h1]. call_inv. destruct r0 as [th1 l]. call_inv.
    destruct r1 as [th2 i]. call_inv. unfold thread_names, process_names. simpl in *. rewrite Ht, Hp in *.
    split; [|done]. apply index_Ok in Hr. eapply fmap_insert_id; [done|].
    unfold Thread.add_marker in Hr2. destruct (MarkerTable.add_marker _ _ _ _ _ _ _ _) as [[[? ?] ?]|];
      simpl in Hr2; [|done]. injection Hr2 as <- <-. simpl.
    unfold Thread.convert_string_index in Hr0.
    destruct (ThreadStringTable.index_for_global_string _ _ _) as [[? ?]|]; simpl in Hr0; [|done].
    by injection Hr0 as <- _.
  - unfold add_counter_sample in Heq. by call_inv.
Qed.

(** ** Sequences of calls *)
Section calls.
Context (Q : op → Prop).

(** Each call is valid when it is made (the size of the tables aside). *)
Fixpoint calls_valid (ops : list op) (p : Profile) : Prop :=
  match ops with
  | [] => True
  | o :: ops' => Q o ∧ op_valid o p ∧
      match apply_op o p with Ok p' => calls_valid ops' p' | Panic => False end
  end.

(** [p'] is what at most [k] growth and valid calls with [Q] make of [p]. *)
Definition by_calls_of (k : nat) (p p' : Profile) : Prop :=
  ∃ ops, calls_valid ops p ∧ run ops p = Ok p' ∧ (run_cost ops p ≤ k)%nat.

Lemma calls_of_refl k p : by_calls_of k p p.
Proof. exists []. split_and!; [done|done|simpl; lia]. Qed.

Lemma calls_valid_app ops ops' p p1 :
  calls_valid ops p → run ops p = Ok p1 → calls_valid ops' p1 → calls_valid (ops ++ ops') p.
Proof.
  revert p. induction ops as [|o ops IH]; intros p; simpl; [by intros _ [= ->]|].
  intros (Hq & Hv & Hr). destruct (apply_op o p) as [p'|]; [|done]. simpl. intros Hrun Hv'.
  split_and!; [done..|]. by eapply IH.
Qed.

Lemma calls_of_trans j k p1 p2 p3 :
  by_calls_of j p1 p2 → by_calls_of k p2 p3 → by_calls_of (j + k) p1 p3.
Proof.
  intros (ops & Hv & Hr & Hc) (ops' & Hv' & Hr' & Hc'). exists (ops ++ ops'). split_and!.
  - by eapply calls_valid_app.
  - rewrite run_app, Hr. done.
  - rewrite (run_cost_app _ _ _ p2) by done. lia.
Qed.

Lemma calls_of_weaken j k p p' : (j ≤ k)%nat → by_calls_of j p p' → by_calls_of k p p'.
Proof. intros Hle (ops & ? & ? & ?). exists ops. split_and!; [done..|lia]. Qed.

Lemma call_of k o p p' :
  Q o → op_valid o p → apply_op o p = Ok p' → (cost o p ≤ k)%nat → by_calls_of k p p'.
Proof.
  intros Hq Hv Ha Hc. exists [o]. simpl. rewrite Ha. split_and!; [done..|simpl; lia].
Qed.

Lemma calls_of_inv (R : relation Profile) `{!PreOrder R} k p p' :
  (∀ o p p', Q o → apply_op o p = Ok p' → R p p') → by_calls_of k p p' → R p p'.
Proof.
  intros HR (ops & Hv & Hr & _). revert p Hv Hr. induction ops as [|o ops IH]; intros p; simpl.
  { by intros _ [= ->]. }
  intros (Hq & Ho & Hv). destruct (apply_op o p) as [p1|] eqn:Ha; [|done]. simpl. intros Hr.
  etrans; [by eapply HR|by apply IH].
Qed.

Lemma calls_of_evolves `{!Unsampled Q} k p p' : by_calls_of k p p' → evolves p p'.
Proof. apply calls_of_inv; [apply _|]. intros o q q' Ho. by apply unsampled_evolves, unsampled_calls. Qed.

(** The calls with the size of the tables. *)
Lemma calls_valid_run n ops p :
  calls_valid ops p → Z.of_nat (n + run_cost ops p) < 2 ^ 32 → valid_run n ops p.
Proof.
  revert n p. induction ops as [|o ops IH]; intros n p; simpl; [done|].
  intros (_ & Ho & Hv). destruct (apply_op o p) as [p1|] eqn:Ha; [|done]. intros Hn.
  split_and!; [done|lia|]. apply IH; [done|lia].
Qed.

Lemma calls_of_wf n k p p' :
  by_calls_of k p p' → wf n p → Z.of_nat (n + k) < 2 ^ 32 → wf (n + k) p'.
Proof.
  intros (ops & Hv & Hr & Hc) Hwf Hn.
  destruct (run_cost_wf n ops p Hwf) as (p1 & Hr1 & Hwf1).
  { apply calls_valid_run; [done|lia]. }
  assert (p1 = p') as -> by congruence. apply (wf_weaken _ _ _ Hwf1). lia.
Qed.
End calls.
#[global] Arguments calls_of_refl {Q}.
#[global] Arguments calls_valid_app {Q}.
#[global] Arguments calls_of_trans {Q}.
#[global] Arguments calls_of_weaken {Q}.
#[global] Arguments call_of {Q}.
#[global] Arguments calls_of_inv {Q}.
#[global] Arguments calls_of_evolves {Q _}.
#[global] Arguments calls_valid_run {Q}.
#[global] Arguments calls_of_wf {Q}.
#[local] Notation by_calls := (by_calls_of quiet).
#[local] Notation by_calls_refl := (calls_of_refl (Q:=quiet)) (only parsing).
#[local] Notation by_calls_trans := (calls_of_trans (Q:=quiet)) (only parsing).
#[local] Notation by_calls_weaken := (calls_of_weaken (Q:=quiet)) (only parsing).
#[local] Notation by_calls_inv := (calls_of_inv (Q:=quiet)) (only parsing).
#[local] Notation by_calls_evolves := (calls_of_evolves (Q:=quiet)) (only parsing).
#[local] Notation by_calls_wf := (calls_of_wf (Q:=quiet)) (only parsing).
#[local] Notation by_call := (call_of (Q:=quiet)) (only parsing).

Lemma calls_valid_impl (Q Q' : op → Prop) ops p :
  (∀ o, Q o → Q' o) → calls_valid Q ops p → calls_valid Q' ops p.
Proof.
  intros HQ. revert p. induction ops as [|o ops IH]; intros p; simpl; [done|].
  intros (? & ? & Hv). split_and!; [auto|done|]. destruct (apply_op o p); [by apply IH|done].
Qed.
Lemma by_calls_impl (Q Q' : op → Prop) k p p' :
  (∀ o, Q o → Q' o) → by_calls_of Q k p p' → by_calls_of Q' k p p'.
Proof.
  intros HQ (ops & Hv & ? & ?). exists ops. split_and!; [|done..]. by eapply calls_valid_impl.
Qed.

(** A component that makes quiet calls only renames nothing. *)
Lemma by_calls_names k p p' :
  by_calls k p p' → thread_names p' = thread_names p ∧ process_names p' = process_names p.
Proof.
  set (R p p' := thread_names p' = thread_names p ∧ process_names p' = process_names p).
  assert (PreOrder R) by (split; [done|]; intros p1 p2 p3 [] []; split; congruence).
  intros Hby. refine (calls_of_inv R _ k p p' _ Hby). intros o q q'. apply quiet_names.
Qed.

Lemma intern_string_spec n p s p' i :
  wf n p → Z.of_nat (n + 1) < 2 ^ 32 → intern_string p s = (p', i) →
  by_calls 1 p p' ∧ StringTable.get_string (string_table p') i = Some s.
Proof.
  intros Hwf Hn Heq. split.
  { apply (by_call 1 (InternString s)); try done. simpl. by rewrite Heq. }
  pose proof (wf_env _ _ Hwf) as [Hs _ _ _]. simpl in Hs.
  pose proof (StringTable.get_index_for_string (string_table p) s Hs) as Hget.
  pose proof (StringTable.index_for_string_length (string_table p) s).
  pose proof (wf_strings _ _ Hwf). unfold intern_string in Heq.
  destruct (StringTable.index_for_string _ _) as [st j]. injection Heq as <- <-. simpl in *.
  apply Hget. unfold StringTable.fits. lia.
Qed.

Lemma add_category_spec p name color p' h :
  add_category p name color = (p', h) →
  by_calls 0 p p' ∧ category_labels p' = category_labels p ++ [(name, color)] ∧
  h = wrap_u16 (Z.of_nat (length (categories p))) ∧ length (categories p') = S (length (categories p)).
Proof.
  intros Heq. split; [|injection Heq as <- <-].
  { apply (by_call 0 (AddCategory name color)); try done. cbn [apply_op]. by rewrite Heq. }
  unfold category_labels. simpl. unfold push. rewrite fmap_app, length_app. simpl.
  split_and!; [done|done|lia].
Qed.

(** Libraries are valid from when they are added; their symbol table can be set
    as long as no library is in use. *)
Lemma add_lib_spec p library p' h :
  add_lib p library = (p', h) → LibraryInfo.symbol_table library = None → GlobalLibTable.wf (global_libs p) →
  by_calls 0 p p' ∧ (h < num_libs p')%nat.
Proof.
  intros Heq Hnone [keys Hwf]. split.
  { apply (by_call 0 (AddLib library)); try done; cbn [apply_op op_valid]; [congruence|by rewrite Heq]. }
  destruct (GlobalLibTable.handle_for_lib_wf keys _ library Hwf) as (keys' & Hwf' & Hrest).
  unfold add_lib in Heq. destruct (GlobalLibTable.handle_for_lib _ _) as [g j].
  injection Heq as <- <-. unfold num_libs. simpl in *. destruct Hrest as [_ Hh].
  rewrite <-(Forall2_length _ _ _ (GlobalLibTable.wf_all_libs _ _ Hwf')). by eapply lookup_lt_Some.
Qed.
Lemma set_lib_symbol_table_spec n p h syms :
  wf n p → Z.of_nat n < 2 ^ 32 → (h < num_libs p)%nat → GlobalLibTable.used_libs (global_libs p) = [] →
  ∃ p' library, set_lib_symbol_table p h (SymbolTable.new syms) = Ok p' ∧ by_calls 0 p p' ∧
    GlobalLibTable.all_libs (global_libs p') !! h = Some library ∧
    LibraryInfo.symbol_table library = Some (SymbolTable.new syms).
Proof.
  intros Hwf Hn Hh Hused.
  assert (op_valid (SetLibSymbolTable h syms) p) as Hv by (split; [done|]; rewrite Hused; set_solver).
  destruct (op_ok n _ p Hwf Hv) as (p' & Heq & _); [simpl; lia|].
  cbn [apply_op] in Heq. pose proof Heq as Hset. unfold set_lib_symbol_table, GlobalLibTable.set_lib_symbol_table in Heq.
  call_inv. eexists _, _. split_and!; [done| | |].
  - apply (by_call 0 (SetLibSymbolTable h syms)); done.
  - simpl. by apply list_lookup_insert_eq.
  - done.
Qed.

(** ** A profile while it is recorded: no library is in use yet *)
Record recording (p : Profile) : Prop := {
  recording_statics : statics_known p;
  recording_used : GlobalLibTable.used_libs (global_libs p) = [];
  recording_categories : categories p ≠ []
}.
Lemma recording_evolves p p' : evolves p p' → recording p → recording p'.
Proof.
  intros He []. pose proof (evolves_num_categories _ _ He). split.
  - by apply (evolves_statics _ _ He).
  - by rewrite (evolves_used _ _ He).
  - intros Hnil. rewrite Hnil in *. destruct (categories p); simpl in *; [done|lia].
Qed.
Lemma recording_new product' t i : recording (new product' t i).
Proof. by split. Qed.

Lemma frames_valid_evolves p p' frames : evolves p p' → frames_valid p frames → frames_valid p' frames.
Proof.
  intros He Hfs. pose proof (evolves_libs _ _ He). pose proof (evolves_num_categories _ _ He).
  eapply Forall_impl; [exact Hfs|]. intros f [Hcat Hf]. split; [unfold ThreadSafety.category_ok in *; lia|].
  destruct (frame f); try done; try lia. destruct Hf as [x Hx]. exists x.
  eapply StringTable.get_string_extends; [apply (evolves_strings _ _ He)|done].
Qed.

(** ** Markers of a type with a static schema *)

(** Registering the type and interning the name commute. *)
Lemma static_marker_calls p thread timing t name fields :
  add_marker p thread timing (static_marker t name fields) =
  let '(p0, h) := match name with inl h => (p, h) | inr s => intern_string p s end in
  add_marker p0 thread timing (marker_of (Static t) h CategoryHandle_OTHER fields).
Proof.
  destruct name as [h|s]; [done|]. unfold add_marker.
  cbn [static_marker marker_type marker_name marker_category marker_fields].
  unfold static_schema_marker_type.
  destruct (static_schema_marker_types p !! UNIQUE_MARKER_TYPE_NAME t) as [i|] eqn:E;
    unfold intern_string; cbn [string_table with_schemas];
    destruct (StringTable.index_for_string (string_table p) s) as [st h] eqn:Es;
    cbn [marker_of marker_type marker_name marker_category marker_fields type_of_source];
    unfold static_schema_marker_type; cbn [static_schema_marker_types with_schemas]; by rewrite E.
Qed.

(** The schema a marker of type [t] is stored with: the one that was registered
    under the type's name first. *)
Definition schema_in_force (p : Profile) (t : StaticSchema) : option Schema.InternalMarkerSchema :=
  match static_schema_marker_types p !! UNIQUE_MARKER_TYPE_NAME t with
  | Some h => marker_schemas p !! h
  | None => Some (Schema.from_schema (schema t))
  end.

Lemma schema_in_force_source p t :
  let '(p1, h) := type_of_source (Static t) p in
  marker_schemas p1 !! h = schema_in_force p t ∧ string_table p1 = string_table p.
Proof.
  simpl. unfold schema_in_force, static_schema_marker_type.
  destruct (static_schema_marker_types p !! _); simpl; [done|]. unfold push. by rewrite lookup_snoc.
Qed.

Lemma schema_in_force_known p t :
  statics_known p → t ∈ recorder_types →
  schema_in_force p t = Some (Schema.from_schema (schema t)).
Proof.
  intros Hk Ht. unfold schema_in_force.
  destruct (static_schema_marker_types p !! _) as [h|] eqn:E; [|done].
  destruct (Hk _ _ E) as (t' & Ht' & Hname & ->). by rewrite (recorder_type_name t t').
Qed.

Lemma add_static_marker_ok n p thread timing t name fields sc :
  wf n p → t ∈ recorder_types → schema_in_force p t = Some sc →
  Z.of_nat (n + 2 + length (Schema.fields sc)) < 2 ^ 32 → (thread < length (threads p))%nat →
  (∀ h, name = inl h → is_Some (StringTable.get_string (string_table p) h)) →
  (∀ i field, Schema.fields sc !! i = Some field → MarkerTable.field_ok (string_table p) fields i field) →
  ∃ p' handle th', add_marker p thread timing (static_marker t name fields) = Ok (p', handle) ∧
    by_calls (2 + length (Schema.fields sc)) p p' ∧
    threads p' !! thread = Some th' ∧ (handle < num_marker_stacks th')%nat.
Proof.
  intros Hwf Ht Hsc Hn Hth Hname Hfields. rewrite static_marker_calls.
  assert (∃ p0 h, match name with inl h => (p, h) | inr s => intern_string p s end = (p0, h) ∧
    by_calls 1 p p0 ∧ is_Some (StringTable.get_string (string_table p0) h) ∧
    schema_in_force p0 t = Some sc) as (p0 & h & -> & Hby & Hh & Hsc0).
  { destruct name as [h|s].
    - exists p, h. split_and!; [done|apply by_calls_refl|by apply Hname|done].
    - destruct (intern_string p s) as [p0 h] eqn:Hi.
      destruct (intern_string_spec n p s p0 h Hwf) as [Hby Hget]; [lia|done|].
      exists p0, h. split_and!; [done|done|by eexists|]. unfold intern_string in Hi.
      destruct (StringTable.index_for_string _ _). by injection Hi as <- _. }
  pose proof (by_calls_wf _ _ _ _ Hby Hwf) as Hwf0. pose proof (by_calls_evolves _ _ _ Hby) as He.
  set (o := AddMarker thread timing (Static t) h CategoryHandle_OTHER fields).
  pose proof (schema_in_force_source p0 t) as Hs.
  assert (op_valid o p0) as Hv.
  { split_and!; [pose proof (evolves_threads _ _ He); lia|done|].
    destruct (type_of_source (Static t) p0) as [p1 i]. destruct Hs as [Hs Hst].
    exists sc. split; [congruence|]. intros j field Hj. specialize (Hfields j field Hj).
    unfold MarkerTable.field_ok in *. destruct (Schema.kind _); [|done]. destruct Hfields as [x Hx].
    exists x. eapply MarkerTable.field_string_mono; [apply (evolves_strings _ _ He)|done]. }
  assert (cost o p0 = 1 + length (Schema.fields sc))%nat as Hcost.
  { unfold o, cost. destruct (type_of_source (Static t) p0) as [p1 i]. destruct Hs as [Hs _].
    by rewrite Hs, Hsc0. }
  destruct (op_ok (n + 1) o p0) as (p' & Heq & Hwf'); [apply Hwf0; lia|done|rewrite Hcost; lia|].
  pose proof Heq as Hadd. cbn [apply_op] in Hadd. apply fmap_Ok in Hadd as ([p'' handle] & Hadd & Hp).
  simpl in Hp. subst p''. rewrite Hadd.
  assert (∃ th', threads p' !! thread = Some th' ∧ (handle < num_marker_stacks th')%nat) as (th' & Hth' & Hlt).
  { pose proof (wf_threads _ _ Hwf') as Hall. rewrite Forall_lookup in Hall.
    unfold add_marker in Hadd. cbn [marker_type marker_name marker_category marker_of] in Hadd.
    destruct (type_of_source (Static t) p0) as [p1 i].
    call_inv. destruct r0 as [th1 l]. call_inv. destruct r1 as [th2 j]. call_inv.
    exists th2. cbn [threads with_threads] in *. rewrite list_lookup_insert_eq by done. split; [done|].
    specialize (Hall thread th2). rewrite list_lookup_insert_eq in Hall by done.
    destruct (Hall eq_refl) as [keys Hk]. destruct (ThreadSafety.wf_markers _ _ _ _ Hk) as [rows Hrows].
    pose proof (MarkerTable.wf_marker_categories _ _ _ _ _ Hrows) as H1.
    pose proof (f_equal length (MarkerTable.wf_stacks _ _ _ _ _ Hrows)) as H2. rewrite length_fmap in H2.
    fold (num_marker_stacks th2) in H2. apply index_Ok in Hr.
    unfold Thread.add_marker, MarkerTable.add_marker in Hr2.
    destruct (MarkerTable.split_timing timing) as [[? ?] ?].
    destruct (MarkerTable.add_fields _ _ _ _ _ _ _) as [[[? ?] ?]|]; simpl in Hr2; [|done].
    injection Hr2 as <- <-. simpl in *. unfold push in *. rewrite length_app in *. simpl in *. lia. }
  exists p', handle, th'. split_and!; [done| |done|done].
  apply (by_calls_trans 1 (1 + length (Schema.fields sc)) _ p0); [done|].
  apply (by_call _ o); [done..|lia].
Qed.
End profile_calls.
(** The calls of a component that leaves processes and threads as they are. *)
Notation by_calls := (by_calls_of quiet).
Notation by_calls_refl := (calls_of_refl (Q:=quiet)) (only parsing).
Notation by_calls_trans := (calls_of_trans (Q:=quiet)) (only parsing).
Notation by_calls_weaken := (calls_of_weaken (Q:=quiet)) (only parsing).
Notation by_calls_inv := (calls_of_inv (Q:=quiet)) (only parsing).
Notation by_calls_evolves := (calls_of_evolves (Q:=quiet)) (only parsing).
Notation by_calls_wf := (calls_of_wf (Q:=quiet)) (only parsing).
Notation by_call := (call_of (Q:=quiet)) (only parsing).
(** The calls of the recorder itself. *)
Notation changes := (by_calls_of unsampled).
Notation changes_refl := (calls_of_refl (Q:=unsampled)) (only parsing).
Notation changes_trans := (calls_of_trans (Q:=unsampled)) (only parsing).
Notation changes_weaken := (calls_of_weaken (Q:=unsampled)) (only parsing).
Notation changes_evolves := (calls_of_evolves (Q:=unsampled)) (only parsing).
Notation changes_wf := (calls_of_wf (Q:=unsampled)) (only parsing).

Section recorder_calls.
Context {D : DebugIdType}.

Lemma by_calls_changes k p p' : by_calls k p p' → changes k p p'.
Proof. apply by_calls_impl. by intros o [? _]. Qed.

(** ** Processes and threads *)
Lemma add_thread_spec p process tid t is_main :
  (process < length (processes p))%nat →
  ∃ p', add_thread p process tid t is_main = Ok (p', length (threads p)) ∧ changes 0 p p' ∧
    thread_names p' = thread_names p ++ [None] ∧ process_names p' = process_names p.
Proof.
  intros Hp. destruct (lookup_lt_is_Some_2 _ _ Hp) as [pr Hpr].
  assert (∃ p', add_thread p process tid t is_main = Ok (p', length (threads p)) ∧
    thread_names p' = thread_names p ++ [None] ∧ process_names p' = process_names p)
    as (p' & Heq & Ht & Hn).
  { unfold add_thread. destruct (make_unique_pid_or_tid _ _) as [used tid']. unfold update_process. simpl.
    rewrite (proj2 (index_Ok _ _ _) Hpr). simpl. unfold index_set. rewrite decide_True by done. simpl.
    eexists. split; [done|]. unfold thread_names, process_names. simpl. unfold push. rewrite fmap_app.
    split; [done|]. by eapply fmap_insert_id. }
  exists p'. split_and!; try done. apply (call_of (Q:=unsampled) 0 (AddThread process tid t is_main)); try done.
  cbn [apply_op]. by rewrite Heq.
Qed.

Lemma update_thread_spec p h (f : Thread.Thread → res Thread.Thread) o :
  (h < length (threads p))%nat → unsampled o → op_valid o p → apply_op o p = update_thread p h f →
  cost o p = 0%nat → (∀ th, is_Ok (f th)) →
  ∃ p' th th', update_thread p h f = Ok p' ∧ changes 0 p p' ∧ threads p !! h = Some th ∧
    f th = Ok th' ∧ thread_names p' = <[h := Thread.name th']> (thread_names p) ∧
    process_names p' = process_names p.
Proof.
  intros Hh Ho Hv Hop Hc Hf. destruct (lookup_lt_is_Some_2 _ _ Hh) as [th Hth].
  destruct (Hf th) as [th' Hth']. pose proof (update_thread_Ok p h th th' f Hth Hth') as Heq.
  rewrite Heq in *. eexists _, th, th'. split_and!; try done.
  - apply (call_of (Q:=unsampled) 0 o); [done..|lia].
  - unfold thread_names. simpl. by rewrite list_fmap_insert.
Qed.
Lemma set_thread_name_spec p h name :
  (h < length (threads p))%nat →
  ∃ p', set_thread_name p h name = Ok p' ∧ changes 0 p p' ∧
    thread_names p' = <[h := Some name]> (thread_names p) ∧ process_names p' = process_names p.
Proof.
  intros Hh. destruct (update_thread_spec p h (λ th, Ok (Thread.set_name th name)) (SetThreadName h name))
    as (p' & th & th' & Heq & Hch & _ & Hth & Hn & Hp); try done; [by eexists|].
  exists p'. injection Hth as <-. by split_and!.
Qed.
Lemma same_name_update p h f o :
  (h < length (threads p))%nat → unsampled o → op_valid o p → apply_op o p = update_thread p h f →
  cost o p = 0%nat → (∀ th, ∃ th', f th = Ok th' ∧ Thread.name th' = Thread.name th) →
  ∃ p', update_thread p h f = Ok p' ∧ changes 0 p p' ∧ thread_names p' = thread_names p ∧
    process_names p' = process_names p.
Proof.
  intros Hh Ho Hv Hop Hc Hf. destruct (update_thread_spec p h f o Hh Ho Hv Hop Hc)
    as (p' & th & th' & Heq & Hch & Hth & Hth' & Hn & Hp).
  { intros th. destruct (Hf th) as (th' & -> & _). by eexists. }
  exists p'. split_and!; try done. destruct (Hf th) as (th2 & ? & Hname).
  assert (th2 = th') as -> by congruence.
  rewrite Hn, Hname. unfold thread_names. apply list_insert_id. by rewrite list_lookup_fmap, Hth.
Qed.
Lemma set_thread_start_time_spec p h t :
  (h < length (threads p))%nat →
  ∃ p', set_thread_start_time p h t = Ok p' ∧ changes 0 p p' ∧ thread_names p' = thread_names p ∧
    process_names p' = process_names p.
Proof. intros Hh. apply (same_name_update p h _ (SetThreadStartTime h t)); try done. by eexists. Qed.
Lemma set_thread_end_time_spec p h t :
  (h < length (threads p))%nat →
  ∃ p', set_thread_end_time p h t = Ok p' ∧ changes 0 p p' ∧ thread_names p' = thread_names p ∧
    process_names p' = process_names p.
Proof. intros Hh. apply (same_name_update p h _ (SetThreadEndTime h t)); try done. by eexists. Qed.

Lemma add_process_spec p name pid t :
  ∃ p', add_process p name pid t = (p', length (processes p)) ∧ changes 0 p p' ∧
    thread_names p' = thread_names p ∧ process_names p' = process_names p ++ [name].
Proof.
  destruct (add_process p name pid t) as [p' h] eqn:Heq.
  assert (changes 0 p p') as Hch.
  { apply (call_of (Q:=unsampled) 0 (AddProcess name pid t)); try done. cbn [apply_op]. by rewrite Heq. }
  unfold add_process in Heq. destruct (make_unique_pid_or_tid _ _). injection Heq as <- <-.
  eexists. split_and!; try done. unfold process_names. simpl. unfold push. by rewrite fmap_app.
Qed.
Lemma update_process_spec p h (f : Process.Process → res Process.Process) o :
  (h < length (processes p))%nat → unsampled o → op_valid o p → apply_op o p = update_process p h f →
  cost o p = 0%nat → (∀ pr, is_Ok (f pr)) →
  ∃ p' pr pr', update_process p h f = Ok p' ∧ changes 0 p p' ∧ processes p !! h = Some pr ∧
    f pr = Ok pr' ∧ process_names p' = <[h := Process.name pr']> (process_names p) ∧
    thread_names p' = thread_names p.
Proof.
  intros Hh Ho Hv Hop Hc Hf. destruct (lookup_lt_is_Some_2 _ _ Hh) as [pr Hpr].
  destruct (Hf pr) as [pr' Hpr'].
  assert (update_process p h f = Ok (with_processes p (<[h := pr']> (processes p)) (used_pids p))) as Heq.
  { unfold update_process. rewrite (proj2 (index_Ok _ _ _) Hpr). simpl. rewrite Hpr'. simpl.
    unfold index_set. by rewrite decide_True by done. }
  rewrite Heq in *. eexists _, pr, pr'. split_and!; try done.
  - apply (call_of (Q:=unsampled) 0 o); [done..|lia].
  - unfold process_names. simpl. by rewrite list_fmap_insert.
Qed.
Lemma set_process_name_spec p h name :
  (h < length (processes p))%nat →
  ∃ p', set_process_name p h name = Ok p' ∧ changes 0 p p' ∧
    process_names p' = <[h := name]> (process_names p) ∧ thread_names p' = thread_names p.
Proof.
  intros Hh. destruct (update_process_spec p h (λ pr, Ok (Process.set_name pr name)) (SetProcessName h name))
    as (p' & pr & pr' & Heq & Hch & _ & Hpr & Hn & Hp); try done; [by eexists|].
  exists p'. injection Hpr as <-. by split_and!.
Qed.
Lemma same_process_name p h f o :
  (h < length (processes p))%nat → unsampled o → op_valid o p → apply_op o p = update_process p h f →
  cost o p = 0%nat → (∀ pr, ∃ pr', f pr = Ok pr' ∧ Process.name pr' = Process.name pr) →
  ∃ p', update_process p h f = Ok p' ∧ changes 0 p p' ∧ thread_names p' = thread_names p ∧
    process_names p' = process_names p.
Proof.
  intros Hh Ho Hv Hop Hc Hf. destruct (update_process_spec p h f o Hh Ho Hv Hop Hc)
    as (p' & pr & pr' & Heq & Hch & Hpr & Hpr' & Hn & Hp).
  { intros pr. destruct (Hf pr) as (pr' & -> & _). by eexists. }
  exists p'. split_and!; try done. destruct (Hf pr) as (pr2 & ? & Hname).
  assert (pr2 = pr') as -> by congruence.
  rewrite Hn, Hname. unfold process_names. apply list_insert_id. by rewrite list_lookup_fmap, Hpr.
Qed.
Lemma set_process_start_time_spec p h t :
  (h < length (processes p))%nat →
  ∃ p', set_process_start_time p h t = Ok p' ∧ changes 0 p p' ∧ thread_names p' = thread_names p ∧
    process_names p' = process_names p.
Proof. intros Hh. apply (same_process_name p h _ (SetProcessStartTime h t)); try done. by eexists. Qed.
Lemma set_process_end_time_spec p h t :
  (h < length (processes p))%nat →
  ∃ p', set_process_end_time p h t = Ok p' ∧ changes 0 p p' ∧ thread_names p' = thread_names p ∧
    process_names p' = process_names p.
Proof. intros Hh. apply (same_process_name p h _ (SetProcessEndTime h t)); try done. by eexists. Qed.
End recorder_calls.
End ProfileCalls.
