(* ===== verification/ContextSwitch.v ===== *)
(** CPU deltas and simulated off-CPU samples from context switches:
    [ContextSwitchHandler] of samply/src/shared/context_switch.rs. *)
From S2P Require Import Prelude.
From stdpp Require Import options.
Open Scope Z_scope.

Module ContextSwitch.

(** * Data *)
Inductive ThreadState :=
| Unknown
| Off (off_switch_timestamp : Z)
| On (last_observed_on_timestamp : Z).
Record ThreadContextSwitchData := {
  state : ThreadState;
  on_cpu_duration_since_last_sample : Z;
  off_cpu_duration_since_last_off_cpu_sample : Z
}.
Definition default : ThreadContextSwitchData :=
  {| state := Unknown; on_cpu_duration_since_last_sample := 0;
     off_cpu_duration_since_last_off_cpu_sample := 0 |}.
Record OffCpuSampleGroup := { begin_timestamp : Z; end_timestamp : Z; sample_count : Z }.
(** [ContextSwitchHandler]: the off-CPU sampling interval in nanoseconds. *)
Record ContextSwitchHandler := { off_cpu_sampling_interval_ns : Z }.

Definition with_state (th : ThreadContextSwitchData) (s : ThreadState) : ThreadContextSwitchData :=
  {| state := s; on_cpu_duration_since_last_sample := on_cpu_duration_since_last_sample th;
     off_cpu_duration_since_last_off_cpu_sample := off_cpu_duration_since_last_off_cpu_sample th |}.
Definition add_on_duration (th : ThreadContextSwitchData) (d : Z) : ThreadContextSwitchData :=
  {| state := state th;
     on_cpu_duration_since_last_sample := add_u64 (on_cpu_duration_since_last_sample th) d;
     off_cpu_duration_since_last_off_cpu_sample := off_cpu_duration_since_last_off_cpu_sample th |}.
Definition set_off_duration (th : ThreadContextSwitchData) (d : Z) : ThreadContextSwitchData :=
  {| state := state th;
     on_cpu_duration_since_last_sample := on_cpu_duration_since_last_sample th;
     off_cpu_duration_since_last_off_cpu_sample := d |}.

(** * Operations *)

(** The division panics on an interval of zero. *)
Definition maybe_consume_off_cpu (h : ContextSwitchHandler) (timestamp : Z)
    (th : ThreadContextSwitchData) : res (ThreadContextSwitchData * option OffCpuSampleGroup) :=
  let interval := off_cpu_sampling_interval_ns h in
  let off := off_cpu_duration_since_last_off_cpu_sample th in
  if off <? interval then Ok (th, None)
  else
    sample_count' ← div_u64 off interval;
    let consumed_duration := mul_u64 sample_count' interval in
    let remaining_duration := sub_u64 off consumed_duration in
    let begin_timestamp' := sub_u64 timestamp (sub_u64 off interval) in
    let end_timestamp' := sub_u64 timestamp remaining_duration in
    Ok (set_off_duration th remaining_duration,
        Some {| begin_timestamp := begin_timestamp'; end_timestamp := end_timestamp';
                sample_count := sample_count' |}).

Definition handle_switch_out (timestamp : Z) (th : ThreadContextSwitchData)
    : ThreadContextSwitchData :=
  match state th with
  | Unknown => with_state th (Off timestamp)
  | On last_observed_on_timestamp =>
      let on_duration := sub_u64 timestamp last_observed_on_timestamp in
      with_state (add_on_duration th on_duration) (Off timestamp)
  | Off _ => th
  end.

Definition handle_switch_in (h : ContextSwitchHandler) (timestamp : Z)
    (th : ThreadContextSwitchData) : res (ThreadContextSwitchData * option OffCpuSampleGroup) :=
  '(th', off_cpu_sample) ←
    match state th with
    | On last_observed_on_timestamp =>
        let on_duration := sub_u64 timestamp last_observed_on_timestamp in
        Ok (add_on_duration th on_duration, None)
    | Off off_switch_timestamp =>
        let off_duration := sub_u64 timestamp off_switch_timestamp in
        maybe_consume_off_cpu h timestamp
          (set_off_duration th
             (add_u64 (off_cpu_duration_since_last_off_cpu_sample th) off_duration))
    | Unknown => Ok (th, None)
    end;
  Ok (with_state th' (On timestamp), off_cpu_sample).

(** A separate function of the source with the same body. *)
Definition handle_on_cpu_sample (h : ContextSwitchHandler) (timestamp : Z)
    (th : ThreadContextSwitchData) : res (ThreadContextSwitchData * option OffCpuSampleGroup) :=
  '(th', off_cpu_sample) ←
    match state th with
    | On last_observed_on_timestamp =>
        let on_duration := sub_u64 timestamp last_observed_on_timestamp in
        Ok (add_on_duration th on_duration, None)
    | Off off_switch_timestamp =>
        let off_duration := sub_u64 timestamp off_switch_timestamp in
        maybe_consume_off_cpu h timestamp
          (set_off_duration th
             (add_u64 (off_cpu_duration_since_last_off_cpu_sample th) off_duration))
    | Unknown => Ok (th, None)
    end;
  Ok (with_state th' (On timestamp), off_cpu_sample).

Definition consume_cpu_delta (th : ThreadContextSwitchData) : ThreadContextSwitchData * Z :=
  ({| state := state th; on_cpu_duration_since_last_sample := 0;
      off_cpu_duration_since_last_off_cpu_sample := off_cpu_duration_since_last_off_cpu_sample th |},
   on_cpu_duration_since_last_sample th).

(** * A thread's records, in the order they are processed *)
Inductive event :=
| SwitchOut (timestamp : Z)
| SwitchIn (timestamp : Z)
| OnCpuSample (timestamp : Z)
| ConsumeDelta.

(** What the thread's records produced. *)
Record outputs := { groups : list OffCpuSampleGroup; deltas : list Z }.
Definition no_outputs : outputs := {| groups := []; deltas := [] |}.
Definition emit (o : outputs) (g : option OffCpuSampleGroup) : outputs :=
  {| groups := groups o ++ option_list g; deltas := deltas o |}.

Definition step (h : ContextSwitchHandler) (e : event) (s : ThreadContextSwitchData * outputs)
    : res (ThreadContextSwitchData * outputs) :=
  let '(th, o) := s in
  match e with
  | SwitchOut t => Ok (handle_switch_out t th, o)
  | SwitchIn t => '(th', g) ← handle_switch_in h t th; Ok (th', emit o g)
  | OnCpuSample t => '(th', g) ← handle_on_cpu_sample h t th; Ok (th', emit o g)
  | ConsumeDelta =>
      let '(th', d) := consume_cpu_delta th in
      Ok (th', {| groups := groups o; deltas := deltas o ++ [d] |})
  end.
Fixpoint run (h : ContextSwitchHandler) (es : list event) (s : ThreadContextSwitchData * outputs)
    : res (ThreadContextSwitchData * outputs) :=
  match es with [] => Ok s | e :: es' => step h e s ≫= run h es' end.

(** * Specification

    The time between two records counts as running after a switch-in or a
    sample, as sleeping after a switch-out, and not at all before the first. *)
Inductive activity := Unseen | Running | Sleeping.
Record clock := { doing : activity; now : Z; on_time : Z; off_time : Z }.
Definition clock_start : clock := {| doing := Unseen; now := 0; on_time := 0; off_time := 0 |}.
Definition advance (a : activity) (t : Z) (c : clock) : clock :=
  {| doing := a; now := t;
     on_time := on_time c + (match doing c with Running => t - now c | _ => 0 end);
     off_time := off_time c + (match doing c with Sleeping => t - now c | _ => 0 end) |}.
Definition clock_step (c : clock) (e : event) : clock :=
  match e with
  | SwitchOut t => advance Sleeping t c
  | SwitchIn t | OnCpuSample t => advance Running t c
  | ConsumeDelta => c
  end.
Definition clock_run (es : list event) : clock := foldl clock_step clock_start es.

(** Records are processed in time order. *)
Fixpoint ordered (t : Z) (es : list event) : Prop :=
  match es with
  | [] => True
  | (SwitchOut t' | SwitchIn t' | OnCpuSample t') :: es' => t ≤ t' < 2 ^ 64 ∧ ordered t' es'
  | ConsumeDelta :: es' => ordered t es'
  end.

Definition group_ok (h : ContextSwitchHandler) (g : OffCpuSampleGroup) : Prop :=
  1 ≤ sample_count g ∧
  end_timestamp g = begin_timestamp g + (sample_count g - 1) * off_cpu_sampling_interval_ns h.
(** Samples of successive groups are in time order, up to [t]. *)
Fixpoint groups_ordered (t0 : Z) (gs : list OffCpuSampleGroup) (t : Z) : Prop :=
  match gs with
  | [] => t0 ≤ t
  | g :: gs' => t0 ≤ begin_timestamp g ∧ begin_timestamp g ≤ end_timestamp g ∧
      groups_ordered (end_timestamp g) gs' t
  end.
Definition sampled (h : ContextSwitchHandler) (gs : list OffCpuSampleGroup) : Z :=
  foldr (λ g n, sample_count g * off_cpu_sampling_interval_ns h + n) 0 gs.
Definition sum (l : list Z) : Z := foldr Z.add 0 l.

(** * Lemmas *)
Section handler.
Context (h : ContextSwitchHandler) (interval_pos : 0 < off_cpu_sampling_interval_ns h < 2 ^ 64).
Notation interval := (off_cpu_sampling_interval_ns h).

(** The state of the handler and the clock tell the same time. *)
Record agrees (s : ThreadContextSwitchData * outputs) (c : clock) : Prop := {
  agree_state : match state s.1, doing c with
    | Unknown, Unseen => True
    | On t, Running => t = now c
    | Off t, Sleeping => t ≤ now c
    | _, _ => False
    end;
  agree_now : 0 ≤ now c < 2 ^ 64;
  agree_on : on_time c = sum (deltas s.2) + on_cpu_duration_since_last_sample s.1;
  agree_off : off_time c = sampled h (groups s.2) + off_cpu_duration_since_last_off_cpu_sample s.1 +
    match state s.1 with Off t => now c - t | _ => 0 end;
  agree_on_nonneg : 0 ≤ on_cpu_duration_since_last_sample s.1 ∧ 0 ≤ sum (deltas s.2);
  agree_rest : 0 ≤ off_cpu_duration_since_last_off_cpu_sample s.1 < interval;
  agree_sampled : 0 ≤ sampled h (groups s.2);
  agree_total : 0 ≤ on_time c ∧ 0 ≤ off_time c ∧ on_time c + off_time c ≤ now c;
  agree_groups : Forall (group_ok h) (groups s.2);
  agree_order : groups_ordered 0 (groups s.2)
    (match state s.1 with Off t => t | _ => now c end)
}.

Lemma sampled_app gs gs' : sampled h (gs ++ gs') = sampled h gs + sampled h gs'.
Proof using Type. induction gs as [|g gs IH]; simpl; [done|]. rewrite IH. lia. Qed.
Lemma sum_app l l' : sum (l ++ l') = sum l + sum l'.
Proof using Type. induction l as [|x l IH]; simpl; [done|]. rewrite IH. lia. Qed.

Lemma groups_ordered_weaken t0 gs t t' :
  groups_ordered t0 gs t → t ≤ t' → groups_ordered t0 gs t'.
Proof using Type.
  revert t0. induction gs as [|g gs IH]; intros t0; simpl; [lia|].
  intros (? & ? & ?) ?. split_and!; [done..|]. by apply IH.
Qed.
Lemma groups_ordered_snoc t0 gs t g t' :
  groups_ordered t0 gs t → t ≤ begin_timestamp g → begin_timestamp g ≤ end_timestamp g →
  end_timestamp g ≤ t' → groups_ordered t0 (gs ++ [g]) t'.
Proof using Type.
  revert t0. induction gs as [|g' gs IH]; intros t0; simpl; [lia|].
  intros (? & ? & ?) ???. split_and!; [done..|]. by apply IH.
Qed.

(** The samples of a sleep that ended lie inside it. *)
Lemma consume_spec t0 t th :
  0 ≤ t0 ≤ t → t < 2 ^ 64 → 0 ≤ off_cpu_duration_since_last_off_cpu_sample th < interval →
  let off := off_cpu_duration_since_last_off_cpu_sample th + (t - t0) in
  off < 2 ^ 64 →
  ∃ rest g, maybe_consume_off_cpu h t (set_off_duration th off) =
      Ok (set_off_duration th rest, g) ∧
    0 ≤ rest < interval ∧ off = sampled h (option_list g) + rest ∧
    0 ≤ sampled h (option_list g) ∧
    match g with
    | None => True
    | Some g => group_ok h g ∧ t0 ≤ begin_timestamp g ∧ begin_timestamp g ≤ end_timestamp g ≤ t
    end.
Proof using interval_pos.
  intros Ht0 Ht Hoff off Hlt. unfold maybe_consume_off_cpu. simpl.
  destruct (Z.ltb_spec off interval) as [Hs|Hs].
  { exists off, None. split_and!; try done; simpl; lia. }
  unfold div_u64. destruct (Z.eqb_spec interval 0); [lia|]. simpl.
  pose proof (Z.div_mod off interval ltac:(lia)) as Hdm.
  pose proof (Z.mod_pos_bound off interval ltac:(lia)) as Hmod.
  assert (1 ≤ off / interval) as Hq by (apply Z.div_le_lower_bound; lia).
  set (q := off / interval) in *. set (m := off mod interval) in *.
  assert (mul_u64 q interval = q * interval) as Hmul by (apply mul_u64_id; nia).
  rewrite Hmul. rewrite (sub_u64_id off) by (unfold u64_range; nia).
  rewrite (sub_u64_id off interval) by (unfold u64_range; nia).
  rewrite !(sub_u64_id t) by (unfold u64_range; nia).
  replace (off - q * interval) with m by nia.
  exists m. eexists. split; [done|]. unfold group_ok. simpl. split_and!; nia.
Qed.

Lemma wake_spec s c t :
  agrees s c → now c ≤ t < 2 ^ 64 →
  ∃ th' g, handle_switch_in h t s.1 = Ok (th', g) ∧ agrees (th', emit s.2 g) (advance Running t c).
Proof using interval_pos.
  destruct s as [th o]. intros [Hst Hnow Hon Hoff Hnn Hrest Hsam Htot Hgr Hord] Ht. simpl in *.
  unfold handle_switch_in. destruct (state th) as [|t0|t0] eqn:Es, (doing c) eqn:Ed; try done.
  - simpl. do 2 eexists. split; [done|]. split; simpl; rewrite ?Ed, ?app_nil_r; try done; try lia.
    eapply groups_ordered_weaken; [exact Hord|lia].
  - assert (0 ≤ t0) as Ht0.
    { clear -Hord. revert Hord. generalize 0 as b. induction (groups o); intros b; simpl; [done|].
      intros (? & ? & ?). enough (end_timestamp a ≤ t0) by lia. by apply IHl. }
    rewrite (sub_u64_id t t0) by (unfold u64_range; lia).
    rewrite add_u64_id by lia.
    destruct (consume_spec t0 t th) as (rest & g & -> & Hr & Heq & Hge & Hg); [lia..|].
    simpl. do 2 eexists. split; [done|].
    split; simpl; rewrite ?Ed; try done; try lia; rewrite ?sampled_app; try lia.
    + apply Forall_app. split; [done|]. destruct g; simpl; [|done]. constructor; [apply Hg|done].
    + destruct g as [g|]; simpl; [|rewrite app_nil_r; eapply groups_ordered_weaken; [exact Hord|lia]].
      eapply groups_ordered_snoc; [exact Hord|lia..].
  - rewrite (sub_u64_id t t0) by (unfold u64_range; lia). simpl. do 2 eexists. split; [done|].
    split; simpl; rewrite ?Ed, ?app_nil_r, ?add_u64_id by lia; try done; try lia.
    eapply groups_ordered_weaken; [exact Hord|lia].
Qed.

Lemma step_spec e s c es :
  agrees s c → ordered (now c) (e :: es) →
  ∃ s', step h e s = Ok s' ∧ agrees s' (clock_step c e) ∧ ordered (now (clock_step c e)) es.
Proof using interval_pos.
  intros Ha Ho. destruct s as [th o]. destruct e as [t|t|t|]; simpl in Ho.
  - destruct Ho as [Ht Ho]. destruct Ha as [Hst Hnow Hon Hoff Hnn Hrest Hsam Htot Hgr Hord].
    simpl in *. eexists. split; [done|]. split; [|done]. unfold handle_switch_out.
    destruct (state th) as [|t0|t0] eqn:Es, (doing c) eqn:Ed; try done.
    + split; simpl; rewrite ?Ed; try done; try lia. eapply groups_ordered_weaken; [exact Hord|lia].
    + split; simpl; rewrite ?Es, ?Ed; try done; lia.
    + rewrite (sub_u64_id t t0) by (unfold u64_range; lia).
      split; simpl; rewrite ?Ed, ?add_u64_id by lia; try done; try lia.
      eapply groups_ordered_weaken; [exact Hord|lia].
  - destruct Ho as [Ht Ho]. destruct (wake_spec _ c t Ha) as (th' & g & Heq & Ha'); [lia|].
    simpl in *. rewrite Heq. simpl. by eexists.
  - destruct Ho as [Ht Ho]. destruct (wake_spec _ c t Ha) as (th' & g & Heq & Ha'); [lia|].
    simpl in *. unfold handle_switch_in in Heq. unfold handle_on_cpu_sample. rewrite Heq.
    simpl. by eexists.
  - destruct Ha as [Hst Hnow Hon Hoff Hnn Hrest Hsam Htot Hgr Hord]. simpl in *.
    eexists. split; [done|]. split; [|done]. split; simpl; rewrite ?sum_app; simpl; try done; lia.
Qed.

Lemma run_summary es s c :
  agrees s c → ordered (now c) es →
  ∃ s', run h es s = Ok s' ∧ agrees s' (foldl clock_step c es).
Proof using interval_pos.
  revert s c. induction es as [|e es IH]; intros s c Ha Ho; [by exists s|].
  destruct (step_spec e s c es Ha Ho) as (s1 & Heq & Ha1 & Ho1). cbn [run]. rewrite Heq.
  simpl. by apply IH.
Qed.

Lemma agrees_start : agrees (default, no_outputs) clock_start.
Proof using interval_pos. by split; simpl; try lia. Qed.
End handler.

(** * Properties *)

(** C22: For a thread's records in time order and an interval that is not zero,
    no time is lost or counted twice: the CPU deltas handed out plus the pending
    one are exactly the time the thread was running, and the off-CPU samples
    times the interval, plus a remainder below one interval, plus the sleep still
    going on, are exactly the time it was asleep. A group has at least one sample
    and spans its samples at the interval's distance, and the groups follow each
    other in time without overlap, up to the present. *)
Theorem run_conserves (h : ContextSwitchHandler) (es : list event) :
  0 < off_cpu_sampling_interval_ns h < 2 ^ 64 → ordered 0 es →
  ∃ th o, run h es (default, no_outputs) = Ok (th, o) ∧
    let c := clock_run es in
    on_time c = sum (deltas o) + on_cpu_duration_since_last_sample th ∧
    off_time c = sampled h (groups o) + off_cpu_duration_since_last_off_cpu_sample th +
      match state th with Off t => now c - t | _ => 0 end ∧
    0 ≤ off_cpu_duration_since_last_off_cpu_sample th < off_cpu_sampling_interval_ns h ∧
    Forall (group_ok h) (groups o) ∧ groups_ordered 0 (groups o) (now c).
Proof.
  intros Hi Ho. destruct (run_summary h Hi es _ _ (agrees_start h Hi) Ho) as ([th o] & Hrun & Ha).
  exists th, o. split; [done|]. fold (clock_run es) in *. destruct Ha. simpl in *.
  split_and!; try done; try lia. eapply groups_ordered_weaken; [done|].
  destruct (state th), (doing (clock_run es)); try done; lia.
Qed.

(** With an interval of zero, a thread that wakes up from a sleep makes the
    handler panic. *)
Theorem zero_interval_panics (h : ContextSwitchHandler) (t t0 : Z) (th : ThreadContextSwitchData) :
  off_cpu_sampling_interval_ns h = 0 → state th = Off t0 →
  handle_switch_in h t th = Panic ∧ handle_on_cpu_sample h t th = Panic.
Proof.
  intros Hi Hs. unfold handle_switch_in, handle_on_cpu_sample. rewrite Hs.
  unfold maybe_consume_off_cpu. rewrite Hi. simpl.
  pose proof (wrap_u64_range (off_cpu_duration_since_last_off_cpu_sample th + sub_u64 t t0)) as Hr.
  unfold add_u64, u64_range in *. by destruct (Z.ltb_spec
    (wrap_u64 (off_cpu_duration_since_last_off_cpu_sample th + sub_u64 t t0)) 0); [lia|].
Qed.

(** * Witnesses: the scenario of the module's unit test *)
#[local] Definition example_events : list event :=
  [SwitchIn 0; SwitchOut 3; SwitchIn 5; OnCpuSample 12; ConsumeDelta; SwitchOut 13; SwitchIn 15;
   SwitchOut 16; SwitchIn 21; SwitchOut 23; SwitchIn 27; ConsumeDelta; SwitchOut 30; SwitchIn 48;
   ConsumeDelta; OnCpuSample 51; ConsumeDelta; OnCpuSample 61; ConsumeDelta].
#[local] Definition example_handler : ContextSwitchHandler :=
  {| off_cpu_sampling_interval_ns := 10 |}.

Example run_conserves_witness :
  ∃ th o, run example_handler example_events (default, no_outputs) = Ok (th, o) ∧
    deltas o = [10; 4; 3; 3; 10] ∧
    groups o = [{| begin_timestamp := 24; end_timestamp := 24; sample_count := 1 |};
                {| begin_timestamp := 37; end_timestamp := 47; sample_count := 2 |}] ∧
    on_time (clock_run example_events) = 30 ∧ off_time (clock_run example_events) = 31.
Proof.
  destruct (run_conserves example_handler example_events) as (th & o & Hrun & _).
  - simpl. lia.
  - simpl. lia.
  - exists th, o. split; [done|]. vm_compute in Hrun. injection Hrun as <- <-. by vm_compute.
Defined.

Example zero_interval_panics_witness :
  handle_switch_in {| off_cpu_sampling_interval_ns := 0 |} 7 (with_state default (Off 5)) = Panic.
Proof. exact (proj1 (zero_interval_panics {| off_cpu_sampling_interval_ns := 0 |} 7 5 (with_state default (Off 5)) eq_refl eq_refl)). Defined.
End ContextSwitch.
