(* ===== verification/UnresolvedSamples.v ===== *)
(** Samples that are not symbolicated yet: the stack trie and the sample buffer of
    samply/src/shared/unresolved_samples.rs, and the samples of an off-CPU group
    (process_off_cpu_sample_group in samply/src/linux_shared/converter.rs). *)
From S2P Require Import Prelude Types StringTables LibTable Samples ThreadModel ContextSwitch.
From stdpp Require Import options.
Open Scope Z_scope.

Module UnresolvedStacks.

(** * Data

    [UnresolvedStackHandle] is a [u32]; the largest one is the empty stack. *)
Notation UnresolvedStackHandle := Z (only parsing).
Definition EMPTY : UnresolvedStackHandle := 2 ^ 32 - 1.
Record UnresolvedStacks := {
  (** (prefix, frame) *)
  stacks : list (UnresolvedStackHandle * StackFrame);
  stack_lookup : gmap (UnresolvedStackHandle * StackFrame) UnresolvedStackHandle
}.
Definition default : UnresolvedStacks := {| stacks := []; stack_lookup := ∅ |}.

(** * Operations *)

(** [entry(x).or_insert_with(..)] *)
Definition node_for (t : UnresolvedStacks) (x : UnresolvedStackHandle * StackFrame)
    : UnresolvedStacks * UnresolvedStackHandle :=
  match stack_lookup t !! x with
  | Some node => (t, node)
  | None =>
      let new_index := u32_of_usize (length (stacks t)) in
      ({| stacks := push (stacks t) x; stack_lookup := <[x := new_index]> (stack_lookup t) |},
       new_index)
  end.

Fixpoint convert_with_prefix (t : UnresolvedStacks) (prefix : UnresolvedStackHandle)
    (frames : list StackFrame) : UnresolvedStacks * UnresolvedStackHandle :=
  match frames with
  | [] => (t, prefix)
  | frame :: frames' => let '(t', node) := node_for t (prefix, frame) in convert_with_prefix t' node frames'
  end.
Definition convert (t : UnresolvedStacks) (frames : list StackFrame)
    : UnresolvedStacks * UnresolvedStackHandle :=
  convert_with_prefix t EMPTY frames.

Definition not_kernel (f : StackFrame) : bool := bool_decide (stack_mode f ≠ Some Kernel).
(** The loop has its own copy of the body. *)
Fixpoint convert_no_kernel_from (t : UnresolvedStacks) (prefix : UnresolvedStackHandle)
    (frames : list StackFrame) : UnresolvedStacks * UnresolvedStackHandle :=
  match frames with
  | [] => (t, prefix)
  | frame :: frames' =>
      if not_kernel frame then
        let '(t', node) := node_for t (prefix, frame) in convert_no_kernel_from t' node frames'
      else convert_no_kernel_from t prefix frames'
  end.
Definition convert_no_kernel (t : UnresolvedStacks) (frames : list StackFrame)
    : UnresolvedStacks * UnresolvedStackHandle :=
  convert_no_kernel_from t EMPTY frames.

(** The loop of [convert_back]; [None] if it has not ended after [fuel] rounds. *)
Fixpoint convert_back_loop (fuel : nat) (t : UnresolvedStacks) (stack_index : UnresolvedStackHandle)
    (buf : list StackFrame) : option (res (list StackFrame)) :=
  if stack_index =? EMPTY then Some (Ok buf)
  else
    match fuel with
    | O => None
    | S fuel' =>
        match stacks t !! usize_of_u32 stack_index with
        | Some (prefix, frame) => convert_back_loop fuel' t prefix (push buf frame)
        | None => Some Panic
        end
    end.
Definition convert_back (t : UnresolvedStacks) (stack_index : UnresolvedStackHandle)
    (buf : list StackFrame) : option (res (list StackFrame)) :=
  convert_back_loop (length (stacks t)) t stack_index buf.

(** * Call sequences *)
Inductive op :=
| Convert (frames : list StackFrame)
| ConvertNoKernel (frames : list StackFrame).
Definition apply_op (t : UnresolvedStacks) (o : op) : UnresolvedStacks * UnresolvedStackHandle :=
  match o with Convert frames => convert t frames | ConvertNoKernel frames => convert_no_kernel t frames end.
Fixpoint run (t : UnresolvedStacks) (ops : list op)
    : UnresolvedStacks * list UnresolvedStackHandle :=
  match ops with
  | [] => (t, [])
  | o :: ops' =>
      let '(t1, h) := apply_op t o in
      let '(t2, hs) := run t1 ops' in
      (t2, h :: hs)
  end.
(** The frames a call is about, and how many. *)
Definition frames_of (o : op) : list StackFrame :=
  match o with Convert frames => frames | ConvertNoKernel frames => filter not_kernel frames end.
Definition frame_count (ops : list op) : nat := sum_list (length <$> (frames_of <$> ops)).

(** * Specification: the stack a handle stands for, leaf first *)
Inductive leads_to (t : UnresolvedStacks) : UnresolvedStackHandle → list StackFrame → Prop :=
| leads_empty : leads_to t EMPTY []
| leads_node i prefix frame l :
    stacks t !! i = Some (prefix, frame) → leads_to t prefix l →
    leads_to t (Z.of_nat i) (frame :: l).

Record wf (t : UnresolvedStacks) : Prop := {
  wf_lookup : index_wf u32_of_usize (stacks t) (stack_lookup t);
  wf_size : Z.of_nat (length (stacks t)) < EMPTY;
  wf_prefix : ∀ i prefix frame, stacks t !! i = Some (prefix, frame) →
    prefix = EMPTY ∨ ∃ j, (j < i)%nat ∧ prefix = Z.of_nat j
}.

(** * Lemmas *)
Lemma wf_default : wf default.
Proof. split; simpl; [eauto with samply|unfold EMPTY; lia|]. intros i p f Hi. done. Qed.

Lemma leads_to_mono t t' h l :
  stacks t `prefix_of` stacks t' → leads_to t h l → leads_to t' h l.
Proof.
  intros Hpre. induction 1 as [|i prefix frame l Hi _ IH]; [constructor|].
  econstructor; [by eapply prefix_lookup_Some|done].
Qed.

Lemma leads_to_inj t h h' l : wf t → leads_to t h l → leads_to t h' l → h = h'.
Proof.
  intros Hwf H. revert h'. induction H as [|i prefix frame l Hi _ IH]; intros h' H'; inversion H'; subst; [done|].
  match goal with H1 : stacks t !! ?k = Some _, H2 : leads_to t _ l |- _ =>
    rewrite <-(IH _ H2) in H1; destruct (wf_lookup _ Hwf) as [Hnd _];
    pose proof (NoDup_lookup _ _ _ _ Hnd Hi H1) end. by subst.
Qed.

Lemma node_bounds t i x : wf t → stacks t !! i = Some x → Z.of_nat i < EMPTY.
Proof. intros Hwf Hi%lookup_lt_Some. pose proof (wf_size _ Hwf). lia. Qed.

Lemma leads_to_det t h l l' : wf t → leads_to t h l → leads_to t h l' → l = l'.
Proof.
  intros Hwf H. revert l'.
  induction H as [|i prefix frame l Hi _ IH]; intros l' H'; inversion H' as [Hh|j p f l2 Hj Hp Hh]; try done.
  - pose proof (node_bounds _ _ _ Hwf Hj). lia.
  - pose proof (node_bounds _ _ _ Hwf Hi). lia.
  - assert (j = i) as -> by lia. assert (p = prefix ∧ f = frame) as [-> ->] by (split; congruence).
    by rewrite (IH l2 Hp).
Qed.

Lemma node_for_spec t h l frame :
  wf t → leads_to t h l → Z.of_nat (S (length (stacks t))) < EMPTY →
  let '(t', node) := node_for t (h, frame) in
  wf t' ∧ stacks t `prefix_of` stacks t' ∧ leads_to t' node (frame :: l) ∧
  (length (stacks t') ≤ S (length (stacks t)))%nat.
Proof.
  intros Hwf Hl Hroom. pose proof Hwf as [Hi Hs Hp]. unfold node_for.
  destruct (stack_lookup t !! (h, frame)) as [node|] eqn:E.
  - apply (index_wf_Some _ _ _ _ _ Hi) in E as (n & Hn & ->). split_and!; [done|done| |lia].
    rewrite u32_of_usize_id by (pose proof (node_bounds _ _ _ Hwf Hn); unfold EMPTY in *; lia).
    by econstructor.
  - simpl. unfold push. rewrite u32_of_usize_id by (unfold EMPTY in *; lia).
    assert (stacks t `prefix_of` stacks t ++ [(h, frame)]) as Hpre by by apply prefix_app_r.
    split_and!; [|done| |rewrite length_app; simpl; lia].
    + split; simpl.
      * rewrite <-(u32_of_usize_id (length (stacks t))) by (unfold EMPTY in *; lia).
        by apply index_wf_push.
      * rewrite length_app. simpl. lia.
      * intros i prefix f [Hj|[-> Heq]]%lookup_app_Some_snoc; [by eapply Hp|].
        injection Heq as -> ->. inversion Hl as [|j p f' l' Hj _]; [by left|right].
        apply lookup_lt_Some in Hj. by exists j.
    + apply (leads_node {| stacks := stacks t ++ [(h, frame)]; stack_lookup := _ |}
        (length (stacks t)) h frame l); simpl; [apply lookup_snoc|].
      eapply leads_to_mono; [|exact Hl]. done.
Qed.

Lemma convert_with_prefix_spec frames t h l :
  wf t → leads_to t h l → Z.of_nat (length (stacks t) + length frames) < EMPTY →
  let '(t', h') := convert_with_prefix t h frames in
  wf t' ∧ stacks t `prefix_of` stacks t' ∧ leads_to t' h' (reverse frames ++ l) ∧
  (length (stacks t') ≤ length (stacks t) + length frames)%nat.
Proof.
  revert t h l. induction frames as [|f frames IH]; intros t h l Hwf Hl Hroom; simpl in *.
  { split_and!; try done. lia. }
  pose proof (node_for_spec t h l f Hwf Hl) as H1. destruct (node_for t (h, f)) as [t1 node].
  destruct H1 as (Hwf1 & Hpre1 & Hl1 & Hlen1); [lia|].
  specialize (IH t1 node (f :: l) Hwf1 Hl1). destruct (convert_with_prefix t1 node frames) as [t2 h2].
  destruct IH as (? & ? & Hl2 & ?); [lia|]. rewrite reverse_cons, <-app_assoc.
  split_and!; [done|by etrans|done|lia].
Qed.

Lemma convert_no_kernel_from_filter t h frames :
  convert_no_kernel_from t h frames = convert_with_prefix t h (filter not_kernel frames).
Proof.
  revert t h. induction frames as [|f frames IH]; intros t h; [done|]. cbn [convert_no_kernel_from].
  rewrite filter_cons. destruct (not_kernel f) eqn:E.
  - rewrite decide_True by done. cbn [convert_with_prefix].
    destruct (node_for t (h, f)). apply IH.
  - rewrite decide_False by (by intros []). apply IH.
Qed.

Lemma apply_op_convert t o : apply_op t o = convert t (frames_of o).
Proof. destruct o; [done|]. apply convert_no_kernel_from_filter. Qed.

Lemma run_stacks_spec ops t :
  wf t → Z.of_nat (length (stacks t) + frame_count ops) < EMPTY →
  let '(t', hs) := run t ops in
  wf t' ∧ stacks t `prefix_of` stacks t' ∧ Forall2 (λ o h, leads_to t' h (reverse (frames_of o))) ops hs.
Proof.
  revert t. induction ops as [|o ops IH]; intros t Hwf Hroom; cbn [run]; [by split_and!|].
  unfold frame_count in *. cbn [fmap list_fmap sum_list sum_list_with] in Hroom.
  rewrite apply_op_convert. unfold convert.
  pose proof (convert_with_prefix_spec (frames_of o) t EMPTY [] Hwf (leads_empty t)) as H1.
  destruct (convert_with_prefix t EMPTY (frames_of o)) as [t1 h].
  destruct H1 as (Hwf1 & Hpre1 & Hl1 & Hlen1); [simpl in *; lia|]. rewrite app_nil_r in Hl1.
  specialize (IH t1 Hwf1). destruct (run t1 ops) as [t2 hs].
  destruct IH as (Hwf2 & Hpre2 & HF); [simpl in *; lia|].
  split_and!; [done|by etrans|]. constructor; [by eapply leads_to_mono|done].
Qed.

(** Walking back ends: a prefix is an earlier node. *)
Lemma convert_back_loop_spec t h l fuel buf :
  leads_to t h l → wf t → (length l ≤ fuel)%nat →
  convert_back_loop fuel t h buf = Some (Ok (buf ++ l)).
Proof.
  intros Hl Hwf. revert fuel buf.
  induction Hl as [|i prefix frame l Hi _ IH]; intros fuel buf Hfuel.
  { rewrite app_nil_r. by destruct fuel. }
  pose proof (node_bounds _ _ _ Hwf Hi).
  destruct fuel as [|fuel]; simpl in *; [lia|].
  destruct (Z.eqb_spec (Z.of_nat i) EMPTY); [lia|].
  unfold usize_of_u32. rewrite Nat2Z.id, Hi. rewrite IH by lia. unfold push. by rewrite <-app_assoc.
Qed.

Lemma leads_to_length t h l :
  wf t → leads_to t h l → h = EMPTY ∧ l = [] ∨ ∃ i, h = Z.of_nat i ∧ (i < length (stacks t))%nat ∧ (length l ≤ S i)%nat.
Proof.
  intros Hwf. induction 1 as [|i prefix frame l Hi Hl IH]; [by left|right].
  exists i. split_and!; [done|by eapply lookup_lt_Some|]. simpl.
  destruct IH as [[_ ->]|(j & Hj & _ & Hlen)]; [simpl; lia|].
  destruct (wf_prefix _ Hwf _ _ _ Hi) as [He|(k & Hk & Heq)]; [|lia].
  inversion Hl as [|j' p f l' Hj' _ Heq]; [simpl; lia|].
  pose proof (node_bounds _ _ _ Hwf Hj'). lia.
Qed.

Lemma convert_back_spec t h l buf :
  wf t → leads_to t h l → convert_back t h buf = Some (Ok (buf ++ l)).
Proof.
  intros Hwf Hl. apply convert_back_loop_spec; [done..|].
  destruct (leads_to_length t h l Hwf Hl) as [[_ ->]|(i & _ & ? & ?)]; simpl; lia.
Qed.

(** * Properties *)

(** C23: Converting any sequence of stacks, with or without their kernel frames,
    gives handles from which [convert_back] recovers exactly the frames that were
    kept, leaf first, appended to the buffer: the loop ends and no index is out of
    range. Two handles are equal if and only if the frames that were kept are
    (as long as there are fewer frames in total than 32-bit handles). *)
Theorem convert_round_trip (ops : list op) :
  Z.of_nat (frame_count ops) < EMPTY →
  let '(t, handles) := run default ops in
  length handles = length ops ∧
  (∀ k o h buf, ops !! k = Some o → handles !! k = Some h →
     convert_back t h buf = Some (Ok (buf ++ reverse (frames_of o)))) ∧
  (∀ j k o o' h h', ops !! j = Some o → ops !! k = Some o' →
     handles !! j = Some h → handles !! k = Some h' → h = h' ↔ frames_of o = frames_of o').
Proof.
  intros Hroom. pose proof (run_stacks_spec ops default wf_default Hroom) as H.
  destruct (run default ops) as [t handles]. destruct H as (Hwf & _ & HF).
  split_and!; [by apply Forall2_length in HF| |].
  - intros k o h buf Ho Hh. apply convert_back_spec; [done|].
    by apply (Forall2_lookup_lr _ _ _ _ _ _ HF Ho).
  - intros j k o o' h h' Ho Ho' Hh Hh'.
    pose proof (Forall2_lookup_lr _ _ _ _ _ _ HF Ho Hh) as Hl.
    pose proof (Forall2_lookup_lr _ _ _ _ _ _ HF Ho' Hh') as Hl'. cbn beta in Hl, Hl'. split.
    + intros ->. apply (inj reverse). by eapply leads_to_det.
    + intros Heq. rewrite Heq in Hl. by eapply leads_to_inj.
Qed.

Example convert_round_trip_witness :
  let user := SF_InstructionPointer 1 User in
  let kernel := SF_ReturnAddress 2 Kernel in
  let '(t, handles) := run default [Convert [user; kernel]; ConvertNoKernel [kernel; user]; Convert [user]] in
  handles = [1; 0; 0] ∧ convert_back t 1 [] = Some (Ok [kernel; user]).
Proof.
  pose proof (convert_round_trip [Convert [SF_InstructionPointer 1 User; SF_ReturnAddress 2 Kernel];
    ConvertNoKernel [SF_ReturnAddress 2 Kernel; SF_InstructionPointer 1 User];
    Convert [SF_InstructionPointer 1 User]] ltac:(vm_compute; reflexivity)) as H.
  assert ((run default [Convert [SF_InstructionPointer 1 User; SF_ReturnAddress 2 Kernel];
    ConvertNoKernel [SF_ReturnAddress 2 Kernel; SF_InstructionPointer 1 User];
    Convert [SF_InstructionPointer 1 User]]).2 = [1; 0; 0]) as Hh by by vm_compute.
  cbv zeta. destruct (run default _) as [t handles]. simpl in Hh. subst handles.
  destruct H as (_ & H & _). split; [done|]. exact (H 0%nat _ 1 [] eq_refl eq_refl).
Defined.
End UnresolvedStacks.

Module UnresolvedSamples.
Import UnresolvedStacks.

(** * Data *)
Record SampleData := { cpu_delta : CpuDelta; weight : Z }.
Inductive SampleOrMarker :=
| Sample (data : SampleData)
| Marker (marker_handle : MarkerHandle).
Record UnresolvedSampleOrMarker := {
  thread_handle : ThreadHandle;
  timestamp : Timestamp;
  timestamp_mono : Z;
  stack : UnresolvedStackHandle;
  extra_label_frame : option FrameInfo;
  sample_or_marker : SampleOrMarker
}.
Record PreviousSampleInfo := {
  prev_stack : UnresolvedStackHandle;
  prev_sample_index_if_zero_cpu : option nat
}.
Record UnresolvedSamples := {
  samples_and_markers : list UnresolvedSampleOrMarker;
  prev_sample_info_per_thread : gmap ThreadHandle PreviousSampleInfo
}.
Definition default : UnresolvedSamples :=
  {| samples_and_markers := []; prev_sample_info_per_thread := ∅ |}.
Definition is_empty (t : UnresolvedSamples) : bool :=
  match samples_and_markers t with [] => true | _ => false end.

(** * Operations *)
Definition add_sample (t : UnresolvedSamples) (thread : ThreadHandle) (timestamp' : Timestamp)
    (timestamp_mono' : Z) (stack' : UnresolvedStackHandle) (cpu_delta' : CpuDelta) (weight' : Z)
    (extra_label_frame' : option FrameInfo) : UnresolvedSamples :=
  let sample_index := length (samples_and_markers t) in
  {| samples_and_markers := push (samples_and_markers t)
       {| thread_handle := thread; timestamp := timestamp'; timestamp_mono := timestamp_mono';
          stack := stack'; extra_label_frame := extra_label_frame';
          sample_or_marker := Sample {| cpu_delta := cpu_delta'; weight := weight' |} |};
     prev_sample_info_per_thread :=
       <[thread := {| prev_stack := stack';
            prev_sample_index_if_zero_cpu :=
              if decide (cpu_delta' = CpuDelta_ZERO) then Some sample_index else None |}]>
         (prev_sample_info_per_thread t) |}.

Definition move_sample (s : UnresolvedSampleOrMarker) (timestamp' : Timestamp) (data : SampleData)
    : UnresolvedSampleOrMarker :=
  {| thread_handle := thread_handle s; timestamp := timestamp'; timestamp_mono := timestamp_mono s;
     stack := stack s; extra_label_frame := extra_label_frame s; sample_or_marker := Sample data |}.

(** The index can be out of range or a marker's; both panic. The [i32] weight
    wraps. *)
Definition add_sample_same_stack_zero_cpu (t : UnresolvedSamples) (thread : ThreadHandle)
    (timestamp' : Timestamp) (timestamp_mono' weight' : Z) (extra_label_frame' : option FrameInfo)
    : res UnresolvedSamples :=
  let push_sample stack' :=
    let sample_index := length (samples_and_markers t) in
    {| samples_and_markers := push (samples_and_markers t)
         {| thread_handle := thread; timestamp := timestamp'; timestamp_mono := timestamp_mono';
            stack := stack'; extra_label_frame := extra_label_frame';
            sample_or_marker := Sample {| cpu_delta := CpuDelta_ZERO; weight := weight' |} |};
       prev_sample_info_per_thread :=
         <[thread := {| prev_stack := stack'; prev_sample_index_if_zero_cpu := Some sample_index |}]>
           (prev_sample_info_per_thread t) |} in
  match prev_sample_info_per_thread t !! thread with
  | Some sample_info =>
      match prev_sample_index_if_zero_cpu sample_info with
      | Some sample_index =>
          sample ← index (samples_and_markers t) sample_index;
          data ← match sample_or_marker sample with Sample data => Ok data | Marker _ => Panic end;
          samples' ← index_set (samples_and_markers t) sample_index
            (move_sample sample timestamp'
               {| cpu_delta := cpu_delta data; weight := wrap_i32 (weight data + weight') |});
          Ok {| samples_and_markers := samples';
                prev_sample_info_per_thread := prev_sample_info_per_thread t |}
      | None => Ok (push_sample (prev_stack sample_info))
      end
  | None => Ok (push_sample EMPTY)
  end.

Definition attach_stack_to_marker (t : UnresolvedSamples) (thread : ThreadHandle)
    (timestamp' : Timestamp) (timestamp_mono' : Z) (stack' : UnresolvedStackHandle)
    (marker_handle : MarkerHandle) : UnresolvedSamples :=
  {| samples_and_markers := push (samples_and_markers t)
       {| thread_handle := thread; timestamp := timestamp'; timestamp_mono := timestamp_mono';
          stack := stack'; extra_label_frame := None; sample_or_marker := Marker marker_handle |};
     prev_sample_info_per_thread := prev_sample_info_per_thread t |}.

(** * Call sequences *)
Inductive op :=
| AddSample (thread : ThreadHandle) (timestamp : Timestamp) (timestamp_mono : Z)
    (stack : UnresolvedStackHandle) (cpu_delta : CpuDelta) (weight : Z) (label : option FrameInfo)
| SameStackZeroCpu (thread : ThreadHandle) (timestamp : Timestamp) (timestamp_mono weight : Z)
    (label : option FrameInfo)
| AttachStackToMarker (thread : ThreadHandle) (timestamp : Timestamp) (timestamp_mono : Z)
    (stack : UnresolvedStackHandle) (marker_handle : MarkerHandle).
Definition apply_op (o : op) (t : UnresolvedSamples) : res UnresolvedSamples :=
  match o with
  | AddSample thread ts mono stack' delta w label => Ok (add_sample t thread ts mono stack' delta w label)
  | SameStackZeroCpu thread ts mono w label => add_sample_same_stack_zero_cpu t thread ts mono w label
  | AttachStackToMarker thread ts mono stack' m => Ok (attach_stack_to_marker t thread ts mono stack' m)
  end.
Fixpoint run (ops : list op) (t : UnresolvedSamples) : res UnresolvedSamples :=
  match ops with [] => Ok t | o :: ops' => apply_op o t ≫= run ops' end.

(** * Specification: what one thread's operations would do to a thread of a profile *)

(** [stack_of] resolves a stack handle. *)
Definition thread_op (stack_of : UnresolvedStackHandle → option nat) (thread : ThreadHandle) (o : op)
    : option Thread.sample_op :=
  match o with
  | AddSample thread' ts _ stack' delta w _ =>
      if decide (thread' = thread) then Some (Thread.AddSample ts (stack_of stack') delta w) else None
  | SameStackZeroCpu thread' ts _ w _ =>
      if decide (thread' = thread) then Some (Thread.SameStackZeroCpu ts w) else None
  | AttachStackToMarker _ _ _ _ _ => None
  end.
Definition sample_row (stack_of : UnresolvedStackHandle → option nat) (thread : ThreadHandle)
    (s : UnresolvedSampleOrMarker) : option SampleTable.row :=
  match sample_or_marker s with
  | Sample data =>
      if decide (thread_handle s = thread) then
        Some (SampleTable.Build_row (timestamp s) (stack_of (stack s)) (cpu_delta data) (weight data))
      else None
  | Marker _ => None
  end.
Definition rows_of (stack_of : UnresolvedStackHandle → option nat) (thread : ThreadHandle)
    (t : UnresolvedSamples) : list SampleTable.row :=
  omap (sample_row stack_of thread) (samples_and_markers t).
Definition marker_entry (s : UnresolvedSampleOrMarker)
    : option (ThreadHandle * UnresolvedStackHandle * MarkerHandle) :=
  match sample_or_marker s with
  | Marker h => Some (thread_handle s, stack s, h)
  | Sample _ => None
  end.
Definition marker_op (o : op) : option (ThreadHandle * UnresolvedStackHandle * MarkerHandle) :=
  match o with AttachStackToMarker thread _ _ stack' h => Some (thread, stack', h) | _ => None end.

(** * Lemmas *)
Section samples.
Context (stack_of : UnresolvedStackHandle → option nat) (stack_of_empty : stack_of EMPTY = None).
Notation row_of := (sample_row stack_of).

(** What is remembered about a thread: its last sample, if there is one. *)
Definition info_ok (l : list UnresolvedSampleOrMarker) (thread : ThreadHandle)
    (info : option PreviousSampleInfo) : Prop :=
  match info with
  | None => omap (row_of thread) l = []
  | Some info => ∃ i x r, l !! i = Some x ∧ row_of thread x = Some r ∧
      stack x = prev_stack info ∧
      (∀ k y, (i < k)%nat → l !! k = Some y → row_of thread y = None) ∧
      prev_sample_index_if_zero_cpu info =
        if decide (SampleTable.row_cpu_delta r = CpuDelta_ZERO) then Some i else None
  end.
Definition wf (t : UnresolvedSamples) : Prop :=
  ∀ thread, info_ok (samples_and_markers t) thread (prev_sample_info_per_thread t !! thread).

Lemma omap_snoc {A B} (f : A → option B) l x : omap f (l ++ [x]) = omap f l ++ option_list (f x).
Proof using Type. by rewrite omap_app. Qed.

Lemma omap_cons {A B} (f : A → option B) l x : omap f (x :: l) = option_list (f x) ++ omap f l.
Proof using Type. simpl. by destruct (f x). Qed.

(** The last row of a thread, by the position of its sample. *)
Lemma last_sample_split l thread i x r :
  l !! i = Some x → row_of thread x = Some r →
  (∀ k y, (i < k)%nat → l !! k = Some y → row_of thread y = None) →
  ∃ l1 l2, l = l1 ++ x :: l2 ∧ i = length l1 ∧ omap (row_of thread) l = omap (row_of thread) l1 ++ [r] ∧
    omap (row_of thread) l2 = [].
Proof using Type.
  intros Hi Hr Hafter. destruct (list_elem_of_split_length l i x Hi) as (l1 & l2 & -> & Hlen).
  assert (omap (row_of thread) l2 = []) as H2.
  { assert (∀ y, y ∈ l2 → row_of thread y = None) as Hall.
    { intros y [k Hk]%list_elem_of_lookup. apply (Hafter (S i + k)%nat y); [lia|].
      rewrite lookup_app_r by lia. replace (S i + k - length l1)%nat with (S k) by lia. done. }
    clear -Hall. induction l2 as [|y l2 IH]; [done|]. rewrite omap_cons, (Hall y) by by left.
    apply IH. intros z Hz. apply Hall. by right. }
  exists l1, l2. split_and!; [done|done| |done]. by rewrite omap_app, omap_cons, Hr, H2.
Qed.

Lemma info_ok_push l thread info y :
  info_ok l thread info → row_of thread y = None → info_ok (l ++ [y]) thread info.
Proof using Type.
  intros Hi Hy. destruct info as [info|]; simpl in *.
  - destruct Hi as (i & x & r & Hx & Hr & Hs & Hafter & Hz). exists i, x, r.
    split_and!; [by apply lookup_app_l_Some|done|done| |done].
    intros k z Hk [Hz'|[_ ->]]%lookup_app_Some_snoc; [by eapply Hafter|done].
  - by rewrite omap_snoc, Hi, Hy.
Qed.

(** A new sample of a thread. *)
Lemma push_sample_ok t thread y d z :
  wf t → thread_handle y = thread → sample_or_marker y = Sample d →
  z = (if decide (cpu_delta d = CpuDelta_ZERO) then Some (length (samples_and_markers t)) else None) →
  let t' := {| samples_and_markers := push (samples_and_markers t) y;
               prev_sample_info_per_thread :=
                 <[thread := {| prev_stack := stack y; prev_sample_index_if_zero_cpu := z |}]>
                   (prev_sample_info_per_thread t) |} in
  wf t' ∧
  (∀ h, rows_of stack_of h t' = rows_of stack_of h t ++
     (if decide (thread = h) then
        [SampleTable.Build_row (timestamp y) (stack_of (stack y)) (cpu_delta d) (weight d)] else [])) ∧
  omap marker_entry (samples_and_markers t') = omap marker_entry (samples_and_markers t).
Proof using Type.
  intros Hwf Hth Hd Hz. unfold push. simpl. split_and!.
  - intros h. simpl. destruct (decide (thread = h)) as [->|Hne].
    + rewrite lookup_insert_eq. exists (length (samples_and_markers t)), y. eexists.
      split_and!; [apply lookup_snoc|unfold sample_row; rewrite Hd, decide_True; done|done| |done].
      intros k y' Hk Hy%lookup_lt_Some. rewrite length_app in Hy. simpl in Hy. lia.
    + rewrite lookup_insert_ne by done. apply info_ok_push; [apply Hwf|].
      unfold sample_row. by rewrite Hd, decide_False by congruence.
  - intros h. unfold rows_of. simpl. rewrite omap_snoc. unfold sample_row at 2.
    rewrite Hd, Hth. by destruct (decide (thread = h)).
  - rewrite omap_snoc. unfold marker_entry at 2. by rewrite Hd, app_nil_r.
Qed.

(** Replacing a sample by one of the same thread. *)
Lemma omap_insert_None {A B} (f : A → option B) (l : list A) i x x' :
  l !! i = Some x → f x = None → f x' = None → omap f (<[i := x']> l) = omap f l.
Proof using Type.
  intros Hi Hx Hx'. destruct (list_elem_of_split_length l i x Hi) as (l1 & l2 & -> & ->).
  rewrite insert_app_r_alt, Nat.sub_diag by done. simpl. by rewrite !omap_app, !omap_cons, Hx, Hx'.
Qed.

Lemma info_ok_insert l thread info i x x' :
  l !! i = Some x → (∀ h, row_of h x' = None ↔ row_of h x = None) → stack x' = stack x →
  (∀ r r', row_of thread x = Some r → row_of thread x' = Some r' →
     SampleTable.row_cpu_delta r' = SampleTable.row_cpu_delta r) →
  info_ok l thread info → info_ok (<[i := x']> l) thread info.
Proof using Type.
  intros Hi Hsame Hstack Hdelta Hinfo. destruct info as [info|]; simpl in *.
  - destruct Hinfo as (j & y & r & Hy & Hr & Hs & Hafter & Hz).
    assert (∀ k z, (j < k)%nat → <[i := x']> l !! k = Some z → row_of thread z = None) as Hafter'.
    { intros k z Hk [(<- & <- & _)|[_ Hz']]%list_lookup_insert_Some; [|by eapply Hafter].
      apply Hsame. by eapply Hafter. }
    destruct (decide (i = j)) as [->|Hne].
    + assert (y = x) as -> by congruence. destruct (row_of thread x') as [r'|] eqn:Er'.
      * exists j, x', r'. rewrite list_lookup_insert_eq by (by eapply lookup_lt_Some).
        split_and!; [done|done|congruence|done|]. by rewrite (Hdelta r r').
      * apply Hsame in Er'. congruence.
    + exists j, y, r. rewrite list_lookup_insert_ne by done. by split_and!.
  - destruct (list_elem_of_split_length l i x Hi) as (l1 & l2 & -> & ->).
    rewrite insert_app_r_alt, Nat.sub_diag by done. simpl. rewrite omap_app, omap_cons in *.
    apply app_eq_nil in Hinfo as [-> Hrest]. destruct (row_of thread x) eqn:Ex; [done|].
    simpl in *. by rewrite (proj2 (Hsame thread) Ex), Hrest.
Qed.

Lemma wf_rows_None t thread : wf t → prev_sample_info_per_thread t !! thread = None → rows_of stack_of thread t = [].
Proof using Type. intros Hwf Hn. specialize (Hwf thread). by rewrite Hn in Hwf. Qed.

(** The last sample of a thread is moved in place. *)
Lemma move_sample_ok t thread info i d s :
  wf t → prev_sample_info_per_thread t !! thread = Some info →
  prev_sample_index_if_zero_cpu info = Some i → samples_and_markers t !! i = Some s →
  sample_or_marker s = Sample d → ∀ ts w,
  let s' := move_sample s ts {| cpu_delta := cpu_delta d; weight := w |} in
  let t' := {| samples_and_markers := <[i := s']> (samples_and_markers t);
               prev_sample_info_per_thread := prev_sample_info_per_thread t |} in
  wf t' ∧
  (∃ rows, rows_of stack_of thread t = rows ++
       [SampleTable.Build_row (timestamp s) (stack_of (stack s)) (cpu_delta d) (weight d)] ∧
     cpu_delta d = CpuDelta_ZERO ∧
     rows_of stack_of thread t' =
       rows ++ [SampleTable.Build_row ts (stack_of (stack s)) (cpu_delta d) w]) ∧
  (∀ h, h ≠ thread → rows_of stack_of h t' = rows_of stack_of h t) ∧
  omap marker_entry (samples_and_markers t') = omap marker_entry (samples_and_markers t).
Proof using Type.
  intros Hwf Hinfo Hidx Hs Hd ts w s' t'. pose proof (Hwf thread) as Hok. rewrite Hinfo in Hok.
  destruct Hok as (j & x & r & Hx & Hr & _ & Hafter & Hz). rewrite Hidx in Hz. case_decide as Hzero; [|done].
  injection Hz as ->. assert (x = s) as -> by congruence.
  assert (thread_handle s = thread) as Hth
    by (unfold sample_row in Hr; rewrite Hd in Hr; by case_decide).
  unfold sample_row in Hr. rewrite Hd, decide_True in Hr by done. injection Hr as <-.
  assert (∀ h, h ≠ thread → row_of h s = None ∧ row_of h s' = None) as Hother.
  { intros h Hh. unfold sample_row, s', move_sample. simpl. by rewrite Hd, !decide_False by congruence. }
  split_and!.
  - intros h. unfold t'. simpl. eapply info_ok_insert; [exact Hs| |done| |apply Hwf].
    + intros h'. unfold sample_row, s', move_sample. simpl. rewrite Hd. by case_decide.
    + intros r r'. unfold sample_row, s', move_sample. simpl. rewrite Hd. case_decide; [|done]. by intros [= <-] [= <-].
  - destruct (last_sample_split (samples_and_markers t) thread j s _ Hs
      ltac:(unfold sample_row; rewrite Hd, decide_True by done; reflexivity) Hafter)
      as (l1 & l2 & Hl & Hlen & Hrows & Hl2).
    exists (omap (row_of thread) l1). split_and!; [exact Hrows|done|].
    unfold rows_of, t'. simpl. rewrite Hl, Hlen, insert_app_r_alt, Nat.sub_diag by done. simpl.
    rewrite omap_app, omap_cons, Hl2. f_equal. unfold sample_row, s', move_sample. simpl. by rewrite decide_True.
  - intros h Hh. destruct (Hother h Hh). unfold rows_of, t'. simpl. by eapply omap_insert_None.
  - unfold t'. simpl. eapply omap_insert_None; [done| |done]. unfold marker_entry. by rewrite Hd.
Qed.

Lemma last_row_info t thread info :
  wf t → prev_sample_info_per_thread t !! thread = Some info →
  ∃ rows r, rows_of stack_of thread t = rows ++ [r] ∧
    SampleTable.row_stack r = stack_of (prev_stack info) ∧
    (prev_sample_index_if_zero_cpu info = None → SampleTable.row_cpu_delta r ≠ CpuDelta_ZERO).
Proof using Type.
  intros Hwf Hinfo. pose proof (Hwf thread) as Hok. rewrite Hinfo in Hok.
  destruct Hok as (j & x & r & Hx & Hr & Hs & Hafter & Hz).
  destruct (last_sample_split _ thread j x r Hx Hr Hafter) as (l1 & l2 & _ & _ & Hrows & _).
  eexists _, r. split_and!; [exact Hrows| |].
  2:{ intros Hn Hd. rewrite Hn in Hz. by destruct (decide (SampleTable.row_cpu_delta r = CpuDelta_ZERO)). }
  unfold sample_row in Hr. destruct (sample_or_marker x); [|done].
  destruct (decide (thread_handle x = thread)); [|done]. injection Hr as <-. simpl. by rewrite Hs.
Qed.

Lemma same_stack_ok thread ts mono w label t :
  wf t → let o := SameStackZeroCpu thread ts mono w label in
  ∃ t', apply_op o t = Ok t' ∧ wf t' ∧
    (∀ h, rows_of stack_of h t' =
       match thread_op stack_of h o with
       | Some so => Thread.spec_sample_op so (rows_of stack_of h t)
       | None => rows_of stack_of h t
       end) ∧
    omap marker_entry (samples_and_markers t') =
      omap marker_entry (samples_and_markers t) ++ option_list (marker_op o).
Proof using stack_of_empty.
  intros Hwf o. simpl. unfold add_sample_same_stack_zero_cpu. rewrite app_nil_r.
  destruct (prev_sample_info_per_thread t !! thread) as [info|] eqn:Einfo.
  2:{ eexists. split; [done|].
      edestruct (push_sample_ok t thread) as (Hwf' & Hrows & Hm); [done| | | |split; [exact Hwf'|split]];
        [done..| |exact Hm].
      intros h. etrans; [exact (Hrows h)|]. simpl. case_decide as Hd; [|by rewrite app_nil_r].
      subst h. rewrite (wf_rows_None t thread) by done. simpl. by rewrite stack_of_empty. }
  destruct (last_row_info t thread info Hwf Einfo) as (rows & r & Hr & Hrs & Hrz).
  destruct (prev_sample_index_if_zero_cpu info) as [i|] eqn:Eidx.
  - pose proof (Hwf thread) as Hok. rewrite Einfo in Hok.
    destruct Hok as (j & x & r' & Hx & Hr' & _ & _ & Hz). rewrite Eidx in Hz.
    case_decide; [|done]. injection Hz as <-.
    unfold sample_row in Hr'. destruct (sample_or_marker x) as [d|] eqn:Ed; [|done].
    rewrite (proj2 (index_Ok _ _ _) Hx). simpl. rewrite Ed. simpl.
    rewrite (proj2 (index_set_Ok _ _ _ _) (conj (lookup_lt_Some _ _ _ Hx) eq_refl)). simpl.
    destruct (move_sample_ok t thread info i d x Hwf Einfo Eidx Hx Ed ts (wrap_i32 (weight d + w)))
      as (Hwf' & (rows' & Hold & Hzero & Hnew) & Hother & Hm).
    eexists. split; [done|]. split_and!; [exact Hwf'| |exact Hm].
    intros h. destruct (decide (thread = h)) as [<-|Hh]; [|by apply Hother].
    cbn [Thread.spec_sample_op]. rewrite Hold, last_snoc, decide_True by done.
    by rewrite Hnew, Thread.removelast_snoc.
  - eexists. split; [done|].
    edestruct (push_sample_ok t thread) as (Hwf' & Hrows & Hm); [done| | | |split; [exact Hwf'|split]];
      [done..| |exact Hm].
    intros h. etrans; [exact (Hrows h)|]. destruct (decide (thread = h)) as [<-|Hh];
      [|by rewrite app_nil_r].
    cbn [Thread.spec_sample_op]. rewrite Hr, last_snoc, decide_False by by apply Hrz.
    by rewrite Hrs.
Qed.

(** One operation does to every thread what the specification says. *)
Lemma apply_op_refines o t :
  wf t → ∃ t', apply_op o t = Ok t' ∧ wf t' ∧
    (∀ thread, rows_of stack_of thread t' =
       match thread_op stack_of thread o with
       | Some so => Thread.spec_sample_op so (rows_of stack_of thread t)
       | None => rows_of stack_of thread t
       end) ∧
    omap marker_entry (samples_and_markers t') =
      omap marker_entry (samples_and_markers t) ++ option_list (marker_op o).
Proof using stack_of_empty.
  intros Hwf. destruct o as [thread ts mono stack' delta w label|thread ts mono w label|thread ts mono stack' m].
  - eexists. split; [done|].
    edestruct (push_sample_ok t thread) as (Hwf' & Hrows & Hm); [done| | | |split; [exact Hwf'|split]];
      [done..| |rewrite app_nil_r; exact Hm].
    intros h. etrans; [exact (Hrows h)|]. simpl.
    destruct (decide (thread = h)); [done|by rewrite app_nil_r].
  - by apply same_stack_ok.
  - eexists. split; [done|]. split_and!; simpl.
    + intros h. simpl. apply info_ok_push; [apply Hwf|done].
    + intros h. unfold rows_of. simpl. unfold push. by rewrite omap_snoc, app_nil_r.
    + unfold push. by rewrite omap_snoc.
Qed.

Lemma run_samples_refine ops t :
  wf t → ∃ t', run ops t = Ok t' ∧ wf t' ∧
    (∀ thread, rows_of stack_of thread t' =
       Thread.spec_samples (omap (thread_op stack_of thread) ops) (rows_of stack_of thread t)) ∧
    omap marker_entry (samples_and_markers t') =
      omap marker_entry (samples_and_markers t) ++ omap marker_op ops.
Proof using stack_of_empty.
  revert t. induction ops as [|o ops IH]; intros t Hwf.
  { exists t. by rewrite app_nil_r. }
  destruct (apply_op_refines o t Hwf) as (t1 & Heq & Hwf1 & Hrows1 & Hm1).
  destruct (IH t1 Hwf1) as (t2 & Hrun & Hwf2 & Hrows2 & Hm2).
  exists t2. cbn [run]. rewrite Heq. split_and!; [done|done| |].
  - intros h. rewrite Hrows2, Hrows1, omap_cons. by destruct (thread_op stack_of h o).
  - by rewrite Hm2, Hm1, omap_cons, app_assoc.
Qed.
End samples.

(** * Properties *)

(** C24: No sequence of calls panics, and for every thread the buffered samples
    are exactly what the same calls would put into a thread of a profile
    ([Thread::add_sample], [Thread::add_sample_same_stack_zero_cpu]), however the
    calls for different threads and for markers are interleaved; the markers with
    stacks are all there, in order. *)
Theorem run_refines_threads (stack_of : UnresolvedStackHandle → option nat) (ops : list op) :
  stack_of EMPTY = None →
  ∃ t, run ops default = Ok t ∧
    (∀ thread, rows_of stack_of thread t =
       Thread.spec_samples (omap (thread_op stack_of thread) ops) []) ∧
    omap marker_entry (samples_and_markers t) = omap marker_op ops.
Proof.
  intros He. destruct (run_samples_refine stack_of He ops default) as (t & Hrun & _ & Hrows & Hm); [done|].
  by exists t.
Qed.

Example run_refines_threads_witness :
  ∃ t, run [AddSample 0%nat {| nanos := 1 |} 1 7 CpuDelta_ZERO 1 None;
            AddSample 1%nat {| nanos := 2 |} 2 8 CpuDelta_ZERO 1 None;
            SameStackZeroCpu 0%nat {| nanos := 3 |} 3 5 None] default = Ok t ∧
    rows_of (λ _, None) 0%nat t = [SampleTable.Build_row {| nanos := 3 |} None CpuDelta_ZERO 6].
Proof.
  destruct (run_refines_threads (λ _, None)
    [AddSample 0%nat {| nanos := 1 |} 1 7 CpuDelta_ZERO 1 None;
     AddSample 1%nat {| nanos := 2 |} 2 8 CpuDelta_ZERO 1 None;
     SameStackZeroCpu 0%nat {| nanos := 3 |} 3 5 None] eq_refl) as (t & Hrun & Hrows & _).
  exists t. split; [exact Hrun|]. rewrite Hrows. by vm_compute.
Defined.
End UnresolvedSamples.

(** * The samples of an off-CPU group *)
Module OffCpuSamples.
Import UnresolvedStacks UnresolvedSamples ContextSwitch.

(** [i32::try_from(n).unwrap_or(0)] of a [u64] *)
Definition i32_or_zero (n : Z) : Z := if n <? 2 ^ 31 then n else 0.

Definition process_off_cpu_sample_group (off_cpu_sample : OffCpuSampleGroup) (thread : ThreadHandle)
    (cpu_delta_ns : Z) (timestamp_converter : TimestampConverter) (off_cpu_weight_per_sample : Z)
    (off_cpu_stack : UnresolvedStackHandle) (samples : UnresolvedSamples) : UnresolvedSamples :=
  let '{| begin_timestamp := begin; end_timestamp := end_; sample_count := count |} :=
    off_cpu_sample in
  let samples' :=
    add_sample samples thread (convert_time timestamp_converter begin) begin off_cpu_stack
      (CpuDelta_from_nanos cpu_delta_ns) off_cpu_weight_per_sample None in
  if 1 <? count then
    let weight := wrap_i32 (i32_or_zero (sub_u64 count 1) * off_cpu_weight_per_sample) in
    add_sample samples' thread (convert_time timestamp_converter end_) begin off_cpu_stack
      (CpuDelta_from_nanos 0) weight None
  else samples'.

(** An off-CPU group becomes one or two samples of its thread, at the
    group's begin and, if it has more than one sample, at its end, with the stack
    the thread went to sleep with; the first has the pending CPU time and the
    second none. Their weights add up to the weight of one sample times the
    number of samples, as long as the number and the product fit [i32]. *)
Theorem off_cpu_group_weight (stack_of : UnresolvedStackHandle → option nat) (g : OffCpuSampleGroup)
    (thread : ThreadHandle) (cpu_delta_ns : Z) (conv : TimestampConverter) (w : Z)
    (stack' : UnresolvedStackHandle) (t : UnresolvedSamples) :
  1 ≤ sample_count g ≤ 2 ^ 31 → 0 ≤ w → (sample_count g - 1) * w < 2 ^ 31 →
  ∃ first rest,
    rows_of stack_of thread (process_off_cpu_sample_group g thread cpu_delta_ns conv w stack' t) =
      rows_of stack_of thread t ++ first :: rest ∧
    SampleTable.row_timestamp first = convert_time conv (begin_timestamp g) ∧
    SampleTable.row_cpu_delta first = CpuDelta_from_nanos cpu_delta_ns ∧
    Forall (λ r, SampleTable.row_stack r = stack_of stack') (first :: rest) ∧
    Forall (λ r, SampleTable.row_timestamp r = convert_time conv (end_timestamp g) ∧
                 SampleTable.row_cpu_delta r = CpuDelta_ZERO) rest ∧
    length rest = (if (sample_count g =? 1)%Z then 0 else 1)%nat ∧
    Thread.total_weight (first :: rest) = sample_count g * w.
Proof.
  intros Hc Hw Hfit. destruct g as [b e c]. simpl in *.
  assert (∀ t ts mono d w', rows_of stack_of thread (add_sample t thread ts mono stack' d w' None) =
    rows_of stack_of thread t ++ [SampleTable.Build_row ts (stack_of stack') d w']) as Hadd.
  { intros t' ts mono d w'. unfold rows_of, add_sample, push. simpl. rewrite omap_snoc. f_equal.
    unfold sample_row. simpl. by rewrite decide_True. }
  destruct (Z.ltb_spec 1 c).
  - rewrite !Hadd, <-app_assoc. simpl. do 2 eexists. split; [done|].
    destruct (Z.eqb_spec c 1); [lia|]. split_and!; try done; try by repeat constructor.
    rewrite sub_u64_id by (unfold u64_range; lia). unfold i32_or_zero.
    destruct (Z.ltb_spec (c - 1) (2 ^ 31)); [|lia]. rewrite wrap_i32_id by nia.
    unfold Thread.total_weight. simpl. lia.
  - rewrite Hadd. assert (c = 1) as -> by lia. do 2 eexists. split; [done|].
    split_and!; try done; try by repeat constructor. unfold Thread.total_weight. simpl. lia.
Qed.

Example off_cpu_group_weight_witness :
  ∃ first rest,
    rows_of (λ _, None) 3%nat (process_off_cpu_sample_group
      {| begin_timestamp := 37; end_timestamp := 47; sample_count := 2 |} 3%nat 3000
      {| reference_raw := 0; raw_to_ns_factor := 1 |} 1 7 UnresolvedSamples.default) = first :: rest ∧
    length rest = 1%nat ∧ Thread.total_weight (first :: rest) = 2.
Proof.
  destruct (off_cpu_group_weight (λ _, None)
    {| begin_timestamp := 37; end_timestamp := 47; sample_count := 2 |} 3%nat 3000
    {| reference_raw := 0; raw_to_ns_factor := 1 |} 1 7 UnresolvedSamples.default) as (f & r & H & _ & _ & _ & _ & Hl & Hw);
    simpl; [lia..|]. by exists f, r.
Defined.
End OffCpuSamples.
