(* ===== verification/StackConversion.v ===== *)
(** From an unresolved stack to the frames of a profile:
    samply/src/shared/stack_converter.rs. An iterator is modelled by the items it
    still yields ([inner]); the ones with a state of their own have their [next]
    function and are run to the end by a [collect] loop. *)
From S2P Require Import Prelude Types LibMappings Hierarchy.
From stdpp Require Import options.
Open Scope Z_scope.

Module StackConversion.
Import Hierarchy.

(** * Data *)
Record FirstPassFrameInfo := { mode : StackMode; lookup_address : Z; from_ip : bool }.
Record SecondPassFrameInfo := {
  location : Frame;
  second_category : CategoryPairHandle;
  second_js_frame : option JsFrame;
  second_art_info : option AndroidArtInfo
}.
Record LibartFilteringIter := {
  libart_inner : list SecondPassFrameInfo;
  last_emitted_was_java : bool;
  buffer : list SecondPassFrameInfo
}.
Record ConvertedStackIter := {
  converted_inner : list SecondPassFrameInfo;
  pending_frame_info : option FrameInfo;
  js_name_for_baseline_interpreter : option JsName
}.
Record StackConverter := {
  user_category : CategoryPairHandle;
  kernel_category : CategoryPairHandle
}.

(** * First pass: addresses to look up *)
Definition first_pass_frame (frame : StackFrame) : option FirstPassFrameInfo :=
  match frame with
  | SF_InstructionPointer addr mode => Some {| mode := mode; lookup_address := addr; from_ip := true |}
  | SF_ReturnAddress addr mode =>
      Some {| mode := mode; lookup_address := saturating_sub addr 1; from_ip := false |}
  | SF_AdjustedReturnAddress addr mode =>
      Some {| mode := mode; lookup_address := addr; from_ip := false |}
  | SF_TruncatedStackMarker => None
  end.
(** The loop continues over truncation markers. *)
Fixpoint first_pass (stack : list StackFrame) : list FirstPassFrameInfo :=
  match stack with
  | [] => []
  | frame :: stack' =>
      match first_pass_frame frame with
      | Some f => f :: first_pass stack'
      | None => first_pass stack'
      end
  end.

(** * Second pass: libraries and categories *)
Definition second_pass_frame (c : StackConverter) (lib_mappings : LibMappingsHierarchy)
    (f : FirstPassFrameInfo) : SecondPassFrameInfo :=
  let absolute :=
    if from_ip f then InstructionPointer (lookup_address f)
    else AdjustedReturnAddress (lookup_address f) in
  match mode f with
  | User =>
      match convert_address lib_mappings (lookup_address f) with
      | Some (relative_lookup_address, info) =>
          {| location :=
               if from_ip f
               then RelativeAddressFromInstructionPointer (lib_handle info) relative_lookup_address
               else RelativeAddressFromAdjustedReturnAddress (lib_handle info) relative_lookup_address;
             second_category := default (user_category c) (category info);
             second_js_frame := js_frame info; second_art_info := art_info info |}
      | None =>
          {| location := absolute; second_category := user_category c;
             second_js_frame := None; second_art_info := None |}
      end
  | Kernel =>
      {| location := absolute; second_category := kernel_category c;
         second_js_frame := None; second_art_info := None |}
  end.
Definition second_pass (c : StackConverter) (lib_mappings : LibMappingsHierarchy)
    (fs : list FirstPassFrameInfo) : list SecondPassFrameInfo :=
  second_pass_frame c lib_mappings <$> fs.

(** * Third pass: interpreter frames between Java frames *)
Definition is_libart (f : SecondPassFrameInfo) : bool :=
  bool_decide (second_art_info f = Some LibArt).
Definition is_java (f : SecondPassFrameInfo) : bool :=
  bool_decide (second_art_info f = Some JavaFrame).

(** The [while] loop that buffers interpreter frames: the first other frame and
    what follows it, or nothing more; and the buffer. *)
Fixpoint buffer_libart (frame : SecondPassFrameInfo) (inner buffer' : list SecondPassFrameInfo)
    : option (SecondPassFrameInfo * list SecondPassFrameInfo) * list SecondPassFrameInfo :=
  if is_libart frame then
    match inner with
    | next_frame :: inner' => buffer_libart next_frame inner' (push buffer' frame)
    | [] => (None, push buffer' frame)
    end
  else (Some (frame, inner), buffer').

(** [VecDeque::pop_front] *)
Definition pop_front {A} (l : list A) : option A * list A :=
  match l with [] => (None, []) | x :: l' => (Some x, l') end.

Definition libart_next (s : LibartFilteringIter) : option SecondPassFrameInfo * LibartFilteringIter :=
  match buffer s with
  | frame :: buffer' =>
      (Some frame, {| libart_inner := libart_inner s; last_emitted_was_java := last_emitted_was_java s;
                      buffer := buffer' |})
  | [] =>
      match libart_inner s with
      | [] => (None, s)
      | frame :: inner =>
          let '(found, buffer') :=
            if last_emitted_was_java s then buffer_libart frame inner []
            else (Some (frame, inner), []) in
          match found with
          | None =>
              let '(item, buffer'') := pop_front buffer' in
              (item, {| libart_inner := []; last_emitted_was_java := last_emitted_was_java s;
                        buffer := buffer'' |})
          | Some (frame', inner') =>
              if is_java frame' then
                (Some frame', {| libart_inner := inner'; last_emitted_was_java := true; buffer := [] |})
              else
                match buffer' with
                | [] =>
                    (Some frame',
                     {| libart_inner := inner'; last_emitted_was_java := false; buffer := [] |})
                | _ =>
                    let '(item, buffer'') := pop_front (push buffer' frame') in
                    (item, {| libart_inner := inner'; last_emitted_was_java := false;
                              buffer := buffer'' |})
                end
          end
      end
  end.

(** * Fourth pass: JavaScript frames *)
Definition extra_js_name (js : option JsFrame) (js_name : option JsName)
    : option JsName * option JsName :=
  match js with
  | Some NativeFrameIsJs => (None, js_name)
  | Some (RegularInAdditionToNativeFrame name) => (Some name, Some name)
  | Some (BaselineInterpreterStub name) => (Some name, None)
  | Some BaselineInterpreter => (js_name, None)
  | None => (None, js_name)
  end.
Definition native_frame (f : SecondPassFrameInfo) : FrameInfo :=
  {| frame := location f; category_pair := second_category f;
     flags := match second_js_frame f with
              | Some NativeFrameIsJs => Z.lor FrameFlags_empty IS_JS
              | _ => FrameFlags_empty
              end |}.
Definition prepended_js_frame (f : SecondPassFrameInfo) (name : StringHandle) : FrameInfo :=
  {| frame := Label name; category_pair := second_category f; flags := IS_JS |}.

Definition converted_next (s : ConvertedStackIter) : option FrameInfo * ConvertedStackIter :=
  match pending_frame_info s with
  | Some f =>
      (Some f, {| converted_inner := converted_inner s; pending_frame_info := None;
                  js_name_for_baseline_interpreter := js_name_for_baseline_interpreter s |})
  | None =>
      match converted_inner s with
      | [] => (None, s)
      | f :: inner =>
          let '(extra, js_name) :=
            extra_js_name (second_js_frame f) (js_name_for_baseline_interpreter s) in
          match extra with
          | Some (NonSelfHosted name) =>
              (Some (prepended_js_frame f name),
               {| converted_inner := inner; pending_frame_info := Some (native_frame f);
                  js_name_for_baseline_interpreter := js_name |})
          | _ =>
              (Some (native_frame f),
               {| converted_inner := inner; pending_frame_info := None;
                  js_name_for_baseline_interpreter := js_name |})
          end
      end
  end.

(** * Running an iterator to its end; [None] if it has not ended *)
Section collect.
Context {S A : Type} (next : S → option A * S).
Fixpoint collect (fuel : nat) (s : S) : option (list A) :=
  match fuel with
  | O => None
  | Datatypes.S fuel' =>
      match next s with
      | (None, _) => Some []
      | (Some x, s') => cons x <$> collect fuel' s'
      end
  end.
End collect.

(** [convert_stack], run to its end. The third pass is at most as long as its
    input, and the fourth at most twice as long as that. *)
Definition third_pass (fs : list SecondPassFrameInfo) : option (list SecondPassFrameInfo) :=
  collect libart_next (S (length fs))
    {| libart_inner := fs; last_emitted_was_java := false; buffer := [] |}.
Definition fourth_pass (extra_first_frame : option FrameInfo) (fs : list SecondPassFrameInfo)
    : option (list FrameInfo) :=
  collect converted_next (2 + 2 * length fs)
    {| converted_inner := fs; pending_frame_info := extra_first_frame;
       js_name_for_baseline_interpreter := None |}.
Definition convert_stack (c : StackConverter) (stack : list StackFrame)
    (lib_mappings : LibMappingsHierarchy) (extra_first_frame : option FrameInfo)
    : option (list FrameInfo) :=
  third_pass (second_pass c lib_mappings (first_pass (reverse stack))) ≫= fourth_pass extra_first_frame.

(** * Specification *)

(** An interpreter frame is hidden if the closest other frames around it are both
    Java frames. *)
Fixpoint next_is_java (fs : list SecondPassFrameInfo) : bool :=
  match fs with
  | [] => false
  | f :: fs' => if is_libart f then next_is_java fs' else is_java f
  end.
Fixpoint visible (after_java : bool) (fs : list SecondPassFrameInfo) : list SecondPassFrameInfo :=
  match fs with
  | [] => []
  | f :: fs' =>
      if is_libart f then
        if after_java && next_is_java fs' then visible after_java fs'
        else f :: visible after_java fs'
      else f :: visible (is_java f) fs'
  end.

(** A frame, after the label of the JavaScript function it stands for. *)
Fixpoint with_js_labels (js_name : option JsName) (fs : list SecondPassFrameInfo) : list FrameInfo :=
  match fs with
  | [] => []
  | f :: fs' =>
      let '(extra, js_name') := extra_js_name (second_js_frame f) js_name in
      match extra with Some (NonSelfHosted name) => [prepended_js_frame f name] | _ => [] end ++
      native_frame f :: with_js_labels js_name' fs'
  end.

(** * Lemmas *)
Lemma first_pass_omap stack : first_pass stack = omap first_pass_frame stack.
Proof. induction stack as [|f stack IH]; simpl; [done|]. rewrite IH. done. Qed.

Lemma buffer_libart_spec frame' inner buf found buf' :
  buffer_libart frame' inner buf = (found, buf') →
  ∃ run, buf' = buf ++ run ∧ Forall (λ f, is_libart f = true) run ∧
    match found with
    | Some (f, rest) => frame' :: inner = run ++ f :: rest ∧ is_libart f = false
    | None => frame' :: inner = run
    end.
Proof.
  revert frame' buf. induction inner as [|f inner IH]; intros frame' buf; simpl;
    destruct (is_libart frame') eqn:E; unfold push.
  - intros [= <- <-]. exists [frame']. by repeat constructor.
  - intros [= <- <-]. exists []. rewrite app_nil_r. by repeat constructor.
  - intros (run & -> & Hrun & Hf)%IH. exists (frame' :: run). rewrite <-app_assoc.
    split_and!; [done|by constructor|].
    destruct found as [[g rest]|]; [destruct Hf as [-> ?]; done|by rewrite Hf].
  - intros [= <- <-]. exists []. rewrite app_nil_r. by repeat constructor.
Qed.

Lemma next_is_java_run run fs :
  Forall (λ f, is_libart f = true) run → next_is_java (run ++ fs) = next_is_java fs.
Proof. induction 1 as [|f run Hf _ IH]; simpl; [done|]. by rewrite Hf. Qed.

(** A run of interpreter frames is hidden as a whole or not at all. *)
Lemma visible_run run fs :
  Forall (λ f, is_libart f = true) run →
  visible true (run ++ fs) = (if next_is_java fs then [] else run) ++ visible true fs.
Proof.
  induction 1 as [|f run Hf Hrun IH]; simpl; [by destruct (next_is_java fs)|].
  rewrite Hf, next_is_java_run by done. rewrite IH. by destruct (next_is_java fs).
Qed.

Lemma java_not_libart f : is_java f = true → is_libart f = false.
Proof. unfold is_java, is_libart. case_bool_decide as H; [|done]. by rewrite H. Qed.

Lemma libart_next_spec s :
  match libart_next s with
  | (None, _) => buffer s = [] ∧ libart_inner s = []
  | (Some x, s') =>
      buffer s ++ visible (last_emitted_was_java s) (libart_inner s) =
        x :: buffer s' ++ visible (last_emitted_was_java s') (libart_inner s') ∧
      (length (buffer s') + length (libart_inner s') < length (buffer s) + length (libart_inner s))%nat
  end.
Proof.
  destruct s as [inner java buf]. unfold libart_next. simpl.
  destruct buf as [|b buf]; simpl; [|split; [done|lia]].
  destruct inner as [|frame' inner]; [done|].
  destruct java.
  - destruct (buffer_libart frame' inner []) as [found buf'] eqn:E.
    apply buffer_libart_spec in E as (run & -> & Hrun & Hf). rewrite app_nil_l.
    destruct found as [[f rest]|].
    + destruct Hf as [-> Hf]. rewrite visible_run by done. simpl. rewrite Hf.
      rewrite length_app. simpl. destruct (is_java f) eqn:Ej; simpl; [split; [done|lia]|].
      destruct run as [|r run]; simpl; [split; [done|lia]|].
      unfold push. rewrite length_app, <-app_assoc. simpl. split; [done|lia].
    + pose proof (visible_run run [] Hrun) as Hv. rewrite !app_nil_r in Hv. rewrite Hf, Hv.
      destruct run as [|r run]; [done|]. simpl. rewrite !app_nil_r. split; [done|lia].
  - simpl. destruct (is_libart frame') eqn:El; simpl.
    + destruct (is_java frame') eqn:Ej; [apply java_not_libart in Ej; congruence|]. simpl.
      split; [done|lia].
    + destruct (is_java frame') eqn:Ej; simpl; (split; [done|lia]).
Qed.

Lemma collect_libart fuel s :
  (length (buffer s) + length (libart_inner s) < fuel)%nat →
  collect libart_next fuel s = Some (buffer s ++ visible (last_emitted_was_java s) (libart_inner s)).
Proof.
  revert s. induction fuel as [|fuel IH]; intros s Hfuel; [lia|]. simpl.
  pose proof (libart_next_spec s) as Hn. destruct (libart_next s) as [[x|] s'].
  - destruct Hn as [-> Hlt]. by rewrite IH by lia.
  - by destruct Hn as [-> ->].
Qed.

Lemma collect_converted fuel s :
  (length (option_list (pending_frame_info s)) + 2 * length (converted_inner s) < fuel)%nat →
  collect converted_next fuel s =
    Some (option_list (pending_frame_info s) ++
          with_js_labels (js_name_for_baseline_interpreter s) (converted_inner s)).
Proof.
  revert s. induction fuel as [|fuel IH]; intros [inner pending js] Hfuel; simpl in *; [lia|].
  unfold converted_next. simpl. destruct pending as [f|]; simpl in *; [by rewrite IH by (simpl; lia)|].
  destruct inner as [|f inner]; simpl in *; [done|].
  destruct (extra_js_name (second_js_frame f) js) as [extra js'].
  destruct extra as [[n|n]|]; rewrite IH by (simpl; lia); done.
Qed.

Lemma third_pass_spec fs : third_pass fs = Some (visible false fs).
Proof. unfold third_pass. rewrite collect_libart by (simpl; lia). done. Qed.

Lemma fourth_pass_spec extra fs :
  fourth_pass extra fs = Some (option_list extra ++ with_js_labels None fs).
Proof. unfold fourth_pass. rewrite collect_converted by (simpl; destruct extra; simpl; lia). done. Qed.

Lemma visible_sublist b fs : sublist (visible b fs) fs.
Proof.
  revert b. induction fs as [|f fs IH]; intros b; simpl; [constructor|].
  destruct (is_libart f); [destruct (b && next_is_java fs)|]; by constructor.
Qed.

Lemma with_js_labels_length js fs :
  (length fs ≤ length (with_js_labels js fs) ≤ 2 * length fs)%nat.
Proof.
  revert js. induction fs as [|f fs IH]; intros js; simpl; [lia|].
  destruct (extra_js_name (second_js_frame f) js) as [extra js'].
  specialize (IH js'). destruct extra as [[n|n]|]; simpl; lia.
Qed.

Lemma first_pass_length stack : (length (first_pass stack) ≤ length stack)%nat.
Proof. induction stack as [|f stack IH]; simpl; [done|]. destruct (first_pass_frame f); simpl; lia. Qed.

Lemma convert_stack_spec c stack h extra :
  convert_stack c stack h extra =
  Some (option_list extra ++
    with_js_labels None (visible false (second_pass c h (first_pass (reverse stack))))).
Proof. unfold convert_stack. rewrite third_pass_spec. simpl. apply fourth_pass_spec. Qed.

(** ** What the frames of a converted stack are, frame by frame *)

(** Every item of a list becomes some items, which depend on those before and after it. *)
Fixpoint in_context {A B} (g : list A → A → list A → list B) (before fs : list A) : list B :=
  match fs with
  | [] => []
  | f :: fs' => g before f fs' ++ in_context g (before ++ [f]) fs'
  end.

(** A frame of the stack, looked up: a return address at the byte before it, and only
    addresses of user space in the mappings. A mapping may have a category. *)
Definition located_frame (c : StackConverter) (h : LibMappingsHierarchy) (frame' : StackFrame)
    : option SecondPassFrameInfo :=
  let in_kernel l := Some
    {| location := l; second_category := kernel_category c; second_js_frame := None; second_art_info := None |} in
  let in_user a absolute relative := Some
    match convert_address h a with
    | Some (r, i) =>
        {| location := relative (lib_handle i) r;
           second_category := match category i with Some k => k | None => user_category c end;
           second_js_frame := js_frame i; second_art_info := art_info i |}
    | None =>
        {| location := absolute a; second_category := user_category c; second_js_frame := None;
           second_art_info := None |}
    end in
  match frame' with
  | SF_InstructionPointer a Kernel => in_kernel (InstructionPointer a)
  | SF_ReturnAddress a Kernel => in_kernel (AdjustedReturnAddress (Z.max 0 (a - 1)))
  | SF_AdjustedReturnAddress a Kernel => in_kernel (AdjustedReturnAddress a)
  | SF_InstructionPointer a User => in_user a InstructionPointer RelativeAddressFromInstructionPointer
  | SF_ReturnAddress a User =>
      in_user (Z.max 0 (a - 1)) AdjustedReturnAddress RelativeAddressFromAdjustedReturnAddress
  | SF_AdjustedReturnAddress a User => in_user a AdjustedReturnAddress RelativeAddressFromAdjustedReturnAddress
  | SF_TruncatedStackMarker => None
  end.

(** An interpreter frame is left out if of the other frames the last one before it and
    the first one after it are both Java frames. *)
Definition others (fs : list SecondPassFrameInfo) : list (option AndroidArtInfo) :=
  filter (λ a, a ≠ Some LibArt) (second_art_info <$> fs).
Definition shown_frame (before : list SecondPassFrameInfo) (f : SecondPassFrameInfo)
    (after : list SecondPassFrameInfo) : list SecondPassFrameInfo :=
  if decide (second_art_info f = Some LibArt ∧ last (others before) = Some (Some JavaFrame) ∧
             head (others after) = Some (Some JavaFrame))
  then [] else [f].

(** The name of the JavaScript function a frame stands for. A frame of the baseline
    interpreter has none of its own: it takes that of the frame of the C++ interpreter
    before it, unless another frame of the baseline interpreter is between them. *)
Definition about_interpreters (js : option JsFrame) : Prop :=
  match js with Some NativeFrameIsJs | None => False | _ => True end.
#[global] Instance about_interpreters_dec js : Decision (about_interpreters js).
Proof. destruct js as [[]|]; apply _. Defined.
Definition interpreted (before : list SecondPassFrameInfo) : option JsName :=
  match last (filter about_interpreters (second_js_frame <$> before)) with
  | Some (Some (RegularInAdditionToNativeFrame n)) => Some n
  | _ => None
  end.
Definition js_function (before : list SecondPassFrameInfo) (f : SecondPassFrameInfo) : option JsName :=
  match second_js_frame f with
  | Some (RegularInAdditionToNativeFrame n) | Some (BaselineInterpreterStub n) => Some n
  | Some BaselineInterpreter => interpreted before
  | Some NativeFrameIsJs | None => None
  end.
Definition labelled_frame (before : list SecondPassFrameInfo) (f : SecondPassFrameInfo)
    (_ : list SecondPassFrameInfo) : list FrameInfo :=
  match js_function before f with
  | Some (NonSelfHosted n) => [{| frame := Label n; category_pair := second_category f; flags := IS_JS |}]
  | _ => []
  end ++
  [{| frame := location f; category_pair := second_category f;
      flags := if decide (second_js_frame f = Some NativeFrameIsJs) then IS_JS else 0 |}].

Lemma located_frame_passes c h frame' :
  located_frame c h frame' = second_pass_frame c h <$> first_pass_frame frame'.
Proof.
  assert (∀ a, saturating_sub a 1 = Z.max 0 (a - 1)) as Hsub by done.
  destruct frame' as [a []|a []|a []|]; cbn [first_pass_frame fmap option_fmap option_map located_frame]; rewrite ?Hsub;
    unfold second_pass_frame; cbn [mode lookup_address from_ip]; try done; by destruct (convert_address h _) as [[r i]|].
Qed.

Lemma next_is_java_others fs : next_is_java fs = bool_decide (head (others fs) = Some (Some JavaFrame)).
Proof.
  unfold others. induction fs as [|f fs IH]; [done|]. cbn [next_is_java fmap list_fmap]. rewrite filter_cons.
  unfold is_libart, is_java. destruct (second_art_info f) as [[]|] eqn:E; by repeat case_decide.
Qed.
Lemma others_snoc fs f :
  others (fs ++ [f]) = others fs ++ match second_art_info f with Some LibArt => [] | a => [a] end.
Proof. unfold others. rewrite fmap_app, filter_app. cbn. by destruct (second_art_info f) as [[]|]. Qed.
Lemma after_java_others (after_java : bool) before f :
  after_java = bool_decide (last (others before) = Some (Some JavaFrame)) →
  (if is_libart f then after_java else is_java f) = bool_decide (last (others (before ++ [f])) = Some (Some JavaFrame)).
Proof.
  intros ->. rewrite others_snoc. unfold is_libart, is_java.
  destruct (second_art_info f) as [[]|]; cbn; rewrite ?app_nil_r, ?last_snoc; done.
Qed.
Lemma visible_shown after_java before fs :
  after_java = bool_decide (last (others before) = Some (Some JavaFrame)) →
  visible after_java fs = in_context shown_frame before fs.
Proof.
  revert after_java before. induction fs as [|f fs IH]; intros after_java before Hj; [done|].
  pose proof (after_java_others after_java before f Hj) as Hnext. cbn [visible in_context].
  unfold shown_frame at 1. rewrite next_is_java_others. unfold is_libart in *. case_bool_decide as Hf.
  - rewrite <-(IH after_java (before ++ [f]) Hnext), Hj.
    destruct (decide (last (others before) = Some (Some JavaFrame))) as [Hl|Hl], (decide (head (others fs) = Some (Some JavaFrame))) as [Hr|Hr].
    all: rewrite ?(bool_decide_eq_true_2 _ Hl), ?(bool_decide_eq_false_2 _ Hl), ?(bool_decide_eq_true_2 _ Hr),
      ?(bool_decide_eq_false_2 _ Hr). all: cbn [andb].
    all: first [rewrite decide_True by done; done | rewrite decide_False by tauto; done].
  - rewrite <-(IH _ (before ++ [f]) Hnext). rewrite decide_False by naive_solver. done.
Qed.

Lemma interpreted_snoc before f :
  interpreted (before ++ [f]) = (extra_js_name (second_js_frame f) (interpreted before)).2.
Proof.
  unfold interpreted. rewrite fmap_app, filter_app. cbn [fmap list_fmap]. rewrite filter_cons, filter_nil.
  destruct (second_js_frame f) as [[]|]; (rewrite decide_True by done) || (rewrite decide_False by (by intros []));
    rewrite ?app_nil_r, ?last_snoc; done.
Qed.
Lemma with_js_labels_labelled before fs :
  with_js_labels (interpreted before) fs = in_context labelled_frame before fs.
Proof.
  revert before. induction fs as [|f fs IH]; intros before; [done|]. cbn [with_js_labels in_context].
  rewrite <-IH, interpreted_snoc. unfold labelled_frame, js_function, native_frame, prepended_js_frame.
  destruct (second_js_frame f) as [[]|] eqn:E; cbn [extra_js_name snd]; try done;
    by match goal with |- context [match ?n with _ => _ end] => destruct n as [[]|] || destruct n end.
Qed.

(** * Properties *)

(** C26: Converting a stack always ends, and yields, root first, after the extra
    frame if there is one: every frame that is not a truncation marker, at its address
    (a return address at the byte before it), looked up in the mappings if it is a
    user frame, under the category of its mapping or of its mode, except interpreter
    frames whose closest other frames on both sides are Java frames; directly before a
    frame that stands for a JavaScript function with a name that is not self-hosted
    comes the label of that function, where a frame of the baseline interpreter takes
    the name of the interpreter frame that called it. There are at most twice as many
    frames as in the stack, plus the extra one. *)
Theorem convert_stack_frames (c : StackConverter) (stack : list StackFrame)
    (h : LibMappingsHierarchy) (extra : option FrameInfo) :
  let located := omap (located_frame c h) (reverse stack) in
  let shown := in_context shown_frame [] located in
  ∃ frames, convert_stack c stack h extra = Some frames ∧
    frames = option_list extra ++ in_context labelled_frame [] shown ∧
    (length frames ≤ 2 * length stack + 1)%nat.
Proof.
  intros located shown. assert (located = second_pass c h (first_pass (reverse stack))) as Hl.
  { unfold located, second_pass. rewrite first_pass_omap. induction (reverse stack) as [|f fs IH]; [done|]. cbn.
    rewrite located_frame_passes. destruct (first_pass_frame f); cbn; by rewrite IH. }
  eexists. split; [apply convert_stack_spec|].
  rewrite <-Hl, (with_js_labels_labelled []), (visible_shown _ []) by done. split; [done|].
  rewrite <-(with_js_labels_labelled []), <-(visible_shown false []) by done. change (interpreted []) with (@None JsName).
  pose proof (with_js_labels_length None (visible false located)) as H1.
  pose proof (sublist_length _ _ (visible_sublist false located)) as H2.
  rewrite Hl in H1, H2 |- *. unfold second_pass in *.
  rewrite length_fmap in H2. pose proof (first_pass_length (reverse stack)) as H3.
  rewrite length_reverse in H3. rewrite length_app. destruct extra; simpl; lia.
Qed.

(** * Witness *)
#[local] Definition example_info (js : option JsFrame) (art : option AndroidArtInfo) (k : option CategoryPairHandle)
    : LibMappingInfo := {| lib_handle := 4; category := k; js_frame := js; art_info := art |}.
#[local] Definition example_mappings : LibMappingsHierarchy :=
  {| regular_libs :=
       (foldr (λ '(a, i) m, match LibMappings.add_mapping m a (a + 1000) 0 i with Ok m' => m' | Panic => m end) LibMappings.new
          [(1000, example_info (Some (RegularInAdditionToNativeFrame (NonSelfHosted 7))) None None);
           (2000, example_info (Some BaselineInterpreter) None (Some (CategoryPairHandle_from 3)));
           (3000, example_info None (Some JavaFrame) None); (4000, example_info None (Some LibArt) None)], []);
     jitdumps := []; perf_map := None |}.
(** From the callee to the root; the return address 2000 is in the mapping that ends there. *)
#[local] Definition example_stack : list StackFrame :=
  [SF_ReturnAddress 901 Kernel; SF_ReturnAddress 2000 Kernel; SF_TruncatedStackMarker; SF_ReturnAddress 3500 User;
   SF_ReturnAddress 4600 User; SF_AdjustedReturnAddress 3400 User; SF_ReturnAddress 4300 User;
   SF_InstructionPointer 2100 User; SF_ReturnAddress 2200 User; SF_ReturnAddress 900 User; SF_ReturnAddress 2000 User].
Example convert_stack_frames_witness :
  let c := {| user_category := (CategoryPairHandle_from 1); kernel_category := (CategoryPairHandle_from 2) |} in
  let frame l k f := {| frame := l; category_pair := CategoryPairHandle_from k; flags := f |} in
  ∃ frames, convert_stack c example_stack example_mappings None = Some frames ∧
    frames =
      [frame (Label 7) 1 IS_JS; frame (RelativeAddressFromAdjustedReturnAddress 4 999) 1 0;
       frame (AdjustedReturnAddress 899) 1 0;
       frame (Label 7) 3 IS_JS; frame (RelativeAddressFromAdjustedReturnAddress 4 199) 3 0;
       frame (RelativeAddressFromInstructionPointer 4 100) 3 0;
       frame (RelativeAddressFromAdjustedReturnAddress 4 299) 1 0;
       frame (RelativeAddressFromAdjustedReturnAddress 4 400) 1 0;
       frame (RelativeAddressFromAdjustedReturnAddress 4 499) 1 0;
       frame (AdjustedReturnAddress 1999) 2 0; frame (AdjustedReturnAddress 900) 2 0].
Proof.
  intros c fr. destruct (convert_stack_frames c example_stack example_mappings None) as (frames & Hc & Hf & _).
  exists frames. split; [exact Hc|]. rewrite Hf. by vm_compute.
Defined.
End StackConversion.
