(* ===== verification/FrameLimiter.v ===== *)
(** Limiting the depth of a stack:
    samply/src/shared/stack_depth_limiting_frame_iter.rs, over an iterator whose
    remaining items are [inner] and whose [size_hint] is a number of its own. *)
From S2P Require Import Prelude Types LibMappings Hierarchy StringTables LibTable StackConversion.
From S2P Require Import ProfileModel.
From stdpp Require Import options.
Open Scope Z_scope.

Module FrameLimiter.
Import StackConversion.

(** * Data *)

(** The constant parameter [N] of [should_elide_frames]. *)
Definition should_elide_frames (N full_len : nat) : option (nat * nat) :=
  if (N + N + N / 2 <=? full_len)%nat then
    let elided_count := ((full_len - N - N / 2) / N * N)%nat in
    Some (N, elided_count)
  else None.

Inductive StackDepthLimitingFrameIterState :=
| BeforeElidedPiece (index first_elided_frame : nat) (elision_frame_string : StringHandle)
    (first_frame_after_elision : nat)
| AtElidedPiece (elision_frame_string : StringHandle) (first_frame_after_elision : nat)
| NoMoreElision (index : nat).
Record StackDepthLimitingFrameIter := {
  inner : list FrameInfo;
  category : CategoryPairHandle;
  state : StackDepthLimitingFrameIterState
}.

Definition elision_text (elided_count : nat) : string :=
  "(" +:+ dec_string (Z.of_nat elided_count) +:+ " frames elided)".

Section limiter.
Context {D : DebugIdType}.

Definition new (p : Profile.Profile) (iter : list FrameInfo) (size_hint : nat)
    (c : CategoryPairHandle) : Profile.Profile * StackDepthLimitingFrameIter :=
  match should_elide_frames 200 size_hint with
  | Some (first_elided_frame, elided_count) =>
      let first_frame_after_elision := (first_elided_frame + elided_count)%nat in
      let '(p', elision_frame_string) := Profile.intern_string p (elision_text elided_count) in
      (p', {| inner := iter; category := c;
              state := BeforeElidedPiece 0 first_elided_frame elision_frame_string
                         first_frame_after_elision |})
  | None => (p, {| inner := iter; category := c; state := NoMoreElision 0 |})
  end.
End limiter.

(** * Iteration *)

(** The [while] loop; [None] if the inner iterator ends in it. *)
Fixpoint skip_frames (n : nat) (inner' : list FrameInfo) : option (list FrameInfo) :=
  match n with
  | O => Some inner'
  | S n' => match inner' with [] => None | _ :: inner'' => skip_frames n' inner'' end
  end.

(** The index after a loop that was left early is not used again. *)
Definition next (s : StackDepthLimitingFrameIter) : option FrameInfo * StackDepthLimitingFrameIter :=
  let with_state inner' state' := {| inner := inner'; category := category s; state := state' |} in
  match state s with
  | BeforeElidedPiece index first_elided_frame elision_frame_string first_frame_after_elision =>
      match inner s with
      | [] => (None, s)
      | frame :: inner' =>
          let index' := S index in
          if (index' =? first_elided_frame)%nat then
            match skip_frames (first_frame_after_elision - index') inner' with
            | Some inner'' =>
                (Some frame,
                 with_state inner'' (AtElidedPiece elision_frame_string first_frame_after_elision))
            | None =>
                (None, with_state [] (BeforeElidedPiece (index' + length inner') first_elided_frame
                                        elision_frame_string first_frame_after_elision))
            end
          else
            (Some frame,
             with_state inner' (BeforeElidedPiece index' first_elided_frame elision_frame_string
                                  first_frame_after_elision))
      end
  | AtElidedPiece elision_frame_string first_frame_after_elision =>
      (Some {| frame := Label elision_frame_string; category_pair := category s;
               flags := FrameFlags_empty |},
       with_state (inner s) (NoMoreElision first_frame_after_elision))
  | NoMoreElision index =>
      match inner s with
      | [] => (None, s)
      | frame :: inner' => (Some frame, with_state inner' (NoMoreElision (S index)))
      end
  end.

(** A [for] loop over the iterator: at most the inner frames and the placeholder. *)
Definition frames_of (s : StackDepthLimitingFrameIter) : option (list FrameInfo) :=
  collect next (2 + length (inner s)) s.

(** * Lemmas *)
Lemma skip_frames_spec n l : skip_frames n l = if decide (n ≤ length l)%nat then Some (drop n l) else None.
Proof.
  revert l. induction n as [|n IH]; intros l; simpl; [done|].
  destruct l as [|x l]; simpl; [done|]. rewrite IH. repeat case_decide; done || lia.
Qed.

Lemma collect_rest fuel l c i :
  (length l < fuel)%nat →
  collect next fuel {| inner := l; category := c; state := NoMoreElision i |} = Some l.
Proof.
  revert l i. induction fuel as [|fuel IH]; intros l i Hf; [lia|]. simpl.
  destruct l as [|x l]; simpl in *; [done|]. by rewrite IH by lia.
Qed.

Definition placeholder (s : StringHandle) (c : CategoryPairHandle) : FrameInfo :=
  {| frame := Label s; category_pair := c; flags := FrameFlags_empty |}.

Lemma collect_before fuel l c i first s after :
  (i < first ≤ after)%nat → (S (length l) < fuel)%nat →
  collect next fuel {| inner := l; category := c; state := BeforeElidedPiece i first s after |} =
  Some (if decide (length l < first - i)%nat then l
        else if decide (length l < after - i)%nat then take (first - i - 1) l
        else take (first - i) l ++ placeholder s c :: drop (after - i) l).
Proof.
  revert l i. induction fuel as [|fuel IH]; intros l i Hi Hf; [lia|].
  destruct l as [|x l]; [by simpl; rewrite decide_True by lia|]. cbn [collect]. unfold next at 1.
  cbn [state inner category]. destruct (Nat.eqb_spec (S i) first) as [<-|Hne].
  - rewrite skip_frames_spec. replace (S i - i)%nat with 1%nat by lia.
    simpl length in *. rewrite (decide_False (P := (S (length l) < 1)%nat)) by lia.
    destruct (decide (after - S i ≤ length l)%nat).
    + rewrite (decide_False (P := (S (length l) < after - i)%nat)) by lia.
      destruct fuel as [|fuel]; [lia|]. cbn [collect]. unfold next at 1. cbn [state inner category].
      rewrite collect_rest by (rewrite length_drop; lia).
      replace (after - i)%nat with (S (after - S i)) by lia. done.
    + rewrite decide_True by lia. done.
  - rewrite IH by (simpl in *; lia). simpl length. replace (first - i)%nat with (S (first - S i)) by lia.
    replace (after - i)%nat with (S (after - S i)) by lia.
    destruct (decide (length l < first - S i)%nat);
      [by rewrite (decide_True (P := (S (length l) < S (first - S i))%nat)) by lia|].
    rewrite (decide_False (P := (S (length l) < S (first - S i))%nat)) by lia.
    destruct (decide (length l < after - S i)%nat).
    + rewrite (decide_True (P := (S (length l) < S (after - S i))%nat)) by lia.
      by replace (S (first - S i) - 1)%nat with (S (first - S i - 1)) by lia.
    + by rewrite (decide_False (P := (S (length l) < S (after - S i))%nat)) by lia.
Qed.

(** The remaining frames after the elided chunk. *)
Lemma elided_bounds n :
  (500 ≤ n)%nat →
  ∃ k, should_elide_frames 200 n = Some (200%nat, (k * 200)%nat) ∧ (1 ≤ k)%nat ∧
    (100 ≤ n - 200 - k * 200 < 300)%nat ∧ (200 + k * 200 ≤ n)%nat.
Proof.
  intros Hn. unfold should_elide_frames. change (200 / 2)%nat with 100%nat.
  destruct (Nat.leb_spec (200 + 200 + 100) n); [|lia]. exists ((n - 200 - 100) / 200)%nat.
  pose proof (Nat.div_mod_eq (n - 200 - 100) 200). pose proof (Nat.mod_upper_bound (n - 200 - 100) 200).
  split; [done|]. lia.
Qed.

Lemma frames_of_not_elided `{DebugIdType} p l n c :
  (n < 500)%nat → (new p l n c).1 = p ∧ frames_of (new p l n c).2 = Some l.
Proof.
  intros Hn. unfold new, should_elide_frames. change (200 / 2)%nat with 100%nat.
  destruct (Nat.leb_spec (200 + 200 + 100) n); [lia|]. split; [done|].
  unfold frames_of. simpl inner. by apply collect_rest; lia.
Qed.

Lemma frames_of_elided `{DebugIdType} p l n c k :
  should_elide_frames 200 n = Some (200%nat, (k * 200)%nat) →
  let '(p', s) := Profile.intern_string p (elision_text (k * 200)) in
  (new p l n c).1 = p' ∧
  frames_of (new p l n c).2 =
    Some (if decide (length l < 200)%nat then l
          else if decide (length l < 200 + k * 200)%nat then take 199 l
          else take 200 l ++ placeholder s c :: drop (200 + k * 200) l).
Proof.
  intros Hk. unfold new. rewrite Hk. destruct (Profile.intern_string p _) as [p' s]. split; [done|].
  unfold frames_of. cbn [snd inner]. rewrite collect_before by lia.
  by rewrite !Nat.sub_0_r.
Qed.

(** * Properties *)

(** C27: If the size hint is the number of frames, a stack of fewer than 500
    frames stays as it is, and a deeper one keeps its first 200 frames and its
    last 100 to 299 ones, with one label in between that says how many frames, a
    multiple of 200, were left out. No result has more than 500 frames. *)
Theorem limit_frames `{DebugIdType} (p : Profile.Profile) (l : list FrameInfo)
    (c : CategoryPairHandle) :
  StringTable.wf (Profile.string_table p) →
  Z.of_nat (S (length (StringTable.strings (Profile.string_table p)))) < 2 ^ 32 →
  let '(p', it) := new p l (length l) c in
  ∃ out, frames_of it = Some out ∧ (length out ≤ 500)%nat ∧
    ((length l < 500)%nat → p' = p ∧ out = l) ∧
    ((500 ≤ length l)%nat → ∃ elided s,
       out = take 200 l ++ placeholder s c :: drop (200 + elided) l ∧
       StringTable.get_string (Profile.string_table p') s = Some (elision_text elided) ∧
       (elided mod 200 = 0)%nat ∧ (100 ≤ length l - (200 + elided) < 300)%nat).
Proof.
  intros Hwf Hroom. destruct (decide (length l < 500)%nat) as [Hl|Hl].
  - destruct (frames_of_not_elided p l (length l) c Hl) as [Hp Ho].
    destruct (new p l (length l) c) as [p' it]. simpl in *. subst p'.
    exists l. split_and!; [done|lia|done|lia].
  - destruct (elided_bounds (length l)) as (k & Hk & Hk1 & Hrest & Hle); [lia|].
    pose proof (frames_of_elided p l (length l) c k Hk) as H1.
    pose proof (StringTable.index_for_string_length (Profile.string_table p) (elision_text (k * 200))) as Hlen.
    pose proof (StringTable.get_index_for_string (Profile.string_table p) (elision_text (k * 200)) Hwf) as Hget.
    unfold Profile.intern_string in H1.
    destruct (StringTable.index_for_string (Profile.string_table p) _) as [st s]. simpl in Hlen, Hget.
    destruct (new p l (length l) c) as [p' it]. cbn [fst snd] in H1. destruct H1 as [-> Ho].
    rewrite !decide_False in Ho by lia. eexists. split; [exact Ho|].
    split_and!; [rewrite length_app, length_take; cbn [length]; rewrite length_drop; lia|lia|].
    intros _. exists (k * 200)%nat, s. split_and!; [done| |by apply Nat.Div0.mod_mul|lia|lia].
    simpl. apply Hget. unfold StringTable.fits. lia.
Qed.

(** If the size hint is too large, so that the inner iterator ends inside the
    chunk to be left out, then only the first 199 frames are kept: the 200th,
    which was already taken from the inner iterator, and the placeholder are lost
    with the rest. *)
Theorem overestimate_truncates `{DebugIdType} (p : Profile.Profile) (l : list FrameInfo)
    (size_hint elided : nat) (c : CategoryPairHandle) :
  should_elide_frames 200 size_hint = Some (200%nat, elided) →
  (200 ≤ length l < 200 + elided)%nat →
  frames_of (new p l size_hint c).2 = Some (take 199 l).
Proof.
  intros Hs Hl. destruct (decide (size_hint < 500)%nat) as [Hn|Hn].
  { unfold should_elide_frames in Hs. change (200 / 2)%nat with 100%nat in Hs.
    destruct (Nat.leb_spec (200 + 200 + 100) size_hint); [lia|done]. }
  destruct (elided_bounds size_hint) as (k & Hk & _); [lia|].
  assert (elided = k * 200)%nat as -> by congruence.
  pose proof (frames_of_elided p l size_hint c k Hk) as H1.
  destruct (Profile.intern_string p _) as [p' s]. destruct H1 as [_ ->].
  rewrite (decide_False (P := (length l < 200)%nat)) by lia.
  by rewrite (decide_True (P := (length l < 200 + k * 200)%nat)) by lia.
Qed.

(** * Witnesses *)
#[local] Existing Instance string_debug_ids.
#[local] Definition example_profile : Profile.Profile := Profile.new "example" (f64_of_Z 0) 1.
#[local] Definition example_frame (a : Z) : FrameInfo :=
  {| frame := InstructionPointer a; category_pair := CategoryPairHandle_from 0; flags := 0 |}.
#[local] Definition example_category : CategoryPairHandle := CategoryPairHandle_from 0.

Example limit_frames_witness :
  ∃ out, frames_of (new example_profile (replicate 550 (example_frame 7)) 550 example_category).2 =
    Some out ∧ (length out ≤ 500)%nat.
Proof.
  pose proof (limit_frames example_profile (replicate 550 (example_frame 7)) example_category
    StringTable.wf_new_strings ltac:(vm_compute; reflexivity)) as H.
  rewrite length_replicate in H.
  destruct (new example_profile (replicate 550 (example_frame 7)) 550 example_category) as [p' it].
  destruct H as (out & Ho & Hl & _). by exists out.
Defined.

Lemma fmap_Ok_inv {A B} (f : A → B) a b : f <$> Ok a = Ok b → f a = b.
Proof. intros H. by injection H. Qed.

(** A stack of 600 frames that alternates between a Java frame and an interpreter
    frame: the interpreter frames are hidden, but still counted by the hint. *)
#[local] Definition example_hierarchy : res Hierarchy.LibMappingsHierarchy :=
  Hierarchy.process_ops (Hierarchy.new
    [(0, Hierarchy.Add {| Hierarchy.add_start_avma := 0; Hierarchy.add_end_avma := 10;
       Hierarchy.add_relative_address_at_start := 0;
       Hierarchy.add_info := Hierarchy.new_java_mapping 0%nat None |});
     (0, Hierarchy.Add {| Hierarchy.add_start_avma := 10; Hierarchy.add_end_avma := 20;
       Hierarchy.add_relative_address_at_start := 0;
       Hierarchy.add_info := Hierarchy.new_libart_mapping 1%nat |})]) 0.
#[local] Definition example_stack : list StackFrame :=
  concat (replicate 300 [SF_InstructionPointer 5 User; SF_InstructionPointer 15 User]).
#[local] Definition example_converter : StackConverter :=
  {| user_category := example_category; kernel_category := example_category |}.

Example overestimate_truncates_witness :
  ∃ h frames, example_hierarchy = Ok h ∧
    convert_stack example_converter example_stack h None = Some frames ∧
    length example_stack = 600%nat ∧ length frames = 301%nat ∧
    frames_of (new example_profile frames (length example_stack) example_category).2 =
      Some (take 199 frames).
Proof.
  set (count := λ h, option_map length (convert_stack example_converter example_stack h None)).
  assert (count <$> example_hierarchy = Ok (Some 301%nat)) as H by by vm_compute.
  assert (length example_stack = 600%nat) as Hlen by by vm_compute.
  destruct example_hierarchy as [h|]; [|done]. apply fmap_Ok_inv in H. unfold count in H.
  destruct (convert_stack example_converter example_stack h None) as [frames|] eqn:Ec; [|done].
  cbn [option_map] in H. assert (length frames = 301%nat) as Hf by congruence.
  exists h, frames. split; [reflexivity|]. split; [exact Ec|]. split; [exact Hlen|].
  split; [exact Hf|]. rewrite Hlen.
  apply (overestimate_truncates _ _ _ 200); [by vm_compute|rewrite Hf; lia].
Defined.
End FrameLimiter.
