(* ===== verification/EventSorter.v ===== *)
(** The incremental merge of perf ring buffers: samply/src/linux/sorter.rs. A
    [BinaryHeap] pops a greatest item and leaves the choice between equal ones
    open, so the sorter is a step relation. *)
From S2P Require Import Prelude.
From stdpp Require Import options.
Open Scope Z_scope.

Module EventSorter.
Section event_sorter.
Context {V : Type}.

(** * Data: groups and keys are ordered by a number *)
Record EventHeapItem := { group : Z; item_round : nat; key : Z; value : V }.
Record EventSorter := { heap : list EventHeapItem; round : nat; current_group : option Z }.
Definition new : EventSorter := {| heap := []; round := 0; current_group := None |}.

(** * Operations *)
Definition has_more (s : EventSorter) : bool := match heap s with [] => false | _ => true end.
Definition advance_round (s : EventSorter) : EventSorter :=
  {| heap := heap s; round := S (round s); current_group := None |}.

(** The derived order of an [Option]: [None] is the smallest. *)
Definition option_le (a b : option Z) : bool :=
  match a, b with None, _ => true | Some _, None => false | Some x, Some y => x <=? y end.
Definition begin_group (s : EventSorter) (g : Z) : res EventSorter :=
  _ ← assert (option_le (current_group s) (Some g));
  Ok {| heap := heap s; round := round s; current_group := Some g |}.

(** [extend] with no items does not look at the group. *)
Definition extend (s : EventSorter) (items : list (Z * V)) : res EventSorter :=
  match items with
  | [] => Ok s
  | _ =>
      g ← unwrap (current_group s);
      Ok {| heap := heap s ++
              ((λ kv, {| group := g; item_round := round s; key := kv.1; value := kv.2 |}) <$> items);
            round := round s; current_group := current_group s |}
  end.

(** [(event.round + 1, Some(&event.group)) > (self.round, self.current_group)] *)
Definition held_back (s : EventSorter) (e : EventHeapItem) : bool :=
  (round s <? S (item_round e))%nat ||
  ((S (item_round e) =? round s)%nat && negb (option_le (Some (group e)) (current_group s))).

(** [peek] and [pop]: an item with the smallest key, and the others. *)
Definition top_of (h : list EventHeapItem) (e : EventHeapItem) (rest : list EventHeapItem) : Prop :=
  h ≡ₚ e :: rest ∧ Forall (λ x, key e ≤ key x) rest.

(** * Steps

    Reading group [g] in round [r] extends the heap by the events the ring buffer
    had, and a pop returns an event or nothing. *)
Inductive action :=
| AdvanceRound
| BeginGroup (g : Z)
| Extend (items : list (Z * V))
| PopEvent (e : EventHeapItem)
| PopNothing.
Inductive step : EventSorter → action → EventSorter → Prop :=
| step_advance s : step s AdvanceRound (advance_round s)
| step_begin s s' g : begin_group s g = Ok s' → step s (BeginGroup g) s'
| step_extend s s' items : extend s items = Ok s' → step s (Extend items) s'
| step_pop s e rest :
    top_of (heap s) e rest → held_back s e = false →
    step s (PopEvent e) {| heap := rest; round := round s; current_group := current_group s |}
| step_pop_empty s : heap s = [] → step s PopNothing s
| step_pop_held s e rest :
    top_of (heap s) e rest → held_back s e = true → step s PopNothing s.
Inductive steps : EventSorter → list action → EventSorter → Prop :=
| steps_nil s : steps s [] s
| steps_snoc s s' s'' as_ a : steps s as_ s' → step s' a s'' → steps s (as_ ++ [a]) s''.

(** What went in and what came out. *)
Definition popped_of (a : action) : list EventHeapItem :=
  match a with PopEvent e => [e] | _ => [] end.
Definition popped (as_ : list action) : list EventHeapItem := as_ ≫= popped_of.
Definition items_of (a : action) : list (Z * V) := match a with Extend items => items | _ => [] end.
Definition extended (as_ : list action) : list (Z * V) := as_ ≫= items_of.
Definition key_value (e : EventHeapItem) : Z * V := (key e, value e).

(** * The reading assumption

    [read_at r g] is the time up to which group [g] has been read in round [r]:
    reads follow each other in time in the order of rounds and groups, and a read
    gets the events since the group's read in the round before. *)
Definition lex_le (r : nat) (g : Z) (r' : nat) (g' : Z) : Prop := (r < r')%nat ∨ r = r' ∧ g ≤ g'.
Definition reads_ordered (read_at : nat → Z → Z) : Prop :=
  ∀ r g r' g', lex_le r g r' g' → read_at r g ≤ read_at r' g'.
Definition round_robin (read_at : nat → Z → Z) (s : EventSorter) (a : action) : Prop :=
  ∀ g k v, current_group s = Some g → (k, v) ∈ items_of a →
    k ≤ read_at (round s) g ∧
    match round s with O => True | S r => read_at r g ≤ k end.
(** Every read of the run keeps to it. *)
Inductive run (read_at : nat → Z → Z) : list action → EventSorter → Prop :=
| run_start : run read_at [] new
| run_step as_ s a s' :
    run read_at as_ s → round_robin read_at s a → step s a s' → run read_at (as_ ++ [a]) s'.

(** * Lemmas *)

(** Events to come are not before [k]. *)
Definition future_after (read_at : nat → Z → Z) (s : EventSorter) (k : Z) : Prop :=
  ∀ r g, match current_group s with
         | Some c => lex_le (round s) c (S r) g
         | None => (round s ≤ S r)%nat
         end → k ≤ read_at r g.

Record wf (read_at : nat → Z → Z) (as_ : list action) (s : EventSorter) : Prop := {
  wf_sorted : StronglySorted Z.le (key <$> popped as_);
  wf_heap : ∀ e x, e ∈ popped as_ → x ∈ heap s → key e ≤ key x;
  wf_future : ∀ e, e ∈ popped as_ → future_after read_at s (key e);
  wf_rounds : ∀ e, e ∈ heap s → (item_round e ≤ round s)%nat ∧ key e ≤ read_at (item_round e) (group e);
  (** nothing is popped before the second round *)
  wf_first : round s = 0%nat → popped as_ = [];
  wf_all : key_value <$> popped as_ ++ heap s ≡ₚ extended as_
}.

Lemma future_after_mono read_at s s' k :
  (∀ r g, match current_group s' with
          | Some c => lex_le (round s') c (S r) g | None => (round s' ≤ S r)%nat end →
          match current_group s with
          | Some c => lex_le (round s) c (S r) g | None => (round s ≤ S r)%nat end) →
  future_after read_at s k → future_after read_at s' k.
Proof using Type. intros Hmono Hf r g Hr. by apply Hf, Hmono. Qed.

(** A released event is not later than anything still to be read. *)
Lemma released_future read_at s e :
  reads_ordered read_at → key e ≤ read_at (item_round e) (group e) → held_back s e = false →
  future_after read_at s (key e).
Proof using Type.
  intros Hord Hk Hh r g Hr. apply orb_false_iff in Hh as [Hh1%Nat.ltb_ge Hh2].
  etrans; [exact Hk|]. apply Hord. unfold lex_le.
  apply andb_false_iff in Hh2. destruct (current_group s) as [c|]; cbn [option_le negb] in Hh2.
  - destruct Hr as [Hr|[Hr Hc]]; [left; lia|]. destruct Hh2 as [Hne%Nat.eqb_neq|Hg]; [left; lia|].
    apply negb_false_iff, Z.leb_le in Hg.
    destruct (decide (item_round e < r)%nat); [by left|right; lia].
  - destruct Hh2 as [Hne%Nat.eqb_neq|Hg]; [left; lia|done].
Qed.

Lemma popped_snoc as_ a : popped (as_ ++ [a]) = popped as_ ++ popped_of a.
Proof using Type. unfold popped. rewrite bind_app. simpl. by rewrite app_nil_r. Qed.
Lemma extended_snoc as_ a : extended (as_ ++ [a]) = extended as_ ++ items_of a.
Proof using Type. unfold extended. rewrite bind_app. simpl. by rewrite app_nil_r. Qed.

Lemma wf_silent read_at as_ s s' a :
  wf read_at as_ s → popped_of a = [] → items_of a = [] → heap s' = heap s →
  (∀ k, future_after read_at s k → future_after read_at s' k) → (round s ≤ round s')%nat →
  wf read_at (as_ ++ [a]) s'.
Proof using Type.
  intros [Hs Hh Hf Hr H1 Ha] Hp Hi Hheap Hfut Hround.
  split; rewrite ?popped_snoc, ?extended_snoc, ?Hp, ?Hi, ?app_nil_r, ?Hheap; try done.
  - intros e He. by apply Hfut, Hf.
  - intros e He. destruct (Hr e He). split; [lia|done].
  - intros H0. apply H1. lia.
Qed.

Lemma extend_wf read_at as_ s s' items :
  reads_ordered read_at → wf read_at as_ s → round_robin read_at s (Extend items) →
  extend s items = Ok s' → wf read_at (as_ ++ [Extend items]) s'.
Proof using Type.
  intros Hord Hwf Hrr He. unfold extend in He. destruct items as [|item items].
  { injection He as <-. apply (wf_silent _ _ s); try done. }
  destruct (current_group s) as [g|] eqn:Eg; [|done]. simpl unwrap in He. cbn [mbind res_bind] in He.
  injection He as <-. set (items' := item :: items) in *.
  set (new_items := (λ kv, {| group := g; item_round := round s; key := kv.1; value := kv.2 |}) <$> items').
  assert (∀ x, x ∈ new_items → ∃ k v, (k, v) ∈ items' ∧ x = {| group := g; item_round := round s; key := k; value := v |})
    as Hnew.
  { intros x ([k v] & -> & Hin)%list_elem_of_fmap. by exists k, v. }
  destruct Hwf as [Hs Hh Hf Hr H1 Ha].
  split; rewrite ?popped_snoc, ?extended_snoc; simpl popped_of; rewrite ?app_nil_r; try done.
  - intros e x He [Hx|Hx]%elem_of_app; [by apply Hh|].
    destruct (Hnew x Hx) as (k & v & Hin & ->). simpl. destruct (Hrr g k v Eg Hin) as [_ Hlow].
    destruct (round s) as [|r] eqn:Er; [rewrite H1 in He by done; by apply elem_of_nil in He|].
    etrans; [|exact Hlow]. apply (Hf e He). rewrite Eg, Er. right. by split.
  - intros e He r g' Hr'. apply (Hf e He). by rewrite Eg.
  - intros x [Hx|Hx]%elem_of_app; [by apply Hr|].
    destruct (Hnew x Hx) as (k & v & Hin & ->). simpl. split; [done|]. by eapply Hrr.
  - assert (key_value <$> new_items = items') as Hkv.
    { unfold new_items. generalize items' as l. intros l. induction l as [|[k v] l IH]; [done|].
      simpl. f_equal. exact IH. }
    cbn [heap items_of]. rewrite app_assoc, fmap_app, Ha.
    change (extended as_ ++ (key_value <$> new_items) ≡ₚ extended as_ ++ items'). by rewrite Hkv.
Qed.
Lemma step_wf read_at as_ s a s' :
  reads_ordered read_at → wf read_at as_ s → round_robin read_at s a → step s a s' →
  wf read_at (as_ ++ [a]) s'.
Proof using Type.
  intros Hord Hwf Hrr Hstep. destruct Hstep as [s|s s' g Hb|s s' items He|s e rest [Hp Hmin] Hheld|s Hnil|s e rest Htop Hheld].
  - apply (wf_silent _ _ s); try done; [|simpl; lia]. intros k. apply future_after_mono. simpl.
    intros r g Hr. destruct (current_group s) as [c|]; [|lia]. left. lia.
  - unfold begin_group in Hb. destruct (option_le (current_group s) (Some g)) eqn:Ele; [|done].
    injection Hb as <-. apply (wf_silent _ _ s); try done. intros k. apply future_after_mono. simpl.
    intros r g' [Hr|[Hr Hg]]; (destruct (current_group s) as [c|]; [|lia]); [by left|].
    simpl in Ele. apply Z.leb_le in Ele. right. split; [done|lia].
  - by eapply extend_wf.
  - pose proof Hwf as [Hs Hh Hf Hr H1 Ha].
    assert (e ∈ heap s) as Hin by (rewrite Hp; by left).
    assert (∀ x, x ∈ rest → x ∈ heap s) as Hrest by (intros x Hx; rewrite Hp; by right).
    rewrite Forall_forall in Hmin.
    split; rewrite ?popped_snoc, ?extended_snoc; simpl popped_of; simpl items_of; rewrite ?app_nil_r; simpl heap.
    + rewrite fmap_app. apply StronglySorted_app. split_and!; [|done|by repeat constructor].
      intros k k' (x & -> & Hx)%list_elem_of_fmap (y & -> & ->%list_elem_of_singleton)%list_elem_of_fmap.
      by apply Hh.
    + intros x y [Hx| ->%list_elem_of_singleton]%elem_of_app Hy; [by apply Hh, Hrest|by apply Hmin].
    + intros x [Hx| ->%list_elem_of_singleton]%elem_of_app; [by apply Hf|].
      apply (released_future read_at s); [done|by apply Hr|done].
    + intros x Hx. by apply Hr, Hrest.
    + intros H0. simpl in H0. unfold held_back in Hheld. by rewrite H0 in Hheld.
    + rewrite <-Ha, Hp. by rewrite <-app_assoc.
  - by apply (wf_silent _ _ s).
  - by apply (wf_silent _ _ s).
Qed.

Lemma run_wf read_at as_ s : reads_ordered read_at → run read_at as_ s → wf read_at as_ s.
Proof using Type.
  intros Hord. induction 1 as [|as_ s a s' Hrun IH Hrr Hstep]; [|by eapply step_wf].
  split; simpl; try done; try by constructor. all: set_solver.
Qed.
End event_sorter.


(** * Properties *)

(** C31: If the ring buffers are read round-robin, every read getting the events
    of its buffer since the read before, then the events come out sorted by time
    whatever the interleaving of reads and pops and whichever of equal events the
    heap prefers; no event is lost or doubled; and once two more rounds have begun
    a pop finds nothing only if nothing is buffered. *)
Theorem sorter_sorted {V} (read_at : nat → Z → Z) (as_ : list (action (V := V))) (s : EventSorter) :
  reads_ordered read_at → run read_at as_ s →
  StronglySorted Z.le (key <$> popped as_) ∧
  key_value <$> popped as_ ++ heap s ≡ₚ extended as_ ∧
  (∀ s', step (advance_round (advance_round s)) PopNothing s' → heap s = []).
Proof.
  intros Hord Hrun. pose proof (run_wf _ _ _ Hord Hrun) as [Hs _ _ Hr _ Ha].
  split_and!; [done..|]. intros s' Hstep.
  inversion Hstep as [| | | |? Hnil|? e rest [Hp Hmin] Hheld]; subst; [done|].
  simpl in Hp. destruct (Hr e) as [Hle _]; [rewrite Hp; by left|].
  unfold held_back in Hheld. simpl in Hheld. apply orb_true_iff in Hheld as [Hlt%Nat.ltb_lt|Heq]; [lia|].
  apply andb_prop in Heq as [Heq%Nat.eqb_eq _]. lia.
Qed.

(** * Witness: two buffers; the second has the earlier event *)
#[local] Definition example_read_at (r : nat) (g : Z) : Z := Z.of_nat r * 10 + Z.min 9 (Z.max 0 g).
#[local] Definition example_item (g k : Z) : EventHeapItem :=
  {| group := g; item_round := 0; key := k; value := tt |}.
#[local] Definition example_actions : list action :=
  [BeginGroup 1; Extend [(1, tt)]; BeginGroup 2; Extend [(0, tt)]; AdvanceRound; BeginGroup 1;
   PopNothing; BeginGroup 2; PopEvent (example_item 2 0); PopEvent (example_item 1 1)].

Lemma example_run :
  run example_read_at example_actions {| heap := []; round := 1; current_group := Some 2 |}.
Proof.
  assert (∀ s a, items_of a = [] → round_robin (V := unit) example_read_at s a) as Hno.
  { intros s a Ha g k v _ Hin. rewrite Ha in Hin. by apply elem_of_nil in Hin. }
  assert (∀ g k, k ≤ example_read_at 0 g →
    round_robin example_read_at {| heap := []; round := 0; current_group := Some g |} (Extend [(k, tt)]) ∧
    ∀ e, round_robin example_read_at {| heap := [e]; round := 0; current_group := Some g |} (Extend [(k, tt)]))
    as Hread.
  { intros g k Hk. split; [|intros e]; intros g' k' v [= <-] Hin; simpl in Hin;
      apply list_elem_of_singleton in Hin as [= -> ->]; by split. }
  unfold example_actions. change [BeginGroup 1; Extend [(1, tt)]; BeginGroup 2; Extend [(0, tt)];
    AdvanceRound; BeginGroup 1; PopNothing; BeginGroup 2; PopEvent (example_item 2 0);
    PopEvent (example_item 1 1)] with
    (((((((((([] ++ [BeginGroup 1]) ++ [Extend [(1, tt)]]) ++ [BeginGroup 2]) ++ [Extend [(0, tt)]]) ++
      [AdvanceRound]) ++ [BeginGroup 1]) ++ [PopNothing]) ++ [BeginGroup 2]) ++
      [PopEvent (example_item 2 0)]) ++ [PopEvent (example_item 1 1)]).
  eapply run_step; [|by apply Hno|apply (step_pop {| heap := [example_item 1 1]; round := 1; current_group := Some 2 |} _ []); [by split|done]].
  eapply run_step; [|by apply Hno|apply (step_pop {| heap := [example_item 1 1; example_item 2 0]; round := 1; current_group := Some 2 |} _ [example_item 1 1]);
    [split; [apply Permutation_swap|by repeat constructor]|done]].
  eapply run_step; [|by apply Hno|by apply (step_begin {| heap := [example_item 1 1; example_item 2 0]; round := 1; current_group := Some 1 |})].
  eapply run_step; [|by apply Hno|apply (step_pop_held _ (example_item 2 0) [example_item 1 1]);
    [split; [apply Permutation_swap|by repeat constructor]|done]].
  eapply run_step; [|by apply Hno|by apply (step_begin {| heap := [example_item 1 1; example_item 2 0]; round := 1; current_group := None |})].
  eapply run_step; [|by apply Hno|apply (step_advance {| heap := [example_item 1 1; example_item 2 0]; round := 0; current_group := Some 2 |})].
  eapply run_step; [|apply (proj2 (Hread 2 0 ltac:(unfold example_read_at; lia)))|by apply (step_extend {| heap := [example_item 1 1]; round := 0; current_group := Some 2 |})].
  eapply run_step; [|by apply Hno|by apply (step_begin {| heap := [example_item 1 1]; round := 0; current_group := Some 1 |})].
  eapply run_step; [|apply (proj1 (Hread 1 1 ltac:(unfold example_read_at; lia)))|by apply (step_extend {| heap := []; round := 0; current_group := Some 1 |})].
  eapply run_step; [apply run_start|by apply Hno|by apply (step_begin new)].
Qed.

Example sorter_sorted_witness :
  (key <$> popped example_actions) = [0; 1] ∧ StronglySorted Z.le (key <$> popped example_actions).
Proof.
  split; [done|]. refine (proj1 (sorter_sorted example_read_at example_actions _ _ example_run)).
  intros r g r' g' [H|[-> H]]; unfold example_read_at; lia.
Defined.
End EventSorter.
