(* ===== verification/FileInventory.v ===== *)
(** The file inventory of the quota manager and its evictions:
    samply-quota-manager/src/file_inventory.rs and quota_manager.rs. The database
    and the file system are interfaces with the laws the code relies on. *)
From S2P Require Import Prelude.
From stdpp Require Import options.
Open Scope Z_scope.

Module FileInventory.

(** * Data *)

(** Paths are lists of components; a [SystemTime] counts nanoseconds since the
    epoch. *)
Notation Path := (list string) (only parsing).
Record FileInfo := {
  path : Path;
  size_in_bytes : Z;
  creation_time : Z;
  last_access_time : Z
}.
(** A row of the [files] table, times in seconds. *)
Record FileRow := { Path_ : Path; Size : Z; CreationTime : Z; LastAccessTime : Z }.
#[global] Instance FileRow_eq_dec : EqDecision FileRow.
Proof. solve_decision. Defined.

(** ** The database

    The statements the inventory executes on its one table, whose primary key is
    [Path]. *)
Class Database (DB : Type) := {
  empty_db : DB;
  rows : DB → gmap Path FileRow;
  (** INSERT ... ON CONFLICT(Path) DO UPDATE *)
  upsert : FileRow → DB → DB;
  (** UPDATE files SET LastAccessTime = t WHERE Path = p *)
  update_access_time : Path → Z → DB → DB;
  (** DELETE FROM files WHERE Path = p *)
  delete_path : Path → DB → DB;
  (** SELECT SUM(Size), with the default for an empty table *)
  sum_size : DB → Z;
  (** SELECT ... ORDER BY LastAccessTime ASC *)
  select_by_access_time : DB → list FileRow;
  (** SELECT ... WHERE LastAccessTime < t *)
  select_accessed_before : Z → DB → list FileRow;
  rows_empty : rows empty_db = ∅;
  rows_upsert : ∀ r db, rows (upsert r db) = <[Path_ r := r]> (rows db);
  rows_update : ∀ p t db, rows (update_access_time p t db) =
    alter (λ r, {| Path_ := Path_ r; Size := Size r; CreationTime := CreationTime r;
                   LastAccessTime := t |}) p (rows db);
  rows_delete : ∀ p db, rows (delete_path p db) = delete p (rows db);
  (** an overflow is an error *)
  sum_size_spec : ∀ db, (∀ p r, rows db !! p = Some r → 0 ≤ Size r) →
    let total := foldr (λ pr n, Size pr.2 + n) 0 (map_to_list (rows db)) in
    total < 2 ^ 63 → sum_size db = total;
  select_ordered_spec : ∀ db,
    select_by_access_time db ≡ₚ (map_to_list (rows db)).*2 ∧
    StronglySorted (λ a b, LastAccessTime a ≤ LastAccessTime b) (select_by_access_time db);
  select_before_spec : ∀ t db,
    select_accessed_before t db ≡ₚ filter (λ r, LastAccessTime r < t) (map_to_list (rows db)).*2
}.

(** ** The file system: [Path::canonicalize], [None] if there is no such file *)
Class FileSystem := { canonicalize : Path → option Path }.

Section inventory.
Context {DB : Type} `{Database DB} `{FileSystem}.

Record FileInventory := { root_path : Path; db_connection : DB }.
Definition with_db (i : FileInventory) (db : DB) : FileInventory :=
  {| root_path := root_path i; db_connection := db |}.

(** * Operations *)

(** [duration_since(UNIX_EPOCH).unwrap().as_secs()] *)
Definition as_secs (t : Z) : res Z := if t <? 0 then Panic else Ok (t / 1000000000).
(** [SystemTime::from(SqliteTime(secs))] *)
Definition from_secs (secs : Z) : res Z := if secs <? 0 then Panic else Ok (secs * 1000000000).

Fixpoint strip_prefix (prefix p : Path) : option Path :=
  match prefix, p with
  | [], _ => Some p
  | _ :: _, [] => None
  | c :: prefix', c' :: p' => if decide (c = c') then strip_prefix prefix' p' else None
  end.

Definition relative_path_under_managed_directory (i : FileInventory) (p : Path) : option Path :=
  strip_prefix (root_path i) (default p (canonicalize p)).

(** Panics if the file does not exist any more. *)
Definition to_absolute_path (i : FileInventory) (relative_path : Path) : res Path :=
  abs_path ← unwrap (canonicalize (root_path i ++ relative_path));
  _ ← assert (match strip_prefix (root_path i) abs_path with Some _ => true | None => false end);
  Ok abs_path.

Definition on_file_created (i : FileInventory) (p : Path) (size creation_time' : Z)
    : res FileInventory :=
  match relative_path_under_managed_directory i p with
  | None => Ok i
  | Some relative_path =>
      secs ← as_secs creation_time';
      Ok (with_db i (upsert {| Path_ := relative_path; Size := wrap_i64 size; CreationTime := secs;
                               LastAccessTime := secs |} (db_connection i)))
  end.
Definition on_file_accessed (i : FileInventory) (p : Path) (access_time : Z) : res FileInventory :=
  match relative_path_under_managed_directory i p with
  | None => Ok i
  | Some relative_path =>
      secs ← as_secs access_time;
      Ok (with_db i (update_access_time relative_path secs (db_connection i)))
  end.
Definition on_file_deleted (i : FileInventory) (p : Path) : FileInventory :=
  match relative_path_under_managed_directory i p with
  | None => i
  | Some relative_path => with_db i (delete_path relative_path (db_connection i))
  end.
Definition on_file_found_to_be_absent (i : FileInventory) (p : Path) : FileInventory :=
  on_file_deleted i p.

Definition total_size_in_bytes (i : FileInventory) : Z := wrap_u64 (sum_size (db_connection i)).

(** The size is converted with [try_into().unwrap()]. *)
Definition file_info_from_row (i : FileInventory) (r : FileRow) : res FileInfo :=
  path' ← to_absolute_path i (Path_ r);
  _ ← assert (0 <=? Size r);
  creation_time' ← from_secs (CreationTime r);
  last_access_time' ← from_secs (LastAccessTime r);
  Ok {| path := path'; size_in_bytes := Size r; creation_time := creation_time';
        last_access_time := last_access_time' |}.

(** The [for] loop, over rows that are converted one by one. *)
Fixpoint collect_files_to_delete (i : FileInventory) (rs : list FileRow) (excess_bytes : Z)
    : res (list FileInfo) :=
  match rs with
  | [] => Ok []
  | r :: rs' =>
      file_info ← file_info_from_row i r;
      let excess_bytes' := saturating_sub excess_bytes (size_in_bytes file_info) in
      if excess_bytes' =? 0 then Ok [file_info]
      else
        rest ← collect_files_to_delete i rs' excess_bytes';
        Ok (file_info :: rest)
  end.
Definition get_files_to_delete_to_enforce_max_size (i : FileInventory) (max_size_bytes : Z)
    : res (list FileInfo) :=
  match checked_sub (total_size_in_bytes i) max_size_bytes with
  | None => Ok []
  | Some excess_bytes =>
      collect_files_to_delete i (select_by_access_time (db_connection i)) excess_bytes
  end.
Definition get_files_last_accessed_before (i : FileInventory) (cutoff_time : Z)
    : res (list FileInfo) :=
  secs ← as_secs cutoff_time;
  mapM (file_info_from_row i) (select_accessed_before secs (db_connection i)).

(** * Lemmas *)
Definition total (rs : list FileRow) : Z := foldr (λ r n, Size r + n) 0 rs.
(** Every tracked file exists, under its canonical path, with proper numbers. *)
Definition row_ok (i : FileInventory) (r : FileRow) : Prop :=
  canonicalize (root_path i ++ Path_ r) = Some (root_path i ++ Path_ r) ∧
  0 ≤ Size r ∧ 0 ≤ CreationTime r ∧ 0 ≤ LastAccessTime r.
Definition info_of (i : FileInventory) (r : FileRow) : FileInfo :=
  {| path := root_path i ++ Path_ r; size_in_bytes := Size r;
     creation_time := CreationTime r * 1000000000;
     last_access_time := LastAccessTime r * 1000000000 |}.

Lemma strip_prefix_app prefix p : strip_prefix prefix (prefix ++ p) = Some p.
Proof using Type. induction prefix as [|c prefix IH]; simpl; [done|]. by rewrite decide_True. Qed.

Lemma file_info_ok i r : row_ok i r → file_info_from_row i r = Ok (info_of i r).
Proof using Type.
  intros (Hc & Hs & Hct & Hat). unfold file_info_from_row, to_absolute_path. rewrite Hc. simpl.
  rewrite strip_prefix_app. simpl. unfold from_secs.
  destruct (Z.leb_spec 0 (Size r)); [|lia]. destruct (Z.ltb_spec (CreationTime r) 0); [lia|].
  destruct (Z.ltb_spec (LastAccessTime r) 0); [lia|]. done.
Qed.

Lemma total_app l l' : total (l ++ l') = total l + total l'.
Proof using Type. induction l as [|r l IH]; simpl; [done|]. rewrite IH. lia. Qed.
Lemma total_perm l l' : l ≡ₚ l' → total l = total l'.
Proof using Type. induction 1; simpl; lia. Qed.
Lemma total_nonneg l : Forall (λ r, 0 ≤ Size r) l → 0 ≤ total l.
Proof using Type. induction 1; simpl; lia. Qed.

Lemma map_total (m : gmap Path FileRow) :
  foldr (λ pr n, Size pr.2 + n) 0 (map_to_list m) = total (map_to_list m).*2.
Proof using Type. induction (map_to_list m) as [|pr l IH]; simpl; [done|]. by rewrite IH. Qed.

(** The rows by last access, and what is known of them. *)
Definition lru (i : FileInventory) : list FileRow := select_by_access_time (db_connection i).
Definition tracked_ok (i : FileInventory) : Prop := Forall (row_ok i) (lru i) ∧ total (lru i) < 2 ^ 63.

Lemma lru_rows i r : r ∈ lru i ↔ ∃ p, rows (db_connection i) !! p = Some r.
Proof using Type.
  unfold lru. rewrite (proj1 (select_ordered_spec (db_connection i))). split.
  - intros ([p r'] & -> & Hin)%list_elem_of_fmap. exists p. by apply elem_of_map_to_list.
  - intros [p Hp]. apply list_elem_of_fmap. exists (p, r). split; [done|]. by apply elem_of_map_to_list.
Qed.

Lemma total_size_lru i : tracked_ok i → total_size_in_bytes i = total (lru i) ∧ 0 ≤ total (lru i).
Proof using Type.
  intros [Hok Hlt]. rewrite Forall_forall in Hok.
  assert (0 ≤ total (lru i)) as Hnn.
  { apply total_nonneg, Forall_forall. intros r Hr. apply (Hok r Hr). }
  split; [|done]. unfold total_size_in_bytes.
  assert (total (lru i) = total (map_to_list (rows (db_connection i))).*2) as Heq
    by apply total_perm, select_ordered_spec.
  rewrite sum_size_spec; rewrite ?map_total; [rewrite <-Heq; apply wrap_u64_id; unfold u64_range; lia| |].
  - intros p r Hp. apply (Hok r), lru_rows. by exists p.
  - by rewrite <-Heq.
Qed.

(** The loop stops at the first point where the excess is used up. *)
Lemma collect_files_spec i rs excess :
  Forall (row_ok i) rs → 0 ≤ excess →
  ∃ n, collect_files_to_delete i rs excess = Ok (info_of i <$> take n rs) ∧
    (n ≤ length rs)%nat ∧
    (excess ≤ total (take n rs) ∨ n = length rs) ∧
    (∀ m, (0 < m < n)%nat → total (take m rs) < excess) ∧
    (rs ≠ [] → 0 < n)%nat.
Proof using Type.
  revert excess. induction rs as [|r rs IH]; intros excess Hok Hex; simpl.
  { exists 0%nat. split_and!; [done|done|by right|lia|done]. }
  apply Forall_cons in Hok as [Hr Hok]. rewrite (file_info_ok i r) by done. simpl.
  assert (0 ≤ Size r) as Hsz by apply Hr. unfold saturating_sub.
  destruct (Z.eqb_spec (Z.max 0 (excess - Size r)) 0) as [He|He].
  - exists 1%nat. simpl. split_and!; [done|lia|left; simpl; lia|lia|lia].
  - destruct (IH (Z.max 0 (excess - Size r)) Hok) as (n & Heq & Hn & Hdone & Hmin & _); [lia|].
    exists (S n). rewrite Heq. simpl. split_and!; [done|lia| | |lia].
    + destruct Hdone as [Hd| ->]; [left; lia|by right].
    + intros [|m] Hm; [lia|]. simpl. destruct m as [|m]; [simpl; lia|].
      specialize (Hmin (S m)). lia.
Qed.
End inventory.
Arguments FileInventory : clear implicits.

(** * The eviction task

    [remove_file] succeeds, finds no file or fails, and leaves a file system
    behind. *)
Inductive RemoveResult := Removed | NotFound | OtherError.
Section eviction.
Context {DB : Type} `{Database DB}.
Context (remove_file : Path → RemoveResult * FileSystem).

Fixpoint delete_files (i : FileInventory DB) (files : list FileInfo) : FileInventory DB :=
  match files with
  | [] => i
  | f :: files' =>
      let '(result, fs) := remove_file (path f) in
      let i' :=
        match result with
        | Removed => on_file_deleted i (path f)
        | NotFound => on_file_found_to_be_absent i (path f)
        | OtherError => i
        end in
      delete_files i' files'
  end.

Record EvictionSettings := { max_size_bytes : option Z; max_age_seconds : option Z }.
(** [SystemTime - Duration] panics on underflow; that is as far back as the clock
    can represent, here unbounded. *)
Definition perform_eviction_if_needed (fs_before fs_between : FileSystem) (now : Z)
    (settings : EvictionSettings) (i : FileInventory DB) : res (FileInventory DB) :=
  by_size ← match max_size_bytes settings with
            | Some max => @get_files_to_delete_to_enforce_max_size _ _ fs_before i max
            | None => Ok []
            end;
  let i1 := delete_files i by_size in
  by_age ← match max_age_seconds settings with
           | Some age => @get_files_last_accessed_before _ _ fs_between i1 (now - age * 1000000000)
           | None => Ok []
           end;
  Ok (delete_files i1 by_age).

(** ** Lemmas *)

(** Rows are stored under their path. *)
Definition keyed (i : FileInventory DB) : Prop :=
  ∀ p r, rows (db_connection i) !! p = Some r → Path_ r = p.

Lemma on_file_deleted_rows (fs : FileSystem) (i : FileInventory DB) rel :
  (canonicalize (root_path i ++ rel) = None ∨
   canonicalize (root_path i ++ rel) = Some (root_path i ++ rel)) →
  root_path (on_file_deleted i (root_path i ++ rel)) = root_path i ∧
  rows (db_connection (on_file_deleted i (root_path i ++ rel))) = delete rel (rows (db_connection i)).
Proof using Type.
  intros Hc. unfold on_file_deleted, relative_path_under_managed_directory.
  assert (default (root_path i ++ rel) (canonicalize (root_path i ++ rel)) = root_path i ++ rel) as ->
    by (destruct Hc as [-> | ->]; done).
  rewrite strip_prefix_app. simpl. split; [done|apply rows_delete].
Qed.

(** Each listed file is removed, or turns out to be gone already. *)
Definition removes (i : FileInventory DB) (r : FileRow) : Prop :=
  let p := root_path i ++ Path_ r in
  let '(result, fs) := remove_file p in
  result ≠ OtherError ∧
  (@canonicalize fs p = None ∨ @canonicalize fs p = Some p).

Lemma delete_files_rows (i : FileInventory DB) rs :
  Forall (removes i) rs →
  rows (db_connection (delete_files i (info_of i <$> rs))) =
    foldl (λ m r, delete (Path_ r) m) (rows (db_connection i)) rs.
Proof using Type.
  revert i. induction rs as [|r rs IH]; intros i Hr; [done|].
  apply Forall_cons in Hr as [Hr Hrs]. unfold removes in Hr. cbn [fmap list_fmap delete_files foldl].
  change (path (info_of i r)) with (root_path i ++ Path_ r).
  destruct (remove_file (root_path i ++ Path_ r)) as [result fs] eqn:E.
  destruct Hr as [Hresult Hc].
  destruct (on_file_deleted_rows fs i (Path_ r) Hc) as [Hroot Hrows].
  set (i' := on_file_deleted i (root_path i ++ Path_ r)) in *.
  assert (∀ r', info_of i r' = info_of i' r') as Hinfo by (intros r'; unfold info_of; by rewrite Hroot).
  assert (info_of i <$> rs = info_of i' <$> rs) as Heq by (apply list_fmap_ext; auto).
  assert (Forall (removes i') rs) as Hrs'.
  { eapply Forall_impl; [exact Hrs|]. intros r'. unfold removes. by rewrite Hroot. }
  rewrite <-Hrows, <-(IH i' Hrs'), <-Heq. by destruct result.
Qed.

(** Deleting the rows of a prefix leaves the others. *)
Lemma foldl_delete_lookup (rs : list FileRow) (m : gmap Path FileRow) p :
  foldl (λ m r, delete (Path_ r) m) m rs !! p = if decide (p ∈ Path_ <$> rs) then None else m !! p.
Proof using Type.
  revert m. induction rs as [|r rs IH]; intros m; simpl; [done|]. rewrite IH.
  destruct (decide (p ∈ Path_ <$> rs)); [by rewrite decide_True by by right|].
  destruct (decide (p = Path_ r)) as [->|Hne].
  - rewrite decide_True by by left. apply lookup_delete_eq.
  - rewrite decide_False by (intros [?|?]%elem_of_cons; done). by apply lookup_delete_ne.
Qed.
End eviction.

Section lru_lemmas.
Context {DB : Type} `{Database DB}.

Lemma lru_paths_NoDup (i : FileInventory DB) : keyed i → NoDup (Path_ <$> lru i).
Proof using Type.
  intros Hk. unfold lru. rewrite (proj1 (select_ordered_spec (db_connection i))).
  assert (Path_ <$> (map_to_list (rows (db_connection i))).*2 =
    (map_to_list (rows (db_connection i))).*1) as ->.
  { rewrite <-list_fmap_compose. apply list_fmap_ext. intros n [p r] Hn. simpl.
    apply Hk, elem_of_map_to_list, list_elem_of_lookup. eauto. }
  apply NoDup_fst_map_to_list.
Qed.

Lemma delete_files_lru (remove_file : Path → RemoveResult * FileSystem) (i : FileInventory DB) n :
  keyed i → Forall (removes remove_file i) (take n (lru i)) →
  lru (delete_files remove_file i (info_of i <$> take n (lru i))) ≡ₚ drop n (lru i).
Proof using Type.
  intros Hk Hr. pose proof (delete_files_rows remove_file i _ Hr) as Hrows.
  set (i' := delete_files _ _ _) in *. pose proof (lru_paths_NoDup i Hk) as Hnd.
  assert (∀ p r, rows (db_connection i') !! p = Some r ↔
    rows (db_connection i) !! p = Some r ∧ p ∉ Path_ <$> take n (lru i)) as Hlook.
  { intros p r. rewrite Hrows, foldl_delete_lookup. case_decide; naive_solver. }
  assert (keyed i') as Hk' by (intros p r [Hp _]%Hlook; by apply Hk).
  pose proof Hnd as Hsplit. rewrite <-(take_drop n (lru i)), fmap_app, NoDup_app in Hsplit.
  destruct Hsplit as (_ & Hdisj & _).
  apply NoDup_Permutation.
  - eapply (NoDup_fmap_1 Path_), lru_paths_NoDup, Hk'.
  - eapply (NoDup_fmap_1 Path_). rewrite <-(take_drop n (lru i)), fmap_app in Hnd.
    by apply NoDup_app in Hnd as (_ & _ & ?).
  - intros r. rewrite lru_rows. split.
    + intros [p [Hp Hnot]%Hlook]. assert (r ∈ lru i) as Hin by (apply lru_rows; by exists p).
      rewrite <-(take_drop n (lru i)) in Hin. apply elem_of_app in Hin as [Hin|Hin]; [|done].
      destruct Hnot. apply list_elem_of_fmap. exists r. split; [|done]. symmetry. by apply Hk.
    + intros Hin. assert (r ∈ lru i) as [p Hp]%lru_rows.
      { rewrite <-(take_drop n (lru i)). apply elem_of_app. by right. }
      exists p. apply Hlook. split; [done|]. intros Ht. apply (Hdisj p Ht).
      apply list_elem_of_fmap. exists r. split; [|done]. symmetry. by apply Hk.
Qed.

Lemma max_size_spec `{FileSystem} (i : FileInventory DB) (max : Z) :
  tracked_ok i → 0 ≤ max →
  ∃ n, get_files_to_delete_to_enforce_max_size i max = Ok (info_of i <$> take n (lru i)) ∧
    total (drop n (lru i)) ≤ max ∧
    (∀ m, (0 < m < n)%nat → max < total (drop m (lru i))) ∧
    (n = 0%nat ↔ total (lru i) < max ∨ lru i = []).
Proof using Type.
  intros Hok Hmax. destruct (total_size_lru i Hok) as [Hts Hnn]. destruct Hok as [Hrows Hlt].
  unfold get_files_to_delete_to_enforce_max_size, checked_sub. rewrite Hts.
  assert (∀ n, total (lru i) = total (take n (lru i)) + total (drop n (lru i))) as Hsplit
    by (intros n; by rewrite <-total_app, take_drop).
  destruct (Z.ltb_spec (total (lru i)) max).
  - exists 0%nat. rewrite take_0, drop_0. split_and!; [done|lia|lia|]. split; [by left|done].
  - destruct (collect_files_spec i (lru i) (total (lru i) - max) Hrows) as (n & Heq & Hn & Hdone & Hmin & Hpos);
      [lia|].
    exists n. split_and!; [exact Heq| | |].
    + destruct Hdone as [Hd| ->]; [specialize (Hsplit n); lia|]. by rewrite drop_ge.
    + intros m Hm. specialize (Hmin m Hm). specialize (Hsplit m). lia.
    + destruct (lru i) as [|r l]; [simpl in Hn; split; [by right|lia]|].
      split; [intros ->; specialize (Hpos ltac:(done)); lia|by intros [?|?]; [lia|]].
Qed.
End lru_lemmas.

(** * Properties *)

(** C32: When all tracked files exist and the sizes add up within 63 bits, the
    files to delete for a maximum size are the least recently accessed ones, and
    as few as possible: without them the total is at most the maximum, and with
    any one of them but the first it would not be. Nothing is deleted if and only
    if the total is below the maximum or there are no files; at exactly the
    maximum one file is. *)
Theorem max_size_lru_prefix `{Database DB} `{FileSystem} (i : FileInventory DB) (max : Z) :
  tracked_ok i → 0 ≤ max →
  StronglySorted (λ a b, LastAccessTime a ≤ LastAccessTime b) (lru i) ∧
  ∃ n, get_files_to_delete_to_enforce_max_size i max = Ok (info_of i <$> take n (lru i)) ∧
    total (drop n (lru i)) ≤ max ∧
    (∀ m, (0 < m < n)%nat → max < total (drop m (lru i))) ∧
    (n = 0%nat ↔ total (lru i) < max ∨ lru i = []).
Proof. intros Hok Hmax. split; [apply select_ordered_spec|by apply max_size_spec]. Qed.

(** An eviction for a maximum size, in which every listed file is removed or
    already gone when it is tried, ends with a total of at most the maximum; the
    rows that are left are unchanged, and no file that is left was accessed
    before one that was evicted. *)
Theorem eviction_respects_max_size `{Database DB} (remove_file : Path → RemoveResult * FileSystem)
    (fs_before fs_between : FileSystem) (now max : Z) (i : FileInventory DB) :
  keyed i → @tracked_ok _ _ fs_before i → 0 ≤ max → Forall (removes remove_file i) (lru i) →
  ∃ i' evicted, perform_eviction_if_needed remove_file fs_before fs_between now
      {| max_size_bytes := Some max; max_age_seconds := None |} i = Ok i' ∧
    total (lru i') ≤ max ∧ lru i ≡ₚ evicted ++ lru i' ∧
    ∀ a b, a ∈ evicted → b ∈ lru i' → LastAccessTime a ≤ LastAccessTime b.
Proof.
  intros Hk Hok Hmax Hr. destruct (max_size_spec i max Hok Hmax) as (n & Heq & Htot & _ & _).
  unfold perform_eviction_if_needed. cbn [max_size_bytes max_age_seconds]. rewrite Heq. cbn [mbind res_bind].
  assert (Forall (removes remove_file i) (take n (lru i))) as Hrn by by apply Forall_take.
  pose proof (delete_files_lru remove_file i n Hk Hrn) as Hlru.
  eexists _, (take n (lru i)). split; [done|]. cbn [delete_files].
  split_and!.
  - by rewrite (total_perm _ _ Hlru).
  - by rewrite Hlru, take_drop.
  - intros a b Ha Hb. rewrite Hlru in Hb.
    pose proof (proj2 (select_ordered_spec (db_connection i))) as Hs. fold (lru i) in Hs.
    rewrite <-(take_drop n (lru i)) in Hs. apply StronglySorted_app in Hs as (Hab & _ & _). by apply Hab.
Qed.

(** If the least recently accessed file no longer exists, asking for the
    files to delete panics, before the eviction could find the file to be
    absent. *)
Theorem missing_file_panics `{Database DB} `{FileSystem} (i : FileInventory DB) (r : FileRow)
    (rest : list FileRow) (max : Z) :
  lru i = r :: rest → canonicalize (root_path i ++ Path_ r) = None → max ≤ total_size_in_bytes i →
  get_files_to_delete_to_enforce_max_size i max = Panic.
Proof.
  intros Hl Hc Hmax. unfold get_files_to_delete_to_enforce_max_size, checked_sub.
  destruct (Z.ltb_spec (total_size_in_bytes i) max); [lia|]. unfold lru in Hl. rewrite Hl. simpl.
  unfold file_info_from_row, to_absolute_path. by rewrite Hc.
Qed.

(** * Witnesses: a database that is a map *)
#[local] Program Instance map_database : Database (gmap Path FileRow) := {|
  empty_db := ∅; rows db := db; upsert r db := <[Path_ r := r]> db;
  update_access_time p t db := alter (λ r, {| Path_ := Path_ r; Size := Size r;
    CreationTime := CreationTime r; LastAccessTime := t |}) p db;
  delete_path p db := delete p db;
  sum_size db := foldr (λ pr n, Size pr.2 + n) 0 (map_to_list db);
  select_by_access_time db :=
    stable_sort (λ a b, LastAccessTime a <=? LastAccessTime b) (map_to_list db).*2;
  select_accessed_before t db := filter (λ r, LastAccessTime r < t) (map_to_list db).*2
|}.
Solve Obligations with done.
Next Obligation.
  intros db. split; [apply stable_sort_permutation|].
  apply StronglySorted_weaken with (λ a b, (LastAccessTime a <=? LastAccessTime b) = true).
  { intros a b. apply Z.leb_le. }
  apply stable_sort_sorted; intros; rewrite ?Z.leb_le in *; lia.
Qed.
#[local] Definition files_exist : FileSystem := {| canonicalize p := Some p |}.
#[local] Definition no_files : FileSystem := {| canonicalize _ := None |}.
#[local] Definition example_row (name : string) (size t : Z) : FileRow :=
  {| Path_ := [name]; Size := size; CreationTime := t; LastAccessTime := t |}.
#[local] Definition example_inventory : FileInventory (gmap Path FileRow) :=
  {| root_path := ["cache"];
     db_connection := upsert (example_row "new" 70 9) (upsert (example_row "old" 50 3) empty_db) |}.

Lemma example_lru : lru example_inventory = [example_row "old" 50 3; example_row "new" 70 9].
Proof. vm_compute. reflexivity. Qed.

Lemma example_tracked : @tracked_ok _ _ files_exist example_inventory.
Proof.
  unfold tracked_ok. rewrite example_lru. split; [|done].
  repeat constructor; simpl; lia.
Qed.

Example max_size_lru_prefix_witness :
  ∃ n, @get_files_to_delete_to_enforce_max_size _ _ files_exist example_inventory 100 =
    Ok (info_of example_inventory <$> take n (lru example_inventory)) ∧
    total (drop n (lru example_inventory)) ≤ 100.
Proof.
  destruct (@max_size_lru_prefix _ _ files_exist example_inventory 100 example_tracked)
    as (_ & n & H1 & H2 & _); [lia|]. exact (ex_intro _ n (conj H1 H2)).
Defined.

Example eviction_respects_max_size_witness :
  ∃ i', perform_eviction_if_needed (λ _, (Removed, no_files)) files_exist no_files 0
      {| max_size_bytes := Some 100; max_age_seconds := None |} example_inventory = Ok i' ∧
    total (lru i') ≤ 100.
Proof.
  destruct (eviction_respects_max_size (λ _, (Removed, no_files)) files_exist no_files 0 100
    example_inventory) as (i' & e & H1 & H2 & _).
  - intros p r. simpl. intros [(<- & <-)|[_ [(<- & <-)|[_ H]]%lookup_insert_Some]]%lookup_insert_Some; done.
  - exact example_tracked.
  - lia.
  - rewrite example_lru. repeat (apply Forall_cons; split; [split; [discriminate|by left]|]). by apply Forall_nil.
  - exact (ex_intro _ i' (conj H1 H2)).
Defined.

Example missing_file_panics_witness :
  @get_files_to_delete_to_enforce_max_size _ _ no_files example_inventory 100 = Panic.
Proof.
  apply (@missing_file_panics _ _ no_files example_inventory (example_row "old" 50 3)
    [example_row "new" 70 9] 100 example_lru); [done|].
  vm_compute. discriminate.
Defined.
End FileInventory.
