(* ===== verification/RustStr.v ===== *)
(** The methods of [str] the program uses, on strings of bytes, whose patterns are
    ASCII, for which searching the bytes and searching the characters agree; and bytes as text: [std::str::from_utf8] and
    [String::from_utf8_lossy]. *)
From S2P Require Import Prelude.
From stdpp Require Import options.
Open Scope Z_scope.

Module RustStr.

(** * Methods *)
Fixpoint strip_prefix (s prefix : string) : option string :=
  match prefix, s with
  | EmptyString, _ => Some s
  | String c prefix', String d s' => if decide (c = d) then strip_prefix s' prefix' else None
  | String _ _, EmptyString => None
  end.
Definition starts_with (s prefix : string) : bool :=
  match strip_prefix s prefix with Some _ => true | None => false end.
Fixpoint strip_suffix (s suffix : string) : option string :=
  if decide (s = suffix) then Some ""
  else match s with EmptyString => None | String c s' => String c <$> strip_suffix s' suffix end.
Definition ends_with (s suffix : string) : bool :=
  match strip_suffix s suffix with Some _ => true | None => false end.

(** At the first occurrence. *)
Fixpoint split_once (s delimiter : string) : option (string * string) :=
  match strip_prefix s delimiter with
  | Some rest => Some ("", rest)
  | None =>
      match s with
      | EmptyString => None
      | String c s' => '(a, b) ← split_once s' delimiter; Some (String c a, b)
      end
  end.
(** At the last occurrence. *)
Fixpoint rsplit_once (s delimiter : string) : option (string * string) :=
  match s with
  | EmptyString => rest ← strip_prefix s delimiter; Some ("", rest)
  | String c s' =>
      match rsplit_once s' delimiter with
      | Some (a, b) => Some (String c a, b)
      | None => rest ← strip_prefix s delimiter; Some ("", rest)
      end
  end.
Definition contains (s pattern : string) : bool :=
  match split_once s pattern with Some _ => true | None => false end.
Definition is_empty (s : string) : bool := match s with EmptyString => true | _ => false end.

(** [splitn(n, c)]: at most [n] pieces, the last one is the rest. *)
Fixpoint splitn (n : nat) (s delimiter : string) : list string :=
  match n with
  | O => []
  | S O => [s]
  | S n' =>
      match split_once s delimiter with
      | Some (piece, rest) => piece :: splitn n' rest delimiter
      | None => [s]
      end
  end.

(** [trim_start_matches]: removes the pattern as often as it leads. *)
Fixpoint trim_start_matches_fuel (fuel : nat) (s pattern : string) : string :=
  match fuel with
  | O => s
  | S fuel' =>
      match strip_prefix s pattern with
      | Some rest => trim_start_matches_fuel fuel' rest pattern
      | None => s
      end
  end.
Definition trim_start_matches (s pattern : string) : string :=
  trim_start_matches_fuel (String.length s) s pattern.

(** [str::lines]: the lines end in a line feed, or a carriage return and a line
    feed, or with the text. *)
Definition CR : ascii := Ascii.ascii_of_nat 13.
Definition LF : ascii := Ascii.ascii_of_nat 10.
Definition strip_cr (line : string) : string :=
  default line (strip_suffix line (String CR "")).
Fixpoint lines_fuel (fuel : nat) (s : string) : list string :=
  match fuel with
  | O => []
  | S fuel' =>
      match s with
      | EmptyString => []
      | _ =>
          match split_once s (String LF "") with
          | Some (line, rest) => strip_cr line :: lines_fuel fuel' rest
          | None => [s]
          end
      end
  end.
Definition lines (s : string) : list string := lines_fuel (S (String.length s)) s.

(** [from_str_radix] and [parse] of an unsigned number: a plus sign is allowed,
    an empty string and an overflow are errors. *)
Definition digit_value (c : ascii) : Z :=
  let n := Z.of_nat (Ascii.nat_of_ascii c) in
  if (48 <=? n) && (n <=? 57) then n - 48
  else if (97 <=? n) && (n <=? 122) then n - 87
  else if (65 <=? n) && (n <=? 90) then n - 55
  else 36.
Fixpoint parse_digits (radix limit acc : Z) (s : string) : option Z :=
  match s with
  | EmptyString => Some acc
  | String c s' =>
      let d := digit_value c in
      let acc' := acc * radix + d in
      if (d <? radix) && (acc' <? limit) then parse_digits radix limit acc' s' else None
  end.
Definition from_str_radix (limit : Z) (s : string) (radix : Z) : option Z :=
  let digits := default s (strip_prefix s "+") in
  if is_empty digits then None else parse_digits radix limit 0 digits.
Definition u64_from_str_radix := from_str_radix (2 ^ 64).
Definition parse_u64 (s : string) : option Z := u64_from_str_radix s 10.

(** [str::parse::<i32>]. *)
Definition parse_i32 (s : string) : option Z :=
  match strip_prefix s "-" with
  | Some digits =>
      if is_empty digits then None else z ← parse_digits 10 (2 ^ 31 + 1) 0 digits; Some (- z)
  | None => from_str_radix (2 ^ 31) s 10
  end.

(** [str::replace]. *)
Fixpoint replace_fuel (fuel : nat) (s from to : string) : string :=
  match fuel, s with
  | S fuel', String c s' =>
      match strip_prefix s from with
      | Some rest => to +:+ replace_fuel fuel' rest from to
      | None => String c (replace_fuel fuel' s' from to)
      end
  | _, _ => s
  end.
Definition replace (s from to : string) : string := replace_fuel (String.length s) s from to.

(** [&s[..n]]: the end has to be the start of a character, the bytes of which
    follow the first one as [10xxxxxx]. *)
Fixpoint split_at (n : nat) (s : string) : option (string * string) :=
  match n, s with
  | O, _ => Some ("", s)
  | S n', String c s' => '(a, b) ← split_at n' s'; Some (String c a, b)
  | S _, EmptyString => None
  end.
Definition continues (s : string) : bool :=
  match s with String c _ => (nat_of_ascii c / 64 =? 2)%nat | EmptyString => false end.
Definition slice_to (s : string) (n : nat) : res string :=
  '(a, b) ← unwrap (split_at n s);
  if continues b then Panic else Ok a.
(** [Vec::join]. *)
Fixpoint join (l : list string) (separator : string) : string :=
  match l with
  | [] => ""
  | [s] => s
  | s :: l' => s +:+ separator +:+ join l' separator
  end.

(** * Lemmas *)
Lemma app_empty s : "" +:+ s = s.
Proof. done. Qed.
Lemma app_cons c s t : String c s +:+ t = String c (s +:+ t).
Proof. done. Qed.

Lemma app_nil s : s +:+ "" = s.
Proof. induction s as [|c s IH]; [done|]. by rewrite app_cons, IH. Qed.
Lemma app_assoc_string (a b c : string) : (a +:+ b) +:+ c = a +:+ (b +:+ c).
Proof. induction a as [|x a IH]; [done|]. by rewrite !app_cons, IH. Qed.

Lemma strip_prefix_Some s p r : strip_prefix s p = Some r ↔ s = p +:+ r.
Proof.
  revert s. induction p as [|c p IH]; intros s; simpl.
  { rewrite app_empty. destruct s; simpl; split; congruence. }
  destruct s as [|d s]; [done|]. cbn [strip_prefix]. destruct (decide (c = d)) as [->|Hne].
  - rewrite IH, app_cons. split; [by intros ->|]. by intros [= ->].
  - split; [done|]. rewrite app_cons. congruence.
Qed.

Lemma starts_with_true s p : starts_with s p = true ↔ ∃ r, s = p +:+ r.
Proof.
  unfold starts_with. destruct (strip_prefix s p) as [r|] eqn:E.
  - apply strip_prefix_Some in E. split; [by exists r|done].
  - split; [done|]. intros [r Hr]. apply strip_prefix_Some in Hr. congruence.
Qed.

Lemma strip_suffix_Some s p r : strip_suffix s p = Some r → s = r +:+ p.
Proof.
  revert r. induction s as [|c s IH]; intros r; simpl; destruct (decide _) as [<-|Hne]; try done;
    try (by intros [= <-]).
  intros (r' & Hr & ->)%fmap_Some. rewrite app_cons. f_equal. by apply IH.
Qed.

Lemma split_once_Some s d a b : split_once s d = Some (a, b) → s = a +:+ d +:+ b.
Proof.
  revert a. induction s as [|c s IH]; intros a; cbn [split_once];
    destruct (strip_prefix _ d) as [r|] eqn:E.
  - intros [= <- <-]. by apply strip_prefix_Some in E.
  - done.
  - intros [= <- <-]. by apply strip_prefix_Some in E.
  - destruct (split_once s d) as [[a' b']|]; [|done]. intros [= <- <-].
    rewrite (IH a') by done. done.
Qed.

Lemma rsplit_once_Some s d a b : rsplit_once s d = Some (a, b) → s = a +:+ d +:+ b.
Proof.
  revert a. induction s as [|c s IH]; intros a; cbn [rsplit_once].
  - destruct (strip_prefix _ d) as [r|] eqn:E; [|done]. intros [= <- <-].
    by apply strip_prefix_Some in E.
  - destruct (rsplit_once s d) as [[a' b']|].
    + intros [= <- <-]. rewrite (IH a') by done. done.
    + destruct (strip_prefix _ d) as [r|] eqn:E; [|done]. intros [= <- <-].
      by apply strip_prefix_Some in E.
Qed.

(** ** Parts of a text by their place *)
Lemma substring_skip a b n : String.substring (String.length a) n (a +:+ b) = String.substring 0 n b.
Proof. induction a as [|c a IH]; [done|]. by rewrite app_cons. Qed.
Lemma substring_all a b : String.substring 0 (String.length a) (a +:+ b) = a.
Proof. induction a as [|c a IH]; [by destruct b|]. rewrite app_cons. cbn [String.length String.substring]. by rewrite IH. Qed.
Lemma substring_at a b c : String.substring (String.length a) (String.length b) (a +:+ b +:+ c) = b.
Proof. by rewrite substring_skip, substring_all. Qed.
Lemma substring_none (s : string) o : String.substring o 0 s = "".
Proof. revert o. induction s as [|c s IH]; intros [|o]; [done..|apply IH]. Qed.
Lemma substring_join (s : string) o n m :
  String.substring o (n + m) s = String.substring o n s +:+ String.substring (o + n) m s.
Proof.
  revert o n. induction s as [|c s IH]; intros [|o] [|n]; cbn [String.substring Nat.add]; rewrite ?app_empty; try done.
  - rewrite app_cons. by rewrite (IH 0%nat n).
  - exact (IH o 0%nat).
  - exact (IH o (S n)).
Qed.
Lemma substring_whole (s : string) n : (String.length s ≤ n)%nat → String.substring 0 n s = s.
Proof.
  revert n. induction s as [|c s IH]; intros [|n]; cbn; try done; [lia|]. intros Hn. f_equal. apply IH. lia.
Qed.

(** ** One character as the delimiter *)
Definition lacks (c : ascii) (s : string) : Prop := split_once s (String c "") = None.
#[export] Instance lacks_dec c s : Decision (lacks c s).
Proof. unfold lacks. apply _. Defined.
Lemma split_once_step x s c :
  split_once (String x s) (String c "") =
    if decide (c = x) then Some ("", s) else '(a, b) ← split_once s (String c ""); Some (String x a, b).
Proof. cbn [split_once strip_prefix]. destruct (decide (c = x)) as [_|_]; [by destruct s|done]. Qed.
Lemma lacks_cons c x s : lacks c (String x s) ↔ x ≠ c ∧ lacks c s.
Proof.
  unfold lacks. rewrite split_once_step. destruct (decide (c = x)) as [->|Hne]; [naive_solver|].
  destruct (split_once s _) as [[a b]|]; simpl; naive_solver.
Qed.
Lemma lacks_app c a b : lacks c (a +:+ b) ↔ lacks c a ∧ lacks c b.
Proof.
  induction a as [|x a IH]; [rewrite app_empty; split; [by intros; split|by intros [_ ?]]|].
  rewrite app_cons, !lacks_cons, IH. tauto.
Qed.
Lemma split_once_char c s a b : split_once s (String c "") = Some (a, b) ↔ s = a +:+ String c b ∧ lacks c a.
Proof.
  revert a. induction s as [|x s IH]; intros a.
  { split; [done|]. by destruct a; intros [? _]. }
  rewrite split_once_step. destruct (decide (c = x)) as [<-|Hne].
  - split; [by intros [= <- <-]|]. destruct a as [|y a]; [by intros [[= <-] _]|].
    rewrite app_cons, lacks_cons. by intros [[= <- _] [? _]].
  - split.
    + destruct (split_once s _) as [[a' b']|]; [|done]. intros [= <- <-]. rewrite app_cons, lacks_cons.
      by destruct (proj1 (IH a') eq_refl) as [-> ?].
    + destruct a as [|y a]; [by intros [[= <- _] _]|]. rewrite app_cons, lacks_cons. intros [[= <- Heq] [_ Hl]].
      by rewrite (proj2 (IH a) (conj Heq Hl)).
Qed.
Lemma rsplit_once_step x s c :
  rsplit_once (String x s) (String c "") =
    match rsplit_once s (String c "") with
    | Some (a, b) => Some (String x a, b)
    | None => if decide (c = x) then Some ("", s) else None
    end.
Proof.
  cbn [rsplit_once strip_prefix]. destruct (rsplit_once s _) as [[a b]|]; [done|].
  destruct (decide (c = x)) as [_|_]; [by destruct s|done].
Qed.
Lemma rsplit_once_None c s : rsplit_once s (String c "") = None ↔ lacks c s.
Proof.
  induction s as [|x s IH]; [done|]. rewrite rsplit_once_step, lacks_cons, <-IH.
  destruct (rsplit_once s _) as [[a b]|]; [naive_solver|]. destruct (decide (c = x)) as [->|?]; naive_solver.
Qed.
Lemma rsplit_once_char c s a b : rsplit_once s (String c "") = Some (a, b) ↔ s = a +:+ String c b ∧ lacks c b.
Proof.
  revert a b. induction s as [|x s IH]; intros a b.
  { split; [done|]. by destruct a; intros [? _]. }
  rewrite rsplit_once_step. destruct (rsplit_once s _) as [[a' b']|] eqn:Hr.
  - destruct (proj1 (IH a' b') eq_refl) as [Hs Hb]. split.
    + intros [= <- <-]. by rewrite app_cons, <-Hs.
    + destruct a as [|y a].
      * intros [[= <- Heq] Hl]. rewrite <-Heq, Hs, lacks_app, lacks_cons in Hl. naive_solver.
      * rewrite app_cons. intros [[= <- Heq] Hl]. rewrite (proj2 (IH a b) (conj Heq Hl)) in *. naive_solver.
  - apply rsplit_once_None in Hr. destruct (decide (c = x)) as [<-|Hne].
    + split; [by intros [= <- <-]|]. destruct a as [|y a]; [by intros [[= <-] _]|].
      rewrite app_cons. intros [[= <- Heq] _]. rewrite Heq, lacks_app, lacks_cons in Hr. naive_solver.
    + split; [done|]. destruct a as [|y a]; [by intros [[= <- _] _]|].
      rewrite app_cons. intros [[= <- Heq] _]. rewrite Heq, lacks_app, lacks_cons in Hr. naive_solver.
Qed.

Lemma digit_value_nonneg c : 0 ≤ digit_value c.
Proof.
  unfold digit_value. repeat case_match; try lia; repeat match goal with
    | H : _ && _ = true |- _ => apply andb_true_iff in H as [?%Z.leb_le ?%Z.leb_le] end; lia.
Qed.
Lemma parse_digits_range radix limit acc s z :
  0 ≤ acc < limit → 0 ≤ radix → parse_digits radix limit acc s = Some z → 0 ≤ z < limit.
Proof.
  revert acc. induction s as [|c s IH]; intros acc Hacc Hr; simpl; [by intros [= <-]|].
  destruct (Z.ltb_spec (digit_value c) radix); [|done].
  destruct (Z.ltb_spec (acc * radix + digit_value c) limit); [|done]. simpl.
  apply IH; [|done]. split; [|lia].
  pose proof (digit_value_nonneg c). nia.
Qed.

Lemma u64_from_str_radix_range s radix z :
  0 ≤ radix → u64_from_str_radix s radix = Some z → u64_range z.
Proof.
  unfold u64_from_str_radix, from_str_radix. intros Hr. destruct (is_empty _); [done|].
  apply parse_digits_range; lia.
Qed.
End RustStr.

Module Utf8.

Definition byte (c : ascii) : Z := Z.of_nat (nat_of_ascii c).
(** How many bytes follow the first one of a character. *)
Definition continuation_bytes (b : Z) : option nat :=
  if b <? 128 then Some 0%nat
  else if b <? 194 then None
  else if b <? 224 then Some 1%nat
  else if b <? 240 then Some 2%nat
  else if b <? 245 then Some 3%nat
  else None.
(** What the second byte can be: not every character has a longer encoding, a
    surrogate has none. *)
Definition second_byte (b : Z) : Z * Z :=
  if b =? 224 then (160, 191) else if b =? 237 then (128, 159)
  else if b =? 240 then (144, 191) else if b =? 244 then (128, 143) else (128, 191).
Fixpoint continuation (n : nat) (lo hi : Z) (s : string) : string * string * bool :=
  match n with
  | O => ("", s, true)
  | S n' =>
      match s with
      | String c s' =>
          if (lo <=? byte c) && (byte c <=? hi) then
            let '(t, rest, ok) := continuation n' 128 191 s' in (String c t, rest, ok)
          else ("", s, false)
      | EmptyString => ("", s, false)
      end
  end.
(** The first character or the bytes that are the start of none, and the rest. *)
Definition first_char (c : ascii) (s : string) : string * string * bool :=
  match continuation_bytes (byte c) with
  | None => (String c "", s, false)
  | Some n =>
      let '(lo, hi) := second_byte (byte c) in
      let '(t, rest, ok) := continuation n lo hi s in (String c t, rest, ok)
  end.
Definition REPLACEMENT_CHARACTER : string :=
  String (ascii_of_nat 239) (String (ascii_of_nat 191) (String (ascii_of_nat 189) "")).
Fixpoint lossy_fuel (fuel : nat) (s : string) : string :=
  match fuel, s with
  | S fuel', String c s' =>
      let '(t, rest, ok) := first_char c s' in
      (if (ok : bool) then t else REPLACEMENT_CHARACTER) +:+ lossy_fuel fuel' rest
  | _, _ => ""
  end.
Definition from_utf8_lossy (s : string) : string := lossy_fuel (String.length s) s.
Fixpoint valid_fuel (fuel : nat) (s : string) : bool :=
  match fuel, s with
  | S fuel', String c s' => let '(_, rest, ok) := first_char c s' in ok && valid_fuel fuel' rest
  | _, _ => true
  end.
(** [None] is the error. *)
Definition from_utf8 (s : string) : option string :=
  if valid_fuel (String.length s) s then Some s else None.

Example utf8_lossy_replaces :
  from_utf8_lossy (String (ascii_of_nat 226) (String (ascii_of_nat 130) "(")) = REPLACEMENT_CHARACTER +:+ "(" ∧
  from_utf8 (String (ascii_of_nat 226) (String (ascii_of_nat 130) (String (ascii_of_nat 172) ""))) ≠ None.
Proof. done. Qed.

Lemma continuation_app n lo hi s t rest ok : continuation n lo hi s = (t, rest, ok) → s = t +:+ rest.
Proof.
  revert lo hi s t. induction n as [|n IH]; intros lo hi s t; simpl; [by intros [= <- <- <-]|].
  destruct s as [|c s]; [by intros [= <- <- <-]|]. destruct (_ && _); [|by intros [= <- <- <-]].
  destruct (continuation n 128 191 s) as [[t' r'] ok'] eqn:E. intros [= <- -> ->].
  rewrite RustStr.app_cons. f_equal. by eapply IH.
Qed.
Lemma first_char_app c s t rest ok :
  first_char c s = (t, rest, ok) → String c s = t +:+ rest ∧ (String.length rest ≤ String.length s)%nat.
Proof.
  assert (∀ a b, String.length b ≤ String.length (a +:+ b))%nat as Hlen.
  { induction a as [|x a IH]; intros b; [done|]. rewrite RustStr.app_cons. simpl. pose proof (IH b). lia. }
  unfold first_char. destruct (continuation_bytes _); [|by intros [= <- <- <-]].
  destruct (second_byte _) as [lo hi]. destruct (continuation _ _ _ s) as [[t' r'] ok'] eqn:E. intros [= <- <- <-].
  apply continuation_app in E as ->. by rewrite RustStr.app_cons.
Qed.
(** Text is itself, and nothing but text is taken for text. *)
Lemma valid_lossy fuel s :
  (String.length s ≤ fuel)%nat → valid_fuel fuel s = true → lossy_fuel fuel s = s.
Proof.
  revert s. induction fuel as [|fuel IH]; intros [|c s] Hl Hv; simpl in *; [done|lia|done|].
  destruct (first_char c s) as [[t rest] ok] eqn:E. apply andb_prop in Hv as [-> Hv].
  apply first_char_app in E as [-> Hr]. rewrite IH; [done|lia|done].
Qed.
Lemma from_utf8_Some s t : from_utf8 s = Some t → t = s ∧ from_utf8_lossy s = s.
Proof. unfold from_utf8. destruct (valid_fuel _ s) eqn:E; [|done]. intros [= <-]. split; [done|]. by apply valid_lossy. Qed.
Lemma ascii_valid fuel s :
  Forall (λ c, nat_of_ascii c < 128)%nat (String.list_ascii_of_string s) → valid_fuel fuel s = true.
Proof.
  revert s. induction fuel as [|fuel IH]; intros [|c s]; simpl; [done..|]. intros [Hc Hs]%Forall_cons.
  unfold first_char, continuation_bytes. rewrite (proj2 (Z.ltb_lt _ _)) by (unfold byte; lia).
  destruct (second_byte _). simpl. by apply IH.
Qed.
Lemma from_utf8_ascii s :
  Forall (λ c, nat_of_ascii c < 128)%nat (String.list_ascii_of_string s) → from_utf8 s = Some s ∧ from_utf8_lossy s = s.
Proof.
  intros Hs. assert (from_utf8 s = Some s) as Heq by (unfold from_utf8; by rewrite ascii_valid).
  split; [done|]. by apply from_utf8_Some in Heq as [_ ?].
Qed.
End Utf8.
