(* ===== verification/PathFiles.v ===== *)
(** The file system as the recorder uses it, and the paths of Unix
    ([std::path::Path]); [open_file_with_fallback] of samply/src/shared/utils.rs. *)
From S2P Require Import Prelude RustStr.
From stdpp Require Import options.
Open Scope Z_scope.

Module PathFiles.
Import RustStr.

(** * The file system

    Its state [fs] changes between any two uses; [remove_file] tells whether it
    removed the file. *)
Class Files := {
  fs : Type;
  File : Type;
  read_to_string : fs → string → option string;
  open_file : fs → string → option File;
  remove_file : fs → string → fs * bool
}.

(** For the examples: files that are their text, which nothing removes. *)
Definition constant_files (files : list (string * string)) : Files :=
  let read path := snd <$> find (λ f, String.eqb f.1 path) files in
  {| fs := unit; File := string; read_to_string _ := read; open_file _ := read;
     remove_file s _ := (s, true) |}.

(** * Paths *)
Fixpoint components_fuel (fuel : nat) (path : string) : list string :=
  match fuel with
  | O => []
  | S fuel' =>
      match split_once path "/" with
      | Some (component, rest) => component :: components_fuel fuel' rest
      | None => [path]
      end
  end.
(** The pieces between slashes; repeated slashes and dots do not count. *)
Definition components (path : string) : list string :=
  filter (λ c, c ≠ "" ∧ c ≠ ".") (components_fuel (S (String.length path)) path).
(** [Path::file_name]: the last component, unless it is a double dot. *)
Definition file_name (path : string) : option string :=
  name ← last (components path);
  if decide (name = "..") then None else Some name.
(** [PathBuf::push] of a relative path. *)
Definition path_push (path name : string) : string :=
  if is_empty path || ends_with path "/" then path +:+ name else path +:+ "/" +:+ name.

(** * Files that may have moved *)
Section open.
Context `{Files}.

(** The loop over the directories. *)
Fixpoint open_in_dirs (s : fs) (filename : string) (extra_dirs : list string)
    : option (File * string) :=
  match extra_dirs with
  | [] => None
  | dir :: extra_dirs' =>
      let p := path_push dir filename in
      match open_file s p with
      | Some file => Some (file, p)
      | None => open_in_dirs s filename extra_dirs'
      end
  end.
(** [None] stands for the error. *)
Definition open_file_with_fallback (s : fs) (path : string) (extra_dirs : list string)
    : option (File * string) :=
  match open_file s path with
  | Some file => Some (file, path)
  | None =>
      match file_name path with
      | Some filename => open_in_dirs s filename extra_dirs
      | None => None
      end
  end.

(** The file that is opened is the path itself, or the first of the files of its
    name in the directories. *)
Lemma open_in_dirs_first s filename dirs file p :
  open_in_dirs s filename dirs = Some (file, p) ↔
  ∃ before dir after, dirs = before ++ dir :: after ∧ p = path_push dir filename ∧
    open_file s p = Some file ∧ Forall (λ d, open_file s (path_push d filename) = None) before.
Proof.
  revert file p. induction dirs as [|dir dirs IH]; intros file p; simpl.
  { split; [done|]. intros ([|? ?] & ? & ? & ? & _); done. }
  destruct (open_file s (path_push dir filename)) as [f|] eqn:Ho.
  - split.
    + intros [= <- <-]. exists [], dir, dirs. by split_and!.
    + intros ([|d before] & dir' & after & Hd & -> & Hp & Hall); injection Hd as -> ->; [congruence|].
      apply Forall_cons in Hall as [? _]. congruence.
  - rewrite IH. split.
    + intros (before & dir' & after & -> & -> & Hp & Hall). exists (dir :: before), dir', after.
      split_and!; [done..|by constructor].
    + intros ([|d before] & dir' & after & Hd & -> & Hp & Hall); injection Hd as -> ->; [congruence|].
      apply Forall_cons in Hall as [_ Hall]. by exists before, dir', after.
Qed.
End open.
End PathFiles.
