(* ===== verification/MarkerFile.v ===== *)
(** The marker and counter files a program can write next to a recording:
    samply/src/shared/marker_file.rs and counter_file.rs. *)
From S2P Require Import Prelude RustStr PathFiles Types.
From Stdlib Require Import SpecFloat.
From stdpp Require Import options.
Open Scope Z_scope.

(** The serde_json crate, and [BufRead::lines]: a line that cannot be read is
    [None]. *)
Class TextFiles `{PathFiles.Files} := {
  file_lines : PathFiles.File → list (option string);
  from_reader : PathFiles.File → option json;
  from_str : string → option json;
  json_text : json → string
}.

(** * [serde_json::Value] *)
Module Json.
Definition get (j : json) (key : string) : option json := json_field key j.
Definition as_str (j : json) : option string := match j with JString s => Some s | _ => None end.
Definition as_array (j : json) : option (list json) := match j with JArr l => Some l | _ => None end.
Definition as_object (j : json) : option (list (string * json)) :=
  match j with JObj l => Some l | _ => None end.
(** Integers are in the range of [i64] or [u64]. *)
Definition as_u64 (j : json) : option Z :=
  match j with JInt z => if decide (0 ≤ z) then Some z else None | _ => None end.
Definition as_f64 (j : json) : option f64 :=
  match j with JInt z => Some (f64_of_Z z) | JFloat f => Some f | _ => None end.
(** [j[key]] and [j[i]]: [Null] if there is none. *)
Definition field (j : json) (key : string) : json := default JNull (get j key).
Definition element (j : json) (i : nat) : json :=
  match j with JArr l => default JNull (l !! i) | _ => JNull end.
(** [j[key] = value]: [Null] becomes an object, anything else has to be one. *)
Fixpoint insert_entry (key : string) (value : json) (entries : list (string * json))
    : list (string * json) :=
  match entries with
  | [] => [(key, value)]
  | (k, v) :: entries' =>
      if String.eqb k key then (k, value) :: entries' else (k, v) :: insert_entry key value entries'
  end.
Definition set_field (j : json) (key : string) (value : json) : res json :=
  match j with
  | JNull => Ok (JObj [(key, value)])
  | JObj entries => Ok (JObj (insert_entry key value entries))
  | _ => Panic
  end.
End Json.

(** * Decimal fractions

    [str::parse::<f64>], which rounds to nearest, and
    [Duration::from_secs_f64], which rounds to nearest, ties to even. *)
Module Decimal.
Import RustStr.
Definition digit (c : ascii) : option Z :=
  let n := Z.of_nat (nat_of_ascii c) in if decide (48 ≤ n ≤ 57) then Some (n - 48) else None.
(** The value and the number of the digits at the start, and what follows. *)
Fixpoint digits (s : string) (acc : Z) (count : nat) : Z * nat * string :=
  match s with
  | String c s' =>
      match digit c with Some d => digits s' (10 * acc + d) (S count) | None => (acc, count, s) end
  | EmptyString => (acc, count, s)
  end.
Definition lower (c : ascii) : ascii :=
  let n := nat_of_ascii c in if decide (65 ≤ n ≤ 90)%nat then ascii_of_nat (n + 32) else c.
Fixpoint to_lower (s : string) : string :=
  match s with String c s' => String (lower c) (to_lower s') | EmptyString => EmptyString end.
Definition sign_of (s : string) : bool * string :=
  match strip_prefix s "-", strip_prefix s "+" with
  | Some s', _ => (true, s')
  | None, Some s' => (false, s')
  | None, None => (false, s)
  end.
(** [mantissa * 10^exponent], rounded. *)
Definition scaled (negative : bool) (mantissa exponent : Z) : f64 :=
  match mantissa with
  | Zpos m =>
      if decide (0 ≤ exponent) then
        binary_normalize 53 1024 (if negative then - (mantissa * 10 ^ exponent) else mantissa * 10 ^ exponent)
          0 negative
      else f64_div (S754_finite negative m 0) (S754_finite false (Z.to_pos (10 ^ (- exponent))) 0)
  | _ => S754_zero negative
  end.
Definition parse_f64 (s : string) : option f64 :=
  let '(negative, s1) := sign_of s in
  let word := to_lower s1 in
  if String.eqb word "inf" || String.eqb word "infinity" then Some (S754_infinity negative)
  else if String.eqb word "nan" then Some S754_nan
  else
    let '(int_part, int_len, s2) := digits s1 0 0 in
    let '(mantissa, frac_len, s3) :=
      match strip_prefix s2 "." with Some s2' => digits s2' int_part 0 | None => (int_part, 0%nat, s2) end in
    if decide (int_len + frac_len = 0)%nat then None
    else
      match s3 with
      | EmptyString => Some (scaled negative mantissa (- Z.of_nat frac_len))
      | String c s4 =>
          if Ascii.eqb (lower c) "e" then
            let '(negative_exponent, s5) := sign_of s4 in
            let '(e, e_len, s6) := digits s5 0 0 in
            if is_empty s6 && negb (e_len =? 0)%nat then
              Some (scaled negative mantissa ((if negative_exponent then - e else e) - Z.of_nat frac_len))
            else None
          else None
      end.
(** To nearest, ties to even. *)
Definition div_round (a b : Z) : Z :=
  let q := a / b in
  match 2 * (a mod b) ?= b with Lt => q | Gt => q + 1 | Eq => if Z.even q then q else q + 1 end.
(** In nanoseconds. *)
Definition duration_from_secs_f64 (f : f64) : res Z :=
  match f with
  | S754_zero _ => Ok 0
  | S754_finite false m e =>
      let ns := if decide (0 ≤ e) then Zpos m * 2 ^ e * 10 ^ 9 else div_round (Zpos m * 10 ^ 9) (2 ^ (- e)) in
      if decide (ns < 2 ^ 64 * 10 ^ 9) then Ok ns else Panic
  | _ => Panic
  end.
Example parse_f64_examples :
  parse_f64 "2.5" = Some (f64_div (f64_of_Z 5) (f64_of_Z 2)) ∧
  parse_f64 "0.1" = Some (f64_div (f64_of_Z 1) (f64_of_Z 10)) ∧
  parse_f64 "-1e3" = Some (f64_of_Z (-1000)) ∧ parse_f64 "." = None ∧ parse_f64 "1.5ms" = None.
Proof. vm_compute. done. Qed.
Example duration_examples :
  duration_from_secs_f64 (f64_div (f64_of_Z 5) (f64_of_Z 2)) = Ok 2500000000 ∧
  duration_from_secs_f64 (f64_of_Z (-1)) = Panic.
Proof. vm_compute. done. Qed.
End Decimal.

(** * marker_file.rs *)
Module MarkerFile.
Import RustStr PathFiles.

(** ** Data: a duration is in nanoseconds *)
Record TracingTimings := { time_busy : Z; time_idle : Z }.
Inductive SpanType := Total | Running.
Definition span_type_text (t : SpanType) : string :=
  match t with Running => "Running" | Total => "Total" end.
Record MarkerSpan := {
  span_type : SpanType;
  end_time : Timestamp;
  timings : TracingTimings;
  category : string;
  profiler_label : option string;
  stats_label : option string
}.
Inductive MarkerData := Span (span : MarkerSpan) | Event.
Record EventOrSpanMarker := {
  start_time : Timestamp;
  message : string;
  target : string;
  extra_fields : gmap string string;
  marker_data : MarkerData
}.

(** ** Timing statistics; [Duration]'s addition panics on overflow *)
Definition add_duration (a b : Z) : res Z := if decide (a + b < 2 ^ 64 * 10 ^ 9) then Ok (a + b) else Panic.
Definition add_timings (a b : TracingTimings) : res TracingTimings :=
  busy ← add_duration (time_busy a) (time_busy b);
  idle ← add_duration (time_idle a) (time_idle b);
  Ok {| time_busy := busy; time_idle := idle |}.
Definition zero_timings : TracingTimings := {| time_busy := 0; time_idle := 0 |}.
Notation MarkerStats := (gmap string TracingTimings).
Definition process_span (stats : MarkerStats) (marker : EventOrSpanMarker) : res MarkerStats :=
  match marker_data marker with
  | Span span =>
      match span_type span, stats_label span with
      | Total, Some label =>
          sum ← add_timings (default zero_timings (stats !! label)) (timings span);
          Ok (<[label := sum]> stats)
      | _, _ => Ok stats
      end
  | Event => Ok stats
  end.
Definition add_collection (per_type : res MarkerStats) (entry : string * TracingTimings) : res MarkerStats :=
  per_type ← per_type;
  '(collection_type, _) ← unwrap (split_once entry.1 "-");
  sum ← add_timings (default zero_timings (per_type !! collection_type)) entry.2;
  Ok (<[collection_type := sum]> per_type).
Definition calc_per_type (stats : MarkerStats) : res MarkerStats :=
  foldl add_collection (Ok ∅) (map_to_list stats).

(** ** Pairs of lines *)
Record SpanTracker := {
  start_keyword : string;
  end_keyword : string;
  started_span_cache : gmap Z json
}.
Definition new_tracker (start end_ : string) : SpanTracker :=
  {| start_keyword := start; end_keyword := end_; started_span_cache := ∅ |}.
Definition with_cache (t : SpanTracker) (cache : gmap Z json) : SpanTracker :=
  {| start_keyword := start_keyword t; end_keyword := end_keyword t; started_span_cache := cache |}.
Definition line_message (j : json) : option string :=
  fields ← Json.get j "fields"; message ← Json.get fields "message"; Json.as_str message.
(** [SpanTracker::process_line]. *)
Definition track (t : SpanTracker) (id : Z) (j : json) : SpanTracker * option (json * json) :=
  match line_message j with
  | None => (t, None)
  | Some message =>
      if negb (String.eqb message (start_keyword t)) && negb (String.eqb message (end_keyword t)) then (t, None)
      else
        let started := started_span_cache t !! id in
        let expected_keyword := match started with Some _ => end_keyword t | None => start_keyword t end in
        if negb (String.eqb message expected_keyword) then (t, None)
        else
          match started with
          | Some start => (with_cache t (delete id (started_span_cache t)), Some (start, j))
          | None => (with_cache t (<[id := j]> (started_span_cache t)), None)
          end
  end.

(** ** Fields *)
(** The micro sign in UTF-8. *)
Definition micro : string := String (ascii_of_nat 194) (String (ascii_of_nat 181) "").
(** Behind the last digit or point; numeric characters beyond ASCII do not count. *)
Fixpoint split_number (s : string) : option (string * string) :=
  match s with
  | EmptyString => None
  | String c s' =>
      match split_number s' with
      | Some (num, unit) => Some (String c num, unit)
      | None =>
          if bool_decide (is_Some (Decimal.digit c)) || Ascii.eqb c "." then Some (String c "", s') else None
      end
  end.
Definition units : list (string * Z) := [("s", 1); ("ms", 1000); ("us", 1000000); ("ns", 1000000000)].
Definition parse_timing_field (fields : json) (field : string) : res (option Z) :=
  match Json.get fields field with
  | None => Ok None
  | Some value =>
      s ← unwrap (Json.as_str value);
      '(num, unit) ← unwrap (split_number (replace s micro "u"));
      '(_, divisor) ← unwrap (find (λ u, String.eqb u.1 unit) units);
      secs ← unwrap (Decimal.parse_f64 num);
      d ← Decimal.duration_from_secs_f64 (if divisor =? 1 then secs else f64_div secs (f64_of_Z divisor));
      Ok (Some d)
  end.

Definition read_timestamp_from_event (j : json) : res Z :=
  value ← unwrap (Json.get j "timestamp");
  s ← unwrap (Json.as_str value);
  unwrap (parse_u64 s).

Section parse.
Context `{TextFiles}.

Definition value_to_hashmap (value : json) : res (gmap string string) :=
  entries ← unwrap (Json.as_object value);
  Ok (foldl (λ m e, <[e.1 := default (json_text e.2) (Json.as_str e.2)]> m) ∅ entries).

(** The category, the profiler label and the statistics label of an action. *)
Definition action_labels (action message : string) (t : SpanType)
    : res (string * option string * option string) :=
  match split_once action "/" with
  | Some (atom, collection) =>
      '(collection_type, id) ← unwrap (split_once collection "-");
      id ← if (8 <? String.length id)%nat then slice_to id 8 else Ok id;
      Ok (atom, Some (collection_type +:+ "-" +:+ id +:+ " " +:+ span_type_text t),
          Some (collection_type +:+ "::" +:+ message +:+ "-" +:+ id))
  | None => Ok (action, None, None)
  end.
Definition process_complete_span (c : TimestampConverter) (t : SpanType) (start end_ : json)
    : res EventOrSpanMarker :=
  fields ← unwrap (Json.get end_ "fields");
  start_ns ← read_timestamp_from_event start;
  end_ns ← read_timestamp_from_event end_;
  span ← unwrap (Json.get end_ "span");
  all_fields ← value_to_hashmap span;
  message' ← unwrap (all_fields !! "name");
  let extra_fields' := delete "name" all_fields in
  '(category', profiler_label', stats_label') ←
    action_labels (default "-" (extra_fields' !! "action")) message' t;
  target_value ← unwrap (Json.get end_ "target");
  target' ← unwrap (Json.as_str target_value);
  busy ← parse_timing_field fields "time.busy";
  idle ← parse_timing_field fields "time.idle";
  Ok {| start_time := convert_time c start_ns; message := message'; target := target';
        extra_fields := extra_fields';
        marker_data := Span
          {| span_type := t; end_time := convert_time c end_ns;
             timings := {| time_busy := default (sub_u64 end_ns start_ns) busy; time_idle := default 0 idle |};
             category := category'; profiler_label := profiler_label'; stats_label := stats_label' |} |}.
Definition process_event (c : TimestampConverter) (event : json) : res (option EventOrSpanMarker) :=
  start_ns ← read_timestamp_from_event event;
  target_value ← unwrap (Json.get event "target");
  target' ← unwrap (Json.as_str target_value);
  fields ← unwrap (Json.get event "fields");
  all_fields ← value_to_hashmap fields;
  Ok (match all_fields !! "message" with
      | Some message' => Some
          {| start_time := convert_time c start_ns; message := message'; target := target';
             extra_fields := delete "message" all_fields; marker_data := Event |}
      | None => None
      end).

(** The trackers of a [MarkerFile]. *)
Record Trackers := { new_close_tracker : SpanTracker; enter_exit_tracker : SpanTracker }.
Definition new_trackers : Trackers :=
  {| new_close_tracker := new_tracker "new" "close"; enter_exit_tracker := new_tracker "enter" "exit" |}.

Definition parse_ids (ids : string) : option (Z * option Z) :=
  match split_once ids "," with
  | Some (id, tid) => id ← parse_u64 id; tid ← parse_i32 tid; Some (id, Some tid)
  | None => id ← parse_u64 ids; Some (id, None)
  end.
Definition parse_line (line : string) : option (Z * option Z * json) :=
  '(ids, text) ← split_once line " ";
  j ← from_str text;
  '(id, tid) ← parse_ids ids;
  Some (id, tid, j).
(** The spans a parsed line completes. *)
Inductive Completed := CompletedTotal (start end_ : json) | CompletedRunning (start end_ : json).
Definition track_line (ts : Trackers) (id : Z) (j : json) : Trackers * option Completed :=
  let '(new_close, completed) := track (new_close_tracker ts) id j in
  match completed with
  | Some (start, end_) =>
      ({| new_close_tracker := new_close; enter_exit_tracker := enter_exit_tracker ts |},
       Some (CompletedTotal start end_))
  | None =>
      let '(enter_exit, completed) := track (enter_exit_tracker ts) id j in
      ({| new_close_tracker := new_close; enter_exit_tracker := enter_exit |},
       match completed with Some (start, end_) => Some (CompletedRunning start end_) | None => None end)
  end.
Definition with_tid (end_ : json) (tid : option Z) : res json :=
  match tid with
  | Some tid =>
      span ← Json.set_field (Json.field end_ "span") "tid" (JInt tid);
      Json.set_field end_ "span" span
  | None => Ok end_
  end.
Definition process_line (c : TimestampConverter) (ts : Trackers) (line : string)
    : res (Trackers * option EventOrSpanMarker) :=
  match parse_line line with
  | None => Ok (ts, None)
  | Some (id, tid, j) =>
      if id =? 0 then
        marker ← process_event c j;
        Ok (ts, marker)
      else
        let '(ts', completed) := track_line ts id j in
        match completed with
        | Some (CompletedTotal start end_) =>
            marker ← process_complete_span c Total start end_;
            Ok (ts', Some marker)
        | Some (CompletedRunning start end_) =>
            end' ← with_tid end_ tid;
            marker ← process_complete_span c Running start end';
            Ok (ts', Some marker)
        | None => Ok (ts', None)
        end
  end.
(** The iterator, to its end: the first line that cannot be read. *)
Fixpoint collect_markers (c : TimestampConverter) (ts : Trackers) (lines : list (option string))
    : res (list EventOrSpanMarker) :=
  match lines with
  | Some line :: lines' =>
      '(ts', marker) ← process_line c ts line;
      markers ← collect_markers c ts' lines';
      Ok (option_list marker ++ markers)
  | _ => Ok []
  end.
(** [None] stands for the error. *)
Definition get_markers (files : fs) (marker_file : string) (lookup_dirs : list string)
    (c : TimestampConverter) : res (option (list EventOrSpanMarker)) :=
  match open_file_with_fallback files marker_file lookup_dirs with
  | None => Ok None
  | Some (f, _) =>
      marker_spans ← collect_markers c new_trackers (file_lines f);
      Ok (Some (stable_sort (λ a b, nanos (start_time a) <=? nanos (start_time b)) marker_spans))
  end.
End parse.

(** ** Which lines make a span

    All lines in turn through a tracker; the spans with their ids. *)
Fixpoint track_all (t : SpanTracker) (l : list (Z * json)) : list (Z * (json * json)) :=
  match l with
  | [] => []
  | (id, j) :: l' =>
      let '(t', completed) := track t id j in
      option_list ((λ span, (id, span)) <$> completed) ++ track_all t' l'
  end.
Definition of_id {A} (id : Z) (l : list (Z * A)) : list A := (filter (λ e, e.1 = id) l).*2.

(** The first line with a message, and the lines behind it. *)
Fixpoint find_message (m : string) (l : list json) : option (json * list json) :=
  match l with
  | [] => None
  | j :: l' => if decide (line_message j = Some m) then Some (j, l') else find_message m l'
  end.
(** From a start to the next end, and on from there. *)
Fixpoint spans (fuel : nat) (start end_ : string) (l : list json) : list (json * json) :=
  match fuel with
  | O => []
  | S fuel' =>
      match find_message start l with
      | Some (a, l1) =>
          match find_message end_ l1 with
          | Some (b, l2) => (a, b) :: spans fuel' start end_ l2
          | None => []
          end
      | None => []
      end
  end.

Lemma find_message_length m l j l' : find_message m l = Some (j, l') → (length l' < length l)%nat.
Proof.
  induction l as [|x l IH]; simpl; [done|]. destruct (decide _); [intros [= -> ->]; lia|].
  intros Hf. apply IH in Hf. lia.
Qed.
Lemma spans_fuel fuel fuel' start end_ l :
  (length l ≤ fuel)%nat → (length l ≤ fuel')%nat → spans fuel start end_ l = spans fuel' start end_ l.
Proof.
  revert fuel' l. induction fuel as [|fuel IH]; intros fuel' l Hf Hf'.
  { destruct l; simpl in *; [by destruct fuel'|lia]. }
  destruct fuel' as [|fuel']; [destruct l; simpl in *; [done|lia]|]. simpl.
  destruct (find_message start l) as [[a l1]|] eqn:E1; [|done].
  destruct (find_message end_ l1) as [[b l2]|] eqn:E2; [|done].
  apply find_message_length in E1, E2. f_equal. apply IH; lia.
Qed.

Lemma of_id_app {A} id (l l' : list (Z * A)) : of_id id (l ++ l') = of_id id l ++ of_id id l'.
Proof. unfold of_id. by rewrite filter_app, fmap_app. Qed.

(** The lines of one id, with the start of a span that is under way. *)
Fixpoint pairs (start end_ : string) (started : option json) (l : list json) : list (json * json) :=
  match l with
  | [] => []
  | j :: l' =>
      match started with
      | None => pairs start end_ (if decide (line_message j = Some start) then Some j else None) l'
      | Some a =>
          if decide (line_message j = Some end_) then (a, j) :: pairs start end_ None l'
          else pairs start end_ (Some a) l'
      end
  end.
Lemma pairs_spans start end_ l fuel :
  (length l ≤ fuel)%nat →
  pairs start end_ None l = spans fuel start end_ l ∧
  ∀ a, pairs start end_ (Some a) l =
    match find_message end_ l with Some (b, l') => (a, b) :: spans fuel start end_ l' | None => [] end.
Proof.
  revert fuel. induction l as [|j l IH]; intros fuel Hf; simpl; [by destruct fuel|].
  destruct fuel as [|fuel]; simpl in Hf; [lia|]. destruct (IH fuel ltac:(lia)) as [Hnone Hsome]. split.
  - destruct (IH (S fuel) ltac:(lia)) as [Hnone' _]. simpl. destruct (decide _) as [_|_]; [|exact Hnone'].
    rewrite Hsome. by destruct (find_message end_ l) as [[b l2]|].
  - intros a. destruct (IH (S fuel) ltac:(lia)) as [Hnone' Hsome'].
    destruct (decide _) as [_|_]; [by rewrite Hnone'|apply Hsome'].
Qed.

Lemma track_id t id' j t' o id :
  start_keyword t ≠ end_keyword t → track t id' j = (t', o) →
  start_keyword t' = start_keyword t ∧ end_keyword t' = end_keyword t ∧
  if decide (id' = id) then
    (∀ l, pairs (start_keyword t) (end_keyword t) (started_span_cache t !! id) (j :: l) =
       option_list o ++ pairs (start_keyword t) (end_keyword t) (started_span_cache t' !! id) l)
  else started_span_cache t' !! id = started_span_cache t !! id.
Proof.
  intros Hne Ht. unfold track in Ht.
  assert (∀ l, line_message j ≠ Some (start_keyword t) → line_message j ≠ Some (end_keyword t) →
    pairs (start_keyword t) (end_keyword t) (started_span_cache t !! id) (j :: l) =
    pairs (start_keyword t) (end_keyword t) (started_span_cache t !! id) l) as Hother.
  { intros l Hs He. simpl. destruct (started_span_cache t !! id); by rewrite decide_False. }
  destruct (line_message j) as [m|] eqn:Hm in Ht.
  2: { injection Ht as <- <-. split_and!; [done..|]. destruct (decide _); [|done]. intros l.
       apply Hother; congruence. }
  destruct (String.eqb_spec m (start_keyword t)) as [->|Hs];
    [|destruct (String.eqb_spec m (end_keyword t)) as [->|He]]; simpl in Ht.
  3: { injection Ht as <- <-. split_and!; [done..|]. destruct (decide _); [|done]. intros l.
       apply Hother; congruence. }
  - destruct (started_span_cache t !! id') as [a|] eqn:Ea.
    + rewrite (proj2 (String.eqb_neq _ _) Hne) in Ht. injection Ht as <- <-. split_and!; [done..|].
      destruct (decide (id' = id)) as [->|]; [|done]. intros l. rewrite Ea. simpl.
      by rewrite Hm, decide_False by congruence.
    + rewrite String.eqb_refl in Ht. injection Ht as <- <-. split_and!; [done..|]. simpl.
      destruct (decide (id' = id)) as [->|]; [|by rewrite lookup_insert_ne]. intros l.
      rewrite Ea, lookup_insert_eq. simpl. by rewrite Hm, decide_True.
  - destruct (started_span_cache t !! id') as [a|] eqn:Ea.
    + rewrite String.eqb_refl in Ht. injection Ht as <- <-. split_and!; [done..|]. simpl.
      destruct (decide (id' = id)) as [->|]; [|by rewrite lookup_delete_ne]. intros l.
      rewrite Ea, lookup_delete_eq. simpl. by rewrite Hm, decide_True.
    + rewrite (proj2 (String.eqb_neq _ _) (not_eq_sym Hne)) in Ht. injection Ht as <- <-. split_and!; [done..|].
      destruct (decide (id' = id)) as [->|]; [|done]. intros l. rewrite Ea. simpl.
      by rewrite Hm, decide_False by congruence.
Qed.

Lemma of_id_cons {A} id id' (x : A) l :
  of_id id ((id', x) :: l) = if decide (id' = id) then x :: of_id id l else of_id id l.
Proof. unfold of_id. rewrite filter_cons. simpl. by destruct (decide (id' = id)). Qed.

Lemma track_all_pairs t l id :
  start_keyword t ≠ end_keyword t →
  of_id id (track_all t l) =
    pairs (start_keyword t) (end_keyword t) (started_span_cache t !! id) (of_id id l).
Proof.
  revert t. induction l as [|[id' j] l IH]; intros t Hne; cbn [track_all].
  { done. }
  destruct (track t id' j) as [t' o] eqn:Ht. destruct (track_id t id' j t' o id Hne Ht) as (Hs & He & Hid).
  rewrite of_id_app, (IH t'), Hs, He by congruence. rewrite of_id_cons.
  destruct (decide (id' = id)) as [->|Hn].
  - rewrite Hid. f_equal. destruct o; simpl; [|done]. by rewrite of_id_cons, decide_True.
  - rewrite Hid. destruct o; simpl; [|done]. by rewrite of_id_cons, decide_False.
Qed.

(** * Property *)

(** C36: However the lines of different spans are interleaved, the spans a tracker
    completes for an id are found by looking through the lines of that id alone:
    from the first start to the next end, and from there on again; lines that are
    neither, a second start and an end without a start make no difference. *)
Theorem spans_found (start end_ : string) (l : list (Z * json)) (id : Z) :
  start ≠ end_ →
  of_id id (track_all (new_tracker start end_) l) = spans (length (of_id id l)) start end_ (of_id id l).
Proof.
  intros Hne. rewrite (track_all_pairs (new_tracker start end_) l id Hne). simpl.
  by apply pairs_spans.
Qed.

(** * Witness and examples *)
#[local] Definition example_line (message : string) (t : string) : json :=
  JObj [("timestamp", JString t); ("fields", JObj [("message", JString message)]); ("target", JString "t");
        ("span", JObj [("name", JString "query"); ("action", JString "read/table-123456789")])].
#[local] Definition example_lines : list (Z * json) :=
  [(1, example_line "enter" "10"); (2, example_line "enter" "11"); (1, example_line "enter" "12");
   (1, example_line "exit" "15"); (1, example_line "exit" "16"); (2, example_line "exit" "17")].
Lemma spans_found_witness :
  "enter" ≠ "exit" ∧
  of_id 1 (track_all (new_tracker "enter" "exit") example_lines) =
    [(example_line "enter" "10", example_line "exit" "15")].
Proof. split; [done|]. rewrite (spans_found "enter" "exit" example_lines 1) by done. vm_compute. done. Defined.

(** A complete span, with its labels. *)
Example complete_span_example :
  let c := {| reference_raw := 0; raw_to_ns_factor := 1 |} in
  let files := constant_files [] in
  ∀ `{!TextFiles},
  process_complete_span c Running (example_line "enter" "10") (example_line "exit" "15") =
  Ok {| start_time := {| nanos := 10 |}; message := "query"; target := "t";
        extra_fields := {["action" := "read/table-123456789"]};
        marker_data := Span
          {| span_type := Running; end_time := {| nanos := 15 |};
             timings := {| time_busy := 5; time_idle := 0 |}; category := "read";
             profiler_label := Some "table-12345678 Running";
             stats_label := Some "table::query-12345678" |} |}.
Proof. vm_compute. done. Qed.

(** The label is cut after eight bytes, in the middle of a character if need be. *)
Lemma long_id_panics :
  action_labels ("read/table-1234567" +:+ micro +:+ "9") "query" Total = Panic.
Proof. vm_compute. done. Qed.
(** An event without a time stamp ends the recorder. *)
Lemma event_without_timestamp_panics `{TextFiles} c :
  process_event c (JObj [("target", JString "t")]) = Panic.
Proof. done. Qed.
End MarkerFile.

(** * counter_file.rs *)
Module CounterFile.
Import PathFiles.

Inductive CounterCategory := Memory | Bandwidth | Cpu | Custom.
Definition category_of (value : string) : res CounterCategory :=
  if String.eqb value "Memory" then Ok Memory
  else if String.eqb value "Bandwidth" then Ok Bandwidth
  else if String.eqb value "CPU" then Ok Cpu
  else if String.eqb value "Custom" then Ok Custom
  else Panic.
Definition category_text (c : CounterCategory) : string :=
  match c with Memory => "Memory" | Bandwidth => "Bandwidth" | Cpu => "CPU" | Custom => "Custom" end.
Record CounterSample := { timestamp : Timestamp; value : f64; modification_count : Z }.
Definition get_graph_color (color : string) : option GraphColor.t :=
  snd <$> find (λ c, String.eqb c.1 color)
    [("blue", GraphColor.Blue); ("green", GraphColor.Green); ("grey", GraphColor.Grey);
     ("ink", GraphColor.Ink); ("magenta", GraphColor.Magenta); ("orange", GraphColor.Orange);
     ("purple", GraphColor.Purple); ("red", GraphColor.Red); ("teal", GraphColor.Teal);
     ("yellow", GraphColor.Yellow)].
Record Counter := {
  name : string;
  category : CounterCategory;
  description : string;
  color : option GraphColor.t;
  samples : list CounterSample
}.

Section parse.
Context `{TextFiles}.
Definition parse_sample (c : TimestampConverter) (sample : json) : res CounterSample :=
  _ ← unwrap (Json.as_array sample);
  t ← unwrap (Json.as_u64 (Json.element sample 0));
  v ← unwrap (Json.as_f64 (Json.element sample 1));
  n ← unwrap (Json.as_u64 (Json.element sample 2));
  Ok {| timestamp := convert_time c t; value := v; modification_count := wrap_u32 n |}.
Definition text_field (j : json) (key : string) : res string := unwrap (Json.as_str (Json.field j key)).
Definition parse_counter_file (file : File) (c : TimestampConverter) : res Counter :=
  j ← unwrap (from_reader file);
  all ← unwrap (Json.as_array (Json.field j "samples"));
  samples' ← mapM (parse_sample c) all;
  name' ← text_field j "name";
  category_text' ← text_field j "category";
  category' ← category_of category_text';
  description' ← text_field j "description";
  color' ← text_field j "color";
  Ok {| name := name'; category := category'; description := description';
        color := get_graph_color color'; samples := samples' |}.
Definition get_counter (files : fs) (counter_file : string) (lookup_dirs : list string)
    (c : TimestampConverter) : res (option Counter) :=
  match open_file_with_fallback files counter_file lookup_dirs with
  | None => Ok None
  | Some (f, _) => counter ← parse_counter_file f c; Ok (Some counter)
  end.
End parse.
End CounterFile.
