(* ===== verification/Flush.v ===== *)
(** The end of a recording: the buffered samples of a process are resolved and
    added to the profile. The first half of
    [ProcessSampleData::flush_samples_to_profile] of
    samply/src/shared/process_sample_data.rs, up to the end of the loop over the
    samples, and that it is a valid sequence of calls of the profile's interface.
    The markers and counters are in FlushMarkers. *)
From S2P Require Import Prelude BTree Types LibMappings Hierarchy StringTables LibTable.
From S2P Require Import Samples Markers ThreadModel ThreadSafety ProfileModel ProfileSafety ProfileRuns ProfileCalls.
From S2P Require Import UnresolvedSamples StackConversion FrameLimiter MarkerFile.
From stdpp Require Import options.
Open Scope Z_scope.

Module Flush.
Import Hierarchy UnresolvedSamples StackConversion FrameLimiter ProfileCalls.

(** * Data *)
Record MarkerOnThread := { marker_thread : ThreadHandle; event_or_span : MarkerFile.EventOrSpanMarker }.
Record CounterOnThread := { counter_thread : ThreadHandle; counter : CounterFile.Counter }.
Record ProcessSampleData := {
  unresolved_samples : UnresolvedSamples.UnresolvedSamples;
  regular_lib_mapping_op_queue : LibMappingOpQueue;
  jitdump_lib_mapping_op_queues : list LibMappingOpQueue;
  perf_map_mappings : option Mappings;
  markers : list MarkerOnThread;
  counters : list CounterOnThread;
  process : ProcessHandle
}.

Section flush.
Context {D : DebugIdType}.

(** * The flush *)
Definition mappings_hierarchy (d : ProcessSampleData) : LibMappingsHierarchy :=
  let h := foldl add_jitdump_lib_mappings_ops (Hierarchy.new (regular_lib_mapping_op_queue d))
             (jitdump_lib_mapping_op_queues d) in
  match perf_map_mappings d with Some m => add_perf_map_mappings h m | None => h end.

(** The body of the loop. The size hint of the converted stack is the length of
    the stack it is made from. *)
Definition flush_sample (c : StackConverter) (stacks : UnresolvedStacks.UnresolvedStacks)
    (h : LibMappingsHierarchy) (p : Profile.Profile) (sample : UnresolvedSampleOrMarker)
    : loops (LibMappingsHierarchy * Profile.Profile) :=
  h' ← returned (process_ops h (timestamp_mono sample));
  buf ← (UnresolvedStacks.convert_back stacks (stack sample) [] : loops (list StackFrame));
  frames ← ended (convert_stack c buf h' (extra_label_frame sample));
  let '(p1, iter) := FrameLimiter.new p frames (length buf) (user_category c) in
  limited_frames ← ended (frames_of iter);
  p2 ← returned
    match sample_or_marker sample with
    | Sample data =>
        Profile.add_sample p1 (thread_handle sample) (timestamp sample) limited_frames
          (cpu_delta data) (weight data)
    | Marker mh => Profile.set_marker_stack p1 (thread_handle sample) mh limited_frames
    end;
  mret (h', p2).
Fixpoint flush_samples (c : StackConverter) (stacks : UnresolvedStacks.UnresolvedStacks)
    (h : LibMappingsHierarchy) (p : Profile.Profile) (samples : list UnresolvedSampleOrMarker)
    : loops Profile.Profile :=
  match samples with
  | [] => mret p
  | sample :: samples' =>
      '(h', p') ← flush_sample c stacks h p sample;
      flush_samples c stacks h' p' samples'
  end.
Definition flush_resolved_samples (d : ProcessSampleData) (p : Profile.Profile)
    (user_category' kernel_category' : CategoryPairHandle)
    (stacks : UnresolvedStacks.UnresolvedStacks) : loops Profile.Profile :=
  flush_samples {| user_category := user_category'; kernel_category := kernel_category' |} stacks
    (mappings_hierarchy d) p (samples_and_markers (unresolved_samples d)).

(** * Specification: the calls a sample stands for *)

(** Mappings are those due at the latest time of the samples so far. *)
Fixpoint latest (t : option Z) (samples : list UnresolvedSampleOrMarker) : list Z :=
  match samples with
  | [] => []
  | s :: samples' =>
      let t' := from_option (Z.max (timestamp_mono s)) (timestamp_mono s) t in
      t' :: latest (Some t') samples'
  end.

Definition converted (c : StackConverter) (h : LibMappingsHierarchy) (l : list StackFrame)
    (extra : option FrameInfo) : list FrameInfo :=
  option_list extra ++
  with_js_labels None (visible false (second_pass c h (first_pass (reverse l)))).

Definition elided (hint : nat) : option nat := snd <$> should_elide_frames 200 hint.
Definition limited (label : StringHandle) (c : CategoryPairHandle) (hint : nat)
    (l : list FrameInfo) : list FrameInfo :=
  match elided hint with
  | None => l
  | Some n =>
      if decide (length l < 200)%nat then l
      else if decide (length l < 200 + n)%nat then take 199 l
      else take 200 l ++ placeholder label c :: drop (200 + n) l
  end.

Definition call_with (sample : UnresolvedSampleOrMarker) (frames : list FrameInfo)
    : ProfileRuns.op :=
  match sample_or_marker sample with
  | Sample data =>
      ProfileRuns.AddSample (thread_handle sample) (timestamp sample) frames (cpu_delta data)
        (weight data)
  | Marker mh => ProfileRuns.SetMarkerStack (thread_handle sample) mh frames
  end.
Definition elision_call (hint : nat) : list ProfileRuns.op :=
  match elided hint with Some n => [ProfileRuns.InternString (elision_text n)] | None => [] end.

(** [p'] is the profile the label's string is found in. *)
Definition calls_of (c : StackConverter) (stacks : UnresolvedStacks.UnresolvedStacks)
    (h0 : LibMappingsHierarchy) (p' : Profile.Profile) (ts : Z * UnresolvedSampleOrMarker)
    (calls : list ProfileRuns.op) : Prop :=
  ∃ h l label, process_ops h0 ts.1 = Ok h ∧
    UnresolvedStacks.leads_to stacks (stack ts.2) l ∧
    (∀ n, elided (length l) = Some n →
      StringTable.get_string (Profile.string_table p') label = Some (elision_text n)) ∧
    calls = elision_call (length l) ++
      [call_with ts.2 (limited label (user_category c) (length l)
                         (converted c h l (extra_label_frame ts.2)))].
End flush.

(** * The infos of a hierarchy all have a property *)
Section infos.
Context (P : LibMappingInfo → Prop).

Definition op_info (op : LibMappingOp) : Prop := match op with Add op => P (add_info op) | _ => True end.
Definition mapping_infos (m : Mappings) : Prop := ∀ k mp, (k, mp) ∈ m → P (LibMappings.value mp).
Definition level_ok (mq : Mappings * LibMappingOpQueue) : Prop :=
  level_wf mq ∧ mapping_infos mq.1 ∧ Forall (λ p, op_info p.2) mq.2.
Definition hierarchy_ok (h : LibMappingsHierarchy) : Prop :=
  level_ok (regular_libs h) ∧ Forall level_ok (jitdumps h) ∧
  (∀ m, perf_map h = Some m → LibMappings.wf m ∧ mapping_infos m).

Lemma remove_mapping_infos m s : mapping_infos m → mapping_infos (LibMappings.remove_mapping m s).2.
Proof.
  intros Hm k mp. unfold LibMappings.remove_mapping, btree_remove. simpl.
  intros [_ Hin]%list_elem_of_filter. by apply (Hm k).
Qed.

Lemma removed_info m s r i m' :
  LibMappings.wf m → mapping_infos m → LibMappings.remove_mapping m s = (Some (r, i), m') → P i.
Proof.
  intros [Hwf _] Hm. unfold LibMappings.remove_mapping, btree_remove. simpl.
  destruct (btree_get s m) as [mp|] eqn:E; simpl; [|done]. intros [= _ <- _].
  apply btree_get_elem in E; [|done]. by apply (Hm s).
Qed.

Lemma add_mapping_infos m s e r v :
  LibMappings.wf m → mapping_infos m → s ≤ e → P v →
  ∃ m', LibMappings.add_mapping m s e r v = Ok m' ∧ LibMappings.wf m' ∧ mapping_infos m'.
Proof.
  intros Hwf Hm Hse Hv.
  destruct (LibMappings.apply_op_wf (LibMappings.Add s e r v) m Hwf Hse) as (m' & Heq & Hwf').
  exists m'. split_and!; [done..|]. intros k mp Hin.
  apply (LibMappings.add_mapping_Ok m s e r v m' Hwf Heq) in Hin as [[_ ->]|(_ & Hin & _)];
    [done|by apply (Hm k)].
Qed.

Lemma apply_to_ok op m :
  LibMappings.wf m → mapping_infos m → op_ordered op → op_info op →
  ∃ m', apply_to op m = Ok m' ∧ LibMappings.wf m' ∧ mapping_infos m'.
Proof.
  intros Hwf Hm Ho Hi. destruct op as [op|op|op|]; simpl in Ho, Hi; unfold apply_to.
  - by apply add_mapping_infos.
  - pose proof (LibMappings.remove_mapping_wf m (old_start_avma op) Hwf) as Hwf'.
    pose proof (remove_mapping_infos m (old_start_avma op) Hm) as Hm'.
    revert Hwf' Hm'. destruct (LibMappings.remove_mapping m _) as [[[r i]|] m'] eqn:E;
      intros Hwf' Hm'; [|by exists m'].
    apply add_mapping_infos; try done. by apply (removed_info m (old_start_avma op) r i m').
  - eexists. split; [done|]. split; [by apply LibMappings.remove_mapping_wf|by apply remove_mapping_infos].
  - eexists. split; [done|]. split; [apply LibMappings.wf_new_mappings|]. by intros k mp ?%elem_of_nil.
Qed.

Lemma drain_ok fuel t m q :
  (length q ≤ fuel)%nat → level_ok (m, q) →
  ∃ mq', drain fuel t (m, q) = Ok mq' ∧ level_ok mq'.
Proof.
  revert m q. induction fuel as [|fuel IH]; intros m q Hf ([Hwf Hq] & Hm & Hi); simpl in *.
  all: destruct q as [|[t' op] q]; simpl in *; [by eexists|try lia].
  destruct (t <? t'); [by eexists|].
  apply Forall_cons in Hq as [Ho Hq]. apply Forall_cons in Hi as [Hop Hi].
  destruct (apply_to_ok op m Hwf Hm Ho Hop) as (m' & -> & Hwf' & Hm'). simpl. apply IH; [lia|done].
Qed.

Lemma process_ops_ok h t : hierarchy_ok h → ∃ h', process_ops h t = Ok h' ∧ hierarchy_ok h'.
Proof.
  intros (Hr & Hj & Hp). unfold process_ops. destruct (regular_libs h) as [m q].
  destruct (drain_ok (length q) t m q) as (mq & Hmq & Hok); [done..|].
  change (drain_queue t (m, q)) with (drain (length q) t (m, q)). rewrite Hmq. cbn [mbind res_bind].
  assert (∃ js, mapM (drain_queue t) (jitdumps h) = Ok js ∧ Forall level_ok js) as (js & -> & Hjs).
  { clear -Hj. induction Hj as [|[m q] l Hl _ (js & Hjs & Hok)]; [by exists []|].
    destruct (drain_ok (length q) t m q) as (mq & Hmq & Hok'); [done..|].
    cbn [mapM]. change (drain_queue t (m, q)) with (drain (length q) t (m, q)). rewrite Hmq.
    cbn [mbind res_bind]. rewrite Hjs. simpl.
    eexists. split; [done|]. by constructor. }
  simpl. eexists. split; [done|]. by split_and!.
Qed.

Lemma convert_in_mapping m a r i :
  LibMappings.wf m → mapping_infos m → LibMappings.convert_address m a = Some (r, i) → P i.
Proof.
  intros Hwf Hm. unfold LibMappings.convert_address.
  destruct (LibMappings.lookup_impl m a) as [mp|] eqn:E; simpl; [|done]. intros [= _ <-].
  apply LibMappings.lookup_impl_Some in E as [Hin _]; [|done]. by apply (Hm _ _ Hin).
Qed.

Lemma convert_address_info h a r i : hierarchy_ok h → convert_address h a = Some (r, i) → P i.
Proof.
  intros ([[Hr _] [Hri _]] & Hj & Hp). unfold convert_address.
  destruct (LibMappings.convert_address (regular_libs h).1 a) as [[r' i']|] eqn:E.
  { intros [= -> ->]. by eapply convert_in_mapping. }
  destruct (convert_in_jitdumps (jitdumps h) a) as [[r' i']|] eqn:Ej.
  { intros [= -> ->]. clear -Hj Ej. induction Hj as [|mq l [[Hl _] [Hi _]] _ IH]; simpl in *; [done|].
    destruct mq as [m q]. simpl in *. destruct (LibMappings.convert_address m a) as [[r' i']|] eqn:E.
    - injection Ej as -> ->. by eapply convert_in_mapping.
    - by apply IH. }
  destruct (perf_map h) as [m|] eqn:Em; [|done]. destruct (Hp m eq_refl).
  destruct (LibMappings.convert_address m a) as [[r' i']|] eqn:E'; [|done].
  intros [= -> ->]. by eapply convert_in_mapping.
Qed.
End infos.

(** Going back in time does nothing. *)
Lemma drain_queue_max t t' mq :
  (drain_queue t mq ≫= drain_queue t') = drain_queue (Z.max t t') mq.
Proof.
  destruct (Z.le_ge_cases t t') as [Hle|Hge].
  { rewrite Z.max_r by done. by apply drain_queue_compose. }
  rewrite Z.max_l by done. destruct mq as [m q]. rewrite drain_queue_spec.
  destruct (apply_all (due t q) m) as [m1|]; simpl; [|done].
  rewrite drain_queue_spec.
  assert (due t' (drop (length (due t q)) q) = []) as ->.
  { clear -Hge. induction q as [|[t0 op] q IH]; simpl; [done|].
    destruct (Z.ltb_spec t t0); simpl; [|done]. destruct (Z.ltb_spec t' t0); [done|lia]. }
  done.
Qed.

Lemma process_ops_max h t t' :
  (h' ← process_ops h t; process_ops h' t') = process_ops h (Z.max t t').
Proof.
  unfold process_ops. rewrite <-(drain_queue_max t t' (regular_libs h)).
  assert (∀ l, (mapM (drain_queue t) l ≫= mapM (drain_queue t')) = mapM (drain_queue (Z.max t t')) l)
    as <-.
  { intros l. induction l as [|mq l IH]; [done|]. simpl. rewrite <-drain_queue_max, <-IH.
    destruct (drain_queue t mq) as [mq1|]; simpl; [|done].
    destruct (mapM (drain_queue t) l); simpl; [done|]. by destruct (drain_queue t' mq1). }
  destruct (drain_queue t (regular_libs h)) as [r1|]; simpl; [|done].
  destruct (mapM (drain_queue t) (jitdumps h)); simpl; [done|]. by destruct (drain_queue t' r1).
Qed.

Lemma hierarchy_ok_impl (P Q : LibMappingInfo → Prop) h :
  (∀ i, P i → Q i) → hierarchy_ok P h → hierarchy_ok Q h.
Proof.
  intros Hi. assert (∀ m, mapping_infos P m → mapping_infos Q m) as Hm by (intros m H k mp Hin; eauto).
  assert (∀ mq, level_ok P mq → level_ok Q mq) as Hl.
  { intros mq (H1 & H2 & H3). split_and!; [done|by apply Hm|]. eapply Forall_impl; [exact H3|].
    intros [t [op|op|op|]]; simpl; auto. }
  intros (Hr & Hj & Hp). split_and!; [by apply Hl|by eapply Forall_impl|].
  intros m Em. destruct (Hp m Em). split; [done|by apply Hm].
Qed.

(** * The frames of a converted stack are valid *)
Section frames.
Context (nlibs cats : nat) (strings : StringTable.StringTable).
Local Notation frame_valid := (ProfileSafety.frame_info_valid nlibs cats strings).
Local Notation category_valid := (ThreadSafety.category_ok cats).

Definition name_handle (n : JsName) : StringHandle := match n with SelfHosted s | NonSelfHosted s => s end.
Definition name_valid (n : JsName) : Prop := is_Some (StringTable.get_string strings (name_handle n)).
Definition js_valid (js : option JsFrame) : Prop :=
  match js with
  | Some (RegularInAdditionToNativeFrame n) | Some (BaselineInterpreterStub n) => name_valid n
  | _ => True
  end.
(** The library, the category and the names of an info exist. *)
Definition info_valid (i : LibMappingInfo) : Prop :=
  (lib_handle i < nlibs)%nat ∧ (∀ c, Hierarchy.category i = Some c → category_valid c) ∧
  js_valid (js_frame i).
Definition second_valid (f : SecondPassFrameInfo) : Prop :=
  frame_valid (native_frame f) ∧ js_valid (second_js_frame f).
Definition converter_valid (c : StackConverter) : Prop :=
  category_valid (user_category c) ∧ category_valid (kernel_category c).

Lemma second_pass_valid c h fs :
  hierarchy_ok info_valid h → converter_valid c → Forall second_valid (second_pass c h fs).
Proof.
  intros Hh [Hu Hk]. apply Forall_fmap, Forall_true. intros f. unfold second_pass_frame, second_valid.
  simpl. destruct (mode f); [|by destruct (from_ip f)].
  destruct (convert_address h (lookup_address f)) as [[r i]|] eqn:E; [|by destruct (from_ip f)].
  apply (convert_address_info info_valid) in E as (Hl & Hc & Hj); [|done].
  split; [|done]. split; simpl; [|by destruct (from_ip f)].
  destruct (Hierarchy.category i); [by apply Hc|done].
Qed.

Lemma with_js_labels_valid js fs :
  (∀ n, js = Some n → name_valid n) → Forall second_valid fs →
  Forall frame_valid (with_js_labels js fs).
Proof.
  intros Hjs Hfs. revert js Hjs. induction Hfs as [|f fs [Hf Hj] _ IH]; intros js Hjs; simpl; [done|].
  destruct (extra_js_name (second_js_frame f) js) as [extra js'] eqn:E.
  assert ((∀ n, extra = Some n → name_valid n) ∧ (∀ n, js' = Some n → name_valid n)) as [He Hjs'].
  { unfold extra_js_name in E. destruct (second_js_frame f) as [[]|]; injection E as <- <-; simpl in Hj;
      naive_solver. }
  apply Forall_app. split; [|constructor; [done|by apply IH]].
  destruct extra as [[s|s]|]; [done| |done]. repeat constructor; simpl; [apply Hf|].
  by apply (He (NonSelfHosted s)).
Qed.

Lemma converted_valid c h l extra :
  hierarchy_ok info_valid h → converter_valid c → (∀ f, extra = Some f → frame_valid f) →
  Forall frame_valid (converted c h l extra).
Proof.
  intros Hh Hc He. unfold converted. apply Forall_app. split.
  { destruct extra; simpl; [|done]. repeat constructor; by apply He. }
  apply with_js_labels_valid; [done|]. apply Forall_forall. intros f Hin.
  pose proof (second_pass_valid c h (first_pass (reverse l)) Hh Hc) as Hall.
  rewrite Forall_forall in Hall. apply Hall.
  eapply elem_of_submseteq; [exact Hin|]. apply sublist_submseteq, visible_sublist.
Qed.

Lemma limited_valid label c n l :
  Forall frame_valid l → (∀ e, elided n = Some e → frame_valid (placeholder label c)) →
  Forall frame_valid (limited label c n l).
Proof.
  intros Hl Hp. unfold limited. destruct (elided n) as [e|]; [|done].
  destruct (decide _); [done|]. destruct (decide _); [by apply Forall_take|].
  apply Forall_app. split; [by apply Forall_take|]. constructor; [by apply (Hp e)|by apply Forall_drop].
Qed.
End frames.

Lemma converted_length c h l extra : (length (converted c h l extra) ≤ 1 + 2 * length l)%nat.
Proof.
  unfold converted. rewrite length_app.
  pose proof (with_js_labels_length None (visible false (second_pass c h (first_pass (reverse l))))) as H1.
  pose proof (sublist_length _ _ (visible_sublist false (second_pass c h (first_pass (reverse l))))) as H2.
  unfold second_pass in H2 at 2. rewrite length_fmap in H2.
  pose proof (first_pass_length (reverse l)) as H3. rewrite length_reverse in H3.
  destruct extra; simpl; lia.
Qed.

Lemma limited_length label c n l : (length (limited label c n l) ≤ S (length l))%nat.
Proof.
  unfold limited. destruct (elided n) as [e|]; [|lia].
  destruct (decide _); [lia|]. destruct (decide _); rewrite ?length_app; cbn [length];
    rewrite ?length_take, ?length_drop; lia.
Qed.

(** * Runs of calls *)
Section runs.
Context {D : DebugIdType}.

(** ** What the flush leaves as it is *)
Record grows (p p' : Profile.Profile) : Prop := {
  grows_strings : StringTable.extends (Profile.string_table p) (Profile.string_table p');
  grows_libs : ProfileRuns.num_libs p = ProfileRuns.num_libs p';
  grows_categories : length (Profile.categories p) = length (Profile.categories p');
  grows_threads : ∀ h th, Profile.threads p !! h = Some th →
    ∃ th', Profile.threads p' !! h = Some th' ∧ num_marker_stacks th = num_marker_stacks th';
  grows_processes : Profile.processes p = Profile.processes p'
}.
#[local] Instance grows_preorder : PreOrder grows.
Proof.
  split; [intros p; split; try done; eauto|]. intros p1 p2 p3 [] [].
  split; [by etrans|congruence|congruence| |congruence]. intros h th Hth.
  destruct (grows_threads0 h th Hth) as (th2 & Hth2 & ->). by apply grows_threads1.
Qed.

Lemma intern_string_grows p s : grows p (Profile.intern_string p s).1.
Proof.
  unfold Profile.intern_string. pose proof (StringTable.index_for_string_extends (Profile.string_table p) s).
  destruct (StringTable.index_for_string _ s). split; simpl; [done..| |done]. eauto.
Qed.

Lemma with_stack_grows n p thread th frames (f : option nat → Thread.Thread → res Thread.Thread) p' :
  ProfileRuns.wf n p → Profile.threads p !! thread = Some th → ProfileRuns.frames_valid p frames →
  Z.of_nat (n + 3 * length frames) < 2 ^ 32 →
  ('(p1, stack) ← Profile.stack_index_for_frames p thread frames;
   Profile.update_thread p1 thread (f stack)) = Ok p' →
  (∀ stack th1 th2, f stack th1 = Ok th2 → num_marker_stacks th1 = num_marker_stacks th2) →
  grows p p'.
Proof.
  intros Hwf Hth Hv Hn Heq Hf.
  destruct (ProfileRuns.stack_index_for_frames_ok n p thread th frames Hwf Hth Hv Hn)
    as (pr & g & th' & stack & rows & _ & Hst & Hadv & _).
  rewrite Hst in Heq. cbn [mbind res_bind] in Heq.
  assert ((<[thread:=th']> (Profile.threads p)) !! thread = Some th') as Hth'
    by (apply list_lookup_insert_eq; by eapply lookup_lt_Some).
  destruct (f stack th') as [th2|] eqn:Ef.
  2: { unfold Profile.update_thread in Heq. simpl in Heq. rewrite (proj2 (index_Ok _ _ _) Hth') in Heq.
       simpl in Heq. by rewrite Ef in Heq. }
  rewrite (ProfileRuns.update_thread_Ok _ _ th' th2) in Heq by done. injection Heq as <-.
  simpl. rewrite list_insert_insert, decide_True by done. apply Hf in Ef.
  split; simpl; [done| |done| |done].
  - unfold ProfileRuns.num_libs. simpl. by rewrite (ProfileSafety.adv_all _ _ _ _ Hadv).
  - intros h t Ht. destruct (decide (h = thread)) as [->|Hne].
    + exists th2. rewrite list_lookup_insert_eq by (by eapply lookup_lt_Some). split; [done|].
      rewrite <-Ef. unfold num_marker_stacks. rewrite (ProfileSafety.adv_markers _ _ _ _ Hadv).
      by simplify_eq.
    + exists t. by rewrite list_lookup_insert_ne.
Qed.

(** ** One call *)
Definition sample_valid (p : Profile.Profile) (stacks : UnresolvedStacks.UnresolvedStacks)
    (s : UnresolvedSampleOrMarker) : Prop :=
  (∃ l, UnresolvedStacks.leads_to stacks (stack s) l) ∧
  ProfileRuns.frames_valid p (option_list (extra_label_frame s)) ∧
  ∃ th, Profile.threads p !! thread_handle s = Some th ∧
    match sample_or_marker s with
    | Sample _ => True
    | Marker mh => (mh < num_marker_stacks th)%nat
    end.

Lemma call_ok n p stacks s frames :
  ProfileRuns.wf n p → sample_valid p stacks s → ProfileRuns.frames_valid p frames →
  Z.of_nat (n + 3 * length frames) < 2 ^ 32 →
  ProfileRuns.op_valid (call_with s frames) p ∧
  ProfileRuns.cost (call_with s frames) p = (3 * length frames)%nat ∧
  ∃ p', ProfileRuns.apply_op (call_with s frames) p = Ok p' ∧
    ProfileRuns.wf (n + 3 * length frames) p' ∧ grows p p'.
Proof.
  intros Hwf (_ & _ & th & Hth & Hm) Hv Hn.
  assert (ProfileRuns.op_valid (call_with s frames) p) as Hop.
  { unfold call_with. destruct (sample_or_marker s); simpl; [|by eauto].
    split; [by eapply lookup_lt_Some|done]. }
  assert (ProfileRuns.cost (call_with s frames) p = (3 * length frames)%nat) as Hc
    by (unfold call_with; by destruct (sample_or_marker s)).
  split_and!; [done..|].
  destruct (ProfileRuns.op_ok n _ p Hwf Hop) as (p' & Heq & Hwf'); [by rewrite Hc|].
  rewrite Hc in Hwf'. exists p'. split_and!; [done..|].
  unfold call_with in Heq. destruct (sample_or_marker s); simpl in Heq;
    (eapply (with_stack_grows n p _ th frames _ p'); [done..|exact Heq|]); simpl.
  - by intros stack' th1 th2 [= <-].
  - intros stack' th1 th2. unfold Thread.set_marker_stack, MarkerTable.set_marker_stack.
    destruct (index_set _ _ _) as [stacks'|] eqn:E; simpl; [|done]. intros [= <-].
    apply index_set_Ok in E as [_ ->]. unfold num_marker_stacks. simpl. by rewrite length_insert.
Qed.

(** ** Validity does not get lost *)
Lemma frames_valid_grows p p' frames :
  grows p p' → ProfileRuns.frames_valid p frames → ProfileRuns.frames_valid p' frames.
Proof.
  intros [Hs Hl Hc _ _]. unfold ProfileRuns.frames_valid. rewrite Hl, Hc. intros Hfs.
  eapply Forall_impl; [exact Hfs|]. intros f [Hcat Hf]. split; [done|]. destruct (frame f); try done.
  destruct Hf as [x Hx]. exists x. by eapply StringTable.get_string_extends.
Qed.

Lemma sample_valid_grows p p' stacks s :
  grows p p' → sample_valid p stacks s → sample_valid p' stacks s.
Proof.
  intros Hg (Hl & Hf & th & Hth & Hm). split_and!; [done|by eapply frames_valid_grows|].
  destruct (grows_threads _ _ Hg _ _ Hth) as (th' & Hth' & Hn). exists th'. split; [done|].
  destruct (sample_or_marker s); [done|]. by rewrite <-Hn.
Qed.

Lemma info_valid_grows p p' i :
  grows p p' → info_valid (ProfileRuns.num_libs p) (length (Profile.categories p)) (Profile.string_table p) i →
  info_valid (ProfileRuns.num_libs p') (length (Profile.categories p')) (Profile.string_table p') i.
Proof.
  intros [Hs Hl Hc _ _]. rewrite Hl, Hc. intros (H1 & H2 & H3). split_and!; [done..|].
  destruct (js_frame i) as [[]|]; simpl in *; try done; destruct H3 as [x Hx]; exists x;
    by eapply StringTable.get_string_extends.
Qed.
Definition hierarchy_valid (p : Profile.Profile) : LibMappingsHierarchy → Prop :=
  hierarchy_ok (info_valid (ProfileRuns.num_libs p) (length (Profile.categories p))
                  (Profile.string_table p)).
Lemma hierarchy_valid_grows p p' h : grows p p' → hierarchy_valid p h → hierarchy_valid p' h.
Proof. intros Hg. apply hierarchy_ok_impl. intros i. by apply info_valid_grows. Qed.

(** ** One sample *)
Lemma limiter_spec n p l k c :
  ProfileRuns.wf n p → Z.of_nat (n + 1) < 2 ^ 32 →
  ∃ p1 it label, FrameLimiter.new p l k c = (p1, it) ∧
    frames_of it = Some (limited label c k l) ∧
    ProfileRuns.run (elision_call k) p = Ok p1 ∧ grows p p1 ∧
    ∀ e, elided k = Some e →
      StringTable.get_string (Profile.string_table p1) label = Some (elision_text e).
Proof.
  intros Hwf Hn. unfold elision_call, limited, elided.
  destruct (decide (k < 500)%nat) as [Hk|Hk].
  - destruct (frames_of_not_elided p l k c Hk) as [Hp Hf].
    assert (should_elide_frames 200 k = None) as ->.
    { unfold should_elide_frames. change (200 / 2)%nat with 100%nat.
      destruct (Nat.leb_spec (200 + 200 + 100) k); [lia|done]. }
    destruct (FrameLimiter.new p l k c) as [p1 it]. simpl in *. subst p1. by exists p, it, 0.
  - destruct (elided_bounds k) as (j & Hj & _); [lia|].
    pose proof (frames_of_elided p l k c j Hj) as H. rewrite Hj. cbn [fmap option_fmap option_map snd].
    pose proof (intern_string_grows p (elision_text (j * 200))) as Hg.
    pose proof (StringTable.index_for_string_length (Profile.string_table p) (elision_text (j * 200))) as Hlen.
    pose proof (ProfileRuns.wf_strings _ _ Hwf) as Hs. simpl ProfileRuns.run.
    pose proof (StringTable.get_index_for_string (Profile.string_table p) (elision_text (j * 200))
      (ThreadSafety.env_strings _ (ProfileRuns.wf_env _ _ Hwf))) as Hget.
    unfold Profile.intern_string in *.
    destruct (StringTable.index_for_string _ _) as [st label]. simpl in Hlen, Hget, Hg.
    destruct (FrameLimiter.new p l k c) as [p1 it]. cbn [fst snd] in H. destruct H as [-> Hf].
    eexists _, it, label. split_and!; [done|done|done|done|].
    intros e [= <-]. apply Hget. unfold StringTable.fits. simpl. lia.
Qed.

(** The frames of a sample are valid, and not many more than were recorded. *)
Lemma sample_frames_ok p p1 c h k label l extra :
  grows p p1 → hierarchy_valid p h → converter_valid (length (Profile.categories p)) c →
  ProfileRuns.frames_valid p (option_list extra) →
  (∀ e, elided k = Some e →
    StringTable.get_string (Profile.string_table p1) label = Some (elision_text e)) →
  ProfileRuns.frames_valid p1 (limited label (user_category c) k (converted c h l extra)) ∧
  (length (limited label (user_category c) k (converted c h l extra)) ≤ 2 + 2 * length l)%nat.
Proof.
  intros Hg Hh Hc Hextra Hlab. split.
  - unfold ProfileRuns.frames_valid. apply limited_valid.
    + eapply frames_valid_grows; [done|]. apply converted_valid; [done..|].
      intros f ->. by inversion Hextra.
    + intros e He. split; simpl; [|rewrite (Hlab e) by done; by eexists].
      rewrite <-(grows_categories _ _ Hg). apply Hc.
  - pose proof (limited_length label (user_category c) k (converted c h l extra)).
    pose proof (converted_length c h l extra). lia.
Qed.

Definition sample_room (depth : nat) : nat := 7 + 6 * depth.

Lemma flush_sample_ok n p stacks c h s l :
  ProfileRuns.wf n p → UnresolvedStacks.wf stacks → UnresolvedStacks.leads_to stacks (stack s) l →
  sample_valid p stacks s → hierarchy_valid p h →
  converter_valid (length (Profile.categories p)) c →
  Z.of_nat (n + sample_room (length l)) < 2 ^ 32 →
  ∃ h' p' label, flush_sample c stacks h p s = Some (Ok (h', p')) ∧
    process_ops h (timestamp_mono s) = Ok h' ∧ hierarchy_valid p' h' ∧ grows p p' ∧
    (∀ e, elided (length l) = Some e →
      StringTable.get_string (Profile.string_table p') label = Some (elision_text e)) ∧
    let calls := elision_call (length l) ++ [call_with s
      (limited label (user_category c) (length l) (converted c h' l (extra_label_frame s)))] in
    ProfileRuns.run calls p = Ok p' ∧ ProfileRuns.valid_run n calls p ∧
    (run_cost calls p ≤ sample_room (length l))%nat.
Proof.
  intros Hwf Hst Hl Hs Hh Hc Hn. unfold sample_room in *.
  destruct (process_ops_ok _ h (timestamp_mono s) Hh) as (h' & Hp & Hh'). exists h'.
  unfold flush_sample. rewrite Hp. cbn [returned mbind loops_bind].
  rewrite (UnresolvedStacks.convert_back_spec stacks _ l []) by done. cbn [mbind loops_bind app].
  rewrite convert_stack_spec. fold (converted c h' l (extra_label_frame s)).
  set (fs := converted c h' l (extra_label_frame s)). cbn [ended fmap option_fmap option_map mbind loops_bind].
  destruct (limiter_spec n p fs (length l) (user_category c) Hwf) as (p1 & it & label & -> & Hit & Hrun & Hg & Hlab); [lia|].
  rewrite Hit. cbn [ended fmap option_fmap option_map mbind loops_bind].
  set (out := limited label (user_category c) (length l) fs) in *.
  assert (ProfileRuns.valid_run n (elision_call (length l)) p ∧ (run_cost (elision_call (length l)) p ≤ 1)%nat)
    as [Hv Hcost].
  { unfold elision_call. destruct (elided _); simpl; [|split; [done|lia]]. split; [|lia]. split_and!; [done|lia|done]. }
  destruct (run_cost_wf n _ p Hwf Hv) as (p1' & Hrun' & Hwf1). assert (p1' = p1) as -> by congruence.
  destruct (sample_frames_ok p p1 c h' (length l) label l (extra_label_frame s)) as [Hout Hlen];
    [done..|apply Hs|done|]. fold fs out in Hout, Hlen.
  destruct (call_ok _ p1 stacks s out Hwf1) as (Hop & Hcall & p' & Happ & _ & Hg'); [by eapply sample_valid_grows|done|lia|].
  assert (ProfileRuns.apply_op (call_with s out) p1 =
    match sample_or_marker s with
    | Sample data => Profile.add_sample p1 (thread_handle s) (timestamp s) out (cpu_delta data) (weight data)
    | Marker mh => Profile.set_marker_stack p1 (thread_handle s) mh out
    end) as Hbody by (unfold call_with; by destruct (sample_or_marker s)).
  rewrite <-Hbody, Happ. exists p', label. fold out. split; [done|]. split; [done|]. split.
  { eapply hierarchy_valid_grows; [|done]. by etrans. }
  split; [by etrans|]. split.
  { intros e He. eapply StringTable.get_string_extends; [apply (grows_strings _ _ Hg')|by apply Hlab]. }
  split_and!.
  - rewrite run_app, Hrun. cbn [ProfileRuns.run mbind res_bind]. by rewrite Happ.
  - eapply valid_run_app; [done..|]. cbn [ProfileRuns.valid_run]. rewrite Happ, Hcall. split_and!; [done|lia|done].
  - rewrite (run_cost_app _ _ _ _ Hrun). cbn [run_cost]. rewrite Hcall, Happ. lia.
Qed.

(** ** All samples *)
Definition reached (h0 : LibMappingsHierarchy) (t : option Z) (h : LibMappingsHierarchy) : Prop :=
  from_option (λ t, process_ops h0 t = Ok h) (h = h0) t.

Lemma reached_next h0 t h ts h' :
  reached h0 t h → process_ops h ts = Ok h' →
  process_ops h0 (from_option (Z.max ts) ts t) = Ok h'.
Proof.
  destruct t as [t|]; simpl; [|by intros ->]. intros Hr Hp. rewrite Z.max_comm, <-process_ops_max.
  by rewrite Hr.
Qed.

Lemma calls_of_grows c stacks h0 p p' ts calls :
  grows p p' → calls_of c stacks h0 p ts calls → calls_of c stacks h0 p' ts calls.
Proof.
  intros Hg (h & l & label & Hp & Hl & Hlab & Hc). exists h, l, label. split_and!; [done..| |done].
  intros n Hn. eapply StringTable.get_string_extends; [apply (grows_strings _ _ Hg)|by apply Hlab].
Qed.

Definition depth (stacks : UnresolvedStacks.UnresolvedStacks) (s : UnresolvedSampleOrMarker) : nat :=
  match UnresolvedStacks.convert_back stacks (stack s) [] with
  | Some (Ok l) => length l
  | _ => 0
  end.
Definition room (stacks : UnresolvedStacks.UnresolvedStacks)
    (samples : list UnresolvedSampleOrMarker) : nat :=
  sum_list ((λ s, sample_room (depth stacks s)) <$> samples).

Lemma flush_samples_ok h0 c stacks samples n p t h :
  UnresolvedStacks.wf stacks → ProfileRuns.wf n p → Forall (sample_valid p stacks) samples →
  hierarchy_valid p h → converter_valid (length (Profile.categories p)) c → reached h0 t h →
  Z.of_nat (n + room stacks samples) < 2 ^ 32 →
  ∃ p' calls, flush_samples c stacks h p samples = Some (Ok p') ∧ grows p p' ∧
    Forall2 (calls_of c stacks h0 p') (zip (latest t samples) samples) calls ∧
    ProfileRuns.run (concat calls) p = Ok p' ∧ ProfileRuns.valid_run n (concat calls) p ∧
    (run_cost (concat calls) p ≤ room stacks samples)%nat.
Proof.
  intros Hst. revert n p t h. induction samples as [|s samples IH]; intros n p t h Hwf Hs Hh Hc Hr Hn.
  { exists p, []. by split_and!. }
  apply Forall_cons in Hs as [Hsv Hs]. pose proof Hsv as [[l Hl] _].
  assert (depth stacks s = length l) as Hd
    by (unfold depth; by rewrite (UnresolvedStacks.convert_back_spec stacks _ l [])).
  assert (room stacks (s :: samples) = (sample_room (length l) + room stacks samples)%nat) as Hrm
    by (rewrite <-Hd; done).
  rewrite Hrm in Hn.
  destruct (flush_sample_ok n p stacks c h s l Hwf Hst Hl Hsv Hh Hc)
    as (h' & p1 & label & Hf & Hp & Hh' & Hg & Hlab & Hrun & Hv & Hcost); [lia|].
  set (calls := elision_call _ ++ _) in *.
  destruct (run_cost_wf n calls p Hwf Hv) as (p1' & Hrun' & Hwf1). assert (p1' = p1) as -> by congruence.
  pose proof (reached_next h0 t h _ h' Hr Hp) as Hr'.
  destruct (IH (n + run_cost calls p)%nat p1 (Some (from_option (Z.max (timestamp_mono s)) (timestamp_mono s) t)) h')
    as (p' & rest & Hf' & Hg' & Hall & Hrun2 & Hv2 & Hcost2); [done| |done| |done|lia|].
  { eapply Forall_impl; [exact Hs|]. intros s'. by apply sample_valid_grows. }
  { by rewrite <-(grows_categories _ _ Hg). }
  exists p', (calls :: rest). simpl concat. split_and!.
  - cbn [flush_samples]. rewrite Hf. by cbn [mbind loops_bind].
  - by etrans.
  - simpl. constructor; [|done]. eapply calls_of_grows; [exact Hg'|]. by exists h', l, label.
  - by rewrite run_app, Hrun.
  - by eapply valid_run_app.
  - rewrite (run_cost_app _ _ _ _ Hrun), Hrm. lia.
Qed.

(** What the recorder keeps for a process is valid in the profile. *)
Record data_valid (p : Profile.Profile) (stacks : UnresolvedStacks.UnresolvedStacks)
    (d : ProcessSampleData) : Prop := {
  data_stacks : UnresolvedStacks.wf stacks;
  data_samples : Forall (sample_valid p stacks) (samples_and_markers (unresolved_samples d));
  data_queues : Forall (λ q, queue_ordered q ∧
      Forall (λ op, op_info (info_valid (ProfileRuns.num_libs p) (length (Profile.categories p))
                               (Profile.string_table p)) op.2) q)
    (regular_lib_mapping_op_queue d :: jitdump_lib_mapping_op_queues d);
  data_perf_map : ∀ m, perf_map_mappings d = Some m → LibMappings.wf m ∧
    mapping_infos (info_valid (ProfileRuns.num_libs p) (length (Profile.categories p))
                     (Profile.string_table p)) m
}.

Lemma mappings_hierarchy_valid p stacks d :
  data_valid p stacks d → hierarchy_valid p (mappings_hierarchy d).
Proof.
  intros [_ _ [[Hr Hri] Hj]%Forall_cons Hp]. unfold mappings_hierarchy.
  set (P := info_valid _ _ _) in *.
  assert (∀ q, queue_ordered q → Forall (λ op, op_info P op.2) q → level_ok P (LibMappings.new, q)) as Hlevel.
  { intros q Hq Hi. split_and!; [split; [apply LibMappings.wf_new_mappings|done]| |done].
    by intros k mp ?%elem_of_nil. }
  set (h := foldl _ _ _). assert (hierarchy_ok P h ∧ perf_map h = None) as [(H1 & H2 & _) Hnone].
  { unfold h. assert (hierarchy_ok P (Hierarchy.new (regular_lib_mapping_op_queue d)) ∧
      perf_map (Hierarchy.new (regular_lib_mapping_op_queue d)) = None) as H0.
    { split; [|done]. split_and!; [by apply Hlevel|done|done]. }
    revert H0. generalize (Hierarchy.new (regular_lib_mapping_op_queue d)). clear -Hj Hlevel.
    induction Hj as [|q qs [Hq Hi] _ IH]; intros h [(H1 & H2 & H3) Hnone]; simpl; [done|].
    apply IH. split; [|done]. split_and!; simpl; [done| |by rewrite Hnone].
    apply Forall_app. split; [done|]. apply Forall_singleton. by apply Hlevel. }
  unfold hierarchy_valid. fold P. destruct (perf_map_mappings d) as [m|]; simpl.
  - split_and!; simpl; [done|done|]. intros m' [= <-]. by apply Hp.
  - split_and!; [done|done|]. by rewrite Hnone.
Qed.
End runs.

(** * Properties *)

(** C3: Flushing the buffered samples of a process into a profile made by valid
    calls ends, without a panic, and is itself a sequence of valid calls, one
    group for each sample or marker stack in their order: if the stack is deep, a
    label for the left out frames is interned, and then the sample is added with
    the frames its handle stands for, converted under the library mappings that
    are due at the latest time so far and limited in depth. With the theorems on
    valid calls it follows that the profile stays well-formed, describes these
    frames and can be written. *)
Theorem flush_refines_calls `{DebugIdType} (product' : string) (t0 : f64) (i : Z)
    (setup : list ProfileRuns.op) (p : Profile.Profile) (d : ProcessSampleData)
    (stacks : UnresolvedStacks.UnresolvedStacks) (user kernel : CategoryPairHandle) :
  let c := {| user_category := user; kernel_category := kernel |} in
  let samples := samples_and_markers (unresolved_samples d) in
  ProfileRuns.valid_run 0 setup (Profile.new product' t0 i) →
  ProfileRuns.run setup (Profile.new product' t0 i) = Ok p →
  data_valid p stacks d → converter_valid (length (Profile.categories p)) c →
  Z.of_nat (run_cost setup (Profile.new product' t0 i) + room stacks samples) < 2 ^ 32 →
  ∃ p' calls, flush_resolved_samples d p user kernel stacks = Some (Ok p') ∧
    ProfileRuns.run (concat calls) p = Ok p' ∧
    ProfileRuns.valid_run 0 (setup ++ concat calls) (Profile.new product' t0 i) ∧
    Forall2 (calls_of c stacks (mappings_hierarchy d) p') (zip (latest None samples) samples) calls.
Proof.
  intros c samples Hv Hrun Hd Hc Hroom.
  destruct (run_cost_wf 0 setup _ (ProfileRuns.wf_new_profile product' t0 i) Hv) as (p1 & Hrun1 & Hwf).
  assert (p1 = p) as -> by congruence.
  destruct (flush_samples_ok (mappings_hierarchy d) c stacks samples _ p None (mappings_hierarchy d)
    (data_stacks _ _ _ Hd) Hwf (data_samples _ _ _ Hd) (mappings_hierarchy_valid _ _ _ Hd) Hc eq_refl)
    as (p' & calls & Hf & _ & Hall & Hrun' & Hv' & _); [done|].
  exists p', calls. split_and!; [done|done| |done]. by eapply valid_run_app.
Qed.

(** * Witness: two samples of one stack, before and after a library is mapped *)
#[local] Existing Instance string_debug_ids.
#[local] Definition example_lib : LibraryInfo.LibraryInfo :=
  {| LibraryInfo.name := "a"; LibraryInfo.debug_name := "a"; LibraryInfo.path := "/a";
     LibraryInfo.debug_path := "/a"; LibraryInfo.debug_id := "0" : DebugId; LibraryInfo.code_id := None;
     LibraryInfo.arch := None; LibraryInfo.symbol_table := None |}.
#[local] Definition example_setup : list ProfileRuns.op :=
  [ProfileRuns.AddProcess "proc" 7 {| nanos := 0 |};
   ProfileRuns.AddThread 0%nat 7 {| nanos := 0 |} true; ProfileRuns.AddLib example_lib].
#[local] Definition example_start : Profile.Profile := Profile.new "example" (f64_of_Z 0) 1000000.
#[local] Definition example_stacks : UnresolvedStacks.UnresolvedStacks :=
  (UnresolvedStacks.run UnresolvedStacks.default
    [UnresolvedStacks.Convert [SF_InstructionPointer 4100 User; SF_ReturnAddress 4200 User]]).1.
#[local] Definition example_sample (t : Z) : UnresolvedSampleOrMarker :=
  {| thread_handle := 0%nat; timestamp := {| nanos := t |}; timestamp_mono := t; stack := 1;
     extra_label_frame := None; sample_or_marker := Sample {| cpu_delta := CpuDelta_ZERO; weight := 1 |} |}.
#[local] Definition example_data : ProcessSampleData :=
  {| unresolved_samples := {| samples_and_markers := [example_sample 1; example_sample 3];
                              prev_sample_info_per_thread := ∅ |};
     regular_lib_mapping_op_queue :=
       [(2, Add {| add_start_avma := 4096; add_end_avma := 8192; add_relative_address_at_start := 0;
                   add_info := new_lib 0%nat |})];
     jitdump_lib_mapping_op_queues := []; perf_map_mappings := None;
     markers := []; counters := []; process := 0%nat |}.

Lemma example_stacks_wf : UnresolvedStacks.wf example_stacks.
Proof.
  pose proof (UnresolvedStacks.run_stacks_spec
    [UnresolvedStacks.Convert [SF_InstructionPointer 4100 User; SF_ReturnAddress 4200 User]]
    UnresolvedStacks.default UnresolvedStacks.wf_default eq_refl) as H.
  unfold example_stacks. destruct (UnresolvedStacks.run _ _) as [t hs]. apply H.
Qed.

Lemma example_stack_leads :
  UnresolvedStacks.leads_to example_stacks 1 [SF_ReturnAddress 4200 User; SF_InstructionPointer 4100 User].
Proof.
  apply (UnresolvedStacks.leads_node _ 1 0); [done|].
  apply (UnresolvedStacks.leads_node _ 0 UnresolvedStacks.EMPTY); [done|constructor].
Qed.

Lemma example_data_valid p :
  ProfileRuns.run example_setup example_start = Ok p →
  data_valid p example_stacks example_data ∧ length (Profile.categories p) = 1%nat.
Proof.
  intros Hp.
  assert ((λ p, (length (Profile.threads p), ProfileRuns.num_libs p, length (Profile.categories p))) <$>
    ProfileRuns.run example_setup example_start = Ok (1, 1, 1)%nat) as Hlen by by vm_compute.
  rewrite Hp in Hlen. apply fmap_Ok_inv in Hlen. injection Hlen as Hth Hlibs Hcats.
  split; [|done]. destruct (lookup_lt_is_Some_2 (Profile.threads p) 0) as [th Hth0]; [lia|].
  split.
  - apply example_stacks_wf.
  - assert (∀ t, sample_valid p example_stacks (example_sample t)) as Hs.
    { intros t. split_and!; [eexists; apply example_stack_leads|by apply Forall_nil|]. by exists th. }
    simpl. apply Forall_cons. split; [apply Hs|]. apply Forall_singleton, Hs.
  - simpl. apply Forall_singleton. split; apply Forall_singleton; simpl; [lia|].
    rewrite Hlibs. split_and!; [simpl; lia|done|done].
  - done.
Qed.

Example flush_refines_calls_witness :
  ∃ p p' calls, ProfileRuns.run example_setup example_start = Ok p ∧
    flush_resolved_samples example_data p (CategoryPairHandle_from 0) (CategoryPairHandle_from 0)
      example_stacks = Some (Ok p') ∧
    ProfileRuns.run (concat calls) p = Ok p' ∧ length calls = 2%nat.
Proof.
  assert (ProfileRuns.valid_run 0 example_setup example_start) as Hv
    by (apply ProfileRuns.run_check_sound; by vm_compute).
  destruct (ProfileRuns.run_ok 0 _ _ (ProfileRuns.wf_new_profile _ _ _) Hv) as (p & _ & Hp & _).
  destruct (example_data_valid p Hp) as [Hd Hc].
  destruct (flush_refines_calls "example" (f64_of_Z 0) 1000000 example_setup p example_data
    example_stacks (CategoryPairHandle_from 0) (CategoryPairHandle_from 0) Hv Hp Hd)
    as (p' & calls & Hf & Hrun & _ & Hall).
  - rewrite Hc. split; unfold ThreadSafety.category_ok; simpl; lia.
  - by vm_compute.
  - exists p, p', calls. apply Forall2_length in Hall. split; [exact Hp|]. split; [exact Hf|].
    split; [exact Hrun|]. rewrite <-Hall. reflexivity.
Defined.
End Flush.
