(* ===== verification/FlushMarkers.v ===== *)
(** The markers and counters of a process at the end of a recording: the second
    half of [ProcessSampleData::flush_samples_to_profile] and the marker types it
    makes up, of samply/src/shared/process_sample_data.rs. *)
From S2P Require Import Prelude RustStr Types StringTables LibTable Markers ThreadModel ThreadSafety ProfileModel.
From S2P Require Import ProfileSafety ProfileRuns RecorderMarkers ProfileCalls UnresolvedSamples MarkerFile Flush.
From stdpp Require Import options.
Open Scope Z_scope.

Module FlushMarkers.
Import RustStr Schema Profile ProfileRuns RecorderMarkers MarkerFile Flush ProfileCalls.

(** * Marker types of marker files *)
(** The fields in the order of their names. *)
Definition sorted_fields (fields : gmap string string) : list (string * string) :=
  stable_sort (λ a b, String.leb a.1 b.1) (map_to_list fields).
Definition extra_schemas (names : list string) : list MarkerFieldSchema :=
  (λ name, string_field name name) <$> names.
Definition duration_field (k : string) : MarkerFieldSchema :=
  {| key := k; label := k; format := Duration; searchable := true |}.

Definition span_schema (extra_field_names : list string) : MarkerSchema :=
  {| ms_type_name := "Span-" +:+ join extra_field_names "_"; ms_locations := chart_and_table;
     ms_chart_label := Some "{marker.data.name}"; ms_tooltip_label := Some "{marker.data.name}";
     ms_table_label := Some "{marker.data.name}";
     ms_fields := [duration_field "time_idle"; duration_field "time_busy"; string_field "name" "name"] ++
                  extra_schemas extra_field_names;
     ms_static_fields := []; ms_graphs := [] |}.
Definition event_schema (extra_field_names : list string) : MarkerSchema :=
  {| ms_type_name := "Event-" +:+ join extra_field_names "_"; ms_locations := chart_and_table;
     ms_chart_label := Some "{marker.data.message}"; ms_tooltip_label := Some "{marker.data.message}";
     ms_table_label := Some "{marker.data.message}";
     ms_fields := string_field "message" "Message" :: extra_schemas extra_field_names;
     ms_static_fields := []; ms_graphs := [] |}.
Definition custom_graph_schema (c : CounterFile.Counter) : MarkerSchema :=
  {| ms_type_name := "CustomGraph-" +:+ CounterFile.name c; ms_locations := [];
     ms_chart_label := None; ms_tooltip_label := None; ms_table_label := None;
     ms_fields := [{| key := "value"; label := "Value"; format := Decimal; searchable := false |}];
     ms_static_fields := [];
     ms_graphs := [{| graph_key := "value"; graph_type := Line; graph_color := CounterFile.color c |}] |}.

Section flush.
Context {D : DebugIdType}.

(** [impl Marker]: a type, a name and a category that are known beforehand. *)
Definition registered_marker (type : MarkerTypeHandle) (name : StringHandle) (category : CategoryHandle)
    (fields : Schema.Marker) : Marker :=
  {| marker_type := λ p, (p, type); marker_name := λ p, (p, name); marker_category := λ p, (p, category);
     marker_fields := fields |}.
Definition micros_as_millis (duration : Z) : f64 := f64_div (f64_of_Z (duration / 1000)) (f64_of_Z 1000).

Fixpoint intern_strings (profile : Profile) (l : list string) : Profile * list StringHandle :=
  match l with
  | [] => (profile, [])
  | s :: l' =>
      let '(profile1, h) := intern_string profile s in
      let '(profile2, hs) := intern_strings profile1 l' in
      (profile2, h :: hs)
  end.

(** [SpanMarkerWithTimings::new] and its [impl Marker]. *)
Definition category_handle (handles : gmap string CategoryHandle) (category : string) (profile : Profile)
    : gmap string CategoryHandle * Profile * CategoryHandle :=
  match handles !! category with
  | Some h => (handles, profile, h)
  | None => let '(profile', h) := add_category profile category Green in
      (<[category := h]> handles, profile', h)
  end.
Definition span_fields (t : TracingTimings) (name : StringHandle) (extra : list StringHandle)
    : Schema.Marker :=
  {| string_field_value := λ i,
       if i =? 2 then Ok name else if i <? 3 then Panic else unwrap (extra !! Z.to_nat (i - 3));
     number_field_value := λ i,
       if i =? 0 then Ok (micros_as_millis (time_idle t))
       else if i =? 1 then Ok (micros_as_millis (time_busy t)) else Panic |}.
Definition new_span_marker (profile : Profile) (marker : EventOrSpanMarker) (span : MarkerSpan)
    (handles : gmap string CategoryHandle) (type : MarkerTypeHandle) (field_values : list string)
    : Profile * gmap string CategoryHandle * Marker :=
  let '(profile1, label) :=
    intern_string profile (default (span_type_text (span_type span)) (profiler_label span)) in
  let '(handles', profile2, category') := category_handle handles (category span) profile1 in
  let '(profile3, extra) := intern_strings profile2 field_values in
  let '(profile4, name) := intern_string profile3 (message marker) in
  (profile4, handles', registered_marker type label category' (span_fields (timings span) name extra)).

(** [EventMarker::new] and its [impl Marker]. *)
Definition event_fields (message : StringHandle) (extra : list StringHandle) : Schema.Marker :=
  {| string_field_value := λ i,
       if i =? 0 then Ok message else if i <? 1 then Panic else unwrap (extra !! Z.to_nat (i - 1));
     number_field_value := λ _, Panic |}.
Definition new_event_marker (profile : Profile) (category' : CategoryHandle) (marker : EventOrSpanMarker)
    (type : MarkerTypeHandle) (field_values : list string) : Profile * Marker :=
  let '(profile1, extra) := intern_strings profile field_values in
  let '(profile2, message') := intern_string profile1 (message marker) in
  let '(profile3, target') := intern_string profile2 (target marker) in
  (profile3, registered_marker type target' category' (event_fields message' extra)).
Definition custom_graph_fields (value : f64) : Schema.Marker :=
  {| string_field_value := λ _, Panic; number_field_value := λ i, if i =? 0 then Ok value else Panic |}.

(** * The loop over the markers *)
Record Flushing := {
  profile : Profile;
  category_handles : gmap string CategoryHandle;
  span_marker_types : gmap string MarkerTypeHandle;
  event_marker_types : gmap string MarkerTypeHandle;
  stats : MarkerStats
}.
(** [entry(..).or_insert_with(..)] *)
Definition marker_type_for (types : gmap string MarkerTypeHandle) (name : string) (schema' : MarkerSchema)
    (profile' : Profile) : gmap string MarkerTypeHandle * Profile * MarkerTypeHandle :=
  match types !! name with
  | Some h => (types, profile', h)
  | None => let '(profile'', h) := register_marker_type profile' schema' in (<[name := h]> types, profile'', h)
  end.
Definition flush_marker (logging_category : CategoryHandle) (f : Flushing) (m : MarkerOnThread)
    : res Flushing :=
  let marker := event_or_span m in
  stats' ← process_span (stats f) marker;
  let extra := sorted_fields (extra_fields marker) in
  let field_names := extra.*1 in
  let field_values := extra.*2 in
  let marker_typename := join field_names "_" in
  match marker_data marker with
  | Event =>
      let '(types, p1, type) :=
        marker_type_for (event_marker_types f) marker_typename (event_schema field_names) (profile f) in
      let '(p2, event_marker) := new_event_marker p1 logging_category marker type field_values in
      '(p3, _) ← add_marker p2 (marker_thread m) (Instant (start_time marker)) event_marker;
      Ok {| profile := p3; category_handles := category_handles f; span_marker_types := span_marker_types f;
            event_marker_types := types; stats := stats' |}
  | Span span =>
      let '(types, p1, type) :=
        marker_type_for (span_marker_types f) marker_typename (span_schema field_names) (profile f) in
      let '(p2, handles, span_marker) :=
        new_span_marker p1 marker span (category_handles f) type field_values in
      '(p3, _) ← add_marker p2 (marker_thread m) (Interval (start_time marker) (end_time span)) span_marker;
      Ok {| profile := p3; category_handles := handles; span_marker_types := types;
            event_marker_types := event_marker_types f; stats := stats' |}
  end.
Fixpoint flush_markers (logging_category : CategoryHandle) (f : Flushing) (l : list MarkerOnThread)
    : res Flushing :=
  match l with
  | [] => Ok f
  | m :: l' => f' ← flush_marker logging_category f m; flush_markers logging_category f' l'
  end.
(** [MarkerStats::dump], without the printing: the totals are added up. *)
Definition dump (stats' : MarkerStats) : res unit :=
  per_type ← calc_per_type stats';
  _ ← mapM (λ e, add_duration (time_busy e.2) (time_idle e.2)) (map_to_list per_type);
  _ ← mapM (λ e, add_duration (time_busy e.2) (time_idle e.2)) (map_to_list stats');
  Ok tt.

(** * The loop over the counters *)
Fixpoint flush_custom_samples (thread : ThreadHandle) (name : string) (type : MarkerTypeHandle)
    (p : Profile) (samples : list CounterFile.CounterSample) : res Profile :=
  match samples with
  | [] => Ok p
  | sample :: samples' =>
      let '(p1, handle) := intern_string p name in
      '(p2, _) ← add_marker p1 thread (Instant (CounterFile.timestamp sample))
                   (registered_marker type handle CategoryHandle_OTHER
                      (custom_graph_fields (CounterFile.value sample)));
      flush_custom_samples thread name type p2 samples'
  end.
Fixpoint flush_counter_samples (counter' : CounterHandle) (p : Profile)
    (samples : list CounterFile.CounterSample) : res Profile :=
  match samples with
  | [] => Ok p
  | sample :: samples' =>
      p1 ← add_counter_sample p counter' (CounterFile.timestamp sample) (CounterFile.value sample)
             (CounterFile.modification_count sample);
      flush_counter_samples counter' p1 samples'
  end.
Definition flush_counter (process' : ProcessHandle) (p : Profile) (c : CounterOnThread) : res Profile :=
  let counter' := counter c in
  match CounterFile.category counter' with
  | CounterFile.Custom =>
      let '(p1, type) := register_marker_type p (custom_graph_schema counter') in
      flush_custom_samples (counter_thread c) (CounterFile.name counter') type p1
        (CounterFile.samples counter')
  | _ =>
      '(p1, handle) ← add_counter p process' (CounterFile.name counter')
        (CounterFile.category_text (CounterFile.category counter')) (CounterFile.description counter')
        (CounterFile.color counter');
      flush_counter_samples handle p1 (CounterFile.samples counter')
  end.
Fixpoint flush_counters (process' : ProcessHandle) (p : Profile) (l : list CounterOnThread) : res Profile :=
  match l with
  | [] => Ok p
  | c :: l' => p' ← flush_counter process' p c; flush_counters process' p' l'
  end.

(** What follows the loop over the samples. *)
Definition flush_markers_and_counters (d : ProcessSampleData) (p : Profile) : res Profile :=
  let '(p1, logging_category) := add_category p "(Logging)" Green in
  f ← flush_markers logging_category
        {| profile := p1; category_handles := ∅; span_marker_types := ∅; event_marker_types := ∅;
           stats := ∅ |} (markers d);
  _ ← if decide (stats f = ∅) then Ok tt else dump (stats f);
  flush_counters (process d) (profile f) (counters d).
Definition flush_samples_to_profile (d : ProcessSampleData) (p : Profile)
    (user_category' kernel_category' : CategoryPairHandle)
    (stacks : UnresolvedStacks.UnresolvedStacks) : loops Profile :=
  p1 ← flush_resolved_samples d p user_category' kernel_category' stacks;
  returned (flush_markers_and_counters d p1).
End flush.

(** * Timing statistics *)
Definition amount (t : TracingTimings) : Z := time_busy t + time_idle t.
Definition nonneg (t : TracingTimings) : Prop := 0 ≤ time_busy t ∧ 0 ≤ time_idle t.
Fixpoint sum_amounts (l : list (string * TracingTimings)) : Z :=
  match l with [] => 0 | (_, t) :: l' => amount t + sum_amounts l' end.
Definition total (st : MarkerStats) : Z := sum_amounts (map_to_list st).
Definition duration_limit : Z := 2 ^ 64 * 10 ^ 9.

Lemma sum_amounts_perm (l l' : list (string * TracingTimings)) :
  l ≡ₚ l' → sum_amounts l = sum_amounts l'.
Proof. induction 1 as [|[? ?] ? ? ? ?|[? ?] [? ?] ?|]; simpl; lia. Qed.
Lemma total_empty : total ∅ = 0.
Proof. reflexivity. Qed.
Lemma total_insert st label t :
  total (<[label := t]> st) = amount t + total (delete label st).
Proof.
  rewrite <-insert_delete_eq. unfold total.
  by rewrite (sum_amounts_perm _ _ (map_to_list_insert (delete label st) label t (lookup_delete_eq _ _))).
Qed.
Lemma total_delete st label :
  total st = amount (default zero_timings (st !! label)) + total (delete label st).
Proof.
  destruct (st !! label) as [t|] eqn:Et; simpl.
  - rewrite <-(insert_id st label t Et) at 1. apply total_insert.
  - by rewrite delete_id.
Qed.
Lemma total_nonneg_stats st : map_Forall (λ _, nonneg) st → 0 ≤ total st.
Proof.
  intros Hst. assert (Forall (λ e, nonneg e.2) (map_to_list st)) as Hl.
  { apply Forall_forall. intros [label t] Hin%elem_of_map_to_list. by apply (Hst label). }
  unfold total. induction Hl as [|[label t] l Ht _ IH]; simpl in *; [lia|].
  unfold nonneg, amount in *. lia.
Qed.
Lemma add_timings_ok st label t :
  map_Forall (λ _, nonneg) st → nonneg t → total st + amount t < duration_limit →
  ∃ sum, add_timings (default zero_timings (st !! label)) t = Ok sum ∧ nonneg sum ∧
    total (<[label := sum]> st) = total st + amount t.
Proof.
  intros Hst Ht Hlim. assert (nonneg (default zero_timings (st !! label))) as Hold.
  { destruct (st !! label) as [o|] eqn:Eo; [by apply (Hst label)|]. by split. }
  pose proof (total_delete st label) as Htot.
  pose proof (total_nonneg_stats (delete label st)) as Hrest.
  unfold add_timings, add_duration, nonneg, amount, duration_limit in *.
  rewrite !decide_True by (specialize (Hrest ltac:(by apply map_Forall_delete)); lia).
  eexists. split; [done|]. simpl. split; [lia|]. rewrite total_insert. unfold amount. simpl. lia.
Qed.

(** The labels of statistics have a hyphen. *)
Definition stats_ok (st : MarkerStats) : Prop :=
  map_Forall (λ label t, nonneg t ∧ is_Some (split_once label "-")) st.
Lemma stats_ok_nonneg st : stats_ok st → map_Forall (λ _, nonneg) st.
Proof. intros Hst label t Ht. apply (Hst label t Ht). Qed.
Definition marker_time (m : EventOrSpanMarker) : Z :=
  match marker_data m with Span span => amount (timings span) | Event => 0 end.
(** As a marker file makes them. *)
Definition timings_ok (m : EventOrSpanMarker) : Prop :=
  match marker_data m with
  | Span span => nonneg (timings span) ∧
      ∀ label, stats_label span = Some label → is_Some (split_once label "-")
  | Event => True
  end.
Lemma process_span_ok st m :
  stats_ok st → timings_ok m → total st + marker_time m < duration_limit →
  ∃ st', process_span st m = Ok st' ∧ stats_ok st' ∧ total st' ≤ total st + marker_time m.
Proof.
  intros Hst Hm Hlim. unfold process_span, timings_ok, marker_time in *.
  destruct (marker_data m) as [span|]; [|exists st; split_and!; [done..|lia]].
  destruct Hm as [Ht Hlabel].
  assert (∃ st', Ok st = Ok st' ∧ stats_ok st' ∧ total st' ≤ total st + amount (timings span)) as Hsame
    by (exists st; split_and!; [done..|unfold nonneg, amount in *; lia]).
  destruct (span_type span); [|done]. destruct (stats_label span) as [label|]; [|done].
  destruct (add_timings_ok st label (timings span)) as (sum & -> & Hsum & Htot);
    [by apply stats_ok_nonneg|done|done|]. cbn [mbind res_bind]. eexists. split; [done|]. split; [|lia].
  apply map_Forall_insert_2; [|done]. split; [done|by apply Hlabel].
Qed.

Lemma amounts_nonneg (l : list (string * TracingTimings)) :
  Forall (λ e, nonneg e.2) l → 0 ≤ sum_amounts l.
Proof. induction 1 as [|[??] l Ht _ IH]; simpl in *; [lia|]. unfold nonneg, amount in *. lia. Qed.
Lemma add_duration_ok a b : a + b < duration_limit → add_duration a b = Ok (a + b).
Proof. intros H. unfold add_duration, duration_limit in *. by rewrite decide_True. Qed.
(** Adding up what the statistics print. *)
Lemma add_up_ok m :
  map_Forall (λ _, nonneg) m → total m < duration_limit →
  is_Ok (mapM (λ e : string * TracingTimings, add_duration (time_busy e.2) (time_idle e.2)) (map_to_list m)).
Proof.
  intros Hm Hl. assert (Forall (λ e, nonneg e.2) (map_to_list m)) as Hf.
  { apply Forall_forall. intros [label t] Hin%elem_of_map_to_list. by apply (Hm label). }
  unfold total in Hl. clear Hm. induction Hf as [|[label t] l Ht Hf IH]; [by eexists|]. simpl in *.
  pose proof (amounts_nonneg l Hf).
  unfold nonneg, amount in *. rewrite add_duration_ok by lia. simpl.
  destruct (IH ltac:(lia)) as [x ->]. by eexists.
Qed.

Lemma calc_per_type_ok st :
  stats_ok st → total st < duration_limit →
  ∃ pt, calc_per_type st = Ok pt ∧ map_Forall (λ _, nonneg) pt ∧ total pt = total st.
Proof.
  intros Hst Hlim.
  assert (Forall (λ e : string * TracingTimings, nonneg e.2 ∧ is_Some (split_once e.1 "-")) (map_to_list st)) as Hl.
  { apply Forall_forall. intros [label t] Hin%elem_of_map_to_list. by apply (Hst label). }
  unfold calc_per_type.
  assert (∀ l pt, Forall (λ e : string * TracingTimings, nonneg e.2 ∧ is_Some (split_once e.1 "-")) l →
    map_Forall (λ _, nonneg) pt → total pt + sum_amounts l < duration_limit →
    ∃ pt', foldl add_collection (Ok pt) l = Ok pt' ∧ map_Forall (λ _, nonneg) pt' ∧
      total pt' = total pt + sum_amounts l) as Hgen.
  { clear. intros l. induction l as [|[label t] l IH]; intros pt Hl Hpt Hlim; simpl in *.
    { exists pt. split_and!; [done..|lia]. }
    apply Forall_cons in Hl as [[Ht [[ty rest] Hsplit]] Hl]. simpl in *. rewrite Hsplit. simpl.
    pose proof (amounts_nonneg l ltac:(eapply Forall_impl; [exact Hl|by intros ? []])) as Hrest.
    destruct (add_timings_ok pt ty t) as (sum & -> & Hsum & Htot); [done|done|lia|]. simpl.
    destruct (IH (<[ty := sum]> pt)) as (pt' & -> & Hpt' & Htot'); [done|by apply map_Forall_insert_2|lia|].
    exists pt'. split_and!; [done..|lia]. }
  destruct (Hgen (map_to_list st) ∅ Hl) as (pt & -> & Hpt & Htot); [done|by rewrite total_empty|].
  exists pt. split_and!; [done..|]. by rewrite Htot, total_empty.
Qed.
Lemma dump_ok st : stats_ok st → total st < duration_limit → dump st = Ok tt.
Proof.
  intros Hst Hlim. unfold dump. destruct (calc_per_type_ok st Hst Hlim) as (pt & -> & Hpt & Htot).
  cbn [mbind res_bind].
  destruct (add_up_ok pt Hpt ltac:(lia)) as [x ->]. by destruct (add_up_ok st (stats_ok_nonneg _ Hst) Hlim) as [y ->].
Qed.
(** * The calls that flush markers and counters *)
Section calls.
Context {D : DebugIdType}.

(** ** Where markers go *)
Record appended (ts : list MarkerTiming) (t t' : MarkerTable.MarkerTable) : Prop := {
  appended_starts : MarkerTable.marker_starts t' =
    MarkerTable.marker_starts t ++ ((λ x, (MarkerTable.split_timing x).1.1) <$> ts);
  appended_ends : MarkerTable.marker_ends t' =
    MarkerTable.marker_ends t ++ ((λ x, (MarkerTable.split_timing x).1.2) <$> ts);
  appended_phases : MarkerTable.marker_phases t' =
    MarkerTable.marker_phases t ++ ((λ x, (MarkerTable.split_timing x).2) <$> ts)
}.
Lemma thread_add_marker_appended th name h sc fields' timing category' strings th' i :
  Thread.add_marker th name h sc fields' timing category' strings = Ok (th', i) →
  appended [timing] (Thread.markers th) (Thread.markers th').
Proof.
  unfold Thread.add_marker, MarkerTable.add_marker. destruct (MarkerTable.split_timing timing) as [[s e] ph] eqn:Et.
  destruct (MarkerTable.add_fields _ _ _ _ _ _ _) as [[[? ?] ?]|]; simpl; [|done].
  intros [= <- <-]. split; simpl; by rewrite Et.
Qed.
(** The timings of the markers of a thread, among markers of all threads. *)
Definition timings_of (h : ThreadHandle) (l : list (ThreadHandle * MarkerTiming)) : list MarkerTiming :=
  (filter (λ e, e.1 = h) l).*2.
Lemma timings_of_one h thread timing :
  timings_of h [(thread, timing)] = if decide (thread = h) then [timing] else [].
Proof. unfold timings_of. rewrite filter_cons, filter_nil. simpl. by destruct (decide (thread = h)). Qed.
(** Calls that add the markers [l], each at the end of its thread's table. *)
Record flushes (k : nat) (l : list (ThreadHandle * MarkerTiming)) (p p' : Profile) : Prop := {
  flushes_calls : by_calls k p p';
  flushes_markers : ∀ h th, threads p !! h = Some th → ∃ th', threads p' !! h = Some th' ∧
    appended (timings_of h l) (Thread.markers th) (Thread.markers th')
}.
Lemma flushes_quiet k p p' : by_calls k p p' → threads p' = threads p → flushes k [] p p'.
Proof.
  intros Hby Ht. split; [done|]. intros h th Hth. exists th. rewrite Ht. split; [done|].
  split; unfold timings_of; simpl; by rewrite app_nil_r.
Qed.
Lemma flushes_refl k p : flushes k [] p p.
Proof. apply flushes_quiet; [apply by_calls_refl|done]. Qed.
Lemma flushes_trans j k l1 l2 p1 p2 p3 :
  flushes j l1 p1 p2 → flushes k l2 p2 p3 → flushes (j + k) (l1 ++ l2) p1 p3.
Proof.
  intros [Hby1 H1] [Hby2 H2]. split; [by apply (by_calls_trans j k p1 p2 p3)|].
  intros h th Hth. destruct (H1 h th Hth) as (th2 & Hth2 & []). destruct (H2 h th2 Hth2) as (th3 & Hth3 & []).
  exists th3. split; [done|]. unfold timings_of in *. rewrite filter_app, fmap_app.
  split; rewrite fmap_app, app_assoc; congruence.
Qed.
Lemma flushes_weaken j k l p p' : (j ≤ k)%nat → flushes j l p p' → flushes k l p p'.
Proof. intros Hle [Hby H]. split; [by eapply by_calls_weaken|done]. Qed.
Lemma flushes_wf n k l p p' : flushes k l p p' → wf n p → Z.of_nat (n + k) < 2 ^ 32 → wf (n + k) p'.
Proof. intros [Hby _]. by apply by_calls_wf. Qed.
Lemma flushes_evolves k l p p' : flushes k l p p' → evolves p p'.
Proof. intros [Hby _]. by eapply by_calls_evolves. Qed.

Definition known_string (p : Profile) (h : StringHandle) : Prop :=
  is_Some (StringTable.get_string (string_table p) h).
Lemma known_string_evolves p p' h : evolves p p' → known_string p h → known_string p' h.
Proof.
  intros He [s Hs]. exists s. by eapply StringTable.get_string_extends; [apply (evolves_strings _ _ He)|].
Qed.

(** ** Strings, categories and types *)
Lemma intern_string_flushes n p s :
  wf n p → Z.of_nat (n + 1) < 2 ^ 32 →
  let '(p', h) := intern_string p s in flushes 1 [] p p' ∧ known_string p' h.
Proof.
  intros Hwf Hn. destruct (intern_string p s) as [p' h] eqn:Heq.
  destruct (intern_string_spec n p s p' h Hwf Hn Heq) as [Hby Hget]. split; [|by eexists].
  apply flushes_quiet; [done|]. unfold intern_string in Heq. destruct (StringTable.index_for_string _ _).
  by injection Heq as <- _.
Qed.
Lemma intern_strings_flushes n p l :
  wf n p → Z.of_nat (n + length l) < 2 ^ 32 →
  let '(p', hs) := intern_strings p l in
  flushes (length l) [] p p' ∧ Forall (known_string p') hs ∧ length hs = length l.
Proof.
  revert n p. induction l as [|s l IH]; intros n p Hwf Hn; simpl in *.
  { split_and!; [apply flushes_refl|done|done]. }
  pose proof (intern_string_flushes n p s Hwf) as H. destruct (intern_string p s) as [p1 h].
  destruct H as [Hf Hh]; [lia|]. pose proof (flushes_wf _ _ _ _ _ Hf Hwf ltac:(lia)) as Hwf1.
  specialize (IH (n + 1)%nat p1 Hwf1). destruct (intern_strings p1 l) as [p2 hs].
  destruct IH as (Hf2 & Hhs & Hlen); [lia|]. split_and!.
  - by apply (flushes_trans 1 _ [] [] p p1 p2).
  - constructor; [|done]. eapply known_string_evolves; [by eapply flushes_evolves|done].
  - simpl. by rewrite Hlen.
Qed.
Lemma category_handle_flushes handles category' p :
  flushes 0 [] p (category_handle handles category' p).1.2.
Proof.
  unfold category_handle. destruct (handles !! category'); [apply flushes_refl|].
  destruct (add_category p category' Green) as [p' h] eqn:Heq.
  destruct (add_category_spec _ _ _ _ _ Heq) as [Hby _]. cbn [fst snd]. apply flushes_quiet; [done|].
  by injection Heq as <- _.
Qed.
Lemma register_marker_type_flushes p sc :
  let '(p', h) := register_marker_type p sc in
  flushes 0 [] p p' ∧ marker_schemas p' !! h = Some (from_schema sc).
Proof.
  destruct (register_marker_type p sc) as [p' h] eqn:Heq. split.
  - apply flushes_quiet; [|by injection Heq as <- _].
    apply (by_call 0 (RegisterMarkerType sc)); try done. cbn [apply_op]. by rewrite Heq.
  - injection Heq as <- <-. simpl. unfold push. by rewrite lookup_snoc.
Qed.

(** ** One marker *)
Lemma registered_marker_flushes n p thread timing h sc name category' fields' :
  wf n p → (thread < length (threads p))%nat → known_string p name →
  marker_schemas p !! h = Some (from_schema sc) →
  (∀ i field, ms_fields sc !! i = Some field → MarkerTable.field_ok (string_table p) fields' i field) →
  Z.of_nat (n + (1 + length (ms_fields sc))) < 2 ^ 32 →
  ∃ p' handle, add_marker p thread timing (registered_marker h name category' fields') = Ok (p', handle) ∧
    flushes (1 + length (ms_fields sc)) [(thread, timing)] p p'.
Proof.
  intros Hwf Hth Hname Hsc Hfields Hn.
  set (o := AddMarker thread timing (Registered h) name category' fields').
  assert (op_valid o p) as Hv.
  { split_and!; [done|done|]. simpl. exists (from_schema sc). split; [done|]. exact Hfields. }
  assert (cost o p = 1 + length (ms_fields sc))%nat as Hc by (unfold o; simpl; by rewrite Hsc).
  destruct (op_ok n o p Hwf Hv) as (p' & Heq & Hwf'); [by rewrite Hc|].
  pose proof Heq as Hadd. cbn [apply_op o] in Hadd. apply fmap_Ok in Hadd as ([p'' handle] & Hadd & Hp).
  simpl in Hp. subst p''. exists p', handle. split; [exact Hadd|]. split.
  { apply (by_call _ o); [done..|lia]. }
  intros t th Ht. unfold add_marker in Hadd.
  cbn [marker_type marker_name marker_category marker_fields marker_of type_of_source] in Hadd.
  apply bind_Ok in Hadd as (th0 & Hr%index_Ok & Hadd). apply bind_Ok in Hadd as ([th1 i1] & Hr0 & Hadd).
  apply bind_Ok in Hadd as (sc1 & _ & Hadd). apply bind_Ok in Hadd as ([th2 i2] & Hr2 & Hadd).
  apply bind_Ok in Hadd as (ths & [_ ->]%index_set_Ok & Hadd). injection Hadd as <- _. cbn [threads with_threads].
  destruct (decide (t = thread)) as [->|Hne].
  2: { exists th. rewrite list_lookup_insert_ne by done. split; [done|].
       rewrite timings_of_one, decide_False by congruence. split; simpl; by rewrite app_nil_r. }
  rewrite list_lookup_insert_eq by done. eexists. split; [done|].
  rewrite timings_of_one, decide_True by done. apply convert_string_stacks in Hr0. assert (th0 = th) as -> by congruence.
  rewrite <-Hr0. by eapply thread_add_marker_appended.
Qed.

(** ** The fields of the markers of a marker file *)
Lemma extra_schema_string names j field (gst : StringTable.StringTable) fields' i :
  extra_schemas names !! j = Some field → is_Some (MarkerTable.field_string gst fields' i) →
  MarkerTable.field_ok gst fields' i field.
Proof. unfold extra_schemas. rewrite list_lookup_fmap_Some. by intros (s & -> & _) ?. Qed.
Lemma extra_schemas_length names : length (extra_schemas names) = length names.
Proof. unfold extra_schemas. by rewrite length_fmap. Qed.
Lemma extra_value_known p (extra : list StringHandle) j (names : list string) field :
  extra_schemas names !! j = Some field → length extra = length names → Forall (known_string p) extra →
  ∃ h, extra !! j = Some h ∧ known_string p h.
Proof.
  unfold extra_schemas. rewrite list_lookup_fmap_Some. intros (s & _ & Hj) Hlen Hall.
  apply lookup_lt_Some in Hj. destruct (lookup_lt_is_Some_2 extra j) as [h Hh]; [lia|].
  exists h. split; [done|]. by eapply Forall_lookup.
Qed.
Lemma span_fields_ok p t name extra names :
  known_string p name → Forall (known_string p) extra → length extra = length names →
  Z.of_nat (3 + length names) < 2 ^ 32 →
  ∀ i field, ms_fields (span_schema names) !! i = Some field →
    MarkerTable.field_ok (string_table p) (span_fields t name extra) i field.
Proof.
  intros Hname Hextra Hlen Hn i field Hi.
  destruct i as [|[|[|j]]]; simpl in Hi; [injection Hi as <-; by eexists..|injection Hi as <-; exact Hname|].
  apply (extra_schema_string names j); [done|].
  destruct (extra_value_known p extra j names field Hi Hlen Hextra) as (h & Hj & Hh).
  apply lookup_lt_Some in Hj as Hlt. unfold MarkerTable.field_string. simpl.
  rewrite u32_of_usize_id by lia. destruct (Z.eqb_spec (Z.of_nat (S (S (S j)))) 2); [lia|].
  destruct (Z.ltb_spec (Z.of_nat (S (S (S j)))) 3); [lia|].
  replace (Z.to_nat (Z.of_nat (S (S (S j))) - 3)) with j by lia. rewrite Hj. exact Hh.
Qed.
Lemma event_fields_ok p message' extra names :
  known_string p message' → Forall (known_string p) extra → length extra = length names →
  Z.of_nat (1 + length names) < 2 ^ 32 →
  ∀ i field, ms_fields (event_schema names) !! i = Some field →
    MarkerTable.field_ok (string_table p) (event_fields message' extra) i field.
Proof.
  intros Hname Hextra Hlen Hn i field Hi.
  destruct i as [|j]; simpl in Hi; [injection Hi as <-; exact Hname|].
  apply (extra_schema_string names j); [done|].
  destruct (extra_value_known p extra j names field Hi Hlen Hextra) as (h & Hj & Hh).
  apply lookup_lt_Some in Hj as Hlt. unfold MarkerTable.field_string. simpl.
  rewrite u32_of_usize_id by lia. destruct (Z.eqb_spec (Z.of_nat (S j)) 0); [lia|].
  destruct (Z.ltb_spec (Z.of_nat (S j)) 1); [lia|].
  replace (Z.to_nat (Z.of_nat (S j) - 1)) with j by lia. rewrite Hj. exact Hh.
Qed.

(** ** Marker types *)
Definition field_names (m : EventOrSpanMarker) : list string := (sorted_fields (extra_fields m)).*1.
Definition field_values (m : EventOrSpanMarker) : list string := (sorted_fields (extra_fields m)).*2.
Definition is_span (m : EventOrSpanMarker) : bool :=
  match marker_data m with Span _ => true | Event => false end.
(** Markers of a kind whose field names look the same when joined have equally
    many fields. *)
Definition consistent (l : list EventOrSpanMarker) : Prop :=
  ∀ m1 m2, m1 ∈ l → m2 ∈ l → is_span m1 = is_span m2 →
    join (field_names m1) "_" = join (field_names m2) "_" → length (field_names m1) = length (field_names m2).
Lemma field_values_length m : length (field_values m) = length (field_names m).
Proof. unfold field_values, field_names. by rewrite !length_fmap. Qed.
Lemma field_names_size m : length (field_names m) = size (extra_fields m).
Proof.
  unfold field_names, sorted_fields. rewrite length_fmap.
  rewrite (Permutation_length (stable_sort_permutation _ _)). by rewrite length_map_to_list.
Qed.

(** The types are of the fields of a marker with that name. *)
Definition types_ok (l : list EventOrSpanMarker) (span : bool) (p : Profile)
    (types : gmap string MarkerTypeHandle) : Prop :=
  ∀ name h, types !! name = Some h → ∃ m, m ∈ l ∧ is_span m = span ∧ join (field_names m) "_" = name ∧
    marker_schemas p !! h =
      Some (from_schema (if span then span_schema (field_names m) else event_schema (field_names m))).
Lemma types_ok_evolves l span p p' types : evolves p p' → types_ok l span p types → types_ok l span p' types.
Proof.
  intros He Ht name h Hh. destruct (Ht name h Hh) as (m & ? & ? & ? & Hs). exists m. split_and!; [done..|].
  by eapply prefix_lookup_Some; [|apply (evolves_schemas _ _ He)].
Qed.
Lemma marker_type_for_ok l p types m :
  types_ok l (is_span m) p types → m ∈ l →
  let '(types', p', h) := marker_type_for types (join (field_names m) "_")
    (if is_span m then span_schema (field_names m) else event_schema (field_names m)) p in
  flushes 0 [] p p' ∧ types_ok l (is_span m) p' types' ∧
  ∃ m0, m0 ∈ l ∧ is_span m0 = is_span m ∧ join (field_names m0) "_" = join (field_names m) "_" ∧
    marker_schemas p' !! h =
      Some (from_schema (if is_span m then span_schema (field_names m0) else event_schema (field_names m0))).
Proof.
  intros Ht Hm. unfold marker_type_for. destruct (types !! _) as [h|] eqn:Eh.
  { split_and!; [apply flushes_refl|done|]. by apply Ht. }
  set (sc := if is_span m then _ else _).
  pose proof (register_marker_type_flushes p sc) as Hr. destruct (register_marker_type p sc) as [p' h].
  destruct Hr as [Hf Hs]. split_and!; [done| |by exists m].
  intros name h' [[<- <-]|[_ Hh]]%lookup_insert_Some; [by exists m|].
  eapply types_ok_evolves; [by eapply flushes_evolves|done|done].
Qed.

(** ** New markers *)
Lemma new_span_marker_flushes n p m span handles type values :
  wf n p → Z.of_nat (n + (2 + length values)) < 2 ^ 32 →
  let '(p', _, marker) := new_span_marker p m span handles type values in
  flushes (2 + length values) [] p p' ∧ ∃ label category' name extra,
    marker = registered_marker type label category' (span_fields (timings span) name extra) ∧
    known_string p' label ∧ known_string p' name ∧ Forall (known_string p') extra ∧
    length extra = length values.
Proof.
  intros Hwf Hn. unfold new_span_marker.
  pose proof (intern_string_flushes n p (default (span_type_text (span_type span)) (profiler_label span)) Hwf)
    as H1.
  destruct (intern_string p _) as [p1 label]. destruct H1 as [Hf1 Hl]; [lia|].
  pose proof (flushes_wf _ _ _ _ _ Hf1 Hwf ltac:(lia)) as Hwf1.
  pose proof (category_handle_flushes handles (category span) p1) as Hf2.
  destruct (category_handle handles _ p1) as [[handles' p2] cat]. cbn [fst snd] in Hf2.
  pose proof (flushes_wf _ _ _ _ _ Hf2 Hwf1 ltac:(lia)) as Hwf2. rewrite Nat.add_0_r in Hwf2.
  pose proof (intern_strings_flushes _ p2 values Hwf2) as H3.
  destruct (intern_strings p2 values) as [p3 extra]. destruct H3 as (Hf3 & Hextra & Hlen); [lia|].
  pose proof (flushes_wf _ _ _ _ _ Hf3 Hwf2 ltac:(lia)) as Hwf3.
  pose proof (intern_string_flushes _ p3 (message m) Hwf3) as H4.
  destruct (intern_string p3 _) as [p4 name]. destruct H4 as [Hf4 Hname]; [lia|].
  pose proof (flushes_trans _ _ _ _ _ _ _ Hf3 Hf4) as Hf34.
  pose proof (flushes_trans _ _ _ _ _ _ _ Hf2 Hf34) as Hf24.
  split. { eapply flushes_weaken; [|exact (flushes_trans _ _ _ _ _ _ _ Hf1 Hf24)]. lia. }
  exists label, cat, name, extra. split_and!; [done| |done| |done].
  - eapply known_string_evolves; [exact (flushes_evolves _ _ _ _ Hf24)|done].
  - eapply Forall_impl; [done|]. intros h. by eapply known_string_evolves, flushes_evolves.
Qed.
Lemma new_event_marker_flushes n p category' m type values :
  wf n p → Z.of_nat (n + (2 + length values)) < 2 ^ 32 →
  let '(p', marker) := new_event_marker p category' m type values in
  flushes (2 + length values) [] p p' ∧ ∃ label message' extra,
    marker = registered_marker type label category' (event_fields message' extra) ∧
    known_string p' label ∧ known_string p' message' ∧ Forall (known_string p') extra ∧
    length extra = length values.
Proof.
  intros Hwf Hn. unfold new_event_marker.
  pose proof (intern_strings_flushes _ p values Hwf) as H1.
  destruct (intern_strings p values) as [p1 extra]. destruct H1 as (Hf1 & Hextra & Hlen); [lia|].
  pose proof (flushes_wf _ _ _ _ _ Hf1 Hwf ltac:(lia)) as Hwf1.
  pose proof (intern_string_flushes _ p1 (message m) Hwf1) as H2.
  destruct (intern_string p1 _) as [p2 message']. destruct H2 as [Hf2 Hmessage]; [lia|].
  pose proof (flushes_wf _ _ _ _ _ Hf2 Hwf1 ltac:(lia)) as Hwf2.
  pose proof (intern_string_flushes _ p2 (target m) Hwf2) as H3.
  destruct (intern_string p2 _) as [p3 label]. destruct H3 as [Hf3 Hlabel]; [lia|].
  pose proof (flushes_trans _ _ _ _ _ _ _ Hf2 Hf3) as Hf23.
  split. { eapply flushes_weaken; [|exact (flushes_trans _ _ _ _ _ _ _ Hf1 Hf23)]. lia. }
  exists label, message', extra. split_and!; [done|done| | |done].
  - eapply known_string_evolves; [exact (flushes_evolves _ _ _ _ Hf3)|done].
  - eapply Forall_impl; [done|]. intros h. eapply known_string_evolves, flushes_evolves. exact Hf23.
Qed.

(** A new marker of a type that was looked up before it. *)
Lemma typed_marker_flushes n p p1 p2 k thread timing type sc label category' fields' :
  wf n p → flushes 0 [] p p1 → flushes k [] p1 p2 → (thread < length (threads p))%nat →
  marker_schemas p1 !! type = Some (from_schema sc) → known_string p2 label →
  (∀ i field, ms_fields sc !! i = Some field → MarkerTable.field_ok (string_table p2) fields' i field) →
  Z.of_nat (n + (k + (1 + length (ms_fields sc)))) < 2 ^ 32 →
  ∃ p3 handle, add_marker p2 thread timing (registered_marker type label category' fields') = Ok (p3, handle) ∧
    flushes (k + (1 + length (ms_fields sc))) [(thread, timing)] p p3 ∧ evolves p1 p3.
Proof.
  intros Hwf Hf1 Hf2 Hth Hs Hl Hfields Hn. pose proof (flushes_trans _ _ _ _ _ _ _ Hf1 Hf2) as Hf12.
  pose proof (flushes_evolves _ _ _ _ Hf2) as He2. pose proof (flushes_evolves _ _ _ _ Hf12) as He12.
  destruct (registered_marker_flushes (n + (0 + k)) p2 thread timing type sc label category' fields')
    as (p3 & handle & -> & Hf3).
  - eapply flushes_wf; [done..|lia].
  - pose proof (evolves_threads _ _ He12). lia.
  - done.
  - by eapply prefix_lookup_Some; [|apply (evolves_schemas _ _ He2)].
  - done.
  - lia.
  - exists p3, handle. split_and!; [done| |].
    + exact (flushes_trans _ _ _ _ _ _ _ Hf12 Hf3).
    + etrans; [exact He2|by eapply flushes_evolves].
Qed.

(** ** The loop over the markers *)
Definition marker_timing (m : EventOrSpanMarker) : MarkerTiming :=
  match marker_data m with
  | Span span => Interval (start_time m) (end_time span)
  | Event => Instant (start_time m)
  end.
Definition placed (m : MarkerOnThread) : ThreadHandle * MarkerTiming :=
  (marker_thread m, marker_timing (event_or_span m)).
Definition marker_room (m : MarkerOnThread) : nat := 6 + 2 * size (extra_fields (event_or_span m)).
Definition total_time (l : list MarkerOnThread) : Z := foldr (λ m z, marker_time (event_or_span m) + z) 0 l.

Record flushing_ok (l : list EventOrSpanMarker) (rest : list MarkerOnThread) (f : Flushing) : Prop := {
  flushing_spans : types_ok l true (profile f) (span_marker_types f);
  flushing_events : types_ok l false (profile f) (event_marker_types f);
  flushing_stats : stats_ok (stats f);
  flushing_time : total (stats f) + total_time rest < duration_limit
}.
Lemma marker_time_nonneg m : timings_ok m → 0 ≤ marker_time m.
Proof. unfold timings_ok, marker_time. destruct (marker_data m); [|done]. intros [[] _]. unfold amount. lia. Qed.
Lemma total_time_nonneg rest : Forall (λ m, timings_ok (event_or_span m)) rest → 0 ≤ total_time rest.
Proof. induction 1 as [|m rest Hm _ IH]; simpl; [lia|]. pose proof (marker_time_nonneg _ Hm). lia. Qed.

Lemma flush_marker_ok n logging_category l f m rest :
  wf n (profile f) → flushing_ok l (m :: rest) f → consistent l → event_or_span m ∈ l →
  Forall (λ m, timings_ok (event_or_span m)) (m :: rest) →
  (marker_thread m < length (threads (profile f)))%nat → Z.of_nat (n + marker_room m) < 2 ^ 32 →
  ∃ f', flush_marker logging_category f m = Ok f' ∧
    flushes (marker_room m) [placed m] (profile f) (profile f') ∧ flushing_ok l rest f'.
Proof.
  intros Hwf [] Hcons Hm [Htime Hrest]%Forall_cons Hth Hn. simpl in *.
  pose proof (total_time_nonneg _ Hrest). unfold flush_marker.
  destruct (process_span_ok (stats f) (event_or_span m)) as (st & -> & Hst & Htot); [done|done|lia|].
  cbn [mbind res_bind]. fold (field_names (event_or_span m)) (field_values (event_or_span m)).
  assert (total st + total_time rest < duration_limit) by lia.
  pose proof (field_values_length (event_or_span m)) as Hvl.
  pose proof (field_names_size (event_or_span m)) as Hsize. unfold marker_room, placed, marker_timing in *.
  pose proof (λ types Ht, marker_type_for_ok l (profile f) types (event_or_span m) Ht Hm) as Htype.
  unfold consistent, is_span in *.
  assert (∀ m0, m0 ∈ l → match marker_data m0 with Span _ => true | Event => false end = match marker_data (event_or_span m) with Span _ => true | Event => false end →
    join (field_names m0) "_" = join (field_names (event_or_span m)) "_" →
    length (field_names m0) = length (field_names (event_or_span m))) as Hlen by (intros; by apply Hcons).
  destruct (marker_data (event_or_span m)) as [span|] eqn:Ed.
  - specialize (Htype _ flushing_spans0).
    destruct (marker_type_for (span_marker_types f) _ _ _) as [[types p1] type].
    destruct Htype as (Hf1 & Htypes & m0 & Hm0 & Hk0 & Hj0 & Hs0).
    specialize (Hlen m0 Hm0 Hk0 Hj0).
    pose proof (flushes_wf _ _ _ _ _ Hf1 Hwf ltac:(lia)) as Hwf1. rewrite Nat.add_0_r in Hwf1.
    pose proof (new_span_marker_flushes n p1 (event_or_span m) span (category_handles f) type
      (field_values (event_or_span m)) Hwf1 ltac:(lia)) as Hnew.
    destruct (new_span_marker _ _ _ _ _ _) as [[p2 handles] marker].
    destruct Hnew as (Hf2 & label & cat & name & extra & -> & Hlabel & Hname & Hextra & Hel).
    destruct (typed_marker_flushes n (profile f) p1 p2 _ (marker_thread m)
      (Interval (start_time (event_or_span m)) (end_time span)) type (span_schema (field_names m0)) label cat
      (span_fields (timings span) name extra) Hwf Hf1 Hf2 Hth Hs0 Hlabel) as (p3 & handle & -> & Hf & He).
    { apply span_fields_ok; [done|done|lia|lia]. }
    { simpl. rewrite extra_schemas_length. lia. }
    cbn [mbind res_bind]. eexists. split; [done|]. split.
    + eapply flushes_weaken; [|exact Hf]. simpl. rewrite extra_schemas_length. lia.
    + split; simpl; [by eapply types_ok_evolves| |done|done].
      eapply types_ok_evolves; [by eapply flushes_evolves|done].
  - specialize (Htype _ flushing_events0).
    destruct (marker_type_for (event_marker_types f) _ _ _) as [[types p1] type].
    destruct Htype as (Hf1 & Htypes & m0 & Hm0 & Hk0 & Hj0 & Hs0).
    specialize (Hlen m0 Hm0 Hk0 Hj0).
    pose proof (flushes_wf _ _ _ _ _ Hf1 Hwf ltac:(lia)) as Hwf1. rewrite Nat.add_0_r in Hwf1.
    pose proof (new_event_marker_flushes n p1 logging_category (event_or_span m) type
      (field_values (event_or_span m)) Hwf1 ltac:(lia)) as Hnew.
    destruct (new_event_marker _ _ _ _ _) as [p2 marker].
    destruct Hnew as (Hf2 & label & name & extra & -> & Hlabel & Hname & Hextra & Hel).
    destruct (typed_marker_flushes n (profile f) p1 p2 _ (marker_thread m)
      (Instant (start_time (event_or_span m))) type (event_schema (field_names m0)) label logging_category
      (event_fields name extra) Hwf Hf1 Hf2 Hth Hs0 Hlabel) as (p3 & handle & -> & Hf & He).
    { apply event_fields_ok; [done|done|lia|lia]. }
    { simpl. rewrite extra_schemas_length. lia. }
    cbn [mbind res_bind]. eexists. split; [done|]. split.
    + eapply flushes_weaken; [|exact Hf]. simpl. rewrite extra_schemas_length. lia.
    + split; simpl; [|by eapply types_ok_evolves|done|done].
      eapply types_ok_evolves; [by eapply flushes_evolves|done].
Qed.
Lemma flush_markers_ok n logging_category l f rest :
  wf n (profile f) → flushing_ok l rest f → consistent l →
  Forall (λ m, timings_ok (event_or_span m) ∧ event_or_span m ∈ l ∧
    (marker_thread m < length (threads (profile f)))%nat) rest →
  Z.of_nat (n + sum_list_with marker_room rest) < 2 ^ 32 →
  ∃ f', flush_markers logging_category f rest = Ok f' ∧
    flushes (sum_list_with marker_room rest) (placed <$> rest) (profile f) (profile f') ∧
    flushing_ok l [] f'.
Proof.
  revert n f. induction rest as [|m rest IH]; intros n f Hwf Hok Hcons Hall Hn; cbn [flush_markers].
  { exists f. split_and!; [done|apply flushes_refl|done]. }
  cbn [sum_list_with] in Hn. pose proof Hall as [(_ & Hm & Hth) Hrest]%Forall_cons.
  destruct (flush_marker_ok n logging_category l f m rest) as (f1 & -> & Hf1 & Hok1); [done..| |done|lia|].
  { eapply Forall_impl; [exact Hall|]. by intros x []. }
  cbn [mbind res_bind]. destruct (IH (n + marker_room m)%nat f1) as (f' & -> & Hf2 & Hok2).
  - eapply flushes_wf; [done..|lia].
  - done.
  - done.
  - eapply Forall_impl; [exact Hrest|]. intros x (? & ? & ?). split_and!; [done..|].
    pose proof (evolves_threads _ _ (flushes_evolves _ _ _ _ Hf1)). lia.
  - lia.
  - exists f'. split_and!; [done| |done]. simpl.
    exact (flushes_trans _ _ [placed m] (placed <$> rest) _ _ _ Hf1 Hf2).
Qed.

(** ** The loop over the counters *)
Definition counter_room (c : CounterOnThread) : nat := 3 * length (CounterFile.samples (counter c)).
Definition is_custom (c : CounterFile.Counter) : bool :=
  match CounterFile.category c with CounterFile.Custom => true | _ => false end.
Definition counter_markers (c : CounterOnThread) : list (ThreadHandle * MarkerTiming) :=
  if is_custom (counter c) then
    (λ s, (counter_thread c, Instant (CounterFile.timestamp s))) <$> CounterFile.samples (counter c)
  else [].

Lemma flush_custom_samples_ok n thread name type sc p samples :
  wf n p → (thread < length (threads p))%nat → marker_schemas p !! type = Some (from_schema sc) →
  (∃ k l, ms_fields sc = [{| key := k; label := l; format := Decimal; searchable := false |}]) →
  Z.of_nat (n + 3 * length samples) < 2 ^ 32 →
  ∃ p', flush_custom_samples thread name type p samples = Ok p' ∧
    flushes (3 * length samples) ((λ s, (thread, Instant (CounterFile.timestamp s))) <$> samples) p p'.
Proof.
  intros Hwf Hth Hs (k & l & Hsc) Hn.
  revert n p Hwf Hth Hs Hn. induction samples as [|s samples IH]; intros n p Hwf Hth Hs Hn;
    cbn [flush_custom_samples].
  { exists p. split; [done|apply flushes_refl]. }
  cbn [length] in Hn. pose proof (intern_string_flushes n p name Hwf ltac:(lia)) as H1.
  destruct (intern_string p name) as [p1 handle]. destruct H1 as [Hf1 Hh].
  destruct (typed_marker_flushes n p p p1 1 thread (Instant (CounterFile.timestamp s)) type sc handle
    CategoryHandle_OTHER (custom_graph_fields (CounterFile.value s)) Hwf (flushes_refl 0 p) Hf1 Hth Hs Hh)
    as (p2 & i & -> & Hf2 & He).
  { rewrite Hsc. intros [|j] field Hj; [|done]. injection Hj as <-. by eexists. }
  { rewrite Hsc. simpl. lia. }
  rewrite Hsc in Hf2. simpl in Hf2. cbn [mbind res_bind].
  destruct (IH (n + 3)%nat p2) as (p' & -> & Hf3).
  - eapply flushes_wf; [done..|lia].
  - pose proof (evolves_threads _ _ He). lia.
  - by eapply prefix_lookup_Some; [|apply (evolves_schemas _ _ He)].
  - lia.
  - exists p'. split; [done|]. eapply flushes_weaken; [|exact (flushes_trans _ _ _ _ _ _ _ Hf2 Hf3)].
    simpl. lia.
Qed.
Lemma flush_counter_samples_ok n handle p samples :
  wf n p → Z.of_nat n < 2 ^ 32 → (handle < length (Profile.counters p))%nat →
  ∃ p', flush_counter_samples handle p samples = Ok p' ∧ flushes 0 [] p p'.
Proof.
  revert p. induction samples as [|s samples IH]; intros p Hwf Hn Hh; cbn [flush_counter_samples].
  { exists p. split; [done|apply flushes_refl]. }
  set (o := AddCounterSample handle (CounterFile.timestamp s) (CounterFile.value s)
              (CounterFile.modification_count s)).
  destruct (op_ok n o p Hwf Hh) as (p1 & Heq & Hwf1); [simpl; lia|]. pose proof Heq as Hadd.
  cbn [apply_op o] in Heq. rewrite Heq. cbn [mbind res_bind].
  assert (flushes 0 [] p p1) as Hf1.
  { apply flushes_quiet; [by apply (by_call 0 o)|]. unfold add_counter_sample in Heq.
    apply bind_Ok in Heq as (? & _ & Heq). apply bind_Ok in Heq as (? & _ & Heq). by injection Heq as <-. }
  destruct (IH p1) as (p' & -> & Hf2).
  - simpl in Hwf1. by rewrite Nat.add_0_r in Hwf1.
  - done.
  - pose proof (evolves_counters _ _ (flushes_evolves _ _ _ _ Hf1)). lia.
  - exists p'. split; [done|]. exact (flushes_trans 0 0 [] [] _ _ _ Hf1 Hf2).
Qed.
Lemma flush_counter_ok n process' p c :
  wf n p → (process' < length (processes p))%nat → (counter_thread c < length (threads p))%nat →
  Z.of_nat (n + counter_room c) < 2 ^ 32 →
  ∃ p', flush_counter process' p c = Ok p' ∧ flushes (counter_room c) (counter_markers c) p p'.
Proof.
  intros Hwf Hp Hth Hn. unfold flush_counter, counter_room, counter_markers, is_custom in *.
  assert (∀ name category' description' color',
    ∃ p', ('(p1, handle) ← add_counter p process' name category' description' color';
           flush_counter_samples handle p1 (CounterFile.samples (counter c))) = Ok p' ∧
      flushes (3 * length (CounterFile.samples (counter c))) [] p p') as Hplain.
  { intros name category' description' color'.
    set (o := AddCounter process' name category' description' color').
    destruct (op_ok n o p Hwf Hp) as (p1 & Heq & Hwf1); [simpl; lia|]. pose proof Heq as Hadd.
    cbn [apply_op o] in Heq. apply fmap_Ok in Heq as ([p1' h] & Heq & ?). simpl in *. subst p1'.
    assert (h < length (Profile.counters p1))%nat.
    { unfold add_counter in Heq. apply bind_Ok in Heq as (? & _ & Heq). injection Heq as <- <-. simpl.
      unfold push. rewrite length_app. simpl. lia. }
    assert (flushes 0 [] p p1) as Hf1.
    { apply flushes_quiet; [by apply (by_call 0 o)|]. unfold add_counter in Heq.
      apply bind_Ok in Heq as (? & _ & Heq). by injection Heq as <- <-. }
    rewrite Heq. cbn [mbind res_bind].
    destruct (flush_counter_samples_ok (n + 0) h p1 (CounterFile.samples (counter c))) as (p' & -> & Hf2);
      [done|lia|done|].
    exists p'. split; [done|]. eapply flushes_weaken; [|exact (flushes_trans _ _ _ _ _ _ _ Hf1 Hf2)]. lia. }
  destruct (CounterFile.category (counter c)); try by apply Hplain.
  pose proof (register_marker_type_flushes p (custom_graph_schema (counter c))) as Hr.
  destruct (register_marker_type p _) as [p1 type]. destruct Hr as [Hf1 Hs].
  destruct (flush_custom_samples_ok (n + 0) (counter_thread c) (CounterFile.name (counter c)) type
    (custom_graph_schema (counter c)) p1 (CounterFile.samples (counter c))) as (p' & -> & Hf2).
  - eapply flushes_wf; [done..|lia].
  - pose proof (evolves_threads _ _ (flushes_evolves _ _ _ _ Hf1)). lia.
  - done.
  - by eexists _, _.
  - lia.
  - exists p'. split; [done|]. exact (flushes_trans 0 _ [] _ _ _ _ Hf1 Hf2).
Qed.
Lemma flush_counters_ok n process' p l :
  wf n p → (process' < length (processes p))%nat →
  Forall (λ c, counter_thread c < length (threads p))%nat l →
  Z.of_nat (n + sum_list_with counter_room l) < 2 ^ 32 →
  ∃ p', flush_counters process' p l = Ok p' ∧
    flushes (sum_list_with counter_room l) (l ≫= counter_markers) p p'.
Proof.
  revert n p. induction l as [|c l IH]; intros n p Hwf Hp Hth Hn; cbn [flush_counters].
  { exists p. split; [done|apply flushes_refl]. }
  cbn [sum_list_with] in Hn. apply Forall_cons in Hth as [Hc Hth].
  destruct (flush_counter_ok n process' p c) as (p1 & -> & Hf1); [done..|lia|]. cbn [mbind res_bind].
  pose proof (flushes_evolves _ _ _ _ Hf1) as He.
  destruct (IH (n + counter_room c)%nat p1) as (p' & -> & Hf2).
  - eapply flushes_wf; [done..|lia].
  - pose proof (evolves_processes _ _ He). lia.
  - eapply Forall_impl; [exact Hth|]. simpl. intros x Hx. pose proof (evolves_threads _ _ He). lia.
  - lia.
  - exists p'. split; [done|]. exact (flushes_trans _ _ _ _ _ _ _ Hf1 Hf2).
Qed.

(** * Flushing markers and counters *)
Definition room (d : ProcessSampleData) : nat :=
  sum_list_with marker_room (markers d) + sum_list_with counter_room (counters d).
(** What the flush relies on: handles of the profile, durations that add up to
    less than the limit, and no two kinds of fields with one joined name. *)
Record flushable (p : Profile) (d : ProcessSampleData) : Prop := {
  flushable_process : (process d < length (processes p))%nat;
  flushable_markers : Forall (λ m, timings_ok (event_or_span m) ∧
    (marker_thread m < length (threads p))%nat) (markers d);
  flushable_counters : Forall (λ c, counter_thread c < length (threads p))%nat (counters d);
  flushable_names : consistent (event_or_span <$> markers d);
  flushable_time : total_time (markers d) < duration_limit
}.

Lemma flush_markers_and_counters_ok n p d :
  wf n p → flushable p d → Z.of_nat (n + room d) < 2 ^ 32 →
  ∃ p', flush_markers_and_counters d p = Ok p' ∧
    flushes (room d) ((placed <$> markers d) ++ (counters d ≫= counter_markers)) p p'.
Proof.
  intros Hwf [Hp Hm Hc Hnames Htime] Hn. unfold room in *.
  unfold flush_markers_and_counters.
  destruct (add_category p "(Logging)" Green) as [p1 logging_category] eqn:Hcat.
  assert (flushes 0 [] p p1) as Hf1.
  { destruct (add_category_spec _ _ _ _ _ Hcat) as [Hby _]. apply flushes_quiet; [done|].
    by injection Hcat as <- _. }
  pose proof (flushes_wf _ _ _ _ _ Hf1 Hwf ltac:(lia)) as Hwf1.
  pose proof (evolves_threads _ _ (flushes_evolves _ _ _ _ Hf1)) as Hth1.
  set (f0 := {| profile := p1; category_handles := ∅; span_marker_types := ∅; event_marker_types := ∅; stats := ∅ |}).
  destruct (flush_markers_ok (n + 0) logging_category (event_or_span <$> markers d) f0 (markers d))
    as (f & -> & Hf2 & Hok).
  - done.
  - split; simpl; [by intros ? ?|by intros ? ?|by apply map_Forall_empty|by rewrite total_empty].
  - done.
  - rewrite Forall_forall in Hm |- *. intros m Hin. destruct (Hm m Hin).
    split_and!; [done|by apply list_elem_of_fmap_2|simpl; lia].
  - lia.
  - cbn [mbind res_bind]. destruct Hok as [_ _ Hst Hlim]. simpl in Hlim, Hf2.
    assert ((if decide (stats f = ∅) then Ok tt else dump (stats f)) = Ok tt) as ->.
    { destruct (decide _); [done|]. apply dump_ok; [done|lia]. }
    cbn [mbind res_bind]. pose proof (flushes_trans _ _ _ _ _ _ _ Hf1 Hf2) as Hf12.
    pose proof (flushes_evolves _ _ _ _ Hf12) as He.
    destruct (flush_counters_ok (n + (0 + sum_list_with marker_room (markers d))) (process d) (profile f)
      (counters d)) as (p' & -> & Hf3).
    + eapply flushes_wf; [done..|lia].
    + pose proof (evolves_processes _ _ He). lia.
    + eapply Forall_impl; [exact Hc|]. simpl. intros c Hlt. pose proof (evolves_threads _ _ He). lia.
    + lia.
    + exists p'. split; [done|]. exact (flushes_trans _ _ _ _ _ _ _ Hf12 Hf3).
Qed.

(** C37: flushing the markers and counters of a process is, without a panic, a
    sequence of valid calls of the profile; every marker of the marker files and
    every sample of a custom graph becomes one marker of its thread, in the order
    they were read, after the markers that were there, with its start and end
    time. This holds if markers of a kind whose field names are the same when joined
    have equally many fields ([joined_names_panic] shows why), statistics labels have
    a dash and times are not negative, as marker files make them, and add up to less
    than a [Duration] can hold, the threads exist ([flushable]), and the tables do not
    grow past 32 bits. *)
Theorem markers_flushed (n : nat) (p : Profile) (d : ProcessSampleData) :
  wf n p → flushable p d → Z.of_nat (n + room d) < 2 ^ 32 →
  ∃ p', flush_markers_and_counters d p = Ok p' ∧ by_calls (room d) p p' ∧
    ∀ h th, threads p !! h = Some th → ∃ th', threads p' !! h = Some th' ∧
      appended (timings_of h ((placed <$> markers d) ++ (counters d ≫= counter_markers)))
        (Thread.markers th) (Thread.markers th').
Proof.
  intros Hwf Hd Hn. destruct (flush_markers_and_counters_ok n p d Hwf Hd Hn) as (p' & Heq & []).
  by exists p'.
Qed.
End calls.

(** ** Examples *)
#[local] Existing Instance string_debug_ids.
#[local] Definition example_start : Profile := new "example" (f64_of_Z 0) 1000000.
#[local] Definition example_calls : list op :=
  [AddProcess "p" 1 {| nanos := 0 |}; AddThread 0%nat 1 {| nanos := 0 |} true; AddThread 0%nat 2 {| nanos := 0 |} false].
#[local] Definition example_profile : Profile := 
  match run example_calls example_start with Ok p => p | Panic => example_start end.
#[local] Definition event (fields : list (string * string)) : EventOrSpanMarker :=
  {| start_time := {| nanos := 5 |}; message := "m"; target := "t"; extra_fields := list_to_map fields; marker_data := Event |}.
#[local] Definition span (fields : list (string * string)) : EventOrSpanMarker :=
  {| start_time := {| nanos := 7 |}; message := "m"; target := "t"; extra_fields := list_to_map fields;
     marker_data := Span {| span_type := Total; end_time := {| nanos := 9 |};
       timings := {| time_busy := 4; time_idle := 3 |}; category := "c"; profiler_label := None;
       stats_label := Some "read-table" |} |}.
#[local] Definition on_thread (h : ThreadHandle) (m : EventOrSpanMarker) : MarkerOnThread :=
  {| marker_thread := h; event_or_span := m |}.
#[local] Definition example_counter (category' : CounterFile.CounterCategory) : CounterOnThread :=
  {| counter_thread := 1%nat;
     counter := {| CounterFile.name := "n"; CounterFile.category := category';
       CounterFile.description := "d"; CounterFile.color := None;
       CounterFile.samples := [{| CounterFile.timestamp := {| nanos := 6 |}; CounterFile.value := f64_of_Z 1;
         CounterFile.modification_count := 1 |}] |} |}.
#[local] Definition example_data (l : list MarkerOnThread) : ProcessSampleData :=
  {| unresolved_samples := {| UnresolvedSamples.samples_and_markers := [];
                              UnresolvedSamples.prev_sample_info_per_thread := ∅ |};
     regular_lib_mapping_op_queue := [];
     jitdump_lib_mapping_op_queues := []; perf_map_mappings := None; markers := l;
     counters := [example_counter CounterFile.Custom; example_counter CounterFile.Memory]; process := 0%nat |}.
#[local] Definition example_markers : list MarkerOnThread :=
  [on_thread 0%nat (event [("a", "1"); ("b", "2")]); on_thread 1%nat (span [("a_b", "3")])].

Lemma example_profile_wf : wf 0 example_profile.
Proof.
  destruct (run_cost_wf 0 example_calls example_start) as (p & Hrun & Hp).
  - apply wf_new_profile.
  - apply run_check_sound. by vm_compute.
  - unfold example_profile. rewrite Hrun. exact Hp.
Qed.
Lemma example_threads : length (threads example_profile) = 2%nat.
Proof. by vm_compute. Qed.
Lemma markers_flushed_witness :
  ∃ p', flush_markers_and_counters (example_data example_markers) example_profile = Ok p' ∧
    by_calls 24 example_profile p'.
Proof.
  destruct (markers_flushed 0 example_profile (example_data example_markers) example_profile_wf)
    as (p' & Heq & Hby & _).
  - split.
    + vm_compute. lia.
    + cbn [markers example_data]. rewrite example_threads.
      apply Forall_cons. split; [split; [done|simpl; lia]|]. apply Forall_cons. split; [|done].
      split; [|simpl; lia]. split; [by split|]. intros label [= <-]. by eexists.
    + cbn [counters example_data]. rewrite example_threads. repeat constructor.
    + intros m1 m2 H1 H2 Hk _. simpl in H1, H2.
      repeat (apply elem_of_cons in H1 as [->|H1]; [|]); try by apply elem_of_nil in H1.
      all: repeat (apply elem_of_cons in H2 as [->|H2]; [|]); try by apply elem_of_nil in H2.
      all: done.
    + by vm_compute.
  - by vm_compute.
  - exists p'. split; [exact Heq|]. exact Hby.
Defined.

(** Field names that look the same when joined: a type is made for two extra
    fields, and a later marker has only one. *)
Lemma joined_names_panic :
  flush_markers_and_counters
    (example_data [on_thread 0%nat (event [("a", "1"); ("b", "2")]); on_thread 0%nat (event [("a_b", "3")])])
    example_profile = Panic.
Proof. by vm_compute. Qed.
End FlushMarkers.
