(* ===== verification/Recycling.v ===== *)
(** Reuse of exited processes, threads and JIT functions under the option
    --reuse-threads: samply/src/shared/recycling.rs and jit_function_recycler.rs. *)
From S2P Require Import Prelude Types.
From stdpp Require Import options.
Open Scope Z_scope.

Module Recycling.

(** * Pools by name

    [std::collections::BinaryHeap<Reverse<T>>]: pushing keeps the elements, and
    popping takes out a least one. The list is kept sorted; elements that compare
    as equal are taken in the order they were pushed, which the heap leaves open
    (for the pools of a recorder no two elements compare as equal, since their
    handles differ). *)
Class Ord (T : Type) := le : T → T → bool.
Class OrdLaws (T : Type) `{Ord T} := {
  le_transitive : ∀ x y z : T, le x y = true → le y z = true → le x z = true;
  le_linear : ∀ x y : T, le x y = true ∨ le y x = true
}.
Notation BinaryHeap T := (list T).
Definition heap_push {T} `{Ord T} (h : BinaryHeap T) (x : T) : BinaryHeap T := insert_sorted le x h.
Definition heap_pop {T} (h : BinaryHeap T) : BinaryHeap T * option T :=
  match h with [] => ([], None) | x :: h' => (h', Some x) end.
Definition heap_is_empty {T} (h : BinaryHeap T) : bool :=
  match h with [] => true | _ => false end.

Notation RecyclerByName T := (gmap string (BinaryHeap T)).

Section recycler.
Context {T : Type} `{Ord T}.

Definition new : RecyclerByName T := ∅.
Definition add_to_pool (r : RecyclerByName T) (name : string) (value : T) : RecyclerByName T :=
  <[name := heap_push (default [] (r !! name)) value]> r.
Definition recycle_by_name (r : RecyclerByName T) (name : string)
    : res (RecyclerByName T * option T) :=
  match r !! name with
  | None => Ok (r, None)
  | Some heap =>
      let '(heap', popped) := heap_pop heap in
      process ← unwrap popped;
      Ok (if heap_is_empty heap' then delete name r else <[name := heap']> r, Some process)
  end.
End recycler.

(** * What is recycled *)

(** The derived [Ord] of a frame: the variant, then the fields in order. *)
Definition frame_key (f : Frame) : list Z :=
  match f with
  | InstructionPointer a => [0; a]
  | ReturnAddress a => [1; a]
  | AdjustedReturnAddress a => [2; a]
  | RelativeAddressFromInstructionPointer lib a => [3; Z.of_nat lib; a]
  | RelativeAddressFromReturnAddress lib a => [4; Z.of_nat lib; a]
  | RelativeAddressFromAdjustedReturnAddress lib a => [5; Z.of_nat lib; a]
  | Label s => [6; s]
  end.
Definition category_key (c : CategoryPairHandle) : list Z :=
  pair_category c :: match pair_subcategory c with None => [0] | Some s => [1; s] end.
Definition frame_info_key (f : FrameInfo) : list Z :=
  frame_key (frame f) ++ category_key (category_pair f) ++ [flags f].
Fixpoint lex_le (a b : list Z) : bool :=
  match a, b with
  | [], _ => true
  | _ :: _, [] => false
  | x :: a', y :: b' => (x <? y) || (x =? y) && lex_le a' b'
  end.

Notation ThreadRecyclingData := (ThreadHandle * FrameInfo)%type.
#[global] Instance thread_recycling_ord : Ord ThreadRecyclingData := λ x y,
  lex_le (Z.of_nat x.1 :: frame_info_key x.2) (Z.of_nat y.1 :: frame_info_key y.2).
Notation ThreadRecycler := (RecyclerByName ThreadRecyclingData).

(** JIT functions of one name and size become one function. *)
Notation JitFunctionRecycler := (gmap (string * Z) (LibraryHandle * Z)).
Definition default_jit_function_recycler : JitFunctionRecycler := ∅.
Definition recycle (r : JitFunctionRecycler) (name : string) (code_size : Z)
    (lib_handle : LibraryHandle) (relative_address : Z)
    : JitFunctionRecycler * (LibraryHandle * Z) :=
  match r !! (name, code_size) with
  | Some known => (r, known)
  | None => (<[(name, code_size) := (lib_handle, relative_address)]> r, (lib_handle, relative_address))
  end.

Record ProcessRecyclingData := {
  process_handle : ProcessHandle;
  main_thread_recycling_data : ThreadRecyclingData;
  thread_recycler : ThreadRecycler;
  jit_function_recycler : JitFunctionRecycler
}.
(** [impl Ord for ProcessRecyclingData]. *)
#[global] Instance process_recycling_ord : Ord ProcessRecyclingData := λ x y,
  (process_handle x <=? process_handle y)%nat.
Notation ProcessRecycler := (RecyclerByName ProcessRecyclingData).
(** * Invariants *)
#[global] Instance nat_handle_ord_laws : OrdLaws ProcessRecyclingData.
Proof.
  split; intros *; unfold le, process_recycling_ord; rewrite ?Nat.leb_le; lia.
Qed.

Lemma lex_le_total a b : lex_le a b = true ∨ lex_le b a = true.
Proof.
  revert b. induction a as [|x a IH]; intros [|y b]; simpl; [by left..|by right|].
  destruct (IH b) as [Hab|Hab]; rewrite Hab;
    destruct (Z.ltb_spec x y), (Z.ltb_spec y x), (Z.eqb_spec x y), (Z.eqb_spec y x);
    simpl; auto; lia.
Qed.
Lemma lex_le_trans a b c : lex_le a b = true → lex_le b c = true → lex_le a c = true.
Proof.
  revert b c. induction a as [|x a IH]; intros [|y b] [|z c]; simpl; try done.
  rewrite !orb_true_iff, !andb_true_iff, !Z.ltb_lt, !Z.eqb_eq.
  intros [?|[-> ?]] [?|[-> ?]]; [left; lia|by left|by left|right]. split; [done|by eapply IH].
Qed.
#[global] Instance thread_recycling_ord_laws : OrdLaws ThreadRecyclingData.
Proof.
  split; intros *; unfold le, thread_recycling_ord; [apply lex_le_trans|apply lex_le_total].
Qed.

Section recycler_wf.
Context {T : Type} `{OrdLaws T}.
Implicit Types r : RecyclerByName T.

Definition sorted (h : BinaryHeap T) : Prop := StronglySorted (λ x y, le x y = true) h.
(** "We only have non-empty BinaryHeaps in this HashMap". *)
Definition wf r : Prop := ∀ name h, r !! name = Some h → h ≠ [] ∧ sorted h.

(** The values of all pools, with and without their names. *)
Definition named r : list (string * T) := gather (λ name h, (λ x, (name, x)) <$> h) r.
Definition entries r : list T := (named r).*2.

Lemma wf_new_recycler : wf new.
Proof. by intros name h. Qed.

Lemma heap_push_perm (h : BinaryHeap T) x : heap_push h x ≡ₚ x :: h.
Proof. apply insert_sorted_permutation. Qed.

Lemma add_to_pool_wf r name x : wf r → wf (add_to_pool r name x).
Proof using Type*.
  intros Hwf name' h. unfold add_to_pool. destruct (decide (name = name')) as [<-|Hne].
  - rewrite lookup_insert_eq. intros [= <-]. split.
    + intros Hnil. pose proof (heap_push_perm (default [] (r !! name)) x) as Hp.
      rewrite Hnil in Hp. by apply Permutation_nil_cons in Hp.
    + apply insert_sorted_sorted; [apply le_transitive|apply le_linear|].
      destruct (r !! name) eqn:Hn; simpl; [by apply (Hwf name)|constructor].
  - rewrite lookup_insert_ne by done. apply Hwf.
Qed.

Lemma add_to_pool_named r name x : named (add_to_pool r name x) ≡ₚ (name, x) :: named r.
Proof.
  unfold add_to_pool, named. rewrite gather_insert, heap_push_perm. simpl.
  destruct (r !! name) as [h|] eqn:Hn; simpl.
  - by rewrite (gather_delete _ r name h) by done.
  - by rewrite delete_id by done.
Qed.

Lemma add_to_pool_entries r name x : entries (add_to_pool r name x) ≡ₚ x :: entries r.
Proof. unfold entries. by rewrite add_to_pool_named. Qed.

(** The pool of a name. *)
Definition pool r (name : string) : list T := default [] (r !! name).
Lemma named_elem r name x : (name, x) ∈ named r ↔ x ∈ pool r name.
Proof.
  unfold named, pool. rewrite gather_elem. split.
  - intros (k & h & Hk & (y & [= -> ->] & Hin)%list_elem_of_fmap). by rewrite Hk.
  - destruct (r !! name) as [h|] eqn:Hn; simpl; [|by intros ?%elem_of_nil].
    intros Hin. exists name, h. split; [done|]. apply list_elem_of_fmap. eauto.
Qed.

(** What comes out of a pool: nothing if it is empty, otherwise a least value. *)
Inductive recycled (r : RecyclerByName T) (name : string) : RecyclerByName T → option T → Prop :=
| recycled_none : pool r name = [] → recycled r name r None
| recycled_some r' x : named r ≡ₚ (name, x) :: named r' →
    (∀ y, y ∈ pool r name → le x y = true) → recycled r name r' (Some x).

Lemma recycle_by_name_ok r name :
  wf r → ∃ r' o, recycle_by_name r name = Ok (r', o) ∧ wf r' ∧ recycled r name r' o.
Proof using Type*.
  intros Hwf. unfold recycle_by_name. destruct (r !! name) as [h|] eqn:Hn.
  2: { exists r, None. split_and!; [done..|]. constructor. unfold pool. by rewrite Hn. }
  destruct (Hwf name h Hn) as [Hne Hs]. destruct h as [|x h]; [done|]. simpl.
  inversion Hs as [|? ? Hs' Hle]; subst. eexists _, _. split; [done|]. split.
  - intros name' h'. destruct h as [|y h]; simpl.
    + intros Hh. apply lookup_delete_Some in Hh as [_ Hh]. by apply Hwf in Hh.
    + intros [[<- <-]|[_ ?]]%lookup_insert_Some; [done|by apply (Hwf name')].
  - constructor.
    + unfold named. destruct h as [|y h]; simpl heap_is_empty; cbn match.
      * by rewrite (gather_delete _ r name [x]) by done.
      * rewrite (gather_delete _ r name (x :: y :: h)) by done. by rewrite gather_insert.
    + unfold pool. rewrite Hn. simpl. intros z [->|Hz]%elem_of_cons.
      * destruct (le_linear x x); done.
      * rewrite Forall_forall in Hle. by apply Hle.
Qed.

Lemma recycled_entries r name r' x : recycled r name r' (Some x) → entries r ≡ₚ x :: entries r'.
Proof. inversion 1 as [|? ? Hp ?]; subst. unfold entries. by rewrite Hp. Qed.
End recycler_wf.

(** ** JIT functions: the first function of a name and size answers for all *)
Lemma recycle_first r name size lib address r' e :
  recycle r name size lib address = (r', e) →
  r' !! (name, size) = Some e ∧ r ⊆ r' ∧
  (r !! (name, size) = None → e = (lib, address)).
Proof.
  unfold recycle. destruct (r !! (name, size)) as [e'|] eqn:He; intros [= <- <-].
  - by split_and!.
  - split_and!; [by rewrite lookup_insert_eq|by apply insert_subseteq|done].
Qed.
End Recycling.
