(* ===== verification/JitCategories.v ===== *)
(** Categories and JavaScript names of JIT functions: [JitCategoryManager] of
    samply/src/shared/jit_category_manager.rs. *)
From S2P Require Import Prelude RustStr Types LibMappings Hierarchy StringTables SymbolTable LibTable.
From S2P Require Import ThreadSafety ProfileModel ProfileSafety ProfileRuns ProfileCalls.
From stdpp Require Import options.
Open Scope Z_scope.

Module JitCategories.
Import RustStr Hierarchy Profile ProfileCalls.

(** * Data *)
Module LazilyCreatedCategory.
Record LazilyCreatedCategory := {
  name : string;
  color : CategoryColor;
  handle : option CategoryHandle
}.
Definition new (name' : string) (color' : CategoryColor) : LazilyCreatedCategory :=
  {| name := name'; color := color'; handle := None |}.
Definition get `{DebugIdType} (c : LazilyCreatedCategory) (profile : Profile)
    : LazilyCreatedCategory * Profile * CategoryHandle :=
  match handle c with
  | Some handle' => (c, profile, handle')
  | None =>
      let '(profile', handle') := add_category profile (name c) (color c) in
      ({| name := name c; color := color c; handle := Some handle' |}, profile', handle')
  end.
End LazilyCreatedCategory.
Notation LazilyCreatedCategory := LazilyCreatedCategory.LazilyCreatedCategory.

Record JitCategoryManager := {
  categories : list LazilyCreatedCategory;
  baseline_interpreter_category : LazilyCreatedCategory;
  ion_ic_category : LazilyCreatedCategory;
  wasm_liftoff_category : LazilyCreatedCategory;
  wasm_turbofan_category : LazilyCreatedCategory;
  generic_jit_category : LazilyCreatedCategory
}.

(** (prefix, name, color, is_js) *)
Definition CATEGORIES : list (string * string * CategoryColor * bool) :=
  [("JS:~", "Interpreter", Magenta, true);
   ("Script:~", "Interpreter", Magenta, true);
   ("JS:^", "Baseline", Blue, true);
   ("JS:+", "Maglev", Green, true);
   ("JS:*", "Turbofan", Green, true);
   ("JS:?", "JavaScript", Blue, true);
   ("py::", "Python", Blue, true);
   ("Builtin:", "Builtin", Brown, false);
   ("BytecodeHandler:", "Interpreter", Red, false);
   ("Interpreter: ", "Interpreter", Red, true);
   ("BaselineThunk: ", "Trampoline", DarkGray, false);
   ("Baseline: ", "Baseline", Blue, true);
   ("PolymorphicCallStubBaseline: ", "Trampoline", DarkGray, true);
   ("PolymorphicAccessStubBaseline: ", "Trampoline", DarkGray, true);
   ("Ion: ", "Ion", Green, true);
   ("Wasm: ", "Wasm", Blue, true);
   ("BaselineIC: ", "BaselineIC", Brown, false);
   ("IC: ", "IC", Brown, false);
   ("Trampoline: ", "Trampoline", DarkGray, false);
   ("WasmTrampoline: ", "Trampoline", DarkGray, false);
   ("VMWrapper: ", "Trampoline", DarkGray, false);
   ("Baseline JIT code for ", "Baseline", Blue, true);
   ("DFG JIT code for DFG: ", "DFG", Green, true);
   ("FTL B3 code for FTL: ", "FTL", Green, true);
   ("LLInt: ", "LLInt", Red, true)].

(** * Operations *)
Definition new : JitCategoryManager :=
  {| categories := (λ '(_, name, color, _), LazilyCreatedCategory.new name color) <$> CATEGORIES;
     baseline_interpreter_category := LazilyCreatedCategory.new "BaselineInterpreter" Magenta;
     ion_ic_category := LazilyCreatedCategory.new "IonIC" Brown;
     wasm_liftoff_category := LazilyCreatedCategory.new "Liftoff (wasm)" Blue;
     wasm_turbofan_category := LazilyCreatedCategory.new "Turbofan (wasm)" Green;
     generic_jit_category := LazilyCreatedCategory.new "JIT" Purple |}.

Definition with_categories (m : JitCategoryManager) (cs : list LazilyCreatedCategory)
    : JitCategoryManager :=
  {| categories := cs; baseline_interpreter_category := baseline_interpreter_category m;
     ion_ic_category := ion_ic_category m; wasm_liftoff_category := wasm_liftoff_category m;
     wasm_turbofan_category := wasm_turbofan_category m;
     generic_jit_category := generic_jit_category m |}.
Definition with_baseline_interpreter (m : JitCategoryManager) (c : LazilyCreatedCategory) :=
  {| categories := categories m; baseline_interpreter_category := c;
     ion_ic_category := ion_ic_category m; wasm_liftoff_category := wasm_liftoff_category m;
     wasm_turbofan_category := wasm_turbofan_category m;
     generic_jit_category := generic_jit_category m |}.
Definition with_ion_ic (m : JitCategoryManager) (c : LazilyCreatedCategory) :=
  {| categories := categories m; baseline_interpreter_category := baseline_interpreter_category m;
     ion_ic_category := c; wasm_liftoff_category := wasm_liftoff_category m;
     wasm_turbofan_category := wasm_turbofan_category m;
     generic_jit_category := generic_jit_category m |}.
Definition with_wasm_liftoff (m : JitCategoryManager) (c : LazilyCreatedCategory) :=
  {| categories := categories m; baseline_interpreter_category := baseline_interpreter_category m;
     ion_ic_category := ion_ic_category m; wasm_liftoff_category := c;
     wasm_turbofan_category := wasm_turbofan_category m;
     generic_jit_category := generic_jit_category m |}.
Definition with_wasm_turbofan (m : JitCategoryManager) (c : LazilyCreatedCategory) :=
  {| categories := categories m; baseline_interpreter_category := baseline_interpreter_category m;
     ion_ic_category := ion_ic_category m; wasm_liftoff_category := wasm_liftoff_category m;
     wasm_turbofan_category := c; generic_jit_category := generic_jit_category m |}.
Definition with_generic_jit (m : JitCategoryManager) (c : LazilyCreatedCategory) :=
  {| categories := categories m; baseline_interpreter_category := baseline_interpreter_category m;
     ion_ic_category := ion_ic_category m; wasm_liftoff_category := wasm_liftoff_category m;
     wasm_turbofan_category := wasm_turbofan_category m; generic_jit_category := c |}.

Section operations.
Context {D : DebugIdType}.

Definition intern_js_name (profile : Profile) (func_name : string) : Profile * JsName :=
  let self_hosted := contains func_name "(self-hosted:" || ends_with func_name "valueIsFalsey"
                     || ends_with func_name "valueIsTruthy" in
  let plain :=
    let '(profile', s) := intern_string profile func_name in
    (profile', if self_hosted then SelfHosted s else NonSelfHosted s) in
  match (match split_once func_name "[Call" with
         | Some parts => Some parts
         | None => split_once func_name "[Construct"
         end) with
  | Some (before, after) =>
      match split_once after "]" with
      | Some (_, after') =>
          if is_empty after' then
            let '(profile', s) := intern_string profile before in (profile', SelfHosted s)
          else
            let '(profile', s) := intern_string profile (before +:+ after') in
            (profile', NonSelfHosted s)
      | None => plain
      end
  | None => plain
  end.

Definition default_category (m : JitCategoryManager) (profile : Profile)
    : JitCategoryManager * Profile * CategoryHandle :=
  let '(c, profile', handle) := LazilyCreatedCategory.get (generic_jit_category m) profile in
  (with_generic_jit m c, profile', handle).

Definition Classified : Type := CategoryPairHandle * option JsFrame.

(** The loop over [CATEGORIES] zipped with the categories of the manager. *)
Fixpoint classify_by_prefix (table : list (string * string * CategoryColor * bool))
    (cs : list LazilyCreatedCategory) (name : string) (profile : Profile)
    : option (list LazilyCreatedCategory * Profile * Classified) :=
  match table, cs with
  | (prefix, _, _, is_js) :: table', c :: cs' =>
      match strip_prefix name prefix with
      | Some name_without_prefix =>
          let '(c', profile1, category) := LazilyCreatedCategory.get c profile in
          if is_js : bool then
            let '(profile2, js_name) := intern_js_name profile1 name_without_prefix in
            Some (c' :: cs', profile2,
                  (CategoryPairHandle_from category, Some (RegularInAdditionToNativeFrame js_name)))
          else Some (c' :: cs', profile1, (CategoryPairHandle_from category, None))
      | None =>
          '(cs'', profile', r) ← classify_by_prefix table' cs' name profile;
          Some (c :: cs'', profile', r)
      end
  | _, _ => None
  end.

(** The block for the prefix "IonIC: ". *)
Definition classify_ion_ic (m : JitCategoryManager) (ion_ic_rest : string) (profile : Profile)
    : JitCategoryManager * Profile * Classified :=
  let '(c, profile1, category) := LazilyCreatedCategory.get (ion_ic_category m) profile in
  match split_once ion_ic_rest " : " with
  | Some (_, js_func) =>
      let '(profile2, js_name) := intern_js_name profile1 js_func in
      (with_ion_ic m c, profile2,
       (CategoryPairHandle_from category, Some (RegularInAdditionToNativeFrame js_name)))
  | None => (with_ion_ic m c, profile1, (CategoryPairHandle_from category, None))
  end.

(** The names of WebAssembly functions in V8, after "JS:". *)
Definition classify_v8_wasm (m : JitCategoryManager) (v8_wasm_name : string) (profile : Profile)
    : option (JitCategoryManager * Profile * Classified) :=
  let stripped_name :=
    match strip_suffix v8_wasm_name "-liftoff" with
    | Some v8_wasm_liftoff_name =>
        Some (v8_wasm_liftoff_name, wasm_liftoff_category m, with_wasm_liftoff m)
    | None =>
        match strip_suffix v8_wasm_name "-turbofan" with
        | Some v8_wasm_turbofan_name =>
            Some (v8_wasm_turbofan_name, wasm_turbofan_category m, with_wasm_turbofan m)
        | None => None
        end
    end in
  '(v8_wasm_name_with_index, category, put_back) ← stripped_name;
  '(v8_wasm_name', func_index) ← rsplit_once v8_wasm_name_with_index "-";
  let new_name := v8_wasm_name' +:+ " (WASM:" +:+ func_index +:+ ")" in
  let '(c, profile1, category') := LazilyCreatedCategory.get category profile in
  let '(profile2, js_name) := intern_js_name profile1 new_name in
  Some (put_back c, profile2,
        (CategoryPairHandle_from category', Some (RegularInAdditionToNativeFrame js_name))).

Definition classify_jit_symbol (m : JitCategoryManager) (name : string) (profile : Profile)
    : JitCategoryManager * Profile * Classified :=
  if String.eqb name "BaselineInterpreter" || starts_with name "BlinterpOp: " then
    let '(c, profile1, category) :=
      LazilyCreatedCategory.get (baseline_interpreter_category m) profile in
    (with_baseline_interpreter m c, profile1,
     (CategoryPairHandle_from category, Some BaselineInterpreter))
  else
  match strip_prefix name "BaselineInterpreter: " with
  | Some js_func =>
      let '(profile1, js_name) := intern_js_name profile js_func in
      let '(c, profile2, category) :=
        LazilyCreatedCategory.get (baseline_interpreter_category m) profile1 in
      (with_baseline_interpreter m c, profile2,
       (CategoryPairHandle_from category, Some (BaselineInterpreterStub js_name)))
  | None =>
  match strip_prefix name "IonIC: " with
  | Some ion_ic_rest => classify_ion_ic m ion_ic_rest profile
  | None =>
  match strip_prefix name "IonIC: " with
  | Some ion_ic_rest => classify_ion_ic m ion_ic_rest profile
  | None =>
  match classify_by_prefix CATEGORIES (categories m) name profile with
  | Some (cs, profile', r) => (with_categories m cs, profile', r)
  | None =>
  match (v8_wasm_name ← strip_prefix name "JS:"; classify_v8_wasm m v8_wasm_name profile) with
  | Some r => r
  | None =>
      let '(c, profile', category) := LazilyCreatedCategory.get (generic_jit_category m) profile in
      (with_generic_jit m c, profile', (CategoryPairHandle_from category, None))
  end end end end end.
End operations.

(** * Specification: the category and the JavaScript name as a function of the name *)
Inductive js_description :=
| NoJs
| Interpreter
| Stub (self_hosted : bool) (text : string)
| Regular (self_hosted : bool) (text : string).

(** JavaScriptCore's "f[Call (flags)] file" stands for "f file", and names without
    a file are self-hosted. *)
Definition js_name_text (f : string) : bool * string :=
  let plain := (contains f "(self-hosted:" || ends_with f "valueIsFalsey"
                || ends_with f "valueIsTruthy", f) in
  from_option (λ '(before, after),
    from_option (λ '(_, file), (is_empty file, before +:+ file)) plain (split_once after "]"))
    plain (match split_once f "[Call" with Some parts => Some parts | None => split_once f "[Construct" end).
Definition regular (f : string) : js_description :=
  let '(self_hosted, text) := js_name_text f in Regular self_hosted text.

Notation category_label := (string * CategoryColor)%type.
(** A rule applies to names with its prefix and may still decline. *)
Definition rule : Type := string * (string → option (category_label * js_description)).
Definition prefix_rule (row : string * string * CategoryColor * bool) : rule :=
  let '(prefix, name, color, is_js) := row in
  (prefix, λ rest, Some ((name, color), if is_js : bool then regular rest else NoJs)).
Definition wasm_rule (rest : string) : option (category_label * js_description) :=
  '(f, compiler) ← match strip_suffix rest "-liftoff" with
                   | Some f => Some (f, ("Liftoff (wasm)", Blue))
                   | None => (λ f, (f, ("Turbofan (wasm)", Green))) <$> strip_suffix rest "-turbofan"
                   end;
  '(f', index) ← rsplit_once f "-";
  Some (compiler, regular (f' +:+ " (WASM:" +:+ index +:+ ")")).
Definition rules : list rule :=
  [("BaselineInterpreter: ", λ rest, let '(h, t) := js_name_text rest in
      Some (("BaselineInterpreter", Magenta), Stub h t));
   ("IonIC: ", λ rest, Some (("IonIC", Brown),
      from_option (λ '(_, f), regular f) NoJs (split_once rest " : ")))]
  ++ (prefix_rule <$> CATEGORIES) ++
  [("JS:", wasm_rule)].
Fixpoint first_rule (rs : list rule) (name : string) : option (category_label * js_description) :=
  match rs with
  | [] => None
  | (prefix, f) :: rs' =>
      match strip_prefix name prefix ≫= f with Some r => Some r | None => first_rule rs' name end
  end.
Definition classification (name : string) : category_label * js_description :=
  if decide (name = "BaselineInterpreter") then (("BaselineInterpreter", Magenta), Interpreter)
  else if starts_with name "BlinterpOp: " then (("BaselineInterpreter", Magenta), Interpreter)
  else default (("JIT", Purple), NoJs) (first_rule rules name).

(** * Invariant and refinement *)
Section invariant.
Context {D : DebugIdType}.

Definition label (c : LazilyCreatedCategory) : category_label :=
  (LazilyCreatedCategory.name c, LazilyCreatedCategory.color c).
(** The handle of a created category is in range, and it is the one that was
    created unless the 16 bits of a handle ran out. *)
Definition labels_at (p : Profile) (h : CategoryHandle) (l : category_label) : Prop :=
  (Z.to_nat h < length (Profile.categories p))%nat ∧
  (Z.of_nat (length (Profile.categories p)) ≤ 2 ^ 16 → category_labels p !! Z.to_nat h = Some l).
Definition lazy_ok (p : Profile) (c : LazilyCreatedCategory) : Prop :=
  ∀ h, LazilyCreatedCategory.handle c = Some h → labels_at p h (label c).
Fixpoint created (cs : list LazilyCreatedCategory) : nat :=
  match cs with
  | [] => 0
  | c :: cs' => from_option (λ _, 1) 0 (LazilyCreatedCategory.handle c) + created cs'
  end%nat.
(** Only a category that is created adds to the profile's. *)
Definition grown (p p' : Profile) (cs cs' : list LazilyCreatedCategory) : Prop :=
  (length (Profile.categories p') + created cs = length (Profile.categories p) + created cs')%nat.
Definition all_lazy (m : JitCategoryManager) : list LazilyCreatedCategory :=
  categories m ++
  [baseline_interpreter_category m; ion_ic_category m; wasm_liftoff_category m;
   wasm_turbofan_category m; generic_jit_category m].
Record wf (m : JitCategoryManager) (p : Profile) : Prop := {
  wf_lazy : Forall (lazy_ok p) (all_lazy m);
  wf_categories : label <$> categories m = label <$> categories new;
  wf_baseline : label (baseline_interpreter_category m) = label (baseline_interpreter_category new);
  wf_ion_ic : label (ion_ic_category m) = label (ion_ic_category new);
  wf_liftoff : label (wasm_liftoff_category m) = label (wasm_liftoff_category new);
  wf_turbofan : label (wasm_turbofan_category m) = label (wasm_turbofan_category new);
  wf_generic : label (generic_jit_category m) = label (generic_jit_category new)
}.

Definition named (p : Profile) (n : JsName) (self_hosted : bool) (text : string) : Prop :=
  ∃ s, n = (if self_hosted then SelfHosted s else NonSelfHosted s) ∧
    StringTable.get_string (string_table p) s = Some text.
Definition described (p : Profile) (js : option JsFrame) (d : js_description) : Prop :=
  match d with
  | NoJs => js = None
  | Interpreter => js = Some BaselineInterpreter
  | Stub h t => ∃ n, js = Some (BaselineInterpreterStub n) ∧ named p n h t
  | Regular h t => ∃ n, js = Some (RegularInAdditionToNativeFrame n) ∧ named p n h t
  end.

Lemma labels_at_evolves p p' h l : evolves p p' → labels_at p h l → labels_at p' h l.
Proof.
  intros He [Hlt Hl]. pose proof (evolves_num_categories _ _ He). split; [lia|]. intros Hle.
  eapply prefix_lookup_Some; [apply Hl; lia|apply (evolves_categories _ _ He)].
Qed.
Lemma lazy_ok_evolves p p' c : evolves p p' → lazy_ok p c → lazy_ok p' c.
Proof. intros He Hc h Hh. eapply labels_at_evolves; [done|]. by apply Hc. Qed.
Lemma wf_evolves m p p' : evolves p p' → wf m p → wf m p'.
Proof.
  intros He []. split; try done. eapply Forall_impl; [done|]. intros c. by apply lazy_ok_evolves.
Qed.
Lemma wf_new_manager p : wf new p.
Proof.
  split; try done.
  assert (Forall (λ c, LazilyCreatedCategory.handle c = None) (all_lazy new)) as Hnone
    by repeat constructor.
  eapply Forall_impl; [exact Hnone|]. intros c Hc h Hh. simpl in Hc. congruence.
Qed.

Lemma get_spec p c c' p' h :
  lazy_ok p c → LazilyCreatedCategory.get c p = (c', p', h) →
  by_calls 0 p p' ∧ lazy_ok p' c' ∧ label c' = label c ∧ grown p p' [c] [c'] ∧
  labels_at p' h (label c).
Proof.
  intros Hc. unfold LazilyCreatedCategory.get.
  destruct (LazilyCreatedCategory.handle c) as [h0|] eqn:Hh.
  { intros [= <- <- <-]. split_and!; [apply by_calls_refl|done|done|done|by apply Hc]. }
  destruct (add_category p _ _) as [p1 h1] eqn:Ha. intros [= <- <- <-].
  apply add_category_spec in Ha as (Hby & Hl & -> & Hlen).
  assert (labels_at p1 (wrap_u16 (Z.of_nat (length (Profile.categories p)))) (label c)) as Hat.
  { split; [rewrite Hlen; unfold wrap_u16|].
    - pose proof (Z.mod_le (Z.of_nat (length (Profile.categories p))) (2 ^ 16)). lia.
    - intros Hle. unfold wrap_u16. rewrite Z.mod_small by lia. rewrite Hl, Nat2Z.id.
      rewrite lookup_app_r; unfold category_labels; rewrite length_fmap; [|lia].
      by rewrite Nat.sub_diag. }
  split_and!; [done| |done| |done]; [by intros ? [= <-]|]. unfold grown.
  simpl. rewrite Hh. simpl. lia.
Qed.

Lemma intern_js_name_spec n p f p' js :
  ProfileRuns.wf n p → Z.of_nat (n + 1) < 2 ^ 32 → intern_js_name p f = (p', js) →
  by_calls 1 p p' ∧ Profile.categories p' = Profile.categories p ∧
  named p' js (js_name_text f).1 (js_name_text f).2.
Proof.
  intros Hwf Hn Heq.
  assert (∀ s (b : bool), (let '(q, i) := intern_string p s in
      (q, if b then SelfHosted i else NonSelfHosted i)) = (p', js) →
      by_calls 1 p p' ∧ Profile.categories p' = Profile.categories p ∧ named p' js b s) as Hs.
  { intros s b. destruct (intern_string p s) as [q i] eqn:Hi. intros [= <- <-].
    destruct (intern_string_spec n p s q i Hwf Hn Hi). split_and!; [done| |by exists i].
    unfold intern_string in Hi. destruct (StringTable.index_for_string _ s). by injection Hi as <- <-. }
  unfold intern_js_name in Heq. unfold js_name_text.
  destruct (split_once f "[Call") as [[b a]|]; simpl.
  2: destruct (split_once f "[Construct") as [[b a]|]; simpl; [|by apply Hs].
  all: destruct (split_once a "]") as [[? file]|]; simpl; [|by apply Hs].
  all: destruct file as [|c file]; simpl in *; [rewrite app_nil; by apply (Hs _ true)|by apply (Hs _ false)].
Qed.

Lemma created_cons c cs : created (c :: cs) = (created [c] + created cs)%nat.
Proof. simpl. lia. Qed.
Lemma created_app cs cs' : created (cs ++ cs') = (created cs + created cs')%nat.
Proof. induction cs; simpl; lia. Qed.
Lemma created_length cs : (created cs ≤ length cs)%nat.
Proof. induction cs as [|c cs IH]; simpl; [done|]. destruct (LazilyCreatedCategory.handle c); simpl; lia. Qed.

(** ** One branch *)
Definition outcome (p p' : Profile) (r : Classified) (s : category_label * js_description) : Prop :=
  by_calls 1 p p' ∧ (∃ h, r.1 = CategoryPairHandle_from h ∧ labels_at p' h s.1) ∧
  described p' r.2 s.2.

Lemma described_evolves p p' js d : evolves p p' → described p js d → described p' js d.
Proof.
  intros He. destruct d; simpl; try done.
  all: intros (n & -> & s & -> & Hs); eexists; split; [done|]; exists s; split; [done|].
  all: by eapply StringTable.get_string_extends; [apply (evolves_strings _ _ He)|].
Qed.

(** A category and then a JavaScript name. *)
Lemma get_then_intern n p c c' p1 h f p' js :
  ProfileRuns.wf n p → Z.of_nat (n + 1) < 2 ^ 32 → lazy_ok p c →
  LazilyCreatedCategory.get c p = (c', p1, h) → intern_js_name p1 f = (p', js) →
  outcome p p' (CategoryPairHandle_from h, Some (RegularInAdditionToNativeFrame js))
    (label c, regular f) ∧ lazy_ok p' c' ∧ label c' = label c ∧ grown p p' [c] [c'].
Proof.
  intros Hwf Hn Hc Hg Hi. destruct (get_spec _ _ _ _ _ Hc Hg) as (Hby & Hc' & Hl & Hgr & Hat).
  pose proof (by_calls_wf _ _ _ _ Hby Hwf) as Hwf1. rewrite Nat.add_0_r in Hwf1.
  destruct (intern_js_name_spec n p1 f p' js) as (Hby' & Hcats & Hjs); [apply Hwf1; lia|done..|].
  pose proof (by_calls_evolves _ _ _ Hby') as He.
  split_and!; [|by eapply lazy_ok_evolves|done|unfold grown in *; by rewrite Hcats]. split_and!.
  - apply (by_calls_trans 0 1 _ _ _ Hby Hby').
  - exists h. split; [done|]. by eapply labels_at_evolves.
  - unfold regular. destruct (js_name_text f) as [sh t]. by exists js.
Qed.

Lemma get_only p c c' p' h js d :
  lazy_ok p c → LazilyCreatedCategory.get c p = (c', p', h) → described p' js d →
  outcome p p' (CategoryPairHandle_from h, js) (label c, d) ∧ lazy_ok p' c' ∧ label c' = label c ∧
  grown p p' [c] [c'].
Proof.
  intros Hc Hg Hd. destruct (get_spec _ _ _ _ _ Hc Hg) as (Hby & Hc' & Hl & Hgr & Hat).
  split_and!; [|done..]. split_and!; [apply (by_calls_weaken 0); [lia|done]| |done]. by exists h.
Qed.

Lemma first_rule_app rs rs' name :
  first_rule (rs ++ rs') name =
  match first_rule rs name with Some r => Some r | None => first_rule rs' name end.
Proof.
  induction rs as [|[prefix f] rs IH]; simpl; [done|].
  destruct (strip_prefix name prefix ≫= f); [done|apply IH].
Qed.

Lemma classify_by_prefix_spec n table cs name p :
  ProfileRuns.wf n p → Z.of_nat (n + 1) < 2 ^ 32 → Forall (lazy_ok p) cs →
  label <$> cs = (λ '(_, name, color, _), (name, color)) <$> table →
  match classify_by_prefix table cs name p with
  | Some (cs', p', r) =>
      Forall (lazy_ok p') cs' ∧ label <$> cs' = label <$> cs ∧ grown p p' cs cs' ∧
      ∃ s, first_rule (prefix_rule <$> table) name = Some s ∧ outcome p p' r s
  | None => first_rule (prefix_rule <$> table) name = None
  end.
Proof.
  intros Hwf Hn. revert cs. induction table as [|[[[prefix cname] color] is_js] table IH];
    intros [|c cs] Hcs Hl; try done.
  simpl in Hl. injection Hl as Hname Hcolor Hl. apply Forall_cons in Hcs as [Hc Hcs]. cbn [classify_by_prefix].
  assert (label c = (cname, color)) as Hlc by (unfold label; congruence).
  cbn [fmap list_fmap prefix_rule first_rule].
  destruct (strip_prefix name prefix) as [rest|] eqn:Hp; cbn [mbind option_bind].
  - destruct (LazilyCreatedCategory.get c p) as [[c' p1] h] eqn:Hg. rewrite <-Hlc. destruct is_js.
    + destruct (intern_js_name p1 rest) as [p2 js] eqn:Hi.
      destruct (get_then_intern n p c c' p1 h rest p2 js) as (Ho & Hc' & Hl' & Hgr); [done..|].
      split_and!; [|simpl; by rewrite Hl'|unfold grown in *; rewrite (created_cons c cs), (created_cons _ cs); lia|by eexists]. constructor; [done|].
      eapply Forall_impl; [done|]. intros ?. apply lazy_ok_evolves. by eapply by_calls_evolves, Ho.
    + destruct (get_only p c c' p1 h None NoJs) as (Ho & Hc' & Hl' & Hgr); [done..|].
      split_and!; [|simpl; by rewrite Hl'|unfold grown in *; rewrite (created_cons c cs), (created_cons _ cs); lia|by eexists]. constructor; [done|].
      eapply Forall_impl; [done|]. intros ?. apply lazy_ok_evolves. by eapply by_calls_evolves, Ho.
  - specialize (IH cs Hcs Hl). destruct (classify_by_prefix table cs name p) as [[[cs' p'] r]|]; [|done].
    destruct IH as (Hcs' & Hl' & Hgr & s & Hs & Ho). cbn [mbind option_bind].
    split_and!; [|by rewrite !fmap_cons, Hl'|unfold grown in *; rewrite (created_cons c cs), (created_cons c cs'); lia|by exists s]. constructor; [|done].
    eapply lazy_ok_evolves; [|done]. by eapply by_calls_evolves, Ho.
Qed.

(** ** The fields of the manager *)
Lemma wf_fields m p :
  wf m p → Forall (lazy_ok p) (categories m) ∧ lazy_ok p (baseline_interpreter_category m) ∧
  lazy_ok p (ion_ic_category m) ∧ lazy_ok p (wasm_liftoff_category m) ∧
  lazy_ok p (wasm_turbofan_category m) ∧ lazy_ok p (generic_jit_category m).
Proof.
  intros [Hall _ _ _ _ _ _]. unfold all_lazy in Hall. apply Forall_app in Hall as [? Hall].
  repeat (apply Forall_cons in Hall as [? Hall]). done.
Qed.

(** Puts a category back into its field. *)
#[local] Ltac put_back Hwf He :=
  split; [|unfold grown, all_lazy in *; simpl in *; rewrite ?created_app in *; simpl in *; lia];
  pose proof (wf_evolves _ _ _ He Hwf) as [Hall ? ? ? ? ? ?]; unfold all_lazy in Hall;
  apply Forall_app in Hall as [? Hall]; repeat (apply Forall_cons in Hall as [? Hall]);
  split; cbn [categories baseline_interpreter_category ion_ic_category wasm_liftoff_category
    wasm_turbofan_category generic_jit_category with_categories with_baseline_interpreter with_ion_ic
    with_wasm_liftoff with_wasm_turbofan with_generic_jit]; try assumption; try congruence;
  unfold all_lazy; cbn [categories baseline_interpreter_category ion_ic_category wasm_liftoff_category
    wasm_turbofan_category generic_jit_category with_categories with_baseline_interpreter with_ion_ic
    with_wasm_liftoff with_wasm_turbofan with_generic_jit];
  apply Forall_app; split; [assumption|]; repeat (apply Forall_cons; split; [assumption|]); apply Forall_nil_2.

(** What a classification does. *)
Definition classifies (m : JitCategoryManager) (p : Profile) (name : string)
    (result : JitCategoryManager * Profile * Classified) : Prop :=
  let '(m', p', r) := result in
  (wf m' p' ∧ grown p p' (all_lazy m) (all_lazy m')) ∧ outcome p p' r (classification name).

(** By the rules that follow the two names of the interpreter. *)
Lemma classification_rule name s :
  String.eqb name "BaselineInterpreter" || starts_with name "BlinterpOp: " = false →
  first_rule rules name = s → classification name = default (("JIT", Purple), NoJs) s.
Proof.
  intros [Hne Hst]%orb_false_iff <-. unfold classification. rewrite Hst.
  apply String.eqb_neq in Hne. by rewrite decide_False.
Qed.

Lemma classify_wasm_spec n m v8 p :
  wf m p → ProfileRuns.wf n p → Z.of_nat (n + 1) < 2 ^ 32 →
  match classify_v8_wasm m v8 p with
  | Some (m', p', r) => (wf m' p' ∧ grown p p' (all_lazy m) (all_lazy m')) ∧
      ∃ s, wasm_rule v8 = Some s ∧ outcome p p' r s
  | None => wasm_rule v8 = None
  end.
Proof.
  intros Hwf Hp Hn. pose proof (wf_fields _ _ Hwf) as (? & ? & ? & Hlift & Hturbo & ?).
  unfold classify_v8_wasm, wasm_rule.
  destruct (strip_suffix v8 "-liftoff") as [f|]; cbn [mbind option_bind].
  - destruct (rsplit_once f "-") as [[f' index]|]; cbn [mbind option_bind]; [|done].
    destruct (LazilyCreatedCategory.get _ p) as [[c p1] h] eqn:Hg.
    destruct (intern_js_name p1 _) as [p2 js] eqn:Hi.
    edestruct get_then_intern as (Ho & Hc & Hl & Hgr); [done|done|exact Hlift|done|done|].
    assert (evolves p p2) as He by (by eapply by_calls_evolves, Ho).
    pose proof (wf_liftoff _ _ Hwf) as Hlab. split; [put_back Hwf He|].
    eexists. split; [done|]. by rewrite Hlab in Ho.
  - destruct (strip_suffix v8 "-turbofan") as [f|]; cbn [mbind option_bind fmap option_fmap option_map];
      [|done].
    destruct (rsplit_once f "-") as [[f' index]|]; cbn [mbind option_bind]; [|done].
    destruct (LazilyCreatedCategory.get _ p) as [[c p1] h] eqn:Hg.
    destruct (intern_js_name p1 _) as [p2 js] eqn:Hi.
    edestruct get_then_intern as (Ho & Hc & Hl & Hgr); [done|done|exact Hturbo|done|done|].
    assert (evolves p p2) as He by (by eapply by_calls_evolves, Ho).
    pose proof (wf_turbofan _ _ Hwf) as Hlab. split; [put_back Hwf He|].
    eexists. split; [done|]. by rewrite Hlab in Ho.
Qed.

Lemma classify_ion_ic_spec n m rest p :
  wf m p → ProfileRuns.wf n p → Z.of_nat (n + 1) < 2 ^ 32 →
  let '(m', p', r) := classify_ion_ic m rest p in
  (wf m' p' ∧ grown p p' (all_lazy m) (all_lazy m')) ∧
  outcome p p' r (("IonIC", Brown), from_option (λ '(_, f), regular f) NoJs (split_once rest " : ")).
Proof.
  intros Hwf Hp Hn. pose proof (wf_fields _ _ Hwf) as (? & ? & Hion & ? & ? & ?).
  unfold classify_ion_ic. pose proof (wf_ion_ic _ _ Hwf) as Hlab.
  destruct (LazilyCreatedCategory.get _ p) as [[c p1] h] eqn:Hg.
  destruct (split_once rest " : ") as [[? f]|]; simpl.
  - destruct (intern_js_name p1 _) as [p2 js] eqn:Hi.
    edestruct get_then_intern as (Ho & Hc & Hl & Hgr); [done|done|exact Hion|done|done|].
    assert (evolves p p2) as He by (by eapply by_calls_evolves, Ho).
    split; [put_back Hwf He|]. by rewrite Hlab in Ho.
  - destruct (get_only _ _ _ _ _ None NoJs Hion Hg eq_refl) as (Ho & Hc & Hl & Hgr).
    assert (evolves p p1) as He by (by eapply by_calls_evolves, Ho).
    split; [put_back Hwf He|]. by rewrite Hlab in Ho.
Qed.

Lemma classify_stub_spec n m f p :
  wf m p → ProfileRuns.wf n p → Z.of_nat (n + 1) < 2 ^ 32 →
  let '(p1, js) := intern_js_name p f in
  let '(c, p2, h) := LazilyCreatedCategory.get (baseline_interpreter_category m) p1 in
  (wf (with_baseline_interpreter m c) p2 ∧
   grown p p2 (all_lazy m) (all_lazy (with_baseline_interpreter m c))) ∧
  outcome p p2 (CategoryPairHandle_from h, Some (BaselineInterpreterStub js))
    (("BaselineInterpreter", Magenta), let '(sh, t) := js_name_text f in Stub sh t).
Proof.
  intros Hwf Hp Hn. destruct (intern_js_name p f) as [p1 js] eqn:Hi.
  destruct (intern_js_name_spec n p f p1 js Hp Hn Hi) as (Hby1 & Hcats & Hjs).
  pose proof (by_calls_evolves _ _ _ Hby1) as He1.
  pose proof (wf_evolves _ _ _ He1 Hwf) as Hwf1. pose proof (wf_fields _ _ Hwf1) as (? & Hb & _).
  destruct (LazilyCreatedCategory.get _ p1) as [[c p2] h] eqn:Hg.
  destruct (get_spec _ _ _ _ _ Hb Hg) as (Hby2 & Hc & Hl & Hgr & Hat).
  pose proof (by_calls_evolves _ _ _ Hby2) as He2. pose proof (wf_baseline _ _ Hwf) as Hlab.
  split.
  { assert (grown p p2 [baseline_interpreter_category m] [c]) as Hgr'
      by (unfold grown in *; by rewrite <-Hcats).
    clear Hgr. put_back Hwf1 He2. }
  split_and!.
  - apply (by_calls_trans 1 0 _ _ _ Hby1 Hby2).
  - exists h. split; [done|]. by rewrite Hlab in Hat.
  - apply (described_evolves p1); [done|]. destruct (js_name_text f) as [sh t]. by exists js.
Qed.

Lemma classify_ok n m name p :
  wf m p → ProfileRuns.wf n p → Z.of_nat (n + 1) < 2 ^ 32 →
  classifies m p name (classify_jit_symbol m name p).
Proof.
  intros Hwf Hp Hn. pose proof (wf_fields _ _ Hwf) as (Hcs & Hbase & _ & _ & _ & Hgen).
  unfold classifies, classify_jit_symbol.
  destruct (String.eqb name _ || starts_with name _) eqn:Hinterp.
  { destruct (LazilyCreatedCategory.get _ p) as [[c p1] h] eqn:Hg.
    destruct (get_only _ _ _ _ _ (Some BaselineInterpreter) Interpreter Hbase Hg eq_refl) as (Ho & Hc & Hl & Hgr).
    assert (evolves p p1) as He by (by eapply by_calls_evolves, Ho).
    pose proof (wf_baseline _ _ Hwf) as Hlab. split; [put_back Hwf He|].
    assert (classification name = (("BaselineInterpreter", Magenta), Interpreter)) as ->.
    { unfold classification. destruct (decide _) as [|Hne]; [done|].
      apply String.eqb_neq in Hne. rewrite Hne in Hinterp. simpl in Hinterp. by rewrite Hinterp. }
    by rewrite Hlab in Ho. }
  pose proof (λ s, classification_rule name s Hinterp) as Hcl. unfold rules in Hcl.
  rewrite first_rule_app in Hcl. cbn [first_rule] in Hcl.
  destruct (strip_prefix name "BaselineInterpreter: ") as [f|]; cbn [mbind option_bind] in Hcl.
  { pose proof (classify_stub_spec n m f p Hwf Hp Hn) as Hstub.
    destruct (js_name_text f) as [sh t]. rewrite (Hcl _ eq_refl).
    destruct (intern_js_name p f) as [p1 js].
    by destruct (LazilyCreatedCategory.get _ p1) as [[c p2] h]. }
  destruct (strip_prefix name "IonIC: ") as [rest|]; cbn [mbind option_bind] in Hcl.
  { rewrite (Hcl _ eq_refl). by apply (classify_ion_ic_spec n). }
  rewrite first_rule_app in Hcl.
  pose proof (classify_by_prefix_spec n CATEGORIES (categories m) name p Hp Hn Hcs) as Hpre.
  specialize (Hpre (wf_categories _ _ Hwf)).
  destruct (classify_by_prefix CATEGORIES (categories m) name p) as [[[cs p'] r]|].
  { destruct Hpre as (Hcs' & Hl & Hgr & s & Hs & Ho). rewrite Hs in Hcl. rewrite (Hcl _ eq_refl).
    split; [|done]. assert (evolves p p') as He by (by eapply by_calls_evolves, Ho).
    pose proof (wf_categories _ _ Hwf). put_back Hwf He. }
  rewrite Hpre in Hcl. cbn [first_rule] in Hcl.
  destruct (strip_prefix name "JS:") as [v8|]; cbn [mbind option_bind] in *.
  { pose proof (classify_wasm_spec n m v8 p Hwf Hp Hn) as Hw.
    destruct (classify_v8_wasm m v8 p) as [[[m' p'] r]|].
    { destruct Hw as (? & s & Hs & ?). rewrite Hs in Hcl. by rewrite (Hcl _ eq_refl). }
    rewrite Hw in Hcl. rewrite (Hcl _ eq_refl). simpl default.
    destruct (LazilyCreatedCategory.get _ p) as [[c p1] h] eqn:Hg.
    destruct (get_only _ _ _ _ _ None NoJs Hgen Hg eq_refl) as (Ho & Hc & Hl & Hgr).
    assert (evolves p p1) as He by (by eapply by_calls_evolves, Ho).
    pose proof (wf_generic _ _ Hwf) as Hlab. split; [put_back Hwf He|]. by rewrite Hlab in Ho. }
  rewrite (Hcl _ eq_refl). simpl default.
  destruct (LazilyCreatedCategory.get _ p) as [[c p1] h] eqn:Hg.
  destruct (get_only _ _ _ _ _ None NoJs Hgen Hg eq_refl) as (Ho & Hc & Hl & Hgr).
  assert (evolves p p1) as He by (by eapply by_calls_evolves, Ho).
  pose proof (wf_generic _ _ Hwf) as Hlab. split; [put_back Hwf He|]. by rewrite Hlab in Ho.
Qed.

(** ** Runs *)
Fixpoint classify_all (names : list string) (m : JitCategoryManager) (p : Profile)
    : JitCategoryManager * Profile * list Classified :=
  match names with
  | [] => (m, p, [])
  | name :: names' =>
      let '(m1, p1, r) := classify_jit_symbol m name p in
      let '(m2, p2, rs) := classify_all names' m1 p1 in
      (m2, p2, r :: rs)
  end.
(** The category and the names of a result, looked up in the profile. *)
Definition classified_as (p : Profile) (name : string) (r : Classified) : Prop :=
  (∃ h, r.1 = CategoryPairHandle_from h ∧ labels_at p h (classification name).1) ∧
  described p r.2 (classification name).2.

Lemma classified_as_evolves p p' name r :
  evolves p p' → classified_as p name r → classified_as p' name r.
Proof.
  intros He [(h & Hh & Hat) Hd]. split; [exists h; split; [done|]; by eapply labels_at_evolves|].
  by eapply described_evolves.
Qed.

Lemma classify_all_ok n names m p :
  wf m p → ProfileRuns.wf n p → Z.of_nat (n + length names) < 2 ^ 32 →
  let '(m', p', rs) := classify_all names m p in
  wf m' p' ∧ by_calls (length names) p p' ∧ grown p p' (all_lazy m) (all_lazy m') ∧
  Forall2 (classified_as p') names rs.
Proof.
  revert n m p. induction names as [|name names IH]; intros n m p Hwf Hp Hn; simpl.
  { split_and!; [done|apply by_calls_refl|unfold grown; lia|constructor]. }
  cbn [length] in Hn. pose proof (classify_ok n m name p Hwf Hp) as Hc. unfold classifies in Hc.
  destruct (classify_jit_symbol m name p) as [[m1 p1] r].
  destruct Hc as ([Hwf1 Hgr1] & Hby & Hr & Hd); [lia|].
  specialize (IH (n + 1)%nat m1 p1 Hwf1). destruct (classify_all names m1 p1) as [[m2 p2] rs].
  destruct IH as (Hwf2 & Hby2 & Hgr2 & Hall); [by eapply by_calls_wf; [done..|lia]|lia|].
  split_and!; [done|by apply (by_calls_trans 1 (length names) _ p1)|unfold grown in *; lia|].
  constructor; [|done]. apply (classified_as_evolves p1); [by eapply by_calls_evolves|done].
Qed.
End invariant.

(** * Property *)

(** C35: Classifying JIT functions one after the other, starting with a fresh
    manager, is a function of their names alone, the first rule that applies: each
    returned category carries the name and the color of the rule, each JavaScript
    name stands for the text of the rule, also after all later classifications.
    Categories are created on demand, at most thirty of them, and the profile is
    changed by valid calls only. *)
Theorem jit_classification_refines_rules `{DebugIdType} (n : nat) (p : Profile) (names : list string) :
  ProfileRuns.wf n p → Z.of_nat (n + length names) < 2 ^ 32 →
  let '(m', p', rs) := classify_all names new p in
  by_calls (length names) p p' ∧
  (length (Profile.categories p') ≤ length (Profile.categories p) + 30)%nat ∧
  (Z.of_nat (length (Profile.categories p')) ≤ 2 ^ 16 →
   Forall2 (λ name r,
     category_labels p' !! Z.to_nat (pair_category r.1) = Some (classification name).1 ∧
     pair_subcategory r.1 = None ∧ described p' r.2 (classification name).2) names rs).
Proof.
  intros Hp Hn. pose proof (classify_all_ok n names new p (wf_new_manager p) Hp Hn) as Hall.
  destruct (classify_all names new p) as [[m' p'] rs]. destruct Hall as (Hwf & Hby & Hgr & Hall).
  split_and!; [done| |].
  - pose proof (created_length (all_lazy m')) as Hle. unfold grown in Hgr.
    assert (length (all_lazy m') = 30%nat) as Hlen.
    { pose proof (f_equal length (wf_categories _ _ Hwf)) as Hl. rewrite !length_fmap in Hl.
      unfold all_lazy. rewrite length_app, Hl. done. }
    change (created (all_lazy new)) with 0%nat in Hgr. lia.
  - intros Hle. eapply Forall2_impl; [exact Hall|]. intros name [pair js] [(h & -> & _ & Hl) Hd].
    by split_and!; [apply Hl| |].
Qed.

#[local] Definition example_names : list string :=
  ["IonIC: SetElem : AccessibleButton (main.js:3560:25)"; "JS:wasm-function[5206]-5206-liftoff";
   "JS:~render"; "forEach[Call (StrictMode)]"].
#[local] Existing Instance string_debug_ids.
Lemma jit_classification_refines_rules_witness :
  let p := Profile.new "example" (f64_of_Z 0) 1000000 in
  let '(m', p', rs) := classify_all example_names new p in
  by_calls 4 p p' ∧ (length (Profile.categories p') ≤ length (Profile.categories p) + 30)%nat ∧
  (Z.of_nat (length (Profile.categories p')) ≤ 2 ^ 16 →
   Forall2 (λ name r,
     category_labels p' !! Z.to_nat (pair_category r.1) = Some (classification name).1 ∧
     pair_subcategory r.1 = None ∧ described p' r.2 (classification name).2) example_names rs).
Proof.
  exact (jit_classification_refines_rules 0 (Profile.new "example" (f64_of_Z 0) 1000000) example_names
    (ProfileRuns.wf_new_profile "example" (f64_of_Z 0) 1000000) eq_refl).
Defined.

(** The rules on names of the engines' documentation. *)
Example classification_examples :
  classification <$> example_names =
  [(("IonIC", Brown), Regular false "AccessibleButton (main.js:3560:25)");
   (("Liftoff (wasm)", Blue), Regular false "wasm-function[5206] (WASM:5206)");
   (("Interpreter", Magenta), Regular false "render"); (("JIT", Purple), NoJs)].
Proof. vm_compute. reflexivity. Qed.
End JitCategories.
