(* ===== verification/SyntheticJit.v ===== *)
(** Libraries made up for JIT code: [SyntheticJitLibrary] of
    samply/src/shared/synthetic_jit_library.rs, and the layout all JIT libraries
    share, function after function from relative address zero on. *)
From S2P Require Import Prelude Types SymbolTable LibTable ProfileModel ProfileSafety ProfileRuns.
From S2P Require Import ProfileCalls.
From stdpp Require Import options.
Open Scope Z_scope.

(** What the recorder uses of the debugid crate beyond [DebugIdType]. *)
Class DebugIdOps `{DebugIdType} := {
  nil : DebugId;
  (** Of sixteen bytes and an age. *)
  from_guid_age : list Z → Z → option DebugId;
  from_guid_age_16 : ∀ bytes age, length bytes = 16%nat → is_Some (from_guid_age bytes age);
  (** [CodeId::from_binary(bytes).to_string()] *)
  code_id_from_binary : list Z → string
}.

(** For the examples: the bytes of an ID as a text. *)
Definition text_of_bytes (bytes : list Z) : string :=
  foldr (λ b s, String (Ascii.ascii_of_nat (Z.to_nat b)) s) "" bytes.
Definition string_debug_id_ops : @DebugIdOps string_debug_ids :=
  {| nil := ("" : @DebugId string_debug_ids);
     from_guid_age bytes _ := Some (text_of_bytes bytes : @DebugId string_debug_ids);
     from_guid_age_16 _ _ _ := ex_intro _ _ eq_refl;
     code_id_from_binary := text_of_bytes |}.

(** * The layout of JIT functions *)
Module JitLayout.
Import SymbolTable.

(** Names and code sizes, in the order the functions were added; the addresses
    wrap like the [u32] they are added up in. *)
Fixpoint layout (base : Z) (functions : list (string * Z)) : list Symbol :=
  match functions with
  | [] => []
  | (name, size) :: functions' =>
      {| address := base; size := Some size; name := name |} ::
      layout (add_u32 base size) functions'
  end.
Fixpoint total (functions : list (string * Z)) : Z :=
  match functions with [] => 0 | f :: functions' => f.2 + total functions' end.

(** Where function [i] starts. *)
Definition start_of (functions : list (string * Z)) (i : nat) : Z := total (take i functions).

Lemma layout_total_app fs gs : total (fs ++ gs) = total fs + total gs.
Proof. induction fs as [|f fs IH]; simpl; lia. Qed.
Lemma layout_total_nonneg fs : Forall (λ f, 0 < f.2) fs → 0 ≤ total fs.
Proof. induction 1 as [|f fs Hf _ IH]; simpl; lia. Qed.

Lemma layout_app base fs gs :
  layout base (fs ++ gs) = layout base fs ++ layout (foldl (λ b f, add_u32 b f.2) base fs) gs.
Proof. revert base. induction fs as [|[n s] fs IH]; intros base; simpl; [done|]. by rewrite IH. Qed.
Lemma layout_length base fs : length (layout base fs) = length fs.
Proof. revert base. induction fs as [|[n s] fs IH]; intros base; simpl; [done|]. by rewrite IH. Qed.

Lemma layout_end fs base :
  Forall (λ f, 0 < f.2) fs → 0 ≤ base → base + total fs < 2 ^ 32 →
  foldl (λ b f, add_u32 b f.2) base fs = base + total fs.
Proof.
  intros Hfs. revert base. induction Hfs as [|f fs Hf Hfs IH]; intros base Hb Ht; simpl; [lia|].
  pose proof (layout_total_nonneg fs Hfs). simpl in *.
  rewrite IH; rewrite add_u32_id by lia; lia.
Qed.

Lemma layout_lookup base fs i s :
  Forall (λ f, 0 < f.2) fs → 0 ≤ base → base + total fs < 2 ^ 32 →
  layout base fs !! i = Some s ↔
  ∃ n z, fs !! i = Some (n, z) ∧ s = {| address := base + start_of fs i; size := Some z; name := n |}.
Proof.
  intros Hfs Hb Ht. destruct (fs !! i) as [[n z]|] eqn:Hi.
  - pose proof (take_drop_middle fs i _ Hi) as Hsplit. rewrite <-Hsplit at 1.
    rewrite layout_app, lookup_app_r; rewrite layout_length, length_take; [|lia].
    pose proof (lookup_lt_Some _ _ _ Hi). replace (i - i `min` length fs)%nat with 0%nat by lia.
    assert (total (take i fs) + total (drop i fs) = total fs) as Hsum
      by (by rewrite <-layout_total_app, take_drop).
    pose proof (layout_total_nonneg (drop i fs) (Forall_drop _ _ _ Hfs)).
    rewrite layout_end; [|by apply Forall_take|done|lia]. simpl. split.
    + intros [= <-]. by exists n, z.
    + intros (? & ? & [= <- <-] & ->). done.
  - split; [|intros (? & ? & ? & _); done]. intros Hl. exfalso. apply lookup_lt_Some in Hl.
    rewrite layout_length in Hl. apply lookup_lt_is_Some_2 in Hl as [? ?]. congruence.
Qed.

Lemma start_of_next fs i n z : fs !! i = Some (n, z) → start_of fs (S i) = start_of fs i + z.
Proof.
  intros Hi. unfold start_of. rewrite (take_S_r _ _ _ Hi), layout_total_app. simpl. lia.
Qed.
Lemma start_of_mono fs i j :
  Forall (λ f, 0 < f.2) fs → (i ≤ j)%nat → 0 ≤ start_of fs i ≤ start_of fs j ∧ start_of fs j ≤ total fs.
Proof.
  intros Hfs Hij. unfold start_of. replace j with (i + (j - i))%nat by lia.
  rewrite <-take_take_drop, layout_total_app.
  pose proof (layout_total_nonneg _ (Forall_take _ i _ Hfs)).
  pose proof (layout_total_nonneg _ (Forall_take _ (j - i) _ (Forall_drop _ i _ Hfs))).
  pose proof (layout_total_nonneg _ (Forall_drop _ (j - i) _ (Forall_drop _ i _ Hfs))).
  assert (total (take i fs) + (total (take (j - i) (drop i fs)) + total (drop (j - i) (drop i fs)))
    = total fs); [|lia].
  by rewrite <-layout_total_app, take_drop, <-layout_total_app, take_drop.
Qed.

(** Every address inside a function finds the function. *)
Lemma layout_symbolicates fs i n z a :
  Forall (λ f, 0 < f.2) fs → total fs < 2 ^ 32 → fs !! i = Some (n, z) →
  start_of fs i ≤ a < start_of fs i + z →
  lookup (new (layout 0 fs)) a =
    Ok (Some {| address := start_of fs i; size := Some z; name := n |}).
Proof.
  intros Hfs Ht Hi Ha. destruct (lookup_new_Some (layout 0 fs) a) as (o & -> & Ho).
  f_equal. apply Ho. set (s := {| address := start_of fs i; size := Some z; name := n |}).
  assert (∀ j s', layout 0 fs !! j = Some s' → ∃ n' z', fs !! j = Some (n', z') ∧
    s' = {| address := start_of fs j; size := Some z'; name := n' |}) as Hat.
  { intros j s' Hj. apply layout_lookup in Hj as (n' & z' & Hj & ->); [|done|lia|lia].
    exists n', z'. by rewrite Z.add_0_l. }
  assert (layout 0 fs !! i = Some s) as Hs.
  { apply layout_lookup; [done|lia|lia|]. exists n, z. by rewrite Z.add_0_l. }
  assert (∀ s', s' ∈ layout 0 fs → address s' ≤ a → address s' ≤ address s) as Hlast.
  { intros s' [j Hj]%list_elem_of_lookup Hle. destruct (Hat j s' Hj) as (n' & z' & Hj' & ->).
    simpl in *. destruct (decide (j ≤ i)%nat).
    - by apply start_of_mono.
    - pose proof (start_of_mono fs (S i) j Hfs ltac:(lia)).
      rewrite (start_of_next fs i n z) in * by done. lia. }
  assert (∀ s', s' ∈ layout 0 fs → address s' = address s → s' = s) as Hsame.
  { intros s' [j Hj]%list_elem_of_lookup Heq. destruct (Hat j s' Hj) as (n' & z' & Hj' & ->).
    simpl in Heq. assert (j = i) as ->; [|simplify_eq; done].
    destruct (lt_eq_lt_dec j i) as [[Hlt| ->]|Hlt]; [|done|].
    - pose proof (start_of_mono fs (S j) i Hfs ltac:(lia)). rewrite (start_of_next fs j n' z') in * by done.
      rewrite Forall_lookup in Hfs. specialize (Hfs _ _ Hj'). simpl in Hfs. lia.
    - pose proof (start_of_mono fs (S i) j Hfs ltac:(lia)). rewrite (start_of_next fs i n z) in * by done.
      rewrite Forall_lookup in Hfs. specialize (Hfs _ _ Hi). simpl in Hfs. lia. }
  split_and!.
  - apply new_elem. split; [by eapply list_elem_of_lookup_2|]. intros s' Hin Heq.
    rewrite (Hsame _ Hin Heq). destruct (Symbol_leb_total s s); done.
  - simpl. lia.
  - intros s' [Hin _]%new_elem. by apply Hlast.
  - unfold in_symbol, saturating_add_u32. simpl.
    pose proof (start_of_mono fs (S i) (S i) Hfs ltac:(lia)).
    rewrite (start_of_next fs i n z) in * by done. lia.
Qed.
End JitLayout.

(** * Synthetic libraries *)
Module SyntheticJitLibrary.
Section synthetic.
Context `{DebugIdOps}.

Record SyntheticJitLibrary := {
  lib_handle : LibraryHandle;
  default_category : CategoryPairHandle;
  next_relative_address : Z;
  symbols : list SymbolTable.Symbol;
  recycler : option (gmap (string * Z) Z)
}.

Definition new (name : string) (default_category' : CategoryPairHandle) (profile : Profile.Profile)
    (allow_recycling : bool) : SyntheticJitLibrary * Profile.Profile :=
  let '(profile', lib_handle') := Profile.add_lib profile
    {| LibraryInfo.name := name; LibraryInfo.debug_name := name; LibraryInfo.path := name;
       LibraryInfo.debug_path := name; LibraryInfo.debug_id := nil; LibraryInfo.code_id := None;
       LibraryInfo.arch := None; LibraryInfo.symbol_table := None |} in
  ({| lib_handle := lib_handle'; default_category := default_category';
      next_relative_address := 0; symbols := [];
      recycler := if allow_recycling then Some ∅ else None |}, profile').

(** The relative address of the function. *)
Definition add_function (lib : SyntheticJitLibrary) (name : string) (size : Z)
    : SyntheticJitLibrary * Z :=
  let relative_address := next_relative_address lib in
  let added recycler' :=
    {| lib_handle := lib_handle lib; default_category := default_category lib;
       next_relative_address := add_u32 (next_relative_address lib) size;
       symbols := push (symbols lib)
         {| SymbolTable.address := relative_address; SymbolTable.size := Some size;
            SymbolTable.name := name |};
       recycler := recycler' |} in
  match recycler lib with
  | Some r =>
      match r !! (name, size) with
      | Some relative_address' => (lib, relative_address')
      | None => (added (Some (<[(name, size) := relative_address]> r)), relative_address)
      end
  | None => (added None, relative_address)
  end.

Definition finish_and_set_symbol_table (lib : SyntheticJitLibrary) (profile : Profile.Profile)
    : res Profile.Profile :=
  Profile.set_lib_symbol_table profile (lib_handle lib) (SymbolTable.new (symbols lib)).

(** ** Invariant: the symbols are a layout, and the recycler knows its functions *)
Definition wf (fs : list (string * Z)) (lib : SyntheticJitLibrary) : Prop :=
  symbols lib = JitLayout.layout 0 fs ∧
  next_relative_address lib = foldl (λ b f, add_u32 b f.2) 0 fs ∧
  ∀ r, recycler lib = Some r → ∀ n z a, r !! (n, z) = Some a →
    ∃ i, fs !! i = Some (n, z) ∧ a = foldl (λ b f, add_u32 b f.2) 0 (take i fs).

Lemma wf_new_library name c p allow : wf [] (new name c p allow).1.
Proof.
  unfold new. destruct (Profile.add_lib _ _). split_and!; simpl; [done..|].
  destruct allow; [|done]. by intros r [= <-].
Qed.

(** A function is found at the address it was given, at which the library holds a
    function of its name and size. *)
Lemma add_function_wf fs lib name size :
  wf fs lib →
  let '(lib', a) := add_function lib name size in
  ∃ fs' i, wf fs' lib' ∧ fs `prefix_of` fs' ∧ fs' !! i = Some (name, size) ∧
    a = foldl (λ b f, add_u32 b f.2) 0 (take i fs') ∧
    (recycler lib = None → fs' = fs ++ [(name, size)]).
Proof.
  intros (Hs & Hn & Hr). unfold add_function.
  assert (∀ o, (∀ r, o = Some r → ∀ n z a, r !! (n, z) = Some a →
      ((n, z) = (name, size) ∧ a = next_relative_address lib) ∨
      ∃ i, fs !! i = Some (n, z) ∧ a = foldl (λ b f, add_u32 b f.2) 0 (take i fs)) →
    wf (fs ++ [(name, size)])
      {| lib_handle := lib_handle lib; default_category := default_category lib;
         next_relative_address := add_u32 (next_relative_address lib) size;
         symbols := push (symbols lib)
           {| SymbolTable.address := next_relative_address lib; SymbolTable.size := Some size;
              SymbolTable.name := name |};
         recycler := o |}) as Hadded.
  { intros o Ho. split_and!; simpl.
    - unfold push. rewrite JitLayout.layout_app, Hs, <-Hn. done.
    - by rewrite foldl_app, <-Hn.
    - intros r -> n z a Ha. destruct (Ho r eq_refl n z a Ha) as [[[= -> ->] ->]|(i & Hi & ->)].
      + exists (length fs). rewrite lookup_snoc. split; [done|].
        by rewrite take_app_le, take_ge, Hn by lia.
      + exists i. pose proof (lookup_lt_Some _ _ _ Hi). rewrite lookup_app_l by done.
        split; [done|]. by rewrite take_app_le by lia. }
  assert (next_relative_address lib =
    foldl (λ b f, add_u32 b f.2) 0 (take (length fs) (fs ++ [(name, size)]))) as Hlast
    by (by rewrite take_app_le, take_ge, Hn by lia).
  destruct (recycler lib) as [r|] eqn:Er; [destruct (r !! (name, size)) as [a|] eqn:Ea|].
  - destruct (Hr r eq_refl name size a Ea) as (i & Hi & ->).
    exists fs, i. split_and!; [|done..]. split_and!; [done..|]. by rewrite Er.
  - exists (fs ++ [(name, size)]), (length fs). rewrite lookup_snoc.
    split_and!; [|by apply prefix_app_r|done|done|done]. apply Hadded.
    intros r' [= <-] n z a [[[= <- <-] <-]|[_ Ha]]%lookup_insert_Some; [by left|right].
    by apply (Hr r eq_refl).
  - exists (fs ++ [(name, size)]), (length fs). rewrite lookup_snoc.
    split_and!; [|by apply prefix_app_r|done..]. by apply Hadded.
Qed.
End synthetic.
End SyntheticJitLibrary.
