(* ===== verification/PerfMap.v ===== *)
(** Perf map files, in which a process lists its JIT functions:
    samply/src/shared/perf_map.rs. *)
From S2P Require Import Prelude BTree RustStr Types LibMappings Hierarchy StringTables SymbolTable LibTable.
From S2P Require Import ThreadSafety ProfileModel ProfileSafety ProfileRuns ProfileCalls Flush.
From S2P Require Import Recycling JitCategories PathFiles SyntheticJit.
From stdpp Require Import options.
Open Scope Z_scope.

Module PerfMap.
Import RustStr Hierarchy Profile ProfileCalls PathFiles.

(** * Operations *)

(** The address, the length and the symbol name. *)
Definition process_perf_map_line (line : string) : option (Z * Z * string) :=
  match splitn 3 line " " with
  | [addr; len; symbol_name] =>
      if is_empty symbol_name then None
      else
        addr' ← u64_from_str_radix (trim_start_matches addr "0x") 16;
        len' ← u64_from_str_radix (trim_start_matches len "0x") 16;
        Some (addr', len', symbol_name)
  | _ => None
  end.

Section perf_map.
Context `{DebugIdOps} `{Files}.

(** The variables of the loop. *)
Record Loading := {
  profile : Profile;
  jit_category_manager : JitCategories.JitCategoryManager;
  recycler : option Recycling.JitFunctionRecycler;
  symbols : list SymbolTable.Symbol;
  mappings : Mappings;
  cumulative_address : Z
}.

(** One round of the loop over the lines. *)
Definition load_function (lib_handle : LibraryHandle) (l : Loading) (entry : Z * Z * string)
    : res Loading :=
  let '(addr, len, symbol_name) := entry in
  let start_address := addr in
  let end_address := add_u64 addr len in
  let code_size := wrap_u32 len in
  let relative_address := cumulative_address l in
  let symbols' := push (symbols l)
    {| SymbolTable.address := relative_address; SymbolTable.size := Some code_size;
       SymbolTable.name := symbol_name |} in
  let '(recycler', (lib_handle', relative_address')) :=
    match recycler l with
    | Some r =>
        let '(r', known) := Recycling.recycle r symbol_name code_size lib_handle relative_address in
        (Some r', known)
    | None => (None, (lib_handle, relative_address))
    end in
  let '(manager, profile', (category, js_frame)) :=
    JitCategories.classify_jit_symbol (jit_category_manager l) symbol_name (profile l) in
  mappings' ← LibMappings.add_mapping (mappings l) start_address end_address relative_address'
                (new_jit_function lib_handle' category js_frame);
  Ok {| profile := profile'; jit_category_manager := manager; recycler := recycler';
        symbols := symbols'; mappings := mappings';
        cumulative_address := add_u32 (cumulative_address l) code_size |}.
Fixpoint load_functions (lib_handle : LibraryHandle) (l : Loading) (entries : list (Z * Z * string))
    : res Loading :=
  match entries with
  | [] => Ok l
  | entry :: entries' => l' ← load_function lib_handle l entry; load_functions lib_handle l' entries'
  end.

Definition map_name (pid : Z) : string := "perf-" +:+ dec_string pid +:+ ".map".
Definition map_library (pid : Z) : LibraryInfo.LibraryInfo :=
  let name := map_name pid in
  let path := "/tmp/" +:+ name in
  {| LibraryInfo.name := name; LibraryInfo.debug_name := name; LibraryInfo.path := path;
     LibraryInfo.debug_path := path; LibraryInfo.debug_id := nil; LibraryInfo.code_id := None;
     LibraryInfo.arch := None; LibraryInfo.symbol_table := None |}.

Definition try_load_perf_map (files : fs) (pid : Z) (profile' : Profile)
    (manager : JitCategories.JitCategoryManager) (recycler' : option Recycling.JitFunctionRecycler)
    : res (Profile * JitCategories.JitCategoryManager * option Recycling.JitFunctionRecycler *
           option Mappings) :=
  match read_to_string files ("/tmp/" +:+ map_name pid) with
  | None => Ok (profile', manager, recycler', None)
  | Some content =>
      let '(profile1, lib_handle) := add_lib profile' (map_library pid) in
      l ← load_functions lib_handle
            {| profile := profile1; jit_category_manager := manager; recycler := recycler';
               symbols := []; mappings := LibMappings.new; cumulative_address := 0 |}
            (omap process_perf_map_line (lines content));
      profile2 ← set_lib_symbol_table (profile l) lib_handle (SymbolTable.new (symbols l));
      Ok (profile2, jit_category_manager l, recycler l, Some (mappings l))
  end.

(** * Specification *)
Definition entry_function (entry : Z * Z * string) : string * Z :=
  let '(_, len, name) := entry in (name, wrap_u32 len).
Definition covers (entry : Z * Z * string) (a : Z) : Prop :=
  let '(addr, len, _) := entry in addr ≤ a < addr + len.
Definition overlap (entry entry' : Z * Z * string) : bool :=
  let '(addr, len, _) := entry in
  let '(addr', len', _) := entry' in (addr <? addr' + len') && (addr' <? addr + len).
(** Entry [i] is in force: no later entry has an address in common with it. *)
Definition in_force (entries : list (Z * Z * string)) (i : nat) (entry : Z * Z * string) : Prop :=
  entries !! i = Some entry ∧
  ∀ j entry', (i < j)%nat → entries !! j = Some entry' → overlap entry entry' = false.
(** The code of a function ends before the end of the address space. *)
Definition in_memory (entry : Z * Z * string) : Prop :=
  let '(addr, len, _) := entry in 0 ≤ addr ∧ 0 ≤ len ∧ addr + len < 2 ^ 64.
Definition code_size_fits (entry : Z * Z * string) : Prop :=
  let '(_, len, _) := entry in 0 < len < 2 ^ 32.

(** The libraries of recycled functions exist. *)
Definition recycler_valid (p : Profile) (r : option Recycling.JitFunctionRecycler) : Prop :=
  ∀ r' k lib a, r = Some r' → r' !! k = Some (lib, a) → (lib < ProfileRuns.num_libs p)%nat.
Definition info_valid (p : Profile) : LibMappingInfo → Prop :=
  Flush.info_valid (ProfileRuns.num_libs p) (length (categories p)) (string_table p).

(** The mapping an entry in force stands for, before the symbol table is set. *)
Definition mapped (p : Profile) (lib : LibraryHandle) (entries : list (Z * Z * string))
    (maps : Mappings) (i : nat) (entry : Z * Z * string) : Prop :=
  let '(addr, len, name) := entry in
  ∃ category js_frame, JitCategories.classified_as p name (category, js_frame) ∧
    ∀ a, covers entry a → LibMappings.lookup_impl maps a = Some
      {| LibMappings.start_avma := addr; LibMappings.end_avma := addr + len;
         LibMappings.relative_address_at_start :=
           foldl (λ b f, add_u32 b f.2) 0 (entry_function <$> take i entries);
         LibMappings.value := new_jit_function lib category js_frame |}.

(** After the entries [entries], starting with [p0]. *)
Record loaded (p0 : Profile) (lib : LibraryHandle) (entries : list (Z * Z * string)) (l : Loading)
    : Prop := {
  loaded_calls : by_calls (length entries) p0 (profile l);
  loaded_manager : JitCategories.wf (jit_category_manager l) (profile l);
  loaded_symbols : symbols l = JitLayout.layout 0 (entry_function <$> entries);
  loaded_address :
    cumulative_address l = foldl (λ b f, add_u32 b f.2) 0 (entry_function <$> entries);
  loaded_mappings : LibMappings.wf (mappings l);
  loaded_infos : Flush.mapping_infos (info_valid (profile l)) (mappings l);
  loaded_recycler : recycler_valid (profile l) (recycler l);
  loaded_entries : recycler l = None → Forall code_size_fits entries →
    (∀ i entry, in_force entries i entry → mapped (profile l) lib entries (mappings l) i entry) ∧
    (∀ a mp, LibMappings.lookup_impl (mappings l) a = Some mp →
       ∃ i entry, in_force entries i entry ∧ covers entry a)
}.

(** * Lemmas *)
Lemma info_valid_evolves p p' i : evolves p p' → info_valid p i → info_valid p' i.
Proof.
  intros He (Hl & Hc & Hj). pose proof (evolves_libs _ _ He). pose proof (evolves_num_categories _ _ He).
  split_and!; [lia| |].
  - intros c Hi. specialize (Hc c Hi). unfold ThreadSafety.category_ok in *. lia.
  - destruct (js_frame i) as [[]|]; try done; destruct Hj as [s Hs]; exists s;
      (eapply StringTable.get_string_extends; [apply (evolves_strings _ _ He)|done]).
Qed.

Lemma classified_info_valid p name category js lib :
  JitCategories.classified_as p name (category, js) → (lib < ProfileRuns.num_libs p)%nat →
  info_valid p (new_jit_function lib category js).
Proof.
  intros [(h & Hh & [Hlt _]) Hd] Hl. simpl in Hh, Hd. split_and!; [done| |].
  - intros c [= <-]. by rewrite Hh.
  - simpl. destruct (JitCategories.classification name).2; simpl in Hd.
    + by rewrite Hd.
    + by rewrite Hd.
    + destruct Hd as (n & -> & s & -> & Hs). exists text. by destruct self_hosted.
    + destruct Hd as (n & -> & s & -> & Hs). exists text. by destruct self_hosted.
Qed.

Lemma recycler_valid_evolves p p' r : evolves p p' → recycler_valid p r → recycler_valid p' r.
Proof.
  intros He Hr r' k lib a Heq Hk. pose proof (evolves_libs _ _ He). pose proof (Hr r' k lib a Heq Hk). lia.
Qed.

(** A function of the recycler or a new one; the library exists. *)
Lemma recycle_valid p r name size lib a :
  recycler_valid p r → (lib < ProfileRuns.num_libs p)%nat →
  let '(r', (lib', a')) := match r with
                    | Some r => let '(r', known) := Recycling.recycle r name size lib a in (Some r', known)
                    | None => (None, (lib, a))
                    end in
  recycler_valid p r' ∧ (lib' < ProfileRuns.num_libs p)%nat ∧ (r' = None ↔ r = None) ∧
  (r = None → lib' = lib ∧ a' = a).
Proof.
  intros Hr Hlib. destruct r as [r|]; [|done]. unfold Recycling.recycle.
  destruct (r !! (name, size)) as [[lib' a']|] eqn:Hk.
  - split_and!; [done|by eapply Hr|done|done].
  - split_and!; [|done|done|done]. intros r' k l b [= <-] [[<- [= <- <-]]|[_ ?]]%lookup_insert_Some; [done|].
    by eapply Hr.
Qed.

Lemma in_force_snoc entries entry i e :
  in_force (entries ++ [entry]) i e ↔
  (in_force entries i e ∧ overlap e entry = false) ∨ (i = length entries ∧ e = entry).
Proof.
  unfold in_force. split.
  - intros [Hi Hlater]. apply lookup_app_Some_snoc in Hi as [Hi|[-> ->]]; [left|by right].
    pose proof (lookup_lt_Some _ _ _ Hi). split; [split; [done|]|].
    + intros j e' Hj He'. apply (Hlater j); [done|by apply lookup_app_l_Some].
    + apply (Hlater (length entries)); [done|apply lookup_snoc].
  - intros [[[Hi Hlater] Ho]|[-> ->]].
    + split; [by apply lookup_app_l_Some|]. intros j e' Hj He'.
      apply lookup_app_Some_snoc in He' as [He'|[-> ->]]; [by apply (Hlater j)|done].
    + split; [apply lookup_snoc|]. intros j e' Hj He'. apply lookup_lt_Some in He'.
      rewrite length_app in He'. simpl in He'. lia.
Qed.

(** The entries after one more entry. *)
Lemma load_entries p lib entries maps maps' entry category js :
  let '(addr, len, name) := entry in
  in_memory entry → code_size_fits entry →
  JitCategories.classified_as p name (category, js) →
  LibMappings.wf maps →
  LibMappings.add_mapping maps addr (addr + len)
    (foldl (λ b f, add_u32 b f.2) 0 (entry_function <$> entries))
    (new_jit_function lib category js) = Ok maps' →
  (∀ i e, in_force entries i e → mapped p lib entries maps i e) →
  (∀ a mp, LibMappings.lookup_impl maps a = Some mp → ∃ i e, in_force entries i e ∧ covers e a) →
  (∀ i e, in_force (entries ++ [entry]) i e → mapped p lib (entries ++ [entry]) maps' i e) ∧
  (∀ a mp, LibMappings.lookup_impl maps' a = Some mp →
     ∃ i e, in_force (entries ++ [entry]) i e ∧ covers e a).
Proof.
  destruct entry as [[addr len] name]. intros Hmem Hsize Hcl Hwf Hadd Hin Hout.
  destruct (LibMappings.add_mapping_lookup_impl maps addr (addr + len)
    (foldl (λ b f, add_u32 b f.2) 0 (entry_function <$> entries))
    (new_jit_function lib category js) Hwf) as (maps'' & Hadd' & Hlook).
  { simpl in Hsize. lia. }
  assert (maps'' = maps') as -> by congruence. clear Hadd'. split.
  - intros i [[addr' len'] name'] [[Hf Ho]|[-> Heq]]%in_force_snoc.
    + destruct (Hin i _ Hf) as (c' & js' & Hcl' & Hl'). exists c', js'. split; [done|].
      intros a Ha. rewrite Hlook. pose proof Ha as Ha'. simpl in Ha', Ho.
      rewrite andb_false_iff, !Z.ltb_ge in Ho.
      destruct ((addr <=? a) && (a <? addr + len)) eqn:Ea.
      { rewrite andb_true_iff, Z.leb_le, Z.ltb_lt in Ea. lia. }
      rewrite (Hl' a Ha). unfold LibMappings.overlaps. simpl.
      destruct (Z.ltb_spec addr' (addr + len)), (Z.ltb_spec addr (addr' + len')); simpl; try lia;
        destruct Hf as [Hf _]; apply lookup_lt_Some in Hf; by rewrite take_app_le by lia.
    + injection Heq as -> -> ->. exists category, js. split; [done|]. intros a Ha. rewrite Hlook.
      simpl in Ha. destruct (Z.leb_spec addr a), (Z.ltb_spec a (addr + len)); simpl; try lia.
      by rewrite take_app_le, take_ge by lia.
  - intros a mp. rewrite Hlook. destruct ((addr <=? a) && (a <? addr + len)) eqn:Ea.
    + intros _. exists (length entries), (addr, len, name). split; [apply in_force_snoc; by right|].
      rewrite andb_true_iff, Z.leb_le, Z.ltb_lt in Ea. done.
    + destruct (LibMappings.lookup_impl maps a) as [old|] eqn:Eo; [|done].
      destruct (LibMappings.overlaps old addr (addr + len)) eqn:Ov; [done|]. intros _.
      destruct (Hout a old Eo) as (i & [[addr' len'] name'] & Hf & Hc). exists i, (addr', len', name').
      split; [|done]. apply in_force_snoc. left. split; [done|].
      destruct (Hin i _ Hf) as (c' & js' & Hcl' & Hl'). rewrite (Hl' a Hc) in Eo.
      injection Eo as <-. exact Ov.
Qed.

Lemma classify_valid n m name p :
  JitCategories.wf m p → ProfileRuns.wf n p → Z.of_nat (n + 1) < 2 ^ 32 →
  let '(m', p', r) := JitCategories.classify_jit_symbol m name p in
  JitCategories.wf m' p' ∧ by_calls 1 p p' ∧ JitCategories.classified_as p' name r.
Proof.
  intros Hm Hp Hn. pose proof (JitCategories.classify_ok n m name p Hm Hp Hn) as Hc.
  unfold JitCategories.classifies in Hc.
  destruct (JitCategories.classify_jit_symbol m name p) as [[m' p'] r].
  by destruct Hc as ([? ?] & ? & ? & ?).
Qed.

Lemma mapped_evolves p p' lib entries maps i entry :
  evolves p p' → mapped p lib entries maps i entry → mapped p' lib entries maps i entry.
Proof.
  intros He. destruct entry as [[addr len] name]. intros (c & js & Hc & Hl). exists c, js.
  split; [|done]. by eapply JitCategories.classified_as_evolves.
Qed.

Lemma load_function_ok n p0 lib entries entry l :
  ProfileRuns.wf n p0 → Z.of_nat (n + S (length entries)) < 2 ^ 32 →
  (lib < ProfileRuns.num_libs p0)%nat → loaded p0 lib entries l → in_memory entry →
  ∃ l', load_function lib l entry = Ok l' ∧ loaded p0 lib (entries ++ [entry]) l' ∧
    (recycler l' = None ↔ recycler l = None).
Proof.
  intros Hwf Hn Hlib Hl Hmem. pose proof (by_calls_evolves _ _ _ (loaded_calls _ _ _ _ Hl)) as He.
  assert (ProfileRuns.wf (n + length entries) (profile l)) as Hp.
  { apply (by_calls_wf _ _ p0); [apply (loaded_calls _ _ _ _ Hl)|done|lia]. }
  assert (lib < ProfileRuns.num_libs (profile l))%nat as Hlib'.
  { pose proof (evolves_libs _ _ He). lia. }
  destruct entry as [[addr len] name]. unfold load_function.
  pose proof (recycle_valid (profile l) (recycler l) name (wrap_u32 len) lib (cumulative_address l)
    (loaded_recycler _ _ _ _ Hl) Hlib') as Hrec.
  destruct (match recycler l with Some _ => _ | None => _ end) as [r' [lib' a']].
  destruct Hrec as (Hr' & Hl' & Hnone & Hsame).
  pose proof (classify_valid (n + length entries) (jit_category_manager l) name (profile l)
    (loaded_manager _ _ _ _ Hl) Hp) as Hc.
  destruct (JitCategories.classify_jit_symbol _ _ _) as [[m' p'] [c js]].
  destruct Hc as (Hm' & Hby & Hcl); [lia|]. pose proof (by_calls_evolves _ _ _ Hby) as He'.
  destruct Hmem as (Ha & Hlen & Hend). rewrite add_u64_id by lia.
  destruct (Flush.add_mapping_infos (info_valid p') (mappings l) addr (addr + len) a'
    (new_jit_function lib' c js)) as (maps' & Hadd & Hmaps & Hinfos).
  - apply (loaded_mappings _ _ _ _ Hl).
  - intros k mp Hin. eapply info_valid_evolves; [done|]. by apply (loaded_infos _ _ _ _ Hl k).
  - lia.
  - eapply classified_info_valid; [done|]. pose proof (evolves_libs _ _ He'). lia.
  - rewrite Hadd. eexists. split; [done|]. split; [|done]. split; simpl.
    + rewrite length_app. by eapply by_calls_trans; [apply (loaded_calls _ _ _ _ Hl)|].
    + done.
    + rewrite fmap_app, JitLayout.layout_app, (loaded_symbols _ _ _ _ Hl), <-(loaded_address _ _ _ _ Hl).
      done.
    + by rewrite fmap_app, foldl_app, <-(loaded_address _ _ _ _ Hl).
    + done.
    + done.
    + by eapply recycler_valid_evolves.
    + intros Hn' Hfits. apply Forall_app in Hfits as [Hfits Hfit]. apply Forall_cons in Hfit as [Hfit _].
      apply Hnone in Hn'. destruct (Hsame Hn') as [-> ->].
      destruct (loaded_entries _ _ _ _ Hl Hn' Hfits) as [Hin Hout].
      rewrite (loaded_address _ _ _ _ Hl) in Hadd.
      apply (load_entries p' lib entries (mappings l) maps' (addr, len, name) c js); try done.
      * apply (loaded_mappings _ _ _ _ Hl).
      * intros i e Hf. eapply mapped_evolves; [exact He'|]. by apply Hin.
Qed.

Lemma load_functions_ok n p0 lib entries entries' l :
  ProfileRuns.wf n p0 → Z.of_nat (n + length (entries ++ entries')) < 2 ^ 32 →
  (lib < ProfileRuns.num_libs p0)%nat → loaded p0 lib entries l → Forall in_memory entries' →
  ∃ l', load_functions lib l entries' = Ok l' ∧ loaded p0 lib (entries ++ entries') l' ∧
    (recycler l' = None ↔ recycler l = None).
Proof.
  intros Hwf Hn Hlib Hl Hmem. revert entries l Hn Hl.
  induction Hmem as [|entry entries' He Hmem IH]; intros entries l Hn Hl; simpl.
  { exists l. by rewrite app_nil_r. }
  rewrite length_app in Hn. simpl in Hn.
  destruct (load_function_ok n p0 lib entries entry l) as (l1 & -> & Hl1 & Hr1); [done|lia|done..|].
  simpl. destruct (IH (entries ++ [entry]) l1) as (l2 & -> & Hl2 & Hr2).
  - rewrite !length_app. simpl. lia.
  - done.
  - exists l2. rewrite <-app_assoc in Hl2. split_and!; [done|done|]. by rewrite Hr2.
Qed.

(** Loading the file as a whole. *)
Lemma try_load_ok n files pid p m r content :
  let entries := omap process_perf_map_line (lines content) in
  ProfileRuns.wf n p → Z.of_nat (n + length entries) < 2 ^ 32 → JitCategories.wf m p →
  recycler_valid p r → GlobalLibTable.used_libs (global_libs p) = [] →
  read_to_string files ("/tmp/" +:+ map_name pid) = Some content → Forall in_memory entries →
  ∃ p' m' r' maps lib library l, try_load_perf_map files pid p m r = Ok (p', m', r', Some maps) ∧
    by_calls (length entries) p p' ∧ JitCategories.wf m' p' ∧ recycler_valid p' r' ∧
    (r' = None ↔ r = None) ∧ LibMappings.wf maps ∧ Flush.mapping_infos (info_valid p') maps ∧
    GlobalLibTable.all_libs (global_libs p') !! lib = Some library ∧
    LibraryInfo.symbol_table library =
      Some (SymbolTable.new (JitLayout.layout 0 (entry_function <$> entries))) ∧
    maps = mappings l ∧ loaded (add_lib p (map_library pid)).1 lib entries l ∧
    by_calls 0 (profile l) p' ∧ r' = recycler l.
Proof.
  intros entries Hwf Hn Hm Hr Hused Hread Hmem. unfold try_load_perf_map. rewrite Hread.
  destruct (add_lib p (map_library pid)) as [p1 lib] eqn:Hadd.
  destruct (add_lib_spec p (map_library pid) p1 lib Hadd eq_refl) as [Hby Hlib].
  { by destruct (ProfileRuns.wf_env _ _ Hwf). }
  pose proof (by_calls_evolves _ _ _ Hby) as He. pose proof (by_calls_wf _ _ _ _ Hby Hwf) as Hwf1.
  rewrite Nat.add_0_r in Hwf1. fold entries.
  destruct (load_functions_ok n p1 lib [] entries
    {| profile := p1; jit_category_manager := m; recycler := r; symbols := [];
       mappings := LibMappings.new; cumulative_address := 0 |}) as (l & -> & Hl & Hrl).
  { apply Hwf1. lia. }
  { done. }
  { done. }
  { split; simpl; try done.
    - apply by_calls_refl.
    - by eapply JitCategories.wf_evolves.
    - apply LibMappings.wf_new_mappings.
    - intros k mp Hin. by apply elem_of_nil in Hin.
    - by eapply recycler_valid_evolves.
    - intros _ _. split; [|done]. intros i e [Hi _]. done. }
  { done. }
  simpl in Hl, Hrl. cbn [mbind res_bind].
  pose proof (by_calls_evolves _ _ _ (loaded_calls _ _ _ _ Hl)) as He1.
  destruct (set_lib_symbol_table_spec (n + length entries) (profile l) lib (symbols l))
    as (p' & library & Hset & Hby2 & Hlook & Htable).
  { apply (by_calls_wf _ _ p1); [apply (loaded_calls _ _ _ _ Hl)|apply Hwf1; lia|lia]. }
  { lia. }
  { pose proof (evolves_libs _ _ He1). lia. }
  { by rewrite (evolves_used _ _ He1), (evolves_used _ _ He). }
  rewrite Hset. simpl. pose proof (by_calls_evolves _ _ _ Hby2) as He2.
  exists p', (jit_category_manager l), (recycler l), (mappings l), lib, library, l.
  split_and!; try done.
  - apply (by_calls_trans 0 (length entries) _ p1); [done|].
    apply (by_calls_weaken (length entries + 0)); [lia|].
    by eapply by_calls_trans; [apply (loaded_calls _ _ _ _ Hl)|].
  - eapply JitCategories.wf_evolves; [done|]. apply (loaded_manager _ _ _ _ Hl).
  - eapply recycler_valid_evolves; [done|]. apply (loaded_recycler _ _ _ _ Hl).
  - apply (loaded_mappings _ _ _ _ Hl).
  - intros k mp Hin. eapply info_valid_evolves; [done|]. by apply (loaded_infos _ _ _ _ Hl k).
  - by rewrite Htable, (loaded_symbols _ _ _ _ Hl).
Qed.
End perf_map.

(** * Properties *)

(** C34: A perf map file whose functions are not empty, end in the address space and
    together have less than 4 GiB of code is loaded, for a process whose functions are
    not recycled and before any library is in use, without a panic and by valid calls
    only, one for each line at most, if the profile's tables have room for them below
    2^32. Its library gets a symbol table, and together with the returned mappings an
    address then resolves to the name of the last function in the file that covers it,
    with the category and JavaScript name of that name, unless a later function
    overlaps that one: the mapping of the function gives a relative address at which
    the symbol table has the function. No other address resolves. (Of the functions
    that are excluded, [wrapping_function_panics] and [empty_function_hides_next] show
    what the code does.) *)
Theorem perf_map_symbolicates `{DebugIdOps} `{Files} (n : nat) (files : fs) (pid : Z) (p : Profile)
    (m : JitCategories.JitCategoryManager) (content : string) :
  let entries := omap process_perf_map_line (lines content) in
  ProfileRuns.wf n p → Z.of_nat (n + length entries) < 2 ^ 32 → JitCategories.wf m p →
  GlobalLibTable.used_libs (global_libs p) = [] →
  read_to_string files ("/tmp/" +:+ map_name pid) = Some content →
  Forall in_memory entries → Forall code_size_fits entries →
  JitLayout.total (entry_function <$> entries) < 2 ^ 32 →
  ∃ p' m' maps lib library table, try_load_perf_map files pid p m None = Ok (p', m', None, Some maps) ∧
    by_calls (length entries) p p' ∧
    GlobalLibTable.all_libs (global_libs p') !! lib = Some library ∧
    LibraryInfo.symbol_table library = Some table ∧
    ∀ a, u64_range a →
      match LibMappings.convert_address maps a with
      | Some (relative, info) => ∃ i entry category js_frame symbol,
          in_force entries i entry ∧ covers entry a ∧ info = new_jit_function lib category js_frame ∧
          JitCategories.classified_as p' entry.2 (category, js_frame) ∧
          SymbolTable.lookup table relative = Ok (Some symbol) ∧ SymbolTable.name symbol = entry.2
      | None => ∀ i entry, in_force entries i entry → ¬ covers entry a
      end.
Proof.
  intros entries Hwf Hn Hm Hused Hread Hmem Hfits Htotal.
  destruct (try_load_ok n files pid p m None content) as
    (p' & m' & r' & maps & lib & library & l & Hload & Hby & Hm' & _ & Hr' & Hmaps & Hinfos & Hlook &
     Htable & Hl & Hld & Hby2 & Hrl); try done.
  assert (r' = None) as -> by (by apply Hr'). fold entries in Hload, Hby, Htable, Hld.
  destruct (loaded_entries _ _ _ _ Hld (eq_sym Hrl) Hfits) as [Hin Hout]. rewrite <-Hl in Hin, Hout.
  exists p', m', maps, lib, library. eexists. split_and!; [done..|]. intros a Ha.
  pose proof (by_calls_evolves _ _ _ Hby2) as He. unfold LibMappings.convert_address.
  destruct (LibMappings.lookup_impl maps a) as [mp|] eqn:Ea; cbn [mbind option_bind].
  2: { intros i entry Hf Hc. specialize (Hin i entry Hf). destruct entry as [[addr len] name].
       destruct Hin as (c & js & _ & Hcov). rewrite (Hcov a Hc) in Ea. done. }
  destruct (Hout a mp Ea) as (i & [[addr len] name] & Hf & Hc).
  destruct (Hin i _ Hf) as (c & js & Hcl & Hcov). rewrite (Hcov a Hc) in Ea. injection Ea as <-.
  simpl. set (fs' := entry_function <$> entries) in *.
  assert (Forall (λ f, 0 < f.2) fs') as Hpos.
  { unfold fs'. apply Forall_fmap. eapply Forall_impl; [exact Hfits|].
    intros [[addr' len'] name'] Hfit. simpl in *. rewrite wrap_u32_id by (unfold u32_range; lia). lia. }
  destruct Hf as [Hat Hlater]. rewrite Forall_lookup in Hfits, Hmem.
  pose proof (Hfits _ _ Hat) as Hlen. pose proof (Hmem _ _ Hat) as Haddr. simpl in Hlen, Haddr, Hc.
  assert (fs' !! i = Some (name, len)) as Hi.
  { unfold fs'. rewrite list_lookup_fmap, Hat. simpl. by rewrite wrap_u32_id by (unfold u32_range; lia). }
  assert (foldl (λ b f, add_u32 b f.2) 0 (entry_function <$> take i entries) =
    JitLayout.start_of fs' i) as ->.
  { rewrite fmap_take. fold fs'. pose proof (JitLayout.start_of_mono fs' i i Hpos (le_n _)).
    apply (JitLayout.layout_end _ 0); [by apply Forall_take|done|]. unfold JitLayout.start_of in *. lia. }
  pose proof (JitLayout.start_of_mono fs' (S i) (S i) Hpos (le_n _)) as Hend.
  pose proof (JitLayout.start_of_mono fs' i i Hpos (le_n _)) as Hstart.
  rewrite (JitLayout.start_of_next fs' i name len) in Hend by done.
  rewrite sub_u64_id, wrap_u32_id, add_u32_id by (unfold u64_range, u32_range in *; lia).
  exists i, (addr, len, name), c, js. eexists. split_and!; [done|done|done| |by apply (JitLayout.layout_symbolicates fs' i name len); [done..|lia]|done].
  by eapply JitCategories.classified_as_evolves.
Qed.

(** * Witness and examples *)
#[local] Existing Instance string_debug_ids.
#[local] Existing Instance string_debug_id_ops.
#[local] Definition newline : string := String LF "".
#[local] Definition example_content : string :=
  "34d83dd90000 10 JS:~render" +:+ newline +:+ "not a function" +:+ newline +:+
  "0x1000 20 RegExp" +:+ newline.
#[local] Definition example_profile : Profile := new "example" (f64_of_Z 0) 1000000.
#[local] Definition load (content : string) :=
  @try_load_perf_map _ _ (constant_files [("/tmp/perf-7.map", content)]) tt 7 example_profile
    JitCategories.new None.

Lemma perf_map_symbolicates_witness :
  ∃ p' m' maps, load example_content = Ok (p', m', None, Some maps) ∧ by_calls 2 example_profile p'.
Proof.
  assert (omap process_perf_map_line (lines example_content) =
    [(58103355211776, 16, "JS:~render"); (4096, 32, "RegExp")]) as Hentries by (vm_compute; reflexivity).
  destruct (@perf_map_symbolicates _ _ (constant_files [("/tmp/perf-7.map", example_content)]) 0 tt 7
    example_profile JitCategories.new example_content) as (p' & m' & maps & ? & ? & ? & Hload & Hby & _).
  - apply ProfileRuns.wf_new_profile.
  - vm_compute. reflexivity.
  - apply JitCategories.wf_new_manager.
  - reflexivity.
  - vm_compute. reflexivity.
  - rewrite Hentries. repeat constructor; simpl; lia.
  - rewrite Hentries. repeat constructor; simpl; lia.
  - rewrite Hentries. vm_compute. reflexivity.
  - exists p', m', maps. split; [exact Hload|exact Hby].
Defined.

(** Where an address of the file's functions leads: the result of the symbol
    lookup, or nothing. *)
#[local] Definition symbolicate (content : string) (a : Z) : res (option (option string)) :=
  match load content with
  | Ok (p', _, _, Some maps) =>
      match LibMappings.convert_address maps a with
      | None => Ok None
      | Some (relative, info) =>
          library ← Prelude.index (GlobalLibTable.all_libs (global_libs p')) (Hierarchy.lib_handle info);
          table ← unwrap (LibraryInfo.symbol_table library);
          symbol ← SymbolTable.lookup table relative;
          Ok (Some (option_map SymbolTable.name symbol))
      end
  | _ => Panic
  end.

Example perf_map_example :
  symbolicate example_content 4100 = Ok (Some (Some "RegExp")) ∧ symbolicate example_content 5000 = Ok None.
Proof. vm_compute. done. Qed.

(** An empty function hides the function after it: both start at one relative
    address, where the symbol table keeps the shorter symbol, and that one
    contains no address. *)
Lemma empty_function_hides_next :
  let content := "1000 0 empty" +:+ newline +:+ "2000 10 next" in
  symbolicate content 8197 = Ok (Some None) ∧
  symbolicate ("2000 10 next") 8197 = Ok (Some (Some "next")).
Proof. vm_compute. done. Qed.

(** A line whose function reaches beyond the address space ends the recorder. *)
Lemma wrapping_function_panics : load "ffffffffffffff00 200 f" = Panic.
Proof. vm_compute. done. Qed.
End PerfMap.
