(* ===== verification/JitDump.v ===== *)
(** Jitdump files: samply/src/shared/jitdump_manager.rs, [lib_handle_for_jitdump]
    of shared/utils.rs, and the ID of a file from samply-symbols/src/jitdump.rs. *)
From S2P Require Import Prelude BTree RustStr Types LibMappings Hierarchy StringTables SymbolTable LibTable.
From S2P Require Import Markers ThreadSafety ProfileModel ProfileSafety ProfileRuns RecorderMarkers.
From S2P Require Import ProfileCalls Flush Recycling JitCategories PathFiles SyntheticJit PerfMap.
From stdpp Require Import options.
Open Scope Z_scope.

(** * The reader of the linux-perf-data crate

    A reader is opened on a file and moves forward in it; a live file may have
    grown between two uses. *)
Inductive JitDumpRecordType :=
| JIT_CODE_LOAD | JIT_CODE_MOVE | JIT_CODE_DEBUG_INFO | JIT_CODE_CLOSE | JIT_CODE_UNWINDING_INFO
| JIT_CODE_OTHER (value : Z).
(** The fields the program uses; a function name is [None] if it is not UTF-8. *)
Inductive JitDumpRecord :=
| CodeLoad (code_addr : Z) (code_bytes_len : Z) (function_name : option string)
| CodeMove (old_code_addr new_code_addr code_size : Z)
| CodeDebugInfo
| CodeClose
| CodeUnwindingInfo
| OtherRecord.
(** A record and what [parse] makes of it. *)
Record RawJitDumpRecord := { raw_timestamp : Z; parse : option JitDumpRecord }.
Record JitDumpHeader := { header_pid : Z; header_timestamp : Z; elf_machine_arch : Z }.
Class JitDumpReader `{PathFiles.Files} := {
  reader : Type;
  open_reader : PathFiles.File → option reader;
  header : reader → JitDumpHeader;
  (** [Ok(Some(_))] is [Some]; errors and the end of the file are [None]. *)
  next_record_header : reader → reader * option JitDumpRecordType;
  skip_next_record : reader → reader * bool;
  next_record : reader → reader * option RawJitDumpRecord;
  (** How many bytes are left; a record has some. *)
  remaining : reader → nat;
  next_record_header_remaining : ∀ r, (remaining (next_record_header r).1 ≤ remaining r)%nat;
  skip_next_record_remaining : ∀ r,
    (skip_next_record r).2 = true → (remaining (skip_next_record r).1 < remaining r)%nat;
  next_record_remaining : ∀ r x,
    (next_record r).2 = Some x → (remaining (next_record r).1 < remaining r)%nat
}.

Module JitDump.
Import RustStr Hierarchy Profile ProfileCalls PathFiles RecorderMarkers PerfMap.

(** * The ID of a file *)
Fixpoint to_le_bytes (n : nat) (z : Z) : list Z :=
  match n with O => [] | S n' => z mod 256 :: to_le_bytes n' (z / 256) end.
Definition jitdump_id_bytes (pid timestamp arch : Z) : list Z :=
  [74; 73; 84; 68] ++ to_le_bytes 4 pid ++ to_le_bytes 8 timestamp ++ to_le_bytes 4 arch.

Section jitdump.
Context `{DebugIdOps} `{JitDumpReader}.

Definition debug_id_and_code_id_for_jitdump (pid timestamp arch : Z) : res (DebugId * list Z) :=
  let code_id_bytes := jitdump_id_bytes pid timestamp arch in
  debug_id ← unwrap (from_guid_age (take 16 code_id_bytes) 0);
  Ok (debug_id, code_id_bytes).

Definition lib_handle_for_jitdump (path : string) (h : JitDumpHeader) (profile : Profile)
    : res (Profile * LibraryHandle) :=
  '(debug_id, code_id_bytes) ←
    debug_id_and_code_id_for_jitdump (header_pid h) (header_timestamp h) (elf_machine_arch h);
  let code_id := code_id_from_binary code_id_bytes in
  let name := default path (file_name path) in
  Ok (add_lib profile
    {| LibraryInfo.name := name; LibraryInfo.debug_name := name; LibraryInfo.path := path;
       LibraryInfo.debug_path := path; LibraryInfo.debug_id := debug_id;
       LibraryInfo.code_id := Some code_id; LibraryInfo.arch := None;
       LibraryInfo.symbol_table := None |}).

(** * One file *)
Record SingleJitDumpProcessor := {
  file_reader : option reader;
  lib_handle : LibraryHandle;
  lib_mapping_ops : LibMappingOpQueue;
  symbols : list SymbolTable.Symbol;
  thread_handle : ThreadHandle;
  cumulative_address : Z
}.
Definition new_processor (r : reader) (lib_handle' : LibraryHandle) (thread : ThreadHandle)
    : SingleJitDumpProcessor :=
  {| file_reader := Some r; lib_handle := lib_handle'; lib_mapping_ops := []; symbols := [];
     thread_handle := thread; cumulative_address := 0 |}.
Definition with_reader (j : SingleJitDumpProcessor) (r : option reader) : SingleJitDumpProcessor :=
  {| file_reader := r; lib_handle := lib_handle j; lib_mapping_ops := lib_mapping_ops j;
     symbols := symbols j; thread_handle := thread_handle j;
     cumulative_address := cumulative_address j |}.
Definition push_op (j : SingleJitDumpProcessor) (timestamp : Z) (op : LibMappingOp)
    : SingleJitDumpProcessor :=
  {| file_reader := file_reader j; lib_handle := lib_handle j;
     lib_mapping_ops := queue_push (lib_mapping_ops j) timestamp op; symbols := symbols j;
     thread_handle := thread_handle j; cumulative_address := cumulative_address j |}.

(** What a processor works on besides its file. *)
Record Shared := {
  jit_category_manager : JitCategories.JitCategoryManager;
  profile : Profile;
  recycler : option Recycling.JitFunctionRecycler
}.
Definition with_profile (s : Shared) (p : Profile) : Shared :=
  {| jit_category_manager := jit_category_manager s; profile := p; recycler := recycler s |}.

Definition close_and_commit_symbol_table (j : SingleJitDumpProcessor) (p : Profile)
    : res (SingleJitDumpProcessor * Profile) :=
  match file_reader j with
  | None => Ok (j, p)
  | Some _ =>
      p' ← set_lib_symbol_table p (lib_handle j) (SymbolTable.new (symbols j));
      Ok ({| file_reader := None; lib_handle := lib_handle j; lib_mapping_ops := lib_mapping_ops j;
             symbols := []; thread_handle := thread_handle j;
             cumulative_address := cumulative_address j |}, p')
  end.

(** The arm of [JitDumpRecord::CodeLoad]. *)
Definition load_code (c : TimestampConverter) (should_add_marker : bool) (timestamp : Z)
    (code_addr code_bytes_len : Z) (function_name : option string)
    (j : SingleJitDumpProcessor) (s : Shared) : res (SingleJitDumpProcessor * Shared) :=
  let start_avma := code_addr in
  let code_size := wrap_u32 code_bytes_len in
  let end_avma := add_u64 start_avma code_size in
  let relative_address_at_start := cumulative_address j in
  let symbol_name := default "" function_name in
  let j1 :=
    {| file_reader := file_reader j; lib_handle := lib_handle j; lib_mapping_ops := lib_mapping_ops j;
       symbols := push (symbols j)
         {| SymbolTable.address := relative_address_at_start; SymbolTable.size := Some code_size;
            SymbolTable.name := symbol_name |};
       thread_handle := thread_handle j;
       cumulative_address := add_u32 (cumulative_address j) code_size |} in
  p1 ← (if should_add_marker then
          let '(p0, symbol_name_handle) := intern_string (profile s) symbol_name in
          fst <$> add_marker p0 (thread_handle j) (Schema.Instant (convert_time c timestamp))
                    (jit_function_add_marker symbol_name_handle)
        else Ok (profile s));
  let '(recycler', (lib_handle', relative_address')) :=
    match recycler s with
    | Some r =>
        let '(r', known) :=
          Recycling.recycle r symbol_name code_size (lib_handle j) relative_address_at_start in
        (Some r', known)
    | None => (None, (lib_handle j, relative_address_at_start))
    end in
  let '(manager, p2, (category, js_frame)) :=
    JitCategories.classify_jit_symbol (jit_category_manager s) symbol_name p1 in
  Ok (push_op j1 timestamp
        (Add {| add_start_avma := start_avma; add_end_avma := end_avma;
                add_relative_address_at_start := relative_address';
                add_info := new_jit_function lib_handle' category js_frame |}),
      {| jit_category_manager := manager; profile := p2; recycler := recycler' |}).

(** One raw record; [true] if it ends the processing. *)
Definition process_record (c : TimestampConverter) (should_add_marker : bool)
    (raw : RawJitDumpRecord) (j : SingleJitDumpProcessor) (s : Shared)
    : res (SingleJitDumpProcessor * Shared * bool) :=
  match parse raw with
  | Some (CodeLoad code_addr code_bytes_len function_name) =>
      '(j', s') ← load_code c should_add_marker (raw_timestamp raw) code_addr code_bytes_len
                    function_name j s;
      Ok (j', s', false)
  | Some (CodeMove old_code_addr new_code_addr code_size) =>
      Ok (push_op j (raw_timestamp raw)
            (Move {| old_start_avma := old_code_addr; new_start_avma := new_code_addr;
                     new_end_avma := add_u64 new_code_addr code_size |}), s, false)
  | Some CodeUnwindingInfo => Ok (j, s, false)
  | Some CodeClose =>
      '(j', p') ← close_and_commit_symbol_table (push_op j (raw_timestamp raw) Clear) (profile s);
      Ok (j', with_profile s p', true)
  | _ => Ok (j, s, false)
  end.

Definition interesting (t : JitDumpRecordType) : bool :=
  match t with
  | JIT_CODE_LOAD | JIT_CODE_MOVE | JIT_CODE_UNWINDING_INFO | JIT_CODE_CLOSE => true
  | _ => false
  end.

(** The [while] loop over the records. *)
Fixpoint process_records (fuel : nat) (c : TimestampConverter) (should_add_marker : bool)
    (r : reader) (j : SingleJitDumpProcessor) (s : Shared)
    : loops (SingleJitDumpProcessor * Shared) :=
  match fuel with
  | O => None
  | S fuel' =>
      let '(r1, next) := next_record_header r in
      match next with
      | None => returned (Ok (with_reader j (Some r1), s))
      | Some record_type =>
          if interesting record_type then
            let '(r2, raw) := next_record r1 in
            match raw with
            | None => returned (Ok (with_reader j (Some r2), s))
            | Some raw =>
                '(j', s', closed) ←
                  returned (process_record c should_add_marker raw (with_reader j (Some r2)) s);
                if closed : bool then returned (Ok (j', s'))
                else process_records fuel' c should_add_marker r2 j' s'
            end
          else
            let '(r2, skipped) := skip_next_record r1 in
            if skipped : bool then process_records fuel' c should_add_marker r2 j s
            else returned (Ok (with_reader j (Some r2), s))
      end
  end.
Definition process_pending_records (c : TimestampConverter) (should_add_marker : bool)
    (j : SingleJitDumpProcessor) (s : Shared) : loops (SingleJitDumpProcessor * Shared) :=
  match file_reader j with
  | None => returned (Ok (j, s))
  | Some r => process_records (S (remaining r)) c should_add_marker r j s
  end.

Definition finish_processor (j : SingleJitDumpProcessor) (p : Profile)
    : res (LibMappingOpQueue * Profile) :=
  '(j', p') ← close_and_commit_symbol_table j p;
  Ok (lib_mapping_ops j', p').

(** * All files of a process *)
Record JitDumpManager := {
  pending_jitdump_paths : list (ThreadHandle * string * list string);
  processors : list SingleJitDumpProcessor;
  unlink_after_open : bool;
  should_emit_jit_markers : bool
}.
Definition new_manager (unlink_after_open' should_emit_jit_markers' : bool) : JitDumpManager :=
  {| pending_jitdump_paths := []; processors := []; unlink_after_open := unlink_after_open';
     should_emit_jit_markers := should_emit_jit_markers' |}.
Definition add_jitdump_path (m : JitDumpManager) (thread : ThreadHandle) (path : string)
    (lookup_dirs : list string) : JitDumpManager :=
  {| pending_jitdump_paths := push (pending_jitdump_paths m) (thread, path, lookup_dirs);
     processors := processors m; unlink_after_open := unlink_after_open m;
     should_emit_jit_markers := should_emit_jit_markers m |}.

Definition jitdump_reader_for_path (files : fs) (path : string) (lookup_dirs : list string)
    (unlink : bool) : fs * option (reader * string) :=
  match open_file_with_fallback files path lookup_dirs with
  | None => (files, None)
  | Some (file, path') =>
      match open_reader file with
      | None => (files, None)
      | Some r =>
          if unlink then
            let '(files', removed) := remove_file files path' in
            (files', if removed : bool then Some (r, path') else None)
          else (files, Some (r, path'))
      end
  end.

(** [retain_mut]: the paths that stay pending, and the processors with the new
    ones behind. *)
Fixpoint open_pending (files : fs) (unlink : bool)
    (pending : list (ThreadHandle * string * list string)) (js : list SingleJitDumpProcessor)
    (p : Profile)
    : res (fs * list (ThreadHandle * string * list string) * list SingleJitDumpProcessor * Profile) :=
  match pending with
  | [] => Ok (files, [], js, p)
  | (thread, path, lookup_dirs) :: pending' =>
      let '(files1, opened) := jitdump_reader_for_path files path lookup_dirs unlink in
      match opened with
      | None =>
          '(files', retained, js', p') ← open_pending files1 unlink pending' js p;
          Ok (files', (thread, path, lookup_dirs) :: retained, js', p')
      | Some (r, actual_path) =>
          '(p1, lib_handle') ← lib_handle_for_jitdump actual_path (header r) p;
          open_pending files1 unlink pending' (push js (new_processor r lib_handle' thread)) p1
      end
  end.
Fixpoint process_all (c : TimestampConverter) (should_add_marker : bool)
    (js : list SingleJitDumpProcessor) (s : Shared) : loops (list SingleJitDumpProcessor * Shared) :=
  match js with
  | [] => returned (Ok ([], s))
  | j :: js' =>
      '(j', s1) ← process_pending_records c should_add_marker j s;
      '(js'', s2) ← process_all c should_add_marker js' s1;
      returned (Ok (j' :: js'', s2))
  end.
Definition process_all_pending_records (files : fs) (c : TimestampConverter) (m : JitDumpManager)
    (s : Shared) : loops (fs * JitDumpManager * Shared) :=
  '(files', retained, js, p) ←
    returned (open_pending files (unlink_after_open m) (pending_jitdump_paths m) (processors m)
                (profile s));
  '(js', s') ← process_all c (should_emit_jit_markers m) js (with_profile s p);
  returned (Ok (files',
    {| pending_jitdump_paths := retained; processors := js';
       unlink_after_open := unlink_after_open m;
       should_emit_jit_markers := should_emit_jit_markers m |}, s')).

Fixpoint finish_all (js : list SingleJitDumpProcessor) (p : Profile)
    : res (list LibMappingOpQueue * Profile) :=
  match js with
  | [] => Ok ([], p)
  | j :: js' =>
      '(ops, p1) ← finish_processor j p;
      '(rest, p2) ← finish_all js' p1;
      Ok (ops :: rest, p2)
  end.
Definition finish (files : fs) (c : TimestampConverter) (m : JitDumpManager) (s : Shared)
    : loops (fs * list LibMappingOpQueue * Shared) :=
  '(files', m', s') ← process_all_pending_records files c m s;
  '(ops, p) ← returned (finish_all (processors m') (profile s'));
  returned (Ok (files', ops, with_profile s' p)).

(** * Invariants *)

Record shared_ok (s : Shared) : Prop := {
  shared_manager : JitCategories.wf (jit_category_manager s) (profile s);
  shared_recycler : recycler_valid (profile s) (recycler s);
  shared_recording : recording (profile s)
}.

(** ** What a file contains *)

(** The records of the file from where the reader is, as far as they can be read. *)
Inductive reads : reader → list RawJitDumpRecord → Prop :=
| reads_end r : (next_record_header r).2 = None → reads r []
| reads_skip r record_type raws :
    (next_record_header r).2 = Some record_type → interesting record_type = false →
    (skip_next_record (next_record_header r).1).2 = true →
    reads (skip_next_record (next_record_header r).1).1 raws → reads r raws
| reads_skip_failed r record_type :
    (next_record_header r).2 = Some record_type → interesting record_type = false →
    (skip_next_record (next_record_header r).1).2 = false → reads r []
| reads_record r record_type raw raws :
    (next_record_header r).2 = Some record_type → interesting record_type = true →
    (next_record (next_record_header r).1).2 = Some raw →
    reads (next_record (next_record_header r).1).1 raws → reads r (raw :: raws)
| reads_record_failed r record_type :
    (next_record_header r).2 = Some record_type → interesting record_type = true →
    (next_record (next_record_header r).1).2 = None → reads r [].

Definition closes (raw : RawJitDumpRecord) : bool :=
  match parse raw with Some CodeClose => true | _ => false end.
Fixpoint until_close (raws : list RawJitDumpRecord) : list RawJitDumpRecord :=
  match raws with
  | [] => []
  | raw :: raws' => raw :: (if closes raw then [] else until_close raws')
  end.

(** The functions of a file, and where the next one goes in its library. *)
Definition function_of (raw : RawJitDumpRecord) : option (string * Z) :=
  match parse raw with
  | Some (CodeLoad _ len name) => Some (default "" name, wrap_u32 len)
  | _ => None
  end.
Definition functions (raws : list RawJitDumpRecord) : list (string * Z) := omap function_of raws.
Definition next_address (fs : list (string * Z)) : Z := foldl (λ b f, add_u32 b f.2) 0 fs.

(** The operations the records stand for; [alone] if functions are not recycled
    from other files. *)
Inductive ops_for (p : Profile) (alone : Prop) (lib : LibraryHandle)
    : list RawJitDumpRecord → LibMappingOpQueue → Prop :=
| ops_none : ops_for p alone lib [] []
| ops_load raws ops raw addr len name a lib' category js_frame :
    ops_for p alone lib raws ops → parse raw = Some (CodeLoad addr len name) →
    add_start_avma a = addr → add_end_avma a = addr + len →
    add_info a = new_jit_function lib' category js_frame →
    JitCategories.classified_as p (default "" name) (category, js_frame) →
    (alone → lib' = lib ∧ add_relative_address_at_start a = next_address (functions raws)) →
    ops_for p alone lib (raws ++ [raw]) (ops ++ [(raw_timestamp raw, Add a)])
| ops_move raws ops raw old new size m :
    ops_for p alone lib raws ops → parse raw = Some (CodeMove old new size) →
    old_start_avma m = old → new_start_avma m = new → new_end_avma m = new + size →
    ops_for p alone lib (raws ++ [raw]) (ops ++ [(raw_timestamp raw, Move m)])
| ops_close raws ops raw :
    ops_for p alone lib raws ops → parse raw = Some CodeClose →
    ops_for p alone lib (raws ++ [raw]) (ops ++ [(raw_timestamp raw, Clear)])
| ops_other raws ops raw :
    ops_for p alone lib raws ops →
    match parse raw with Some (CodeLoad _ _ _) | Some (CodeMove _ _ _) | Some CodeClose => False | _ => True end →
    ops_for p alone lib (raws ++ [raw]) ops.

(** The processor of a file after [raws]. *)
Record processor_ok (p : Profile) (alone : Prop) (raws : list RawJitDumpRecord)
    (j : SingleJitDumpProcessor) : Prop := {
  processor_lib : (lib_handle j < ProfileRuns.num_libs p)%nat;
  processor_thread : (thread_handle j < length (threads p))%nat;
  processor_address : cumulative_address j = next_address (functions raws);
  processor_symbols :
    match file_reader j with
    | Some _ => symbols j = JitLayout.layout 0 (functions raws)
    | None => True
    end;
  processor_valid : Forall (λ '(_, op), op_ordered op ∧ Flush.op_info (info_valid p) op)
    (lib_mapping_ops j);
  processor_ops : ops_for p alone (lib_handle j) raws (lib_mapping_ops j)
}.

(** What a well-formed file contains: code in the address space. *)
Definition record_in_memory (raw : RawJitDumpRecord) : Prop :=
  match parse raw with
  | Some (CodeLoad addr len _) => 0 ≤ addr ∧ 0 ≤ len < 2 ^ 32 ∧ addr + len < 2 ^ 64
  | Some (CodeMove _ addr size) => 0 ≤ addr ∧ 0 ≤ size ∧ addr + size < 2 ^ 64
  | _ => True
  end.
(** [R] holds of a reader of a well-formed file, wherever it is. *)
Record well_formed_file (R : reader → Prop) : Prop := {
  file_header : ∀ r, R r → R (next_record_header r).1;
  file_skip : ∀ r, R r → R (skip_next_record r).1;
  file_next : ∀ r, R r → R (next_record r).1;
  file_record : ∀ r raw, R r → (next_record r).2 = Some raw → record_in_memory raw
}.

(** The library of the file has the symbols of its functions. *)
Definition committed (p : Profile) (fs : list (string * Z)) (lib : LibraryHandle) : Prop :=
  ∃ library, GlobalLibTable.all_libs (global_libs p) !! lib = Some library ∧
    LibraryInfo.symbol_table library = Some (SymbolTable.new (JitLayout.layout 0 fs)).

(** * Lemmas *)
Lemma functions_snoc raws raw :
  functions (raws ++ [raw]) = functions raws ++ option_list (function_of raw).
Proof. unfold functions. rewrite omap_app. simpl. by destruct (function_of raw). Qed.

Lemma reads_total r : ∃ raws, reads r raws ∧ (length raws ≤ remaining r)%nat.
Proof.
  remember (remaining r) as k eqn:Hk. revert r Hk.
  induction (lt_wf k) as [k _ IH]. intros r ->.
  destruct (next_record_header r).2 as [t|] eqn:Ht; [|exists []; split; [by constructor|simpl; lia]].
  pose proof (next_record_header_remaining r) as Hr. set (r1 := (next_record_header r).1) in *.
  destruct (interesting t) eqn:Hi.
  - destruct (next_record r1).2 as [raw|] eqn:Hraw.
    + pose proof (next_record_remaining r1 raw Hraw) as Hlt.
      destruct (IH (remaining (next_record r1).1) ltac:(lia) _ eq_refl) as (raws & Hreads & Hlen).
      exists (raw :: raws). split; [by eapply reads_record|simpl; lia].
    + exists []. split; [by eapply reads_record_failed|simpl; lia].
  - destruct (skip_next_record r1).2 eqn:Hskip.
    + pose proof (skip_next_record_remaining r1 Hskip) as Hlt.
      destruct (IH (remaining (skip_next_record r1).1) ltac:(lia) _ eq_refl) as (raws & Hreads & Hlen).
      exists raws. split; [by eapply reads_skip|lia].
    + exists []. split; [by eapply reads_skip_failed|simpl; lia].
Qed.

Lemma ops_for_evolves p p' alone lib raws ops :
  evolves p p' → ops_for p alone lib raws ops → ops_for p' alone lib raws ops.
Proof.
  intros He. induction 1; [constructor| | | |].
  - eapply ops_load; try done. by eapply JitCategories.classified_as_evolves.
  - by eapply ops_move.
  - by apply ops_close.
  - by apply ops_other.
Qed.

Lemma processor_ok_evolves p p' alone raws j :
  evolves p p' → processor_ok p alone raws j → processor_ok p' alone raws j.
Proof.
  intros He []. pose proof (evolves_libs _ _ He). pose proof (evolves_threads _ _ He).
  split; [lia|lia|done|done| |by eapply ops_for_evolves]. eapply Forall_impl; [done|].
  intros [t op] (Ho & Hi). split; [done|]. destruct op; try done. simpl in *. by eapply info_valid_evolves.
Qed.

Lemma processor_ok_reader p alone raws j r r' :
  file_reader j = Some r → processor_ok p alone raws j → processor_ok p alone raws (with_reader j (Some r')).
Proof. intros Hr []. split; try done. by rewrite Hr in *. Qed.

(** An operation for a record that is no function. *)
Lemma push_op_ok p alone raws raw j op :
  processor_ok p alone raws j → function_of raw = None → op_ordered op →
  Flush.op_info (info_valid p) op →
  ops_for p alone (lib_handle j) (raws ++ [raw]) (lib_mapping_ops j ++ [(raw_timestamp raw, op)]) →
  processor_ok p alone (raws ++ [raw]) (push_op j (raw_timestamp raw) op).
Proof.
  intros [] Hf Ho Hi Hops. split; simpl; rewrite ?functions_snoc, ?Hf; simpl; rewrite ?app_nil_r; try done.
  apply Forall_app. split; [done|]. by constructor.
Qed.

Lemma shared_ok_evolves s p :
  shared_ok s → evolves (profile s) p → shared_ok (with_profile s p).
Proof.
  intros [] He. split; simpl.
  - by eapply JitCategories.wf_evolves.
  - by eapply recycler_valid_evolves.
  - by eapply recording_evolves.
Qed.
(** The marker of a function. *)
Lemma jit_marker_ok n p thread timing name :
  ProfileRuns.wf n p → Z.of_nat (n + 4) < 2 ^ 32 → statics_known p → (thread < length (threads p))%nat →
  ∃ p', ('(p0, symbol_name_handle) ← mret (intern_string p name);
         fst <$> add_marker p0 thread timing (jit_function_add_marker symbol_name_handle)) = Ok p' ∧
    by_calls 4 p p'.
Proof.
  intros Hwf Hn Hk Hth. destruct (intern_string p name) as [p0 h] eqn:Hi.
  destruct (intern_string_spec n p name p0 h Hwf) as [Hby Hget]; [lia|done|].
  pose proof (by_calls_evolves _ _ _ Hby) as He.
  destruct (add_static_marker_ok (n + 1) p0 thread timing JitFunctionAddMarker (inr "JitFunctionAdd")
    (one_string h) (Schema.from_schema (schema JitFunctionAddMarker))) as (p' & hd & th' & Hadd & Hby' & _).
  - apply (by_calls_wf _ _ p); [done|done|lia].
  - by left.
  - by apply schema_in_force_known; [apply (evolves_statics _ _ He)|left].
  - simpl. lia.
  - pose proof (evolves_threads _ _ He). lia.
  - done.
  - intros [|[|i]] field Hf; try done. injection Hf as <-. exists name. exact Hget.
  - exists p'. cbn [mbind mret res_bind res_ret]. unfold jit_function_add_marker. rewrite Hadd. split; [done|].
    apply (by_calls_trans 1 3 _ p0); [done|]. apply (by_calls_weaken (2 + 1)); [lia|done].
Qed.

Lemma load_code_ok n c should_add_marker raw addr len name alone raws j s :
  ProfileRuns.wf n (profile s) → Z.of_nat (n + 5) < 2 ^ 32 → shared_ok s →
  (alone → recycler s = None) → processor_ok (profile s) alone raws j → is_Some (file_reader j) →
  parse raw = Some (CodeLoad addr len name) → 0 ≤ addr → 0 ≤ len < 2 ^ 32 → addr + len < 2 ^ 64 →
  ∃ j' s', load_code c should_add_marker (raw_timestamp raw) addr len name j s = Ok (j', s') ∧
    by_calls 5 (profile s) (profile s') ∧ shared_ok s' ∧ (recycler s' = None ↔ recycler s = None) ∧
    processor_ok (profile s') alone (raws ++ [raw]) j' ∧
    file_reader j' = file_reader j ∧ lib_handle j' = lib_handle j.
Proof.
  intros Hwf Hn Hs Hal Hj [r0 Hr] Hraw Ha Hlen Hend. unfold load_code. rewrite Hr.
  rewrite wrap_u32_id, add_u64_id by (unfold u32_range; lia).
  set (sym := default "" name). set (t := raw_timestamp raw).
  assert (∃ p1, (if should_add_marker then
          let '(p0, symbol_name_handle) := intern_string (profile s) sym in
          fst <$> add_marker p0 (thread_handle j) (Schema.Instant (convert_time c t))
                    (jit_function_add_marker symbol_name_handle)
        else Ok (profile s)) = Ok p1 ∧ by_calls 4 (profile s) p1) as (p1 & -> & Hby1).
  { destruct should_add_marker; [|exists (profile s); split; [done|apply by_calls_refl]].
    destruct (jit_marker_ok n (profile s) (thread_handle j) (Schema.Instant (convert_time c t)) sym)
      as (p' & Hadd & Hby); [done|lia|apply (recording_statics _ (shared_recording _ Hs))|
      apply (processor_thread _ _ _ _ Hj)|].
    exists p'. split; [|done]. cbn [mbind mret res_bind res_ret] in Hadd.
    by destruct (intern_string (profile s) sym). }
  cbn [mbind res_bind]. pose proof (by_calls_evolves _ _ _ Hby1) as He1.
  pose proof (recycle_valid (profile s) (recycler s) sym len (lib_handle j) (cumulative_address j)
    (shared_recycler _ Hs) (processor_lib _ _ _ _ Hj)) as Hrec.
  destruct (match recycler s with Some _ => _ | None => _ end) as [r' [lib' a']].
  destruct Hrec as (Hr' & Hl' & Hnone & Hsame).
  pose proof (classify_valid (n + 4) (jit_category_manager s) sym p1
    (JitCategories.wf_evolves _ _ _ He1 (shared_manager _ Hs))) as Hc.
  destruct (JitCategories.classify_jit_symbol _ _ _) as [[m' p2] [cat js]].
  destruct Hc as (Hm' & Hby2 & Hcl).
  { apply (by_calls_wf _ _ (profile s)); [done|done|lia]. }
  { lia. }
  assert (by_calls 5 (profile s) p2) as Hby by (by apply (by_calls_trans 4 1 _ p1)).
  pose proof (by_calls_evolves _ _ _ Hby) as He.
  pose proof (evolves_libs _ _ He) as Hlibs.
  eexists _, _. split; [done|]. cbn [profile recycler]. split_and!; try done.
  - split; simpl; [done|by eapply recycler_valid_evolves|].
    eapply recording_evolves; [done|apply (shared_recording _ Hs)].
  - pose proof (processor_ok_evolves _ _ _ _ _ He Hj) as [? ? Hnext Hsy ? ?]. rewrite Hr in Hsy.
    assert (function_of raw = Some (sym, len)) as Hf.
    { unfold function_of. rewrite Hraw, wrap_u32_id; [done|unfold u32_range; lia]. }
    split; simpl; try done.
    + rewrite functions_snoc, Hf. unfold next_address. by rewrite foldl_app, Hnext.
    + rewrite functions_snoc, Hf, JitLayout.layout_app, Hsy, Hnext. done.
    + apply Forall_app. split; [done|]. constructor; [|done]. split; [simpl; lia|].
      simpl. eapply classified_info_valid; [done|lia].
    + eapply ops_load; try done. intros HA. destruct (Hsame (Hal HA)) as [-> ->]. by split.
Qed.

Lemma close_ok n p alone raws j :
  ProfileRuns.wf n p → Z.of_nat n < 2 ^ 32 → recording p → processor_ok p alone raws j →
  ∃ j' p', close_and_commit_symbol_table j p = Ok (j', p') ∧ by_calls 0 p p' ∧
    processor_ok p' alone raws j' ∧ file_reader j' = None ∧ lib_handle j' = lib_handle j ∧
    lib_mapping_ops j' = lib_mapping_ops j ∧
    match file_reader j with Some _ => committed p' (functions raws) (lib_handle j) | None => p' = p end.
Proof.
  intros Hwf Hn Hrec Hj. unfold close_and_commit_symbol_table.
  destruct (file_reader j) as [r|] eqn:Hr.
  2: { exists j, p. split_and!; try done; apply by_calls_refl. }
  destruct (set_lib_symbol_table_spec n p (lib_handle j) (symbols j)) as
    (p' & library & -> & Hby & Hlook & Htable); [done|done|apply (processor_lib _ _ _ _ Hj)|
    apply (recording_used _ Hrec)|].
  cbn [mbind res_bind]. eexists _, p'. split; [done|].
  pose proof (processor_ok_evolves _ _ _ _ _ (by_calls_evolves _ _ _ Hby) Hj) as [? ? ? Hs ? ?].
  rewrite Hr in Hs. split_and!; try done. exists library. by rewrite Htable, Hs.
Qed.

Lemma process_record_ok n c should_add_marker raw alone raws j s :
  ProfileRuns.wf n (profile s) → Z.of_nat (n + 5) < 2 ^ 32 → shared_ok s →
  (alone → recycler s = None) → processor_ok (profile s) alone raws j → is_Some (file_reader j) →
  record_in_memory raw →
  ∃ j' s', process_record c should_add_marker raw j s = Ok (j', s', closes raw) ∧
    by_calls 5 (profile s) (profile s') ∧ shared_ok s' ∧ (recycler s' = None ↔ recycler s = None) ∧
    processor_ok (profile s') alone (raws ++ [raw]) j' ∧ lib_handle j' = lib_handle j ∧
    if closes raw then file_reader j' = None ∧ committed (profile s') (functions (raws ++ [raw])) (lib_handle j)
    else file_reader j' = file_reader j.
Proof.
  intros Hwf Hn Hs Hal Hj Hr Hmem. unfold process_record, closes. unfold record_in_memory in Hmem.
  assert (match parse raw with Some (CodeLoad _ _ _) | Some (CodeMove _ _ _) | Some CodeClose => False | _ => True end →
    processor_ok (profile s) alone (raws ++ [raw]) j) as Hother.
  { intros Hp. assert (function_of raw = None) as Hf
      by (unfold function_of; by destruct (parse raw) as [[]|]).
    destruct Hj. split; rewrite ?functions_snoc, ?Hf; simpl; rewrite ?app_nil_r; try done.
    by apply ops_other. }
  destruct (parse raw) as [[addr len name|old new size| | | |]|] eqn:Hraw;
    try (exists j, s; split_and!; try done; first [apply by_calls_refl|by apply Hother]).
  - destruct Hmem as (? & ? & ?).
    destruct (load_code_ok n c should_add_marker raw addr len name alone raws j s)
      as (j' & s' & -> & ? & ? & ? & ? & ? & ?); try done.
    cbn [mbind res_bind]. by exists j', s'.
  - destruct Hmem as (? & ? & ?). eexists _, s. split; [done|].
    split_and!; try done; [apply by_calls_refl|]. apply push_op_ok; try done.
    + unfold function_of. by rewrite Hraw.
    + simpl. rewrite add_u64_id by lia. lia.
    + eapply ops_move; try done; [apply (processor_ops _ _ _ _ Hj)|]. simpl. by rewrite add_u64_id by lia.
  - destruct (close_ok n (profile s) alone (raws ++ [raw]) (push_op j (raw_timestamp raw) Clear)) as
      (j' & p' & -> & Hby & Hj' & Hnone & Hlib & _ & Hcom); [done|lia|apply (shared_recording _ Hs)| |].
    { apply push_op_ok; try done; [unfold function_of; by rewrite Hraw|].
      apply ops_close; [apply (processor_ops _ _ _ _ Hj)|done]. }
    destruct Hr as [r0 Hr0]. simpl in Hcom. rewrite Hr0 in Hcom.
    cbn [mbind res_bind]. eexists j', _. split; [done|].
    split_and!; try done; [by apply (by_calls_weaken 0); [lia|]|].
    apply shared_ok_evolves; [done|]. by eapply by_calls_evolves.
Qed.

(** The loop, whatever the file is. *)
Lemma process_records_ok R fuel n c should_add_marker r alone raws raws' j s :
  well_formed_file R → R r → reads r raws' → (remaining r < fuel)%nat →
  ProfileRuns.wf n (profile s) → Z.of_nat (n + 5 * length raws') < 2 ^ 32 → shared_ok s →
  (alone → recycler s = None) → processor_ok (profile s) alone raws j → is_Some (file_reader j) →
  ∃ j' s', process_records fuel c should_add_marker r j s = Some (Ok (j', s')) ∧
    by_calls (5 * length raws') (profile s) (profile s') ∧ shared_ok s' ∧
    (recycler s' = None ↔ recycler s = None) ∧
    processor_ok (profile s') alone (raws ++ until_close raws') j' ∧ lib_handle j' = lib_handle j ∧
    match file_reader j' with
    | Some r' => R r' ∧ until_close raws' = raws'
    | None => committed (profile s') (functions (raws ++ until_close raws')) (lib_handle j)
    end.
Proof.
  intros HR Hr Hreads. revert fuel n raws j s Hr.
  induction Hreads as [r Hnext|r ty raws' Hnext Hi Hskip _ IH|r ty Hnext Hi Hskip|
    r ty raw raws' Hnext Hi Hraw _ IH|r ty Hnext Hi Hraw];
    intros fuel n raws j s Hr Hfuel Hwf Hn Hs Hal Hj [r0 Hj0];
    (destruct fuel as [|fuel]; [lia|]); cbn [process_records];
    pose proof (next_record_header_remaining r) as Hle; pose proof (file_header _ HR r Hr) as Hr1;
    destruct (next_record_header r) as [r1 nx]; simpl in *; subst nx.
  - eexists _, _. split; [done|]. rewrite app_nil_r. simpl.
    split_and!; try done; [apply by_calls_refl|by eapply processor_ok_reader].
  - rewrite Hi. pose proof (skip_next_record_remaining r1 Hskip) as Hlt.
    pose proof (file_skip _ HR r1 Hr1) as Hr2.
    destruct (skip_next_record r1) as [r2 sk]. simpl in *. subst sk.
    apply (IH fuel n); try done. lia.
  - rewrite Hi. pose proof (file_skip _ HR r1 Hr1) as Hr2.
    destruct (skip_next_record r1) as [r2 sk]. simpl in *. subst sk.
    eexists _, _. split; [done|]. rewrite app_nil_r. simpl.
    split_and!; try done; [apply by_calls_refl|by eapply processor_ok_reader].
  - rewrite Hi. pose proof (next_record_remaining r1 raw Hraw) as Hlt.
    pose proof (file_next _ HR r1 Hr1) as Hr2. pose proof (file_record _ HR r1 raw Hr1 Hraw) as Hmem.
    destruct (next_record r1) as [r2 rw]. simpl in *. subst rw.
    destruct (process_record_ok n c should_add_marker raw alone raws (with_reader j (Some r2)) s) as
      (j1 & s1 & -> & Hby & Hs1 & Hrec1 & Hj1 & Hlib1 & Hend); try done; [lia|by eapply processor_ok_reader|].
    cbn [mbind loops_bind returned]. simpl in Hlib1, Hend.
    destruct (closes raw).
    + eexists j1, s1. split; [done|]. destruct Hend as [-> Hcom]. split_and!; try done.
      apply (by_calls_weaken 5); [lia|done].
    + destruct (IH fuel (n + 5)%nat (raws ++ [raw]) j1 s1) as
        (j2 & s2 & -> & Hby2 & Hs2 & Hrec2 & Hj2 & Hlib2 & Hend2); try done; [lia| |lia|tauto|].
      { apply (by_calls_wf _ _ (profile s)); [done|done|lia]. }
      rewrite <-app_assoc in Hj2, Hend2. simpl in Hj2, Hend2.
      exists j2, s2. split_and!; try done; [|tauto|congruence|].
      * apply (by_calls_weaken (5 + 5 * length raws')); [lia|]. by eapply by_calls_trans.
      * rewrite Hlib1 in Hend2. destruct (file_reader j2); [|done]. destruct Hend2 as [? ->]. done.
  - rewrite Hi. pose proof (file_next _ HR r1 Hr1) as Hr2.
    destruct (next_record r1) as [r2 rw]. simpl in *. subst rw.
    eexists _, _. split; [done|]. rewrite app_nil_r. simpl.
    split_and!; try done; [apply by_calls_refl|by eapply processor_ok_reader].
Qed.

Lemma process_pending_records_ok R n c should_add_marker alone raws j s :
  well_formed_file R →
  match file_reader j with
  | Some r => R r ∧ Z.of_nat (n + 5 * remaining r) < 2 ^ 32
  | None => True
  end →
  ProfileRuns.wf n (profile s) → shared_ok s → (alone → recycler s = None) →
  processor_ok (profile s) alone raws j →
  ∃ raws' j' s', match file_reader j with Some r => reads r raws' | None => raws' = [] end ∧
    process_pending_records c should_add_marker j s = Some (Ok (j', s')) ∧
    by_calls (match file_reader j with Some r => 5 * remaining r | None => 0 end) (profile s) (profile s') ∧
    shared_ok s' ∧ (recycler s' = None ↔ recycler s = None) ∧
    processor_ok (profile s') alone (raws ++ until_close raws') j' ∧ lib_handle j' = lib_handle j ∧
    match file_reader j' with
    | Some r' => R r' ∧ until_close raws' = raws'
    | None => is_Some (file_reader j) →
        committed (profile s') (functions (raws ++ until_close raws')) (lib_handle j)
    end.
Proof.
  intros HR Hr Hwf Hs Hal Hj. unfold process_pending_records. destruct (file_reader j) as [r|] eqn:Hjr.
  - destruct Hr as [Hr Hn]. destruct (reads_total r) as (raws' & Hreads & Hlen).
    destruct (process_records_ok R (S (remaining r)) n c should_add_marker r alone raws raws' j s)
      as (j' & s' & -> & Hby & Hs' & Hrec & Hj' & Hlib & Hend); try done; [lia..|].
    exists raws', j', s'. split_and!; try done.
    + apply (by_calls_weaken (5 * length raws')); [lia|done].
    + by destruct (file_reader j').
  - exists [], j, s. rewrite Hjr, app_nil_r. split_and!; try done; apply by_calls_refl.
Qed.

(** Reading a new file to its end and committing it. *)
Lemma file_ok R n r lib thread c should_add_marker alone s :
  well_formed_file R → R r → ProfileRuns.wf n (profile s) → Z.of_nat (n + 5 * remaining r) < 2 ^ 32 →
  shared_ok s → (alone → recycler s = None) → (lib < ProfileRuns.num_libs (profile s))%nat →
  (thread < length (threads (profile s)))%nat →
  ∃ raws j s' ops p', reads r raws ∧
    process_pending_records c should_add_marker (new_processor r lib thread) s = Some (Ok (j, s')) ∧
    finish_processor j (profile s') = Ok (ops, p') ∧
    by_calls (5 * remaining r) (profile s) p' ∧ ops_for p' alone lib (until_close raws) ops ∧
    Forall (λ '(_, op), op_ordered op ∧ Flush.op_info (info_valid p') op) ops ∧
    committed p' (functions (until_close raws)) lib.
Proof.
  intros HR Hr Hwf Hn Hs Hal Hlib Hth.
  destruct (process_pending_records_ok R n c should_add_marker alone [] (new_processor r lib thread) s)
    as (raws & j & s' & Hreads & Hrun & Hby & Hs' & _ & Hj & Hlj & Hend); try done.
  { by split; try done; constructor. }
  simpl in Hreads, Hby, Hlj, Hend, Hj. exists raws, j, s'. unfold finish_processor.
  destruct (close_ok (n + 5 * remaining r) (profile s') alone (until_close raws) j)
    as (j' & p' & -> & Hby' & Hj' & _ & Hlib' & Hops & Hcom); [|lia|apply (shared_recording _ Hs')|done|].
  { by apply (by_calls_wf _ _ (profile s)). }
  cbn [mbind res_bind]. exists (lib_mapping_ops j'), p'. split_and!; try done.
  - apply (by_calls_weaken (5 * remaining r + 0)); [lia|]. by eapply by_calls_trans.
  - rewrite <-Hlj, <-Hlib'. apply (processor_ops _ _ _ _ Hj').
  - apply (processor_valid _ _ _ _ Hj').
  - rewrite Hlj in *. destruct (file_reader j); [done|]. subst p'. by apply Hend.
Qed.

(** An addition leads to the symbol of its function. *)
Lemma addition_symbolicates p (alone : Prop) lib raws ops fs table t a :
  ops_for p alone lib raws ops → functions raws `prefix_of` fs → alone →
  Forall (λ f, 0 < f.2) fs → JitLayout.total fs < 2 ^ 32 → Forall record_in_memory raws →
  table = SymbolTable.new (JitLayout.layout 0 fs) → (t, Add a) ∈ ops →
  ∃ name size category js_frame, (name, size) ∈ fs ∧
    add_end_avma a = add_start_avma a + size ∧ add_info a = new_jit_function lib category js_frame ∧
    JitCategories.classified_as p name (category, js_frame) ∧
    ∀ avma, add_start_avma a ≤ avma < add_end_avma a →
      ∃ symbol, SymbolTable.lookup table (add_relative_address_at_start a + (avma - add_start_avma a)) =
        Ok (Some symbol) ∧ SymbolTable.name symbol = name.
Proof.
  intros Hops Hfs HA Hpos Htot Hmem -> Hin.
  induction Hops as [|raws ops raw addr len name b lib' cat js Hops IH Hraw Hs He Hi Hcl Hal|
    ? ? ? ? ? ? ? ? IH|? ? ? ? IH|? ? ? ? IH]; [by apply elem_of_nil in Hin|..].
  2-4: apply Forall_app in Hmem as [Hmem _]; rewrite functions_snoc in Hfs.
  2-3: apply elem_of_app in Hin as [Hin|Hin]; [|by apply list_elem_of_singleton in Hin].
  2-4: apply IH; [etrans; [by apply prefix_app_r|done]|done|done].
  apply Forall_app in Hmem as [Hmem Hmraw]. apply Forall_cons in Hmraw as [Hmraw _].
  apply elem_of_app in Hin as [Hin|Hin].
  { rewrite functions_snoc in Hfs. apply IH; [|done|done]. etrans; [by apply prefix_app_r|done]. }
  apply list_elem_of_singleton in Hin. injection Hin as -> ->.
  destruct (Hal HA) as [-> Hrel]. unfold record_in_memory in Hmraw. rewrite Hraw in Hmraw.
  destruct Hmraw as (Haddr & Hlen & Hend). destruct Hfs as [gs ->].
  rewrite functions_snoc in *. unfold function_of in Hpos, Htot |- *. rewrite Hraw in *.
  rewrite wrap_u32_id in * by (unfold u32_range; lia). simpl option_list in *.
  rewrite <-app_assoc in *. simpl in *.
  set (fs := functions raws ++ (default "" name, len) :: gs) in *. set (i := length (functions raws)).
  assert (fs !! i = Some (default "" name, len)) as Hi' by (by apply list_lookup_middle).
  pose proof (JitLayout.start_of_mono fs (S i) (S i) Hpos (le_n _)) as Hnext.
  pose proof (JitLayout.start_of_mono fs i i Hpos (le_n _)) as Hst.
  rewrite (JitLayout.start_of_next fs i _ _ Hi') in Hnext.
  assert (next_address (functions raws) = JitLayout.start_of fs i) as Hstart.
  { unfold JitLayout.start_of in *. unfold fs, i in *. rewrite take_app_length in *. unfold next_address.
    apply (JitLayout.layout_end _ 0); [by apply Forall_app in Hpos as [? _]|done|].
    pose proof (Forall_cons_1 _ _ _ (proj2 (proj1 (Forall_app _ _ _) Hpos))) as [? _]. simpl in *. lia. }
  exists (default "" name), len, cat, js. split_and!; try done.
  { by eapply list_elem_of_lookup_2. }
  { by rewrite Hs. }
  intros avma Havma. eexists. rewrite Hrel, Hstart.
  split; [by apply (JitLayout.layout_symbolicates fs i (default "" name) len); [done..|lia]|done].
Qed.

Lemma reads_in_memory R r raws :
  well_formed_file R → R r → reads r raws → Forall record_in_memory raws.
Proof.
  intros HR Hr Hreads. induction Hreads as [r|r ty raws ? ? ? _ IH|r ty|r ty raw raws ? ? Hraw _ IH|r ty];
    try done; pose proof (file_header _ HR _ Hr).
  - apply IH. by apply (file_skip _ HR).
  - constructor; [by eapply (file_record _ HR)|]. apply IH. by apply (file_next _ HR).
Qed.
Lemma until_close_in_memory raws : Forall record_in_memory raws → Forall record_in_memory (until_close raws).
Proof. induction 1 as [|raw raws Hraw _ IH]; simpl; [done|]. constructor; [done|]. by destruct (closes raw). Qed.

(** ** All files of a process *)

(** A processor of a well-formed file, wherever it is. *)
Definition processor_known (R : reader → Prop) (p : Profile) (j : SingleJitDumpProcessor) : Prop :=
  (∃ raws, processor_ok p False raws j) ∧ ∀ r, file_reader j = Some r → R r.
Record manager_ok (R : reader → Prop) (p : Profile) (m : JitDumpManager) : Prop := {
  manager_processors : Forall (processor_known R p) (processors m);
  manager_pending :
    Forall (λ '(thread, _, _), (thread < length (threads p))%nat) (pending_jitdump_paths m)
}.
(** What the recorder is promised of all files: they are well formed, and of at
    most [B] bytes. *)
Record files_ok (R : reader → Prop) (B : nat) : Prop := {
  files_well_formed : well_formed_file R;
  files_open : ∀ file r, open_reader file = Some r → R r;
  files_size : ∀ r, R r → (remaining r ≤ B)%nat
}.
Definition queue_valid (p : Profile) (ops : LibMappingOpQueue) : Prop :=
  Forall (λ '(_, op), op_ordered op ∧ Flush.op_info (info_valid p) op) ops.

Lemma processor_known_evolves R p p' j :
  evolves p p' → processor_known R p j → processor_known R p' j.
Proof. intros He [[raws Hj] Hr]. split; [exists raws; by eapply processor_ok_evolves|done]. Qed.
Lemma pending_evolves p p' (l : list (ThreadHandle * string * list string)) :
  evolves p p' → Forall (λ '(thread, _, _), (thread < length (threads p))%nat) l →
  Forall (λ '(thread, _, _), (thread < length (threads p'))%nat) l.
Proof.
  intros He Hl. pose proof (evolves_threads _ _ He). eapply Forall_impl; [done|].
  intros [[thread path] dirs] ?. lia.
Qed.
Lemma manager_ok_evolves R p p' m : evolves p p' → manager_ok R p m → manager_ok R p' m.
Proof.
  intros He []. split; [|by eapply pending_evolves].
  eapply Forall_impl; [done|]. intros j Hj. by eapply processor_known_evolves.
Qed.
Lemma queue_valid_evolves p p' ops : evolves p p' → queue_valid p ops → queue_valid p' ops.
Proof.
  intros He Hops. eapply Forall_impl; [done|]. intros [t op] [Ho Hi]. split; [done|].
  destruct op; try done. simpl in *. by eapply info_valid_evolves.
Qed.

Lemma lib_handle_for_jitdump_ok n path h p :
  ProfileRuns.wf n p →
  ∃ p' lib, lib_handle_for_jitdump path h p = Ok (p', lib) ∧ by_calls 0 p p' ∧
    (lib < ProfileRuns.num_libs p')%nat.
Proof.
  intros Hwf. unfold lib_handle_for_jitdump, debug_id_and_code_id_for_jitdump.
  destruct (from_guid_age_16 (take 16 (jitdump_id_bytes (header_pid h) (header_timestamp h)
    (elf_machine_arch h))) 0) as [debug_id ->]; [done|]. cbn [mbind res_bind unwrap].
  destruct (add_lib p _) as [p' lib] eqn:Hadd. exists p', lib. split; [done|].
  eapply add_lib_spec; [done|done|]. by destruct (ProfileRuns.wf_env _ _ Hwf).
Qed.

Lemma open_pending_ok R B n files unlink pending js p :
  files_ok R B → ProfileRuns.wf n p → Z.of_nat n < 2 ^ 32 →
  Forall (processor_known R p) js →
  Forall (λ '(thread, _, _), (thread < length (threads p))%nat) pending →
  ∃ files' retained js' p', open_pending files unlink pending js p = Ok (files', retained, js', p') ∧
    by_calls 0 p p' ∧ Forall (processor_known R p') js' ∧
    Forall (λ '(thread, _, _), (thread < length (threads p'))%nat) retained ∧
    (length js' + length retained = length js + length pending)%nat.
Proof.
  intros HF Hwf Hn. revert files js p Hwf.
  induction pending as [|[[thread path] dirs] pending IH]; intros files js p Hwf Hjs Hp; cbn [open_pending].
  { eexists _, _, _, _. split; [done|]. split_and!; try done; apply by_calls_refl. }
  apply Forall_cons in Hp as [Hth Hp].
  destruct (jitdump_reader_for_path files path dirs unlink) as [files1 [[r actual]|]] eqn:Hopen.
  - destruct (lib_handle_for_jitdump_ok n actual (header r) p Hwf) as (p1 & lib & -> & Hby & Hlib).
    cbn [mbind res_bind]. pose proof (by_calls_evolves _ _ _ Hby) as He.
    destruct (IH files1 (push js (new_processor r lib thread)) p1) as
      (files' & retained & js' & p' & -> & Hby' & Hjs' & Hret & Hlen).
    + rewrite <-(Nat.add_0_r n). apply (by_calls_wf _ _ p); [done|done|lia].
    + apply Forall_app. split; [eapply Forall_impl; [done|]; intros j Hj; by eapply processor_known_evolves|].
      constructor; [|done]. pose proof (evolves_threads _ _ He). split; simpl.
      * exists []. split; simpl; try done; [lia|constructor].
      * intros r' [= <-]. unfold jitdump_reader_for_path in Hopen.
        destruct (open_file_with_fallback files path dirs) as [[file path']|]; [|done].
        destruct (open_reader file) as [r0|] eqn:Hr; [|done]. apply (files_open _ _ HF file).
        destruct unlink; [|congruence]. destruct (remove_file files path') as [? []]; congruence.
    + by eapply pending_evolves.
    + exists files', retained, js', p'. split_and!; try done.
      * by apply (by_calls_trans 0 0 _ p1).
      * unfold push in Hlen. rewrite length_app in Hlen. simpl in *. lia.
  - destruct (IH files1 js p Hwf Hjs Hp) as (files' & retained & js' & p' & -> & Hby' & Hjs' & Hret & Hlen).
    cbn [mbind res_bind]. eexists _, _, _, _. split; [done|]. split_and!; try done; [|simpl; lia].
    constructor; [|done]. pose proof (evolves_threads _ _ (by_calls_evolves _ _ _ Hby')). lia.
Qed.

Lemma process_all_ok R B n c should_add_marker js s :
  files_ok R B → ProfileRuns.wf n (profile s) → Z.of_nat (n + 5 * B * length js) < 2 ^ 32 → shared_ok s →
  Forall (processor_known R (profile s)) js →
  ∃ js' s', process_all c should_add_marker js s = Some (Ok (js', s')) ∧
    by_calls (5 * B * length js) (profile s) (profile s') ∧ shared_ok s' ∧
    (recycler s' = None ↔ recycler s = None) ∧ Forall (processor_known R (profile s')) js' ∧
    length js' = length js.
Proof.
  intros HF. revert n s. induction js as [|j js IH]; intros n s Hwf Hn Hs Hjs; cbn [process_all].
  { eexists _, _. split; [done|]. split_and!; try done; apply by_calls_refl. }
  cbn [length] in *. apply Forall_cons in Hjs as [[[raws Hj] Hr] Hjs].
  destruct (process_pending_records_ok R n c should_add_marker False raws j s) as
    (raws' & j' & s1 & _ & -> & Hby & Hs1 & Hrec1 & Hj' & Hlib & Hend); try done.
  { apply (files_well_formed _ _ HF). }
  { destruct (file_reader j) as [r|]; [|done]. split; [by apply Hr|].
    pose proof (files_size _ _ HF r (Hr r eq_refl)). nia. }
  cbn [mbind loops_bind].
  apply (by_calls_weaken _ (5 * B)) in Hby.
  2: { destruct (file_reader j) as [r|]; [|lia]. pose proof (files_size _ _ HF r (Hr r eq_refl)). nia. }
  destruct (IH (n + 5 * B)%nat s1) as (js' & s' & -> & Hby' & Hs' & Hrec' & Hjs' & Hlen).
  { apply (by_calls_wf _ _ (profile s)); [done|done|lia]. }
  { lia. }
  { done. }
  { eapply Forall_impl; [done|]. intros j0. apply processor_known_evolves. by eapply by_calls_evolves. }
  cbn [mbind loops_bind]. eexists _, _. split; [done|]. split_and!; [|done|tauto| |simpl; lia].
  - apply (by_calls_weaken (5 * B + 5 * B * length js)); [lia|]. by eapply by_calls_trans.
  - constructor; [|done]. apply (processor_known_evolves _ (profile s1)); [by eapply by_calls_evolves|].
    split; [by eexists|]. intros r Hr'. rewrite Hr' in Hend. by destruct Hend.
Qed.

Lemma process_all_pending_records_ok R B n files c m s :
  files_ok R B → ProfileRuns.wf n (profile s) → shared_ok s → manager_ok R (profile s) m →
  Z.of_nat (n + 5 * B * (length (processors m) + length (pending_jitdump_paths m))) < 2 ^ 32 →
  ∃ files' m' s', process_all_pending_records files c m s = Some (Ok (files', m', s')) ∧
    by_calls (5 * B * (length (processors m) + length (pending_jitdump_paths m))) (profile s) (profile s') ∧
    shared_ok s' ∧ (recycler s' = None ↔ recycler s = None) ∧ manager_ok R (profile s') m' ∧
    (length (processors m') + length (pending_jitdump_paths m') =
     length (processors m) + length (pending_jitdump_paths m))%nat.
Proof.
  intros HF Hwf Hs [Hjs Hp] Hn. unfold process_all_pending_records.
  destruct (open_pending_ok R B n files (unlink_after_open m) _ _ _ HF Hwf ltac:(lia) Hjs Hp) as
    (files' & retained & js & p & -> & Hby & Hjs1 & Hret & Hlen).
  cbn [returned mbind loops_bind].
  destruct (process_all_ok R B n c (should_emit_jit_markers m) js (with_profile s p) HF) as
    (js' & s' & -> & Hby' & Hs' & Hrec & Hjs' & Hlen').
  { simpl. rewrite <-(Nat.add_0_r n). apply (by_calls_wf _ _ (profile s)); [done|done|lia]. }
  { nia. }
  { apply shared_ok_evolves; [done|by eapply by_calls_evolves]. }
  { done. }
  cbn [mbind loops_bind]. eexists _, _, _. split; [done|]. split_and!; try done.
  - apply (by_calls_weaken (0 + 5 * B * length js)); [nia|]. by eapply by_calls_trans.
  - split; [done|]. simpl. eapply pending_evolves; [by eapply by_calls_evolves|done].
  - simpl. lia.
Qed.

Lemma finish_all_ok R n js p :
  ProfileRuns.wf n p → Z.of_nat n < 2 ^ 32 → recording p → Forall (processor_known R p) js →
  ∃ ops p', finish_all js p = Ok (ops, p') ∧ by_calls 0 p p' ∧ Forall (queue_valid p') ops.
Proof.
  revert p. induction js as [|j js IH]; intros p Hwf Hn Hrec Hjs; cbn [finish_all].
  { exists [], p. split_and!; try done; apply by_calls_refl. }
  apply Forall_cons in Hjs as [[[raws Hj] _] Hjs]. unfold finish_processor.
  destruct (close_ok n p False raws j Hwf Hn Hrec Hj) as (j' & p1 & -> & Hby & Hj' & _).
  cbn [mbind res_bind]. pose proof (by_calls_evolves _ _ _ Hby) as He.
  destruct (IH p1) as (ops & p' & -> & Hby' & Hops).
  - rewrite <-(Nat.add_0_r n). apply (by_calls_wf _ _ p); [done|done|lia].
  - done.
  - by eapply recording_evolves.
  - eapply Forall_impl; [done|]. intros j0. by apply processor_known_evolves.
  - cbn [mbind res_bind]. eexists _, _. split; [done|]. split; [by apply (by_calls_trans 0 0 _ p1)|].
    constructor; [|done]. eapply queue_valid_evolves; [by eapply by_calls_evolves|].
    apply (processor_valid _ _ _ _ Hj').
Qed.

Lemma finish_ok R B n files c m s :
  files_ok R B → ProfileRuns.wf n (profile s) → shared_ok s → manager_ok R (profile s) m →
  Z.of_nat (n + 5 * B * (length (processors m) + length (pending_jitdump_paths m))) < 2 ^ 32 →
  ∃ files' ops s', finish files c m s = Some (Ok (files', ops, s')) ∧
    by_calls (5 * B * (length (processors m) + length (pending_jitdump_paths m))) (profile s) (profile s') ∧
    shared_ok s' ∧ (recycler s' = None ↔ recycler s = None) ∧ Forall (queue_valid (profile s')) ops.
Proof.
  intros HF Hwf Hs Hm Hn. unfold finish.
  destruct (process_all_pending_records_ok R B n files c m s HF Hwf Hs Hm Hn) as
    (files' & m' & s1 & -> & Hby & Hs1 & Hrec & [Hjs _] & _).
  cbn [mbind loops_bind]. set (k := (5 * B * _)%nat) in *.
  destruct (finish_all_ok R (n + k) (processors m') (profile s1)) as (ops & p & -> & Hby' & Hops).
  - apply (by_calls_wf _ _ (profile s)); [done|done|lia].
  - lia.
  - apply (shared_recording _ Hs1).
  - done.
  - cbn [returned mbind loops_bind]. eexists _, _, _. split; [done|]. split_and!; try done.
    + apply (by_calls_weaken (k + 0)); [lia|]. by eapply by_calls_trans.
    + apply shared_ok_evolves; [done|by eapply by_calls_evolves].
Qed.
End jitdump.

(** * Property *)

(** C33: A jitdump file of code in the address space is read to its end, whatever
    records it has, and without a panic: the profile changes by at most five calls
    for each byte, all valid, if its tables have room for them below 2^32. The
    operations are those of the file's records up to the first one that closes it, in
    their order; functions that are not recycled from another file get their place in
    the file's own library, which ends up with a symbol table. If functions are not
    recycled, none is empty and their code together has less than 4 GiB, then every
    address of an addition resolves through this table to the name of the addition's
    function, whose category and JavaScript name it carries. *)
Theorem jitdump_file_symbolicates `{DebugIdOps} `{JitDumpReader} (R : reader → Prop) (n : nat)
    (r : reader) (lib : LibraryHandle) (thread : ThreadHandle) (c : TimestampConverter)
    (should_add_marker : bool) (s : Shared) :
  well_formed_file R → R r → ProfileRuns.wf n (profile s) → Z.of_nat (n + 5 * remaining r) < 2 ^ 32 →
  shared_ok s → (lib < ProfileRuns.num_libs (profile s))%nat → (thread < length (threads (profile s)))%nat →
  ∃ raws j s' ops p' library table, reads r raws ∧
    process_pending_records c should_add_marker (new_processor r lib thread) s = Some (Ok (j, s')) ∧
    finish_processor j (profile s') = Ok (ops, p') ∧ by_calls (5 * remaining r) (profile s) p' ∧
    ops_for p' (recycler s = None) lib (until_close raws) ops ∧
    GlobalLibTable.all_libs (global_libs p') !! lib = Some library ∧
    LibraryInfo.symbol_table library = Some table ∧
    let fs := functions (until_close raws) in
    (recycler s = None → Forall (λ f, 0 < f.2) fs → JitLayout.total fs < 2 ^ 32 →
     ∀ t a, (t, Add a) ∈ ops →
       ∃ name size category js_frame, (name, size) ∈ fs ∧
         add_end_avma a = add_start_avma a + size ∧ add_info a = new_jit_function lib category js_frame ∧
         JitCategories.classified_as p' name (category, js_frame) ∧
         ∀ avma, add_start_avma a ≤ avma < add_end_avma a →
           ∃ symbol, SymbolTable.lookup table (add_relative_address_at_start a + (avma - add_start_avma a)) =
             Ok (Some symbol) ∧ SymbolTable.name symbol = name).
Proof.
  intros HR Hr Hwf Hn Hs Hlib Hth.
  destruct (file_ok R n r lib thread c should_add_marker (recycler s = None) s HR Hr Hwf Hn Hs id Hlib Hth)
    as (raws & j & s' & ops & p' & Hreads & Hrun & Hfin & Hby & Hops & _ & library & Hlook & Htable).
  exists raws, j, s', ops, p', library. eexists. split_and!; try done.
  intros fs HA Hpos Htot t a Hin.
  apply (addition_symbolicates p' (recycler s = None) lib (until_close raws) ops fs _ t a); try done.
  by eapply until_close_in_memory, reads_in_memory.
Qed.

(** * Witness and examples *)

(** Files that are a list of records. *)
#[local] Definition entries := list (JitDumpRecordType * RawJitDumpRecord).
#[local] Program Definition list_reader (r : entries) : @JitDumpReader (constant_files [("jit.dump", "")]) :=
  let files := constant_files [("jit.dump", "")] in
  {| reader := entries; open_reader _ := Some r;
     header _ := {| header_pid := 7; header_timestamp := 258; elf_machine_arch := 62 |};
     next_record_header r := (r, fst <$> head r);
     skip_next_record r := (tail r, bool_decide (r ≠ []));
     next_record r := (tail r, snd <$> head r);
     remaining := length |}.
Next Obligation. done. Qed.
Next Obligation. intros _ _ [|e r]; simpl; [done|lia]. Qed.
Next Obligation. intros _ _ [|e r] x; simpl; [done|lia]. Qed.

#[local] Definition code (t addr len : Z) (name : string) : JitDumpRecordType * RawJitDumpRecord :=
  (JIT_CODE_LOAD, {| raw_timestamp := t; parse := Some (CodeLoad addr len (Some name)) |}).
#[local] Definition example_entries : entries :=
  [code 10 4096 16 "JS:~render"; (JIT_CODE_DEBUG_INFO, {| raw_timestamp := 11; parse := Some CodeDebugInfo |});
   code 12 8192 32 "RegExp";
   (JIT_CODE_MOVE, {| raw_timestamp := 13; parse := Some (CodeMove 8192 12288 32) |});
   (JIT_CODE_CLOSE, {| raw_timestamp := 14; parse := Some CodeClose |}); code 15 4096 16 "late"].
#[local] Existing Instance string_debug_ids.
#[local] Existing Instance string_debug_id_ops.
#[local] Definition example_calls : list ProfileRuns.op :=
  [ProfileRuns.AddLib (PerfMap.map_library 7);
   ProfileRuns.AddProcess "node" 7 (from_nanos_since_reference 0);
   ProfileRuns.AddThread 0 7 (from_nanos_since_reference 0) true].
#[local] Definition example_start : Profile := new "example" (f64_of_Z 0) 1000000.
#[local] Definition example_profile : Profile :=
  match ProfileRuns.run example_calls example_start with Ok p => p | Panic => example_start end.
#[local] Definition example_shared : Shared :=
  {| jit_category_manager := JitCategories.new; profile := example_profile; recycler := None |}.
#[local] Definition example_converter : TimestampConverter :=
  {| reference_raw := 0; raw_to_ns_factor := 1 |}.
#[local] Definition in_example (r : entries) : Prop := Forall (λ e, record_in_memory e.2) r.
#[local] Definition process_example (r : entries) :=
  @process_pending_records _ (constant_files [("jit.dump", "")]) (list_reader r) example_converter true
    (@new_processor _ (list_reader r) r 0 0) example_shared.
#[local] Definition read_example (r : entries) : res (LibMappingOpQueue * Profile) :=
  match process_example r with
  | Some (Ok (j, s')) => finish_processor j (profile s')
  | _ => Panic
  end.

Lemma jitdump_file_symbolicates_witness :
  ∃ j s' ops p', process_example example_entries = Some (Ok (j, s')) ∧
    finish_processor j (profile s') = Ok (ops, p') ∧ by_calls 30 example_profile p'.
Proof.
  assert (static_schema_marker_types example_profile = ∅) as Hstatics by (vm_compute; reflexivity).
  assert (ProfileRuns.wf 0 example_profile) as Hwf.
  { destruct (run_cost_wf 0 example_calls example_start) as (p & Hrun & Hp).
    - apply ProfileRuns.wf_new_profile.
    - apply ProfileRuns.run_check_sound. by vm_compute.
    - unfold example_profile. rewrite Hrun. exact Hp. }
  destruct (@jitdump_file_symbolicates _ _ (constant_files [("jit.dump", "")]) (list_reader example_entries)
    in_example 0 example_entries 0 0 example_converter true example_shared) as
    (raws & j & s' & ops & p' & _ & _ & _ & Hrun & Hfin & Hby & _).
  - split; unfold in_example; simpl; intros r; [done| | |].
    + intros Hr. by destruct Hr.
    + intros Hr. by destruct Hr.
    + intros raw Hr. destruct Hr; simpl; [done|]. by intros [= <-].
  - repeat constructor; simpl; lia.
  - exact Hwf.
  - vm_compute. reflexivity.
  - split; [apply JitCategories.wf_new_manager|done|split; [|done|done]].
    intros name h Hh. change (static_schema_marker_types example_profile !! name = Some h) in Hh.
    rewrite Hstatics in Hh. by apply lookup_empty_Some in Hh.
  - vm_compute. lia.
  - vm_compute. lia.
  - exists j, s', ops, p'. split; [exact Hrun|]. split; [exact Hfin|exact Hby].
Defined.

(** The times and kinds of the operations, and the end of the last function. *)
#[local] Definition summary (r : res (LibMappingOpQueue * Profile)) : option (list (Z * Z)) :=
  match r with
  | Ok (ops, _) =>
      Some ((λ top, (top.1, match top.2 with
                            | Add a => add_relative_address_at_start a
                            | Move m => new_end_avma m
                            | Remove _ => 1
                            | Clear => 0
                            end)) <$> ops)
  | Panic => None
  end.
Example jitdump_example :
  summary (read_example example_entries) = Some [(10, 0); (12, 16); (13, 12320); (14, 0)].
Proof. vm_compute. reflexivity. Qed.
End JitDump.
