(* ===== verification/LinuxThreads.v ===== *)
(** The threads of a Linux process: samply/src/linux_shared/thread.rs and
    process_threads.rs. A profile thread belongs to at most one thread at a time,
    and with --reuse-threads to threads of one name only. *)
From S2P Require Import Prelude Types StringTables LibTable ThreadSafety ProfileModel ProfileRuns.
From S2P Require Import ProfileCalls ContextSwitch Recycling.
From stdpp Require Import options.
Open Scope Z_scope.

(** The order in which a [HashMap] is drained is left open. *)
Class DrainOrder := {
  drain : ∀ {K A : Type} `{Countable K}, gmap K A → list (K * A);
  drain_permutation : ∀ {K A : Type} `{Countable K} (m : gmap K A), drain m ≡ₚ map_to_list m
}.
#[global, refine] Instance key_order : DrainOrder := {| drain K A _ _ := map_to_list |}.
Proof. done. Defined.

(** * thread.rs *)
Module LinuxThread.
Import Profile.

Record Thread := {
  profile_thread : ThreadHandle;
  context_switch_data : ContextSwitch.ThreadContextSwitchData;
  last_sample_timestamp : option Z;
  off_cpu_stack : option Z;
  name : option string;
  thread_label_frame : FrameInfo
}.
Definition new (thread_handle : ThreadHandle) (label : FrameInfo) (name' : option string) : Thread :=
  {| profile_thread := thread_handle; context_switch_data := ContextSwitch.default;
     last_sample_timestamp := None; off_cpu_stack := None; name := name';
     thread_label_frame := label |}.
Definition thread_label (th : Thread) : res StringHandle :=
  match frame (thread_label_frame th) with Label s => Ok s | _ => Panic end.
Definition with_name (th : Thread) (name' : option string) : Thread :=
  {| profile_thread := profile_thread th; context_switch_data := context_switch_data th;
     last_sample_timestamp := last_sample_timestamp th; off_cpu_stack := off_cpu_stack th; name := name';
     thread_label_frame := thread_label_frame th |}.
Definition renamed (th : Thread) (handle : ThreadHandle) (label : FrameInfo) (name' : string) : Thread :=
  {| profile_thread := handle; context_switch_data := context_switch_data th;
     last_sample_timestamp := last_sample_timestamp th; off_cpu_stack := off_cpu_stack th;
     name := Some name'; thread_label_frame := label |}.
(** The thread, and the name and the recycling data it had. *)
Definition rename_with_recycling (th : Thread) (name' : string)
    (recycling_data : Recycling.ThreadRecyclingData)
    : Thread * (option string * Recycling.ThreadRecyclingData) :=
  (renamed th recycling_data.1 recycling_data.2 name',
   (name th, (profile_thread th, thread_label_frame th))).
Definition rename_without_recycling `{DebugIdType} (th : Thread) (name' : string) (label : FrameInfo)
    (profile : Profile) : res (Thread * Profile) :=
  profile' ← set_thread_name profile (profile_thread th) name';
  Ok (renamed th (profile_thread th) label name', profile').
Definition notify_dead `{DebugIdType} (th : Thread) (end_time : Timestamp) (profile : Profile)
    : res Profile :=
  set_thread_end_time profile (profile_thread th) end_time.
Definition finish (th : Thread) : option string * Recycling.ThreadRecyclingData :=
  (name th, (profile_thread th, thread_label_frame th)).
End LinuxThread.

(** * process_threads.rs *)
Module ProcessThreads.
Import Profile ProfileCalls.

Record ProcessThreads := {
  pid : Z;
  profile_process : ProcessHandle;
  main_thread : LinuxThread.Thread;
  threads_by_tid : gmap Z LinuxThread.Thread;
  thread_recycler : option Recycling.ThreadRecycler
}.
Definition with_main (t : ProcessThreads) (th : LinuxThread.Thread) : ProcessThreads :=
  {| pid := pid t; profile_process := profile_process t; main_thread := th;
     threads_by_tid := threads_by_tid t; thread_recycler := thread_recycler t |}.
Definition with_threads (t : ProcessThreads) (m : gmap Z LinuxThread.Thread) : ProcessThreads :=
  {| pid := pid t; profile_process := profile_process t; main_thread := main_thread t;
     threads_by_tid := m; thread_recycler := thread_recycler t |}.
Definition with_recycler (t : ProcessThreads) (r : option Recycling.ThreadRecycler) : ProcessThreads :=
  {| pid := pid t; profile_process := profile_process t; main_thread := main_thread t;
     threads_by_tid := threads_by_tid t; thread_recycler := r |}.

Definition new (pid' : Z) (process_handle : ProcessHandle) (main_thread_handle : ThreadHandle)
    (main_thread_label_frame : FrameInfo) (name : option string)
    (thread_recycler' : option Recycling.ThreadRecycler) : ProcessThreads :=
  {| pid := pid'; profile_process := process_handle;
     main_thread := LinuxThread.new main_thread_handle main_thread_label_frame name;
     threads_by_tid := ∅; thread_recycler := thread_recycler' |}.

Definition rename_process_with_recycling (t : ProcessThreads) (name : string)
    (process_handle : ProcessHandle) (main_thread_recycling_data : Recycling.ThreadRecyclingData)
    (thread_recycler' : Recycling.ThreadRecycler)
    : res (ProcessThreads * (Recycling.ThreadRecycler * Recycling.ThreadRecyclingData)) :=
  let '(main', (_, old_main_thread_recycling_data)) :=
    LinuxThread.rename_with_recycling (main_thread t) name main_thread_recycling_data in
  old_thread_recycler ← unwrap (thread_recycler t);
  Ok ({| pid := pid t; profile_process := process_handle; main_thread := main';
         threads_by_tid := threads_by_tid t; thread_recycler := Some thread_recycler' |},
      (old_thread_recycler, old_main_thread_recycling_data)).

(** The thread a [&mut Thread] leads to. *)
Definition thread_at (t : ProcessThreads) (tid : Z) : option LinuxThread.Thread :=
  if decide (tid = pid t) then Some (main_thread t) else threads_by_tid t !! tid.
Definition set_thread (t : ProcessThreads) (tid : Z) (th : LinuxThread.Thread) : ProcessThreads :=
  if decide (tid = pid t) then with_main t th else with_threads t (<[tid := th]> (threads_by_tid t)).

Section operations.
Context {D : DebugIdType}.

Definition label_text (name : option string) (pid' tid : Z) : string :=
  match name with
  | Some name => name +:+ " (pid: " +:+ dec_string pid' +:+ ", tid: " +:+ dec_string tid +:+ ")"
  | None => "Thread " +:+ dec_string tid +:+ " (pid: " +:+ dec_string pid' +:+ ", tid: " +:+
            dec_string tid +:+ ")"
  end.
Definition make_thread_label_frame (profile : Profile) (name : option string) (pid' tid : Z)
    : Profile * FrameInfo :=
  let '(profile', thread_label) := intern_string profile (label_text name pid' tid) in
  (profile', {| frame := Label thread_label;
                category_pair := CategoryPairHandle_from CategoryHandle_OTHER; flags := 0 |}).

(** A pool can only answer a thread with a name. *)
Definition recycle_thread (t : ProcessThreads) (name : option string)
    : res (ProcessThreads * option Recycling.ThreadRecyclingData) :=
  match name, thread_recycler t with
  | Some name, Some r =>
      '(r', recycled) ← Recycling.recycle_by_name r name;
      Ok (with_recycler t (Some r'), recycled)
  | _, _ => Ok (t, None)
  end.
Definition add_thread_for (t : ProcessThreads) (tid : Z) (name : option string) (start_time : Timestamp)
    (profile : Profile) : res (ProcessThreads * Profile) :=
  '(profile1, thread_handle) ←
    add_thread profile (profile_process t) (wrap_u32 tid) start_time false;
  profile2 ← match name with
             | Some name => set_thread_name profile1 thread_handle name
             | None => Ok profile1
             end;
  let '(profile3, label) := make_thread_label_frame profile2 name (pid t) tid in
  Ok (with_threads t (<[tid := LinuxThread.new thread_handle label name]> (threads_by_tid t)), profile3).

(** The thread it returns is [thread_at]. *)
Definition recycle_or_get_new_thread (t : ProcessThreads) (tid : Z) (name : option string)
    (start_time : Timestamp) (profile : Profile) : res (ProcessThreads * Profile) :=
  if decide (tid = pid t) then Ok (t, profile)
  else
    match threads_by_tid t !! tid with
    | None =>
        '(t', recycled) ← recycle_thread t name;
        match recycled with
        | Some (thread_handle, label) =>
            Ok (with_threads t' (<[tid := LinuxThread.new thread_handle label name]> (threads_by_tid t')),
                profile)
        | None => add_thread_for t' tid name start_time profile
        end
    | Some thread =>
        profile' ← match LinuxThread.last_sample_timestamp thread with
                   | None => set_thread_start_time profile (LinuxThread.profile_thread thread) start_time
                   | Some _ => Ok profile
                   end;
        Ok (t, profile')
    end.

Definition rename_non_main_thread (t : ProcessThreads) (tid : Z) (timestamp : Timestamp) (name : string)
    (profile : Profile) : res (ProcessThreads * Profile) :=
  if decide (tid = pid t) then Ok (t, profile)
  else
    match threads_by_tid t !! tid with
    | None => recycle_or_get_new_thread t tid (Some name) timestamp profile
    | Some thread =>
        if decide (LinuxThread.name thread = Some name) then Ok (t, profile)
        else
          match thread_recycler t with
          | Some r =>
              '(r1, recycled) ← Recycling.recycle_by_name r name;
              match recycled with
              | Some thread_recycling_data =>
                  let '(thread', (old_name, old_thread_recycling_data)) :=
                    LinuxThread.rename_with_recycling thread name thread_recycling_data in
                  let r2 := match old_name with
                            | Some old_name => Recycling.add_to_pool r1 old_name old_thread_recycling_data
                            | None => r1
                            end in
                  Ok (with_threads (with_recycler t (Some r2)) (<[tid := thread']> (threads_by_tid t)),
                      profile)
              | None => Ok (with_recycler t (Some r1), profile)
              end
          | None =>
              let '(profile1, label) := make_thread_label_frame profile (Some name) (pid t) tid in
              '(thread', profile2) ← LinuxThread.rename_without_recycling thread name label profile1;
              Ok (with_threads t (<[tid := thread']> (threads_by_tid t)), profile2)
          end
    end.

(** A thread that is gone: it ends, and goes into the pool of its name. *)
Definition retire (r : option Recycling.ThreadRecycler) (thread : LinuxThread.Thread) (time : Timestamp)
    (profile : Profile) : res (option Recycling.ThreadRecycler * Profile) :=
  profile' ← LinuxThread.notify_dead thread time profile;
  let '(name, thread_recycling_data) := LinuxThread.finish thread in
  Ok (match name, r with
      | Some name, Some r => Some (Recycling.add_to_pool r name thread_recycling_data)
      | _, _ => r
      end, profile').
Fixpoint retire_all (r : option Recycling.ThreadRecycler) (l : list (Z * LinuxThread.Thread))
    (time : Timestamp) (profile : Profile) : res (option Recycling.ThreadRecycler * Profile) :=
  match l with
  | [] => Ok (r, profile)
  | (_, thread) :: l' =>
      '(r', profile') ← retire r thread time profile;
      retire_all r' l' time profile'
  end.
Definition notify_process_dead `{DrainOrder} (t : ProcessThreads) (end_time : Timestamp)
    (profile : Profile) : res (ProcessThreads * Profile) :=
  '(r, profile1) ← retire_all (thread_recycler t) (drain (threads_by_tid t)) end_time profile;
  profile2 ← LinuxThread.notify_dead (main_thread t) end_time profile1;
  Ok (with_recycler (with_threads t ∅) r, profile2).
Definition finish (t : ProcessThreads)
    : option Recycling.ThreadRecycler * Recycling.ThreadRecyclingData :=
  let '(_, main_thread_recycling_data) := LinuxThread.finish (main_thread t) in
  (thread_recycler t, main_thread_recycling_data).

Definition get_thread_by_tid (t : ProcessThreads) (tid : Z) (profile : Profile)
    : res (ProcessThreads * Profile * LinuxThread.Thread) :=
  if decide (tid = pid t) then Ok (t, profile, main_thread t)
  else
    match threads_by_tid t !! tid with
    | Some thread => Ok (t, profile, thread)
    | None =>
        '(profile1, profile_thread) ← add_thread profile (profile_process t) (wrap_u32 tid)
          (from_millis_since_reference (f64_of_Z 0)) false;
        let '(profile2, label) := make_thread_label_frame profile1 None (pid t) tid in
        let thread := LinuxThread.new profile_thread label None in
        Ok (with_threads t (<[tid := thread]> (threads_by_tid t)), profile2, thread)
    end.
Definition remove_non_main_thread (t : ProcessThreads) (tid : Z) (time : Timestamp) (profile : Profile)
    : res (ProcessThreads * Profile) :=
  match threads_by_tid t !! tid with
  | None => Ok (t, profile)
  | Some thread =>
      '(r, profile') ← retire (thread_recycler t) thread time profile;
      Ok (with_recycler (with_threads t (delete tid (threads_by_tid t))) r, profile')
  end.
End operations.

(** * Invariants *)
Section invariant.
Context {D : DebugIdType} (stack_ok : Z → Prop).

(** Who uses a profile thread: a live thread, or a pool. *)
Definition tid_handles (_ : Z) (th : LinuxThread.Thread) : list ThreadHandle :=
  [LinuxThread.profile_thread th].
Definition live (t : ProcessThreads) : list ThreadHandle :=
  LinuxThread.profile_thread (main_thread t) :: gather tid_handles (threads_by_tid t).
Definition pooled (r : Recycling.ThreadRecycler) : list ThreadHandle := (Recycling.entries r).*1.
Definition handles (t : ProcessThreads) : list ThreadHandle :=
  live t ++ from_option pooled [] (thread_recycler t).
(** The profile threads added between two states of the profile. *)
Definition fresh (p p' : Profile) : list ThreadHandle :=
  seq (length (threads p)) (length (threads p') - length (threads p)).

Definition has_name (p : Profile) (h : ThreadHandle) (name : string) : Prop :=
  thread_names p !! h = Some (Some name).
Definition label_ok (p : Profile) (f : FrameInfo) : Prop :=
  (∃ s, frame f = Label s) ∧ ProfileRuns.frames_valid p [f].
(** The thread's name is the name of its profile thread. *)
Record thread_ok (p : Profile) (th : LinuxThread.Thread) : Prop := {
  thread_handle_ok : (LinuxThread.profile_thread th < length (threads p))%nat;
  thread_named : ∀ name, LinuxThread.name th = Some name → has_name p (LinuxThread.profile_thread th) name;
  thread_label_ok : label_ok p (LinuxThread.thread_label_frame th);
  thread_stack_ok : ∀ s, LinuxThread.off_cpu_stack th = Some s → stack_ok s
}.
Definition data_ok (p : Profile) (name : string) (d : Recycling.ThreadRecyclingData) : Prop :=
  (d.1 < length (threads p))%nat ∧ has_name p d.1 name ∧ label_ok p d.2.
Definition pool_ok (p : Profile) (r : Recycling.ThreadRecycler) : Prop :=
  Recycling.wf r ∧ ∀ name d, d ∈ Recycling.pool r name → data_ok p name d.
Record threads_ok (p : Profile) (t : ProcessThreads) : Prop := {
  process_ok : (profile_process t < length (processes p))%nat;
  main_ok : thread_ok p (main_thread t);
  others_ok : map_Forall (λ _, thread_ok p) (threads_by_tid t);
  main_tid : threads_by_tid t !! pid t = None;
  recycler_ok : ∀ r, thread_recycler t = Some r → pool_ok p r
}.

(** What an operation on the threads of a process does to the profile and to
    profile threads it does not own: it only takes new ones. *)
Record step (k : nat) (p : Profile) (t : ProcessThreads) (p' : Profile) (t' : ProcessThreads) : Prop := {
  step_changes : changes k p p';
  step_ok : threads_ok p' t';
  step_handles : handles t' ⊆+ handles t ++ fresh p p';
  step_names : ∀ h name, h ∉ handles t → has_name p h name → has_name p' h name;
  step_process_names : process_names p' = process_names p;
  step_ids : pid t' = pid t ∧ profile_process t' = profile_process t;
  step_recycles : is_Some (thread_recycler t') ↔ is_Some (thread_recycler t)
}.

(** ** Lemmas *)
Lemma label_ok_evolves p p' f : evolves p p' → label_ok p f → label_ok p' f.
Proof. intros He [Hl Hf]. split; [done|]. by eapply frames_valid_evolves. Qed.
Lemma thread_ok_frame p p' th :
  evolves p p' → (∀ name, has_name p (LinuxThread.profile_thread th) name →
    has_name p' (LinuxThread.profile_thread th) name) →
  thread_ok p th → thread_ok p' th.
Proof.
  intros He Hn []. pose proof (evolves_threads _ _ He). split; [lia| | |done].
  - intros name Hname. by apply Hn, thread_named0.
  - by eapply label_ok_evolves.
Qed.
Lemma data_ok_frame p p' name d :
  evolves p p' → (has_name p d.1 name → has_name p' d.1 name) → data_ok p name d → data_ok p' name d.
Proof.
  intros He Hn (Hlt & Hname & Hl). pose proof (evolves_threads _ _ He).
  split_and!; [lia|by apply Hn|by eapply label_ok_evolves].
Qed.
Lemma pooled_elem r name d : d ∈ Recycling.pool r name → d.1 ∈ pooled r.
Proof.
  intros Hd. unfold pooled, Recycling.entries. apply list_elem_of_fmap. exists d. split; [done|].
  apply list_elem_of_fmap. exists (name, d). split; [done|]. by apply Recycling.named_elem.
Qed.
Lemma pool_ok_frame p p' r :
  evolves p p' → (∀ h name, h ∈ pooled r → has_name p h name → has_name p' h name) →
  pool_ok p r → pool_ok p' r.
Proof.
  intros He Hn [Hwf Hr]. split; [done|]. intros name d Hd. eapply data_ok_frame; [done| |by apply Hr].
  apply Hn. by eapply pooled_elem.
Qed.
Lemma live_elem t tid th : threads_by_tid t !! tid = Some th → LinuxThread.profile_thread th ∈ live t.
Proof.
  intros Hth. right. apply gather_elem. exists tid, th. split; [done|]. by left.
Qed.
Lemma threads_ok_frame p p' t :
  evolves p p' → (∀ h name, h ∈ handles t → has_name p h name → has_name p' h name) →
  threads_ok p t → threads_ok p' t.
Proof.
  intros He Hn []. pose proof (evolves_processes _ _ He). unfold handles in Hn. split; [lia| | |done|].
  - eapply thread_ok_frame; [done| |done]. intros name. apply Hn. by left.
  - intros tid th Hth. eapply thread_ok_frame; [done| |by eapply others_ok0].
    intros name. apply Hn. apply elem_of_app. left. by eapply live_elem.
  - intros r Hr. eapply pool_ok_frame; [done| |by apply recycler_ok0]. intros h name Hh. apply Hn.
    apply elem_of_app. right. by rewrite Hr.
Qed.

Lemma handles_lt p t : threads_ok p t → Forall (λ h, h < length (threads p))%nat (handles t).
Proof.
  intros []. unfold handles, live. apply Forall_app. split; [constructor; [apply main_ok0|]|].
  - apply Forall_forall. intros h (tid & th & Hth & Hin)%gather_elem.
    apply list_elem_of_singleton in Hin as ->. apply (others_ok0 tid th Hth).
  - destruct (thread_recycler t) as [r|]; simpl; [|constructor]. apply Forall_forall. intros h Hh.
    unfold pooled, Recycling.entries in Hh. apply list_elem_of_fmap in Hh as (d & -> & Hd).
    apply list_elem_of_fmap in Hd as ([name d'] & -> & Hd). apply Recycling.named_elem in Hd.
    destruct (recycler_ok0 r eq_refl) as [_ Hr]. by apply (Hr name).
Qed.

Lemma fresh_lt p p' h : h ∈ fresh p p' → (length (threads p) ≤ h < length (threads p'))%nat.
Proof. unfold fresh. rewrite elem_of_seq. lia. Qed.
Lemma fresh_same p p' : length (threads p') = length (threads p) → fresh p p' = [].
Proof. intros Heq. unfold fresh. by rewrite Heq, Nat.sub_diag. Qed.
Lemma fresh_trans p p1 p2 :
  (length (threads p) ≤ length (threads p1))%nat → (length (threads p1) ≤ length (threads p2))%nat →
  fresh p p2 = fresh p p1 ++ fresh p1 p2.
Proof.
  intros H1 H2. unfold fresh.
  replace (length (threads p2) - length (threads p))%nat
    with ((length (threads p1) - length (threads p)) + (length (threads p2) - length (threads p1)))%nat by lia.
  rewrite seq_app. do 2 f_equal. lia.
Qed.
(** Handles stay different when new ones are taken. *)
Lemma handles_NoDup (l l' : list ThreadHandle) p p' :
  NoDup l → Forall (λ h, h < length (threads p))%nat l → l' ⊆+ l ++ fresh p p' → NoDup l'.
Proof.
  intros Hnd Hlt [k Hk]%submseteq_Permutation. cut (NoDup (l ++ fresh p p')).
  { rewrite Hk. intros [? _]%NoDup_app. done. }
  apply NoDup_app. split_and!; [done| |apply NoDup_seq].
  intros h Hh Hin. apply fresh_lt in Hin. rewrite Forall_forall in Hlt. specialize (Hlt h Hh). simpl in Hlt. lia.
Qed.

Lemma thread_names_length p : length (thread_names p) = length (threads p).
Proof. unfold thread_names. by rewrite length_fmap. Qed.

Lemma make_thread_label_frame_ok n p name pid' tid :
  ProfileRuns.wf n p → Z.of_nat (n + 1) < 2 ^ 32 → recording p →
  let '(p', f) := make_thread_label_frame p name pid' tid in by_calls 1 p p' ∧ label_ok p' f.
Proof.
  intros Hwf Hn Hrec. unfold make_thread_label_frame.
  destruct (intern_string p (label_text name pid' tid)) as [p' s] eqn:Hi.
  destruct (intern_string_spec n p _ p' s Hwf Hn Hi) as [Hby Hget]. split; [done|].
  split; [by eexists|]. constructor; [|done]. split; [|by eexists].
  pose proof (recording_evolves _ _ (by_calls_evolves _ _ _ Hby) Hrec) as [_ _ Hc].
  unfold ThreadSafety.category_ok, CategoryHandle_OTHER. destruct (categories p'); [done|]. simpl. lia.
Qed.

(** An operation that leaves the profile's names as they are. *)
Lemma step_quiet k p t p' t' :
  changes k p p' → thread_names p' = thread_names p → process_names p' = process_names p →
  (threads_ok p t → threads_ok p t') → handles t' ⊆+ handles t → pid t' = pid t →
  profile_process t' = profile_process t → (is_Some (thread_recycler t') ↔ is_Some (thread_recycler t)) →
  threads_ok p t → step k p t p' t'.
Proof.
  intros Hch Hn Hpn Hok Hh Hpid Hpp Hr Ht. split; try done.
  - eapply threads_ok_frame; [by eapply changes_evolves| |by apply Hok].
    intros h name _. unfold has_name. by rewrite Hn.
  - etrans; [exact Hh|]. by apply submseteq_inserts_r.
  - intros h name _. unfold has_name. by rewrite Hn.
Qed.
Lemma step_refl p t : threads_ok p t → step 0 p t p t.
Proof. by apply step_quiet; try done; apply changes_refl. Qed.

(** ** Operations *)
Lemma with_threads_handles t m r :
  handles (with_threads (with_recycler t r) m) =
  LinuxThread.profile_thread (main_thread t) :: gather tid_handles m ++ from_option pooled [] r.
Proof. done. Qed.
Lemma handles_insert t tid th :
  threads_by_tid t !! tid = None →
  handles (with_threads t (<[tid := th]> (threads_by_tid t))) ≡ₚ
    LinuxThread.profile_thread th :: handles t.
Proof.
  intros Hn. unfold handles, live. simpl. rewrite gather_fresh by done. simpl.
  apply Permutation_swap.
Qed.

(** A thread that is new to the process. *)
Lemma insert_thread_ok p t tid th :
  threads_ok p t → thread_ok p th → tid ≠ pid t →
  threads_ok p (with_threads t (<[tid := th]> (threads_by_tid t))).
Proof.
  intros [] Hth Hne. split; try done; simpl.
  - by apply map_Forall_insert_2.
  - by rewrite lookup_insert_ne.
Qed.
Lemma recycler_changed_ok p t r :
  threads_ok p t → (∀ r', r = Some r' → pool_ok p r') → threads_ok p (with_recycler t r).
Proof. intros [] Hr. by split. Qed.

Lemma recycle_thread_ok p t name :
  threads_ok p t →
  ∃ t' o, recycle_thread t name = Ok (t', o) ∧ threads_ok p t' ∧ pid t' = pid t ∧
    profile_process t' = profile_process t ∧ threads_by_tid t' = threads_by_tid t ∧
    (is_Some (thread_recycler t') ↔ is_Some (thread_recycler t)) ∧
    match o with
    | None => handles t' = handles t
    | Some d => handles t ≡ₚ d.1 :: handles t' ∧ ∃ name', name = Some name' ∧ data_ok p name' d
    end.
Proof.
  intros Ht. pose proof (recycler_ok _ _ Ht) as Hr. unfold recycle_thread.
  destruct name as [name|]; [|by exists t, None].
  destruct (thread_recycler t) as [r|] eqn:Er; [|exists t, None; split_and!; try done; by rewrite Er].
  destruct (Hr r eq_refl) as [Hwf Hpool].
  destruct (Recycling.recycle_by_name_ok r name Hwf) as (r' & o & -> & Hwf' & Hrec). cbn [mbind res_bind].
  exists (with_recycler t (Some r')), o. simpl.
  assert (∀ name' d, d ∈ Recycling.pool r' name' → d ∈ Recycling.pool r name') as Hsub.
  { intros name' d. rewrite <-!Recycling.named_elem. inversion Hrec as [|? ? Hp _]; subst; [done|].
    rewrite Hp. by right. }
  split_and!; try done.
  - apply recycler_changed_ok; [done|]. intros r1 [= <-]. split; [done|]. intros name' d Hd.
    by apply Hpool, Hsub.
  - inversion Hrec as [Hp|r1 d Hp _]; subst.
    + unfold handles. by rewrite Er.
    + split.
      * unfold handles, live. rewrite Er. simpl. unfold pooled. rewrite (Recycling.recycled_entries _ _ _ _ Hrec).
        simpl. rewrite <-Permutation_middle. apply Permutation_swap.
      * exists name. split; [done|]. apply Hpool, Recycling.named_elem. rewrite Hp. by left.
Qed.

Lemma new_thread_ok p h f name :
  (h < length (threads p))%nat → label_ok p f → (∀ n, name = Some n → has_name p h n) →
  thread_ok p (LinuxThread.new h f name).
Proof. by intros. Qed.

Lemma has_name_lt p h name : has_name p h name → (h < length (threads p))%nat.
Proof. intros Hn. apply lookup_lt_Some in Hn. by rewrite thread_names_length in Hn. Qed.

Lemma add_thread_for_ok n p t tid name start_time :
  ProfileRuns.wf n p → Z.of_nat (n + 1) < 2 ^ 32 → recording p → threads_ok p t →
  tid ≠ pid t → threads_by_tid t !! tid = None →
  ∃ t' p' th, add_thread_for t tid name start_time p = Ok (t', p') ∧ step 1 p t p' t' ∧
    t' = with_threads t (<[tid := th]> (threads_by_tid t)).
Proof.
  intros Hwf Hn Hrec Ht Hne Hnone. unfold add_thread_for.
  destruct (add_thread_spec p (profile_process t) (wrap_u32 tid) start_time false (process_ok _ _ Ht))
    as (p1 & -> & Hch1 & Hn1 & Hp1). cbn [mbind res_bind].
  set (h := length (threads p)).
  assert (h < length (threads p1))%nat as Hh.
  { rewrite <-thread_names_length, Hn1, length_app, thread_names_length. simpl. unfold h. lia. }
  assert (∃ p2, match name with Some name => set_thread_name p1 h name | None => Ok p1 end = Ok p2 ∧
    changes 0 p1 p2 ∧ process_names p2 = process_names p1 ∧
    (∀ h' name', h' ≠ h → has_name p1 h' name' → has_name p2 h' name') ∧
    (∀ n, name = Some n → has_name p2 h n) ∧ length (threads p2) = length (threads p1))
    as (p2 & -> & Hch2 & Hp2 & Hkeep & Hnew & Hlen2).
  { destruct name as [name|]; [|exists p1; split_and!; try done; apply changes_refl].
    destruct (set_thread_name_spec p1 h name Hh) as (p2 & Heq & Hch & Hn2 & Hp2). exists p2.
    unfold has_name. rewrite <-!thread_names_length, Hn2, length_insert. split_and!; try done.
    - intros h' name' Hne'. by rewrite list_lookup_insert_ne.
    - intros n' [= <-]. apply list_lookup_insert_eq. by rewrite thread_names_length. }
  cbn [mbind res_bind].
  assert (changes 0 p p2) as Hch by (by apply (changes_trans 0 0 _ p1)).
  pose proof (make_thread_label_frame_ok n p2 name (pid t) tid) as Hlabel.
  destruct (make_thread_label_frame p2 name (pid t) tid) as [p3 f].
  destruct Hlabel as [Hby Hf].
  { rewrite <-(Nat.add_0_r n). apply (changes_wf _ _ p); [done|done|lia]. }
  { done. }
  { eapply recording_evolves; [by eapply changes_evolves|done]. }
  destruct (by_calls_names _ _ _ Hby) as [Hn3 Hp3].
  assert (changes 1 p p3) as Hch3 by (apply (changes_trans 0 1 _ p2); [done|by apply by_calls_changes]).
  assert (length (threads p3) = S (length (threads p))) as Hlen.
  { rewrite <-(thread_names_length p3), Hn3, thread_names_length, Hlen2, <-thread_names_length, Hn1,
      length_app, thread_names_length. simpl. lia. }
  assert (∀ h' name', h' ≠ h → has_name p h' name' → has_name p3 h' name') as Hframe.
  { intros h' name' Hne' Hh'. unfold has_name. rewrite Hn3. apply Hkeep; [done|]. unfold has_name.
    rewrite Hn1. by apply lookup_app_l_Some. }
  pose proof (handles_lt p t Ht) as Hlt. rewrite Forall_forall in Hlt.
  eexists _, p3, _. split; [done|]. split; [|done].
  assert (handles (with_threads t (<[tid:=LinuxThread.new h f name]> (threads_by_tid t))) ≡ₚ h :: handles t)
    as Hhandles by (by apply handles_insert).
  split; try done.
  - apply insert_thread_ok; [|apply new_thread_ok; try done|done].
    + eapply threads_ok_frame; [by eapply changes_evolves| |done]. intros h' name' Hin.
      apply Hframe. specialize (Hlt h' Hin). simpl in Hlt. unfold h. lia.
    + unfold h. lia.
    + intros n' Hn'. unfold has_name. rewrite Hn3. by apply Hnew.
  - rewrite Hhandles. unfold fresh. rewrite Hlen.
    replace (S (length (threads p)) - length (threads p))%nat with 1%nat by lia.
    simpl. fold h.
    by rewrite (Permutation_app_comm (handles t) [h]).
  - intros h' name' Hin Hh'. apply Hframe; [|done]. apply has_name_lt in Hh'. unfold h. lia.
  - by rewrite Hp3, Hp2, Hp1.
Qed.

Lemma recycle_or_get_new_thread_ok n p t tid name start_time :
  ProfileRuns.wf n p → Z.of_nat (n + 1) < 2 ^ 32 → recording p → threads_ok p t →
  ∃ t' p', recycle_or_get_new_thread t tid name start_time p = Ok (t', p') ∧ step 1 p t p' t' ∧
    is_Some (thread_at t' tid).
Proof.
  intros Hwf Hn Hrec Ht. unfold recycle_or_get_new_thread, thread_at.
  destruct (decide (tid = pid t)) as [->|Hne].
  { exists t, p. split; [done|]. rewrite decide_True by done. split; [|done].
    apply (step_quiet 1); try done; apply changes_refl. }
  destruct (threads_by_tid t !! tid) as [th|] eqn:Hth.
  - assert (∃ p', match LinuxThread.last_sample_timestamp th with
        | None => set_thread_start_time p (LinuxThread.profile_thread th) start_time
        | Some _ => Ok p
        end = Ok p' ∧ changes 0 p p' ∧ thread_names p' = thread_names p ∧ process_names p' = process_names p)
      as (p' & -> & Hch & Hnm & Hpn).
    { destruct (LinuxThread.last_sample_timestamp th); [exists p; split_and!; try done; apply changes_refl|].
      apply set_thread_start_time_spec. by apply (others_ok _ _ Ht tid th Hth). }
    cbn [mbind res_bind]. exists t, p'. split; [done|]. rewrite decide_False, Hth by done.
    split; [|done]. apply step_quiet; try done. apply (changes_weaken 0); [lia|done].
  - destruct (recycle_thread_ok p t name Ht) as (t1 & o & -> & Ht1 & Hpid & Hpp & Hths & Hrs & Ho).
    cbn [mbind res_bind]. destruct o as [[h f]|].
    + destruct Ho as [Hh (name' & -> & Hlt & Hname & Hf)]. simpl in *.
      eexists _, p. split; [done|]. simpl. rewrite Hpid, decide_False, lookup_insert_eq by done. split; [|done].
      apply step_quiet; try done; [by apply changes_refl| |by rewrite handles_insert, Hh by (by rewrite Hths)].
      intros _. apply insert_thread_ok; [done| |by rewrite Hpid]. apply new_thread_ok; try done.
      by intros n' [= <-].
    + destruct (add_thread_for_ok n p t1 tid name start_time Hwf Hn Hrec Ht1) as (t' & p' & th & -> & Hst & ->).
      { by rewrite Hpid. }
      { by rewrite Hths. }
      eexists _, p'. split; [done|]. simpl. rewrite Hpid, decide_False, lookup_insert_eq by done.
      split; [|done]. destruct Hst. rewrite Ho in *. by split.
Qed.

Lemma pool_ok_add p r name d : pool_ok p r → data_ok p name d → pool_ok p (Recycling.add_to_pool r name d).
Proof.
  intros [Hwf Hr] Hd. split; [by apply Recycling.add_to_pool_wf|]. intros name' d'.
  rewrite <-Recycling.named_elem, Recycling.add_to_pool_named, elem_of_cons, Recycling.named_elem.
  intros [[= -> ->]|Hin]; [done|by apply Hr].
Qed.
Lemma pooled_add r name d : pooled (Recycling.add_to_pool r name d) ≡ₚ d.1 :: pooled r.
Proof. unfold pooled. by rewrite Recycling.add_to_pool_entries. Qed.
Lemma finished_data_ok p th name :
  thread_ok p th → LinuxThread.name th = Some name → data_ok p name (LinuxThread.finish th).2.
Proof. intros [] Hn. split_and!; [done|by apply thread_named0|done]. Qed.

(** The process without its thread [tid]. *)
Lemma handles_delete t tid th :
  threads_by_tid t !! tid = Some th →
  handles t ≡ₚ LinuxThread.profile_thread th :: handles (with_threads t (delete tid (threads_by_tid t))).
Proof.
  intros Hth. unfold handles, live. simpl. rewrite (gather_delete _ _ _ _ Hth). simpl.
  apply Permutation_swap.
Qed.
Lemma handles_replace t tid th th' :
  threads_by_tid t !! tid = Some th →
  handles (with_threads t (<[tid := th']> (threads_by_tid t))) ≡ₚ
    LinuxThread.profile_thread th' :: handles (with_threads t (delete tid (threads_by_tid t))).
Proof.
  intros Hth. unfold handles, live. simpl. rewrite gather_insert. simpl. apply Permutation_swap.
Qed.

Lemma rename_non_main_thread_ok n p t tid timestamp name :
  ProfileRuns.wf n p → Z.of_nat (n + 1) < 2 ^ 32 → recording p → threads_ok p t → NoDup (handles t) →
  ∃ t' p', rename_non_main_thread t tid timestamp name p = Ok (t', p') ∧ step 1 p t p' t'.
Proof.
  intros Hwf Hn Hrec Ht Hnd. unfold rename_non_main_thread.
  destruct (decide (tid = pid t)) as [->|Hne].
  { exists t, p. split; [done|]. apply (step_quiet 1); try done; apply changes_refl. }
  destruct (threads_by_tid t !! tid) as [th|] eqn:Hth.
  2: { destruct (recycle_or_get_new_thread_ok n p t tid (Some name) timestamp) as (t' & p' & Heq & Hst & _);
         try done. by exists t', p'. }
  destruct (decide _) as [_|Hname].
  { exists t, p. split; [done|]. apply (step_quiet 1); try done; apply changes_refl. }
  pose proof (others_ok _ _ Ht tid th Hth) as Hok.
  destruct (thread_recycler t) as [r|] eqn:Er.
  - destruct (recycler_ok _ _ Ht r Er) as [Hrwf Hpool].
    destruct (Recycling.recycle_by_name_ok r name Hrwf) as (r1 & o & Heq & Hwf1 & Hout).
    rewrite Heq. cbn [mbind res_bind].
    assert (recycle_thread t (Some name) = Ok (with_recycler t (Some r1), o)) as Hrt
      by (unfold recycle_thread; by rewrite Er, Heq).
    destruct (recycle_thread_ok p t (Some name) Ht) as (t1 & o' & Heq' & Ht1 & _ & _ & _ & _ & Ho).
    rewrite Hrt in Heq'. injection Heq' as <- <-.
    destruct o as [[h f]|].
    2: { eexists _, p. split; [done|]. apply (step_quiet 1); try done; [apply changes_refl|by rewrite Ho]. }
    destruct Ho as [Hh (name' & [= <-] & Hlt & Hhn & Hf)]. simpl in *.
    set (r2 := match LinuxThread.name th with Some _ => _ | None => _ end).
    assert (pool_ok p r2 ∧ pooled r2 ⊆+ LinuxThread.profile_thread th :: pooled r1) as [Hr2 Hsub].
    { pose proof (recycler_ok _ _ Ht1 r1 eq_refl) as Hr1. unfold r2.
      destruct (LinuxThread.name th) as [old|] eqn:Hold; [|split; [done|by apply submseteq_cons]].
      split; [|by rewrite pooled_add]. apply pool_ok_add; [done|].
      by apply (finished_data_ok p th). }
    eexists _, p. split; [done|]. apply (step_quiet 1); try done; [by apply changes_refl|..].
    + intros _. apply (insert_thread_ok p (with_recycler t (Some r2))); [| |done].
      { apply recycler_changed_ok; [done|]. by intros r' [= <-]. }
      split; simpl; [done|by intros n' [= <-]|done|apply (thread_stack_ok _ _ Hok)].
    + rewrite Hh. rewrite (handles_delete (with_recycler t (Some r1)) tid th Hth).
      rewrite (handles_replace (with_recycler t (Some r2)) tid th) by done.
      unfold handles, live. simpl. apply submseteq_skip.
      etrans; [apply (submseteq_skips_l (_ :: _) _ _ Hsub)|]. by rewrite <-Permutation_middle.
  - pose proof (make_thread_label_frame_ok n p (Some name) (pid t) tid Hwf Hn Hrec) as Hlabel.
    destruct (make_thread_label_frame p (Some name) (pid t) tid) as [p1 f]. destruct Hlabel as [Hby Hf].
    destruct (by_calls_names _ _ _ Hby) as [Hn1 Hp1]. pose proof (by_calls_evolves _ _ _ Hby) as He1.
    unfold LinuxThread.rename_without_recycling.
    destruct (set_thread_name_spec p1 (LinuxThread.profile_thread th) name) as (p2 & -> & Hch2 & Hn2 & Hp2).
    { pose proof (thread_handle_ok _ _ Hok). pose proof (evolves_threads _ _ He1). lia. }
    cbn [mbind res_bind]. pose proof (changes_evolves _ _ _ Hch2) as He2.
    assert (changes 1 p p2) as Hch by (apply (changes_trans 1 0 _ p1); [by apply by_calls_changes|done]).
    pose proof (changes_evolves _ _ _ Hch) as He.
    set (h := LinuxThread.profile_thread th) in *.
    assert (∀ h' name', h' ≠ h → has_name p h' name' → has_name p2 h' name') as Hframe.
    { intros h' name' Hne'. unfold has_name. by rewrite Hn2, list_lookup_insert_ne, Hn1. }
    pose proof (handles_delete t tid th Hth) as Hhd. fold h in Hhd. rewrite Hhd in Hnd.
    apply NoDup_cons in Hnd as [Hnotin _].
    assert (threads_ok p2 (with_threads t (delete tid (threads_by_tid t)))) as Hothers.
    { apply (threads_ok_frame p); [done| |].
      - intros h' name' Hin. apply Hframe. intros ->. done.
      - destruct Ht. split; try done; simpl; [by apply map_Forall_delete|].
        by rewrite lookup_delete_ne. }
    eexists _, p2. split; [done|]. split; try done.
    + pose proof (insert_thread_ok p2 _ tid (LinuxThread.renamed th h f name) Hothers) as Hins.
      unfold with_threads in Hins. simpl in Hins. rewrite insert_delete_eq in Hins. apply Hins; [|done].
      pose proof (thread_handle_ok _ _ Hok) as Hlt. pose proof (evolves_threads _ _ He) as Hlen.
      split; simpl; [fold h in Hlt; lia| |by apply (label_ok_evolves p1)|apply (thread_stack_ok _ _ Hok)].
      intros n' [= <-]. unfold has_name. rewrite Hn2. apply list_lookup_insert_eq.
      rewrite thread_names_length. fold h in Hlt. pose proof (evolves_threads _ _ He1). lia.
    + rewrite (handles_replace t tid th) by done. cbn [LinuxThread.renamed LinuxThread.profile_thread]. fold h. rewrite Hhd. by apply submseteq_inserts_r.
    + intros h' name' Hin. apply Hframe. intros ->. apply Hin. rewrite Hhd. by left.
    + by rewrite Hp2.
Qed.

Lemma get_thread_by_tid_ok n p t tid :
  ProfileRuns.wf n p → Z.of_nat (n + 1) < 2 ^ 32 → recording p → threads_ok p t →
  ∃ t' p' th, get_thread_by_tid t tid p = Ok (t', p', th) ∧ step 1 p t p' t' ∧ thread_at t' tid = Some th.
Proof.
  intros Hwf Hn Hrec Ht. unfold get_thread_by_tid, thread_at.
  destruct (decide (tid = pid t)) as [->|Hne].
  { eexists t, p, _. split; [done|]. rewrite decide_True by done. split; [|done].
    apply (step_quiet 1); try done; apply changes_refl. }
  destruct (threads_by_tid t !! tid) as [th|] eqn:Hth.
  { exists t, p, th. split; [done|]. rewrite decide_False by done. split; [|done].
    apply (step_quiet 1); try done; apply changes_refl. }
  destruct (add_thread_for_ok n p t tid None (from_millis_since_reference (f64_of_Z 0)) Hwf Hn Hrec Ht Hne Hth)
    as (t' & p' & th & Heq & Hst & ->).
  unfold add_thread_for in Heq. destruct (add_thread p _ _ _ _) as [[p1 h]|]; [|done]. cbn [mbind res_bind] in *.
  destruct (make_thread_label_frame p1 None (pid t) tid) as [p3 f]. injection Heq as Heq <-.
  eexists _, p3, _. split; [done|]. simpl. rewrite decide_False, lookup_insert_eq by done. split; [|done].
  assert (LinuxThread.new h f None = th) as ->; [|done].
  assert (Some (LinuxThread.new h f None) = Some th) as [= ->]; [|done].
  rewrite <-(lookup_insert_eq (threads_by_tid t) tid th), <-(lookup_insert_eq (threads_by_tid t) tid (LinuxThread.new h f None)).
  by rewrite Heq.
Qed.

(** Retiring threads: their handles go to the pools, or are given up. *)
Lemma retire_ok p r th time :
  (∀ r', r = Some r' → pool_ok p r') → thread_ok p th →
  ∃ r' p', retire r th time p = Ok (r', p') ∧ changes 0 p p' ∧ thread_names p' = thread_names p ∧
    process_names p' = process_names p ∧ (∀ r1, r' = Some r1 → pool_ok p r1) ∧
    from_option pooled [] r' ⊆+ LinuxThread.profile_thread th :: from_option pooled [] r ∧
    (is_Some r' ↔ is_Some r).
Proof.
  intros Hr Hth. unfold retire, LinuxThread.notify_dead.
  destruct (set_thread_end_time_spec p (LinuxThread.profile_thread th) time (thread_handle_ok _ _ Hth))
    as (p' & -> & Hch & Hn & Hp). cbn [mbind res_bind].
  pose proof (λ name, finished_data_ok p th name Hth) as Hd. unfold LinuxThread.finish in *.
  destruct (LinuxThread.name th) as [name|], r as [r|]; eexists _, p'; (split; [done|]); split_and!; try done;
    simpl; try (by apply submseteq_cons).
  - intros r1 [= <-]. apply pool_ok_add; [by apply Hr|by apply Hd].
  - by rewrite pooled_add.
Qed.
Lemma retire_all_ok p r l time :
  (∀ r', r = Some r' → pool_ok p r') → Forall (λ e : Z * LinuxThread.Thread, thread_ok p e.2) l →
  ∃ r' p', retire_all r l time p = Ok (r', p') ∧ changes 0 p p' ∧ thread_names p' = thread_names p ∧
    process_names p' = process_names p ∧ (∀ r1, r' = Some r1 → pool_ok p' r1) ∧
    from_option pooled [] r' ⊆+ (LinuxThread.profile_thread ∘ snd <$> l) ++ from_option pooled [] r ∧
    (is_Some r' ↔ is_Some r).
Proof.
  intros Hr Hl. revert p r Hr Hl. induction l as [|[tid th] l IH]; intros p r Hr Hl; cbn [retire_all].
  { exists r, p. split_and!; try done; apply changes_refl. }
  apply Forall_cons in Hl as [Hth Hl]. simpl in Hth.
  destruct (retire_ok p r th time Hr Hth) as (r1 & p1 & -> & Hch1 & Hn1 & Hp1 & Hr1 & Hsub1 & Hs1).
  cbn [mbind res_bind]. pose proof (changes_evolves _ _ _ Hch1) as He1.
  assert (∀ h name, has_name p h name → has_name p1 h name) as Hkeep by (intros h name; unfold has_name; by rewrite Hn1).
  destruct (IH p1 r1) as (r2 & p2 & -> & Hch2 & Hn2 & Hp2 & Hr2 & Hsub2 & Hs2).
  - intros r' Heq. eapply pool_ok_frame; [done| |by apply Hr1]. intros h name _. apply Hkeep.
  - eapply Forall_impl; [exact Hl|]. intros [tid' th'] Hth'. eapply thread_ok_frame; [done| |done].
    intros name. apply Hkeep.
  - exists r2, p2. split_and!; try done; [by apply (changes_trans 0 0 _ p1)|congruence|congruence| |by rewrite Hs2].
    etrans; [exact Hsub2|]. simpl. rewrite Permutation_middle. by apply submseteq_skips_l.
Qed.

Lemma drained_handles `{DrainOrder} (m : gmap Z LinuxThread.Thread) :
  LinuxThread.profile_thread ∘ snd <$> drain m ≡ₚ gather tid_handles m.
Proof.
  rewrite (drain_permutation m). unfold gather. induction (map_to_list m) as [|[tid th] l IH]; simpl; [done|].
  by rewrite IH.
Qed.
Lemma notify_process_dead_ok `{DrainOrder} p t end_time :
  threads_ok p t →
  ∃ t' p', notify_process_dead t end_time p = Ok (t', p') ∧ step 0 p t p' t' ∧ threads_by_tid t' = ∅ ∧
    main_thread t' = main_thread t.
Proof.
  intros Ht. unfold notify_process_dead.
  destruct (retire_all_ok p (thread_recycler t) (drain (threads_by_tid t)) end_time (recycler_ok _ _ Ht))
    as (r & p1 & -> & Hch1 & Hn1 & Hp1 & Hr1 & Hsub & Hs).
  { rewrite (drain_permutation (threads_by_tid t)). apply Forall_forall. intros [tid th] Hin.
    apply elem_of_map_to_list in Hin. by apply (others_ok _ _ Ht tid). }
  cbn [mbind res_bind]. pose proof (changes_evolves _ _ _ Hch1) as He1. unfold LinuxThread.notify_dead.
  destruct (set_thread_end_time_spec p1 (LinuxThread.profile_thread (main_thread t)) end_time)
    as (p2 & -> & Hch2 & Hn2 & Hp2).
  { pose proof (thread_handle_ok _ _ (main_ok _ _ Ht)). pose proof (evolves_threads _ _ He1). lia. }
  cbn [mbind res_bind]. pose proof (changes_evolves _ _ _ Hch2) as He2.
  eexists _, p2. split; [done|]. split; [|done].
  assert (changes 0 p p2) as Hch by (by apply (changes_trans 0 0 _ p1)).
  assert (∀ h name, has_name p h name → has_name p2 h name) as Hkeep
    by (intros h name; unfold has_name; by rewrite Hn2, Hn1).
  split; try done; simpl.
  - destruct Ht. split; simpl; try done.
    + pose proof (evolves_processes _ _ (changes_evolves _ _ _ Hch)). lia.
    + eapply thread_ok_frame; [by eapply changes_evolves| |done]. intros name. apply Hkeep.
    + intros r' Hr'. eapply pool_ok_frame; [done| |by apply Hr1]. intros h name _. unfold has_name.
      by rewrite Hn2.
  - unfold handles, live. simpl. rewrite drained_handles in Hsub. apply submseteq_skip.
    etrans; [exact Hsub|]. by apply submseteq_inserts_r.
  - intros h name _. apply Hkeep.
  - congruence.
Qed.

Lemma remove_non_main_thread_ok p t tid time :
  threads_ok p t →
  ∃ t' p', remove_non_main_thread t tid time p = Ok (t', p') ∧ step 0 p t p' t' ∧
    threads_by_tid t' = delete tid (threads_by_tid t).
Proof.
  intros Ht. unfold remove_non_main_thread. destruct (threads_by_tid t !! tid) as [th|] eqn:Hth.
  2: { exists t, p. split; [done|]. split; [by apply step_refl|]. by rewrite delete_id. }
  destruct (retire_ok p (thread_recycler t) th time (recycler_ok _ _ Ht) (others_ok _ _ Ht tid th Hth))
    as (r & p1 & -> & Hch & Hn & Hp & Hr & Hsub & Hs). cbn [mbind res_bind].
  eexists _, p1. split; [done|]. split; [|done]. apply step_quiet; try done.
  - intros []. split; try done; simpl; [by apply map_Forall_delete|].
    destruct (decide (tid = pid t)) as [->|]; [by rewrite lookup_delete_eq|by rewrite lookup_delete_ne].
  - rewrite (handles_delete t tid th Hth). unfold handles, live. simpl.
    etrans; [apply (submseteq_skips_l (_ :: _) _ _ Hsub)|]. by rewrite <-Permutation_middle.
Qed.

(** The threads of a process that takes over the profile process of another:
    what it had goes into the recycling data. *)
Lemma rename_process_with_recycling_ok p t name ph d r :
  threads_ok p t → is_Some (thread_recycler t) → (ph < length (processes p))%nat → data_ok p name d →
  pool_ok p r →
  ∃ t' r', rename_process_with_recycling t name ph d r = Ok (t', (r', (LinuxThread.finish (main_thread t)).2)) ∧
    threads_ok p t' ∧ profile_process t' = ph ∧ pid t' = pid t ∧ pool_ok p r' ∧
    thread_recycler t = Some r' ∧ is_Some (thread_recycler t') ∧ LinuxThread.name (main_thread t') = Some name ∧
    handles t' ++ LinuxThread.profile_thread (main_thread t) :: pooled r' ≡ₚ handles t ++ d.1 :: pooled r.
Proof.
  intros Ht [r0 Hr0] Hph (Hd1 & Hd2 & Hd3) Hr. unfold rename_process_with_recycling, LinuxThread.rename_with_recycling.
  rewrite Hr0. cbn [mbind res_bind unwrap]. eexists _, r0. split; [done|].
  split_and!; try done; [|by apply (recycler_ok _ _ Ht)|].
  - pose proof (main_ok _ _ Ht) as Hm. destruct Ht. split; try done; simpl.
    + split; simpl; [done|by intros n' [= <-]|done|apply (thread_stack_ok _ _ Hm)].
    + by intros r' [= <-].
  - unfold handles, live. simpl. rewrite Hr0. simpl.
    generalize (gather tid_handles (threads_by_tid t)) (LinuxThread.profile_thread (main_thread t)) (pooled r) (pooled r0).
    intros l h a b. solve_Permutation.
Qed.
End invariant.
End ProcessThreads.
