(* ===== verification/LinuxProcess.v ===== *)
(** A Linux process: samply/src/linux_shared/process.rs. What it gathers while it
    runs, and what becomes of it when it exits: its buffered samples with the
    mappings to resolve them, and the profile threads that later processes of its
    name can go on with. *)
From S2P Require Import Prelude RustStr BTree Types LibMappings Hierarchy StringTables LibTable Markers.
From S2P Require Import ThreadSafety ProfileModel ProfileSafety ProfileRuns RecorderMarkers ProfileCalls.
From S2P Require Import UnresolvedSamples PathFiles MarkerFile Flush FlushMarkers Recycling JitCategories.
From S2P Require Import SyntheticJit PerfMap JitDump LinuxThreads.
From stdpp Require Import options.
Open Scope Z_scope.

(** The unwinder of the framehop crate; a process only keeps it. *)
Class Unwinding := { Unwinder : Type; default_unwinder : Unwinder }.

Module LinuxProcess.
Import Hierarchy Profile ProfileCalls PathFiles ProcessThreads.

Notation AuxFiles := (list (ThreadHandle * string * list string)).

Section process.
Context `{DebugIdOps} `{JitDumpReader} `{!TextFiles} `{Unwinding} `{DrainOrder}.

Record Process := {
  profile_process : ProcessHandle;
  unwinder : Unwinder;
  jitdump_manager : JitDump.JitDumpManager;
  lib_mapping_ops : LibMappingOpQueue;
  name : option string;
  threads : ProcessThreads;
  pid : Z;
  unresolved_samples : UnresolvedSamples.UnresolvedSamples;
  jit_app_cache_mapping_ops : LibMappingOpQueue;
  jit_function_recycler : option Recycling.JitFunctionRecycler;
  marker_file_paths : AuxFiles;
  counter_file_paths : AuxFiles;
  prev_mm_filepages_size : Z;
  prev_mm_anonpages_size : Z;
  prev_mm_swapents_size : Z;
  prev_mm_shmempages_size : Z;
  mem_counter : option CounterHandle
}.
Record ProcessForkData := { fork_unwinder : Unwinder; fork_lib_mapping_ops : LibMappingOpQueue }.

Definition new (pid' : Z) (process_handle : ProcessHandle) (main_thread_handle : ThreadHandle)
    (main_thread_label_frame : FrameInfo) (name' : option string)
    (thread_recycler' : option Recycling.ThreadRecycler)
    (jit_function_recycler' : option Recycling.JitFunctionRecycler)
    (unlink_aux_files should_emit_jit_markers : bool) : Process :=
  {| profile_process := process_handle; unwinder := default_unwinder;
     jitdump_manager := JitDump.new_manager unlink_aux_files should_emit_jit_markers;
     lib_mapping_ops := []; name := name';
     threads := ProcessThreads.new pid' process_handle main_thread_handle main_thread_label_frame name'
                  thread_recycler';
     pid := pid'; unresolved_samples := UnresolvedSamples.default; jit_app_cache_mapping_ops := [];
     jit_function_recycler := jit_function_recycler'; marker_file_paths := [];
     counter_file_paths := []; prev_mm_filepages_size := 0; prev_mm_anonpages_size := 0;
     prev_mm_swapents_size := 0; prev_mm_shmempages_size := 0; mem_counter := None |}.

(** ** Changed members *)
Definition with_identity (pr : Process) (handle : ProcessHandle) (name' : option string)
    (threads' : ProcessThreads) (recycler : option Recycling.JitFunctionRecycler) : Process :=
  {| profile_process := handle; unwinder := unwinder pr; jitdump_manager := jitdump_manager pr;
     lib_mapping_ops := lib_mapping_ops pr; name := name'; threads := threads'; pid := pid pr;
     unresolved_samples := unresolved_samples pr;
     jit_app_cache_mapping_ops := jit_app_cache_mapping_ops pr; jit_function_recycler := recycler;
     marker_file_paths := marker_file_paths pr; counter_file_paths := counter_file_paths pr;
     prev_mm_filepages_size := prev_mm_filepages_size pr;
     prev_mm_anonpages_size := prev_mm_anonpages_size pr;
     prev_mm_swapents_size := prev_mm_swapents_size pr;
     prev_mm_shmempages_size := prev_mm_shmempages_size pr; mem_counter := mem_counter pr |}.
Definition with_threads (pr : Process) (threads' : ProcessThreads) : Process :=
  with_identity pr (profile_process pr) (name pr) threads' (jit_function_recycler pr).
Definition with_jit (pr : Process) (manager : JitDump.JitDumpManager)
    (recycler : option Recycling.JitFunctionRecycler) : Process :=
  {| profile_process := profile_process pr; unwinder := unwinder pr; jitdump_manager := manager;
     lib_mapping_ops := lib_mapping_ops pr; name := name pr; threads := threads pr; pid := pid pr;
     unresolved_samples := unresolved_samples pr;
     jit_app_cache_mapping_ops := jit_app_cache_mapping_ops pr; jit_function_recycler := recycler;
     marker_file_paths := marker_file_paths pr; counter_file_paths := counter_file_paths pr;
     prev_mm_filepages_size := prev_mm_filepages_size pr;
     prev_mm_anonpages_size := prev_mm_anonpages_size pr;
     prev_mm_swapents_size := prev_mm_swapents_size pr;
     prev_mm_shmempages_size := prev_mm_shmempages_size pr; mem_counter := mem_counter pr |}.
Definition with_mappings (pr : Process) (unwinder' : Unwinder) (ops app_cache_ops : LibMappingOpQueue)
    : Process :=
  {| profile_process := profile_process pr; unwinder := unwinder';
     jitdump_manager := jitdump_manager pr; lib_mapping_ops := ops; name := name pr;
     threads := threads pr; pid := pid pr; unresolved_samples := unresolved_samples pr;
     jit_app_cache_mapping_ops := app_cache_ops; jit_function_recycler := jit_function_recycler pr;
     marker_file_paths := marker_file_paths pr; counter_file_paths := counter_file_paths pr;
     prev_mm_filepages_size := prev_mm_filepages_size pr;
     prev_mm_anonpages_size := prev_mm_anonpages_size pr;
     prev_mm_swapents_size := prev_mm_swapents_size pr;
     prev_mm_shmempages_size := prev_mm_shmempages_size pr; mem_counter := mem_counter pr |}.
Definition with_data (pr : Process) (samples : UnresolvedSamples.UnresolvedSamples)
    (marker_files counter_files : AuxFiles) (counter : option CounterHandle) : Process :=
  {| profile_process := profile_process pr; unwinder := unwinder pr;
     jitdump_manager := jitdump_manager pr; lib_mapping_ops := lib_mapping_ops pr; name := name pr;
     threads := threads pr; pid := pid pr; unresolved_samples := samples;
     jit_app_cache_mapping_ops := jit_app_cache_mapping_ops pr;
     jit_function_recycler := jit_function_recycler pr; marker_file_paths := marker_files;
     counter_file_paths := counter_files; prev_mm_filepages_size := prev_mm_filepages_size pr;
     prev_mm_anonpages_size := prev_mm_anonpages_size pr;
     prev_mm_swapents_size := prev_mm_swapents_size pr;
     prev_mm_shmempages_size := prev_mm_shmempages_size pr; mem_counter := counter |}.

(** ** Operations *)
Definition clone_fork_data (pr : Process) : ProcessForkData :=
  {| fork_unwinder := unwinder pr; fork_lib_mapping_ops := lib_mapping_ops pr |}.
Definition adopt_fork_data_from_parent (pr : Process) (fork_data : ProcessForkData) : Process :=
  with_mappings pr (fork_unwinder fork_data) (fork_lib_mapping_ops fork_data)
    (jit_app_cache_mapping_ops pr).

(** Without a recycler of its own, the process or its threads panic. *)
Definition rename_with_recycling (pr : Process) (name' : string) (data : Recycling.ProcessRecyclingData)
    : res (Process * (Recycling.ProcessRecyclingData * option string)) :=
  '(threads', (old_thread_recycler, old_main_thread_recycling_data)) ←
    rename_process_with_recycling (threads pr) name' (Recycling.process_handle data)
      (Recycling.main_thread_recycling_data data) (Recycling.thread_recycler data);
  old_jit_function_recycler ← unwrap (jit_function_recycler pr);
  Ok (with_identity pr (Recycling.process_handle data) (Some name') threads'
        (Some (Recycling.jit_function_recycler data)),
      ({| Recycling.process_handle := profile_process pr;
          Recycling.main_thread_recycling_data := old_main_thread_recycling_data;
          Recycling.thread_recycler := old_thread_recycler;
          Recycling.jit_function_recycler := old_jit_function_recycler |}, name pr)).
Definition rename_without_recycling (pr : Process) (name' : string) (main_thread_label_frame : FrameInfo)
    (profile : Profile) : res (Process * Profile) :=
  profile1 ← set_process_name profile (profile_process pr) name';
  '(main', profile2) ← LinuxThread.rename_without_recycling (main_thread (threads pr)) name'
                         main_thread_label_frame profile1;
  Ok (with_identity pr (profile_process pr) (Some name') (with_main (threads pr) main')
        (jit_function_recycler pr), profile2).
Definition recycle_or_get_new_thread (pr : Process) (tid : Z) (name' : option string)
    (start_time : Timestamp) (profile : Profile) : res (Process * Profile) :=
  '(threads', profile') ←
    ProcessThreads.recycle_or_get_new_thread (threads pr) tid name' start_time profile;
  Ok (with_threads pr threads', profile').

Definition check_jitdump (files : fs) (c : TimestampConverter) (pr : Process)
    (manager : JitCategories.JitCategoryManager) (profile : Profile)
    : loops (fs * Process * JitCategories.JitCategoryManager * Profile) :=
  '(files', jitdump', s) ←
    JitDump.process_all_pending_records files c (jitdump_manager pr)
      {| JitDump.jit_category_manager := manager; JitDump.profile := profile;
         JitDump.recycler := jit_function_recycler pr |};
  returned (Ok (files', with_jit pr jitdump' (JitDump.recycler s), JitDump.jit_category_manager s,
                JitDump.profile s)).
Definition add_marker_file_path (pr : Process) (thread : ThreadHandle) (path : string)
    (lookup_dirs : list string) : Process :=
  with_data pr (unresolved_samples pr) (push (marker_file_paths pr) (thread, path, lookup_dirs))
    (counter_file_paths pr) (mem_counter pr).
Definition add_counter_file_path (pr : Process) (thread : ThreadHandle) (path : string)
    (lookup_dirs : list string) : Process :=
  with_data pr (unresolved_samples pr) (marker_file_paths pr)
    (push (counter_file_paths pr) (thread, path, lookup_dirs)) (mem_counter pr).

Definition notify_dead (pr : Process) (end_time : Timestamp) (profile : Profile)
    : res (Process * Profile) :=
  '(threads', profile1) ← notify_process_dead (threads pr) end_time profile;
  profile2 ← set_process_end_time profile1 (profile_process pr) end_time;
  Ok (with_threads pr threads', profile2).

(** The loops over the marker and counter files; files that cannot be opened are
    skipped. *)
Fixpoint read_marker_files (files : fs) (c : TimestampConverter) (paths : AuxFiles)
    : res (list Flush.MarkerOnThread) :=
  match paths with
  | [] => Ok []
  | (thread, path, lookup_dirs) :: paths' =>
      markers ← MarkerFile.get_markers files path lookup_dirs c;
      rest ← read_marker_files files c paths';
      Ok (((λ m, {| Flush.marker_thread := thread; Flush.event_or_span := m |}) <$> default [] markers) ++ rest)
  end.
Fixpoint read_counter_files (files : fs) (c : TimestampConverter) (paths : AuxFiles)
    : res (list Flush.CounterOnThread) :=
  match paths with
  | [] => Ok []
  | (thread, path, lookup_dirs) :: paths' =>
      counter' ← CounterFile.get_counter files path lookup_dirs c;
      rest ← read_counter_files files c paths';
      Ok (((λ x, {| Flush.counter_thread := thread; Flush.counter := x |}) <$> option_list counter') ++ rest)
  end.

(** The jitdump queues, behind the one of the app cache if it is not empty. *)
Definition with_app_cache_ops (app_cache_ops : LibMappingOpQueue) (jitdump_ops : list LibMappingOpQueue)
    : list LibMappingOpQueue :=
  match app_cache_ops with [] => jitdump_ops | _ => app_cache_ops :: jitdump_ops end.
Definition recycling_data (pr : Process) (recycler : option Recycling.JitFunctionRecycler)
    : option (string * Recycling.ProcessRecyclingData) :=
  let '(thread_recycler', main_thread_recycling_data') := ProcessThreads.finish (threads pr) in
  match name pr, recycler, thread_recycler' with
  | Some name', Some jit_function_recycler', Some thread_recycler' =>
      Some (name',
        {| Recycling.process_handle := profile_process pr;
           Recycling.main_thread_recycling_data := main_thread_recycling_data';
           Recycling.thread_recycler := thread_recycler';
           Recycling.jit_function_recycler := jit_function_recycler' |})
  | _, _, _ => None
  end.
Definition finish (files : fs) (c : TimestampConverter) (pr : Process)
    (manager : JitCategories.JitCategoryManager) (profile : Profile)
    : loops (fs * JitCategories.JitCategoryManager * Profile *
             (Flush.ProcessSampleData * option (string * Recycling.ProcessRecyclingData))) :=
  '(profile1, manager1, recycler1, perf_map_mappings') ←
    returned (if UnresolvedSamples.is_empty (unresolved_samples pr)
              then Ok (profile, manager, jit_function_recycler pr, None)
              else PerfMap.try_load_perf_map files (wrap_u32 (pid pr)) profile manager
                     (jit_function_recycler pr));
  '(files', jitdump_ops, s) ←
    JitDump.finish files c (jitdump_manager pr)
      {| JitDump.jit_category_manager := manager1; JitDump.profile := profile1;
         JitDump.recycler := recycler1 |};
  markers' ← returned (read_marker_files files' c (marker_file_paths pr));
  counters' ← returned (read_counter_files files' c (counter_file_paths pr));
  returned (Ok (files', JitDump.jit_category_manager s, JitDump.profile s,
    ({| Flush.unresolved_samples := unresolved_samples pr;
        Flush.regular_lib_mapping_op_queue := lib_mapping_ops pr;
        Flush.jitdump_lib_mapping_op_queues :=
          with_app_cache_ops (jit_app_cache_mapping_ops pr) jitdump_ops;
        Flush.perf_map_mappings := perf_map_mappings'; Flush.markers := markers';
        Flush.counters := counters'; Flush.process := profile_process pr |},
     recycling_data pr (JitDump.recycler s)))).

Definition add_regular_lib_mapping (pr : Process) (timestamp start_address end_address
    relative_address_at_start : Z) (info : LibMappingInfo) : Process :=
  with_mappings pr (unwinder pr)
    (queue_push (lib_mapping_ops pr) timestamp
       (Add {| add_start_avma := start_address; add_end_avma := end_address;
               add_relative_address_at_start := relative_address_at_start; add_info := info |}))
    (jit_app_cache_mapping_ops pr).
Definition add_lib_mapping_for_injected_jit_lib (pr : Process) (timestamp : Z)
    (profile_timestamp : Timestamp) (symbol_name : option string)
    (start_address end_address relative_address_at_start : Z) (lib_handle : LibraryHandle)
    (manager : JitCategories.JitCategoryManager) (profile : Profile) (should_add_marker : bool)
    : res (Process * JitCategories.JitCategoryManager * Profile) :=
  profile1 ←
    (if should_add_marker then
       let '(profile', name') := intern_string profile (default "<unknown>" symbol_name) in
       fst <$> add_marker profile' (LinuxThread.profile_thread (main_thread (threads pr)))
                 (Schema.Instant profile_timestamp) (RecorderMarkers.jit_function_add_marker name')
     else Ok profile);
  let '(recycler', (lib_handle', relative_address')) :=
    match symbol_name, jit_function_recycler pr with
    | Some name', Some r =>
        let '(r', known) := Recycling.recycle r name' (wrap_u32 (sub_u64 end_address start_address))
                              lib_handle relative_address_at_start in
        (Some r', known)
    | _, _ => (jit_function_recycler pr, (lib_handle, relative_address_at_start))
    end in
  let '(manager', profile2, (category, js_frame)) :=
    JitCategories.classify_jit_symbol manager (default "" symbol_name) profile1 in
  Ok (add_regular_lib_mapping (with_jit pr (jitdump_manager pr) recycler') timestamp start_address
        end_address relative_address' (new_jit_function lib_handle' category js_frame),
      manager', profile2).
Definition add_jit_function (pr : Process) (timestamp_raw : Z)
    (jit_lib : SyntheticJitLibrary.SyntheticJitLibrary) (name' : string) (start_avma size : Z)
    (info : LibMappingInfo) : Process * SyntheticJitLibrary.SyntheticJitLibrary :=
  let '(jit_lib', relative_address) := SyntheticJitLibrary.add_function jit_lib name' size in
  (with_mappings pr (unwinder pr) (lib_mapping_ops pr)
     (queue_push (jit_app_cache_mapping_ops pr) timestamp_raw
        (Add {| add_start_avma := start_avma; add_end_avma := add_u64 start_avma size;
                add_relative_address_at_start := relative_address; add_info := info |})),
   jit_lib').
Definition get_or_make_mem_counter (pr : Process) (profile : Profile)
    : res (Process * Profile * CounterHandle) :=
  match mem_counter pr with
  | Some counter' => Ok (pr, profile, counter')
  | None =>
      '(profile', counter') ← add_counter profile (profile_process pr) "malloc" "Memory"
                                "Amount of allocated memory" None;
      Ok (with_data pr (unresolved_samples pr) (marker_file_paths pr) (counter_file_paths pr)
            (Some counter'), profile', counter')
  end.
End process.

(** * Invariants *)

(** What the recorder is promised of the files it reads: jitdump files are well
    formed and have at most [B] bytes, perf maps have at most [B] functions that
    end before the end of the address space, and marker and counter files can be
    parsed. *)
Record inputs_ok `{DebugIdOps} `{JitDumpReader} `{!TextFiles} (R : reader → Prop) (B : nat)
    (c : TimestampConverter) : Prop := {
  inputs_jitdump : JitDump.files_ok R B;
  inputs_perf_map : ∀ files pid content,
    read_to_string files ("/tmp/" +:+ PerfMap.map_name pid) = Some content →
    let entries := omap PerfMap.process_perf_map_line (RustStr.lines content) in
    Forall PerfMap.in_memory entries ∧ (length entries ≤ B)%nat;
  inputs_markers : ∀ files path dirs, ∃ markers,
    MarkerFile.get_markers files path dirs c = Ok markers ∧
    Forall FlushMarkers.timings_ok (default [] markers);
  inputs_counters : ∀ files path dirs, is_Ok (CounterFile.get_counter files path dirs c)
}.

Section invariant.
Context `{DebugIdOps} `{JitDumpReader} `{!TextFiles} `{Unwinding} `{DrainOrder}.
Context (R : reader → Prop) (B : nat) (c : TimestampConverter) (inputs : inputs_ok R B c).
Context (stacks : UnresolvedStacks.UnresolvedStacks).

Definition stack_ok (s : Z) : Prop := ∃ l, UnresolvedStacks.leads_to stacks s l.
Notation threads_ok := (threads_ok stack_ok).
Definition handles (pr : Process) : list ThreadHandle := ProcessThreads.handles (threads pr).
Definition has_process_name (p : Profile) (h : ProcessHandle) (name' : string) : Prop :=
  process_names p !! h = Some name'.
Definition aux_ok (p : Profile) (l : AuxFiles) : Prop :=
  Forall (λ '(thread, _, _), (thread < length (Profile.threads p))%nat) l.
Definition samples_ok (p : Profile) (u : UnresolvedSamples.UnresolvedSamples) : Prop :=
  Forall (Flush.sample_valid p stacks) (UnresolvedSamples.samples_and_markers u).

Record process_ok (p : Profile) (pr : Process) : Prop := {
  process_threads : threads_ok p (threads pr);
  process_handle_same : ProcessThreads.profile_process (threads pr) = profile_process pr;
  process_pid_same : ProcessThreads.pid (threads pr) = pid pr;
  process_named : ∀ name', name pr = Some name' →
    has_process_name p (profile_process pr) name' ∧ LinuxThread.name (main_thread (threads pr)) = Some name';
  process_jitdump : JitDump.manager_ok R p (jitdump_manager pr);
  process_recyclers : is_Some (thread_recycler (threads pr)) ↔ is_Some (jit_function_recycler pr);
  process_functions : PerfMap.recycler_valid p (jit_function_recycler pr);
  process_mappings : JitDump.queue_valid p (lib_mapping_ops pr);
  process_app_cache : JitDump.queue_valid p (jit_app_cache_mapping_ops pr);
  process_samples : samples_ok p (unresolved_samples pr);
  process_markers : aux_ok p (marker_file_paths pr);
  process_counters : aux_ok p (counter_file_paths pr);
  process_mem_counter : ∀ h, mem_counter pr = Some h → (h < length (Profile.counters p))%nat
}.

(** What an operation of a process does, in at most [k] growth. *)
Record step (k : nat) (p : Profile) (pr : Process) (p' : Profile) (pr' : Process) : Prop := {
  step_changes : changes k p p';
  step_ok : process_ok p' pr';
  step_handles : handles pr' ⊆+ handles pr ++ fresh p p';
  step_names : ∀ h name', h ∉ handles pr → has_name p h name' → has_name p' h name';
  step_process_names : ∀ h name', h ≠ profile_process pr → has_process_name p h name' →
    has_process_name p' h name';
  step_process : profile_process pr' = profile_process pr ∧ pid pr' = pid pr;
  step_recycles : is_Some (jit_function_recycler pr') ↔ is_Some (jit_function_recycler pr)
}.

(** ** What stays valid when the profile evolves *)
Lemma aux_ok_evolves p p' l : evolves p p' → aux_ok p l → aux_ok p' l.
Proof. apply JitDump.pending_evolves. Qed.
Lemma sample_valid_evolves p p' s : evolves p p' → Flush.sample_valid p stacks s → Flush.sample_valid p' stacks s.
Proof.
  intros He (Hl & Hf & th & Hth & Hm). split_and!; [done|by eapply frames_valid_evolves|].
  destruct (evolves_markers _ _ He _ _ Hth) as (th' & Hth' & Hle). exists th'. split; [done|].
  destruct (UnresolvedSamples.sample_or_marker s); [done|]. lia.
Qed.
Lemma samples_ok_evolves p p' u : evolves p p' → samples_ok p u → samples_ok p' u.
Proof. intros He Hu. eapply Forall_impl; [exact Hu|]. intros s. by apply sample_valid_evolves. Qed.
Lemma has_process_name_evolves p p' h name' :
  process_names p' = process_names p → has_process_name p h name' → has_process_name p' h name'.
Proof. unfold has_process_name. by intros ->. Qed.

(** A process that keeps what it gathered and has another identity. *)
Lemma with_identity_ok p p' pr h name' t r :
  evolves p p' → process_ok p pr → threads_ok p' t → ProcessThreads.profile_process t = h →
  ProcessThreads.pid t = pid pr →
  (∀ n, name' = Some n → has_process_name p' h n ∧ LinuxThread.name (main_thread t) = Some n) →
  (is_Some (thread_recycler t) ↔ is_Some r) → PerfMap.recycler_valid p' r →
  process_ok p' (with_identity pr h name' t r).
Proof.
  intros He [] Ht Hh Hpid Hname Hr Hrv. split; try done; simpl.
  - by eapply JitDump.manager_ok_evolves.
  - by eapply JitDump.queue_valid_evolves.
  - by eapply JitDump.queue_valid_evolves.
  - by eapply samples_ok_evolves.
  - by eapply aux_ok_evolves.
  - by eapply aux_ok_evolves.
  - intros x Hx. specialize (process_mem_counter0 x Hx). pose proof (evolves_counters _ _ He). lia.
Qed.
Lemma with_identity_same pr :
  with_identity pr (profile_process pr) (name pr) (threads pr) (jit_function_recycler pr) = pr.
Proof. by destruct pr. Qed.
Lemma process_ok_frame p p' pr :
  evolves p p' → (∀ h name', h ∈ handles pr → has_name p h name' → has_name p' h name') →
  (∀ name', has_process_name p (profile_process pr) name' → has_process_name p' (profile_process pr) name') →
  process_ok p pr → process_ok p' pr.
Proof.
  intros He Hn Hpn Hok. rewrite <-(with_identity_same pr). pose proof Hok as [].
  apply (with_identity_ok p); try done.
  - by eapply threads_ok_frame.
  - intros n Hname. destruct (process_named0 n Hname). split; [by apply Hpn|done].
  - by eapply PerfMap.recycler_valid_evolves.
Qed.

(** An operation that adds no threads and renames nothing. *)
Lemma process_step_quiet k p pr p' pr' :
  changes k p p' → thread_names p' = thread_names p → process_names p' = process_names p →
  process_ok p' pr' → threads pr' = threads pr → profile_process pr' = profile_process pr →
  pid pr' = pid pr → (is_Some (jit_function_recycler pr') ↔ is_Some (jit_function_recycler pr)) →
  step k p pr p' pr'.
Proof.
  intros Hch Hn Hpn Hok Ht Hpp Hpid Hr. split; try done.
  - unfold handles. rewrite Ht. by apply submseteq_inserts_r.
  - intros h name' _. unfold has_name. by rewrite Hn.
  - intros h name' _. unfold has_process_name. by rewrite Hpn.
Qed.
Lemma process_ok_quiet p p' pr :
  evolves p p' → thread_names p' = thread_names p → process_names p' = process_names p →
  process_ok p pr → process_ok p' pr.
Proof.
  intros He Hn Hpn. apply process_ok_frame; [done|..].
  - intros h name' _. unfold has_name. by rewrite Hn.
  - intros name'. unfold has_process_name. by rewrite Hpn.
Qed.
Lemma process_ok_calls k p p' pr : by_calls k p p' → process_ok p pr → process_ok p' pr.
Proof.
  intros Hby. destruct (by_calls_names _ _ _ Hby). by apply process_ok_quiet; [eapply by_calls_evolves| |].
Qed.
Lemma step_calls k p pr p' pr' :
  by_calls k p p' → process_ok p' pr' → threads pr' = threads pr → profile_process pr' = profile_process pr →
  pid pr' = pid pr → (is_Some (jit_function_recycler pr') ↔ is_Some (jit_function_recycler pr)) →
  step k p pr p' pr'.
Proof.
  intros Hby. destruct (by_calls_names _ _ _ Hby). by apply process_step_quiet; [apply by_calls_changes| |].
Qed.
Lemma step_same p pr pr' :
  process_ok p pr' → threads pr' = threads pr → profile_process pr' = profile_process pr →
  pid pr' = pid pr → (is_Some (jit_function_recycler pr') ↔ is_Some (jit_function_recycler pr)) →
  step 0 p pr p pr'.
Proof. by apply step_calls, by_calls_refl. Qed.

(** An operation on the threads. *)
Lemma step_threads k p pr p' t' :
  ProcessThreads.step stack_ok k p (threads pr) p' t' → process_ok p pr →
  LinuxThread.name (main_thread t') = LinuxThread.name (main_thread (threads pr)) →
  step k p pr p' (with_threads pr t').
Proof.
  intros [] Hok Hmain. pose proof (changes_evolves _ _ _ step_changes0) as He. destruct step_ids0 as [Hpid Hpp].
  split; try done; simpl.
  - pose proof Hok as []. apply (with_identity_ok p); try done.
    + by rewrite Hpp.
    + by rewrite Hpid.
    + intros name' Hname. destruct (process_named0 name' Hname). split; [by eapply has_process_name_evolves|].
      by rewrite Hmain.
    + by rewrite step_recycles0.
    + by eapply PerfMap.recycler_valid_evolves.
  - intros h name' _. by apply has_process_name_evolves.
Qed.

(** ** Threads *)
#[local] Ltac returns :=
  repeat match goal with
  | H : mbind _ _ = Ok _ |- _ =>
      apply bind_Ok in H; let a := fresh "r" in let Ha := fresh "Hr" in destruct H as (a & Ha & H)
  | x : _ * _ |- _ => destruct x
  | H : Ok _ = Ok _ |- _ => injection H; clear H; intros; subst
  | H : context [match ?x with _ => _ end] |- _ => destruct x eqn:?
  end.
Lemma recycle_or_get_new_thread_main t tid name' start_time p t' p' :
  ProcessThreads.recycle_or_get_new_thread t tid name' start_time p = Ok (t', p') →
  main_thread t' = main_thread t.
Proof.
  unfold ProcessThreads.recycle_or_get_new_thread, recycle_thread, add_thread_for. intros Heq.
  by returns; try done.
Qed.
Lemma rename_non_main_thread_main t tid time name' p t' p' :
  rename_non_main_thread t tid time name' p = Ok (t', p') → main_thread t' = main_thread t.
Proof.
  unfold rename_non_main_thread. intros Heq.
  by returns; try done; eapply recycle_or_get_new_thread_main.
Qed.
Lemma get_thread_by_tid_main t tid p t' p' th :
  get_thread_by_tid t tid p = Ok (t', p', th) → main_thread t' = main_thread t.
Proof. unfold get_thread_by_tid. intros Heq. by returns. Qed.
Lemma remove_non_main_thread_main t tid time p t' p' :
  remove_non_main_thread t tid time p = Ok (t', p') → main_thread t' = main_thread t.
Proof. unfold remove_non_main_thread. intros Heq. by returns. Qed.

Lemma process_recycle_thread_ok n p pr tid name' start_time :
  ProfileRuns.wf n p → Z.of_nat (n + 1) < 2 ^ 32 → recording p → process_ok p pr →
  ∃ pr' p', recycle_or_get_new_thread pr tid name' start_time p = Ok (pr', p') ∧ step 1 p pr p' pr' ∧
    is_Some (thread_at (threads pr') tid).
Proof.
  intros Hwf Hn Hrec Hok. unfold recycle_or_get_new_thread.
  destruct (ProcessThreads.recycle_or_get_new_thread_ok stack_ok n p (threads pr) tid name' start_time)
    as (t' & p' & Heq & Hst & Hat); [done..|apply Hok|].
  rewrite Heq. cbn [mbind res_bind]. eexists _, p'. split; [done|]. split; [|done].
  apply step_threads; [done..|]. by erewrite recycle_or_get_new_thread_main.
Qed.
Lemma on_threads n k p pr t' p' :
  ProfileRuns.wf n p → process_ok p pr → ProcessThreads.step stack_ok k p (threads pr) p' t' →
  main_thread t' = main_thread (threads pr) → step k p pr p' (with_threads pr t').
Proof. intros Hwf Hok Hst Hm. apply step_threads; [done..|by rewrite Hm]. Qed.

(** ** JIT code, files and mappings *)
Definition jit_room (pr : Process) : nat :=
  5 * B * (length (JitDump.processors (jitdump_manager pr)) +
           length (JitDump.pending_jitdump_paths (jitdump_manager pr))).
Lemma shared_valid p pr manager :
  process_ok p pr → JitCategories.wf manager p → recording p →
  JitDump.shared_ok {| JitDump.jit_category_manager := manager; JitDump.profile := p;
                       JitDump.recycler := jit_function_recycler pr |}.
Proof. intros Hok Hm Hrec. split; [done|apply Hok|done]. Qed.
Lemma none_iff {A A'} (o : option A) (o' : option A') : (o = None ↔ o' = None) → is_Some o ↔ is_Some o'.
Proof. rewrite <-!not_eq_None_Some. tauto. Qed.

Lemma check_jitdump_ok n files p pr manager :
  ProfileRuns.wf n p → recording p → process_ok p pr → JitCategories.wf manager p →
  Z.of_nat (n + jit_room pr) < 2 ^ 32 →
  ∃ files' pr' manager' p', check_jitdump files c pr manager p = Some (Ok (files', pr', manager', p')) ∧
    step (jit_room pr) p pr p' pr' ∧ JitCategories.wf manager' p' ∧ jit_room pr' = jit_room pr.
Proof using inputs.
  intros Hwf Hrec Hok Hm Hn. unfold check_jitdump.
  destruct (JitDump.process_all_pending_records_ok R B n files c (jitdump_manager pr)
    {| JitDump.jit_category_manager := manager; JitDump.profile := p;
       JitDump.recycler := jit_function_recycler pr |} (inputs_jitdump _ _ _ inputs) Hwf (shared_valid p pr manager Hok Hm Hrec) (process_jitdump _ _ Hok) Hn)
    as (files' & m' & s' & -> & Hby & Hs' & Hr & Hm' & Hlen).
  cbn [mbind loops_bind returned]. eexists _, _, _, _. split; [done|]. simpl in Hby, Hr.
  split; [|split; [apply Hs'|unfold jit_room; simpl; lia]].
  apply step_calls; try done; [|by apply none_iff]. apply (process_ok_calls _ _ _ _ Hby) in Hok as Hok'.
  destruct Hok'. split; try done; simpl.
  - rewrite process_recyclers0. symmetry. by apply none_iff.
  - apply Hs'.
Qed.

Lemma add_jitdump_path_ok p pr thread path dirs :
  process_ok p pr → (thread < length (Profile.threads p))%nat →
  step 0 p pr p (with_jit pr (JitDump.add_jitdump_path (jitdump_manager pr) thread path dirs)
                   (jit_function_recycler pr)).
Proof.
  intros Hok Hth. apply step_same; try done. destruct Hok. split; try done.
  destruct process_jitdump0. split; [done|]. simpl. apply Forall_app. split; [done|].
  by apply Forall_singleton.
Qed.
Lemma aux_ok_push p l thread path dirs :
  aux_ok p l → (thread < length (Profile.threads p))%nat → aux_ok p (push l (thread, path, dirs)).
Proof. intros Hl Hth. apply Forall_app. split; [done|]. by apply Forall_singleton. Qed.
Lemma add_marker_file_path_ok p pr thread path dirs :
  process_ok p pr → (thread < length (Profile.threads p))%nat →
  step 0 p pr p (add_marker_file_path pr thread path dirs).
Proof. intros Hok Hth. apply step_same; try done. destruct Hok. split; try done. by apply aux_ok_push. Qed.
Lemma add_counter_file_path_ok p pr thread path dirs :
  process_ok p pr → (thread < length (Profile.threads p))%nat →
  step 0 p pr p (add_counter_file_path pr thread path dirs).
Proof. intros Hok Hth. apply step_same; try done. destruct Hok. split; try done. by apply aux_ok_push. Qed.
(** Samples that are valid may be added, by whatever call. *)
Lemma with_samples_ok p pr u :
  process_ok p pr → samples_ok p u →
  step 0 p pr p (with_data pr u (marker_file_paths pr) (counter_file_paths pr) (mem_counter pr)).
Proof. intros Hok Hu. apply step_same; try done. by destruct Hok; split. Qed.
Lemma queue_valid_push p q t op :
  JitDump.queue_valid p q → op_ordered op → Flush.op_info (PerfMap.info_valid p) op →
  JitDump.queue_valid p (queue_push q t op).
Proof. intros Hq Ho Hi. apply Forall_app. split; [done|]. by apply Forall_singleton. Qed.
Lemma adopt_fork_data_ok p pr d :
  process_ok p pr → JitDump.queue_valid p (fork_lib_mapping_ops d) →
  step 0 p pr p (adopt_fork_data_from_parent pr d).
Proof. intros Hok Hd. apply step_same; try done. by destruct Hok; split. Qed.
Lemma add_regular_lib_mapping_ok p pr t s e relative info :
  process_ok p pr → s ≤ e → PerfMap.info_valid p info →
  step 0 p pr p (add_regular_lib_mapping pr t s e relative info).
Proof.
  intros Hok Hse Hi. apply step_same; try done. destruct Hok. split; try done.
  by apply queue_valid_push.
Qed.
Lemma add_jit_function_ok p pr t jit_lib name' s size info :
  process_ok p pr → s ≤ add_u64 s size → PerfMap.info_valid p info →
  step 0 p pr p (add_jit_function pr t jit_lib name' s size info).1.
Proof.
  intros Hok Hse Hi. unfold add_jit_function. destruct (SyntheticJitLibrary.add_function _ _ _) as [lib' a].
  apply step_same; try done. destruct Hok. split; try done. by apply queue_valid_push.
Qed.
Lemma get_or_make_mem_counter_ok n p pr :
  ProfileRuns.wf n p → Z.of_nat n < 2 ^ 32 → process_ok p pr →
  ∃ pr' p' h, get_or_make_mem_counter pr p = Ok (pr', p', h) ∧ step 0 p pr p' pr' ∧
    (h < length (Profile.counters p'))%nat.
Proof.
  intros Hwf Hn Hok. unfold get_or_make_mem_counter. destruct (mem_counter pr) as [h|] eqn:Hc.
  { exists pr, p, h. split; [done|]. split; [by apply step_same|by apply (process_mem_counter _ _ Hok)]. }
  set (o := ProfileRuns.AddCounter (profile_process pr) "malloc" "Memory" "Amount of allocated memory" None).
  assert (ProfileRuns.op_valid o p) as Hv.
  { simpl. rewrite <-(process_handle_same _ _ Hok). apply (process_threads _ _ Hok). }
  destruct (ProfileRuns.op_ok n o p Hwf Hv) as (p1 & Heq & _); [simpl; lia|]. pose proof Heq as Happ.
  cbn [ProfileRuns.apply_op o] in Heq. apply fmap_Ok in Heq as ([p1' h] & Heq & ?). simpl in *. subst p1'. rewrite Heq.
  cbn [mbind res_bind]. assert (by_calls 0 p p1) as Hby by (by apply (by_call 0 o)).
  assert (h < length (Profile.counters p1))%nat.
  { unfold add_counter in Heq. apply bind_Ok in Heq as (? & _ & Heq). injection Heq as <- <-. simpl.
    unfold push. rewrite length_app. simpl. lia. }
  eexists _, p1, h. split; [done|]. split; [|done]. apply step_calls; try done.
  apply (process_ok_calls _ _ _ _ Hby) in Hok. destruct Hok. split; try done. by intros h' [= <-].
Qed.

Lemma add_lib_mapping_for_injected_jit_lib_ok n p pr t time symbol_name s e relative lib manager marker :
  ProfileRuns.wf n p → Z.of_nat (n + 5) < 2 ^ 32 → recording p → process_ok p pr →
  JitCategories.wf manager p → s ≤ e → (lib < ProfileRuns.num_libs p)%nat →
  ∃ pr' manager' p',
    add_lib_mapping_for_injected_jit_lib pr t time symbol_name s e relative lib manager p marker =
      Ok (pr', manager', p') ∧ step 5 p pr p' pr' ∧ JitCategories.wf manager' p'.
Proof.
  intros Hwf Hn Hrec Hok Hm Hse Hlib. unfold add_lib_mapping_for_injected_jit_lib.
  set (text := default "<unknown>" symbol_name).
  assert (∃ p1, (if marker then
       let '(profile', name') := intern_string p text in
       fst <$> add_marker profile' (LinuxThread.profile_thread (main_thread (threads pr)))
                 (Schema.Instant time) (RecorderMarkers.jit_function_add_marker name')
     else Ok p) = Ok p1 ∧ by_calls 4 p p1) as (p1 & -> & Hby1).
  { destruct marker; [|exists p; split; [done|apply by_calls_refl]].
    destruct (JitDump.jit_marker_ok n p (LinuxThread.profile_thread (main_thread (threads pr)))
      (Schema.Instant time) text) as (p' & Hadd & Hby); [done|lia|apply Hrec|apply (process_threads _ _ Hok)|].
    exists p'. split; [|done]. cbn [mbind mret res_bind res_ret] in Hadd. by destruct (intern_string p text). }
  cbn [mbind res_bind]. pose proof (by_calls_evolves _ _ _ Hby1) as He1.
  set (known := match symbol_name, jit_function_recycler pr with Some _, Some _ => _ | _, _ => _ end).
  assert (PerfMap.recycler_valid p known.1 ∧ (known.2.1 < ProfileRuns.num_libs p)%nat ∧
    (is_Some known.1 ↔ is_Some (jit_function_recycler pr))) as (Hr & Hl & Hsome).
  { pose proof (process_functions _ _ Hok) as Hr. unfold known. destruct symbol_name as [name'|]; [|done].
    pose proof (PerfMap.recycle_valid p (jit_function_recycler pr) name'
      (wrap_u32 (sub_u64 e s)) lib relative Hr Hlib) as Hrv.
    destruct (jit_function_recycler pr) as [r|]; [|done].
    destruct (Recycling.recycle r _ _ _ _) as [r' [lib' a']]. simpl.
    destruct Hrv as (? & ? & Hnone & _). split_and!; [done..|by apply none_iff]. }
  destruct known as [r' [lib' a']]. simpl in Hr, Hl, Hsome.
  pose proof (PerfMap.classify_valid (n + 4) manager (default "" symbol_name) p1
    (JitCategories.wf_evolves _ _ _ He1 Hm)) as Hc.
  destruct (JitCategories.classify_jit_symbol _ _ _) as [[m' p2] [cat js]].
  destruct Hc as (Hm' & Hby2 & Hcl).
  { apply (by_calls_wf _ _ p); [done|done|lia]. }
  { lia. }
  assert (by_calls 5 p p2) as Hby by (by apply (by_calls_trans 4 1 _ p1)).
  pose proof (by_calls_evolves _ _ _ Hby) as He. pose proof (evolves_libs _ _ He) as Hlibs.
  eexists _, m', p2. split; [done|]. split; [|done]. apply step_calls; try done.
  apply (process_ok_calls _ _ _ _ Hby) in Hok. destruct Hok. split; try done; simpl.
  - by rewrite process_recyclers0.
  - by eapply PerfMap.recycler_valid_evolves.
  - apply queue_valid_push; [done|done|]. apply (PerfMap.classified_info_valid p2 (default "" symbol_name));
      [done|lia].
Qed.

(** ** The end of a process *)
Lemma notify_dead_ok n p pr end_time :
  ProfileRuns.wf n p → Z.of_nat n < 2 ^ 32 → process_ok p pr →
  ∃ pr' p', notify_dead pr end_time p = Ok (pr', p') ∧ step 0 p pr p' pr' ∧ jit_room pr' = jit_room pr ∧
    name pr' = name pr.
Proof.
  intros Hwf Hn Hok. unfold notify_dead.
  destruct (notify_process_dead_ok stack_ok p (threads pr) end_time (process_threads _ _ Hok))
    as (t' & p1 & -> & Hst & _ & Hmain). cbn [mbind res_bind].
  pose proof (on_threads n 0 p pr t' p1 Hwf Hok Hst Hmain) as Hstep.
  pose proof (step_ok _ _ _ _ _ Hstep) as Hok1. pose proof (ProcessThreads.process_ok _ _ _ (process_threads _ _ Hok1)) as Hlt.
  rewrite (process_handle_same _ _ Hok1) in Hlt.
  destruct (set_process_end_time_spec p1 (profile_process pr) end_time Hlt) as (p2 & -> & Hch & Hn2 & Hp2).
  cbn [mbind res_bind]. eexists _, p2. split; [done|]. split; [|done].
  pose proof (changes_evolves _ _ _ Hch) as He.
  pose proof (process_ok_quiet p1 p2 (with_threads pr t') He Hn2 Hp2 Hok1) as Hok2.
  destruct Hstep. split; try done.
  - by apply (changes_trans 0 0 _ p1).
  - assert (fresh p p2 = fresh p p1) as ->; [|done]. unfold fresh.
    by rewrite <-(thread_names_length p2), Hn2, thread_names_length.
  - intros h name' Hin Hh. unfold has_name. rewrite Hn2. by apply step_names0.
  - intros h name' Hne Hh. unfold has_process_name. rewrite Hp2. by apply step_process_names0.
Qed.

Lemma read_marker_files_ok files p paths :
  aux_ok p paths → ∃ l, read_marker_files files c paths = Ok l ∧
    Forall (λ m, FlushMarkers.timings_ok (Flush.event_or_span m) ∧
      (Flush.marker_thread m < length (Profile.threads p))%nat) l.
Proof using inputs.
  induction 1 as [|[[thread path] dirs] paths Hth _ (l & Heq & Hl)]; cbn [read_marker_files]; [by exists []|].
  destruct (inputs_markers _ _ _ inputs files path dirs) as (markers & -> & Hm). cbn [mbind res_bind].
  rewrite Heq. cbn [mbind res_bind]. eexists. split; [done|]. apply Forall_app. split; [|done].
  apply Forall_fmap. eapply Forall_impl; [exact Hm|]. done.
Qed.
Lemma read_counter_files_ok files p paths :
  aux_ok p paths → ∃ l, read_counter_files files c paths = Ok l ∧
    Forall (λ x, Flush.counter_thread x < length (Profile.threads p))%nat l.
Proof using inputs.
  induction 1 as [|[[thread path] dirs] paths Hth _ (l & Heq & Hl)]; cbn [read_counter_files]; [by exists []|].
  destruct (inputs_counters _ _ _ inputs files path dirs) as (counter & ->). cbn [mbind res_bind].
  rewrite Heq. cbn [mbind res_bind]. eexists. split; [done|]. apply Forall_app. split; [|done].
  destruct counter; [|done]. by apply Forall_singleton.
Qed.

(** What is left of a process: buffered data, and profile threads for others. *)
Record data_ok (p : Profile) (d : Flush.ProcessSampleData) : Prop := {
  data_flush : UnresolvedStacks.wf stacks → Flush.data_valid p stacks d;
  data_process : (Flush.process d < length (processes p))%nat;
  data_markers : Forall (λ m, FlushMarkers.timings_ok (Flush.event_or_span m) ∧
    (Flush.marker_thread m < length (Profile.threads p))%nat) (Flush.markers d);
  data_counters : Forall (λ x, Flush.counter_thread x < length (Profile.threads p))%nat (Flush.counters d)
}.
Definition recycled_handles (d : Recycling.ProcessRecyclingData) : list ThreadHandle :=
  (Recycling.main_thread_recycling_data d).1 :: pooled (Recycling.thread_recycler d).
Record recyclable (p : Profile) (name' : string) (d : Recycling.ProcessRecyclingData) : Prop := {
  recyclable_process : (Recycling.process_handle d < length (processes p))%nat;
  recyclable_name : has_process_name p (Recycling.process_handle d) name';
  recyclable_main : ProcessThreads.data_ok p name' (Recycling.main_thread_recycling_data d);
  recyclable_threads : pool_ok p (Recycling.thread_recycler d);
  recyclable_functions : PerfMap.recycler_valid p (Some (Recycling.jit_function_recycler d))
}.
Lemma data_ok_evolves p p' d : evolves p p' → data_ok p d → data_ok p' d.
Proof.
  intros He [Hf Hp Hm Hc]. pose proof (evolves_threads _ _ He). pose proof (evolves_processes _ _ He). split.
  - intros Hst. destruct (Hf Hst) as [_ Hs Hq Hpm]. split; [done|by apply (samples_ok_evolves p p' _ He)| |].
    + eapply Forall_impl; [exact Hq|]. intros q [Hord Hq']. split; [done|]. eapply Forall_impl; [exact Hq'|].
      intros [t op]. simpl. destruct op; try done. by apply (PerfMap.info_valid_evolves p p').
    + intros m Hm'. destruct (Hpm m Hm') as [? Hi]. split; [done|]. intros k mp Hin.
      apply (PerfMap.info_valid_evolves p p' _ He). by apply (Hi k).
  - lia.
  - eapply Forall_impl; [exact Hm|]. simpl. intros x [? ?]. split; [done|lia].
  - eapply Forall_impl; [exact Hc|]. simpl. lia.
Qed.
Lemma recyclable_frame p p' name' d :
  evolves p p' → (∀ h n, h ∈ recycled_handles d → has_name p h n → has_name p' h n) →
  (∀ n, has_process_name p (Recycling.process_handle d) n → has_process_name p' (Recycling.process_handle d) n) →
  recyclable p name' d → recyclable p' name' d.
Proof.
  intros He Hn Hpn []. pose proof (evolves_processes _ _ He). split.
  - lia.
  - by apply Hpn.
  - eapply ProcessThreads.data_ok_frame; [done| |done]. apply Hn. by left.
  - eapply pool_ok_frame; [done| |done]. intros h n Hh. apply Hn. by right.
  - by eapply PerfMap.recycler_valid_evolves.
Qed.

Definition finish_room (pr : Process) : nat := B + jit_room pr.
Lemma recycling_data_ok p pr r :
  process_ok p pr → PerfMap.recycler_valid p r →
  match recycling_data pr r with
  | Some (name', d) => recyclable p name' d ∧ name pr = Some name' ∧
      recycled_handles d ⊆+ handles pr ∧ Recycling.process_handle d = profile_process pr
  | None => True
  end.
Proof.
  intros Hok Hr. unfold recycling_data, ProcessThreads.finish, LinuxThread.finish.
  destruct (name pr) as [name'|] eqn:Hname; [|done]. destruct r as [r|]; [|done].
  destruct (thread_recycler (threads pr)) as [tr|] eqn:Htr; [|done].
  pose proof (process_threads _ _ Hok) as Ht. destruct (process_named _ _ Hok name' Hname) as [Hpn Hmn].
  split_and!; [|done| |done].
  - split; simpl; [|done| | |done].
    + rewrite <-(process_handle_same _ _ Hok). apply Ht.
    + by apply (finished_data_ok stack_ok p (main_thread (threads pr)) name'); [apply Ht|].
    + by apply (recycler_ok _ _ _ Ht).
  - unfold recycled_handles, handles, ProcessThreads.handles, live. simpl. rewrite Htr. simpl.
    apply submseteq_skip. by apply submseteq_inserts_l.
Qed.
(** A perf map is only loaded for a process with samples. *)
Lemma load_perf_map_ok n files p pr manager :
  ProfileRuns.wf n p → recording p → process_ok p pr → JitCategories.wf manager p →
  Z.of_nat (n + B) < 2 ^ 32 →
  ∃ p1 m1 r1 maps, (if UnresolvedSamples.is_empty (unresolved_samples pr)
      then Ok (p, manager, jit_function_recycler pr, None)
      else PerfMap.try_load_perf_map files (wrap_u32 (pid pr)) p manager (jit_function_recycler pr)) =
    Ok (p1, m1, r1, maps) ∧ by_calls B p p1 ∧ JitCategories.wf m1 p1 ∧ PerfMap.recycler_valid p1 r1 ∧
    ∀ m, maps = Some m → LibMappings.wf m ∧ Flush.mapping_infos (PerfMap.info_valid p1) m.
Proof using inputs.
  intros Hwf Hrec Hok Hm Hn.
  assert (∃ p1 m1 r1 maps, Ok (p, manager, jit_function_recycler pr, None) = Ok (p1, m1, r1, maps) ∧
    by_calls B p p1 ∧ JitCategories.wf m1 p1 ∧ PerfMap.recycler_valid p1 r1 ∧
    ∀ m, maps = Some m → LibMappings.wf m ∧ Flush.mapping_infos (PerfMap.info_valid p1) m) as Hnothing.
  { eexists _, _, _, _. split; [done|]. split_and!; [apply by_calls_refl|done|apply Hok|done]. }
  destruct (UnresolvedSamples.is_empty _); [done|].
  destruct (read_to_string files ("/tmp/" +:+ PerfMap.map_name (wrap_u32 (pid pr)))) as [content|] eqn:Hread.
  2: { unfold PerfMap.try_load_perf_map. by rewrite Hread. }
  destruct (inputs_perf_map _ _ _ inputs files _ content Hread) as [Hmem Hlen].
  destruct (PerfMap.try_load_ok n files (wrap_u32 (pid pr)) p manager (jit_function_recycler pr) content)
    as (p' & m' & r' & maps & lib & library & l & -> & Hby & Hm' & Hr' & _ & Hw & Hi & _);
    [done|lia|done|apply Hok|apply Hrec|done|done|].
  exists p', m', r', (Some maps). split; [done|]. split_and!; [by eapply by_calls_weaken|done|done|].
  by intros m [= <-].
Qed.
Lemma process_finish_ok n files p pr manager :
  ProfileRuns.wf n p → recording p → process_ok p pr → JitCategories.wf manager p →
  Z.of_nat (n + finish_room pr) < 2 ^ 32 →
  ∃ files' manager' p' d rd, finish files c pr manager p = Some (Ok (files', manager', p', (d, rd))) ∧
    by_calls (finish_room pr) p p' ∧ JitCategories.wf manager' p' ∧ data_ok p' d ∧
    match rd with
    | Some (name', rd) => recyclable p' name' rd ∧ name pr = Some name' ∧
        recycled_handles rd ⊆+ handles pr ∧ Recycling.process_handle rd = profile_process pr
    | None => True
    end.
Proof using inputs.
  intros Hwf Hrec Hok Hm Hn. unfold finish, finish_room in *.
  destruct (load_perf_map_ok n files p pr manager Hwf Hrec Hok Hm ltac:(lia))
    as (p1 & m1 & r1 & maps & -> & Hby1 & Hm1 & Hr1 & Hmaps).
  cbn [returned mbind loops_bind]. pose proof (by_calls_evolves _ _ _ Hby1) as He1.
  pose proof (process_ok_calls _ _ _ _ Hby1 Hok) as Hok1.
  destruct (JitDump.finish_ok R B (n + B) files c (jitdump_manager pr)
    {| JitDump.jit_category_manager := m1; JitDump.profile := p1; JitDump.recycler := r1 |}
    (inputs_jitdump _ _ _ inputs)) as (files' & ops & s & -> & Hby2 & Hs & _ & Hops).
  { apply (by_calls_wf _ _ p); [done|done|lia]. }
  { split; [done..|by eapply recording_evolves]. }
  { apply Hok1. }
  { unfold jit_room in Hn. lia. }
  simpl in Hby2. pose proof (by_calls_evolves _ _ _ Hby2) as He2.
  pose proof (process_ok_calls _ _ _ _ Hby2 Hok1) as Hok2. cbn [mbind loops_bind].
  destruct (read_marker_files_ok files' (JitDump.profile s) (marker_file_paths pr)) as (markers & -> & Hmarkers);
    [apply Hok2|]. cbn [returned mbind loops_bind].
  destruct (read_counter_files_ok files' (JitDump.profile s) (counter_file_paths pr)) as (counters & -> & Hcounters);
    [apply Hok2|]. cbn [returned mbind loops_bind].
  eexists _, _, _, _, _. split; [done|]. split; [by apply (by_calls_trans B _ _ p1)|].
  split; [apply Hs|]. split; [|apply recycling_data_ok; [done|apply Hs]].
  split; simpl; [|rewrite <-(process_handle_same _ _ Hok2); apply (process_threads _ _ Hok2)|done|done].
  intros Hst. assert (∀ q, JitDump.queue_valid (JitDump.profile s) q → queue_ordered q ∧
      Forall (λ op, Flush.op_info (PerfMap.info_valid (JitDump.profile s)) op.2) q) as Hq.
  { intros q Hq. split; (eapply Forall_impl; [exact Hq|]); by intros [t op] []. }
  split; simpl; [done|apply Hok2| |].
  - constructor; [by apply Hq, Hok2|].
    assert (Forall (JitDump.queue_valid (JitDump.profile s)) (with_app_cache_ops (jit_app_cache_mapping_ops pr) ops)) as Hall.
    { unfold with_app_cache_ops. destruct (jit_app_cache_mapping_ops pr) eqn:Ha; [done|].
      constructor; [|done]. rewrite <-Ha. apply Hok2. }
    eapply Forall_impl; [exact Hall|]. exact Hq.
  - intros m Em. destruct (Hmaps m Em) as [? Hi]. split; [done|]. intros k mp Hin.
    apply (PerfMap.info_valid_evolves _ _ _ He2). by apply (Hi k).
Qed.

(** ** Renaming *)
Lemma rename_without_recycling_ok n p pr name' label :
  ProfileRuns.wf n p → Z.of_nat n < 2 ^ 32 → process_ok p pr → NoDup (handles pr) → label_ok p label →
  ∃ pr' p', rename_without_recycling pr name' label p = Ok (pr', p') ∧ step 0 p pr p' pr' ∧
    name pr' = Some name' ∧ jit_room pr' = jit_room pr.
Proof.
  intros Hwf Hn Hok Hnd Hlabel. unfold rename_without_recycling, LinuxThread.rename_without_recycling.
  pose proof (process_threads _ _ Hok) as Ht. pose proof (ProcessThreads.process_ok _ _ _ Ht) as Hlt.
  rewrite (process_handle_same _ _ Hok) in Hlt.
  destruct (set_process_name_spec p (profile_process pr) name' Hlt) as (p1 & -> & Hch1 & Hp1 & Hn1).
  cbn [mbind res_bind]. pose proof (changes_evolves _ _ _ Hch1) as He1.
  set (h := LinuxThread.profile_thread (main_thread (threads pr))) in *.
  assert (h < length (Profile.threads p))%nat as Hh by apply (main_ok _ _ _ Ht).
  destruct (set_thread_name_spec p1 h name') as (p2 & -> & Hch2 & Hn2 & Hp2).
  { pose proof (evolves_threads _ _ He1). lia. }
  cbn [mbind res_bind]. assert (changes 0 p p2) as Hch by (by apply (changes_trans 0 0 _ p1)).
  pose proof (changes_evolves _ _ _ Hch) as He. rewrite Hn1 in Hn2. rewrite Hp1 in Hp2.
  assert (∀ h' n', h' ≠ h → has_name p h' n' → has_name p2 h' n') as Hkeep.
  { intros h' n' Hne. unfold has_name. by rewrite Hn2, list_lookup_insert_ne. }
  assert (has_name p2 h name') as Hnamed.
  { unfold has_name. rewrite Hn2. apply list_lookup_insert_eq. by rewrite thread_names_length. }
  assert (has_process_name p2 (profile_process pr) name') as Hpnamed.
  { unfold has_process_name. rewrite Hp2. apply list_lookup_insert_eq. unfold process_names.
    by rewrite length_fmap. }
  unfold handles, ProcessThreads.handles, live in Hnd. simpl in Hnd. apply NoDup_cons in Hnd as [Hnotin _].
  fold h in Hnotin.
  assert (threads_ok p2 (with_main (threads pr) (LinuxThread.renamed (main_thread (threads pr)) h label name'))) as Ht2.
  { pose proof (evolves_threads _ _ He). pose proof (evolves_processes _ _ He). destruct Ht. split; simpl.
    - lia.
    - split; simpl; [unfold h in *; lia|by intros n' [= <-]|by eapply label_ok_evolves|apply main_ok0].
    - intros tid th Hth. eapply thread_ok_frame; [done| |by eapply others_ok0]. intros n'. apply Hkeep.
      intros Heq. apply Hnotin, elem_of_app. left. apply gather_elem. exists tid, th. split; [done|].
      rewrite <-Heq. by left.
    - done.
    - intros r Hr. eapply pool_ok_frame; [done| |by apply recycler_ok0]. intros h' n' Hin. apply Hkeep.
      intros ->. apply Hnotin, elem_of_app. right. by rewrite Hr. }
  eexists _, p2. split; [done|]. split; [|done]. split; try done; simpl.
  - pose proof Hok as []. apply (with_identity_ok p); try done.
    + by intros n' [= <-].
    + by eapply PerfMap.recycler_valid_evolves.
  - unfold handles, ProcessThreads.handles, live. simpl. fold h.
    apply submseteq_skip. by apply submseteq_inserts_r.
  - intros h' n' Hin. apply Hkeep. intros ->. apply Hin. by left.
  - intros h' n' Hne. unfold has_process_name. by rewrite Hp2, list_lookup_insert_ne.
Qed.

Lemma rename_with_recycling_ok p pr name' d :
  process_ok p pr → is_Some (jit_function_recycler pr) → recyclable p name' d →
  ∃ pr' old, rename_with_recycling pr name' d = Ok (pr', (old, name pr)) ∧ process_ok p pr' ∧
    profile_process pr' = Recycling.process_handle d ∧ pid pr' = pid pr ∧ name pr' = Some name' ∧
    is_Some (jit_function_recycler pr') ∧ Recycling.process_handle old = profile_process pr ∧
    (∀ n, name pr = Some n → recyclable p n old) ∧ jit_room pr' = jit_room pr ∧
    handles pr' ++ recycled_handles old ≡ₚ handles pr ++ recycled_handles d.
Proof.
  intros Hok Hsome Hd. unfold rename_with_recycling. pose proof (process_threads _ _ Hok) as Ht.
  destruct (rename_process_with_recycling_ok stack_ok p (threads pr) name' (Recycling.process_handle d)
    (Recycling.main_thread_recycling_data d) (Recycling.thread_recycler d) Ht)
    as (t' & r' & -> & Ht' & Hpp & Hpid & Hr' & Hr & Hsome' & Hmain & Hh).
  { by apply (process_recyclers _ _ Hok). }
  { apply Hd. }
  { apply Hd. }
  { apply Hd. }
  cbn [mbind res_bind]. destruct Hsome as [f Hf]. rewrite Hf. cbn [mbind res_bind unwrap].
  eexists _, _. split; [done|]. simpl. split_and!; try done.
  - apply (with_identity_ok p); try done.
    + by rewrite Hpid; apply Hok.
    + intros n' [= <-]. split; [apply Hd|done].
    + apply Hd.
  - intros n Hname. destruct (process_named _ _ Hok n Hname) as [Hpn Hmn]. split; simpl; try done.
    + rewrite <-(process_handle_same _ _ Hok). apply Ht.
    + by apply (finished_data_ok stack_ok p (main_thread (threads pr)) n); [apply Ht|].
    + rewrite <-Hf. apply Hok.
Qed.

(** ** New processes *)
Lemma new_process_ok p pid' ph h label name' tr jr unlink emit :
  (ph < length (processes p))%nat → (h < length (Profile.threads p))%nat → label_ok p label →
  (∀ n, name' = Some n → has_process_name p ph n ∧ has_name p h n) →
  (∀ r, tr = Some r → pool_ok p r) → PerfMap.recycler_valid p jr → (is_Some tr ↔ is_Some jr) →
  process_ok p (new pid' ph h label name' tr jr unlink emit) ∧
  handles (new pid' ph h label name' tr jr unlink emit) = h :: from_option pooled [] tr.
Proof.
  intros Hph Hh Hlabel Hname Htr Hjr Hiff. split; [|done]. split; try done; simpl; try by constructor.
  - split; try done; simpl. apply new_thread_ok; [done..|]. intros n Hn. by apply Hname.
  - intros n Hn. split; [by apply Hname|done].
Qed.
End invariant.
End LinuxProcess.
