(* ===== verification/Processes.v ===== *)
(** All processes of a Linux recording: samply/src/linux_shared/processes.rs. *)
From S2P Require Import Prelude RustStr BTree Types LibMappings Hierarchy StringTables LibTable Markers.
From S2P Require Import ThreadSafety ProfileModel ProfileSafety ProfileRuns RecorderMarkers ProfileCalls.
From S2P Require Import UnresolvedSamples PathFiles MarkerFile StackConversion Flush FlushMarkers Recycling.
From S2P Require Import JitCategories SyntheticJit PerfMap JitDump LinuxThreads LinuxProcess.
From stdpp Require Import options.
Open Scope Z_scope.

Module Processes.
Import Profile ProfileCalls PathFiles LinuxProcess.

Section processes.
Context `{DebugIdOps} `{JitDumpReader} `{!TextFiles} `{Unwinding} `{DrainOrder}.

Record Processes := {
  processes_by_pid : gmap Z Process;
  process_recycler : option Recycling.ProcessRecycler;
  process_sample_datas : list Flush.ProcessSampleData;
  unlink_aux_data : bool;
  should_emit_jit_markers : bool
}.
Definition with_processes (ps : Processes) (m : gmap Z Process) : Processes :=
  {| processes_by_pid := m; process_recycler := process_recycler ps;
     process_sample_datas := process_sample_datas ps; unlink_aux_data := unlink_aux_data ps;
     should_emit_jit_markers := should_emit_jit_markers ps |}.
Definition with_recycler (ps : Processes) (r : option Recycling.ProcessRecycler) : Processes :=
  {| processes_by_pid := processes_by_pid ps; process_recycler := r;
     process_sample_datas := process_sample_datas ps; unlink_aux_data := unlink_aux_data ps;
     should_emit_jit_markers := should_emit_jit_markers ps |}.
Definition add_sample_data (ps : Processes) (d : Flush.ProcessSampleData) : Processes :=
  if UnresolvedSamples.is_empty (Flush.unresolved_samples d) then ps
  else
    {| processes_by_pid := processes_by_pid ps; process_recycler := process_recycler ps;
       process_sample_datas := push (process_sample_datas ps) d; unlink_aux_data := unlink_aux_data ps;
       should_emit_jit_markers := should_emit_jit_markers ps |}.
Definition set_process (ps : Processes) (pid : Z) (pr : Process) : Processes :=
  with_processes ps (<[pid := pr]> (processes_by_pid ps)).

Definition new (allow_reuse unlink_aux_data' should_emit_jit_markers' : bool) : Processes :=
  {| processes_by_pid := ∅;
     process_recycler := if allow_reuse then Some (Recycling.new : Recycling.ProcessRecycler) else None;
     process_sample_datas := []; unlink_aux_data := unlink_aux_data';
     should_emit_jit_markers := should_emit_jit_markers' |}.

(** A process with a profile process and a main thread of its own. *)
Definition add_new_process (ps : Processes) (pid : Z) (name : option string) (start_time : Timestamp)
    (profile : Profile) : res (Processes * Profile) :=
  let '(profile1, process_handle) :=
    add_process profile (default ("<" +:+ dec_string pid +:+ ">") name) (wrap_u32 pid) start_time in
  '(profile2, main_thread_handle) ← add_thread profile1 process_handle (wrap_u32 pid) start_time true;
  profile3 ← match name with
             | Some name => set_thread_name profile2 main_thread_handle name
             | None => Ok profile2
             end;
  let '(profile4, label) := ProcessThreads.make_thread_label_frame profile3 name pid pid in
  let '(thread_recycler, jit_function_recycler) :=
    match process_recycler ps with
    | Some _ => (Some (Recycling.new : Recycling.ThreadRecycler),
                 Some Recycling.default_jit_function_recycler)
    | None => (None, None)
    end in
  Ok (set_process ps pid (LinuxProcess.new pid process_handle main_thread_handle label name
        thread_recycler jit_function_recycler (unlink_aux_data ps) (should_emit_jit_markers ps)), profile4).
(** A pool can only answer a process with a name. *)
Definition recycle_process (ps : Processes) (name : option string)
    : res (Processes * option Recycling.ProcessRecyclingData) :=
  match process_recycler ps, name with
  | Some r, Some name =>
      '(r', recycled) ← Recycling.recycle_by_name r name;
      Ok (with_recycler ps (Some r'), recycled)
  | _, _ => Ok (ps, None)
  end.
Definition process_from (ps : Processes) (pid : Z) (name : option string)
    (data : Recycling.ProcessRecyclingData) : Process :=
  let '(main_thread_handle, main_thread_label_frame) := Recycling.main_thread_recycling_data data in
  LinuxProcess.new pid (Recycling.process_handle data) main_thread_handle main_thread_label_frame name
    (Some (Recycling.thread_recycler data)) (Some (Recycling.jit_function_recycler data))
    (unlink_aux_data ps) (should_emit_jit_markers ps).
(** The process it returns is the one with the pid. *)
Definition recycle_or_get_new (ps : Processes) (pid : Z) (name : option string) (start_time : Timestamp)
    (profile : Profile) : res (Processes * Profile) :=
  match processes_by_pid ps !! pid with
  | None =>
      '(ps', recycled) ← recycle_process ps name;
      match recycled with
      | Some data => Ok (set_process ps' pid (process_from ps' pid name data), profile)
      | None => add_new_process ps' pid name start_time profile
      end
  | Some pr =>
      let main := ProcessThreads.main_thread (threads pr) in
      match LinuxThread.last_sample_timestamp main with
      | None =>
          profile1 ← set_process_start_time profile (profile_process pr) start_time;
          profile2 ← set_thread_start_time profile1 (LinuxThread.profile_thread main) start_time;
          Ok (ps, profile2)
      | Some _ => Ok (ps, profile)
      end
  end.
Definition get_by_pid (ps : Processes) (pid : Z) (profile : Profile) : res (Processes * Profile) :=
  match processes_by_pid ps !! pid with
  | Some _ => Ok (ps, profile)
  | None => add_new_process ps pid None (from_millis_since_reference (f64_of_Z 0)) profile
  end.

Definition remove (files : fs) (c : TimestampConverter) (ps : Processes) (pid : Z) (time : Timestamp)
    (manager : JitCategories.JitCategoryManager) (profile : Profile)
    : loops (fs * JitCategories.JitCategoryManager * Profile * Processes) :=
  match processes_by_pid ps !! pid with
  | None => returned (Ok (files, manager, profile, ps))
  | Some pr =>
      let ps1 := with_processes ps (delete pid (processes_by_pid ps)) in
      '(pr', profile1) ← returned (notify_dead pr time profile);
      '(files', manager', profile2, (d, recycling)) ← LinuxProcess.finish files c pr' manager profile1;
      let ps2 := add_sample_data ps1 d in
      returned (Ok (files', manager', profile2,
        match recycling, process_recycler ps2 with
        | Some (name, data), Some r => with_recycler ps2 (Some (Recycling.add_to_pool r name data))
        | _, _ => ps2
        end))
  end.

Definition rename_process (ps : Processes) (pid : Z) (timestamp : Timestamp) (name : string)
    (profile : Profile) : res (Processes * Profile) :=
  match processes_by_pid ps !! pid with
  | None => recycle_or_get_new ps pid (Some name) timestamp profile
  | Some pr =>
      if decide (LinuxProcess.name pr = Some name) then Ok (ps, profile)
      else
        '(ps', recycled) ← recycle_process ps (Some name);
        match recycled with
        | Some data =>
            '(pr', (old_data, old_name)) ← rename_with_recycling pr name data;
            let ps1 := set_process ps' pid pr' in
            Ok (match old_name, process_recycler ps1 with
                | Some old_name, Some r => with_recycler ps1 (Some (Recycling.add_to_pool r old_name old_data))
                | _, _ => ps1
                end, profile)
        | None =>
            let '(profile1, label) :=
              ProcessThreads.make_thread_label_frame profile (Some name) pid pid in
            '(pr', profile2) ← rename_without_recycling pr name label profile1;
            Ok (set_process ps' pid pr', profile2)
        end
  end.

(** ** The end of the recording *)
Fixpoint finish_alive (files : fs) (c : TimestampConverter) (ps : Processes) (l : list (Z * Process))
    (manager : JitCategories.JitCategoryManager) (profile : Profile)
    : loops (fs * JitCategories.JitCategoryManager * Profile * Processes) :=
  match l with
  | [] => returned (Ok (files, manager, profile, ps))
  | (_, pr) :: l' =>
      '(files', manager', profile', (d, _)) ← LinuxProcess.finish files c pr manager profile;
      finish_alive files' c (add_sample_data ps d) l' manager' profile'
  end.
Fixpoint flush_all (user_category kernel_category : CategoryPairHandle)
    (stacks : UnresolvedStacks.UnresolvedStacks) (datas : list Flush.ProcessSampleData)
    (profile : Profile) : loops Profile :=
  match datas with
  | [] => returned (Ok profile)
  | d :: datas' =>
      profile' ← FlushMarkers.flush_samples_to_profile d profile user_category kernel_category stacks;
      flush_all user_category kernel_category stacks datas' profile'
  end.
Definition finish (files : fs) (c : TimestampConverter) (ps : Processes)
    (stacks : UnresolvedStacks.UnresolvedStacks) (manager : JitCategories.JitCategoryManager)
    (profile : Profile) : loops Profile :=
  '(_, _, profile1, ps') ←
    finish_alive files c ps (drain (processes_by_pid ps)) manager profile;
  let '(profile2, user) := add_category profile1 "User" Yellow in
  let '(profile3, kernel) := add_category profile2 "Kernel" Orange in
  flush_all (CategoryPairHandle_from user) (CategoryPairHandle_from kernel) stacks
    (process_sample_datas ps') profile3.
End processes.

(** * Invariant

    A profile thread is used by one live thread or kept in one pool, a profile
    process by one live process or kept in one pool; what has a name uses a
    profile thread or process of that name. *)
Section invariant.
Context `{DebugIdOps} `{JitDumpReader} `{!TextFiles} `{Unwinding} `{DrainOrder}.
Context (R : reader → Prop) (B : nat) (c : TimestampConverter) (inputs : inputs_ok R B c).
Context (stacks : UnresolvedStacks.UnresolvedStacks).
Notation process_ok := (LinuxProcess.process_ok R stacks).
Notation data_ok := (LinuxProcess.data_ok stacks).
Notation has_name := ProcessThreads.has_name.
Notation fresh := ProcessThreads.fresh.

Definition pooled_threads (r : Recycling.ProcessRecycler) : list ThreadHandle :=
  Recycling.entries r ≫= recycled_handles.
Definition pooled_processes (r : Recycling.ProcessRecycler) : list ProcessHandle :=
  Recycling.process_handle <$> Recycling.entries r.
Definition thread_handles (ps : Processes) : list ThreadHandle :=
  gather (λ _, handles) (processes_by_pid ps) ++ from_option pooled_threads [] (process_recycler ps).
Definition process_handles (ps : Processes) : list ProcessHandle :=
  gather (λ _ pr, [profile_process pr]) (processes_by_pid ps) ++
  from_option pooled_processes [] (process_recycler ps).

Record alive_ok (p : Profile) (r : option Recycling.ProcessRecycler) (pid : Z) (pr : Process) : Prop := {
  alive_process : process_ok p pr;
  alive_pid : LinuxProcess.pid pr = pid;
  alive_recycles : is_Some (jit_function_recycler pr) ↔ is_Some r
}.
Definition recycler_ok (p : Profile) (r : Recycling.ProcessRecycler) : Prop :=
  Recycling.wf r ∧ ∀ name d, d ∈ Recycling.pool r name → recyclable p name d.
Record processes_ok (p : Profile) (ps : Processes) : Prop := {
  processes_alive : map_Forall (alive_ok p (process_recycler ps)) (processes_by_pid ps);
  processes_pool : ∀ r, process_recycler ps = Some r → recycler_ok p r;
  processes_data : Forall (data_ok p) (process_sample_datas ps);
  distinct_threads : NoDup (thread_handles ps);
  distinct_processes : NoDup (process_handles ps)
}.
(** What an operation does. *)
Record step (k : nat) (p : Profile) (ps : Processes) (p' : Profile) (ps' : Processes) : Prop := {
  step_changes : changes k p p';
  step_ok : processes_ok p' ps';
  step_handles : thread_handles ps' ⊆+ thread_handles ps ++ fresh p p';
  step_names : ∀ h name, h ∉ thread_handles ps → has_name p h name → has_name p' h name
}.

(** ** Handles *)
Lemma bind_perm {A A'} (f : A → list A') (l l' : list A) : l ≡ₚ l' → (l ≫= f) ≡ₚ (l' ≫= f).
Proof.
  induction 1 as [|x l l' _ IH|x y l|l1 l2 l3 _ IH1 _ IH2]; csimpl; [done|by rewrite IH| |by etrans].
  rewrite !app_assoc. by rewrite (Permutation_app_comm (f y)).
Qed.
Lemma pooled_threads_add r name d :
  pooled_threads (Recycling.add_to_pool r name d) ≡ₚ recycled_handles d ++ pooled_threads r.
Proof. unfold pooled_threads. by rewrite (bind_perm _ _ _ (Recycling.add_to_pool_entries r name d)). Qed.
Lemma pooled_processes_add r name d :
  pooled_processes (Recycling.add_to_pool r name d) ≡ₚ Recycling.process_handle d :: pooled_processes r.
Proof. unfold pooled_processes. by rewrite Recycling.add_to_pool_entries. Qed.
Lemma pool_entry (r : Recycling.ProcessRecycler) name d : d ∈ Recycling.pool r name → d ∈ Recycling.entries r.
Proof.
  intros Hd. unfold Recycling.entries. apply list_elem_of_fmap. exists (name, d). split; [done|].
  by apply Recycling.named_elem.
Qed.

Definition without (ps : Processes) (pid : Z) : Processes :=
  with_processes ps (delete pid (processes_by_pid ps)).
Lemma set_process_without ps pid pr : set_process (without ps pid) pid pr = set_process ps pid pr.
Proof. unfold set_process, without, with_processes. simpl. by rewrite insert_delete_eq. Qed.
Lemma without_handles ps pid pr :
  processes_by_pid ps !! pid = Some pr →
  thread_handles ps ≡ₚ handles pr ++ thread_handles (without ps pid) ∧
  process_handles ps ≡ₚ profile_process pr :: process_handles (without ps pid).
Proof.
  intros Hpr. unfold thread_handles, process_handles. simpl.
  rewrite (gather_delete (λ _, handles) _ _ _ Hpr), (gather_delete (λ _ pr, [profile_process pr]) _ _ _ Hpr).
  by rewrite <-app_assoc.
Qed.
Lemma set_handles ps pid pr :
  thread_handles (set_process ps pid pr) ≡ₚ handles pr ++ thread_handles (without ps pid) ∧
  process_handles (set_process ps pid pr) ≡ₚ profile_process pr :: process_handles (without ps pid).
Proof. unfold thread_handles, process_handles. simpl. rewrite !gather_insert. by rewrite <-app_assoc. Qed.
Lemma pooled_handles ps r :
  process_recycler ps = Some r →
  thread_handles ps = gather (λ _, handles) (processes_by_pid ps) ++ pooled_threads r ∧
  process_handles ps = gather (λ _ pr, [profile_process pr]) (processes_by_pid ps) ++ pooled_processes r.
Proof. intros Hr. unfold thread_handles, process_handles. by rewrite Hr. Qed.

Lemma recycled_handles_lt p name d :
  recyclable p name d → Forall (λ h, h < length (Profile.threads p))%nat (recycled_handles d).
Proof.
  intros [_ _ [Hm _] [_ Hpool] _]. constructor; [done|]. apply Forall_forall. intros h Hh.
  unfold ProcessThreads.pooled, Recycling.entries in Hh. apply list_elem_of_fmap in Hh as (x & -> & Hx).
  apply list_elem_of_fmap in Hx as ([n x'] & -> & Hx). apply Recycling.named_elem in Hx. by apply (Hpool n).
Qed.
Lemma pool_recyclable p r d :
  recycler_ok p r → d ∈ Recycling.entries r → ∃ name, recyclable p name d.
Proof.
  intros [_ Hr] Hd. unfold Recycling.entries in Hd. apply list_elem_of_fmap in Hd as ([name d'] & -> & Hd).
  exists name. by apply Hr, Recycling.named_elem.
Qed.
Lemma thread_handles_lt p ps :
  processes_ok p ps → Forall (λ h, h < length (Profile.threads p))%nat (thread_handles ps).
Proof.
  intros []. apply Forall_app. split.
  - apply Forall_forall. intros h (pid & pr & Hpr & Hh)%gather_elem.
    pose proof (ProcessThreads.handles_lt _ _ _ (process_threads _ _ _ _ (alive_process _ _ _ _ (processes_alive0 _ _ Hpr)))) as Hlt.
    rewrite Forall_forall in Hlt. by apply Hlt.
  - destruct (process_recycler ps) as [r|] eqn:Hr; simpl; [|done]. apply Forall_forall.
    intros h (d & Hh & Hd)%list_elem_of_bind. destruct (pool_recyclable p r d) as [name Hd']; [by apply processes_pool0|done|].
    pose proof (recycled_handles_lt p name d Hd') as Hlt. rewrite Forall_forall in Hlt. by apply Hlt.
Qed.
Lemma process_handles_lt p ps :
  processes_ok p ps → Forall (λ h, h < length (processes p))%nat (process_handles ps).
Proof.
  intros []. apply Forall_app. split.
  - apply Forall_forall. intros h (pid & pr & Hpr & ->%list_elem_of_singleton)%gather_elem.
    pose proof (alive_process _ _ _ _ (processes_alive0 _ _ Hpr)) as Hok.
    rewrite <-(process_handle_same _ _ _ _ Hok). apply (process_threads _ _ _ _ Hok).
  - destruct (process_recycler ps) as [r|] eqn:Hr; simpl; [|done]. apply Forall_forall.
    intros h (d & -> & Hd)%list_elem_of_fmap. destruct (pool_recyclable p r d) as [name []]; [by apply processes_pool0|done|done].
Qed.

Lemma new_processes_ok p allow_reuse unlink markers : processes_ok p (new allow_reuse unlink markers).
Proof.
  split; simpl; [by apply map_Forall_empty| |done|by destruct allow_reuse; constructor..].
  intros r. destruct allow_reuse; [intros [= <-]|done]. split; [by intros name|].
  by intros name d ?%elem_of_nil.
Qed.

(** ** Parts that stay valid *)
Lemma processes_ok_frame p p' ps :
  evolves p p' → (∀ h n, h ∈ thread_handles ps → has_name p h n → has_name p' h n) →
  (∀ h n, h ∈ process_handles ps → has_process_name p h n → has_process_name p' h n) →
  processes_ok p ps → processes_ok p' ps.
Proof.
  intros He Hn Hpn []. unfold thread_handles, process_handles in Hn, Hpn. split; try done.
  - intros pid pr Hpr. destruct (processes_alive0 pid pr Hpr). split; [|done..].
    eapply process_ok_frame; [done|..|done].
    + intros h n Hh. apply Hn, elem_of_app. left. apply gather_elem. by exists pid, pr.
    + intros n. apply Hpn, elem_of_app. left. apply gather_elem. exists pid, pr. split; [done|by left].
  - intros r Hr. destruct (processes_pool0 r Hr) as [Hwf Hpool]. split; [done|]. intros name d Hd.
    rewrite Hr in Hn, Hpn. eapply recyclable_frame; [done| | |by apply Hpool].
    + intros h n Hh. apply Hn, elem_of_app. right. apply list_elem_of_bind. exists d. split; [done|].
      by eapply pool_entry.
    + intros n. apply Hpn, elem_of_app. right. apply list_elem_of_fmap. exists d. split; [done|].
      by eapply pool_entry.
  - eapply Forall_impl; [exact processes_data0|]. intros d. by apply LinuxProcess.data_ok_evolves.
Qed.
Lemma without_absent ps pid : processes_by_pid ps !! pid = None → without ps pid = ps.
Proof. intros Hn. unfold without, with_processes. rewrite delete_id by done. by destruct ps. Qed.
Lemma without_ok p ps pid : processes_ok p ps → processes_ok p (without ps pid).
Proof.
  intros Hok. destruct (processes_by_pid ps !! pid) as [pr|] eqn:Hpr; [|by rewrite without_absent].
  destruct Hok.
  destruct (without_handles ps pid pr Hpr) as [Ht Hp]. rewrite Ht in distinct_threads0.
  rewrite Hp in distinct_processes0. split; try done; simpl.
  - by apply map_Forall_delete.
  - by apply NoDup_app in distinct_threads0 as (_ & _ & ?).
  - by apply NoDup_cons in distinct_processes0 as [_ ?].
Qed.
Lemma put_process_ok p ps pid pr :
  processes_ok p (without ps pid) → alive_ok p (process_recycler ps) pid pr →
  NoDup (handles pr ++ thread_handles (without ps pid)) →
  NoDup (profile_process pr :: process_handles (without ps pid)) →
  processes_ok p (set_process ps pid pr).
Proof.
  intros [] Hpr Hnd Hndp. destruct (set_handles ps pid pr) as [Ht Hp]. split; try done; simpl in *.
  - rewrite <-insert_delete_eq. by apply map_Forall_insert_2.
  - by rewrite Ht.
  - by rewrite Hp.
Qed.

(** An operation on one process. *)
Lemma step_process k p ps pid pr p' pr' :
  processes_ok p ps → processes_by_pid ps !! pid = Some pr → LinuxProcess.step R stacks k p pr p' pr' →
  step k p ps p' (set_process ps pid pr').
Proof.
  intros Hok Hpr Hst. destruct (without_handles ps pid pr Hpr) as [Ht Hp].
  destruct (set_handles ps pid pr') as [Ht' Hp'].
  pose proof (changes_evolves _ _ _ (LinuxProcess.step_changes _ _ _ _ _ _ _ Hst)) as He.
  pose proof Hst as [Hch Hok' Hsub Hn Hpn [Hpp Hpid] Hrec].
  pose proof (distinct_threads _ _ Hok) as Hnd. pose proof (distinct_processes _ _ Hok) as Hndp.
  assert (thread_handles (set_process ps pid pr') ⊆+ thread_handles ps ++ fresh p p') as Hh.
  { rewrite Ht, Ht'. etrans; [apply submseteq_skips_r, Hsub|]. rewrite <-!app_assoc.
    apply submseteq_skips_l. by rewrite (Permutation_app_comm (fresh p p')). }
  assert (NoDup (thread_handles (set_process ps pid pr'))) as Hnd'
    by (by eapply ProcessThreads.handles_NoDup; [|apply (thread_handles_lt p)|]).
  rewrite Ht in Hnd. apply NoDup_app in Hnd as (_ & Hdis & _). rewrite Hp in Hndp.
  apply NoDup_cons in Hndp as [Hnotin Hndp].
  split; try done.
  - apply put_process_ok.
    + eapply processes_ok_frame; [done|..|by apply without_ok].
      * intros h n Hin. apply Hn. intros Hin'. by apply (Hdis h).
      * intros h n Hin. apply Hpn. intros ->. done.
    + destruct (processes_alive _ _ Hok pid pr Hpr). split; [done|congruence|by rewrite Hrec].
    + by rewrite <-Ht'.
    + rewrite Hpp. by apply NoDup_cons.
  - intros h n Hin. apply Hn. intros Hin'. apply Hin. rewrite Ht. apply elem_of_app. by left.
Qed.
Lemma processes_step_refl k p ps : processes_ok p ps → step k p ps p ps.
Proof.
  intros Hok. split; [apply changes_refl|done| |done]. by apply submseteq_inserts_r.
Qed.

(** ** Pools *)
Lemma with_recycler_ok p ps r :
  processes_ok p ps → is_Some (process_recycler ps) → recycler_ok p r →
  NoDup (thread_handles (with_recycler ps (Some r))) → NoDup (process_handles (with_recycler ps (Some r))) →
  processes_ok p (with_recycler ps (Some r)).
Proof.
  intros [] Hsome Hr Hnd Hndp. split; try done; simpl.
  - eapply map_Forall_impl; [exact processes_alive0|]. intros pid pr []. split; try done. simpl.
    rewrite alive_recycles0. split; [by eexists|done].
  - by intros r' [= <-].
Qed.
Lemma recycle_process_ok p ps name :
  processes_ok p ps →
  ∃ ps' o, recycle_process ps name = Ok (ps', o) ∧ processes_ok p ps' ∧
    processes_by_pid ps' = processes_by_pid ps ∧
    match o with
    | None => thread_handles ps' = thread_handles ps ∧ process_handles ps' = process_handles ps ∧
        (is_Some (process_recycler ps') ↔ is_Some (process_recycler ps))
    | Some d => ∃ name', name = Some name' ∧ recyclable p name' d ∧ is_Some (process_recycler ps') ∧
        is_Some (process_recycler ps) ∧
        thread_handles ps ≡ₚ recycled_handles d ++ thread_handles ps' ∧
        process_handles ps ≡ₚ Recycling.process_handle d :: process_handles ps'
    end.
Proof.
  intros Hok. unfold recycle_process. destruct (process_recycler ps) as [r|] eqn:Hr.
  2: { exists ps, None. split_and!; try done. by rewrite Hr. }
  destruct name as [name|]; [|exists ps, None; split_and!; try done; by rewrite Hr].
  destruct (processes_pool _ _ Hok r Hr) as [Hwf Hpool].
  destruct (Recycling.recycle_by_name_ok r name Hwf) as (r' & o & -> & Hwf' & Hrec). cbn [mbind res_bind].
  destruct (pooled_handles ps r Hr) as [Ht Hp].
  destruct (pooled_handles (with_recycler ps (Some r')) r' eq_refl) as [Ht' Hp'].
  cbn [processes_by_pid with_recycler] in Ht', Hp'.
  assert (recycler_ok p r') as Hok'.
  { split; [done|]. intros name' d. rewrite <-Recycling.named_elem. intros Hd. apply Hpool, Recycling.named_elem.
    inversion Hrec as [|? ? Hperm _]; subst; [done|]. rewrite Hperm. by right. }
  pose proof (distinct_threads _ _ Hok) as Hnd. pose proof (distinct_processes _ _ Hok) as Hndp.
  inversion Hrec as [Hnone|r1 d Hperm Hle]; subst.
  - exists (with_recycler ps (Some r')), None. unfold thread_handles, process_handles in *. simpl. rewrite Hr in *.
    split_and!; try done. by apply with_recycler_ok; try done; rewrite Hr.
  - pose proof (Recycling.recycled_entries _ _ _ _ Hrec) as Hentries.
    assert (thread_handles ps ≡ₚ recycled_handles d ++ thread_handles (with_recycler ps (Some r'))) as Hth.
    { rewrite Ht, Ht'. unfold pooled_threads. by rewrite (bind_perm _ _ _ Hentries), bind_cons, Permutation_app_swap_app. }
    assert (process_handles ps ≡ₚ Recycling.process_handle d :: process_handles (with_recycler ps (Some r'))) as Hph.
    { rewrite Hp, Hp'. unfold pooled_processes. rewrite Hentries. simpl. by rewrite Permutation_middle. }
    rewrite Hth in Hnd. rewrite Hph in Hndp. apply NoDup_app in Hnd as (_ & _ & Hnd).
    apply NoDup_cons in Hndp as [_ Hndp].
    exists (with_recycler ps (Some r')), (Some d). split; [done|]. split; [apply with_recycler_ok; try done; by rewrite Hr|].
    split; [done|]. exists name. split_and!; try done. apply Hpool, Recycling.named_elem. rewrite Hperm. by left.
Qed.
Lemma add_to_pool_ok p ps r name d :
  processes_ok p ps → process_recycler ps = Some r → recyclable p name d →
  NoDup (recycled_handles d ++ thread_handles ps) →
  NoDup (Recycling.process_handle d :: process_handles ps) →
  let ps' := with_recycler ps (Some (Recycling.add_to_pool r name d)) in
  processes_ok p ps' ∧ thread_handles ps' ≡ₚ recycled_handles d ++ thread_handles ps ∧
  process_handles ps' ≡ₚ Recycling.process_handle d :: process_handles ps.
Proof.
  intros Hok Hr Hd Hnd Hndp ps'. destruct (pooled_handles ps r Hr) as [Ht Hp].
  destruct (pooled_handles ps' _ eq_refl) as [Ht' Hp']. simpl in Ht', Hp'.
  assert (thread_handles ps' ≡ₚ recycled_handles d ++ thread_handles ps) as Hth.
  { by rewrite Ht, Ht', pooled_threads_add, Permutation_app_swap_app. }
  assert (process_handles ps' ≡ₚ Recycling.process_handle d :: process_handles ps) as Hph.
  { rewrite Hp, Hp', pooled_processes_add. by rewrite <-Permutation_middle. }
  split_and!; [|done..]. apply with_recycler_ok; [done|by eexists| |by fold ps'; rewrite Hth|by fold ps'; rewrite Hph].
  destruct (processes_pool _ _ Hok r Hr) as [Hwf Hpool].
  split; [by apply Recycling.add_to_pool_wf|]. intros name' d'.
  rewrite <-Recycling.named_elem, Recycling.add_to_pool_named, elem_of_cons, Recycling.named_elem.
  intros [[= -> ->]|Hin]; [done|by apply Hpool].
Qed.

(** ** Operations *)
Lemma add_new_process_ok n p ps pid name start_time :
  ProfileRuns.wf n p → Z.of_nat (n + 1) < 2 ^ 32 → recording p → processes_ok p ps →
  processes_by_pid ps !! pid = None →
  ∃ ps' p' pr, add_new_process ps pid name start_time p = Ok (ps', p') ∧ step 1 p ps p' ps' ∧
    ps' = set_process ps pid pr ∧ LinuxProcess.name pr = name.
Proof.
  intros Hwf Hn Hrec Hok Hnone. unfold add_new_process.
  set (text := default _ name). destruct (add_process_spec p text (wrap_u32 pid) start_time)
    as (p1 & -> & Hch1 & Hn1 & Hp1).
  set (ph := length (processes p)).
  assert (length (processes p1) = S ph) as Hph1.
  { pose proof (f_equal length Hp1) as Hl. unfold process_names in Hl. rewrite length_app, !length_fmap in Hl.
    simpl in Hl. unfold ph. lia. }
  destruct (add_thread_spec p1 ph (wrap_u32 pid) start_time true) as (p2 & -> & Hch2 & Hn2 & Hp2); [lia|].
  cbn [mbind res_bind]. set (h := length (Profile.threads p1)).
  assert (h = length (Profile.threads p)) as Hh by (unfold h; by rewrite <-!ProcessThreads.thread_names_length, Hn1).
  assert (length (Profile.threads p2) = S h) as Hlen2.
  { rewrite <-ProcessThreads.thread_names_length, Hn2, length_app, ProcessThreads.thread_names_length. simpl. unfold h. lia. }
  assert (∃ p3, match name with Some name => set_thread_name p2 h name | None => Ok p2 end = Ok p3 ∧
    changes 0 p2 p3 ∧ process_names p3 = process_names p2 ∧
    (∀ h' n', h' ≠ h → has_name p2 h' n' → has_name p3 h' n') ∧
    (∀ n', name = Some n' → has_name p3 h n') ∧ length (Profile.threads p3) = length (Profile.threads p2))
    as (p3 & -> & Hch3 & Hp3 & Hkeep & Hnew & Hlen3).
  { destruct name as [name|]; [|exists p2; split_and!; try done; apply changes_refl].
    destruct (set_thread_name_spec p2 h name) as (p3 & Heq & Hch & Hn3 & Hp3); [lia|]. exists p3.
    unfold ProcessThreads.has_name. rewrite <-!ProcessThreads.thread_names_length, Hn3, length_insert. split_and!; try done.
    - intros h' n' Hne'. by rewrite list_lookup_insert_ne.
    - intros n' [= <-]. apply list_lookup_insert_eq. rewrite ProcessThreads.thread_names_length. lia. }
  cbn [mbind res_bind].
  assert (changes 0 p p3) as Hch03.
  { apply (changes_trans 0 0 _ p1); [done|]. by apply (changes_trans 0 0 _ p2). }
  pose proof (ProcessThreads.make_thread_label_frame_ok n p3 name pid pid) as Hlabel.
  destruct (ProcessThreads.make_thread_label_frame p3 name pid pid) as [p4 label].
  destruct Hlabel as [Hby Hlabel].
  { rewrite <-(Nat.add_0_r n). apply (changes_wf _ _ p); [done|done|lia]. }
  { done. }
  { eapply recording_evolves; [by eapply changes_evolves|done]. }
  destruct (by_calls_names _ _ _ Hby) as [Hn4 Hp4].
  assert (changes 1 p p4) as Hch by (apply (changes_trans 0 1 _ p3); [done|by apply by_calls_changes]).
  pose proof (changes_evolves _ _ _ Hch) as He.
  assert (length (Profile.threads p4) = S h) as Hlen4.
  { rewrite <-(ProcessThreads.thread_names_length p4), Hn4, ProcessThreads.thread_names_length. lia. }
  assert (process_names p4 = process_names p ++ [text]) as Hpn by congruence.
  assert (∀ h' n', h' ≠ h → has_name p h' n' → has_name p4 h' n') as Hframe.
  { intros h' n' Hne' Hh'. unfold ProcessThreads.has_name. rewrite Hn4. apply Hkeep; [done|].
    unfold ProcessThreads.has_name. rewrite Hn2. apply lookup_app_l_Some. by rewrite Hn1. }
  set (recyclers := match process_recycler ps with Some _ => _ | None => _ end).
  assert ((∀ r, recyclers.1 = Some r → ProcessThreads.pool_ok p4 r) ∧ PerfMap.recycler_valid p4 recyclers.2 ∧
    (is_Some recyclers.1 ↔ is_Some recyclers.2) ∧ (is_Some recyclers.2 ↔ is_Some (process_recycler ps)) ∧
    from_option ProcessThreads.pooled [] recyclers.1 = []) as (Htr & Hjr & Hiff & Hiff' & Hnil).
  { unfold recyclers. destruct (process_recycler ps); simpl; split_and!; try done.
    - intros r [= <-]. split; [by intros name' l|]. by intros name' d ?%elem_of_nil.
    - by intros r k lib a [= <-]. }
  destruct recyclers as [tr jr]. simpl in *.
  destruct (new_process_ok R stacks p4 pid ph h label name tr jr (unlink_aux_data ps) (should_emit_jit_markers ps))
    as [Hprok Hhandles]; [|lia|done| |done..|].
  { pose proof (f_equal length Hpn) as Hl. unfold process_names in Hl. rewrite length_app, !length_fmap in Hl.
    simpl in Hl. unfold ph. lia. }
  { intros n' Hname. split.
    - unfold has_process_name. rewrite Hpn. unfold ph.
      replace (length (processes p)) with (length (process_names p)) by (unfold process_names; by rewrite length_fmap).
      rewrite lookup_snoc. unfold text. by rewrite Hname.
    - unfold ProcessThreads.has_name. rewrite Hn4. by apply Hnew. }
  rewrite Hnil in Hhandles. set (pr := LinuxProcess.new _ _ _ _ _ _ _ _ _) in *.
  pose proof (thread_handles_lt p ps Hok) as Hlt. pose proof (process_handles_lt p ps Hok) as Hplt.
  rewrite Forall_forall in Hlt, Hplt.
  assert (processes_ok p4 ps) as Hok4.
  { eapply processes_ok_frame; [done|..|done].
    - intros h' n' Hin. apply Hframe. specialize (Hlt h' Hin). simpl in Hlt. lia.
    - intros h' n' Hin. unfold has_process_name. rewrite Hpn. apply lookup_app_l_Some. }
  destruct (set_handles ps pid pr) as [Ht' Hp']. rewrite (without_absent _ _ Hnone), Hhandles in *.
  eexists _, p4, pr. split; [done|]. split; [|done]. split; try done.
  - apply put_process_ok; rewrite ?(without_absent _ _ Hnone); [done|by split| |].
    + rewrite Hhandles. apply NoDup_cons. split; [|apply Hok]. intros Hin. specialize (Hlt h Hin). simpl in Hlt. lia.
    + apply NoDup_cons. split; [|apply Hok]. intros Hin. specialize (Hplt ph Hin). simpl in Hplt. unfold ph in Hplt. lia.
  - rewrite Ht'. simpl. unfold fresh. rewrite Hlen4, <-Hh. replace (S h - h)%nat with 1%nat by lia. simpl.
    by rewrite (Permutation_app_comm _ [h]).
  - intros h' n' _ Hh'. apply Hframe; [|done]. apply ProcessThreads.has_name_lt in Hh'. lia.
Qed.

(** Handles that only move between processes and pools. *)
Lemma step_moved p ps ps' :
  processes_ok p ps' → thread_handles ps' ⊆+ thread_handles ps → step 0 p ps p ps'.
Proof.
  intros Hok Hh. split; [apply changes_refl|done| |done]. etrans; [exact Hh|]. by apply submseteq_inserts_r.
Qed.
Lemma step_trans k k' p ps p1 ps1 p2 ps2 :
  step k p ps p1 ps1 → step k' p1 ps1 p2 ps2 → step (k + k') p ps p2 ps2.
Proof.
  intros [Hch1 Hok1 Hh1 Hn1] [Hch2 Hok2 Hh2 Hn2].
  pose proof (evolves_threads _ _ (changes_evolves _ _ _ Hch1)).
  pose proof (evolves_threads _ _ (changes_evolves _ _ _ Hch2)). split; [|done|..].
  - by eapply changes_trans.
  - rewrite (ProcessThreads.fresh_trans p p1 p2), app_assoc by done. etrans; [exact Hh2|].
    by apply submseteq_skips_r.
  - intros h name Hin Hh. apply Hn2; [|by apply Hn1].
    intros Hin'. apply (elem_of_submseteq _ _ _ Hin') in Hh1.
    apply elem_of_app in Hh1 as [?|Hf%ProcessThreads.fresh_lt]; [done|].
    apply ProcessThreads.has_name_lt in Hh. lia.
Qed.
Lemma step_weaken k k' p ps p' ps' : step k p ps p' ps' → (k <= k')%nat → step k' p ps p' ps'.
Proof. intros [] Hk. split; [by eapply changes_weaken|done..]. Qed.
Lemma process_from_ok p ps pid name name' d :
  name = Some name' → recyclable p name' d →
  let pr := process_from ps pid name d in
  process_ok p pr ∧ handles pr = recycled_handles d ∧ profile_process pr = Recycling.process_handle d ∧
  LinuxProcess.pid pr = pid ∧ is_Some (jit_function_recycler pr) ∧ LinuxProcess.name pr = name.
Proof.
  intros -> [Hp Hpn Hm Hpool Hf] pr. unfold pr, process_from.
  destruct (Recycling.main_thread_recycling_data d) as [h label] eqn:Hd. destruct Hm as (Hh & Hn & Hlabel).
  simpl in Hh, Hn, Hlabel.
  destruct (new_process_ok R stacks p pid (Recycling.process_handle d) h label (Some name')
    (Some (Recycling.thread_recycler d)) (Some (Recycling.jit_function_recycler d))
    (unlink_aux_data ps) (should_emit_jit_markers ps)) as [Hok Hhandles]; try done.
  - by intros n [= <-].
  - by intros r [= <-].
  - split_and!; try done. rewrite Hhandles. unfold recycled_handles. by rewrite Hd.
Qed.
Lemma recycle_or_get_new_ok n p ps pid name start_time :
  ProfileRuns.wf n p → Z.of_nat (n + 1) < 2 ^ 32 → recording p → processes_ok p ps →
  ∃ ps' p', recycle_or_get_new ps pid name start_time p = Ok (ps', p') ∧ step 1 p ps p' ps' ∧
    is_Some (processes_by_pid ps' !! pid).
Proof.
  intros Hwf Hn Hrec Hok. unfold recycle_or_get_new. destruct (processes_by_pid ps !! pid) as [pr|] eqn:Hpr.
  - pose proof (alive_process _ _ _ _ (processes_alive _ _ Hok _ _ Hpr)) as Hprok.
    pose proof (process_threads _ _ _ _ Hprok) as Ht.
    destruct (LinuxThread.last_sample_timestamp _); [exists ps, p; split; [done|]; split; [by apply processes_step_refl|by eexists]|].
    destruct (set_process_start_time_spec p (profile_process pr) start_time) as (p1 & -> & Hch1 & Hn1 & Hp1).
    { rewrite <-(process_handle_same _ _ _ _ Hprok). apply Ht. }
    cbn [mbind res_bind]. pose proof (changes_evolves _ _ _ Hch1) as He1.
    destruct (set_thread_start_time_spec p1 (LinuxThread.profile_thread (ProcessThreads.main_thread (threads pr)))
      start_time) as (p2 & -> & Hch2 & Hn2 & Hp2).
    { pose proof (evolves_threads _ _ He1). pose proof (ProcessThreads.main_ok _ _ _ Ht) as []. lia. }
    cbn [mbind res_bind]. exists ps, p2. split; [done|]. split; [|by eexists].
    assert (changes 1 p p2) as Hch.
    { apply (changes_weaken 0 1); [lia|by apply (changes_trans 0 0 _ p1)]. }
    rewrite Hn1 in Hn2. rewrite Hp1 in Hp2. split; [done| |by apply submseteq_inserts_r|].
    + eapply processes_ok_frame; [by eapply changes_evolves|..|done].
      * intros h n' _. unfold ProcessThreads.has_name. by rewrite Hn2.
      * intros h n' _. unfold has_process_name. by rewrite Hp2.
    + intros h n' _. unfold ProcessThreads.has_name. by rewrite Hn2.
  - destruct (recycle_process_ok p ps name Hok) as (ps1 & o & -> & Hok1 & Hby & Ho). cbn [mbind res_bind].
    assert (processes_by_pid ps1 !! pid = None) as Hnone by (by rewrite Hby).
    destruct o as [d|].
    + destruct Ho as (name' & Hname & Hd & Hr1 & Hr & Hth & Hph).
      destruct (process_from_ok p ps1 pid name name' d Hname Hd) as (Hprok & Hh & Hpp & Hpid & Hjr & _).
      set (pr := process_from ps1 pid name d) in *. destruct (set_handles ps1 pid pr) as [Ht' Hp'].
      rewrite Hh in Ht'. rewrite Hpp in Hp'. rewrite (without_absent _ _ Hnone) in Ht', Hp'.
      eexists _, p. split; [done|]. split; [|exists pr; apply lookup_insert_eq].
      apply (step_weaken 0); [|lia]. apply step_moved; [|by rewrite Ht', Hth]. apply put_process_ok; rewrite ?(without_absent _ _ Hnone); [done| | |].
      * split; done.
      * rewrite Hh, <-Hth. apply Hok.
      * rewrite Hpp, <-Hph. apply Hok.
    + destruct Ho as (Hth & Hph & Hr).
      destruct (add_new_process_ok n p ps1 pid name start_time) as (ps' & p' & pr & -> & Hst & -> & _); [done..|].
      eexists _, p'. split; [done|]. split; [|exists pr; apply lookup_insert_eq].
      apply (step_trans 0 1 _ _ p ps1); [|done].
      apply step_moved; [done|by rewrite Hth].
Qed.
Lemma get_by_pid_ok n p ps pid :
  ProfileRuns.wf n p → Z.of_nat (n + 1) < 2 ^ 32 → recording p → processes_ok p ps →
  ∃ ps' p', get_by_pid ps pid p = Ok (ps', p') ∧ step 1 p ps p' ps' ∧ is_Some (processes_by_pid ps' !! pid).
Proof.
  intros Hwf Hn Hrec Hok. unfold get_by_pid. destruct (processes_by_pid ps !! pid) as [pr|] eqn:Hpr.
  - exists ps, p. split; [done|]. split; [by apply processes_step_refl|by eexists].
  - destruct (add_new_process_ok n p ps pid None (from_millis_since_reference (f64_of_Z 0)))
      as (ps' & p' & pr & -> & Hst & -> & _); [done..|].
    eexists _, p'. split; [done|]. split; [done|]. exists pr. apply lookup_insert_eq.
Qed.

(** Quiet calls leave all processes as they are. *)
Lemma processes_ok_calls k p p' ps : by_calls k p p' → processes_ok p ps → processes_ok p' ps.
Proof.
  intros Hby. destruct (by_calls_names _ _ _ Hby) as [Hn Hp]. apply processes_ok_frame.
  - by eapply by_calls_evolves.
  - intros h n _. unfold ProcessThreads.has_name. by rewrite Hn.
  - intros h n _. unfold has_process_name. by rewrite Hp.
Qed.
Lemma step_by_calls k p ps p' ps' :
  by_calls k p p' → processes_ok p' ps' → thread_handles ps' ⊆+ thread_handles ps → step k p ps p' ps'.
Proof.
  intros Hby Hok Hh. destruct (by_calls_names _ _ _ Hby) as [Hn _]. split; [by apply by_calls_changes|done|..].
  - etrans; [exact Hh|]. by apply submseteq_inserts_r.
  - intros h n _. unfold ProcessThreads.has_name. by rewrite Hn.
Qed.
Lemma add_sample_data_ok p ps d :
  processes_ok p ps → data_ok p d →
  processes_ok p (add_sample_data ps d) ∧ thread_handles (add_sample_data ps d) = thread_handles ps ∧
  process_handles (add_sample_data ps d) = process_handles ps ∧
  processes_by_pid (add_sample_data ps d) = processes_by_pid ps.
Proof.
  intros Hok Hd. unfold add_sample_data. destruct (UnresolvedSamples.is_empty _); [done|].
  split_and!; [|done..]. destruct Hok. split; try done. apply Forall_app. split; [done|].
  by apply Forall_singleton.
Qed.

Lemma NoDup_part {A} (l k : list A) : l ⊆+ k → NoDup k → NoDup l.
Proof. intros [k' ->]%submseteq_Permutation Hnd. by apply NoDup_app in Hnd as [? _]. Qed.
Definition remove_room (ps : Processes) (pid : Z) : nat :=
  from_option (finish_room B) 0%nat (processes_by_pid ps !! pid).
Lemma remove_ok n files p ps pid time manager :
  ProfileRuns.wf n p → recording p → processes_ok p ps → JitCategories.wf manager p →
  Z.of_nat (n + remove_room ps pid) < 2 ^ 32 →
  ∃ files' manager' p' ps', remove files c ps pid time manager p = Some (Ok (files', manager', p', ps')) ∧
    step (remove_room ps pid) p ps p' ps' ∧ JitCategories.wf manager' p' ∧
    processes_by_pid ps' = delete pid (processes_by_pid ps).
Proof using inputs.
  intros Hwf Hrec Hok Hm. unfold remove, remove_room.
  destruct (processes_by_pid ps !! pid) as [pr|] eqn:Hpr; simpl; intros Hn.
  2: { eexists _, _, _, _. split; [done|]. split; [by apply processes_step_refl|]. split; [done|]. by rewrite delete_id. }
  destruct (notify_dead_ok R B stacks n p pr time Hwf ltac:(lia)) as (pr1 & p1 & -> & Hst & Hroom & _).
  { by apply (processes_alive _ _ Hok pid). }
  cbn [returned mbind loops_bind]. pose proof (LinuxProcess.step_ok _ _ _ _ _ _ _ Hst) as Hprok.
  pose proof (step_process 0 p ps pid pr p1 pr1 Hok Hpr Hst) as Hst1.
  pose proof (step_ok _ _ _ _ _ Hst1) as Hok1. pose proof (step_changes _ _ _ _ _ Hst1) as Hch1.
  assert (finish_room B pr1 = finish_room B pr) as Hfr by (unfold finish_room; by rewrite Hroom).
  destruct (process_finish_ok R B c inputs stacks n files p1 pr1 manager) as (files' & manager' & p2 & d & rd & -> & Hby & Hm' & Hd & Hrd).
  { rewrite <-(Nat.add_0_r n). by apply (changes_wf _ _ p); [..|lia]. }
  { eapply recording_evolves; [by eapply changes_evolves|done]. }
  { done. }
  { eapply JitCategories.wf_evolves; [by eapply changes_evolves|done]. }
  { by rewrite Hfr. }
  rewrite Hfr in Hby. cbn [mbind loops_bind returned]. set (ps1 := set_process ps pid pr1) in *.
  destruct (without_handles ps1 pid pr1) as [Ht Hp]; [apply lookup_insert_eq|].
  assert (without ps1 pid = with_processes ps (delete pid (processes_by_pid ps))) as Hwo.
  { unfold without, ps1, set_process, with_processes. simpl. by rewrite delete_insert_eq. }
  rewrite <-Hwo. clear Hwo. pose proof (processes_ok_calls _ _ _ _ Hby Hok1) as Hok2.
  destruct (add_sample_data_ok p2 (without ps1 pid) d) as (Hok3 & Ht3 & Hp3 & Hb3); [by apply without_ok|done|].
  set (ps3 := add_sample_data (without ps1 pid) d) in *.
  assert (processes_by_pid ps3 = delete pid (processes_by_pid ps)) as Hb by (by rewrite Hb3; simpl; rewrite delete_insert_eq).
  eexists _, _, _, _. split; [done|]. split; [|split; [done|]].
  2: { by destruct rd as [[]|], (process_recycler ps3). }
  apply (step_trans 0 _ _ _ p1 ps1); [done|]. rewrite <-Ht3 in Ht. rewrite <-Hp3 in Hp.
  assert (step (finish_room B pr) p1 ps1 p2 ps3) as Hst3.
  { apply step_by_calls; [done..|]. rewrite Ht. by apply submseteq_inserts_l. }
  destruct rd as [[name data]|]; [|done]. destruct (process_recycler ps3) as [r|] eqn:Hr; [|done].
  destruct Hrd as (Hrec' & _ & Hsub & Hph).
  assert (recycled_handles data ++ thread_handles ps3 ⊆+ thread_handles ps1) as Hsub'.
  { rewrite Ht. by apply submseteq_skips_r. }
  destruct (add_to_pool_ok p2 ps3 r name data Hok3 Hr Hrec') as (Hok4 & Ht4 & Hp4).
  - eapply NoDup_part; [exact Hsub'|apply Hok1].
  - rewrite Hph, <-Hp. apply Hok1.
  - apply step_by_calls; [done..|]. by rewrite Ht4.
Qed.

(** The process and the pool exchange their profile process and threads. *)
Lemma exchange_ok p ps pid pr name d r :
  processes_ok p ps → processes_by_pid ps !! pid = Some pr → process_recycler ps = Some r →
  recyclable p name d → NoDup (recycled_handles d ++ thread_handles ps) →
  NoDup (Recycling.process_handle d :: process_handles ps) →
  ∃ pr' old ps', rename_with_recycling pr name d = Ok (pr', (old, LinuxProcess.name pr)) ∧
    ps' = set_process ps pid pr' ∧ processes_ok p ps' ∧ thread_handles ps' ⊆+ recycled_handles d ++ thread_handles ps ∧
    ∀ old_name, LinuxProcess.name pr = Some old_name →
      let ps2 := with_recycler ps' (Some (Recycling.add_to_pool r old_name old)) in
      processes_ok p ps2 ∧ thread_handles ps2 ⊆+ recycled_handles d ++ thread_handles ps.
Proof using B.
  intros Hok Hpr Hr Hd Hnd Hndp. destruct (processes_alive _ _ Hok pid pr Hpr) as [Hprok Hpid Hjr].
  destruct (rename_with_recycling_ok R B stacks p pr name d) as
    (pr' & old & -> & Hprok' & Hpp & Hpid' & _ & Hjr' & Hold & Holdok & _ & Hh); [done| |done|].
  { apply Hjr. by rewrite Hr. }
  destruct (without_handles ps pid pr Hpr) as [Ht Hp]. destruct (set_handles ps pid pr') as [Ht' Hp'].
  set (rest := thread_handles (without ps pid)) in *.
  assert (recycled_handles d ++ thread_handles ps ≡ₚ recycled_handles old ++ handles pr' ++ rest) as Hperm.
  { rewrite Ht, !app_assoc, (Permutation_app_comm _ (handles pr)), <-Hh.
    by rewrite (Permutation_app_comm (handles pr')). }
  rewrite Hperm in Hnd. rewrite Hp, <-Hold, <-Hpp in Hndp.
  exists pr', old, (set_process ps pid pr'). split; [done|]. split; [done|].
  assert (processes_ok p (set_process ps pid pr')) as Hok'.
  { apply put_process_ok; [by apply without_ok| | |].
    - split; [done|congruence|]. by rewrite Hr.
    - by apply NoDup_app in Hnd as (_ & _ & ?).
    - eapply NoDup_part; [|exact Hndp]. apply submseteq_skip, submseteq_cons. done. }
  split; [done|]. rewrite Hperm, <-Ht' in *. split; [by apply submseteq_inserts_l|].
  intros old_name Hname ps2. destruct (add_to_pool_ok p (set_process ps pid pr') r old_name old) as (Hok2 & Ht2 & _);
    [done|done|by apply Holdok|done| |].
  - rewrite Hp', Permutation_swap. exact Hndp.
  - split; [done|]. unfold ps2. by rewrite Ht2, Hperm.
Qed.
Lemma rename_process_ok n p ps pid time name :
  ProfileRuns.wf n p → Z.of_nat (n + 1) < 2 ^ 32 → recording p → processes_ok p ps →
  ∃ ps' p', rename_process ps pid time name p = Ok (ps', p') ∧ step 1 p ps p' ps'.
Proof using B.
  intros Hwf Hn Hrec Hok. unfold rename_process. destruct (processes_by_pid ps !! pid) as [pr|] eqn:Hpr.
  2: { destruct (recycle_or_get_new_ok n p ps pid (Some name) time) as (ps' & p' & Heq & Hst & _); [done..|].
       by exists ps', p'. }
  destruct (decide _); [exists ps, p; split; [done|by apply processes_step_refl]|].
  destruct (recycle_process_ok p ps (Some name) Hok) as (ps1 & o & -> & Hok1 & Hby & Ho). cbn [mbind res_bind].
  rewrite <-Hby in Hpr. destruct o as [d|].
  - destruct Ho as (name' & [= <-] & Hd & [r Hr] & _ & Hth & Hph).
    destruct (exchange_ok p ps1 pid pr name d r Hok1 Hpr Hr Hd) as (pr' & old & ps' & -> & -> & Hok' & Hsub & Hpool).
    { rewrite <-Hth. apply Hok. }
    { rewrite <-Hph. apply Hok. }
    cbn [mbind res_bind]. simpl. rewrite Hr. rewrite <-Hth in Hsub. eexists _, p. split; [done|].
    apply (step_weaken 0); [|lia]. destruct (LinuxProcess.name pr) as [old_name|] eqn:Hname.
    + destruct (Hpool old_name eq_refl) as [? Hs]. rewrite <-Hth in Hs. by apply step_moved.
    + by apply step_moved.
  - destruct Ho as (Hth & _ & _).
    pose proof (ProcessThreads.make_thread_label_frame_ok n p (Some name) pid pid Hwf Hn Hrec) as Hlabel.
    destruct (ProcessThreads.make_thread_label_frame p (Some name) pid pid) as [p1 label].
    destruct Hlabel as [Hbyc Hlabel]. pose proof (processes_ok_calls _ _ _ _ Hbyc Hok1) as Hok1'.
    destruct (rename_without_recycling_ok R B stacks (n + 1) p1 pr name label) as (pr' & p' & -> & Hst & _ & _).
    { by apply (by_calls_wf _ _ p). }
    { done. }
    { by apply (processes_alive _ _ Hok1' pid). }
    { pose proof (distinct_threads _ _ Hok1) as Hnd. destruct (without_handles ps1 pid pr Hpr) as [Ht _].
      rewrite Ht in Hnd. by apply NoDup_app in Hnd as [? _]. }
    { done. }
    cbn [mbind res_bind]. eexists _, p'. split; [done|]. apply (step_trans 1 0 _ _ p1 ps1).
    + apply step_by_calls; [done..|]. by rewrite Hth.
    + by eapply step_process.
Qed.
End invariant.
End Processes.
