(* ===== verification/RecordingEnd.v ===== *)
(** The end of a Linux recording: [Processes::finish] of
    samply/src/linux_shared/processes.rs collects the data of the processes that
    still run and flushes the data of all processes into the profile. It returns,
    and what it does are valid calls of the profile. *)
From S2P Require Import Prelude RustStr BTree Types LibMappings Hierarchy StringTables LibTable Markers.
From S2P Require Import ThreadSafety ProfileModel ProfileSafety ProfileRuns RecorderMarkers ProfileCalls.
From S2P Require Import UnresolvedSamples PathFiles MarkerFile StackConversion Flush FlushMarkers Recycling.
From S2P Require Import JitCategories SyntheticJit PerfMap JitDump LinuxThreads LinuxProcess Processes.
From stdpp Require Import options.
Open Scope Z_scope.

Module RecordingEnd.
Import Profile ProfileCalls PathFiles LinuxProcess Processes.

Section recording_end.
Context `{DebugIdOps} `{JitDumpReader} `{!TextFiles} `{Unwinding} `{DrainOrder}.
Context (R : reader → Prop) (B : nat) (c : TimestampConverter) (inputs : inputs_ok R B c).
Context (stacks : UnresolvedStacks.UnresolvedStacks).
Notation process_ok := (LinuxProcess.process_ok R stacks).
Notation processes_ok := (Processes.processes_ok R stacks).
Notation data_ok := (LinuxProcess.data_ok stacks).

(** Any call of the profile's interface. *)
Definition any (o : ProfileRuns.op) : Prop := True.
Notation calls := (by_calls_of any).
Notation calls_wf := (calls_of_wf (Q:=any)).
Notation calls_trans := (calls_of_trans (Q:=any)).

Lemma valid_run_calls n ops p :
  ProfileRuns.wf n p → ProfileRuns.valid_run n ops p → calls_valid any ops p.
Proof.
  revert n p. induction ops as [|o ops IH]; intros n p Hwf; [done|]. simpl. intros (Hv & Hc & Hr).
  destruct (ProfileRuns.op_ok n o p Hwf Hv Hc) as (p' & Heq & Hwf'). rewrite Heq in *.
  split_and!; [done..|]. by eapply IH.
Qed.
Lemma changes_calls k p p' : changes k p p' → calls k p p'.
Proof. by apply by_calls_impl. Qed.

(** ** The processes that still run *)
Definition alive_room (l : list (Z * Process)) : nat := sum_list_with (λ x, finish_room B x.2) l.
Lemma finish_alive_ok l n files p ps manager :
  ProfileRuns.wf n p → recording p → JitCategories.wf manager p → UnresolvedStacks.wf stacks →
  Forall (λ x, process_ok p x.2) l → Forall (data_ok p) (process_sample_datas ps) →
  Z.of_nat (n + alive_room l) < 2 ^ 32 →
  ∃ files' manager' p' ps', finish_alive files c ps l manager p = Some (Ok (files', manager', p', ps')) ∧
    by_calls (alive_room l) p p' ∧ Forall (data_ok p') (process_sample_datas ps').
Proof using inputs.
  intros Hwf Hrec Hm Hst. revert n files p ps manager Hwf Hrec Hm.
  induction l as [|[pid pr] l IH]; intros n files p ps manager Hwf Hrec Hm Hl Hd Hn; cbn [finish_alive].
  { eexists _, _, _, _. split; [done|]. split; [apply by_calls_refl|done]. }
  apply Forall_cons in Hl as [Hpr Hl]. unfold alive_room in *. cbn [sum_list_with snd] in *.
  destruct (process_finish_ok R B c inputs stacks n files p pr manager) as
    (files1 & m1 & p1 & d & rd & -> & Hby & Hm1 & Hd1 & _); [done..|lia|].
  cbn [mbind loops_bind]. pose proof (by_calls_evolves _ _ _ Hby) as He.
  destruct (IH (n + finish_room B pr)%nat files1 p1 (add_sample_data ps d) m1) as (files' & m' & p' & ps' & -> & Hby' & Hd').
  - apply (by_calls_wf _ _ p); [done|done|lia].
  - by eapply recording_evolves.
  - done.
  - eapply Forall_impl; [exact Hl|]. intros [pid' pr']. by eapply process_ok_calls.
  - assert (Forall (data_ok p1) (process_sample_datas ps)).
    { eapply Forall_impl; [exact Hd|]. intros d'. by apply LinuxProcess.data_ok_evolves. }
    unfold add_sample_data. destruct (UnresolvedSamples.is_empty _); [done|]. simpl.
    apply Forall_app. split; [done|]. by apply Forall_singleton.
  - lia.
  - eexists _, _, _, _. split; [done|]. split; [|done]. by apply (by_calls_trans _ _ _ p1).
Qed.

(** ** Flushing one process after the other *)
Lemma data_ok_grows p p' d : Flush.grows p p' → data_ok p d → data_ok p' d.
Proof.
  intros Hg [Hf Hp Hm Hc]. pose proof (Flush.grows_processes _ _ Hg) as Hprocs.
  assert (∀ h, (h < length (Profile.threads p))%nat → (h < length (Profile.threads p'))%nat) as Hth.
  { intros h [th Hh]%lookup_lt_is_Some_2. destruct (Flush.grows_threads _ _ Hg h th Hh) as (th' & Hh' & _).
    by eapply lookup_lt_Some. }
  assert (∀ i, PerfMap.info_valid p i → PerfMap.info_valid p' i) as Hinfo by (intros i; by apply Flush.info_valid_grows).
  split.
  - intros Hst. destruct (Hf Hst) as [_ Hs Hq Hpm]. split; [done|..].
    + eapply Forall_impl; [exact Hs|]. intros s. by apply Flush.sample_valid_grows.
    + eapply Forall_impl; [exact Hq|]. intros q [Hord Hq']. split; [done|]. eapply Forall_impl; [exact Hq'|].
      intros [t op]. simpl. destruct op; try done. apply Hinfo.
    + intros m Hm'. destruct (Hpm m Hm') as [? Hi]. split; [done|]. intros k mp Hin. by apply Hinfo, (Hi k).
  - by rewrite <-Hprocs.
  - eapply Forall_impl; [exact Hm|]. intros x [? ?]. split; [done|by apply Hth].
  - eapply Forall_impl; [exact Hc|]. intros x. apply Hth.
Qed.

(** The markers of the data can be put into types and their times added up. *)
Definition markers_fit (d : Flush.ProcessSampleData) : Prop :=
  FlushMarkers.consistent (Flush.event_or_span <$> Flush.markers d) ∧
  FlushMarkers.total_time (Flush.markers d) < FlushMarkers.duration_limit.
Definition data_room (d : Flush.ProcessSampleData) : nat :=
  Flush.room stacks (UnresolvedSamples.samples_and_markers (Flush.unresolved_samples d)) + FlushMarkers.room d.
Lemma flush_data_ok n p d user kernel :
  UnresolvedStacks.wf stacks → ProfileRuns.wf n p → data_ok p d → markers_fit d →
  Flush.converter_valid (length (categories p)) {| StackConversion.user_category := user; StackConversion.kernel_category := kernel |} →
  Z.of_nat (n + data_room d) < 2 ^ 32 →
  ∃ p', FlushMarkers.flush_samples_to_profile d p user kernel stacks = Some (Ok p') ∧
    calls (data_room d) p p' ∧ (length (categories p) <= length (categories p'))%nat ∧
    ∀ d', data_ok p d' → data_ok p' d'.
Proof.
  intros Hst Hwf Hd [Hnames Htime] Hc Hn. unfold FlushMarkers.flush_samples_to_profile, Flush.flush_resolved_samples, data_room in *.
  set (samples := UnresolvedSamples.samples_and_markers _) in *. pose proof (data_flush _ _ _ Hd Hst) as Hdv.
  destruct (Flush.flush_samples_ok (Flush.mappings_hierarchy d) _ stacks samples n p None (Flush.mappings_hierarchy d)
    Hst Hwf (Flush.data_samples _ _ _ Hdv) (Flush.mappings_hierarchy_valid _ _ _ Hdv) Hc eq_refl)
    as (p1 & ops & -> & Hg & _ & Hrun & Hv & Hcost); [lia|]. cbn [mbind loops_bind returned].
  assert (calls (Flush.room stacks samples) p p1) as Hcalls1.
  { exists (concat ops). split_and!; [by eapply valid_run_calls|done|done]. }
  destruct (FlushMarkers.flush_markers_and_counters_ok (n + Flush.room stacks samples) p1 d) as (p' & -> & [Hby _]).
  - apply (calls_wf _ _ p); [done|done|lia].
  - destruct (data_ok_grows p p1 d Hg Hd). by split.
  - lia.
  - exists p'. split; [done|]. pose proof (by_calls_evolves _ _ _ Hby) as He. split_and!.
    + apply (calls_trans _ _ _ p1); [done|]. by apply changes_calls, by_calls_changes.
    + rewrite (Flush.grows_categories _ _ Hg). by apply evolves_num_categories.
    + intros d' Hd'. eapply LinuxProcess.data_ok_evolves; [done|]. by eapply data_ok_grows.
Qed.
Lemma flush_all_ok user kernel datas n p :
  UnresolvedStacks.wf stacks → ProfileRuns.wf n p → Forall (data_ok p) datas → Forall markers_fit datas →
  Flush.converter_valid (length (categories p)) {| StackConversion.user_category := user; StackConversion.kernel_category := kernel |} →
  Z.of_nat (n + sum_list_with data_room datas) < 2 ^ 32 →
  ∃ p', flush_all user kernel stacks datas p = Some (Ok p') ∧ calls (sum_list_with data_room datas) p p'.
Proof.
  intros Hst. revert n p. induction datas as [|d datas IH]; intros n p Hwf Hd Hfit Hc Hn; cbn [flush_all sum_list_with] in *.
  { exists p. split; [done|]. apply (calls_of_refl (Q:=any)). }
  apply Forall_cons in Hd as [Hd Hds]. apply Forall_cons in Hfit as [Hfit Hfits].
  destruct (flush_data_ok n p d user kernel) as (p1 & -> & Hcalls & Hcats & Hkeep); [done..|lia|].
  cbn [mbind loops_bind]. destruct (IH (n + data_room d)%nat p1) as (p' & -> & Hcalls').
  - apply (calls_wf _ _ p); [done|done|lia].
  - eapply Forall_impl; [exact Hds|]. done.
  - done.
  - unfold Flush.converter_valid, ThreadSafety.category_ok in *. simpl in *. lia.
  - lia.
  - exists p'. split; [done|]. by apply (calls_trans _ _ _ p1).
Qed.

(** At the end of a recording that kept its invariant, the data of the
    processes that still run is collected and the data of all processes flushed
    into the profile, without a panic and in finitely many steps. All that
    happens to the profile are valid calls, and the profile can be written. *)
Lemma recording_finishes `{UnstableSort} `{Schema.DerivedSerialize} (n : nat) (files : fs)
    (ps : Processes) (manager : JitCategories.JitCategoryManager) (p : Profile) :
  let alive := drain (processes_by_pid ps) in
  UnresolvedStacks.wf stacks → ProfileRuns.wf n p → recording p → JitCategories.wf manager p → processes_ok p ps →
  Z.of_nat (n + alive_room alive) < 2 ^ 32 →
  (∀ files' manager' p1 ps', finish_alive files c ps alive manager p = Some (Ok (files', manager', p1, ps')) →
    Forall markers_fit (process_sample_datas ps') ∧
    Z.of_nat (n + alive_room alive + sum_list_with data_room (process_sample_datas ps')) < 2 ^ 32) →
  ∃ p' k, Processes.finish files c ps stacks manager p = Some (Ok p') ∧ calls k p p' ∧ ProfileRuns.wf (n + k) p' ∧
    is_Ok (serialize_profile p').
Proof using inputs.
  intros alive Hst Hwf Hrec Hm Hok Hn Hfit.
  destruct (finish_alive_ok alive n files p ps manager) as (files' & m' & p1 & ps' & Heq & Hby & Hd); try done.
  { apply Forall_forall. intros [pid pr]. unfold alive. rewrite drain_permutation, elem_of_map_to_list.
    intros Hpr. by apply (processes_alive _ _ _ _ Hok pid). }
  { apply Hok. }
  destruct (Hfit _ _ _ _ Heq) as [Hfits Hroom]. unfold Processes.finish. fold alive. rewrite Heq.
  cbn [mbind loops_bind].
  destruct (add_category p1 "User" Yellow) as [p2 user] eqn:Huser.
  destruct (add_category p2 "Kernel" Orange) as [p3 kernel] eqn:Hkernel.
  destruct (add_category_spec _ _ _ _ _ Huser) as (Hby2 & _ & -> & Hlen2).
  destruct (add_category_spec _ _ _ _ _ Hkernel) as (Hby3 & _ & -> & Hlen3).
  assert (by_calls (alive_room alive) p p3) as Hby'.
  { rewrite <-(Nat.add_0_r (alive_room alive)). apply (by_calls_trans _ _ _ p1); [done|].
    by apply (by_calls_trans 0 0 _ p2). }
  destruct (flush_all_ok (CategoryPairHandle_from (wrap_u16 (Z.of_nat (length (categories p1)))))
    (CategoryPairHandle_from (wrap_u16 (Z.of_nat (length (categories p2)))))
    (process_sample_datas ps') (n + alive_room alive) p3) as (p' & Heq' & Hcalls); try done.
  { by apply (by_calls_wf _ _ p). }
  { eapply Forall_impl; [exact Hd|]. intros d. apply LinuxProcess.data_ok_evolves.
    by eapply by_calls_evolves, (by_calls_trans 0 0 _ p2). }
  { unfold Flush.converter_valid, ThreadSafety.category_ok, wrap_u16. simpl.
    rewrite Hlen3, Hlen2. pose proof (Z.mod_le (Z.of_nat (length (categories p1))) (2 ^ 16)).
    pose proof (Z.mod_le (Z.of_nat (S (length (categories p1)))) (2 ^ 16)). split; lia. }
  exists p', (alive_room alive + sum_list_with data_room (process_sample_datas ps'))%nat.
  assert (calls (alive_room alive + sum_list_with data_room (process_sample_datas ps')) p p') as Hall.
  { apply (calls_trans _ _ _ p3); [|done]. by apply changes_calls, by_calls_changes. }
  assert (ProfileRuns.wf (n + (alive_room alive + sum_list_with data_room (process_sample_datas ps'))) p') as Hwf'.
  { apply (calls_wf _ _ p); [done|done|lia]. }
  split_and!; [done..|]. by eapply ProfileRuns.serialize_profile_ok.
Qed.
End recording_end.

(** ** Example: a process that still runs, with one sample, and no files *)
#[local] Existing Instance string_debug_ids.
#[local] Existing Instance string_debug_id_ops.
#[local] Existing Instance ProfileRuns.example_serialize.
#[local] Instance no_files : Files := constant_files [].
#[local] Program Instance no_jitdump : JitDumpReader :=
  {| reader := unit; open_reader _ := None;
     header _ := {| JitDump.header_pid := 7; JitDump.header_timestamp := 0; JitDump.elf_machine_arch := 62 |};
     next_record_header r := (r, None); skip_next_record r := (r, false); next_record r := (r, None);
     remaining _ := 0%nat |}.
Solve Obligations with done.
#[local] Instance no_text : TextFiles :=
  {| file_lines _ := []; from_reader _ := None; from_str _ := None; json_text _ := "" |}.
#[local] Instance example_unwinding : Unwinding := {| Unwinder := unit; default_unwinder := () |}.
#[local] Definition example_converter : TimestampConverter := {| reference_raw := 0; raw_to_ns_factor := 1 |}.
Definition anything (r : reader) : Prop := True.
Lemma nothing_opens files path dirs : open_file_with_fallback files path dirs = None.
Proof.
  unfold open_file_with_fallback. cbn [open_file no_files constant_files find fmap option_fmap option_map].
  destruct (file_name path) as [name|]; [|done]. by induction dirs.
Qed.
Lemma no_inputs_ok : inputs_ok anything 0 example_converter.
Proof.
  split.
  - split; [by split|done|done].
  - done.
  - intros files path dirs. exists None. split; [|done]. unfold MarkerFile.get_markers. by rewrite nothing_opens.
  - intros files path dirs. exists None. unfold CounterFile.get_counter. by rewrite nothing_opens.
Qed.

#[local] Definition example_stacks : UnresolvedStacks.UnresolvedStacks :=
  (UnresolvedStacks.run UnresolvedStacks.default
    [UnresolvedStacks.Convert [SF_InstructionPointer 4100 User; SF_ReturnAddress 4200 User]]).1.
#[local] Definition example_profile : Profile := Profile.new "example" (f64_of_Z 0) 1000000.
#[local] Definition start_time : Timestamp := from_nanos_since_reference 5.
#[local] Definition with_sample (pr : Process) : Process :=
  with_data pr (UnresolvedSamples.add_sample (LinuxProcess.unresolved_samples pr)
    (LinuxThread.profile_thread (ProcessThreads.main_thread (threads pr))) start_time 5 1 CpuDelta_ZERO 1 None)
    (marker_file_paths pr) (counter_file_paths pr) (mem_counter pr).
(** The process 7 starts, and has a sample. *)
#[local] Definition example_recording : res (Processes * Profile) :=
  '(ps, p) ← recycle_or_get_new (Processes.new true false true) 7 (Some "node") start_time example_profile;
  pr ← unwrap (processes_by_pid ps !! 7);
  Ok (set_process ps 7 (with_sample pr), p).
Lemma example_stacks_ok :
  UnresolvedStacks.wf example_stacks ∧ stack_ok example_stacks 1.
Proof.
  split.
  - pose proof (UnresolvedStacks.run_stacks_spec
      [UnresolvedStacks.Convert [SF_InstructionPointer 4100 User; SF_ReturnAddress 4200 User]]
      UnresolvedStacks.default UnresolvedStacks.wf_default eq_refl) as Hrun.
    unfold example_stacks. destruct (UnresolvedStacks.run _ _) as [t hs]. apply Hrun.
  - exists [SF_ReturnAddress 4200 User; SF_InstructionPointer 4100 User].
    apply (UnresolvedStacks.leads_node _ 1 0); [done|].
    apply (UnresolvedStacks.leads_node _ 0 UnresolvedStacks.EMPTY); [done|constructor].
Qed.
Lemma example_recording_ok :
  ∃ ps p, example_recording = Ok (ps, p) ∧ Processes.processes_ok anything example_stacks p ps ∧
    ProfileRuns.wf 1 p ∧ recording p.
Proof.
  destruct (recycle_or_get_new_ok anything example_stacks 0 example_profile (Processes.new true false true) 7
    (Some "node") start_time) as (ps & p & Heq & Hst & [pr Hpr]).
  - apply ProfileRuns.wf_new_profile.
  - done.
  - apply recording_new.
  - apply new_processes_ok.
  - unfold example_recording. rewrite Heq. cbn [mbind res_bind]. rewrite Hpr. cbn [unwrap mbind res_bind].
    pose proof (step_changes _ _ _ _ _ _ _ Hst) as Hch. pose proof (step_ok _ _ _ _ _ _ _ Hst) as Hok.
    pose proof (processes_alive _ _ _ _ Hok 7 pr Hpr) as [Hprok _ _].
    eexists _, p. split; [done|]. split_and!.
    + assert (step anything example_stacks 0 p ps p (set_process ps 7 (with_sample pr))) as [_ ? _ _]; [|done].
      eapply step_process; [done..|]. apply with_samples_ok; [done|].
      apply Forall_app. split; [apply Hprok|]. apply Forall_singleton. split_and!; simpl.
      * apply example_stacks_ok.
      * by apply Forall_nil.
      * destruct (lookup_lt_is_Some_2 (Profile.threads p)
          (LinuxThread.profile_thread (ProcessThreads.main_thread (threads pr)))) as [th Hth]; [|by exists th].
        apply (ProcessThreads.main_ok _ _ _ (process_threads _ _ _ _ Hprok)).
    + apply (changes_wf 0 1 example_profile p); [done|apply ProfileRuns.wf_new_profile|done].
    + eapply recording_evolves; [by eapply changes_evolves|apply recording_new].
Qed.

Lemma recording_finishes_witness :
  ∃ ps p p', example_recording = Ok (ps, p) ∧
    Processes.finish () example_converter ps example_stacks JitCategories.new p = Some (Ok p') ∧
    is_Ok (serialize_profile p').
Proof.
  destruct example_recording_ok as (ps & p & Heq & Hok & Hwf & Hrec). exists ps, p.
  assert (match example_recording with Ok (ps, p) =>
      match finish_alive () example_converter ps (drain (processes_by_pid ps)) JitCategories.new p with
      | Some (Ok (_, _, _, ps')) =>
          alive_room 0 (drain (processes_by_pid ps)) = 0%nat ∧
          Forall (λ d, Flush.markers d = []) (process_sample_datas ps') ∧
          Z.of_nat (sum_list_with (data_room example_stacks) (process_sample_datas ps')) < 100
      | _ => False
      end | _ => False end) as Hfit.
  { vm_compute. split_and!; [done|by repeat constructor|done]. }
  rewrite Heq in Hfit.
  destruct (recording_finishes anything 0 example_converter no_inputs_ok example_stacks 1 () ps JitCategories.new p)
    as (p' & k & Hfin & _ & _ & Hser); try done.
  - apply example_stacks_ok.
  - apply JitCategories.wf_new_manager.
  - destruct (finish_alive _ _ _ _ _ _) as [[[[[? ?] ?] ?]|]|]; try done. destruct Hfit as [-> _]. done.
  - intros files' m' p1 ps' Halive. rewrite Halive in Hfit. destruct Hfit as (-> & Hmarkers & Hroom).
    split; [|lia]. eapply Forall_impl; [exact Hmarkers|]. intros d Hd. unfold markers_fit. rewrite Hd.
    split; [by intros ? ? ?%elem_of_nil|done].
  - exists p'. split; [exact Heq|]. split; [exact Hfin|exact Hser].
Defined.
End RecordingEnd.
