(* ===== verification/PerCpu.v ===== *)
(** The tracks of the CPUs: samply/src/shared/per_cpu.rs. Each CPU has a thread of
    the profile, made when the CPU is first seen, and one thread is for all. *)
From S2P Require Import Prelude BTree Types LibMappings StringTables LibTable Markers ThreadSafety.
From S2P Require Import ProfileModel ProfileSafety ProfileRuns RecorderMarkers ProfileCalls ContextSwitch.
From S2P Require Import FlushMarkers LinuxThreads.
From stdpp Require Import options.
Open Scope Z_scope.

Module PerCpu.
Import Schema Profile ProfileCalls RecorderMarkers.

Section per_cpu.
Context {D : DebugIdType}.

(** The thread that runs, with its label and when it was switched in. *)
Record Cpu := {
  name : StringHandle;
  thread_handle : ThreadHandle;
  context_switch_data : ContextSwitch.ThreadContextSwitchData;
  current_tid : option (Z * StringHandle * Z)
}.
Record Cpus := {
  start_time : Timestamp;
  process_handle : ProcessHandle;
  combined_thread_handle : ThreadHandle;
  cpus : list Cpu;
  idle_frame_label : FrameInfo
}.

(** ** One CPU *)
Definition new_cpu (name' : StringHandle) (thread : ThreadHandle) : Cpu :=
  {| name := name'; thread_handle := thread; context_switch_data := ContextSwitch.default;
     current_tid := None |}.
Definition with_switch_data (cpu : Cpu) (d : ContextSwitch.ThreadContextSwitchData) : Cpu :=
  {| name := name cpu; thread_handle := thread_handle cpu; context_switch_data := d;
     current_tid := current_tid cpu |}.
Definition with_tid (cpu : Cpu) (tid : option (Z * StringHandle * Z)) : Cpu :=
  {| name := name cpu; thread_handle := thread_handle cpu;
     context_switch_data := context_switch_data cpu; current_tid := tid |}.

(** The same marker on all threads. *)
Fixpoint mark_threads (timing : MarkerTiming) (marker : Marker) (handles : list ThreadHandle)
    (profile : Profile) : res Profile :=
  match handles with
  | [] => Ok profile
  | h :: handles' =>
      '(profile', _) ← add_marker profile h timing marker;
      mark_threads timing marker handles' profile'
  end.
Definition running_interval (c : TimestampConverter) (switch_in switch_out : Z) : MarkerTiming :=
  Interval (convert_time c switch_in) (convert_time c switch_out).
Definition notify_switch_in_for_marker (cpu : Cpu) (tid : Z) (thread_name : StringHandle) (timestamp : Z)
    (c : TimestampConverter) (handles : list ThreadHandle) (profile : Profile) : res (Cpu * Profile) :=
  let cpu' := with_tid cpu (Some (tid, thread_name, timestamp)) in
  match current_tid cpu with
  | None => Ok (cpu', profile)
  | Some (_, previous_thread_name, switch_in_timestamp) =>
      profile' ← mark_threads (running_interval c switch_in_timestamp timestamp)
                   (thread_name_marker_for_cpu_track (name cpu) previous_thread_name) handles profile;
      Ok (cpu', profile')
  end.
Definition notify_switch_out_for_marker (cpu : Cpu) (tid : Z) (timestamp : Z) (c : TimestampConverter)
    (handles : list ThreadHandle) (thread : ThreadHandle) (preempted : bool) (profile : Profile)
    : res (Cpu * Profile) :=
  let cpu' := with_tid cpu None in
  match current_tid cpu with
  | None => Ok (cpu', profile)
  | Some (_, previous_thread_name, switch_in_timestamp) =>
      let timing := running_interval c switch_in_timestamp timestamp in
      profile1 ← mark_threads timing (thread_name_marker_for_cpu_track (name cpu) previous_thread_name)
                   handles profile;
      let '(profile2, reason) := intern_string profile1 (if preempted then "preempted" else "blocked") in
      '(profile3, _) ← add_marker profile2 thread timing (on_cpu_marker_for_thread_track (name cpu) reason);
      Ok (cpu', profile3)
  end.

(** ** All CPUs *)
Definition idle_frame (s : StringHandle) : FrameInfo :=
  {| frame := Label s; category_pair := CategoryPairHandle_from CategoryHandle_OTHER; flags := 0 |}.
Definition new (start : Timestamp) (profile : Profile) : res (Cpus * Profile) :=
  let '(profile1, process) := add_process profile "CPU" 0 start in
  '(profile2, combined) ← add_thread profile1 process 0 start true;
  let '(profile3, idle_string) := intern_string profile2 "<Idle>" in
  Ok ({| start_time := start; process_handle := process; combined_thread_handle := combined; cpus := [];
         idle_frame_label := idle_frame idle_string |}, profile3).
Definition with_cpus (cs : Cpus) (l : list Cpu) : Cpus :=
  {| start_time := start_time cs; process_handle := process_handle cs;
     combined_thread_handle := combined_thread_handle cs; cpus := l; idle_frame_label := idle_frame_label cs |}.
(** The body of the loop, and [count] turns of it. *)
Definition add_cpu (cs : Cpus) (profile : Profile) : res (Cpus * Profile) :=
  let i := length (cpus cs) in
  '(profile1, thread) ← add_thread profile (process_handle cs) (wrap_u32 (Z.of_nat i)) (start_time cs) false;
  let text := "CPU " +:+ dec_string (Z.of_nat i) in
  profile2 ← set_thread_name profile1 thread text;
  let '(profile3, s) := intern_string profile2 text in
  Ok (with_cpus cs (push (cpus cs) (new_cpu s thread)), profile3).
Fixpoint add_cpus (count : nat) (cs : Cpus) (profile : Profile) : res (Cpus * Profile) :=
  match count with
  | O => Ok (cs, profile)
  | S count' => '(cs', profile') ← add_cpu cs profile; add_cpus count' cs' profile'
  end.
Definition get_mut (cs : Cpus) (cpu : nat) (profile : Profile) : res (Cpus * Profile * Cpu) :=
  '(cs', profile') ← add_cpus (S cpu - length (cpus cs)) cs profile;
  x ← index (cpus cs') cpu;
  Ok (cs', profile', x).
(** What is written through the reference [get_mut] returns. *)
Definition set_cpu (cs : Cpus) (cpu : nat) (x : Cpu) : Cpus := with_cpus cs (<[cpu := x]> (cpus cs)).

(** * Invariant *)
Notation known p h := (FlushMarkers.known_string p h).
Record cpu_ok (p : Profile) (cpu : Cpu) : Prop := {
  cpu_thread : (thread_handle cpu < length (threads p))%nat;
  cpu_name : known p (name cpu);
  cpu_running : ∀ tid label t, current_tid cpu = Some (tid, label, t) → known p label
}.
Record cpus_ok (p : Profile) (cs : Cpus) : Prop := {
  cpus_process : (process_handle cs < length (processes p))%nat;
  cpus_combined : (combined_thread_handle cs < length (threads p))%nat;
  cpus_all : Forall (cpu_ok p) (cpus cs);
  cpus_idle : ProcessThreads.label_ok p (idle_frame_label cs)
}.
(** Old threads and processes keep their names. *)
Definition names_kept (p p' : Profile) : Prop :=
  thread_names p `prefix_of` thread_names p' ∧ process_names p `prefix_of` process_names p'.
#[global] Instance names_kept_preorder : PreOrder names_kept.
Proof. split; [by split|]. intros p1 p2 p3 [] []. split; by etrans. Qed.
Lemma by_calls_names_kept k p p' : by_calls k p p' → names_kept p p'.
Proof. intros Hby. destruct (by_calls_names _ _ _ Hby) as [Ht Hp]. split; by rewrite ?Ht, ?Hp. Qed.

Lemma cpu_ok_evolves p p' cpu : evolves p p' → cpu_ok p cpu → cpu_ok p' cpu.
Proof.
  intros He []. pose proof (evolves_threads _ _ He). split; [lia| |].
  - by eapply FlushMarkers.known_string_evolves.
  - intros tid label t Heq. eapply FlushMarkers.known_string_evolves; [done|by eapply cpu_running0].
Qed.
Lemma cpus_ok_evolves p p' cs : evolves p p' → cpus_ok p cs → cpus_ok p' cs.
Proof.
  intros He []. pose proof (evolves_threads _ _ He). pose proof (evolves_processes _ _ He). split; [lia|lia| |].
  - eapply Forall_impl; [exact cpus_all0|]. intros cpu. by apply cpu_ok_evolves.
  - by eapply ProcessThreads.label_ok_evolves.
Qed.
Lemma set_cpu_ok p cs i x : cpus_ok p cs → cpu_ok p x → cpus_ok p (set_cpu cs i x).
Proof. intros [] Hx. split; try done. simpl. by apply Forall_insert. Qed.

(** ** Markers *)
Lemma recorder_marker_ok n p thread timing t name values :
  ProfileRuns.wf n p → statics_known p → t ∈ recorder_types → Z.of_nat (n + 2 + length (ms_fields (schema t))) < 2 ^ 32 →
  (thread < length (threads p))%nat → (∀ h, name = inl h → known p h) →
  (∀ i field, fields (from_schema (schema t)) !! i = Some field →
    MarkerTable.field_ok (string_table p) values i field) →
  ∃ p' handle th', add_marker p thread timing (static_marker t name values) = Ok (p', handle) ∧
    by_calls (2 + length (ms_fields (schema t))) p p' ∧
    threads p' !! thread = Some th' ∧ (handle < num_marker_stacks th')%nat.
Proof.
  intros Hwf Hk Ht Hn Hth Hname Hfields.
  by apply (add_static_marker_ok n p thread timing t name values _ Hwf Ht (schema_in_force_known _ _ Hk Ht)).
Qed.
Lemma mark_threads_ok n p timing cpu_name thread_name handles :
  ProfileRuns.wf n p → statics_known p → known p cpu_name → known p thread_name →
  Forall (λ h, h < length (threads p))%nat handles → Z.of_nat (n + 3 * length handles) < 2 ^ 32 →
  ∃ p', mark_threads timing (thread_name_marker_for_cpu_track cpu_name thread_name) handles p = Ok p' ∧
    by_calls (3 * length handles) p p'.
Proof.
  intros Hwf Hk Hc Ht Hh. revert n p Hwf Hk Hc Ht Hh.
  induction handles as [|h handles IH]; intros n p Hwf Hk Hc Ht Hh Hn; cbn [mark_threads length] in *.
  { exists p. split; [done|apply by_calls_refl]. }
  apply Forall_cons in Hh as [Hh Hhs].
  destruct (recorder_marker_ok n p h timing ThreadNameMarkerForCpuTrack (inl cpu_name) (one_string thread_name))
    as (p1 & handle & th' & Heq & Hby & _ & _); [done|done|set_solver|simpl; lia|done|by intros ? [= <-]| |].
  { intros [|[|i]] field Hf; try done. injection Hf as <-. exact Ht. }
  fold (thread_name_marker_for_cpu_track cpu_name thread_name) in Heq. rewrite Heq. cbn [mbind res_bind].
  pose proof (by_calls_evolves _ _ _ Hby) as He. pose proof (evolves_threads _ _ He).
  destruct (IH (n + 3)%nat p1) as (p' & -> & Hby').
  - apply (by_calls_wf _ _ p); [done|done|lia].
  - by apply (evolves_statics _ _ He).
  - by eapply FlushMarkers.known_string_evolves.
  - by eapply FlushMarkers.known_string_evolves.
  - eapply Forall_impl; [exact Hhs|]. simpl. lia.
  - lia.
  - exists p'. split; [done|]. replace (3 * S (length handles))%nat with (3 + 3 * length handles)%nat by lia.
    by apply (by_calls_trans 3 _ _ p1).
Qed.

(** ** Operations *)
Lemma switch_in_ok n p c cpu tid label t handles :
  ProfileRuns.wf n p → statics_known p → cpu_ok p cpu → known p label →
  Forall (λ h, h < length (threads p))%nat handles → Z.of_nat (n + 3 * length handles) < 2 ^ 32 →
  ∃ cpu' p', notify_switch_in_for_marker cpu tid label t c handles p = Ok (cpu', p') ∧
    by_calls (3 * length handles) p p' ∧ cpu_ok p' cpu'.
Proof.
  intros Hwf Hk Hcpu Hl Hh Hn. unfold notify_switch_in_for_marker.
  assert (cpu_ok p (with_tid cpu (Some (tid, label, t)))) as Hcpu'.
  { destruct Hcpu. split; [done|done|]. by intros tid' l t' [= <- <- <-]. }
  destruct (current_tid cpu) as [[[tid' previous] t']|] eqn:Hcur.
  - destruct (mark_threads_ok n p (running_interval c t' t) (name cpu) previous handles) as (p' & -> & Hby);
      [done|done|apply Hcpu|by eapply (cpu_running p cpu Hcpu)|done|done|].
    eexists _, p'. split; [done|]. split; [done|]. eapply cpu_ok_evolves; [by eapply by_calls_evolves|done].
  - eexists _, p. split; [done|]. split; [apply by_calls_refl|done].
Qed.
Lemma on_cpu_marker_ok n p thread timing cpu_name text :
  ProfileRuns.wf n p → statics_known p → known p cpu_name → (thread < length (threads p))%nat → Z.of_nat (n + 5) < 2 ^ 32 →
  let '(p1, reason) := intern_string p text in
  ∃ p' h, add_marker p1 thread timing (on_cpu_marker_for_thread_track cpu_name reason) = Ok (p', h) ∧ by_calls 5 p p'.
Proof.
  intros Hwf Hk Hc Hth Hn. destruct (intern_string p text) as [p1 reason] eqn:Hi.
  destruct (intern_string_spec n p text p1 reason Hwf ltac:(lia) Hi) as [Hby Hget].
  pose proof (by_calls_evolves _ _ _ Hby) as He. pose proof (evolves_threads _ _ He).
  destruct (recorder_marker_ok (n + 1) p1 thread timing OnCpuMarkerForThreadTrack (inr "Running on CPU")
    {| string_field_value := λ i, if i =? 0 then Ok cpu_name else if i =? 1 then Ok reason else Panic;
       number_field_value := λ _, Panic |}) as (p' & h & th' & Heq & Hby' & _).
  - apply (by_calls_wf _ _ p); [done|done|lia].
  - by apply (evolves_statics _ _ He).
  - set_solver.
  - simpl. lia.
  - lia.
  - done.
  - intros [|[|[|i]]] field Hf; try done; injection Hf as <-; [|by exists text].
    by eapply FlushMarkers.known_string_evolves.
  - exists p', h. split; [exact Heq|]. by apply (by_calls_trans 1 4 _ p1).
Qed.
Lemma switch_out_ok n p c cpu tid t handles thread preempted :
  ProfileRuns.wf n p → statics_known p → cpu_ok p cpu → (thread < length (threads p))%nat →
  Forall (λ h, h < length (threads p))%nat handles → Z.of_nat (n + (3 * length handles + 5)) < 2 ^ 32 →
  ∃ cpu' p', notify_switch_out_for_marker cpu tid t c handles thread preempted p = Ok (cpu', p') ∧
    by_calls (3 * length handles + 5) p p' ∧ cpu_ok p' cpu'.
Proof.
  intros Hwf Hk Hcpu Hth Hh Hn. unfold notify_switch_out_for_marker.
  assert (cpu_ok p (with_tid cpu None)) as Hcpu' by (by destruct Hcpu; split).
  destruct (current_tid cpu) as [[[tid' previous] t']|] eqn:Hcur.
  - destruct (mark_threads_ok n p (running_interval c t' t) (name cpu) previous handles) as (p1 & -> & Hby);
      [done|done|apply Hcpu|by eapply (cpu_running p cpu Hcpu)|done|lia|].
    cbn [mbind res_bind]. pose proof (by_calls_evolves _ _ _ Hby) as He. pose proof (evolves_threads _ _ He).
    pose proof (on_cpu_marker_ok (n + 3 * length handles) p1 thread (running_interval c t' t) (name cpu)
      (if preempted then "preempted" else "blocked")) as Hm.
    destruct (intern_string p1 _) as [p2 reason]. destruct Hm as (p' & h & -> & Hby').
    + apply (by_calls_wf _ _ p); [done|done|lia].
    + by apply (evolves_statics _ _ He).
    + eapply FlushMarkers.known_string_evolves; [done|apply Hcpu].
    + lia.
    + lia.
    + cbn [mbind res_bind]. assert (by_calls (3 * length handles + 5) p p') as Hby2 by (by apply (by_calls_trans _ _ _ p1)).
      eexists _, p'. split; [done|]. split; [done|]. eapply cpu_ok_evolves; [by eapply by_calls_evolves|done].
  - eexists _, p. split; [done|]. split; [apply by_calls_refl|done].
Qed.

(** ** New threads *)
Lemma new_cpus_ok n p start :
  ProfileRuns.wf n p → Z.of_nat (n + 1) < 2 ^ 32 → recording p →
  ∃ cs p', new start p = Ok (cs, p') ∧ changes 1 p p' ∧ cpus_ok p' cs ∧ names_kept p p' ∧ cpus cs = [].
Proof.
  intros Hwf Hn Hrec. unfold new. destruct (add_process_spec p "CPU" 0 start) as (p1 & -> & Hch1 & Hn1 & Hp1).
  assert (length (processes p1) = S (length (processes p))) as Hlen1.
  { pose proof (f_equal length Hp1) as Hl. unfold process_names in Hl. rewrite length_app, !length_fmap in Hl.
    simpl in Hl. lia. }
  destruct (add_thread_spec p1 (length (processes p)) 0 start true) as (p2 & -> & Hch2 & Hn2 & Hp2); [lia|].
  cbn [mbind res_bind]. assert (changes 0 p p2) as Hch02 by (by apply (changes_trans 0 0 _ p1)).
  assert (length (threads p2) = S (length (threads p1))) as Hlen2.
  { rewrite <-ProcessThreads.thread_names_length, Hn2, length_app, ProcessThreads.thread_names_length. simpl. lia. }
  destruct (intern_string p2 "<Idle>") as [p3 s] eqn:Hi.
  destruct (intern_string_spec n p2 "<Idle>" p3 s) as [Hby Hget]; [|lia|done|].
  { rewrite <-(Nat.add_0_r n). apply (changes_wf _ _ p); [done|done|lia]. }
  pose proof (by_calls_evolves _ _ _ Hby) as He. pose proof (evolves_threads _ _ He). pose proof (evolves_processes _ _ He).
  pose proof (evolves_processes _ _ (changes_evolves _ _ _ Hch2)).
  assert (changes 1 p p3) as Hch by (apply (changes_trans 0 1 _ p2); [done|by apply by_calls_changes]).
  eexists _, p3. split; [done|]. split; [done|]. split; [|split; [|done]].
  - split; simpl; [lia|lia|done|]. split; [by eexists|]. apply Forall_singleton. split; simpl; [|by eexists].
    unfold ThreadSafety.category_ok, CategoryHandle_OTHER. simpl.
    pose proof (recording_categories _ (recording_evolves _ _ (changes_evolves _ _ _ Hch) Hrec)).
    destruct (categories p3); [done|simpl; lia].
  - destruct (by_calls_names _ _ _ Hby) as [Hn3 Hp3].
    split; rewrite ?Hn3, ?Hp3, ?Hn2, ?Hn1, ?Hp2, ?Hp1; by apply prefix_app_r.
Qed.
Lemma add_cpu_ok n p cs :
  ProfileRuns.wf n p → Z.of_nat (n + 1) < 2 ^ 32 → cpus_ok p cs →
  ∃ cs' p', add_cpu cs p = Ok (cs', p') ∧ changes 1 p p' ∧ cpus_ok p' cs' ∧ names_kept p p' ∧
    length (cpus cs') = S (length (cpus cs)).
Proof.
  intros Hwf Hn Hok. unfold add_cpu. set (text := "CPU " +:+ _).
  destruct (add_thread_spec p (process_handle cs) (wrap_u32 (Z.of_nat (length (cpus cs)))) (start_time cs) false)
    as (p1 & -> & Hch1 & Hn1 & Hp1); [by apply Hok|]. cbn [mbind res_bind].
  set (h := length (threads p)).
  assert (length (threads p1) = S h) as Hlen1.
  { rewrite <-ProcessThreads.thread_names_length, Hn1, length_app, ProcessThreads.thread_names_length. simpl. unfold h. lia. }
  destruct (set_thread_name_spec p1 h text) as (p2 & -> & Hch2 & Hn2 & Hp2); [lia|]. cbn [mbind res_bind].
  assert (changes 0 p p2) as Hch02 by (by apply (changes_trans 0 0 _ p1)).
  assert (length (threads p2) = S h) as Hlen2.
  { by rewrite <-Hlen1, <-!ProcessThreads.thread_names_length, Hn2, length_insert. }
  destruct (intern_string p2 text) as [p3 s] eqn:Hi.
  destruct (intern_string_spec n p2 text p3 s) as [Hby Hget]; [|lia|done|].
  { rewrite <-(Nat.add_0_r n). apply (changes_wf _ _ p); [done|done|lia]. }
  pose proof (by_calls_evolves _ _ _ Hby) as He. pose proof (evolves_threads _ _ He).
  assert (changes 1 p p3) as Hch by (apply (changes_trans 0 1 _ p2); [done|by apply by_calls_changes]).
  pose proof (cpus_ok_evolves _ _ _ (changes_evolves _ _ _ Hch) Hok) as Hok'.
  eexists _, p3. split; [done|]. split; [done|]. split; [|split].
  - destruct Hok'. split; try done. simpl. apply Forall_app. split; [done|]. apply Forall_singleton.
    split; simpl; [lia|by eexists|done].
  - destruct (by_calls_names _ _ _ Hby) as [Hn3 Hp3]. split; rewrite ?Hn3, ?Hp3, ?Hn2, ?Hp2, ?Hp1; [|done].
    rewrite Hn1. unfold h. rewrite <-ProcessThreads.thread_names_length, insert_app_r_alt, Nat.sub_diag by done.
    by apply prefix_app_r.
  - simpl. unfold push. rewrite length_app. simpl. lia.
Qed.
Lemma add_cpus_ok count n p cs :
  ProfileRuns.wf n p → Z.of_nat (n + count) < 2 ^ 32 → cpus_ok p cs →
  ∃ cs' p', add_cpus count cs p = Ok (cs', p') ∧ changes count p p' ∧ cpus_ok p' cs' ∧ names_kept p p' ∧
    length (cpus cs') = (count + length (cpus cs))%nat.
Proof.
  revert n p cs. induction count as [|count IH]; intros n p cs Hwf Hn Hok; cbn [add_cpus].
  { exists cs, p. split; [done|]. split; [apply (calls_of_refl (Q:=unsampled))|done]. }
  destruct (add_cpu_ok n p cs Hwf ltac:(lia) Hok) as (cs1 & p1 & -> & Hch1 & Hok1 & Hn1 & Hlen1). cbn [mbind res_bind].
  destruct (IH (n + 1)%nat p1 cs1) as (cs' & p' & -> & Hch & Hok' & Hn' & Hlen).
  - apply (changes_wf _ _ p); [done|done|lia].
  - lia.
  - done.
  - exists cs', p'. split; [done|]. split; [by apply (changes_trans 1 count _ p1)|].
    split; [done|]. split; [by etrans|lia].
Qed.
(** How many threads a CPU needs to be added first. *)
Definition cpu_room (cs : Cpus) (cpu : nat) : nat := S cpu - length (cpus cs).
Lemma get_mut_ok n p cs i :
  ProfileRuns.wf n p → Z.of_nat (n + cpu_room cs i) < 2 ^ 32 → cpus_ok p cs →
  ∃ cs' p' x, get_mut cs i p = Ok (cs', p', x) ∧ changes (cpu_room cs i) p p' ∧ cpus_ok p' cs' ∧
    names_kept p p' ∧ cpu_ok p' x ∧ cpus cs' !! i = Some x ∧ (length (cpus cs) ≤ length (cpus cs'))%nat.
Proof.
  intros Hwf Hn Hok. unfold get_mut, cpu_room in *.
  destruct (add_cpus_ok _ n p cs Hwf Hn Hok) as (cs' & p' & -> & Hch & Hok' & Hn' & Hlen). cbn [mbind res_bind].
  destruct (lookup_lt_is_Some_2 (cpus cs') i) as [x Hx]; [lia|]. rewrite (proj2 (index_Ok _ _ _) Hx).
  cbn [mbind res_bind]. exists cs', p', x. split_and!; try done; [|lia].
  pose proof (cpus_all _ _ Hok') as Hall. rewrite Forall_lookup in Hall. by apply (Hall i).
Qed.
End per_cpu.
End PerCpu.
