(* ===== verification/SampleStack.v ===== *)
(** The stack of a sample ([Converter::get_sample_stack] of
    samply/src/linux_shared/converter.rs, and the stack modes of
    samply/src/shared/types.rs), the registers it starts with (convert_regs.rs), and the
    record of a kmem:rss_stat event (rss_stat.rs). *)
From S2P Require Import Prelude Types LinuxProcess.
From stdpp Require Import options.
Open Scope Z_scope.

(** * Dependencies *)

(** perf_event.h: the frames of a call chain that say which mode follows. *)
Class PerfConstants := {
  PERF_CONTEXT_MAX : Z;
  PERF_CONTEXT_KERNEL : Z;
  PERF_CONTEXT_GUEST_KERNEL : Z;
  PERF_CONTEXT_USER : Z;
  PERF_CONTEXT_GUEST : Z;
  PERF_CONTEXT_GUEST_USER : Z
}.
Inductive FrameAddress :=
| FA_InstructionPointer (addr : Z)
| FA_ReturnAddress (addr : Z).
(** The iterator of the unwinder, as all it yields and whether it ends with an
    error; it reads the stack through a function of addresses. [convert_regs] is
    that of the trait ConvertRegs. *)
Class StackWalking `{Unwinding} := {
  Cache : Type;
  Regs : Type;
  UnwindRegs : Type;
  convert_regs : Regs → res (Z * Z * UnwindRegs);
  iter_frames : Unwinder → Z → UnwindRegs → Cache → (Z → option Z) → Cache * list FrameAddress * bool
}.

(** * Stacks of samples *)
Module SampleStack.
Section sample_stack.
Context `{PerfConstants} `{StackWalking}.

(** [CpuMode] of linux-perf-event-reader, and the parts of its [SampleRecord]
    that are used: the user stack as the 64-bit words in it. *)
Inductive CpuMode := CpuKernel | CpuGuestKernel | CpuOther.
Record SampleRecord := {
  pid : option Z;
  tid : option Z;
  timestamp : option Z;
  cpu : option Z;
  period : option Z;
  ip : option Z;
  cpu_mode : CpuMode;
  callchain : option (list Z);
  user_regs : option Regs;
  user_stack : option (list Z);
  raw : option (list Z)
}.

Definition from_context_frame (frame : Z) : option StackMode :=
  if (frame =? PERF_CONTEXT_KERNEL) || (frame =? PERF_CONTEXT_GUEST_KERNEL) then Some Kernel
  else if (frame =? PERF_CONTEXT_USER) || (frame =? PERF_CONTEXT_GUEST) || (frame =? PERF_CONTEXT_GUEST_USER)
  then Some User
  else None.
Definition StackMode_from (mode : CpuMode) : StackMode :=
  match mode with CpuKernel | CpuGuestKernel => Kernel | CpuOther => User end.

(** The loop over the call chain. *)
Fixpoint chain_frames (preadjusted is_first_frame : bool) (mode : StackMode) (chain : list Z) : list StackFrame :=
  match chain with
  | [] => []
  | address :: chain' =>
      if PERF_CONTEXT_MAX <=? address then
        chain_frames preadjusted is_first_frame (default mode (from_context_frame address)) chain'
      else
        (if is_first_frame then SF_InstructionPointer address mode
         else if preadjusted then SF_AdjustedReturnAddress address mode
         else SF_ReturnAddress address mode) :: chain_frames preadjusted false mode chain'
  end.
(** [read_stack]: the words from the stack pointer on. *)
Definition read_stack (words : list Z) (sp addr : Z) : option Z :=
  if addr <? sp then None else words !! Z.to_nat ((addr - sp) / 8).
Definition unwound_frame (f : FrameAddress) : StackFrame :=
  match f with
  | FA_InstructionPointer addr => SF_InstructionPointer addr User
  | FA_ReturnAddress addr => SF_ReturnAddress addr User
  end.
(** The loop that folds the base of the stack, on the reversed stack. *)
Fixpoint pop_repeated (last_frame : StackFrame) (stack : list StackFrame) : list StackFrame :=
  match stack with
  | _ :: ((frame :: _) as stack') =>
      if decide (frame = last_frame) then pop_repeated last_frame stack' else stack
  | _ => stack
  end.
Definition fold_base (stack : list StackFrame) : list StackFrame :=
  match reverse stack with
  | [] => []
  | (last_frame :: _) as r => reverse (pop_repeated last_frame r)
  end.
Definition get_sample_stack (e : SampleRecord) (unwinder : Unwinder) (cache : Cache)
    (fold_recursive_prefix preadjusted : bool) : res (Cache * list StackFrame) :=
  let chain :=
    match callchain e with
    | Some chain => chain_frames preadjusted true (StackMode_from (cpu_mode e)) chain
    | None => []
    end in
  '(cache', stack) ←
    match user_regs e, user_stack e with
    | Some regs, Some words =>
        '(pc, sp, regs') ← convert_regs regs;
        let '(cache', frames, failed) := iter_frames unwinder pc regs' cache (read_stack words sp) in
        Ok (cache', chain ++ (unwound_frame <$> frames) ++ (if failed : bool then [SF_TruncatedStackMarker] else []))
    | _, _ => Ok (cache, chain)
    end;
  Ok (cache',
    match stack with
    | [] => match ip e with
            | Some ip => [SF_InstructionPointer ip (StackMode_from (cpu_mode e))]
            | None => []
            end
    | _ => if fold_recursive_prefix then fold_base stack else stack
    end).
End sample_stack.
End SampleStack.

(** * convert_regs.rs *)

(** The registers of a sample (linux-perf-event-reader), their numbers
    (perf_regs.h), and what framehop unwinds with. *)
Class PerfRegs := {
  PerfRegisters : Type;
  get_reg : PerfRegisters → Z → option Z;
  PERF_REG_X86_BP : Z;
  PERF_REG_X86_SP : Z;
  PERF_REG_X86_IP : Z;
  PERF_REG_ARM64_X29 : Z;
  PERF_REG_ARM64_LR : Z;
  PERF_REG_ARM64_SP : Z;
  PERF_REG_ARM64_PC : Z;
  UnwindRegsX86_64 : Type;
  new_regs_x86_64 : Z → Z → Z → UnwindRegsX86_64;
  UnwindRegsAarch64 : Type;
  new_regs_aarch64 : Z → Z → Z → UnwindRegsAarch64
}.

Module ConvertRegs.
Section convert_regs.
Context `{PerfRegs}.

Definition convert_regs_x86_64 (regs : PerfRegisters) : res (Z * Z * UnwindRegsX86_64) :=
  ip' ← unwrap (get_reg regs PERF_REG_X86_IP);
  sp ← unwrap (get_reg regs PERF_REG_X86_SP);
  bp ← unwrap (get_reg regs PERF_REG_X86_BP);
  Ok (ip', sp, new_regs_x86_64 ip' sp bp).
Definition regs_mask_x86_64 : Z :=
  Z.lor (Z.lor (Z.shiftl 1 PERF_REG_X86_IP) (Z.shiftl 1 PERF_REG_X86_SP)) (Z.shiftl 1 PERF_REG_X86_BP).
Definition convert_regs_aarch64 (regs : PerfRegisters) : res (Z * Z * UnwindRegsAarch64) :=
  ip' ← unwrap (get_reg regs PERF_REG_ARM64_PC);
  lr ← unwrap (get_reg regs PERF_REG_ARM64_LR);
  sp ← unwrap (get_reg regs PERF_REG_ARM64_SP);
  fp ← unwrap (get_reg regs PERF_REG_ARM64_X29);
  Ok (ip', sp, new_regs_aarch64 lr sp fp).
Definition regs_mask_aarch64 : Z :=
  Z.lor (Z.lor (Z.lor (Z.shiftl 1 PERF_REG_ARM64_PC) (Z.shiftl 1 PERF_REG_ARM64_LR)) (Z.shiftl 1 PERF_REG_ARM64_SP))
    (Z.shiftl 1 PERF_REG_ARM64_X29).

(** Samples with the registers of the mask can be unwound, and no others. *)
Definition has_regs (regs : PerfRegisters) (mask : Z) : Prop :=
  ∀ i, Z.testbit mask i = true → is_Some (get_reg regs i).
Lemma has_regs_lor regs a b : has_regs regs (Z.lor a b) ↔ has_regs regs a ∧ has_regs regs b.
Proof.
  unfold has_regs. split.
  - intros Hr. split; intros i Hi; apply Hr; rewrite Z.lor_spec, Hi; [done|by rewrite orb_true_r].
  - intros [Ha Hb] i. rewrite Z.lor_spec. intros [?|?]%orb_true_iff; [by apply Ha|by apply Hb].
Qed.
Lemma has_regs_bit regs i : 0 ≤ i → has_regs regs (Z.shiftl 1 i) ↔ is_Some (get_reg regs i).
Proof.
  intros Hi. unfold has_regs. split.
  - intros Hr. apply Hr. by rewrite Z.shiftl_1_l, Z.pow2_bits_true.
  - intros Hr j. rewrite Z.shiftl_1_l, Z.pow2_bits_eqb by done. by intros <-%Z.eqb_eq.
Qed.
Lemma bind_is_Ok {A B} (x : option A) (f : A → res B) (P : Prop) :
  (∀ a, is_Ok (f a) ↔ P) → is_Ok (a ← unwrap x; f a) ↔ is_Some x ∧ P.
Proof.
  intros Hf. destruct x as [a|]; cbn [unwrap mbind res_bind].
  - rewrite Hf. split; [by intros; split; [eexists|]|by intros [_ ?]].
  - split; [by intros [? ?]|]. intros [Hx _]. by destruct (is_Some_None Hx).
Qed.
Lemma convert_regs_x86_64_Ok regs :
  0 ≤ PERF_REG_X86_IP → 0 ≤ PERF_REG_X86_SP → 0 ≤ PERF_REG_X86_BP →
  is_Ok (convert_regs_x86_64 regs) ↔ has_regs regs regs_mask_x86_64.
Proof.
  intros ???. unfold convert_regs_x86_64, regs_mask_x86_64. rewrite !has_regs_lor, !has_regs_bit by done.
  rewrite (bind_is_Ok _ _ (is_Some (get_reg regs PERF_REG_X86_SP) ∧ is_Some (get_reg regs PERF_REG_X86_BP) ∧ True));
    [tauto|].
  intros ip'. apply bind_is_Ok. intros sp. apply bind_is_Ok. intros bp. by split; [|eexists].
Qed.
Lemma convert_regs_aarch64_Ok regs :
  0 ≤ PERF_REG_ARM64_PC → 0 ≤ PERF_REG_ARM64_LR → 0 ≤ PERF_REG_ARM64_SP → 0 ≤ PERF_REG_ARM64_X29 →
  is_Ok (convert_regs_aarch64 regs) ↔ has_regs regs regs_mask_aarch64.
Proof.
  intros ????. unfold convert_regs_aarch64, regs_mask_aarch64. rewrite !has_regs_lor, !has_regs_bit by done.
  rewrite (bind_is_Ok _ _ (is_Some (get_reg regs PERF_REG_ARM64_LR) ∧ is_Some (get_reg regs PERF_REG_ARM64_SP) ∧
    is_Some (get_reg regs PERF_REG_ARM64_X29) ∧ True)); [tauto|].
  intros pc. apply bind_is_Ok. intros lr. apply bind_is_Ok. intros sp. apply bind_is_Ok. intros fp. by split; [|eexists].
Qed.
End convert_regs.
End ConvertRegs.

Module RssStat.

Definition MM_FILEPAGES : Z := 0.
Definition MM_ANONPAGES : Z := 1.
Definition MM_SWAPENTS : Z := 2.
Definition MM_SHMEMPAGES : Z := 3.

Record RssStat := {
  common_type : Z;
  common_flags : Z;
  common_preempt_count : Z;
  common_pid : Z;
  mm_id : Z;
  curr : Z;
  member : Z;
  size : Z
}.

(** ** Reading bytes: the value and what is left, [None] if there are too few *)
Fixpoint from_le (bytes : list Z) : Z :=
  match bytes with [] => 0 | b :: bytes' => Z.lor b (Z.shiftl (from_le bytes') 8) end.
Definition read_unsigned (n : nat) (little : bool) (data : list Z) : option (Z * list Z) :=
  if decide (length data < n)%nat then None
  else
    let bytes := take n data in
    Some (from_le (if little then bytes else reverse bytes), drop n data).
Definition read_i32 (little : bool) (data : list Z) : option (Z * list Z) :=
  '(x, data') ← read_unsigned 4 little data; Some (wrap_i32 x, data').

Definition parse (data : list Z) (little : bool) : option RssStat :=
  '(common_type', data1) ← read_unsigned 2 little data;
  '(common_flags', data2) ← read_unsigned 1 little data1;
  '(common_preempt_count', data3) ← read_unsigned 1 little data2;
  '(common_pid', data4) ← read_i32 little data3;
  '(mm_id', data5) ← read_unsigned 4 little data4;
  '(curr', data6) ← read_unsigned 4 little data5;
  '(member', data7) ← read_i32 little data6;
  '(_, data8) ← read_unsigned 4 little data7;
  '(size', _) ← read_unsigned 8 little data8;
  Some {| common_type := common_type'; common_flags := common_flags';
          common_preempt_count := common_preempt_count'; common_pid := common_pid'; mm_id := mm_id';
          curr := curr'; member := member'; size := wrap_i64 size' |}.
End RssStat.
