(* ===== verification/Converter.v ===== *)
(** The event handlers of a Linux recording: samply/src/linux_shared/converter.rs,
    without the loading of modules. *)
From S2P Require Import Prelude RustStr BTree Types LibMappings Hierarchy StringTables LibTable Markers.
From S2P Require Import ThreadSafety ProfileModel ProfileSafety ProfileRuns RecorderMarkers ProfileCalls.
From S2P Require Import ContextSwitch UnresolvedSamples PathFiles MarkerFile Flush FlushMarkers Recycling.
From S2P Require Import JitCategories SyntheticJit PerfMap JitDump LinuxThreads LinuxProcess Processes PerCpu.
From S2P Require Import SampleStack.
From stdpp Require Import options.
Open Scope Z_scope.

Module Converter.
Import Profile RecorderMarkers PathFiles LinuxProcess SampleStack.

Section converter.
Context `{DebugIdOps} `{JitDumpReader} `{!TextFiles} `{U : Unwinding} `{DrainOrder}.
Context `{PerfConstants} `{!StackWalking}.

Inductive OffCpuIndicator := ContextSwitches | SchedSwitchAndSamples.
#[global] Instance OffCpuIndicator_eq_dec : EqDecision OffCpuIndicator.
Proof. solve_decision. Defined.

(** The members that stay as they are. *)
Record Options := {
  timestamp_converter : TimestampConverter;
  aux_file_lookup_dirs : list string;
  context_switch_handler : ContextSwitch.ContextSwitchHandler;
  off_cpu_weight_per_sample : Z;
  off_cpu_indicator : option OffCpuIndicator;
  event_names : list string;
  little_endian : bool;
  arg_count_to_include_in_process_name : nat;
  fold_recursive_prefix : bool;
  call_chain_return_addresses_are_preadjusted : bool;
  should_emit_cswitch_markers : bool;
  should_emit_mmap_markers : bool;
  should_attach_markers_to_profiled_thread : bool
}.
(** The members that change; the files are those of the system. *)
Record Converter := {
  options : Options;
  files : fs;
  cache : Cache;
  profile : Profile;
  processes : Processes.Processes;
  current_sample_time : Z;
  unresolved_stacks : UnresolvedStacks.UnresolvedStacks;
  jit_category_manager : JitCategories.JitCategoryManager;
  simpleperf_jit_app_cache_library : SyntheticJitLibrary.SyntheticJitLibrary;
  cpus : option PerCpu.Cpus
}.

(** ** Changed members *)
Definition with_recording (s : Converter) (profile' : Profile) (processes' : Processes.Processes) : Converter :=
  {| options := options s; files := files s; cache := cache s; profile := profile'; processes := processes';
     current_sample_time := current_sample_time s; unresolved_stacks := unresolved_stacks s;
     jit_category_manager := jit_category_manager s;
     simpleperf_jit_app_cache_library := simpleperf_jit_app_cache_library s; cpus := cpus s |}.
Definition with_jit (s : Converter) (files' : fs) (profile' : Profile) (manager : JitCategories.JitCategoryManager)
    : Converter :=
  {| options := options s; files := files'; cache := cache s; profile := profile'; processes := processes s;
     current_sample_time := current_sample_time s; unresolved_stacks := unresolved_stacks s;
     jit_category_manager := manager;
     simpleperf_jit_app_cache_library := simpleperf_jit_app_cache_library s; cpus := cpus s |}.
Definition with_cache (s : Converter) (cache' : Cache) : Converter :=
  {| options := options s; files := files s; cache := cache'; profile := profile s; processes := processes s;
     current_sample_time := current_sample_time s; unresolved_stacks := unresolved_stacks s;
     jit_category_manager := jit_category_manager s;
     simpleperf_jit_app_cache_library := simpleperf_jit_app_cache_library s; cpus := cpus s |}.
Definition with_sample_time (s : Converter) (time : Z) : Converter :=
  {| options := options s; files := files s; cache := cache s; profile := profile s; processes := processes s;
     current_sample_time := time; unresolved_stacks := unresolved_stacks s;
     jit_category_manager := jit_category_manager s;
     simpleperf_jit_app_cache_library := simpleperf_jit_app_cache_library s; cpus := cpus s |}.
Definition with_stacks (s : Converter) (stacks : UnresolvedStacks.UnresolvedStacks) : Converter :=
  {| options := options s; files := files s; cache := cache s; profile := profile s; processes := processes s;
     current_sample_time := current_sample_time s; unresolved_stacks := stacks;
     jit_category_manager := jit_category_manager s;
     simpleperf_jit_app_cache_library := simpleperf_jit_app_cache_library s; cpus := cpus s |}.
Definition with_cpus (s : Converter) (profile' : Profile) (cpus' : PerCpu.Cpus) : Converter :=
  {| options := options s; files := files s; cache := cache s; profile := profile'; processes := processes s;
     current_sample_time := current_sample_time s; unresolved_stacks := unresolved_stacks s;
     jit_category_manager := jit_category_manager s;
     simpleperf_jit_app_cache_library := simpleperf_jit_app_cache_library s; cpus := Some cpus' |}.
Definition with_jit_library (s : Converter) (library : SyntheticJitLibrary.SyntheticJitLibrary) : Converter :=
  {| options := options s; files := files s; cache := cache s; profile := profile s; processes := processes s;
     current_sample_time := current_sample_time s; unresolved_stacks := unresolved_stacks s;
     jit_category_manager := jit_category_manager s;
     simpleperf_jit_app_cache_library := library; cpus := cpus s |}.
Definition with_profile (s : Converter) (profile' : Profile) : Converter := with_recording s profile' (processes s).

(** ** What the handlers reach through references *)
Definition process_by_pid (s : Converter) (pid' : Z) : res (Converter * Process) :=
  '(ps, p) ← Processes.get_by_pid (processes s) pid' (profile s);
  pr ← unwrap (Processes.processes_by_pid ps !! pid');
  Ok (with_recording s p ps, pr).
Definition put_process (s : Converter) (pid' : Z) (pr : Process) : Converter :=
  with_recording s (profile s) (Processes.set_process (processes s) pid' pr).
(** A process whose jitdump files have been read as far as they go. *)
Definition process_with_jitdump (s : Converter) (pid' : Z) : loops (Converter * Process) :=
  '(s1, pr) ← returned (process_by_pid s pid');
  '(files', pr', manager, p) ← check_jitdump (files s1) (timestamp_converter (options s1)) pr
                                 (jit_category_manager s1) (profile s1);
  returned (Ok (with_jit s1 files' p manager, pr')).
Definition thread_by_tid (s : Converter) (pr : Process) (tid' : Z) : res (Converter * Process * LinuxThread.Thread) :=
  '(threads', p, thread) ← ProcessThreads.get_thread_by_tid (threads pr) tid' (profile s);
  Ok (with_profile s p, with_threads pr threads', thread).
Definition put_thread (pr : Process) (tid' : Z) (thread : LinuxThread.Thread) : Process :=
  with_threads pr (ProcessThreads.set_thread (threads pr) tid' thread).
Definition sample_stack (s : Converter) (e : SampleRecord) (pr : Process) : res (Converter * list StackFrame) :=
  '(cache', stack) ← get_sample_stack e (unwinder pr) (cache s) (fold_recursive_prefix (options s))
                       (call_chain_return_addresses_are_preadjusted (options s));
  Ok (with_cache s cache', stack).
Definition convert_stack (s : Converter) (stack : list StackFrame) : Converter * Z :=
  let '(stacks, h) := UnresolvedStacks.convert (unresolved_stacks s) (reverse stack) in (with_stacks s stacks, h).
Definition with_samples (pr : Process) (u : UnresolvedSamples.UnresolvedSamples) : Process :=
  with_data pr u (marker_file_paths pr) (counter_file_paths pr) (mem_counter pr).
Definition running_thread (th : LinuxThread.Thread) (d : ContextSwitch.ThreadContextSwitchData)
    (last_sample : option Z) (off_cpu_stack' : option Z) : LinuxThread.Thread :=
  {| LinuxThread.profile_thread := LinuxThread.profile_thread th; LinuxThread.context_switch_data := d;
     LinuxThread.last_sample_timestamp := last_sample; LinuxThread.off_cpu_stack := off_cpu_stack';
     LinuxThread.name := LinuxThread.name th; LinuxThread.thread_label_frame := LinuxThread.thread_label_frame th |}.

(** ** Samples *)

(** The samples of an off-CPU group with the stack the thread went to sleep with. *)
Definition end_off_cpu (s : Converter) (group : option ContextSwitch.OffCpuSampleGroup)
    (d : ContextSwitch.ThreadContextSwitchData) (thread : LinuxThread.Thread)
    (samples : UnresolvedSamples.UnresolvedSamples)
    : ContextSwitch.ThreadContextSwitchData * UnresolvedSamples.UnresolvedSamples :=
  match group, LinuxThread.off_cpu_stack thread with
  | Some off_cpu_sample, Some off_cpu_stack' =>
      let '(d', cpu_delta_ns) := ContextSwitch.consume_cpu_delta d in
      (d', OffCpuSamples.process_off_cpu_sample_group off_cpu_sample (LinuxThread.profile_thread thread)
             cpu_delta_ns (timestamp_converter (options s)) (off_cpu_weight_per_sample (options s))
             off_cpu_stack' samples)
  | _, _ => (d, samples)
  end.
(** The CPU time since the last sample; without context switches [otherwise]. *)
Definition observed_delta (s : Converter) (d : ContextSwitch.ThreadContextSwitchData) (otherwise : Z)
    : ContextSwitch.ThreadContextSwitchData * CpuDelta :=
  match off_cpu_indicator (options s) with
  | Some _ => let '(d', ns) := ContextSwitch.consume_cpu_delta d in (d', CpuDelta_from_nanos ns)
  | None => (d, CpuDelta_from_nanos otherwise)
  end.
Definition handle_cpu_sample (s : Converter) (cpu_index t : Z) (stack_index : Z) (label : FrameInfo)
    (cs : PerCpu.Cpus) (samples : UnresolvedSamples.UnresolvedSamples)
    : res (Converter * UnresolvedSamples.UnresolvedSamples) :=
  let i := Z.to_nat cpu_index in
  let profile_timestamp := convert_time (timestamp_converter (options s)) t in
  '(cs', p, cpu') ← PerCpu.get_mut cs i (profile s);
  '(d, _) ← ContextSwitch.handle_on_cpu_sample (context_switch_handler (options s)) t
              (PerCpu.context_switch_data cpu');
  let '(d', cpu_delta) := observed_delta s d 0 in
  let samples1 :=
    UnresolvedSamples.add_sample samples (PerCpu.thread_handle cpu') profile_timestamp t stack_index
      cpu_delta 1 (Some label) in
  let samples2 :=
    UnresolvedSamples.add_sample samples1 (PerCpu.combined_thread_handle cs') profile_timestamp t
      stack_index CpuDelta_ZERO 1 (Some label) in
  Ok (with_cpus s p (PerCpu.set_cpu cs' i (PerCpu.with_switch_data cpu' d')), samples2).
(** What follows once the thread is known not to have a sample of that time. *)
Definition add_main_sample (s : Converter) (e : SampleRecord) (pid' tid' t : Z) (pr : Process)
    (thread : LinuxThread.Thread) (stack : list StackFrame) : res Converter :=
  '(d1, group) ← ContextSwitch.handle_on_cpu_sample (context_switch_handler (options s)) t
                   (LinuxThread.context_switch_data thread);
  let '(d2, samples1) := end_off_cpu s group d1 thread (unresolved_samples pr) in
  let '(d3, cpu_delta) := observed_delta s d2 (default 0 (period e)) in
  let '(s1, stack_index) := convert_stack s stack in
  let samples2 :=
    UnresolvedSamples.add_sample samples1 (LinuxThread.profile_thread thread)
      (convert_time (timestamp_converter (options s)) t) t stack_index cpu_delta 1 None in
  let pr' := put_thread pr tid' (running_thread thread d3 (Some t) None) in
  '(s2, samples3) ←
    match cpu e, cpus s1 with
    | Some cpu_index, Some cs =>
        handle_cpu_sample s1 cpu_index t stack_index (LinuxThread.thread_label_frame thread) cs samples2
    | _, _ => Ok (s1, samples2)
    end;
  Ok (put_process s2 pid' (with_samples pr' samples3)).
Definition handle_main_event_sample (s : Converter) (e : SampleRecord) : loops Converter :=
  pid' ← returned (unwrap (pid e));
  tid' ← returned (unwrap (tid e));
  if decide (tid' = 0) then returned (Ok s)
  else
    t ← returned (unwrap (timestamp e));
    '(s1, pr1) ← process_with_jitdump (with_sample_time s t) pid';
    '(s2, stack) ← returned (sample_stack s1 e pr1);
    '(s3, pr3, thread) ← returned (thread_by_tid s2 pr1 tid');
    returned (if decide (LinuxThread.last_sample_timestamp thread = Some t)
              then Ok (put_process s3 pid' pr3)
              else add_main_sample s3 e pid' tid' t pr3 thread stack).

(** A marker at time [t], with a stack that is resolved later. *)
Definition marker_with_stack (s : Converter) (handle : ThreadHandle) (t : Z) (marker : Marker) (stack_index : Z)
    (samples : UnresolvedSamples.UnresolvedSamples) : res (Converter * UnresolvedSamples.UnresolvedSamples) :=
  let time := convert_time (timestamp_converter (options s)) t in
  '(p, marker_handle) ← add_marker (profile s) handle (Schema.Instant time) marker;
  Ok (with_profile s p,
      UnresolvedSamples.attach_stack_to_marker samples handle time t stack_index marker_handle).
Definition sched_switch_markers (s : Converter) (cpu_index t : Z) (thread : LinuxThread.Thread)
    (stack : list StackFrame) (cs : PerCpu.Cpus) (samples : UnresolvedSamples.UnresolvedSamples)
    : res (Converter * UnresolvedSamples.UnresolvedSamples) :=
  let '(s1, stack_index) := convert_stack s stack in
  '(cs', p, cpu') ← PerCpu.get_mut cs (Z.to_nat cpu_index) (profile s1);
  '(s2, samples1) ← marker_with_stack (with_cpus s1 p cs') (PerCpu.thread_handle cpu') t
                      sched_switch_marker_on_cpu_track stack_index samples;
  marker_with_stack s2 (LinuxThread.profile_thread thread) t (sched_switch_marker_on_thread_track cpu_index)
    stack_index samples1.
Definition handle_sched_switch_sample (s : Converter) (e : SampleRecord) : loops Converter :=
  pid' ← returned (unwrap (pid e));
  tid' ← returned (unwrap (tid e));
  '(s1, pr1) ← process_with_jitdump s pid';
  '(s2, stack) ← returned (sample_stack s1 e pr1);
  let '(stacks, stack_index) := UnresolvedStacks.convert_no_kernel (unresolved_stacks s2) (reverse stack) in
  '(s3, pr3, thread) ← returned (thread_by_tid (with_stacks s2 stacks) pr1 tid');
  t ← returned (unwrap (timestamp e));
  let d :=
    if decide (off_cpu_indicator (options s) = Some SchedSwitchAndSamples)
    then ContextSwitch.handle_switch_out t (LinuxThread.context_switch_data thread)
    else LinuxThread.context_switch_data thread in
  let pr4 := put_thread pr3 tid' (running_thread thread d (LinuxThread.last_sample_timestamp thread) (Some stack_index)) in
  '(s4, samples) ← returned
    match cpu e, cpus s3 with
    | Some cpu_index, Some cs => sched_switch_markers s3 cpu_index t thread stack cs (unresolved_samples pr4)
    | _, _ => Ok (s3, unresolved_samples pr4)
    end;
  returned (Ok (put_process s4 pid' (with_samples pr4 samples))).

(** *** rss_stat *)
Definition prev_size (pr : Process) (member : Z) : option Z :=
  if member =? RssStat.MM_FILEPAGES then Some (prev_mm_filepages_size pr)
  else if member =? RssStat.MM_ANONPAGES then Some (prev_mm_anonpages_size pr)
  else if member =? RssStat.MM_SHMEMPAGES then Some (prev_mm_shmempages_size pr)
  else if member =? RssStat.MM_SWAPENTS then Some (prev_mm_swapents_size pr)
  else None.
Definition with_prev_size (pr : Process) (member size : Z) : Process :=
  {| profile_process := profile_process pr; unwinder := unwinder pr;
     jitdump_manager := jitdump_manager pr; lib_mapping_ops := lib_mapping_ops pr; name := name pr;
     threads := threads pr; LinuxProcess.pid := LinuxProcess.pid pr; unresolved_samples := unresolved_samples pr;
     jit_app_cache_mapping_ops := jit_app_cache_mapping_ops pr;
     jit_function_recycler := jit_function_recycler pr; marker_file_paths := marker_file_paths pr;
     counter_file_paths := counter_file_paths pr;
     prev_mm_filepages_size := if member =? RssStat.MM_FILEPAGES then size else prev_mm_filepages_size pr;
     prev_mm_anonpages_size := if member =? RssStat.MM_ANONPAGES then size else prev_mm_anonpages_size pr;
     prev_mm_swapents_size := if member =? RssStat.MM_SWAPENTS then size else prev_mm_swapents_size pr;
     prev_mm_shmempages_size := if member =? RssStat.MM_SHMEMPAGES then size else prev_mm_shmempages_size pr;
     mem_counter := mem_counter pr |}.
(** The names as the code has them: those of the last two are swapped. *)
Definition member_name (member : Z) : string :=
  if member =? RssStat.MM_FILEPAGES then "RSS Stat FILEPAGES"
  else if member =? RssStat.MM_ANONPAGES then "RSS Stat ANONPAGES"
  else if member =? RssStat.MM_SWAPENTS then "RSS Stat SHMEMPAGES"
  else "RSS Stat SWAPENTS".
(** Once the record has been read: the counter, the stack and the marker. *)
Definition add_rss_stat (s : Converter) (e : SampleRecord) (pid' t : Z) (pr : Process) (r : RssStat.RssStat)
    (delta : Z) : loops Converter :=
  let pr0 := with_prev_size pr (RssStat.member r) (RssStat.size r) in
  let time := convert_time (timestamp_converter (options s)) t in
  '(pr1, p1) ← returned
    (if RssStat.member r =? RssStat.MM_ANONPAGES then
       '(pr1, p, counter) ← get_or_make_mem_counter pr0 (profile s);
       p' ← add_counter_sample p counter time (f64_of_Z delta) 1;
       Ok (pr1, p')
     else Ok (pr0, profile s));
  '(files', pr2, manager, p2) ← check_jitdump (files s) (timestamp_converter (options s)) pr1
                                  (jit_category_manager s) p1;
  '(s1, stack) ← returned (sample_stack (with_jit s files' p2 manager) e pr2);
  let '(s2, stack_index) := convert_stack s1 stack in
  let '(p3, name') := intern_string (profile s2) (member_name (RssStat.member r)) in
  '(s3, samples) ← returned
    (marker_with_stack (with_profile s2 p3) (LinuxThread.profile_thread (ProcessThreads.main_thread (threads pr2))) t
       (rss_stat_marker name' (RssStat.size r) delta) stack_index (unresolved_samples pr2));
  returned (Ok (put_process s3 pid' (with_samples pr2 samples))).
Definition handle_rss_stat_sample (s : Converter) (e : SampleRecord) : loops Converter :=
  pid' ← returned (unwrap (pid e));
  '(s1, pr) ← returned (process_by_pid s pid');
  match raw e with
  | None => returned (Ok s1)
  | Some data =>
      match RssStat.parse data (little_endian (options s)), timestamp e with
      | Some r, Some t =>
          match prev_size pr (RssStat.member r) with
          | None => returned (Ok s1)
          | Some prev => add_rss_stat s1 e pid' t pr r (wrap_i64 (RssStat.size r - prev))
          end
      | _, _ => returned (Ok s1)
      end
  end.

(** *** Other events *)
Definition handle_other_event_sample (s : Converter) (e : SampleRecord) (attr_index : nat) : loops Converter :=
  pid' ← returned (unwrap (pid e));
  t ← returned (unwrap (timestamp e));
  '(s1, pr1) ← process_with_jitdump s pid';
  '(s2, stack) ← returned (sample_stack s1 e pr1);
  '(s3, pr3, handle) ← returned
    match tid e with
    | Some tid' =>
        '(s3, pr3, thread) ← thread_by_tid s2 pr1 tid';
        Ok (s3, pr3, LinuxThread.profile_thread thread)
    | None => Ok (s2, pr1, LinuxThread.profile_thread (ProcessThreads.main_thread (threads pr1)))
    end;
  let '(s4, stack_index) := convert_stack s3 stack in
  match event_names (options s) !! attr_index with
  | None => returned (Ok (put_process s4 pid' pr3))
  | Some event_name =>
      let '(p, name') := intern_string (profile s4) event_name in
      '(s5, samples) ← returned
        (marker_with_stack (with_profile s4 p) handle t (other_event_marker name') stack_index
           (unresolved_samples pr3));
      returned (Ok (put_process s5 pid' (with_samples pr3 samples)))
  end.

(** ** Mapped files *)
Definition after_last_slash (path : string) : string :=
  match RustStr.rsplit_once path "/" with Some (_, filename) => filename | None => path end.
(** The path as text, [None] if it is not UTF-8. *)
Definition check_jitdump_or_marker_file (s : Converter) (path : option string) (pid' tid' : Z)
    : res (Converter * bool) :=
  match path with
  | None => Ok (s, false)
  | Some path =>
      let filename := after_last_slash path in
      let dirs := aux_file_lookup_dirs (options s) in
      if RustStr.starts_with filename "jit-" && RustStr.ends_with filename ".dump" then
        '(s1, pr) ← process_by_pid s pid';
        '(s2, pr', thread) ← thread_by_tid s1 pr tid';
        Ok (put_process s2 pid' (LinuxProcess.with_jit pr'
              (JitDump.add_jitdump_path (jitdump_manager pr') (LinuxThread.profile_thread thread) path dirs)
              (jit_function_recycler pr')), true)
      else if RustStr.starts_with filename "marker-" && RustStr.ends_with filename ".txt" then
        '(s1, pr) ← process_by_pid s pid';
        '(s2, pr', handle) ←
          (if should_attach_markers_to_profiled_thread (options s) then
             '(s2, pr', thread) ← thread_by_tid s1 pr tid';
             Ok (s2, pr', LinuxThread.profile_thread thread)
           else Ok (s1, pr, LinuxThread.profile_thread (ProcessThreads.main_thread (threads pr))));
        Ok (put_process s2 pid' (add_marker_file_path pr' handle path dirs), true)
      else if RustStr.starts_with filename "counter-" && RustStr.ends_with filename ".json" then
        '(s1, pr) ← process_by_pid s pid';
        '(s2, pr', thread) ← thread_by_tid s1 pr tid';
        Ok (put_process s2 pid' (add_counter_file_path pr' (LinuxThread.profile_thread thread) path dirs), true)
      else Ok (s, false)
  end.
(** [path_text] is what [from_utf8_lossy] makes of the path. *)
Definition add_mmap_marker (s : Converter) (pid' tid' : Z) (path_text : string) (t : Z) : res Converter :=
  let c := timestamp_converter (options s) in
  if decide (current_sample_time s = reference_raw c) then Ok s
  else if RustStr.is_empty path_text then Ok s
  else
    '(s1, pr) ← process_by_pid s pid';
    '(s2, pr', thread) ← thread_by_tid s1 pr tid';
    let time := convert_time c (Z.max t (reference_raw c)) in
    let '(p, path) := intern_string (profile s2) path_text in
    '(p', _) ← add_marker p (LinuxThread.profile_thread thread) (Schema.Instant time) (mmap_marker path);
    Ok (put_process (with_profile s2 p') pid' pr').

(** ** Context switches *)
Inductive ContextSwitchRecord := In | Out (preempted : bool).
Record CommonData := { common_pid : option Z; common_tid : option Z; common_timestamp : option Z; common_cpu : option Z }.

(** Two samples that say the CPU was idle. *)
Definition idle_samples (s : Converter) (g : ContextSwitch.OffCpuSampleGroup) (cpu_delta_ns : Z)
    (handle : ThreadHandle) (label : FrameInfo) (samples : UnresolvedSamples.UnresolvedSamples)
    : UnresolvedSamples.UnresolvedSamples :=
  let c := timestamp_converter (options s) in
  let begin := ContextSwitch.begin_timestamp g in
  let end_ := ContextSwitch.end_timestamp g in
  UnresolvedSamples.add_sample
    (UnresolvedSamples.add_sample samples handle (convert_time c begin) begin UnresolvedStacks.EMPTY
       (CpuDelta_from_nanos cpu_delta_ns) 0 (Some label))
    handle (convert_time c end_) end_ UnresolvedStacks.EMPTY (CpuDelta_from_nanos 0) 0 (Some label).
Definition cpu_switch_in (s : Converter) (cpu_index tid' t : Z) (thread : LinuxThread.Thread) (cs : PerCpu.Cpus)
    (samples : UnresolvedSamples.UnresolvedSamples) : res (Converter * UnresolvedSamples.UnresolvedSamples) :=
  let i := Z.to_nat cpu_index in
  '(cs', p, cpu') ← PerCpu.get_mut cs i (profile s);
  '(d, group) ← ContextSwitch.handle_switch_in (context_switch_handler (options s)) t
                  (PerCpu.context_switch_data cpu');
  let '(d', samples') :=
    match group with
    | Some g =>
        let '(d', cpu_delta_ns) := ContextSwitch.consume_cpu_delta d in
        (d', idle_samples s g cpu_delta_ns (PerCpu.thread_handle cpu') (PerCpu.idle_frame_label cs) samples)
    | None => (d, samples)
    end in
  let cpu1 := PerCpu.with_switch_data cpu' d' in
  '(cpu2, p') ←
    (if should_emit_cswitch_markers (options s) then
       label ← LinuxThread.thread_label thread;
       PerCpu.notify_switch_in_for_marker cpu1 tid' label t (timestamp_converter (options s))
         [PerCpu.thread_handle cpu1; PerCpu.combined_thread_handle cs] p
     else Ok (cpu1, p));
  Ok (with_cpus s p' (PerCpu.set_cpu cs' i cpu2), samples').
Definition cpu_switch_out (s : Converter) (cpu_index tid' t : Z) (preempted : bool)
    (thread : LinuxThread.Thread) (cs : PerCpu.Cpus) : res Converter :=
  let i := Z.to_nat cpu_index in
  '(cs', p, cpu') ← PerCpu.get_mut cs i (profile s);
  let cpu1 := PerCpu.with_switch_data cpu' (ContextSwitch.handle_switch_out t (PerCpu.context_switch_data cpu')) in
  '(cpu2, p') ←
    (if should_emit_cswitch_markers (options s) then
       PerCpu.notify_switch_out_for_marker cpu1 tid' t (timestamp_converter (options s))
         [PerCpu.thread_handle cpu1; PerCpu.combined_thread_handle cs] (LinuxThread.profile_thread thread)
         preempted p
     else Ok (cpu1, p));
  Ok (with_cpus s p' (PerCpu.set_cpu cs' i cpu2)).
Definition switch_in (s : Converter) (pid' tid' t : Z) (cpu_index : option Z) (pr : Process)
    (thread : LinuxThread.Thread) : res Converter :=
  '(d1, group) ← ContextSwitch.handle_switch_in (context_switch_handler (options s)) t
                   (LinuxThread.context_switch_data thread);
  let '(d2, samples1) := end_off_cpu s group d1 thread (unresolved_samples pr) in
  let pr' := put_thread pr tid' (running_thread thread d2 (LinuxThread.last_sample_timestamp thread) None) in
  '(s', samples2) ←
    match cpus s, cpu_index with
    | Some cs, Some cpu_index => cpu_switch_in s cpu_index tid' t thread cs samples1
    | _, _ => Ok (s, samples1)
    end;
  Ok (put_process s' pid' (with_samples pr' samples2)).
(** The CPU is needed even if there are no tracks of CPUs. *)
Definition switch_out (s : Converter) (pid' tid' t : Z) (cpu_index : option Z) (preempted : bool) (pr : Process)
    (thread : LinuxThread.Thread) : res Converter :=
  let d := ContextSwitch.handle_switch_out t (LinuxThread.context_switch_data thread) in
  let pr' := put_thread pr tid' (running_thread thread d (LinuxThread.last_sample_timestamp thread)
                                   (LinuxThread.off_cpu_stack thread)) in
  cpu_index ← unwrap cpu_index;
  s' ← match cpus s with
       | Some cs => cpu_switch_out s cpu_index tid' t preempted thread cs
       | None => Ok s
       end;
  Ok (put_process s' pid' pr').
Definition handle_context_switch (s : Converter) (e : ContextSwitchRecord) (common : CommonData) : res Converter :=
  pid' ← unwrap (common_pid common);
  tid' ← unwrap (common_tid common);
  if decide (tid' = 0) then Ok s
  else
    t ← unwrap (common_timestamp common);
    '(s1, pr) ← process_by_pid s pid';
    '(s2, pr', thread) ← thread_by_tid s1 pr tid';
    match e with
    | In => switch_in s2 pid' tid' t (common_cpu common) pr' thread
    | Out preempted => switch_out s2 pid' tid' t (common_cpu common) preempted pr' thread
    end.

(** ** Processes and threads come and go *)
Record ForkOrExitRecord := { fe_pid : Z; fe_ppid : Z; fe_tid : Z; fe_ptid : Z; fe_timestamp : Z }.
(** [ce_name] is what [from_utf8_lossy] makes of the name. *)
Record CommOrExecRecord := { ce_pid : Z; ce_tid : Z; ce_is_execve : bool; ce_name : string }.

Definition handle_fork (s : Converter) (e : ForkOrExitRecord) : res Converter :=
  let start_time := convert_time (timestamp_converter (options s)) (fe_timestamp e) in
  '(s1, parent) ← process_by_pid s (fe_ppid e);
  if decide (fe_pid e = fe_ppid e) then
    '(s2, parent', parent_thread) ← thread_by_tid s1 parent (fe_ptid e);
    '(parent'', p) ← recycle_or_get_new_thread parent' (fe_tid e) (LinuxThread.name parent_thread) start_time
                       (profile s2);
    Ok (put_process (with_profile s2 p) (fe_ppid e) parent'')
  else
    '(ps, p) ← Processes.recycle_or_get_new (processes s1) (fe_pid e) (name parent) start_time (profile s1);
    child ← unwrap (Processes.processes_by_pid ps !! fe_pid e);
    Ok (put_process (with_recording s1 p ps) (fe_pid e)
          (adopt_fork_data_from_parent child (clone_fork_data parent))).
Definition remove_process (s : Converter) (pid' : Z) (time : Timestamp) : loops Converter :=
  '(files', manager, p, ps) ← Processes.remove (files s) (timestamp_converter (options s)) (processes s) pid' time
                                (jit_category_manager s) (profile s);
  returned (Ok (with_recording (with_jit s files' p manager) p ps)).
Definition remove_thread (s : Converter) (pid' tid' : Z) (time : Timestamp) : res Converter :=
  '(s1, pr) ← process_by_pid s pid';
  '(threads', p) ← ProcessThreads.remove_non_main_thread (threads pr) tid' time (profile s1);
  Ok (put_process (with_profile s1 p) pid' (with_threads pr threads')).
Definition handle_exit (s : Converter) (e : ForkOrExitRecord) : loops Converter :=
  let end_time := convert_time (timestamp_converter (options s)) (fe_timestamp e) in
  if decide (fe_pid e = fe_tid e) then remove_process s (fe_pid e) end_time
  else returned (remove_thread s (fe_pid e) (fe_tid e) end_time).

(** Records without a timestamp get the one of the last sample. *)
Definition record_time (s : Converter) (timestamp' : option Z) : Timestamp :=
  convert_time (timestamp_converter (options s))
    match timestamp' with
    | None => current_sample_time s
    | Some t => if t =? 0 then current_sample_time s else t
    end.
Definition recycle_or_get_new_process (s : Converter) (pid' : Z) (name' : string) (time : Timestamp) : res Converter :=
  '(ps, p) ← Processes.recycle_or_get_new (processes s) pid' (Some name') time (profile s);
  Ok (with_recording s p ps).
(** [shlex::try_join] is [try_join]. *)
Definition make_process_name (try_join : list string → option string) (executable : string) (args : list string)
    (arg_count_to_include : nat) : string :=
  match take arg_count_to_include (tail args) with
  | [] => executable
  | included => executable +:+ " " +:+ default "" (try_join included)
  end.
Definition handle_exec (try_join : list string → option string) (s : Converter) (e : CommOrExecRecord)
    (timestamp' : option Z) (exec_name_and_cmdline : option (string * list string)) : loops Converter :=
  let time := record_time s timestamp' in
  let name' :=
    match exec_name_and_cmdline with
    | Some (exec_name, args) =>
        make_process_name try_join exec_name args (arg_count_to_include_in_process_name (options s))
    | None => ce_name e
    end in
  if decide (ce_pid e = ce_tid e) then
    s1 ← remove_process s (ce_pid e) time;
    returned (recycle_or_get_new_process s1 (ce_pid e) name' time)
  else
    s1 ← returned (remove_thread s (ce_pid e) (ce_tid e) time);
    '(s2, pr) ← returned (process_by_pid s1 (ce_pid e));
    '(pr', p) ← returned (recycle_or_get_new_thread pr (ce_tid e) (Some name') time (profile s2));
    returned (Ok (put_process (with_profile s2 p) (ce_pid e) pr')).
Definition handle_thread_rename (s : Converter) (e : CommOrExecRecord) (timestamp' : option Z) : res Converter :=
  let time := record_time s timestamp' in
  if decide (ce_pid e = ce_tid e) then
    '(ps, p) ← Processes.rename_process (processes s) (ce_pid e) time (ce_name e) (profile s);
    Ok (with_recording s p ps)
  else
    '(s1, pr) ← process_by_pid s (ce_pid e);
    '(threads', p) ← ProcessThreads.rename_non_main_thread (threads pr) (ce_tid e) time (ce_name e) (profile s1);
    Ok (put_process (with_profile s1 p) (ce_pid e) (with_threads pr threads')).
(** The processes and threads that exist when a recording starts. *)
Definition register_existing_process (try_join : list string → option string) (s : Converter) (pid' : Z)
    (exe_name : string) (args : list string) : res Converter :=
  '(s1, pr) ← process_by_pid s pid';
  let name' := make_process_name try_join exe_name args (arg_count_to_include_in_process_name (options s)) in
  p1 ← set_process_name (profile s1) (profile_process pr) name';
  let pr' := with_identity pr (profile_process pr) (Some name') (threads pr) (jit_function_recycler pr) in
  let time := convert_time (timestamp_converter (options s)) (current_sample_time s) in
  p2 ← set_process_start_time p1 (profile_process pr) time;
  Ok (put_process (with_profile s1 p2) pid' pr').
Definition register_existing_thread (s : Converter) (pid' tid' : Z) (name' : string) : res Converter :=
  '(s1, pr) ← process_by_pid s pid';
  '(s2, pr', thread) ← thread_by_tid s1 pr tid';
  p1 ← set_thread_name (profile s2) (LinuxThread.profile_thread thread) name';
  let thread' := LinuxThread.with_name thread (Some name') in
  let time := convert_time (timestamp_converter (options s)) (current_sample_time s) in
  p2 ← set_thread_start_time p1 (LinuxThread.profile_thread thread) time;
  Ok (put_process (with_profile s2 p2) pid' (put_thread pr' tid' thread')).
Definition handle_comm (try_join : list string → option string) (s : Converter) (e : CommOrExecRecord)
    (timestamp' : option Z) : loops Converter :=
  if ce_is_execve e then handle_exec try_join s e timestamp' None
  else returned (handle_thread_rename s e timestamp').

(** ** The end, and names *)
Definition finish (s : Converter) : loops Profile :=
  p ← returned (SyntheticJitLibrary.finish_and_set_symbol_table (simpleperf_jit_app_cache_library s) (profile s));
  Processes.finish (files s) (timestamp_converter (options s)) (processes s) (unresolved_stacks s)
    (jit_category_manager s) p.
Definition set_profile_name (s : Converter) (profile_name : string) : Converter :=
  with_profile s (set_product (profile s) profile_name).
Definition set_os_name (s : Converter) (os_name' : string) : Converter :=
  with_profile s (Profile.set_os_name (profile s) os_name').
End converter.
End Converter.
