(* ===== verification/ConverterInvariant.v ===== *)
(** The invariant of a Linux recording, and that the pieces the event handlers of
    Converter.v are made of return and keep it. *)
From S2P Require Import Prelude RustStr BTree Types LibMappings Hierarchy StringTables LibTable Markers.
From S2P Require Import ThreadSafety ProfileModel ProfileSafety ProfileRuns RecorderMarkers ProfileCalls.
From S2P Require Import ContextSwitch UnresolvedSamples PathFiles MarkerFile Flush FlushMarkers Recycling.
From S2P Require Import JitCategories SyntheticJit PerfMap JitDump LinuxThreads LinuxProcess Processes PerCpu.
From S2P Require Import SampleStack Converter.
From stdpp Require Import options.
Open Scope Z_scope.

Module ConverterInvariant.
Import Profile ProfileCalls RecorderMarkers PathFiles LinuxProcess SampleStack Converter.

(** * Context switches never panic *)
Lemma handle_on_cpu_sample_Ok h t d :
  0 < ContextSwitch.off_cpu_sampling_interval_ns h → ∃ d' g, ContextSwitch.handle_on_cpu_sample h t d = Ok (d', g).
Proof.
  intros Hi. unfold ContextSwitch.handle_on_cpu_sample, ContextSwitch.maybe_consume_off_cpu, div_u64.
  destruct (ContextSwitch.state d); try by eexists _, _. simpl. destruct (_ <? _); [by eexists _, _|].
  destruct (Z.eqb_spec (ContextSwitch.off_cpu_sampling_interval_ns h) 0); [lia|by eexists _, _].
Qed.
Lemma handle_switch_in_Ok h t d :
  0 < ContextSwitch.off_cpu_sampling_interval_ns h → ∃ d' g, ContextSwitch.handle_switch_in h t d = Ok (d', g).
Proof. exact (handle_on_cpu_sample_Ok h t d). Qed.

(** * Writing to a thread of a process *)
Section set_thread.
Context {D : DebugIdType} (stack_ok : Z → Prop).
Import ProcessThreads.

Lemma set_thread_handles t tid th th' :
  thread_at t tid = Some th → LinuxThread.profile_thread th' = LinuxThread.profile_thread th →
  handles (set_thread t tid th') ≡ₚ handles t.
Proof.
  unfold thread_at, set_thread. intros Hth Heq. destruct (decide _).
  - injection Hth as <-. unfold handles, live. simpl. by rewrite Heq.
  - by rewrite (handles_replace t tid th th' Hth), (handles_delete t tid th Hth), Heq.
Qed.
Lemma set_thread_ok p t tid th th' :
  threads_ok stack_ok p t → thread_at t tid = Some th → thread_ok stack_ok p th' →
  LinuxThread.profile_thread th' = LinuxThread.profile_thread th →
  step stack_ok 0 p t p (set_thread t tid th').
Proof.
  intros Ht Hth Hok Heq. apply (step_quiet stack_ok 0); try done.
  - apply changes_refl.
  - intros _. unfold set_thread. destruct (decide _); [|by apply insert_thread_ok]. destruct Ht. by split.
  - by rewrite (set_thread_handles t tid th th' Hth Heq).
  - unfold set_thread. by destruct (decide _).
  - unfold set_thread. by destruct (decide _).
  - unfold set_thread. by destruct (decide _).
Qed.
Lemma thread_at_ok p t tid th : threads_ok stack_ok p t → thread_at t tid = Some th → thread_ok stack_ok p th.
Proof.
  unfold thread_at. intros [] Hth. destruct (decide _); [by injection Hth as <-|by apply (others_ok0 tid)].
Qed.
Lemma set_thread_main t tid th th' :
  thread_at t tid = Some th → LinuxThread.name th' = LinuxThread.name th →
  LinuxThread.name (main_thread (set_thread t tid th')) = LinuxThread.name (main_thread t).
Proof. unfold thread_at, set_thread. destruct (decide _); [by intros [= <-]|done]. Qed.
End set_thread.

Section safety.
Context `{DebugIdOps} `{JitDumpReader} `{!TextFiles} `{U : Unwinding} `{DrainOrder}.
Context `{PerfConstants} `{!StackWalking}.
Context (R : reader → Prop) (B : nat).

(** * More stacks *)
Section more_stacks.
Context (stacks stacks' : UnresolvedStacks.UnresolvedStacks).
Context (Hpre : UnresolvedStacks.stacks stacks `prefix_of` UnresolvedStacks.stacks stacks').

Lemma stack_ok_more h : stack_ok stacks h → stack_ok stacks' h.
Proof using Hpre. intros [l Hl]. exists l. by eapply UnresolvedStacks.leads_to_mono. Qed.
Lemma thread_ok_more p th :
  ProcessThreads.thread_ok (stack_ok stacks) p th → ProcessThreads.thread_ok (stack_ok stacks') p th.
Proof using Hpre. intros []. split; try done. intros s Hs. by apply stack_ok_more, thread_stack_ok. Qed.
Lemma threads_ok_more p t :
  ProcessThreads.threads_ok (stack_ok stacks) p t → ProcessThreads.threads_ok (stack_ok stacks') p t.
Proof using Hpre.
  intros []. split; try done; [by apply thread_ok_more|]. intros tid th Hth. by apply thread_ok_more, (others_ok tid).
Qed.
Lemma sample_valid_more p s : Flush.sample_valid p stacks s → Flush.sample_valid p stacks' s.
Proof using Hpre. intros (Hs & ? & ?). split_and!; [by apply stack_ok_more|done|done]. Qed.
Lemma samples_ok_more p u : samples_ok stacks p u → samples_ok stacks' p u.
Proof using Hpre. intros Hu. eapply Forall_impl; [exact Hu|]. intros s. apply sample_valid_more. Qed.
Lemma process_ok_more p pr : process_ok R stacks p pr → process_ok R stacks' p pr.
Proof using Hpre. intros []. split; try done; [by apply threads_ok_more|by apply samples_ok_more]. Qed.
Lemma processes_ok_more p ps :
  UnresolvedStacks.wf stacks → UnresolvedStacks.wf stacks' →
  Processes.processes_ok R stacks p ps → Processes.processes_ok R stacks' p ps.
Proof using Hpre.
  intros Hwf Hwf' []. split; try done.
  - intros pid pr Hpr. destruct (processes_alive pid pr Hpr). split; [by apply process_ok_more|done..].
  - eapply Forall_impl; [exact processes_data|]. intros d []. split; try done. intros _.
    destruct (data_flush0 Hwf). split; try done. eapply Forall_impl; [exact data_samples|].
    intros s. apply sample_valid_more.
Qed.
End more_stacks.

(** * Invariant *)
Context (o : Options).
(** The library of JIT functions found by simpleperf, and its category. *)
Definition library_info_ok (p : Profile) (lib : SyntheticJitLibrary.SyntheticJitLibrary) : Prop :=
  PerfMap.info_valid p (Hierarchy.new_java_mapping (SyntheticJitLibrary.lib_handle lib)
                          (Some (SyntheticJitLibrary.default_category lib))).
Record converter_ok (s : Converter) : Prop := {
  converter_options : options s = o;
  converter_stacks : UnresolvedStacks.wf (unresolved_stacks s);
  converter_processes : Processes.processes_ok R (unresolved_stacks s) (profile s) (processes s);
  converter_recording : recording (profile s);
  converter_jit : JitCategories.wf (jit_category_manager s) (profile s);
  converter_cpus : ∀ cs, cpus s = Some cs → PerCpu.cpus_ok (profile s) cs;
  converter_library : library_info_ok (profile s) (simpleperf_jit_app_cache_library s)
}.
Definition num_stacks (s : Converter) : nat := length (UnresolvedStacks.stacks (unresolved_stacks s)).
(** How many tracks there are for CPUs. *)
Definition num_cpus (s : Converter) : option nat := length ∘ PerCpu.cpus <$> cpus s.
(** The later state has the tracks of the earlier one. *)
Definition cpus_kept (s s' : Converter) : Prop :=
  match num_cpus s, num_cpus s' with
  | Some n, Some n' => (n ≤ n')%nat
  | None, None => True
  | _, _ => False
  end.
#[global] Instance cpus_kept_preorder : PreOrder cpus_kept.
Proof.
  unfold cpus_kept. split; [intros s; by destruct (num_cpus s)|]. intros s1 s2 s3.
  destruct (num_cpus s1), (num_cpus s2), (num_cpus s3); try done. lia.
Qed.
Lemma cpus_same s s' : cpus s' = cpus s → cpus_kept s s'.
Proof. unfold cpus_kept, num_cpus. intros ->. destruct (cpus s); simpl; [lia|done]. Qed.
(** What a handler does, with [k] growth of the profile and [m] new stack nodes. *)
Record step (k m : nat) (s s' : Converter) : Prop := {
  step_calls : changes k (profile s) (profile s');
  step_ok : converter_ok s';
  step_stacks : UnresolvedStacks.stacks (unresolved_stacks s) `prefix_of` UnresolvedStacks.stacks (unresolved_stacks s');
  step_num_stacks : (num_stacks s' ≤ num_stacks s + m)%nat;
  step_cpus : cpus_kept s s'
}.
(** There is room in the profile and the stacks. *)
Definition room (k m : nat) (s : Converter) : Prop :=
  (∃ n, ProfileRuns.wf n (profile s) ∧ Z.of_nat (n + k) < 2 ^ 32) ∧
  Z.of_nat (num_stacks s + m) < UnresolvedStacks.EMPTY.

Lemma step_evolves k m s s' : step k m s s' → evolves (profile s) (profile s').
Proof. intros []. by eapply changes_evolves. Qed.
Lemma converter_step_trans k m k' m' s s1 s2 : step k m s s1 → step k' m' s1 s2 → step (k + k') (m + m') s s2.
Proof. intros [] []. split; [by eapply changes_trans|done|by etrans|lia|by etrans]. Qed.
Lemma converter_step_weaken k m k' m' s s' : (k ≤ k')%nat → (m ≤ m')%nat → step k m s s' → step k' m' s s'.
Proof. intros ? ? []. split; [by eapply changes_weaken|done..|lia|done]. Qed.
Lemma converter_step_refl k m s : converter_ok s → step k m s s.
Proof. split; [apply changes_refl|done|done|lia|by apply cpus_same]. Qed.
Lemma room_step k m k' m' s s' : room (k + k') (m + m') s → step k m s s' → room k' m' s'.
Proof.
  intros [(n & Hwf & Hn) Hm] []. split; [|lia]. exists (n + k)%nat. split; [|lia].
  apply (changes_wf _ _ (profile s)); [done|done|lia].
Qed.
Lemma room_weaken k m k' m' s : (k' ≤ k)%nat → (m' ≤ m)%nat → room k m s → room k' m' s.
Proof. intros ? ? [(n & Hwf & Hn) Hm]. split; [exists n; split; [done|lia]|lia]. Qed.

(** ** Changes of one member *)

(** The profile gets more, and keeps the names it has. *)
Lemma changed_profile_ok p' s :
  converter_ok s → evolves (profile s) p' → PerCpu.names_kept (profile s) p' → converter_ok (with_profile s p').
Proof.
  intros [] He [Hn Hp]. split; try done; simpl.
  - eapply Processes.processes_ok_frame; [done|..|done].
    + intros h name _ Hh. by eapply prefix_lookup_Some.
    + intros h name _ Hh. by eapply prefix_lookup_Some.
  - by eapply recording_evolves.
  - by eapply JitCategories.wf_evolves.
  - intros cs Hcs. eapply PerCpu.cpus_ok_evolves; [done|by apply converter_cpus0].
  - by eapply PerfMap.info_valid_evolves.
Qed.
Lemma profile_step k s p' :
  converter_ok s → changes k (profile s) p' → PerCpu.names_kept (profile s) p' → step k 0 s (with_profile s p').
Proof.
  intros Hok Hch Hn. pose proof (changes_evolves _ _ _ Hch).
  split; [done|by apply changed_profile_ok|done|unfold num_stacks; simpl; lia|by apply cpus_same].
Qed.
Lemma quiet_step k s p' : converter_ok s → by_calls k (profile s) p' → step k 0 s (with_profile s p').
Proof.
  intros Hok Hby. apply profile_step; [done|by apply by_calls_changes|by eapply PerCpu.by_calls_names_kept].
Qed.
Lemma cpus_step k s p' cs cs' :
  converter_ok s → changes k (profile s) p' → PerCpu.names_kept (profile s) p' → cpus s = Some cs →
  PerCpu.cpus_ok p' cs' → (length (PerCpu.cpus cs) ≤ length (PerCpu.cpus cs'))%nat →
  step k 0 s (Converter.with_cpus s p' cs').
Proof.
  intros Hok Hch Hn Hcs Hcs' Hle. destruct (profile_step k s p' Hok Hch Hn) as [_ Hok' _ _ _].
  split; [done| |done|unfold num_stacks; simpl; lia|].
  - destruct Hok'. split; try done. by intros ? [= <-].
  - unfold cpus_kept, num_cpus. rewrite Hcs. done.
Qed.
Lemma stacks_step m s stacks' :
  converter_ok s → UnresolvedStacks.wf stacks' →
  UnresolvedStacks.stacks (unresolved_stacks s) `prefix_of` UnresolvedStacks.stacks stacks' →
  (length (UnresolvedStacks.stacks stacks') ≤ num_stacks s + m)%nat →
  step 0 m s (with_stacks s stacks').
Proof.
  intros Hok Hwf Hpre Hlen. split; [apply changes_refl| |done|done|by apply cpus_same]. destruct Hok.
  split; try done. simpl. by eapply processes_ok_more.
Qed.
Lemma processes_step k s files' manager' p ps :
  converter_ok s → Processes.step R (unresolved_stacks s) k (profile s) (processes s) p ps →
  JitCategories.wf manager' p → step k 0 s (with_recording (with_jit s files' p manager') p ps).
Proof.
  intros [] [Hch Hps _ _] Hm. pose proof (changes_evolves _ _ _ Hch) as He.
  split; [done| |done|unfold num_stacks; simpl; lia|by apply cpus_same]. split; try done; simpl.
  - by eapply recording_evolves.
  - intros cs Hcs. eapply PerCpu.cpus_ok_evolves; [done|by apply converter_cpus0].
  - by eapply PerfMap.info_valid_evolves.
Qed.
Lemma recording_step k s p ps :
  converter_ok s → Processes.step R (unresolved_stacks s) k (profile s) (processes s) p ps →
  step k 0 s (with_recording s p ps).
Proof.
  intros Hok Hst. apply (processes_step k s (files s) (jit_category_manager s)); [done..|].
  eapply JitCategories.wf_evolves; [|apply Hok]. eapply changes_evolves. apply Hst.
Qed.
Lemma cache_step s cache' : converter_ok s → step 0 0 s (with_cache s cache').
Proof.
  intros Hok. split; [apply changes_refl|by destruct Hok|done|unfold num_stacks; simpl; lia|by apply cpus_same].
Qed.
Lemma sample_time_step s t : converter_ok s → step 0 0 s (with_sample_time s t).
Proof.
  intros Hok. split; [apply changes_refl|by destruct Hok|done|unfold num_stacks; simpl; lia|by apply cpus_same].
Qed.

(** * A process in hand

    Handlers change a process they have taken out of the map, and write it back
    at the end: what is kept in between is the invariant of the state with the
    process written back. *)
Lemma put_put s pid' pr pr' : put_process (put_process s pid' pr) pid' pr' = put_process s pid' pr'.
Proof.
  unfold put_process, with_recording, Processes.set_process, Processes.with_processes. simpl.
  by rewrite insert_insert_eq.
Qed.
Lemma put_same s pid' pr : Processes.processes_by_pid (processes s) !! pid' = Some pr → put_process s pid' pr = s.
Proof.
  intros Hpr. unfold put_process, with_recording, Processes.set_process, Processes.with_processes.
  rewrite insert_id by done. destruct s as [? ? ? ? [] ? ? ? ? ?]. done.
Qed.
Lemma held_process s pid' pr :
  converter_ok (put_process s pid' pr) → process_ok R (unresolved_stacks s) (profile s) pr.
Proof.
  intros [_ _ Hps _ _ _ _]. apply (Processes.processes_alive _ _ _ _ Hps pid'). apply lookup_insert_eq.
Qed.
Lemma held_step k s pid' pr files' p' manager' pr' :
  converter_ok (put_process s pid' pr) →
  LinuxProcess.step R (unresolved_stacks s) k (profile s) pr p' pr' → JitCategories.wf manager' p' →
  step k 0 (put_process s pid' pr) (put_process (with_jit s files' p' manager') pid' pr').
Proof.
  intros Hok Hst Hm. pose proof Hok as []. simpl in *.
  pose proof (Processes.step_process R (unresolved_stacks s) k (profile s) _ pid' pr p' pr' converter_processes0
    (lookup_insert_eq _ _ _) Hst) as [Hch Hps _ _]. pose proof (changes_evolves _ _ _ Hch) as He.
  split; [done| |done|unfold num_stacks; simpl; lia|by apply cpus_same].
  split; try done; simpl.
  - unfold Processes.set_process, Processes.with_processes in *. simpl in *. by rewrite insert_insert_eq in Hps.
  - by eapply recording_evolves.
  - intros cs Hcs. eapply PerCpu.cpus_ok_evolves; [done|by apply converter_cpus0].
  - by eapply PerfMap.info_valid_evolves.
Qed.
Lemma held_profile_step k s pid' pr p' pr' :
  converter_ok (put_process s pid' pr) →
  LinuxProcess.step R (unresolved_stacks s) k (profile s) pr p' pr' →
  step k 0 (put_process s pid' pr) (put_process (with_profile s p') pid' pr').
Proof.
  intros Hok Hst. apply (held_step k s pid' pr (files s) p' (jit_category_manager s)); [done..|].
  destruct Hok. eapply JitCategories.wf_evolves; [|done]. eapply changes_evolves.
  by apply (LinuxProcess.step_changes _ _ _ _ _ _ _ Hst).
Qed.
Lemma held_same_step s pid' pr pr' :
  converter_ok (put_process s pid' pr) →
  LinuxProcess.step R (unresolved_stacks s) 0 (profile s) pr (profile s) pr' →
  step 0 0 (put_process s pid' pr) (put_process s pid' pr').
Proof. apply held_profile_step. Qed.

(** ** Taking a process *)
Definition jit_room_at (s : Converter) (pid' : Z) : nat :=
  from_option (jit_room B) 0%nat (Processes.processes_by_pid (processes s) !! pid').
Lemma new_process_jit_room ps pid' name time p ps' p' :
  Processes.add_new_process ps pid' name time p = Ok (ps', p') →
  ∃ pr, Processes.processes_by_pid ps' !! pid' = Some pr ∧ jit_room B pr = 0%nat.
Proof.
  unfold Processes.add_new_process. destruct (add_process _ _ _ _) as [p1 h].
  intros Heq. apply bind_Ok in Heq as ([p2 h2] & _ & Heq). apply bind_Ok in Heq as (p3 & _ & Heq).
  destruct (ProcessThreads.make_thread_label_frame _ _ _ _) as [p4 f].
  destruct (Processes.process_recycler ps); injection Heq as <- <-; eexists;
    (split; [apply lookup_insert_eq|]); unfold jit_room; simpl; lia.
Qed.
Lemma process_by_pid_ok s pid' :
  converter_ok s → room 1 0 s →
  ∃ s' pr, process_by_pid s pid' = Ok (s', pr) ∧ step 1 0 s s' ∧ put_process s' pid' pr = s' ∧
    jit_room B pr = jit_room_at s pid'.
Proof.
  intros Hok [(n & Hwf & Hn) Hm]. unfold process_by_pid, jit_room_at. pose proof Hok as [].
  destruct (Processes.get_by_pid_ok R (unresolved_stacks s) n (profile s) (processes s) pid')
    as (ps & p & Heq & Hst & [pr Hpr]); [done..|].
  rewrite Heq. cbn [mbind res_bind]. rewrite Hpr. cbn [unwrap mbind res_bind].
  eexists _, pr. split; [done|]. split; [by apply recording_step|]. split; [by apply put_same|].
  unfold Processes.get_by_pid in Heq.
  destruct (Processes.processes_by_pid (processes s) !! pid') as [pr'|] eqn:Hpr'; simpl.
  - injection Heq as <- <-. congruence.
  - apply new_process_jit_room in Heq as (pr' & Hpr'' & ?). congruence.
Qed.

(** ** Jitdump files, stacks and threads *)
Context (inputs : inputs_ok R B (timestamp_converter o)).
Context (F : nat) (frames_bounded : ∀ u pc regs c read, (length (iter_frames u pc regs c read).1.2 ≤ F)%nat).

Lemma process_with_jitdump_ok s pid' :
  converter_ok s → room (1 + jit_room_at s pid') 0 s →
  ∃ s' pr, process_with_jitdump s pid' = Some (Ok (s', pr)) ∧
    step (1 + jit_room_at s pid') 0 s (put_process s' pid' pr).
Proof using inputs.
  intros Hok Hroom. unfold process_with_jitdump.
  destruct (process_by_pid_ok s pid' Hok) as (s1 & pr & -> & Hst & Hput & Hjit).
  { eapply room_weaken; [| |exact Hroom]; lia. }
  cbn [returned mbind loops_bind]. rewrite <-Hjit in *.
  destruct (room_step 1 0 (jit_room B pr) 0 s s1 Hroom Hst) as [(n & Hwf & Hn) _].
  pose proof (step_ok _ _ _ _ Hst) as Hok1. rewrite <-Hput in Hok1. pose proof Hok1 as []. simpl in *.
  pose proof (held_process _ _ _ Hok1) as Hpr.
  assert (timestamp_converter (options s1) = timestamp_converter o) as -> by congruence.
  destruct (check_jitdump_ok R B _ inputs (unresolved_stacks s1) n (files s1) (profile s1) pr (jit_category_manager s1))
    as (files' & pr' & m' & p' & -> & Hst' & Hm' & _); [done..|].
  cbn [returned mbind loops_bind]. eexists _, pr'. split; [done|]. rewrite <-Hput in Hst.
  apply (converter_step_trans 1 0 _ 0 _ (put_process s1 pid' pr)); [done|]. by apply held_step.
Qed.

(** The most frames a sample can have. *)
Definition stack_room (e : SampleRecord) : nat := length (default [] (callchain e)) + F + 1.
Definition convertible (e : SampleRecord) : Prop := ∀ regs, user_regs e = Some regs → is_Ok (convert_regs regs).
Lemma chain_frames_length adjusted first mode chain :
  (length (chain_frames adjusted first mode chain) ≤ length chain)%nat.
Proof.
  revert first mode. induction chain as [|a chain IH]; intros first mode; simpl; [done|].
  destruct (_ <=? _); simpl; [pose proof (IH first (default mode (from_context_frame a)))|pose proof (IH false mode)]; lia.
Qed.
Lemma pop_repeated_length last_frame l : (length (pop_repeated last_frame l) ≤ length l)%nat.
Proof. induction l as [|x [|f l] IH]; simpl in *; [done|done|]. destruct (decide _); simpl; lia. Qed.
Lemma fold_base_length l : (length (fold_base l) ≤ length l)%nat.
Proof.
  unfold fold_base. rewrite <-(length_reverse l). destruct (reverse l) as [|f r]; [done|].
  rewrite length_reverse. apply pop_repeated_length.
Qed.
Lemma get_sample_stack_ok e u c fold adjusted :
  convertible e →
  ∃ cache' stack, get_sample_stack e u c fold adjusted = Ok (cache', stack) ∧ (length stack ≤ stack_room e)%nat.
Proof using frames_bounded.
  intros Hregs. unfold get_sample_stack, stack_room.
  set (chain := match callchain e with Some _ => _ | None => [] end).
  assert (length chain ≤ length (default [] (callchain e)))%nat as Hchain.
  { unfold chain. destruct (callchain e); simpl; [apply chain_frames_length|done]. }
  assert (∃ cache' stack,
      match user_regs e, user_stack e with
      | Some regs, Some words =>
          '(pc, sp, regs') ← convert_regs regs;
          let '(cache', frames, failed) := iter_frames u pc regs' c (read_stack words sp) in
          Ok (cache', chain ++ (unwound_frame <$> frames) ++ (if failed : bool then [SF_TruncatedStackMarker] else []))
      | _, _ => Ok (c, chain)
      end = Ok (cache', stack) ∧ (length stack ≤ length chain + F + 1)%nat) as (cache' & stack & -> & Hl).
  { destruct (user_regs e) as [regs|] eqn:Hr; [|eexists _, _; split; [done|lia]].
    destruct (user_stack e) as [words|]; [|eexists _, _; split; [done|lia]].
    destruct (Hregs regs Hr) as [[[pc sp] u'] ->]. cbn [mbind res_bind].
    pose proof (frames_bounded u pc u' c (read_stack words sp)).
    destruct (iter_frames _ _ _ _ _) as [[c' frames] failed]. eexists _, _. split; [done|].
    rewrite !length_app, length_fmap. simpl in *. destruct failed; simpl; lia. }
  cbn [mbind res_bind]. eexists cache', _. split; [done|].
  destruct stack as [|f l]; [destruct (ip e); simpl; lia|].
  pose proof (fold_base_length (f :: l)). destruct fold; lia.
Qed.
Lemma sample_stack_ok s e pr :
  convertible e →
  ∃ cache' stack, sample_stack s e pr = Ok (with_cache s cache', stack) ∧ (length stack ≤ stack_room e)%nat.
Proof using frames_bounded.
  intros Hregs. unfold sample_stack.
  destruct (get_sample_stack_ok e (unwinder pr) (cache s) (fold_recursive_prefix (options s))
    (call_chain_return_addresses_are_preadjusted (options s)) Hregs) as (cache' & stack & -> & Hl).
  by exists cache', stack.
Qed.

Lemma thread_by_tid_ok s pid' pr tid' :
  converter_ok (put_process s pid' pr) → room 1 0 s →
  ∃ s' pr' th, thread_by_tid s pr tid' = Ok (s', pr', th) ∧
    step 1 0 (put_process s pid' pr) (put_process s' pid' pr') ∧
    ProcessThreads.thread_at (threads pr') tid' = Some th.
Proof.
  intros Hok [(n & Hwf & Hn) _]. unfold thread_by_tid. pose proof (held_process _ _ _ Hok) as Hpr.
  pose proof Hok as []. simpl in *.
  destruct (ProcessThreads.get_thread_by_tid_ok (stack_ok (unresolved_stacks s)) n (profile s) (threads pr) tid')
    as (t' & p' & th & Heq & Hst & Hat); [done..|apply Hpr|].
  rewrite Heq. cbn [mbind res_bind]. eexists _, _, th. split; [done|]. split; [|done].
  apply held_profile_step; [done|]. apply (on_threads R _ n); [done..|]. by eapply get_thread_by_tid_main.
Qed.
Lemma thread_known s pid' pr tid' th :
  converter_ok (put_process s pid' pr) → ProcessThreads.thread_at (threads pr) tid' = Some th →
  ProcessThreads.thread_ok (stack_ok (unresolved_stacks s)) (profile s) th.
Proof. intros Hok. eapply thread_at_ok. apply (held_process _ _ _ Hok). Qed.
Lemma main_thread_known s pid' pr :
  converter_ok (put_process s pid' pr) →
  ProcessThreads.thread_ok (stack_ok (unresolved_stacks s)) (profile s) (ProcessThreads.main_thread (threads pr)).
Proof. intros Hok. apply (process_threads _ _ _ _ (held_process _ _ _ Hok)). Qed.
(** New context switch data, sample times and off-CPU stacks. *)
Lemma put_thread_step s pid' pr tid' th d t st :
  converter_ok (put_process s pid' pr) → ProcessThreads.thread_at (threads pr) tid' = Some th →
  (∀ h, st = Some h → stack_ok (unresolved_stacks s) h) →
  step 0 0 (put_process s pid' pr) (put_process s pid' (put_thread pr tid' (running_thread th d t st))).
Proof.
  intros Hok Hat Hs. pose proof (held_process _ _ _ Hok) as Hpr. apply held_same_step; [done|].
  apply step_threads; [|done|by eapply set_thread_main].
  eapply set_thread_ok; [apply Hpr|done| |done]. destruct (thread_known _ _ _ _ _ Hok Hat). by split.
Qed.
End safety.
End ConverterInvariant.
