(* ===== verification/ConverterHandlers.v ===== *)
(** The event handlers of Converter.v return, and keep the invariant of
    ConverterInvariant.v. *)
From S2P Require Import Prelude RustStr BTree Types LibMappings Hierarchy StringTables LibTable Markers.
From S2P Require Import ThreadSafety ProfileModel ProfileSafety ProfileRuns RecorderMarkers ProfileCalls.
From S2P Require Import ContextSwitch UnresolvedSamples PathFiles MarkerFile Flush FlushMarkers Recycling.
From S2P Require Import JitCategories SyntheticJit PerfMap JitDump LinuxThreads LinuxProcess Processes PerCpu.
From S2P Require Import SampleStack Converter ConverterInvariant.
From stdpp Require Import options.
Open Scope Z_scope.

Module ConverterHandlers.
Import Profile ProfileCalls RecorderMarkers PathFiles LinuxProcess SampleStack Converter ConverterInvariant.

(** * Markers of a type with a schema *)
Section markers.
Context {D : DebugIdType}.

Lemma marker_type_registered p thread timing t name values p' h :
  add_marker p thread timing (static_marker t name values) = Ok (p', h) →
  is_Some (static_schema_marker_types p' !! UNIQUE_MARKER_TYPE_NAME t).
Proof.
  unfold add_marker. cbn [static_marker marker_type marker_name marker_category marker_fields].
  destruct (static_schema_marker_type p t) as [p1 i] eqn:Ht.
  assert (is_Some (static_schema_marker_types p1 !! UNIQUE_MARKER_TYPE_NAME t)) as Hs.
  { unfold static_schema_marker_type in Ht. destruct (static_schema_marker_types p !! _) eqn:E.
    - injection Ht as <- _. by rewrite E.
    - injection Ht as <- _. simpl. by rewrite lookup_insert_eq. }
  assert (∀ p2 n, match name with inl h => (p1, h) | inr s => intern_string p1 s end = (p2, n) →
    static_schema_marker_types p2 = static_schema_marker_types p1) as Hname.
  { intros p2 n. destruct name as [n'|s]; [by intros [= <- _]|]. unfold intern_string.
    destruct (StringTable.index_for_string _ s). by intros [= <- _]. }
  destruct (match name with inl h => (p1, h) | inr s => intern_string p1 s end) as [p2 n] eqn:Hn.
  rewrite <-(Hname p2 n eq_refl) in Hs. intros Heq. revert Hs.
  repeat match goal with
  | H : mbind _ _ = Ok _ |- _ => apply bind_Ok in H as (? & _ & H)
  | H : (let '(_, _) := ?x in _) = Ok _ |- _ => destruct x
  | H : match ?x with _ => _ end = Ok _ |- _ => destruct x
  end; by injection Heq as <- <-.
Qed.
(** Types of one name are one type once it is registered. *)
Lemma same_marker_type p thread timing t t' name values :
  UNIQUE_MARKER_TYPE_NAME t = UNIQUE_MARKER_TYPE_NAME t' →
  is_Some (static_schema_marker_types p !! UNIQUE_MARKER_TYPE_NAME t) →
  add_marker p thread timing (static_marker t name values) = add_marker p thread timing (static_marker t' name values).
Proof.
  intros Heq [h Hh]. unfold add_marker. cbn [static_marker marker_type marker_name marker_category marker_fields].
  unfold static_schema_marker_type. rewrite <-Heq, Hh. done.
Qed.
End markers.

Section handlers.
Context `{DebugIdOps} `{JitDumpReader} `{!TextFiles} `{U : Unwinding} `{DrainOrder}.
Context `{PerfConstants} `{!StackWalking}.
Context (R : reader → Prop) (B : nat) (o : Options) (inputs : inputs_ok R B (timestamp_converter o)).
Context (F : nat) (frames_bounded : ∀ u pc regs c read, (length (iter_frames u pc regs c read).1.2 ≤ F)%nat).
Context (interval_pos : 0 < ContextSwitch.off_cpu_sampling_interval_ns (context_switch_handler o)).
Notation converter_ok := (ConverterInvariant.converter_ok R o).
Notation step := (ConverterInvariant.step R o).
Notation known p h := (FlushMarkers.known_string p h).
(** What is known of the stacks and samples a handler has in hand. *)
Notation stack_known s h := (stack_ok (unresolved_stacks s) h).
Notation samples_known s u := (samples_ok (unresolved_stacks s) (profile s) u).
Notation in_profile s thread := (thread < length (Profile.threads (profile s)))%nat.

(** * Stacks *)
Lemma convert_frames s frames :
  UnresolvedStacks.wf (unresolved_stacks s) → Z.of_nat (num_stacks s + length frames) < UnresolvedStacks.EMPTY →
  let '(stacks', h) := UnresolvedStacks.convert (unresolved_stacks s) frames in
  UnresolvedStacks.wf stacks' ∧
  UnresolvedStacks.stacks (unresolved_stacks s) `prefix_of` UnresolvedStacks.stacks stacks' ∧
  (length (UnresolvedStacks.stacks stacks') ≤ num_stacks s + length frames)%nat ∧ stack_ok stacks' h.
Proof.
  intros Hwf Hn.
  pose proof (UnresolvedStacks.convert_with_prefix_spec frames (unresolved_stacks s) UnresolvedStacks.EMPTY [] Hwf
    ltac:(constructor) Hn) as Hc.
  unfold UnresolvedStacks.convert. destruct (UnresolvedStacks.convert_with_prefix _ _ _) as [stacks' h].
  destruct Hc as (? & ? & ? & ?). split_and!; [done..|]. by eexists.
Qed.
Lemma convert_stack_ok s pid' pr stack :
  converter_ok (put_process s pid' pr) → room 0 (length stack) s →
  let '(s', h) := convert_stack s stack in
  step 0 (length stack) (put_process s pid' pr) (put_process s' pid' pr) ∧ stack_known s' h.
Proof.
  intros Hok [_ Hn]. pose proof (convert_frames s (reverse stack)) as Hc. unfold convert_stack.
  rewrite length_reverse in Hc. destruct (UnresolvedStacks.convert _ _) as [stacks' h].
  destruct Hc as (Hwf & Hpre & Hlen & Hs); [apply Hok|done|]. split; [|done].
  by apply (stacks_step R o _ (put_process s pid' pr)).
Qed.
Lemma convert_no_kernel_ok s pid' pr stack :
  converter_ok (put_process s pid' pr) → room 0 (length stack) s →
  let '(stacks', h) := UnresolvedStacks.convert_no_kernel (unresolved_stacks s) (reverse stack) in
  step 0 (length stack) (put_process s pid' pr) (put_process (with_stacks s stacks') pid' pr) ∧ stack_ok stacks' h.
Proof.
  intros Hok [_ Hn]. unfold UnresolvedStacks.convert_no_kernel.
  rewrite UnresolvedStacks.convert_no_kernel_from_filter.
  pose proof (length_filter UnresolvedStacks.not_kernel (reverse stack)) as Hf. rewrite length_reverse in Hf.
  pose proof (convert_frames s (filter UnresolvedStacks.not_kernel (reverse stack))) as Hc.
  unfold UnresolvedStacks.convert in Hc. destruct (UnresolvedStacks.convert_with_prefix _ _ _) as [stacks' h].
  destruct Hc as (Hwf & Hpre & Hlen & Hs); [apply Hok|lia|]. split; [|done].
  apply (stacks_step R o _ (put_process s pid' pr)); [done..|]. unfold num_stacks in *. simpl. lia.
Qed.
Lemma stack_known_step k m s s' h : step k m s s' → stack_known s h → stack_known s' h.
Proof. intros Hst. apply stack_ok_more. apply (step_stacks _ _ _ _ _ _ Hst). Qed.

(** * Samples *)
Lemma samples_known_step k m s s' u : step k m s s' → samples_known s u → samples_known s' u.
Proof.
  intros Hst Hu. apply (samples_ok_more (unresolved_stacks s)); [apply (step_stacks _ _ _ _ _ _ Hst)|].
  eapply samples_ok_evolves; [by eapply step_evolves|done].
Qed.
Lemma in_profile_step k m s s' h : step k m s s' → in_profile s h → in_profile s' h.
Proof. intros Hst. pose proof (evolves_threads _ _ (step_evolves _ _ _ _ _ _ Hst)). lia. Qed.
Lemma buffer_sample_ok s u thread time t h d w label :
  samples_known s u → in_profile s thread → stack_known s h →
  ProfileRuns.frames_valid (profile s) (option_list label) →
  samples_known s (UnresolvedSamples.add_sample u thread time t h d w label).
Proof.
  intros Hu [th Hth]%lookup_lt_is_Some_2 Hh Hl. apply Forall_app. split; [done|]. apply Forall_singleton.
  split_and!; [done|done|by exists th].
Qed.
Lemma no_label s : ProfileRuns.frames_valid (profile s) (option_list None).
Proof. constructor. Qed.
Lemma end_off_cpu_ok s g d thread u :
  ProcessThreads.thread_ok (stack_ok (unresolved_stacks s)) (profile s) thread → samples_known s u →
  samples_known s (end_off_cpu s g d thread u).2.
Proof.
  intros [Hh _ _ Hs] Hu. unfold end_off_cpu. destruct g as [g|]; [|done].
  destruct (LinuxThread.off_cpu_stack thread) as [h|] eqn:Ho; [|done].
  destruct (ContextSwitch.consume_cpu_delta d) as [d' ns]. simpl.
  unfold OffCpuSamples.process_off_cpu_sample_group. destruct g as [b e n].
  destruct (_ <? _); repeat (apply buffer_sample_ok; auto using no_label).
Qed.
Lemma samples_step s pid' pr u :
  converter_ok (put_process s pid' pr) → samples_known s u →
  step 0 0 (put_process s pid' pr) (put_process s pid' (with_samples pr u)).
Proof.
  intros Hok Hu. apply held_same_step; [done|]. apply with_samples_ok; [|done]. by eapply held_process.
Qed.

(** * Markers *)
Notation num_fields t := (length (Schema.ms_fields (schema t))).
Lemma marker_with_stack_ok s pid' pr thread t type name values h u :
  converter_ok (put_process s pid' pr) → room (2 + num_fields type) 0 s → type ∈ recorder_types →
  in_profile s thread → (∀ n, name = inl n → known (profile s) n) →
  (∀ i field, Schema.fields (Schema.from_schema (schema type)) !! i = Some field →
    MarkerTable.field_ok (string_table (profile s)) values i field) →
  stack_known s h → samples_known s u →
  ∃ s' u', marker_with_stack s thread t (static_marker type name values) h u = Ok (s', u') ∧
    step (2 + num_fields type) 0 (put_process s pid' pr) (put_process s' pid' pr) ∧
    samples_known s' u' ∧ cpus s' = cpus s ∧ options s' = options s ∧
    is_Some (static_schema_marker_types (profile s') !! UNIQUE_MARKER_TYPE_NAME type).
Proof.
  intros Hok [(n & Hwf & Hn) _] Htype Hth Hname Hfields Hh Hu. unfold marker_with_stack.
  set (timing := Schema.Instant _).
  destruct (PerCpu.recorder_marker_ok n (profile s) thread timing type name values)
    as (p' & m & th' & Heq & Hby & Hth' & Hm); [done|apply Hok|done|lia|done..|].
  rewrite Heq. cbn [mbind res_bind]. eexists _, _. split; [done|].
  pose proof (quiet_step R o _ (put_process s pid' pr) p' Hok Hby) as Hst.
  split; [exact Hst|]. split_and!; [|done|done|by eapply marker_type_registered].
  apply Forall_app. split.
  - exact (samples_known_step _ _ _ _ _ Hst Hu).
  - apply Forall_singleton. split_and!; [done|constructor|]. by exists th'.
Qed.

(** * CPUs *)

(** The threads to add before there is a track for a CPU. *)
Definition cpu_growth (s : Converter) (cpu : option Z) : nat :=
  match cpu, cpus s with Some c, Some cs => PerCpu.cpu_room cs (Z.to_nat c) | _, _ => 0 end.
Lemma cpu_growth_kept s s' cpu : cpus_kept s s' → (cpu_growth s' cpu ≤ cpu_growth s cpu)%nat.
Proof.
  unfold cpus_kept, num_cpus, cpu_growth, PerCpu.cpu_room.
  destruct (cpus s), (cpus s'), cpu; simpl; try done; lia.
Qed.
(** A CPU's track, and what the handlers may write to it. *)
Lemma cpu_track_ok s pid' pr cs i :
  converter_ok (put_process s pid' pr) → cpus s = Some cs → room (PerCpu.cpu_room cs i) 0 s →
  ∃ cs' p' x, PerCpu.get_mut cs i (profile s) = Ok (cs', p', x) ∧ PerCpu.cpu_ok p' x ∧ PerCpu.cpus_ok p' cs' ∧
    step (PerCpu.cpu_room cs i) 0 (put_process s pid' pr) (put_process (Converter.with_cpus s p' cs') pid' pr).
Proof.
  intros Hok Hcs [(n & Hwf & Hn) _]. pose proof (converter_cpus _ _ _ Hok cs Hcs) as Hcs'.
  destruct (PerCpu.get_mut_ok n (profile s) cs i Hwf Hn Hcs') as (cs' & p' & x & -> & Hch & Hok' & Hnames & Hx & _ & Hle).
  exists cs', p', x. split; [done|]. split; [done|]. split; [done|].
  by apply (cpus_step R o _ (put_process s pid' pr) p' cs).
Qed.
Lemma set_cpu_step k s pid' pr cs i p' x :
  converter_ok (put_process s pid' pr) → cpus s = Some cs → by_calls k (profile s) p' → PerCpu.cpu_ok p' x →
  step k 0 (put_process s pid' pr) (put_process (Converter.with_cpus s p' (PerCpu.set_cpu cs i x)) pid' pr).
Proof.
  intros Hok Hcs Hby Hx. apply (cpus_step R o k (put_process s pid' pr) p' cs); try done.
  - by apply by_calls_changes.
  - by eapply PerCpu.by_calls_names_kept.
  - apply PerCpu.set_cpu_ok; [|done]. eapply PerCpu.cpus_ok_evolves; [by eapply by_calls_evolves|].
    by apply (converter_cpus _ _ _ Hok).
  - unfold PerCpu.set_cpu. simpl. by rewrite length_insert.
Qed.
Lemma with_switch_data_ok p x d : PerCpu.cpu_ok p x → PerCpu.cpu_ok p (PerCpu.with_switch_data x d).
Proof. by intros []. Qed.

Lemma handle_cpu_sample_ok s pid' pr c t h label cs u :
  converter_ok (put_process s pid' pr) → cpus s = Some cs → room (cpu_growth s (Some c)) 0 s →
  stack_known s h → ProcessThreads.label_ok (profile s) label → samples_known s u →
  ∃ s' u', handle_cpu_sample s c t h label cs u = Ok (s', u') ∧
    step (cpu_growth s (Some c)) 0 (put_process s pid' pr) (put_process s' pid' pr) ∧ samples_known s' u'.
Proof using interval_pos.
  unfold cpu_growth. intros Hok Hcs. rewrite Hcs. intros Hroom Hh Hl Hu. unfold handle_cpu_sample.
  destruct (cpu_track_ok s pid' pr cs (Z.to_nat c) Hok Hcs Hroom) as (cs' & p' & x & -> & Hx & Hcs' & Hst).
  cbn [mbind res_bind]. rewrite (converter_options _ _ _ Hok : options s = o).
  destruct (handle_on_cpu_sample_Ok (context_switch_handler o) t (PerCpu.context_switch_data x) interval_pos)
    as (d & g & ->). cbn [mbind res_bind]. destruct (observed_delta s d 0) as [d' delta].
  pose proof (samples_known_step _ _ _ _ _ Hst Hu) as Hu1. pose proof (stack_known_step _ _ _ _ _ Hst Hh) as Hh1.
  pose proof (step_evolves _ _ _ _ _ _ Hst) as He. simpl in Hu1, Hh1, He.
  assert (ProfileRuns.frames_valid p' (option_list (Some label))) as Hl1.
  { apply (ProcessThreads.label_ok_evolves _ _ _ He) in Hl. apply Hl. }
  eexists _, _. split; [done|]. split.
  - eapply converter_step_weaken; [| |eapply converter_step_trans; [exact Hst|]].
    3: { apply (set_cpu_step 0 (Converter.with_cpus s p' cs') pid' pr cs' (Z.to_nat c) p'); [apply Hst|done|apply by_calls_refl|].
         by apply with_switch_data_ok. }
    all: simpl; lia.
  - apply (buffer_sample_ok (Converter.with_cpus s p' cs')); [|apply Hcs'|done|done].
    apply (buffer_sample_ok (Converter.with_cpus s p' cs')); [done|apply Hx|done|done].
Qed.

(** * The sampled event *)
Lemma with_no_cpu s pid' pr u :
  converter_ok (put_process s pid' pr) → samples_known s u →
  ∃ s' u', (Ok (s, u) : res (Converter * UnresolvedSamples.UnresolvedSamples)) = Ok (s', u') ∧
    step 0 0 (put_process s pid' pr) (put_process s' pid' pr) ∧ samples_known s' u'.
Proof. intros Hok Hu. exists s, u. split; [done|]. split; [by apply converter_step_refl|done]. Qed.
Lemma add_main_sample_ok s e pid' tid' t pr thread stack :
  converter_ok (put_process s pid' pr) → ProcessThreads.thread_at (threads pr) tid' = Some thread →
  room (cpu_growth s (cpu e)) (length stack) s →
  ∃ s', add_main_sample s e pid' tid' t pr thread stack = Ok s' ∧
    step (cpu_growth s (cpu e)) (length stack) (put_process s pid' pr) s'.
Proof using interval_pos.
  intros Hok Hat Hroom. unfold add_main_sample. rewrite (converter_options _ _ _ Hok : options s = o).
  destruct (handle_on_cpu_sample_Ok (context_switch_handler o) t (LinuxThread.context_switch_data thread) interval_pos)
    as (d1 & g & ->). cbn [mbind res_bind].
  pose proof (thread_known _ _ _ _ _ _ _ Hok Hat) as Hth.
  pose proof (end_off_cpu_ok s g d1 thread _ Hth (process_samples _ _ _ _ (held_process _ _ _ _ _ Hok))) as Hu.
  destruct (end_off_cpu s g d1 thread (unresolved_samples pr)) as [d2 u1]. simpl in Hu.
  destruct (observed_delta s d2 _) as [d3 delta].
  pose proof (convert_stack_ok s pid' pr stack Hok) as Hc. destruct (convert_stack s stack) as [s1 h].
  destruct Hc as [Hst1 Hh]; [eapply room_weaken; [| |exact Hroom]; lia|].
  set (u2 := UnresolvedSamples.add_sample _ _ _ _ _ _ _ _).
  assert (samples_known s1 u2) as Hu2.
  { apply buffer_sample_ok; [exact (samples_known_step _ _ _ _ _ Hst1 Hu)| |done|constructor].
    apply (in_profile_step _ _ _ _ _ Hst1). apply Hth. }
  set (pr' := put_thread _ _ _).
  assert (step 0 0 (put_process s1 pid' pr) (put_process s1 pid' pr')) as Hst2.
  { apply put_thread_step; [apply Hst1|done|done]. }
  pose proof (converter_step_trans _ _ _ _ _ _ _ _ _ Hst1 Hst2) as Hst. simpl in Hst. rewrite Nat.add_0_r in Hst.
  assert (cpu_growth s1 (cpu e) ≤ cpu_growth s (cpu e))%nat as Hgrow
    by exact (cpu_growth_kept _ _ (cpu e) (step_cpus _ _ _ _ _ _ Hst1)).
  assert (room (cpu_growth s1 (cpu e)) 0 s1) as Hroom1.
  { refine (room_step R o 0 (length stack) _ 0 _ _ _ Hst1). eapply room_weaken; [| |exact Hroom]; lia. }
  assert (∃ s2 u3, match cpu e, cpus s1 with
      | Some cpu_index, Some cs => handle_cpu_sample s1 cpu_index t h (LinuxThread.thread_label_frame thread) cs u2
      | _, _ => Ok (s1, u2)
      end = Ok (s2, u3) ∧
      step (cpu_growth s1 (cpu e)) 0 (put_process s1 pid' pr') (put_process s2 pid' pr') ∧ samples_known s2 u3)
    as (s2 & u3 & -> & Hst3 & Hu3).
  { destruct (cpu e) as [c|]; [|apply with_no_cpu; [apply Hst2|done]].
    destruct (cpus s1) as [cs|] eqn:Hcs.
    - apply handle_cpu_sample_ok; [apply Hst2|done|done|done| |done].
      eapply ProcessThreads.label_ok_evolves; [exact (step_evolves _ _ _ _ _ _ Hst1)|apply Hth].
    - unfold cpu_growth. rewrite Hcs. apply with_no_cpu; [apply Hst2|done]. }
  cbn [mbind res_bind]. eexists. split; [done|].
  pose proof (converter_step_trans _ _ _ _ _ _ _ _ _ Hst Hst3) as Hst4.
  pose proof (samples_step s2 pid' pr' u3 (step_ok _ _ _ _ _ _ Hst3) Hu3) as Hst5.
  eapply converter_step_weaken; [| |exact (converter_step_trans _ _ _ _ _ _ _ _ _ Hst4 Hst5)]; lia.
Qed.

(** What the handlers of samples start with. *)
Lemma process_and_stack_ok s e pid' :
  converter_ok s → convertible e → room (1 + jit_room_at B s pid') 0 s →
  ∃ s1 s2 pr stack, process_with_jitdump s pid' = Some (Ok (s1, pr)) ∧ sample_stack s1 e pr = Ok (s2, stack) ∧
    step (1 + jit_room_at B s pid') 0 s (put_process s2 pid' pr) ∧ (length stack ≤ stack_room F e)%nat.
Proof using inputs frames_bounded.
  intros Hok Hregs Hroom.
  destruct (process_with_jitdump_ok R B o inputs s pid' Hok Hroom) as (s1 & pr & Heq & Hst1).
  destruct (sample_stack_ok F frames_bounded s1 e pr Hregs) as (c & stack & Heq' & Hlen).
  exists s1, (with_cache s1 c), pr, stack. split; [done|]. split; [done|]. split; [|done].
  pose proof (cache_step R o (put_process s1 pid' pr) c (step_ok _ _ _ _ _ _ Hst1)) as Hst2.
  rewrite <-(Nat.add_0_r (1 + _)). exact (converter_step_trans _ _ _ _ _ _ _ _ _ Hst1 Hst2).
Qed.

(** Records without a process, thread or time panic, and so do registers that
    cannot be converted. *)
Definition sample_room (s : Converter) (e : SampleRecord) : nat :=
  2 + jit_room_at B s (default 0 (pid e)) + cpu_growth s (cpu e).
Lemma handle_main_event_sample_ok s e :
  converter_ok s → is_Some (pid e) → is_Some (tid e) → is_Some (timestamp e) → convertible e →
  room (sample_room s e) (stack_room F e) s →
  ∃ s', handle_main_event_sample s e = Some (Ok s') ∧ step (sample_room s e) (stack_room F e) s s'.
Proof using inputs frames_bounded interval_pos.
  intros Hok [pid' Hpid] [tid' Htid] [t Ht] Hregs. unfold sample_room, handle_main_event_sample.
  rewrite Hpid, Htid, Ht. cbn [from_option id unwrap returned mbind loops_bind]. intros Hroom.
  destruct (decide (tid' = 0)); [exists s; split; [done|by apply converter_step_refl]|].
  pose proof (sample_time_step R o s t Hok) as Hst0. set (s0 := with_sample_time s t) in *.
  assert (jit_room_at B s0 pid' = jit_room_at B s pid') as Hjit by done.
  destruct (process_and_stack_ok s0 e pid' (step_ok _ _ _ _ _ _ Hst0) Hregs) as (s1 & s2 & pr & stack & -> & Heq & Hst1 & Hlen).
  { rewrite Hjit. eapply room_weaken; [| |exact Hroom]; lia. }
  cbn [returned mbind loops_bind]. rewrite Heq. cbn [returned mbind loops_bind].
  pose proof (converter_step_trans _ _ _ _ _ _ _ _ _ Hst0 Hst1) as Hst01. rewrite Hjit in Hst01. simpl in Hst01.
  destruct (thread_by_tid_ok R o s2 pid' pr tid') as (s3 & pr3 & th & -> & Hst2 & Hat).
  { apply Hst1. }
  { refine (room_step R o _ 0 _ 0 _ _ _ Hst01). eapply room_weaken; [| |exact Hroom]; lia. }
  cbn [returned mbind loops_bind]. pose proof (converter_step_trans _ _ _ _ _ _ _ _ _ Hst01 Hst2) as Hst.
  destruct (decide _).
  - eexists. split; [done|]. eapply converter_step_weaken; [| |exact Hst]; simpl; lia.
  - assert (cpu_growth s3 (cpu e) ≤ cpu_growth s (cpu e))%nat as Hgrow
      by exact (cpu_growth_kept _ _ (cpu e) (step_cpus _ _ _ _ _ _ Hst)).
    destruct (add_main_sample_ok s3 e pid' tid' t pr3 th stack (step_ok _ _ _ _ _ _ Hst2) Hat) as (s' & -> & Hst').
    { refine (room_step R o _ 0 _ _ _ _ _ Hst). eapply room_weaken; [| |exact Hroom]; lia. }
    exists s'. split; [done|]. eapply converter_step_weaken; [| |exact (converter_step_trans _ _ _ _ _ _ _ _ _ Hst Hst')]; simpl; lia.
Qed.

(** * Scheduler switches

    The type of the marker on the thread's track has the name of the one on the
    CPU's, which is registered by then. *)
Lemma thread_track_marker s thread t c h u :
  is_Some (static_schema_marker_types (profile s) !! "sched_switch") →
  marker_with_stack s thread t (sched_switch_marker_on_thread_track c) h u =
  marker_with_stack s thread t
    (static_marker SchedSwitchMarkerOnCpuTrack (inr "sched_switch")
       {| Schema.string_field_value := λ _, Panic; Schema.number_field_value := λ _, Ok (f64_of_Z c) |}) h u.
Proof.
  intros Hreg. unfold marker_with_stack, sched_switch_marker_on_thread_track.
  by rewrite (same_marker_type _ _ _ SchedSwitchMarkerOnThreadTrack SchedSwitchMarkerOnCpuTrack).
Qed.
Lemma sched_switch_markers_ok s pid' pr c t thread stack cs u :
  converter_ok (put_process s pid' pr) → cpus s = Some cs →
  ProcessThreads.thread_ok (stack_ok (unresolved_stacks s)) (profile s) thread →
  room (cpu_growth s (Some c) + 4) (length stack) s → samples_known s u →
  ∃ s' u', sched_switch_markers s c t thread stack cs u = Ok (s', u') ∧
    step (cpu_growth s (Some c) + 4) (length stack) (put_process s pid' pr) (put_process s' pid' pr) ∧ samples_known s' u'.
Proof using inputs frames_bounded interval_pos.
  unfold cpu_growth. intros Hok Hcs. rewrite Hcs. intros Hth Hroom Hu. unfold sched_switch_markers.
  pose proof (convert_stack_ok s pid' pr stack Hok) as Hc. unfold convert_stack in *.
  destruct (UnresolvedStacks.convert _ _) as [stacks' h].
  destruct Hc as [Hst1 Hh]; [eapply room_weaken; [| |exact Hroom]; lia|]. set (s1 := with_stacks s stacks') in *.
  destruct (cpu_track_ok s1 pid' pr cs (Z.to_nat c) (step_ok _ _ _ _ _ _ Hst1) Hcs)
    as (cs' & p' & x & -> & Hx & _ & Hst2).
  { refine (room_step R o 0 _ _ 0 _ _ _ Hst1). eapply room_weaken; [| |exact Hroom]; lia. }
  cbn [mbind res_bind]. set (s2 := Converter.with_cpus s1 p' cs') in *.
  pose proof (converter_step_trans _ _ _ _ _ _ _ _ _ Hst1 Hst2) as Hst12. simpl in Hst12. rewrite Nat.add_0_r in Hst12.
  destruct (marker_with_stack_ok s2 pid' pr (PerCpu.thread_handle x) t SchedSwitchMarkerOnCpuTrack
    (inr "sched_switch") no_fields h u) as (s3 & u3 & Heq & Hst3 & Hu3 & _ & _ & Hreg); try done.
  { apply Hst2. }
  { refine (room_step R o _ _ 2 0 _ _ _ Hst12). eapply room_weaken; [| |exact Hroom]; lia. }
  { set_solver. }
  { apply Hx. }
  { exact (samples_known_step _ _ _ _ _ Hst12 Hu). }
  fold sched_switch_marker_on_cpu_track in Heq. rewrite Heq. cbn [mbind res_bind].
  pose proof (converter_step_trans _ _ _ _ _ _ _ _ _ Hst12 Hst3) as Hst123. rewrite Nat.add_0_r in Hst123.
  rewrite (thread_track_marker s3) by exact Hreg.
  destruct (marker_with_stack_ok s3 pid' pr (LinuxThread.profile_thread thread) t SchedSwitchMarkerOnCpuTrack
    (inr "sched_switch") {| Schema.string_field_value := λ _, Panic; Schema.number_field_value := λ _, Ok (f64_of_Z c) |}
    h u3) as (s4 & u4 & -> & Hst4 & Hu4 & _); try done.
  { apply Hst3. }
  { refine (room_step R o _ _ 2 0 _ _ _ Hst123). eapply room_weaken; [| |exact Hroom]; lia. }
  { set_solver. }
  { apply (in_profile_step _ _ _ _ _ Hst123), Hth. }
  { exact (stack_known_step _ _ _ _ _ Hst3 (stack_known_step _ _ _ _ _ Hst2 Hh)). }
  eexists s4, u4. split; [done|]. split; [|done].
  eapply converter_step_weaken; [| |exact (converter_step_trans _ _ _ _ _ _ _ _ _ Hst123 Hst4)]; simpl; lia.
Qed.
Definition switch_room (s : Converter) (e : SampleRecord) : nat :=
  6 + jit_room_at B s (default 0 (pid e)) + cpu_growth s (cpu e).
Lemma handle_sched_switch_sample_ok s e :
  converter_ok s → is_Some (pid e) → is_Some (tid e) → is_Some (timestamp e) → convertible e →
  room (switch_room s e) (2 * stack_room F e) s →
  ∃ s', handle_sched_switch_sample s e = Some (Ok s') ∧ step (switch_room s e) (2 * stack_room F e) s s'.
Proof using inputs frames_bounded interval_pos.
  intros Hok [pid' Hpid] [tid' Htid] [t Ht] Hregs. unfold switch_room, handle_sched_switch_sample.
  rewrite Hpid, Htid, Ht. cbn [from_option id unwrap returned mbind loops_bind]. intros Hroom.
  destruct (process_and_stack_ok s e pid' Hok Hregs) as (s1 & s2 & pr & stack & -> & Heq & Hst1 & Hlen).
  { eapply room_weaken; [| |exact Hroom]; lia. }
  cbn [returned mbind loops_bind]. rewrite Heq. cbn [returned mbind loops_bind].
  pose proof (convert_no_kernel_ok s2 pid' pr stack (step_ok _ _ _ _ _ _ Hst1)) as Hc.
  destruct (UnresolvedStacks.convert_no_kernel _ _) as [stacks' h]. destruct Hc as [Hst2 Hh].
  { refine (room_step R o _ 0 0 _ _ _ _ Hst1). eapply room_weaken; [| |exact Hroom]; lia. }
  pose proof (converter_step_trans _ _ _ _ _ _ _ _ _ Hst1 Hst2) as Hst12. simpl in Hst12.
  destruct (thread_by_tid_ok R o (with_stacks s2 stacks') pid' pr tid') as (s3 & pr3 & th & -> & Hst3 & Hat).
  { apply Hst2. }
  { refine (room_step R o _ _ 1 0 _ _ _ Hst12). eapply room_weaken; [| |exact Hroom]; lia. }
  cbn [returned mbind loops_bind]. pose proof (converter_step_trans _ _ _ _ _ _ _ _ _ Hst12 Hst3) as Hst.
  set (d := if decide _ then _ else _). set (pr4 := put_thread _ _ _).
  assert (stack_known s3 h) as Hh3 by exact (stack_known_step _ _ _ _ _ Hst3 Hh).
  assert (step 0 0 (put_process s3 pid' pr3) (put_process s3 pid' pr4)) as Hst4.
  { apply put_thread_step; [apply Hst3|done|]. by intros ? [= <-]. }
  pose proof (converter_step_trans _ _ _ _ _ _ _ _ _ Hst Hst4) as Hst5.
  pose proof (step_ok _ _ _ _ _ _ Hst4) as Hok4.
  pose proof (process_samples _ _ _ _ (held_process _ _ _ _ _ Hok4)) as Hu.
  assert (cpu_growth s3 (cpu e) ≤ cpu_growth s (cpu e))%nat as Hgrow
    by exact (cpu_growth_kept _ _ (cpu e) (step_cpus _ _ _ _ _ _ Hst)).
  assert (∃ s4 u, match cpu e, cpus s3 with
      | Some c, Some cs => sched_switch_markers s3 c t th stack cs (unresolved_samples pr4)
      | _, _ => Ok (s3, unresolved_samples pr4)
      end = Ok (s4, u) ∧ samples_known s4 u ∧
      step (cpu_growth s3 (cpu e) + 4) (length stack) (put_process s3 pid' pr4) (put_process s4 pid' pr4))
    as (s4 & u & -> & Hu4 & Hst6).
  { revert Hgrow Hroom. destruct (cpu e) as [c|]; intros Hgrow Hroom; [|exists s3, (unresolved_samples pr4); split; [done|]; split; [done|by apply converter_step_refl]].
    destruct (cpus s3) as [cs|] eqn:Hcs; [|exists s3, (unresolved_samples pr4); split; [done|]; split; [done|by apply converter_step_refl]].
    destruct (sched_switch_markers_ok s3 pid' pr4 c t th stack cs (unresolved_samples pr4)) as (s4 & u & -> & ? & ?);
      [done|done|exact (thread_known _ _ _ _ _ _ _ (step_ok _ _ _ _ _ _ Hst3) Hat)| |done|by exists s4, u].
    refine (room_step R o _ _ _ _ _ _ _ Hst5). eapply room_weaken; [| |exact Hroom]; lia. }
  cbn [returned mbind loops_bind]. eexists. split; [done|].
  pose proof (converter_step_trans _ _ _ _ _ _ _ _ _ Hst5 Hst6) as Hst7.
  pose proof (samples_step s4 pid' pr4 u (step_ok _ _ _ _ _ _ Hst6) Hu4) as Hst8.
  eapply converter_step_weaken; [| |exact (converter_step_trans _ _ _ _ _ _ _ _ _ Hst7 Hst8)]; simpl; lia.
Qed.

(** * Other events *)
Lemma intern_ok s pid' pr text :
  converter_ok (put_process s pid' pr) → room 1 0 s →
  let '(p, h) := intern_string (profile s) text in
  step 1 0 (put_process s pid' pr) (put_process (with_profile s p) pid' pr) ∧ known p h.
Proof.
  intros Hok [(n & Hwf & Hn) _]. destruct (intern_string (profile s) text) as [p h] eqn:Hi.
  destruct (intern_string_spec n (profile s) text p h Hwf Hn Hi) as [Hby Hget].
  split; [by apply (quiet_step R o 1 (put_process s pid' pr))|by eexists].
Qed.
Definition other_room (s : Converter) (e : SampleRecord) : nat := 5 + jit_room_at B s (default 0 (pid e)).
Lemma handle_other_event_sample_ok s e attr_index :
  converter_ok s → is_Some (pid e) → is_Some (timestamp e) → convertible e →
  room (other_room s e) (stack_room F e) s →
  ∃ s', handle_other_event_sample s e attr_index = Some (Ok s') ∧ step (other_room s e) (stack_room F e) s s'.
Proof using inputs frames_bounded interval_pos.
  intros Hok [pid' Hpid] [t Ht] Hregs. unfold other_room, handle_other_event_sample.
  rewrite Hpid, Ht. cbn [from_option id unwrap returned mbind loops_bind]. intros Hroom.
  destruct (process_and_stack_ok s e pid' Hok Hregs) as (s1 & s2 & pr & stack & -> & Heq & Hst1 & Hlen).
  { eapply room_weaken; [| |exact Hroom]; lia. }
  cbn [returned mbind loops_bind]. rewrite Heq. cbn [returned mbind loops_bind].
  assert (∃ s3 pr3 handle, match tid e with
      | Some tid' => '(s3, pr3, thread) ← thread_by_tid s2 pr tid'; Ok (s3, pr3, LinuxThread.profile_thread thread)
      | None => Ok (s2, pr, LinuxThread.profile_thread (ProcessThreads.main_thread (threads pr)))
      end = Ok (s3, pr3, handle) ∧ step 1 0 (put_process s2 pid' pr) (put_process s3 pid' pr3) ∧ in_profile s3 handle)
    as (s3 & pr3 & handle & -> & Hst2 & Hhandle).
  { destruct (tid e) as [tid'|].
    - destruct (thread_by_tid_ok R o s2 pid' pr tid') as (s3 & pr3 & th & -> & Hst2 & Hat); [apply Hst1| |].
      { refine (room_step R o _ _ 1 0 _ _ _ Hst1). eapply room_weaken; [| |exact Hroom]; lia. }
      eexists _, _, _. split; [done|]. split; [done|].
      apply (thread_known _ _ _ _ _ _ _ (step_ok _ _ _ _ _ _ Hst2) Hat).
    - eexists _, _, _. split; [done|]. split; [apply converter_step_refl, Hst1|].
      apply (main_thread_known _ _ _ _ _ (step_ok _ _ _ _ _ _ Hst1)). }
  cbn [returned mbind loops_bind]. pose proof (converter_step_trans _ _ _ _ _ _ _ _ _ Hst1 Hst2) as Hst12.
  pose proof (convert_stack_ok s3 pid' pr3 stack (step_ok _ _ _ _ _ _ Hst2)) as Hc.
  destruct (convert_stack s3 stack) as [s4 h]. destruct Hc as [Hst3 Hh].
  { refine (room_step R o _ _ 0 _ _ _ _ Hst12). eapply room_weaken; [| |exact Hroom]; lia. }
  pose proof (converter_step_trans _ _ _ _ _ _ _ _ _ Hst12 Hst3) as Hst123.
  destruct (event_names (options s) !! attr_index) as [event_name|].
  2: { eexists. split; [done|]. eapply converter_step_weaken; [| |exact Hst123]; lia. }
  pose proof (intern_ok s4 pid' pr3 event_name (step_ok _ _ _ _ _ _ Hst3)) as Hi.
  destruct (intern_string (profile s4) event_name) as [p name]. destruct Hi as [Hst4 Hname].
  { refine (room_step R o _ _ 1 0 _ _ _ Hst123). eapply room_weaken; [| |exact Hroom]; lia. }
  pose proof (converter_step_trans _ _ _ _ _ _ _ _ _ Hst123 Hst4) as Hst1234.
  destruct (marker_with_stack_ok (with_profile s4 p) pid' pr3 handle t OtherEventMarker (inl name) no_fields h
    (unresolved_samples pr3)) as (s5 & u & Heq5 & Hst5 & Hu & _).
  { apply Hst4. }
  { refine (room_step R o _ _ 2 0 _ _ _ Hst1234). eapply room_weaken; [| |exact Hroom]; lia. }
  { set_solver. }
  { apply (in_profile_step _ _ _ _ _ Hst4), (in_profile_step _ _ _ _ _ Hst3), Hhandle. }
  { by intros ? [= <-]. }
  { done. }
  { done. }
  { apply (process_samples _ _ _ _ (held_process _ _ _ _ _ (step_ok _ _ _ _ _ _ Hst4))). }
  fold (other_event_marker name) in Heq5. rewrite Heq5. cbn [returned mbind loops_bind]. eexists. split; [done|].
  pose proof (converter_step_trans _ _ _ _ _ _ _ _ _ Hst1234 Hst5) as Hst.
  pose proof (samples_step s5 pid' pr3 u (step_ok _ _ _ _ _ _ Hst5) Hu) as Hst6.
  eapply converter_step_weaken; [| |exact (converter_step_trans _ _ _ _ _ _ _ _ _ Hst Hst6)]; simpl; lia.
Qed.

(** * Memory: rss_stat *)
Lemma with_prev_size_step p stacks pr member size :
  process_ok R stacks p pr → LinuxProcess.step R stacks 0 p pr p (with_prev_size pr member size).
Proof. intros Hok. apply step_same; try done. by destruct Hok; split. Qed.
(** The counter of anonymous pages follows the record. *)
Lemma anon_counter_ok s pid' pr member time delta :
  converter_ok (put_process s pid' pr) → room 0 0 s →
  ∃ pr1 p1, (if member =? RssStat.MM_ANONPAGES then
       '(pr1, p, counter) ← get_or_make_mem_counter pr (profile s);
       p' ← add_counter_sample p counter time (f64_of_Z delta) 1;
       Ok (pr1, p')
     else Ok (pr, profile s)) = Ok (pr1, p1) ∧ jit_room B pr1 = jit_room B pr ∧
    step 0 0 (put_process s pid' pr) (put_process (with_profile s p1) pid' pr1).
Proof.
  intros Hok [(n & Hwf & Hn) _]. destruct (member =? _).
  2: { exists pr, (profile s). split; [done|]. split; [done|]. by apply (quiet_step R o 0 (put_process s pid' pr)), by_calls_refl. }
  destruct (get_or_make_mem_counter_ok R (unresolved_stacks s) n (profile s) pr) as (pr1 & p1 & h & Heq & Hst & Hh);
    [done|lia|by eapply held_process|].
  assert (jit_room B pr1 = jit_room B pr) as Hjit.
  { unfold get_or_make_mem_counter in Heq. destruct (mem_counter pr); [by injection Heq as <- _ _|].
    apply bind_Ok in Heq as ([? ?] & _ & Heq). by injection Heq as <- _ _. }
  rewrite Heq. cbn [mbind res_bind]. pose proof (held_profile_step R o 0 s pid' pr p1 pr1 Hok Hst) as Hst1.
  assert (ProfileRuns.wf n p1) as Hwf1.
  { rewrite <-(Nat.add_0_r n). apply (changes_wf _ _ (profile s)); [apply Hst|done|lia]. }
  set (call := ProfileRuns.AddCounterSample h time (f64_of_Z delta) 1).
  destruct (ProfileRuns.op_ok n call p1 Hwf1 Hh) as (p2 & Heq2 & _); [simpl; lia|].
  pose proof Heq2 as Heq2'. cbn [ProfileRuns.apply_op call] in Heq2'. rewrite Heq2'. cbn [mbind res_bind].
  exists pr1, p2. split; [done|]. split; [done|].
  pose proof (quiet_step R o 0 (put_process (with_profile s p1) pid' pr1) p2 (step_ok _ _ _ _ _ _ Hst1)) as Hst2.
  refine (converter_step_trans _ _ _ _ _ _ _ _ _ Hst1 (Hst2 _)). by apply (by_call 0 call).
Qed.
Lemma add_rss_stat_ok s e pid' t pr r delta :
  converter_ok (put_process s pid' pr) → convertible e → room (5 + jit_room B pr) (stack_room F e) s →
  ∃ s', add_rss_stat s e pid' t pr r delta = Some (Ok s') ∧
    step (5 + jit_room B pr) (stack_room F e) (put_process s pid' pr) s'.
Proof using inputs frames_bounded interval_pos.
  intros Hok Hregs Hroom. unfold add_rss_stat.
  pose proof (held_same_step R o s pid' pr (with_prev_size pr (RssStat.member r) (RssStat.size r)) Hok
    (with_prev_size_step _ _ _ _ _ (held_process _ _ _ _ _ Hok))) as Hst0.
  set (pr0 := with_prev_size _ _ _) in *. set (time := convert_time _ t).
  destruct (anon_counter_ok s pid' pr0 (RssStat.member r) time delta (step_ok _ _ _ _ _ _ Hst0))
    as (pr1 & p1 & -> & Hjit & Hst1); [eapply room_weaken; [| |exact Hroom]; lia|].
  assert (jit_room B pr1 = jit_room B pr) as Hjit1 by exact Hjit.
  cbn [returned mbind loops_bind]. pose proof (converter_step_trans _ _ _ _ _ _ _ _ _ Hst0 Hst1) as Hst01. simpl in Hst01.
  set (s1 := with_profile s p1) in *. pose proof (step_ok _ _ _ _ _ _ Hst1) as Hok1.
  destruct (room_step R o 0 0 (5 + jit_room B pr) (stack_room F e) (put_process s pid' pr) _ Hroom Hst01) as [(n & Hwf & Hn) _].
  pose proof Hok1 as []. simpl in *. rewrite converter_options0.
  destruct (check_jitdump_ok R B _ inputs (unresolved_stacks s) n (files s) p1 pr1 (jit_category_manager s))
    as (files' & pr2 & m' & p2 & -> & Hst' & Hm' & _); [done|done|exact (held_process _ _ _ _ _ Hok1)|done|lia|].
  cbn [returned mbind loops_bind].
  pose proof (held_step R o _ s1 pid' pr1 files' p2 m' pr2 Hok1 Hst' Hm') as Hst2.
  pose proof (converter_step_trans _ _ _ _ _ _ _ _ _ Hst01 Hst2) as Hst012. rewrite Hjit1 in Hst012. simpl in Hst012.
  destruct (sample_stack_ok F frames_bounded (with_jit s files' p2 m') e pr2 Hregs) as (c & stack & -> & Hlen).
  cbn [returned mbind loops_bind].
  set (s2 := with_cache (with_jit s files' p2 m') c).
  assert (step 0 0 (put_process (with_jit s files' p2 m') pid' pr2) (put_process s2 pid' pr2)) as Hst3
    by exact (cache_step R o _ c (step_ok _ _ _ _ _ _ Hst2)).
  pose proof (converter_step_trans _ _ _ _ _ _ _ _ _ Hst012 Hst3) as Hst0123.
  pose proof (convert_stack_ok s2 pid' pr2 stack (step_ok _ _ _ _ _ _ Hst3)) as Hc.
  destruct (convert_stack s2 stack) as [s3 h]. destruct Hc as [Hst4 Hh].
  { refine (room_step R o _ _ 0 _ _ _ _ Hst0123). eapply room_weaken; [| |exact Hroom]; lia. }
  pose proof (converter_step_trans _ _ _ _ _ _ _ _ _ Hst0123 Hst4) as Hst5.
  pose proof (intern_ok s3 pid' pr2 (member_name (RssStat.member r)) (step_ok _ _ _ _ _ _ Hst4)) as Hi.
  destruct (intern_string (profile s3) _) as [p3 name]. destruct Hi as [Hst6 Hname].
  { refine (room_step R o _ _ 1 0 _ _ _ Hst5). eapply room_weaken; [| |exact Hroom]; lia. }
  pose proof (converter_step_trans _ _ _ _ _ _ _ _ _ Hst5 Hst6) as Hst7. pose proof (step_ok _ _ _ _ _ _ Hst6) as Hok6.
  destruct (marker_with_stack_ok (with_profile s3 p3) pid' pr2
    (LinuxThread.profile_thread (ProcessThreads.main_thread (threads pr2))) t RssStatMarker (inl name)
    {| Schema.string_field_value := λ _, Panic;
       Schema.number_field_value := λ i,
         if i =? 0 then Ok (f64_of_Z (RssStat.size r))
         else if i =? 1 then Ok (f64_of_Z delta) else Panic |} h
    (unresolved_samples pr2)) as (s5 & u & Heq5 & Hst8 & Hu & _).
  { done. }
  { refine (room_step R o _ _ 4 0 _ _ _ Hst7). eapply room_weaken; [| |exact Hroom]; lia. }
  { set_solver. }
  { apply (main_thread_known _ _ _ _ _ Hok6). }
  { by intros ? [= <-]. }
  { intros [|[|[|i]]] field Hf; try done; injection Hf as <-; by eexists. }
  { exact (stack_known_step _ _ _ _ _ Hst6 Hh). }
  { apply (process_samples _ _ _ _ (held_process _ _ _ _ _ Hok6)). }
  fold (rss_stat_marker name (RssStat.size r) delta) in Heq5. rewrite Heq5. cbn [returned mbind loops_bind].
  eexists. split; [done|]. pose proof (converter_step_trans _ _ _ _ _ _ _ _ _ Hst7 Hst8) as Hst.
  pose proof (samples_step s5 pid' pr2 u (step_ok _ _ _ _ _ _ Hst8) Hu) as Hst9.
  eapply converter_step_weaken; [| |exact (converter_step_trans _ _ _ _ _ _ _ _ _ Hst Hst9)]; simpl; lia.
Qed.
Definition rss_room (s : Converter) (e : SampleRecord) : nat := 6 + jit_room_at B s (default 0 (pid e)).
Lemma handle_rss_stat_sample_ok s e :
  converter_ok s → is_Some (pid e) → convertible e → room (rss_room s e) (stack_room F e) s →
  ∃ s', handle_rss_stat_sample s e = Some (Ok s') ∧ step (rss_room s e) (stack_room F e) s s'.
Proof using inputs frames_bounded interval_pos.
  intros Hok [pid' Hpid] Hregs. unfold rss_room, handle_rss_stat_sample.
  rewrite Hpid. cbn [from_option id unwrap returned mbind loops_bind]. intros Hroom.
  destruct (process_by_pid_ok R B o s pid' Hok) as (s1 & pr & -> & Hst & Hput & Hjit).
  { eapply room_weaken; [| |exact Hroom]; lia. }
  cbn [returned mbind loops_bind].
  assert (step (6 + jit_room_at B s pid') (stack_room F e) s s1) as Hst' by (eapply converter_step_weaken; [| |exact Hst]; lia).
  destruct (raw e) as [data|]; [|by exists s1]. destruct (RssStat.parse data _) as [r|]; [|by exists s1].
  destruct (timestamp e) as [t|]; [|by exists s1]. destruct (prev_size pr _) as [prev|]; [|by exists s1].
  rewrite <-Hput in Hst.
  destruct (add_rss_stat_ok s1 e pid' t pr r (wrap_i64 (RssStat.size r - prev)) (step_ok _ _ _ _ _ _ Hst) Hregs)
    as (s2 & -> & Hst2).
  { rewrite Hjit. refine (room_step R o _ _ _ _ _ _ _ Hst). eapply room_weaken; [| |exact Hroom]; lia. }
  exists s2. split; [done|]. rewrite Hjit in Hst2.
  eapply converter_step_weaken; [| |exact (converter_step_trans _ _ _ _ _ _ _ _ _ Hst Hst2)]; lia.
Qed.
End handlers.
End ConverterHandlers.
