(* ===== verification/ConverterEvents.v ===== *)
(** The handlers of Converter.v for mapped files, context switches, and processes
    and threads that come and go return, and keep the invariant. *)
From S2P Require Import Prelude RustStr BTree Types LibMappings Hierarchy StringTables LibTable Markers.
From S2P Require Import ThreadSafety ProfileModel ProfileSafety ProfileRuns RecorderMarkers ProfileCalls.
From S2P Require Import ContextSwitch UnresolvedSamples PathFiles MarkerFile Flush FlushMarkers Recycling.
From S2P Require Import JitCategories SyntheticJit PerfMap JitDump LinuxThreads LinuxProcess Processes PerCpu.
From S2P Require Import SampleStack Converter ConverterInvariant ConverterHandlers.
From stdpp Require Import options.
Open Scope Z_scope.

Module ConverterEvents.
Import Profile ProfileCalls RecorderMarkers PathFiles LinuxProcess SampleStack Converter ConverterInvariant ConverterHandlers.

Section events.
Context `{DebugIdOps} `{JitDumpReader} `{!TextFiles} `{U : Unwinding} `{DrainOrder}.
Context `{PerfConstants} `{!StackWalking}.
Context (R : reader → Prop) (B : nat) (o : Options) (inputs : inputs_ok R B (timestamp_converter o)).
Context (interval_pos : 0 < ContextSwitch.off_cpu_sampling_interval_ns (context_switch_handler o)).
Notation converter_ok := (ConverterInvariant.converter_ok R o).
Notation step := (ConverterInvariant.step R o).
Notation known p h := (FlushMarkers.known_string p h).
Notation stack_known s h := (stack_ok (unresolved_stacks s) h).
Notation samples_known s u := (samples_ok (unresolved_stacks s) (profile s) u).

(** * Mapped files *)
Lemma process_thread_ok s pid' tid' :
  converter_ok s → room 2 0 s →
  ∃ s1 pr s2 pr' th, process_by_pid s pid' = Ok (s1, pr) ∧ thread_by_tid s1 pr tid' = Ok (s2, pr', th) ∧
    step 2 0 s (put_process s2 pid' pr') ∧ ProcessThreads.thread_at (threads pr') tid' = Some th.
Proof.
  intros Hok Hroom.
  destruct (process_by_pid_ok R 0 o s pid' Hok) as (s1 & pr & Heq & Hst1 & Hput & _).
  { eapply room_weaken; [| |exact Hroom]; lia. }
  rewrite <-Hput in Hst1.
  destruct (thread_by_tid_ok R o s1 pid' pr tid') as (s2 & pr' & th & Heq' & Hst2 & Hat); [apply Hst1| |].
  { exact (room_step R o 1 0 1 0 _ _ Hroom Hst1). }
  exists s1, pr, s2, pr', th. split_and!; [done|done| |done]. exact (converter_step_trans _ _ _ _ _ _ _ _ _ Hst1 Hst2).
Qed.
Lemma thread_in_profile s pid' pr tid' th :
  converter_ok (put_process s pid' pr) → ProcessThreads.thread_at (threads pr) tid' = Some th →
  (LinuxThread.profile_thread th < length (Profile.threads (profile s)))%nat.
Proof. intros Hok Hat. apply (thread_known _ _ _ _ _ _ _ Hok Hat). Qed.
Lemma check_jitdump_or_marker_file_ok s path pid' tid' :
  converter_ok s → room 2 0 s →
  ∃ s' b, check_jitdump_or_marker_file s path pid' tid' = Ok (s', b) ∧ step 2 0 s s'.
Proof.
  intros Hok Hroom. unfold check_jitdump_or_marker_file.
  assert (∃ s' b, (Ok (s, false) : res (Converter * bool)) = Ok (s', b) ∧ step 2 0 s s') as Hno.
  { exists s, false. split; [done|by apply converter_step_refl]. }
  destruct path as [path|]; [|done]. set (name := after_last_slash path).
  set (dirs := aux_file_lookup_dirs (options s)).
  destruct (process_thread_ok s pid' tid' Hok Hroom) as (s1 & pr & s2 & pr' & th & Hpr & Hth & Hst & Hat).
  pose proof (step_ok _ _ _ _ _ _ Hst) as Hok2. pose proof (held_process _ _ _ _ _ Hok2) as Hprok.
  pose proof (thread_in_profile _ _ _ _ _ Hok2 Hat) as Hlt.
  destruct (_ && _).
  { rewrite Hpr. cbn [mbind res_bind]. rewrite Hth. cbn [mbind res_bind]. eexists _, _. split; [done|].
    refine (converter_step_trans R o 2 0 0 0 _ _ _ Hst _). apply held_same_step; [done|]. by apply add_jitdump_path_ok. }
  destruct (_ && _).
  { destruct (process_by_pid_ok R 0 o s pid' Hok) as (s1' & pr1 & Hpr1 & Hst1 & Hput & _).
    { eapply room_weaken; [| |exact Hroom]; lia. }
    rewrite Hpr in Hpr1. injection Hpr1 as <- <-. rewrite Hpr. cbn [mbind res_bind].
    destruct (should_attach_markers_to_profiled_thread _).
    - rewrite Hth. cbn [mbind res_bind]. eexists _, _. split; [done|].
      refine (converter_step_trans R o 2 0 0 0 _ _ _ Hst _). apply held_same_step; [done|]. by apply add_marker_file_path_ok.
    - cbn [mbind res_bind]. eexists _, _. split; [done|]. rewrite <-Hput in Hst1.
      pose proof (step_ok _ _ _ _ _ _ Hst1) as Hok1. apply (converter_step_weaken R o 1 0); [lia|lia|].
      refine (converter_step_trans R o 1 0 0 0 _ _ _ Hst1 _). apply held_same_step; [done|].
      apply add_marker_file_path_ok; [exact (held_process _ _ _ _ _ Hok1)|].
      apply (main_thread_known _ _ _ _ _ Hok1). }
  destruct (_ && _); [|done].
  rewrite Hpr. cbn [mbind res_bind]. rewrite Hth. cbn [mbind res_bind]. eexists _, _. split; [done|].
  refine (converter_step_trans R o 2 0 0 0 _ _ _ Hst _). apply held_same_step; [done|]. by apply add_counter_file_path_ok.
Qed.
Lemma add_mmap_marker_ok s pid' tid' text t :
  converter_ok s → room 6 0 s → ∃ s', add_mmap_marker s pid' tid' text t = Ok s' ∧ step 6 0 s s'.
Proof using inputs interval_pos.
  intros Hok Hroom. unfold add_mmap_marker.
  destruct (decide _) as [?|_]; [exists s; split; [done|by apply converter_step_refl]|].
  destruct (RustStr.is_empty text); [exists s; split; [done|by apply converter_step_refl]|].
  destruct (process_thread_ok s pid' tid' Hok) as (s1 & pr & s2 & pr' & th & -> & Hth & Hst1 & Hat).
  { eapply room_weaken; [| |exact Hroom]; lia. }
  cbn [mbind res_bind]. rewrite Hth. cbn [mbind res_bind]. pose proof (step_ok _ _ _ _ _ _ Hst1) as Hok1.
  pose proof (intern_ok R o s2 pid' pr' text Hok1) as Hi.
  destruct (intern_string (profile s2) text) as [p path]. destruct Hi as [Hst2 Hpath].
  { refine (room_step R o 2 0 1 0 _ _ _ Hst1). eapply room_weaken; [| |exact Hroom]; lia. }
  pose proof (converter_step_trans _ _ _ _ _ _ _ _ _ Hst1 Hst2) as Hst.
  destruct (room_step R o 3 0 3 0 _ _ Hroom Hst) as [(n & Hwf & Hn) _].
  pose proof (step_ok _ _ _ _ _ _ Hst2) as Hok2.
  set (timing := Schema.Instant _).
  destruct (PerCpu.recorder_marker_ok n p (LinuxThread.profile_thread th) timing MmapMarker (inr "mmap") (one_string path))
    as (p' & m & th' & Heq & Hby & _); [done|apply Hok2|set_solver|simpl; lia| |done| |].
  { exact (in_profile_step _ _ _ _ _ _ _ Hst2 (thread_in_profile _ _ _ _ _ Hok1 Hat)). }
  { intros [|[|i]] field Hf; try done. injection Hf as <-. exact Hpath. }
  fold (mmap_marker path) in Heq. rewrite Heq. cbn [mbind res_bind]. eexists. split; [done|].
  pose proof (quiet_step R o 3 (put_process (with_profile s2 p) pid' pr') p' Hok2 Hby) as Hst3.
  exact (converter_step_trans _ _ _ _ _ _ _ _ _ Hst Hst3).
Qed.

(** * Context switches *)
Lemma thread_label_known p th :
  ProcessThreads.label_ok p (LinuxThread.thread_label_frame th) →
  ∃ l, LinuxThread.thread_label th = Ok l ∧ known p l.
Proof.
  intros [[l Hl] Hf]. unfold LinuxThread.thread_label. rewrite Hl. exists l. split; [done|].
  apply Forall_singleton in Hf as [_ Hf]. by rewrite Hl in Hf.
Qed.
Lemma idle_samples_ok s g ns thread label u :
  samples_known s u → (thread < length (Profile.threads (profile s)))%nat →
  ProfileRuns.frames_valid (profile s) [label] → samples_known s (idle_samples s g ns thread label u).
Proof.
  intros Hu Hth Hl. assert (stack_known s UnresolvedStacks.EMPTY) by (exists []; constructor).
  unfold idle_samples. by repeat apply buffer_sample_ok.
Qed.
Lemma cpu_switch_in_ok s pid' pr c tid' t thread cs u :
  converter_ok (put_process s pid' pr) → cpus s = Some cs → room (cpu_growth s (Some c) + 6) 0 s →
  ProcessThreads.label_ok (profile s) (LinuxThread.thread_label_frame thread) → samples_known s u →
  ∃ s' u', cpu_switch_in s c tid' t thread cs u = Ok (s', u') ∧
    step (cpu_growth s (Some c) + 6) 0 (put_process s pid' pr) (put_process s' pid' pr) ∧ samples_known s' u'.
Proof using interval_pos.
  unfold cpu_growth. intros Hok Hcs. rewrite Hcs. intros Hroom Hl Hu. unfold cpu_switch_in.
  rewrite (converter_options _ _ _ Hok : options s = o).
  destruct (cpu_track_ok R o s pid' pr cs (Z.to_nat c) Hok Hcs) as (cs' & p' & x & -> & Hx & Hcs' & Hst).
  { eapply room_weaken; [| |exact Hroom]; lia. }
  cbn [mbind res_bind].
  destruct (handle_switch_in_Ok (context_switch_handler o) t (PerCpu.context_switch_data x) interval_pos)
    as (d & g & ->). cbn [mbind res_bind]. pose proof (step_evolves _ _ _ _ _ _ Hst) as He. simpl in He.
  pose proof (PerCpu.cpus_ok_evolves _ _ _ He (converter_cpus _ _ _ Hok cs Hcs)) as Hcs1. simpl in Hcs1.
  set (s1 := Converter.with_cpus s p' cs') in *.
  assert (samples_known s1 u) as Hu1 by exact (samples_known_step _ _ _ _ _ _ _ Hst Hu).
  set (after := match g with Some _ => _ | None => _ end).
  assert (samples_known s1 after.2) as Hu2.
  { unfold after. destruct g as [g|]; [|done]. destruct (ContextSwitch.consume_cpu_delta d). simpl.
    apply (idle_samples_ok s1); [done|apply Hx|apply Hcs1]. }
  destruct after as [d' u']. simpl in Hu2.
  pose proof (with_switch_data_ok p' x d' Hx) as Hx1. set (x1 := PerCpu.with_switch_data x d') in *.
  assert (∃ x2 p2, (if should_emit_cswitch_markers o then
       label ← LinuxThread.thread_label thread;
       PerCpu.notify_switch_in_for_marker x1 tid' label t (timestamp_converter o)
         [PerCpu.thread_handle x1; PerCpu.combined_thread_handle cs] p'
     else Ok (x1, p')) = Ok (x2, p2) ∧ by_calls 6 p' p2 ∧ PerCpu.cpu_ok p2 x2) as (x2 & p2 & -> & Hby & Hx2).
  { destruct (should_emit_cswitch_markers o); [|exists x1, p'; split; [done|]; split; [apply by_calls_refl|done]].
    destruct (thread_label_known p' thread) as (l & -> & Hknown); [by eapply ProcessThreads.label_ok_evolves|].
    destruct (room_step R o _ 0 6 0 (put_process s pid' pr) _ Hroom Hst) as [(n & Hwf & Hn) _].
    apply (PerCpu.switch_in_ok n p' _ x1 tid' l t [_; _]); try done.
    - apply (step_ok _ _ _ _ _ _ Hst).
    - repeat constructor; [apply Hx|apply Hcs1]. }
  cbn [mbind res_bind]. eexists _, u'. split; [done|].
  pose proof (set_cpu_step R o 6 s1 pid' pr cs' (Z.to_nat c) p2 x2 (step_ok _ _ _ _ _ _ Hst) eq_refl Hby Hx2) as Hst2.
  split; [exact (converter_step_trans _ _ _ _ _ _ _ _ _ Hst Hst2)|]. exact (samples_known_step _ _ _ _ _ _ _ Hst2 Hu2).
Qed.
Lemma cpu_switch_out_ok s pid' pr c tid' t preempted thread cs :
  converter_ok (put_process s pid' pr) → cpus s = Some cs → room (cpu_growth s (Some c) + 11) 0 s →
  (LinuxThread.profile_thread thread < length (Profile.threads (profile s)))%nat →
  ∃ s', cpu_switch_out s c tid' t preempted thread cs = Ok s' ∧
    step (cpu_growth s (Some c) + 11) 0 (put_process s pid' pr) (put_process s' pid' pr).
Proof.
  unfold cpu_growth. intros Hok Hcs. rewrite Hcs. intros Hroom Hth. unfold cpu_switch_out.
  rewrite (converter_options _ _ _ Hok : options s = o).
  destruct (cpu_track_ok R o s pid' pr cs (Z.to_nat c) Hok Hcs) as (cs' & p' & x & -> & Hx & Hcs' & Hst).
  { eapply room_weaken; [| |exact Hroom]; lia. }
  cbn [mbind res_bind]. pose proof (step_evolves _ _ _ _ _ _ Hst) as He. simpl in He.
  pose proof (PerCpu.cpus_ok_evolves _ _ _ He (converter_cpus _ _ _ Hok cs Hcs)) as Hcs1. simpl in Hcs1.
  set (s1 := Converter.with_cpus s p' cs') in *. set (d := ContextSwitch.handle_switch_out _ _).
  pose proof (with_switch_data_ok p' x d Hx) as Hx1. set (x1 := PerCpu.with_switch_data x d) in *.
  assert (∃ x2 p2, (if should_emit_cswitch_markers o then
       PerCpu.notify_switch_out_for_marker x1 tid' t (timestamp_converter o)
         [PerCpu.thread_handle x1; PerCpu.combined_thread_handle cs] (LinuxThread.profile_thread thread) preempted p'
     else Ok (x1, p')) = Ok (x2, p2) ∧ by_calls 11 p' p2 ∧ PerCpu.cpu_ok p2 x2) as (x2 & p2 & -> & Hby & Hx2).
  { destruct (should_emit_cswitch_markers o); [|exists x1, p'; split; [done|]; split; [apply by_calls_refl|done]].
    destruct (room_step R o _ 0 11 0 (put_process s pid' pr) _ Hroom Hst) as [(n & Hwf & Hn) _].
    apply (PerCpu.switch_out_ok n p' _ x1 tid' t [_; _]); try done.
    - apply (step_ok _ _ _ _ _ _ Hst).
    - pose proof (evolves_threads _ _ He). lia.
    - repeat constructor; [apply Hx|apply Hcs1]. }
  cbn [mbind res_bind]. eexists. split; [done|].
  pose proof (set_cpu_step R o 11 s1 pid' pr cs' (Z.to_nat c) p2 x2 (step_ok _ _ _ _ _ _ Hst) eq_refl Hby Hx2) as Hst2.
  exact (converter_step_trans _ _ _ _ _ _ _ _ _ Hst Hst2).
Qed.

Lemma thread_switch_in_ok s pid' tid' t c pr thread :
  converter_ok (put_process s pid' pr) → ProcessThreads.thread_at (threads pr) tid' = Some thread →
  room (cpu_growth s c + 6) 0 s →
  ∃ s', switch_in s pid' tid' t c pr thread = Ok s' ∧ step (cpu_growth s c + 6) 0 (put_process s pid' pr) s'.
Proof using interval_pos.
  intros Hok Hat Hroom. unfold switch_in. rewrite (converter_options _ _ _ Hok : options s = o).
  destruct (handle_switch_in_Ok (context_switch_handler o) t (LinuxThread.context_switch_data thread) interval_pos)
    as (d1 & g & ->). cbn [mbind res_bind].
  pose proof (thread_known _ _ _ _ _ _ _ Hok Hat) as Hth.
  pose proof (end_off_cpu_ok s g d1 thread _ Hth (process_samples _ _ _ _ (held_process _ _ _ _ _ Hok))) as Hu.
  destruct (end_off_cpu s g d1 thread (unresolved_samples pr)) as [d2 u1]. simpl in Hu.
  set (pr' := put_thread _ _ _).
  assert (step 0 0 (put_process s pid' pr) (put_process s pid' pr')) as Hst1 by by apply put_thread_step.
  pose proof (step_ok _ _ _ _ _ _ Hst1) as Hok1.
  assert (∃ s1 u2, match cpus s, c with
      | Some cs, Some c => cpu_switch_in s c tid' t thread cs u1
      | _, _ => Ok (s, u1)
      end = Ok (s1, u2) ∧ step (cpu_growth s c + 6) 0 (put_process s pid' pr') (put_process s1 pid' pr') ∧
      samples_known s1 u2) as (s1 & u2 & -> & Hst2 & Hu2).
  { assert (∃ s1 u2, (Ok (s, u1) : res (Converter * UnresolvedSamples.UnresolvedSamples)) = Ok (s1, u2) ∧
      step (cpu_growth s c + 6) 0 (put_process s pid' pr') (put_process s1 pid' pr') ∧ samples_known s1 u2) as Hno.
    { exists s, u1. split; [done|]. split; [by apply converter_step_refl|done]. }
    destruct (cpus s) as [cs|] eqn:Hcs; [|done]. destruct c as [c|]; [|done].
    apply cpu_switch_in_ok; [done|done|done|apply Hth|done]. }
  cbn [mbind res_bind]. eexists. split; [done|].
  pose proof (samples_step R o s1 pid' pr' u2 (step_ok _ _ _ _ _ _ Hst2) Hu2) as Hst3.
  pose proof (converter_step_trans _ _ _ _ _ _ _ _ _ Hst1 (converter_step_trans _ _ _ _ _ _ _ _ _ Hst2 Hst3)) as Hst.
  eapply converter_step_weaken; [| |exact Hst]; lia.
Qed.
Lemma thread_switch_out_ok s pid' tid' t c preempted pr thread :
  converter_ok (put_process s pid' pr) → ProcessThreads.thread_at (threads pr) tid' = Some thread → is_Some c →
  room (cpu_growth s c + 11) 0 s →
  ∃ s', switch_out s pid' tid' t c preempted pr thread = Ok s' ∧
    step (cpu_growth s c + 11) 0 (put_process s pid' pr) s'.
Proof.
  intros Hok Hat [c' ->] Hroom. unfold switch_out. pose proof (thread_known _ _ _ _ _ _ _ Hok Hat) as Hth.
  set (pr' := put_thread _ _ _).
  assert (step 0 0 (put_process s pid' pr) (put_process s pid' pr')) as Hst1.
  { apply put_thread_step; [done|done|]. apply Hth. }
  pose proof (step_ok _ _ _ _ _ _ Hst1) as Hok1. cbn [unwrap mbind res_bind].
  assert (∃ s1, match cpus s with
      | Some cs => cpu_switch_out s c' tid' t preempted thread cs
      | None => Ok s
      end = Ok s1 ∧ step (cpu_growth s (Some c') + 11) 0 (put_process s pid' pr') (put_process s1 pid' pr'))
    as (s1 & -> & Hst2).
  { destruct (cpus s) as [cs|] eqn:Hcs; [|exists s; split; [done|by apply converter_step_refl]].
    apply cpu_switch_out_ok; [done|done|done|apply Hth]. }
  cbn [mbind res_bind]. eexists. split; [done|].
  exact (converter_step_trans _ _ _ _ _ _ _ _ _ Hst1 Hst2).
Qed.
(** A switch-out panics without the CPU, with tracks of CPUs or without. *)
Definition context_switch_valid (e : ContextSwitchRecord) (common : CommonData) : Prop :=
  is_Some (common_pid common) ∧ is_Some (common_tid common) ∧ is_Some (common_timestamp common) ∧
  (e ≠ In → is_Some (common_cpu common)).
Definition context_switch_room (s : Converter) (common : CommonData) : nat := cpu_growth s (common_cpu common) + 13.
Lemma handle_context_switch_ok s e common :
  converter_ok s → context_switch_valid e common → room (context_switch_room s common) 0 s →
  ∃ s', handle_context_switch s e common = Ok s' ∧ step (context_switch_room s common) 0 s s'.
Proof using interval_pos.
  intros Hok ([pid' Hpid] & [tid' Htid] & [t Ht] & Hcpu) Hroom. unfold context_switch_room, handle_context_switch in *.
  rewrite Hpid, Htid, Ht. cbn [unwrap mbind res_bind].
  destruct (decide (tid' = 0)) as [?|_]; [exists s; split; [done|by apply converter_step_refl]|].
  destruct (process_thread_ok s pid' tid' Hok) as (s1 & pr & s2 & pr' & th & -> & Hth & Hst & Hat).
  { eapply room_weaken; [| |exact Hroom]; lia. }
  cbn [mbind res_bind]. rewrite Hth. cbn [mbind res_bind].
  assert (cpu_growth s2 (common_cpu common) ≤ cpu_growth s (common_cpu common))%nat as Hgrow
    by exact (cpu_growth_kept _ _ _ (step_cpus _ _ _ _ _ _ Hst)).
  assert (room (cpu_growth s2 (common_cpu common) + 11) 0 s2) as Hroom2.
  { refine (room_step R o 2 0 _ 0 _ _ _ Hst). eapply room_weaken; [| |exact Hroom]; lia. }
  pose proof (step_ok _ _ _ _ _ _ Hst) as Hok2. destruct e as [|preempted].
  - destruct (thread_switch_in_ok s2 pid' tid' t (common_cpu common) pr' th Hok2 Hat) as (s3 & -> & Hst3).
    { eapply room_weaken; [| |exact Hroom2]; lia. }
    exists s3. split; [done|]. eapply converter_step_weaken; [| |exact (converter_step_trans _ _ _ _ _ _ _ _ _ Hst Hst3)]; lia.
  - destruct (thread_switch_out_ok s2 pid' tid' t (common_cpu common) preempted pr' th Hok2 Hat) as (s3 & -> & Hst3).
    { by apply Hcpu. }
    { done. }
    exists s3. split; [done|]. eapply converter_step_weaken; [| |exact (converter_step_trans _ _ _ _ _ _ _ _ _ Hst Hst3)]; lia.
Qed.

(** * Processes and threads *)
Lemma held_handles_NoDup s pid' pr : converter_ok (put_process s pid' pr) → NoDup (handles pr).
Proof.
  intros Hok. pose proof (Processes.distinct_threads _ _ _ _ (converter_processes _ _ _ Hok)) as Hnd. simpl in Hnd.
  destruct (Processes.set_handles (processes s) pid' pr) as [Ht _]. rewrite Ht in Hnd.
  by apply NoDup_app in Hnd as [? _].
Qed.
Lemma recycled_thread_step s pid' pr tid' name time :
  converter_ok (put_process s pid' pr) → room 1 0 s →
  ∃ pr' p, recycle_or_get_new_thread pr tid' name time (profile s) = Ok (pr', p) ∧
    step 1 0 (put_process s pid' pr) (put_process (with_profile s p) pid' pr').
Proof.
  intros Hok [(n & Hwf & Hn) _].
  destruct (process_recycle_thread_ok R (unresolved_stacks s) n (profile s) pr tid' name time)
    as (pr' & p & Heq & Hst & _); [done|done|apply Hok|exact (held_process _ _ _ _ _ Hok)|].
  exists pr', p. split; [done|]. by apply held_profile_step.
Qed.
Lemma recycled_process_step s pid' name time :
  converter_ok s → room 1 0 s →
  ∃ ps p, Processes.recycle_or_get_new (processes s) pid' name time (profile s) = Ok (ps, p) ∧
    step 1 0 s (with_recording s p ps) ∧ is_Some (Processes.processes_by_pid ps !! pid').
Proof.
  intros Hok [(n & Hwf & Hn) _].
  destruct (Processes.recycle_or_get_new_ok R (unresolved_stacks s) n (profile s) (processes s) pid' name time)
    as (ps & p & Heq & Hst & Hpid); [done|done|apply Hok|apply Hok|].
  exists ps, p. split; [done|]. split; [by apply recording_step|done].
Qed.
Lemma handle_fork_ok s e :
  converter_ok s → room 3 0 s → ∃ s', handle_fork s e = Ok s' ∧ step 3 0 s s'.
Proof.
  intros Hok Hroom. unfold handle_fork.
  destruct (process_by_pid_ok R 0 o s (fe_ppid e) Hok) as (s1 & parent & -> & Hst1 & Hput & _).
  { eapply room_weaken; [| |exact Hroom]; lia. }
  cbn [mbind res_bind].
  assert (room 2 0 s1) as Hroom1 by exact (room_step R o 1 0 2 0 _ _ Hroom Hst1).
  destruct (decide _).
  - rewrite <-Hput in Hst1.
    destruct (thread_by_tid_ok R o s1 (fe_ppid e) parent (fe_ptid e)) as (s2 & parent' & th & -> & Hst2 & Hat).
    { apply Hst1. }
    { eapply room_weaken; [| |exact Hroom1]; lia. }
    cbn [mbind res_bind]. pose proof (step_ok _ _ _ _ _ _ Hst2) as Hok2.
    destruct (recycled_thread_step s2 (fe_ppid e) parent' (fe_tid e) (LinuxThread.name th)
      (convert_time (timestamp_converter (options s)) (fe_timestamp e)) Hok2) as (parent'' & p & -> & Hst3).
    { exact (room_step R o 1 0 1 0 (put_process s1 (fe_ppid e) parent) _ Hroom1 Hst2). }
    cbn [mbind res_bind]. eexists. split; [done|].
    exact (converter_step_trans _ _ _ _ _ _ _ _ _ Hst1 (converter_step_trans _ _ _ _ _ _ _ _ _ Hst2 Hst3)).
  - destruct (recycled_process_step s1 (fe_pid e) (name parent)
      (convert_time (timestamp_converter (options s)) (fe_timestamp e)) (step_ok _ _ _ _ _ _ Hst1))
      as (ps & p & -> & Hst2 & [child Hchild]); [eapply room_weaken; [| |exact Hroom1]; lia|].
    cbn [mbind res_bind]. rewrite Hchild. cbn [unwrap mbind res_bind]. eexists. split; [done|].
    pose proof (converter_step_trans _ _ _ _ _ _ _ _ _ Hst1 Hst2) as Hst. set (s2 := with_recording s1 p ps) in *.
    assert (put_process s2 (fe_pid e) child = s2) as Hput2 by by apply put_same.
    pose proof (step_ok _ _ _ _ _ _ Hst2) as Hok2. rewrite <-Hput2 in Hok2, Hst.
    apply (converter_step_weaken R o 2 0); [lia|lia|]. refine (converter_step_trans R o 2 0 0 0 _ _ _ Hst _).
    apply held_same_step; [done|]. apply adopt_fork_data_ok; [exact (held_process _ _ _ _ _ Hok2)|].
    eapply JitDump.queue_valid_evolves; [exact (step_evolves _ _ _ _ _ _ Hst2)|].
    pose proof (step_ok _ _ _ _ _ _ Hst1) as Hok1. rewrite <-Hput in Hok1.
    apply (process_mappings _ _ _ _ (held_process _ _ _ _ _ Hok1)).
Qed.

Definition remove_room (s : Converter) (pid' : Z) : nat := Processes.remove_room B (processes s) pid'.
Lemma remove_process_ok s pid' time :
  converter_ok s → room (remove_room s pid') 0 s →
  ∃ s', remove_process s pid' time = Some (Ok s') ∧ step (remove_room s pid') 0 s s'.
Proof using inputs.
  intros Hok [(n & Hwf & Hn) _]. unfold remove_process. rewrite (converter_options _ _ _ Hok : options s = o).
  destruct (Processes.remove_ok R B _ inputs (unresolved_stacks s) n (files s) (profile s) (processes s) pid' time
    (jit_category_manager s)) as (files' & m' & p & ps & -> & Hst & Hm & _); [done|apply Hok..|done|].
  cbn [returned mbind loops_bind]. eexists. split; [done|]. by apply processes_step.
Qed.
Lemma remove_thread_ok s pid' tid' time :
  converter_ok s → room 1 0 s → ∃ s', remove_thread s pid' tid' time = Ok s' ∧ step 1 0 s s'.
Proof.
  intros Hok Hroom. unfold remove_thread.
  destruct (process_by_pid_ok R 0 o s pid' Hok Hroom) as (s1 & pr & -> & Hst1 & Hput & _).
  rewrite <-Hput in Hst1. cbn [mbind res_bind]. pose proof (step_ok _ _ _ _ _ _ Hst1) as Hok1.
  pose proof (held_process _ _ _ _ _ Hok1) as Hpr.
  destruct (room_step R o 1 0 0 0 _ _ Hroom Hst1) as [(n & Hwf & _) _].
  destruct (ProcessThreads.remove_non_main_thread_ok (stack_ok (unresolved_stacks s1)) (profile s1) (threads pr) tid' time)
    as (t' & p & Heq & Hst2 & _); [apply Hpr|].
  rewrite Heq. cbn [mbind res_bind]. eexists. split; [done|].
  refine (converter_step_trans R o 1 0 0 0 _ _ _ Hst1 _). apply held_profile_step; [done|].
  apply (on_threads R _ n); [done..|]. by eapply remove_non_main_thread_main.
Qed.
Definition exit_room (s : Converter) (e : ForkOrExitRecord) : nat := 1 + remove_room s (fe_pid e).
Lemma handle_exit_ok s e :
  converter_ok s → room (exit_room s e) 0 s → ∃ s', handle_exit s e = Some (Ok s') ∧ step (exit_room s e) 0 s s'.
Proof using inputs.
  intros Hok Hroom. unfold handle_exit, exit_room in *. destruct (decide _).
  - destruct (remove_process_ok s (fe_pid e) (convert_time (timestamp_converter (options s)) (fe_timestamp e)) Hok)
      as (s' & -> & Hst); [eapply room_weaken; [| |exact Hroom]; lia|].
    exists s'. split; [done|]. eapply converter_step_weaken; [| |exact Hst]; lia.
  - destruct (remove_thread_ok s (fe_pid e) (fe_tid e) (convert_time (timestamp_converter (options s)) (fe_timestamp e)) Hok)
      as (s' & -> & Hst); [eapply room_weaken; [| |exact Hroom]; lia|].
    exists s'. split; [done|]. eapply converter_step_weaken; [| |exact Hst]; lia.
Qed.

Definition comm_room (s : Converter) (e : CommOrExecRecord) : nat := 3 + remove_room s (ce_pid e).
Lemma handle_exec_ok try_join s e t args :
  converter_ok s → room (comm_room s e) 0 s →
  ∃ s', handle_exec try_join s e t args = Some (Ok s') ∧ step (comm_room s e) 0 s s'.
Proof using inputs.
  intros Hok Hroom. unfold handle_exec, comm_room in *. set (time := record_time s t). set (name' := match args with Some _ => _ | None => _ end).
  destruct (decide _).
  - destruct (remove_process_ok s (ce_pid e) time Hok) as (s1 & -> & Hst1).
    { eapply room_weaken; [| |exact Hroom]; lia. }
    cbn [mbind loops_bind]. unfold recycle_or_get_new_process.
    destruct (recycled_process_step s1 (ce_pid e) (Some name') time (step_ok _ _ _ _ _ _ Hst1)) as (ps & p & -> & Hst2 & _).
    { refine (room_step R o _ 0 1 0 _ _ _ Hst1). eapply room_weaken; [| |exact Hroom]; lia. }
    cbn [returned mbind res_bind]. eexists. split; [done|].
    eapply converter_step_weaken; [| |exact (converter_step_trans _ _ _ _ _ _ _ _ _ Hst1 Hst2)]; lia.
  - destruct (remove_thread_ok s (ce_pid e) (ce_tid e) time Hok) as (s1 & -> & Hst1).
    { eapply room_weaken; [| |exact Hroom]; lia. }
    cbn [returned mbind loops_bind].
    destruct (process_by_pid_ok R 0 o s1 (ce_pid e) (step_ok _ _ _ _ _ _ Hst1)) as (s2 & pr & -> & Hst2 & Hput & _).
    { refine (room_step R o _ 0 1 0 _ _ _ Hst1). eapply room_weaken; [| |exact Hroom]; lia. }
    cbn [returned mbind loops_bind]. rewrite <-Hput in Hst2.
    pose proof (converter_step_trans _ _ _ _ _ _ _ _ _ Hst1 Hst2) as Hst12.
    destruct (recycled_thread_step s2 (ce_pid e) pr (ce_tid e) (Some name') time (step_ok _ _ _ _ _ _ Hst2))
      as (pr' & p & -> & Hst3).
    { refine (room_step R o 2 0 1 0 _ _ _ Hst12). eapply room_weaken; [| |exact Hroom]; lia. }
    cbn [returned mbind loops_bind]. eexists. split; [done|].
    eapply converter_step_weaken; [| |exact (converter_step_trans _ _ _ _ _ _ _ _ _ Hst12 Hst3)]; lia.
Qed.
Lemma handle_thread_rename_ok s e t :
  converter_ok s → room 2 0 s → ∃ s', handle_thread_rename s e t = Ok s' ∧ step 2 0 s s'.
Proof.
  intros Hok Hroom. unfold handle_thread_rename. set (time := record_time s t). destruct (decide _) as [_|_].
  - destruct Hroom as [(n & Hwf & Hn) _].
    destruct (Processes.rename_process_ok R 0 (unresolved_stacks s) n (profile s) (processes s) (ce_pid e) time (ce_name e))
      as (ps & p & -> & Hst); [done|lia|apply Hok|apply Hok|].
    cbn [mbind res_bind]. eexists. split; [done|]. apply (converter_step_weaken R o 1 0); [lia|lia|]. by apply recording_step.
  - destruct (process_by_pid_ok R 0 o s (ce_pid e) Hok) as (s1 & pr & -> & Hst1 & Hput & _).
    { eapply room_weaken; [| |exact Hroom]; lia. }
    rewrite <-Hput in Hst1. cbn [mbind res_bind]. pose proof (step_ok _ _ _ _ _ _ Hst1) as Hok1.
    destruct (room_step R o 1 0 1 0 _ _ Hroom Hst1) as [(n & Hwf & Hn) _].
    destruct (ProcessThreads.rename_non_main_thread_ok (stack_ok (unresolved_stacks s1)) n (profile s1) (threads pr)
      (ce_tid e) time (ce_name e)) as (t' & p & Heq & Hst2); [done|done|apply Hok1| |by eapply held_handles_NoDup|].
    { apply (held_process _ _ _ _ _ Hok1). }
    rewrite Heq. cbn [mbind res_bind]. eexists. split; [done|].
    refine (converter_step_trans R o 1 0 1 0 _ _ _ Hst1 _). apply held_profile_step; [done|].
    apply (on_threads R _ n); [done|exact (held_process _ _ _ _ _ Hok1)|done|]. by eapply rename_non_main_thread_main.
Qed.
Lemma handle_comm_ok try_join s e t :
  converter_ok s → room (comm_room s e) 0 s →
  ∃ s', handle_comm try_join s e t = Some (Ok s') ∧ step (comm_room s e) 0 s s'.
Proof using inputs.
  intros Hok Hroom. unfold handle_comm. destruct (ce_is_execve e); [by apply handle_exec_ok|].
  destruct (handle_thread_rename_ok s e t Hok) as (s' & -> & Hst).
  { eapply room_weaken; [| |exact Hroom]; unfold comm_room; lia. }
  exists s'. split; [done|]. eapply converter_step_weaken; [| |exact Hst]; unfold comm_room; lia.
Qed.
(** A process that exists when it is recorded has the name of its command line
    in the recording and in the profile, and a thread the name it is given. *)
Lemma register_existing_process_ok try_join s pid' exe_name args :
  converter_ok s → room 1 0 s →
  let name' := make_process_name try_join exe_name args (arg_count_to_include_in_process_name (options s)) in
  ∃ s' pr, register_existing_process try_join s pid' exe_name args = Ok s' ∧ changes 1 (profile s) (profile s') ∧
    Processes.processes_by_pid (processes s') !! pid' = Some pr ∧ name pr = Some name' ∧
    process_names (profile s') !! profile_process pr = Some name'.
Proof.
  intros Hok Hroom name'. unfold register_existing_process.
  destruct (process_by_pid_ok R 0 o s pid' Hok Hroom) as (s1 & pr & -> & Hst & Hput & _).
  cbn [mbind res_bind]. fold name'. pose proof (step_ok _ _ _ _ _ _ Hst) as Hok1. rewrite <-Hput in Hok1.
  pose proof (held_process _ _ _ _ _ Hok1) as Hpr.
  assert (profile_process pr < length (Profile.processes (profile s1)))%nat as Hh.
  { rewrite <-(process_handle_same _ _ _ _ Hpr). apply (process_threads _ _ _ _ Hpr). }
  destruct (set_process_name_spec (profile s1) (profile_process pr) name' Hh) as (p1 & -> & Hch1 & Hn1 & _).
  cbn [mbind res_bind].
  assert (profile_process pr < length (Profile.processes p1))%nat as Hh1.
  { pose proof (f_equal length Hn1) as Hl. unfold process_names in Hl. rewrite length_insert, !length_fmap in Hl.
    by rewrite Hl. }
  destruct (set_process_start_time_spec p1 (profile_process pr)
    (convert_time (timestamp_converter (options s)) (current_sample_time s)) Hh1) as (p2 & -> & Hch2 & _ & Hn2).
  cbn [mbind res_bind]. eexists _, _. split; [done|]. simpl. split_and!; [|apply lookup_insert_eq|done|].
  - exact (changes_trans 1 0 _ _ _ (step_calls _ _ _ _ _ _ Hst) (changes_trans 0 0 _ _ _ Hch1 Hch2)).
  - rewrite Hn2, Hn1. apply list_lookup_insert_eq. unfold process_names. by rewrite length_fmap.
Qed.
Lemma register_existing_thread_ok s pid' tid' name' :
  converter_ok s → room 2 0 s →
  ∃ s' pr th, register_existing_thread s pid' tid' name' = Ok s' ∧ changes 2 (profile s) (profile s') ∧
    Processes.processes_by_pid (processes s') !! pid' = Some pr ∧
    ProcessThreads.thread_at (threads pr) tid' = Some th ∧ LinuxThread.name th = Some name' ∧
    thread_names (profile s') !! LinuxThread.profile_thread th = Some (Some name').
Proof.
  intros Hok Hroom. unfold register_existing_thread.
  destruct (process_thread_ok s pid' tid' Hok Hroom) as (s1 & pr & s2 & pr' & th & -> & Hth & Hst & Hat).
  cbn [mbind res_bind]. rewrite Hth. cbn [mbind res_bind]. pose proof (step_ok _ _ _ _ _ _ Hst) as Hok'.
  assert (LinuxThread.profile_thread th < length (Profile.threads (profile s2)))%nat as Hh.
  { apply (ProcessThreads.thread_handle_ok _ _ _ (thread_known R o s2 pid' pr' tid' th Hok' Hat)). }
  destruct (set_thread_name_spec (profile s2) (LinuxThread.profile_thread th) name' Hh) as (p1 & -> & Hch1 & Hn1 & _).
  cbn [mbind res_bind].
  assert (LinuxThread.profile_thread th < length (Profile.threads p1))%nat as Hh1.
  { pose proof (f_equal length Hn1) as Hl. unfold thread_names in Hl. rewrite length_insert, !length_fmap in Hl.
    by rewrite Hl. }
  destruct (set_thread_start_time_spec p1 (LinuxThread.profile_thread th)
    (convert_time (timestamp_converter (options s)) (current_sample_time s)) Hh1) as (p2 & -> & Hch2 & Hn2 & _).
  cbn [mbind res_bind]. eexists _, _, (LinuxThread.with_name th (Some name')). split; [done|]. simpl.
  split_and!; [|apply lookup_insert_eq| |done|].
  - exact (changes_trans 2 0 _ _ _ (step_calls _ _ _ _ _ _ Hst) (changes_trans 0 0 _ _ _ Hch1 Hch2)).
  - unfold put_thread, ProcessThreads.thread_at, ProcessThreads.set_thread in *. simpl.
    destruct (decide (tid' = ProcessThreads.pid (threads pr'))) as [->|Hne]; simpl.
    + by rewrite decide_True by done.
    + rewrite decide_False by done. apply lookup_insert_eq.
  - rewrite Hn2, Hn1. apply list_lookup_insert_eq. unfold thread_names. by rewrite length_fmap.
Qed.
End events.
End ConverterEvents.
