(* ===== verification/ObjectFiles.v ===== *)
(** Object files as the recorder sees them, and what it takes from them:
    [relative_address_base] of samply-symbols/src/shared.rs, the sections for the
    unwinder of samply/src/linux_shared/converter.rs, mmap_range_or_vec.rs, and
    [jit_function_name] of injected_jit_object.rs; and where a
    mapped object file is in memory: avma_range.rs, svma_file_range.rs. SVMAs are the
    addresses stated in the file, AVMAs those in memory. *)
From S2P Require Import Prelude PathFiles.
From stdpp Require Import options.
Open Scope Z_scope.

(** * The object crate

    What its [Object] trait tells about a file. An error and the absence of a
    value are both [None] where the program treats them alike. *)
Record ObjectSegment := {
  segment_name : option string;
  segment_address : Z;
  segment_file_offset : Z;
  segment_file_size : Z
}.
Record ObjectSection := {
  section_is_text : bool;
  section_address : Z;
  section_size : Z;
  section_file_range : option (Z * Z);
  (** Whether it is not compressed, its offset and its uncompressed size. *)
  compressed_file_range : option (bool * Z * Z);
  uncompressed_data : option (list Z);
  data_range : Z → Z → option (list Z)
}.
Record ObjectSymbol := { symbol_is_text : bool; symbol_name : option string }.
Record Object := {
  segments : list ObjectSegment;
  sections : list ObjectSection;
  section_by_name : string → option ObjectSection;
  symbols : list ObjectSymbol;
  (** [flags()] are ELF flags, [format()] is ELF. *)
  is_elf : bool;
  is_64 : bool;
  is_little_endian : bool;
  image_base : Z;
  pdb_info : option (list Z * Z);
  build_id : option (list Z);
  mach_uuid : option (list Z)
}.
Class ObjectFiles := { parse_object : list Z → option Object }.
(** The bytes of a file that is mapped into memory; [None] if that fails. *)
Class FileBytes `{PathFiles.Files} := { map_file : PathFiles.File → option (list Z) }.

Module ObjectFiles.

(** What relative addresses are relative to. *)
Definition relative_address_base (file : Object) : Z :=
  match find (λ s, bool_decide (segment_name s = Some "__TEXT")) (segments file) with
  | Some text_segment => segment_address text_segment
  | None =>
      match segments file with
      | first_segment :: _ => if is_elf file then segment_address first_segment else image_base file
      | [] => image_base file
      end
  end.

Definition jit_function_name (file : Object) : option string :=
  match filter symbol_is_text (symbols file) with
  | symbol :: _ => symbol_name symbol
  | [] => None
  end.

(** * mmap_range_or_vec.rs *)
Inductive MmapRangeOrVec :=
| MmapRange (mmap : list Z) (start size : nat)
| Vec (vec : list Z).
(** On a 64-bit machine the conversions to [usize] succeed. *)
Definition new_mmap_range (mmap : list Z) (start size : Z) : option MmapRangeOrVec :=
  if decide (start + size < 2 ^ 64 ∧ start + size ≤ Z.of_nat (length mmap))
  then Some (MmapRange mmap (Z.to_nat start) (Z.to_nat size)) else None.
(** [&mmap[*start..][..*size]]: panics out of range. *)
Definition deref (x : MmapRangeOrVec) : res (list Z) :=
  match x with
  | MmapRange mmap start size =>
      if decide (start ≤ length mmap ∧ size ≤ length (drop start mmap))%nat
      then Ok (take size (drop start mmap)) else Panic
  | Vec vec => Ok vec
  end.

(** * The sections for the unwinder: [ExplicitModuleSectionInfo] of framehop *)
Record ExplicitModuleSectionInfo := {
  base_svma : Z;
  text_svma : option (Z * Z);
  text : option MmapRangeOrVec;
  got_svma : option (Z * Z);
  eh_frame_svma : option (Z * Z);
  eh_frame : option MmapRangeOrVec;
  eh_frame_hdr_svma : option (Z * Z);
  eh_frame_hdr : option MmapRangeOrVec
}.
Definition section_data (section : ObjectSection) (mmap : option (list Z)) : option MmapRangeOrVec :=
  '(not_compressed, offset, uncompressed_size) ← compressed_file_range section;
  match (not_compressed : bool), mmap with
  | true, Some mmap => new_mmap_range mmap offset uncompressed_size
  | _, _ => Vec <$> uncompressed_data section
  end.
Definition svma_range (section : ObjectSection) : Z * Z :=
  (section_address section, add_u64 (section_address section) (section_size section)).
Definition module_section_info_with_object (mmap : option (list Z)) (file : Object) : ExplicitModuleSectionInfo :=
  let text' := section_by_name file ".text" in
  let eh_frame' := section_by_name file ".eh_frame" in
  let got := section_by_name file ".got" in
  let eh_frame_hdr' := section_by_name file ".eh_frame_hdr" in
  let data section := section ≫= λ s, section_data s mmap in
  {| base_svma := relative_address_base file;
     text_svma := svma_range <$> text'; text := data text';
     got_svma := svma_range <$> got;
     eh_frame_svma := svma_range <$> eh_frame'; eh_frame := data eh_frame';
     eh_frame_hdr_svma := svma_range <$> eh_frame_hdr'; eh_frame_hdr := data eh_frame_hdr' |}.

(** The data of the sections can be read without a panic: it is a range of the
    file. *)
Lemma new_mmap_range_deref mmap start size x :
  0 ≤ start → 0 ≤ size → new_mmap_range mmap start size = Some x →
  deref x = Ok (take (Z.to_nat size) (drop (Z.to_nat start) mmap)).
Proof.
  intros Hs Hz. unfold new_mmap_range. destruct (decide _) as [[_ Hle]|]; [|done]. intros [= <-]. simpl.
  rewrite decide_True; [done|]. rewrite length_drop. lia.
Qed.
Definition ranges_ok (section : ObjectSection) : Prop :=
  ∀ c o s, compressed_file_range section = Some (c, o, s) → 0 ≤ o ∧ 0 ≤ s.
Lemma section_data_deref section mmap x :
  ranges_ok section → section_data section mmap = Some x → is_Ok (deref x).
Proof.
  unfold section_data. intros Hr. destruct (compressed_file_range section) as [[[c o] s]|] eqn:E; [|done]. simpl.
  destruct (Hr c o s E). intros Hx.
  assert (∀ y, Vec <$> uncompressed_data section = Some y → is_Ok (deref y)) as Hvec.
  { intros y (v & _ & ->)%fmap_Some. by exists v. }
  destruct c; [|by apply Hvec]. destruct mmap as [mmap|]; [|by apply Hvec].
  eexists. by apply (new_mmap_range_deref mmap o s).
Qed.
End ObjectFiles.

(** * avma_range.rs *)
Module AvmaRange.
Record AvmaRange := { start : Z; end_ : Z }.
Definition with_start_size (start' size' : Z) : AvmaRange := {| start := start'; end_ := add_u64 start' size' |}.
Definition size (r : AvmaRange) : Z := sub_u64 (end_ r) (start r).
Definition encompasses (r other : AvmaRange) : bool := (start r <=? start other) && (end_ other <=? end_ r).
End AvmaRange.

(** * svma_file_range.rs *)
Module VmaBias.

Record SvmaFileRange := { svma : Z; file_offset : Z; size : Z }.
Definition from_segment (segment : ObjectSegment) : SvmaFileRange :=
  {| svma := segment_address segment; file_offset := segment_file_offset segment; size := segment_file_size segment |}.
Definition from_section (section : ObjectSection) : option SvmaFileRange :=
  '(file_offset', size') ← section_file_range section;
  Some {| svma := section_address section; file_offset := file_offset'; size := size' |}.
Definition encompasses_file_range (r : SvmaFileRange) (other_file_offset other_file_size : Z) : bool :=
  let self_file_range_end := add_u64 (file_offset r) (size r) in
  let other_file_range_end := add_u64 other_file_offset other_file_size in
  (file_offset r <=? other_file_offset) && (other_file_range_end <=? self_file_range_end).
Definition is_encompassed_by_file_range (r : SvmaFileRange) (other_file_offset other_file_size : Z) : bool :=
  let self_file_range_end := add_u64 (file_offset r) (size r) in
  let other_file_range_end := add_u64 other_file_offset other_file_size in
  (other_file_offset <=? file_offset r) && (self_file_range_end <=? other_file_range_end).

Definition compute_vma_bias_impl (contributions : list SvmaFileRange)
    (mapping_file_offset mapping_avma mapping_size : Z) : option Z :=
  ref_contribution ←
    find (λ c, encompasses_file_range c mapping_file_offset mapping_size ||
               is_encompassed_by_file_range c mapping_file_offset mapping_size) contributions;
  let ref_avma :=
    if mapping_file_offset <? file_offset ref_contribution
    then add_u64 mapping_avma (sub_u64 (file_offset ref_contribution) mapping_file_offset)
    else sub_u64 mapping_avma (sub_u64 mapping_file_offset (file_offset ref_contribution)) in
  Some (sub_u64 ref_avma (svma ref_contribution)).
Definition compute_vma_bias (file : Object) (mapping_start_file_offset mapping_start_avma mapping_size : Z)
    : option Z :=
  let contributions :=
    match from_segment <$> segments file with
    | [] => omap from_section (filter section_is_text (sections file))
    | contributions => contributions
    end in
  compute_vma_bias_impl contributions mapping_start_file_offset mapping_start_avma mapping_size.

(** * What the bias is for *)

(** The stated address of a file offset by a contribution, and its address in
    memory by the mapping. *)
Definition stated (c : SvmaFileRange) (offset : Z) : Z := svma c + (offset - file_offset c).
Definition mapped (mapping_file_offset mapping_avma offset : Z) : Z := mapping_avma + (offset - mapping_file_offset).
(** The file range of one is part of that of the other. *)
Definition nested (c : SvmaFileRange) (o s : Z) : Prop :=
  (file_offset c ≤ o ∧ o + s ≤ file_offset c + size c) ∨ (o ≤ file_offset c ∧ file_offset c + size c ≤ o + s).
Definition in_file (o s : Z) : Prop := 0 ≤ o ∧ 0 ≤ s ∧ o + s < 2 ^ 64.

Lemma nested_decided c o s :
  in_file (file_offset c) (size c) → in_file o s →
  encompasses_file_range c o s || is_encompassed_by_file_range c o s = true ↔ nested c o s.
Proof.
  intros (? & ? & ?) (? & ? & ?). unfold encompasses_file_range, is_encompassed_by_file_range, nested.
  rewrite !add_u64_id by (unfold u64_range; lia).
  rewrite orb_true_iff, !andb_true_iff, !Z.leb_le. lia.
Qed.
Lemma wrap_u64_mod a b : a mod 2 ^ 64 = b mod 2 ^ 64 ↔ ∃ k, a = b + k * 2 ^ 64.
Proof.
  split.
  - intros Heq. exists (a / 2 ^ 64 - b / 2 ^ 64). pose proof (Z.div_mod a (2 ^ 64)). pose proof (Z.div_mod b (2 ^ 64)). lia.
  - intros [k ->]. by rewrite Z.mod_add.
Qed.
(** The bias by a contribution moves every stated address to where it is mapped. *)
Lemma bias_moves c o avma offset :
  let ref_avma :=
    if o <? file_offset c then add_u64 avma (sub_u64 (file_offset c) o)
    else sub_u64 avma (sub_u64 o (file_offset c)) in
  wrap_u64 (stated c offset + sub_u64 ref_avma (svma c)) = wrap_u64 (mapped o avma offset).
Proof.
  intros ref_avma. assert (∃ k, ref_avma = avma + (file_offset c - o) + k * 2 ^ 64) as [k Hk].
  { unfold ref_avma, add_u64, sub_u64, wrap_u64. destruct (o <? file_offset c); apply wrap_u64_mod;
      rewrite Zmod_mod; [rewrite Zplus_mod_idemp_r|rewrite Zminus_mod_idemp_r]; f_equal; lia. }
  unfold sub_u64, wrap_u64. rewrite Zplus_mod_idemp_r. apply wrap_u64_mod. exists k.
  unfold stated, mapped. lia.
Qed.

(** C38: The bias of a mapped file is the one of the first segment whose range of
    the file contains the mapped range or lies in it: it takes every address stated
    in that segment, the ones before and after the mapping too, to the address at
    which the mapping has that byte of the file. There is no bias if and only if
    no segment is so nested with the mapping. *)
Theorem bias_locates_file (contributions : list SvmaFileRange) (o avma s : Z) :
  Forall (λ c, in_file (file_offset c) (size c)) contributions → in_file o s →
  match compute_vma_bias_impl contributions o avma s with
  | Some bias =>
      0 ≤ bias < 2 ^ 64 ∧
      ∃ before c after, contributions = before ++ c :: after ∧ nested c o s ∧ Forall (λ c, ¬ nested c o s) before ∧
        ∀ offset, wrap_u64 (stated c offset + bias) = wrap_u64 (mapped o avma offset)
  | None => Forall (λ c, ¬ nested c o s) contributions
  end.
Proof.
  intros Hin Hos. unfold compute_vma_bias_impl. destruct (find _ contributions) as [c|] eqn:Hf.
  - cbn [mbind option_bind option_map]. split; [apply Z.mod_pos_bound; lia|].
    assert (∃ before after, contributions = before ++ c :: after ∧ nested c o s ∧ Forall (λ c, ¬ nested c o s) before)
      as (before & after & -> & Hc & Hb).
    { induction contributions as [|x l IH]; simpl in Hf; [done|]. apply Forall_cons in Hin as [Hx Hl].
      destruct (_ || _) eqn:E in Hf.
      - injection Hf as <-. exists [], l. split; [done|]. split; [by apply nested_decided|done].
      - destruct IH as (before & after & -> & ? & ?); [done..|]. exists (x :: before), after. split; [done|].
        split; [done|]. constructor; [|done]. rewrite <-nested_decided, E by done. done. }
    exists before, c, after. split; [done|]. split; [done|]. split; [done|]. intros offset. apply bias_moves.
  - apply Forall_forall. intros c Hc Hn. rewrite Forall_forall in Hin. apply nested_decided in Hn; [|by apply Hin|done].
    apply list_elem_of_In in Hc. by rewrite (find_none _ _ Hf c Hc) in Hn.
Qed.

(** The segments of the d8 shell, and the part of its text that was mapped. *)
#[local] Definition d8_segments : list SvmaFileRange :=
  [{| svma := 0; file_offset := 0; size := 3968728 |};
   {| svma := 3973120; file_offset := 3969024; size := 16697200 |};
   {| svma := 20674416; file_offset := 20666224; size := 338128 |}].
Example bias_locates_file_witness :
  compute_vma_bias_impl d8_segments 17129472 94357745565696 1572864 = Some 94357728432128 ∧
  ∃ before c after, d8_segments = before ++ c :: after ∧ nested c 17129472 1572864.
Proof.
  pose proof (bias_locates_file d8_segments 17129472 94357745565696 1572864) as H.
  assert (compute_vma_bias_impl d8_segments 17129472 94357745565696 1572864 = Some 94357728432128) as Heq by done.
  rewrite Heq in H. destruct H as (_ & before & c & after & ? & ? & _).
  - repeat constructor; simpl; lia.
  - repeat split; lia.
  - split; [exact Heq|]. exists before, c, after. split; assumption.
Defined.
End VmaBias.
