(* ===== verification/CodeIds.v ===== *)
(** The identity of a binary: [CodeId] of samply-symbols/src/shared.rs with its
    text form, and debugid_util.rs, which makes debug IDs of what an object file
    tells about itself. *)
From S2P Require Import Prelude RustStr LibTable SyntheticJit ObjectFiles.
From stdpp Require Import options.
Open Scope Z_scope.

(** * Hexadecimal text with a given number of digits *)
Module HexText.
Import RustStr.

Definition hex_digit_upper (d : Z) : ascii := ascii_of_nat (Z.to_nat (if d <? 10 then 48 + d else 55 + d)).
Fixpoint padded (digit : Z → ascii) (n : nat) (z : Z) : string :=
  match n with O => "" | S n' => padded digit n' (z / 16) +:+ String (digit (z mod 16)) "" end.
(** The digits [format!] prints with [x] and [X]. *)
Definition is_digit (digit : Z → ascii) : Prop := ∀ d, 0 ≤ d < 16 → digit_value (digit d) = d ∧ (nat_of_ascii (digit d) < 128)%nat ∧ digit d ≠ "+"%char.

Lemma digit_cases (P : Z → Prop) d :
  0 ≤ d < 16 → P 0 → P 1 → P 2 → P 3 → P 4 → P 5 → P 6 → P 7 → P 8 → P 9 → P 10 → P 11 → P 12 → P 13 → P 14 → P 15 → P d.
Proof.
  intros Hd. intros. assert (d = 0 ∨ d = 1 ∨ d = 2 ∨ d = 3 ∨ d = 4 ∨ d = 5 ∨ d = 6 ∨ d = 7 ∨ d = 8 ∨ d = 9 ∨
    d = 10 ∨ d = 11 ∨ d = 12 ∨ d = 13 ∨ d = 14 ∨ d = 15) as Hcases by lia.
  by repeat destruct Hcases as [->|Hcases]; subst.
Qed.
Lemma hex_digit_ok : is_digit hex_digit.
Proof. intros d Hd. pattern d. apply digit_cases; [done|..]; (split; [done|]; split; [vm_compute; lia|done]). Qed.
Lemma hex_digit_upper_ok : is_digit hex_digit_upper.
Proof. intros d Hd. pattern d. apply digit_cases; [done|..]; (split; [done|]; split; [vm_compute; lia|done]). Qed.

Lemma length_app_string a b : String.length (a +:+ b) = (String.length a + String.length b)%nat.
Proof. induction a as [|c a IH]; [done|]. rewrite app_cons. simpl. by rewrite IH. Qed.
Lemma padded_length digit n z : String.length (padded digit n z) = n.
Proof. revert z. induction n as [|n IH]; intros z; [done|]. cbn [padded]. rewrite length_app_string, IH. simpl. lia. Qed.

Lemma parse_digits_app radix limit acc a b :
  parse_digits radix limit acc (a +:+ b) = parse_digits radix limit acc a ≫= λ acc', parse_digits radix limit acc' b.
Proof.
  revert acc. induction a as [|c a IH]; intros acc; [done|]. rewrite app_cons. cbn [parse_digits].
  destruct (_ && _); [apply IH|done].
Qed.
Lemma parse_padded digit limit n acc z :
  is_digit digit → 0 ≤ acc → 0 ≤ z < 16 ^ Z.of_nat n → acc * 16 ^ Z.of_nat n + z < limit →
  parse_digits 16 limit acc (padded digit n z) = Some (acc * 16 ^ Z.of_nat n + z).
Proof.
  intros Hd. revert z. induction n as [|n IH]; intros z Ha Hz Hl; cbn [padded parse_digits].
  { f_equal. simpl in *. lia. }
  rewrite parse_digits_app. rewrite Nat2Z.inj_succ, Z.pow_succ_r in * by lia.
  pose proof (Z.div_mod z 16 ltac:(lia)) as Hdm. pose proof (Z.mod_pos_bound z 16 ltac:(lia)) as Hm.
  destruct (Hd (z mod 16) Hm) as [Hv _].
  assert (0 ≤ z / 16 < 16 ^ Z.of_nat n) by (split; [apply Z.div_pos; lia|apply Z.div_lt_upper_bound; lia]).
  rewrite IH; [|done|done|nia]. cbn [mbind option_bind parse_digits]. rewrite Hv.
  destruct (Z.ltb_spec (z mod 16) 16); [|lia].
  destruct (Z.ltb_spec ((acc * 16 ^ Z.of_nat n + z / 16) * 16 + z mod 16) limit); [|lia]. cbn [andb]. f_equal. lia.
Qed.
(** A number without leading zeros. *)
Lemma hex_digits_padded fuel z acc :
  0 ≤ z < 16 ^ Z.of_nat fuel → (0 < fuel)%nat →
  ∃ n, (1 ≤ n ≤ fuel)%nat ∧ z < 16 ^ Z.of_nat n ∧ hex_digits fuel z acc = padded hex_digit n z +:+ acc.
Proof.
  revert z acc. induction fuel as [|fuel IH]; intros z acc Hz Hf; [lia|]. cbn [hex_digits].
  destruct (Z.ltb_spec z 16) as [Hs|Hs].
  - exists 1%nat. split; [lia|]. split; [lia|]. done.
  - rewrite Nat2Z.inj_succ, Z.pow_succ_r in Hz by lia.
    assert (0 ≤ z / 16 < 16 ^ Z.of_nat fuel) as Hz' by (split; [apply Z.div_pos; lia|apply Z.div_lt_upper_bound; lia]).
    assert (0 < fuel)%nat by (destruct fuel; [simpl in Hz; lia|lia]).
    destruct (IH (z / 16) (String (hex_digit (z mod 16)) acc)) as (n & Hn & Hlt & ->); [done..|].
    exists (S n). split; [lia|]. split.
    + rewrite Nat2Z.inj_succ, Z.pow_succ_r by lia. pose proof (Z.div_mod z 16 ltac:(lia)).
      pose proof (Z.mod_pos_bound z 16 ltac:(lia)). lia.
    + cbn [padded]. rewrite app_assoc_string. done.
Qed.
(** No digit is a plus sign or goes on with a character. *)
Lemma padded_head digit n z rest :
  is_digit digit → 0 ≤ z → strip_prefix (padded digit n z +:+ rest) "+" = match n with O => strip_prefix rest "+" | _ => None end.
Proof.
  intros Hd. revert z rest. induction n as [|n IH]; intros z rest Hz; [done|]. cbn [padded].
  rewrite app_assoc_string, IH by (apply Z.div_pos; lia). destruct n; [|done]. rewrite app_cons, app_empty.
  cbn [strip_prefix]. destruct (Hd (z mod 16)) as (_ & _ & Hne); [apply Z.mod_pos_bound; lia|].
  by rewrite decide_False by congruence.
Qed.
Lemma from_str_radix_padded digit limit n z :
  is_digit digit → (0 < n)%nat → 0 ≤ z < 16 ^ Z.of_nat n → z < limit →
  from_str_radix limit (padded digit n z) 16 = Some z.
Proof.
  intros Hd Hn Hz Hl. unfold from_str_radix.
  pose proof (padded_head digit n z "" Hd ltac:(lia)) as Hp. rewrite app_nil in Hp. rewrite Hp.
  destruct n as [|n]; [lia|]. cbn [from_option id default].
  assert (is_empty (padded digit (S n) z) = false) as ->.
  { pose proof (padded_length digit (S n) z). by destruct (padded digit (S n) z). }
  rewrite parse_padded; [f_equal; lia|done|lia|done|lia].
Qed.
Definition ascii_text (s : string) : Prop := Forall (λ c, nat_of_ascii c < 128)%nat (String.list_ascii_of_string s).
Lemma ascii_text_app a b : ascii_text (a +:+ b) ↔ ascii_text a ∧ ascii_text b.
Proof.
  unfold ascii_text. induction a as [|c a IH]; [rewrite app_empty; simpl; split; [by split|by intros []]|].
  rewrite app_cons. simpl. rewrite !Forall_cons, IH. tauto.
Qed.
Lemma padded_ascii digit n z : is_digit digit → 0 ≤ z → ascii_text (padded digit n z).
Proof.
  intros Hd. revert z. induction n as [|n IH]; intros z Hz; [by constructor|]. cbn [padded].
  apply ascii_text_app. split; [apply IH, Z.div_pos; lia|]. apply Forall_singleton.
  apply (Hd (z mod 16)), Z.mod_pos_bound. lia.
Qed.
Lemma ascii_continues s : ascii_text s → continues s = false.
Proof.
  destruct s as [|c s]; [done|]. unfold ascii_text. cbn [continues String.list_ascii_of_string]. intros [Hc _]%Forall_cons.
  destruct (Nat.eqb_spec (nat_of_ascii c / 64) 2) as [Heq|]; [|done].
  pose proof (Nat.Div0.div_lt_upper_bound (nat_of_ascii c) 64 2). simpl in *. lia.
Qed.
End HexText.

(** * Code IDs: shared.rs *)
Module CodeIds.
Import RustStr HexText.

(** The uuid crate: a UUID is its sixteen bytes; [from_str] reads what [{:X}] of
    [simple] prints. *)
Definition uuid_simple_upper (uuid : list Z) : string := foldr (λ b s, padded hex_digit_upper 2 b +:+ s) "" uuid.
Definition bytes_ok (bytes : list Z) : Prop := Forall u8_range bytes.
Class UuidOps := {
  uuid_from_str : string → option (list Z);
  uuid_from_simple : ∀ uuid, length uuid = 16%nat → bytes_ok uuid → uuid_from_str (uuid_simple_upper uuid) = Some uuid
}.

Inductive CodeId :=
| PeCodeId (timestamp image_size : Z)
| MachoUuid (uuid : list Z)
| ElfBuildId (bytes : list Z).
#[global] Instance CodeId_eq_dec : EqDecision CodeId.
Proof. solve_decision. Defined.

(** ** [Display] *)
Definition pe_to_string (timestamp image_size : Z) : string :=
  padded hex_digit_upper 8 timestamp +:+ hex_digits 8 image_size "".
Definition elf_to_string (bytes : list Z) : string := foldr (λ b s, padded hex_digit 2 b +:+ s) "" bytes.
Definition to_string (c : CodeId) : string :=
  match c with
  | PeCodeId timestamp image_size => pe_to_string timestamp image_size
  | MachoUuid uuid => uuid_simple_upper uuid
  | ElfBuildId bytes => elf_to_string bytes
  end.

(** ** [FromStr]: [Ok None] is an error; a slice that cuts a character panics *)
Definition slice (s : string) (a b : nat) : res string :=
  '(_, rest) ← unwrap (split_at a s);
  if continues rest then Panic else slice_to rest (b - a).
Definition pe_from_str (s : string) : res (option CodeId) :=
  let len := String.length s in
  if decide (len < 9 ∨ 16 < len)%nat then Ok None
  else
    timestamp_text ← slice s 0 8;
    match from_str_radix (2 ^ 32) timestamp_text 16 with
    | None => Ok None
    | Some timestamp =>
        size_text ← slice s 8 len;
        Ok (PeCodeId timestamp <$> from_str_radix (2 ^ 32) size_text 16)
    end.
(** The loop over the bytes, from byte [i] on. *)
Fixpoint elf_bytes (n i : nat) (s : string) : res (option (list Z)) :=
  match n with
  | O => Ok (Some [])
  | S n' =>
      hex_byte ← slice s (i * 2) (i * 2 + 2);
      match from_str_radix (2 ^ 8) hex_byte 16 with
      | None => Ok None
      | Some b => rest ← elf_bytes n' (S i) s; Ok (cons b <$> rest)
      end
  end.
Definition elf_from_str (s : string) : res (option CodeId) :=
  o ← elf_bytes (String.length s / 2) 0 s; Ok (@fmap option _ _ _ ElfBuildId o).
Definition is_uppercase_hex_char (c : ascii) : bool :=
  let n := nat_of_ascii c in
  ((48 <=? n) && (n <=? 57))%nat || ((65 <=? n) && (n <=? 70))%nat.
Fixpoint is_uppercase_hex (s : string) : bool :=
  match s with EmptyString => true | String c s' => is_uppercase_hex_char c && is_uppercase_hex s' end.
Definition from_str `{UuidOps} (s : string) : res (option CodeId) :=
  if decide (String.length s ≤ 17)%nat then pe_from_str s
  else if (String.length s =? 32)%nat && is_uppercase_hex s then Ok (MachoUuid <$> uuid_from_str s)
  else elf_from_str s.

(** * Lemmas *)
Lemma split_string_at_app a b : split_at (String.length a) (a +:+ b) = Some (a, b).
Proof.
  induction a as [|c a IH]; [by destruct b|]. rewrite app_cons. cbn [String.length split_at]. by rewrite IH.
Qed.
Lemma slice_app a b c :
  ascii_text b → ascii_text c → slice (a +:+ (b +:+ c)) (String.length a) (String.length a + String.length b) = Ok b.
Proof.
  intros Hb Hc. unfold slice, slice_to. rewrite split_string_at_app. cbn [unwrap mbind res_bind].
  rewrite ascii_continues by by apply ascii_text_app.
  replace (String.length a + String.length b - String.length a)%nat with (String.length b) by lia.
  rewrite split_string_at_app. cbn [unwrap mbind res_bind]. by rewrite (ascii_continues c).
Qed.
Lemma elf_text_ascii bytes : bytes_ok bytes → ascii_text (elf_to_string bytes).
Proof.
  induction 1 as [|b bytes [Hb _] _ IH]; [by constructor|]. cbn [elf_to_string foldr]. apply ascii_text_app.
  split; [by apply padded_ascii; [apply hex_digit_ok|]|exact IH].
Qed.
Lemma elf_text_length bytes : String.length (elf_to_string bytes) = (2 * length bytes)%nat.
Proof.
  induction bytes as [|b bytes IH]; [done|]. cbn [elf_to_string foldr length]. rewrite length_app_string, padded_length.
  unfold elf_to_string in IH. rewrite IH. lia.
Qed.
Lemma uuid_text_length uuid : String.length (uuid_simple_upper uuid) = (2 * length uuid)%nat.
Proof.
  induction uuid as [|b uuid IH]; [done|]. cbn [uuid_simple_upper foldr length]. rewrite length_app_string, padded_length.
  unfold uuid_simple_upper in IH. rewrite IH. lia.
Qed.
Lemma byte_digits digit b : is_digit digit → u8_range b → from_str_radix (2 ^ 8) (padded digit 2 b) 16 = Some b.
Proof. intros Hd [? ?]. apply from_str_radix_padded; [done|lia|simpl; lia|lia]. Qed.
Lemma elf_bytes_read before bytes i :
  bytes_ok bytes → String.length before = (i * 2)%nat →
  elf_bytes (length bytes) i (before +:+ elf_to_string bytes) = Ok (Some bytes).
Proof.
  intros Hb. revert before i. induction Hb as [|b bytes Hb Hbs IH]; intros before i Hlen; [done|].
  cbn [length elf_bytes elf_to_string foldr]. fold (elf_to_string bytes).
  assert (slice (before +:+ (padded hex_digit 2 b +:+ elf_to_string bytes)) (i * 2) (i * 2 + 2) = Ok (padded hex_digit 2 b)) as ->.
  { rewrite <-Hlen. replace 2%nat with (String.length (padded hex_digit 2 b)) at 2 by apply padded_length.
    apply slice_app; [apply padded_ascii; [apply hex_digit_ok|apply Hb]|by apply elf_text_ascii]. }
  cbn [mbind res_bind]. rewrite (byte_digits _ _ hex_digit_ok Hb). rewrite <-app_assoc_string, IH; [done|].
  rewrite length_app_string, padded_length, Hlen. lia.
Qed.
Lemma elf_round_trip bytes : bytes_ok bytes → elf_from_str (elf_to_string bytes) = Ok (Some (ElfBuildId bytes)).
Proof.
  intros Hb. unfold elf_from_str. rewrite elf_text_length, Nat.mul_comm, Nat.div_mul by lia.
  pose proof (elf_bytes_read "" bytes 0 Hb eq_refl) as Heq. rewrite app_empty in Heq. by rewrite Heq.
Qed.
Lemma pe_round_trip timestamp image_size :
  u32_range timestamp → u32_range image_size →
  pe_from_str (pe_to_string timestamp image_size) = Ok (Some (PeCodeId timestamp image_size)) ∧
  (9 ≤ String.length (pe_to_string timestamp image_size) ≤ 16)%nat.
Proof.
  intros [? ?] [? ?]. unfold pe_to_string.
  destruct (hex_digits_padded 8 image_size "") as (n & Hn & Hlt & Heq); [simpl; lia|lia|].
  rewrite app_nil in Heq. rewrite Heq.
  assert (String.length (padded hex_digit_upper 8 timestamp +:+ padded hex_digit n image_size) = (8 + n)%nat) as Hlen
    by (by rewrite length_app_string, !padded_length).
  split; [|rewrite Hlen; lia]. unfold pe_from_str. rewrite Hlen. rewrite decide_False by lia.
  pose proof (padded_ascii hex_digit_upper 8 timestamp hex_digit_upper_ok ltac:(lia)) as Ha1.
  pose proof (padded_ascii hex_digit n image_size hex_digit_ok ltac:(lia)) as Ha2.
  pose proof (slice_app "" _ _ Ha1 Ha2) as Hs1. rewrite app_empty, padded_length in Hs1. cbn [String.length Nat.add] in Hs1.
  assert (ascii_text "") as Hnil by constructor.
  pose proof (slice_app (padded hex_digit_upper 8 timestamp) _ "" Ha2 Hnil) as Hs2.
  rewrite app_nil, !padded_length in Hs2. rewrite Hs1. cbn [mbind res_bind].
  rewrite (from_str_radix_padded _ _ _ _ hex_digit_upper_ok) by (simpl; lia).
  rewrite Hs2. cbn [mbind res_bind]. rewrite (from_str_radix_padded _ _ _ _ hex_digit_ok) by (simpl; lia). done.
Qed.

(** *** What texts look like *)
Lemma upper_hex_app a b : is_uppercase_hex (a +:+ b) = is_uppercase_hex a && is_uppercase_hex b.
Proof.
  induction a as [|c a IH]; [done|]. rewrite app_cons. cbn [is_uppercase_hex]. by rewrite IH, andb_assoc.
Qed.
Lemma upper_hex_padded n z : 0 ≤ z → is_uppercase_hex (padded hex_digit_upper n z) = true.
Proof.
  revert z. induction n as [|n IH]; intros z Hz; [done|]. cbn [padded]. rewrite upper_hex_app, IH by (apply Z.div_pos; lia).
  cbn [is_uppercase_hex andb]. rewrite andb_true_r. pose proof (Z.mod_pos_bound z 16 ltac:(lia)) as Hm.
  generalize (z mod 16) Hm. clear. intros d Hd. pattern d. by apply digit_cases.
Qed.
Lemma upper_hex_uuid uuid : bytes_ok uuid → is_uppercase_hex (uuid_simple_upper uuid) = true.
Proof.
  induction 1 as [|b uuid [Hb _] _ IH]; [done|]. cbn [uuid_simple_upper foldr]. rewrite upper_hex_app, upper_hex_padded by done.
  exact IH.
Qed.
(** A byte whose two hexadecimal digits are decimal ones. *)
Definition decimal_byte (b : Z) : Prop := b / 16 < 10 ∧ b mod 16 < 10.
Lemma upper_hex_digit d : 0 ≤ d < 16 → is_uppercase_hex_char (hex_digit d) = true ↔ d < 10.
Proof. intros Hd. pattern d. apply digit_cases; [done|..]; (split; [try done; lia|vm_compute; try done; lia]). Qed.
Lemma upper_hex_elf bytes : bytes_ok bytes → is_uppercase_hex (elf_to_string bytes) = true ↔ Forall decimal_byte bytes.
Proof.
  induction 1 as [|b bytes [Hb Hlt] _ IH]; [split; [by constructor|done]|].
  cbn [elf_to_string foldr padded]. fold (elf_to_string bytes). rewrite app_empty. rewrite app_cons, app_empty.
  rewrite !app_cons, app_empty. cbn [is_uppercase_hex]. rewrite !andb_true_iff, IH, Forall_cons.
  rewrite !upper_hex_digit by (apply Z.mod_pos_bound; lia). unfold decimal_byte.
  assert ((b / 16) mod 16 = b / 16) as ->; [|tauto].
  apply Z.mod_small. split; [apply Z.div_pos; lia|apply Z.div_lt_upper_bound; lia].
Qed.

(** * Round trip *)
Definition code_id_ok (c : CodeId) : Prop :=
  match c with
  | PeCodeId timestamp image_size => u32_range timestamp ∧ u32_range image_size
  | MachoUuid uuid => length uuid = 16%nat ∧ bytes_ok uuid
  | ElfBuildId bytes => bytes_ok bytes
  end.
(** Build IDs whose text is not the text of another kind. *)
Definition told_apart (c : CodeId) : Prop :=
  match c with
  | ElfBuildId bytes => (8 < length bytes)%nat ∧ ¬ (length bytes = 16%nat ∧ Forall decimal_byte bytes)
  | _ => True
  end.

(** C40: Reading the text of a code ID gives the code ID back for all IDs of PE and
    Mach-O files, and for an ELF build ID if and only if it is longer than eight
    bytes and is not one of sixteen bytes without a hexadecimal letter: shorter
    ones are read as PE code IDs, and those as Mach-O UUIDs. *)
Theorem code_id_round_trip `{UuidOps} (c : CodeId) :
  code_id_ok c → from_str (to_string c) = Ok (Some c) ↔ told_apart c.
Proof.
  intros Hok. unfold from_str. destruct c as [timestamp image_size|uuid|bytes]; cbn [to_string code_id_ok told_apart] in *.
  - destruct Hok. destruct (pe_round_trip timestamp image_size) as [Heq Hlen]; [done..|].
    rewrite decide_True by lia. done.
  - destruct Hok as [Hlen Hb]. pose proof (uuid_text_length uuid) as Hl. rewrite Hlen in Hl. rewrite Hl.
    rewrite decide_False by lia. rewrite upper_hex_uuid by done. cbn [andb Nat.eqb]. simpl. by rewrite uuid_from_simple.
  - rewrite elf_text_length. destruct (decide (2 * length bytes ≤ 17)%nat) as [Hs|Hs].
    + split; [|lia]. unfold pe_from_str. intros Heq.
      destruct (decide _); [done|]. apply bind_Ok in Heq as (? & _ & Heq).
      destruct (from_str_radix _ x 16); [|done]. apply bind_Ok in Heq as (x' & _ & Heq).
      by destruct (from_str_radix _ x' 16).
    + destruct (Nat.eqb_spec (2 * length bytes) 32) as [H32|H32]; cbn [andb].
      * destruct (is_uppercase_hex (elf_to_string bytes)) eqn:Hu.
        -- split; [by destruct (uuid_from_str _)|]. intros [_ []]. split; [lia|]. by apply upper_hex_elf.
        -- rewrite elf_round_trip by done. split; [|done]. intros _. split; [lia|]. intros [_ Hd].
           apply upper_hex_elf in Hd; [|done]. congruence.
      * rewrite elf_round_trip by done. split; [|done]. intros _. split; lia.
Qed.

(** UUIDs read two digits at a time, for the example. *)
#[local] Program Instance hex_uuids : UuidOps :=
  {| uuid_from_str s := match elf_bytes 16 0 s with Ok o => o | Panic => None end |}.
Next Obligation.
  intros uuid Hlen Hb. rewrite <-Hlen.
  assert (∀ before bytes i, bytes_ok bytes → String.length before = (i * 2)%nat →
    elf_bytes (length bytes) i (before +:+ uuid_simple_upper bytes) = Ok (Some bytes)) as Hread.
  { clear. intros before bytes i Hb. revert before i. induction Hb as [|b bytes Hb Hbs IH]; intros before i Hlen; [done|].
    cbn [length elf_bytes uuid_simple_upper foldr]. fold (uuid_simple_upper bytes).
    assert (ascii_text (uuid_simple_upper bytes)) as Ha.
    { clear -Hbs. induction Hbs as [|b bytes [Hb _] _ IH]; [by constructor|]. cbn [uuid_simple_upper foldr].
      apply ascii_text_app. split; [by apply padded_ascii; [apply hex_digit_upper_ok|]|exact IH]. }
    assert (slice (before +:+ (padded hex_digit_upper 2 b +:+ uuid_simple_upper bytes)) (i * 2) (i * 2 + 2) =
      Ok (padded hex_digit_upper 2 b)) as ->.
    { rewrite <-Hlen. replace 2%nat with (String.length (padded hex_digit_upper 2 b)) at 2 by apply padded_length.
      apply slice_app; [apply padded_ascii; [apply hex_digit_upper_ok|apply Hb]|done]. }
    cbn [mbind res_bind]. rewrite (byte_digits _ _ hex_digit_upper_ok Hb). rewrite <-app_assoc_string, IH; [done|].
    rewrite length_app_string, padded_length, Hlen. lia. }
  pose proof (Hread "" uuid 0%nat Hb eq_refl) as Heq. rewrite app_empty in Heq. by rewrite Heq.
Qed.
Example code_id_round_trip_witness :
  from_str (to_string (ElfBuildId [152; 75; 118; 111; 28; 181; 105; 156; 59])) =
    Ok (Some (ElfBuildId [152; 75; 118; 111; 28; 181; 105; 156; 59])) ∧
  from_str (to_string (ElfBuildId [152; 75])) ≠ Ok (Some (ElfBuildId [152; 75])).
Proof.
  split.
  - apply (code_id_round_trip (ElfBuildId [152; 75; 118; 111; 28; 181; 105; 156; 59])).
    + by repeat constructor.
    + split; [simpl; lia|]. by intros [? _].
  - rewrite (code_id_round_trip (ElfBuildId [152; 75])) by by repeat constructor. simpl. lia.
Defined.
End CodeIds.

(** * Debug IDs: debugid_util.rs *)
Module DebugIds.
Import CodeIds ObjectFiles.

(** [u32::from_le_bytes] and its kind, and the bytes of [Uuid::from_fields], the
    most significant one of a field first. *)
Definition from_be_bytes (bytes : list Z) : Z := foldl (λ acc b, Z.lor (Z.shiftl acc 8) b) 0 bytes.
Definition from_le_bytes (bytes : list Z) : Z := from_be_bytes (reverse bytes).
Fixpoint to_be_bytes (n : nat) (z : Z) : list Z :=
  match n with O => [] | S n' => to_be_bytes n' (z / 256) ++ [z mod 256] end.
Definition from_fields (d1 d2 d3 : Z) (d4 : list Z) : list Z :=
  to_be_bytes 4 d1 ++ to_be_bytes 2 d2 ++ to_be_bytes 2 d3 ++ d4.

(** [DebugId::from_uuid] of the debugid crate. *)
Class UuidDebugIds `{DebugIdOps} := { from_uuid : list Z → DebugId }.

(** The sixteen bytes made of an identifier. *)
Definition identifier_uuid (identifier : list Z) (little_endian : bool) : list Z :=
  let d := take 16 (take 16 identifier ++ replicate 16 0) in
  let read := if little_endian then from_le_bytes else from_be_bytes in
  from_fields (read (take 4 d)) (read (take 2 (drop 4 d))) (read (take 2 (drop 6 d))) (drop 8 d).
Fixpoint xor_bytes (i : nat) (bytes hash : list Z) : list Z :=
  match bytes with
  | [] => hash
  | byte :: bytes' => xor_bytes (S i) bytes' (alter (λ h, Z.lxor h byte) (i `mod` 16)%nat hash)
  end.
Definition text_hash (text_first_page : list Z) : list Z := xor_bytes 0 (take 4096 text_first_page) (replicate 16 0).

Section debug_ids.
Context `{UuidDebugIds}.
Definition from_identifier (identifier : list Z) (little_endian : bool) : DebugId :=
  from_uuid (identifier_uuid identifier little_endian).
Definition from_text_first_page (text_first_page : list Z) (little_endian : bool) : DebugId :=
  from_identifier (text_hash text_first_page) little_endian.
Definition debug_id_for_object (obj : Object) : res (option DebugId) :=
  match pdb_info obj with
  | Some (guid, age) => id ← unwrap (from_guid_age guid age); Ok (Some id)
  | None =>
      Ok match build_id obj with
         | Some build_id' => Some (from_identifier build_id' (is_little_endian obj))
         | None =>
             match mach_uuid obj with
             | Some uuid => Some (from_uuid uuid)
             | None =>
                 section ← section_by_name obj ".text";
                 first_page_data ← data_range section (section_address section) (Z.min (section_size section) 4096);
                 Some (from_text_first_page first_page_data (is_little_endian obj))
             end
         end
  end.
End debug_ids.
Definition code_id_for_object (obj : Object) : option CodeId :=
  match build_id obj with
  | Some build_id' => Some (ElfBuildId build_id')
  | None => MachoUuid <$> mach_uuid obj
  end.

(** ** Bytes *)
Lemma to_be_bytes_length n z : length (to_be_bytes n z) = n.
Proof. revert z. induction n as [|n IH]; intros z; [done|]. cbn [to_be_bytes]. rewrite length_app, IH. simpl. lia. Qed.
Lemma from_be_snoc bytes b : from_be_bytes (bytes ++ [b]) = Z.lor (Z.shiftl (from_be_bytes bytes) 8) b.
Proof. unfold from_be_bytes. by rewrite foldl_app. Qed.
(** Low bits can be put in by [|]. *)
Lemma low_bits k a b : 0 ≤ k → 0 ≤ b < 2 ^ k → Z.lor (Z.shiftl a k) b = a * 2 ^ k + b.
Proof.
  intros Hk [Hb Hlt]. rewrite Z.shiftl_mul_pow2 by lia.
  assert (Z.land (a * 2 ^ k) b = 0) as Hz.
  { apply Z.bits_inj'. intros n Hn. rewrite Z.land_spec, Z.bits_0. destruct (Z.lt_ge_cases n k).
    - by rewrite Z.mul_pow2_bits_low by lia.
    - destruct (decide (b = 0)) as [->|]; [by rewrite Z.bits_0, andb_false_r|].
      rewrite (Z.bits_above_log2 b), andb_false_r; [done|lia|].
      apply Z.lt_le_trans with k; [|done]. apply Z.log2_lt_pow2; lia. }
  by rewrite <-Z.lxor_lor, <-Z.add_nocarry_lxor.
Qed.
Lemma low_byte a b : 0 ≤ a → u8_range b → Z.lor (Z.shiftl a 8) b = a * 256 + b.
Proof. intros _ Hb. by apply (low_bits 8). Qed.
Lemma from_be_nonneg bytes : bytes_ok bytes → 0 ≤ from_be_bytes bytes.
Proof.
  intros Hb. induction bytes as [|b bytes IH] using rev_ind; [done|]. apply Forall_app in Hb as [Hb [Hx _]%Forall_cons].
  rewrite from_be_snoc. apply Z.lor_nonneg. split; [|apply Hx]. by apply Z.shiftl_nonneg, IH.
Qed.
Lemma be_round_trip bytes : bytes_ok bytes → to_be_bytes (length bytes) (from_be_bytes bytes) = bytes.
Proof.
  intros Hb. induction bytes as [|b bytes IH] using rev_ind; [done|]. pose proof Hb as Hall.
  apply Forall_app in Hb as [Hb [Hx _]%Forall_cons]. rewrite length_app, Nat.add_comm. cbn [length Nat.add to_be_bytes].
  rewrite from_be_snoc, low_byte by (try done; by apply from_be_nonneg). destruct Hx as [? Hlt]. change (2 ^ 8) with 256 in Hlt.
  rewrite Z.div_add_l, Z.div_small, Z.add_0_r by lia. rewrite IH by done.
  by rewrite Z.add_comm, Z.mod_add, Z.mod_small by lia.
Qed.

(** The bytes of the identifier, cut off or filled up; the fields of a
    little-endian file turned around. *)
Lemma identifier_uuid_spec b0 b1 b2 b3 b4 b5 b6 b7 rest identifier little :
  bytes_ok identifier → take 16 (identifier ++ replicate 16 0) = b0 :: b1 :: b2 :: b3 :: b4 :: b5 :: b6 :: b7 :: rest →
  identifier_uuid identifier little =
    (if little then [b3; b2; b1; b0; b5; b4; b7; b6] else [b0; b1; b2; b3; b4; b5; b6; b7]) ++ rest.
Proof.
  intros Hb Heq. unfold identifier_uuid.
  assert (take 16 (take 16 identifier ++ replicate 16 0) = take 16 (identifier ++ replicate 16 0)) as ->.
  { rewrite !take_app, take_take, Nat.min_id. f_equal. rewrite length_take. f_equal. lia. }
  assert (bytes_ok (take 16 (identifier ++ replicate 16 0))) as Hok.
  { apply Forall_take, Forall_app. split; [done|]. apply Forall_replicate. split; [lia|done]. }
  rewrite Heq in *. unfold bytes_ok in Hok. rewrite !Forall_cons in Hok. destruct Hok as (?&?&?&?&?&?&?&?&_).
  unfold from_fields, from_le_bytes. cbn [take drop]. rewrite !take_0, !drop_0.
  pose proof (be_round_trip [b0; b1; b2; b3]) as E1. pose proof (be_round_trip [b4; b5]) as E2.
  pose proof (be_round_trip [b6; b7]) as E3. pose proof (be_round_trip [b3; b2; b1; b0]) as E4.
  pose proof (be_round_trip [b5; b4]) as E5. pose proof (be_round_trip [b7; b6]) as E6. cbn [length] in *.
  destruct little; cbn [reverse rev_append app].
  - change (reverse [b0; b1; b2; b3]) with [b3; b2; b1; b0]. change (reverse [b4; b5]) with [b5; b4].
    change (reverse [b6; b7]) with [b7; b6]. by rewrite E4, E5, E6 by (unfold bytes_ok; rewrite !Forall_cons, Forall_nil; tauto).
  - by rewrite E1, E2, E3 by (unfold bytes_ok; rewrite !Forall_cons, Forall_nil; tauto).
Qed.
End DebugIds.
