(* ===== verification/PeMappings.v ===== *)
(** Windows programs run by Wine: samply/src/linux_shared/pe_mappings.rs. The
    sections of a PE image are often copied into memory and not mapped; the place
    of the header and the size stated in it tell where they are. *)
From S2P Require Import Prelude RustStr BTree PathFiles ObjectFiles CodeIds.
From stdpp Require Import options.
Open Scope Z_scope.

(** The PE headers as the object crate reads them: the size of the image and the
    time stamp of 32-bit and of 64-bit files, [None] for other files. *)
Class PeHeaders := { pe_headers : list Z → option (Z * Z) }.

Module PeMappings.
Import AvmaRange CodeIds.

Record SuspectedPeMapping := { path : string; code_id : CodeId; avma_range : AvmaRange }.
Notation PeMappings := (btree SuspectedPeMapping).
Definition new : PeMappings := [].

Definition find_mapping (m : PeMappings) (r : AvmaRange) : option SuspectedPeMapping :=
  '(_, mapping) ← next_back (btree_range_to_inclusive (start r) m);
  if encompasses r (avma_range mapping) then Some mapping else None.

Section check.
Context `{FileBytes} `{!PeHeaders}.

Definition get_pe_mapping_size_and_codeid (files : PathFiles.fs) (path' : string) : option (Z * CodeId) :=
  file ← PathFiles.open_file files path';
  mmap ← map_file file;
  '(image_size, timestamp) ← pe_headers mmap;
  Some (image_size, PeCodeId timestamp image_size).
Definition filename_is_pe (path' : string) : bool :=
  RustStr.ends_with path' ".exe" || RustStr.ends_with path' ".dll" ||
  RustStr.ends_with path' ".EXE" || RustStr.ends_with path' ".DLL".
(** [path_text] is the path, [None] if it is not UTF-8. *)
Definition check_mmap (files : PathFiles.fs) (m : PeMappings) (path' : string) (path_text : option string)
    (mapping_start_avma : Z) : PeMappings :=
  if filename_is_pe path' then
    match path_text with
    | None => m
    | Some text =>
        match get_pe_mapping_size_and_codeid files text with
        | Some (size', code_id') =>
            btree_insert mapping_start_avma
              {| path := text; code_id := code_id'; avma_range := with_start_size mapping_start_avma size' |} m
        | None => m
        end
    end
  else m.
End check.

(** * What is found *)

(** The key is the start of the value; the images end in the address space. *)
Definition mapping_ok (k : Z) (x : SuspectedPeMapping) : Prop :=
  start (avma_range x) = k ∧ k ≤ end_ (avma_range x).
Record wf (m : PeMappings) : Prop := {
  wf_sorted : btree_wf m;
  wf_starts : ∀ k x, (k, x) ∈ m → mapping_ok k x
}.
Lemma wf_new : wf new.
Proof. split; [apply btree_wf_nil|]. intros k x Hin. by apply elem_of_nil in Hin. Qed.
(** Image sizes have 32 bits. *)
Definition headers_ok `{PeHeaders} : Prop := ∀ data image_size timestamp,
  pe_headers data = Some (image_size, timestamp) → u32_range image_size ∧ u32_range timestamp.
Lemma check_mmap_wf `{FileBytes} `{!PeHeaders} files m path' text a :
  headers_ok → 0 ≤ a < 2 ^ 64 - 2 ^ 32 → wf m → wf (check_mmap files m path' text a).
Proof.
  intros Hh Ha Hm. unfold check_mmap. destruct (filename_is_pe path'); [|done]. destruct text as [text|]; [|done].
  destruct (get_pe_mapping_size_and_codeid files text) as [[size' code_id']|] eqn:Heq; [|done]. destruct Hm as [Hs Hk].
  split; [by apply btree_insert_wf|]. intros k x [[-> ->]|[_ Hin]]%btree_insert_elem; [|by apply Hk|done].
  unfold get_pe_mapping_size_and_codeid in Heq. destruct (PathFiles.open_file files text) as [f|]; [|done].
  cbn [mbind option_bind] in Heq. destruct (map_file f) as [d|]; [|done]. cbn [mbind option_bind] in Heq.
  destruct (pe_headers d) as [[i t]|] eqn:Hd; [|done]. injection Heq as <- <-. destruct (Hh d i t Hd) as [[? ?] _].
  split; [done|]. simpl. rewrite add_u64_id by lia. lia.
Qed.

(** A mapping without a file is taken for a part of a suspected image only if
    it starts where the header of the image was mapped, and the whole image ends
    in it. (The images that contain the mapping are not looked for.) *)
Theorem find_mapping_starts_alike (m : PeMappings) (r : AvmaRange) (x : SuspectedPeMapping) :
  wf m → find_mapping m r = Some x ↔ btree_get (start r) m = Some x ∧ end_ (avma_range x) ≤ end_ r.
Proof.
  intros [Hs Hk]. unfold find_mapping. rewrite btree_get_elem by done. split.
  - destruct (next_back _) as [[k y]|] eqn:Hn; [|done]. apply btree_last_le_Some in Hn as (Hin & Hle & _); [|done].
    cbn [mbind option_bind]. destruct (encompasses r (avma_range y)) eqn:He; [|done]. intros [= <-].
    apply andb_prop in He as [H1 H2]. apply Z.leb_le in H1, H2. destruct (Hk k y Hin) as [Hst _].
    assert (k = start r) as <- by lia. done.
  - intros [Hin He]. assert (next_back (btree_range_to_inclusive (start r) m) = Some (start r, x)) as ->.
    { apply btree_last_le_Some; [done|]. split; [done|]. split; [done|]. by intros. }
    cbn [mbind option_bind]. unfold encompasses. destruct (Hk _ _ Hin) as [-> _].
    rewrite Z.leb_refl. by rewrite (proj2 (Z.leb_le _ _)).
Qed.
#[local] Definition game : SuspectedPeMapping :=
  {| path := "game.exe"; code_id := PeCodeId 1 94375936; avma_range := {| start := 5368709120; end_ := 5463085056 |} |}.
(** The text section of the example at the top of the source file is not found to
    belong to the image. *)
Example find_mapping_starts_alike_witness :
  wf [(5368709120, game)] ∧ find_mapping [(5368709120, game)] {| start := 5368713216; end_ := 5431525376 |} ≠ Some game ∧
  find_mapping [(5368709120, game)] {| start := 5368709120; end_ := 5463085056 |} = Some game.
Proof.
  assert (wf [(5368709120, game)]) as Hwf.
  { split; [by repeat constructor|]. intros k x [= -> ->]%list_elem_of_singleton. by split. }
  split; [exact Hwf|]. split.
  - intros [Hget _]%(find_mapping_starts_alike _ _ _ Hwf). by vm_compute in Hget.
  - apply (find_mapping_starts_alike _ _ _ Hwf). by split.
Defined.
End PeMappings.
