(* ===== verification/ObjectRewriter.v ===== *)
(** ELF files without their program headers: samply/src/linux_shared/object_rewriter.rs,
    with which injected_jit_object.rs repairs the files certain versions of perf
    write for JIT functions. *)
From S2P Require Import Prelude RustStr PathFiles ObjectFiles CodeIds.
From stdpp Require Import options.
Open Scope Z_scope.

(** * ELF files as the object crate reads them *)
Record ElfFileHeader := {
  is_type_64 : bool;
  little_endian : bool;
  e_ident : list Z;
  e_type : Z; e_machine : Z; e_entry : Z; e_flags : Z; e_ehsize : Z; e_phentsize : Z; e_shnum : Z; e_shstrndx : Z
}.
(** [section_data] is [section.data]: [None] is an error. *)
Record ElfSectionHeader := {
  sh_name : Z; sh_type : Z; sh_flags : Z; sh_addr : Z; sh_size : Z; sh_link : Z; sh_info : Z;
  sh_addralign : Z; sh_entsize : Z;
  section_data : option (list Z)
}.
(** The header and the sections, read as a 64-bit or as a 32-bit file. *)
Class ElfReader := { parse_elf : bool → list Z → option (ElfFileHeader * list ElfSectionHeader) }.

Module ObjectRewriter.
Import DebugIds.

Definition SHT_NULL : Z := 0.
Definition SHT_NOBITS : Z := 8.
Definition EV_CURRENT : Z := 1.
Definition file_header_size (is_64 : bool) : Z := if is_64 then 64 else 52.
Definition section_header_size (is_64 : bool) : Z := if is_64 then 64 else 40.

(** * Layout *)
Definition align (offset size : Z) : Z :=
  Z.land (add_u64 offset (sub_u64 size 1)) (2 ^ 64 - 1 - sub_u64 size 1).
(** What the program takes for having data in the file. *)
Definition has_data (s : ElfSectionHeader) : bool := Z.land (sh_type s) SHT_NOBITS =? 0.
Definition align_section (reserved_len : Z) (s : ElfSectionHeader) : Z :=
  if sh_addralign s =? 0 then reserved_len else align reserved_len (sh_addralign s).
(** The offsets, and how many bytes are reserved after them. *)
Fixpoint section_offsets (reserved_len : Z) (in_sections : list ElfSectionHeader) : list Z * Z :=
  match in_sections with
  | [] => ([], reserved_len)
  | s :: in_sections' =>
      if has_data s then
        let offset := align_section reserved_len s in
        let '(offsets, reserved_len') := section_offsets (add_u64 offset (sh_size s)) in_sections' in
        (offset :: offsets, reserved_len')
      else
        let '(offsets, reserved_len') := section_offsets reserved_len in_sections' in
        (reserved_len :: offsets, reserved_len')
  end.

(** * Writing *)

(** A field of [n] bytes; higher bytes are cut off. *)
Definition field (little : bool) (n : nat) (z : Z) : list Z :=
  if little then reverse (to_be_bytes n z) else to_be_bytes n z.
Definition header_bytes (h : ElfFileHeader) (e_shoff : Z) : list Z :=
  let f := field (little_endian h) in
  let word := if is_type_64 h then 8%nat else 4%nat in
  e_ident h ++ f 2%nat (e_type h) ++ f 2%nat (e_machine h) ++ f 4%nat EV_CURRENT ++ f word (e_entry h) ++
  f word 0 ++ f word e_shoff ++ f 4%nat (e_flags h) ++ f 2%nat (e_ehsize h) ++ f 2%nat (e_phentsize h) ++
  f 2%nat 0 ++ f 2%nat (section_header_size (is_type_64 h)) ++ f 2%nat (e_shnum h) ++ f 2%nat (e_shstrndx h).
Definition section_bytes (h : ElfFileHeader) (s : ElfSectionHeader) (offset : Z) : list Z :=
  let f := field (little_endian h) in
  let word := if is_type_64 h then 8%nat else 4%nat in
  let sh_offset := if sh_type s =? SHT_NULL then 0 else offset in
  f 4%nat (sh_name s) ++ f 4%nat (sh_type s) ++ f word (sh_flags s) ++ f word (sh_addr s) ++ f word sh_offset ++
  f word (sh_size s) ++ f 4%nat (sh_link s) ++ f 4%nat (sh_info s) ++ f word (sh_addralign s) ++ f word (sh_entsize s).

(** [Vec::resize] *)
Definition resize_with_zeros (buffer : list Z) (new_len : nat) : list Z :=
  take new_len buffer ++ replicate (new_len - length buffer) 0.
Definition write_align (buffer : list Z) (size : Z) : list Z :=
  let len := Z.of_nat (length buffer) in
  resize_with_zeros buffer (Z.to_nat (if size =? 0 then len else align len size)).
Fixpoint write_sections (out_data : list Z) (in_sections : list ElfSectionHeader) : option (list Z) :=
  match in_sections with
  | [] => Some out_data
  | s :: in_sections' =>
      if has_data s then
        data ← section_data s;
        write_sections (write_align out_data (sh_addralign s) ++ data) in_sections'
      else write_sections out_data in_sections'
  end.
Definition write_section_table (h : ElfFileHeader) (out_data : list Z) (in_sections : list ElfSectionHeader)
    (offsets : list Z) : list Z :=
  out_data ++ concat (zip_with (section_bytes h) in_sections offsets).

Definition elf_align (h : ElfFileHeader) : Z := if is_type_64 h then 8 else 4.
Definition layout (h : ElfFileHeader) (in_sections : list ElfSectionHeader) : list Z * Z :=
  let '(offsets, reserved_len) := section_offsets (file_header_size (is_type_64 h)) in_sections in
  (offsets, align reserved_len (elf_align h)).
(** After parsing; [None] is an error of [section.data]. [Vec::reserve] panics
    for more than [isize::MAX] bytes. *)
Definition rewrite (h : ElfFileHeader) (in_sections : list ElfSectionHeader) : res (option (list Z)) :=
  let '(offsets, section_table_offset) := layout h in_sections in
  let reserved_len :=
    add_u64 section_table_offset (mul_u64 (Z.of_nat (length offsets)) (section_header_size (is_type_64 h))) in
  if 2 ^ 63 <=? reserved_len then Panic
  else Ok (out_data ← write_sections (header_bytes h section_table_offset) in_sections;
           Some (write_section_table h (write_align out_data (elf_align h)) in_sections offsets)).
Definition drop_phdr `{ElfReader} (as_64 : bool) (in_data : list Z) : res (option (list Z)) :=
  match parse_elf as_64 in_data with
  | None => Ok None
  | Some (h, in_sections) => rewrite h in_sections
  end.

(** * Alignment *)
Lemma align_eq offset size :
  0 ≤ offset → 0 < size → offset + size < 2 ^ 64 →
  align offset size = offset + (size - 1) - Z.land (offset + (size - 1)) (size - 1).
Proof.
  intros Ho Hs Hlt. unfold align. rewrite sub_u64_id, add_u64_id by (unfold u64_range; lia).
  set (x := offset + (size - 1)). set (m := size - 1).
  assert (2 ^ 64 - 1 - m = Z.ldiff (Z.ones 64) m) as ->.
  { rewrite <-Z.sub_nocarry_ldiff; [rewrite Z.ones_equiv; unfold Z.pred; lia|].
    apply Z.bits_inj'. intros n Hn. rewrite Z.ldiff_spec, Z.bits_0, Z.testbit_ones_nonneg by lia.
    destruct (Z.ltb_spec n 64); [by rewrite andb_false_r|]. rewrite andb_true_r.
    destruct (decide (m = 0)) as [->|]; [apply Z.bits_0|]. apply Z.bits_above_log2; [lia|].
    apply Z.lt_le_trans with 64; [|done]. apply Z.log2_lt_pow2; lia. }
  rewrite Z.ldiff_land, Z.land_assoc, Z.land_ones, Z.mod_small by lia. rewrite <-Z.ldiff_land.
  rewrite Z.sub_nocarry_ldiff; apply Z.bits_inj'; intros n Hn;
    rewrite ?Z.ldiff_spec, ?Z.land_spec, ?Z.bits_0; by destruct (Z.testbit x n), (Z.testbit m n).
Qed.
Lemma land_le x m : 0 ≤ x → 0 ≤ m → 0 ≤ Z.land x m ≤ m.
Proof.
  intros Hx Hm. split; [by apply Z.land_nonneg; right|].
  assert (m - Z.land x m = Z.ldiff m (Z.land x m)) as Heq.
  { apply Z.sub_nocarry_ldiff. apply Z.bits_inj'. intros n Hn. rewrite Z.ldiff_spec, Z.land_spec, Z.bits_0.
    by destruct (Z.testbit x n), (Z.testbit m n). }
  assert (0 ≤ Z.ldiff m (Z.land x m)) by (apply Z.ldiff_nonneg; by left). lia.
Qed.
Lemma align_bounds offset size :
  0 ≤ offset → 0 < size → offset + size < 2 ^ 64 → offset ≤ align offset size < offset + size.
Proof. intros. rewrite align_eq by done. pose proof (land_le (offset + (size - 1)) (size - 1)). lia. Qed.
(** To a multiple, if the size is a power of two. *)
Lemma align_multiple offset k :
  0 ≤ offset → 0 ≤ k → offset + 2 ^ k < 2 ^ 64 → (2 ^ k | align offset (2 ^ k)).
Proof.
  intros Ho Hk Hlt. assert (0 < 2 ^ k) by (by apply Z.pow_pos_nonneg). rewrite align_eq by done.
  replace (2 ^ k - 1) with (Z.ones k) by (rewrite Z.ones_equiv; lia). rewrite Z.land_ones by done.
  set (x := offset + Z.ones k). exists (x / 2 ^ k). pose proof (Z.div_mod x (2 ^ k)). lia.
Qed.

(** * What is written is where the layout says *)

(** The sections whose data are kept: bit 3 of their type is clear. Of the types of the
    standard these are all below 8 (program bits, symbols, strings, relocations with
    addends, hash tables, the dynamic section, notes) and 16 to 18; with NOBITS, type 8,
    the types REL (9), DYNSYM (11), INIT_ARRAY (14) and FINI_ARRAY (15) lose theirs. *)
Definition keeps_data (s : ElfSectionHeader) : Prop := Z.testbit (sh_type s) 3 = false.
Lemma has_data_keeps s : has_data s = true ↔ keeps_data s.
Proof.
  unfold has_data, keeps_data, SHT_NOBITS. rewrite Z.eqb_eq. change 8 with (2 ^ 3). split.
  - intros Heq. apply (f_equal (λ z, Z.testbit z 3)) in Heq. rewrite Z.land_spec, Z.pow2_bits_true, Z.bits_0 in Heq by lia.
    by rewrite andb_true_r in Heq.
  - intros Hb. apply Z.bits_inj'. intros n Hn. rewrite Z.land_spec, Z.bits_0. destruct (decide (n = 3)) as [->|].
    + by rewrite Hb.
    + rewrite Z.pow2_bits_false by lia. apply andb_false_r.
Qed.
Definition section_ok (s : ElfSectionHeader) : Prop :=
  0 ≤ sh_size s ∧ 0 ≤ sh_addralign s ∧
  (keeps_data s → ∃ data, section_data s = Some data ∧ Z.of_nat (length data) = sh_size s).
(** The most bytes the sections need. *)
Definition room (in_sections : list ElfSectionHeader) : Z :=
  foldr (λ s r, (if Z.testbit (sh_type s) 3 then 0 else sh_addralign s + sh_size s) + r) 0 in_sections.

Lemma field_length little n z : length (field little n z) = n.
Proof. unfold field. destruct little; rewrite ?length_reverse; apply to_be_bytes_length. Qed.
Lemma header_bytes_length h t :
  length (e_ident h) = 16%nat → Z.of_nat (length (header_bytes h t)) = file_header_size (is_type_64 h).
Proof.
  intros Hi. unfold header_bytes. rewrite !length_app, !field_length, Hi. by destruct (is_type_64 h).
Qed.
Lemma section_bytes_length h s o : Z.of_nat (length (section_bytes h s o)) = section_header_size (is_type_64 h).
Proof. unfold section_bytes. rewrite !length_app, !field_length. by destruct (is_type_64 h). Qed.

Lemma align_section_bounds r s :
  0 ≤ r → 0 ≤ sh_addralign s → r + sh_addralign s < 2 ^ 63 → r ≤ align_section r s ≤ r + sh_addralign s.
Proof.
  intros. unfold align_section. destruct (Z.eqb_spec (sh_addralign s) 0); [lia|].
  pose proof (align_bounds r (sh_addralign s)). lia.
Qed.
Lemma room_cons s l : room (s :: l) = (if has_data s then sh_addralign s + sh_size s else 0) + room l.
Proof.
  cbn [room foldr]. fold (room l). pose proof (has_data_keeps s) as Hk. unfold keeps_data in Hk.
  destruct (has_data s), (Z.testbit (sh_type s) 3); try done; naive_solver.
Qed.
Lemma room_nonneg sections : Forall section_ok sections → 0 ≤ room sections.
Proof. induction 1 as [|s l (? & ? & _) _ IH]; [done|]. rewrite room_cons. destruct (has_data s); lia. Qed.
Lemma section_offsets_bounds r sections :
  Forall section_ok sections → 0 ≤ r → r + room sections < 2 ^ 63 →
  r ≤ (section_offsets r sections).2 ≤ r + room sections ∧ length (section_offsets r sections).1 = length sections.
Proof.
  intros Hok. revert r. induction Hok as [|s l (? & ? & _) Hl IH]; intros r Hr Hlt; rewrite ?room_cons in *; simpl in *; [lia|].
  pose proof (room_nonneg l Hl). destruct (has_data s).
  - pose proof (align_section_bounds r s). rewrite add_u64_id by lia.
    destruct (IH (align_section r s + sh_size s)) as [? ?]; [lia..|].
    destruct (section_offsets _ l); simpl in *. lia.
  - destruct (IH r) as [? ?]; [lia..|]. destruct (section_offsets _ l); simpl in *. lia.
Qed.

Lemma write_align_spec buffer size :
  0 ≤ size → Z.of_nat (length buffer) + size < 2 ^ 63 →
  ∃ padding, write_align buffer size = buffer ++ padding ∧
    Z.of_nat (length (write_align buffer size)) =
      if size =? 0 then Z.of_nat (length buffer) else align (Z.of_nat (length buffer)) size.
Proof.
  intros Hs Hlt. unfold write_align, resize_with_zeros.
  set (n := if size =? 0 then _ else _). assert (Z.of_nat (length buffer) ≤ n).
  { unfold n. destruct (Z.eqb_spec size 0); [lia|]. pose proof (align_bounds (Z.of_nat (length buffer)) size). lia. }
  exists (replicate (Z.to_nat n - length buffer) 0). rewrite take_ge by lia. split; [done|].
  rewrite length_app, length_replicate. fold n. lia.
Qed.

Lemma write_sections_spec out r sections :
  Forall section_ok sections → Z.of_nat (length out) = r → r + room sections < 2 ^ 63 →
  ∃ rest, write_sections out sections = Some (out ++ rest) ∧
    Z.of_nat (length (out ++ rest)) = (section_offsets r sections).2 ∧
    ∀ i s o data, sections !! i = Some s → (section_offsets r sections).1 !! i = Some o →
      keeps_data s → section_data s = Some data →
      take (length data) (drop (Z.to_nat o) (out ++ rest)) = data ∧
      ∀ k, 0 ≤ k → sh_addralign s = 2 ^ k → (2 ^ k | o).
Proof.
  intros Hok. revert out r. induction Hok as [|s l (Hsz & Hal & Hdata) Hl IH]; intros out r Hr Hlt; rewrite ?room_cons in *; simpl in *.
  { exists []. rewrite app_nil_r. split; [done|]. split; [done|]. by intros [|i]. }
  pose proof (room_nonneg l Hl). destruct (has_data s) eqn:Hhas.
  - destruct Hdata as (d & Hd & Hlen); [by apply has_data_keeps|]. rewrite Hd. cbn [mbind option_bind].
    destruct (write_align_spec out (sh_addralign s)) as (pad & Hpad & Hplen); [lia..|].
    rewrite Hr in Hplen. fold (align_section r s) in Hplen. pose proof (align_section_bounds r s).
    rewrite add_u64_id by lia.
    destruct (IH (write_align out (sh_addralign s) ++ d) (align_section r s + sh_size s)) as (rest & Hw & Hwl & Hall);
      [rewrite length_app; lia|lia|].
    destruct (section_offsets (align_section r s + sh_size s) l) as [offsets r'] eqn:Ho. simpl in *.
    exists (pad ++ d ++ rest). assert (out ++ pad ++ d ++ rest = (write_align out (sh_addralign s) ++ d) ++ rest) as ->.
    { by rewrite Hpad, <-!app_assoc. }
    split; [done|]. split; [done|]. intros [|i] s' o data Hi Hoi Hh Hdata; simpl in *.
    + injection Hi as <-. injection Hoi as <-. assert (data = d) as -> by congruence.
      rewrite <-app_assoc, <-Hplen, Nat2Z.id, drop_app_length, take_app_length. split; [done|]. intros k Hk Heq. rewrite Hplen.
      unfold align_section. rewrite Heq in *. assert (0 < 2 ^ k) by (by apply Z.pow_pos_nonneg).
      rewrite (proj2 (Z.eqb_neq _ _)) by lia. apply align_multiple; lia.
    + by eapply Hall.
  - destruct (IH out r) as (rest & Hw & Hwl & Hall); [done|lia|]. exists rest.
    destruct (section_offsets r l) as [offsets r'] eqn:Ho. simpl in *. split; [done|]. split; [done|].
    intros [|i] s' o data Hi Hoi Hh Hd; simpl in *; [|by eapply Hall].
    apply has_data_keeps in Hh. congruence.
Qed.

Lemma take_drop_app {A} (d : list A) o x y :
  take (length d) (drop o x) = d → take (length d) (drop o (x ++ y)) = d.
Proof.
  intros Heq. pose proof (f_equal length Heq) as Hl. rewrite length_take in Hl.
  rewrite drop_app, take_app_le by lia. done.
Qed.
Lemma section_table_entry h sections offsets i s o :
  sections !! i = Some s → offsets !! i = Some o →
  let n := Z.to_nat (section_header_size (is_type_64 h)) in
  take n (drop (i * n) (concat (zip_with (section_bytes h) sections offsets))) = section_bytes h s o.
Proof.
  intros Hs Ho n. assert (∀ s o, length (section_bytes h s o) = n) as Hlen.
  { intros s' o'. pose proof (section_bytes_length h s' o'). lia. }
  revert sections offsets Hs Ho. induction i as [|i IH]; intros [|s' sections] [|o' offsets] Hs Ho; simpl in *; try done.
  - injection Hs as ->. injection Ho as ->. rewrite drop_0, <-(Hlen s o). apply take_app_length.
  - rewrite <-(Hlen s' o') at 2. rewrite <-drop_drop, drop_app_length. by apply IH.
Qed.
Lemma section_table_length h sections offsets :
  length offsets = length sections →
  length (concat (zip_with (section_bytes h) sections offsets)) =
    (length sections * Z.to_nat (section_header_size (is_type_64 h)))%nat.
Proof.
  revert offsets. induction sections as [|s l IH]; intros [|o offsets] Hl; simpl in *; try done.
  rewrite length_app, IH by lia. pose proof (section_bytes_length h s o). lia.
Qed.

(** C39: The repaired file is laid out as its headers say, so the assertions of the
    second pass hold: it starts with the header, which has the place of the section
    table, each entry of the table has the offset of its section, and for a section
    of one of the types that keep their data ([keeps_data]: bit 3 of the type is
    clear) the section's data are at that offset, which is a multiple of its
    alignment. Nothing follows the table. The sections must have their data, in all
    less than 2^63 bytes with padding, and the identification sixteen bytes. *)
Theorem rewrite_layout (h : ElfFileHeader) (in_sections : list ElfSectionHeader) :
  length (e_ident h) = 16%nat → Forall section_ok in_sections →
  let header := file_header_size (is_type_64 h) in
  let entry := section_header_size (is_type_64 h) in
  header + room in_sections + 8 + Z.of_nat (length in_sections) * entry < 2 ^ 63 →
  ∃ offsets table out,
    layout h in_sections = (offsets, table) ∧ rewrite h in_sections = Ok (Some out) ∧
    take (Z.to_nat header) out = header_bytes h table ∧
    Z.of_nat (length out) = table + Z.of_nat (length in_sections) * entry ∧ (elf_align h | table) ∧
    ∀ i s o, in_sections !! i = Some s → offsets !! i = Some o →
      take (Z.to_nat entry) (drop (Z.to_nat table + i * Z.to_nat entry) out) = section_bytes h s o ∧
      ∀ data, keeps_data s → section_data s = Some data →
        take (length data) (drop (Z.to_nat o) out) = data ∧
        ∀ k, 0 ≤ k → sh_addralign s = 2 ^ k → (2 ^ k | o).
Proof.
  intros Hident Hok header entry Hlt.
  assert (0 < header ∧ (entry = 64 ∨ entry = 40) ∧ elf_align h = 2 ^ (if is_type_64 h then 3 else 2)) as (Hh & He & Ha).
  { unfold header, entry, elf_align. destruct (is_type_64 h); simpl; lia. }
  assert (4 ≤ elf_align h ≤ 8) as Hab by (unfold elf_align; destruct (is_type_64 h); lia).
  destruct (section_offsets_bounds header in_sections) as [Hr' Hlo]; [done|lia..|].
  unfold rewrite, layout. fold header entry.
  destruct (section_offsets header in_sections) as [offsets r'] eqn:Hoff. simpl in Hr', Hlo.
  pose proof (align_bounds r' (elf_align h)) as Hbounds. set (table := align r' (elf_align h)) in *.
  rewrite mul_u64_id, add_u64_id by lia. rewrite Hlo.
  destruct (Z.leb_spec (2 ^ 63) (table + Z.of_nat (length in_sections) * entry)); [lia|].
  pose proof (header_bytes_length h table Hident) as Hhl. fold header in Hhl.
  destruct (write_sections_spec (header_bytes h table) header in_sections) as (rest & -> & Hwl & Hall); [done|done|lia|].
  rewrite Hoff in Hwl, Hall. simpl in Hwl, Hall. cbn [mbind option_bind].
  destruct (write_align_spec (header_bytes h table ++ rest) (elf_align h)) as (pad & Hpad & Hpl); [lia|lia|].
  rewrite (proj2 (Z.eqb_neq _ _)), Hwl in Hpl by lia. fold table in Hpl.
  eexists offsets, table, _. split; [done|]. split; [done|].
  assert (Z.to_nat table = length (write_align (header_bytes h table ++ rest) (elf_align h))) as Htl by lia.
  unfold write_section_table. split; [|split; [|split]].
  - rewrite Hpad, <-!app_assoc, <-Hhl, Nat2Z.id. apply take_app_length.
  - rewrite length_app, section_table_length by done. fold entry. lia.
  - unfold table. rewrite Ha. apply align_multiple; [lia|by destruct (is_type_64 h)|]. rewrite <-Ha. lia.
  - intros i s o Hs Ho. split.
    + rewrite <-drop_drop, Htl, drop_app_length. by apply section_table_entry.
    + intros data Hd Hdata. destruct (Hall i s o data Hs Ho Hd Hdata) as [Htake Hal]. split; [|done].
      rewrite Hpad, <-app_assoc. by apply take_drop_app.
Qed.

(** A 64-bit file with its text behind the header, a symbol table and a section
    with symbols of a shared library, which is taken for one without data. *)
#[local] Definition jitted : ElfFileHeader :=
  {| is_type_64 := true; little_endian := true; e_ident := replicate 16 127; e_type := 3; e_machine := 62;
     e_entry := 0; e_flags := 0; e_ehsize := 64; e_phentsize := 56; e_shnum := 3; e_shstrndx := 0 |}.
#[local] Definition section (type size align' : Z) (data : list Z) : ElfSectionHeader :=
  {| sh_name := 1; sh_type := type; sh_flags := 6; sh_addr := 64; sh_size := size; sh_link := 0; sh_info := 0;
     sh_addralign := align'; sh_entsize := 0; section_data := Some data |}.
#[local] Definition jitted_sections : list ElfSectionHeader :=
  [section 0 0 0 []; section 1 5 16 [195; 1; 2; 3; 4]; section 11 3 8 [7; 8; 9]; section 2 2 8 [5; 6]].
Example rewrite_layout_witness :
  layout jitted jitted_sections = ([64; 64; 69; 72], 80) ∧
  ∃ out, rewrite jitted jitted_sections = Ok (Some out) ∧ length out = 336%nat.
Proof.
  split; [reflexivity|].
  destruct (rewrite_layout jitted jitted_sections) as (offsets & table & out & Hl & Hw & _ & Hlen & _).
  - reflexivity.
  - apply Forall_forall. intros s Hs. cbn in Hs. set_unfold in Hs.
    destruct Hs as [->|[->|[->|[->|[]]]]]; (split; [by vm_compute|split; [by vm_compute|]]); intros _; by eexists.
  - vm_compute. reflexivity.
  - exists out. split; [exact Hw|]. vm_compute in Hl. injection Hl as _ <-.
    change (Z.of_nat (length jitted_sections) * section_header_size (is_type_64 jitted)) with 256 in Hlen. lia.
Defined.
End ObjectRewriter.

(** * injected_jit_object.rs *)
(** [std::fs::write], and whether it wrote the file. *)
Class WriteFiles `{PathFiles.Files} := { write_file : PathFiles.fs → string → list Z → PathFiles.fs * bool }.

Module InjectedJitObject.
Section injected.
Context `{PathFiles.Files} `{!FileBytes} `{!ObjectFiles} `{!WriteFiles} `{ElfReader}.

(** Whether the file has the mistake of the bad versions of perf. *)
Definition is_bad (obj : Object) : bool :=
  is_elf obj &&
  match segments obj with
  | segment :: _ =>
      (segment_address segment =? 0) && (segment_file_offset segment =? 0) &&
      match section_by_name obj ".text" with
      | Some text_section =>
          match section_file_range text_section with
          | Some (offset, _) => negb (offset =? section_address text_section)
          | None => false
          end
      | None => false
      end
  | [] => false
  end.
(** Writing the fixed file beside the bad one; [None] if there is none. *)
Definition write_fixed (files : PathFiles.fs) (path : string) (fixed_data : list Z)
    : PathFiles.fs * option (PathFiles.File * string) :=
  let fixed_path := default path (RustStr.strip_suffix path ".so") +:+ "-fixed.so" in
  let '(files', written) := write_file files fixed_path fixed_data in
  (files', if (written : bool) then (λ file, (file, fixed_path)) <$> PathFiles.open_file files' fixed_path else None).
Definition correct_bad_perf_jit_so_file (files : PathFiles.fs) (file : PathFiles.File) (path : string)
    : res (PathFiles.fs * option (PathFiles.File * string)) :=
  if negb (RustStr.contains path "/jitted-") || negb (RustStr.ends_with path ".so") then Ok (files, None)
  else
    match (mmap ← map_file file; obj ← parse_object mmap; Some (mmap, obj)) with
    | None => Ok (files, None)
    | Some (mmap, obj) =>
        if is_bad obj then
          fixed ← ObjectRewriter.drop_phdr (is_64 obj) mmap;
          Ok match fixed with
             | Some fixed_data => write_fixed files path fixed_data
             | None => (files, None)
             end
        else Ok (files, None)
    end.
(** The sections of all files are small enough to be copied. *)
Definition rewritable : Prop := ∀ as_64 data, is_Ok (ObjectRewriter.drop_phdr as_64 data).
Lemma correct_bad_perf_jit_so_file_Ok files file path :
  rewritable → is_Ok (correct_bad_perf_jit_so_file files file path).
Proof.
  intros Hr. unfold correct_bad_perf_jit_so_file. destruct (_ || _); [by eexists|].
  destruct (mmap ← map_file file; _) as [[mmap obj]|]; [|by eexists]. destruct (is_bad obj); [|by eexists].
  destruct (Hr (is_64 obj) mmap) as [x ->]. by eexists.
Qed.
End injected.
End InjectedJitObject.
