(* ===== verification/KernelSymbols.v ===== *)
(** The symbols of the running kernel: samply/src/linux_shared/kernel_symbols.rs. *)
From S2P Require Import Prelude RustStr PathFiles SymbolTable ObjectFiles CodeIds.
From stdpp Require Import options.
Open Scope Z_scope.

(** The notes of a section as the object crate iterates over them, up to the first
    error: name, type and content. *)
Record Note := { note_name : string; n_type : Z; desc : list Z }.
Class ElfNotes := { note_iterator : string → option (list Note) }.
(** [std::fs::read] *)
Class ReadFiles `{PathFiles.Files} := { read_file : PathFiles.fs → string → option string }.

Module KernelSymbols.
Import RustStr HexText.

Inductive KernelSymbolsError :=
| CouldNotReadKernelNotes
| CouldNotFindBuildIdNote
| CouldNotReadProcKallsyms
| NoTextSymbol
| RelativeAddressTooLarge (relative_address : Z).
Record KernelSymbols := { build_id : list Z; base_avma : Z; symbol_table : SymbolTable.SymbolTable }.

Definition ELF_NOTE_GNU : string := "GNU".
Definition NT_GNU_BUILD_ID : Z := 3.
Definition build_id_from_notes_section_data `{ElfNotes} (section_data : string) : option (list Z) :=
  notes ← note_iterator section_data;
  desc <$> find (λ note, bool_decide (note_name note = ELF_NOTE_GNU) && (n_type note =? NT_GNU_BUILD_ID)) notes.

(** [hex_str::<u64>]: the loop, with the number of digits consumed. [None] stands
    for the error. *)
Fixpoint hex_loop (max_len : nat) (res : Z) (input : string) : nat * Z * string :=
  match max_len, input with
  | S max_len', String v input' =>
      let digit := digit_value v in
      if digit <? 16 then
        let '(k, res', remaining) := hex_loop max_len' (Z.lor (wrap_u64 (Z.shiftl res 4)) digit) input' in
        (S k, res', remaining)
      else (0%nat, res, input)
  | _, _ => (0%nat, res, input)
  end.
Definition hex_str (input : string) : option (string * Z) :=
  let '(k, res, remaining) := hex_loop 16 0 input in
  if decide (k = 0%nat) then None else Some (remaining, res).

(** [KallSymIter]: its state is the remaining data. *)
Definition LF : string := String RustStr.LF "".
Definition next (remaining_data : string) : option ((Z * string) * string) :=
  if is_empty remaining_data then None
  else
    '(after_address, address) ← hex_str remaining_data;
    '(_, starting_with_name) ← split_at 3 after_address;
    match split_once starting_with_name LF with
    | Some (name, rest) => Some ((address, name), rest)
    | None => Some ((address, starting_with_name), "")
    end.
(** A [for] loop; a step takes at least four bytes. *)
Fixpoint kall_syms_fuel (fuel : nat) (remaining_data : string) : list (Z * string) :=
  match fuel with
  | O => []
  | S fuel' =>
      match next remaining_data with
      | Some (item, rest) => item :: kall_syms_fuel fuel' rest
      | None => []
      end
  end.
Definition kall_syms (proc_kallsyms : string) : list (Z * string) :=
  kall_syms_fuel (String.length proc_kallsyms) proc_kallsyms.

(** The loop of [parse_kallsyms]. *)
Definition symbol (address' : Z) (name' : string) : SymbolTable.Symbol :=
  {| SymbolTable.address := address'; SymbolTable.size := None; SymbolTable.name := name' |}.
Fixpoint collect (text_addr : option Z) (symbols : list SymbolTable.Symbol) (syms : list (Z * string))
    : KernelSymbolsError + option Z * list SymbolTable.Symbol :=
  match syms with
  | [] => inr (text_addr, symbols)
  | (absolute_addr, symbol_name) :: syms' =>
      match text_addr with
      | None =>
          if decide (symbol_name = "_text")
          then collect (Some absolute_addr) (push symbols (symbol 0 "_text")) syms'
          else collect text_addr symbols syms'
      | Some text =>
          if text <=? absolute_addr then
            let relative_address := absolute_addr - text in
            if relative_address <? 2 ^ 32
            then collect text_addr (push symbols (symbol relative_address (Utf8.from_utf8_lossy symbol_name))) syms'
            else inl (RelativeAddressTooLarge relative_address)
          else collect text_addr symbols syms'
      end
  end.
Definition parse_kallsyms (data : string) : KernelSymbolsError + Z * SymbolTable.SymbolTable :=
  match collect None [] (kall_syms data) with
  | inl e => inl e
  | inr (None, _) => inl NoTextSymbol
  | inr (Some text_addr, symbols) => inr (text_addr, SymbolTable.new symbols)
  end.
Definition new_for_running_kernel `{ElfNotes} `{ReadFiles} (files : PathFiles.fs) : KernelSymbolsError + KernelSymbols :=
  match read_file files "/sys/kernel/notes" with
  | None => inl CouldNotReadKernelNotes
  | Some notes =>
      match build_id_from_notes_section_data notes with
      | None => inl CouldNotFindBuildIdNote
      | Some build_id' =>
          match read_file files "/proc/kallsyms" with
          | None => inl CouldNotReadProcKallsyms
          | Some kallsyms =>
              match parse_kallsyms kallsyms with
              | inl e => inl e
              | inr (base_avma', symbol_table') =>
                  inr {| build_id := build_id'; base_avma := base_avma'; symbol_table := symbol_table' |}
              end
          end
      end
  end.
Definition kernel_module_build_id `{FileBytes} `{!ObjectFiles} (files : PathFiles.fs) (path : string)
    (binary_lookup_dirs : list string) : option (list Z) :=
  '(file, _) ← PathFiles.open_file_with_fallback files path binary_lookup_dirs;
  mmap ← map_file file;
  obj ← parse_object mmap;
  ObjectFiles.build_id obj.

(** * The text the kernel writes *)
Record Entry := { entry_address : Z; letter : ascii; entry_name : string }.
Definition entry_ok (e : Entry) : Prop := u64_range (entry_address e) ∧ split_once (entry_name e) LF = None.
Definition print_entry (e : Entry) : string :=
  padded hex_digit 16 (entry_address e) +:+ (" " +:+ String (letter e) (" " +:+ (entry_name e +:+ LF))).
Definition print_kallsyms (entries : list Entry) : string := foldr (λ e s, print_entry e +:+ s) "" entries.

(** ** What is meant by it *)
Definition item (e : Entry) : Z * string := (entry_address e, entry_name e).
Fixpoint from_text (entries : list Entry) : option (Z * list Entry) :=
  match entries with
  | [] => None
  | e :: entries' => if decide (entry_name e = "_text") then Some (entry_address e, entries') else from_text entries'
  end.
Definition relative_symbol (text : Z) (e : Entry) : SymbolTable.Symbol :=
  symbol (entry_address e - text) (Utf8.from_utf8_lossy (entry_name e)).
Definition meaning (entries : list Entry) : KernelSymbolsError + Z * SymbolTable.SymbolTable :=
  match from_text entries with
  | None => inl NoTextSymbol
  | Some (text, later) =>
      let after_text := filter (λ e, text ≤ entry_address e) later in
      match find (λ e, 2 ^ 32 <=? entry_address e - text) after_text with
      | Some e => inl (RelativeAddressTooLarge (entry_address e - text))
      | None => inr (text, SymbolTable.new (symbol 0 "_text" :: (relative_symbol text <$> after_text)))
      end
  end.

(** ** Reading it back *)
Lemma hex_loop_padded n m acc z rest :
  0 ≤ acc → 0 ≤ z < 16 ^ Z.of_nat n → acc * 16 ^ Z.of_nat n + z < 2 ^ 64 →
  hex_loop (n + m) acc (padded hex_digit n z +:+ rest) =
    let '(k, res, remaining) := hex_loop m (acc * 16 ^ Z.of_nat n + z) rest in ((n + k)%nat, res, remaining).
Proof.
  revert m z rest. induction n as [|n IH]; intros m z rest Ha Hz Hlt.
  { cbn [Nat.add padded]. rewrite app_empty. replace (acc * 16 ^ Z.of_nat 0 + z) with acc by (simpl in *; lia).
    by destruct (hex_loop m acc rest) as [[k r] t]. }
  cbn [padded]. rewrite app_assoc_string, app_cons, app_empty. rewrite Nat2Z.inj_succ, Z.pow_succ_r in * by lia.
  pose proof (Z.div_mod z 16 ltac:(lia)) as Hdm. pose proof (Z.mod_pos_bound z 16 ltac:(lia)) as Hm.
  assert (0 ≤ z / 16 < 16 ^ Z.of_nat n) by (split; [apply Z.div_pos; lia|apply Z.div_lt_upper_bound; lia]).
  replace (S n + m)%nat with (n + S m)%nat by lia. rewrite IH by (try done; nia). cbn [hex_loop].
  destruct (hex_digit_ok (z mod 16) Hm) as [-> _]. rewrite (proj2 (Z.ltb_lt _ _)) by lia.
  unfold wrap_u64. rewrite Z.shiftl_mul_pow2, Z.mod_small by (change (2 ^ 4) with 16; nia).
  rewrite <-Z.shiftl_mul_pow2, (DebugIds.low_bits 4) by (try done; lia). change (2 ^ 4) with 16.
  replace ((acc * 16 ^ Z.of_nat n + z / 16) * 16 + z mod 16) with (acc * (16 * 16 ^ Z.of_nat n) + z) by lia.
  destruct (hex_loop m _ rest) as [[k r] t]. f_equal. f_equal. lia.
Qed.
Lemma hex_str_padded z rest :
  u64_range z → hex_str (padded hex_digit 16 z +:+ rest) = Some (rest, z).
Proof.
  intros Hz. unfold hex_str. change 16%nat with (16 + 0)%nat at 1.
  rewrite (hex_loop_padded 16 0 0 z rest) by (try done; apply Hz). done.
Qed.
Lemma split_once_no_newline name rest :
  split_once name LF = None → split_once (name +:+ LF +:+ rest) LF = Some (name, rest).
Proof.
  induction name as [|c name IH].
  { intros _. destruct rest; reflexivity. }
  unfold LF in *. rewrite app_cons. cbn [split_once strip_prefix]. destruct (decide _); [by destruct name|].
  destruct (split_once name _) as [[a b]|] eqn:E; [done|]. intros _. by rewrite IH.
Qed.
Lemma next_entry e rest : entry_ok e → next (print_entry e +:+ rest) = Some (item e, rest).
Proof.
  intros [Ha Hn]. unfold next, print_entry. rewrite app_assoc_string.
  destruct (is_empty _) eqn:He.
  { exfalso. assert (String.length (padded hex_digit 16 (entry_address e)) = 16%nat) as Hl by apply padded_length.
    destruct (padded hex_digit 16 (entry_address e)); done. }
  rewrite hex_str_padded by done. cbn [mbind option_bind]. rewrite !app_assoc_string. repeat rewrite ?app_cons, ?app_empty.
  cbn [split_at mbind option_bind].
  rewrite app_assoc_string, split_once_no_newline by done. done.
Qed.
Lemma entry_length e : (4 ≤ String.length (print_entry e))%nat.
Proof. unfold print_entry. rewrite length_app_string, padded_length. lia. Qed.
Lemma kall_syms_print entries : Forall entry_ok entries → kall_syms (print_kallsyms entries) = item <$> entries.
Proof.
  intros Hok. unfold kall_syms. set (fuel := String.length (print_kallsyms entries)).
  assert (length entries ≤ fuel)%nat as Hf.
  { unfold fuel. clear. induction entries as [|e l IH]; simpl; [lia|]. rewrite length_app_string.
    pose proof (entry_length e). lia. }
  clearbody fuel. revert fuel Hf. induction Hok as [|e l He Hl IH]; intros fuel Hf; [by destruct fuel|].
  cbn [length] in Hf. destruct fuel as [|fuel]; [lia|]. cbn [print_kallsyms foldr]. fold (print_kallsyms l).
  cbn [kall_syms_fuel]. rewrite next_entry, fmap_cons by done. f_equal. apply IH. lia.
Qed.

(** With the address of [_text] known. *)
Lemma collect_after text symbols entries :
  collect (Some text) symbols (item <$> entries) =
    let after_text := filter (λ e, text ≤ entry_address e) entries in
    match find (λ e, 2 ^ 32 <=? entry_address e - text) after_text with
    | Some e => inl (RelativeAddressTooLarge (entry_address e - text))
    | None => inr (Some text, symbols ++ (relative_symbol text <$> after_text))
    end.
Proof.
  revert symbols. induction entries as [|e l IH]; intros symbols.
  { cbn. by rewrite app_nil_r. }
  cbn zeta. rewrite fmap_cons, filter_cons. cbn [item collect]. destruct (Z.leb_spec text (entry_address e)) as [Hle|Hlt].
  - rewrite decide_True by done. cbn [find]. destruct (Z.leb_spec (2 ^ 32) (entry_address e - text)) as [Hb|Hs].
    + by rewrite (proj2 (Z.ltb_ge _ _)) by lia.
    + rewrite (proj2 (Z.ltb_lt _ _)) by lia. rewrite IH. cbn zeta. destruct (find _ _) as [x|]; [done|].
      unfold push. rewrite <-app_assoc. done.
  - rewrite decide_False by lia. apply IH.
Qed.
Lemma collect_before_text symbols entries :
  collect None symbols (item <$> entries) =
    match from_text entries with
    | None => inr (None, symbols)
    | Some (text, later) => collect (Some text) (push symbols (symbol 0 "_text")) (item <$> later)
    end.
Proof.
  induction entries as [|e l IH]; [done|]. rewrite fmap_cons. cbn [item collect from_text]. by destruct (decide _).
Qed.

(** Whatever symbols the kernel lists, in whatever order, the parser reads
    each line of the list: the base address is that of the first [_text], and the
    symbols are it and the ones listed after it at addresses from it on, relative
    to it. It is an error if there is no [_text], or if one of the symbols that
    follow is four gigabytes or more behind it, which then hides all others. *)
Theorem parse_kallsyms_reads (entries : list Entry) :
  Forall entry_ok entries → parse_kallsyms (print_kallsyms entries) = meaning entries.
Proof.
  intros Hok. unfold parse_kallsyms, meaning. rewrite kall_syms_print, collect_before_text by done.
  destruct (from_text entries) as [[text later]|]; [|done]. rewrite collect_after. cbn zeta.
  by destruct (find _ _).
Qed.
(** The third test of the source file, in part. *)
#[local] Definition kallsyms : list Entry :=
  [{| entry_address := 0; letter := "A"; entry_name := "fixed_percpu_data" |};
   {| entry_address := 18446744072230600704; letter := "T"; entry_name := "_stext" |};
   {| entry_address := 18446744072230600704; letter := "T"; entry_name := "_text" |};
   {| entry_address := 18446744072230600768; letter := "T"; entry_name := "secondary_startup_64" |}].
Example parse_kallsyms_reads_witness :
  parse_kallsyms (print_kallsyms kallsyms) =
    inr (18446744072230600704, {| SymbolTable.symbols := [symbol 0 "_text"; symbol 64 "secondary_startup_64"] |}).
Proof.
  rewrite parse_kallsyms_reads; [vm_compute; reflexivity|].
  repeat constructor; vm_compute; congruence.
Defined.
End KernelSymbols.
