(* ===== verification/MappedFiles.v ===== *)
(** The handlers of mapped files of a Linux recording: [handle_mmap] and
    [handle_mmap2] of samply/src/linux_shared/converter.rs, which tell the profile
    and the unwinder about the binaries of a process. *)
From S2P Require Import Prelude RustStr BTree Types LibMappings Hierarchy StringTables SymbolTable LibTable.
From S2P Require Import Markers ThreadSafety ProfileModel ProfileSafety ProfileRuns RecorderMarkers ProfileCalls.
From S2P Require Import ContextSwitch UnresolvedSamples PathFiles MarkerFile Flush FlushMarkers Recycling.
From S2P Require Import JitCategories SyntheticJit PerfMap JitDump LinuxThreads LinuxProcess Processes PerCpu.
From S2P Require Import SampleStack Converter ObjectFiles CodeIds PeMappings KernelSymbols ObjectRewriter.
From stdpp Require Import options.
Open Scope Z_scope.

(** * Dependencies *)

(** The names of shared objects: [DsoKey] of linux-perf-data. *)
Class DsoKeys := {
  DsoKey : Type;
  DsoKey_eq_dec :: EqDecision DsoKey;
  DsoKey_countable :: Countable DsoKey;
  MappingMode : Type;
  dso_detect : string → MappingMode → option DsoKey;
  dso_kernel : DsoKey;
  dso_name : DsoKey → string
}.
(** The modules of framehop: path, range, base address and sections. *)
Class ModuleLoading `{Unwinding} := {
  Module_ : Type;
  new_module : string → Z * Z → Z → ObjectFiles.ExplicitModuleSectionInfo → Module_;
  add_module : Unwinder → Module_ → Unwinder
}.

(** * vdso.rs *)
Module Vdso.
Record VdsoObject := { object : Object; vdso_build_id : list Z; vdso_code_id : CodeIds.CodeId }.
(** The lines of /proc/self/maps, up to the first one that is not UTF-8. *)
Fixpoint readable_lines (lines : list (option string)) : list string :=
  match lines with Some l :: lines' => l :: readable_lines lines' | _ => [] end.
Definition get_vdso_range (lines : list (option string)) : option (Z * Z) :=
  line ← find (λ l, RustStr.ends_with l "[vdso]") (readable_lines lines);
  '(range, _) ← RustStr.split_once line " ";
  '(start, end_) ← RustStr.split_once range "-";
  start' ← RustStr.u64_from_str_radix start 16;
  end' ← RustStr.u64_from_str_radix end_ 16;
  Some (start', end').
(** [memory] is that of the process: address and length. *)
Definition get_vdso_data (memory : Z → Z → list Z) (lines : option (list (option string))) : option (list Z) :=
  lines ← lines;
  '(start, end_) ← get_vdso_range lines;
  if end_ <? start then None else Some (memory start (end_ - start)).
Definition shared_instance_for_this_process `{ObjectFiles} (memory : Z → Z → list Z)
    (lines : option (list (option string))) : option VdsoObject :=
  data ← get_vdso_data memory lines;
  object' ← parse_object data;
  build_id' ← build_id object';
  Some {| object := object'; vdso_build_id := build_id'; vdso_code_id := CodeIds.ElfBuildId build_id' |}.
End Vdso.

Module MappedFiles.
Import Hierarchy Profile LinuxProcess SampleStack Converter AvmaRange.

Section mapped_files.
Context `{DebugIdOps} `{JitDumpReader} `{!TextFiles} `{U : Unwinding} `{DrainOrder}.
Context `{PerfConstants} `{!StackWalking} `{!DebugIds.UuidDebugIds} `{!FileBytes} `{!PeHeaders} `{!ObjectFiles}.
Context `{!WriteFiles} `{!ElfReader} `{!DsoKeys} `{!ModuleLoading}.

(** * State *)
Record DsoInfo := { dso_path : string; dso_build_id : list Z }.
Record SimpleperfSymbol := { vaddr : Z; len : Z; symbol_name : string }.
Record SymbolTableFromSimpleperf := {
  min_vaddr : Z;
  file_offset_of_min_vaddr_in_elf_file : option Z;
  simpleperf_symbol_table : SymbolTable.SymbolTable;
  simpleperf_category : option CategoryPairHandle;
  simpleperf_art_info : option AndroidArtInfo
}.
Record KernelImageMapping := { image_lib : LibraryHandle; base_address : Z; end_address : Z }.

(** The members of the converter that only the mapped files need: first those
    that stay as they are. *)
Record ModuleOptions := {
  build_ids : gmap DsoKey DsoInfo;
  linux_version : option string;
  binary_lookup_dirs : list string;
  kernel_symbols : option KernelSymbols.KernelSymbols;
  simpleperf_symbol_tables_user : gmap string SymbolTableFromSimpleperf;
  simpleperf_symbol_tables_jit : gmap string (list SimpleperfSymbol);
  simpleperf_symbol_tables_kernel_modules : gmap string SymbolTableFromSimpleperf;
  should_emit_jit_markers : bool;
  (** The instance of vdso.rs. *)
  vdso : option Vdso.VdsoObject
}.
Record Recorder := {
  converter : Converter;
  module_options : ModuleOptions;
  kernel_image_mapping : option KernelImageMapping;
  simpleperf_symbol_tables_kernel_image : option (list SimpleperfSymbol);
  pe_mappings : PeMappings.PeMappings
}.
Definition with_converter (m : Recorder) (s : Converter) : Recorder :=
  {| converter := s; module_options := module_options m; kernel_image_mapping := kernel_image_mapping m;
     simpleperf_symbol_tables_kernel_image := simpleperf_symbol_tables_kernel_image m;
     pe_mappings := pe_mappings m |}.
Definition with_kernel_image (m : Recorder) (mapping : option KernelImageMapping)
    (symbols : option (list SimpleperfSymbol)) : Recorder :=
  {| converter := converter m; module_options := module_options m; kernel_image_mapping := mapping;
     simpleperf_symbol_tables_kernel_image := symbols; pe_mappings := pe_mappings m |}.
Definition with_pe_mappings (m : Recorder) (mappings : PeMappings.PeMappings) : Recorder :=
  {| converter := converter m; module_options := module_options m;
     kernel_image_mapping := kernel_image_mapping m;
     simpleperf_symbol_tables_kernel_image := simpleperf_symbol_tables_kernel_image m;
     pe_mappings := mappings |}.
Definition with_files (s : Converter) (files' : PathFiles.fs) : Converter :=
  Converter.with_jit s files' (profile s) (jit_category_manager s).

(** * Kernel modules *)
Definition kernel_build_id (m : Recorder) (base_address' : Z) (build_id' : option (list Z)) (path : string)
    : option (list Z) :=
  match build_id', kernel_symbols (module_options m) with
  | Some build_id', _ => Some build_id'
  | None, Some kernel_symbols' =>
      if KernelSymbols.base_avma kernel_symbols' =? base_address' then Some (KernelSymbols.build_id kernel_symbols')
      else KernelSymbols.kernel_module_build_id (files (converter m)) path (binary_lookup_dirs (module_options m))
  | None, None =>
      KernelSymbols.kernel_module_build_id (files (converter m)) path (binary_lookup_dirs (module_options m))
  end.
(** The symbols of simpleperf, relative to the image. *)
Definition relative_symbol (base_address' : Z) (s : SimpleperfSymbol) : option SymbolTable.Symbol :=
  if vaddr s <? base_address' then None
  else if 2 ^ 32 <=? vaddr s - base_address' then None
  else Some {| SymbolTable.address := vaddr s - base_address'; SymbolTable.size := Some (len s);
               SymbolTable.name := symbol_name s |}.
(** The symbol table of the kernel image, and what is left of those of simpleperf. *)
Definition kernel_image_symbols (m : Recorder) (base_address' : Z) (build_id' : option (list Z))
    : option SymbolTable.SymbolTable * option (list SimpleperfSymbol) :=
  let simpleperf :=
    ((λ symbols, SymbolTable.new (omap (relative_symbol base_address') symbols)) <$>
       simpleperf_symbol_tables_kernel_image m, None) in
  match build_id', kernel_symbols (module_options m) with
  | Some build_id', Some kernel_symbols' =>
      if decide (build_id' = KernelSymbols.build_id kernel_symbols' ∧ KernelSymbols.base_avma kernel_symbols' ≠ 0)
      then (Some (KernelSymbols.symbol_table kernel_symbols'), simpleperf_symbol_tables_kernel_image m)
      else simpleperf
  | _, _ => simpleperf
  end.
Definition kernel_library (m : Recorder) (dso_key : DsoKey) (build_id' : option (list Z)) (path : string)
    (table : option SymbolTable.SymbolTable) : LibraryInfo.LibraryInfo :=
  let debug_path' :=
    match linux_version (module_options m) with
    | Some version => if decide (dso_key = dso_kernel) then "/usr/lib/debug/boot/vmlinux-" +:+ version else path
    | None => path
    end in
  {| LibraryInfo.name := dso_name dso_key; LibraryInfo.debug_name := dso_name dso_key; LibraryInfo.path := path;
     LibraryInfo.debug_path := debug_path';
     LibraryInfo.debug_id :=
       default nil ((λ id, DebugIds.from_identifier id (little_endian (options (converter m)))) <$> build_id');
     LibraryInfo.code_id := (λ id, CodeIds.to_string (CodeIds.ElfBuildId id)) <$> build_id';
     LibraryInfo.arch := None; LibraryInfo.symbol_table := table |}.
(** Cutting the image off where another module starts in it. *)
Definition trim_kernel_image (p : Profile) (mapping : KernelImageMapping) (base_address' : Z)
    : res (Profile * KernelImageMapping) :=
  if (base_address mapping <? base_address') && (base_address' <? end_address mapping) then
    p' ← add_kernel_lib_mapping p (image_lib mapping) (base_address mapping) base_address' 0;
    Ok (p', {| image_lib := image_lib mapping; base_address := base_address mapping; end_address := base_address' |})
  else Ok (p, mapping).
Definition add_kernel_module (m : Recorder) (base_address' len' : Z) (dso_key : DsoKey)
    (build_id' : option (list Z)) (path_slice : string) : res Recorder :=
  path ← unwrap (Utf8.from_utf8 path_slice);
  let build_id' := kernel_build_id m base_address' build_id' path in
  let '(table, simpleperf) :=
    if decide (dso_key = dso_kernel) then kernel_image_symbols m base_address' build_id'
    else (simpleperf_symbol_table <$> simpleperf_symbol_tables_kernel_modules (module_options m) !! path_slice,
          simpleperf_symbol_tables_kernel_image m) in
  let '(p1, lib_handle) := add_lib (profile (converter m)) (kernel_library m dso_key build_id' path table) in
  let end_address' := add_u64 base_address' len' in
  p2 ← add_kernel_lib_mapping p1 lib_handle base_address' end_address' 0;
  if decide (dso_key = dso_kernel) then
    Ok (with_kernel_image (with_converter m (with_profile (converter m) p2))
          (Some {| image_lib := lib_handle; base_address := base_address'; end_address := end_address' |}) simpleperf)
  else
    match kernel_image_mapping m with
    | None => Ok (with_kernel_image (with_converter m (with_profile (converter m) p2)) None simpleperf)
    | Some mapping =>
        '(p3, mapping') ← trim_kernel_image p2 mapping base_address';
        Ok (with_kernel_image (with_converter m (with_profile (converter m) p3)) (Some mapping') simpleperf)
    end.

(** * JIT functions of simpleperf *)
Definition is_simpleperf_jit_path (path : string) : bool :=
  let path' := match RustStr.rsplit_once path ":" with Some (base_path, _) => base_path | None => path end in
  let name' := after_last_slash path' in
  RustStr.ends_with name' "_jit_app_cache" || RustStr.starts_with name' "TemporaryFile-".
Definition get_simpleperf_jit_function_name (m : Recorder) (path_slice : string) (start_avma : Z)
    : option (string * Z) :=
  symbols ← simpleperf_symbol_tables_jit (module_options m) !! path_slice;
  match SymbolTable.binary_search_by_key vaddr symbols start_avma with
  | SymbolTable.Found i => sym ← symbols !! i; Some (symbol_name sym, len sym)
  | SymbolTable.NotFound _ => None
  end.
Definition add_simpleperf_jit_mapping (m : Recorder) (pid' : Z) (path_slice : string) (address mapping_size : Z)
    (timestamp_raw : Z) : res Recorder :=
  let '(name', len') :=
    default ("jit_fun_" +:+ hex_digits 16 address "", wrap_u32 mapping_size)
      (get_simpleperf_jit_function_name m path_slice address) in
  '(s, pr) ← process_by_pid (converter m) pid';
  let synthetic_lib := simpleperf_jit_app_cache_library s in
  let info := new_java_mapping (SyntheticJitLibrary.lib_handle synthetic_lib)
                (Some (SyntheticJitLibrary.default_category synthetic_lib)) in
  let '(pr', synthetic_lib') := add_jit_function pr timestamp_raw synthetic_lib name' address len' info in
  Ok (with_converter m (put_process (with_jit_library s synthetic_lib') pid' pr')).

(** * Modules of a process *)
Inductive MappingType := Elf | Pe.
Record MappingInfo := {
  mapping_path : string;
  mapping_code_id : option CodeIds.CodeId;
  mapping_avma_range : AvmaRange;
  mapping_type : MappingType
}.
Definition new_elf (path : string) (range : AvmaRange) : MappingInfo :=
  {| mapping_path := path; mapping_code_id := None; mapping_avma_range := range; mapping_type := Elf |}.
Definition new_pe (x : PeMappings.SuspectedPeMapping) : MappingInfo :=
  {| mapping_path := PeMappings.path x; mapping_code_id := Some (PeMappings.code_id x);
     mapping_avma_range := PeMappings.avma_range x; mapping_type := Pe |}.
Definition compute_base_avma (info : MappingInfo) (file : Object) (mapping_start_file_offset : Z) : option Z :=
  match mapping_type info with
  | Pe => Some (start (mapping_avma_range info))
  | Elf =>
      bias ← VmaBias.compute_vma_bias file mapping_start_file_offset (start (mapping_avma_range info))
               (size (mapping_avma_range info));
      Some (add_u64 (ObjectFiles.relative_address_base file) bias)
  end.
Definition code_id_matches (file_code_id : option CodeIds.CodeId) (expected_code_id : CodeIds.CodeId) : bool :=
  match file_code_id with Some file_code_id => bool_decide (expected_code_id = file_code_id) | None => false end.
(** Whether a file is not the one the record is about. *)
Definition is_other_file (expected_code_id file_code_id : option CodeIds.CodeId) : bool :=
  match expected_code_id with
  | Some expected_code_id => negb (code_id_matches file_code_id expected_code_id)
  | None => false
  end.
Definition library_info (name' path : string) (debug_id' : DebugId) (code_id' : option CodeIds.CodeId)
    (table : option SymbolTable.SymbolTable) : LibraryInfo.LibraryInfo :=
  {| LibraryInfo.name := name'; LibraryInfo.debug_name := name'; LibraryInfo.path := path;
     LibraryInfo.debug_path := path; LibraryInfo.debug_id := debug_id';
     LibraryInfo.code_id := CodeIds.to_string <$> code_id'; LibraryInfo.arch := None;
     LibraryInfo.symbol_table := table |}.
Definition library_info_with_object (name' path : string) (file : Object) (code_id' : option CodeIds.CodeId)
    : res (option LibraryInfo.LibraryInfo) :=
  debug_id' ← DebugIds.debug_id_for_object file;
  Ok (fmap (M:=option) (λ id, library_info name' path id code_id' None) debug_id').
(** A library of which only the build ID is known. *)
Definition library_without_object (name' path : string) (build_id' : option (list Z))
    (table : option SymbolTable.SymbolTable) : LibraryInfo.LibraryInfo :=
  library_info name' path (default nil ((λ id, DebugIds.from_identifier id true) <$> build_id'))
    (CodeIds.ElfBuildId <$> build_id') table.

(** The file and its path as text, repaired if it has to be. *)
Definition open_mapped_file (s : Converter) (dirs : list string) (info : MappingInfo)
    : res (Converter * option PathFiles.File * string) :=
  let path := Utf8.from_utf8_lossy (mapping_path info) in
  match PathFiles.open_file_with_fallback (files s) (mapping_path info) dirs with
  | None => Ok (s, None, path)
  | Some (f, p) =>
      '(files', fixed) ← InjectedJitObject.correct_bad_perf_jit_so_file (files s) f path;
      let s' := with_files s files' in
      Ok match fixed with
         | Some (fixed_file, fixed_path) => (s', Some fixed_file, fixed_path)
         | None => (s', Some f, Utf8.from_utf8_lossy p)
         end
  end.

(** What the record says. *)
Record MappedModule := {
  module_pid : Z;
  mapping_start_file_offset : Z;
  mapping_start_avma : Z;
  mapping_size : Z;
  module_build_id : option (list Z);
  module_timestamp : Z
}.
Definition avma_range (e : MappedModule) : AvmaRange := with_start_size (mapping_start_avma e) (mapping_size e).
Definition expected_code_id (e : MappedModule) : option CodeIds.CodeId := CodeIds.ElfBuildId <$> module_build_id e.
Definition add_regular (s : Converter) (e : MappedModule) (pr : Process) (relative_address_at_start : Z)
    (info : LibMappingInfo) : Converter :=
  put_process s (module_pid e)
    (add_regular_lib_mapping pr (module_timestamp e) (start (avma_range e)) (end_ (avma_range e))
       relative_address_at_start info).

(** Case 1: simpleperf found symbols. *)
Definition add_simpleperf_library (s : Converter) (e : MappedModule) (pr : Process) (name' path : string)
    (table : SymbolTableFromSimpleperf) : Converter :=
  let relative_address_at_start :=
    match file_offset_of_min_vaddr_in_elf_file table with
    | Some file_offset_of_min_vaddr =>
        wrap_u32 (sub_u64 (min_vaddr table) (sub_u64 file_offset_of_min_vaddr (mapping_start_file_offset e)))
    | None => wrap_u32 (mapping_start_file_offset e)
    end in
  let '(p, lib_handle) :=
    add_lib (profile s)
      (library_without_object name' path (module_build_id e) (Some (simpleperf_symbol_table table))) in
  let info :=
    match simpleperf_art_info table with
    | Some LibArt => new_libart_mapping lib_handle
    | Some JavaFrame => new_java_mapping lib_handle (simpleperf_category table)
    | None => new_lib lib_handle
    end in
  add_regular (with_profile s p) e pr relative_address_at_start info.
(** A file with its library and its base address goes to the unwinder and the
    profile. *)
Definition add_loaded_library (s : Converter) (e : MappedModule) (pr : Process) (path : string)
    (sections' : ObjectFiles.ExplicitModuleSectionInfo) (library : LibraryInfo.LibraryInfo) (base_avma : Z)
    : Converter * Process * LibraryHandle * Z :=
  let module' := new_module path (start (avma_range e), end_ (avma_range e)) base_avma sections' in
  let pr' := with_mappings pr (add_module (unwinder pr) module') (lib_mapping_ops pr) (jit_app_cache_mapping_ops pr) in
  let '(p, lib_handle) := add_lib (profile s) library in
  (with_profile s p, pr', lib_handle, wrap_u32 (sub_u64 (mapping_start_avma e) base_avma)).
(** Case 2: the file can be read. *)
Definition add_file_library (m : ModuleOptions) (s : Converter) (e : MappedModule) (pr : Process)
    (info : MappingInfo) (name' path : string) (file : PathFiles.File) : res Converter :=
  match (mmap ← map_file file; obj ← parse_object mmap; Some (mmap, obj)) with
  | None => Ok s
  | Some (mmap, obj) =>
      let file_code_id :=
        match mapping_code_id info with
        | Some id => Some id
        | None => CodeIds.ElfBuildId <$> build_id obj
        end in
      if is_other_file (expected_code_id e) file_code_id then Ok s
      else
        let sections' := ObjectFiles.module_section_info_with_object (Some mmap) obj in
        library ← library_info_with_object name' path obj file_code_id;
        match library, compute_base_avma info obj (mapping_start_file_offset e) with
        | Some library, Some base_avma =>
            let '(s', pr', lib_handle, relative_address_at_start) :=
              add_loaded_library s e pr path sections' library base_avma in
            if RustStr.starts_with name' "jitted-" && RustStr.ends_with name' ".so" then
              '(pr'', manager, p) ←
                add_lib_mapping_for_injected_jit_lib pr' (module_timestamp e)
                  (convert_time (timestamp_converter (options s)) (module_timestamp e))
                  (ObjectFiles.jit_function_name obj) (start (avma_range e)) (end_ (avma_range e))
                  relative_address_at_start lib_handle (jit_category_manager s') (profile s')
                  (should_emit_jit_markers m);
              Ok (put_process (Converter.with_jit s' (files s') p manager) (module_pid e) pr'')
            else Ok (add_regular s' e pr' relative_address_at_start (new_lib lib_handle))
        | _, _ => Ok s
        end
  end.
(** Case 3: the VDSO. *)
Definition add_vdso_library (s : Converter) (e : MappedModule) (pr : Process) (info : MappingInfo)
    (name' path : string) (v : Vdso.VdsoObject) : res Converter :=
  if is_other_file (expected_code_id e) (Some (Vdso.vdso_code_id v)) then Ok s
  else
    let sections' := ObjectFiles.module_section_info_with_object None (Vdso.object v) in
    library ← library_info_with_object name' path (Vdso.object v) (Some (Vdso.vdso_code_id v));
    match library, compute_base_avma info (Vdso.object v) (mapping_start_file_offset e) with
    | Some library, Some base_avma =>
        let '(s', pr', lib_handle, relative_address_at_start) :=
          add_loaded_library s e pr path sections' library base_avma in
        Ok (add_regular s' e pr' relative_address_at_start (new_lib lib_handle))
    | _, _ => Ok s
    end.
(** Case 4: without the file, offsets are taken for stated addresses. *)
Definition add_guessed_library (s : Converter) (e : MappedModule) (pr : Process) (name' path : string) : Converter :=
  let base_avma := sub_u64 (mapping_start_avma e) (mapping_start_file_offset e) in
  let relative_address_at_start := wrap_u32 (sub_u64 (mapping_start_avma e) base_avma) in
  let '(p, lib_handle) := add_lib (profile s) (library_without_object name' path (module_build_id e) None) in
  add_regular (with_profile s p) e pr relative_address_at_start (new_lib lib_handle).

Definition mapping_info (m : Recorder) (e : MappedModule) (path_slice : string) : MappingInfo :=
  let elf := new_elf path_slice (avma_range e) in
  if RustStr.is_empty path_slice then
    match PeMappings.find_mapping (pe_mappings m) (avma_range e) with
    | Some pe_mapping => new_pe pe_mapping
    | None => elf
    end
  else elf.
Definition add_module_to_process (m : Recorder) (path_slice : string) (e : MappedModule) : res Recorder :=
  let info := mapping_info m e path_slice in
  '(s1, file, path) ← open_mapped_file (converter m) (binary_lookup_dirs (module_options m)) info;
  let name' := after_last_slash path in
  '(s2, pr) ← process_by_pid s1 (module_pid e);
  with_converter m <$>
    match simpleperf_symbol_tables_user (module_options m) !! path_slice with
    | Some table => Ok (add_simpleperf_library s2 e pr name' path table)
    | None =>
        match file with
        | Some file => add_file_library (module_options m) s2 e pr info name' path file
        | None =>
            match vdso (module_options m) with
            | Some v =>
                if decide (name' = "[vdso]") then add_vdso_library s2 e pr info name' path v
                else Ok (add_guessed_library s2 e pr name' path)
            | None => Ok (add_guessed_library s2 e pr name' path)
            end
        end
    end.

(** * Handlers *)
Record MmapRecord := {
  mmap_pid : Z; mmap_tid : Z; mmap_address : Z; mmap_length : Z; mmap_page_offset : Z;
  is_executable : bool; mmap_cpu_mode : MappingMode; mmap_path : string
}.
Inductive Mmap2FileId := BuildId (id : list Z) | InodeAndVersion.
Record Mmap2Record := {
  mmap2_pid : Z; mmap2_tid : Z; mmap2_address : Z; mmap2_length : Z; mmap2_page_offset : Z;
  protection : Z; file_id : Mmap2FileId; mmap2_cpu_mode : MappingMode; mmap2_path : string
}.
(** The marker, and whether the path is one of a file that is no binary. *)
Definition mark_mapping (m : Recorder) (pid' tid' : Z) (path : string) (timestamp' : Z) : res (Recorder * bool) :=
  let s := converter m in
  s1 ← (if should_emit_mmap_markers (options s)
        then add_mmap_marker s pid' tid' (Utf8.from_utf8_lossy path) timestamp' else Ok s);
  '(s2, is_aux_file) ← check_jitdump_or_marker_file s1 (Utf8.from_utf8 path) pid' tid';
  Ok (with_converter m s2, is_aux_file).
Definition check_pe (m : Recorder) (page_offset : Z) (path : string) (address : Z) : Recorder :=
  if page_offset =? 0
  then with_pe_mappings m (PeMappings.check_mmap (files (converter m)) (pe_mappings m) path (Utf8.from_utf8 path) address)
  else m.
Definition handle_mmap (m : Recorder) (e : MmapRecord) (timestamp' : Z) : res Recorder :=
  '(m1, is_aux_file) ← mark_mapping m (mmap_pid e) (mmap_tid e) (mmap_path e) timestamp';
  if (is_aux_file : bool) then Ok m1
  else
    let m2 := check_pe m1 (mmap_page_offset e) (mmap_path e) (mmap_address e) in
    match (if is_executable e then dso_detect (mmap_path e) (mmap_cpu_mode e) else None) with
    | None => Ok m2
    | Some dso_key =>
        let '(build_id', path) :=
          match build_ids (module_options m) !! dso_key with
          | Some dso_info => (Some (dso_build_id dso_info), dso_path dso_info)
          | None => (None, mmap_path e)
          end in
        if mmap_pid e =? -1 then add_kernel_module m2 (mmap_address e) (mmap_length e) dso_key build_id' path
        else add_module_to_process m2 path
               {| module_pid := mmap_pid e; mapping_start_file_offset := mmap_page_offset e;
                  mapping_start_avma := mmap_address e; mapping_size := mmap_length e;
                  module_build_id := build_id'; module_timestamp := timestamp' |}
    end.
Definition PROT_SIMPLEPERF_JIT_MAPPING : Z := 16384.
Definition PROT_EXEC : Z := 4.
(** The build ID of the record or of the list; [None] if the file is no shared
    object. *)
Definition mmap2_build_id (m : Recorder) (e : Mmap2Record) : option (option (list Z)) :=
  match file_id e with
  | BuildId id => Some (Some id)
  | InodeAndVersion =>
      dso_key ← dso_detect (mmap2_path e) (mmap2_cpu_mode e);
      Some (dso_build_id <$> build_ids (module_options m) !! dso_key)
  end.
Definition handle_mmap2 (m : Recorder) (e : Mmap2Record) (timestamp' : Z) : res Recorder :=
  '(m1, is_aux_file) ← mark_mapping m (mmap2_pid e) (mmap2_tid e) (mmap2_path e) timestamp';
  if (is_aux_file : bool) then Ok m1
  else if negb (Z.land (protection e) PROT_SIMPLEPERF_JIT_MAPPING =? 0) then
    add_simpleperf_jit_mapping m1 (mmap2_pid e) (mmap2_path e) (mmap2_address e) (mmap2_length e) timestamp'
  else
    let m2 := check_pe m1 (mmap2_page_offset e) (mmap2_path e) (mmap2_address e) in
    if (Z.land (protection e) PROT_EXEC =? 0) &&
       bool_decide (simpleperf_symbol_tables_user (module_options m) !! mmap2_path e = None)
    then Ok m2
    else
      match mmap2_build_id m2 e with
      | None => Ok m2
      | Some build_id' =>
          add_module_to_process m2 (mmap2_path e)
            {| module_pid := mmap2_pid e; mapping_start_file_offset := mmap2_page_offset e;
               mapping_start_avma := mmap2_address e; mapping_size := mmap2_length e;
               module_build_id := build_id'; module_timestamp := timestamp' |}
      end.
End mapped_files.
End MappedFiles.
