(* ===== verification/MappedFilesSafety.v ===== *)
(** The handlers of MappedFiles.v return and keep the invariant of a recording. *)
From S2P Require Import Prelude RustStr BTree Types LibMappings Hierarchy StringTables SymbolTable LibTable.
From S2P Require Import Markers ThreadSafety ProfileModel ProfileSafety ProfileRuns RecorderMarkers ProfileCalls.
From S2P Require Import ContextSwitch UnresolvedSamples PathFiles MarkerFile Flush FlushMarkers Recycling.
From S2P Require Import JitCategories SyntheticJit PerfMap JitDump LinuxThreads LinuxProcess Processes PerCpu.
From S2P Require Import SampleStack Converter ConverterInvariant ConverterHandlers ConverterEvents.
From S2P Require Import ObjectFiles CodeIds PeMappings KernelSymbols ObjectRewriter MappedFiles.
From stdpp Require Import options.
Open Scope Z_scope.

Module MappedFilesSafety.
Import Hierarchy Profile ProfileCalls LinuxProcess SampleStack Converter ConverterInvariant ConverterEvents.
Import AvmaRange MappedFiles.

Section safety.
Context `{DebugIdOps} `{JitDumpReader} `{!TextFiles} `{U : Unwinding} `{DrainOrder}.
Context `{PerfConstants} `{!StackWalking} `{!DebugIds.UuidDebugIds} `{!FileBytes} `{!PeHeaders} `{!ObjectFiles}.
Context `{!WriteFiles} `{!ElfReader} `{!DsoKeys} `{!ModuleLoading}.
Context (R : reader → Prop) (B : nat) (o : Options) (mo : ModuleOptions).
Notation converter_ok := (ConverterInvariant.converter_ok R o).
Notation step := (ConverterInvariant.step R o).

(** * What is relied on *)
Definition built (table : SymbolTable.SymbolTable) : Prop := ∃ syms, table = SymbolTable.new syms.
(** The GUID of a PDB file has 16 bytes. *)
Definition guid_ok (obj : Object) : Prop := ∀ guid age, pdb_info obj = Some (guid, age) → length guid = 16%nat.
Record files_ok : Prop := {
  objects_ok : ∀ data obj, parse_object data = Some obj → guid_ok obj;
  objects_rewritable : InjectedJitObject.rewritable
}.
Record options_ok : Prop := {
  vdso_ok : ∀ v, vdso mo = Some v → guid_ok (Vdso.object v);
  kernel_built : ∀ k, kernel_symbols mo = Some k → built (KernelSymbols.symbol_table k);
  user_built : ∀ path t, simpleperf_symbol_tables_user mo !! path = Some t → built (simpleperf_symbol_table t);
  modules_built : ∀ path t, simpleperf_symbol_tables_kernel_modules mo !! path = Some t → built (simpleperf_symbol_table t);
  jit_lengths : ∀ path l s, simpleperf_symbol_tables_jit mo !! path = Some l → s ∈ l → u32_range (len s);
  dso_paths : ∀ key info, build_ids mo !! key = Some info → is_Some (Utf8.from_utf8 (dso_path info))
}.
Context (Hfiles : files_ok) (Hoptions : options_ok).

(** * Invariant *)
Definition image_ok (p : Profile) (k : KernelImageMapping) : Prop :=
  (image_lib k < ProfileRuns.num_libs p)%nat ∧ base_address k ≤ end_address k.
Definition tables_ok (p : Profile) : Prop := ∀ path t c,
  simpleperf_symbol_tables_user mo !! path = Some t → simpleperf_category t = Some c →
  ThreadSafety.category_ok (length (categories p)) c.
Record recorder_ok (m : Recorder) : Prop := {
  recorder_converter : converter_ok (converter m);
  recorder_options : module_options m = mo;
  recorder_image : ∀ k, kernel_image_mapping m = Some k → image_ok (profile (converter m)) k;
  recorder_tables : tables_ok (profile (converter m))
}.
Record rstep (k j : nat) (m m' : Recorder) : Prop := {
  rstep_step : step k j (converter m) (converter m');
  rstep_ok : recorder_ok m'
}.
Lemma tables_ok_evolves p p' : evolves p p' → tables_ok p → tables_ok p'.
Proof.
  intros He Ht path t c Hp Hc. pose proof (evolves_num_categories _ _ He). specialize (Ht path t c Hp Hc).
  unfold ThreadSafety.category_ok in *. lia.
Qed.
Lemma image_ok_evolves p p' k : evolves p p' → image_ok p k → image_ok p' k.
Proof. intros He [? ?]. pose proof (evolves_libs _ _ He). split; [lia|done]. Qed.
(** Only the converter changes. *)
Lemma converter_rstep k j m s' :
  recorder_ok m → step k j (converter m) s' → rstep k j m (with_converter m s').
Proof.
  intros [] Hst. pose proof (step_evolves _ _ _ _ _ _ Hst) as He. split; [done|]. split; simpl; try done.
  - apply Hst.
  - intros i Hi. eapply image_ok_evolves; [exact He|by apply recorder_image0].
  - by eapply tables_ok_evolves.
Qed.
Lemma rstep_trans k j k' j' m m1 m2 : rstep k j m m1 → rstep k' j' m1 m2 → rstep (k + k') (j + j') m m2.
Proof. intros [] []. split; [by eapply converter_step_trans|done]. Qed.
Lemma rstep_weaken k j k' j' m m' : (k ≤ k')%nat → (j ≤ j')%nat → rstep k j m m' → rstep k' j' m m'.
Proof. intros ? ? []. split; [by eapply converter_step_weaken|done]. Qed.
Lemma rstep_refl k j m : recorder_ok m → rstep k j m m.
Proof. intros Hok. split; [apply converter_step_refl, Hok|done]. Qed.

(** * Libraries *)
Definition table_built (library : LibraryInfo.LibraryInfo) : Prop :=
  ∀ table, LibraryInfo.symbol_table library = Some table → built table.
Lemma add_lib_calls n p library :
  ProfileRuns.wf n p → table_built library →
  let '(p', h) := add_lib p library in by_calls_of quiet 0 p p' ∧ (h < ProfileRuns.num_libs p')%nat.
Proof.
  intros Hwf Hb. destruct (add_lib p library) as [p' h] eqn:Heq. split.
  { apply (call_of 0 (ProfileRuns.AddLib library)); [by split|exact Hb|cbn [ProfileRuns.apply_op]; by rewrite Heq|simpl; lia]. }
  destruct (ProfileRuns.wf_env _ _ Hwf) as [_ [keys Hg] _ _]. simpl in Hg.
  destruct (GlobalLibTable.handle_for_lib_wf keys _ library Hg) as (keys' & Hwf' & _ & Hh).
  unfold add_lib in Heq. destruct (GlobalLibTable.handle_for_lib _ _) as [g j]. injection Heq as <- <-.
  unfold ProfileRuns.num_libs. simpl in *.
  rewrite <-(Forall2_length _ _ _ (GlobalLibTable.wf_all_libs _ _ Hwf')). by eapply lookup_lt_Some.
Qed.
Lemma kernel_mapping_calls n p lib s e r :
  ProfileRuns.wf n p → Z.of_nat n < 2 ^ 32 → (lib < ProfileRuns.num_libs p)%nat → s ≤ e →
  ∃ p', add_kernel_lib_mapping p lib s e r = Ok p' ∧ by_calls_of quiet 0 p p'.
Proof.
  intros Hwf Hn Hlib Hse. set (op := ProfileRuns.AddKernelLibMapping lib s e r).
  destruct (ProfileRuns.op_ok n op p Hwf) as (p' & Heq & _); [done|simpl; lia|].
  exists p'. split; [exact Heq|]. apply (call_of 0 op); [by split|done|done|simpl; lia].
Qed.
Lemma lib_step s library :
  converter_ok s → room 0 0 s → table_built library →
  let '(p, h) := add_lib (profile s) library in step 0 0 s (with_profile s p) ∧ (h < ProfileRuns.num_libs p)%nat.
Proof.
  intros Hok [(n & Hwf & _) _] Hb. pose proof (add_lib_calls n (profile s) library Hwf Hb) as Hl.
  destruct (add_lib _ _) as [p h]. destruct Hl as [Hby Hh]. split; [|done]. by apply quiet_step.
Qed.

(** * Modules of a process *)
Definition range_ok (e : MappedModule) : Prop :=
  0 ≤ mapping_start_avma e ∧ 0 ≤ mapping_size e ∧ mapping_start_avma e + mapping_size e < 2 ^ 64.
Lemma range_start_end e : range_ok e → start (avma_range e) ≤ end_ (avma_range e).
Proof. intros (? & ? & ?). unfold avma_range, with_start_size. simpl. rewrite add_u64_id by lia. lia. Qed.
Lemma new_lib_valid p h : (h < ProfileRuns.num_libs p)%nat → PerfMap.info_valid p (new_lib h).
Proof. intros Hh. split; [done|]. by split. Qed.
Lemma libart_valid p h : (h < ProfileRuns.num_libs p)%nat → PerfMap.info_valid p (new_libart_mapping h).
Proof. intros Hh. split; [done|]. by split. Qed.
Lemma java_valid p h c :
  (h < ProfileRuns.num_libs p)%nat → (∀ c', c = Some c' → ThreadSafety.category_ok (length (categories p)) c') →
  PerfMap.info_valid p (new_java_mapping h c).
Proof. intros Hh Hc. split; [done|]. by split. Qed.
Lemma regular_step s e pr relative info :
  converter_ok (put_process s (module_pid e) pr) → range_ok e → PerfMap.info_valid (profile s) info →
  step 0 0 (put_process s (module_pid e) pr) (add_regular s e pr relative info).
Proof.
  intros Hok Hr Hi. apply held_same_step; [done|].
  apply add_regular_lib_mapping_ok; [exact (held_process _ _ _ _ _ Hok)|by apply range_start_end|done].
Qed.
(** Adding a library and its mapping. *)
Lemma library_mapping_step s e pr library relative (info : LibraryHandle → LibMappingInfo) :
  converter_ok (put_process s (module_pid e) pr) → room 0 0 s → range_ok e → table_built library →
  (∀ p h, evolves (profile s) p → (h < ProfileRuns.num_libs p)%nat → PerfMap.info_valid p (info h)) →
  let '(p, h) := add_lib (profile s) library in
  step 0 0 (put_process s (module_pid e) pr) (add_regular (with_profile s p) e pr relative (info h)).
Proof.
  intros Hok Hroom Hr Hb Hi. pose proof (lib_step (put_process s (module_pid e) pr) library Hok Hroom Hb) as Hl.
  simpl in Hl. destruct (add_lib (profile s) library) as [p h]. destruct Hl as [Hst Hh].
  refine (converter_step_trans R o 0 0 0 0 _ _ _ Hst _). apply (regular_step (with_profile s p)); [apply Hst|done|].
  apply Hi; [exact (step_evolves _ _ _ _ _ _ Hst)|done].
Qed.
Lemma no_table_built name' path id c : table_built (library_info name' path id c None).
Proof. by intros ?. Qed.
Lemma guessed_step s e pr name' path :
  converter_ok (put_process s (module_pid e) pr) → room 0 0 s → range_ok e →
  step 0 0 (put_process s (module_pid e) pr) (add_guessed_library s e pr name' path).
Proof.
  intros Hok Hroom Hr. unfold add_guessed_library. set (library := library_without_object _ _ _ _).
  pose proof (library_mapping_step s e pr library
    (wrap_u32 (sub_u64 (mapping_start_avma e) (sub_u64 (mapping_start_avma e) (mapping_start_file_offset e))))
    new_lib Hok Hroom Hr (no_table_built _ _ _ _)) as Hst.
  destruct (add_lib (profile s) library) as [p h]. apply Hst. intros p' h' _. apply new_lib_valid.
Qed.
Lemma simpleperf_step s e pr name' path table key :
  converter_ok (put_process s (module_pid e) pr) → room 0 0 s → range_ok e →
  simpleperf_symbol_tables_user mo !! key = Some table → tables_ok (profile s) →
  step 0 0 (put_process s (module_pid e) pr) (add_simpleperf_library s e pr name' path table).
Proof using Hoptions.
  intros Hok Hroom Hr Hkey Htables. unfold add_simpleperf_library.
  set (relative := match file_offset_of_min_vaddr_in_elf_file table with Some _ => _ | None => _ end).
  set (library := library_without_object _ _ _ _).
  set (info h := match simpleperf_art_info table with
    | Some LibArt => new_libart_mapping h
    | Some JavaFrame => new_java_mapping h (simpleperf_category table)
    | None => new_lib h
    end).
  pose proof (library_mapping_step s e pr library relative info Hok Hroom Hr) as Hst.
  destruct (add_lib (profile s) library) as [p h]. apply Hst.
  - intros t [= <-]. by eapply (user_built Hoptions).
  - intros p' h' He Hh. unfold info. destruct (simpleperf_art_info table) as [[]|].
    + by apply libart_valid.
    + apply java_valid; [done|]. intros c Hc. by eapply (tables_ok_evolves _ _ He Htables).
    + by apply new_lib_valid.
Qed.

(** A file whose identity could be read. *)
Lemma library_of_object_ok name' path obj c :
  guid_ok obj → ∃ library, library_info_with_object name' path obj c = Ok library ∧
    ∀ l, library = Some l → table_built l.
Proof.
  intros Hg. unfold library_info_with_object, DebugIds.debug_id_for_object.
  assert (∀ id : option DebugId, ∃ library, (Ok (fmap (M:=option) (λ id, library_info name' path id c None) id) : res _) = Ok library ∧
    ∀ l, library = Some l → table_built l) as Hid.
  { intros id. eexists. split; [done|]. intros l (? & _ & ->)%fmap_Some. apply no_table_built. }
  destruct (pdb_info obj) as [[guid age]|] eqn:Hp; [|apply Hid].
  destruct (from_guid_age_16 guid age (Hg _ _ Hp)) as [id ->]. cbn [unwrap mbind res_bind]. apply (Hid (Some id)).
Qed.
Lemma loaded_step s e pr path sections' library base :
  converter_ok (put_process s (module_pid e) pr) → room 0 0 s → table_built library →
  let '(s', pr', h, _) := add_loaded_library s e pr path sections' library base in
  step 0 0 (put_process s (module_pid e) pr) (put_process s' (module_pid e) pr') ∧
    (h < ProfileRuns.num_libs (profile s'))%nat ∧ options s' = options s ∧ room 0 0 s'.
Proof.
  intros Hok Hroom Hb. unfold add_loaded_library. set (pr' := with_mappings _ _ _ _).
  assert (step 0 0 (put_process s (module_pid e) pr) (put_process s (module_pid e) pr')) as Hst1.
  { apply held_same_step; [done|]. apply step_same; try done. pose proof (held_process _ _ _ _ _ Hok) as Hpr.
    by destruct Hpr; split. }
  pose proof (lib_step (put_process s (module_pid e) pr') library (step_ok _ _ _ _ _ _ Hst1) Hroom Hb) as Hl.
  simpl in Hl. destruct (add_lib (profile s) library) as [p h]. destruct Hl as [Hst2 Hh].
  pose proof (converter_step_trans _ _ _ _ _ _ _ _ _ Hst1 Hst2) as Hst. split; [exact Hst|]. split; [exact Hh|]. split; [done|].
  exact (room_step R o 0 0 0 0 (put_process s (module_pid e) pr) _ Hroom Hst).
Qed.
Lemma put_returns s pid' pr :
  converter_ok (put_process s pid' pr) → put_process s pid' pr = s →
  ∃ s', (Ok s : res Converter) = Ok s' ∧ step 5 0 (put_process s pid' pr) s'.
Proof. intros Hok Hput. exists s. split; [done|]. rewrite Hput in *. by apply converter_step_refl. Qed.
Lemma injected_step s e pr symbol relative h marker files' :
  converter_ok (put_process s (module_pid e) pr) → room 5 0 s → range_ok e → (h < ProfileRuns.num_libs (profile s))%nat →
  ∃ pr' manager p,
    add_lib_mapping_for_injected_jit_lib pr (module_timestamp e)
      (convert_time (timestamp_converter (options s)) (module_timestamp e)) symbol (start (avma_range e))
      (end_ (avma_range e)) relative h (jit_category_manager s) (profile s) marker = Ok (pr', manager, p) ∧
    step 5 0 (put_process s (module_pid e) pr)
      (put_process (Converter.with_jit s files' p manager) (module_pid e) pr').
Proof.
  intros Hok [(n & Hwf & Hn) _] Hr Hh.
  destruct (add_lib_mapping_for_injected_jit_lib_ok R (unresolved_stacks s) n (profile s) pr (module_timestamp e)
    (convert_time (timestamp_converter (options s)) (module_timestamp e)) symbol (start (avma_range e))
    (end_ (avma_range e)) relative h (jit_category_manager s) marker)
    as (pr' & manager & p & Heq & Hst & Hm);
    [done|done|apply Hok|exact (held_process _ _ _ _ _ Hok)|apply Hok|by apply range_start_end|done|].
  exists pr', manager, p. split; [exact Heq|]. by apply held_step.
Qed.
Lemma file_library_ok s e pr info name' path file :
  converter_ok (put_process s (module_pid e) pr) → put_process s (module_pid e) pr = s → room 5 0 s → range_ok e →
  ∃ s', add_file_library mo s e pr info name' path file = Ok s' ∧ step 5 0 (put_process s (module_pid e) pr) s'.
Proof using Hfiles.
  intros Hok Hput Hroom Hr. unfold add_file_library. pose proof (put_returns s _ pr Hok Hput) as Hskip.
  destruct (mmap ← map_file file; obj ← parse_object mmap; Some (mmap, obj)) as [[mmap obj]|] eqn:Hobj; [|done].
  assert (guid_ok obj) as Hg.
  { destruct (map_file file) as [d|]; [|done]. cbn [mbind option_bind] in Hobj.
    destruct (parse_object d) as [obj'|] eqn:Hp; [|done]. injection Hobj as -> ->. by eapply objects_ok. }
  set (c := match mapping_code_id info with Some id => Some id | None => _ end).
  destruct (is_other_file _ _); [done|].
  destruct (library_of_object_ok name' path obj c Hg) as (library & -> & Hb). cbn [mbind res_bind].
  destruct library as [library|]; [|done]. destruct (compute_base_avma _ _ _) as [base|]; [|done].
  assert (room 0 0 s) as Hroom0 by (eapply room_weaken; [| |exact Hroom]; lia).
  pose proof (loaded_step s e pr path (ObjectFiles.module_section_info_with_object (Some mmap) obj) library base
    Hok Hroom0 (Hb _ eq_refl)) as Hl.
  destruct (add_loaded_library _ _ _ _ _ _ _) as [[[s' pr'] h] relative]. destruct Hl as (Hst & Hh & Hopt & Hroom').
  pose proof (step_ok _ _ _ _ _ _ Hst) as Hok'.
  destruct (_ && _).
  - rewrite <-Hopt.
    destruct (injected_step s' e pr' (ObjectFiles.jit_function_name obj) relative h (should_emit_jit_markers mo) (files s'))
      as (pr'' & manager & p & -> & Hst2); [done| |done|done|].
    { exact (room_step R o 0 0 5 0 (put_process s (module_pid e) pr) _ Hroom Hst). }
    cbn [mbind res_bind]. eexists. split; [done|]. exact (converter_step_trans _ _ _ _ _ _ _ _ _ Hst Hst2).
  - eexists. split; [done|]. apply (converter_step_weaken R o 0 0); [lia|lia|].
    refine (converter_step_trans R o 0 0 0 0 _ _ _ Hst _). apply regular_step; [done|done|by apply new_lib_valid].
Qed.
Lemma vdso_library_ok s e pr info name' path v :
  converter_ok (put_process s (module_pid e) pr) → put_process s (module_pid e) pr = s → room 0 0 s → range_ok e →
  guid_ok (Vdso.object v) →
  ∃ s', add_vdso_library s e pr info name' path v = Ok s' ∧ step 5 0 (put_process s (module_pid e) pr) s'.
Proof.
  intros Hok Hput Hroom Hr Hg. unfold add_vdso_library. pose proof (put_returns s _ pr Hok Hput) as Hskip.
  destruct (is_other_file _ _); [done|].
  destruct (library_of_object_ok name' path (Vdso.object v) (Some (Vdso.vdso_code_id v)) Hg) as (library & -> & Hb).
  cbn [mbind res_bind]. destruct library as [library|]; [|done]. destruct (compute_base_avma _ _ _) as [base|]; [|done].
  pose proof (loaded_step s e pr path (ObjectFiles.module_section_info_with_object None (Vdso.object v)) library base
    Hok Hroom (Hb _ eq_refl)) as Hl.
  destruct (add_loaded_library _ _ _ _ _ _ _) as [[[s' pr'] h] relative]. destruct Hl as (Hst & Hh & _ & _).
  eexists. split; [done|]. apply (converter_step_weaken R o 0 0); [lia|lia|].
  refine (converter_step_trans R o 0 0 0 0 _ _ _ Hst _). apply regular_step; [apply Hst|done|by apply new_lib_valid].
Qed.
Lemma files_step s files' : converter_ok s → step 0 0 s (with_files s files').
Proof.
  intros Hok. split; [apply changes_refl| |done|unfold num_stacks; simpl; lia|by apply cpus_same]. by destruct Hok.
Qed.
Lemma open_mapped_file_ok s dirs info :
  converter_ok s → ∃ s' file path, open_mapped_file s dirs info = Ok (s', file, path) ∧ step 0 0 s s'.
Proof using Hfiles.
  intros Hok. unfold open_mapped_file. destruct (PathFiles.open_file_with_fallback _ _ _) as [[f p]|].
  2: { eexists _, _, _. split; [done|]. by apply converter_step_refl. }
  destruct (InjectedJitObject.correct_bad_perf_jit_so_file_Ok (files s) f (Utf8.from_utf8_lossy (mapping_path info)))
    as [[files' fixed] ->]; [apply Hfiles|]. cbn [mbind res_bind].
  destruct fixed as [[]|]; eexists _, _, _; (split; [done|]); by apply files_step.
Qed.
Lemma add_module_to_process_ok m path e :
  recorder_ok m → room 6 0 (converter m) → range_ok e →
  ∃ m', add_module_to_process m path e = Ok m' ∧ rstep 6 0 m m'.
Proof using Hfiles Hoptions.
  intros Hm Hroom Hr. pose proof Hm as [Hok Hmo _ Htables]. unfold add_module_to_process. rewrite Hmo.
  destruct (open_mapped_file_ok (converter m) (binary_lookup_dirs mo) (mapping_info m e path) Hok)
    as (s1 & file & p & -> & Hst1). cbn [mbind res_bind].
  assert (room 6 0 s1) as Hroom1 by exact (room_step R o 0 0 6 0 _ _ Hroom Hst1).
  destruct (process_by_pid_ok R 0 o s1 (module_pid e) (step_ok _ _ _ _ _ _ Hst1)) as (s2 & pr & -> & Hst2 & Hput & _).
  { eapply room_weaken; [| |exact Hroom1]; lia. }
  cbn [mbind res_bind]. assert (room 5 0 s2) as Hroom2 by exact (room_step R o 1 0 5 0 _ _ Hroom1 Hst2).
  assert (room 0 0 s2) as Hroom0 by (eapply room_weaken; [| |exact Hroom2]; lia).
  pose proof (converter_step_trans _ _ _ _ _ _ _ _ _ Hst1 Hst2) as Hst. rewrite <-Hput in Hst.
  pose proof (step_ok _ _ _ _ _ _ Hst) as Hok2. set (name' := after_last_slash p).
  assert (∀ s', step 0 0 (put_process s2 (module_pid e) pr) s' → step 5 0 (put_process s2 (module_pid e) pr) s') as Hweak.
  { intros s'. apply converter_step_weaken; lia. }
  assert (∃ s3, match simpleperf_symbol_tables_user mo !! path with
      | Some table => Ok (add_simpleperf_library s2 e pr name' p table)
      | None =>
          match file with
          | Some file => add_file_library mo s2 e pr (mapping_info m e path) name' p file
          | None =>
              match vdso mo with
              | Some v =>
                  if decide (name' = "[vdso]") then add_vdso_library s2 e pr (mapping_info m e path) name' p v
                  else Ok (add_guessed_library s2 e pr name' p)
              | None => Ok (add_guessed_library s2 e pr name' p)
              end
          end
      end = Ok s3 ∧ step 5 0 (put_process s2 (module_pid e) pr) s3) as (s3 & -> & Hst3).
  { pose proof (Hweak _ (guessed_step s2 e pr name' p Hok2 Hroom0 Hr)) as Hguess.
    destruct (simpleperf_symbol_tables_user mo !! path) as [table|] eqn:Hkey.
    { eexists. split; [done|]. apply Hweak. eapply simpleperf_step; try done.
      by eapply (tables_ok_evolves _ _ (step_evolves _ _ _ _ _ _ Hst)). }
    destruct file as [file|]; [by apply file_library_ok|].
    destruct (vdso mo) as [v|] eqn:Hv; [|by eexists]. destruct (decide _); [|by eexists].
    apply vdso_library_ok; try done. by apply (vdso_ok Hoptions). }
  cbn [fmap res_fmap mbind res_bind]. eexists. split; [done|]. apply converter_rstep; [done|].
  exact (converter_step_trans _ _ _ _ _ _ _ _ _ Hst Hst3).
Qed.

(** * The kernel *)
Lemma kernel_image_symbols_built m base id table rest :
  module_options m = mo → kernel_image_symbols m base id = (Some table, rest) → built table.
Proof using Hoptions.
  intros Hmo. unfold kernel_image_symbols. rewrite Hmo.
  set (simpleperf := (_ <$> simpleperf_symbol_tables_kernel_image m, None)).
  assert (simpleperf = (Some table, rest) → built table) as Hs.
  { intros Heq. unfold simpleperf in Heq. destruct (simpleperf_symbol_tables_kernel_image m); [|done].
    injection Heq as <- _. by eexists. }
  destruct id as [id|]; [|exact Hs]. destruct (kernel_symbols mo) as [k|] eqn:Hk; [|exact Hs].
  destruct (decide _); [|exact Hs]. intros [= <- _]. by apply (kernel_built Hoptions).
Qed.
Lemma trim_kernel_image_ok n p mapping base :
  ProfileRuns.wf n p → Z.of_nat n < 2 ^ 32 → image_ok p mapping →
  ∃ p' mapping', trim_kernel_image p mapping base = Ok (p', mapping') ∧ by_calls_of quiet 0 p p' ∧ image_ok p mapping'.
Proof.
  intros Hwf Hn [Hl Hse]. unfold trim_kernel_image. destruct (_ && _) eqn:Hin.
  - apply andb_prop in Hin as [Hlt _]. apply Z.ltb_lt in Hlt.
    destruct (kernel_mapping_calls n p (image_lib mapping) (base_address mapping) base 0) as (p' & -> & Hby);
      [done|done|done|lia|].
    cbn [mbind res_bind]. eexists _, _. split; [done|]. split; [done|]. split; [done|simpl; lia].
  - eexists _, _. split; [done|]. split; [apply calls_of_refl|done].
Qed.
Lemma kernel_image_ok m s' mapping symbols :
  recorder_ok m → step 0 0 (converter m) s' → (∀ k, mapping = Some k → image_ok (profile s') k) →
  rstep 0 0 m (with_kernel_image (with_converter m s') mapping symbols).
Proof.
  intros Hm Hst Hk. destruct (converter_rstep 0 0 m s' Hm Hst) as [_ []]. split; [done|]. by split.
Qed.
Lemma add_kernel_module_ok m base length' key id path :
  recorder_ok m → room 0 0 (converter m) → 0 ≤ base → 0 ≤ length' → base + length' < 2 ^ 64 →
  is_Some (Utf8.from_utf8 path) →
  ∃ m', add_kernel_module m base length' key id path = Ok m' ∧ rstep 0 0 m m'.
Proof using Hoptions.
  intros Hm [(n & Hwf & Hn) _] Hb Hl Hlt [text Htext]. unfold add_kernel_module. rewrite Htext. cbn [unwrap mbind res_bind].
  pose proof Hm as [Hok Hmo Himage Htables]. set (id' := kernel_build_id m base id text).
  destruct (if decide (key = dso_kernel) then _ else _) as [table rest] eqn:Htable.
  assert (∀ t, table = Some t → built t) as Hbuilt.
  { intros t ->. destruct (decide (key = dso_kernel)); [by eapply kernel_image_symbols_built|].
    injection Htable as Ht _. apply fmap_Some in Ht as (st & Hst & ->). rewrite Hmo in Hst. by eapply (modules_built Hoptions). }
  pose proof (add_lib_calls n (profile (converter m)) (kernel_library m key id' text table) Hwf Hbuilt) as Hlib.
  destruct (add_lib _ _) as [p1 h]. destruct Hlib as [Hby1 Hh].
  assert (ProfileRuns.wf (n + 0) p1) as Hwf1 by (eapply calls_of_wf; [exact Hby1|done|lia]).
  rewrite add_u64_id by lia.
  destruct (kernel_mapping_calls (n + 0) p1 h base (base + length') 0) as (p2 & -> & Hby2); [done|lia|done|lia|].
  cbn [mbind res_bind]. pose proof (calls_of_trans 0 0 _ _ _ Hby1 Hby2) as Hby. simpl in Hby.
  assert (ProfileRuns.wf (n + 0) p2) as Hwf2 by (eapply calls_of_wf; [exact Hby|done|lia]).
  assert (image_ok p2 {| image_lib := h; base_address := base; end_address := base + length' |}) as Hnew.
  { split; simpl; [|lia]. pose proof (evolves_libs _ _ (calls_of_evolves _ _ _ Hby2)). lia. }
  destruct (decide (key = dso_kernel)).
  { eexists. split; [done|]. apply kernel_image_ok; [done|by apply quiet_step|]. by intros k [= <-]. }
  destruct (kernel_image_mapping m) as [mapping|] eqn:Hmap.
  - destruct (trim_kernel_image_ok (n + 0) p2 mapping base Hwf2) as (p3 & mapping' & -> & Hby3 & Hmapping); [lia| |].
    { eapply image_ok_evolves; [exact (calls_of_evolves _ _ _ Hby)|by apply Himage]. }
    cbn [mbind res_bind]. eexists. split; [done|].
    apply kernel_image_ok; [done|apply quiet_step; [done|exact (calls_of_trans 0 0 _ _ _ Hby Hby3)]|].
    intros k [= <-]. eapply image_ok_evolves; [exact (calls_of_evolves _ _ _ Hby3)|done].
  - eexists. split; [done|]. apply kernel_image_ok; [done|by apply quiet_step|done].
Qed.

(** * JIT functions of simpleperf *)
Lemma jit_library_step s lib :
  converter_ok s →
  SyntheticJitLibrary.lib_handle lib = SyntheticJitLibrary.lib_handle (simpleperf_jit_app_cache_library s) →
  SyntheticJitLibrary.default_category lib = SyntheticJitLibrary.default_category (simpleperf_jit_app_cache_library s) →
  step 0 0 s (with_jit_library s lib).
Proof.
  intros Hok Hh Hc. split; [apply changes_refl| |done|unfold num_stacks; simpl; lia|by apply cpus_same].
  destruct Hok. split; try done. unfold library_info_ok in *. simpl. by rewrite Hh, Hc.
Qed.
Lemma add_function_same lib name' size' :
  let lib' := (SyntheticJitLibrary.add_function lib name' size').1 in
  SyntheticJitLibrary.lib_handle lib' = SyntheticJitLibrary.lib_handle lib ∧
  SyntheticJitLibrary.default_category lib' = SyntheticJitLibrary.default_category lib.
Proof.
  unfold SyntheticJitLibrary.add_function. destruct (SyntheticJitLibrary.recycler lib) as [r|]; [|done].
  by destruct (r !! (name', size')).
Qed.
Lemma jit_function_size m path address name' len' :
  module_options m = mo →
  default (name', len') (get_simpleperf_jit_function_name m path address) = (name', len') ∨
  u32_range (default (name', len') (get_simpleperf_jit_function_name m path address)).2.
Proof using Hoptions.
  intros Hmo. unfold get_simpleperf_jit_function_name. rewrite Hmo.
  destruct (simpleperf_symbol_tables_jit mo !! path) as [l|] eqn:Hl; [|by left]. cbn [mbind option_bind].
  destruct (SymbolTable.binary_search_by_key _ _ _) as [i|]; [|by left].
  destruct (l !! i) as [sym|] eqn:Hi; [|by left]. right. simpl. eapply (jit_lengths Hoptions); [done|].
  by eapply list_elem_of_lookup_2.
Qed.
Lemma add_simpleperf_jit_mapping_ok m pid' path address size' t :
  recorder_ok m → room 1 0 (converter m) → 0 ≤ address → address + 2 ^ 32 ≤ 2 ^ 64 →
  ∃ m', add_simpleperf_jit_mapping m pid' path address size' t = Ok m' ∧ rstep 1 0 m m'.
Proof using Hoptions.
  intros Hm Hroom Ha Hlt. pose proof Hm as [Hok Hmo _ _]. unfold add_simpleperf_jit_mapping.
  assert (u32_range (default ("jit_fun_" +:+ hex_digits 16 address "", wrap_u32 size')
    (get_simpleperf_jit_function_name m path address)).2) as Hlen.
  { destruct (jit_function_size m path address ("jit_fun_" +:+ hex_digits 16 address "") (wrap_u32 size') Hmo)
      as [->|Hr]; [apply wrap_u32_range|done]. }
  destruct (default _ _) as [name' len']. simpl in Hlen.
  destruct (process_by_pid_ok R 0 o (converter m) pid' Hok Hroom) as (s & pr & -> & Hst & Hput & _).
  cbn [mbind res_bind]. rewrite <-Hput in Hst. pose proof (step_ok _ _ _ _ _ _ Hst) as Hok1.
  set (lib := simpleperf_jit_app_cache_library s). set (info := new_java_mapping _ _).
  pose proof (add_jit_function_ok R (unresolved_stacks s) (profile s) pr t lib name' address len' info
    (held_process _ _ _ _ _ Hok1)) as Hadd.
  pose proof (add_function_same lib name' len') as [Hh Hc].
  assert (step 0 0 (put_process s pid' pr)
    (put_process (with_jit_library s (add_jit_function pr t lib name' address len' info).2) pid'
       (add_jit_function pr t lib name' address len' info).1)) as Hst2.
  { apply (converter_step_trans R o 0 0 0 0 _ (put_process s pid' (add_jit_function pr t lib name' address len' info).1)).
    - apply held_same_step; [done|]. apply Hadd.
      + unfold u32_range in Hlen. destruct (decide (address + len' < 2 ^ 64)); [|lia]. rewrite add_u64_id by lia. lia.
      + exact (converter_library _ _ _ Hok1).
    - unfold add_jit_function. destruct (SyntheticJitLibrary.add_function lib name' len') as [lib' a] eqn:Hf.
      simpl in *. apply (jit_library_step (put_process s pid' _)); [|exact Hh|exact Hc].
      eapply (held_same_step R o s pid' pr); [done|]. unfold add_jit_function in Hadd. rewrite Hf in Hadd. apply Hadd.
      + unfold u32_range in Hlen. rewrite add_u64_id by lia. lia.
      + exact (converter_library _ _ _ Hok1). }
  destruct (add_jit_function _ _ _ _ _ _ _) as [pr' lib']. eexists. split; [done|].
  apply converter_rstep; [done|]. exact (converter_step_trans _ _ _ _ _ _ _ _ _ Hst Hst2).
Qed.

(** * Handlers *)
Context (inputs : inputs_ok R B (timestamp_converter o)).
Context (interval_pos : 0 < ContextSwitch.off_cpu_sampling_interval_ns (context_switch_handler o)).

Lemma mark_mapping_ok m pid' tid' path t :
  recorder_ok m → room 8 0 (converter m) →
  ∃ m' b, mark_mapping m pid' tid' path t = Ok (m', b) ∧ rstep 8 0 m m'.
Proof using inputs interval_pos.
  intros Hm Hroom. pose proof (recorder_converter _ Hm) as Hok. unfold mark_mapping.
  assert (∃ s1, (if should_emit_mmap_markers (options (converter m))
    then add_mmap_marker (converter m) pid' tid' (Utf8.from_utf8_lossy path) t else Ok (converter m)) = Ok s1 ∧
    step 6 0 (converter m) s1) as (s1 & -> & Hst1).
  { destruct (should_emit_mmap_markers _); [|eexists; split; [done|by apply converter_step_refl]].
    apply (add_mmap_marker_ok R B); try done. eapply room_weaken; [| |exact Hroom]; lia. }
  cbn [mbind res_bind].
  destruct (check_jitdump_or_marker_file_ok R o s1 (Utf8.from_utf8 path) pid' tid') as (s2 & b & -> & Hst2).
  { apply Hst1. }
  { exact (room_step R o 6 0 2 0 _ _ Hroom Hst1). }
  cbn [mbind res_bind]. eexists _, b. split; [done|]. apply converter_rstep; [done|].
  exact (converter_step_trans _ _ _ _ _ _ _ _ _ Hst1 Hst2).
Qed.
Lemma check_pe_step m offset path address : recorder_ok m → rstep 0 0 m (check_pe m offset path address).
Proof.
  intros Hm. unfold check_pe. destruct (_ =? _); [|by apply rstep_refl]. destruct Hm.
  split; [by apply converter_step_refl|]. by split.
Qed.
Definition mmap_valid (e : MmapRecord) : Prop :=
  0 ≤ mmap_address e ∧ 0 ≤ mmap_length e ∧ mmap_address e + mmap_length e < 2 ^ 64 ∧
  (mmap_pid e = -1 → is_Some (Utf8.from_utf8 (mmap_path e))).
Definition mmap2_valid (e : Mmap2Record) : Prop :=
  0 ≤ mmap2_address e ∧ 0 ≤ mmap2_length e ∧ mmap2_address e + mmap2_length e < 2 ^ 64 ∧
  (Z.land (protection e) PROT_SIMPLEPERF_JIT_MAPPING ≠ 0 → mmap2_address e + 2 ^ 32 ≤ 2 ^ 64).
Lemma handle_mmap_ok m e t :
  recorder_ok m → mmap_valid e → room 14 0 (converter m) → ∃ m', handle_mmap m e t = Ok m' ∧ rstep 14 0 m m'.
Proof using Hfiles Hoptions inputs interval_pos.
  intros Hm (Ha & Hl & Hlt & Hpath) Hroom. unfold handle_mmap.
  destruct (mark_mapping_ok m (mmap_pid e) (mmap_tid e) (mmap_path e) t Hm) as (m1 & b & -> & Hst1).
  { eapply room_weaken; [| |exact Hroom]; lia. }
  cbn [mbind res_bind]. destruct b; [exists m1; split; [done|]; eapply rstep_weaken; [| |exact Hst1]; lia|].
  pose proof (check_pe_step m1 (mmap_page_offset e) (mmap_path e) (mmap_address e) (rstep_ok _ _ _ _ Hst1)) as Hst2.
  set (m2 := check_pe _ _ _ _) in *. pose proof (rstep_trans _ _ _ _ _ _ _ Hst1 Hst2) as Hst12.
  pose proof (rstep_ok _ _ _ _ Hst12) as Hm2.
  assert (room 6 0 (converter m2)) as Hroom2 by exact (room_step R o 8 0 6 0 _ _ Hroom (rstep_step _ _ _ _ Hst12)).
  destruct (if is_executable e then _ else None) as [key|].
  2: { exists m2. split; [done|]. eapply rstep_weaken; [| |exact Hst12]; lia. }
  rewrite (recorder_options _ Hm).
  set (found := match build_ids mo !! key with Some i => _ | None => _ end).
  assert (mmap_pid e = -1 → is_Some (Utf8.from_utf8 found.2)) as Hfound.
  { intros Hpid. unfold found. destruct (build_ids mo !! key) as [i|] eqn:Hi; [|by apply Hpath].
    by eapply (dso_paths Hoptions). }
  destruct found as [id path]. simpl in Hfound. destruct (Z.eqb_spec (mmap_pid e) (-1)) as [Hpid|_].
  - destruct (add_kernel_module_ok m2 (mmap_address e) (mmap_length e) key id path Hm2) as (m3 & -> & Hst3);
      [|done|done|done|by apply Hfound|].
    { eapply room_weaken; [| |exact Hroom2]; lia. }
    exists m3. split; [done|]. eapply rstep_weaken; [| |exact (rstep_trans _ _ _ _ _ _ _ Hst12 Hst3)]; lia.
  - destruct (add_module_to_process_ok m2 path {| module_pid := mmap_pid e; mapping_start_file_offset := mmap_page_offset e;
      mapping_start_avma := mmap_address e; mapping_size := mmap_length e; module_build_id := id; module_timestamp := t |}
      Hm2 Hroom2) as (m3 & -> & Hst3); [by split|].
    exists m3. split; [done|]. exact (rstep_trans _ _ _ _ _ _ _ Hst12 Hst3).
Qed.
Lemma handle_mmap2_ok m e t :
  recorder_ok m → mmap2_valid e → room 14 0 (converter m) → ∃ m', handle_mmap2 m e t = Ok m' ∧ rstep 14 0 m m'.
Proof using Hfiles Hoptions inputs interval_pos.
  intros Hm (Ha & Hl & Hlt & Hjit) Hroom. unfold handle_mmap2.
  destruct (mark_mapping_ok m (mmap2_pid e) (mmap2_tid e) (mmap2_path e) t Hm) as (m1 & b & -> & Hst1).
  { eapply room_weaken; [| |exact Hroom]; lia. }
  cbn [mbind res_bind]. destruct b; [exists m1; split; [done|]; eapply rstep_weaken; [| |exact Hst1]; lia|].
  pose proof (rstep_ok _ _ _ _ Hst1) as Hm1.
  assert (room 6 0 (converter m1)) as Hroom1 by exact (room_step R o 8 0 6 0 _ _ Hroom (rstep_step _ _ _ _ Hst1)).
  destruct (Z.eqb_spec (Z.land (protection e) PROT_SIMPLEPERF_JIT_MAPPING) 0) as [_|Hbit]; cbn [negb].
  2: { destruct (add_simpleperf_jit_mapping_ok m1 (mmap2_pid e) (mmap2_path e) (mmap2_address e) (mmap2_length e) t Hm1)
         as (m3 & -> & Hst3); [|done|by apply Hjit|].
       { eapply room_weaken; [| |exact Hroom1]; lia. }
       exists m3. split; [done|]. eapply rstep_weaken; [| |exact (rstep_trans _ _ _ _ _ _ _ Hst1 Hst3)]; lia. }
  pose proof (check_pe_step m1 (mmap2_page_offset e) (mmap2_path e) (mmap2_address e) Hm1) as Hst2.
  set (m2 := check_pe _ _ _ _) in *. pose proof (rstep_trans _ _ _ _ _ _ _ Hst1 Hst2) as Hst12.
  pose proof (rstep_ok _ _ _ _ Hst12) as Hm2.
  assert (room 6 0 (converter m2)) as Hroom2 by exact (room_step R o 8 0 6 0 _ _ Hroom (rstep_step _ _ _ _ Hst12)).
  assert (rstep 14 0 m m2) as Hdone by (eapply rstep_weaken; [| |exact Hst12]; lia).
  destruct (_ && _); [by exists m2|]. destruct (mmap2_build_id m2 e) as [id|]; [|by exists m2].
  destruct (add_module_to_process_ok m2 (mmap2_path e) {| module_pid := mmap2_pid e;
    mapping_start_file_offset := mmap2_page_offset e; mapping_start_avma := mmap2_address e;
    mapping_size := mmap2_length e; module_build_id := id; module_timestamp := t |} Hm2 Hroom2)
    as (m3 & -> & Hst3); [by split|].
  exists m3. split; [done|]. exact (rstep_trans _ _ _ _ _ _ _ Hst12 Hst3).
Qed.
End safety.
End MappedFilesSafety.
