(* ===== verification/Demangle.v ===== *)
(** Names of symbols for display: samply-symbols/src/demangle.rs and
    demangle_ocaml.rs. *)
From S2P Require Import Prelude RustStr CodeIds.
From stdpp Require Import options.
Open Scope Z_scope.

(** The demanglers of other languages, from their crates, with the options the
    program gives them; [None] is an error. And whether a character beyond ASCII
    is uppercase. *)
Class Demanglers := {
  msvc_demangle : string → option string;
  scala_native_demangle : string → option string;
  rustc_demangle : string → option string;
  cpp_demangle : string → option string;
  wide_char_is_uppercase : string → bool
}.

(** * demangle_ocaml.rs *)
Module DemangleOcaml.
Import RustStr.

(** [c as char] of a byte, as it is pushed to a string. *)
Definition push_byte (c : Z) : string :=
  if c <? 128 then String (ascii_of_nat (Z.to_nat c)) ""
  else String (ascii_of_nat (Z.to_nat (192 + c / 64))) (String (ascii_of_nat (Z.to_nat (128 + c mod 64))) "").
Definition is_uppercase `{Demanglers} (char : string) : bool :=
  match char with
  | String c "" => (65 <=? Utf8.byte c) && (Utf8.byte c <=? 90)
  | _ => wide_char_is_uppercase char
  end.
(** [chars.next()] on text: the character and the rest. *)
Definition next_char (s : string) : option (string * string) :=
  match s with
  | String c s' => let '(char, rest, _) := Utf8.first_char c s' in Some (char, rest)
  | EmptyString => None
  end.
(** The [while] loop; each step takes a character. *)
Fixpoint demangle_fuel (fuel : nat) (s : string) : res string :=
  match fuel with
  | O => Ok ""
  | S fuel' =>
      match next_char s with
      | None => Ok ""
      | Some (c, rest) =>
          if String.eqb c "_" && starts_with rest "_" then
            res ← demangle_fuel fuel' (default "" (strip_prefix rest "_"));
            Ok ("." +:+ res)
          else if String.eqb c "$" && (2 <=? String.length rest)%nat then
            digits ← slice_to rest 2;
            match from_str_radix (2 ^ 8) digits 16 with
            | Some byte =>
                res ← demangle_fuel fuel' (default "" (strip_prefix rest digits));
                Ok (push_byte byte +:+ res)
            | None => demangle_fuel fuel' rest
            end
          else
            res ← demangle_fuel fuel' rest;
            Ok (c +:+ res)
      end
  end.
Definition demangle `{Demanglers} (name : string) : res (option string) :=
  match strip_prefix name "caml" with
  | None => Ok None
  | Some name' =>
      match next_char name' with
      | Some (c, _) => if is_uppercase c then Some <$> demangle_fuel (String.length name') name' else Ok None
      | None => Some <$> demangle_fuel (String.length name') name'
      end
  end.
End DemangleOcaml.

(** * demangle.rs *)
Module Demangle.
Import RustStr.
(** What follows when none of the demanglers knows the name. *)
Definition without_underscore (name : string) : string := default name (strip_prefix name "_").
(** [&name[1..name.len()]], on a name that starts with an underscore. *)
Definition known_name `{Demanglers} (name : string) : option string :=
  match (if starts_with name "__S" then scala_native_demangle (without_underscore name) else None) with
  | Some symbol => Some symbol
  | None =>
      match rustc_demangle name with
      | Some symbol => Some symbol
      | None => if starts_with name "_" then cpp_demangle name else None
      end
  end.
Definition demangle_any `{Demanglers} (name : string) : res string :=
  if starts_with name "?" then Ok (default name (msvc_demangle name))
  else
    match known_name name with
    | Some symbol => Ok symbol
    | None => ocaml ← DemangleOcaml.demangle name; Ok (default (without_underscore name) ocaml)
    end.
End Demangle.

(** * The names OCaml makes *)
Module OcamlNames.
Import RustStr HexText DemangleOcaml.

Definition is_plain (c : ascii) : bool :=
  let b := Utf8.byte c in
  ((48 <=? b) && (b <=? 57)) || ((65 <=? b) && (b <=? 90)) || ((97 <=? b) && (b <=? 122)) || (b =? 95).
Definition mangle_char (c : ascii) : string :=
  if decide (c = ".")%char then "__"
  else if is_plain c then String c "" else "$" +:+ padded hex_digit 2 (Utf8.byte c).
Definition mangle_chars (s : string) : string := foldr (λ c s, mangle_char c +:+ s) "" (String.list_ascii_of_string s).
Definition mangle (s : string) : string := "caml" +:+ mangle_chars s.
(** No underscore is followed by an underscore or a dot, which the compiler
    writes as one, too. *)
Fixpoint separable (s : string) : Prop :=
  match s with
  | String c s' =>
      (c = "_"%char → starts_with s' "_" = false ∧ starts_with s' "." = false) ∧ separable s'
  | EmptyString => True
  end.
Definition ascii (c : ascii) : Prop := Utf8.byte c < 128.
Definition name_ok (s : string) : Prop :=
  separable s ∧ Forall ascii (String.list_ascii_of_string s) ∧
  match s with String c _ => (65 <=? Utf8.byte c) && (Utf8.byte c <=? 90) = true | EmptyString => True end.

Lemma ascii_first_char c s : ascii c → Utf8.first_char c s = (String c "", s, true).
Proof.
  intros Hc. unfold Utf8.first_char, Utf8.continuation_bytes. rewrite (proj2 (Z.ltb_lt _ _)) by exact Hc.
  by destruct (Utf8.second_byte _).
Qed.
Lemma push_ascii c : ascii c → push_byte (Utf8.byte c) = String c "".
Proof.
  intros Hc. unfold push_byte. rewrite (proj2 (Z.ltb_lt _ _)) by exact Hc. unfold Utf8.byte. rewrite Nat2Z.id.
  by rewrite ascii_nat_embedding.
Qed.
Lemma mangle_cons c s : mangle_chars (String c s) = mangle_char c +:+ mangle_chars s.
Proof. done. Qed.
Lemma mangled_head s rest : mangle_chars s = "_" +:+ rest → starts_with s "_" = true ∨ starts_with s "." = true.
Proof.
  destruct s as [|d s]; [done|]. rewrite mangle_cons. unfold mangle_char.
  destruct (decide (d = "."%char)) as [->|]; [by right; destruct s|].
  destruct (is_plain d).
  - rewrite !app_cons, !app_empty. intros [= -> _]. left. by destruct s.
  - rewrite !app_cons, app_empty. intros [= ?].
Qed.
Lemma mangled_ascii s :
  Forall ascii (String.list_ascii_of_string s) → ascii_text (mangle_chars s).
Proof.
  induction s as [|c s IH]; [by constructor|]. intros [Hc Hs]%Forall_cons. rewrite mangle_cons.
  apply ascii_text_app. split; [|by apply IH]. unfold mangle_char.
  destruct (decide _); [by repeat constructor|]. unfold ascii, Utf8.byte in *.
  destruct (is_plain c); [constructor; [lia|constructor]|].
  apply ascii_text_app. split; [by repeat constructor|].
  apply padded_ascii; [apply hex_digit_ok|lia].
Qed.
Lemma demangle_char fuel c s :
  ascii c → (c = "_"%char → starts_with s "_" = false ∧ starts_with s "." = false) →
  Forall ascii (String.list_ascii_of_string s) →
  demangle_fuel (S fuel) (mangle_chars (String c s)) =
    res ← demangle_fuel fuel (mangle_chars s); Ok (String c "" +:+ res).
Proof.
  intros Hc Hsep Hs. pose proof (mangled_ascii s Hs) as Hm. rewrite mangle_cons. unfold mangle_char.
  destruct (decide (c = "."%char)) as [->|Hdot].
  { rewrite !app_cons, app_empty. cbn [demangle_fuel next_char]. rewrite ascii_first_char by done.
    cbn [String.eqb Ascii.eqb Bool.eqb]. assert (starts_with (String "_" (mangle_chars s)) "_" = true) as ->.
    { apply starts_with_true. by exists (mangle_chars s). }
    cbn [andb]. assert (strip_prefix (String "_" (mangle_chars s)) "_" = Some (mangle_chars s)) as ->.
    { by apply strip_prefix_Some. }
    done. }
  destruct (is_plain c) eqn:Hp.
  { rewrite app_cons, app_empty. cbn [demangle_fuel next_char]. rewrite ascii_first_char by done.
    assert (String.eqb (String c "") "_" && starts_with (mangle_chars s) "_" = false) as ->.
    { destruct (String.eqb_spec (String c "") "_") as [[= ->]|]; [|done]. destruct (Hsep eq_refl) as [H1 H2].
      destruct (starts_with (mangle_chars s) "_") eqn:Hst; [|done]. apply starts_with_true in Hst as [r Hr].
      apply mangled_head in Hr as [|]; congruence. }
    assert (String.eqb (String c "") "$" = false) as ->; [|done].
    destruct (String.eqb_spec (String c "") "$") as [[= ->]|]; [|done]. done. }
  rewrite app_assoc_string, app_cons, app_empty. cbn [demangle_fuel next_char]. rewrite ascii_first_char by done.
  cbn [String.eqb Ascii.eqb Bool.eqb andb]. rewrite length_app_string, padded_length.
  cbn [Nat.add Nat.leb]. unfold slice_to.
  pose proof (CodeIds.CodeIds.split_string_at_app (padded hex_digit 2 (Utf8.byte c)) (mangle_chars s)) as Hsplit.
  rewrite padded_length in Hsplit. rewrite Hsplit. cbn [unwrap mbind res_bind]. rewrite ascii_continues by done.
  cbn [mbind res_bind].
  rewrite CodeIds.CodeIds.byte_digits; [|apply hex_digit_ok|].
  2: { unfold u8_range, ascii, Utf8.byte in *. lia. }
  assert (strip_prefix (padded hex_digit 2 (Utf8.byte c) +:+ mangle_chars s) (padded hex_digit 2 (Utf8.byte c)) =
    Some (mangle_chars s)) as -> by by apply strip_prefix_Some.
  cbn [default from_option id]. by rewrite push_ascii.
Qed.
Lemma demangle_mangled fuel s :
  separable s → Forall ascii (String.list_ascii_of_string s) → (String.length s ≤ fuel)%nat →
  demangle_fuel fuel (mangle_chars s) = Ok s.
Proof.
  revert fuel. induction s as [|c s IH]; intros fuel Hsep Hs Hf; [by destruct fuel|].
  destruct Hsep as [Hc Hsep]. apply Forall_cons in Hs as [Ha Hs]. destruct fuel as [|fuel]; simpl in Hf; [lia|].
  rewrite demangle_char by done. rewrite IH by (try done; lia). done.
Qed.
Lemma mangled_length s : (String.length s ≤ String.length (mangle_chars s))%nat.
Proof.
  induction s as [|c s IH]; [done|]. rewrite mangle_cons, length_app_string. simpl.
  assert (1 ≤ String.length (mangle_char c))%nat; [|lia]. unfold mangle_char.
  destruct (decide _); [simpl; lia|]. destruct (is_plain c); [simpl; lia|]. rewrite length_app_string. simpl. lia.
Qed.

(** The name of an OCaml symbol is demangled to the path and the characters it
    was made of, for all names of ASCII characters that start with a module, in
    which no underscore stands before another one or before a dot. *)
Theorem ocaml_round_trip `{Demanglers} (s : string) : name_ok s → demangle (mangle s) = Ok (Some s).
Proof.
  intros (Hsep & Hs & Hhead). unfold demangle, mangle.
  assert (strip_prefix ("caml" +:+ mangle_chars s) "caml" = Some (mangle_chars s)) as -> by by apply strip_prefix_Some.
  rewrite (demangle_mangled _ s Hsep Hs (mangled_length s)).
  destruct s as [|c s]; [done|]. rewrite mangle_cons. apply Forall_cons in Hs as [Hc _].
  assert (mangle_char c = String c "") as ->.
  { unfold mangle_char, is_plain. destruct (decide (c = "."%char)) as [->|]; [done|]. rewrite Hhead. by rewrite orb_true_r. }
  rewrite app_cons, app_empty. cbn [next_char]. rewrite ascii_first_char by done. cbn [is_uppercase]. by rewrite Hhead.
Qed.
#[local] Instance no_demanglers : Demanglers :=
  {| msvc_demangle _ := None; scala_native_demangle _ := None; rustc_demangle _ := None; cpp_demangle _ := None;
     wide_char_is_uppercase _ := false |}.
Example ocaml_round_trip_witness :
  mangle "Stdlib.bytes.++_2205" = "camlStdlib__bytes__$2b$2b_2205" ∧
  demangle (mangle "Stdlib.bytes.++_2205") = Ok (Some "Stdlib.bytes.++_2205").
Proof.
  split; [vm_compute; reflexivity|]. apply ocaml_round_trip. split; [|split; [|reflexivity]].
  - repeat (split; [intros ?; first [discriminate|by split]|]). exact I.
  - repeat constructor.
Defined.
(** A test of the source file. *)
Example file_name_escaped :
  Demangle.demangle_any "camlStdlib__anon_fn$5bstdlib$2eml$3a334$2c0$2d$2d54$5d_1453" =
    Ok "Stdlib.anon_fn[stdlib.ml:334,0--54]_1453".
Proof. by vm_compute. Qed.
(** An escape that is not hexadecimal loses its dollar sign, and one that is cut
    inside of a character panics. *)
Example dollar_lost : demangle "camlFoo$zz" = Ok (Some "Foozz").
Proof. done. Qed.
Example dollar_panics : demangle ("camlFoo$a" +:+ String (ascii_of_nat 195) (String (ascii_of_nat 169) "")) = Panic.
Proof. done. Qed.
End OcamlNames.
