(* ===== verification/PerfImport.v ===== *)
(** From the events of a perf.data file to a profile: event_interpretation.rs,
    [Converter::new] of converter.rs (both of samply/src/linux_shared) and the loop
    over the events of samply/src/import/perf.rs. *)
From S2P Require Import Prelude RustStr BTree Types LibMappings Hierarchy StringTables SymbolTable LibTable.
From S2P Require Import Markers ThreadSafety ProfileModel ProfileSafety ProfileRuns RecorderMarkers ProfileCalls.
From S2P Require Import ContextSwitch UnresolvedSamples PathFiles MarkerFile Flush FlushMarkers Recycling.
From S2P Require Import JitCategories SyntheticJit PerfMap JitDump LinuxThreads LinuxProcess Processes PerCpu.
From S2P Require Import SampleStack Converter ObjectFiles CodeIds PeMappings KernelSymbols.
From S2P Require Import ObjectRewriter MappedFiles Demangle.
From stdpp Require Import options.
Open Scope Z_scope.

(** * event_interpretation.rs *)
Module EventInterpretation.
Import Converter.

Inductive KnownEvent := RssStat | MmapEnter | MmapExit | MprotectEnter | PageFault.
(** Of linux-perf-event-reader: the sampling policy of an attribute, whether its
    type is one of the two software clocks, and the flag CONTEXT_SWITCH. *)
Inductive SamplingPolicy := NoSampling | Frequency (freq : Z) | Period (period : Z).
Record AttributeDescription := {
  attr_name : option string;
  is_clock : bool;
  sampling_policy : SamplingPolicy;
  context_switch_flag : bool
}.
Record EventInterpretation := {
  main_event_attr_index : nat;
  main_event_name : string;
  sampling_is_time_based : option Z;
  off_cpu_indicator : option OffCpuIndicator;
  sched_switch_attr_index : option nat;
  known_event_indices : gmap nat KnownEvent;
  event_names : list string
}.
Definition position (name : string) (attrs : list AttributeDescription) : option nat :=
  fst <$> list_find (λ a, attr_name a = Some name) attrs.
Definition sampling_interval (attr : AttributeDescription) : res (option Z) :=
  match sampling_policy attr with
  | NoSampling => Panic
  | Frequency freq => nanos ← div_u64 1000000000 freq; Ok (Some nanos)
  | Period period => Ok (if is_clock attr then Some period else None)
  end.
Definition known_events : list (string * KnownEvent) :=
  [("kmem:rss_stat", RssStat); ("exceptions:page_fault_user", PageFault);
   ("syscalls:sys_enter_mprotect", MprotectEnter); ("syscalls:sys_enter_mmap", MmapEnter);
   ("syscalls:sys_exit_mmap", MmapExit)].
Definition insert_known (attrs : list AttributeDescription) (m : gmap nat KnownEvent) (e : string * KnownEvent)
    : gmap nat KnownEvent :=
  match position e.1 attrs with Some i => <[i := e.2]> m | None => m end.
Definition event_name (attr_index : nat) (attr : AttributeDescription) : string :=
  default ("<unknown event " +:+ dec_string (Z.of_nat attr_index) +:+ ">") (attr_name attr).
Definition divine_from_attrs (attrs : list AttributeDescription) : res EventInterpretation :=
  attr ← index attrs 0;
  interval ← sampling_interval attr;
  let sched_switch := position "sched:sched_switch" attrs in
  Ok {| main_event_attr_index := 0; main_event_name := default "<unnamed event>" (attr_name attr);
        sampling_is_time_based := interval;
        off_cpu_indicator :=
          if context_switch_flag attr then Some ContextSwitches
          else match sched_switch with Some _ => Some SchedSwitchAndSamples | None => None end;
        sched_switch_attr_index := sched_switch;
        known_event_indices := foldl (insert_known attrs) ∅ known_events;
        event_names := imap event_name attrs |}.
End EventInterpretation.

(** * The converter at the beginning *)
Module NewConverter.
Import Hierarchy Profile LinuxProcess SampleStack Converter MappedFiles EventInterpretation.

(** The members of recording_props.rs that the converter uses. *)
Record ProfileCreationProps := {
  profile_name : option string;
  fallback_profile_name : string;
  reuse_threads : bool;
  fold_recursive_prefix : bool;
  unlink_aux_files : bool;
  create_per_cpu_threads : bool;
  arg_count_to_include_in_process_name : nat;
  should_emit_jit_markers : bool;
  should_emit_mmap_markers : bool;
  should_emit_cswitch_markers : bool;
  attach_markers_to_profiled_thread : bool
}.
(** The symbols in files of simpleperf, as linux-perf-data reads them. *)
Inductive DsoType := DSO_KERNEL | DSO_KERNEL_MODULE | DSO_DEX_FILE | DSO_OTHER.
Record SimpleperfFileRecord := {
  file_path : string;
  dso_type : DsoType;
  file_min_vaddr : Z;
  file_symbols : list SimpleperfSymbol;
  elf_file_offset_of_min_vaddr : option Z
}.
Definition DEFAULT_OFF_CPU_SAMPLING_INTERVAL_NS : Z := 1000000.

Section new_converter.
Context `{DebugIdOps} `{JitDumpReader} `{!TextFiles} `{U : Unwinding} `{DrainOrder}.
Context `{PerfConstants} `{!StackWalking} `{!DebugIds.UuidDebugIds} `{!FileBytes} `{!PeHeaders} `{!ObjectFiles}.
Context `{!WriteFiles} `{!ElfReader} `{!DsoKeys} `{!ModuleLoading} `{Demanglers}.

(** ** The symbol tables of simpleperf *)
Record SimpleperfTables := {
  tables_user : gmap string SymbolTableFromSimpleperf;
  tables_jit : gmap string (list SimpleperfSymbol);
  tables_kernel_image : option (list SimpleperfSymbol);
  tables_kernel_modules : gmap string SymbolTableFromSimpleperf
}.
Definition no_tables : SimpleperfTables :=
  {| tables_user := ∅; tables_jit := ∅; tables_kernel_image := None; tables_kernel_modules := ∅ |}.
Fixpoint demangle_symbols (symbols : list SimpleperfSymbol) : res (list SymbolTable.Symbol) :=
  match symbols with
  | [] => Ok []
  | s :: symbols' =>
      name' ← Demangle.demangle_any (symbol_name s);
      rest ← demangle_symbols symbols';
      Ok ({| SymbolTable.address := wrap_u32 (vaddr s); SymbolTable.size := Some (len s); SymbolTable.name := name' |} :: rest)
  end.
Definition category_and_art_info (f : SimpleperfFileRecord) (dex oat : CategoryPairHandle)
    : option CategoryPairHandle * option AndroidArtInfo :=
  if RustStr.ends_with (file_path f) ".oat" then (Some oat, Some JavaFrame)
  else if (match dso_type f with DSO_DEX_FILE => true | _ => false end) || RustStr.ends_with (file_path f) ".odex"
  then (Some dex, Some JavaFrame)
  else if RustStr.ends_with (file_path f) "libart.so" then (None, Some LibArt)
  else (None, None).
Definition add_simpleperf_file (dex oat : CategoryPairHandle) (t : SimpleperfTables) (f : SimpleperfFileRecord)
    : res SimpleperfTables :=
  match dso_type f with
  | DSO_KERNEL => Ok {| tables_user := tables_user t; tables_jit := tables_jit t;
                        tables_kernel_image := Some (file_symbols f); tables_kernel_modules := tables_kernel_modules t |}
  | _ =>
      if is_simpleperf_jit_path (file_path f) then
        Ok {| tables_user := tables_user t; tables_jit := <[file_path f := file_symbols f]> (tables_jit t);
              tables_kernel_image := tables_kernel_image t; tables_kernel_modules := tables_kernel_modules t |}
      else
        let '(category', art_info') := category_and_art_info f dex oat in
        symbols ← demangle_symbols (file_symbols f);
        let table :=
          {| min_vaddr := file_min_vaddr f; file_offset_of_min_vaddr_in_elf_file := elf_file_offset_of_min_vaddr f;
             simpleperf_symbol_table := SymbolTable.new symbols; simpleperf_category := category';
             simpleperf_art_info := art_info' |} in
        Ok match dso_type f with
           | DSO_KERNEL_MODULE =>
               {| tables_user := tables_user t; tables_jit := tables_jit t; tables_kernel_image := tables_kernel_image t;
                  tables_kernel_modules := <[file_path f := table]> (tables_kernel_modules t) |}
           | _ =>
               {| tables_user := <[file_path f := table]> (tables_user t); tables_jit := tables_jit t;
                  tables_kernel_image := tables_kernel_image t; tables_kernel_modules := tables_kernel_modules t |}
           end
  end.
Fixpoint add_simpleperf_files (dex oat : CategoryPairHandle) (t : SimpleperfTables) (l : list SimpleperfFileRecord)
    : res SimpleperfTables :=
  match l with
  | [] => Ok t
  | f :: l' => t' ← add_simpleperf_file dex oat t f; add_simpleperf_files dex oat t' l'
  end.
Definition simpleperf_tables (p : Profile) (l : option (list SimpleperfFileRecord)) : res (Profile * SimpleperfTables) :=
  match l with
  | None => Ok (p, no_tables)
  | Some l =>
      let '(p1, dex) := add_category p "DEX" Green in
      let '(p2, oat) := add_category p1 "OAT" Green in
      t ← add_simpleperf_files (CategoryPairHandle_from dex) (CategoryPairHandle_from oat) no_tables l;
      Ok (p2, t)
  end.

(** ** [Converter::new] *)
Definition initial_profile (reference_timestamp' : f64) (profile_name' : string) (linux_version' : option string)
    (interpretation : EventInterpretation) : Profile :=
  let p := Profile.new profile_name' reference_timestamp' (default 1000000 (sampling_is_time_based interpretation)) in
  match linux_version' with
  | Some version => Profile.set_os_name p ("Linux " +:+ version)
  | None => p
  end.
Definition converter_options (props : ProfileCreationProps) (first_sample_time : Z) (little_endian' : bool)
    (aux_file_lookup_dirs' : list string) (interpretation : EventInterpretation) (preadjusted : bool) : Options :=
  {| timestamp_converter := {| reference_raw := first_sample_time; raw_to_ns_factor := 1 |};
     aux_file_lookup_dirs := aux_file_lookup_dirs';
     context_switch_handler :=
       {| ContextSwitch.off_cpu_sampling_interval_ns :=
            default DEFAULT_OFF_CPU_SAMPLING_INTERVAL_NS (sampling_is_time_based interpretation) |};
     off_cpu_weight_per_sample := match sampling_is_time_based interpretation with Some _ => 1 | None => 0 end;
     Converter.off_cpu_indicator := off_cpu_indicator interpretation;
     Converter.event_names := event_names interpretation;
     little_endian := little_endian';
     Converter.arg_count_to_include_in_process_name := arg_count_to_include_in_process_name props;
     Converter.fold_recursive_prefix := fold_recursive_prefix props;
     call_chain_return_addresses_are_preadjusted := preadjusted;
     Converter.should_emit_cswitch_markers := should_emit_cswitch_markers props;
     Converter.should_emit_mmap_markers := should_emit_mmap_markers props;
     should_attach_markers_to_profiled_thread := attach_markers_to_profiled_thread props |}.
(** [kernel_symbols'] is [KernelSymbols::new_for_running_kernel], and [vdso'] the
    instance of vdso.rs. *)
Definition new (files' : PathFiles.fs) (kernel_symbols' : KernelSymbols.KernelSymbolsError + KernelSymbols.KernelSymbols)
    (vdso' : option Vdso.VdsoObject) (props : ProfileCreationProps) (reference_timestamp' : f64)
    (profile_name' : string) (build_ids' : gmap DsoKey DsoInfo) (linux_version' : option string)
    (first_sample_time : Z) (little_endian' : bool) (cache' : Cache)
    (binary_lookup_dirs' aux_file_lookup_dirs' : list string) (interpretation : EventInterpretation)
    (simpleperf_symbol_tables : option (list SimpleperfFileRecord)) (preadjusted : bool) : res Recorder :=
  let options' := converter_options props first_sample_time little_endian' aux_file_lookup_dirs' interpretation preadjusted in
  let '(p1, jit_category) :=
    add_category (initial_profile reference_timestamp' profile_name' linux_version' interpretation) "JIT app cache" Green in
  let '(jit_library, p2) :=
    SyntheticJitLibrary.new "JIT app cache" (CategoryPairHandle_from jit_category) p1 (reuse_threads props) in
  '(p3, tables) ← simpleperf_tables p2 simpleperf_symbol_tables;
  '(cpus', p4) ←
    (if create_per_cpu_threads props then
       '(cpus', p) ← PerCpu.new (convert_time (timestamp_converter options') first_sample_time) p3;
       Ok (Some cpus', p)
     else Ok (None, p3));
  Ok {| converter :=
          {| options := options'; files := files'; cache := cache'; profile := p4;
             processes := Processes.new (reuse_threads props) (unlink_aux_files props) (should_emit_jit_markers props);
             current_sample_time := first_sample_time; unresolved_stacks := UnresolvedStacks.default;
             jit_category_manager := JitCategories.new; simpleperf_jit_app_cache_library := jit_library; cpus := cpus' |};
        module_options :=
          {| build_ids := build_ids'; linux_version := linux_version'; binary_lookup_dirs := binary_lookup_dirs';
             kernel_symbols := match kernel_symbols' with inr k => Some k | inl _ => None end;
             simpleperf_symbol_tables_user := tables_user tables; simpleperf_symbol_tables_jit := tables_jit tables;
             simpleperf_symbol_tables_kernel_modules := tables_kernel_modules tables;
             MappedFiles.should_emit_jit_markers := should_emit_jit_markers props; vdso := vdso' |};
        kernel_image_mapping := None;
        simpleperf_symbol_tables_kernel_image := tables_kernel_image tables;
        pe_mappings := PeMappings.new |}.
End new_converter.
End NewConverter.

(** * perf.rs *)
Module PerfImport.
Import Profile LinuxProcess SampleStack Converter MappedFiles EventInterpretation NewConverter.
Section import.
Context `{DebugIdOps} `{JitDumpReader} `{!TextFiles} `{U : Unwinding} `{DrainOrder}.
Context `{PerfConstants} `{!StackWalking} `{!DebugIds.UuidDebugIds} `{!FileBytes} `{!PeHeaders} `{!ObjectFiles}.
Context `{!WriteFiles} `{!ElfReader} `{!DsoKeys} `{!ModuleLoading} `{Demanglers}.
(** [shlex::try_join] *)
Context (try_join : list string → option string).

(** Old versions of perf do not write the length of a build ID. *)
Definition fixup_perf_jit_build_ids (ids : gmap DsoKey DsoInfo) : gmap DsoKey DsoInfo :=
  map_imap (λ key info,
    let name' := dso_name key in
    Some (if RustStr.starts_with name' "jitted-" && RustStr.ends_with name' ".so" &&
             (length (dso_build_id info) =? 16)%nat
          then {| dso_path := dso_path info; dso_build_id := dso_build_id info ++ [0; 0; 0; 0] |} else info)) ids.

(** The name of the profile, and what to append to the name of the first process
    once it is known. [meta_info] is that of simpleperf; [hostname] and
    [perf_version] are in files of perf. *)
Definition device_postfix (product_props : option string) : string :=
  match product_props with
  | Some props => " on " +:+ RustStr.join (take 2 (RustStr.splitn 3 props ":")) " "
  | None => ""
  end.
Definition perf_postfix (hostname perf_version : option string) : string :=
  from_option (λ host, " on " +:+ host) "" hostname +:+
  from_option (λ version, " (perf version " +:+ version +:+ ")") "" perf_version.
Definition profile_name_and_postfix (props : ProfileCreationProps) (meta_info : option (gmap string string))
    (hostname perf_version : option string) : string * option string :=
  match profile_name props, meta_info with
  | Some name', _ => (name', None)
  | None, Some meta =>
      let postfix := device_postfix (meta !! "product_props") in
      match meta !! "app_package_name" with
      | Some app => (app +:+ postfix, None)
      | None => (fallback_profile_name props +:+ postfix, Some postfix)
      end
  | None, None =>
      let postfix := perf_postfix hostname perf_version in
      (fallback_profile_name props +:+ postfix, Some postfix)
  end.

(** ** The loop over the events *)
Inductive EventRecord :=
| Sample (e : SampleRecord)
| Fork (e : ForkOrExitRecord)
| Comm (e : CommOrExecRecord)
| Exit (e : ForkOrExitRecord)
| Mmap (e : MmapRecord)
| Mmap2 (e : Mmap2Record)
| ContextSwitch (e : ContextSwitchRecord)
| OtherRecord.
(** A record that could be parsed; [common] is [None] if [common_data] fails. *)
Record PerfRecord := {
  record_timestamp : option Z;
  attr_index : nat;
  parsed_record : EventRecord;
  common : option CommonData
}.
Record Import := {
  recorder : Recorder;
  last_timestamp : Z;
  profile_name_postfix_for_first_process : option string
}.
Definition with_recorder (i : Import) (m : Recorder) : Import :=
  {| recorder := m; last_timestamp := last_timestamp i;
     profile_name_postfix_for_first_process := profile_name_postfix_for_first_process i |}.
(** A call of a method of the converter. *)
Definition on_converter (m : Recorder) (f : Converter → loops Converter) : loops Recorder :=
  s ← f (converter m); returned (Ok (with_converter m s)).

Definition is_known_rss_stat (interpretation : EventInterpretation) (attr : nat) : bool :=
  match known_event_indices interpretation !! attr with Some EventInterpretation.RssStat => true | _ => false end.
Definition is_main (interpretation : EventInterpretation) (attr : nat) : bool :=
  bool_decide (attr = main_event_attr_index interpretation).
Definition is_sched_switch (interpretation : EventInterpretation) (attr : nat) : bool :=
  bool_decide (Some attr = sched_switch_attr_index interpretation).
(** What a sample of an event says of the running thread, and what of the event. *)
Definition handle_thread_sample (interpretation : EventInterpretation) (s : Converter) (e : SampleRecord) (attr : nat)
    : loops Converter :=
  if is_main interpretation attr then handle_main_event_sample s e
  else if is_sched_switch interpretation attr then handle_sched_switch_sample s e
  else returned (Ok s).
Definition handle_event_sample (interpretation : EventInterpretation) (s : Converter) (e : SampleRecord) (attr : nat)
    : loops Converter :=
  if is_known_rss_stat interpretation attr then handle_rss_stat_sample s e
  else if is_main interpretation attr || is_sched_switch interpretation attr then returned (Ok s)
  else handle_other_event_sample s e attr.
Definition handle_sample (interpretation : EventInterpretation) (s : Converter) (e : SampleRecord) (attr : nat)
    : loops Converter :=
  s1 ← handle_thread_sample interpretation s e attr;
  handle_event_sample interpretation s1 e attr.
(** The first process gives the profile its name. *)
Definition name_profile (i : Import) (e : CommOrExecRecord) : Import :=
  match profile_name_postfix_for_first_process i with
  | Some postfix =>
      if decide (ce_name e = "perf-exec") then i
      else
        {| recorder := with_converter (recorder i) (set_profile_name (converter (recorder i)) (ce_name e +:+ postfix));
           last_timestamp := last_timestamp i; profile_name_postfix_for_first_process := None |}
  | None => i
  end.
Definition handle_parsed (interpretation : EventInterpretation) (i : Import) (r : PerfRecord) : loops Import :=
  let m := recorder i in
  let on f := m' ← on_converter m f; returned (Ok (with_recorder i m')) in
  let on_res f := on (λ s, returned (f s)) in
  match parsed_record r with
  | Sample e => on (λ s, handle_sample interpretation s e (attr_index r))
  | Fork e => on_res (λ s, handle_fork s e)
  | Comm e =>
      let i' := name_profile i e in
      m' ← on_converter (recorder i') (λ s, handle_comm try_join s e (record_timestamp r));
      returned (Ok (with_recorder i' m'))
  | Exit e => on (λ s, handle_exit s e)
  | Mmap e => m' ← returned (handle_mmap m e (last_timestamp i)); returned (Ok (with_recorder i m'))
  | Mmap2 e => m' ← returned (handle_mmap2 m e (last_timestamp i)); returned (Ok (with_recorder i m'))
  | ContextSwitch e =>
      match common r with
      | Some common' => on_res (λ s, handle_context_switch s e common')
      | None => returned (Ok i)
      end
  | OtherRecord => returned (Ok i)
  end.
Definition with_timestamp (i : Import) (t : option Z) : Import :=
  {| recorder := recorder i; last_timestamp := default (last_timestamp i) t;
     profile_name_postfix_for_first_process := profile_name_postfix_for_first_process i |}.
Definition handle_record (interpretation : EventInterpretation) (i : Import) (r : PerfRecord) : loops Import :=
  handle_parsed interpretation (with_timestamp i (record_timestamp r)) r.
Fixpoint handle_records (interpretation : EventInterpretation) (records : list PerfRecord) (i : Import) : loops Import :=
  match records with
  | [] => returned (Ok i)
  | r :: records' => handle_record interpretation i r ≫= handle_records interpretation records'
  end.
Definition import_records (interpretation : EventInterpretation) (records : list PerfRecord) (i : Import) : loops Profile :=
  i' ← handle_records interpretation records i;
  finish (converter (recorder i')).

(** ** [convert_impl] *)

(** What is read from the file, and what is around it: [meta_info] is that of
    simpleperf. The reference timestamp is a floating point number of the file or
    the time. *)
Record PerfFile := {
  meta_info : option (gmap string string);
  attributes : list AttributeDescription;
  perf_build_ids : gmap DsoKey DsoInfo;
  os_release : option string;
  hostname : option string;
  perf_version : option string;
  first_sample_time : Z;
  file_little_endian : bool;
  simpleperf_files : option (list SimpleperfFileRecord);
  records : list PerfRecord
}.
Record Surroundings := {
  system_files : PathFiles.fs;
  running_kernel : KernelSymbols.KernelSymbolsError + KernelSymbols.KernelSymbols;
  own_vdso : option Vdso.VdsoObject;
  reference_timestamp' : f64;
  new_cache : Cache;
  binary_dirs : list string;
  aux_file_dirs : list string
}.
Definition new_recorder (f : PerfFile) (x : Surroundings) (props : ProfileCreationProps) (interpretation : EventInterpretation)
    : res Recorder :=
  NewConverter.new (system_files x) (running_kernel x) (own_vdso x) props (reference_timestamp' x)
    (profile_name_and_postfix props (meta_info f) (hostname f) (perf_version f)).1
    (fixup_perf_jit_build_ids (perf_build_ids f)) (os_release f) (first_sample_time f) (file_little_endian f)
    (new_cache x) (binary_dirs x) (aux_file_dirs x) interpretation (simpleperf_files f)
    (match meta_info f with Some _ => true | None => false end).
Definition set_android_version (f : PerfFile) (m : Recorder) : Recorder :=
  match meta_info f ≫= λ meta, meta !! "android_version" with
  | Some version => with_converter m (Converter.set_os_name (converter m) ("Android " +:+ version))
  | None => m
  end.
Definition start_import (f : PerfFile) (props : ProfileCreationProps) (m : Recorder) : Import :=
  {| recorder := set_android_version f m; last_timestamp := 0;
     profile_name_postfix_for_first_process :=
       (profile_name_and_postfix props (meta_info f) (hostname f) (perf_version f)).2 |}.
Definition convert_impl (f : PerfFile) (x : Surroundings) (props : ProfileCreationProps) : loops Profile :=
  interpretation ← returned (divine_from_attrs (attributes f));
  m ← returned (new_recorder f x props interpretation);
  import_records interpretation (records f) (start_import f props m).
End import.
End PerfImport.
