(* ===== verification/ImportSafety.v ===== *)
(** Importing the events of a perf.data file never panics and ends with a profile
    that can be written: the composition of all handlers. *)
From S2P Require Import Prelude RustStr BTree Types LibMappings Hierarchy StringTables SymbolTable LibTable.
From S2P Require Import Markers ThreadSafety ProfileModel ProfileSafety ProfileRuns RecorderMarkers ProfileCalls.
From S2P Require Import ContextSwitch UnresolvedSamples PathFiles MarkerFile Flush FlushMarkers Recycling.
From S2P Require Import JitCategories SyntheticJit PerfMap JitDump LinuxThreads LinuxProcess Processes RecordingEnd PerCpu.
From S2P Require Import SampleStack Converter ConverterInvariant ConverterHandlers ConverterEvents.
From S2P Require Import ObjectFiles CodeIds PeMappings KernelSymbols ObjectRewriter MappedFiles.
From S2P Require Import MappedFilesSafety Demangle PerfImport.
From stdpp Require Import options.
Open Scope Z_scope.

Module ImportSafety.
Import Hierarchy Profile ProfileCalls LinuxProcess SampleStack Converter ConverterInvariant ConverterHandlers.
Import ConverterEvents MappedFiles MappedFilesSafety EventInterpretation NewConverter PerfImport.

Section safety.
Context `{DebugIdOps} `{JitDumpReader} `{!TextFiles} `{U : Unwinding} `{DrainOrder}.
Context `{PerfConstants} `{!StackWalking} `{!DebugIds.UuidDebugIds} `{!FileBytes} `{!PeHeaders} `{!ObjectFiles}.
Context `{!WriteFiles} `{!ElfReader} `{!DsoKeys} `{!ModuleLoading} `{Demanglers}.
Context (try_join : list string → option string).
Context (R : reader → Prop) (B : nat) (o : Options) (mo : ModuleOptions) (interpretation : EventInterpretation).
Context (inputs : inputs_ok R B (timestamp_converter o)).
Context (F : nat) (frames_bounded : ∀ u pc regs c read, (length (iter_frames u pc regs c read).1.2 ≤ F)%nat).
Context (interval_pos : 0 < ContextSwitch.off_cpu_sampling_interval_ns (context_switch_handler o)).
Context (Hfiles : files_ok) (Hoptions : options_ok mo).
Notation converter_ok := (ConverterInvariant.converter_ok R o).
Notation step := (ConverterInvariant.step R o).
Notation recorder_ok := (MappedFilesSafety.recorder_ok R o mo).

(** * Which events are valid

    Samples say which thread they are of and when; mapped ranges end in the
    address space. *)
Definition sample_complete (e : SampleRecord) : Prop :=
  is_Some (pid e) ∧ is_Some (tid e) ∧ is_Some (timestamp e) ∧ convertible e.
Definition record_valid (r : PerfRecord) : Prop :=
  match parsed_record r with
  | Sample e => sample_complete e
  | Mmap e => mmap_valid e
  | Mmap2 e => mmap2_valid e
  | ContextSwitch e => ∀ c, common r = Some c → context_switch_valid e c
  | _ => True
  end.
(** How much the profile and the stacks can grow, at most. *)
Definition thread_sample_growth (s : Converter) (e : SampleRecord) (attr : nat) : nat * nat :=
  if is_main interpretation attr then (sample_room B s e, stack_room F e)
  else if is_sched_switch interpretation attr then (switch_room B s e, (2 * stack_room F e)%nat)
  else (0, 0)%nat.
Definition event_sample_growth (s : Converter) (e : SampleRecord) (attr : nat) : nat * nat :=
  if is_known_rss_stat interpretation attr then (rss_room B s e, stack_room F e)
  else if is_main interpretation attr || is_sched_switch interpretation attr then (0, 0)%nat
  else (other_room B s e, stack_room F e).
Definition plus2 (a b : nat * nat) : nat * nat := (a.1 + b.1, a.2 + b.2)%nat.
Definition sample_growth (s : Converter) (e : SampleRecord) (attr : nat) : nat * nat :=
  plus2 (thread_sample_growth s e attr)
    match handle_thread_sample interpretation s e attr with
    | Some (Ok s1) => event_sample_growth s1 e attr
    | _ => (0, 0)%nat
    end.
Definition record_growth (m : Recorder) (r : PerfRecord) : nat * nat :=
  let s := converter m in
  match parsed_record r with
  | Sample e => sample_growth s e (attr_index r)
  | Fork _ => (3, 0)%nat
  | Comm e => (comm_room B s e, 0%nat)
  | Exit e => (exit_room B s e, 0%nat)
  | Mmap _ | Mmap2 _ => (14, 0)%nat
  | ContextSwitch e => (from_option (context_switch_room s) 0%nat (common r), 0%nat)
  | OtherRecord => (0, 0)%nat
  end.
Definition has_room (g : nat * nat) (s : Converter) : Prop := room g.1 g.2 s.
Fixpoint records_room (records : list PerfRecord) (i : Import) : Prop :=
  match records with
  | [] => True
  | r :: records' =>
      has_room (record_growth (recorder i) r) (converter (recorder i)) ∧
      ∀ i', handle_record try_join interpretation i r = Some (Ok i') → records_room records' i'
  end.

(** * Each record *)
Definition steps (g : nat * nat) (s s' : Converter) : Prop := step g.1 g.2 s s'.
Definition rsteps (g : nat * nat) (m m' : Recorder) : Prop := MappedFilesSafety.rstep R o mo g.1 g.2 m m'.
Lemma handle_thread_sample_ok s e attr :
  converter_ok s → sample_complete e → has_room (thread_sample_growth s e attr) s →
  ∃ s', handle_thread_sample interpretation s e attr = Some (Ok s') ∧ steps (thread_sample_growth s e attr) s s'.
Proof using inputs frames_bounded interval_pos.
  intros Hok (Hpid & Htid & Ht & Hregs). unfold handle_thread_sample, thread_sample_growth. destruct (is_main _ _).
  { by apply handle_main_event_sample_ok. }
  destruct (is_sched_switch _ _); [by apply handle_sched_switch_sample_ok|].
  intros _. exists s. split; [done|by apply converter_step_refl].
Qed.
Lemma handle_event_sample_ok s e attr :
  converter_ok s → sample_complete e → has_room (event_sample_growth s e attr) s →
  ∃ s', handle_event_sample interpretation s e attr = Some (Ok s') ∧ steps (event_sample_growth s e attr) s s'.
Proof using inputs frames_bounded interval_pos.
  intros Hok (Hpid & Htid & Ht & Hregs). unfold handle_event_sample, event_sample_growth.
  destruct (is_known_rss_stat _ _); [by apply handle_rss_stat_sample_ok|].
  destruct (_ || _); [|by apply handle_other_event_sample_ok].
  intros _. exists s. split; [done|by apply converter_step_refl].
Qed.
Lemma handle_sample_ok s e attr :
  converter_ok s → sample_complete e → has_room (sample_growth s e attr) s →
  ∃ s', handle_sample interpretation s e attr = Some (Ok s') ∧ steps (sample_growth s e attr) s s'.
Proof using inputs frames_bounded interval_pos.
  intros Hok Hc Hroom. unfold handle_sample, sample_growth in *.
  destruct (handle_thread_sample_ok s e attr Hok Hc) as (s1 & Heq & Hst).
  { eapply room_weaken; [| |exact Hroom]; simpl; lia. }
  rewrite Heq in *. cbn [mbind loops_bind]. pose proof (room_step R o _ _ _ _ _ _ Hroom Hst) as Hroom1.
  destruct (handle_event_sample_ok s1 e attr (step_ok _ _ _ _ _ _ Hst) Hc Hroom1) as (s2 & -> & Hst2).
  exists s2. split; [done|]. exact (converter_step_trans _ _ _ _ _ _ _ _ _ Hst Hst2).
Qed.
Lemma on_converter_ok m f s' g :
  recorder_ok m → f (converter m) = Some (Ok s') → steps g (converter m) s' →
  ∃ m', on_converter m f = Some (Ok m') ∧ rsteps g m m'.
Proof.
  intros Hm Hf Hst. unfold on_converter. rewrite Hf. cbn [mbind loops_bind]. eexists. split; [done|].
  exact (converter_rstep R o mo _ _ m s' Hm Hst).
Qed.
Lemma set_product_step s name' : converter_ok s → step 0 0 s (set_profile_name s name').
Proof.
  intros Hok. apply quiet_step; [done|]. by apply (call_of 0 (ProfileRuns.SetProduct name')).
Qed.
Lemma name_profile_ok i e :
  recorder_ok (recorder i) →
  rsteps (0, 0)%nat (recorder i) (recorder (name_profile i e)) ∧
  processes (converter (recorder (name_profile i e))) = processes (converter (recorder i)).
Proof.
  intros Hm. pose proof (rstep_refl R o mo 0 0 (recorder i) Hm) as Hrefl. unfold name_profile.
  destruct (profile_name_postfix_for_first_process i) as [postfix|]; [|done].
  destruct (decide _); [done|]. simpl. split; [|done]. apply (converter_rstep R o mo 0 0 (recorder i)); [done|].
  apply set_product_step, Hm.
Qed.
Lemma handle_record_ok i r :
  recorder_ok (recorder i) → record_valid r → has_room (record_growth (recorder i) r) (converter (recorder i)) →
  ∃ i', handle_record try_join interpretation i r = Some (Ok i') ∧
    rsteps (record_growth (recorder i) r) (recorder i) (recorder i').
Proof using inputs frames_bounded interval_pos Hfiles Hoptions.
  intros Hm Hv Hroom. unfold handle_record. set (i1 := with_timestamp i (record_timestamp r)).
  change (recorder i) with (recorder i1) in *. clearbody i1. clear i. pose proof (recorder_converter _ _ _ _ Hm) as Hok.
  unfold handle_parsed, record_valid, record_growth in *. destruct (parsed_record r) as [e|e|e|e|e|e|e|]; cbn zeta.
  - destruct (handle_sample_ok _ _ _ Hok Hv Hroom) as (s' & Heq & Hst).
    destruct (on_converter_ok (recorder i1) (λ s, handle_sample interpretation s e (attr_index r)) s' _ Hm Heq Hst)
      as (m' & -> & Hm'). cbn [mbind loops_bind]. eexists. by split.
  - destruct (handle_fork_ok R o _ e Hok Hroom) as (s' & Heq & Hst).
    destruct (on_converter_ok (recorder i1) (λ s, returned (handle_fork s e)) s' (3, 0)%nat Hm) as (m' & -> & Hm');
      [by rewrite Heq|done|]. cbn [mbind loops_bind]. eexists. by split.
  - destruct (name_profile_ok i1 e Hm) as (Hst1 & Hps). pose proof (rstep_ok _ _ _ _ _ _ _ Hst1) as Hm1.
    assert (comm_room B (converter (recorder i1)) e = comm_room B (converter (recorder (name_profile i1 e))) e) as Hcomm.
    { unfold comm_room, remove_room. by rewrite Hps. }
    rewrite Hcomm in *. pose proof (room_step R o 0 0 _ 0 _ _ Hroom (rstep_step _ _ _ _ _ _ _ Hst1)) as Hroom1.
    destruct (handle_comm_ok R B o inputs try_join _ e (record_timestamp r) (recorder_converter _ _ _ _ Hm1) Hroom1)
      as (s' & Heq & Hst).
    destruct (on_converter_ok (recorder (name_profile i1 e)) (λ s, handle_comm try_join s e (record_timestamp r)) s'
      (comm_room B (converter (recorder (name_profile i1 e))) e, 0%nat) Hm1 Heq Hst) as (m' & -> & Hm').
    cbn [mbind loops_bind]. eexists. split; [done|]. exact (rstep_trans _ _ _ _ _ _ _ _ _ _ Hst1 Hm').
  - destruct (handle_exit_ok R B o inputs _ e Hok Hroom) as (s' & Heq & Hst).
    destruct (on_converter_ok (recorder i1) (λ s, handle_exit s e) s' (exit_room B (converter (recorder i1)) e, 0%nat) Hm Heq Hst) as (m' & -> & Hm').
    cbn [mbind loops_bind]. eexists. by split.
  - destruct (handle_mmap_ok R B o mo Hfiles Hoptions inputs interval_pos (recorder i1) e (last_timestamp i1) Hm Hv Hroom)
      as (m' & -> & Hst). cbn [returned mbind loops_bind]. eexists. by split.
  - destruct (handle_mmap2_ok R B o mo Hfiles Hoptions inputs interval_pos (recorder i1) e (last_timestamp i1) Hm Hv Hroom)
      as (m' & -> & Hst). cbn [returned mbind loops_bind]. eexists. by split.
  - destruct (common r) as [c|]; cbn [from_option] in *.
    2: { eexists. split; [done|]. by apply rstep_refl. }
    destruct (handle_context_switch_ok R o interval_pos _ e c Hok (Hv c eq_refl) Hroom) as (s' & Heq & Hst).
    destruct (on_converter_ok (recorder i1) (λ s, returned (handle_context_switch s e c)) s' (context_switch_room (converter (recorder i1)) c, 0%nat) Hm)
      as (m' & -> & Hm'); [by rewrite Heq|exact Hst|].
    cbn [mbind loops_bind]. eexists. by split.
  - eexists. split; [done|]. by apply rstep_refl.
Qed.
Lemma handle_records_ok records i :
  recorder_ok (recorder i) → Forall record_valid records → records_room records i →
  ∃ i', handle_records try_join interpretation records i = Some (Ok i') ∧ recorder_ok (recorder i').
Proof using inputs frames_bounded interval_pos Hfiles Hoptions.
  intros Hm Hv. revert i Hm. induction Hv as [|r records Hr Hv IH]; intros i Hm Hroom; [by exists i|].
  destruct Hroom as [Hg Hrest]. destruct (handle_record_ok i r Hm Hr Hg) as (i1 & Heq & Hst).
  cbn [handle_records]. rewrite Heq. cbn [mbind loops_bind]. apply IH; [apply Hst|by apply Hrest].
Qed.

(** ** The room, computed: from a bound on the tables to a bound at the end *)
Fixpoint run_within (n : nat) (records : list PerfRecord) (i : Import) : option (nat * Import) :=
  match records with
  | [] => Some (n, i)
  | r :: records' =>
      let g := record_growth (recorder i) r in
      if (Z.of_nat (n + g.1) <? 2 ^ 32) && (Z.of_nat (num_stacks (converter (recorder i)) + g.2) <? UnresolvedStacks.EMPTY)
      then match handle_record try_join interpretation i r with
           | Some (Ok i') => run_within (n + g.1) records' i'
           | _ => None
           end
      else None
  end.
Lemma run_within_room records n i n' i' :
  recorder_ok (recorder i) → Forall record_valid records → ProfileRuns.wf n (profile (converter (recorder i))) →
  run_within n records i = Some (n', i') →
  records_room records i ∧ handle_records try_join interpretation records i = Some (Ok i') ∧
  ProfileRuns.wf n' (profile (converter (recorder i'))).
Proof using inputs frames_bounded interval_pos Hfiles Hoptions.
  intros Hm Hv. revert n i Hm. induction Hv as [|r records Hr Hv IH]; intros n i Hm Hwf Hrun.
  { by injection Hrun as <- <-. }
  cbn [run_within] in Hrun. destruct (_ && _) eqn:Hlt in Hrun; [|done]. apply andb_prop in Hlt as [Hn Hs].
  apply Z.ltb_lt in Hn, Hs.
  assert (has_room (record_growth (recorder i) r) (converter (recorder i))) as Hroom.
  { split; [by exists n|done]. }
  destruct (handle_record_ok i r Hm Hr Hroom) as (i1 & Heq & Hst). rewrite Heq in Hrun.
  destruct Hst as [Hst Hm1]. cbn [records_room handle_records]. rewrite Heq. cbn [mbind loops_bind].
  destruct (IH (n + (record_growth (recorder i) r).1)%nat i1 Hm1) as (Hrest & Hall & Hwf'); [|done|].
  { eapply changes_wf; [exact (step_calls _ _ _ _ _ _ Hst)|done|done]. }
  split; [|by split]. split; [done|]. by intros ? [= <-].
Qed.
End safety.

(** * The start *)
Section start.
Context `{DebugIdOps} `{JitDumpReader} `{!TextFiles} `{U : Unwinding} `{DrainOrder}.
Context `{PerfConstants} `{!StackWalking} `{!DebugIds.UuidDebugIds} `{!FileBytes} `{!PeHeaders} `{!ObjectFiles}.
Context `{!WriteFiles} `{!ElfReader} `{!DsoKeys} `{!ModuleLoading} `{Demanglers}.

(** There is a sampled event, and the interval it gives is not zero. *)
Definition policy_ok (p : SamplingPolicy) : Prop :=
  match p with
  | NoSampling => False
  | Frequency freq => 0 < freq ≤ 1000000000
  | Period period => 0 < period
  end.
Definition attributes_ok (attrs : list AttributeDescription) : Prop :=
  match attrs with attr :: _ => policy_ok (sampling_policy attr) | [] => False end.
Lemma divine_from_attrs_ok attrs :
  attributes_ok attrs →
  ∃ i, divine_from_attrs attrs = Ok i ∧ 0 < default 1000000 (sampling_is_time_based i).
Proof.
  destruct attrs as [|attr attrs]; [done|]. intros Hp. unfold divine_from_attrs, sampling_interval.
  unfold attributes_ok, policy_ok in Hp.
  change (index (attr :: attrs) 0) with (Ok attr). cbn [mbind res_bind].
  destruct (sampling_policy attr) as [|freq|period]; [done| |].
  - unfold div_u64. destruct (Z.eqb_spec freq 0); [lia|]. eexists. split; [done|]. simpl.
    apply Z.div_str_pos. lia.
  - eexists. split; [done|]. simpl. by destruct (is_clock attr).
Qed.

(** ** The symbol tables of simpleperf *)
Definition simpleperf_file_ok (f : SimpleperfFileRecord) : Prop :=
  Forall (λ s, u32_range (len s) ∧ is_Ok (Demangle.demangle_any (symbol_name s))) (file_symbols f).
Definition table_ok (dex oat : CategoryPairHandle) (t : SymbolTableFromSimpleperf) : Prop :=
  built (simpleperf_symbol_table t) ∧ ∀ c, simpleperf_category t = Some c → c = dex ∨ c = oat.
Record tables_built (dex oat : CategoryPairHandle) (t : SimpleperfTables) : Prop := {
  built_user : map_Forall (λ _, table_ok dex oat) (tables_user t);
  built_jit : map_Forall (λ _, Forall (λ s, u32_range (len s))) (tables_jit t);
  built_modules : map_Forall (λ _, table_ok dex oat) (tables_kernel_modules t)
}.
Lemma no_tables_built dex oat : tables_built dex oat no_tables.
Proof. split; apply map_Forall_empty. Qed.
Lemma demangle_symbols_Ok l :
  Forall (λ s, u32_range (len s) ∧ is_Ok (Demangle.demangle_any (symbol_name s))) l → is_Ok (demangle_symbols l).
Proof.
  induction 1 as [|s l [_ [name' Hn]] _ [rest Hr]]; [by eexists|]. cbn [demangle_symbols]. rewrite Hn. cbn [mbind res_bind].
  rewrite Hr. by eexists.
Qed.
Lemma add_simpleperf_file_ok dex oat t f :
  simpleperf_file_ok f → tables_built dex oat t →
  ∃ t', add_simpleperf_file dex oat t f = Ok t' ∧ tables_built dex oat t'.
Proof.
  intros Hf [Hu Hj Hk]. unfold add_simpleperf_file.
  assert (∀ symbols, table_ok dex oat
    {| min_vaddr := file_min_vaddr f; file_offset_of_min_vaddr_in_elf_file := elf_file_offset_of_min_vaddr f;
       simpleperf_symbol_table := SymbolTable.new symbols; simpleperf_category := (category_and_art_info f dex oat).1;
       simpleperf_art_info := (category_and_art_info f dex oat).2 |}) as Htable.
  { intros symbols. split; [by eexists|]. simpl. unfold category_and_art_info.
    repeat (destruct (RustStr.ends_with _ _) || destruct (_ || _)); simpl; intros c Hc; simplify_eq; auto. }
  destruct (demangle_symbols_Ok _ Hf) as [symbols Hsym]. specialize (Htable symbols).
  assert (Forall (λ s, u32_range (len s)) (file_symbols f)) as Hlen.
  { eapply Forall_impl; [exact Hf|]. by intros s [? _]. }
  destruct (category_and_art_info f dex oat) as [c a]. simpl in Htable. rewrite Hsym. cbn [mbind res_bind].
  destruct (dso_type f); [eexists; split; [done|by split]|..];
    (destruct (is_simpleperf_jit_path (file_path f));
     eexists; (split; [done|]); split; simpl; try done; by apply map_Forall_insert_2).
Qed.
Lemma add_simpleperf_files_ok dex oat l t :
  Forall simpleperf_file_ok l → tables_built dex oat t →
  ∃ t', add_simpleperf_files dex oat t l = Ok t' ∧ tables_built dex oat t'.
Proof.
  intros Hl. revert t. induction Hl as [|f l Hf Hl IH]; intros t Ht; [by exists t|]. cbn [add_simpleperf_files].
  destruct (add_simpleperf_file_ok dex oat t f Hf Ht) as (t1 & -> & Ht1). cbn [mbind res_bind]. by apply IH.
Qed.
Lemma added_category_ok p name' color p' h :
  add_category p name' color = (p', h) →
  by_calls_of quiet 0 p p' ∧ ThreadSafety.category_ok (length (categories p')) (CategoryPairHandle_from h).
Proof.
  intros Heq. destruct (add_category_spec _ _ _ _ _ Heq) as (Hby & _ & -> & Hlen). split; [exact Hby|].
  unfold ThreadSafety.category_ok, wrap_u16. simpl. rewrite Hlen.
  pose proof (Z.mod_le (Z.of_nat (length (categories p))) (2 ^ 16)). lia.
Qed.
Lemma category_ok_evolves p p' c :
  evolves p p' → ThreadSafety.category_ok (length (categories p)) c → ThreadSafety.category_ok (length (categories p')) c.
Proof. intros He Hc. pose proof (evolves_num_categories _ _ He). unfold ThreadSafety.category_ok in *. lia. Qed.
Lemma simpleperf_tables_ok p l :
  Forall simpleperf_file_ok (default [] l) →
  ∃ p' t dex oat, simpleperf_tables p l = Ok (p', t) ∧ by_calls_of quiet 0 p p' ∧ tables_built dex oat t ∧
    ∀ path t' c, tables_user t !! path = Some t' → simpleperf_category t' = Some c →
      ThreadSafety.category_ok (length (categories p')) c.
Proof.
  intros Hl. unfold simpleperf_tables. destruct l as [l|]; simpl in Hl.
  2: { exists p, no_tables, (CategoryPairHandle_from 0), (CategoryPairHandle_from 0). split; [done|].
       split; [apply calls_of_refl|]. split; [apply no_tables_built|done]. }
  destruct (add_category p "DEX" Green) as [p1 dex] eqn:H1'. destruct (add_category p1 "OAT" Green) as [p2 oat] eqn:H2'.
  destruct (added_category_ok _ _ _ _ _ H1') as [Hby1 Hdex]. destruct (added_category_ok _ _ _ _ _ H2') as [Hby2 Hoat].
  destruct (add_simpleperf_files_ok (CategoryPairHandle_from dex) (CategoryPairHandle_from oat) l no_tables Hl
    (no_tables_built _ _)) as (t & -> & Ht).
  cbn [mbind res_bind]. eexists p2, t, _, _. split; [done|]. split; [exact (calls_of_trans 0 0 _ _ _ Hby1 Hby2)|].
  split; [exact Ht|]. intros path t' c Hp Hc. destruct (built_user _ _ _ Ht path t' Hp) as [_ Hcats].
  destruct (Hcats c Hc) as [-> | ->]; [|done]. eapply category_ok_evolves; [exact (calls_of_evolves _ _ _ Hby2)|done].
Qed.

(** ** [Converter::new] *)
Record surroundings_ok (x : Surroundings) : Prop := {
  own_vdso_ok : ∀ v, own_vdso x = Some v → guid_ok (Vdso.object v);
  running_kernel_ok : ∀ k, running_kernel x = inr k → built (KernelSymbols.symbol_table k)
}.
Record perf_file_ok (f : PerfFile) : Prop := {
  file_attributes_ok : attributes_ok (attributes f);
  file_simpleperf_ok : Forall simpleperf_file_ok (default [] (simpleperf_files f));
  file_dso_paths : ∀ key info, perf_build_ids f !! key = Some info → is_Some (Utf8.from_utf8 (dso_path info))
}.
Lemma new_for_running_kernel_built `{ElfNotes} `{!ReadFiles} files k :
  KernelSymbols.new_for_running_kernel files = inr k → built (KernelSymbols.symbol_table k).
Proof.
  unfold KernelSymbols.new_for_running_kernel. destruct (read_file files _) as [notes|]; [|done].
  destruct (KernelSymbols.build_id_from_notes_section_data notes); [|done]. destruct (read_file files _) as [text|]; [|done].
  unfold KernelSymbols.parse_kallsyms. destruct (KernelSymbols.collect _ _ _) as [|[[a|] symbols]]; try done.
  intros [= <-]. by eexists.
Qed.
Definition recorder_options_of (f : PerfFile) (x : Surroundings) (props : ProfileCreationProps)
    (interpretation : EventInterpretation) : Options :=
  converter_options props (first_sample_time f) (file_little_endian f) (aux_file_dirs x) interpretation
    (match meta_info f with Some _ => true | None => false end).
Lemma initial_profile_ok t name' version interpretation :
  let p := initial_profile t name' version interpretation in ProfileRuns.wf 0 p ∧ recording p.
Proof.
  unfold initial_profile. set (p := Profile.new _ _ _). assert (ProfileRuns.wf 0 p) as Hwf by apply ProfileRuns.wf_new_profile.
  assert (recording p) as Hrec by apply recording_new. destruct version as [version|]; [|done].
  assert (by_calls_of quiet 0 p (Profile.set_os_name p ("Linux " +:+ version))) as Hby.
  { by apply (call_of 0 (ProfileRuns.SetOsName ("Linux " +:+ version))). }
  split; [by eapply (calls_of_wf 0 0)|]. eapply recording_evolves; [exact (calls_of_evolves _ _ _ Hby)|done].
Qed.
Lemma fixed_paths f key info :
  perf_file_ok f → fixup_perf_jit_build_ids (perf_build_ids f) !! key = Some info → is_Some (Utf8.from_utf8 (dso_path info)).
Proof.
  intros Hf. unfold fixup_perf_jit_build_ids. rewrite map_lookup_imap.
  destruct (perf_build_ids f !! key) as [i|] eqn:Hi; [|done]. cbn [mbind option_bind]. intros [= <-].
  destruct (file_dso_paths f Hf key i Hi) as [t Ht]. exists t. by destruct (_ && _).
Qed.
Lemma new_recorder_ok R f x props interpretation :
  surroundings_ok x → perf_file_ok f →
  ∃ m, new_recorder f x props interpretation = Ok m ∧ options_ok (module_options m) ∧
    MappedFilesSafety.recorder_ok R (recorder_options_of f x props interpretation) (module_options m) m ∧
    ProfileRuns.wf 1 (profile (converter m)).
Proof.
  intros Hx Hf. unfold new_recorder, NewConverter.new. fold (recorder_options_of f x props interpretation).
  set (options' := recorder_options_of _ _ _ _).
  destruct (initial_profile_ok (reference_timestamp' x) (profile_name_and_postfix props (meta_info f) (hostname f) (perf_version f)).1
    (os_release f) interpretation) as [Hwf0 Hrec0].
  set (p0 := initial_profile _ _ _ _) in *.
  destruct (add_category p0 "JIT app cache" Green) as [p1 category'] eqn:Hcat.
  destruct (added_category_ok _ _ _ _ _ Hcat) as [Hby1 Hcategory].
  unfold SyntheticJitLibrary.new. destruct (add_lib p1 _) as [p2 h] eqn:Hlib.
  assert (ProfileRuns.wf 0 p1) as Hwf1 by by eapply (calls_of_wf 0 0).
  destruct (add_lib_spec _ _ _ _ Hlib eq_refl) as [Hby2 Hh]; [apply (ProfileRuns.wf_env _ _ Hwf1)|].
  destruct (simpleperf_tables_ok p2 (simpleperf_files f) (file_simpleperf_ok f Hf)) as (p3 & t & dex & oat & -> & Hby3 & Ht & Hcats).
  cbn [mbind res_bind].
  assert (by_calls_of quiet 0 p1 p3) as Hby13 by exact (calls_of_trans 0 0 _ _ _ Hby2 Hby3).
  assert (by_calls_of quiet 0 p0 p3) as Hby03 by exact (calls_of_trans 0 0 _ _ _ Hby1 Hby13).
  assert (ProfileRuns.wf 0 p3) as Hwf3 by by eapply (calls_of_wf 0 0).
  assert (recording p3) as Hrec3 by exact (recording_evolves _ _ (calls_of_evolves _ _ _ Hby03) Hrec0).
  assert (∃ cpus' p4, (if create_per_cpu_threads props then
       '(cpus', p) ← PerCpu.new (convert_time (timestamp_converter options') (first_sample_time f)) p3;
       Ok (Some cpus', p)
     else Ok (None, p3)) = Ok (cpus', p4) ∧ evolves p3 p4 ∧ ProfileRuns.wf 1 p4 ∧ (∀ cs, cpus' = Some cs → PerCpu.cpus_ok p4 cs))
    as (cpus' & p4 & -> & He & Hwf4 & Hcpus).
  { destruct (create_per_cpu_threads props).
    2: { exists None, p3. split; [done|]. split; [apply (calls_of_evolves 0 p3 p3), calls_of_refl|].
         split; [|done]. apply (ProfileRuns.wf_weaken 0); [done|lia]. }
    destruct (PerCpu.new_cpus_ok 0 p3 (convert_time (timestamp_converter options') (first_sample_time f)) Hwf3)
      as (cs & p4 & -> & Hch & Hcs & _); [done|done|].
    eexists _, p4. split; [done|]. split; [by eapply changes_evolves|]. split; [|by intros ? [= <-]].
    by apply (changes_wf 0 1 p3). }
  cbn [mbind res_bind]. eexists. split; [done|].
  pose proof (transitivity (calls_of_evolves _ _ _ Hby13) He) as He14.
  split; [|split; [split; simpl|exact Hwf4]].
  - split; simpl.
    + apply (own_vdso_ok x Hx).
    + intros k. destruct (running_kernel x) as [|k'] eqn:Hk; [done|]. intros [= ->]. by apply (running_kernel_ok x Hx).
    + intros path t' Hp. by apply (built_user _ _ _ Ht path t').
    + intros path t' Hp. by apply (built_modules _ _ _ Ht path t').
    + intros path l s Hp Hs. pose proof (built_jit _ _ _ Ht path l Hp) as Hl. simpl in Hl. rewrite Forall_forall in Hl.
      by apply Hl.
    + intros key info. by apply fixed_paths.
  - split; simpl; try done.
    + apply UnresolvedStacks.wf_default.
    + apply Processes.new_processes_ok.
    + exact (recording_evolves _ _ He Hrec3).
    + apply JitCategories.wf_new_manager.
    + apply java_valid.
      * pose proof (evolves_libs _ _ (transitivity (calls_of_evolves _ _ _ Hby3) He)). simpl in *. lia.
      * intros c [= <-]. by eapply category_ok_evolves.
  - done.
  - done.
  - intros path t' c Hp Hc. simpl. eapply category_ok_evolves; [exact He|]. by eapply Hcats.
Qed.

(** * The end *)

(** At the end there is room for what is read from the files of the processes and
    for their samples, and markers of one type have the same fields. *)
Definition finish_fits (B : nat) (s : Converter) : Prop :=
  let c := timestamp_converter (options s) in
  let alive := LinuxThreads.drain (Processes.processes_by_pid (processes s)) in
  ∃ n, ProfileRuns.wf n (profile s) ∧ Z.of_nat (n + RecordingEnd.alive_room B alive) < 2 ^ 32 ∧
    ∀ p files' manager' p1 ps',
      SyntheticJitLibrary.finish_and_set_symbol_table (simpleperf_jit_app_cache_library s) (profile s) = Ok p →
      Processes.finish_alive (files s) c (processes s) alive (jit_category_manager s) p =
        Some (Ok (files', manager', p1, ps')) →
      Forall RecordingEnd.markers_fit (Processes.process_sample_datas ps') ∧
      Z.of_nat (n + RecordingEnd.alive_room B alive +
        sum_list_with (RecordingEnd.data_room (unresolved_stacks s)) (Processes.process_sample_datas ps')) < 2 ^ 32.
Lemma finish_converter_ok `{UnstableSort} `{Schema.DerivedSerialize} R B o s :
  inputs_ok R B (timestamp_converter o) → ConverterInvariant.converter_ok R o s → finish_fits B s →
  ∃ p, finish s = Some (Ok p) ∧ is_Ok (serialize_profile p).
Proof.
  intros Hin Hok (n & Hwf & Hn & Hfit). unfold finish, SyntheticJitLibrary.finish_and_set_symbol_table in *.
  assert (timestamp_converter (options s) = timestamp_converter o) as Htc by (f_equal; apply Hok).
  destruct (set_lib_symbol_table_spec n (profile s) (SyntheticJitLibrary.lib_handle (simpleperf_jit_app_cache_library s))
    (SyntheticJitLibrary.symbols (simpleperf_jit_app_cache_library s)) Hwf) as (p & library & Heq & Hby & _).
  { lia. }
  { apply (converter_library _ _ _ Hok). }
  { apply (converter_recording _ _ _ Hok). }
  rewrite Heq in *. cbn [returned mbind loops_bind].
  pose proof (quiet_step R o 0 s p Hok Hby) as Hst. pose proof (step_ok _ _ _ _ _ _ Hst) as Hok'.
  assert (ProfileRuns.wf n p) as Hwf'.
  { rewrite <-(Nat.add_0_r n). eapply calls_of_wf; [exact Hby|done|lia]. }
  rewrite Htc in *.
  destruct (RecordingEnd.recording_finishes R B _ Hin (unresolved_stacks s) n (files s) (processes s)
    (jit_category_manager s) p) as (p' & k & -> & _ & _ & Hser); try done.
  - exact (converter_stacks _ _ _ Hok').
  - exact (converter_recording _ _ _ Hok').
  - exact (converter_jit _ _ _ Hok').
  - exact (converter_processes _ _ _ Hok').
  - intros files' manager' p1 ps' Halive. exact (Hfit p files' manager' p1 ps' eq_refl Halive).
  - by exists p'.
Qed.

Lemma set_android_version_ok R o mo f m :
  MappedFilesSafety.recorder_ok R o mo m → MappedFilesSafety.recorder_ok R o mo (set_android_version f m).
Proof.
  intros Hm. unfold set_android_version. destruct (meta_info f ≫= _) as [version|]; [|done].
  apply (converter_rstep R o mo 0 0 m); [done|]. apply quiet_step; [apply Hm|].
  by apply (call_of 0 (ProfileRuns.SetOsName ("Android " +:+ version))).
Qed.

End start.
(** * Example: a process that is mapped, sampled, put off the CPU, forks and exits *)
#[local] Existing Instance string_debug_ids.
#[local] Existing Instance string_debug_id_ops.
#[local] Existing Instance ProfileRuns.example_serialize.
#[local] Existing Instance RecordingEnd.no_files.
#[local] Existing Instance RecordingEnd.no_jitdump.
#[local] Existing Instance RecordingEnd.no_text.
#[local] Existing Instance RecordingEnd.example_unwinding.
#[local] Instance perf_event_h : PerfConstants :=
  {| PERF_CONTEXT_MAX := 2 ^ 64 - 4095; PERF_CONTEXT_KERNEL := 2 ^ 64 - 128;
     PERF_CONTEXT_GUEST_KERNEL := 2 ^ 64 - 2176; PERF_CONTEXT_USER := 2 ^ 64 - 512;
     PERF_CONTEXT_GUEST := 2 ^ 64 - 2048; PERF_CONTEXT_GUEST_USER := 2 ^ 64 - 2560 |}.
(** The unwinder finds the return address at the top of the stack. *)
#[local] Instance one_caller : StackWalking :=
  {| Cache := unit; Regs := Z; UnwindRegs := Z; convert_regs sp := Ok (4100, sp, sp);
     iter_frames _ pc sp _ read :=
       (tt, FA_InstructionPointer pc :: from_option (λ addr, [FA_ReturnAddress addr]) [] (read sp), false) |}.
#[local] Instance no_uuids : DebugIds.UuidDebugIds := {| DebugIds.from_uuid _ := "" |}.
#[local] Instance nothing_mapped : FileBytes := {| map_file _ := None |}.
#[local] Instance no_pe : PeHeaders := {| pe_headers _ := None |}.
#[local] Instance no_objects : ObjectFiles := {| parse_object _ := None |}.
#[local] Instance read_only : WriteFiles := {| write_file files _ _ := (files, false) |}.
#[local] Instance no_elf : ElfReader := {| parse_elf _ _ := None |}.
#[local] Instance path_keys : DsoKeys :=
  {| DsoKey := string; MappingMode := unit; dso_detect path _ := Some path; dso_kernel := "[kernel.kallsyms]";
     dso_name key := key |}.
#[local] Instance no_modules : ModuleLoading :=
  {| Module_ := unit; new_module _ _ _ _ := tt; add_module u _ := u |}.
#[local] Instance no_demanglers : Demanglers :=
  {| msvc_demangle _ := None; scala_native_demangle _ := None; rustc_demangle _ := None; cpp_demangle _ := None;
     wide_char_is_uppercase _ := false |}.

#[local] Definition example_sample (t : Z) (chain : list Z) : PerfRecord :=
  {| record_timestamp := Some t; attr_index := 0; common := None;
     parsed_record := Sample
       {| pid := Some 7; tid := Some 7; timestamp := Some t; cpu := Some 0; SampleStack.period := Some 1; ip := Some 4100;
          cpu_mode := CpuOther; callchain := Some chain; user_regs := Some 8000; user_stack := Some [4200];
          raw := None |} |}.
#[local] Definition example_switch (t : Z) (e : ContextSwitchRecord) : PerfRecord :=
  {| record_timestamp := Some t; attr_index := 0; parsed_record := ContextSwitch e;
     common := Some {| common_pid := Some 7; common_tid := Some 7; common_timestamp := Some t; common_cpu := Some 0 |} |}.
#[local] Definition example_record (t : Z) (e : EventRecord) : PerfRecord :=
  {| record_timestamp := Some t; attr_index := 0; parsed_record := e; common := None |}.
#[local] Definition example_file : PerfFile :=
  {| meta_info := None;
     attributes :=
       [{| attr_name := Some "cpu-clock"; is_clock := true; sampling_policy := Frequency 1000;
           context_switch_flag := true |}];
     perf_build_ids := ∅; os_release := Some "6.1"; hostname := Some "host"; perf_version := None;
     first_sample_time := 0; file_little_endian := true; simpleperf_files := None;
     records :=
       [example_record 1 (Comm {| ce_pid := 7; ce_tid := 7; ce_is_execve := false; ce_name := "node" |});
        example_record 2 (Mmap2
          {| mmap2_pid := 7; mmap2_tid := 7; mmap2_address := 4096; mmap2_length := 8192; mmap2_page_offset := 0;
             protection := PROT_EXEC; file_id := InodeAndVersion; mmap2_cpu_mode := tt; mmap2_path := "/bin/node" |});
        example_sample 3 [2 ^ 64 - 512; 4100; 4200];
        example_switch 4 (Out false); example_switch 5000000 In; example_sample 5000001 [];
        example_record 5000002 (Fork {| fe_pid := 8; fe_ppid := 7; fe_tid := 8; fe_ptid := 7; fe_timestamp := 5000002 |});
        example_record 5000003 (Exit {| fe_pid := 7; fe_ppid := 1; fe_tid := 7; fe_ptid := 1; fe_timestamp := 5000003 |})] |}.
#[local] Definition example_surroundings : Surroundings :=
  {| system_files := tt; running_kernel := inl KernelSymbols.CouldNotReadKernelNotes; own_vdso := None;
     reference_timestamp' := f64_of_Z 0; new_cache := tt; binary_dirs := []; aux_file_dirs := [] |}.
#[local] Definition example_props : ProfileCreationProps :=
  {| NewConverter.profile_name := None; fallback_profile_name := "node"; reuse_threads := true;
     NewConverter.fold_recursive_prefix := false; unlink_aux_files := false; create_per_cpu_threads := true;
     NewConverter.arg_count_to_include_in_process_name := 0; should_emit_jit_markers := false;
     NewConverter.should_emit_mmap_markers := true; NewConverter.should_emit_cswitch_markers := true;
     attach_markers_to_profiled_thread := true |}.

(** What is left to check at the end of the run. *)
#[local] Definition end_fits (n : nat) (s : Converter) : Prop :=
  let alive := LinuxThreads.drain (Processes.processes_by_pid (processes s)) in
  match SyntheticJitLibrary.finish_and_set_symbol_table (simpleperf_jit_app_cache_library s) (profile s) with
  | Ok p =>
      match Processes.finish_alive (files s) (timestamp_converter (options s)) (processes s) alive
              (jit_category_manager s) p with
      | Some (Ok (_, _, _, ps')) =>
          Forall (λ d, Flush.markers d = []) (Processes.process_sample_datas ps') ∧
          Z.of_nat (n + RecordingEnd.alive_room 0 alive +
            sum_list_with (RecordingEnd.data_room (unresolved_stacks s)) (Processes.process_sample_datas ps')) < 2 ^ 32
      | _ => False
      end
  | Panic => False
  end.
Lemma end_fits_finish n s : ProfileRuns.wf n (profile s) → end_fits n s → finish_fits 0 s.
Proof.
  intros Hwf Hend. unfold end_fits, finish_fits in *. exists n. split; [done|].
  destruct (SyntheticJitLibrary.finish_and_set_symbol_table _ _) as [p|]; [|done].
  destruct (Processes.finish_alive _ _ _ _ _ _) as [[[[[? ?] ?] ps]|]|] eqn:Halive; [|done|done].
  destruct Hend as [Hmarkers Hroom]. split; [lia|]. intros ? ? ? ? ? [= <-] Heq. rewrite Halive in Heq.
  injection Heq as <- <- <- <-. split; [|done]. eapply Forall_impl; [exact Hmarkers|].
  intros d Hd. unfold RecordingEnd.markers_fit. rewrite Hd. split; [by intros ? ? ?%elem_of_nil|done].
Qed.
Lemma no_files_ok : files_ok.
Proof. split; [done|]. intros as_64 data. by eexists. Qed.
Lemma example_surroundings_ok : surroundings_ok example_surroundings.
Proof. split; done. Qed.
Lemma example_file_ok : perf_file_ok example_file.
Proof. split; [split; done|by apply Forall_nil|done]. Qed.
Lemma example_records_valid : Forall record_valid (records example_file).
Proof.
  assert (∀ t chain, record_valid (example_sample t chain)) as Hsample.
  { intros t chain. split_and!; [by eexists..|]. intros regs _. by eexists. }
  assert (∀ t e, record_valid (example_switch t e)) as Hswitch.
  { intros t e c [= <-]. split_and!; [by eexists..|]. intros _. by eexists. }
  repeat (apply Forall_cons; split; [by (apply Hsample || apply Hswitch || done || split_and!)|]). by apply Forall_nil.
Qed.
Lemma example_frames (u : Unwinder) pc (regs : UnwindRegs) (c : Cache) read :
  (length (iter_frames u pc regs c read).1.2 ≤ 2)%nat.
Proof. simpl. destruct (read regs); simpl; lia. Qed.
Lemma example_fits interpretation m :
  divine_from_attrs (attributes example_file) = Ok interpretation →
  new_recorder example_file example_surroundings example_props interpretation = Ok m →
  match run_within (λ _, None) 0 interpretation 2 1 (records example_file) (start_import example_file example_props m) with
  | Some (n, i) => end_fits n (converter (recorder i))
  | None => False
  end.
Proof.
  intros Hdivine Hnew.
  assert (match divine_from_attrs (attributes example_file) with
    | Ok interpretation =>
        match new_recorder example_file example_surroundings example_props interpretation with
        | Ok m =>
            match run_within (λ _, None) 0 interpretation 2 1 (records example_file)
                    (start_import example_file example_props m) with
            | Some (n, i) => end_fits n (converter (recorder i))
            | None => False
            end
        | Panic => False
        end
    | Panic => False
    end) as Hfit.
  { vm_compute. split; [by repeat constructor|done]. }
  by rewrite Hdivine, Hnew in Hfit.
Qed.

End ImportSafety.
