(* ===== verification/LineBuffer.v ===== *)
(** Text that comes in pieces: [LineBuffer] of
    samply-symbols/src/breakpad/index.rs, which calls a function for each line. *)
From S2P Require Import Prelude RustStr.
From stdpp Require Import options.
Open Scope Z_scope.

Module LineBuffer.
Import RustStr.

(** Bytes are the characters of a [string]. *)
Definition LF : string := String RustStr.LF "".
Definition slen (s : string) : Z := Z.of_nat (String.length s).

Record LineBuffer := { leftover_bytes : string; current_offset : Z }.
Definition default_buffer : LineBuffer := {| leftover_bytes := ""; current_offset := 0 |}.

Section line_buffer.
(** The function is called with the offset of a line and the line; it changes a
    state of its own, and may panic. *)
Context {S : Type} (f : Z → string → S → res S).

Definition line_start (b : LineBuffer) : Z := sub_u64 (current_offset b) (slen (leftover_bytes b)).
Fixpoint consume_loop (fuel : nat) (b : LineBuffer) (chunk : string) (s : S) : loops (LineBuffer * S) :=
  match fuel with
  | O => None
  | Datatypes.S fuel' =>
      match split_once chunk LF with
      | None =>
          returned (Ok ({| leftover_bytes := leftover_bytes b +:+ chunk;
                           current_offset := add_u64 (current_offset b) (slen chunk) |}, s))
      | Some (chunk_until_line_break, chunk') =>
          let '(line, line_start_offset) :=
            if is_empty (leftover_bytes b) then (chunk_until_line_break, current_offset b)
            else (leftover_bytes b +:+ chunk_until_line_break, line_start b) in
          s' ← returned (f line_start_offset line s);
          consume_loop fuel'
            {| leftover_bytes := "";
               current_offset := add_u64 (current_offset b) (slen chunk_until_line_break + 1) |} chunk' s'
      end
  end.
(** A step takes a line break. *)
Definition consume (b : LineBuffer) (chunk : string) (s : S) : loops (LineBuffer * S) :=
  _ ← returned (assert (slen (leftover_bytes b) <=? current_offset b));
  consume_loop (Datatypes.S (String.length chunk)) b chunk s.
Definition finish (b : LineBuffer) (s : S) : res (Z * S) :=
  if is_empty (leftover_bytes b) then Ok (current_offset b, s)
  else s' ← f (line_start b) (leftover_bytes b) s; Ok (current_offset b, s').
(** All chunks of a text, one after the other. *)
Fixpoint consume_all (b : LineBuffer) (chunks : list string) (s : S) : loops (LineBuffer * S) :=
  match chunks with
  | [] => returned (Ok (b, s))
  | chunk :: chunks' => '(b', s') ← consume b chunk s; consume_all b' chunks' s'
  end.

(** * The lines of a text *)

(** The complete lines of a text that starts in the middle of [line], each with
    its offset, and the rest. *)
Fixpoint text_lines (start : Z) (line text : string) : list (Z * string) * (Z * string) :=
  match text with
  | EmptyString => ([], (start, line))
  | String c text' =>
      if decide (c = RustStr.LF) then
        let '(lines, last) := text_lines (start + slen line + 1) "" text' in ((start, line) :: lines, last)
      else text_lines start (line +:+ String c "") text'
  end.
(** All lines: the last one counts if it is not empty. *)
Definition all_lines (text : string) : list (Z * string) :=
  let '(lines, last) := text_lines 0 "" text in if is_empty last.2 then lines else lines ++ [last].
Fixpoint call_all (lines : list (Z * string)) (s : S) : res S :=
  match lines with [] => Ok s | (offset, line) :: lines' => s' ← f offset line s; call_all lines' s' end.

Lemma call_all_app l1 l2 s : call_all (l1 ++ l2) s = call_all l1 s ≫= call_all l2.
Proof.
  revert s. induction l1 as [|[o line] l1 IH]; intros s; [done|]. cbn [call_all app].
  destruct (f o line s) as [s'|]; [|done]. cbn [mbind res_bind]. apply IH.
Qed.
Lemma slen_app a b : slen (a +:+ b) = slen a + slen b.
Proof. unfold slen. induction a as [|c a IH]; [done|]. rewrite app_cons. cbn [String.length] in *. lia. Qed.
Lemma slen_nonneg a : 0 ≤ slen a.
Proof. unfold slen. lia. Qed.
Lemma text_lines_app start line t1 t2 :
  text_lines start line (t1 +:+ t2) =
    let '(l1, (start1, line1)) := text_lines start line t1 in
    let '(l2, last) := text_lines start1 line1 t2 in (l1 ++ l2, last).
Proof.
  revert start line. induction t1 as [|c t1 IH]; intros start line.
  { rewrite app_empty. cbn [text_lines]. by destruct (text_lines start line t2). }
  rewrite app_cons. cbn [text_lines]. destruct (decide _); [|apply IH]. rewrite IH.
  destruct (text_lines _ "" t1) as [l1 [s1 x1]]. by destruct (text_lines s1 x1 t2).
Qed.
(** One line at a time. *)
Lemma text_lines_split start line text :
  text_lines start line text =
    match split_once text LF with
    | None => ([], (start, line +:+ text))
    | Some (until, text') =>
        let '(lines, last) := text_lines (start + slen (line +:+ until) + 1) "" text' in
        ((start, line +:+ until) :: lines, last)
    end.
Proof.
  revert line. induction text as [|c text IH]; intros line.
  { cbn [text_lines split_once]. simpl. by rewrite app_nil. }
  cbn [text_lines]. change (split_once (String c text) LF) with
    (match strip_prefix (String c text) LF with
     | Some rest => Some ("", rest)
     | None => '(a, b) ← split_once text LF; Some (String c a, b)
     end).
  unfold LF at 1. cbn [strip_prefix]. destruct (decide (RustStr.LF = c)) as [<-|Hne].
  - rewrite decide_True by done. destruct text; simpl; by rewrite app_nil.
  - rewrite decide_False by done. rewrite IH. destruct (split_once text LF) as [[a b]|]; simpl.
    + by rewrite !app_assoc_string.
    + by rewrite app_assoc_string.
Qed.
Lemma text_lines_last start line text :
  let '(_, (start', line')) := text_lines start line text in
  start' + slen line' = start + slen line + slen text ∧ start ≤ start'.
Proof.
  revert start line. induction text as [|c text IH]; intros start line; cbn [text_lines].
  { unfold slen at 3. simpl. lia. }
  assert (slen (String c text) = 1 + slen text) as -> by (unfold slen; simpl; lia).
  destruct (decide _).
  - specialize (IH (start + slen line + 1) ""). destruct (text_lines _ "" text) as [ls [start' line']].
    pose proof (slen_nonneg line). unfold slen at 3 in IH. simpl in IH. lia.
  - specialize (IH start (line +:+ String c "")). destruct (text_lines _ _ text) as [ls [start' line']].
    rewrite slen_app in IH. unfold slen at 3 in IH. simpl in IH. lia.
Qed.

(** * The buffer finds them *)
Definition at_line (b : LineBuffer) (start : Z) (line : string) : Prop :=
  leftover_bytes b = line ∧ current_offset b = start + slen line.
Lemma consume_loop_spec fuel b start line chunk s :
  at_line b start line → 0 ≤ start → start + slen line + slen chunk < 2 ^ 64 → (String.length chunk < fuel)%nat →
  let '(lines, (start', line')) := text_lines start line chunk in
  consume_loop fuel b chunk s =
    Some (s' ← call_all lines s; Ok ({| leftover_bytes := line'; current_offset := start' + slen line' |}, s')).
Proof.
  revert b start line chunk s. induction fuel as [|fuel IH]; intros b start line chunk s [Hl Ho] Hs Hlt Hf; [lia|].
  pose proof (slen_nonneg line). pose proof (slen_nonneg chunk).
  cbn [consume_loop]. rewrite text_lines_split, Hl, Ho. destruct (split_once chunk LF) as [[until rest]|] eqn:Heq.
  2: { cbn [call_all mbind res_bind]. rewrite add_u64_id by lia. unfold returned. rewrite slen_app.
       by replace (start + slen line + slen chunk) with (start + (slen line + slen chunk)) by lia. }
  apply split_once_Some in Heq. subst chunk. rewrite !slen_app in Hlt.
  assert (slen LF = 1) as HLF by done. pose proof (slen_nonneg until). pose proof (slen_nonneg rest).
  assert ((if is_empty line then (until, start + slen line) else (line +:+ until, line_start b)) = (line +:+ until, start)) as ->.
  { destruct line as [|c line]; [by rewrite Z.add_0_r|]. cbn [is_empty]. f_equal. unfold line_start. rewrite Hl, Ho.
    rewrite sub_u64_id; unfold u64_range; lia. }
  rewrite slen_app. pose proof (text_lines_last (start + (slen line + slen until) + 1) "" rest) as Hlast.
  specialize (IH {| leftover_bytes := ""; current_offset := add_u64 (start + slen line) (slen until + 1) |}
    (start + (slen line + slen until) + 1) "" rest).
  destruct (text_lines _ "" rest) as [lines [start' line']]. cbn [call_all].
  destruct (f start (line +:+ until) s) as [s'|]; [|done]. cbn [returned mbind loops_bind res_bind].
  apply IH.
  - split; [done|]. cbn [current_offset]. rewrite add_u64_id by lia. change (slen "") with 0. lia.
  - lia.
  - change (slen "") with 0. lia.
  - pose proof (slen_app until (LF +:+ rest)) as Hlen. rewrite (slen_app LF rest) in Hlen. unfold slen in *. lia.
Qed.
Lemma line_consume_spec b start line chunk s :
  at_line b start line → 0 ≤ start → start + slen line + slen chunk < 2 ^ 64 →
  let '(lines, (start', line')) := text_lines start line chunk in
  consume b chunk s =
    Some (s' ← call_all lines s; Ok ({| leftover_bytes := line'; current_offset := start' + slen line' |}, s')).
Proof.
  intros Hb Hs Hlt. pose proof (consume_loop_spec (Datatypes.S (String.length chunk)) b start line chunk s Hb Hs Hlt) as Hl.
  destruct (text_lines start line chunk) as [lines [start' line']]. unfold consume. destruct Hb as [-> ->].
  rewrite (proj2 (Z.leb_le _ _)) by lia. cbn [assert returned mbind loops_bind]. apply Hl. lia.
Qed.
Lemma consume_all_spec b start line chunks s :
  at_line b start line → 0 ≤ start → start + slen line + slen (String.concat "" chunks) < 2 ^ 64 →
  let '(lines, (start', line')) := text_lines start line (String.concat "" chunks) in
  consume_all b chunks s =
    Some (s' ← call_all lines s; Ok ({| leftover_bytes := line'; current_offset := start' + slen line' |}, s')).
Proof.
  assert (∀ chunk chunks', String.concat "" (chunk :: chunks') = chunk +:+ String.concat "" chunks') as Hconcat.
  { intros chunk [|? ?]; [by rewrite app_nil|done]. }
  revert b start line s. induction chunks as [|chunk chunks IH]; intros b start line s Hb Hs Hlt.
  { cbn [consume_all call_all mbind res_bind String.concat text_lines]. destruct Hb as [<- <-]. by destruct b. }
  rewrite Hconcat in *. rewrite slen_app in Hlt. rewrite text_lines_app. cbn [consume_all].
  pose proof (slen_nonneg (String.concat "" chunks)). pose proof (text_lines_last start line chunk) as Hlast.
  pose proof (line_consume_spec b start line chunk s Hb Hs) as Hc. destruct (text_lines start line chunk) as [l1 [s1 x1]].
  rewrite Hc by lia.
  specialize (IH {| leftover_bytes := x1; current_offset := s1 + slen x1 |} s1 x1).
  destruct (text_lines s1 x1 (String.concat "" chunks)) as [l2 [s2 x2]]. rewrite call_all_app.
  destruct (call_all l1 s) as [s'|]; cbn [mbind loops_bind res_bind]; [|done]. apply IH; [done|lia|lia].
Qed.

(** However a file is cut into chunks, the function is called for exactly the
    lines of the file, in order, each with the offset at which it is in the file, a
    last line without a line break included; the offset at the end is the size of
    the file. *)
Lemma chunks_make_no_difference (chunks : list string) (s : S) :
  let text := String.concat "" chunks in
  slen text < 2 ^ 64 →
  ('(b, s1) ← consume_all default_buffer chunks s; returned (finish b s1)) =
    Some (s' ← call_all (all_lines text) s; Ok (slen text, s')).
Proof.
  intros text Hlt. pose proof (consume_all_spec default_buffer 0 "" chunks s) as Hc. fold text in Hc.
  unfold all_lines. pose proof (text_lines_last 0 "" text) as Hlast. pose proof (slen_nonneg text).
  destruct (text_lines 0 "" text) as [lines [start line]]. rewrite Hc; [|done|done|done].
  change (slen "") with 0 in Hlast. cbn [snd]. destruct line as [|c line]; cbn [is_empty].
  - destruct (call_all lines s) as [s'|]; [|done]. cbn [mbind loops_bind res_bind finish is_empty leftover_bytes current_offset].
    unfold returned. do 3 f_equal. lia.
  - rewrite call_all_app. destruct (call_all lines s) as [s'|]; [|done].
    cbn [mbind loops_bind res_bind finish is_empty leftover_bytes current_offset call_all]. unfold finish.
    cbn [leftover_bytes current_offset is_empty]. unfold line_start. cbn [leftover_bytes current_offset].
    rewrite sub_u64_id by (unfold u64_range; pose proof (slen_nonneg (String c line)); lia).
    replace (start + slen (String c line) - slen (String c line)) with start by lia.
    destruct (f start (String c line) s') as [s''|]; [|done]. cbn [mbind res_bind]. unfold returned. do 3 f_equal. lia.
Qed.
End line_buffer.

(** ** Where the lines are *)
Definition no_break : string → Prop := lacks RustStr.LF.
Definition line_at (text : string) (l : Z * string) : Prop :=
  ∃ before after, text = before +:+ l.2 +:+ after ∧ slen before = l.1 ∧ no_break l.2 ∧
    (after = "" ∨ ∃ after', after = LF +:+ after').
Lemma text_lines_at before start line text whole :
  whole = before +:+ line +:+ text → slen before = start → no_break line →
  let '(lines, (start', line')) := text_lines start line text in
  Forall (line_at whole) lines ∧ ∃ before', whole = before' +:+ line' ∧ slen before' = start' ∧ no_break line'.
Proof.
  revert before start line. induction text as [|c text IH]; intros before start line Hw Hs Hn; cbn [text_lines].
  { split; [done|]. exists before. by rewrite app_nil in Hw. }
  destruct (decide (c = RustStr.LF)) as [->|Hc].
  - specialize (IH (before +:+ line +:+ LF) (start + slen line + 1) ""). destruct (text_lines _ "" text) as [ls [s' l']].
    destruct IH as [Hls Hlast]; [| |done|].
    + rewrite Hw, !app_assoc_string. done.
    + rewrite !slen_app. change (slen LF) with 1. lia.
    + split; [|done]. constructor; [|done]. exists before, (LF +:+ text). split_and!; [done..|]. right. by exists text.
  - specialize (IH before start (line +:+ String c "")). destruct (text_lines _ _ text) as [ls [s' l']]. apply IH; [|done|].
    + by rewrite Hw, !app_assoc_string.
    + apply lacks_app. split; [done|]. by apply lacks_cons.
Qed.
Lemma all_lines_at text : Forall (line_at text) (all_lines text).
Proof.
  unfold all_lines. pose proof (text_lines_at "" 0 "" text text eq_refl eq_refl eq_refl) as Hat.
  destruct (text_lines 0 "" text) as [ls [start line]]. destruct Hat as [Hls (before & Hw & Hs & Hn)]. cbn [snd].
  destruct (is_empty line); [done|]. apply Forall_app. split; [done|]. apply Forall_singleton.
  exists before, "". simpl. rewrite app_nil. split_and!; [done..|]. by left.
Qed.

Example lines_of_chunks :
  ('(b, s) ← consume_all (λ offset line lines, Ok (push lines (offset, line))) default_buffer
      ["MODULE a"; " b" +:+ LF; "FI"; "LE 0 x" +:+ LF +:+ LF +:+ "INFO"] [];
   returned (finish (λ offset line lines, Ok (push lines (offset, line))) b s)) =
    Some (Ok (25, [(0, "MODULE a b"); (11, "FILE 0 x"); (20, ""); (21, "INFO")])).
Proof.
  rewrite (chunks_make_no_difference (λ offset line lines, Ok (push lines (offset, line)))); [by vm_compute|].
  by vm_compute.
Defined.
End LineBuffer.
