(* ===== verification/Nom.v ===== *)
(** The parser combinators of the nom crate that the program uses, as an interface
    with the documented behaviour of each, and an instance. *)
From S2P Require Import Prelude RustStr.
From stdpp Require Import options.
Open Scope Z_scope.

Module Nom.
Import RustStr.

(** A parser takes a prefix of its input. [Error] leaves room for alternatives,
    [Failure] does not. *)
Inductive IResult (A : Type) := Done (remaining : string) (value : A) | Error | Failure.
Arguments Done {A} _ _.
Arguments Error {A}.
Arguments Failure {A}.
Definition parser (A : Type) : Type := string → IResult A.

(** The operator [?] after a parser. *)
Definition and_then {A B} (x : IResult A) (k : string → A → IResult B) : IResult B :=
  match x with Done remaining value => k remaining value | Error => Error | Failure => Failure end.
(** [if let Ok(_)]. *)
Definition ok {A} (x : IResult A) : option (string * A) :=
  match x with Done remaining value => Some (remaining, value) | _ => None end.

(** The longest prefix of characters for which a condition holds, and the rest. *)
Fixpoint span (p : ascii → bool) (s : string) : string * string :=
  match s with
  | String c s' => if p c then let '(a, b) := span p s' in (String c a, b) else ("", s)
  | EmptyString => ("", "")
  end.
Definition at_least_one (x : string * string) : IResult string :=
  if is_empty x.1 then Error else Done x.2 x.1.
Definition is_space (c : ascii) : bool := bool_decide (c = " "%char) || bool_decide (c = ascii_of_nat 9).
Definition is_hex_digit (c : ascii) : bool := digit_value c <? 16.
(** One more element as long as a separator and an element follow; a separator
    that takes nothing is an error. *)
Fixpoint separated_more {A B} (fuel : nat) (sep : parser B) (p : parser A) (s : string) : IResult (list A) :=
  match fuel with
  | O => Error
  | S fuel' =>
      match sep s with
      | Error => Done s []
      | Failure => Failure
      | Done s1 _ =>
          if (String.length s1 =? String.length s)%nat then Error
          else
            match p s1 with
            | Error => Done s []
            | Failure => Failure
            | Done s2 a => and_then (separated_more fuel' sep p s2) (λ remaining l, Done remaining (a :: l))
            end
      end
  end.
(** The first parser that does not fail. *)
Fixpoint first_of {A} (l : list (parser A)) (s : string) : IResult A :=
  match l with
  | [] => Error
  | p :: l' => match p s with Error => first_of l' s | x => x end
  end.

Class Nom := {
  tag : string → parser string;
  take_while : (ascii → bool) → parser string;
  space1 : parser string;
  hex_digit1 : parser string;
  rest : parser string;
  map_res {A B} : parser A → (A → option B) → parser B;
  opt {A} : parser A → parser (option A);
  cut {A} : parser A → parser A;
  terminated {A B} : parser A → parser B → parser A;
  tuple2 {A B} : parser A → parser B → parser (A * B);
  tuple4 {A B C D} : parser A → parser B → parser C → parser D → parser (A * B * C * D);
  tuple5 {A B C D E} : parser A → parser B → parser C → parser D → parser E → parser (A * B * C * D * E);
  separated_list1 {A B} : parser B → parser A → parser (list A);
  take_until1 : string → parser string;
  take_while1 : (ascii → bool) → parser string;
  one_of : list ascii → parser ascii;
  eof : parser string;
  map {A B} : parser A → (A → B) → parser B;
  alt {A} : list (parser A) → parser A;
  preceded {A B} : parser A → parser B → parser B;
  delimited {A B C} : parser A → parser B → parser C → parser B;
  tag_spec t s : tag t s = match strip_prefix s t with Some r => Done r t | None => Error end;
  take_while_spec p s : take_while p s = Done (span p s).2 (span p s).1;
  space1_spec s : space1 s = at_least_one (span is_space s);
  hex_digit1_spec s : hex_digit1 s = at_least_one (span is_hex_digit s);
  rest_spec s : rest s = Done "" s;
  map_res_spec {A B} (p : parser A) (f : A → option B) s :
    map_res p f s = and_then (p s) (λ r a, match f a with Some b => Done r b | None => Error end);
  opt_spec {A} (p : parser A) s :
    opt p s = match p s with Done r a => Done r (Some a) | Error => Done s None | Failure => Failure end;
  cut_spec {A} (p : parser A) s : cut p s = match p s with Error => Failure | x => x end;
  terminated_spec {A B} (p : parser A) (q : parser B) s :
    terminated p q s = and_then (p s) (λ r a, and_then (q r) (λ r' _, Done r' a));
  tuple2_spec {A B} (p : parser A) (q : parser B) s :
    tuple2 p q s = and_then (p s) (λ r a, and_then (q r) (λ r' b, Done r' (a, b)));
  tuple4_spec {A B C D} (p : parser A) (q : parser B) (u : parser C) (v : parser D) s :
    tuple4 p q u v s =
      and_then (p s) (λ s1 a, and_then (q s1) (λ s2 b, and_then (u s2) (λ s3 c, and_then (v s3) (λ s4 d,
        Done s4 (a, b, c, d)))));
  tuple5_spec {A B C D E} (p : parser A) (q : parser B) (u : parser C) (v : parser D) (w : parser E) s :
    tuple5 p q u v w s =
      and_then (tuple4 p q u v s) (λ s4 x, and_then (w s4) (λ s5 e, Done s5 (x, e)));
  separated_list1_spec {A B} (sep : parser B) (p : parser A) s :
    separated_list1 sep p s =
      and_then (p s) (λ r a, and_then (separated_more (S (String.length r)) sep p r) (λ r' l, Done r' (a :: l)));
  take_until1_spec t s :
    take_until1 t s =
      match split_once s t with
      | Some (a, b) => if is_empty a then Error else Done (t +:+ b) a
      | None => Error
      end;
  take_while1_spec p s : take_while1 p s = at_least_one (span p s);
  one_of_spec l s :
    one_of l s = match s with String c s' => if decide (c ∈ l) then Done s' c else Error | EmptyString => Error end;
  eof_spec s : eof s = if is_empty s then Done s s else Error;
  map_spec {A B} (p : parser A) (f : A → B) s : map p f s = and_then (p s) (λ r a, Done r (f a));
  alt_spec {A} (l : list (parser A)) s : alt l s = first_of l s;
  preceded_spec {A B} (p : parser A) (q : parser B) s : preceded p q s = and_then (p s) (λ r _, q r);
  delimited_spec {A B C} (p : parser A) (q : parser B) (u : parser C) s :
    delimited p q u s = and_then (p s) (λ r _, and_then (q r) (λ r' b, and_then (u r') (λ r'' _, Done r'' b)))
}.

(** The behaviour can be had. *)
#[refine] Definition documented : Nom := {|
  tag t s := match strip_prefix s t with Some r => Done r t | None => Error end;
  take_while p s := Done (span p s).2 (span p s).1;
  space1 s := at_least_one (span is_space s);
  hex_digit1 s := at_least_one (span is_hex_digit s);
  rest s := Done "" s;
  map_res A B p f s := and_then (p s) (λ r a, match f a with Some b => Done r b | None => Error end);
  opt A p s := match p s with Done r a => Done r (Some a) | Error => Done s None | Failure => Failure end;
  cut A p s := match p s with Error => Failure | x => x end;
  terminated A B p q s := and_then (p s) (λ r a, and_then (q r) (λ r' _, Done r' a));
  tuple2 A B p q s := and_then (p s) (λ r a, and_then (q r) (λ r' b, Done r' (a, b)));
  tuple4 A B C D p q u v s :=
    and_then (p s) (λ s1 a, and_then (q s1) (λ s2 b, and_then (u s2) (λ s3 c, and_then (v s3) (λ s4 d,
      Done s4 (a, b, c, d)))));
  tuple5 A B C D E p q u v w s :=
    and_then (p s) (λ s1 a, and_then (q s1) (λ s2 b, and_then (u s2) (λ s3 c, and_then (v s3) (λ s4 d,
      and_then (w s4) (λ s5 e, Done s5 (a, b, c, d, e))))));
  separated_list1 A B sep p s :=
    and_then (p s) (λ r a, and_then (separated_more (S (String.length r)) sep p r) (λ r' l, Done r' (a :: l)));
  take_until1 t s :=
    match split_once s t with
    | Some (a, b) => if is_empty a then Error else Done (t +:+ b) a
    | None => Error
    end;
  take_while1 p s := at_least_one (span p s);
  one_of l s :=
    match s with String c s' => if decide (c ∈ l) then Done s' c else Error | EmptyString => Error end;
  eof s := if is_empty s then Done s s else Error;
  map A B p f s := and_then (p s) (λ r a, Done r (f a));
  alt A l s := first_of l s;
  preceded A B p q s := and_then (p s) (λ r _, q r);
  delimited A B C p q u s :=
    and_then (p s) (λ r _, and_then (q r) (λ r' b, and_then (u r') (λ r'' _, Done r'' b)))
|}.
Proof.
  all: try done.
  intros A B C D E p q u v w s. destruct (p s) as [s1 a| |]; [|done..]. cbn [and_then].
  destruct (q s1) as [s2 b| |]; [|done..]. cbn [and_then]. destruct (u s2) as [s3 c| |]; [|done..].
  cbn [and_then]. by destruct (v s3).
Defined.

(** * Results of parsers *)
Lemma ok_Some {A} (x : IResult A) r a : ok x = Some (r, a) ↔ x = Done r a.
Proof. destruct x; naive_solver. Qed.
Lemma and_then_Done {A B} (x : IResult A) (f : string → A → IResult B) r b :
  and_then x f = Done r b ↔ ∃ r' a, x = Done r' a ∧ f r' a = Done r b.
Proof. destruct x as [r' a| |]; naive_solver. Qed.
Section results.
Context `{Nom}.
Lemma cut_Done {A} (p : parser A) s r a : cut p s = Done r a → p s = Done r a.
Proof. rewrite cut_spec. by destruct (p s). Qed.
Lemma tag_Done t s r a : tag t s = Done r a ↔ s = t +:+ r ∧ a = t.
Proof.
  rewrite tag_spec. destruct (strip_prefix s t) as [r'|] eqn:Hp.
  - apply strip_prefix_Some in Hp. subst s. split; [by intros [= <- <-]|]. intros [Heq ->].
    assert (strip_prefix (t +:+ r') t = Some r) as Hr by (apply strip_prefix_Some; by rewrite Heq).
    assert (strip_prefix (t +:+ r') t = Some r') as Hr' by (by apply strip_prefix_Some). congruence.
  - split; [done|]. intros [-> ->]. assert (strip_prefix (t +:+ r) t = Some r) by (by apply strip_prefix_Some). congruence.
Qed.
Lemma terminated_Done {A B} (p : parser A) (q : parser B) s r a :
  terminated p q s = Done r a ↔ ∃ r' b, p s = Done r' a ∧ q r' = Done r b.
Proof.
  rewrite terminated_spec, and_then_Done. split.
  - intros (r1 & a1 & Hp & (r2 & b & Hq & [= <- <-])%and_then_Done). by exists r1, b.
  - intros (r1 & b & Hp & Hq). exists r1, a. split; [done|]. apply and_then_Done. by exists r, b.
Qed.
Lemma map_Done {A B} (p : parser A) (f : A → B) s r b : map p f s = Done r b ↔ ∃ a, p s = Done r a ∧ b = f a.
Proof. rewrite map_spec, and_then_Done. naive_solver. Qed.
(** The first parser that takes the input; those in front of it fail. *)
Lemma first_of_Done {A} (l : list (parser A)) s r a :
  first_of l s = Done r a ↔ ∃ i p, l !! i = Some p ∧ p s = Done r a ∧ ∀ j q, l !! j = Some q → (j < i)%nat → q s = Error.
Proof.
  induction l as [|p l IH]; [cbn; naive_solver|]. cbn [first_of]. split.
  - destruct (p s) as [r' a'| |] eqn:Hp; [intros [= <- <-]; exists 0%nat, p; split_and!; [done..|lia]| |done].
    intros (i & q & Hi & Hq & Hbefore)%IH. exists (S i), q. split_and!; [done..|]. intros [|j] q' Hj Hlt.
    + by injection Hj as <-.
    + apply (Hbefore j); [done|lia].
  - intros (i & q & Hi & Hq & Hbefore). destruct i as [|i].
    + injection Hi as <-. by rewrite Hq.
    + rewrite (Hbefore 0%nat p eq_refl) by lia. apply IH. exists i, q. split_and!; [done..|].
      intros j q' Hj Hlt. apply (Hbefore (S j)); [done|lia].
Qed.
End results.
End Nom.
