(* ===== verification/BreakpadRecords.v ===== *)
(** The records of a breakpad symbol file: the line parsers and the symbols of
    samply-symbols/src/breakpad/index.rs. *)
From S2P Require Import Prelude RustStr SymbolTable LibTable CodeIds LineBuffer Nom.
From stdpp Require Import options.
Open Scope Z_scope.

Module BreakpadRecords.
Import RustStr Nom.
Export LineBuffer(LF, slen).

(** [DebugId::from_breakpad] of the debugid crate. *)
Class BreakpadIds `{DebugIdType} := { from_breakpad : string → option DebugId }.

Inductive BreakpadParseError :=
| ParsingPublic | ParsingFile | ParsingInlineOrigin | ParsingFunc | ParsingInline | ParsingFuncLine | BadUtf8
| NoModuleInfoInSymFile.
Notation result A := (BreakpadParseError + A)%type.
(** [parser(input).map_err(|_| error)?] *)
Definition parsed {A} (x : IResult A) (error : BreakpadParseError) : result A :=
  match ok x with Some (_, a) => inr a | None => inl error end.
Definition utf8 (s : string) : result string :=
  match Utf8.from_utf8 s with Some t => inr t | None => inl BadUtf8 end.

(** * Numbers *)

(** [hex_str::<T>] for a type of [size] bytes. *)
Fixpoint hex_loop (size max_len : nat) (res : Z) (input : string) : nat * Z * string :=
  match max_len, input with
  | S max_len', String v input' =>
      let digit := digit_value v in
      if digit <? 16 then
        let '(k, res', remaining) :=
          hex_loop size max_len' (Z.lor (Z.shiftl res 4 mod 2 ^ (8 * Z.of_nat size)) digit) input' in
        (S k, res', remaining)
      else (0%nat, res, input)
  | _, _ => (0%nat, res, input)
  end.
Definition hex_str (size : nat) : parser Z := λ input,
  let '(k, res, remaining) := hex_loop size (size * 2) 0 input in
  if (k =? 0)%nat then Error else Done remaining res.
Definition hex_u32 : parser Z := hex_str 4.
Definition hex_u64 : parser Z := hex_str 8.
Fixpoint decimal_loop (max_len : nat) (res : Z) (input : string) : nat * Z * string :=
  match max_len, input with
  | S max_len', String v input' =>
      let digit := digit_value v in
      if digit <? 10 then
        let '(k, res', remaining) := decimal_loop max_len' (res * 10 + digit) input' in (S k, res', remaining)
      else (0%nat, res, input)
  | _, _ => (0%nat, res, input)
  end.
Definition decimal_u32 : parser Z := λ input,
  let '(k, res, remaining) := decimal_loop 10 0 input in
  if (k =? 0)%nat then Error else if res <? 2 ^ 32 then Done remaining res else Error.

(** * Data *)
Record SourceLine := { line_address : Z; line_size : Z; file : Z; line : Z }.
Record Inlinee := {
  depth : Z; inlinee_address : Z; inlinee_size : Z; call_file : Z; call_line : Z; origin_id : Z
}.
Record BreakpadFuncSymbolInfo := {
  func_name : string; func_size : Z; lines : list SourceLine; inlinees : list Inlinee
}.
Record BreakpadPublicSymbol := { public_offset : Z; line_length : Z }.
Record BreakpadFuncSymbol := { func_offset : Z; block_length : Z }.
Inductive BreakpadSymbolType := Public (public : BreakpadPublicSymbol) | Func (func : BreakpadFuncSymbol).

(** * Lines *)
Section lines.
Context `{BreakpadIds} `{Nom}.

Definition non_space : parser string := take_while (λ c, negb (bool_decide (c = " "%char))).
Definition record_tag (t : string) : parser string := terminated (tag t) space1.
Definition module_line : parser (string * string * DebugId * string) := λ input,
  and_then (record_tag "MODULE" input) (λ input _,
  and_then
    (cut (tuple4
       (terminated (map_res non_space Utf8.from_utf8) space1)
       (terminated (map_res non_space Utf8.from_utf8) space1)
       (terminated (map_res (map_res hex_digit1 Utf8.from_utf8) from_breakpad) space1)
       (map_res rest Utf8.from_utf8)) input) Done).
Definition info_code_id_line : parser (string * option string) := λ input,
  and_then (record_tag "INFO CODE_ID" input) (λ input _,
  and_then (map_res rest Utf8.from_utf8 input) (λ input code_id_with_name,
    match split_once code_id_with_name " " with
    | Some (code_id, name) => Done input (code_id, Some name)
    | None => Done input (code_id_with_name, None)
    end)).
Definition file_line : parser (Z * string) := λ input,
  and_then (record_tag "FILE" input) (λ input _,
  and_then (cut (tuple2 (terminated decimal_u32 space1) rest) input) Done).
Definition inline_origin_line : parser (Z * string) := λ input,
  and_then (record_tag "INLINE_ORIGIN" input) (λ input _,
  and_then (cut (tuple2 (terminated decimal_u32 space1) rest) input) Done).
Definition multiple : parser (option string) := opt (terminated (tag "m") space1).
Definition public_line : parser (Z * string) := λ input,
  and_then (record_tag "PUBLIC" input) (λ input _,
  and_then (cut (tuple4 multiple (terminated hex_u64 space1) (terminated hex_u32 space1) rest) input)
    (λ input '(_, address, _, name), Done input (wrap_u32 address, name))).
Definition func_line : parser (Z * Z * string) := λ input,
  and_then (record_tag "FUNC" input) (λ input _,
  and_then
    (cut (tuple5 multiple (terminated hex_u32 space1) (terminated hex_u32 space1) (terminated hex_u32 space1) rest)
       input)
    (λ input '(_, address, size, _, name), Done input (address, size, name))).
Definition func_line_data : parser SourceLine := λ input,
  and_then
    (tuple4 (terminated hex_u64 space1) (terminated hex_u32 space1) (terminated decimal_u32 space1) decimal_u32 input)
    (λ input '(address, size, line', file'),
       Done input {| line_address := wrap_u32 address; line_size := size; file := file'; line := line' |}).
Definition inline_address_range : parser (Z * Z) := tuple2 (terminated hex_u32 space1) hex_u32.
Definition inline_line : parser (list Inlinee) := λ input,
  and_then (record_tag "INLINE" input) (λ input _,
  and_then
    (cut (tuple4 (terminated decimal_u32 space1) (terminated decimal_u32 space1) (terminated decimal_u32 space1)
            (terminated decimal_u32 space1)) input)
    (λ input '(depth', call_line', call_file', origin_id'),
  and_then (cut (separated_list1 space1 inline_address_range) input) (λ input address_ranges,
    Done input
      ((λ '(address, size),
         {| depth := depth'; inlinee_address := address; inlinee_size := size; call_file := call_file';
            call_line := call_line'; origin_id := origin_id' |}) <$> address_ranges)))).

(** * Symbols *)

(** Drops the carriage returns at the end. *)
Fixpoint trim_cr (s : string) : string :=
  match s with
  | EmptyString => ""
  | String c s' =>
      match trim_cr s' with
      | EmptyString => if decide (c = CR) then "" else String c ""
      | t => String c t
      end
  end.
Definition read_line_and_advance (input : string) : string * string :=
  match split_once input LF with
  | Some (line', input') => (trim_cr line', input')
  | None => (trim_cr input, "")
  end.
Definition parse_public (input : string) : result string :=
  match parsed (public_line input) ParsingPublic with
  | inl e => inl e
  | inr (_, name) => utf8 name
  end.
(** The loop over the lines of a block. *)
Fixpoint parse_block (fuel : nat) (input : string) (lines' : list SourceLine) (inlinees' : list Inlinee)
    : option (result (list SourceLine * list Inlinee)) :=
  match fuel with
  | O => None
  | S fuel' =>
      if is_empty input then Some (inr (lines', inlinees'))
      else
        let '(line', input') := read_line_and_advance input in
        if starts_with line' "INLINE " then
          match parsed (inline_line line') ParsingInline with
          | inl e => Some (inl e)
          | inr new_inlinees => parse_block fuel' input' lines' (inlinees' ++ new_inlinees)
          end
        else
          match ok (func_line_data line') with
          | Some (_, line_data) => parse_block fuel' input' (push lines' line_data) inlinees'
          | None => parse_block fuel' input' lines' inlinees'
          end
  end.
Definition inlinee_leb (a b : Inlinee) : bool :=
  (depth a <? depth b) || (depth a =? depth b) && (inlinee_address a <=? inlinee_address b).
(** A line takes at least one byte. [None] would be a loop without end. *)
Definition parse_func (input : string) : option (result BreakpadFuncSymbolInfo) :=
  let '(first_line, input') := read_line_and_advance input in
  match parsed (func_line first_line) ParsingFunc with
  | inl e => Some (inl e)
  | inr (_, size, name) =>
      block ← parse_block (S (String.length input')) input' [] [];
      Some match block with
           | inl e => inl e
           | inr (lines', inlinees') =>
               match utf8 name with
               | inl e => inl e
               | inr name' =>
                   inr {| func_name := name'; func_size := size; lines := lines';
                          inlinees := stable_sort inlinee_leb inlinees' |}
               end
           end
  end.
End lines.
End BreakpadRecords.
