(* ===== verification/BreakpadIndex.v ===== *)
(** The index of a breakpad symbol file and its incremental parser:
    samply-symbols/src/breakpad/index.rs. *)
From S2P Require Import Prelude RustStr SymbolTable LibTable CodeIds LineBuffer Nom BreakpadRecords.
From stdpp Require Import options.
Open Scope Z_scope.

Module BreakpadIndex.
Import RustStr Nom BreakpadRecords.

Notation result A := (BreakpadParseError + A)%type.

(** * Files and inline origins *)

(** The trait [FileOrInlineOrigin]. *)
Class FileOrInlineOrigin (I : Type) := {
  item_index : I → Z;
  offset_and_length : I → Z * Z;
  parse_item : string → result string
}.
Record BreakpadFileLine := { file_index : Z; file_line_offset : Z; file_line_length : Z }.
Record BreakpadInlineOriginLine := { origin_index : Z; origin_line_offset : Z; origin_line_length : Z }.
#[global] Instance BreakpadFileLine_eq_dec : EqDecision BreakpadFileLine.
Proof. solve_decision. Defined.
#[global] Instance BreakpadInlineOriginLine_eq_dec : EqDecision BreakpadInlineOriginLine.
Proof. solve_decision. Defined.
#[global] Instance file_item `{Nom} : FileOrInlineOrigin BreakpadFileLine := {|
  item_index := file_index;
  offset_and_length item := (file_line_offset item, file_line_length item);
  parse_item input :=
    match parsed (file_line input) ParsingFile with inl e => inl e | inr (_, name) => utf8 name end
|}.
#[global] Instance inline_origin_item `{Nom} : FileOrInlineOrigin BreakpadInlineOriginLine := {|
  item_index := origin_index;
  offset_and_length item := (origin_line_offset item, origin_line_length item);
  parse_item input :=
    match parsed (inline_origin_line input) ParsingFile with inl e => inl e | inr (_, name) => utf8 name end
|}.

Section items.
Context {I : Type} `{FileOrInlineOrigin I}.

(** [ItemMap]: a sorted list. *)
Record ItemMap := { inner : list I }.
Definition from_sorted_vec (l : list I) : ItemMap := {| inner := l |}.
Definition get_vec_index (m : ItemMap) (index' : Z) : option nat :=
  match SymbolTable.binary_search_by_key item_index (inner m) index' with
  | SymbolTable.Found i => Some i
  | SymbolTable.NotFound _ => None
  end.
Definition get (m : ItemMap) (index' : Z) : res (option I) :=
  match get_vec_index m index' with
  | Some i => item ← index (inner m) i; Ok (Some item)
  | None => Ok None
  end.

(** [SortedVecBuilder] *)
Record SortedVecBuilder := { items : list I; last_sorted_index : option Z; is_sorted : bool }.
Definition new_builder : SortedVecBuilder := {| items := []; last_sorted_index := None; is_sorted := true |}.
Definition push_item (b : SortedVecBuilder) (item : I) : SortedVecBuilder :=
  let pushed last sorted := {| items := push (items b) item; last_sorted_index := last; is_sorted := sorted |} in
  if is_sorted b then
    match last_sorted_index b with
    | None => pushed (Some (item_index item)) true
    | Some last_index =>
        if last_index <? item_index item then pushed (Some (item_index item)) true
        else if item_index item =? last_index then b
        else pushed (last_sorted_index b) false
    end
  else pushed (last_sorted_index b) false.
Definition into_sorted_vec (b : SortedVecBuilder) : list I :=
  if is_sorted b then items b
  else SymbolTable.dedup_by_key item_index (stable_sort (λ x y, item_index x <=? item_index y) (items b)).
End items.
Arguments ItemMap : clear implicits.
Arguments SortedVecBuilder : clear implicits.

(** * The index *)
Section index.
Context `{BreakpadIds} `{Nom} `{CodeIds.UuidOps}.

Record BreakpadIndex := {
  module_info_bytes : string;
  debug_name : string;
  debug_id : DebugId;
  arch : string;
  os : string;
  name : option string;
  code_id : option CodeIds.CodeId;
  symbol_addresses : list Z;
  symbol_offsets : list BreakpadSymbolType;
  files : ItemMap BreakpadFileLine;
  inline_origins : ItemMap BreakpadInlineOriginLine
}.
(** The ID and the operating system, the architecture and the debug name. *)
Definition ModuleInfo : Type := DebugId * string * string * string.
Record BreakpadIndexParserInner := {
  parser_info_bytes : string;
  module_info : option ModuleInfo;
  parser_name : option string;
  parser_code_id : option CodeIds.CodeId;
  symbols : list (Z * BreakpadSymbolType);
  parser_files : SortedVecBuilder BreakpadFileLine;
  parser_origins : SortedVecBuilder BreakpadInlineOriginLine;
  pending_func_block : option (Z * Z)
}.
Definition new_inner : BreakpadIndexParserInner :=
  {| parser_info_bytes := ""; module_info := None; parser_name := None; parser_code_id := None; symbols := [];
     parser_files := new_builder; parser_origins := new_builder; pending_func_block := None |}.

(** ** Changed members *)
Definition with_info (s : BreakpadIndexParserInner) (bytes : string) (info : option ModuleInfo)
    (name' : option string) (code_id' : option CodeIds.CodeId) : BreakpadIndexParserInner :=
  {| parser_info_bytes := bytes; module_info := info; parser_name := name'; parser_code_id := code_id';
     symbols := symbols s; parser_files := parser_files s; parser_origins := parser_origins s;
     pending_func_block := pending_func_block s |}.
Definition with_items (s : BreakpadIndexParserInner) (files' : SortedVecBuilder BreakpadFileLine)
    (origins : SortedVecBuilder BreakpadInlineOriginLine) : BreakpadIndexParserInner :=
  {| parser_info_bytes := parser_info_bytes s; module_info := module_info s; parser_name := parser_name s;
     parser_code_id := parser_code_id s; symbols := symbols s; parser_files := files'; parser_origins := origins;
     pending_func_block := pending_func_block s |}.
Definition with_symbols (s : BreakpadIndexParserInner) (symbols' : list (Z * BreakpadSymbolType))
    (pending : option (Z * Z)) : BreakpadIndexParserInner :=
  {| parser_info_bytes := parser_info_bytes s; module_info := module_info s; parser_name := parser_name s;
     parser_code_id := parser_code_id s; symbols := symbols'; parser_files := parser_files s;
     parser_origins := parser_origins s; pending_func_block := pending |}.

(** ** Lines *)
Definition finish_pending_func_block (s : BreakpadIndexParserInner) (non_func_line_start_offset : Z)
    : BreakpadIndexParserInner :=
  match pending_func_block s with
  | Some (address, file_offset) =>
      let block_length' := wrap_u32 (sub_u64 non_func_line_start_offset file_offset) in
      with_symbols s
        (push (symbols s) (address, Func {| func_offset := file_offset; block_length := block_length' |})) None
  | None => s
  end.
Definition info_of (line : string) : option ModuleInfo :=
  match ok (module_line line) with
  | Some (_, (os', arch', debug_id', debug_name')) => Some (debug_id', os', arch', debug_name')
  | None => None
  end.
Definition process_info (s : BreakpadIndexParserInner) (input : string) : res BreakpadIndexParserInner :=
  let bytes := parser_info_bytes s +:+ LF +:+ input in
  match ok (info_code_id_line input) with
  | Some (_, (code_id', name')) =>
      c ← CodeIds.from_str code_id';
      Ok (with_info s bytes (module_info s) name' c)
  | None => Ok (with_info s bytes (module_info s) (parser_name s) (parser_code_id s))
  end.
(** A line behind the MODULE line. *)
Definition process_record (s : BreakpadIndexParserInner) (file_offset : Z) (input : string)
    : res BreakpadIndexParserInner :=
  let line_length' := wrap_u32 (slen input) in
  match ok (file_line input) with
  | Some (_, (index', _)) =>
      Ok (with_items s
            (push_item (parser_files s)
               {| file_index := index'; file_line_offset := file_offset; file_line_length := line_length' |})
            (parser_origins s))
  | None =>
  match ok (inline_origin_line input) with
  | Some (_, (index', _)) =>
      Ok (with_items s (parser_files s)
            (push_item (parser_origins s)
               {| origin_index := index'; origin_line_offset := file_offset; origin_line_length := line_length' |}))
  | None =>
  match ok (public_line input) with
  | Some (_, (address, _)) =>
      let s1 := finish_pending_func_block s file_offset in
      Ok (with_symbols s1
            (push (symbols s1) (address, Public {| public_offset := file_offset; line_length := line_length' |}))
            (pending_func_block s1))
  | None =>
  match ok (func_line input) with
  | Some (_, (address, _, _)) =>
      let s1 := finish_pending_func_block s file_offset in
      Ok (with_symbols s1 (symbols s1) (Some (address, file_offset)))
  | None =>
      if starts_with input "INFO " then process_info (finish_pending_func_block s file_offset) input
      else if starts_with input "STACK " then Ok (finish_pending_func_block s file_offset)
      else Ok s
  end end end end.
Definition process_line (file_offset : Z) (line : string) (s : BreakpadIndexParserInner)
    : res BreakpadIndexParserInner :=
  let input := trim_cr line in
  match module_info s with
  | None => Ok (with_info s input (info_of input) (parser_name s) (parser_code_id s))
  | Some _ => process_record s file_offset input
  end.

(** ** The end *)
Definition finish_inner (s : BreakpadIndexParserInner) (file_end_offset : Z) : result BreakpadIndex :=
  let s1 := finish_pending_func_block s file_end_offset in
  let sorted := SymbolTable.dedup_by_key fst (stable_sort (λ x y, x.1 <=? y.1) (symbols s1)) in
  match module_info s1 with
  | None => inl NoModuleInfoInSymFile
  | Some (debug_id', os', arch', debug_name') =>
      inr {| module_info_bytes := parser_info_bytes s1; debug_name := debug_name'; debug_id := debug_id';
             arch := arch'; os := os'; name := parser_name s1; code_id := parser_code_id s1;
             symbol_addresses := sorted.*1; symbol_offsets := sorted.*2;
             files := from_sorted_vec (into_sorted_vec (parser_files s1));
             inline_origins := from_sorted_vec (into_sorted_vec (parser_origins s1)) |}
  end.

(** * The parser *)
Record BreakpadIndexParser := { line_buffer : LineBuffer.LineBuffer; parser_inner : BreakpadIndexParserInner }.
Definition new_parser : BreakpadIndexParser :=
  {| line_buffer := LineBuffer.default_buffer; parser_inner := new_inner |}.
Definition consume (p : BreakpadIndexParser) (chunk : string) : loops BreakpadIndexParser :=
  '(buffer, s) ← LineBuffer.consume process_line (line_buffer p) chunk (parser_inner p);
  returned (Ok {| line_buffer := buffer; parser_inner := s |}).
Definition finish (p : BreakpadIndexParser) : res (result BreakpadIndex) :=
  '(final_offset, s) ← LineBuffer.finish process_line (line_buffer p) (parser_inner p);
  Ok (finish_inner s final_offset).
Fixpoint consume_chunks (p : BreakpadIndexParser) (chunks : list string) : loops BreakpadIndexParser :=
  match chunks with
  | [] => returned (Ok p)
  | chunk :: chunks' => p' ← consume p chunk; consume_chunks p' chunks'
  end.
Definition index_chunks (chunks : list string) : loops (result BreakpadIndex) :=
  p ← consume_chunks new_parser chunks; returned (finish p).
End index.
End BreakpadIndex.
