(* ===== verification/IndexedRecords.v ===== *)
(** What the index of a breakpad symbol file finds: the parser of BreakpadIndex.v
    against the lines of the file. *)
From S2P Require Import Prelude RustStr SymbolTable LibTable CodeIds LineBuffer Nom BreakpadRecords BreakpadIndex.
From stdpp Require Import options.
Open Scope Z_scope.

Module IndexedRecords.
Import RustStr Nom BreakpadRecords BreakpadIndex.

(** * The first item with a key *)
Section first.
Context {A : Type} (key : A → Z).
Notation sorted l := (StronglySorted (λ x y, key x < key y) l).
Notation leb := (λ x y, key x <=? key y).

Definition first (k : Z) (l : list A) : option A := find (λ x, key x =? k) l.
Lemma first_cons k x l : first k (x :: l) = if key x =? k then Some x else first k l.
Proof. done. Qed.
Lemma first_app k l1 l2 : first k (l1 ++ l2) = match first k l1 with Some x => Some x | None => first k l2 end.
Proof. induction l1 as [|x l1 IH]; [done|]. cbn [app]. rewrite !first_cons, IH. by destruct (key x =? k). Qed.
Lemma first_Some k l x : first k l = Some x → x ∈ l ∧ key x = k.
Proof.
  intros Hf. apply find_some in Hf as [Hin Hk]. apply Z.eqb_eq in Hk. by rewrite list_elem_of_In.
Qed.
Lemma first_None k l : first k l = None ↔ ∀ x, x ∈ l → key x ≠ k.
Proof.
  induction l as [|x l IH]; [split; [intros _ x Hx; by apply elem_of_nil in Hx|done]|].
  rewrite first_cons. destruct (Z.eqb_spec (key x) k) as [Heq|Hne].
  - split; [done|]. intros Hx. by destruct (Hx x); [left|].
  - rewrite IH. split; [intros Hl y [->|Hy]%elem_of_cons; [done|by apply Hl]|]. intros Hl y Hy. apply Hl. by right.
Qed.
Lemma first_elem l x : sorted l → x ∈ l ↔ first (key x) l = Some x.
Proof.
  intros Hs. split; [|by intros [? _]%first_Some]. induction Hs as [|y l Hl IH Hy]; [by intros ?%elem_of_nil|].
  rewrite first_cons. intros [->|Hx]%elem_of_cons; [by rewrite Z.eqb_refl|].
  rewrite Forall_forall in Hy. specialize (Hy x Hx). simpl in Hy.
  destruct (Z.eqb_spec (key y) (key x)); [lia|]. by apply IH.
Qed.
(** Two sorted lists with the same first items are the same, but only what they
    find matters here. *)
Lemma first_insert k x l : first k (insert_sorted leb x l) = if key x =? k then Some x else first k l.
Proof.
  induction l as [|y l IH]; [done|]. cbn [insert_sorted]. destruct (Z.leb_spec (key x) (key y)); [done|].
  rewrite !first_cons, IH. destruct (Z.eqb_spec (key y) k), (Z.eqb_spec (key x) k); try done. lia.
Qed.
Lemma first_stable_sort k l : first k (stable_sort leb l) = first k l.
Proof. unfold stable_sort. induction l as [|x l IH]; [done|]. cbn [foldr]. by rewrite first_insert, IH. Qed.
Lemma first_dedup_from k last l : key last ≠ k → first k (SymbolTable.dedup_from key last l) = first k l.
Proof.
  revert last. induction l as [|x l IH]; intros last Hk; [done|]. cbn [SymbolTable.dedup_from].
  destruct (Z.eqb_spec (key x) (key last)) as [Heq|Hne]; rewrite ?first_cons.
  - rewrite IH by done. destruct (Z.eqb_spec (key x) k); [lia|done].
  - destruct (Z.eqb_spec (key x) k); [done|]. by apply IH.
Qed.
Lemma first_dedup k l : first k (SymbolTable.dedup_by_key key l) = first k l.
Proof.
  destruct l as [|x l]; [done|]. cbn [SymbolTable.dedup_by_key]. rewrite !first_cons.
  destruct (Z.eqb_spec (key x) k); [done|]. by apply first_dedup_from.
Qed.
Lemma dedup_from_above last l :
  StronglySorted (λ x y, leb x y = true) (last :: l) →
  sorted (SymbolTable.dedup_from key last l) ∧
  Forall (λ x, key last < key x) (SymbolTable.dedup_from key last l).
Proof.
  revert last. induction l as [|x l IH]; intros last Hs; cbn [SymbolTable.dedup_from]; [by repeat constructor|].
  apply StronglySorted_cons in Hs as [Hlast Hs]. apply Forall_cons in Hlast as [Hx Hlast]. apply Z.leb_le in Hx.
  destruct (Z.eqb_spec (key x) (key last)) as [Heq|Hne].
  - rewrite <-Heq. destruct (IH x Hs) as [Hd Hab].
    assert (SymbolTable.dedup_from key last l = SymbolTable.dedup_from key x l) as ->; [|done].
    clear -Heq. induction l as [|y l IH]; [done|]. cbn [SymbolTable.dedup_from]. rewrite Heq.
    destruct (_ =? _); [by rewrite IH|done].
  - destruct (IH x Hs) as [Hd Hab]. split; [by constructor|]. constructor; [lia|].
    eapply Forall_impl; [exact Hab|]. simpl. lia.
Qed.
Lemma dedup_sorted l : sorted (SymbolTable.dedup_by_key key (stable_sort leb l)).
Proof.
  assert (StronglySorted (λ x y, leb x y = true) (stable_sort leb l)) as Hs.
  { apply stable_sort_sorted.
    - intros x y z ?%Z.leb_le ?%Z.leb_le. apply Z.leb_le. lia.
    - intros x y. rewrite !Z.leb_le. lia. }
  destruct (stable_sort leb l) as [|x l']; [constructor|]. cbn [SymbolTable.dedup_by_key].
  destruct (dedup_from_above x l' Hs) as [Hd Hab]. by constructor.
Qed.
End first.

(** * Items *)
Section items.
Context {I : Type} `{FileOrInlineOrigin I}.
Notation sorted l := (StronglySorted (λ x y, item_index x < item_index y) l).

Lemma get_first (m : ItemMap I) k : sorted (inner m) → get m k = Ok (first item_index k (inner m)).
Proof.
  intros Hs. unfold get, get_vec_index. pose proof (SymbolTable.binary_search_by_key_spec item_index (inner m) k Hs) as Hb.
  destruct (SymbolTable.binary_search_by_key _ _ _) as [i|i].
  - destruct Hb as (x & Hx & Hk). unfold index. rewrite Hx. cbn [unwrap mbind res_bind].
    rewrite <-Hk, (proj1 (first_elem item_index (inner m) x Hs)); [done|]. by eapply list_elem_of_lookup_2.
  - destruct Hb as [_ Hb]. rewrite (proj2 (first_None item_index k (inner m))); [done|].
    intros x [j Hj]%list_elem_of_lookup. destruct (Hb j x Hj) as [Hlt Hgt]. destruct (decide (j < i)%nat); [|lia].
    specialize (Hlt l). lia.
Qed.
(** A builder finds the first of the items that were pushed. *)
Record builder_ok (b : SortedVecBuilder I) (l : list I) : Prop := {
  builder_first : ∀ k, first item_index k (items b) = first item_index k l;
  builder_sorted : is_sorted b = true → sorted (items b) ∧ last_sorted_index b = item_index <$> last (items b)
}.
Lemma new_builder_ok : builder_ok new_builder [].
Proof. split; [done|]. intros _. split; [constructor|done]. Qed.
Lemma push_item_ok b l x : builder_ok b l → builder_ok (push_item b x) (l ++ [x]).
Proof.
  intros [Hf Hs]. unfold push_item.
  assert (∀ k, first item_index k (push (items b) x) = first item_index k (l ++ [x])) as Hpush.
  { intros k. unfold push. by rewrite !first_app, Hf. }
  destruct (is_sorted b) eqn:Hsorted; [|split; [exact Hpush|done]].
  destruct (Hs eq_refl) as [Hsort Hlast]. destruct (last_sorted_index b) as [j|] eqn:Hj.
  2: { split; [exact Hpush|]. intros _. simpl. destruct (items b) as [|y t]; [|rewrite last_cons in Hlast; by destruct (last t)].
       split; [by repeat constructor|done]. }
  symmetry in Hlast. apply fmap_Some in Hlast as (y & Hy & ->). apply last_Some in Hy as [t Ht].
  destruct (Z.ltb_spec (item_index y) (item_index x)) as [Hlt|Hge]; [|destruct (Z.eqb_spec (item_index x) (item_index y))].
  - split; [exact Hpush|]. intros _. simpl. unfold push. rewrite last_snoc. split; [|done].
    pose proof Hsort as Hsort'. rewrite Ht in Hsort' |- *. apply StronglySorted_app in Hsort' as (Hty & _ & _).
    rewrite <-Ht. apply StronglySorted_app. split_and!; [|done|by repeat constructor].
    intros u v Hu ->%list_elem_of_singleton. rewrite Ht in Hu.
    apply elem_of_app in Hu as [Hu| ->%list_elem_of_singleton]; [|done].
    specialize (Hty u y Hu ltac:(by left)). simpl in Hty. lia.
  - split; [|intros _; destruct (Hs eq_refl); split; [done|by rewrite Hj]]. intros k. rewrite Hf, first_app. destruct (first item_index k l) eqn:Hk; [done|].
    rewrite <-Hf in Hk. rewrite first_None in Hk. symmetry. apply first_None. intros z ->%list_elem_of_singleton.
    rewrite e. apply Hk. rewrite Ht. apply elem_of_app. right. by left.
  - split; [exact Hpush|done].
Qed.
Lemma into_sorted_vec_ok b l k :
  builder_ok b l → sorted (into_sorted_vec b) ∧ first item_index k (into_sorted_vec b) = first item_index k l.
Proof.
  intros [Hf Hs]. unfold into_sorted_vec. destruct (is_sorted b); [split; [by apply Hs|apply Hf]|].
  split; [apply dedup_sorted|]. by rewrite first_dedup, first_stable_sort.
Qed.
End items.

(** * The records of a file *)
Section records.
Context `{BreakpadIds} `{Nom} `{CodeIds.UuidOps}.

Inductive record :=
| FileRecord (index : Z) | OriginRecord (index : Z) | PublicRecord (address : Z) | FuncRecord (address : Z)
| InfoRecord | StackRecord | OtherRecord.
Definition record_of (input : string) : record :=
  match ok (file_line input) with Some (_, (i, _)) => FileRecord i | None =>
  match ok (inline_origin_line input) with Some (_, (i, _)) => OriginRecord i | None =>
  match ok (public_line input) with Some (_, (a, _)) => PublicRecord a | None =>
  match ok (func_line input) with Some (_, (a, _, _)) => FuncRecord a | None =>
    if starts_with input "INFO " then InfoRecord
    else if starts_with input "STACK " then StackRecord else OtherRecord
  end end end end.
(** A record that ends the block of a function. *)
Definition ends_block (r : record) : bool :=
  match r with PublicRecord _ | FuncRecord _ | InfoRecord | StackRecord => true | _ => false end.

Notation line := (Z * string)%type.
Definition record_at (l : line) : record := record_of (trim_cr l.2).
Definition trimmed_length (l : line) : Z := wrap_u32 (slen (trim_cr l.2)).
Definition files_of (ls : list line) : list BreakpadFileLine :=
  omap (λ l, match record_at l with
             | FileRecord i =>
                 Some {| file_index := i; file_line_offset := l.1; file_line_length := trimmed_length l |}
             | _ => None
             end) ls.
Definition origins_of (ls : list line) : list BreakpadInlineOriginLine :=
  omap (λ l, match record_at l with
             | OriginRecord i =>
                 Some {| origin_index := i; origin_line_offset := l.1; origin_line_length := trimmed_length l |}
             | _ => None
             end) ls.
(** Where a block that is open before [ls] ends. *)
Fixpoint block_end (ls : list line) (file_end : Z) : Z :=
  match ls with
  | [] => file_end
  | l :: ls' => if ends_block (record_at l) then l.1 else block_end ls' file_end
  end.
Definition func_block (address offset end_offset : Z) : Z * BreakpadSymbolType :=
  (address, Func {| func_offset := offset; block_length := wrap_u32 (end_offset - offset) |}).
Fixpoint symbols_of (ls : list line) (file_end : Z) : list (Z * BreakpadSymbolType) :=
  match ls with
  | [] => []
  | l :: ls' =>
      match record_at l with
      | PublicRecord a => (a, Public {| public_offset := l.1; line_length := trimmed_length l |}) :: symbols_of ls' file_end
      | FuncRecord a => func_block a l.1 (block_end ls' file_end) :: symbols_of ls' file_end
      | _ => symbols_of ls' file_end
      end
  end.
Definition is_info (r : record) : bool := match r with InfoRecord => true | _ => false end.
Definition info_lines (ls : list line) : list string :=
  omap (λ l, if is_info (record_at l) then Some (trim_cr l.2) else None) ls.
(** The code IDs, each with the name behind it. *)
Definition code_ids_of (ls : list line) : list (string * option string) :=
  omap (λ input, snd <$> ok (info_code_id_line input)) (info_lines ls).
Fixpoint after_module (ls : list line) : option (string * ModuleInfo * list line) :=
  match ls with
  | [] => None
  | l :: ls' =>
      match info_of (trim_cr l.2) with
      | Some info => Some (trim_cr l.2, info, ls')
      | None => after_module ls'
      end
  end.
Definition joined (bytes : string) (infos : list string) : string := foldl (λ s i, s +:+ LF +:+ i) bytes infos.

#[local] Arguments files_of : simpl never.
#[local] Arguments origins_of : simpl never.
#[local] Arguments info_lines : simpl never.
#[local] Arguments code_ids_of : simpl never.

(** ** The lines behind the MODULE line *)
Definition pending_symbol (s : BreakpadIndexParserInner) (end_offset : Z) : list (Z * BreakpadSymbolType) :=
  match pending_func_block s with Some (a, o) => [func_block a o end_offset] | None => [] end.
(** A block that is open starts in front of the next line. *)
Definition open_before (s : BreakpadIndexParserInner) (offset : Z) : Prop :=
  match pending_func_block s with Some (_, o) => 0 ≤ o ≤ offset | None => True end.
Definition process_lines : list line → BreakpadIndexParserInner → res BreakpadIndexParserInner :=
  LineBuffer.call_all process_line.

Lemma finish_pending_spec s offset :
  open_before s offset → offset < 2 ^ 64 →
  finish_pending_func_block s offset = with_symbols s (symbols s ++ pending_symbol s offset) None.
Proof.
  unfold open_before, finish_pending_func_block, pending_symbol, func_block.
  destruct s as [? ? ? ? syms ? ? [[a o]|]]; cbn; intros Ho Hlt.
  - rewrite sub_u64_id by (unfold u64_range; lia). done.
  - unfold with_symbols. cbn. by rewrite app_nil_r.
Qed.

(** What the parser has done with [ls]. *)
Record processed (s : BreakpadIndexParserInner) (ls : list line) (s' : BreakpadIndexParserInner) : Prop := {
  processed_info : module_info s' = module_info s;
  processed_bytes : parser_info_bytes s' = joined (parser_info_bytes s) (info_lines ls);
  processed_id : ∃ ids, Forall2 (λ p c, CodeIds.from_str p.1 = Ok c) (code_ids_of ls) ids ∧
                        parser_code_id s' = default (parser_code_id s) (last ids);
  processed_name : parser_name s' = default (parser_name s) (snd <$> last (code_ids_of ls));
  processed_files l : builder_ok (parser_files s) l → builder_ok (parser_files s') (l ++ files_of ls);
  processed_origins l : builder_ok (parser_origins s) l → builder_ok (parser_origins s') (l ++ origins_of ls);
  processed_symbols e :
    symbols s' ++ pending_symbol s' e = symbols s ++ pending_symbol s (block_end ls e) ++ symbols_of ls e
}.
Lemma code_ids_of_app l1 l2 : code_ids_of (l1 ++ l2) = code_ids_of l1 ++ code_ids_of l2.
Proof. unfold code_ids_of, info_lines. by rewrite !omap_app. Qed.
Lemma processed_refl s : processed s [] s.
Proof.
  split; try done.
  - by exists [].
  - intros l. by rewrite app_nil_r.
  - intros l. by rewrite app_nil_r.
  - intros e. by rewrite app_nil_r.
Qed.
Lemma default_last_app {A} (d : A) l1 l2 : default d (last (l1 ++ l2)) = default (default d (last l1)) (last l2).
Proof. rewrite last_app. by destruct (last l2). Qed.
Lemma processed_cons s l ls s1 s2 : processed s [l] s1 → processed s1 ls s2 → processed s (l :: ls) s2.
Proof.
  intros [Hi1 Hb1 (ids1 & Hids1 & Hc1) Hn1 Hf1 Ho1 Hs1] [Hi2 Hb2 (ids2 & Hids2 & Hc2) Hn2 Hf2 Ho2 Hs2].
  change (l :: ls) with ([l] ++ ls). split.
  - by rewrite Hi2.
  - rewrite Hb2, Hb1. unfold joined, info_lines. by rewrite omap_app, foldl_app.
  - exists (ids1 ++ ids2). rewrite code_ids_of_app. split; [by apply Forall2_app|]. by rewrite Hc2, Hc1, default_last_app.
  - rewrite Hn2, Hn1, code_ids_of_app, <-!fmap_last, fmap_app. by rewrite default_last_app.
  - intros k Hk. unfold files_of. rewrite omap_app, (assoc_L (++)). by apply Hf2, Hf1.
  - intros k Hk. unfold origins_of. rewrite omap_app, (assoc_L (++)). by apply Ho2, Ho1.
  - intros e. rewrite Hs2, (assoc_L (++)), Hs1. cbn [block_end symbols_of app].
    destruct (record_at l); cbn [app ends_block]; rewrite <-?(assoc_L (++)); done.
Qed.
Lemma process_info_ok s l :
  record_at l = InfoRecord → pending_func_block s = None →
  match process_info s (trim_cr l.2) with
  | Ok s' => processed s [l] s' ∧ pending_func_block s' = None
  | Panic => ∃ p, p ∈ code_ids_of [l] ∧ CodeIds.from_str p.1 = Panic
  end.
Proof.
  intros Hr Hp. unfold process_info.
  assert (info_lines [l] = [trim_cr l.2]) as Hl by (unfold info_lines; cbn; by rewrite Hr).
  assert (code_ids_of [l] = omap (λ input, snd <$> ok (info_code_id_line input)) [trim_cr l.2]) as Hids.
  { unfold code_ids_of. by rewrite Hl. }
  cbn in Hids. destruct (ok (info_code_id_line _)) as [[r [c n]]|]; cbn in Hids |- *.
  - destruct (CodeIds.from_str c) as [id|] eqn:Hc; cbn [mbind res_bind].
    + split; [|done]. split; try done; cbn.
      * by rewrite Hl.
      * exists [id]. rewrite Hids. by repeat constructor.
      * by rewrite Hids.
      * intros k Hk. unfold files_of. cbn. rewrite Hr. by rewrite app_nil_r.
      * intros k Hk. unfold origins_of. cbn. rewrite Hr. by rewrite app_nil_r.
      * intros e. unfold pending_symbol. cbn. by rewrite Hp, Hr.
    + exists (c, n). rewrite Hids. split; [by left|done].
  - split; [|done]. split; try done; cbn.
    * by rewrite Hl.
    * exists []. rewrite Hids. by repeat constructor.
    * by rewrite Hids.
    * intros k Hk. unfold files_of. cbn. rewrite Hr. by rewrite app_nil_r.
    * intros k Hk. unfold origins_of. cbn. rewrite Hr. by rewrite app_nil_r.
    * intros e. unfold pending_symbol. cbn. by rewrite Hp, Hr.
Qed.
Lemma processed_finish s l ls s' :
  open_before s l.1 → l.1 < 2 ^ 64 → ends_block (record_at l) = true →
  processed (finish_pending_func_block s l.1) (l :: ls) s' → processed s (l :: ls) s'.
Proof.
  intros Ho Hlt He. rewrite finish_pending_spec by done. intros [Hi Hb Hid Hn Hf Horig Hs]. split; try done.
  intros e. rewrite Hs. cbn [block_end]. rewrite He. cbn. by rewrite <-(assoc_L (++)).
Qed.
(** What a line does depends on its record. *)
Lemma process_record_kind s l :
  process_record s l.1 (trim_cr l.2) =
    let s1 := finish_pending_func_block s l.1 in
    match record_at l with
    | FileRecord i =>
        Ok (with_items s
              (push_item (parser_files s)
                 {| file_index := i; file_line_offset := l.1; file_line_length := trimmed_length l |})
              (parser_origins s))
    | OriginRecord i =>
        Ok (with_items s (parser_files s)
              (push_item (parser_origins s)
                 {| origin_index := i; origin_line_offset := l.1; origin_line_length := trimmed_length l |}))
    | PublicRecord a =>
        Ok (with_symbols s1
              (push (symbols s1) (a, Public {| public_offset := l.1; line_length := trimmed_length l |}))
              (pending_func_block s1))
    | FuncRecord a => Ok (with_symbols s1 (symbols s1) (Some (a, l.1)))
    | InfoRecord => process_info s1 (trim_cr l.2)
    | StackRecord => Ok s1
    | OtherRecord => Ok s
    end.
Proof.
  unfold process_record, record_at, record_of.
  destruct (ok (file_line _)) as [[? [? ?]]|]; [done|]. destruct (ok (inline_origin_line _)) as [[? [? ?]]|]; [done|].
  destruct (ok (public_line _)) as [[? [? ?]]|]; [done|]. destruct (ok (func_line _)) as [[? [[? ?] ?]]|]; [done|].
  destruct (starts_with _ "INFO "); [done|]. by destruct (starts_with _ "STACK ").
Qed.
Ltac one_record Hr Hp :=
  split; [done|..]; unfold code_ids_of, info_lines, files_of, origins_of; cbn; rewrite ?Hr; cbn;
  first [done | by exists [] | intros k Hk; rewrite ?app_nil_r; (done || by apply push_item_ok)
        | intros e; unfold pending_symbol; cbn; rewrite ?Hr; cbn; by rewrite ?Hp, ?app_nil_r].
(** A line that is one record. *)
Lemma index_record_ok s l :
  open_before s l.1 → 0 ≤ l.1 < 2 ^ 64 →
  match process_record s l.1 (trim_cr l.2) with
  | Ok s' => processed s [l] s' ∧ open_before s' l.1
  | Panic => ∃ p, p ∈ code_ids_of [l] ∧ CodeIds.from_str p.1 = Panic
  end.
Proof.
  intros Ho Hlt. rewrite process_record_kind. cbn zeta. pose proof (processed_finish s l [] ) as Hfinish.
  pose proof (process_info_ok (finish_pending_func_block s l.1) l) as Hinfo.
  assert (pending_func_block (finish_pending_func_block s l.1) = None) as Hp.
  { unfold finish_pending_func_block. by destruct (pending_func_block s) as [[??]|] eqn:?. }
  destruct (record_at l) as [i|i|a|a| | |] eqn:Hr; cbn in Hfinish.
  - split; [|exact Ho]. one_record Hr Hp.
  - split; [|exact Ho]. one_record Hr Hp.
  - split; [|unfold open_before; cbn; by rewrite Hp]. apply Hfinish; [done|lia|done|].
    one_record Hr Hp.
  - split; [|unfold open_before; cbn; lia]. apply Hfinish; [done|lia|done|].
    one_record Hr Hp.
  - specialize (Hinfo eq_refl Hp). destruct (process_info _ _) as [s'|]; [|done]. destruct Hinfo as [Hi Hp'].
    split; [|unfold open_before; by rewrite Hp']. apply Hfinish; [done|lia|done|done].
  - split; [|unfold open_before; by rewrite Hp]. apply Hfinish; [done|lia|done|].
    one_record Hr Hp.
  - split; [|exact Ho]. one_record Hr Hp.
Qed.
(** Lines in the order of the file. *)
Fixpoint ordered (start : Z) (ls : list line) (file_end : Z) : Prop :=
  match ls with [] => start ≤ file_end | l :: ls' => start ≤ l.1 ∧ ordered (l.1 + 1) ls' file_end end.
Lemma ordered_le start ls e : ordered start ls e → start ≤ e.
Proof. revert start. induction ls as [|l ls IH]; intros start; [done|]. intros [? ?%IH]. lia. Qed.
Lemma ordered_weaken start start' ls e : start' ≤ start → ordered start ls e → ordered start' ls e.
Proof. destruct ls; cbn; [lia|]. intros ? [? ?]. split; [lia|done]. Qed.
Lemma text_lines_ordered start line0 text :
  let '(ls, (start', _)) := LineBuffer.text_lines start line0 text in
  ∀ ls' e, ordered start' ls' e → ordered start (ls ++ ls') e.
Proof.
  revert start line0. induction text as [|c text IH]; intros start line0; cbn [LineBuffer.text_lines]; [by intros|].
  destruct (decide _) as [_|_].
  - specialize (IH (start + slen line0 + 1) ""). destruct (LineBuffer.text_lines _ "" text) as [ls [start' line']].
    intros ls' e He. cbn. split; [done|]. pose proof (LineBuffer.slen_nonneg line0).
    apply (ordered_weaken (start + slen line0 + 1) (start + 1)); [lia|]. by apply IH.
  - specialize (IH start (line0 +:+ String c "")). by destruct (LineBuffer.text_lines _ _ text) as [ls [start' line']].
Qed.
Lemma all_lines_ordered text : ordered 0 (LineBuffer.all_lines text) (slen text).
Proof.
  unfold LineBuffer.all_lines. pose proof (text_lines_ordered 0 "" text) as Ho.
  pose proof (LineBuffer.text_lines_last 0 "" text) as Hl. change (slen "") with 0 in Hl.
  destruct (LineBuffer.text_lines 0 "" text) as [ls [start line']]. cbn [snd].
  pose proof (LineBuffer.slen_nonneg line'). destruct line' as [|c line']; cbn [is_empty].
  - rewrite <-(app_nil_r ls). apply Ho. change (slen "") with 0 in Hl. cbn. lia.
  - apply Ho. cbn [ordered fst]. assert (slen (String c line') = 1 + slen line') as Hc by (unfold slen; cbn [String.length]; lia).
    pose proof (LineBuffer.slen_nonneg line'). lia.
Qed.

Lemma open_before_weaken s a b : a ≤ b → open_before s a → open_before s b.
Proof. unfold open_before. destruct (pending_func_block s) as [[? ?]|]; [lia|done]. Qed.
Lemma process_lines_ok s start ls e :
  is_Some (module_info s) → 0 ≤ start → open_before s start → ordered start ls e → e < 2 ^ 64 →
  match process_lines ls s with
  | Ok s' => processed s ls s' ∧ open_before s' e
  | Panic => ∃ p, p ∈ code_ids_of ls ∧ CodeIds.from_str p.1 = Panic
  end.
Proof.
  intros Hm Hstart Ho Hord He. unfold process_lines.
  revert s start Hm Hstart Ho Hord. induction ls as [|l ls IH]; intros s start Hm Hstart Ho Hord.
  { cbn. split; [apply processed_refl|]. by apply (open_before_weaken _ start). }
  destruct Hord as [Hle Hord]. pose proof (ordered_le _ _ _ Hord). destruct l as [o x] eqn:Hl.
  assert (process_line o x s = process_record s o (trim_cr x)) as Hline.
  { unfold process_line. by destruct (module_info s), Hm. }
  cbn [LineBuffer.call_all]. rewrite Hline. pose proof (index_record_ok s l) as Hr. rewrite Hl in Hr. cbn [fst snd] in *.
  specialize (Hr (open_before_weaken _ _ _ Hle Ho) ltac:(lia)).
  change ((o, x) :: ls) with ([(o, x)] ++ ls). rewrite code_ids_of_app.
  destruct (process_record s o (trim_cr x)) as [s1|]; cbn [mbind res_bind].
  2: { destruct Hr as (p & Hp & Hf). exists p. split; [|done]. apply elem_of_app. by left. }
  destruct Hr as [Hp1 Ho1]. rewrite <-(processed_info _ _ _ Hp1) in Hm. specialize (IH s1 (o + 1) Hm ltac:(lia) ltac:(by apply (open_before_weaken _ o); [lia|]) Hord).
  destruct (LineBuffer.call_all process_line ls s1) as [s2|].
  - destruct IH as [Hp2 Ho2]. split; [|done]. by apply (processed_cons s (o, x) ls s1).
  - destruct IH as (p & Hp & Hf). exists p. split; [|done]. apply elem_of_app. by right.
Qed.

(** ** The lines up to the MODULE line *)
Definition with_bytes (bytes : string) : BreakpadIndexParserInner := with_info new_inner bytes None None None.
Lemma process_lines_module bytes ls :
  match after_module ls with
  | Some (line', info, rest) =>
      process_lines ls (with_bytes bytes) = process_lines rest (with_info new_inner line' (Some info) None None)
  | None => ∃ bytes', process_lines ls (with_bytes bytes) = Ok (with_bytes bytes')
  end.
Proof.
  unfold process_lines. revert bytes. induction ls as [|[o x] ls IH]; intros bytes; [by exists bytes|].
  cbn [after_module LineBuffer.call_all snd].
  assert (process_line o x (with_bytes bytes) = Ok (with_info new_inner (trim_cr x) (info_of (trim_cr x)) None None)) as ->
    by done.
  cbn [mbind res_bind]. destruct (info_of (trim_cr x)) as [info|]; [done|]. apply IH.
Qed.

Lemma after_module_ordered start ls e :
  ordered start ls e →
  match after_module ls with Some (_, _, rest) => ordered start rest e | None => True end.
Proof.
  revert start. induction ls as [|l ls IH]; intros start; [done|]. intros [Hle Ho]. cbn [after_module].
  apply (ordered_weaken _ start) in Ho; [|lia]. destruct (info_of _); [done|]. by apply IH.
Qed.

(** ** The index *)
Record indexes (module_line' : string) (info : ModuleInfo) (rest : list line) (file_end : Z) (idx : BreakpadIndex)
    : Prop := {
  indexes_info : info = (debug_id idx, os idx, arch idx, debug_name idx);
  indexes_bytes : module_info_bytes idx = joined module_line' (info_lines rest);
  indexes_id : ∃ ids, Forall2 (λ p c, CodeIds.from_str p.1 = Ok c) (code_ids_of rest) ids ∧
                      code_id idx = default None (last ids);
  indexes_name : name idx = default None (snd <$> last (code_ids_of rest));
  indexes_files_sorted : StronglySorted (λ x y, item_index x < item_index y) (inner (files idx));
  indexes_origins_sorted : StronglySorted (λ x y, item_index x < item_index y) (inner (inline_origins idx));
  indexes_files k : get (files idx) k = Ok (first item_index k (files_of rest));
  indexes_origins k : get (inline_origins idx) k = Ok (first item_index k (origins_of rest));
  indexes_addresses : StronglySorted Z.lt (symbol_addresses idx);
  indexes_length : length (symbol_addresses idx) = length (symbol_offsets idx);
  indexes_symbols a sym :
    (∃ i, symbol_addresses idx !! i = Some a ∧ symbol_offsets idx !! i = Some sym) ↔
    first fst a (symbols_of rest file_end) = Some (a, sym)
}.
Lemma sorted_fst (l : list (Z * BreakpadSymbolType)) :
  StronglySorted (λ x y, x.1 < y.1) l → StronglySorted Z.lt l.*1.
Proof. induction 1 as [|x l Hl IH Hx]; cbn; constructor; [done|]. by apply Forall_fmap. Qed.
Lemma elem_zip {A B} (l : list (A * B)) a b :
  (∃ i, l.*1 !! i = Some a ∧ l.*2 !! i = Some b) ↔ (a, b) ∈ l.
Proof.
  rewrite list_elem_of_lookup. split; intros [i Hi]; exists i.
  - destruct Hi as [Ha Hb]. apply list_lookup_fmap_Some in Ha as ([a' b'] & -> & Hl).
    apply list_lookup_fmap_Some in Hb as ([a'' b''] & -> & Hl'). rewrite Hl in Hl' |- *. by simplify_eq.
  - by rewrite !list_lookup_fmap, Hi.
Qed.
Lemma finish_inner_indexes line' info rest e s :
  processed (with_info new_inner line' (Some info) None None) rest s → open_before s e → e < 2 ^ 64 →
  ∃ idx, finish_inner s e = inr idx ∧ indexes line' info rest e idx.
Proof.
  intros [Hi Hb Hid Hn Hf Ho Hs] Hopen He. unfold finish_inner. rewrite finish_pending_spec by done. cbn in *. rewrite Hi.
  specialize (Hf [] (new_builder_ok)). specialize (Ho [] (new_builder_ok)). cbn in Hf, Ho.
  destruct info as [[[id os'] arch'] debug_name']. eexists. split; [done|]. rewrite Hs. cbn.
  pose proof (dedup_sorted fst (symbols_of rest e)) as Hsorted.
  split; cbn; try done.
  - exact (proj1 (into_sorted_vec_ok _ _ 0 Hf)).
  - exact (proj1 (into_sorted_vec_ok _ _ 0 Ho)).
  - intros k. destruct (into_sorted_vec_ok _ _ k Hf) as [Hsf Hff]. etrans; [by apply get_first|]. exact (f_equal Ok Hff).
  - intros k. destruct (into_sorted_vec_ok _ _ k Ho) as [Hso Hfo]. etrans; [by apply get_first|]. exact (f_equal Ok Hfo).
  - exact (sorted_fst _ Hsorted).
  - by rewrite !length_fmap.
  - intros a sym. etrans; [apply elem_zip|]. rewrite (first_elem fst _ (a, sym) Hsorted). cbn [fst].
    by rewrite first_dedup, first_stable_sort.
Qed.

Lemma consume_chunks_all (chunks : list string) p :
  consume_chunks p chunks =
    ('(b, s) ← LineBuffer.consume_all process_line (line_buffer p) chunks (parser_inner p);
     returned (Ok {| line_buffer := b; parser_inner := s |})).
Proof.
  revert p. induction chunks as [|chunk chunks IH]; intros p; [by destruct p|].
  cbn [consume_chunks LineBuffer.consume_all]. unfold consume.
  destruct (LineBuffer.consume process_line (line_buffer p) chunk (parser_inner p)) as [[[b s]|]|];
    cbn [mbind loops_bind returned]; [|done..]. rewrite IH. done.
Qed.
Lemma index_chunks_lines (chunks : list string) :
  slen (String.concat "" chunks) < 2 ^ 64 →
  index_chunks chunks =
    Some (s ← process_lines (LineBuffer.all_lines (String.concat "" chunks)) new_inner;
          Ok (finish_inner s (slen (String.concat "" chunks)))).
Proof.
  intros Hlt. pose proof (LineBuffer.chunks_make_no_difference process_line chunks new_inner Hlt) as Hc.
  unfold index_chunks. rewrite consume_chunks_all. cbn [line_buffer parser_inner new_parser].
  destruct (LineBuffer.consume_all _ _ _ _) as [[[b s]|]|]; cbn [mbind loops_bind returned] in Hc |- *; [|..].
  - unfold finish. cbn [line_buffer parser_inner]. injection Hc as ->. unfold process_lines.
    by destruct (LineBuffer.call_all _ _ _).
  - injection Hc as Hc. unfold process_lines. by destruct (LineBuffer.call_all _ _ _).
  - done.
Qed.

Lemma index_chunks_spec (chunks : list string) :
  let text := String.concat "" chunks in
  slen text < 2 ^ 64 →
  ∃ r, index_chunks chunks = Some r ∧
    match after_module (LineBuffer.all_lines text) with
    | None => r = Ok (inl NoModuleInfoInSymFile)
    | Some (line', info, rest) =>
        match r with
        | Ok (inr idx) => indexes line' info rest (slen text) idx ∧ ordered 0 rest (slen text)
        | Ok (inl _) => False
        | Panic => ∃ p, p ∈ code_ids_of rest ∧ CodeIds.from_str p.1 = Panic
        end
    end.
Proof.
  intros text Hlt. unfold text in *. eexists. split; [by apply index_chunks_lines|].
  pose proof (all_lines_ordered (String.concat "" chunks)) as Hord. revert Hord.
  generalize (LineBuffer.all_lines (String.concat "" chunks)). intros ls Hord.
  pose proof (process_lines_module "" ls) as Hm. pose proof (after_module_ordered 0 ls _ Hord) as Hrest.
  change (with_bytes "") with new_inner in Hm. destruct (after_module ls) as [[[line' info] rest]|].
  2: { by destruct Hm as [bytes' ->]. }
  rewrite Hm. pose proof (process_lines_ok (with_info new_inner line' (Some info) None None) 0 rest _
    ltac:(by eexists) ltac:(done) ltac:(done) Hrest Hlt) as Hp.
  destruct (process_lines rest _) as [s|]; cbn [mbind res_bind]; [|exact Hp].
  destruct Hp as [Hp Ho]. by destruct (finish_inner_indexes _ _ _ _ _ Hp Ho Hlt) as (idx & -> & Hi).
Qed.
Lemma index_chunks_indexes (chunks : list string) idx :
  slen (String.concat "" chunks) < 2 ^ 64 → index_chunks chunks = Some (Ok (inr idx)) →
  ∃ line' info rest,
    after_module (LineBuffer.all_lines (String.concat "" chunks)) = Some (line', info, rest) ∧
    indexes line' info rest (slen (String.concat "" chunks)) idx ∧ ordered 0 rest (slen (String.concat "" chunks)).
Proof.
  intros Hlt Hidx. destruct (index_chunks_spec chunks Hlt) as (r & Hr & Hm). rewrite Hidx in Hr. injection Hr as <-.
  destruct (after_module _) as [[[line' info] rest]|]; [|done]. by exists line', info, rest.
Qed.

(** C14: The parser of a breakpad symbol file of any size below 2^64 returns, however
    the file is cut into chunks. If it has a MODULE line, the index has the module
    information of the first one, the INFO lines behind it and the last code ID with
    its name; a FILE or INLINE_ORIGIN number is found as the first record with that
    number, and the symbols are, at strictly rising addresses, the first PUBLIC or FUNC
    record of each address, each with its place in the file, a FUNC block up to the next
    FUNC, PUBLIC, INFO or STACK record or the end. A file without a MODULE line is an
    error; only a code ID can make the parser panic. *)
Theorem index_chunks_finds_records (chunks : list string) :
  let text := String.concat "" chunks in
  slen text < 2 ^ 64 →
  ∃ r, index_chunks chunks = Some r ∧
    match after_module (LineBuffer.all_lines text) with
    | None => r = Ok (inl NoModuleInfoInSymFile)
    | Some (line', info, rest) =>
        match r with
        | Ok (inr idx) => indexes line' info rest (slen text) idx
        | Ok (inl _) => False
        | Panic => ∃ p, p ∈ code_ids_of rest ∧ CodeIds.from_str p.1 = Panic
        end
    end.
Proof.
  intros text Hlt. destruct (index_chunks_spec chunks Hlt) as (r & Hr & Hm). exists r. split; [done|].
  fold text in Hm. destruct (after_module _) as [[[line' info] rest]|]; [|done]. destruct r as [[e|idx]|]; [done| |done].
  by destruct Hm.
Qed.
End records.

(** A file with a FUNC block across two chunks and a duplicate FILE number. *)
#[local] Existing Instance string_debug_ids.
#[local] Existing Instance Nom.documented.
#[local] Existing Instance CodeIds.hex_uuids.
#[local] Instance any_breakpad_id : BreakpadIds := {| from_breakpad s := Some s |}.
Definition example_chunks : list string :=
  ["MODULE Linux x86_64 BE4E976C0 example" +:+ LF +:+ "FILE 1 a.c" +:+ LF +:+ "FILE 0 b.c" +:+ LF +:+ "FI";
   "LE 1 c.c" +:+ LF +:+ "INFO CODE_ID 63C036DBA7000 x.exe" +:+ LF +:+ "FUNC 1160 45 0 f" +:+ LF +:+ "1160 c 1";
   "6 0" +:+ LF +:+ "PUBLIC 20 0 p" +:+ LF +:+ "PUBLIC 1160 0 q"].
Example index_chunks_finds_records_witness :
  slen (String.concat "" example_chunks) < 2 ^ 64 ∧
  ∃ idx, index_chunks example_chunks = Some (Ok (inr idx)) ∧ symbol_addresses idx = [32; 4448] ∧
    get (files idx) 1 = Ok (Some {| file_index := 1; file_line_offset := 38; file_line_length := 10 |}).
Proof.
  assert (slen (String.concat "" example_chunks) < 2 ^ 64) as Hlt by done. split; [done|].
  destruct (index_chunks_finds_records example_chunks Hlt) as (r & Hr & Hi).
  assert (Hcall := Hr). vm_compute in Hcall. injection Hcall as <-.
  remember (after_module _) as m eqn:Hm in Hi. vm_compute in Hm. subst m. cbv beta iota in Hi.
  eexists. split; [exact Hr|]. split; [reflexivity|]. etrans; [apply (indexes_files _ _ _ _ _ Hi)|]. by vm_compute.
Defined.
End IndexedRecords.
