(* ===== verification/Symindex.v ===== *)
(** The binary form of the index of a breakpad symbol file, [.symindex]: reading
    and writing in samply-symbols/src/breakpad/index.rs. *)
From S2P Require Import Prelude RustStr SymbolTable LibTable CodeIds LineBuffer Nom BreakpadRecords BreakpadIndex.
From stdpp Require Import options.
Open Scope Z_scope.

(** * Little-endian numbers *)
Module ByteText.
Import RustStr LineBuffer(slen, slen_app, slen_nonneg).

(** The bytes are the characters of a [string]. *)
Definition byte_char (z : Z) : ascii := ascii_of_nat (Z.to_nat (z mod 256)).
Fixpoint le_bytes (n : nat) (z : Z) : string :=
  match n with O => "" | S n' => String (byte_char z) (le_bytes n' (z / 256)) end.
Fixpoint le_value (s : string) : Z :=
  match s with EmptyString => 0 | String c s' => Z.of_nat (nat_of_ascii c) + 256 * le_value s' end.
(** [data.get(start..end)] *)
Definition get_range (s : string) (start end' : Z) : option string :=
  if (start <=? end') && (end' <=? slen s) then Some (String.substring (Z.to_nat start) (Z.to_nat (end' - start)) s)
  else None.
(** The number of [size] bytes at an offset. *)
Definition number_at (s : string) (offset size : nat) : Z := le_value (String.substring offset size s).
(** A slice of elements of [size] bytes each: [Ref::<_, [T]>::from_bytes(bytes).unwrap()]. *)
Definition pieces (count size : nat) (s : string) : list string :=
  (λ i, String.substring (i * size) size s) <$> seq 0 count.
Definition elements (size : nat) (s : string) : res (list string) :=
  _ ← assert (String.length s mod size =? 0)%nat;
  Ok (pieces (String.length s / size) size s).

Lemma byte_char_value z : Z.of_nat (nat_of_ascii (byte_char z)) = z mod 256.
Proof.
  unfold byte_char. pose proof (Z.mod_pos_bound z 256 ltac:(lia)).
  rewrite nat_ascii_embedding by lia. lia.
Qed.
Lemma le_bytes_length n z : slen (le_bytes n z) = Z.of_nat n.
Proof. unfold slen. revert z. induction n as [|n IH]; intros z; [done|]. cbn [le_bytes String.length]. specialize (IH (z / 256)). lia. Qed.
Lemma le_value_bytes n z : 0 ≤ z < 256 ^ Z.of_nat n → le_value (le_bytes n z) = z.
Proof.
  revert z. induction n as [|n IH]; intros z Hz; [simpl in *; lia|]. rewrite Nat2Z.inj_succ, Z.pow_succ_r in Hz by lia.
  cbn [le_bytes le_value]. rewrite byte_char_value, IH.
  - pose proof (Z.div_mod z 256 ltac:(lia)). lia.
  - split; [apply Z.div_pos; lia|apply Z.div_lt_upper_bound; lia].
Qed.
Lemma get_range_at a b c : get_range (a +:+ b +:+ c) (slen a) (slen a + slen b) = Some b.
Proof.
  unfold get_range. rewrite !slen_app. pose proof (slen_nonneg a). pose proof (slen_nonneg b). pose proof (slen_nonneg c).
  rewrite !(proj2 (Z.leb_le _ _)) by lia. cbn [andb]. f_equal. unfold slen.
  replace (Z.to_nat (Z.of_nat (String.length a) + Z.of_nat (String.length b) - Z.of_nat (String.length a)))
    with (String.length b) by lia.
  rewrite Nat2Z.id. apply substring_at.
Qed.
(** The elements that were written one after the other. *)
Definition all_bytes (l : list string) : string := foldr String.append "" l.
Lemma length_all_bytes (size : nat) l :
  Forall (λ s, String.length s = size) l → String.length (all_bytes l) = (length l * size)%nat.
Proof.
  induction 1 as [|s l Hs Hl IH]; [done|]. unfold all_bytes in *. cbn [foldr length]. rewrite HexText.length_app_string, Hs, IH. lia.
Qed.
Lemma pieces_from (size : nat) l p k :
  Forall (λ s, String.length s = size) l → String.length p = (k * size)%nat →
  (λ i, String.substring (i * size) size (p +:+ all_bytes l)) <$> seq k (length l) = l.
Proof.
  intros Hl. revert p k. induction Hl as [|s l Hs Hl IH]; intros p k Hp; [done|].
  cbn [length seq fmap list_fmap]. unfold all_bytes. cbn [foldr]. f_equal.
  - rewrite <-Hp, <-Hs. apply substring_at.
  - specialize (IH (p +:+ s) (S k)). rewrite app_assoc_string in IH. apply IH. rewrite HexText.length_app_string, Hp, Hs. lia.
Qed.
Lemma elements_written (size : nat) l :
  (0 < size)%nat → Forall (λ s, String.length s = size) l → elements size (all_bytes l) = Ok l.
Proof.
  intros Hsize Hl. unfold elements. rewrite (length_all_bytes size l Hl).
  rewrite Nat.Div0.mod_mul, Nat.eqb_refl. cbn [assert mbind res_bind]. f_equal. rewrite Nat.div_mul by lia.
  exact (pieces_from size l "" 0 Hl eq_refl).
Qed.
End ByteText.

Module Symindex.
Import RustStr Nom BreakpadRecords BreakpadIndex ByteText.

Definition checked_u32 (z : Z) : option Z := if z <? 2 ^ 32 then Some z else None.
Definition mul_u32 (a b : Z) : Z := wrap_u32 (a * b).
Definition sub_u32 (a b : Z) : Z := wrap_u32 (a - b).

(** * The parts of a file *)
Record BreakpadSymindexFileHeader := {
  magic : string;
  version : Z;
  module_info_offset : Z;
  module_info_len : Z;
  file_count : Z;
  file_entries_offset : Z;
  inline_origin_count : Z;
  inline_origin_entries_offset : Z;
  symbol_count : Z;
  symbol_addresses_offset : Z;
  symbol_entries_offset : Z
}.
Definition HEADER_SIZE : Z := 48.
Definition FILE_OR_INLINE_ORIGIN_ENTRY_SIZE : Z := 16.
Definition SYMBOL_ADDRESS_SIZE : Z := 4.
Definition SYMBOL_ENTRY_SIZE : Z := 16.
Definition header_bytes (h : BreakpadSymindexFileHeader) : string :=
  magic h +:+ le_bytes 4 (version h) +:+ le_bytes 4 (module_info_offset h) +:+ le_bytes 4 (module_info_len h) +:+
  le_bytes 4 (file_count h) +:+ le_bytes 4 (file_entries_offset h) +:+ le_bytes 4 (inline_origin_count h) +:+
  le_bytes 4 (inline_origin_entries_offset h) +:+ le_bytes 4 (symbol_count h) +:+
  le_bytes 4 (symbol_addresses_offset h) +:+ le_bytes 4 (symbol_entries_offset h).
Definition read_header (s : string) : BreakpadSymindexFileHeader :=
  {| magic := String.substring 0 8 s; version := number_at s 8 4; module_info_offset := number_at s 12 4;
     module_info_len := number_at s 16 4; file_count := number_at s 20 4; file_entries_offset := number_at s 24 4;
     inline_origin_count := number_at s 28 4; inline_origin_entries_offset := number_at s 32 4;
     symbol_count := number_at s 36 4; symbol_addresses_offset := number_at s 40 4;
     symbol_entries_offset := number_at s 44 4 |}.

Record FileOrInlineOriginEntry := { entry_index : Z; line_len : Z; entry_offset : Z }.
Definition entry_bytes (e : FileOrInlineOriginEntry) : string :=
  le_bytes 4 (entry_index e) +:+ le_bytes 4 (line_len e) +:+ le_bytes 8 (entry_offset e).
Definition read_entry (s : string) : FileOrInlineOriginEntry :=
  {| entry_index := number_at s 0 4; line_len := number_at s 4 4; entry_offset := number_at s 8 8 |}.

Definition SYMBOL_ENTRY_KIND_PUBLIC : Z := 0.
Definition SYMBOL_ENTRY_KIND_FUNC : Z := 1.
Record SymbolEntry := { kind : Z; line_or_block_len : Z; symbol_offset : Z }.
Definition symbol_entry_bytes (e : SymbolEntry) : string :=
  le_bytes 4 (kind e) +:+ le_bytes 4 (line_or_block_len e) +:+ le_bytes 8 (symbol_offset e).
Definition read_symbol_entry (s : string) : SymbolEntry :=
  {| kind := number_at s 0 4; line_or_block_len := number_at s 4 4; symbol_offset := number_at s 8 8 |}.

Inductive BreakpadSymindexParseError :=
| FileTooSmallForHeader | WrongMagicBytes | ModuleInfoOffsetLenOverflow | CouldntReadModuleInfoBytes
| ModuleInfoNotUtf8 | CouldntParseModuleInfoLine
| FileListByteLenOverflow | FileListOffsetLenOverflow | CouldntReadFileListBytes
| InlineOriginListByteLenOverflow | InlineOriginListOffsetLenOverflow | CouldntReadInlineOriginListBytes
| SymbolAddressListByteLenOverflow | SymbolAddressListOffsetLenOverflow | CouldntReadSymbolAddressListBytes
| SymbolEntryListByteLenOverflow | SymbolEntryListOffsetLenOverflow | CouldntReadSymbolEntryListBytes.

Section symindex.
Context `{BreakpadIds} `{Nom} `{CodeIds.UuidOps}.

(** * Reading *)
Notation parsing A := (loops (BreakpadSymindexParseError + A)).
(** [.ok_or(error)?] *)
Definition ok_or {A B} (o : option A) (error : BreakpadSymindexParseError) (k : A → parsing B) : parsing B :=
  match o with Some a => k a | None => returned (Ok (inl error)) end.
(** What the lines of the module information have told: the module, the code ID
    and the name. *)
Definition ModuleLines : Type := option ModuleInfo * option CodeIds.CodeId * option string.
Definition module_info_step (_ : Z) (line : string) (s : ModuleLines) : res ModuleLines :=
  let '(info, code_id', name') := s in
  match info_of line with
  | Some info' => Ok (Some info', code_id', name')
  | None =>
      match ok (info_code_id_line line) with
      | Some (_, (code_id_str, name_str)) => c ← CodeIds.from_str code_id_str; Ok (info, c, name_str)
      | None => Ok s
      end
  end.
Definition module_info_lines (bytes : string) : loops ModuleLines :=
  '(buffer, s) ← LineBuffer.consume module_info_step LineBuffer.default_buffer bytes (None, None, None);
  returned ('(_, s') ← LineBuffer.finish module_info_step buffer s; Ok s').
(** A list of [count] elements of [size] bytes at an offset. *)
Definition read_list {B} (data : string) (count size offset : Z)
    (byte_len_overflow offset_len_overflow unreadable : BreakpadSymindexParseError)
    (k : list string → parsing B) : parsing B :=
  ok_or (checked_u32 (count * size)) byte_len_overflow (λ bytes_len,
  ok_or (checked_u32 (offset + bytes_len)) offset_len_overflow (λ end_offset,
  ok_or (get_range data offset end_offset) unreadable (λ bytes,
  l ← returned (elements (Z.to_nat size) bytes); k l))).
Definition file_of_entry (s : string) : BreakpadFileLine :=
  let e := read_entry s in
  {| file_index := entry_index e; file_line_offset := entry_offset e; file_line_length := line_len e |}.
Definition origin_of_entry (s : string) : BreakpadInlineOriginLine :=
  let e := read_entry s in
  {| origin_index := entry_index e; origin_line_offset := entry_offset e; origin_line_length := line_len e |}.
Definition symbol_of_entry (s : string) : BreakpadSymbolType :=
  let e := read_symbol_entry s in
  if kind e =? SYMBOL_ENTRY_KIND_PUBLIC then
    Public {| public_offset := symbol_offset e; line_length := line_or_block_len e |}
  else Func {| func_offset := symbol_offset e; block_length := line_or_block_len e |}.
Definition parse_symindex_file (data : string) : parsing BreakpadIndex :=
  ok_or (get_range data 0 HEADER_SIZE) FileTooSmallForHeader (λ bytes,
  let header := read_header bytes in
  if negb (bool_decide (magic header = "SYMINDEX")) then returned (Ok (inl WrongMagicBytes))
  else
  ok_or (checked_u32 (module_info_offset header + module_info_len header)) ModuleInfoOffsetLenOverflow
    (λ module_info_end_offset,
  ok_or (get_range data (module_info_offset header) module_info_end_offset) CouldntReadModuleInfoBytes
    (λ module_info_bytes',
  '(info, code_id', name') ← module_info_lines module_info_bytes';
  ok_or info CouldntParseModuleInfoLine (λ '(debug_id', os', arch', debug_name'),
  read_list data (file_count header) FILE_OR_INLINE_ORIGIN_ENTRY_SIZE (file_entries_offset header)
    FileListByteLenOverflow FileListOffsetLenOverflow CouldntReadFileListBytes (λ file_list,
  read_list data (inline_origin_count header) FILE_OR_INLINE_ORIGIN_ENTRY_SIZE (inline_origin_entries_offset header)
    InlineOriginListByteLenOverflow InlineOriginListOffsetLenOverflow CouldntReadInlineOriginListBytes
    (λ inline_origin_list,
  read_list data (symbol_count header) SYMBOL_ADDRESS_SIZE (symbol_addresses_offset header)
    SymbolAddressListByteLenOverflow SymbolAddressListOffsetLenOverflow CouldntReadSymbolAddressListBytes
    (λ symbol_address_list,
  read_list data (symbol_count header) SYMBOL_ENTRY_SIZE (symbol_entries_offset header)
    SymbolEntryListByteLenOverflow SymbolEntryListOffsetLenOverflow CouldntReadSymbolEntryListBytes
    (λ symbol_entry_list,
  returned (Ok (inr
    {| module_info_bytes := module_info_bytes'; debug_name := debug_name'; debug_id := debug_id'; arch := arch';
       os := os'; name := name'; code_id := code_id';
       symbol_addresses := le_value <$> symbol_address_list; symbol_offsets := symbol_of_entry <$> symbol_entry_list;
       files := from_sorted_vec (file_of_entry <$> file_list);
       inline_origins := from_sorted_vec (origin_of_entry <$> inline_origin_list) |})))))))))).

(** * Writing *)
Definition round_up_to_multiple (value factor : Z) : Z :=
  mul_u32 (sub_u32 (add_u32 value factor) 1 / factor) factor.
Definition align_to_4_bytes (value : Z) : Z := round_up_to_multiple value 4.
Definition entry_of_item `{FileOrInlineOrigin A} (item : A) : string :=
  let '(offset, length') := offset_and_length item in
  entry_bytes {| entry_index := item_index item; line_len := length'; entry_offset := offset |}.
Definition entry_of_symbol (s : BreakpadSymbolType) : string :=
  symbol_entry_bytes
    match s with
    | Public public =>
        {| kind := SYMBOL_ENTRY_KIND_PUBLIC; line_or_block_len := line_length public;
           symbol_offset := public_offset public |}
    | Func func =>
        {| kind := SYMBOL_ENTRY_KIND_FUNC; line_or_block_len := block_length func; symbol_offset := func_offset func |}
    end.
Fixpoint zeros (n : nat) : string := match n with O => "" | S n' => String (byte_char 0) (zeros n') end.
(** The header, the padding behind the module information and the size of the file. *)
Definition layout (idx : BreakpadIndex) : BreakpadSymindexFileHeader * Z * Z :=
  let module_info_len' := wrap_u32 (slen (module_info_bytes idx)) in
  let padding := sub_u32 (align_to_4_bytes module_info_len') module_info_len' in
  let file_entries_offset' := add_u32 (add_u32 HEADER_SIZE module_info_len') padding in
  let file_count' := u32_of_usize (length (inner (files idx))) in
  let inline_origin_entries_offset' :=
    add_u32 file_entries_offset' (mul_u32 file_count' FILE_OR_INLINE_ORIGIN_ENTRY_SIZE) in
  let inline_origin_count' := u32_of_usize (length (inner (inline_origins idx))) in
  let symbol_addresses_offset' :=
    add_u32 inline_origin_entries_offset' (mul_u32 inline_origin_count' FILE_OR_INLINE_ORIGIN_ENTRY_SIZE) in
  let symbol_count' := u32_of_usize (length (symbol_addresses idx)) in
  let symbol_entries_offset' := add_u32 symbol_addresses_offset' (mul_u32 symbol_count' SYMBOL_ADDRESS_SIZE) in
  let total_file_len := add_u32 symbol_entries_offset' (mul_u32 symbol_count' SYMBOL_ENTRY_SIZE) in
  ({| magic := "SYMINDEX"; version := 1; module_info_offset := HEADER_SIZE; module_info_len := module_info_len';
      file_count := file_count'; file_entries_offset := file_entries_offset';
      inline_origin_count := inline_origin_count'; inline_origin_entries_offset := inline_origin_entries_offset';
      symbol_count := symbol_count'; symbol_addresses_offset := symbol_addresses_offset';
      symbol_entries_offset := symbol_entries_offset' |}, padding, total_file_len).
Definition serialize_to_bytes (idx : BreakpadIndex) : res string :=
  let '(header, padding, total_file_len) := layout idx in
  let vec :=
    header_bytes header +:+ module_info_bytes idx +:+ zeros (Z.to_nat padding) +:+
    all_bytes (entry_of_item <$> inner (files idx)) +:+ all_bytes (entry_of_item <$> inner (inline_origins idx)) +:+
    all_bytes (le_bytes 4 <$> symbol_addresses idx) +:+ all_bytes (entry_of_symbol <$> symbol_offsets idx) in
  _ ← assert (slen vec =? total_file_len);
  Ok vec.
End symindex.
End Symindex.
