(* ===== verification/SymindexRoundTrip.v ===== *)
(** What is written to a [.symindex] file reads back: Symindex.v for the indexes
    of BreakpadIndex.v. *)
From S2P Require Import Prelude RustStr SymbolTable LibTable CodeIds LineBuffer Nom BreakpadRecords BreakpadIndex IndexedRecords Symindex.
From stdpp Require Import options.
Open Scope Z_scope.

Module SymindexRoundTrip.
Import RustStr Nom BreakpadRecords BreakpadIndex IndexedRecords ByteText Symindex LineBuffer(slen_app, slen_nonneg).

(** * The parts *)
(** A number in an element of a fixed layout: the bytes in front of it are counted. *)
Ltac number_field :=
  unfold number_at; cbn [header_bytes entry_bytes symbol_entry_bytes];
  lazymatch goal with |- _ = ?z => change (le_value (le_bytes 4 z) = z) || change (le_value (le_bytes 8 z) = z) end;
  apply le_value_bytes; assumption.

Record header_ok (h : BreakpadSymindexFileHeader) : Prop := {
  header_magic : magic h = "SYMINDEX";
  header_numbers : Forall u32_range
    [version h; module_info_offset h; module_info_len h; file_count h; file_entries_offset h; inline_origin_count h;
     inline_origin_entries_offset h; symbol_count h; symbol_addresses_offset h; symbol_entries_offset h]
}.
Lemma read_header_bytes h : header_ok h → read_header (header_bytes h) = h.
Proof.
  intros [Hm Hn]. destruct h as [m v a b c d e f g i j]. cbn in Hm, Hn. subst m.
  repeat (apply Forall_cons in Hn as [? Hn]). unfold read_header. f_equal; number_field.
Qed.
Lemma header_length h : header_ok h → slen (header_bytes h) = HEADER_SIZE.
Proof. intros [Hm _]. unfold header_bytes. rewrite Hm, !slen_app, !le_bytes_length. done. Qed.
Definition entry_ok (e : FileOrInlineOriginEntry) : Prop :=
  u32_range (entry_index e) ∧ u32_range (line_len e) ∧ u64_range (entry_offset e).
Lemma read_entry_bytes e : entry_ok e → read_entry (entry_bytes e) = e.
Proof. intros (? & ? & ?). destruct e as [a b c]. unfold read_entry. f_equal; number_field. Qed.
Definition symbol_entry_ok (e : SymbolEntry) : Prop :=
  u32_range (kind e) ∧ u32_range (line_or_block_len e) ∧ u64_range (symbol_offset e).
Lemma read_symbol_entry_bytes e : symbol_entry_ok e → read_symbol_entry (symbol_entry_bytes e) = e.
Proof. intros (? & ? & ?). destruct e as [a b c]. unfold read_symbol_entry. f_equal; number_field. Qed.

(** ** Lists of elements *)
Section list.
Context {A : Type} (encode : A → string) (decode : string → A) (valid : A → Prop) (size : nat).
Context (decode_encode : ∀ x, valid x → decode (encode x) = x) (encode_length : ∀ x, String.length (encode x) = size).

Lemma encoded_lengths (l : list A) : Forall (λ s, String.length s = size) (encode <$> l).
Proof using encode_length. apply Forall_fmap, Forall_true. intros x. apply encode_length. Qed.
Lemma encoded_size (l : list A) : slen (all_bytes (encode <$> l)) = Z.of_nat (length l) * Z.of_nat size.
Proof using encode_length. unfold slen. rewrite (length_all_bytes size), length_fmap by apply encoded_lengths. lia. Qed.
Lemma decoded (l : list A) : Forall valid l → decode <$> (encode <$> l) = l.
Proof using decode_encode. induction 1 as [|x l Hx Hl IH]; [done|]. cbn. by rewrite decode_encode, IH. Qed.
Lemma read_list_written {B} data before after count size' offset (l : list A) e1 e2 e3
    (k : list string → loops (BreakpadSymindexParseError + B)) :
  (0 < size)%nat → data = before +:+ all_bytes (encode <$> l) +:+ after → size' = Z.of_nat size → count = Z.of_nat (length l) →
  offset = slen before → offset + count * size' < 2 ^ 32 →
  read_list data count size' offset e1 e2 e3 k = k (encode <$> l).
Proof using encode_length.
  intros Hsize -> -> -> -> Hlt. unfold read_list, checked_u32. pose proof (slen_nonneg before).
  rewrite (proj2 (Z.ltb_lt _ _)) by lia. cbn [ok_or]. rewrite (proj2 (Z.ltb_lt _ _)) by lia. cbn [ok_or].
  rewrite <-encoded_size, get_range_at. cbn [ok_or]. rewrite Nat2Z.id, elements_written by (done || apply encoded_lengths).
  done.
Qed.
End list.

Definition file_ok (f : BreakpadFileLine) : Prop :=
  u32_range (file_index f) ∧ u32_range (file_line_length f) ∧ u64_range (file_line_offset f).
Definition origin_ok (f : BreakpadInlineOriginLine) : Prop :=
  u32_range (origin_index f) ∧ u32_range (origin_line_length f) ∧ u64_range (origin_line_offset f).
Definition symbol_ok (s : BreakpadSymbolType) : Prop :=
  match s with
  | Public p => u32_range (line_length p) ∧ u64_range (public_offset p)
  | Func f => u32_range (block_length f) ∧ u64_range (func_offset f)
  end.
Lemma entry_bytes_length e : String.length (entry_bytes e) = 16%nat.
Proof. done. Qed.
Lemma symbol_entry_bytes_length e : String.length (symbol_entry_bytes e) = 16%nat.
Proof. done. Qed.
Section parts.
Context `{BreakpadIds} `{Nom} `{CodeIds.UuidOps}.
Lemma file_written f : file_ok f → file_of_entry (entry_of_item f) = f.
Proof.
  destruct f as [i o l]. intros Hf. unfold file_of_entry.
  change (entry_of_item _) with (entry_bytes {| entry_index := i; line_len := l; entry_offset := o |}).
  by rewrite read_entry_bytes.
Qed.
Lemma origin_written f : origin_ok f → origin_of_entry (entry_of_item f) = f.
Proof.
  destruct f as [i o l]. intros Hf. unfold origin_of_entry.
  change (entry_of_item _) with (entry_bytes {| entry_index := i; line_len := l; entry_offset := o |}).
  by rewrite read_entry_bytes.
Qed.
Lemma symbol_written s : symbol_ok s → symbol_of_entry (entry_of_symbol s) = s.
Proof.
  intros Hs. unfold symbol_of_entry, entry_of_symbol.
  destruct s as [[o l]|[o l]]; destruct Hs as [Hl Ho]; cbn [line_length public_offset block_length func_offset] in *;
    rewrite read_symbol_entry_bytes; done.
Qed.

(** * Whole files *)
Definition padding_of (len : Z) : Z := (- len) mod 4.
Definition file_size (idx : BreakpadIndex) : Z :=
  let len := slen (module_info_bytes idx) in
  48 + len + padding_of len + 16 * Z.of_nat (length (inner (files idx)))
  + 16 * Z.of_nat (length (inner (inline_origins idx))) + 20 * Z.of_nat (length (symbol_addresses idx)).
Record index_ok (idx : BreakpadIndex) : Prop := {
  index_files_ok : Forall file_ok (inner (files idx));
  index_origins_ok : Forall origin_ok (inner (inline_origins idx));
  index_addresses_ok : Forall u32_range (symbol_addresses idx);
  index_symbols_ok : Forall symbol_ok (symbol_offsets idx);
  index_length_ok : length (symbol_addresses idx) = length (symbol_offsets idx);
  index_info_ok :
    module_info_lines (module_info_bytes idx) =
      Some (Ok (Some (debug_id idx, os idx, arch idx, debug_name idx), code_id idx, name idx))
}.
Lemma align_ok len : 0 ≤ len → len + 4 < 2 ^ 32 → sub_u32 (align_to_4_bytes len) len = padding_of len.
Proof.
  intros Hl Hlt. unfold align_to_4_bytes, round_up_to_multiple, mul_u32, sub_u32, add_u32, padding_of.
  rewrite (wrap_u32_id (len + 4)) by (unfold u32_range; lia). rewrite (wrap_u32_id (len + 4 - 1)) by (unfold u32_range; lia).
  assert ((len + 4 - 1) `div` 4 * 4 - len = (- len) mod 4) as Heq by (Z.to_euclidean_division_equations; lia).
  pose proof (Z.mod_pos_bound (- len) 4 ltac:(lia)).
  rewrite (wrap_u32_id (_ * 4)) by (unfold u32_range; lia). rewrite Heq. apply wrap_u32_id. unfold u32_range. lia.
Qed.
Definition header_of (idx : BreakpadIndex) : BreakpadSymindexFileHeader :=
  let len := slen (module_info_bytes idx) in
  let count {A} (l : list A) := Z.of_nat (length l) in
  let files_at := 48 + len + padding_of len in
  let origins_at := files_at + 16 * count (inner (files idx)) in
  let addresses_at := origins_at + 16 * count (inner (inline_origins idx)) in
  {| magic := "SYMINDEX"; version := 1; module_info_offset := 48; module_info_len := len;
     file_count := count (inner (files idx)); file_entries_offset := files_at;
     inline_origin_count := count (inner (inline_origins idx)); inline_origin_entries_offset := origins_at;
     symbol_count := count (symbol_addresses idx); symbol_addresses_offset := addresses_at;
     symbol_entries_offset := addresses_at + 4 * count (symbol_addresses idx) |}.
Lemma layout_ok idx :
  file_size idx < 2 ^ 32 →
  layout idx = (header_of idx, padding_of (slen (module_info_bytes idx)), file_size idx) ∧ header_ok (header_of idx).
Proof.
  intros Hlt. unfold file_size in Hlt. pose proof (slen_nonneg (module_info_bytes idx)) as Hlen.
  unfold layout, header_of, file_size, u32_of_usize. cbn zeta. revert Hlt Hlen.
  generalize (slen (module_info_bytes idx)) as len, (length (inner (files idx))) as nf,
    (length (inner (inline_origins idx))) as no, (length (symbol_addresses idx)) as ns.
  intros len nf no ns Hlt Hlen.
  assert (0 ≤ padding_of len < 4) as Hp by (apply Z.mod_pos_bound; lia).
  assert (∀ z, 0 ≤ z < 2 ^ 32 → wrap_u32 z = z) as Hw by (intros; by apply wrap_u32_id).
  rewrite (Hw len), align_ok by lia.
  rewrite (Hw (Z.of_nat nf)), (Hw (Z.of_nat no)), (Hw (Z.of_nat ns)) by lia.
  unfold mul_u32, FILE_OR_INLINE_ORIGIN_ENTRY_SIZE, SYMBOL_ADDRESS_SIZE, SYMBOL_ENTRY_SIZE, HEADER_SIZE, add_u32.
  rewrite (Hw (Z.of_nat nf * 16)), (Hw (Z.of_nat no * 16)), (Hw (Z.of_nat ns * 4)), (Hw (Z.of_nat ns * 16)) by lia.
  rewrite (Hw (48 + len)) by lia. rewrite (Hw (48 + len + padding_of len)) by lia.
  rewrite (Hw (48 + len + padding_of len + Z.of_nat nf * 16)) by lia.
  rewrite (Hw (48 + len + padding_of len + Z.of_nat nf * 16 + Z.of_nat no * 16)) by lia.
  rewrite (Hw (48 + len + padding_of len + Z.of_nat nf * 16 + Z.of_nat no * 16 + Z.of_nat ns * 4)) by lia.
  rewrite Hw by lia. split; [f_equal; [do 2 f_equal; lia|lia]|]. split; [done|].
  cbn. unfold u32_range. repeat constructor; lia.
Qed.
(** What is written, part by part. *)
Definition written (idx : BreakpadIndex) : string :=
  header_bytes (header_of idx) +:+ module_info_bytes idx +:+
  zeros (Z.to_nat (padding_of (slen (module_info_bytes idx)))) +:+
  all_bytes (entry_of_item <$> inner (files idx)) +:+ all_bytes (entry_of_item <$> inner (inline_origins idx)) +:+
  all_bytes (le_bytes 4 <$> symbol_addresses idx) +:+ all_bytes (entry_of_symbol <$> symbol_offsets idx).
Lemma zeros_length n : slen (zeros n) = Z.of_nat n.
Proof. unfold slen. induction n as [|n IH]; [done|]. cbn [zeros String.length]. lia. Qed.
Lemma address_bytes_length z : String.length (le_bytes 4 z) = 4%nat.
Proof. done. Qed.
Lemma item_bytes_length `{FileOrInlineOrigin A} (x : A) : String.length (entry_of_item x) = 16%nat.
Proof. unfold entry_of_item. by destruct (offset_and_length x). Qed.
Lemma symbol_bytes_length x : String.length (entry_of_symbol x) = 16%nat.
Proof. done. Qed.
Lemma written_length idx :
  header_ok (header_of idx) → length (symbol_addresses idx) = length (symbol_offsets idx) →
  slen (written idx) = file_size idx.
Proof.
  intros Hh Hlen. unfold written, file_size. rewrite !slen_app, header_length, zeros_length by done.
  rewrite !(encoded_size entry_of_item 16) by apply item_bytes_length.
  rewrite (encoded_size entry_of_symbol 16) by apply symbol_bytes_length.
  rewrite (encoded_size _ 4) by apply address_bytes_length. rewrite Hlen.
  pose proof (Z.mod_pos_bound (- slen (module_info_bytes idx)) 4 ltac:(lia)). unfold padding_of, HEADER_SIZE. lia.
Qed.
Lemma serialize_written idx :
  file_size idx < 2 ^ 32 → length (symbol_addresses idx) = length (symbol_offsets idx) →
  serialize_to_bytes idx = Ok (written idx).
Proof.
  intros Hlt Hlen. destruct (layout_ok idx Hlt) as [Hl Hh]. unfold serialize_to_bytes. rewrite Hl.
  pose proof (written_length idx Hh Hlen) as Hw. unfold written in Hw. rewrite Hw, Z.eqb_refl. done.
Qed.
(** The parts behind the module information are where the header says. *)
Lemma parts_at idx :
  file_size idx < 2 ^ 32 →
  let head := header_bytes (header_of idx) +:+ module_info_bytes idx +:+
    zeros (Z.to_nat (padding_of (slen (module_info_bytes idx)))) in
  let fs := all_bytes (entry_of_item <$> inner (files idx)) in
  let origins := all_bytes (entry_of_item <$> inner (inline_origins idx)) in
  let addresses := all_bytes (le_bytes 4 <$> symbol_addresses idx) in
  let syms := all_bytes (entry_of_symbol <$> symbol_offsets idx) in
  (written idx = head +:+ fs +:+ (origins +:+ addresses +:+ syms) ∧ file_entries_offset (header_of idx) = slen head) ∧
  (written idx = (head +:+ fs) +:+ origins +:+ (addresses +:+ syms) ∧
    inline_origin_entries_offset (header_of idx) = slen (head +:+ fs)) ∧
  (written idx = (head +:+ fs +:+ origins) +:+ addresses +:+ syms ∧
    symbol_addresses_offset (header_of idx) = slen (head +:+ fs +:+ origins)) ∧
  (written idx = (head +:+ fs +:+ origins +:+ addresses) +:+ syms +:+ "" ∧
    symbol_entries_offset (header_of idx) = slen (head +:+ fs +:+ origins +:+ addresses)).
Proof.
  intros Hlt. cbn zeta. destruct (layout_ok idx Hlt) as [_ Hh]. pose proof (header_length _ Hh) as Hhl.
  pose proof (Z.mod_pos_bound (- slen (module_info_bytes idx)) 4 ltac:(lia)) as Hpad.
  fold (padding_of (slen (module_info_bytes idx))) in Hpad. unfold written.
  rewrite !slen_app, !Hhl, !zeros_length, !(encoded_size entry_of_item 16) by apply item_bytes_length.
  rewrite (encoded_size (le_bytes 4) 4) by apply address_bytes_length. rewrite !Z2Nat.id by lia. unfold HEADER_SIZE.
  rewrite !app_assoc_string, app_nil. cbn. split_and!; first [done | lia].
Qed.
Lemma parse_written idx :
  file_size idx < 2 ^ 32 → index_ok idx → parse_symindex_file (written idx) = Some (Ok (inr idx)).
Proof.
  intros Hlt [Hf Ho Ha Hs Hlen Hi]. destruct (layout_ok idx Hlt) as [_ Hh]. pose proof (header_length _ Hh) as Hhl.
  pose proof (Z.mod_pos_bound (- slen (module_info_bytes idx)) 4 ltac:(lia)) as Hpad. fold (padding_of (slen (module_info_bytes idx))) in Hpad.
  pose proof (slen_nonneg (module_info_bytes idx)) as Hil.
  unfold parse_symindex_file. set (data := written idx) at 1 2 3 4 5 6.
  assert (get_range data 0 HEADER_SIZE = Some (header_bytes (header_of idx))) as ->.
  { rewrite <-Hhl. apply (get_range_at ""). }
  cbn [ok_or]. rewrite read_header_bytes by done. cbn zeta. rewrite bool_decide_eq_true_2 by done. cbn [negb].
  assert (∀ z, z < 2 ^ 32 → checked_u32 z = Some z) as Hcheck.
  { intros z Hz. unfold checked_u32. by rewrite (proj2 (Z.ltb_lt _ _)). }
  unfold file_size in Hlt. rewrite Hcheck by (cbn; lia). cbn [ok_or].
  assert (get_range data (module_info_offset (header_of idx))
            (module_info_offset (header_of idx) + module_info_len (header_of idx)) = Some (module_info_bytes idx)) as ->.
  { change (module_info_offset (header_of idx)) with HEADER_SIZE. rewrite <-Hhl. apply get_range_at. }
  cbn [ok_or]. rewrite Hi. cbn [mbind loops_bind ok_or].
  destruct (parts_at idx Hlt) as ((Hdf & Hof) & (Hdo & Hoo) & (Hda & Hoa) & (Hds & Hos)). subst data.
  rewrite (read_list_written entry_of_item 16 item_bytes_length _ _ _ _ _ _ (inner (files idx)) _ _ _ _ ltac:(lia) Hdf
    eq_refl eq_refl Hof) by (cbn; lia).
  rewrite (read_list_written entry_of_item 16 item_bytes_length _ _ _ _ _ _ (inner (inline_origins idx)) _ _ _ _
    ltac:(lia) Hdo eq_refl eq_refl Hoo) by (cbn; lia).
  rewrite (read_list_written (le_bytes 4) 4 address_bytes_length _ _ _ _ _ _ (symbol_addresses idx) _ _ _ _ ltac:(lia) Hda
    eq_refl eq_refl Hoa) by (cbn; lia).
  rewrite (read_list_written entry_of_symbol 16 symbol_bytes_length _ _ _ _ _ _ (symbol_offsets idx) _ _ _ _ ltac:(lia) Hds
    eq_refl (f_equal Z.of_nat Hlen) Hos) by (cbn; lia).
  rewrite (decoded entry_of_item file_of_entry file_ok file_written) by done.
  rewrite (decoded entry_of_item origin_of_entry origin_ok origin_written) by done.
  rewrite (decoded entry_of_symbol symbol_of_entry symbol_ok symbol_written) by done.
  rewrite (decoded (le_bytes 4) le_value u32_range (λ z, le_value_bytes 4 z)) by done.
  by destruct idx as [? ? ? ? ? ? ? ? ? [?] [?]].
Qed.

(** * The ranges of the numbers in a file *)
Lemma lor_bound n a b : 0 ≤ n → 0 ≤ a < 2 ^ n → 0 ≤ b < 2 ^ n → 0 ≤ Z.lor a b < 2 ^ n.
Proof.
  intros Hn Ha Hb. split; [by apply Z.lor_nonneg; lia|]. destruct (decide (Z.lor a b = 0)) as [->|Hne]; [lia|].
  assert (0 < Z.lor a b) by (pose proof (proj2 (Z.lor_nonneg a b) ltac:(lia)); lia).
  apply Z.log2_lt_pow2; [done|]. rewrite Z.log2_lor by lia.
  destruct (decide (n = 0)) as [->|]; [assert (a = 0) as -> by lia; assert (b = 0) as -> by lia; done|].
  apply Z.max_lub_lt.
  - destruct (decide (a = 0)) as [->|]; [simpl; lia|]. apply Z.log2_lt_pow2; lia.
  - destruct (decide (b = 0)) as [->|]; [simpl; lia|]. apply Z.log2_lt_pow2; lia.
Qed.
Lemma hex_loop_range size max_len res input k res' remaining :
  (0 < size)%nat → 0 ≤ res < 2 ^ (8 * Z.of_nat size) →
  hex_loop size max_len res input = (k, res', remaining) → 0 ≤ res' < 2 ^ (8 * Z.of_nat size).
Proof.
  intros Hs. revert res input k res' remaining. induction max_len as [|n IH]; intros res input k res' remaining Hr;
    [intros [= <- <- <-]; done|]. destruct input as [|v input]; [intros [= <- <- <-]; done|]. cbn [hex_loop].
  destruct (Z.ltb_spec (digit_value v) 16) as [Hd|Hd]; [|intros [= <- <- <-]; done].
  destruct (hex_loop size n _ input) as [[k1 res1] rem1] eqn:Hl. intros [= <- <- <-].
  apply (IH _ _ _ _ _) in Hl; [done|]. apply lor_bound; [lia|apply Z.mod_pos_bound; lia|].
  pose proof (digit_value_nonneg v). assert (2 ^ 8 ≤ 2 ^ (8 * Z.of_nat size)) by (apply Z.pow_le_mono_r; lia). lia.
Qed.
Lemma hex_u32_range s r z : hex_u32 s = Done r z → u32_range z.
Proof.
  unfold hex_u32, hex_str. destruct (hex_loop 4 _ 0 s) as [[k res] remaining] eqn:Hl.
  destruct (k =? 0)%nat; [done|]. intros [= <- <-]. apply hex_loop_range in Hl; [exact Hl|lia|done].
Qed.
Lemma decimal_loop_nonneg max_len res input k res' remaining :
  0 ≤ res → decimal_loop max_len res input = (k, res', remaining) → 0 ≤ res'.
Proof.
  revert res input k res' remaining. induction max_len as [|n IH]; intros res input k res' remaining Hr;
    [intros [= <- <- <-]; done|]. destruct input as [|v input]; [intros [= <- <- <-]; done|]. cbn [decimal_loop].
  destruct (digit_value v <? 10); [|intros [= <- <- <-]; done].
  destruct (decimal_loop n _ input) as [[k1 res1] rem1] eqn:Hl. intros [= <- <- <-].
  apply (IH _ _ _ _ _) in Hl; [done|]. pose proof (digit_value_nonneg v). lia.
Qed.
Lemma decimal_u32_range s r z : decimal_u32 s = Done r z → u32_range z.
Proof.
  unfold decimal_u32. destruct (decimal_loop 10 0 s) as [[k res] remaining] eqn:Hl. destruct (k =? 0)%nat; [done|].
  destruct (Z.ltb_spec res (2 ^ 32)); [|done]. intros [= <- <-]. apply decimal_loop_nonneg in Hl; [|lia]. by split.
Qed.
(** A record with a number is a tag, the number and the rest. *)
Lemma numbered_line_range t s r i name' :
  and_then (record_tag t s) (λ input _,
    and_then (cut (tuple2 (terminated decimal_u32 space1) rest) input) Done) = Done r (i, name') → u32_range i.
Proof.
  intros (r1 & ? & _ & Hq)%and_then_Done. apply and_then_Done in Hq as (r2 & [i' n'] & Hc & [= <- <- <-]).
  apply cut_Done in Hc. rewrite tuple2_spec in Hc. apply and_then_Done in Hc as (r3 & i3 & Ht & Hc).
  apply and_then_Done in Hc as (r4 & n4 & _ & [= <- <- <-]). apply terminated_Done in Ht as (r5 & ? & Ht & _).
  by apply decimal_u32_range in Ht.
Qed.
Lemma func_line_range s r a z name' : func_line s = Done r (a, z, name') → u32_range a.
Proof.
  intros (r1 & ? & _ & Hq)%and_then_Done. apply and_then_Done in Hq as (r2 & [[[[m a'] z'] p] n'] & Hc & [= <- <- <- <-]).
  apply cut_Done in Hc. rewrite tuple5_spec, tuple4_spec in Hc. apply and_then_Done in Hc as (? & ? & Hc & Hd).
  apply and_then_Done in Hc as (? & ? & _ & Hc). apply and_then_Done in Hc as (? & ? & Ha & Hc).
  apply and_then_Done in Hc as (? & ? & _ & Hc). apply and_then_Done in Hc as (? & ? & _ & [= <- <-]).
  apply and_then_Done in Hd as (? & ? & _ & [= <- <- <- <- <- <-]). apply terminated_Done in Ha as (? & ? & Ha & _).
  by apply hex_u32_range in Ha.
Qed.
Lemma record_of_ranges s :
  match record_of s with
  | FileRecord z | OriginRecord z | PublicRecord z | FuncRecord z => u32_range z
  | _ => True
  end.
Proof.
  unfold record_of.
  destruct (ok (file_line s)) as [[r [i n]]|] eqn:Hf; [by apply ok_Some, numbered_line_range in Hf|].
  destruct (ok (inline_origin_line s)) as [[r [i n]]|] eqn:Ho; [by apply ok_Some, numbered_line_range in Ho|].
  destruct (ok (public_line s)) as [[r [a n]]|] eqn:Hp.
  { apply ok_Some in Hp. apply and_then_Done in Hp as (? & ? & _ & Hp).
    apply and_then_Done in Hp as (? & [[[? ?] ?] ?] & _ & [= <- <- <-]). apply wrap_u32_range. }
  destruct (ok (func_line s)) as [[r [[a z] n]]|] eqn:Hfu; [by apply ok_Some, func_line_range in Hfu|].
  by repeat case_match.
Qed.

(** * The indexes of files *)
Notation line := (Z * string)%type.
Lemma ordered_Forall start ls e : ordered start ls e → Forall (λ l, start ≤ l.1 ≤ e) ls.
Proof.
  revert start. induction ls as [|l ls IH]; intros start; [constructor|]. intros [Hle Ho].
  pose proof (ordered_le _ _ _ Ho). constructor; [lia|]. eapply Forall_impl; [by apply (IH (l.1 + 1))|]. cbn. lia.
Qed.
Lemma item_from_records {A} `{FileOrInlineOrigin A} (m : ItemMap A) (l : list A) x :
  StronglySorted (λ x y, item_index x < item_index y) (inner m) →
  (∀ k, get m k = Ok (first item_index k l)) → x ∈ inner m → x ∈ l.
Proof.
  intros Hs Hg Hx. rewrite (first_elem item_index _ _ Hs) in Hx. specialize (Hg (item_index x)).
  rewrite get_first in Hg by done. injection Hg as Hg. rewrite Hx in Hg. symmetry in Hg. by apply first_Some in Hg as [? _].
Qed.
Section lines.
Context (ls : list line) (e : Z) (Hls : Forall (λ l, 0 ≤ l.1 ≤ e) ls) (He : e < 2 ^ 64).
Lemma files_of_ok : Forall file_ok (files_of ls).
Proof using Hls He.
  unfold files_of. apply Forall_forall. intros f (l & Hl & Hf)%list_elem_of_omap. rewrite Forall_forall in Hls.
  specialize (Hls l Hl). cbn in Hls. pose proof (record_of_ranges (trim_cr l.2)) as Hr. unfold record_at in Hf.
  destruct (record_of _); simplify_eq. split; [exact Hr|]. cbn. split; [apply wrap_u32_range|]. unfold u64_range. lia.
Qed.
Lemma origins_of_ok : Forall origin_ok (origins_of ls).
Proof using Hls He.
  unfold origins_of. apply Forall_forall. intros f (l & Hl & Hf)%list_elem_of_omap. rewrite Forall_forall in Hls.
  specialize (Hls l Hl). cbn in Hls. pose proof (record_of_ranges (trim_cr l.2)) as Hr. unfold record_at in Hf.
  destruct (record_of _); simplify_eq. split; [exact Hr|]. cbn. split; [apply wrap_u32_range|]. unfold u64_range. lia.
Qed.
End lines.
Lemma symbols_of_ok ls e :
  Forall (λ l, 0 ≤ l.1 ≤ e) ls → e < 2 ^ 64 → Forall (λ s, u32_range s.1 ∧ symbol_ok s.2) (symbols_of ls e).
Proof.
  intros Hls He. induction Hls as [|l ls Hl Hls IH]; [constructor|]. cbn [symbols_of].
  pose proof (record_of_ranges (trim_cr l.2)) as Hr. fold (record_at l) in Hr.
  assert (u64_range l.1) by (unfold u64_range; lia).
  destruct (record_at l); try exact IH; constructor; try exact IH; cbn; split_and!; first [done|apply wrap_u32_range].
Qed.
(** The symbols of an index are symbols of the file. *)
Lemma indexes_symbol line' info rest idx e i a sym :
  indexes line' info rest e idx → symbol_addresses idx !! i = Some a → symbol_offsets idx !! i = Some sym →
  (a, sym) ∈ symbols_of rest e.
Proof.
  intros Hi Ha Hsym. pose proof (proj1 (indexes_symbols _ _ _ _ _ Hi a sym) ltac:(by exists i)) as Hf.
  by apply first_Some in Hf as [Hf _].
Qed.
Lemma indexes_offset line' info rest idx e sym :
  indexes line' info rest e idx → sym ∈ symbol_offsets idx → ∃ a, a ∈ symbol_addresses idx ∧ (a, sym) ∈ symbols_of rest e.
Proof.
  intros Hi [i Hs]%list_elem_of_lookup. destruct (lookup_lt_is_Some_2 (symbol_addresses idx) i) as [a Ha].
  { rewrite (indexes_length _ _ _ _ _ Hi). by eapply lookup_lt_Some. }
  exists a. split; [by eapply list_elem_of_lookup_2|]. by eapply indexes_symbol.
Qed.
Lemma indexes_address line' info rest idx e a :
  indexes line' info rest e idx → a ∈ symbol_addresses idx → ∃ sym, (a, sym) ∈ symbols_of rest e.
Proof.
  intros Hi [i Ha]%list_elem_of_lookup. destruct (lookup_lt_is_Some_2 (symbol_offsets idx) i) as [sym Hs].
  { rewrite <-(indexes_length _ _ _ _ _ Hi). by eapply lookup_lt_Some. }
  exists sym. by eapply indexes_symbol.
Qed.
Lemma indexes_symbols_ok line' info rest idx e :
  indexes line' info rest e idx → ordered 0 rest e → e < 2 ^ 64 →
  Forall u32_range (symbol_addresses idx) ∧ Forall symbol_ok (symbol_offsets idx).
Proof.
  intros Hi Ho He. pose proof (symbols_of_ok rest e (ordered_Forall _ _ _ Ho) He) as Hsyms.
  rewrite Forall_forall in Hsyms. rewrite !Forall_forall. split.
  - intros a Ha. destruct (indexes_address _ _ _ _ _ _ Hi Ha) as [sym Hs]. exact (proj1 (Hsyms _ Hs)).
  - intros sym Hs. destruct (indexes_offset _ _ _ _ _ _ Hi Hs) as (a & _ & Ha). exact (proj2 (Hsyms _ Ha)).
Qed.
Lemma indexes_ok line' info rest idx e :
  indexes line' info rest e idx → ordered 0 rest e → e < 2 ^ 64 →
  module_info_lines (module_info_bytes idx) =
    Some (Ok (Some (debug_id idx, os idx, arch idx, debug_name idx), code_id idx, name idx)) →
  index_ok idx.
Proof.
  intros Hi Ho He Hinfo. pose proof (ordered_Forall _ _ _ Ho) as Hls.
  destruct (indexes_symbols_ok _ _ _ _ _ Hi Ho He) as [Ha Hs]. split; try done; [..|exact (indexes_length _ _ _ _ _ Hi)].
  - apply Forall_forall. intros f Hf. pose proof (files_of_ok rest e Hls He) as Hok. rewrite Forall_forall in Hok.
    apply Hok. eapply item_from_records; [exact (indexes_files_sorted _ _ _ _ _ Hi)|apply Hi|done].
  - apply Forall_forall. intros f Hf. pose proof (origins_of_ok rest e Hls He) as Hok. rewrite Forall_forall in Hok.
    apply Hok. eapply item_from_records; [exact (indexes_origins_sorted _ _ _ _ _ Hi)|apply Hi|done].
Qed.

(** ** The lines of the module information *)
Lemma module_info_lines_all bytes :
  slen bytes < 2 ^ 64 →
  module_info_lines bytes =
    Some (LineBuffer.call_all module_info_step (LineBuffer.all_lines bytes) (None, None, None)).
Proof.
  intros Hlt. pose proof (LineBuffer.chunks_make_no_difference module_info_step [bytes] (None, None, None) Hlt) as Hc.
  unfold module_info_lines. cbn [LineBuffer.consume_all String.concat] in Hc.
  destruct (LineBuffer.consume _ _ _ _) as [[[b s]|]|]; cbn [mbind loops_bind returned] in Hc |- *; [| |done].
  - injection Hc as ->. unfold returned. by destruct (LineBuffer.call_all _ _ _).
  - injection Hc as Hc. by destruct (LineBuffer.call_all _ _ _).
Qed.
Lemma joined_cons bytes i is' : joined bytes (i :: is') = bytes +:+ LF +:+ joined i is'.
Proof.
  unfold joined. cbn [foldl]. revert i. induction is' as [|j is' IH]; intros i; [done|]. cbn [foldl].
  by rewrite <-IH, !app_assoc_string.
Qed.
Lemma joined_lines start l ls :
  Forall LineBuffer.no_break (l :: ls) →
  let '(lines', last') := LineBuffer.text_lines start "" (joined l ls) in lines'.*2 ++ [last'.2] = l :: ls.
Proof.
  revert start l. induction ls as [|i ls IH]; intros start l [Hl Hls]%Forall_cons.
  - rewrite LineBuffer.text_lines_split. unfold joined. cbn [foldl].
    assert (split_once l LF = None) as -> by exact Hl. done.
  - rewrite joined_cons, LineBuffer.text_lines_split.
    assert (split_once (l +:+ LF +:+ joined i ls) LF = Some (l, joined i ls)) as -> by (by apply split_once_char).
    specialize (IH (start + slen ("" +:+ l) + 1) i Hls). destruct (LineBuffer.text_lines _ "" _) as [lines' last'].
    cbn. f_equal. exact IH.
Qed.
Lemma all_joined_lines l ls :
  Forall (λ l, LineBuffer.no_break l ∧ is_empty l = false) (l :: ls) → (LineBuffer.all_lines (joined l ls)).*2 = l :: ls.
Proof.
  intros Hl. pose proof (joined_lines 0 l ls) as Hj. unfold LineBuffer.all_lines.
  destruct (LineBuffer.text_lines 0 "" (joined l ls)) as [lines' last'].
  assert (Forall LineBuffer.no_break (l :: ls)) as Hn by (eapply Forall_impl; [exact Hl|]; by intros ? []).
  specialize (Hj Hn). rewrite <-Hj in Hl. apply Forall_app in Hl as [_ [[_ He] _]%Forall_cons]. rewrite He, fmap_app. exact Hj.
Qed.
Lemma call_all_lines ls s :
  LineBuffer.call_all module_info_step ls s = foldl (λ r l, r ≫= module_info_step 0 l) (Ok s) ls.*2.
Proof.
  revert s. induction ls as [|[o l] ls IH]; intros s; [done|]. cbn [LineBuffer.call_all fmap list_fmap foldl snd].
  change (module_info_step o l s) with (module_info_step 0 l s). cbn [mbind res_bind].
  destruct (module_info_step 0 l s) as [t|]; [apply IH|]. cbn [mbind res_bind].
  clear. induction ls as [|x ls IH]; [done|exact IH].
Qed.
Lemma info_text_no_module t : starts_with t "INFO " = true → info_of t = None.
Proof.
  intros [r ->]%starts_with_true. unfold info_of, module_line, record_tag. by rewrite terminated_spec, tag_spec.
Qed.
Lemma info_steps infos ids info c n :
  Forall (λ t, starts_with t "INFO " = true) infos →
  Forall2 (λ p c, CodeIds.from_str p.1 = Ok c) (omap (λ input, snd <$> ok (info_code_id_line input)) infos) ids →
  foldl (λ r l, r ≫= module_info_step 0 l) (Ok (Some info, c, n)) infos =
    Ok (Some info, default c (last ids),
        default n (snd <$> last (omap (λ input, snd <$> ok (info_code_id_line input)) infos))).
Proof.
  intros Hi. revert ids c n. induction Hi as [|t infos Ht Hi IH]; intros ids c n Hids.
  { cbn in Hids |- *. by inversion Hids. }
  cbn [foldl mbind res_bind]. unfold module_info_step at 2. rewrite info_text_no_module by done.
  cbn [omap list_omap] in Hids |- *. destruct (ok (info_code_id_line t)) as [[r [id nm]]|]; cbn [fmap option_fmap option_map] in Hids |- *.
  - inversion Hids as [|? c1 ? ids' Hc Hids' Heq1 Heq2]; subst. cbn in Hc. rewrite Hc. cbn [mbind res_bind].
    rewrite (IH ids' c1 nm Hids'). cbn [snd]. f_equal. f_equal; [f_equal|].
    + rewrite last_cons. by destruct (last ids').
    + rewrite last_cons. by destruct (last (omap _ infos)).
  - by apply IH.
Qed.
Lemma trim_cr_prefix s : ∃ r, s = trim_cr s +:+ r.
Proof.
  induction s as [|c s [r IH]]; [by exists ""|]. cbn [trim_cr]. destruct (trim_cr s) as [|d t].
  - destruct (decide _); [by exists (String c s)|]. by exists s.
  - exists r. by rewrite app_cons, <-IH.
Qed.
Lemma no_break_trim s : LineBuffer.no_break s → LineBuffer.no_break (trim_cr s).
Proof. destruct (trim_cr_prefix s) as [r Hr]. rewrite Hr at 1. by intros [? _]%lacks_app. Qed.
Lemma after_module_spec ls line' info rest :
  Forall (λ l, LineBuffer.no_break l.2) ls → after_module ls = Some (line', info, rest) →
  LineBuffer.no_break line' ∧ info_of line' = Some info ∧ Forall (λ l, LineBuffer.no_break l.2) rest.
Proof.
  induction 1 as [|l ls Hl Hls IH]; [done|]. cbn [after_module].
  destruct (info_of (trim_cr l.2)) as [info'|] eqn:Hi; [|done]. intros [= <- <- <-].
  split_and!; [by apply no_break_trim|done..].
Qed.
Lemma info_of_not_empty t info : info_of t = Some info → is_empty t = false.
Proof.
  destruct t as [|c t]; [|done]. unfold info_of, module_line, record_tag. by rewrite terminated_spec, tag_spec.
Qed.
Lemma info_lines_spec ls :
  Forall (λ l, LineBuffer.no_break l.2) ls →
  Forall (λ t, LineBuffer.no_break t ∧ is_empty t = false) (info_lines ls) ∧
  Forall (λ t, starts_with t "INFO " = true) (info_lines ls).
Proof.
  intros Hls. unfold info_lines. rewrite !Forall_forall.
  assert (∀ t, t ∈ omap (λ l, if is_info (record_at l) then Some (trim_cr l.2) else None) ls →
    LineBuffer.no_break t ∧ starts_with t "INFO " = true) as Ht.
  { intros t (l & Hl & Hf)%list_elem_of_omap. rewrite Forall_forall in Hls. specialize (Hls l Hl).
    destruct (is_info (record_at l)) eqn:Hi; [|done]. injection Hf as <-. split; [by apply no_break_trim|].
    unfold record_at, record_of in Hi. repeat case_match; simplify_eq; done. }
  split; intros t Hin; destruct (Ht t Hin) as [Hb Hs]; [split; [done|]|done].
  by destruct t.
Qed.
Lemma indexes_module_info line' info rest e idx :
  indexes line' info rest e idx → LineBuffer.no_break line' → info_of line' = Some info →
  Forall (λ l, LineBuffer.no_break l.2) rest → slen (module_info_bytes idx) < 2 ^ 64 →
  module_info_lines (module_info_bytes idx) =
    Some (Ok (Some (debug_id idx, os idx, arch idx, debug_name idx), code_id idx, name idx)).
Proof.
  intros Hi Hb Hinfo Hrest Hlt. destruct (info_lines_spec rest Hrest) as [Hlines Hstart].
  destruct (indexes_id _ _ _ _ _ Hi) as (ids & Hids & Hid). rewrite module_info_lines_all by done. f_equal.
  rewrite call_all_lines, (indexes_bytes _ _ _ _ _ Hi), all_joined_lines.
  2: { constructor; [|done]. split; [done|]. by eapply info_of_not_empty. }
  cbn [foldl mbind res_bind]. unfold module_info_step at 2. rewrite Hinfo.
  rewrite (info_steps _ ids info None None) by done.
  rewrite <-(indexes_info _ _ _ _ _ Hi), Hid, (indexes_name _ _ _ _ _ Hi). done.
Qed.

Lemma written_index_read (chunks : list string) (idx : BreakpadIndex) :
  slen (String.concat "" chunks) < 2 ^ 64 →
  index_chunks chunks = Some (Ok (inr idx)) →
  file_size idx < 2 ^ 32 →
  ∃ bytes, serialize_to_bytes idx = Ok bytes ∧ slen bytes = file_size idx ∧
    parse_symindex_file bytes = Some (Ok (inr idx)).
Proof.
  intros Hlt Hidx Hsize. destruct (index_chunks_indexes chunks idx Hlt Hidx) as (line' & info & rest & Ham & Hi & Ho).
  pose proof (LineBuffer.all_lines_at (String.concat "" chunks)) as Hat.
  assert (Forall (λ l, LineBuffer.no_break l.2) (LineBuffer.all_lines (String.concat "" chunks))) as Hnb.
  { eapply Forall_impl; [exact Hat|]. by intros l (? & ? & _ & _ & ? & _). }
  destruct (after_module_spec _ _ _ _ Hnb Ham) as (Hb & Hinfo & Hrest).
  pose proof (indexes_length _ _ _ _ _ Hi) as Hlen. pose proof (slen_nonneg (module_info_bytes idx)).
  pose proof (Z.mod_pos_bound (- slen (module_info_bytes idx)) 4 ltac:(lia)) as Hpad.
  assert (slen (module_info_bytes idx) < 2 ^ 64) as Hil by (unfold file_size, padding_of in Hsize; lia).
  exists (written idx). split; [by apply serialize_written|]. split; [by apply written_length, Hlen; apply layout_ok|].
  apply parse_written; [done|]. eapply indexes_ok; [exact Hi|exact Ho|done|]. by eapply indexes_module_info.
Qed.

(** C15: The index that the parser makes of a symbol file, written as a symindex file
    of less than 2^32 bytes, is read back as the same index: the module information,
    the code ID and the name from its text, the files, the inline origins and the
    symbols from their entries. Writing does not panic, and what is written has the
    size that was reserved. *)
Theorem symindex_round_trip (chunks : list string) (idx : BreakpadIndex) :
  slen (String.concat "" chunks) < 2 ^ 64 →
  index_chunks chunks = Some (Ok (inr idx)) →
  file_size idx < 2 ^ 32 →
  ∃ bytes, serialize_to_bytes idx = Ok bytes ∧ slen bytes = file_size idx ∧
    parse_symindex_file bytes = Some (Ok (inr idx)).
Proof. apply written_index_read. Qed.
End parts.

#[local] Existing Instance string_debug_ids.
#[local] Existing Instance Nom.documented.
#[local] Existing Instance CodeIds.hex_uuids.
#[local] Existing Instance any_breakpad_id.
Example symindex_round_trip_witness :
  ∃ idx bytes, index_chunks example_chunks = Some (Ok (inr idx)) ∧ symbol_addresses idx = [32; 4448] ∧
    serialize_to_bytes idx = Ok bytes ∧ slen bytes = 192 ∧ parse_symindex_file bytes = Some (Ok (inr idx)).
Proof.
  destruct (index_chunks example_chunks) as [[[e|idx]|]|] eqn:Hidx; vm_compute in Hidx; [done| |done..].
  injection Hidx as Heq. assert (index_chunks example_chunks = Some (Ok (inr idx))) as Hi by (rewrite <-Heq; by vm_compute).
  destruct (symindex_round_trip example_chunks idx) as (bytes & Hs & Hlen & Hp).
  - done.
  - exact Hi.
  - rewrite <-Heq. by vm_compute.
  - exists idx, bytes. split_and!; [done|by rewrite <-Heq|exact Hs| |exact Hp]. rewrite Hlen, <-Heq. by vm_compute.
Defined.
End SymindexRoundTrip.
