(* ===== verification/MappedPath.v ===== *)
(** Source files that are hosted online (samply-symbols/src/mapped_path.rs, with
    [SourceFilePath] of shared.rs), and from raw paths of debug information to them:
    samply-symbols/src/path_mapper.rs. *)
From S2P Require Import Prelude RustStr Nom.
From stdpp Require Import options.
Open Scope Z_scope.

Module MappedPath.
Import RustStr Nom.

Inductive MappedPath :=
| Git (repo path rev : string)
| Hg (repo path rev : string)
| S3 (bucket digest path : string)
| Cargo (registry crate_name version path : string).
#[global] Instance MappedPath_eq_dec : EqDecision MappedPath.
Proof. solve_decision. Defined.

Definition to_special_path_str (p : MappedPath) : string :=
  match p with
  | Git repo path rev => "git:" +:+ repo +:+ ":" +:+ path +:+ ":" +:+ rev
  | Hg repo path rev => "hg:" +:+ repo +:+ ":" +:+ path +:+ ":" +:+ rev
  | S3 bucket digest path => "s3:" +:+ bucket +:+ ":" +:+ digest +:+ "/" +:+ path +:+ ":"
  | Cargo registry crate_name version path =>
      "cargo:" +:+ registry +:+ ":" +:+ crate_name +:+ "-" +:+ version +:+ ":" +:+ path
  end.
Definition display_path (p : MappedPath) : string :=
  match p with
  | Git _ path _ | Hg _ path _ | S3 _ _ path => path
  | Cargo _ crate_name version path => crate_name +:+ "-" +:+ version +:+ "/" +:+ path
  end.

Section parse.
Context `{Nom}.
(** [terminated(take_until1(t), tag(t))] *)
Definition up_to (t : string) : parser string := terminated (take_until1 t) (tag t).

(** * Special paths *)
Definition git_path : parser (string * string * string) := λ input,
  and_then (tag "git:" input) (λ input _,
  and_then (up_to ":" input) (λ input repo,
  and_then (up_to ":" input) (λ rev path, Done "" (repo, path, rev)))).
Definition hg_path : parser (string * string * string) := λ input,
  and_then (tag "hg:" input) (λ input _,
  and_then (up_to ":" input) (λ input repo,
  and_then (up_to ":" input) (λ rev path, Done "" (repo, path, rev)))).
Definition s3_path : parser (string * string * string) := λ input,
  and_then (tag "s3:" input) (λ input _,
  and_then (up_to ":" input) (λ input bucket,
  and_then (up_to "/" input) (λ input digest,
  and_then (terminated (take_until1 ":") (terminated (tag ":") eof) input) (λ _ path,
    Done "" (bucket, digest, path))))).
(** [rfind('-')] and the two parts around it. *)
Definition cargo_path : parser (string * string * string * string) := λ input,
  and_then (tag "cargo:" input) (λ input _,
  and_then (up_to ":" input) (λ input registry,
  and_then (up_to ":" input) (λ path crate_name_and_version,
    match rsplit_once crate_name_and_version "-" with
    | Some (crate_name, version) => Done "" (registry, crate_name, version, path)
    | None => Error
    end))).
Definition parse_special_path : parser MappedPath :=
  alt [map git_path (λ '(repo, path, rev), Git repo path rev);
       map hg_path (λ '(repo, path, rev), Hg repo path rev);
       map s3_path (λ '(bucket, digest, path), S3 bucket digest path);
       map cargo_path (λ '(registry, crate_name, version, path), Cargo registry crate_name version path)].
Definition from_special_path_str (special_path : string) : option MappedPath :=
  snd <$> ok (parse_special_path special_path).

(** * URLs *)
Definition github_url : parser (string * string * string) := λ input,
  and_then (tag "https://raw.githubusercontent.com/" input) (λ input _,
  and_then (up_to "/" input) (λ input org,
  and_then (up_to "/" input) (λ input repo_name,
  and_then (up_to "/" input) (λ path rev, Done "" ("github.com/" +:+ org +:+ "/" +:+ repo_name, path, rev))))).
Definition hg_url : parser (string * string * string) := λ input,
  and_then (tag "https://hg." input) (λ input _,
  and_then (up_to "/" input) (λ input host_rest,
  and_then (up_to "/raw-file/" input) (λ input repo,
  and_then (up_to "/" input) (λ path rev, Done "" ("hg." +:+ host_rest +:+ "/" +:+ repo, path, rev))))).
Definition s3_url : parser (string * string * string) := λ input,
  and_then (tag "https://" input) (λ input _,
  and_then (up_to ".s3.amazonaws.com/" input) (λ input bucket,
  and_then (up_to "/" input) (λ path digest, Done "" (bucket, digest, path)))).
Definition parse_url : parser MappedPath :=
  alt [map github_url (λ '(repo, path, rev), Git repo path rev);
       map hg_url (λ '(repo, path, rev), Hg repo path rev);
       map s3_url (λ '(bucket, digest, path), S3 bucket digest path)].
Definition from_url (url : string) : option MappedPath := snd <$> ok (parse_url url).

(** * Source files *)
Record SourceFilePath := { raw_path : string; mapped_path : option MappedPath }.
Definition new_path (raw : string) (mapped : option MappedPath) : SourceFilePath :=
  {| raw_path := raw; mapped_path := mapped |}.
Definition from_breakpad_path (raw : string) : SourceFilePath :=
  {| raw_path := raw; mapped_path := from_special_path_str raw |}.
Definition source_display_path (p : SourceFilePath) : string :=
  match mapped_path p with Some mapped => display_path mapped | None => raw_path p end.

(** * What a special path says *)

(** The paths whose parts can be told apart. *)
Definition part (c : ascii) (s : string) : Prop := s ≠ "" ∧ lacks c s.
Definition representable (p : MappedPath) : Prop :=
  match p with
  | Git repo path _ | Hg repo path _ => part ":" repo ∧ part ":" path
  | S3 bucket digest path => part ":" bucket ∧ part "/" digest ∧ part ":" path
  | Cargo registry crate_name version _ =>
      part ":" registry ∧ lacks ":" crate_name ∧ lacks ":" version ∧ lacks "-" version
  end.
Lemma char_app c r : String c "" +:+ r = String c r.
Proof. by rewrite app_cons, app_empty. Qed.
Lemma up_to_Done c s r a :
  up_to (String c "") s = Done r a ↔ s = a +:+ String c "" +:+ r ∧ part c a.
Proof.
  rewrite char_app. unfold up_to, part. rewrite terminated_Done. split.
  - intros (r' & b & Ht & Hb). rewrite take_until1_spec in Ht.
    destruct (split_once s (String c "")) as [[a' b']|] eqn:Hs; [|done]. apply split_once_char in Hs as [-> Hl].
    destruct (is_empty a') eqn:He; [done|]. injection Ht as <- <-. apply tag_Done in Hb as [Hb _].
    rewrite !char_app in Hb. injection Hb as ->. split; [done|]. split; [by destruct a'|done].
  - intros [-> [Hne Hl]]. exists (String c r), (String c ""). split; [|apply tag_Done; by rewrite char_app].
    rewrite take_until1_spec, (proj2 (split_once_char c _ a r) (conj eq_refl Hl)).
    destruct a; [done|]. cbn [is_empty]. by rewrite char_app.
Qed.
(** A tag and two parts that end in a colon. *)
Lemma two_parts_Done t s r x y z :
  and_then (tag t s) (λ input _,
    and_then (up_to ":" input) (λ input repo,
    and_then (up_to ":" input) (λ rev path, Done "" (repo, path, rev)))) = Done r (x, y, z) ↔
  r = "" ∧ s = t +:+ x +:+ ":" +:+ y +:+ ":" +:+ z ∧ part ":" x ∧ part ":" y.
Proof.
  split.
  - intros (r1 & ? & [-> _]%tag_Done & Hq)%and_then_Done. apply and_then_Done in Hq as (r2 & repo & [-> Hx]%up_to_Done & Hq).
    apply and_then_Done in Hq as (r3 & path & [-> Hy]%up_to_Done & [= <- <- <- <-]). done.
  - intros (-> & -> & Hx & Hy). apply and_then_Done. exists (x +:+ ":" +:+ y +:+ ":" +:+ z), t.
    split; [by apply tag_Done|]. apply and_then_Done. exists (y +:+ ":" +:+ z), x. split; [by apply up_to_Done|].
    apply and_then_Done. exists z, y. split; [by apply up_to_Done|done].
Qed.
Lemma s3_path_Done s r x y z :
  s3_path s = Done r (x, y, z) ↔ r = "" ∧ s = to_special_path_str (S3 x y z) ∧ representable (S3 x y z).
Proof.
  cbn [to_special_path_str representable]. unfold s3_path. split.
  - intros (r1 & ? & [-> _]%tag_Done & Hq)%and_then_Done. apply and_then_Done in Hq as (r2 & b & [-> Hx]%up_to_Done & Hq).
    apply and_then_Done in Hq as (r3 & d & [-> Hy]%up_to_Done & Hq).
    apply and_then_Done in Hq as (r4 & path & Hz & [= <- <- <- <-]). apply terminated_Done in Hz as (r5 & ? & Hz & He).
    apply terminated_Done in He as (r6 & ? & Ht & He). rewrite eof_spec in He. destruct r6; [|done].
    destruct (proj1 (up_to_Done ":" r3 "" path)) as [-> Hpart]; [apply terminated_Done; by eexists _, _|].
    rewrite app_nil. done.
  - intros (-> & -> & Hx & Hy & Hz). apply and_then_Done. eexists _, _. split; [by apply tag_Done|].
    apply and_then_Done. eexists _, _. split; [by apply up_to_Done|]. apply and_then_Done. eexists _, _.
    split; [by apply up_to_Done|]. apply and_then_Done. exists "", z. split; [|done]. apply terminated_Done.
    assert (up_to ":" (z +:+ ":") = Done "" z) as Hu by (apply up_to_Done; by rewrite app_nil).
    apply terminated_Done in Hu as (r' & b & Ht & Hb). exists r', b. split; [done|]. apply terminated_Done.
    exists "", "". split; [done|]. by rewrite eof_spec.
Qed.
Lemma cargo_path_Done s r x y v z :
  cargo_path s = Done r (x, y, v, z) ↔
    r = "" ∧ s = to_special_path_str (Cargo x y v z) ∧ representable (Cargo x y v z).
Proof.
  cbn [to_special_path_str representable]. unfold cargo_path. split.
  - intros (r1 & ? & [-> _]%tag_Done & Hq)%and_then_Done. apply and_then_Done in Hq as (r2 & reg & [-> Hx]%up_to_Done & Hq).
    apply and_then_Done in Hq as (r3 & nv & [-> Hnv]%up_to_Done & Hq).
    destruct (rsplit_once nv "-") as [[n v']|] eqn:Hr; [|done]. injection Hq as <- <- <- <- <-.
    apply rsplit_once_char in Hr as [-> Hv]. destruct Hnv as [_ Hl]. rewrite lacks_app, lacks_cons in Hl.
    destruct Hl as (Hy & _ & Hv'). rewrite <-(char_app "-"), !app_assoc_string. done.
  - intros (-> & -> & Hx & Hy & Hv & Hd). apply and_then_Done. eexists _, _. split; [by apply tag_Done|].
    apply and_then_Done. eexists _, _. split; [by apply up_to_Done|]. apply and_then_Done.
    exists z, (y +:+ String "-" v). split.
    + apply up_to_Done. rewrite <-(char_app "-" v), !app_assoc_string. split; [done|]. split.
      * rewrite char_app. by destruct y.
      * rewrite char_app, lacks_app, lacks_cons. done.
    + by rewrite (proj2 (rsplit_once_char "-" _ y v) (conj eq_refl Hd)).
Qed.
Lemma other_tag {A} t s (k : string → string → IResult A) :
  strip_prefix s t = None → and_then (tag t s) k = Error.
Proof. intros Hs. by rewrite tag_spec, Hs. Qed.
Lemma parse_special_path_Done s r p :
  parse_special_path s = Done r p ↔ r = "" ∧ s = to_special_path_str p ∧ representable p.
Proof.
  unfold parse_special_path. rewrite alt_spec. split.
  - intros (i & q & Hi & Hq & _)%first_of_Done. destruct i as [|[|[|[|i]]]]; [..|done]; injection Hi as <-;
      apply map_Done in Hq.
    + destruct Hq as ([[x y] z] & Hq & ->). by apply two_parts_Done in Hq as (-> & -> & ? & ?).
    + destruct Hq as ([[x y] z] & Hq & ->). by apply two_parts_Done in Hq as (-> & -> & ? & ?).
    + destruct Hq as ([[x y] z] & Hq & ->). by apply s3_path_Done in Hq.
    + destruct Hq as ([[[x y] v] z] & Hq & ->). by apply cargo_path_Done in Hq.
  - intros (-> & -> & Hr). destruct p as [x y z|x y z|x y z|x y v z]; cbn [first_of]; rewrite !map_spec.
    + assert (git_path (to_special_path_str (Git x y z)) = Done "" (x, y, z)) as -> by (by apply two_parts_Done). done.
    + unfold git_path. rewrite other_tag by done. cbn [and_then].
      assert (hg_path (to_special_path_str (Hg x y z)) = Done "" (x, y, z)) as -> by (by apply two_parts_Done). done.
    + unfold git_path, hg_path. rewrite !other_tag by done. cbn [and_then].
      assert (s3_path (to_special_path_str (S3 x y z)) = Done "" (x, y, z)) as -> by (by apply s3_path_Done). done.
    + unfold git_path, hg_path, s3_path. rewrite !other_tag by done. cbn [and_then].
      assert (cargo_path (to_special_path_str (Cargo x y v z)) = Done "" (x, y, v, z)) as -> by (by apply cargo_path_Done).
      done.
Qed.

(** C16: A special path is read as exactly the mapped path it is the text of, if the
    parts of that path can be told apart in it: there is no other text for a mapped
    path and no other mapped path for a text. *)
Theorem special_path_round_trip (s : string) (p : MappedPath) :
  from_special_path_str s = Some p ↔ s = to_special_path_str p ∧ representable p.
Proof.
  unfold from_special_path_str. rewrite fmap_Some. split.
  - intros ([r p'] & Hok & ->). apply ok_Some in Hok. by apply parse_special_path_Done in Hok as [_ ?].
  - intros Hs. exists ("", p). split; [|done]. by apply ok_Some, parse_special_path_Done.
Qed.
(** A package whose version has a hyphen is not read back as it was. *)
Lemma prerelease_version :
  from_special_path_str (to_special_path_str (Cargo "github.com-1ecc6299db9ec823" "nom" "7.0.0-alpha1" "src/lib.rs")) =
    Some (Cargo "github.com-1ecc6299db9ec823" "nom-7.0.0" "alpha1" "src/lib.rs").
Proof. apply special_path_round_trip. by vm_compute. Qed.
End parse.
End MappedPath.

(** A mapper that is asked first; it may change a state of its own. *)
Class ExtraPathMapper (E : Type) := extra_map_path : E → string → option MappedPath.MappedPath * E.
#[global] Instance no_extra_mapper : ExtraPathMapper () := λ e _, (None, e).

Module PathMapper.
Import RustStr Nom MappedPath.

Section paths.
Context `{Nom}.
Definition is_slash (c : ascii) : bool := bool_decide (c = "/"%char ∨ c = "\"%char).
Definition one_slash : parser ascii := one_of ["/"%char; "\"%char].
Definition take_till_slash : parser string := take_while1 (λ c, negb (is_slash c)).
Definition map_rustc_path (input : string) : option MappedPath :=
  match delimited (tag "/rustc/") take_till_slash (take_while1 is_slash) input with
  | Done input rev => Some (Git "github.com/rust-lang/rust" (replace input "\" "/") rev)
  | _ => None
  end.
Definition map_cargo_dep_path (input : string) : option MappedPath :=
  match
    preceded
      (tuple4
         (alt [take_until1 "/.cargo"; take_until1 "\.cargo"])
         (delimited one_slash (tag ".cargo") one_slash)
         (terminated (tag "registry") one_slash)
         (terminated (tag "src") one_slash))
      (tuple2 (terminated take_till_slash one_slash) (terminated take_till_slash one_slash)) input
  with
  | Done input (registry, crate_name_and_version) =>
      match rsplit_once crate_name_and_version "-" with
      | Some (crate_name, version) => Some (Cargo registry crate_name version (replace input "\" "/"))
      | None => None
      end
  | _ => None
  end.
(** What a raw path says by itself. *)
Definition map_raw_path (raw_path : string) : option MappedPath :=
  match map_rustc_path raw_path with
  | Some mapped_path => Some mapped_path
  | None =>
      match map_cargo_dep_path raw_path with Some mapped_path => Some mapped_path | None => None end
  end.
End paths.

Section mapper.
Context `{Nom} `{ExtraPathMapper E}.
Record PathMapper := { cache : gmap string (option MappedPath); extra_mapper : option E }.
Definition new_with_maybe_extra_mapper (extra : option E) : PathMapper := {| cache := ∅; extra_mapper := extra |}.
Definition new_mapper : PathMapper := new_with_maybe_extra_mapper None.
Definition map_path (m : PathMapper) (raw_path : string) : option MappedPath * PathMapper :=
  let '(extra_path, extra) :=
    match extra_mapper m with
    | Some e => let '(path, e') := extra_map_path e raw_path in (path, Some e')
    | None => (None, None)
    end in
  let m1 := {| cache := cache m; extra_mapper := extra |} in
  match extra_path with
  | Some mapped_path => (Some mapped_path, m1)
  | None =>
      match cache m !! raw_path with
      | Some value => (value, m1)
      | None =>
          let mapped_path := map_raw_path raw_path in
          (mapped_path, {| cache := <[raw_path := mapped_path]> (cache m); extra_mapper := extra |})
      end
  end.
Fixpoint map_paths (m : PathMapper) (paths : list string) : list (option MappedPath) :=
  match paths with
  | [] => []
  | path :: paths' => let '(mapped, m') := map_path m path in mapped :: map_paths m' paths'
  end.
(** Without a cache. *)
Fixpoint map_paths_uncached (extra : option E) (paths : list string) : list (option MappedPath) :=
  match paths with
  | [] => []
  | path :: paths' =>
      match extra with
      | Some e =>
          let '(mapped, e') := extra_map_path e path in
          (match mapped with Some p => Some p | None => map_raw_path path end) :: map_paths_uncached (Some e') paths'
      | None => map_raw_path path :: map_paths_uncached None paths'
      end
  end.
Definition cache_ok (m : PathMapper) : Prop := ∀ raw value, cache m !! raw = Some value → value = map_raw_path raw.
Lemma map_path_ok m raw :
  cache_ok m →
  let '(mapped, m') := map_path m raw in
  cache_ok m' ∧
  match extra_mapper m with
  | Some e =>
      let '(path, e') := extra_map_path e raw in
      extra_mapper m' = Some e' ∧ mapped = match path with Some p => Some p | None => map_raw_path raw end
  | None => extra_mapper m' = None ∧ mapped = map_raw_path raw
  end.
Proof.
  intros Hc. unfold map_path. assert (∀ extra, cache_ok {| cache := cache m; extra_mapper := extra |}) as Hkeep by done.
  assert (∀ extra, cache_ok {| cache := <[raw := map_raw_path raw]> (cache m); extra_mapper := extra |}) as Hnew.
  { intros extra r v. cbn. rewrite lookup_insert_Some. intros [[<- <-]|[_ Hr]]; [done|by apply Hc]. }
  destruct (extra_mapper m) as [e|].
  - destruct (extra_map_path e raw) as [[p|] e']; [done|].
    destruct (cache m !! raw) as [v|] eqn:Hv; [by rewrite (Hc _ _ Hv)|done].
  - destruct (cache m !! raw) as [v|] eqn:Hv; [by rewrite (Hc _ _ Hv)|done].
Qed.

(** The cache of a path mapper is never seen: for any sequence of raw paths, each
    is answered by the extra mapper if it knows the path, and else by what the path
    says by itself. *)
Theorem mapper_cache_invisible (extra : option E) (paths : list string) :
  map_paths (new_with_maybe_extra_mapper extra) paths = map_paths_uncached extra paths.
Proof.
  assert (∀ m, cache_ok m → map_paths m paths = map_paths_uncached (extra_mapper m) paths) as Hm; [|by apply Hm].
  induction paths as [|path paths IH]; intros m Hc; [done|]. cbn [map_paths map_paths_uncached].
  pose proof (map_path_ok m path Hc) as Hp. destruct (map_path m path) as [mapped m']. destruct Hp as [Hc' Hp].
  rewrite (IH m' Hc'). destruct (extra_mapper m) as [e|]; [|by destruct Hp as [-> ->]].
  destruct (extra_map_path e path) as [p e']. by destruct Hp as [-> ->].
Qed.
End mapper.

(** The path of a dependency of a Rust program. *)
Example cargo_path_mapped :
  map_raw_path (H := Nom.documented)
    "/Users/m/.cargo/registry/src/github.com-1ecc6299db9ec823/nom-7.1.3/src/bytes/complete.rs" =
    Some (Cargo "github.com-1ecc6299db9ec823" "nom" "7.1.3" "src/bytes/complete.rs").
Proof. by vm_compute. Qed.
Example rustc_path_mapped :
  map_raw_path (H := Nom.documented) "/rustc/e1884a\/library\std\src\rt.rs" =
    Some (Git "github.com/rust-lang/rust" "library/std/src/rt.rs" "e1884a").
Proof. by vm_compute. Qed.
End PathMapper.
