(* ===== verification/SymbolMaps.v ===== *)
(** What symbol maps are asked and what they answer, and the files they read: types
    of samply-symbols/src/shared.rs; and compact_symbol_table.rs. *)
From S2P Require Import Prelude LibTable RustStr CodeIds LineBuffer Nom BreakpadRecords MappedPath.
From stdpp Require Import options.
Open Scope Z_scope.

Module SymbolMaps.
Import LineBuffer(slen).

Inductive LookupAddress := Relative (address : Z) | Svma (address : Z) | FileOffset (offset : Z).
Record SymbolInfo := { address : Z; size : option Z; symbol_name : string }.
Record FrameDebugInfo := {
  function : option string;
  file_path : option MappedPath.SourceFilePath;
  line_number : option Z
}.
Inductive ExternalFileRef :=
| MachoExternalObject (file_path : string)
| ElfExternalDwo (comp_dir path : string).
Inductive ExternalFileAddressInFileRef :=
| MachoOsoObject (symbol_name : string) (offset_from_symbol : Z)
| MachoOsoArchive (name_in_archive symbol_name : string) (offset_from_symbol : Z)
| ElfDwo (dwo_id svma : Z).
Record ExternalFileAddressRef := { file_ref : ExternalFileRef; address_in_file : ExternalFileAddressInFileRef }.
Inductive FramesLookupResult := Available (frames : list FrameDebugInfo) | External (ref : ExternalFileAddressRef).
Record SyncAddressInfo := { symbol : SymbolInfo; frames : option FramesLookupResult }.

(** The errors of the breakpad symbol maps. *)
Inductive Error :=
| HelperErrorDuringFileReading (what : string)
| InvalidFileOrInlineOriginIndexInBreakpadFile (index : Z)
| BreakpadParsing (error : BreakpadRecords.BreakpadParseError).

(** [FileContents], implemented by the caller of the crate, for the bytes of a file:
    a read may fail, and returns the bytes it was asked for if it does not. (Of no
    bytes, implementations differ on whether they can be outside of the file.) *)
Class FileContents (bytes : string) := {
  read_bytes_at : Z → Z → option string;
  read_bytes_into : Z → Z → option string;
  read_bytes_at_spec offset size' s :
    0 ≤ offset → 0 ≤ size' → read_bytes_at offset size' = Some s → s = String.substring (Z.to_nat offset) (Z.to_nat size') bytes;
  read_bytes_into_spec offset size' s :
    0 ≤ offset → 0 ≤ size' → read_bytes_into offset size' = Some s →
    offset + size' ≤ slen bytes ∧ s = String.substring (Z.to_nat offset) (Z.to_nat size') bytes
}.
(** [len], which a wrapper asks for once. *)
Definition len {bytes : string} (f : FileContents bytes) : Z := slen bytes.
(** The implementation for slices: [get(offset..)] and then [get(..size)]. *)
Definition read_slice (bytes : string) (offset size' : Z) : option string :=
  if (offset <=? slen bytes) && (size' <=? slen bytes - offset) then
    Some (String.substring (Z.to_nat offset) (Z.to_nat size') bytes)
  else None.
#[refine] Definition slice_contents (bytes : string) : FileContents bytes :=
  {| read_bytes_at := read_slice bytes; read_bytes_into := read_slice bytes |}.
Proof.
  all: intros offset size' s ? ?; unfold read_slice; destruct (Z.leb_spec offset (slen bytes)); [|done];
    destruct (Z.leb_spec size' (slen bytes - offset)); [|done]; intros [= <-]; try (split; [lia|done]).
  done.
Defined.
End SymbolMaps.

(** A file that was loaded: its bytes and how they are read. *)
Record File := { file_bytes : string; contents : SymbolMaps.FileContents file_bytes }.

Module CompactSymbolTable.
Import RustStr LineBuffer(slen, slen_app, slen_nonneg).

Record CompactSymbolTable := { addr : list Z; index : list Z; buffer : string }.
Definition add_symbol (t : CompactSymbolTable) (symbol : Z * string) : CompactSymbolTable :=
  let '(address, name) := symbol in
  {| addr := push (addr t) address; index := push (index t) (wrap_u32 (slen (buffer t)));
     buffer := buffer t +:+ name |}.
(** [from_symbol_map], for the symbols that the map lists. *)
Definition from_symbols (symbols : list (Z * string)) : CompactSymbolTable :=
  let t := foldl add_symbol {| addr := []; index := []; buffer := "" |} symbols in
  {| addr := addr t; index := push (index t) (wrap_u32 (slen (buffer t))); buffer := buffer t |}.
(** How the table is read: [buffer[index[i]..index[i + 1]]]. *)
Definition symbol_at (t : CompactSymbolTable) (i : nat) : option (Z * string) :=
  address ← addr t !! i;
  start ← index t !! i;
  end' ← index t !! S i;
  Some (address, String.substring (Z.to_nat start) (Z.to_nat (end' - start)) (buffer t)).

Definition names (symbols : list (Z * string)) : string := foldr String.append "" symbols.*2.
Lemma names_app l1 l2 : names (l1 ++ l2) = names l1 +:+ names l2.
Proof.
  unfold names. induction l1 as [|x l1 IH]; [by rewrite app_empty|]. cbn [app fmap list_fmap foldr] in *.
  rewrite IH. symmetry. apply app_assoc_string.
Qed.
Lemma from_symbols_spec symbols :
  let t := foldl add_symbol {| addr := []; index := []; buffer := "" |} symbols in
  addr t = symbols.*1 ∧ buffer t = names symbols ∧
  index t = (λ i, wrap_u32 (slen (names (take i symbols)))) <$> seq 0 (length symbols).
Proof.
  cbn zeta. induction symbols as [|[a n] symbols IH] using rev_ind; [done|]. rewrite foldl_snoc.
  destruct IH as (Ha & Hb & Hi). cbn [add_symbol addr index buffer]. rewrite Ha, Hb, Hi. unfold push. split_and!.
  - by rewrite fmap_app.
  - rewrite names_app. unfold names at 3. cbn. by rewrite app_nil.
  - rewrite length_app, seq_app, fmap_app. cbn. rewrite take_app_length'; [|lia]. f_equal.
    apply list_fmap_ext. intros i j Hj. apply lookup_seq in Hj as [-> Hlt]. by rewrite take_app_le by lia.
Qed.

(** Reading a compact symbol table at a position gives the symbol that the map
    listed at that position, and there is none behind the last one, for as long as all
    names together take less than 2^32 bytes. *)
Theorem compact_table_complete (symbols : list (Z * string)) (i : nat) :
  slen (names symbols) < 2 ^ 32 → symbol_at (from_symbols symbols) i = symbols !! i.
Proof.
  intros Hlt. destruct (from_symbols_spec symbols) as (Ha & Hb & Hi). unfold symbol_at, from_symbols. cbn [addr index buffer].
  rewrite Ha, Hb, Hi. unfold push.
  assert (∀ j, slen (names (take j symbols)) + slen (names (drop j symbols)) = slen (names symbols)) as Hsum.
  { intros j. by rewrite <-slen_app, <-names_app, take_drop. }
  assert (∀ j, (j ≤ length symbols)%nat →
    (((λ i, wrap_u32 (slen (names (take i symbols)))) <$> seq 0 (length symbols)) ++ [wrap_u32 (slen (names symbols))]) !! j =
      Some (slen (names (take j symbols)))) as Hat.
  { intros j Hj. assert (wrap_u32 (slen (names (take j symbols))) = slen (names (take j symbols))) as Hw.
    { apply wrap_u32_id. specialize (Hsum j). pose proof (slen_nonneg (names (take j symbols))).
      pose proof (slen_nonneg (names (drop j symbols))). unfold u32_range. lia. }
    destruct (decide (j = length symbols)) as [->|Hne].
    - rewrite lookup_app_r, length_fmap, length_seq, Nat.sub_diag by (rewrite length_fmap, length_seq; lia). cbn [lookup list_lookup].
      by rewrite take_ge in Hw |- * by lia; rewrite Hw.
    - rewrite lookup_app_l by (rewrite length_fmap, length_seq; lia).
      apply list_lookup_fmap_Some. exists j. split; [by rewrite Hw|apply lookup_seq; lia]. }
  destruct (symbols !! i) as [[a n]|] eqn:Hs.
  - pose proof (lookup_lt_Some _ _ _ Hs). rewrite list_lookup_fmap, Hs. cbn [fmap option_fmap option_map mbind option_bind fst].
    rewrite !Hat by lia. cbn [mbind option_bind].
    assert (names [(a, n)] = n) as Hn by apply app_nil.
    assert (names symbols = names (take i symbols) +:+ n +:+ names (drop (S i) symbols)) as ->.
    { rewrite <-(take_drop_middle symbols i _ Hs) at 1. rewrite names_app. f_equal. }
    assert (names (take (S i) symbols) = names (take i symbols) +:+ n) as ->.
    { by rewrite (take_S_r symbols i (a, n)), names_app, Hn by done. }
    rewrite slen_app. do 2 f_equal.
    etrans; [|apply (substring_at (names (take i symbols)) n (names (drop (S i) symbols)))]. f_equal; unfold slen; lia.
  - by rewrite list_lookup_fmap, Hs.
Qed.
Example compact_table_complete_witness :
  slen (names [(4, "main"); (8, ""); (16, "f")]) < 2 ^ 32 ∧
  symbol_at (from_symbols [(4, "main"); (8, ""); (16, "f")]) 2 = Some (16, "f").
Proof. split; [done|]. apply (compact_table_complete [(4, "main"); (8, ""); (16, "f")] 2). done. Defined.
End CompactSymbolTable.
