(* ===== verification/BreakpadSymbolMap.v ===== *)
(** Symbols from a breakpad symbol file: samply-symbols/src/breakpad/symbol_map.rs
    and the lookups in the information of a function in index.rs. *)
From S2P Require Import Prelude RustStr SymbolTable LibTable CodeIds LineBuffer Nom MappedPath.
From S2P Require Import BreakpadRecords BreakpadIndex Symindex SymbolMaps.
From stdpp Require Import options.
Open Scope Z_scope.

Module BreakpadSymbolMap.
Import RustStr Nom BreakpadRecords BreakpadIndex SymbolMaps.

Notation result A := (Error + A)%type.

(** * Lookups in a function *)

(** The position of the last key at or before the one searched for. *)
Definition position_before (r : SymbolTable.search_result) : option nat :=
  match r with
  | SymbolTable.Found i => Some i
  | SymbolTable.NotFound O => None
  | SymbolTable.NotFound (S i) => Some i
  end.
Definition get_innermost_sourceloc (info : BreakpadFuncSymbolInfo) (addr : Z) : res (option SourceLine) :=
  match position_before (SymbolTable.binary_search_by_key line_address (lines info) addr) with
  | None => Ok None
  | Some line_index => l ← index (lines info) line_index; Ok (Some l)
  end.
(** Pairs of 32-bit numbers are ordered as these numbers. *)
Definition inlinee_key (depth' addr : Z) : Z := depth' * 2 ^ 32 + addr.
Definition key_of_inlinee (i : Inlinee) : Z := inlinee_key (depth i) (inlinee_address i).
Definition get_inlinee_at_depth (info : BreakpadFuncSymbolInfo) (depth' addr : Z) : res (option Inlinee) :=
  match
    position_before (SymbolTable.binary_search_by_key key_of_inlinee (inlinees info) (inlinee_key depth' addr))
  with
  | None => Ok None
  | Some i =>
      inlinee ← index (inlinees info) i;
      if negb (depth inlinee =? depth') then Ok None
      else
        match Symindex.checked_u32 (inlinee_address inlinee + inlinee_size inlinee) with
        | None => Ok None
        | Some end_address => Ok (if addr <? end_address then Some inlinee else None)
        end
  end.

Section maps.
Context `{BreakpadIds} `{Nom} `{CodeIds.UuidOps} {bytes : string} `{FileContents bytes}.

Definition parse_error {A} (r : BreakpadParseError + A) : result A :=
  match r with inl e => inl (BreakpadParsing e) | inr a => inr a end.

(** * What a map is made of *)
Definition CHUNK_SIZE : Z := 1024 * 1024.
(** The loop that reads the file in pieces. *)
Fixpoint read_chunks (fuel : nat) (parser : BreakpadIndexParser) (offset : Z) : loops (result BreakpadIndexParser) :=
  match fuel with
  | O => None
  | S fuel' =>
      if offset <? slen bytes then
        let chunk_len := Z.min CHUNK_SIZE (slen bytes - offset) in
        match read_bytes_into offset chunk_len with
        | None => returned (Ok (inl (HelperErrorDuringFileReading "BreakpadBreakpadSymbolMapData")))
        | Some buffer =>
            parser' ← consume parser buffer;
            read_chunks fuel' parser' (add_u64 offset CHUNK_SIZE)
        end
      else returned (Ok (inr parser))
  end.
Definition chunk_fuel : nat := S (S (Z.to_nat (slen bytes / CHUNK_SIZE))).
(** [is_breakpad_file] of breakpad/mod.rs. *)
Definition is_breakpad_file : bool :=
  match read_bytes_at 0 7 with Some b => bool_decide (b = "MODULE ") | None => false end.
(** The index that was supplied, if it can be read and parsed. *)
Definition supplied_index {index_bytes : string} (index_data : option (FileContents index_bytes))
    : loops (option BreakpadIndex) :=
  match index_data with
  | None => returned (Ok None)
  | Some d =>
      match @read_bytes_at _ d 0 (slen index_bytes) with
      | None => returned (Ok None)
      | Some data =>
          parsed ← Symindex.parse_symindex_file data;
          returned (Ok match parsed with inl _ => None | inr idx => Some idx end)
      end
  end.
Definition index_of_file : loops (result BreakpadIndex) :=
  chunks ← read_chunks chunk_fuel new_parser 0;
  match chunks with
  | inl e => returned (Ok (inl e))
  | inr index_parser => idx ← returned (finish index_parser); returned (Ok (parse_error idx))
  end.
Definition new_outer {index_bytes : string} (index_data : option (FileContents index_bytes))
    : loops (result BreakpadIndex) :=
  supplied ← supplied_index index_data;
  match supplied with
  | Some idx => returned (Ok (inr idx))
  | None => index_of_file
  end.

(** * Caches *)
Record Caches := {
  file_strings : gmap Z string;
  origin_strings : gmap Z string;
  public_symbols : gmap Z string;
  func_symbols : gmap Z BreakpadFuncSymbolInfo
}.
Definition new_caches : Caches :=
  {| file_strings := ∅; origin_strings := ∅; public_symbols := ∅; func_symbols := ∅ |}.
Definition with_files (c : Caches) (m : gmap Z string) : Caches :=
  {| file_strings := m; origin_strings := origin_strings c; public_symbols := public_symbols c;
     func_symbols := func_symbols c |}.
Definition with_origins (c : Caches) (m : gmap Z string) : Caches :=
  {| file_strings := file_strings c; origin_strings := m; public_symbols := public_symbols c;
     func_symbols := func_symbols c |}.
Definition with_publics (c : Caches) (m : gmap Z string) : Caches :=
  {| file_strings := file_strings c; origin_strings := origin_strings c; public_symbols := m;
     func_symbols := func_symbols c |}.
Definition with_funcs (c : Caches) (m : gmap Z BreakpadFuncSymbolInfo) : Caches :=
  {| file_strings := file_strings c; origin_strings := origin_strings c; public_symbols := public_symbols c;
     func_symbols := m |}.

(** What is read when it is not in a cache. *)
Definition read_public (public : BreakpadPublicSymbol) : result string :=
  match read_bytes_at (public_offset public) (line_length public) with
  | None => inl (HelperErrorDuringFileReading "Breakpad PUBLIC symbol")
  | Some line' => parse_error (parse_public line')
  end.
Definition read_func (func : BreakpadFuncSymbol) : loops (result BreakpadFuncSymbolInfo) :=
  match read_bytes_at (func_offset func) (block_length func) with
  | None => returned (Ok (inl (HelperErrorDuringFileReading "Breakpad FUNC symbol")))
  | Some block => info ← ended (parse_func block); returned (Ok (parse_error info))
  end.
Definition read_item {I : Type} `{FileOrInlineOrigin I} (item_map : ItemMap I) (index' : Z) : res (result string) :=
  item ← get item_map index';
  Ok match item with
     | None => inl (InvalidFileOrInlineOriginIndexInBreakpadFile index')
     | Some offsets =>
         let '(file_offset, line_length') := offset_and_length offsets in
         match read_bytes_at file_offset line_length' with
         | None => inl (HelperErrorDuringFileReading "Breakpad FILE or INLINE_ORIGIN record")
         | Some line' => parse_error (parse_item (I := I) line')
         end
     end.
Definition get_public_info (m : gmap Z string) (public : BreakpadPublicSymbol) : result string * gmap Z string :=
  match m !! public_offset public with
  | Some info => (inr info, m)
  | None =>
      match read_public public with
      | inl e => (inl e, m)
      | inr info => (inr info, <[public_offset public := info]> m)
      end
  end.
Definition get_func_info (m : gmap Z BreakpadFuncSymbolInfo) (func : BreakpadFuncSymbol)
    : loops (result BreakpadFuncSymbolInfo * gmap Z BreakpadFuncSymbolInfo) :=
  match m !! func_offset func with
  | Some info => returned (Ok (inr info, m))
  | None =>
      r ← read_func func;
      returned (Ok match r with
                   | inl e => (inl e, m)
                   | inr info => (inr info, <[func_offset func := info]> m)
                   end)
  end.
Definition get_str {I : Type} `{FileOrInlineOrigin I} (item_map : ItemMap I) (m : gmap Z string) (index' : Z)
    : res (result string * gmap Z string) :=
  match m !! index' with
  | Some name => Ok (inr name, m)
  | None =>
      r ← read_item item_map index';
      Ok match r with
         | inl e => (inl e, m)
         | inr s => (inr s, <[index' := s]> m)
         end
  end.
(** [.ok()] *)
Definition ok_of {A} (r : result A) : option A := match r with inl _ => None | inr a => Some a end.

(** * The symbol map *)
Context (idx : BreakpadIndex).
Definition symbol_count : nat := length (symbol_addresses idx).
(** The name of a symbol, for [iter_symbols]. *)
Definition symbol_name_of (c : Caches) (s : BreakpadSymbolType) : loops (option string * Caches) :=
  match s with
  | Public public =>
      let '(info, m) := get_public_info (public_symbols c) public in
      returned (Ok (ok_of info, with_publics c m))
  | Func func =>
      '(info, m) ← get_func_info (func_symbols c) func;
      returned (Ok (func_name <$> ok_of info, with_funcs c m))
  end.
Fixpoint iter_from (c : Caches) (positions : list nat) : loops (list (Z * string) * Caches) :=
  match positions with
  | [] => returned (Ok ([], c))
  | i :: positions' =>
      address' ← returned (index (symbol_addresses idx) i);
      s ← returned (index (symbol_offsets idx) i);
      '(name', c1) ← symbol_name_of c s;
      '(rest', c2) ← iter_from c1 positions';
      returned (Ok (match name' with Some n => (address', n) :: rest' | None => rest' end, c2))
  end.
Definition iter_symbols (c : Caches) : loops (list (Z * string) * Caches) := iter_from c (seq 0 symbol_count).

(** The loop over the depths: the frames of the calls, and the name of the innermost
    function. *)
Fixpoint inline_frames (fuel : nat) (info : BreakpadFuncSymbolInfo) (address' depth' : Z) (name' : option string)
    (c : Caches) : loops (list FrameDebugInfo * option string * Caches) :=
  match fuel with
  | O => None
  | S fuel' =>
      inlinee ← returned (get_inlinee_at_depth info depth' address');
      match inlinee with
      | None => returned (Ok ([], name', c))
      | Some i =>
          '(file', files') ← returned (get_str (files idx) (file_strings c) (call_file i));
          let frame :=
            {| function := name'; file_path := MappedPath.from_breakpad_path <$> ok_of file';
               line_number := Some (call_line i) |} in
          '(origin, origins) ← returned (get_str (inline_origins idx) (origin_strings c) (origin_id i));
          '(more, name'', c') ←
            inline_frames fuel' info address' (add_u32 depth' 1) (ok_of origin)
              (with_origins (with_files c files') origins);
          returned (Ok (frame :: more, name'', c'))
      end
  end.
Definition lookup_func (c : Caches) (info : BreakpadFuncSymbolInfo) (symbol_address address' : Z)
    : loops (option SyncAddressInfo * Caches) :=
  let func_end_addr := add_u32 symbol_address (func_size info) in
  if func_end_addr <=? address' then returned (Ok (None, c))
  else
    '(calls, name', c1) ← inline_frames (S (length (inlinees info))) info address' 0 (Some (func_name info)) c;
    line_info ← returned (get_innermost_sourceloc info address');
    '(file', line_number', c2) ←
      match line_info with
      | Some line_info =>
          '(file', files') ← returned (get_str (files idx) (file_strings c1) (file line_info));
          returned (Ok (ok_of file', Some (line line_info), with_files c1 files'))
      | None => returned (Ok (None, None, c1))
      end;
    let frame :=
      {| function := name'; file_path := MappedPath.from_breakpad_path <$> file'; line_number := line_number' |} in
    returned (Ok
      (Some
         {| symbol := {| address := symbol_address; size := Some (func_size info); symbol_name := func_name info |};
            frames := Some (Available (reverse (calls ++ [frame]))) |}, c2)).
Definition lookup_sync (c : Caches) (lookup_address : LookupAddress) : loops (option SyncAddressInfo * Caches) :=
  match lookup_address with
  | Svma _ | FileOffset _ => returned (Ok (None, c))
  | Relative address' =>
      match position_before (SymbolTable.binary_search_by_key id (symbol_addresses idx) address') with
      | None => returned (Ok (None, c))
      | Some i =>
          symbol_address ← returned (index (symbol_addresses idx) i);
          let next_symbol_address := symbol_addresses idx !! S i in
          s ← returned (index (symbol_offsets idx) i);
          match s with
          | Public public =>
              let '(info, m) := get_public_info (public_symbols c) public in
              returned (Ok
                ((λ name',
                    {| symbol :=
                         {| address := symbol_address;
                            size := next ← next_symbol_address; checked_sub next symbol_address;
                            symbol_name := name' |};
                       frames := None |}) <$> ok_of info, with_publics c m))
          | Func func =>
              '(info, m) ← get_func_info (func_symbols c) func;
              match info with
              | inl _ => returned (Ok (None, with_funcs c m))
              | inr info => lookup_func (with_funcs c m) info symbol_address address'
              end
          end
      end
  end.
End maps.
End BreakpadSymbolMap.
