(* ===== verification/BreakpadFunc.v ===== *)
(** The information of a function in a breakpad symbol file: reading its block
    ends, has at most as many inline calls as bytes, and the calls are found. *)
From S2P Require Import Prelude RustStr SymbolTable LibTable CodeIds LineBuffer Nom MappedPath.
From S2P Require Import BreakpadRecords BreakpadIndex Symindex SymbolMaps BreakpadSymbolMap.
From stdpp Require Import options.
Open Scope Z_scope.

Module BreakpadFunc.
Import RustStr Nom BreakpadRecords BreakpadSymbolMap.
Import LineBuffer(slen_app, slen_nonneg).

(** * Parsers take a prefix *)
Section shrinks.
Context `{BreakpadIds} `{Nom}.
Definition shrinks {A} (p : parser A) : Prop := ∀ s r a, p s = Done r a → slen r ≤ slen s.
Lemma slen_cons c s : slen (String c s) = 1 + slen s.
Proof. unfold slen. cbn [String.length]. lia. Qed.
Lemma span_length p s : slen (span p s).1 + slen (span p s).2 = slen s.
Proof.
  induction s as [|c s IH]; [done|]. cbn [span]. destruct (p c); [|done].
  destruct (span p s) as [a b]. cbn in *. rewrite !slen_cons in *. lia.
Qed.
Lemma space1_shrinks s r a : space1 s = Done r a → slen r + 1 ≤ slen s.
Proof.
  rewrite space1_spec. unfold at_least_one. pose proof (span_length is_space s) as Hl.
  destruct (span is_space s) as [[|c x] b]; [done|]. cbn in *. intros [= <- <-]. rewrite slen_cons in Hl.
  pose proof (slen_nonneg x). lia.
Qed.
Lemma hex_loop_remaining size max_len res s k res' r :
  hex_loop size max_len res s = (k, res', r) → slen r ≤ slen s.
Proof.
  revert res s k res' r. induction max_len as [|n IH]; intros res s k res' r; [by intros [= <- <- <-]|].
  destruct s as [|v s]; [by intros [= <- <- <-]|]. cbn [hex_loop]. destruct (_ <? 16); [|by intros [= <- <- <-]].
  destruct (hex_loop size n _ s) as [[k1 res1] r1] eqn:Hl. intros [= <- <- <-]. apply IH in Hl. rewrite slen_cons. lia.
Qed.
Lemma decimal_loop_remaining max_len res s k res' r :
  decimal_loop max_len res s = (k, res', r) → slen r ≤ slen s.
Proof.
  revert res s k res' r. induction max_len as [|n IH]; intros res s k res' r; [by intros [= <- <- <-]|].
  destruct s as [|v s]; [by intros [= <- <- <-]|]. cbn [decimal_loop]. destruct (_ <? 10); [|by intros [= <- <- <-]].
  destruct (decimal_loop n _ s) as [[k1 res1] r1] eqn:Hl. intros [= <- <- <-]. apply IH in Hl. rewrite slen_cons. lia.
Qed.
Lemma hex_u32_shrinks : shrinks hex_u32.
Proof.
  intros s r a. unfold hex_u32, hex_str. destruct (hex_loop 4 _ 0 s) as [[k res] remaining] eqn:Hl.
  destruct (k =? 0)%nat; [done|]. intros [= <- <-]. by eapply hex_loop_remaining.
Qed.
Lemma decimal_u32_shrinks : shrinks decimal_u32.
Proof.
  intros s r a. unfold decimal_u32. destruct (decimal_loop 10 0 s) as [[k res] remaining] eqn:Hl.
  destruct (k =? 0)%nat; [done|]. destruct (res <? _); [|done]. intros [= <- <-]. by eapply decimal_loop_remaining.
Qed.
Lemma terminated_space_shrinks {A} (p : parser A) : shrinks p → shrinks (terminated p space1).
Proof. intros Hp s r a (r' & b & Hs & Hb)%terminated_Done. apply Hp in Hs. apply space1_shrinks in Hb. lia. Qed.
Lemma inline_address_range_shrinks : shrinks inline_address_range.
Proof.
  intros s r a. unfold inline_address_range. rewrite tuple2_spec.
  intros (r1 & a1 & Ha & (r2 & a2 & Hb & [= <- <-])%and_then_Done)%and_then_Done.
  apply (terminated_space_shrinks _ hex_u32_shrinks) in Ha. apply hex_u32_shrinks in Hb. lia.
Qed.
Lemma separated_more_length {A B} fuel (sep : parser B) (p : parser A) s r l :
  separated_more fuel sep p s = Done r l → (length l ≤ fuel)%nat.
Proof.
  revert s r l. induction fuel as [|fuel IH]; intros s r l; [done|]. cbn [separated_more].
  destruct (sep s) as [s1 b| |]; [|intros [= <- <-]; simpl; lia|done]. destruct (_ =? _)%nat; [done|].
  destruct (p s1) as [s2 a| |]; [|intros [= <- <-]; simpl; lia|done].
  intros (r' & l' & Hl & [= <- <-])%and_then_Done. apply IH in Hl. simpl. lia.
Qed.
(** An INLINE line has fewer address ranges than bytes. *)
Lemma inline_line_length s r l : inline_line s = Done r l → Z.of_nat (length l) ≤ slen s.
Proof.
  unfold inline_line. intros (r1 & ? & Ht & Hq)%and_then_Done. apply and_then_Done in Hq as (r2 & [[[a b] c] d] & Hc & Hq).
  apply and_then_Done in Hq as (r3 & ranges & Hr & [= <- <-]). rewrite length_fmap.
  apply terminated_Done in Ht as (r0 & ? & [-> _]%tag_Done & Hsp). apply space1_shrinks in Hsp.
  apply cut_Done in Hc. rewrite tuple4_spec in Hc.
  pose proof (terminated_space_shrinks _ decimal_u32_shrinks) as Hdec.
  apply and_then_Done in Hc as (? & ? & Hd1%Hdec & Hc). apply and_then_Done in Hc as (? & ? & Hd2%Hdec & Hc).
  apply and_then_Done in Hc as (? & ? & Hd3%Hdec & Hc). apply and_then_Done in Hc as (? & ? & Hd4%Hdec & [= <- _ _ _ _]).
  apply cut_Done in Hr. rewrite separated_list1_spec in Hr. apply and_then_Done in Hr as (r5 & a5 & Ha & Hr).
  apply inline_address_range_shrinks in Ha. apply and_then_Done in Hr as (r6 & l6 & Hl & [= <- <-]).
  apply separated_more_length in Hl. rewrite slen_app. change (slen "INLINE") with 6. cbn [length].
  unfold slen in *. lia.
Qed.

(** * Reading a block *)
Lemma trim_cr_length s : slen (trim_cr s) ≤ slen s.
Proof.
  induction s as [|c s IH]; [done|]. cbn [trim_cr]. rewrite slen_cons. destruct (trim_cr s) as [|d t].
  - destruct (decide _); cbn; rewrite ?slen_cons; change (slen "") with 0; pose proof (slen_nonneg s); lia.
  - rewrite slen_cons. lia.
Qed.
Lemma read_line_length s :
  is_empty s = false →
  slen (read_line_and_advance s).1 + slen (read_line_and_advance s).2 ≤ slen s ∧
  slen (read_line_and_advance s).2 < slen s.
Proof.
  intros He. unfold read_line_and_advance. destruct (split_once s LF) as [[a b]|] eqn:Hs.
  - apply split_once_Some in Hs as ->. cbn. rewrite !slen_app. change (slen LF) with 1. pose proof (trim_cr_length a).
    pose proof (slen_nonneg (trim_cr a)). lia.
  - cbn. change (slen "") with 0. pose proof (trim_cr_length s). destruct s as [|c s]; [done|]. rewrite slen_cons in *.
    pose proof (slen_nonneg s). lia.
Qed.
Lemma parse_block_ends fuel input lines' inlinees' :
  (String.length input < fuel)%nat →
  ∃ r, parse_block fuel input lines' inlinees' = Some r ∧
    ∀ ls is', r = inr (ls, is') → Z.of_nat (length is') ≤ Z.of_nat (length inlinees') + slen input.
Proof.
  revert input lines' inlinees'. induction fuel as [|fuel IH]; intros input lines' inlinees' Hf; [lia|]. cbn [parse_block].
  destruct (is_empty input) eqn:He.
  { eexists. split; [done|]. intros ls is' [= <- <-]. pose proof (slen_nonneg input). lia. }
  pose proof (read_line_length input He) as [Hsum Hlt]. destruct (read_line_and_advance input) as [l input'].
  cbn [fst snd] in *. pose proof (slen_nonneg l).
  assert (String.length input' < fuel)%nat as Hf' by (unfold slen in *; lia). destruct (starts_with l "INLINE ").
  - unfold parsed. destruct (ok (inline_line l)) as [[r ranges]|] eqn:Hl; [|by eexists].
    destruct (IH input' lines' (inlinees' ++ ranges) Hf') as (r' & -> & Hr). eexists. split; [done|].
    intros ls is' Heq. specialize (Hr ls is' Heq). apply ok_Some, inline_line_length in Hl. rewrite length_app in Hr. lia.
  - destruct (ok (func_line_data l)) as [[r d]|].
    + destruct (IH input' (push lines' d) inlinees' Hf') as (r' & -> & Hr). eexists. split; [done|].
      intros ls is' Heq. specialize (Hr ls is' Heq). lia.
    + destruct (IH input' lines' inlinees' Hf') as (r' & -> & Hr). eexists. split; [done|].
      intros ls is' Heq. specialize (Hr ls is' Heq). lia.
Qed.
Lemma inlinee_leb_key a b :
  u32_range (inlinee_address a) → u32_range (inlinee_address b) →
  inlinee_leb a b = true ↔ key_of_inlinee a ≤ key_of_inlinee b.
Proof.
  unfold inlinee_leb, key_of_inlinee, inlinee_key, u32_range. intros Ha Hb.
  rewrite orb_true_iff, andb_true_iff, Z.ltb_lt, Z.eqb_eq, Z.leb_le. nia.
Qed.
Lemma parse_func_ends input :
  ∃ r, parse_func input = Some r ∧
    ∀ info, r = inr info →
      Z.of_nat (length (inlinees info)) ≤ slen input ∧
      StronglySorted (λ a b, inlinee_leb a b = true) (inlinees info).
Proof.
  unfold parse_func. destruct (is_empty input) eqn:He.
  { destruct input; [|done]. eexists. unfold read_line_and_advance. cbn [split_once strip_prefix]. split; [|].
    - cbn. unfold parsed. destruct (ok (func_line "")) as [[r [[a z] n]]|] eqn:Hf; [|done].
      exfalso. apply ok_Some in Hf. unfold func_line, record_tag in Hf. rewrite terminated_spec, tag_spec in Hf. done.
    - done. }
  pose proof (read_line_length input He) as [Hsum Hlt]. destruct (read_line_and_advance input) as [first_line input'].
  cbn [fst snd] in *. destruct (parsed _ _) as [e|[[a z] n]]; [by eexists|].
  destruct (parse_block_ends (S (String.length input')) input' [] [] ltac:(lia)) as (r & -> & Hr). cbn [mbind option_bind].
  eexists. split; [done|]. intros info. destruct r as [e|[ls is']]; [done|]. destruct (utf8 n); [done|]. intros [= <-].
  cbn [inlinees]. specialize (Hr ls is' eq_refl). rewrite (Permutation_length (stable_sort_permutation _ _)).
  cbn in Hr. split; [lia|]. apply stable_sort_sorted.
  - intros x y w. unfold inlinee_leb. rewrite !orb_true_iff, !andb_true_iff, !Z.ltb_lt, !Z.eqb_eq, !Z.leb_le. lia.
  - intros x y. unfold inlinee_leb. rewrite !orb_true_iff, !andb_true_iff, !Z.ltb_lt, !Z.eqb_eq, !Z.leb_le. lia.
Qed.
End shrinks.

(** * Lookups *)
Lemma binary_search_loop_bounds {A} (key : A → Z) l k fuel left right :
  (left ≤ right ≤ length l)%nat →
  match SymbolTable.binary_search_loop key l k fuel left right with
  | SymbolTable.Found i => (i < length l)%nat
  | SymbolTable.NotFound i => (i ≤ length l)%nat
  end.
Proof.
  revert left right. induction fuel as [|fuel IH]; intros left right Hle; cbn [SymbolTable.binary_search_loop]; [lia|].
  case_decide as Hlt; [|lia]. pose proof (Nat.Div0.div_le_upper_bound (right - left) 2 (right - left) ltac:(lia)).
  assert ((right - left) / 2 < right - left)%nat by (apply Nat.div_lt; lia).
  destruct (l !! _) as [x|] eqn:Hx; [|lia]. apply lookup_lt_Some in Hx. destruct (key x ?= k)%Z; [done|apply IH; lia..].
Qed.
Lemma position_before_bounds {A} (key : A → Z) l k i :
  position_before (SymbolTable.binary_search_by_key key l k) = Some i → (i < length l)%nat.
Proof.
  pose proof (binary_search_loop_bounds key l k (S (length l)) 0 (length l) ltac:(lia)) as Hb.
  unfold SymbolTable.binary_search_by_key. destruct (SymbolTable.binary_search_loop _ _ _ _ _ _) as [j|[|j]]; cbn.
  - by intros [= <-].
  - done.
  - intros [= <-]. lia.
Qed.
Lemma index_bounds {A} (l : list A) i : (i < length l)%nat → ∃ x, index l i = Ok x ∧ l !! i = Some x.
Proof. intros [x Hx]%lookup_lt_is_Some_2. exists x. unfold index. by rewrite Hx. Qed.
(** The last of the keys at or before the one searched for. *)
Lemma position_before_last {A} (key : A → Z) l k :
  StronglySorted (λ x y, key x < key y) l →
  match position_before (SymbolTable.binary_search_by_key key l k) with
  | None => ∀ x, x ∈ l → k < key x
  | Some i => ∃ y, l !! i = Some y ∧ key y ≤ k ∧ (∀ x, x ∈ l → key x ≤ k → key x ≤ key y) ∧
                   (∀ j x, l !! j = Some x → (i < j)%nat → k < key x)
  end.
Proof.
  intros Hs. pose proof (SymbolTable.binary_search_by_key_spec key l k Hs) as Hb.
  destruct (SymbolTable.binary_search_by_key key l k) as [i|[|i]]; cbn [position_before].
  - destruct Hb as (y & Hy & Hk). exists y. split_and!; [done|lia|lia|]. intros j x Hx Hij.
    pose proof (SymbolTable.sorted_lookup key l i j y x Hs Hy Hx Hij). lia.
  - intros x [j Hj]%list_elem_of_lookup. apply (proj2 Hb j x Hj). lia.
  - destruct Hb as [Hi Hb]. destruct (lookup_lt_is_Some_2 l i) as [y Hy]; [lia|]. exists y.
    destruct (Hb i y Hy) as [Hlt _]. specialize (Hlt ltac:(lia)). split_and!; [done|lia| |].
    + intros x [j Hj]%list_elem_of_lookup Hx. destruct (decide (j < i)%nat) as [Hji|Hji].
      * pose proof (SymbolTable.sorted_lookup key l j i x y Hs Hj Hy Hji). lia.
      * destruct (decide (j = i)) as [->|Hne]; [rewrite Hy in Hj; by simplify_eq|].
        destruct (Hb j x Hj) as [_ Hge]. specialize (Hge ltac:(lia)). lia.
    + intros j x Hx Hij. apply (Hb j x Hx). lia.
Qed.

Lemma get_innermost_ends info a : ∃ o, get_innermost_sourceloc info a = Ok o.
Proof.
  unfold get_innermost_sourceloc. destruct (position_before _) as [i|] eqn:Hi; [|by eexists].
  apply position_before_bounds in Hi. destruct (index_bounds _ _ Hi) as (x & -> & _). by eexists.
Qed.
Lemma get_inlinee_ends info d a :
  ∃ o, get_inlinee_at_depth info d a = Ok o ∧ ∀ x, o = Some x → x ∈ inlinees info ∧ depth x = d.
Proof.
  unfold get_inlinee_at_depth. destruct (position_before _) as [i|] eqn:Hi; [|by eexists].
  apply position_before_bounds in Hi. destruct (index_bounds _ _ Hi) as (x & -> & Hx). cbn [mbind res_bind].
  destruct (Z.eqb_spec (depth x) d); cbn [negb]; [|by eexists]. destruct (Symindex.checked_u32 _); [|by eexists].
  eexists. split; [done|]. intros y. destruct (a <? _); [|done]. intros [= <-]. split; [|done]. by eapply list_elem_of_lookup_2.
Qed.

(** ** Calls that are known apart *)
Record inlinees_ok (l : list Inlinee) : Prop := {
  inlinees_range : Forall (λ x, u32_range (depth x) ∧ u32_range (inlinee_address x) ∧ 0 ≤ inlinee_size x) l;
  inlinees_sorted : StronglySorted (λ x y, key_of_inlinee x < key_of_inlinee y) l;
  inlinees_apart x y :
    x ∈ l → y ∈ l → depth x = depth y → inlinee_address x < inlinee_address y →
    inlinee_address x + inlinee_size x ≤ inlinee_address y
}.
Lemma get_inlinee_exact info d a x :
  inlinees_ok (inlinees info) → u32_range d → u32_range a →
  get_inlinee_at_depth info d a = Ok (Some x) ↔
    x ∈ inlinees info ∧ depth x = d ∧ inlinee_address x ≤ a < inlinee_address x + inlinee_size x ∧
    inlinee_address x + inlinee_size x < 2 ^ 32.
Proof.
  intros [Hr Hs Hap] Hd Ha. rewrite Forall_forall in Hr. unfold u32_range in *. unfold get_inlinee_at_depth.
  pose proof (position_before_last key_of_inlinee (inlinees info) (inlinee_key d a) Hs) as Hp.
  destruct (position_before _) as [i|].
  2: { split; [done|]. intros (Hx & Hdx & Hax & _). specialize (Hp x Hx). destruct (Hr x Hx) as (_ & Hx2 & _).
       unfold key_of_inlinee, inlinee_key in Hp. nia. }
  destruct Hp as (y & Hy & Hky & Hmax & _). unfold index. rewrite Hy. cbn [unwrap mbind res_bind].
  assert (y ∈ inlinees info) as Hyin by (by eapply list_elem_of_lookup_2). destruct (Hr y Hyin) as (Hy1 & Hy2 & Hy3).
  unfold key_of_inlinee, inlinee_key in *. unfold Symindex.checked_u32. split.
  - destruct (Z.eqb_spec (depth y) d) as [<-|]; cbn [negb]; [|done].
    destruct (Z.ltb_spec (inlinee_address y + inlinee_size y) (2 ^ 32)); [|done].
    destruct (Z.ltb_spec a (inlinee_address y + inlinee_size y)); [|done]. intros [= <-]. split_and!; [done..|nia|lia|lia].
  - intros (Hx & Hdx & Hax & Hend). specialize (Hmax x Hx ltac:(nia)). destruct (Hr x Hx) as (Hx1 & Hx2 & Hx3).
    assert (depth y = d) as Hdy by nia. assert (x = y) as <-.
    { destruct (decide (inlinee_address x < inlinee_address y)) as [Hlt|Hge].
      - specialize (Hap x y Hx Hyin ltac:(congruence) Hlt). nia.
      - apply list_elem_of_lookup in Hx as [j Hj].
        destruct (decide (i < j)%nat) as [Hij|].
        + pose proof (SymbolTable.sorted_lookup key_of_inlinee _ i j y x Hs Hy Hj Hij) as Hlt.
          unfold key_of_inlinee, inlinee_key in Hlt. nia.
        + destruct (decide (j < i)%nat) as [Hji|].
          * pose proof (SymbolTable.sorted_lookup key_of_inlinee _ j i x y Hs Hj Hy Hji) as Hlt.
            unfold key_of_inlinee, inlinee_key in Hlt. nia.
          * assert (j = i) as -> by lia. rewrite Hy in Hj. by injection Hj. }
    rewrite Hdx, Z.eqb_refl. cbn [negb]. rewrite (proj2 (Z.ltb_lt _ _)) by lia.
    rewrite (proj2 (Z.ltb_lt a _)) by lia. done.
Qed.
(** * A function as its block says it *)

(** The lines of a text; the last one may lack its line feed. *)
Fixpoint lines_of (s : string) : list string :=
  match s with
  | EmptyString => []
  | String c s' =>
      if decide (c = RustStr.LF) then "" :: lines_of s'
      else match lines_of s' with [] => [String c ""] | l :: ls => String c l :: ls end
  end.
Section described.
Context `{BreakpadIds} `{Nom}.
Definition ok_of_parse {A} (r : BreakpadParseError + A) : option A := match r with inl _ => None | inr a => Some a end.
Definition is_inline (l : string) : bool := starts_with l "INLINE ".
(** The header, the inlined calls of all INLINE lines, one for each address range, as
    they stand in the block, and the source lines of the other lines that are such. *)
Definition calls_of_line (l : string) : option (list Inlinee) :=
  if is_inline l then snd <$> ok (inline_line l) else Some [].
Definition source_line (l : string) : option SourceLine := if is_inline l then None else snd <$> ok (func_line_data l).
Definition func_described (block : string) : option BreakpadFuncSymbolInfo :=
  match trim_cr <$> lines_of block with
  | [] => None
  | header :: more =>
      '(_, (_, size, name)) ← ok (func_line header);
      calls ← mapM calls_of_line more;
      name' ← ok_of_parse (utf8 name);
      Some {| func_name := name'; func_size := size; lines := omap source_line more; inlinees := concat calls |}
  end.

Lemma lines_of_split s :
  is_empty s = false → lines_of s = match split_once s LF with Some (a, b) => a :: lines_of b | None => [s] end.
Proof.
  induction s as [|c s IH]; intros He; [done|]. cbn [lines_of split_once strip_prefix LF].
  destruct (decide (c = RustStr.LF)) as [->|Hc]; [rewrite decide_True by done; by destruct s|].
  rewrite decide_False by congruence.
  destruct s as [|d s]; [done|]. rewrite IH by done. by destruct (split_once (String d s) LF) as [[a b]|].
Qed.
Lemma lines_of_read s :
  is_empty s = false →
  trim_cr <$> lines_of s = (read_line_and_advance s).1 :: (trim_cr <$> lines_of (read_line_and_advance s).2).
Proof.
  intros He. unfold read_line_and_advance. rewrite lines_of_split by done. by destruct (split_once s LF) as [[a b]|].
Qed.
Lemma parse_block_described fuel input ls calls r :
  parse_block fuel input ls calls = Some r →
  ok_of_parse r =
    (more ← mapM calls_of_line (trim_cr <$> lines_of input);
     Some (ls ++ omap source_line (trim_cr <$> lines_of input), calls ++ concat more)).
Proof.
  revert input ls calls. induction fuel as [|fuel IH]; intros input ls calls; [done|]. cbn [parse_block].
  destruct (is_empty input) eqn:He.
  { destruct input; [|done]. intros [= <-]. cbn. by rewrite !app_nil_r. }
  rewrite (lines_of_read input He). destruct (read_line_and_advance input) as [l input']. cbn [fst snd].
  assert (calls_of_line l = if starts_with l "INLINE " then snd <$> ok (inline_line l) else Some []) as Hcalls by done.
  assert (source_line l = if starts_with l "INLINE " then None else snd <$> ok (func_line_data l)) as Hline by done.
  cbn [mapM omap list_omap]. rewrite Hcalls, Hline. unfold parsed.
  destruct (starts_with l "INLINE ").
  - destruct (ok (inline_line l)) as [[r' new]|]; [|by intros [= <-]]. cbn [fmap option_fmap option_map snd mbind option_bind].
    intros ->%IH. destruct (mapM calls_of_line _) as [more|]; [|done]. cbn. by rewrite <-app_assoc.
  - cbn [mbind option_bind]. destruct (ok (func_line_data l)) as [[r' d]|]; cbn [fmap option_fmap option_map snd];
      intros ->%IH; destruct (mapM calls_of_line _) as [more|]; try done. cbn. unfold push. by rewrite <-app_assoc.
Qed.
(** Reading the block gives this description, with the calls sorted by depth and address. *)
Lemma parse_func_described block r :
  parse_func block = Some r →
  ok_of_parse r =
    (λ i, {| func_name := func_name i; func_size := func_size i; lines := lines i;
             inlinees := stable_sort inlinee_leb (inlinees i) |}) <$> func_described block.
Proof.
  unfold parse_func, func_described. destruct (is_empty block) eqn:He.
  { destruct block; [|done]. cbn [lines_of fmap list_fmap]. unfold read_line_and_advance. cbn [split_once strip_prefix].
    cbn. unfold parsed. destruct (ok (func_line "")) as [[r' [[a z] n]]|] eqn:Hf; [|by intros [= <-]].
    exfalso. apply ok_Some in Hf. unfold func_line, record_tag in Hf. rewrite terminated_spec, tag_spec in Hf. done. }
  rewrite (lines_of_read block He). destruct (read_line_and_advance block) as [header input]. cbn [fst snd]. unfold parsed.
  destruct (ok (func_line header)) as [[r' [[a z] n]]|]; [|by intros [= <-]]. cbn [mbind option_bind].
  destruct (parse_block _ _ _ _) as [b|] eqn:Hb; [|done]. apply parse_block_described in Hb. cbn [mbind option_bind].
  intros [= <-]. destruct (mapM calls_of_line _) as [more|]; cbn [mbind option_bind] in *; destruct b as [e|[ls is']]; try done.
  injection Hb as -> ->. by destruct (utf8 n).
Qed.
End described.

(** The call at a depth that covers an address, and the line at it: the last one that
    does not start behind the address. *)
Definition call_at (info : BreakpadFuncSymbolInfo) (d a : Z) : option Inlinee :=
  find (λ x, (depth x =? d) && (inlinee_address x <=? a) && (a <? inlinee_address x + inlinee_size x)) (inlinees info).
Definition line_at (info : BreakpadFuncSymbolInfo) (a : Z) : option SourceLine :=
  last (filter (λ l, line_address l ≤ a) (lines info)).
(** A block in order: its lines rise, and no two calls at a depth overlap or start together. *)
Record block_ok (info : BreakpadFuncSymbolInfo) : Prop := {
  block_lines : StronglySorted (λ x y, line_address x < line_address y) (lines info);
  block_range : Forall (λ x, u32_range (depth x) ∧ u32_range (inlinee_address x) ∧ 0 ≤ inlinee_size x ∧
                             inlinee_address x + inlinee_size x < 2 ^ 32) (inlinees info);
  block_distinct : NoDup ((λ x, (depth x, inlinee_address x)) <$> inlinees info);
  block_apart x y :
    x ∈ inlinees info → y ∈ inlinees info → depth x = depth y → inlinee_address x < inlinee_address y →
    inlinee_address x + inlinee_size x ≤ inlinee_address y
}.
Definition sorted_block (info : BreakpadFuncSymbolInfo) : BreakpadFuncSymbolInfo :=
  {| func_name := func_name info; func_size := func_size info; lines := lines info;
     inlinees := stable_sort inlinee_leb (inlinees info) |}.
Lemma strongly_sorted_strict {A B} (key : A → B) (R : A → A → Prop) (S : A → A → Prop) l :
  (∀ x y, x ∈ l → y ∈ l → R x y → key x ≠ key y → S x y) → NoDup (key <$> l) → StronglySorted R l → StronglySorted S l.
Proof.
  intros Himp Hnd Hs. induction Hs as [|x l Hs IH Hx]; [constructor|]. cbn in Hnd. apply NoDup_cons in Hnd as [Hnin Hnd].
  constructor; [apply IH; [|done]; intros; apply Himp; [by right..|done|done]|].
  rewrite Forall_forall in Hx |- *. intros y Hy. apply Himp; [by left|by right|by apply Hx|].
  intros Heq. apply Hnin. rewrite Heq. by apply list_elem_of_fmap_2.
Qed.
Lemma sorted_block_ok info : block_ok info → inlinees_ok (inlinees (sorted_block info)).
Proof.
  intros [_ Hr Hd Ha]. pose proof (stable_sort_permutation inlinee_leb (inlinees info)) as Hp.
  assert (∀ x, x ∈ inlinees (sorted_block info) → x ∈ inlinees info) as Hin by (intros x; by rewrite <-Hp).
  rewrite Forall_forall in Hr. split.
  - apply Forall_forall. intros x Hx%Hin. destruct (Hr x Hx) as (? & ? & ? & _). done.
  - apply (strongly_sorted_strict (λ x, (depth x, inlinee_address x)) (λ a b, inlinee_leb a b = true)).
    + intros x y Hx%Hin Hy%Hin Hle Hne. destruct (Hr x Hx) as (_ & Hxa & _), (Hr y Hy) as (_ & Hya & _).
      apply inlinee_leb_key in Hle; [|done..]. unfold key_of_inlinee, inlinee_key, u32_range in *.
      enough (depth x * 2 ^ 32 + inlinee_address x ≠ depth y * 2 ^ 32 + inlinee_address y) by lia.
      intros Heq. apply Hne. f_equal; lia.
    + cbn [sorted_block inlinees]. by rewrite Hp.
    + cbn [sorted_block inlinees]. apply stable_sort_sorted.
      * intros x y w. unfold inlinee_leb. rewrite !orb_true_iff, !andb_true_iff, !Z.ltb_lt, !Z.eqb_eq, !Z.leb_le. lia.
      * intros x y. unfold inlinee_leb. rewrite !orb_true_iff, !andb_true_iff, !Z.ltb_lt, !Z.eqb_eq, !Z.leb_le. lia.
  - intros x y Hx%Hin Hy%Hin. by apply Ha.
Qed.
Lemma call_at_spec info d a x :
  block_ok info → call_at info d a = Some x ↔
    x ∈ inlinees info ∧ depth x = d ∧ inlinee_address x ≤ a < inlinee_address x + inlinee_size x.
Proof.
  intros [_ _ Hd Ha]. unfold call_at. set (p := λ y, _).
  assert (∀ y, p y = true ↔ depth y = d ∧ inlinee_address y ≤ a < inlinee_address y + inlinee_size y) as Hp.
  { intros y. unfold p. rewrite !andb_true_iff, Z.eqb_eq, Z.leb_le, Z.ltb_lt. tauto. }
  split.
  - intros [Hx%list_elem_of_In Hpx]%find_some. by rewrite <-Hp.
  - intros (Hx & Hpx). apply Hp in Hpx. destruct (find p (inlinees info)) as [y|] eqn:Hf.
    + apply find_some in Hf as [Hy%list_elem_of_In Hpy]. f_equal. apply Hp in Hpx as [Hdx Hax], Hpy as [Hdy Hay].
      assert (inlinee_address x = inlinee_address y) as Heq.
      { destruct (Z.lt_trichotomy (inlinee_address x) (inlinee_address y)) as [Hlt|[Heq|Hlt]]; [|done|].
        - specialize (Ha x y Hx Hy ltac:(congruence) Hlt). lia.
        - specialize (Ha y x Hy Hx ltac:(congruence) Hlt). lia. }
      apply list_elem_of_lookup in Hx as [i Hi]. apply list_elem_of_lookup in Hy as [j Hj].
      assert (i = j) as ->; [|congruence].
      eapply (NoDup_lookup _ _ _ (depth x, inlinee_address x) Hd); rewrite list_lookup_fmap.
      * by rewrite Hi.
      * rewrite Hj. cbn. congruence.
    + pose proof (find_none _ _ Hf x (proj1 (list_elem_of_In _ _) Hx)). congruence.
Qed.
Lemma get_inlinee_described info d a :
  block_ok info → u32_range d → u32_range a → get_inlinee_at_depth (sorted_block info) d a = Ok (call_at info d a).
Proof.
  intros Hok Hd Ha. destruct (get_inlinee_ends (sorted_block info) d a) as (o & Hget & _). rewrite Hget. f_equal.
  pose proof (get_inlinee_exact (sorted_block info) d a) as Hex.
  assert (∀ x, o = Some x ↔ call_at info d a = Some x) as Heq.
  { intros x. rewrite call_at_spec by done. specialize (Hex x (sorted_block_ok info Hok) Hd Ha). rewrite Hget in Hex.
    assert (x ∈ inlinees (sorted_block info) ↔ x ∈ inlinees info) as Hin
      by (cbn [sorted_block inlinees]; by rewrite (stable_sort_permutation inlinee_leb (inlinees info))).
    rewrite Hin in Hex. pose proof (block_range _ Hok) as Hr. rewrite Forall_forall in Hr. split.
    - intros ->. naive_solver.
    - intros (Hx & Hdx & Hax). enough (Ok o = Ok (Some x)) by congruence. apply Hex. by destruct (Hr x Hx) as (_ & _ & _ & ?). }
  destruct o as [x|]; [symmetry; by apply Heq|]. destruct (call_at info d a) as [y|]; [|done]. by apply Heq.
Qed.
Lemma get_innermost_described info a : block_ok info → get_innermost_sourceloc (sorted_block info) a = Ok (line_at info a).
Proof.
  intros Hok. pose proof (block_lines _ Hok) as Hs. unfold get_innermost_sourceloc, line_at. cbn [sorted_block lines].
  pose proof (position_before_last line_address (lines info) a Hs) as Hp. destruct (position_before _) as [i|].
  - destruct Hp as (y & Hy & Hle & _ & Hafter). unfold index. rewrite Hy. cbn [unwrap mbind res_bind]. do 2 f_equal.
    symmetry. rewrite <-(take_drop_middle _ _ _ Hy), filter_app, filter_cons_True by done.
    assert (filter (λ l, line_address l ≤ a) (drop (S i) (lines info)) = []) as ->; [|by rewrite last_snoc].
    apply elem_of_nil_inv. intros x [Hx Hin]%list_elem_of_filter.
    apply list_elem_of_lookup in Hin as [j Hj]. rewrite lookup_drop in Hj. specialize (Hafter _ _ Hj ltac:(lia)). lia.
  - destruct (last _) as [y|] eqn:Hl; [|done]. exfalso. apply last_Some_elem_of in Hl. apply list_elem_of_filter in Hl as [Hle Hin].
    specialize (Hp y Hin). lia.
Qed.
End BreakpadFunc.
