(* ===== verification/BreakpadLookup.v ===== *)
(** Lookups in a breakpad symbol file against a reference without caches, sorting and
    binary search: BreakpadSymbolMap.v for the indexes of BreakpadIndex.v. *)
From S2P Require Import Prelude RustStr SymbolTable LibTable CodeIds LineBuffer Nom MappedPath.
From S2P Require Import BreakpadRecords BreakpadIndex IndexedRecords Symindex SymindexRoundTrip SymbolMaps.
From S2P Require Import BreakpadSymbolMap BreakpadFunc.
From stdpp Require Import options.
Open Scope Z_scope.

Module BreakpadLookup.
Import RustStr Nom BreakpadRecords BreakpadIndex IndexedRecords SymbolMaps BreakpadSymbolMap BreakpadFunc.
Import LineBuffer(slen_app, slen_nonneg).

(** The calls that are inlined at an address, the outermost first. *)
Fixpoint call_chain (fuel : nat) (info : BreakpadFuncSymbolInfo) (a depth' : Z) : list Inlinee :=
  match fuel with
  | O => []
  | S fuel' =>
      match get_inlinee_at_depth info depth' a with
      | Ok (Some i) => i :: call_chain fuel' info a (depth' + 1)
      | _ => []
      end
  end.

Section lookup.
Context `{BreakpadIds} `{Nom} `{CodeIds.UuidOps} {bytes : string} `{FileContents bytes}.
Context (idx : BreakpadIndex).

(** * The reference *)
(** The first item with a number. *)
Definition item_name `{FileOrInlineOrigin A} (m : ItemMap A) (k : Z) : option string :=
  item ← first item_index k (inner m);
  line' ← read_bytes_at (offset_and_length item).1 (offset_and_length item).2;
  ok_of_parse (parse_item line').
Definition path_of (file' : option string) : option MappedPath.SourceFilePath :=
  MappedPath.from_breakpad_path <$> file'.
(** The frames of a chain of calls in a function, and the name of the function at
    its end. *)
Fixpoint calls_of (name' : option string) (chain : list Inlinee) : list FrameDebugInfo * option string :=
  match chain with
  | [] => ([], name')
  | i :: chain' =>
      let '(more, name'') := calls_of (item_name (inline_origins idx) (origin_id i)) chain' in
      ({| function := name'; file_path := path_of (item_name (files idx) (call_file i));
          line_number := Some (call_line i) |} :: more, name'')
  end.
Definition frames_of (name : string) (chain : list Inlinee) (loc : option SourceLine) : list FrameDebugInfo :=
  let '(calls, name') := calls_of (Some name) chain in
  reverse (calls ++
    [{| function := name'; file_path := path_of (l ← loc; item_name (files idx) (file l)); line_number := line <$> loc |}]).
Definition symbols_at : list (Z * BreakpadSymbolType) := zip (symbol_addresses idx) (symbol_offsets idx).
Definition symbol_before (a : Z) : option (Z * BreakpadSymbolType) := last (filter (λ s, s.1 ≤ a) symbols_at).
Definition public_answer (sa : Z) (public : BreakpadPublicSymbol) (a : Z) : option SyncAddressInfo :=
  (λ name',
     {| symbol :=
          {| address := sa; size := (λ next, next.1 - sa) <$> head (filter (λ s, a < s.1) symbols_at);
             symbol_name := name' |};
        frames := None |}) <$> ok_of (read_public public).

(** What the file says of a function, and of a request. *)
Definition func_text (f : BreakpadFuncSymbol) : option BreakpadFuncSymbolInfo :=
  block ← read_bytes_at (func_offset f) (block_length f); func_described block.
(** The calls at an address, from the outermost on, as deep as there is one. *)
Fixpoint calls_at (fuel : nat) (info : BreakpadFuncSymbolInfo) (a depth' : Z) : list Inlinee :=
  match fuel with
  | O => []
  | S fuel' =>
      match call_at info depth' a with
      | Some i => i :: calls_at fuel' info a (depth' + 1)
      | None => []
      end
  end.
Definition described_func (sa : Z) (info : BreakpadFuncSymbolInfo) (a : Z) : option SyncAddressInfo :=
  if decide (a < sa + func_size info) then
    Some {| symbol := {| address := sa; size := Some (func_size info); symbol_name := func_name info |};
            frames := Some (Available
              (frames_of (func_name info) (calls_at (length (inlinees info)) info a 0) (line_at info a))) |}
  else None.
(** The last symbol at or before the address answers; a PUBLIC symbol goes to the next one. *)
Definition described (lookup_address : LookupAddress) : option SyncAddressInfo :=
  match lookup_address with
  | Svma _ | FileOffset _ => None
  | Relative a =>
      s ← symbol_before a;
      match s.2 with
      | Public public => public_answer s.1 public a
      | Func f => info ← func_text f; described_func s.1 info a
      end
  end.
Definition described_symbols : list (Z * string) :=
  omap (λ s, (λ name', (s.1, name')) <$>
          match s.2 with Public public => ok_of (read_public public) | Func func => func_name <$> func_text func end)
       symbols_at.
(** A request that does not meet a function whose block is out of order, or that
    reaches beyond the address space. *)
Definition in_order (lookup_address : LookupAddress) : Prop :=
  match lookup_address with
  | Relative a => u32_range a ∧
      ∀ sa f info, symbol_before a = Some (sa, Func f) → func_text f = Some info →
        block_ok info ∧ u32_range (sa + func_size info)
  | _ => True
  end.

(** * The answers, without caches *)
Definition frames_at (info : BreakpadFuncSymbolInfo) (a : Z) : list FrameDebugInfo :=
  frames_of (func_name info) (call_chain (length (inlinees info)) info a 0)
    match get_innermost_sourceloc info a with Ok l => l | Panic => None end.
Definition answer_func (symbol_address : Z) (info : BreakpadFuncSymbolInfo) (a : Z) : option SyncAddressInfo :=
  if add_u32 symbol_address (func_size info) <=? a then None
  else
    Some {| symbol := {| address := symbol_address; size := Some (func_size info); symbol_name := func_name info |};
            frames := Some (Available (frames_at info a)) |}.
Definition func_of (f : BreakpadFuncSymbol) : option BreakpadFuncSymbolInfo :=
  match read_func f with Some (Ok r) => ok_of r | _ => None end.
Definition answer (lookup_address : LookupAddress) : option SyncAddressInfo :=
  match lookup_address with
  | Svma _ | FileOffset _ => None
  | Relative a =>
      s ← symbol_before a;
      match s.2 with
      | Public public => public_answer s.1 public a
      | Func func => info ← func_of func; answer_func s.1 info a
      end
  end.
Definition all_symbols : list (Z * string) :=
  omap (λ s, (λ name', (s.1, name')) <$>
          match s.2 with Public public => ok_of (read_public public) | Func func => func_name <$> func_of func end)
       symbols_at.

(** * Caches that say what the file says *)
Record caches_ok (c : Caches) : Prop := {
  files_cached k s : file_strings c !! k = Some s → read_item (files idx) k = Ok (inr s);
  origins_cached k s : origin_strings c !! k = Some s → read_item (inline_origins idx) k = Ok (inr s);
  publics_cached p n :
    Public p ∈ symbol_offsets idx → public_symbols c !! public_offset p = Some n → read_public p = inr n;
  funcs_cached f info :
    Func f ∈ symbol_offsets idx → func_symbols c !! func_offset f = Some info → read_func f = Some (Ok (inr info))
}.
Lemma new_caches_ok : caches_ok new_caches.
Proof. split; intros; simplify_map_eq. Qed.
(** What holds of an index that was made of a file. *)
Record index_known : Prop := {
  known_sorted : StronglySorted Z.lt (symbol_addresses idx);
  known_length : length (symbol_addresses idx) = length (symbol_offsets idx);
  known_publics p q :
    Public p ∈ symbol_offsets idx → Public q ∈ symbol_offsets idx → public_offset p = public_offset q → p = q;
  known_funcs f g :
    Func f ∈ symbol_offsets idx → Func g ∈ symbol_offsets idx → func_offset f = func_offset g → f = g;
  known_ok : Forall SymindexRoundTrip.symbol_ok (symbol_offsets idx);
  known_files : StronglySorted (λ x y, item_index x < item_index y) (inner (files idx));
  known_origins : StronglySorted (λ x y, item_index x < item_index y) (inner (inline_origins idx))
}.

Lemma ok_of_parse_error {A} (r : BreakpadParseError + A) : ok_of (parse_error r) = ok_of_parse r.
Proof. by destruct r. Qed.
Lemma read_item_ends `{FileOrInlineOrigin A} (m : ItemMap A) k :
  StronglySorted (λ x y, item_index x < item_index y) (inner m) → ∃ r, read_item m k = Ok r ∧ ok_of r = item_name m k.
Proof.
  intros Hs. unfold read_item, item_name. rewrite (get_first m k Hs). cbn [mbind res_bind]. eexists. split; [done|].
  destruct (first item_index k (inner m)) as [item|]; [|done]. cbn [mbind option_bind].
  destruct (offset_and_length item) as [o n]. cbn [fst snd].
  destruct (read_bytes_at o n); [|done]. apply ok_of_parse_error.
Qed.
Lemma get_str_ok `{FileOrInlineOrigin A} (m : ItemMap A) cache k :
  StronglySorted (λ x y, item_index x < item_index y) (inner m) →
  (∀ k s, cache !! k = Some s → read_item m k = Ok (inr s)) →
  ∃ r cache', get_str m cache k = Ok (r, cache') ∧ ok_of r = item_name m k ∧
    (∀ k s, cache' !! k = Some s → read_item m k = Ok (inr s)).
Proof.
  intros Hsorted Hc. destruct (read_item_ends m k Hsorted) as (r & Hr & Hname). unfold get_str.
  destruct (cache !! k) as [s|] eqn:Hk.
  { exists (inr s), cache. rewrite (Hc k s Hk) in Hr. by injection Hr as <-. }
  rewrite Hr. cbn [mbind res_bind]. destruct r as [e|s]; [by eexists _, _|].
  exists (inr s), (<[k := s]> cache). split_and!; [done..|]. intros k' s'. rewrite lookup_insert_Some.
  intros [[<- <-]|[_ Hs]]; [done|by apply Hc].
Qed.
Lemma get_public_ok c p :
  index_known → caches_ok c → Public p ∈ symbol_offsets idx →
  ∃ r cache', get_public_info (public_symbols c) p = (r, cache') ∧ ok_of r = ok_of (read_public p) ∧
    caches_ok (with_publics c cache').
Proof.
  intros Hk [Hf Ho Hp Hfu] Hin. unfold get_public_info. destruct (public_symbols c !! public_offset p) as [n|] eqn:Hn.
  { eexists _, _. split; [done|]. by rewrite (Hp p n Hin Hn). }
  destruct (read_public p) as [e|n] eqn:Hr; [by eexists _, _|]. eexists _, _. split_and!; [done..|].
  split; try done. cbn. intros q m Hq. rewrite lookup_insert_Some. intros [[Heq <-]|[_ Hm]]; [|by apply Hp].
  by rewrite <-(known_publics Hk p q Hin Hq Heq).
Qed.
Lemma substring_length a n s : slen (String.substring a n s) ≤ Z.of_nat n.
Proof.
  unfold slen. revert a n. induction s as [|c s IH]; intros [|a] [|n]; cbn; try lia.
  - specialize (IH 0%nat n). lia.
  - specialize (IH a 0%nat). lia.
  - specialize (IH a (S n)). lia.
Qed.
(** Reading a function ends, with fewer inline calls than 2^32. *)
Lemma read_func_ends f :
  u32_range (block_length f) → u64_range (func_offset f) →
  ∃ r, read_func f = Some (Ok r) ∧ ∀ info, r = inr info → Z.of_nat (length (inlinees info)) < 2 ^ 32.
Proof.
  unfold u32_range, u64_range. intros Hl Ho. unfold read_func.
  destruct (read_bytes_at (func_offset f) (block_length f)) as [block|] eqn:Hr; [|by eexists].
  apply read_bytes_at_spec in Hr as ->; [|lia..].
  pose proof (substring_length (Z.to_nat (func_offset f)) (Z.to_nat (block_length f)) bytes) as Hlen. revert Hlen.
  generalize (String.substring (Z.to_nat (func_offset f)) (Z.to_nat (block_length f)) bytes). intros block Hlen.
  destruct (parse_func_ends block) as (r & -> & Hinfo). eexists. split; [done|]. intros info.
  destruct r as [e|info']; [done|]. intros [= <-]. destruct (Hinfo info' eq_refl) as [Hle _]. lia.
Qed.
Lemma func_ranges f : index_known → Func f ∈ symbol_offsets idx → u32_range (block_length f) ∧ u64_range (func_offset f).
Proof. intros Hk Hin. pose proof (known_ok Hk) as Hok. rewrite Forall_forall in Hok. exact (Hok _ Hin). Qed.
Lemma get_func_ok c f :
  index_known → caches_ok c → Func f ∈ symbol_offsets idx →
  ∃ r cache', get_func_info (func_symbols c) f = Some (Ok (r, cache')) ∧ ok_of r = func_of f ∧
    caches_ok (with_funcs c cache') ∧ ∀ info, r = inr info → Z.of_nat (length (inlinees info)) < 2 ^ 32.
Proof.
  intros Hk [Hf Ho Hp Hfu] Hin. destruct (func_ranges f Hk Hin) as [Hl Hoff].
  destruct (read_func_ends f Hl Hoff) as (r & Hr & Hlen). unfold get_func_info, func_of. rewrite Hr.
  destruct (func_symbols c !! func_offset f) as [info|] eqn:Hn.
  { pose proof (Hfu f info Hin Hn) as Heq. rewrite Hr in Heq. injection Heq as ->.
    eexists _, _. split; [done|]. split; [done|]. by split. }
  cbn [mbind loops_bind]. destruct r as [e|info]; eexists _, _; (split; [done|]; split; [done|]); [by split|].
  split; [|exact Hlen]. split; try done. cbn. intros g m Hg. rewrite lookup_insert_Some. intros [[Heq <-]|[_ Hm]]; [|by apply Hfu].
  by rewrite <-(known_funcs Hk f g Hin Hg Heq).
Qed.

(** * The loop over the depths *)
Definition depths_below (info : BreakpadFuncSymbolInfo) (k : nat) : Prop :=
  ∀ j, (j < k)%nat → ∃ x, x ∈ inlinees info ∧ depth x = Z.of_nat j.
Lemma depths_below_length info k : depths_below info k → (k ≤ length (inlinees info))%nat.
Proof.
  intros Hd. assert (Z.of_nat <$> seq 0 k ⊆+ depth <$> inlinees info) as Hsub%submseteq_length.
  { apply NoDup_submseteq; [apply NoDup_fmap_2; [intros ?? ?; lia|apply NoDup_seq]|].
    intros z (j & -> & Hj%elem_of_seq)%list_elem_of_fmap. destruct (Hd j ltac:(lia)) as (x & Hx & <-).
    by apply list_elem_of_fmap_2. }
  by rewrite !length_fmap, length_seq in Hsub.
Qed.
Lemma inline_frames_ok info a name' c k fuel :
  index_known → Z.of_nat (length (inlinees info)) < 2 ^ 32 → depths_below info k → (k + fuel = S (length (inlinees info)))%nat →
  caches_ok c →
  ∃ c', inline_frames idx fuel info a (Z.of_nat k) name' c =
          Some (Ok (calls_of name' (call_chain (pred fuel) info a (Z.of_nat k)), c')) ∧ caches_ok c'.
Proof.
  intros Hknown Hlen. revert name' c k. induction fuel as [|fuel IH]; intros name' c k Hd Hk Hc.
  { apply depths_below_length in Hd. lia. }
  cbn [inline_frames pred]. destruct (get_inlinee_ends info (Z.of_nat k) a) as (o & Hget & Ho). rewrite Hget.
  cbn [returned mbind loops_bind]. destruct o as [x|].
  2: { exists c. split; [|done]. destruct fuel; cbn [call_chain]; [done|]. by rewrite Hget. }
  destruct (Ho x eq_refl) as [Hx Hdx].
  destruct (get_str_ok (files idx) (file_strings c) (call_file x) (known_files Hknown) (files_cached c Hc)) as (r1 & m1 & Hg1 & Hr1 & Hm1).
  destruct (get_str_ok (inline_origins idx) (origin_strings c) (origin_id x) (known_origins Hknown) (origins_cached c Hc))
    as (r2 & m2 & Hg2 & Hr2 & Hm2).
  assert (depths_below info (S k)) as Hd'.
  { intros j Hj. destruct (decide (j = k)) as [->|]; [by exists x|]. apply Hd. lia. }
  pose proof (depths_below_length _ _ Hd') as Hle.
  assert (caches_ok (with_origins (with_files c m1) m2)) as Hc' by (destruct Hc; by split).
  rewrite add_u32_id by lia. replace (Z.of_nat k + 1) with (Z.of_nat (S k)) by lia.
  destruct (IH (ok_of r2) (with_origins (with_files c m1) m2) (S k) Hd' ltac:(lia) Hc') as (c' & Hi & Hc'').
  exists c'. split; [|done]. rewrite Hg1. cbn [returned mbind loops_bind]. rewrite Hg2. cbn [returned mbind loops_bind].
  rewrite Hi. destruct fuel as [|fuel]; [lia|]. cbn [call_chain pred mbind loops_bind returned]. rewrite Hget.
  replace (Z.of_nat k + 1) with (Z.of_nat (S k)) by lia. cbn [calls_of]. rewrite Hr1, Hr2. clear Hi. by destruct (calls_of _ _).
Qed.

(** * The symbol at or before an address *)
Lemma symbols_sorted : index_known → StronglySorted (λ x y, x.1 < y.1) symbols_at.
Proof.
  intros Hk. unfold symbols_at. pose proof (known_sorted Hk) as Hs. pose proof (known_length Hk) as Hl. revert Hs Hl.
  generalize (symbol_addresses idx) as l, (symbol_offsets idx) as k. intros l k Hs. revert k.
  induction Hs as [|x l Hs IH Hx]; intros [|y k] Hl; [constructor|done|done|]. cbn. constructor; [apply IH; by injection Hl|].
  apply Forall_forall. intros [u v] Hu. apply elem_of_zip_l in Hu. rewrite Forall_forall in Hx. by apply Hx.
Qed.
Lemma filter_none {A} (P : A → Prop) `{∀ x, Decision (P x)} (l : list A) : (∀ x, x ∈ l → ¬ P x) → filter P l = [].
Proof.
  intros Hl. destruct (filter P l) as [|x l'] eqn:Hf; [done|].
  assert (x ∈ filter P l) as [Hx Hin]%list_elem_of_filter by (rewrite Hf; by left). by destruct (Hl x).
Qed.
Lemma sorted_filter_split (l : list (Z * BreakpadSymbolType)) i y a :
  StronglySorted (λ x y, x.1 < y.1) l → l !! i = Some y → y.1 ≤ a → (∀ j x, l !! j = Some x → (i < j)%nat → a < x.1) →
  last (filter (λ s, s.1 ≤ a) l) = Some y ∧ head (filter (λ s, a < s.1) l) = l !! S i.
Proof.
  intros Hs Hi Hy Hafter.
  assert (∀ x, x ∈ take i l → x.1 ≤ a) as Htake.
  { intros x [j [Hj Hji]%lookup_take_Some]%list_elem_of_lookup.
    pose proof (SymbolTable.sorted_lookup fst l j i x y Hs Hj Hi Hji). lia. }
  assert (∀ x, x ∈ drop (S i) l → a < x.1) as Hdrop.
  { intros x [j Hj]%list_elem_of_lookup. rewrite lookup_drop in Hj. by apply Hafter in Hj; [|lia]. }
  split.
  - rewrite <-(take_drop_middle l i y Hi), filter_app, filter_cons_True by done.
    rewrite (filter_none _ (drop (S i) l)); [by rewrite last_snoc|]. intros x Hx%Hdrop. lia.
  - rewrite <-(take_drop_middle l i y Hi) at 1. rewrite filter_app, filter_cons_False by lia.
    rewrite (filter_none _ (take i l)) by (intros x Hx%Htake; lia). cbn [app].
    rewrite <-(Nat.add_0_r (S i)), <-lookup_drop, Nat.add_0_r.
    destruct (drop (S i) l) as [|z l']; [done|]. rewrite filter_cons_True; [done|]. apply Hdrop. by left.
Qed.
Lemma position_spec a :
  index_known →
  match position_before (SymbolTable.binary_search_by_key id (symbol_addresses idx) a) with
  | None => last (filter (λ s, s.1 ≤ a) symbols_at) = None
  | Some i => ∃ s, index (symbol_addresses idx) i = Ok s.1 ∧ index (symbol_offsets idx) i = Ok s.2 ∧ s.2 ∈ symbol_offsets idx ∧
      last (filter (λ s, s.1 ≤ a) symbols_at) = Some s ∧
      (next ← symbol_addresses idx !! S i; checked_sub next s.1) =
        (λ next, next.1 - s.1) <$> head (filter (λ s, a < s.1) symbols_at)
  end.
Proof.
  intros Hk. pose proof (position_before_last id (symbol_addresses idx) a (known_sorted Hk)) as Hp.
  pose proof (known_length Hk) as Hlen. pose proof (symbols_sorted Hk) as Hs.
  destruct (position_before _) as [i|].
  - destruct Hp as (sa & Hsa & Hle & _ & Hafter). cbn [id] in Hle, Hafter.
    destruct (lookup_lt_is_Some_2 (symbol_offsets idx) i) as [s Hso]; [rewrite <-Hlen; by eapply lookup_lt_Some|].
    exists (sa, s). unfold index. rewrite Hsa, Hso. split_and!; [done..|by eapply list_elem_of_lookup_2| |].
    all: destruct (sorted_filter_split symbols_at i (sa, s) a Hs) as [Hlast Hhead];
      [unfold symbols_at; rewrite lookup_zip_with, Hsa, Hso; done|done| |].
    1, 3: intros j x Hj Hij; apply lookup_zip_with_Some in Hj as (u & v & -> & Hu & _); by apply (Hafter j).
    + done.
    + rewrite Hhead. unfold symbols_at. rewrite lookup_zip_with.
      destruct (symbol_addresses idx !! S i) as [next|] eqn:Hn; [|done].
      destruct (lookup_lt_is_Some_2 (symbol_offsets idx) (S i)) as [s' Hs']; [rewrite <-Hlen; by eapply lookup_lt_Some|].
      rewrite Hs'. cbn. specialize (Hafter (S i) next Hn ltac:(lia)). unfold checked_sub.
      by rewrite (proj2 (Z.ltb_ge next sa)) by lia.
  - rewrite filter_none; [done|]. intros [u v] Hin%elem_of_zip_l. specialize (Hp u Hin). cbn in *. lia.
Qed.

(** * Lookups *)
Lemma lookup_func_ok c info sa a :
  index_known → Z.of_nat (length (inlinees info)) < 2 ^ 32 → caches_ok c →
  ∃ c', lookup_func idx c info sa a = Some (Ok (answer_func sa info a, c')) ∧ caches_ok c'.
Proof.
  intros Hknown Hlen Hc. unfold lookup_func, answer_func. destruct (_ <=? a); [by exists c|].
  destruct (inline_frames_ok info a (Some (func_name info)) c 0 (S (length (inlinees info))) Hknown Hlen) as (c1 & Hi & Hc1);
    [intros ? ?; lia|done|done|].
  change (Z.of_nat 0) with 0 in Hi. rewrite Hi. unfold frames_at, frames_of. cbn [pred mbind loops_bind].
  destruct (calls_of _ _) as [calls name']. destruct (get_innermost_ends info a) as [loc ->].
  cbn [returned mbind loops_bind]. destruct loc as [l|]; [|by exists c1].
  destruct (get_str_ok (files idx) (file_strings c1) (file l) (known_files Hknown) (files_cached c1 Hc1)) as (r & m & Hg & Hr & Hm).
  rewrite Hg. cbn [returned mbind loops_bind]. exists (with_files c1 m). rewrite Hr. split; [done|]. destruct Hc1. by split.
Qed.
Lemma lookup_sync_ok c q :
  index_known → caches_ok c → ∃ c', lookup_sync idx c q = Some (Ok (answer q, c')) ∧ caches_ok c'.
Proof.
  intros Hk Hc. destruct q as [a|a|a]; [|by exists c..]. cbn [lookup_sync answer].
  pose proof (position_spec a Hk) as Hp. unfold symbol_before. destruct (position_before _) as [i|]; [|rewrite Hp; by exists c].
  destruct Hp as (s & -> & -> & Hin & Hlast & Hnext). rewrite Hlast. cbn [returned mbind loops_bind option_bind].
  destruct s as [sa [p|f]]; cbn [fst snd] in *.
  - destruct (get_public_ok c p Hk Hc Hin) as (r & m & -> & Hr & Hm). unfold public_answer. rewrite Hnext, Hr. by eexists.
  - destruct (get_func_ok c f Hk Hc Hin) as (r & m & -> & Hr & Hm & Hlen). cbn [mbind loops_bind]. rewrite <-Hr.
    destruct r as [e|info]; [by eexists|]. by apply lookup_func_ok; [|apply Hlen|].
Qed.
Definition named (s : Z * BreakpadSymbolType) : option (Z * string) :=
  (λ name', (s.1, name')) <$>
    match s.2 with Public public => ok_of (read_public public) | Func func => func_name <$> func_of func end.
Lemma iter_from_ok c l1 l2 positions :
  index_known → caches_ok c → symbols_at = l1 ++ l2 → positions = seq (length l1) (length l2) →
  ∃ c', iter_from idx c positions = Some (Ok (omap named l2, c')) ∧ caches_ok c'.
Proof.
  intros Hk Hc Hs ->. revert c l1 Hc Hs. induction l2 as [|[sa s] l2 IH]; intros c l1 Hc Hs; [by exists c|].
  cbn [length seq iter_from].
  assert (symbols_at !! length l1 = Some (sa, s)) as Hl by (rewrite Hs; by apply list_lookup_middle).
  unfold symbols_at in Hl. apply lookup_zip_with_Some in Hl as (sa' & s' & [= <- <-] & Ha & Ho).
  assert (s ∈ symbol_offsets idx) as Hin by (by eapply list_elem_of_lookup_2). unfold index at 1 2. rewrite Ha, Ho.
  cbn [unwrap returned mbind loops_bind].
  assert (∃ c1, symbol_name_of c s =
    Some (Ok (match s with Public public => ok_of (read_public public) | Func func => func_name <$> func_of func end, c1)) ∧
    caches_ok c1) as (c1 & -> & Hc1).
  { destruct s as [p|f]; cbn [symbol_name_of].
    - destruct (get_public_ok c p Hk Hc Hin) as (r & m & -> & <- & Hm). by eexists.
    - destruct (get_func_ok c f Hk Hc Hin) as (r & m & -> & <- & Hm & _). cbn [mbind loops_bind]. by eexists. }
  cbn [mbind loops_bind]. destruct (IH c1 (l1 ++ [(sa, s)]) Hc1) as (c' & Hi & Hc'); [by rewrite <-(assoc_L (++))|].
  rewrite length_app in Hi. cbn [length] in Hi. rewrite Nat.add_1_r in Hi. rewrite Hi. cbn [mbind loops_bind].
  exists c'. split; [|done]. cbn [omap list_omap].
  assert (named (sa, s) = (λ n, (sa, n)) <$>
    match s with Public public => ok_of (read_public public) | Func func => func_name <$> func_of func end) as -> by done.
  by destruct (match s with Public _ => _ | Func _ => _ end).
Qed.
Lemma iter_symbols_ok c :
  index_known → caches_ok c → ∃ c', iter_symbols idx c = Some (Ok (all_symbols, c')) ∧ caches_ok c'.
Proof.
  intros Hk Hc. apply (iter_from_ok c [] symbols_at); [done..|]. unfold symbol_count, symbols_at.
  by rewrite length_zip_with_l_eq by apply (known_length Hk).
Qed.

(** * The answers and what the file says *)
Lemma func_of_described f : index_known → Func f ∈ symbol_offsets idx → func_of f = sorted_block <$> func_text f.
Proof.
  intros Hk Hin. destruct (func_ranges f Hk Hin) as [Hl Ho]. destruct (read_func_ends f Hl Ho) as (r & Hr & _).
  unfold func_of. rewrite Hr. unfold read_func, func_text in *.
  destruct (read_bytes_at (func_offset f) (block_length f)) as [block|]; [|by injection Hr as <-]. cbn [mbind option_bind].
  destruct (parse_func block) as [p|] eqn:Hp; [|done]. apply parse_func_described in Hp. injection Hr as <-.
  by rewrite ok_of_parse_error.
Qed.
Lemma call_chain_described info a d fuel :
  block_ok info → u32_range a → 0 ≤ d → d + Z.of_nat fuel ≤ 2 ^ 32 →
  call_chain fuel (sorted_block info) a d = calls_at fuel info a d.
Proof.
  intros Hok Ha. revert d. induction fuel as [|fuel IH]; intros d Hd Hle; [done|]. cbn [call_chain calls_at].
  rewrite get_inlinee_described by (done || (unfold u32_range; lia)). destruct (call_at info d a); [|done].
  rewrite IH by lia. done.
Qed.
Lemma answer_func_described sa info a :
  block_ok info → u32_range a → u32_range (sa + func_size info) → Z.of_nat (length (inlinees info)) < 2 ^ 32 →
  answer_func sa (sorted_block info) a = described_func sa info a.
Proof.
  intros Hok Ha Hend Hlen. unfold answer_func, described_func. cbn [sorted_block func_size func_name].
  unfold add_u32. rewrite wrap_u32_id by done. destruct (Z.leb_spec (sa + func_size info) a), (decide (a < sa + func_size info)); try lia; [done|].
  do 4 f_equal. unfold frames_at. rewrite get_innermost_described by done. cbn [sorted_block inlinees func_name].
  rewrite (Permutation_length (stable_sort_permutation inlinee_leb (inlinees info))), call_chain_described by (done || lia).
  done.
Qed.
Lemma answer_described q : index_known → in_order q → answer q = described q.
Proof.
  intros Hk Hq. destruct q as [a|a|a]; [|done..]. cbn [answer described in_order] in *. destruct Hq as [Ha Hf].
  destruct (symbol_before a) as [[sa [p|f]]|] eqn:Hs; [done| |done]. cbn [mbind option_bind fst snd].
  assert (Func f ∈ symbol_offsets idx) as Hin.
  { unfold symbol_before in Hs. apply last_Some_elem_of, list_elem_of_filter in Hs as [_ Hs]. by apply elem_of_zip_r in Hs. }
  rewrite (func_of_described f Hk Hin). destruct (func_text f) as [info|] eqn:Ht; [|done].
  destruct (Hf sa f info eq_refl Ht) as [Hok Hend]. cbn [fmap option_fmap option_map mbind option_bind].
  apply answer_func_described; [done..|]. destruct (func_ranges f Hk Hin) as [Hl Ho].
  destruct (read_func_ends f Hl Ho) as (r & Hr & Hlen). pose proof (func_of_described f Hk Hin) as Heq.
  unfold func_of in Heq. rewrite Hr, Ht in Heq. destruct r as [e|i]; [done|]. cbn in Heq. injection Heq as ->.
  specialize (Hlen _ eq_refl). cbn [sorted_block inlinees] in Hlen.
  by rewrite (Permutation_length (stable_sort_permutation inlinee_leb (inlinees info))) in Hlen.
Qed.
Lemma all_symbols_described : index_known → all_symbols = described_symbols.
Proof.
  intros Hk. unfold all_symbols, described_symbols.
  assert (∀ s, s ∈ symbols_at → s.2 ∈ symbol_offsets idx) as Hin by (intros [sa s] Hs; by apply elem_of_zip_r in Hs).
  induction symbols_at as [|[sa [p|f]] l IH]; [done|..]; cbn [omap list_omap fst snd];
    rewrite IH by (intros s Hs; apply Hin; by right); [done|].
  rewrite (func_of_described f Hk (Hin (sa, Func f) ltac:(by left))). by destruct (func_text f).
Qed.

(** * Requests, one after the other *)
Inductive request := Lookup (lookup_address : LookupAddress) | Iterate.
Inductive response := Found (info : option SyncAddressInfo) | Symbols (l : list (Z * string)).
Fixpoint run_requests (c : Caches) (rs : list request) : loops (list response) :=
  match rs with
  | [] => returned (Ok [])
  | Lookup q :: rs' => '(r, c') ← lookup_sync idx c q; more ← run_requests c' rs'; returned (Ok (Found r :: more))
  | Iterate :: rs' => '(r, c') ← iter_symbols idx c; more ← run_requests c' rs'; returned (Ok (Symbols r :: more))
  end.
Definition reference_response (r : request) : response :=
  match r with Lookup q => Found (answer q) | Iterate => Symbols all_symbols end.
Lemma run_requests_ok c rs :
  index_known → caches_ok c → run_requests c rs = Some (Ok (reference_response <$> rs)).
Proof.
  intros Hk. revert c. induction rs as [|[q|] rs IH]; intros c Hc; [done|..]; cbn [run_requests].
  - destruct (lookup_sync_ok c q Hk Hc) as (c' & -> & Hc'). cbn [mbind loops_bind]. by rewrite (IH c' Hc').
  - destruct (iter_symbols_ok c Hk Hc) as (c' & -> & Hc'). cbn [mbind loops_bind]. by rewrite (IH c' Hc').
Qed.
(** A request, and what the file itself says to it. *)
Definition request_in_order (r : request) : Prop := match r with Lookup q => in_order q | Iterate => True end.
Definition described_response (r : request) : response :=
  match r with Lookup q => Found (described q) | Iterate => Symbols described_symbols end.
Lemma reference_described r : index_known → request_in_order r → reference_response r = described_response r.
Proof.
  intros Hk Hr. destruct r as [q|]; cbn; [by rewrite answer_described|by rewrite all_symbols_described].
Qed.
End lookup.

(** * The indexes of files *)
Definition sym_offset (s : Z * BreakpadSymbolType) : Z :=
  match s.2 with Public p => public_offset p | Func f => func_offset f end.
Section known.
Context `{BreakpadIds} `{Nom} `{CodeIds.UuidOps}.
Lemma symbols_of_sorted start ls e :
  ordered start ls e →
  StronglySorted (λ x y, sym_offset x < sym_offset y) (symbols_of ls e) ∧ Forall (λ x, start ≤ sym_offset x) (symbols_of ls e).
Proof.
  revert start. induction ls as [|l ls IH]; intros start; [by repeat constructor|]. intros [Hle Ho].
  destruct (IH _ Ho) as [Hs Hf]. cbn [symbols_of].
  assert (Forall (λ x, start ≤ sym_offset x) (symbols_of ls e)) as Hf'.
  { eapply Forall_impl; [exact Hf|]. cbn. lia. }
  destruct (record_at l); try (by split); (split; constructor; [done| |done|done]).
  all: eapply Forall_impl; [exact Hf|]; cbn; lia.
Qed.
Lemma same_offset ls e x y :
  ordered 0 ls e → x ∈ symbols_of ls e → y ∈ symbols_of ls e → sym_offset x = sym_offset y → x = y.
Proof.
  intros [Hs _]%symbols_of_sorted Hx Hy Heq. rewrite (first_elem sym_offset _ x Hs) in Hx.
  rewrite (first_elem sym_offset _ y Hs) in Hy. rewrite Heq in Hx. congruence.
Qed.
Lemma index_known_of_chunks (chunks : list string) idx :
  slen (String.concat "" chunks) < 2 ^ 64 → index_chunks chunks = Some (Ok (inr idx)) → index_known idx.
Proof.
  intros Hlt Hidx. destruct (index_chunks_indexes chunks idx Hlt Hidx) as (line' & info & rest & _ & Hi & Ho).
  destruct (SymindexRoundTrip.indexes_symbols_ok _ _ _ _ _ Hi Ho Hlt) as [_ Hok].
  assert (∀ s t, s ∈ symbol_offsets idx → t ∈ symbol_offsets idx → sym_offset (0, s) = sym_offset (0, t) → s = t) as Heq.
  { intros s t Hs Ht Heq. destruct (SymindexRoundTrip.indexes_offset _ _ _ _ _ _ Hi Hs) as (a & _ & Ha).
    destruct (SymindexRoundTrip.indexes_offset _ _ _ _ _ _ Hi Ht) as (b & _ & Hb).
    by pose proof (same_offset _ _ _ _ Ho Ha Hb Heq) as [= _ ->]. }
  split; [exact (indexes_addresses _ _ _ _ _ Hi)|exact (indexes_length _ _ _ _ _ Hi)| | |exact Hok|
    exact (indexes_files_sorted _ _ _ _ _ Hi)|exact (indexes_origins_sorted _ _ _ _ _ Hi)].
  - intros p q Hp Hq Hoff. by injection (Heq _ _ Hp Hq Hoff).
  - intros f g Hf Hg Hoff. by injection (Heq _ _ Hf Hg Hoff).
Qed.
End known.
End BreakpadLookup.
