(* ===== verification/BreakpadFile.v ===== *)
(** Breakpad symbol files as a whole: reading the file in chunks, a supplied
    symindex file, and all the lookups after that. *)
From S2P Require Import Prelude RustStr SymbolTable LibTable CodeIds LineBuffer Nom MappedPath.
From S2P Require Import BreakpadRecords BreakpadIndex IndexedRecords Symindex SymindexRoundTrip SymbolMaps.
From S2P Require Import BreakpadSymbolMap BreakpadFunc BreakpadLookup.
From stdpp Require Import options.
Open Scope Z_scope.

Module BreakpadFile.
Import RustStr Nom BreakpadRecords BreakpadIndex SymbolMaps BreakpadSymbolMap BreakpadLookup.
Import LineBuffer(slen_app, slen_nonneg).

Section file.
Context `{BreakpadIds} `{Nom} `{CodeIds.UuidOps} {bytes : string} `{FileContents bytes}.

(** The rest of the file behind an offset. *)
Definition rest_of (offset : Z) : string :=
  String.substring (Z.to_nat offset) (Z.to_nat (slen bytes - offset)) bytes.
Lemma concat_cons (x : string) l : String.concat "" (x :: l) = x +:+ String.concat "" l.
Proof. destruct l; [by rewrite app_nil|done]. Qed.
Lemma consume_loop_ends {S} (f : Z → string → S → res S) fuel b chunk st :
  (String.length chunk < fuel)%nat → is_Some (LineBuffer.consume_loop f fuel b chunk st).
Proof.
  revert b chunk st. induction fuel as [|fuel IH]; intros b chunk st Hf; [lia|]. cbn [LineBuffer.consume_loop].
  destruct (split_once chunk LF) as [[until chunk']|] eqn:Hs; [|by eexists]. destruct (if is_empty _ then _ else _) as [l o].
  destruct (f o l st) as [st'|]; [|by eexists]. cbn [returned mbind loops_bind]. apply IH. apply split_once_Some in Hs as ->.
  pose proof (slen_app until (LF +:+ chunk')) as Hlen. rewrite (slen_app LF chunk') in Hlen.
  change (slen LF) with 1 in Hlen. pose proof (slen_nonneg until). unfold slen in *. lia.
Qed.
Lemma consume_ends p chunk : is_Some (consume p chunk).
Proof.
  unfold consume, LineBuffer.consume. destruct (_ <=? _); [|by eexists]. cbn [assert returned mbind loops_bind].
  destruct (consume_loop_ends process_line (S (String.length chunk)) (line_buffer p) chunk (parser_inner p) ltac:(lia))
    as [r ->].
  destruct r as [[b s]|]; by eexists.
Qed.
Lemma read_chunks_spec fuel parser offset :
  (0 < fuel)%nat → 0 ≤ offset → slen bytes + CHUNK_SIZE < 2 ^ 64 → slen bytes ≤ offset + (Z.of_nat fuel - 1) * CHUNK_SIZE →
  ∃ r, read_chunks fuel parser offset = Some r ∧
    ∀ p', r = Ok (inr p') →
      ∃ chunks, String.concat "" chunks = rest_of offset ∧ consume_chunks parser chunks = Some (Ok p').
Proof.
  revert parser offset. induction fuel as [|fuel IH]; intros parser offset Hf Hoff Hlt Hle; [lia|]. cbn [read_chunks].
  destruct (Z.ltb_spec offset (slen bytes)) as [Hin|Hout].
  2: { eexists. split; [done|]. intros p' [= <-]. exists []. split; [|done]. unfold rest_of.
       replace (Z.to_nat (slen bytes - offset)) with 0%nat by lia. by rewrite substring_none. }
  assert (0 < CHUNK_SIZE) by done. destruct fuel as [|fuel]; [lia|].
  destruct (read_bytes_into offset _) as [buffer|] eqn:Hr; [|by eexists].
  apply read_bytes_into_spec in Hr as [Hsize ->]; [|lia..].
  destruct (consume_ends parser (String.substring (Z.to_nat offset) (Z.to_nat (Z.min CHUNK_SIZE (slen bytes - offset))) bytes))
    as [r Hc]. rewrite Hc. destruct r as [p1|]; [|by eexists]. cbn [mbind loops_bind].
  rewrite add_u64_id by lia. destruct (IH p1 (offset + CHUNK_SIZE)) as (r & -> & Hr); [lia..|].
  eexists. split; [done|]. intros p' ->. destruct (Hr p' eq_refl) as (chunks & Hconcat & Hcons).
  eexists (_ :: chunks). split; [|cbn [consume_chunks]; by rewrite Hc]. rewrite concat_cons, Hconcat. unfold rest_of.
  destruct (Z.min_spec CHUNK_SIZE (slen bytes - offset)) as [[Hmin ->]|[Hmin ->]].
  - replace (Z.to_nat (slen bytes - offset)) with
      (Z.to_nat CHUNK_SIZE + Z.to_nat (slen bytes - (offset + CHUNK_SIZE)))%nat by lia.
    rewrite substring_join. by replace (Z.to_nat offset + Z.to_nat CHUNK_SIZE)%nat with (Z.to_nat (offset + CHUNK_SIZE)) by lia.
  - replace (Z.to_nat (slen bytes - (offset + CHUNK_SIZE))) with 0%nat by lia.
    by rewrite substring_none, app_nil.
Qed.
(** The index that is made of the file does not depend on how it was read. *)
Lemma index_of_file_chunks :
  slen bytes + CHUNK_SIZE < 2 ^ 64 →
  ∃ r, index_of_file = Some r ∧
    ∀ idx, r = Ok (inr idx) → ∃ chunks, String.concat "" chunks = bytes ∧ index_chunks chunks = Some (Ok (inr idx)).
Proof.
  intros Hlt. pose proof (slen_nonneg bytes) as Hlen. assert (0 < CHUNK_SIZE) as HC by done.
  destruct (read_chunks_spec (chunk_fuel (bytes := bytes)) new_parser 0) as (r & Hr & Hp).
  { unfold chunk_fuel. lia. }
  { lia. }
  { done. }
  { unfold chunk_fuel. pose proof (Z.div_mod (slen bytes) CHUNK_SIZE ltac:(lia)).
    pose proof (Z.mod_pos_bound (slen bytes) CHUNK_SIZE HC). pose proof (Z.div_pos (slen bytes) CHUNK_SIZE Hlen HC). nia. }
  unfold index_of_file. rewrite Hr. destruct r as [[e|p']|]; cbn [mbind loops_bind]; [by eexists| |by eexists].
  destruct (Hp p' eq_refl) as (chunks & Hconcat & Hcons).
  assert (rest_of 0 = bytes) as Hrest.
  { unfold rest_of. rewrite Z.sub_0_r. apply substring_whole. unfold slen. lia. }
  destruct (finish p') as [[e|idx]|] eqn:Hfin; cbn [returned mbind loops_bind]; (eexists; split; [done|]); [done| |done].
  intros idx' [= <-]. exists chunks. split; [by rewrite Hconcat|]. unfold index_chunks. rewrite Hcons. cbn [mbind loops_bind].
  by rewrite Hfin.
Qed.
(** A symindex file that was written from the index supplies that index. *)
Lemma supplied_index_written {index_bytes : string} (d : FileContents index_bytes) (idx : BreakpadIndex) :
  Symindex.parse_symindex_file index_bytes = Some (Ok (inr idx)) →
  supplied_index (Some d) = Some (Ok None) ∨ supplied_index (Some d) = Some (Ok (Some idx)).
Proof.
  intros Hp. cbn [supplied_index]. pose proof (slen_nonneg index_bytes).
  destruct (@read_bytes_at _ d 0 (slen index_bytes)) as [data|] eqn:Hr; [|by left]. right.
  apply read_bytes_at_spec in Hr as ->; [|lia..]. change (Z.to_nat 0) with 0%nat.
  rewrite substring_whole by (unfold slen; lia). by rewrite Hp.
Qed.

Lemma index_of_file_known idx : slen bytes + CHUNK_SIZE < 2 ^ 64 → index_of_file = Some (Ok (inr idx)) → index_known idx.
Proof.
  intros Hlt Hi. destruct (index_of_file_chunks Hlt) as (r & Hr & Hchunks). rewrite Hi in Hr. injection Hr as <-.
  destruct (Hchunks idx eq_refl) as (chunks & Hconcat & Hidx). apply (index_known_of_chunks chunks idx); [|done].
  rewrite Hconcat. unfold CHUNK_SIZE in Hlt. lia.
Qed.

(** C7: The symbol map of a breakpad symbol file of any size that leaves room for a
    chunk below 2^64: making its index ends, and a symindex file that was written from
    that index can stand in for it. After that, any sequence of lookups and listings
    ends without a panic, and each is answered as if nothing had been asked before;
    and unless the function that is found has a block out of order, the answer is what
    the file itself says: by the last symbol at or before the address (listings have
    all symbols). Lookups by other kinds of addresses find nothing; a PUBLIC symbol
    reaches up to the next symbol; a function has its own size, and its frames are the
    chain of inlined calls at the address, innermost first, each with the line of the
    call in it. A call at a depth is one whose range has the address, the line that of
    the last line record up to the address, and files and functions have the names of
    the first records with their numbers ([described]: nothing of it searches a sorted
    list). A block is in order ([in_order]) if its line records rise, its calls at the
    same depth neither overlap nor start together, and they and the function end in
    the 32-bit address space. *)
Theorem breakpad_file_answers :
  slen bytes + CHUNK_SIZE < 2 ^ 64 →
  ∃ r, index_of_file = Some r ∧
    ∀ idx, r = Ok (inr idx) →
      (∀ index_bytes (d : FileContents index_bytes),
         Symindex.serialize_to_bytes idx = Ok index_bytes → SymindexRoundTrip.file_size idx < 2 ^ 32 →
         new_outer (bytes := bytes) (Some d) = Some (Ok (inr idx))) ∧
      ∀ rs, ∃ answers, run_requests idx new_caches rs = Some (Ok answers) ∧
        Forall2 (λ r x, run_requests idx new_caches [r] = Some (Ok [x]) ∧
                        (request_in_order idx r → x = described_response idx r)) rs answers.
Proof.
  intros Hlt. destruct (index_of_file_chunks Hlt) as (r & Hr & Hchunks). exists r. split; [done|]. intros idx ->.
  destruct (Hchunks idx eq_refl) as (chunks & Hconcat & Hidx).
  assert (slen (String.concat "" chunks) < 2 ^ 64) as Hlen by (rewrite Hconcat; unfold CHUNK_SIZE in Hlt; lia). split.
  - intros index_bytes d Hs Hsize. unfold new_outer.
    destruct (SymindexRoundTrip.written_index_read chunks idx Hlen Hidx Hsize) as (bytes' & Hs' & _ & Hp).
    rewrite Hs in Hs'. injection Hs' as <-. destruct (supplied_index_written d idx Hp) as [-> | ->]; [|done].
    cbn [mbind loops_bind]. exact Hr.
  - intros rs. pose proof (index_of_file_known idx Hlt Hr) as Hk.
    exists (reference_response idx <$> rs). split; [apply run_requests_ok; [done|apply new_caches_ok]|].
    apply Forall2_fmap_r, Forall_Forall2_diag, Forall_forall. intros q _. split.
    + apply (run_requests_ok idx new_caches [q] Hk (new_caches_ok idx)).
    + by apply reference_described.
Qed.
End file.

(** A function with an inlined call, and a public symbol in front of it. *)
#[local] Existing Instance string_debug_ids.
#[local] Existing Instance Nom.documented.
#[local] Existing Instance CodeIds.hex_uuids.
#[local] Existing Instance IndexedRecords.any_breakpad_id.
Definition example_file : string :=
  "MODULE Linux x86_64 BE4E976C0 example" +:+ LF +:+ "FILE 0 hg:h/m:a.c:9" +:+ LF +:+ "INLINE_ORIGIN 0 g" +:+ LF +:+
  "FUNC 1160 45 0 f" +:+ LF +:+ "INLINE 0 7 0 0 1160 4" +:+ LF +:+ "1160 c 16 0" +:+ LF +:+ "PUBLIC 1100 0 p".
#[local] Instance example_contents : FileContents example_file := slice_contents example_file.
Definition example_path : option MappedPath.SourceFilePath :=
  Some {| MappedPath.raw_path := "hg:h/m:a.c:9"; MappedPath.mapped_path := Some (MappedPath.Hg "h/m" "a.c" "9") |}.
Example breakpad_file_answers_witness :
  slen example_file + CHUNK_SIZE < 2 ^ 64 ∧
  ∃ idx, index_of_file = Some (Ok (inr idx)) ∧
    run_requests idx new_caches [Lookup (Relative 4450); Lookup (Relative 4449); Iterate; Lookup (Relative 4450)] =
      Some (Ok (let f := Found (Some
                  {| symbol := {| address := 4448; size := Some 69; symbol_name := "f" |};
                     frames := Some (Available
                       [{| function := Some "g"; file_path := example_path; line_number := Some 16 |};
                        {| function := Some "f"; file_path := example_path; line_number := Some 7 |}]) |}) in
                [f; f; Symbols [(4352, "p"); (4448, "f")]; f])).
Proof.
  assert (slen example_file + CHUNK_SIZE < 2 ^ 64) as Hlt by done. split; [done|].
  destruct (breakpad_file_answers Hlt) as (r & Hr & Hrun). assert (Hcall := Hr). vm_compute in Hcall. injection Hcall as Heq.
  eexists. split; [rewrite Hr, <-Heq; reflexivity|]. destruct (Hrun _ (eq_sym Heq)) as [_ Hrs].
  destruct (Hrs [Lookup (Relative 4450); Lookup (Relative 4449); Iterate; Lookup (Relative 4450)]) as (answers & -> & Hall).
  match type of Heq with Ok (inr ?i) = _ =>
    assert (∀ a, a = 4449 ∨ a = 4450 → request_in_order (bytes := example_file) i (Lookup (Relative a))) as Hin end.
  2: { do 4 (apply Forall2_cons_inv_l in Hall as (? & ? & [_ Hx] & Hall & ->);
         rewrite Hx by (exact I || exact (Hin _ (or_introl eq_refl)) || exact (Hin _ (or_intror eq_refl))); clear Hx).
       apply Forall2_nil_inv_l in Hall as ->. by vm_compute. }
  intros a Ha. split; [by destruct Ha as [-> | ->]|]. intros sa f info Hs Ht.
  assert (Some (sa, Func f) = Some (4448, Func {| func_offset := 76; block_length := 51 |})) as [= -> ->].
  { rewrite <-Hs. by destruct Ha as [-> | ->]; vm_compute. }
  vm_compute in Ht. injection Ht as <-. split; [|done]. split; cbn.
  - repeat constructor.
  - by repeat constructor.
  - apply NoDup_singleton.
  - intros x y ->%list_elem_of_singleton ->%list_elem_of_singleton. cbn. lia.
Defined.
End BreakpadFile.
