(* ===== verification/ChunkedReads.v ===== *)
(** Files that are read in chunks and kept in memory:
    samply-symbols/src/chunked_read_buffer_manager.rs and cache.rs. *)
From S2P Require Import Prelude RustStr LineBuffer SymbolMaps.
From stdpp Require Import options.
Open Scope Z_scope.

(** [RangeMap<u64, usize>] of the rangemap crate: a later range replaces what
    earlier ones said about its keys; an empty range panics. *)
Class RangeMap := {
  range_map : Type;
  map_new : range_map;
  map_get : range_map → Z → option nat;
  map_insert : range_map → Z → Z → nat → res range_map;
  map_get_new x : map_get map_new x = None;
  map_insert_ok m s e v : s < e → ∃ m', map_insert m s e v = Ok m' ∧
    ∀ x, map_get m' x = if (s <=? x) && (x <? e) then Some v else map_get m x
}.

Module ChunkedReadBufferManager.

Record BufferRange := { range_start : Z; range_end : Z; range_buffer : nat }.
Record RangeLocation := { buffer_handle : nat; offset_from_start : Z; size : Z }.
Inductive RangeSourcing :=
| InExistingBuffer (location : RangeLocation)
| NeedToReadNewBuffer (read_start read_end : Z).

Definition round_down_to_multiple (value factor : Z) : res Z :=
  q ← div_u64 value factor; Ok (mul_u64 q factor).
Definition round_up_to_multiple (value factor : Z) : res Z :=
  q ← div_u64 (sub_u64 (add_u64 value factor) 1) factor; Ok (mul_u64 q factor).

Section manager.
Context `{RangeMap} (CHUNK_SIZE : Z).

Record ChunkedReadBufferManager := {
  file_len : Z;
  buffer_ranges : list BufferRange;
  ranges : range_map
}.
Definition new_with_size (file_len' : Z) : ChunkedReadBufferManager :=
  {| file_len := file_len'; buffer_ranges := []; ranges := map_new |}.

(** The buffer that has the start of the range, and whether it has all of it. *)
Definition existing_buffer (m : ChunkedReadBufferManager) (s e : Z) : res (option RangeLocation * bool) :=
  match map_get (ranges m) s with
  | None => Ok (None, false)
  | Some buffer_range_index =>
      buffer_range ← index (buffer_ranges m) buffer_range_index;
      if e <=? range_end buffer_range then
        Ok (Some {| buffer_handle := range_buffer buffer_range;
                    offset_from_start := sub_u64 s (range_start buffer_range); size := sub_u64 e s |}, true)
      else Ok (None, true)
  end.
Definition determine_range_sourcing (m : ChunkedReadBufferManager) (s e : Z) : res RangeSourcing :=
  _ ← assert (s <? e);
  _ ← assert (e <=? file_len m);
  '(existing, start_is_cached) ← existing_buffer m s e;
  match existing with
  | Some location => Ok (InExistingBuffer location)
  | None =>
      start ← if start_is_cached : bool then Ok s else round_down_to_multiple s CHUNK_SIZE;
      end_ ← round_up_to_multiple e CHUNK_SIZE;
      Ok (NeedToReadNewBuffer start (Z.min (Z.max end_ 0) (file_len m)))
  end.
Definition insert_buffer_range (m : ChunkedReadBufferManager) (s e : Z) (handle : nat)
    : res ChunkedReadBufferManager :=
  ranges' ← map_insert (ranges m) s e (length (buffer_ranges m));
  Ok {| file_len := file_len m;
        buffer_ranges := push (buffer_ranges m)
          {| range_start := s; range_end := e; range_buffer := handle |};
        ranges := ranges' |}.

(** * The manager knows what its buffers hold *)
Definition covers (m : ChunkedReadBufferManager) (b : BufferRange) : Prop :=
  0 ≤ range_start b < range_end b ∧ range_end b ≤ file_len m.
Definition wf (m : ChunkedReadBufferManager) : Prop :=
  Forall (covers m) (buffer_ranges m) ∧
  ∀ x i, map_get (ranges m) x = Some i →
    ∃ b, buffer_ranges m !! i = Some b ∧ range_start b ≤ x < range_end b.
Lemma new_wf n : wf (new_with_size n).
Proof. split; [constructor|]. intros x i. cbn. by rewrite map_get_new. Qed.

Lemma insert_wf m s e handle :
  wf m → 0 ≤ s < e → e ≤ file_len m →
  ∃ m', insert_buffer_range m s e handle = Ok m' ∧ wf m' ∧ file_len m' = file_len m ∧
    buffer_ranges m' = buffer_ranges m ++ [{| range_start := s; range_end := e; range_buffer := handle |}].
Proof.
  intros [Hall Hget] Hs He. unfold insert_buffer_range.
  destruct (map_insert_ok (ranges m) s e (length (buffer_ranges m))) as (r & -> & Hr); [lia|].
  eexists. split; [done|]. split; [|done]. split.
  { apply Forall_app. split; [exact Hall|]. apply Forall_singleton. split; cbn; lia. }
  intros x i. cbn. rewrite Hr.
  destruct (Z.leb_spec s x), (Z.ltb_spec x e); cbn [andb];
    try (intros (b & Hb & Hx)%Hget; exists b; split; [by apply lookup_app_l_Some|done]).
  intros [= <-]. eexists. split; [by apply list_lookup_middle|]. cbn. lia.
Qed.

Hypothesis chunk_positive : 0 < CHUNK_SIZE.
Lemma round_down_ok v : u64_range v →
  ∃ r, round_down_to_multiple v CHUNK_SIZE = Ok r ∧ 0 ≤ r ≤ v ∧ v - r < CHUNK_SIZE.
Proof using chunk_positive.
  intros Hv. unfold u64_range in Hv. unfold round_down_to_multiple, div_u64.
  destruct (Z.eqb_spec CHUNK_SIZE 0); [lia|]. eexists. split; [done|].
  pose proof (Z.mul_div_le v CHUNK_SIZE chunk_positive). pose proof (Z.mul_succ_div_gt v CHUNK_SIZE chunk_positive).
  pose proof (Z.div_pos v CHUNK_SIZE ltac:(lia) chunk_positive).
  unfold mul_u64, wrap_u64. rewrite Z.mod_small; nia.
Qed.
Lemma round_up_ok v : 0 ≤ v → v + CHUNK_SIZE ≤ 2 ^ 64 →
  ∃ r, round_up_to_multiple v CHUNK_SIZE = Ok r ∧ v ≤ r < v + CHUNK_SIZE.
Proof using chunk_positive.
  intros Hv Hm. unfold round_up_to_multiple, div_u64. destruct (Z.eqb_spec CHUNK_SIZE 0); [lia|].
  eexists. split; [done|].
  assert (sub_u64 (add_u64 v CHUNK_SIZE) 1 = v + CHUNK_SIZE - 1) as ->.
  { unfold sub_u64, add_u64, wrap_u64. rewrite Zminus_mod_idemp_l, Z.mod_small; lia. }
  set (w := v + CHUNK_SIZE - 1).
  pose proof (Z.mul_div_le w CHUNK_SIZE chunk_positive). pose proof (Z.mul_succ_div_gt w CHUNK_SIZE chunk_positive).
  pose proof (Z.div_pos w CHUNK_SIZE ltac:(lia) chunk_positive).
  unfold mul_u64, wrap_u64. rewrite Z.mod_small; nia.
Qed.

(** A range is in a buffer, or a larger one is to be read, larger by less than a
    chunk at either end. *)
Lemma determine_ok m s e :
  wf m → 0 ≤ s < e → e ≤ file_len m → file_len m + CHUNK_SIZE ≤ 2 ^ 64 →
  ∃ r, determine_range_sourcing m s e = Ok r ∧
    match r with
    | InExistingBuffer l =>
        ∃ b, b ∈ buffer_ranges m ∧ buffer_handle l = range_buffer b ∧ range_start b ≤ s ∧
          e ≤ range_end b ∧ offset_from_start l = s - range_start b ∧ size l = e - s
    | NeedToReadNewBuffer s' e' =>
        0 ≤ s' ≤ s ∧ s - s' < CHUNK_SIZE ∧ e ≤ e' ≤ file_len m ∧ e' - e < CHUNK_SIZE
    end.
Proof using chunk_positive.
  intros [Hall Hget] Hs He Hm. unfold determine_range_sourcing.
  rewrite (proj2 (Z.ltb_lt s e)), (proj2 (Z.leb_le e (file_len m))) by lia. cbn [assert mbind res_bind].
  destruct (round_down_ok s) as (s' & Hd & ? & ?); [unfold u64_range; lia|].
  destruct (round_up_ok e) as (e' & Hu & ?); [lia..|]. unfold existing_buffer.
  destruct (map_get (ranges m) s) as [i|] eqn:Hi.
  - destruct (Hget _ _ Hi) as (b & Hb & Hx). unfold index. rewrite Hb. cbn [unwrap mbind res_bind].
    destruct (Z.leb_spec e (range_end b)).
    + eexists. split; [done|]. cbn. exists b. split; [by eapply list_elem_of_lookup_2|].
      assert (covers m b) as [Hb1 Hb2] by (rewrite Forall_forall in Hall; apply Hall; by eapply list_elem_of_lookup_2).
      unfold sub_u64, wrap_u64. rewrite !Z.mod_small by lia. repeat split; lia.
    + cbn [mbind res_bind]. rewrite Hu. eexists. split; [done|]. cbn. lia.
  - cbn [mbind res_bind]. rewrite Hd, Hu. eexists. split; [done|]. cbn. lia.
Qed.
End manager.
End ChunkedReadBufferManager.

Module ChunkedCaching.
Import RustStr LineBuffer(slen) ChunkedReadBufferManager.

(** * The file *)

(** A source of the bytes of a file. A read may fail, one time and not another: the
    first argument counts them. *)
Class FileByteSource (bytes : string) := {
  source_read : nat → Z → Z → option string;
  source_read_spec n offset size' s :
    0 ≤ offset → 0 ≤ size' → source_read n offset size' = Some s →
    offset + size' ≤ slen bytes ∧ s = String.substring (Z.to_nat offset) (Z.to_nat size') bytes
}.
(** A source none of whose reads fails within the file. *)
Definition reliable {bytes : string} (source : FileByteSource bytes) : Prop :=
  ∀ n offset size', 0 ≤ offset → 0 ≤ size' → offset + size' ≤ slen bytes →
    is_Some (source_read n offset size').

Inductive ReadError := OffsetOverflow | RangeOutOfBounds | EndBeforeStart | DelimiterNotFound | SourceError.
Definition reply (A : Type) : Type := A + ReadError.

Fixpoint memchr (delimiter : ascii) (s : string) : option nat :=
  match s with
  | EmptyString => None
  | String c s' => if decide (c = delimiter) then Some O else S <$> memchr delimiter s'
  end.

Definition CHUNK_SIZE : Z := 32 * 1024.
Definition MAX_LENGTH_INCLUDING_DELIMITER : Z := 4096.

(** The calls of [FileContents]. *)
Inductive Request :=
| ReadBytesAt (offset size : Z)
| ReadBytesAtUntil (start end_ : Z) (delimiter : ascii)
| ReadBytesInto (offset size : Z).

Section caching.
Context `{RangeMap} {bytes : string} `{FileByteSource bytes}.

(** The state behind the locks, and how often the source was read. *)
Record FileContentsWithChunkedCaching := {
  buffer_manager : ChunkedReadBufferManager;
  string_cache : gmap (Z * ascii) RangeLocation;
  buffers : list string;
  buffer_count : nat;
  reads : nat
}.
Definition new (file_len' : Z) : FileContentsWithChunkedCaching :=
  {| buffer_manager := new_with_size file_len'; string_cache := ∅; buffers := []; buffer_count := 0;
     reads := 0 |}.
Definition after_read (c : FileContentsWithChunkedCaching) : FileContentsWithChunkedCaching :=
  {| buffer_manager := buffer_manager c; string_cache := string_cache c; buffers := buffers c;
     buffer_count := buffer_count c; reads := S (reads c) |}.

(** [&buffer[offset..][..size]]. *)
Definition slice_from_location (c : FileContentsWithChunkedCaching) (l : RangeLocation) : res string :=
  buffer ← unwrap (buffers c !! buffer_handle l);
  unwrap (SymbolMaps.read_slice buffer (offset_from_start l) (size l)).

Definition get_range_location (c : FileContentsWithChunkedCaching) (s e : Z)
    : res (FileContentsWithChunkedCaching * reply RangeLocation) :=
  sourcing ← determine_range_sourcing CHUNK_SIZE (buffer_manager c) s e;
  match sourcing with
  | InExistingBuffer l => Ok (c, inl l)
  | NeedToReadNewBuffer read_start read_end =>
      _ ← assert (read_start <=? read_end);
      let read_len := sub_u64 read_end read_start in
      match source_read (reads c) read_start read_len with
      | None => Ok (after_read c, inr SourceError)
      | Some buffer =>
          _ ← assert (slen buffer =? read_len);
          let handle := buffer_count c in
          buffer_manager' ← insert_buffer_range (buffer_manager c) read_start read_end handle;
          Ok ({| buffer_manager := buffer_manager'; string_cache := string_cache c;
                 buffers := push (buffers c) buffer; buffer_count := S (buffer_count c);
                 reads := S (reads c) |},
              inl {| buffer_handle := handle; offset_from_start := sub_u64 s read_start;
                     size := sub_u64 e s |})
      end
  end.

Definition read_bytes_at (c : FileContentsWithChunkedCaching) (offset size' : Z)
    : res (FileContentsWithChunkedCaching * reply string) :=
  if size' =? 0 then Ok (c, inl "") else
  let end_ := offset + size' in
  if 2 ^ 64 <=? end_ then Ok (c, inr OffsetOverflow) else
  if file_len (buffer_manager c) <? end_ then Ok (c, inr RangeOutOfBounds) else
  '(c', location) ← get_range_location c offset end_;
  match location with
  | inr e => Ok (c', inr e)
  | inl l => s ← slice_from_location c' l; Ok (c', inl s)
  end.

Definition read_bytes_at_until (c : FileContentsWithChunkedCaching) (start end_ : Z) (delimiter : ascii)
    : res (FileContentsWithChunkedCaching * reply string) :=
  if end_ <? start then Ok (c, inr EndBeforeStart) else
  if file_len (buffer_manager c) <? end_ then Ok (c, inr RangeOutOfBounds) else
  match string_cache c !! (start, delimiter) with
  | Some l => s ← slice_from_location c l; Ok (c, inl s)
  | None =>
      let max_len := Z.min (sub_u64 end_ start) MAX_LENGTH_INCLUDING_DELIMITER in
      '(c', location) ← get_range_location c start (add_u64 start max_len);
      match location with
      | inr e => Ok (c', inr e)
      | inl l =>
          s ← slice_from_location c' l;
          match memchr delimiter s with
          | None => Ok (c', inr DelimiterNotFound)
          | Some string_len =>
              let l' := {| buffer_handle := buffer_handle l; offset_from_start := offset_from_start l;
                           size := Z.of_nat string_len |} in
              Ok ({| buffer_manager := buffer_manager c';
                     string_cache := <[(start, delimiter) := l']> (string_cache c');
                     buffers := buffers c'; buffer_count := buffer_count c'; reads := reads c' |},
                  inl (String.substring 0 string_len s))
          end
      end
  end.

Definition read_bytes_into (c : FileContentsWithChunkedCaching) (offset size' : Z)
    : res (FileContentsWithChunkedCaching * reply string) :=
  Ok (after_read c,
      match source_read (reads c) offset size' with Some s => inl s | None => inr SourceError end).

Definition serve (c : FileContentsWithChunkedCaching) (r : Request)
    : res (FileContentsWithChunkedCaching * reply string) :=
  match r with
  | ReadBytesAt offset size' => read_bytes_at c offset size'
  | ReadBytesAtUntil start end_ delimiter => read_bytes_at_until c start end_ delimiter
  | ReadBytesInto offset size' => read_bytes_into c offset size'
  end.
Fixpoint serve_all (c : FileContentsWithChunkedCaching) (rs : list Request) : res (list (reply string)) :=
  match rs with
  | [] => Ok []
  | r :: rs' => '(c', a) ← serve c r; answers ← serve_all c' rs'; Ok (a :: answers)
  end.
End caching.

(** * What a file answers without a cache

    Only the strings that were found once are remembered. *)
Section reference.
Context (bytes : string).
Definition known := gset (Z * ascii).
Definition bytes_at (offset size' : Z) : string := String.substring (Z.to_nat offset) (Z.to_nat size') bytes.
Definition until_delimiter (start limit : Z) (delimiter : ascii) : option string :=
  n ← memchr delimiter (bytes_at start limit); Some (bytes_at start (Z.of_nat n)).
Definition answer (k : known) (r : Request) : known * reply string :=
  match r with
  | ReadBytesAt offset size' =>
      (k, if size' =? 0 then inl ""
          else if 2 ^ 64 <=? offset + size' then inr OffsetOverflow
          else if slen bytes <? offset + size' then inr RangeOutOfBounds
          else inl (bytes_at offset size'))
  | ReadBytesInto offset size' =>
      (k, if offset + size' <=? slen bytes then inl (bytes_at offset size') else inr SourceError)
  | ReadBytesAtUntil start end_ delimiter =>
      if end_ <? start then (k, inr EndBeforeStart)
      else if slen bytes <? end_ then (k, inr RangeOutOfBounds)
      else
        let limit :=
          if decide ((start, delimiter) ∈ k) then slen bytes - start
          else Z.min (end_ - start) MAX_LENGTH_INCLUDING_DELIMITER in
        match until_delimiter start limit delimiter with
        | Some s => ({[(start, delimiter)]} ∪ k, inl s)
        | None => (k, inr DelimiterNotFound)
        end
  end.
Fixpoint answer_all (k : known) (rs : list Request) : list (reply string) :=
  match rs with
  | [] => []
  | r :: rs' => let '(k', a) := answer k r in a :: answer_all k' rs'
  end.
(** The same, of a file where reading can fail. *)
Inductive answers : known → list Request → list (reply string) → Prop :=
| answers_nil k : answers k [] []
| answers_cons k r rs answers' :
    answers (answer k r).1 rs answers' → answers k (r :: rs) ((answer k r).2 :: answers')
| answers_failed k r rs answers' :
    answers k rs answers' → answers k (r :: rs) (inr SourceError :: answers').
End reference.
(** Unsigned arguments; what ends at a delimiter has to be looked for in a range
    with a byte in it. *)
Definition valid_request (r : Request) : Prop :=
  match r with
  | ReadBytesAt offset size' | ReadBytesInto offset size' => u64_range offset ∧ u64_range size'
  | ReadBytesAtUntil start end_ _ => u64_range start ∧ u64_range end_ ∧ start ≠ end_
  end.

(** * Pieces of pieces *)
Lemma substring_len o n s : (o + n ≤ String.length s)%nat → String.length (String.substring o n s) = n.
Proof.
  revert o n. induction s as [|c s IH]; intros [|o] [|n]; cbn; try lia.
  - intros Hl. by rewrite (IH 0%nat) by lia.
  - intros Hl. apply IH. lia.
  - intros Hl. apply IH. lia.
Qed.
Lemma substring_substring o n a b s : (a + b ≤ n)%nat →
  String.substring a b (String.substring o n s) = String.substring (o + a) b s.
Proof.
  destruct b as [|b]; [by rewrite !substring_none|]. revert o n a.
  induction s as [|c s IH]; intros [|o] [|n] [|a]; cbn; try done; try lia; intros Hl.
  - f_equal. clear IH. revert n b Hl. induction s as [|c' s IH]; intros [|n] [|b]; cbn; try done; try lia.
    intros Hl. by rewrite IH by lia.
  - by rewrite (IH 0%nat n a) by lia.
  - by rewrite (IH o (S n) 0%nat) by lia.
  - by rewrite (IH o (S n) (S a)) by lia.
Qed.
Lemma memchr_lt d s n : memchr d s = Some n → (n < String.length s)%nat.
Proof.
  revert n. induction s as [|c s IH]; intros n; cbn; [done|]. destruct (decide _) as [_|_]; [intros [= <-]; lia|].
  destruct (memchr d s) as [k|] eqn:Hk; [|done]. intros [= <-]. specialize (IH k eq_refl). lia.
Qed.
Lemma memchr_app d s t n : memchr d s = Some n → memchr d (s +:+ t) = Some n.
Proof.
  revert n. induction s as [|c s IH]; intros n; [done|]. rewrite app_cons. cbn [memchr].
  destruct (decide _) as [_|_]; [done|].
  destruct (memchr d s) as [k|] eqn:Hk; [|done]. intros [= <-]. by rewrite (IH k eq_refl).
Qed.

Section correct.
Context `{RangeMap} {bytes : string} `{Hsource : FileByteSource bytes}.
Notation bytes_at := (bytes_at bytes).
Notation until_delimiter := (until_delimiter bytes).
Hypothesis file_fits : slen bytes + CHUNK_SIZE ≤ 2 ^ 64.

Lemma slen_not_negative (s : string) : 0 ≤ slen s.
Proof. unfold slen. lia. Qed.
Lemma bytes_at_len o n : 0 ≤ o → 0 ≤ n → o + n ≤ slen bytes → slen (bytes_at o n) = n.
Proof. unfold slen. intros ? ? ?. unfold bytes_at. rewrite substring_len; lia. Qed.
Lemma bytes_at_slice o n a b : 0 ≤ o → 0 ≤ a → 0 ≤ b → a + b ≤ n → o + n ≤ slen bytes →
  SymbolMaps.read_slice (bytes_at o n) a b = Some (bytes_at (o + a) b).
Proof.
  intros ? ? ? ? ?. unfold SymbolMaps.read_slice. rewrite bytes_at_len by lia.
  rewrite (proj2 (Z.leb_le a n)), (proj2 (Z.leb_le b (n - a))) by lia. cbn [andb]. f_equal. unfold bytes_at.
  rewrite substring_substring by lia. f_equal. lia.
Qed.
Lemma bytes_at_prefix o n k : (k ≤ Z.to_nat n)%nat → String.substring 0 k (bytes_at o n) = bytes_at o (Z.of_nat k).
Proof. intros ?. unfold bytes_at. rewrite substring_substring by lia. f_equal; lia. Qed.
(** More to search in does not change what was found. *)
Lemma until_delimiter_extend s n n' d str : 0 ≤ n ≤ n' →
  until_delimiter s n d = Some str → until_delimiter s n' d = Some str.
Proof.
  intros ?. unfold until_delimiter, bytes_at. replace (Z.to_nat n') with (Z.to_nat n + Z.to_nat (n' - n))%nat by lia.
  rewrite substring_join. destruct (memchr d _) as [k|] eqn:Hk; [|done]. by rewrite (memchr_app _ _ _ _ Hk).
Qed.

(** What a location stands for. *)
Definition holds (bs : list string) (l : RangeLocation) (s : string) : Prop :=
  ∃ buffer, bs !! buffer_handle l = Some buffer ∧
    SymbolMaps.read_slice buffer (offset_from_start l) (size l) = Some s.
Definition wf (c : FileContentsWithChunkedCaching) (k : known) : Prop :=
  ChunkedReadBufferManager.wf (buffer_manager c) ∧ file_len (buffer_manager c) = slen bytes ∧
  buffer_count c = length (buffers c) ∧
  (∀ b, b ∈ buffer_ranges (buffer_manager c) →
    buffers c !! range_buffer b = Some (bytes_at (range_start b) (range_end b - range_start b))) ∧
  ∀ start d,
    match string_cache c !! (start, d) with
    | Some l => (start, d) ∈ k ∧ ∃ s, holds (buffers c) l s ∧ until_delimiter start (slen bytes - start) d = Some s
    | None => (start, d) ∉ k
    end.
Lemma holds_slice c l s : holds (buffers c) l s → slice_from_location c l = Ok s.
Proof. intros (b & Hb & Hs). unfold slice_from_location. rewrite Hb. cbn [unwrap mbind res_bind]. by rewrite Hs. Qed.
Lemma holds_push bs b l s : holds bs l s → holds (bs ++ [b]) l s.
Proof. intros (x & Hx & Hs). exists x. split; [by apply lookup_app_l_Some|done]. Qed.
Lemma new_cache_wf : wf (new (slen bytes)) ∅.
Proof.
  split; [apply new_wf|]. split; [done|]. split; [done|]. split; [by intros b Hb%not_elem_of_nil|].
  intros start d. cbn [new string_cache]. rewrite lookup_empty. apply not_elem_of_empty.
Qed.
Lemma after_read_wf c k : wf c k → wf (after_read c) k.
Proof. done. Qed.

(** A range of the file gets a location that holds its bytes, or its bytes could
    not be read. *)
Lemma get_range_location_ok c k s e : wf c k → 0 ≤ s < e → e ≤ slen bytes →
  ∃ c' r, get_range_location c s e = Ok (c', r) ∧ wf c' k ∧ string_cache c' = string_cache c ∧
    (match r with inl l => holds (buffers c') l (bytes_at s (e - s)) ∧ size l = e - s
     | inr err => err = SourceError ∧ ¬ reliable Hsource end).
Proof using file_fits.
  intros (Hm & Hl & Hc & Hb & Hk) Hs He. unfold get_range_location.
  destruct (determine_ok CHUNK_SIZE ltac:(done) (buffer_manager c) s e) as (r & -> & Hr); [done|lia..|].
  cbn [mbind res_bind]. destruct r as [l|s' e'].
  - destruct Hr as (b & Hin & Hh & Hsb & Heb & Hof & Hsz). do 2 eexists. split; [done|]. split; [done|]. split; [done|].
    split; [|done]. assert (covers (buffer_manager c) b) as [Hb1 Hb2].
    { destruct Hm as [Hall _]. rewrite Forall_forall in Hall. by apply Hall. }
    eexists. rewrite Hh. split; [by apply Hb|]. rewrite Hof, Hsz, bytes_at_slice by lia. do 2 f_equal. lia.
  - destruct Hr as (Hs' & _ & He' & _). rewrite (proj2 (Z.leb_le s' e')) by lia. cbn [assert mbind res_bind].
    assert (sub_u64 e' s' = e' - s') as ->.
    { unfold sub_u64, wrap_u64. rewrite Z.mod_small; [done|]. change CHUNK_SIZE with 32768 in file_fits. lia. }
    assert (sub_u64 s s' = s - s' ∧ sub_u64 e s = e - s) as [-> ->].
    { unfold sub_u64, wrap_u64. rewrite !Z.mod_small; [done|..]; change CHUNK_SIZE with 32768 in file_fits; lia. }
    destruct (source_read (reads c) s' (e' - s')) as [buffer|] eqn:Hread.
    2:{ do 2 eexists. split; [done|]. split; [done|]. split; [done|]. split; [done|].
        intros Hrel. destruct (Hrel (reads c) s' (e' - s')) as [x Hx]; [lia..|]. congruence. }
    apply source_read_spec in Hread as [_ ->]; [|lia..]. fold (bytes_at s' (e' - s')).
    rewrite bytes_at_len, Z.eqb_refl by lia. cbn [assert mbind res_bind].
    destruct (insert_wf (buffer_manager c) s' e' (buffer_count c)) as (m' & -> & Hm' & Hl' & Hbr); [done|lia..|].
    cbn [mbind res_bind]. do 2 eexists. split; [done|]. split; [|split; [done|]]; cycle 1.
    { cbn. split; [|done]. eexists. cbn. rewrite Hc. split; [by apply list_lookup_middle|].
      rewrite bytes_at_slice by lia. do 2 f_equal. lia. }
    split; [done|]. split; [cbn; lia|]. split; [cbn; unfold push; rewrite length_app; cbn; lia|]. cbn. split.
    + intros b. rewrite Hbr. intros [Hin| ->%list_elem_of_singleton]%elem_of_app.
      * apply lookup_app_l_Some. by apply Hb.
      * cbn. rewrite Hc. by apply list_lookup_middle.
    + intros start d. specialize (Hk start d). destruct (string_cache c !! (start, d)); [|done].
      destruct Hk as (Hin & str & Hh & Hu). split; [done|]. exists str. split; [by apply holds_push|done].
Qed.
Lemma read_bytes_at_ok c k o n : wf c k → 0 ≤ o → 0 ≤ n →
  ∃ c' a, read_bytes_at c o n = Ok (c', a) ∧ wf c' k ∧
    (a = (answer bytes k (ReadBytesAt o n)).2 ∨ a = inr SourceError ∧ ¬ reliable Hsource).
Proof using file_fits.
  intros Hwf Ho Hn. unfold read_bytes_at. cbn [answer snd].
  destruct (Z.eqb_spec n 0); [do 2 eexists; split; [done|]; auto|].
  destruct (Z.leb_spec (2 ^ 64) (o + n)); [do 2 eexists; split; [done|]; auto|].
  pose proof Hwf as (_ & -> & _).
  destruct (Z.ltb_spec (slen bytes) (o + n)); [do 2 eexists; split; [done|]; auto|].
  destruct (get_range_location_ok c k o (o + n)) as (c' & r & -> & Hwf' & _ & Hr); [done|lia..|].
  cbn [mbind res_bind]. destruct r as [l|err].
  - destruct Hr as [Hh _]. rewrite (holds_slice _ _ _ Hh). do 2 eexists. split; [done|]. split; [done|]. left.
    do 2 f_equal. lia.
  - destruct Hr as [-> Hrel]. do 2 eexists. split; [done|]. auto.
Qed.
Lemma read_bytes_at_until_ok c k s e d : wf c k → valid_request (ReadBytesAtUntil s e d) →
  ∃ c' a, read_bytes_at_until c s e d = Ok (c', a) ∧
    (a = (answer bytes k (ReadBytesAtUntil s e d)).2 ∧ wf c' (answer bytes k (ReadBytesAtUntil s e d)).1 ∨
     a = inr SourceError ∧ wf c' k ∧ ¬ reliable Hsource).
Proof using file_fits.
  intros Hwf ([Hs _] & [_ Hmax] & Hne). unfold read_bytes_at_until. cbn [answer].
  destruct (Z.ltb_spec e s); [do 2 eexists; split; [done|]; auto|].
  pose proof Hwf as (_ & -> & _ & _ & Hk).
  destruct (Z.ltb_spec (slen bytes) e); [do 2 eexists; split; [done|]; auto|].
  specialize (Hk s d). destruct (string_cache c !! (s, d)) as [l|].
  { destruct Hk as (Hin & str & Hh & Hu). rewrite (holds_slice _ _ _ Hh). rewrite decide_True by done.
    rewrite Hu. do 2 eexists. split; [done|]. left. split; [done|].
    rewrite subseteq_union_1_L by (by apply singleton_subseteq_l). done. }
  rewrite decide_False by done.
  assert (sub_u64 e s = e - s) as ->. { unfold sub_u64, wrap_u64. rewrite Z.mod_small; [done|lia]. }
  set (n := Z.min (e - s) MAX_LENGTH_INCLUDING_DELIMITER).
  assert (0 < n ≤ e - s) as Hn by (unfold n, MAX_LENGTH_INCLUDING_DELIMITER; lia).
  assert (add_u64 s n = s + n) as ->. { unfold add_u64, wrap_u64. rewrite Z.mod_small; [done|lia]. }
  destruct (get_range_location_ok c k s (s + n)) as (c' & r & -> & Hwf' & Hsc & Hr); [done|lia..|].
  cbn [mbind res_bind]. destruct r as [l|err].
  2:{ destruct Hr as [-> Hrel]. do 2 eexists. split; [done|]. auto. }
  destruct Hr as [Hh Hsz]. rewrite (holds_slice _ _ _ Hh). cbn [mbind res_bind].
  replace (s + n - s) with n in * by lia. unfold until_delimiter.
  destruct (memchr d (bytes_at s n)) as [i|] eqn:Hi; cbn [mbind option_bind]; [|do 2 eexists; split; [done|]; auto].
  pose proof (memchr_lt _ _ _ Hi) as Hlt. pose proof (bytes_at_len s n ltac:(lia) ltac:(lia) ltac:(lia)) as Hlen.
  unfold slen in Hlen. do 2 eexists. split; [done|]. left. split; [by rewrite bytes_at_prefix by lia|]. cbn [fst].
  destruct Hwf' as (Hm & Hl & Hc & Hb & Hk'). split; [done|]. split; [done|]. split; [done|]. split; [done|].
  intros s' d'. cbn [string_cache buffers]. destruct (decide ((s, d) = (s', d'))) as [[= <- <-]|Hneq].
  - rewrite lookup_insert_eq. split; [set_solver|]. exists (bytes_at s (Z.of_nat i)). split.
    + destruct Hh as (b & Hb' & Hsl). exists b. split; [done|]. cbn. revert Hsl. rewrite Hsz.
      unfold SymbolMaps.read_slice. destruct (_ && _) eqn:Hg; [|done]. intros [= Hsl].
      apply andb_prop in Hg as [Hg1 Hg2]. apply Z.leb_le in Hg1, Hg2. rewrite (proj2 (Z.leb_le _ _) Hg1).
      rewrite (proj2 (Z.leb_le (Z.of_nat i) _)) by lia. cbn [andb]. f_equal.
      rewrite <- bytes_at_prefix with (n := n) by lia. rewrite <- Hsl. rewrite substring_substring by lia.
      f_equal; lia.
    + apply until_delimiter_extend with (n := n); [lia|]. unfold until_delimiter. by rewrite Hi.
  - rewrite lookup_insert_ne by done. specialize (Hk' s' d'). destruct (string_cache c' !! (s', d')).
    + destruct Hk' as [Hin Hx]. split; [set_solver|done].
    + set_solver.
Qed.
Lemma serve_ok c k r : wf c k → valid_request r →
  ∃ c' a, serve c r = Ok (c', a) ∧
    (a = (answer bytes k r).2 ∧ wf c' (answer bytes k r).1 ∨ a = inr SourceError ∧ wf c' k ∧ ¬ reliable Hsource).
Proof using file_fits.
  intros Hwf Hv. destruct r as [o n|s e d|o n].
  - destruct Hv as [[Ho _] [Hn _]]. destruct (read_bytes_at_ok c k o n Hwf Ho Hn) as (c' & a & Hr & Hwf' & Ha).
    exists c', a. split; [done|]. cbn [answer fst]. naive_solver.
  - by apply read_bytes_at_until_ok.
  - destruct Hv as [[Ho _] [Hn _]]. cbn [serve answer fst snd]. unfold read_bytes_into.
    do 2 eexists. split; [done|]. destruct (source_read (reads c) o n) as [s|] eqn:Hs.
    + apply source_read_spec in Hs as [Hle ->]; [|lia..]. left. split; [|done].
      by rewrite (proj2 (Z.leb_le _ _) Hle).
    + destruct (Z.leb_spec (o + n) (slen bytes)); [|by left]. right. split; [done|]. split; [done|].
      intros Hrel. destruct (Hrel (reads c) o n) as [x Hx]; [lia..|congruence].
Qed.
Lemma serve_all_ok c k rs : wf c k → Forall valid_request rs →
  ∃ as_, serve_all c rs = Ok as_ ∧ answers bytes k rs as_ ∧ (reliable Hsource → as_ = answer_all bytes k rs).
Proof using file_fits.
  revert c k. induction rs as [|r rs IH]; intros c k Hwf Hv; [eexists; split; [done|]; split; [constructor|done]|].
  apply Forall_cons in Hv as [Hv Hvs]. destruct (serve_ok c k r Hwf Hv) as (c' & a & Hr & Ha).
  cbn [serve_all answer_all]. rewrite Hr. cbn [mbind res_bind]. destruct Ha as [[-> Hwf']|(-> & Hwf' & Hrel)].
  - destruct (IH _ _ Hwf' Hvs) as (as_ & -> & Has & Hall). eexists. split; [done|]. split; [by constructor|].
    intros Hr'. destruct (answer bytes k r) as [k' a]. cbn in *. by rewrite (Hall Hr').
  - destruct (IH _ _ Hwf' Hvs) as (as_ & -> & Has & Hall). eexists. split; [done|]. split; [by constructor|].
    intros Hr'. by destruct (Hrel Hr').
Qed.

(** A cache is an implementation of the interface of file contents. *)
Definition ok_reply (r : res (FileContentsWithChunkedCaching * reply string)) : option string :=
  match r with Ok (_, inl s) => Some s | _ => None end.
#[refine] Definition cached_contents c k (Hwf : wf c k) : SymbolMaps.FileContents bytes :=
  {| SymbolMaps.read_bytes_at offset size' := ok_reply (read_bytes_at c offset size');
     SymbolMaps.read_bytes_into offset size' := ok_reply (read_bytes_into c offset size') |}.
Proof using Hsource file_fits.
  - intros o n s Ho Hn. destruct (read_bytes_at_ok c k o n Hwf Ho Hn) as (c' & a & -> & _ & Ha). cbn [ok_reply].
    destruct a as [s'|]; [|done]. intros [= <-]. destruct Ha as [Ha|[? _]]; [|done]. revert Ha. cbn [answer snd].
    destruct (Z.eqb_spec n 0) as [->|]; [intros [= ->]; by rewrite substring_none|].
    destruct (_ <=? _); [done|]. destruct (_ <? _); [done|]. by intros [= ->].
  - intros o n s Ho Hn. unfold read_bytes_into. cbn [ok_reply]. destruct (source_read _ o n) as [s'|] eqn:Hs; [|done].
    intros [= <-]. by apply source_read_spec in Hs.
Defined.

(** The interface asks for a range that is not empty; a search in an empty one
    panics, unless a string that starts there is known. *)
Lemma empty_search_panics c s d : 0 ≤ s → s ≤ file_len (buffer_manager c) → s < 2 ^ 64 →
  string_cache c !! (s, d) = None → read_bytes_at_until c s s d = Panic.
Proof.
  intros ? Hle ? Hnone. unfold read_bytes_at_until. rewrite Z.ltb_irrefl, Hnone.
  destruct (Z.ltb_spec (file_len (buffer_manager c)) s); [lia|].
  unfold sub_u64. rewrite Z.sub_diag. change (Z.min (wrap_u64 0) MAX_LENGTH_INCLUDING_DELIMITER) with 0.
  unfold add_u64, wrap_u64. rewrite Z.add_0_r, Z.mod_small by lia.
  unfold get_range_location, determine_range_sourcing. by rewrite Z.ltb_irrefl.
Qed.
End correct.

(** C13: A file that is read through the cache answers every sequence of valid requests
    from the bytes of the file, however the requests overlap and whichever chunks are in
    memory: no assertion fails, each answer is the one of the bytes of the file or an
    error of the source, and there are no errors if the source has none. What is known
    from earlier requests shows in one way only, which the reference has too: a string
    that was found once up to a delimiter is found again, also where a request that
    ends before the delimiter would not find it. The size of the file leaves room for
    a chunk below 2^64. *)
Theorem cached_reads_answer `{RangeMap} {bytes : string} (source : FileByteSource bytes) (rs : list Request) :
  slen bytes + CHUNK_SIZE ≤ 2 ^ 64 → Forall valid_request rs →
  ∃ as_, serve_all (new (slen bytes)) rs = Ok as_ ∧ answers bytes ∅ rs as_ ∧
    (reliable source → as_ = answer_all bytes ∅ rs).
Proof. intros Hfit Hvalid. apply serve_all_ok; [done|apply new_cache_wf|done]. Qed.

(** A map of ranges that keeps all that were inserted. *)
#[local] Fixpoint listed_get (m : list (Z * Z * nat)) (x : Z) : option nat :=
  match m with
  | [] => None
  | (s, e, v) :: m' => if (s <=? x) && (x <? e) then Some v else listed_get m' x
  end.
#[local] Definition listed_insert (m : list (Z * Z * nat)) (s e : Z) (v : nat) : res (list (Z * Z * nat)) :=
  if s <? e then Ok ((s, e, v) :: m) else Panic.
#[local, refine] Instance listed_ranges : RangeMap :=
  {| range_map := list (Z * Z * nat); map_new := []; map_get := listed_get; map_insert := listed_insert |}.
Proof.
  - done.
  - intros m s e v Hs. unfold listed_insert. rewrite (proj2 (Z.ltb_lt s e)) by done. eexists. by split.
Defined.
#[local] Definition path_file : string := "usr/lib/libc.so".
#[local, refine] Instance path_source : FileByteSource path_file :=
  {| source_read _ := SymbolMaps.read_slice path_file |}.
Proof.
  intros _ o n s ? ?. unfold SymbolMaps.read_slice.
  destruct (Z.leb_spec o (slen path_file)); [|done].
  destruct (Z.leb_spec n (slen path_file - o)); [|done]. intros [= <-]. split; [lia|done].
Defined.
(** A string is found in its file, and then again although the range ends before it
    does. *)
Example cached_reads_answer_witness :
  let rs := [ReadBytesAt 4 3; ReadBytesAtUntil 4 15 "/"; ReadBytesAtUntil 4 5 "/"; ReadBytesAtUntil 0 2 "/";
             ReadBytesAt 14 5; ReadBytesInto 8 7] in
  Forall valid_request rs ∧
  answer_all path_file ∅ rs =
    [inl "lib"; inl "lib"; inl "lib"; inr DelimiterNotFound; inr RangeOutOfBounds; inl "libc.so"] ∧
  serve_all (new (slen path_file)) rs = Ok (answer_all path_file ∅ rs).
Proof.
  intros rs. assert (Forall valid_request rs) as Hv.
  { unfold rs. repeat constructor; cbn; unfold u64_range; lia. }
  split; [exact Hv|]. split; [by vm_compute|].
  destruct (cached_reads_answer path_source rs ltac:(done) Hv) as (as_ & Hrun & _ & Has).
  rewrite Has in Hrun; [exact Hrun|].
  intros n o s ? ? Hle. cbn [source_read path_source]. unfold SymbolMaps.read_slice.
  pose proof (slen_not_negative path_file). rewrite (proj2 (Z.leb_le o _)), (proj2 (Z.leb_le s _)) by lia. by eexists.
Defined.
End ChunkedCaching.
