(* ===== verification/JitDumpMap.v ===== *)
(** Symbols from a jitdump file: samply-symbols/src/jitdump.rs. *)
From S2P Require Import Prelude RustStr SymbolTable LibTable LineBuffer MappedPath SymbolMaps.
From S2P Require Import BreakpadSymbolMap BreakpadFunc SyntheticJit JitDump.
From stdpp Require Import options.
Open Scope Z_scope.

(** * The reader of the linux-perf-data crate, with the places in the file *)

(** The fields of a load record that the index takes. *)
Record LoadRecord := {
  load_name : string;
  load_code_bytes_len : Z;
  load_code_bytes_offset : Z
}.
Inductive ParsedRecord := ParsedCodeLoad (l : LoadRecord) | ParsedOther.
(** [parse_record] is [None] if the record does not parse. *)
Record FileRecord := {
  record_type : JitDumpRecordType;
  total_size : Z;
  start_offset : Z;
  parse_record : option ParsedRecord
}.
(** [None] is an I/O error; [Some None] is the end of the complete records. *)
Class JitDumpFile (bytes : string) := {
  file_reader : Type;
  endianness : Type;
  debug_info : Type;
  new_reader : option file_reader;
  reader_header : file_reader → JitDumpHeader;
  reader_endian : file_reader → endianness;
  next_record_header : file_reader → file_reader * option (option (JitDumpRecordType * Z));
  next_record : file_reader → file_reader * option (option FileRecord);
  skip_next_record : file_reader → file_reader * option bool;
  next_record_offset : file_reader → Z;
  (** [JitCodeDebugInfoRecord::parse], and its [code_addr] and [lookup]: the path
      and the line of an address. *)
  parse_debug_info : endianness → string → option debug_info;
  debug_code_addr : debug_info → Z;
  debug_lookup : debug_info → Z → option (string * Z);
  (** Where a name starts in a load record, and the size of a record's header. *)
  NAME_OFFSET_FROM_RECORD_START : Z;
  HEADER_SIZE : Z;
  (** The complete records that follow. *)
  records : file_reader → list FileRecord;
  next_record_header_spec r r' h : next_record_header r = (r', Some h) →
    records r' = records r ∧
    match h, records r with
    | Some h', x :: _ => h' = (record_type x, total_size x) ∧ next_record_offset r' = start_offset x
    | None, _ :: _ => False
    | _, [] => True
    end;
  next_record_spec r r' o : next_record r = (r', Some o) →
    match o with Some x => records r = x :: records r' | None => records r = [] end;
  skip_next_record_spec r r' b : skip_next_record r = (r', Some b) →
    if b : bool then ∃ x, records r = x :: records r' else records r = [];
  parse_record_type r x : x ∈ records r →
    record_type x = JIT_CODE_LOAD → parse_record x ≠ Some ParsedOther
}.

Module JitDumpMap.
Import RustStr LineBuffer(slen) SymbolMaps BreakpadSymbolMap(position_before).

Section jitdump.
Context `{DebugIdOps} {bytes : string} `{FileContents bytes} `{JitDumpFile bytes}.

Definition is_jitdump_file : bool :=
  match read_bytes_at 0 4 with
  | Some magic => bool_decide (magic = "JiTD") || bool_decide (magic = "DTiJ")
  | None => false
  end.

(** * The index *)
Record JitDumpIndexEntry := {
  code_load_record_offset : Z;
  code_bytes_offset : Z;
  name_len : Z;
  code_debug_info_record_offset_and_len : option (Z * Z);
  code_bytes_len : Z
}.
Record JitDumpIndex := {
  endian : endianness;
  entries : list JitDumpIndexEntry;
  relative_addresses : list Z;
  index_debug_id : DebugId
}.
Definition entry_of (x : FileRecord) (l : LoadRecord) (pending : option (Z * Z)) : JitDumpIndexEntry :=
  {| code_load_record_offset := start_offset x;
     code_bytes_offset := add_u64 (start_offset x) (load_code_bytes_offset l);
     name_len := wrap_u32 (slen (load_name l));
     code_debug_info_record_offset_and_len := pending;
     code_bytes_len := load_code_bytes_len l |}.
(** An error ends it without a result; every other turn takes a record. *)
Fixpoint read_records (fuel : nat) (r : file_reader) (es : list JitDumpIndexEntry) (addresses : list Z)
    (cumulative_address : Z) (pending : option (Z * Z))
    : loops (option (list JitDumpIndexEntry * list Z)) :=
  match fuel with
  | O => None
  | S fuel' =>
      match next_record_header r with
      | (_, None) => returned (Ok None)
      | (_, Some None) => returned (Ok (Some (es, addresses)))
      | (r1, Some (Some (ty, total_size'))) =>
          match ty with
          | JIT_CODE_LOAD =>
              match next_record r1 with
              | (_, None) => returned (Ok None)
              | (_, Some None) => returned (Ok (Some (es, addresses)))
              | (r2, Some (Some raw)) =>
                  match parse_record raw with
                  | None => returned (Ok None)
                  | Some ParsedOther => returned Panic
                  | Some (ParsedCodeLoad record) =>
                      read_records fuel' r2 (push es (entry_of raw record pending))
                        (push addresses cumulative_address)
                        (add_u32 cumulative_address (wrap_u32 (load_code_bytes_len record))) None
                  end
              end
          | _ =>
              let offset := next_record_offset r1 in
              match skip_next_record r1 with
              | (_, None) => returned (Ok None)
              | (_, Some false) => returned (Ok (Some (es, addresses)))
              | (r2, Some true) =>
                  read_records fuel' r2 es addresses cumulative_address
                    (match ty with JIT_CODE_DEBUG_INFO => Some (offset, total_size') | _ => pending end)
              end
          end
      end
  end.
Definition from_reader (r : file_reader) : loops (option JitDumpIndex) :=
  let h := reader_header r in
  '(id, _) ← returned (JitDump.debug_id_and_code_id_for_jitdump (header_pid h) (header_timestamp h)
                                                                  (elf_machine_arch h));
  parts ← read_records (S (length (records r))) r [] [] 0 None;
  mret ('(es, addresses) ← parts;
        Some {| endian := reader_endian r; entries := es; relative_addresses := addresses;
                index_debug_id := id |}).
(** [JitDumpSymbolMapOuter::new]. *)
Definition new_outer : loops (option JitDumpIndex) :=
  match new_reader with None => mret None | Some r => from_reader r end.

Definition lookup_relative_address (idx : JitDumpIndex) (address' : Z) : res (option (nat * Z * Z)) :=
  match position_before (SymbolTable.binary_search_by_key id (relative_addresses idx) address') with
  | None => Ok None
  | Some i =>
      symbol_address ← index (relative_addresses idx) i;
      let offset_relative_to_symbol := wrap_u32 (address' - symbol_address) in
      desc ← index (entries idx) i;
      if code_bytes_len desc <=? offset_relative_to_symbol then Ok None
      else Ok (Some (i, symbol_address, offset_relative_to_symbol))
  end.
Definition lookup_offset (idx : JitDumpIndex) (offset : Z) : res (option (nat * Z * Z)) :=
  match position_before (SymbolTable.binary_search_by_key code_bytes_offset (entries idx) offset) with
  | None => Ok None
  | Some i =>
      desc ← index (entries idx) i;
      let offset_relative_to_symbol := sub_u64 offset (code_bytes_offset desc) in
      if code_bytes_len desc <=? offset_relative_to_symbol then Ok None
      else
        symbol_address ← index (relative_addresses idx) i;
        Ok (Some (i, symbol_address, offset_relative_to_symbol))
  end.

(** * The symbol map and its cache *)
Record JitDumpSymbolMapCache := { names : gmap nat string; debug_infos : gmap nat debug_info }.
Definition new_cache : JitDumpSymbolMapCache := {| names := ∅; debug_infos := ∅ |}.
Definition read_name (desc : JitDumpIndexEntry) : option string :=
  read_bytes_at (add_u64 (code_load_record_offset desc) NAME_OFFSET_FROM_RECORD_START) (name_len desc).
Definition get_function_name (idx : JitDumpIndex) (c : JitDumpSymbolMapCache) (entry_index : nat)
    : res (JitDumpSymbolMapCache * option string) :=
  match names c !! entry_index with
  | Some name => Ok (c, Some name)
  | None =>
      desc ← index (entries idx) entry_index;
      Ok match read_name desc with
         | None => (c, None)
         | Some name =>
             ({| names := <[entry_index := name]> (names c); debug_infos := debug_infos c |}, Some name)
         end
  end.
(** [RawData::skip] fails if there is less. *)
Definition skip_header (record_data : string) : option string :=
  if HEADER_SIZE <=? slen record_data then
    Some (String.substring (Z.to_nat HEADER_SIZE) (Z.to_nat (slen record_data - HEADER_SIZE)) record_data)
  else None.
Definition read_debug_info (idx : JitDumpIndex) (desc : JitDumpIndexEntry) : option debug_info :=
  '(record_start, record_len) ← code_debug_info_record_offset_and_len desc;
  record_data ← read_bytes_at record_start record_len;
  record_data' ← skip_header record_data;
  parse_debug_info (endian idx) record_data'.
Definition get_debug_info (idx : JitDumpIndex) (c : JitDumpSymbolMapCache) (entry_index : nat)
    : res (JitDumpSymbolMapCache * option debug_info) :=
  match debug_infos c !! entry_index with
  | Some info => Ok (c, Some info)
  | None =>
      desc ← index (entries idx) entry_index;
      Ok match read_debug_info idx desc with
         | None => (c, None)
         | Some info =>
             ({| names := names c; debug_infos := <[entry_index := info]> (debug_infos c) |}, Some info)
         end
  end.
Definition frames_at (name : string) (info : option debug_info) (offset_relative_to_symbol : Z)
    : option FramesLookupResult :=
  info' ← info;
  '(path, line) ← debug_lookup info' (add_u64 (debug_code_addr info') offset_relative_to_symbol);
  Some (Available [{| function := Some name;
                      file_path := Some (MappedPath.new_path (Utf8.from_utf8_lossy path) None);
                      line_number := Some line |}]).
Definition lookup_by_entry_index (idx : JitDumpIndex) (c : JitDumpSymbolMapCache)
    (i : nat) (symbol_address offset_relative_to_symbol : Z)
    : res (JitDumpSymbolMapCache * option SyncAddressInfo) :=
  '(c1, name_bytes) ← get_function_name idx c i;
  match name_bytes with
  | None => Ok (c1, None)
  | Some name_bytes =>
      let name := Utf8.from_utf8_lossy name_bytes in
      '(c2, info) ← get_debug_info idx c1 i;
      desc ← index (entries idx) i;
      Ok (c2, Some
        {| symbol := {| address := symbol_address; size := Some (wrap_u32 (code_bytes_len desc));
                        symbol_name := name |};
           frames := frames_at name info offset_relative_to_symbol |})
  end.
Definition lookup_sync (idx : JitDumpIndex) (c : JitDumpSymbolMapCache) (address' : LookupAddress)
    : res (JitDumpSymbolMapCache * option SyncAddressInfo) :=
  found ← match address' with
          | Relative a => lookup_relative_address idx a
          | Svma _ => Ok None
          | FileOffset offset => lookup_offset idx offset
          end;
  match found with
  | None => Ok (c, None)
  | Some (i, symbol_address, offset) => lookup_by_entry_index idx c i symbol_address offset
  end.
Definition symbol_count (idx : JitDumpIndex) : nat := length (relative_addresses idx).
Fixpoint iter_from (idx : JitDumpIndex) (c : JitDumpSymbolMapCache) (is_ : list nat)
    : res (JitDumpSymbolMapCache * list (Z * string)) :=
  match is_ with
  | [] => Ok (c, [])
  | i :: is' =>
      address' ← index (relative_addresses idx) i;
      '(c1, name) ← get_function_name idx c i;
      '(c2, rest) ← iter_from idx c1 is';
      Ok (c2, match name with Some n => (address', Utf8.from_utf8_lossy n) :: rest | None => rest end)
  end.
Definition iter_symbols (idx : JitDumpIndex) (c : JitDumpSymbolMapCache)
    : res (JitDumpSymbolMapCache * list (Z * string)) := iter_from idx c (seq 0 (symbol_count idx)).

(** What a symbol map is asked. *)
Inductive Request := Lookup (address' : LookupAddress) | Iterate.
Inductive Response := Found (info : option SyncAddressInfo) | Symbols (symbols : list (Z * string)).
Fixpoint run_requests (idx : JitDumpIndex) (c : JitDumpSymbolMapCache) (rs : list Request)
    : res (list Response) :=
  match rs with
  | [] => Ok []
  | Lookup a :: rs' =>
      '(c', info) ← lookup_sync idx c a; responses ← run_requests idx c' rs'; Ok (Found info :: responses)
  | Iterate :: rs' =>
      '(c', l) ← iter_symbols idx c; responses ← run_requests idx c' rs'; Ok (Symbols l :: responses)
  end.

(** * Whatever the records: the caches do not show *)
Definition jit_found (idx : JitDumpIndex) (q : LookupAddress) : option (nat * Z * Z) :=
  match q with
  | Relative a => match lookup_relative_address idx a with Ok found => found | Panic => None end
  | Svma _ => None
  | FileOffset o => match lookup_offset idx o with Ok found => found | Panic => None end
  end.
Definition jit_answer (idx : JitDumpIndex) (q : LookupAddress) : option SyncAddressInfo :=
  '(i, symbol_address, o) ← jit_found idx q;
  desc ← entries idx !! i;
  name ← Utf8.from_utf8_lossy <$> read_name desc;
  Some {| symbol := {| address := symbol_address; size := Some (wrap_u32 (code_bytes_len desc)); symbol_name := name |};
          frames := frames_at name (read_debug_info idx desc) o |}.
Definition jit_symbols (idx : JitDumpIndex) (is_ : list nat) : list (Z * string) :=
  omap (λ i, a ← relative_addresses idx !! i; desc ← entries idx !! i; n ← read_name desc;
             Some (a, Utf8.from_utf8_lossy n)) is_.
Definition alone (idx : JitDumpIndex) (r : Request) : Response :=
  match r with
  | Lookup q => Found (jit_answer idx q)
  | Iterate => Symbols (jit_symbols idx (seq 0 (symbol_count idx)))
  end.
Section alone.
Context (idx : JitDumpIndex).
Hypothesis lengths : length (entries idx) = length (relative_addresses idx).
Record cache_of_file (c : JitDumpSymbolMapCache) : Prop := {
  names_of_file i n : names c !! i = Some n → ∃ desc, entries idx !! i = Some desc ∧ read_name desc = Some n;
  debug_infos_of_file i d :
    debug_infos c !! i = Some d → ∃ desc, entries idx !! i = Some desc ∧ read_debug_info idx desc = Some d
}.
Lemma new_cache_of_file : cache_of_file new_cache.
Proof using Type. split; intros; cbn in *; simplify_map_eq. Qed.
Lemma get_function_name_alone c i desc : cache_of_file c → entries idx !! i = Some desc →
  ∃ c', get_function_name idx c i = Ok (c', read_name desc) ∧ cache_of_file c'.
Proof using Type.
  intros Hc Hi. unfold get_function_name. destruct (names c !! i) as [n|] eqn:Hn.
  - destruct (names_of_file c Hc i n Hn) as (desc' & Hi' & Hr). simplify_eq. rewrite Hr. by exists c.
  - unfold index. rewrite Hi. cbn [unwrap mbind res_bind]. destruct (read_name desc) as [n|] eqn:Hr; [|by exists c].
    eexists. split; [done|]. destruct Hc as [Hcn Hcd]. split; [|exact Hcd]. cbn [names].
    intros j n' [[<- <-]|[_ Hj]]%lookup_insert_Some; [by exists desc|by apply Hcn].
Qed.
Lemma get_debug_info_alone c i desc : cache_of_file c → entries idx !! i = Some desc →
  ∃ c', get_debug_info idx c i = Ok (c', read_debug_info idx desc) ∧ cache_of_file c'.
Proof using Type.
  intros Hc Hi. unfold get_debug_info. destruct (debug_infos c !! i) as [d|] eqn:Hd.
  - destruct (debug_infos_of_file c Hc i d Hd) as (desc' & Hi' & Hr). simplify_eq. rewrite Hr. by exists c.
  - unfold index. rewrite Hi. cbn [unwrap mbind res_bind]. destruct (read_debug_info idx desc) as [d|] eqn:Hr; [|by exists c].
    eexists. split; [done|]. destruct Hc as [Hcn Hcd]. split; [exact Hcn|]. cbn [debug_infos].
    intros j d' [[<- <-]|[_ Hj]]%lookup_insert_Some; [by exists desc|by apply Hcd].
Qed.
Lemma entry_and_address i : (i < length (entries idx))%nat →
  ∃ desc a, entries idx !! i = Some desc ∧ relative_addresses idx !! i = Some a.
Proof using lengths.
  intros Hi. destruct (lookup_lt_is_Some_2 _ _ Hi) as [desc ?]. rewrite lengths in Hi.
  destruct (lookup_lt_is_Some_2 _ _ Hi) as [a ?]. by exists desc, a.
Qed.
Lemma lookup_found q : ∃ found,
  match q with
  | Relative a => lookup_relative_address idx a
  | Svma _ => Ok None
  | FileOffset o => lookup_offset idx o
  end = Ok found ∧ jit_found idx q = found ∧ ∀ i a o, found = Some (i, a, o) → is_Some (entries idx !! i).
Proof using lengths.
  destruct q as [a|a|a]; cbn [jit_found]; [|by exists None|].
  - assert (∃ found, lookup_relative_address idx a = Ok found ∧ ∀ i sa o, found = Some (i, sa, o) → is_Some (entries idx !! i))
      as (found & -> & Hf); [|by exists found].
    unfold lookup_relative_address. destruct (position_before _) as [i|] eqn:Hp; [|by exists None].
    apply BreakpadFunc.position_before_bounds in Hp. rewrite <- lengths in Hp.
    destruct (entry_and_address i Hp) as (desc & sa & Hd & Hsa). unfold index. rewrite Hd, Hsa. cbn [unwrap mbind res_bind].
    destruct (_ <=? _); [by exists None|]. eexists. split; [done|]. intros j sa' o [= <- _ _]. by exists desc.
  - assert (∃ found, lookup_offset idx a = Ok found ∧ ∀ i sa o, found = Some (i, sa, o) → is_Some (entries idx !! i))
      as (found & -> & Hf); [|by exists found].
    unfold lookup_offset. destruct (position_before _) as [i|] eqn:Hp; [|by exists None].
    apply BreakpadFunc.position_before_bounds in Hp.
    destruct (entry_and_address i Hp) as (desc & sa & Hd & Hsa). unfold index. rewrite Hd, Hsa. cbn [unwrap mbind res_bind].
    destruct (_ <=? _); [by exists None|]. eexists. split; [done|]. intros j sa' o [= <- _ _]. by exists desc.
Qed.
Lemma lookup_sync_alone c q : cache_of_file c →
  ∃ c', lookup_sync idx c q = Ok (c', jit_answer idx q) ∧ cache_of_file c'.
Proof using lengths.
  intros Hc. unfold lookup_sync, jit_answer. destruct (lookup_found q) as (found & -> & -> & Hf). cbn [mbind res_bind].
  destruct found as [[[i sa] o]|]; [|by exists c]. destruct (Hf i sa o eq_refl) as [desc Hi]. cbn [mbind option_bind].
  rewrite Hi. cbn [mbind option_bind]. unfold lookup_by_entry_index.
  destruct (get_function_name_alone c i desc Hc Hi) as (c1 & -> & Hc1). cbn [mbind res_bind].
  destruct (read_name desc) as [n|]; [|by exists c1]. cbn [fmap option_fmap option_map mbind option_bind].
  destruct (get_debug_info_alone c1 i desc Hc1 Hi) as (c2 & -> & Hc2). cbn [mbind res_bind]. unfold index. rewrite Hi.
  by exists c2.
Qed.
Lemma iter_from_alone c is_ : cache_of_file c → Forall (λ i, (i < length (entries idx))%nat) is_ →
  ∃ c', iter_from idx c is_ = Ok (c', jit_symbols idx is_) ∧ cache_of_file c'.
Proof using lengths.
  intros Hc His. revert c Hc. induction His as [|i is_ Hi _ IH]; intros c Hc; [by exists c|].
  destruct (entry_and_address i Hi) as (desc & a & Hd & Ha). cbn [iter_from]. unfold index. rewrite Ha. cbn [unwrap mbind res_bind].
  destruct (get_function_name_alone c i desc Hc Hd) as (c1 & -> & Hc1). cbn [mbind res_bind].
  destruct (IH c1 Hc1) as (c2 & -> & Hc2). exists c2. split; [|done]. cbn [mbind res_bind]. do 2 f_equal.
  unfold jit_symbols. cbn [omap list_omap]. rewrite Ha. cbn [mbind option_bind]. rewrite Hd. cbn [mbind option_bind].
  by destruct (read_name desc).
Qed.
Lemma run_requests_alone c reqs : cache_of_file c → run_requests idx c reqs = Ok (alone idx <$> reqs).
Proof using lengths.
  revert c. induction reqs as [|[q|] reqs IH]; intros c Hc; [done|..]; cbn [run_requests].
  - destruct (lookup_sync_alone c q Hc) as (c' & -> & Hc'). cbn [mbind res_bind]. by rewrite (IH c' Hc').
  - destruct (iter_from_alone c (seq 0 (symbol_count idx)) Hc) as (c' & Hi & Hc').
    { apply Forall_seq. unfold symbol_count. lia. }
    unfold iter_symbols. rewrite Hi. cbn [mbind res_bind]. by rewrite (IH c' Hc').
Qed.
End alone.

(** * The functions of a file *)
Record Function := {
  function_address : Z;
  function_record : FileRecord;
  function_load : LoadRecord;
  function_debug : option (Z * Z)
}.
(** The functions are laid out one after the other; a debug record belongs to the
    load record after it. *)
Fixpoint functions (pending : option (Z * Z)) (address' : Z) (rs : list FileRecord) : list Function :=
  match rs with
  | [] => []
  | x :: rs' =>
      match record_type x with
      | JIT_CODE_LOAD =>
          match parse_record x with
          | Some (ParsedCodeLoad l) =>
              {| function_address := address'; function_record := x; function_load := l;
                 function_debug := pending |}
              :: functions None (address' + load_code_bytes_len l) rs'
          | _ => []
          end
      | JIT_CODE_DEBUG_INFO => functions (Some (start_offset x, total_size x)) address' rs'
      | _ => functions pending address' rs'
      end
  end.
Definition function_len (f : Function) : Z := load_code_bytes_len (function_load f).
(** Where the code of a function is in the file. *)
Definition function_offset (f : Function) : Z :=
  start_offset (function_record f) + load_code_bytes_offset (function_load f).
Definition function_name (f : Function) : string := Utf8.from_utf8_lossy (load_name (function_load f)).
Definition in_range (start len' a : Z) : bool := (start <=? a) && (a <? start + len').
Definition debug_info_of (e : endianness) (f : Function) : option debug_info :=
  '(record_start, record_len) ← function_debug f;
  record_data ← skip_header (String.substring (Z.to_nat record_start) (Z.to_nat record_len) bytes);
  parse_debug_info e record_data.
Definition info_of (e : endianness) (f : Function) (offset : Z) : SyncAddressInfo :=
  {| symbol := {| address := function_address f; size := Some (function_len f);
                  symbol_name := function_name f |};
     frames := frames_at (function_name f) (debug_info_of e f) offset |}.
(** What the functions of a file say about an address. *)
Definition reference_lookup (e : endianness) (fs : list Function) (a : LookupAddress) : option SyncAddressInfo :=
  match a with
  | Relative a =>
      f ← List.find (λ f, in_range (function_address f) (function_len f) a) fs;
      Some (info_of e f (a - function_address f))
  | Svma _ => None
  | FileOffset o =>
      f ← List.find (λ f, in_range (function_offset f) (function_len f) o) fs;
      Some (info_of e f (o - function_offset f))
  end.
Definition reference_response (e : endianness) (fs : list Function) (r : Request) : Response :=
  match r with
  | Lookup a => Found (reference_lookup e fs a)
  | Iterate => Symbols ((λ f, (function_address f, function_name f)) <$> fs)
  end.

(** * Files whose records are in order *)
Definition record_ok (x : FileRecord) : Prop :=
  0 ≤ start_offset x ∧ u32_range (total_size x) ∧ start_offset x + total_size x ≤ slen bytes ∧
  ∀ l, parse_record x = Some (ParsedCodeLoad l) →
    0 < load_code_bytes_len l ∧
    0 ≤ NAME_OFFSET_FROM_RECORD_START ∧
    NAME_OFFSET_FROM_RECORD_START + slen (load_name l) ≤ load_code_bytes_offset l ∧
    load_code_bytes_offset l + load_code_bytes_len l ≤ total_size x ∧
    load_name l = String.substring (Z.to_nat (start_offset x + NAME_OFFSET_FROM_RECORD_START))
                    (String.length (load_name l)) bytes.
Fixpoint laid_out (from : Z) (rs : list FileRecord) : Prop :=
  match rs with
  | [] => True
  | x :: rs' => from ≤ start_offset x ∧ record_ok x ∧ laid_out (start_offset x + total_size x) rs'
  end.
(** The bytes of all functions. *)
Definition code_size (fs : list Function) : Z := foldr (λ f n, function_len f + n) 0 fs.

Definition function_entry (f : Function) : JitDumpIndexEntry :=
  entry_of (function_record f) (function_load f) (function_debug f).
(** Up to the first record that does not parse, where the index fails as a whole. *)
Lemma read_records_ok fuel r es addresses address' pending :
  (length (records r) < fuel)%nat →
  ∃ o, read_records fuel r es addresses (wrap_u32 address') pending = Some (Ok o) ∧
    ∀ es' addresses', o = Some (es', addresses') →
      es' = es ++ (function_entry <$> functions pending address' (records r)) ∧
      addresses' = addresses ++ ((λ f, wrap_u32 (function_address f)) <$> functions pending address' (records r)).
Proof.
  revert r es addresses address' pending.
  induction fuel as [|fuel IH]; intros r es addresses address' pending Hfuel; [lia|]. cbn [read_records].
  assert (∀ o : option (list JitDumpIndexEntry * list Z), o = None ∨ (o = Some (es, addresses) ∧ records r = []) →
    ∃ o', Some (Ok o) = Some (Ok o') ∧ ∀ es' addresses', o' = Some (es', addresses') →
      es' = es ++ (function_entry <$> functions pending address' (records r)) ∧
      addresses' = addresses ++ ((λ f, wrap_u32 (function_address f)) <$> functions pending address' (records r))) as Hend.
  { intros o [->|[-> Hnil]]; eexists; (split; [done|]); [done|]. intros ? ? [= <- <-]. rewrite Hnil. by rewrite !app_nil_r. }
  destruct (next_record_header r) as [r1 [h|]] eqn:Hh; [|apply Hend; by left].
  apply next_record_header_spec in Hh as [Hr1 Hh]. destruct h as [[ty total_size']|].
  2:{ apply Hend. right. split; [done|]. by destruct (records r). }
  assert (∀ x rest, records r = x :: rest → ty = record_type x ∧ total_size' = total_size x ∧
    next_record_offset r1 = start_offset x) as Hx.
  { intros x rest Heq. rewrite Heq in Hh. destruct Hh as [[= -> ->] ?]. done. }
  clear Hh. destruct ty as [| | | | |v].
  { destruct (next_record r1) as [r2 [[raw|]|]] eqn:Hn; [..|apply Hend; by left].
    - apply next_record_spec in Hn. rewrite Hr1 in Hn. destruct (Hx _ _ Hn) as (Hty & _ & _).
      pose proof (parse_record_type r raw ltac:(rewrite Hn; left) (eq_sym Hty)) as Hp.
      destruct (parse_record raw) as [[l|]|] eqn:Hl; [|done|apply Hend; by left].
      assert (add_u32 (wrap_u32 address') (wrap_u32 (load_code_bytes_len l)) =
              wrap_u32 (address' + load_code_bytes_len l)) as ->.
      { unfold add_u32, wrap_u32. by rewrite <- Zplus_mod. }
      destruct (IH r2 (push es (entry_of raw l pending)) (push addresses (wrap_u32 address'))
                  (address' + load_code_bytes_len l) None) as (o & Ho & Hall).
      { rewrite Hn in Hfuel. cbn in Hfuel. lia. }
      exists o. split; [exact Ho|]. intros es' addresses' Heq. destruct (Hall _ _ Heq) as [-> ->].
      rewrite Hn. cbn [functions]. rewrite <- Hty, Hl. cbn [fmap list_fmap]. unfold push. by rewrite <- !app_assoc.
    - apply next_record_spec in Hn. rewrite Hr1 in Hn. apply Hend. by right. }
  all: destruct (skip_next_record r1) as [r2 [[|]|]] eqn:Hn; [..|apply Hend; by left];
    apply skip_next_record_spec in Hn; rewrite Hr1 in Hn; [|apply Hend; by right];
    destruct Hn as [x Hn]; destruct (Hx _ _ Hn) as (Hty & Hsize & Hoff);
    rewrite ?Hsize, ?Hoff; rewrite Hn in Hfuel |- *; cbn [functions]; rewrite <- Hty; apply IH; cbn in Hfuel; lia.
Qed.

(** * Lookups in ranges that follow each other *)
Lemma binary_search_map {A B} (g : A → B) (key : B → Z) (l : list A) k fuel left right :
  SymbolTable.binary_search_loop key (g <$> l) k fuel left right =
  SymbolTable.binary_search_loop (λ x, key (g x)) l k fuel left right.
Proof.
  revert left right. induction fuel as [|fuel IH]; intros left right; [done|]. cbn [SymbolTable.binary_search_loop].
  case_decide; [|done]. rewrite list_lookup_fmap. destruct (l !! _) as [x|]; [|done]. cbn [fmap option_fmap option_map].
  by destruct (key (g x) ?= k)%Z.
Qed.
Lemma binary_search_fmap {A B} (g : A → B) (key : B → Z) (l : list A) k :
  SymbolTable.binary_search_by_key key (g <$> l) k = SymbolTable.binary_search_by_key (λ x, key (g x)) l k.
Proof. unfold SymbolTable.binary_search_by_key. rewrite length_fmap. apply binary_search_map. Qed.
Lemma binary_search_ext {A} (key key' : A → Z) (l : list A) k : (∀ x, x ∈ l → key x = key' x) →
  SymbolTable.binary_search_by_key key l k = SymbolTable.binary_search_by_key key' l k.
Proof.
  intros Hk. unfold SymbolTable.binary_search_by_key. generalize 0%nat. generalize (length l) at 2 4.
  generalize (S (length l)). intros fuel. induction fuel as [|fuel IH]; intros right left; [done|].
  cbn [SymbolTable.binary_search_loop]. case_decide; [|done]. destruct (l !! _) as [x|] eqn:Hx; [|done].
  rewrite Hk by (by eapply list_elem_of_lookup_2). destruct (key' x ?= k)%Z; [done|apply IH..].
Qed.
Lemma find_none {A} (p : A → bool) l : (∀ x, x ∈ l → p x = false) → List.find p l = None.
Proof.
  induction l as [|x l IH]; [done|]. intros Hp. cbn. rewrite (Hp x) by left. apply IH. intros y Hy. apply Hp. by right.
Qed.
Lemma find_only {A} (p : A → bool) l i y : l !! i = Some y → p y = true →
  (∀ j x, l !! j = Some x → p x = true → j = i) → List.find p l = Some y.
Proof.
  revert i. induction l as [|x l IH]; intros i Hi Hp Hall; [done|]. cbn. destruct (p x) eqn:Hx.
  - specialize (Hall 0%nat x eq_refl Hx) as <-. cbn in Hi. congruence.
  - destruct i as [|i]; [cbn in Hi; congruence|]. apply (IH i); [done|done|]. intros j z Hz Hpz.
    specialize (Hall (S j) z Hz Hpz). lia.
Qed.
Lemma find_range {A} (start len' : A → Z) (l : list A) a :
  StronglySorted (λ x y, start x + len' x ≤ start y) l → Forall (λ x, 0 < len' x) l →
  match position_before (SymbolTable.binary_search_by_key start l a) with
  | None => List.find (λ x, in_range (start x) (len' x) a) l = None
  | Some i => ∃ y, l !! i = Some y ∧ start y ≤ a ∧
      List.find (λ x, in_range (start x) (len' x) a) l = if len' y <=? a - start y then None else Some y
  end.
Proof.
  intros Hs Hpos. rewrite Forall_forall in Hpos.
  assert (StronglySorted (λ x y, start x < start y) l) as Hs'.
  { revert Hpos. induction Hs as [|x l Hs IH Hx]; constructor; [apply IH; intros; apply Hpos; by right|].
    rewrite Forall_forall in Hx |- *. intros y Hy. specialize (Hx y Hy). specialize (Hpos x ltac:(left)). cbn in Hpos. lia. }
  pose proof (BreakpadFunc.position_before_last start l a Hs') as Hlast.
  destruct (position_before _) as [i|].
  - destruct Hlast as (y & Hy & Hle & Hmax & Hafter). exists y. split; [done|]. split; [done|].
    assert (∀ j x, l !! j = Some x → in_range (start x) (len' x) a = true → j = i) as Honly.
    { intros j x Hx [Hb1 Hb2]%andb_prop. apply Z.leb_le in Hb1. apply Z.ltb_lt in Hb2.
      destruct (lt_eq_lt_dec j i) as [[Hlt|?]|Hgt]; [|done|].
      - assert (start x + len' x ≤ start y); [|lia]. clear -Hs Hx Hy Hlt. revert i j Hx Hy Hlt.
        induction Hs as [|z l Hs IH Hz]; intros i j Hx Hy Hlt; [done|].
        destruct i as [|i]; [lia|]. destruct j as [|j].
        + injection Hx as <-. rewrite Forall_forall in Hz. apply Hz. by eapply list_elem_of_lookup_2.
        + apply (IH i j Hx Hy). lia.
      - specialize (Hafter j x Hx Hgt). lia. }
    destruct (Z.leb_spec (len' y) (a - start y)).
    + apply find_none. intros x Hin. destruct (in_range _ _ _) eqn:Hr; [|done]. exfalso.
      apply list_elem_of_lookup in Hin as [j Hj]. specialize (Honly j x Hj Hr) as ->. simplify_eq.
      apply andb_prop in Hr as [_ Hr]. apply Z.ltb_lt in Hr. lia.
    + apply (find_only _ _ i); [done| |exact Honly]. unfold in_range.
      rewrite (proj2 (Z.leb_le _ _)), (proj2 (Z.ltb_lt _ _)) by lia. done.
  - apply find_none. intros x Hx. specialize (Hlast x Hx). unfold in_range.
    by rewrite (proj2 (Z.leb_gt _ _)) by lia.
Qed.

(** * Functions of records that are in order *)
Definition debug_ok (pending : option (Z * Z)) : Prop :=
  match pending with Some (o, n) => 0 ≤ o ∧ 0 ≤ n ∧ o + n ≤ slen bytes | None => True end.
Definition function_ok (f : Function) : Prop :=
  record_ok (function_record f) ∧ parse_record (function_record f) = Some (ParsedCodeLoad (function_load f)) ∧
  debug_ok (function_debug f).
Lemma functions_ok pending a from rs :
  debug_ok pending → laid_out from rs → Forall function_ok (functions pending a rs).
Proof.
  revert pending a from. induction rs as [|x rs IH]; intros pending a from Hd; [constructor|].
  intros (Hfrom & Hx & Hrs). cbn [functions]. destruct (record_type x).
  - destruct (parse_record x) as [[l|]|] eqn:Hl; [|constructor..].
    constructor; [split; [done|]; by split|]. by eapply IH.
  - by eapply IH.
  - eapply IH; [|done]. destruct Hx as (? & [? _] & ? & _). cbn. lia.
  - by eapply IH.
  - by eapply IH.
  - by eapply IH.
Qed.
Lemma functions_addresses pending a from rs : laid_out from rs →
  Forall (λ f, a ≤ function_address f ∧ function_address f + function_len f ≤ a + code_size (functions pending a rs))
    (functions pending a rs) ∧
  StronglySorted (λ f g, function_address f + function_len f ≤ function_address g) (functions pending a rs) ∧
  0 ≤ code_size (functions pending a rs).
Proof.
  revert pending a from. induction rs as [|x rs IH]; intros pending a from; [split; [constructor|split; [constructor|done]]|].
  intros (Hfrom & Hx & Hrs). cbn [functions]. destruct (record_type x); try by eapply IH.
  destruct (parse_record x) as [[l|]|] eqn:Hl; [|split; [constructor|split; [constructor|done]]..].
  destruct (IH None (a + load_code_bytes_len l) _ Hrs) as (Hall & Hs & Hn).
  destruct Hx as (_ & _ & _ & Hx). specialize (Hx l Hl) as [Hpos _].
  set (f := {| function_address := a |}). set (fs := functions None (a + load_code_bytes_len l) rs) in *.
  change (code_size (f :: fs)) with (function_len f + code_size fs).
  assert (function_len f = load_code_bytes_len l ∧ function_address f = a) as [Hlen Ha] by done. clearbody f fs.
  split.
  - constructor; [lia|]. eapply Forall_impl; [exact Hall|]. cbn beta. lia.
  - split; [|lia]. constructor; [done|]. eapply Forall_impl; [exact Hall|]. cbn beta. lia.
Qed.
Lemma functions_offsets pending a from rs : laid_out from rs →
  Forall (λ f, from ≤ function_offset f) (functions pending a rs) ∧
  StronglySorted (λ f g, function_offset f + function_len f ≤ function_offset g) (functions pending a rs).
Proof.
  revert pending a from. induction rs as [|x rs IH]; intros pending a from; [split; constructor|].
  intros (Hfrom & Hx & Hrs). destruct Hx as (Hb1 & [Hb2 _] & Hb3 & Hx).
  assert (∀ p a', Forall (λ f, from ≤ function_offset f) (functions p a' rs) ∧
    StronglySorted (λ f g, function_offset f + function_len f ≤ function_offset g) (functions p a' rs)) as Hskip.
  { intros p a'. destruct (IH p a' _ Hrs) as [Hall Hs]. split; [|done]. eapply Forall_impl; [exact Hall|]. cbn beta. lia. }
  cbn [functions]. destruct (record_type x); try apply Hskip.
  destruct (parse_record x) as [[l|]|] eqn:Hl; [|split; constructor..].
  destruct (IH None (a + load_code_bytes_len l) _ Hrs) as [Hall Hs].
  specialize (Hx l eq_refl) as (Hpos & Hno & Hname & Hfit & _). pose proof (Zle_0_nat (String.length (load_name l))).
  unfold slen in Hname. set (f := {| function_address := a |}).
  assert (function_len f = load_code_bytes_len l ∧ function_offset f = start_offset x + load_code_bytes_offset l)
    as [Hlen Ho] by done. clearbody f. split.
  - constructor; [lia|]. eapply Forall_impl; [exact Hall|]. cbn beta. lia.
  - constructor; [done|]. eapply Forall_impl; [exact Hall|]. cbn beta. lia.
Qed.

(** * Requests *)
Section requests.
Variables (e : endianness) (rs : list FileRecord) (idx : JitDumpIndex).
Let fs := functions None 0 rs.
(** Reads in the file do not fail. *)
Hypothesis readable : ∀ o n, 0 ≤ o → 0 ≤ n → o + n ≤ slen bytes → is_Some (read_bytes_at o n).
Hypothesis file_small : slen bytes < 2 ^ 64.
Hypothesis in_order : laid_out 0 rs.
Hypothesis code_small : code_size fs < 2 ^ 32.
Hypothesis idx_endian : endian idx = e.
Hypothesis idx_entries : entries idx = function_entry <$> fs.
Hypothesis idx_addresses : relative_addresses idx = function_address <$> fs.

Lemma read_file o n : 0 ≤ o → 0 ≤ n → o + n ≤ slen bytes →
  read_bytes_at o n = Some (String.substring (Z.to_nat o) (Z.to_nat n) bytes).
Proof using readable.
  intros Ho Hn Hle. destruct (readable o n Ho Hn Hle) as [s Hs]. rewrite Hs. by apply read_bytes_at_spec in Hs as ->.
Qed.
Lemma fs_ok f : f ∈ fs → function_ok f.
Proof using in_order. intros Hf. pose proof (functions_ok None 0 0 rs ltac:(done) in_order) as Hall.
  rewrite Forall_forall in Hall. by apply Hall. Qed.
Lemma fs_ranges f : f ∈ fs → 0 ≤ function_address f ∧ 0 < function_len f ∧
  function_address f + function_len f < 2 ^ 32 ∧ 0 ≤ function_offset f ∧
  function_offset f + function_len f ≤ slen bytes ∧
  0 ≤ load_code_bytes_offset (function_load f) ∧ slen (load_name (function_load f)) < 2 ^ 32.
Proof using in_order code_small.
  intros Hf. destruct (functions_addresses None 0 0 rs in_order) as [Hall _]. rewrite Forall_forall in Hall.
  specialize (Hall f Hf). pose proof (fs_ok f Hf) as ((? & [? ?] & ? & Hp) & Hl & _).
  specialize (Hp _ Hl) as (? & ? & ? & ? & _). unfold function_offset, function_len, fs, slen in *. lia.
Qed.
Lemma read_name_ok f : f ∈ fs → read_name (function_entry f) = Some (load_name (function_load f)).
Proof using readable file_small in_order code_small.
  intros Hf. pose proof (fs_ranges f Hf) as Hr. pose proof (fs_ok f Hf) as ((Hs & [Ht _] & Hfit & Hp) & Hl & _).
  specialize (Hp _ Hl) as (? & ? & ? & ? & Hname). unfold read_name, function_entry, entry_of.
  cbn [code_load_record_offset name_len]. unfold add_u64, wrap_u64, wrap_u32, slen in *.
  rewrite !Z.mod_small by lia. rewrite read_file by (unfold slen; lia). rewrite Nat2Z.id. by rewrite <- Hname.
Qed.
Lemma read_debug_info_ok f : f ∈ fs → read_debug_info idx (function_entry f) = debug_info_of e f.
Proof using readable in_order idx_endian.
  intros Hf. pose proof (fs_ok f Hf) as (_ & _ & Hd). unfold read_debug_info, debug_info_of, function_entry, entry_of.
  cbn [code_debug_info_record_offset_and_len]. destruct (function_debug f) as [[o n]|]; [|done].
  destruct Hd as (? & ? & ?). cbn [mbind option_bind]. rewrite read_file by done. by rewrite idx_endian.
Qed.

(** The cache holds what the file says. *)
Definition cache_ok (c : JitDumpSymbolMapCache) : Prop :=
  (∀ i n, names c !! i = Some n → ∃ f, fs !! i = Some f ∧ n = load_name (function_load f)) ∧
  (∀ i d, debug_infos c !! i = Some d → ∃ f, fs !! i = Some f ∧ debug_info_of e f = Some d).
Lemma new_cache_ok : cache_ok new_cache.
Proof using. by split; intros i x; cbn [new_cache names debug_infos]; rewrite lookup_empty. Qed.
Lemma entry_at i f : fs !! i = Some f → index (entries idx) i = Ok (function_entry f).
Proof using idx_entries. intros Hi. unfold index. by rewrite idx_entries, list_lookup_fmap, Hi. Qed.
Lemma address_at i f : fs !! i = Some f → index (relative_addresses idx) i = Ok (function_address f).
Proof using idx_addresses. intros Hi. unfold index. by rewrite idx_addresses, list_lookup_fmap, Hi. Qed.
Lemma get_function_name_ok c i f : cache_ok c → fs !! i = Some f →
  ∃ c', get_function_name idx c i = Ok (c', Some (load_name (function_load f))) ∧ cache_ok c'.
Proof using readable file_small in_order code_small idx_entries.
  intros Hc Hi. unfold get_function_name. destruct (names c !! i) as [n|] eqn:Hn.
  - destruct (proj1 Hc _ _ Hn) as (f' & Hf' & ->). simplify_eq. by eexists.
  - rewrite (entry_at _ _ Hi). cbn [mbind res_bind].
    rewrite read_name_ok by (by eapply list_elem_of_lookup_2). eexists. split; [done|]. destruct Hc as [Hc Hc'].
    split; [|exact Hc']. cbn [names]. intros j n [[<- <-]|[_ Hj]]%lookup_insert_Some; [by eexists|by apply Hc].
Qed.
Lemma get_debug_info_ok c i f : cache_ok c → fs !! i = Some f →
  ∃ c', get_debug_info idx c i = Ok (c', debug_info_of e f) ∧ cache_ok c'.
Proof using readable in_order idx_entries idx_endian.
  intros Hc Hi. unfold get_debug_info. destruct (debug_infos c !! i) as [d|] eqn:Hd.
  - destruct (proj2 Hc _ _ Hd) as (f' & Hf' & Hfd). simplify_eq. rewrite Hfd. by eexists.
  - rewrite (entry_at _ _ Hi). cbn [mbind res_bind].
    rewrite read_debug_info_ok by (by eapply list_elem_of_lookup_2). destruct (debug_info_of e f) as [d|] eqn:Hfd.
    + eexists. split; [done|]. destruct Hc as [Hc Hc']. split; [exact Hc|]. cbn [debug_infos].
      intros j x [[<- <-]|[_ Hj]]%lookup_insert_Some; [by eexists|by apply Hc'].
    + by eexists.
Qed.
Lemma lookup_by_entry_index_ok c i f o : cache_ok c → fs !! i = Some f →
  ∃ c', lookup_by_entry_index idx c i (function_address f) o = Ok (c', Some (info_of e f o)) ∧ cache_ok c'.
Proof using readable file_small in_order code_small idx_entries idx_endian.
  intros Hc Hi. unfold lookup_by_entry_index.
  destruct (get_function_name_ok c i f Hc Hi) as (c1 & -> & Hc1). cbn [mbind res_bind].
  destruct (get_debug_info_ok c1 i f Hc1 Hi) as (c2 & -> & Hc2). cbn [mbind res_bind]. rewrite (entry_at _ _ Hi).
  cbn [mbind res_bind]. eexists. split; [|done]. do 3 f_equal. unfold info_of. f_equal. f_equal. f_equal.
  pose proof (fs_ranges f ltac:(by eapply list_elem_of_lookup_2)). unfold wrap_u32. rewrite Z.mod_small; [done|].
  change (code_bytes_len (function_entry f)) with (function_len f). lia.
Qed.
Lemma jit_lookup_sync_ok c a : cache_ok c →
  (match a with Relative x => u32_range x | FileOffset x => u64_range x | Svma _ => True end) →
  ∃ c', lookup_sync idx c a = Ok (c', reference_lookup e fs a) ∧ cache_ok c'.
Proof using readable file_small in_order code_small idx_entries idx_addresses idx_endian.
  intros Hc Ha. unfold lookup_sync.
  assert (Forall (λ f, 0 < function_len f) fs) as Hpos.
  { apply Forall_forall. intros f Hf. by apply fs_ranges. }
  destruct a as [a|a|o]; cbn [reference_lookup]; [|by eexists|].
  - unfold lookup_relative_address. rewrite idx_addresses, binary_search_fmap.
    destruct (functions_addresses None 0 0 rs in_order) as (_ & Hs & _).
    pose proof (find_range function_address function_len fs a Hs Hpos) as Hf. cbn [id].
    change (λ x, function_address x) with function_address.
    destruct (position_before _) as [i|]; [|rewrite Hf; by eexists].
    destruct Hf as (f & Hi & Hle & ->). rewrite <- idx_addresses, (address_at _ _ Hi), (entry_at _ _ Hi). cbn [mbind res_bind].
    pose proof (fs_ranges f ltac:(by eapply list_elem_of_lookup_2)).
    assert (wrap_u32 (a - function_address f) = a - function_address f) as ->.
    { unfold wrap_u32. rewrite Z.mod_small; [done|]. unfold u32_range in Ha. lia. }
    change (code_bytes_len (function_entry f)) with (function_len f).
    destruct (function_len f <=? a - function_address f); cbn [mbind res_bind option_bind]; [by eexists|].
    by apply lookup_by_entry_index_ok.
  - unfold lookup_offset. rewrite idx_entries, binary_search_fmap.
    destruct (functions_offsets None 0 0 rs in_order) as (_ & Hs).
    pose proof (find_range function_offset function_len fs o Hs Hpos) as Hf.
    assert (∀ f, f ∈ fs → code_bytes_offset (function_entry f) = function_offset f) as Hoff.
    { intros f Hin. pose proof (fs_ranges f Hin). unfold function_entry, entry_of. cbn. fold (function_offset f).
      unfold add_u64, wrap_u64. fold (function_offset f). rewrite Z.mod_small; [done|]. lia. }
    assert (SymbolTable.binary_search_by_key (λ x, code_bytes_offset (function_entry x)) fs o =
            SymbolTable.binary_search_by_key function_offset fs o) as ->.
    { by apply binary_search_ext. }
    destruct (position_before _) as [i|]; [|rewrite Hf; by eexists].
    destruct Hf as (f & Hi & Hle & ->). rewrite <- idx_entries, (entry_at _ _ Hi). cbn [mbind res_bind].
    pose proof (list_elem_of_lookup_2 _ _ _ Hi) as Hin. pose proof (fs_ranges f Hin). rewrite (Hoff f Hin).
    assert (sub_u64 o (function_offset f) = o - function_offset f) as ->.
    { unfold sub_u64, wrap_u64. rewrite Z.mod_small; [done|]. unfold u64_range in Ha. lia. }
    change (code_bytes_len (function_entry f)) with (function_len f).
    destruct (function_len f <=? o - function_offset f); cbn [mbind res_bind option_bind]; [by eexists|].
    rewrite (address_at _ _ Hi). cbn [mbind res_bind]. by apply lookup_by_entry_index_ok.
Qed.
Lemma jit_iter_from_ok c is_ : cache_ok c → Forall (λ i, (i < length fs)%nat) is_ →
  ∃ c' fs', iter_from idx c is_ = Ok (c', (λ f, (function_address f, function_name f)) <$> fs') ∧ cache_ok c' ∧
    mapM (fs !!.) is_ = Some fs'.
Proof using readable file_small in_order code_small idx_entries idx_addresses.
  intros Hc His. revert c Hc. induction His as [|i is_ Hi _ IH]; intros c Hc; [by exists c, []|].
  apply lookup_lt_is_Some in Hi as [f Hf]. cbn [iter_from mapM]. rewrite (address_at _ _ Hf), Hf. cbn [mbind res_bind].
  destruct (get_function_name_ok c i f Hc Hf) as (c1 & -> & Hc1). cbn [mbind res_bind].
  destruct (IH c1 Hc1) as (c2 & fs' & -> & Hc2 & Hm). exists c2, (f :: fs'). cbn [mbind res_bind].
  split; [done|]. split; [done|]. cbn [mbind option_bind]. by rewrite Hm.
Qed.
Lemma jit_iter_symbols_ok c : cache_ok c →
  ∃ c', iter_symbols idx c = Ok (c', (λ f, (function_address f, function_name f)) <$> fs) ∧ cache_ok c'.
Proof using readable file_small in_order code_small idx_entries idx_addresses.
  intros Hc. unfold iter_symbols, symbol_count. rewrite idx_addresses, length_fmap.
  destruct (jit_iter_from_ok c (seq 0 (length fs)) Hc) as (c' & fs' & -> & Hc' & Hm).
  { apply Forall_seq. lia. }
  exists c'. split; [|done]. do 3 f_equal. apply mapM_Some_1 in Hm. apply list_eq. intros i.
  pose proof (Forall2_length _ _ _ Hm) as Hl. rewrite length_seq in Hl.
  destruct (fs' !! i) as [f|] eqn:Hf; [|symmetry; apply lookup_ge_None; apply lookup_ge_None in Hf; lia].
  destruct (Forall2_lookup_r _ _ _ _ _ Hm Hf) as (j & Hj & Hfs). apply lookup_seq in Hj as [-> _]. done.
Qed.
(** Unsigned addresses. *)
Definition valid_request (r : Request) : Prop :=
  match r with
  | Lookup (Relative a) => u32_range a
  | Lookup (FileOffset o) => u64_range o
  | _ => True
  end.
Lemma jit_run_requests_ok c reqs : cache_ok c → Forall valid_request reqs →
  run_requests idx c reqs = Ok (reference_response e fs <$> reqs).
Proof using readable file_small in_order code_small idx_entries idx_addresses idx_endian.
  intros Hc Hv. revert c Hc. induction Hv as [|[a|] reqs Hr _ IH]; intros c Hc; [done|..]; cbn [run_requests].
  - destruct (jit_lookup_sync_ok c a Hc) as (c' & -> & Hc'); [by destruct a|]. cbn [mbind res_bind]. by rewrite (IH c' Hc').
  - destruct (jit_iter_symbols_ok c Hc) as (c' & -> & Hc'). cbn [mbind res_bind]. by rewrite (IH c' Hc').
Qed.
End requests.

(** Making the index ends, whatever the records; with its entries and addresses. *)
Lemma new_outer_ok : ∃ o, new_outer = Some (Ok o) ∧
  ∀ idx, o = Some idx → ∃ r, new_reader = Some r ∧ endian idx = reader_endian r ∧
    let fs := functions None 0 (records r) in
    entries idx = function_entry <$> fs ∧ relative_addresses idx = (λ f, wrap_u32 (function_address f)) <$> fs.
Proof.
  unfold new_outer. destruct new_reader as [r|] eqn:Hr; [|by eexists]. unfold from_reader.
  unfold JitDump.debug_id_and_code_id_for_jitdump.
  destruct (from_guid_age_16 (take 16 (JitDump.jitdump_id_bytes (header_pid (reader_header r))
    (header_timestamp (reader_header r)) (elf_machine_arch (reader_header r)))) 0) as [id Hid]; [done|].
  rewrite Hid. cbn [unwrap mbind res_bind loops_bind returned].
  destruct (read_records_ok (S (length (records r))) r [] [] 0 None) as (o & Ho & Hall); [lia|].
  change (wrap_u32 0) with 0 in Ho. rewrite Ho. cbn [mbind loops_bind mret loops_ret]. eexists. split; [done|].
  intros idx. destruct o as [[es addresses]|]; [|done]. intros [= <-]. exists r. split; [done|]. split; [done|].
  destruct (Hall es addresses eq_refl) as [-> ->]. done.
Qed.

Lemma new_outer_lengths idx : new_outer = Some (Ok (Some idx)) → length (entries idx) = length (relative_addresses idx).
Proof.
  intros Hi. destruct new_outer_ok as (o & Ho & Hall). rewrite Hi in Ho. injection Ho as <-.
  destruct (Hall idx eq_refl) as (r & _ & _ & -> & ->). by rewrite !length_fmap.
Qed.

(** C12: The symbol map of a jitdump file: making its index ends without a panic, and
    so does any sequence of lookups and listings after it, each answered as if it were
    the first (the caches do not show). If the file can be read and has less than 2^64
    bytes, and the index has been made from records that are in order, of functions
    of at least one byte whose code together has less than 4 GiB, then these answers
    are those of the functions in the file, laid out one after the other: an unsigned
    address (or an offset in the file) that the code of a function covers finds its
    name, size and, from the debug record before it, its line; all others find
    nothing. *)
Theorem jitdump_symbols_answer (reqs : list Request) :
  ∃ o, new_outer = Some (Ok o) ∧
    ∀ idx, o = Some idx → ∃ r answers, new_reader = Some r ∧
      run_requests idx new_cache reqs = Ok answers ∧
      Forall2 (λ q x, run_requests idx new_cache [q] = Ok [x]) reqs answers ∧
      (let fs := functions None 0 (records r) in
       (∀ o n, 0 ≤ o → 0 ≤ n → o + n ≤ slen bytes → is_Some (read_bytes_at o n)) → slen bytes < 2 ^ 64 →
       Forall valid_request reqs → laid_out 0 (records r) → code_size fs < 2 ^ 32 →
       answers = reference_response (reader_endian r) fs <$> reqs).
Proof.
  destruct new_outer_ok as (o & Ho & Hidx). exists o. split; [done|]. intros idx ->.
  pose proof (new_outer_lengths idx Ho) as Hlengths.
  destruct (Hidx idx eq_refl) as (r & Hr & Hend & Hes & Has). exists r, (alone idx <$> reqs). split; [done|].
  pose proof (run_requests_alone idx Hlengths new_cache reqs (new_cache_of_file idx)) as Hrun. split; [done|]. split.
  { apply Forall2_fmap_r, Forall_Forall2_diag, Forall_forall. intros q _.
    exact (run_requests_alone idx Hlengths new_cache [q] (new_cache_of_file idx)). }
  intros fs Hread Hlen Hv Hlaid Hsize. enough (Ok (alone idx <$> reqs) = Ok (reference_response (reader_endian r) fs <$> reqs)) as Heq by (by injection Heq).
  rewrite <- Hrun. apply jit_run_requests_ok; try done.
  rewrite Has. apply list_fmap_ext. intros i f Hf%list_elem_of_lookup_2.
  destruct (functions_addresses None 0 0 (records r) Hlaid) as [Hall _]. rewrite Forall_forall in Hall.
  specialize (Hall f Hf). pose proof (fs_ranges (records r) Hlaid Hsize f Hf). unfold wrap_u32. rewrite Z.mod_small; lia.
Qed.
End jitdump.

(** A file with a debug record and the function that follows it, and a function
    without one. *)
#[local] Existing Instance string_debug_ids.
#[local] Existing Instance string_debug_id_ops.
#[local] Definition example_bytes : string :=
  "<header><debug of f>" +:+ "<record >f<code>" +:+ "<record >gh<code of gh>".
#[local] Instance example_bytes_contents : FileContents example_bytes := slice_contents example_bytes.
#[local] Definition example_records : list FileRecord :=
  [{| record_type := JIT_CODE_DEBUG_INFO; total_size := 12; start_offset := 8; parse_record := Some ParsedOther |};
   {| record_type := JIT_CODE_LOAD; total_size := 16; start_offset := 20;
      parse_record := Some (ParsedCodeLoad
        {| load_name := "f"; load_code_bytes_len := 6; load_code_bytes_offset := 10 |}) |};
   {| record_type := JIT_CODE_LOAD; total_size := 23; start_offset := 36;
      parse_record := Some (ParsedCodeLoad
        {| load_name := "gh"; load_code_bytes_len := 12; load_code_bytes_offset := 11 |}) |}].
(** A reader is a position in the list; the debug records are read as the path of
    their function. *)
#[local, refine] Instance example_file : JitDumpFile example_bytes :=
  {| file_reader := nat; endianness := unit; debug_info := string; new_reader := Some O;
     reader_header _ := {| header_pid := 1; header_timestamp := 2; elf_machine_arch := 3 |};
     reader_endian _ := tt;
     next_record_header n := (n, Some ((λ x, (record_type x, total_size x)) <$> head (drop n example_records)));
     next_record n := (S n, Some (head (drop n example_records)));
     skip_next_record n := (S n, Some (bool_decide (n < 3)%nat));
     next_record_offset n := default 0 (start_offset <$> head (drop n example_records));
     parse_debug_info _ s := Some s; debug_code_addr _ := 4096;
     debug_lookup path avma := Some (path, avma - 4096);
     NAME_OFFSET_FROM_RECORD_START := 9; HEADER_SIZE := 1;
     records n := drop n example_records |}.
Proof.
  - intros n n' h [= <- <-]. split; [done|]. by destruct n as [|[|[|[|n]]]].
  - intros n n' h [= <- <-]. by destruct n as [|[|[|[|n]]]].
  - intros n n' h [= <- <-]. destruct n as [|[|[|[|n]]]]; try done; cbn; by eexists.
  - intros n x Hx%(list_elem_of_In _ _). assert (In x example_records) as Hin.
    { rewrite <- (take_drop n example_records). apply in_app_iff. by right. }
    cbn in Hin. naive_solver.
Defined.
Lemma example_contents_readable o n : 0 ≤ o → 0 ≤ n → o + n ≤ slen example_bytes →
  is_Some (read_bytes_at (bytes := example_bytes) o n).
Proof.
  intros. cbn [read_bytes_at example_bytes_contents slice_contents]. unfold read_slice.
  rewrite (proj2 (Z.leb_le o _)), (proj2 (Z.leb_le n _)) by lia. by eexists.
Qed.
Example jitdump_symbols_answer_witness :
  let f := {| symbol := {| address := 0; size := Some 6; symbol_name := "f" |};
              frames := Some (Available [{| function := Some "f";
                file_path := Some (MappedPath.new_path "debug of f>" None); line_number := Some 5 |}]) |} in
  let g := {| symbol := {| address := 6; size := Some 12; symbol_name := "gh" |}; frames := None |} in
  ∃ idx, new_outer = Some (Ok (Some idx)) ∧
    run_requests idx new_cache
      [Lookup (Relative 5); Lookup (FileOffset 47); Lookup (Relative 18); Iterate; Lookup (Relative 5)] =
    Ok [Found (Some f); Found (Some g); Found None; Symbols [(0, "f"); (6, "gh")]; Found (Some f)].
Proof.
  intros f g. set (reqs := [_; _; _; _; _]).
  assert (Forall valid_request reqs) as Hv by (unfold reqs; repeat constructor; cbn; lia).
  destruct (jitdump_symbols_answer (bytes := example_bytes) reqs) as (o & Ho & Hall).
  assert (Hnew := Ho). vm_compute in Hnew. injection Hnew as Heq. destruct o as [idx|]; [|done]. exists idx. split; [done|].
  destruct (Hall idx eq_refl) as (r & answers & [= <-] & Hrun & _ & Hans). rewrite Hrun.
  rewrite (Hans example_contents_readable); [by vm_compute|done|exact Hv|..].
  - change (laid_out 0 example_records). unfold example_records. cbn [laid_out]. unfold record_ok.
    split_and!; try (vm_compute; done); cbn [parse_record].
    all: try (intros l [= <-]; split_and!; by vm_compute).
  - by vm_compute.
Defined.
(** A function without code has the address of the next one, and can be found in its
    place: the first byte of the last of these functions is not found. *)
#[local] Definition entry_of_length (n : Z) : JitDumpIndexEntry :=
  {| code_load_record_offset := 0; code_bytes_offset := 0; name_len := 1;
     code_debug_info_record_offset_and_len := None; code_bytes_len := n |}.
Example empty_code_hides_next :
  lookup_relative_address (bytes := example_bytes)
    {| endian := tt; entries := entry_of_length <$> [4; 0; 4]; relative_addresses := [0; 4; 4];
       index_debug_id := "AAA" |} 4 = Ok None.
Proof. by vm_compute. Qed.
End JitDumpMap.
