(* ===== verification/ExternalFiles.v ===== *)
(** Frames from DWARF debug information (the conversion of the frames of the addr2line
    crate in samply-symbols/src/dwarf.rs), and the object files and archives that have
    the debug information of a linked file: samply-symbols/src/external_file.rs. *)
From S2P Require Import Prelude RustStr Demangle LineBuffer Nom MappedPath SymbolMaps.
From stdpp Require Import options.
Open Scope Z_scope.

(** A frame of addr2line: its function, if it has one, with a name that can be
    unreadable, and its location, of which each part can be missing. *)
Record RawFrame := {
  raw_function : option (option string);
  raw_location : option (option string * option Z)
}.
(** The frames an iterator yields, and whether it ends without an error. *)
Notation frame_iter := (list RawFrame * bool)%type.

(** A [Context] of addr2line. Of lookups that skip what has to be loaded, its
    caches do not show. *)
Class Addr2line := {
  a2l_context : Type;
  find_frames_skipping_loads : a2l_context → Z → option frame_iter
}.

Module DwarfFrames.
Import Nom PathMapper SymbolMaps.

Notation mapper := (@PathMapper.PathMapper ()).

Section frames.
Context `{Nom} `{Demanglers}.

Definition function_of (f : RawFrame) : res (option string) :=
  match raw_function f with
  | Some (Some name) => demangled ← Demangle.demangle_any name; Ok (Some demangled)
  | _ => Ok None
  end.
Definition convert_stack_frame (f : RawFrame) (path_mapper : mapper) : res (FrameDebugInfo * mapper) :=
  function' ← function_of f;
  let '(file_path', path_mapper') :=
    match location ← raw_location f; fst location with
    | Some file =>
        let '(mapped_path, path_mapper') := map_path path_mapper file in
        (Some (MappedPath.new_path file mapped_path), path_mapper')
    | None => (None, path_mapper)
    end in
  Ok ({| function := function'; file_path := file_path';
         line_number := location ← raw_location f; snd location |}, path_mapper').
Fixpoint convert_each (fs : list RawFrame) (path_mapper : mapper) : res (list FrameDebugInfo * mapper) :=
  match fs with
  | [] => Ok ([], path_mapper)
  | f :: fs' =>
      '(frame, m1) ← convert_stack_frame f path_mapper;
      '(rest, m2) ← convert_each fs' m1;
      Ok (frame :: rest, m2)
  end.
Definition convert_frames (it : frame_iter) (path_mapper : mapper)
    : res (option (list FrameDebugInfo) * mapper) :=
  '(frames, m) ← convert_each it.1 path_mapper;
  Ok (if it.2 then match frames with [] => None | _ => Some frames end else None, m).
Definition get_frames `{Addr2line} (address' : Z) (context : option a2l_context) (path_mapper : mapper)
    : res (option (list FrameDebugInfo) * mapper) :=
  match c ← context; find_frames_skipping_loads c address' with
  | None => Ok (None, path_mapper)
  | Some it => convert_frames it path_mapper
  end.

(** * Without the cache of the mapper *)
Definition plain_frame (f : RawFrame) : res FrameDebugInfo :=
  function' ← function_of f;
  Ok {| function := function';
        file_path := file ← (location ← raw_location f; fst location);
                     Some (MappedPath.new_path file (map_raw_path file));
        line_number := location ← raw_location f; snd location |}.
Fixpoint plain_each (fs : list RawFrame) : res (list FrameDebugInfo) :=
  match fs with
  | [] => Ok []
  | f :: fs' => frame ← plain_frame f; rest ← plain_each fs'; Ok (frame :: rest)
  end.
Definition plain_frames (it : frame_iter) : res (option (list FrameDebugInfo)) :=
  frames ← plain_each it.1; Ok (if it.2 then match frames with [] => None | _ => Some frames end else None).
(** A mapper as it is made for a symbol map, after any lookups. *)
Definition mapper_ok (m : mapper) : Prop := cache_ok m ∧ extra_mapper m = None.
(** A computation that answers [r] and keeps the mapper in order. *)
Definition answers_with {A} (x : res (A * mapper)) (r : res A) : Prop :=
  match r with
  | Ok a => ∃ m, x = Ok (a, m) ∧ mapper_ok m
  | Panic => x = Panic
  end.
Lemma new_mapper_ok : mapper_ok new_mapper.
Proof. split; [|done]. intros raw v. unfold new_mapper. cbn [cache new_with_maybe_extra_mapper]. by rewrite lookup_empty. Qed.
Lemma convert_stack_frame_ok f m : mapper_ok m → answers_with (convert_stack_frame f m) (plain_frame f).
Proof.
  intros [Hc He]. unfold convert_stack_frame, plain_frame. destruct (function_of f) as [fn|]; [|done]. cbn [mbind res_bind].
  destruct (raw_location f) as [[[file|] line]|]; cbn [mbind option_bind fst snd]; [|by exists m|by exists m].
  pose proof (map_path_ok m file Hc) as Hp. rewrite He in Hp. destruct (map_path m file) as [mapped m'].
  destruct Hp as (Hc' & He' & ->). by exists m'.
Qed.
Lemma convert_each_ok fs m : mapper_ok m → answers_with (convert_each fs m) (plain_each fs).
Proof.
  revert m. induction fs as [|f fs IH]; intros m Hm; [by exists m|]. cbn [convert_each plain_each].
  pose proof (convert_stack_frame_ok f m Hm) as Hf. destruct (plain_frame f) as [frame|]; [|by rewrite Hf].
  destruct Hf as (m1 & -> & Hm1). cbn [mbind res_bind]. specialize (IH m1 Hm1).
  destruct (plain_each fs) as [rest|]; [|by rewrite IH]. destruct IH as (m2 & -> & Hm2). by exists m2.
Qed.
Lemma convert_frames_ok it m : mapper_ok m → answers_with (convert_frames it m) (plain_frames it).
Proof.
  intros Hm. unfold convert_frames, plain_frames. pose proof (convert_each_ok it.1 m Hm) as Hf.
  destruct (plain_each it.1) as [frames|]; [|by rewrite Hf]. destruct Hf as (m1 & -> & Hm1). by exists m1.
Qed.
Definition plain_frames_at `{Addr2line} (address' : Z) (context : option a2l_context)
    : res (option (list FrameDebugInfo)) :=
  match c ← context; find_frames_skipping_loads c address' with
  | None => Ok None
  | Some it => plain_frames it
  end.
Lemma get_frames_ok `{Addr2line} address' context m :
  mapper_ok m → answers_with (get_frames address' context m) (plain_frames_at address' context).
Proof.
  intros Hm. unfold get_frames, plain_frames_at. destruct (_ ≫= _) as [it|]; [by apply convert_frames_ok|by exists m].
Qed.
(** Where there are frames, there is at least one. *)
Lemma plain_frames_nonempty it fs : plain_frames it = Ok (Some fs) → fs ≠ [].
Proof.
  unfold plain_frames. destruct (plain_each it.1) as [frames|]; [|done]. cbn [mbind res_bind].
  destruct it.2; [|done]. by destruct frames; intros [= <-].
Qed.
End frames.
End DwarfFrames.

(** The object crate, as it reads the bytes of a file. *)
Inductive ExternalFileKind := ExternalMachO | ExternalArchive | ExternalOther.
Class ExternalObjects `{Addr2line} := {
  external_file_kind : string → option ExternalFileKind;
  (** The object in a range of a file: an addr2line context, if one can be made, and
      the names, if they can be read, and addresses of its symbols. *)
  parse_object_in : string → Z → Z → option (option a2l_context * list (option string * Z));
  (** The members of an archive: each an error or a name and a range. *)
  parse_archive : string → option (list (option (string * (Z * Z))))
}.

Module ExternalFiles.
Import Nom PathMapper SymbolMaps DwarfFrames LineBuffer(slen).

Inductive ExternalFileError :=
| CouldNotDetermineExternalFileFileKind | MachOHeaderParseError | ParseErrorInExternalArchive
| UnexpectedExternalFileFileKind.
Notation result A := (ExternalFileError + A)%type.

Section external.
Context `{Nom} `{Demanglers} `{ExternalObjects}.

Record ExternalFileMemberContext := {
  context : option a2l_context;
  symbol_addresses : gmap string Z
}.
Definition member_lookup (c : ExternalFileMemberContext) (symbol_name : string) (offset_from_symbol : Z)
    (path_mapper : mapper) : res (option (list FrameDebugInfo) * mapper) :=
  match symbol_addresses c !! symbol_name with
  | None => Ok (None, path_mapper)
  | Some symbol_address => get_frames (add_u64 symbol_address offset_from_symbol) (context c) path_mapper
  end.

Inductive ExternalFileMemberContexts :=
| SingleObject (c : ExternalFileMemberContext)
| Archive (member_ranges : gmap string (Z * Z)) (contexts : gmap string ExternalFileMemberContext).
Record ExternalFileSymbolMap := {
  external_file_path : string;
  file_contents : string;
  member_contexts : ExternalFileMemberContexts;
  path_mapper : mapper
}.
Definition with_mapper (x : ExternalFileSymbolMap) (c : ExternalFileMemberContexts) (m : mapper)
    : ExternalFileSymbolMap :=
  {| external_file_path := external_file_path x; file_contents := file_contents x; member_contexts := c;
     path_mapper := m |}.

(** Collecting into a hash map: the last of equal names counts. *)
Definition collect_symbols (symbols : list (option string * Z)) : gmap string Z :=
  foldl (λ m '(name, address'), match name with Some n => <[n := address']> m | None => m end) ∅ symbols.
Definition make_single_context (parsed : option a2l_context * list (option string * Z))
    : ExternalFileMemberContext :=
  {| context := fst parsed; symbol_addresses := collect_symbols (snd parsed) |}.
Definition make_member_context (contents : string) (offset_and_size : Z * Z)
    : result ExternalFileMemberContext :=
  match parse_object_in contents (fst offset_and_size) (snd offset_and_size) with
  | None => inl MachOHeaderParseError
  | Some parsed => inr (make_single_context parsed)
  end.
Fixpoint collect_members (members : list (option (string * (Z * Z)))) (member_ranges : gmap string (Z * Z))
    : result (gmap string (Z * Z)) :=
  match members with
  | [] => inr member_ranges
  | None :: _ => inl ParseErrorInExternalArchive
  | Some (file_path', range) :: members' => collect_members members' (<[file_path' := range]> member_ranges)
  end.
Definition make_inner (contents : string) : result ExternalFileMemberContexts :=
  match external_file_kind contents with
  | None => inl CouldNotDetermineExternalFileFileKind
  | Some ExternalMachO =>
      match parse_object_in contents 0 (slen contents) with
      | None => inl MachOHeaderParseError
      | Some parsed => inr (SingleObject (make_single_context parsed))
      end
  | Some ExternalArchive =>
      match parse_archive contents with
      | None => inl ParseErrorInExternalArchive
      | Some members =>
          match collect_members members ∅ with
          | inl e => inl e
          | inr member_ranges => inr (Archive member_ranges ∅)
          end
      end
  | Some ExternalOther => inl UnexpectedExternalFileFileKind
  end.
(** [ExternalFileSymbolMap::new]. *)
Definition new_external (path contents : string) : result ExternalFileSymbolMap :=
  match make_inner contents with
  | inl e => inl e
  | inr c =>
      inr {| external_file_path := path; file_contents := contents; member_contexts := c;
             path_mapper := new_mapper |}
  end.

Definition lookup_external_address (x : ExternalFileSymbolMap) (a : ExternalFileAddressInFileRef)
    : res (ExternalFileSymbolMap * option (list FrameDebugInfo)) :=
  match member_contexts x, a with
  | SingleObject c, MachoOsoObject symbol_name' offset_from_symbol =>
      '(frames', m) ← member_lookup c symbol_name' offset_from_symbol (path_mapper x);
      Ok (with_mapper x (SingleObject c) m, frames')
  | Archive member_ranges contexts, MachoOsoArchive name_in_archive symbol_name' offset_from_symbol =>
      match contexts !! name_in_archive with
      | Some c =>
          '(frames', m) ← member_lookup c symbol_name' offset_from_symbol (path_mapper x);
          Ok (with_mapper x (Archive member_ranges contexts) m, frames')
      | None =>
          match member_ranges !! name_in_archive with
          | None => Ok (x, None)
          | Some range =>
              match make_member_context (file_contents x) range with
              | inl _ => Ok (x, None)
              | inr c =>
                  '(frames', m) ← member_lookup c symbol_name' offset_from_symbol (path_mapper x);
                  Ok (with_mapper x (Archive member_ranges (<[name_in_archive := c]> contexts)) m, frames')
              end
          end
      end
  | _, _ => Ok (x, None)
  end.

(** * What a file says about an address *)
Definition plain_member_lookup (c : ExternalFileMemberContext) (symbol_name' : string) (offset_from_symbol : Z)
    : res (option (list FrameDebugInfo)) :=
  match symbol_addresses c !! symbol_name' with
  | None => Ok None
  | Some symbol_address => plain_frames_at (add_u64 symbol_address offset_from_symbol) (context c)
  end.
Definition plain_external (contents : string) (a : ExternalFileAddressInFileRef)
    : res (option (list FrameDebugInfo)) :=
  match make_inner contents, a with
  | inr (SingleObject c), MachoOsoObject symbol_name' offset_from_symbol =>
      plain_member_lookup c symbol_name' offset_from_symbol
  | inr (Archive member_ranges _), MachoOsoArchive name_in_archive symbol_name' offset_from_symbol =>
      match range ← member_ranges !! name_in_archive;
            match make_member_context contents range with inr c => Some c | inl _ => None end with
      | Some c => plain_member_lookup c symbol_name' offset_from_symbol
      | None => Ok None
      end
  | _, _ => Ok None
  end.
(** The contexts that are kept are those of the file. *)
Definition external_ok (x : ExternalFileSymbolMap) : Prop :=
  mapper_ok (path_mapper x) ∧
  match member_contexts x with
  | SingleObject c => make_inner (file_contents x) = inr (SingleObject c)
  | Archive member_ranges contexts =>
      make_inner (file_contents x) = inr (Archive member_ranges ∅) ∧
      ∀ name c, contexts !! name = Some c →
        ∃ range, member_ranges !! name = Some range ∧ make_member_context (file_contents x) range = inr c
  end.
Lemma member_lookup_ok c name o m :
  mapper_ok m → answers_with (member_lookup c name o m) (plain_member_lookup c name o).
Proof.
  intros Hm. unfold member_lookup, plain_member_lookup. destruct (_ !! _); [by apply get_frames_ok|by exists m].
Qed.
Lemma make_inner_archive contents ranges contexts :
  make_inner contents = inr (Archive ranges contexts) → contexts = ∅.
Proof.
  unfold make_inner. destruct (external_file_kind contents) as [[| |]|]; try done.
  - by destruct (parse_object_in _ _ _).
  - destruct (parse_archive contents) as [members|]; [|done]. destruct (collect_members members ∅); [done|].
    by intros [= _ <-].
Qed.
Lemma new_external_ok path contents x :
  new_external path contents = inr x →
  external_ok x ∧ file_contents x = contents ∧ external_file_path x = path.
Proof.
  unfold new_external. destruct (make_inner contents) as [e|c] eqn:Hc; [done|]. intros [= <-]. split; [|done].
  split; [apply new_mapper_ok|]. cbn. destruct c as [c|ranges contexts]; [done|].
  pose proof (make_inner_archive _ _ _ Hc) as ->. split; [done|]. intros name c. by rewrite lookup_empty.
Qed.
(** A lookup answers what the file says, and panics only in demangling. *)
Lemma lookup_external_ok x a :
  external_ok x →
  match plain_external (file_contents x) a with
  | Panic => lookup_external_address x a = Panic
  | Ok o => ∃ x', lookup_external_address x a = Ok (x', o) ∧ external_ok x' ∧
      file_contents x' = file_contents x ∧ external_file_path x' = external_file_path x
  end.
Proof.
  intros [Hm Hx]. assert (external_ok x) as Hok by by split.
  unfold lookup_external_address, plain_external. destruct (member_contexts x) as [c|ranges contexts] eqn:Hc.
  - rewrite Hx. destruct a as [name o|member name o|]; [|by exists x..].
    pose proof (member_lookup_ok c name o _ Hm) as Ha. destruct (plain_member_lookup c name o) as [fs|]; [|by rewrite Ha].
    destruct Ha as (m & -> & Hm'). eexists. split; [done|]. by split.
  - destruct Hx as [Hmake Hctx]. rewrite Hmake. destruct a as [name o|member name o|]; [by exists x| |by exists x].
    destruct (contexts !! member) as [c|] eqn:Hmember.
    + destruct (Hctx _ _ Hmember) as (range & -> & Hr). cbn [mbind option_bind]. rewrite Hr.
      pose proof (member_lookup_ok c name o _ Hm) as Ha. destruct (plain_member_lookup c name o) as [fs|]; [|by rewrite Ha].
      destruct Ha as (m & -> & Hm'). eexists. split; [done|]. by split.
    + destruct (ranges !! member) as [range|] eqn:Hrange; cbn [mbind option_bind]; [|by exists x].
      destruct (make_member_context (file_contents x) range) as [e|c] eqn:Hmc; [by exists x|].
      pose proof (member_lookup_ok c name o _ Hm) as Ha. destruct (plain_member_lookup c name o) as [fs|]; [|by rewrite Ha].
      destruct Ha as (m & -> & Hm'). eexists. split; [done|]. split; [|done]. split; [done|]. cbn. split; [done|].
      intros n c'. rewrite lookup_insert_Some. intros [[<- <-]|[_ Hn]]; [by exists range|by apply Hctx].
Qed.
End external.
End ExternalFiles.
