(* ===== verification/ObjectSymbolMap.v ===== *)
(** Symbols and frames of an object file, and of the files it refers to: the symbol
    list, the file ranges and [ObjectSymbolMapInner] of
    samply-symbols/src/symbol_map_object.rs. *)
From S2P Require Import Prelude SymbolTable LibTable RustStr ObjectFiles Demangle Nom MappedPath SymbolMaps.
From S2P Require Import BreakpadSymbolMap BreakpadFunc ExternalFiles.
From stdpp Require Import options.
Open Scope Z_scope.

(** * What the object crate tells about a file *)
Inductive SectionKind := TextSection | UninitializedData | OtherSection.
Inductive SymbolKind := TextSymbol | LabelSymbol | OtherSymbol.
Record FileSection := {
  file_section_index : nat;
  file_section_kind : SectionKind;
  (** [SectionFlags::Elf]. *)
  elf_sh_flags : option Z;
  file_section_address : Z;
  file_section_size : Z;
  file_section_range : option (Z * Z)
}.
Record FileSymbol := {
  file_symbol_address : Z;
  file_symbol_size : Z;
  file_symbol_kind : SymbolKind;
  file_symbol_section : option nat;
  name_bytes : option string
}.
Record Export := { export_address : Z; export_name : string }.
Record FileObject := {
  file_segments : list ObjectSegment;
  file_sections : list FileSection;
  file_symbols : list FileSymbol;
  dynamic_symbols : list FileSymbol;
  exports : option (list Export);
  entry_address : Z
}.

Module SymbolList.

Inductive FullSymbolListEntry :=
| Synthesized | SynthesizedEntryPoint
| SymbolEntry (s : FileSymbol)
| ExportEntry (e : Export)
| EndAddress.
Definition entry_name (x : FullSymbolListEntry) (addr : Z) : option string :=
  match x with
  | EndAddress => None
  | Synthesized => Some ("fun_" +:+ hex_digits 16 addr "")
  | SynthesizedEntryPoint => Some "EntryPoint"
  | SymbolEntry s => name ← name_bytes s; Some (Utf8.from_utf8_lossy name)
  | ExportEntry e => Some (Utf8.from_utf8_lossy (export_name e))
  end.
Definition counts_as_proper_symbol (x : FullSymbolListEntry) : bool :=
  match x with SymbolEntry _ | ExportEntry _ => true | _ => false end.

Notation entry := (Z * FullSymbolListEntry)%type.
Notation SymbolList := (list entry).

(** [checked_sub] of u64 and [u32::try_from]. *)
Definition checked_u32 (z : Z) : option Z := if z <? 2 ^ 32 then Some z else None.
Definition relative (address' base_address : Z) : option Z := a ← checked_sub address' base_address; checked_u32 a.
Definition checked_add_u64 (a b : Z) : option Z := if a + b <? 2 ^ 64 then Some (a + b) else None.

Definition SHF_EXECINSTR : Z := 4.
Definition is_executable_section (s : FileSection) : bool :=
  match file_section_kind s, elf_sh_flags s with
  | TextSection, _ => true
  | UninitializedData, Some sh_flags => negb (Z.land sh_flags SHF_EXECINSTR =? 0)
  | _, _ => false
  end.
Definition executable_sections (o : FileObject) : list nat :=
  file_section_index <$> List.filter is_executable_section (file_sections o).
Definition is_function_symbol (executable : list nat) (s : FileSymbol) : bool :=
  if file_symbol_address s =? 0 then false
  else
    match file_symbol_kind s with
    | TextSymbol => true
    | LabelSymbol => negb (file_symbol_size s =? 0)
    | OtherSymbol => false
    end &&
    match file_symbol_section s with Some i => bool_decide (i ∈ executable) | None => false end.
Definition symbol_entries (o : FileObject) (base_address : Z) : list entry :=
  omap (λ s, a ← relative (file_symbol_address s) base_address; Some (a, SymbolEntry s))
    (List.filter (is_function_symbol (executable_sections o)) (file_symbols o ++ dynamic_symbols o)).
Definition export_entries (o : FileObject) (base_address : Z) : list entry :=
  (λ e, (wrap_u32 (sub_u64 (export_address e) base_address), ExportEntry e)) <$> default [] (exports o).
Definition start_entries (function_start_addresses : option (list Z)) : list entry :=
  (λ a, (a, Synthesized)) <$> default [] function_start_addresses.
Definition entry_point_entries (o : FileObject) (base_address : Z) : list entry :=
  match checked_sub (entry_address o) base_address with
  | Some entry_point => [(wrap_u32 entry_point, SynthesizedEntryPoint)]
  | None => []
  end.
Definition section_end_entries (o : FileObject) (base_address : Z) : list entry :=
  omap (λ s, vma_end_address ← checked_add_u64 (file_section_address s) (file_section_size s);
             a ← relative vma_end_address base_address; Some (a, EndAddress))
    (List.filter (λ s, match file_section_kind s with TextSection => true | _ => false end) (file_sections o)).
Definition is_sized_text (s : FileSymbol) : bool :=
  match file_symbol_kind s with TextSymbol => true | _ => false end &&
  negb (file_symbol_address s =? 0) && negb (file_symbol_size s =? 0).
Definition symbol_end_entries (o : FileObject) (base_address : Z) : list entry :=
  omap (λ s, e ← checked_add_u64 (file_symbol_address s) (file_symbol_size s);
             a ← relative e base_address; Some (a, EndAddress))
    (List.filter is_sized_text (file_symbols o)).
Definition end_entries (function_end_addresses : option (list Z)) : list entry :=
  (λ a, (a, EndAddress)) <$> default [] function_end_addresses.
(** From best to worst. *)
Definition all_entries (o : FileObject) (base_address : Z) (starts ends : option (list Z)) : list entry :=
  symbol_entries o base_address ++ export_entries o base_address ++ start_entries starts ++
  entry_point_entries o base_address ++ section_end_entries o base_address ++
  symbol_end_entries o base_address ++ end_entries ends.
Definition entry_leb (x y : entry) : bool := fst x <=? fst y.
Definition of_entries (es : list entry) : SymbolList := SymbolTable.dedup_by_key fst (stable_sort entry_leb es).
Definition new_list (o : FileObject) (base_address : Z) (starts ends : option (list Z)) : SymbolList :=
  of_entries (all_entries o base_address starts ends).

Definition lookup_relative_address (l : SymbolList) (address' : Z) : res (option (Z * Z * string)) :=
  match BreakpadSymbolMap.position_before (SymbolTable.binary_search_by_key fst l address') with
  | None => Ok None
  | Some i =>
      '(start_addr, x) ← index l i;
      Ok ('(end_addr, _) ← l !! S i;
          name ← match x with EndAddress => None | _ => entry_name x start_addr end;
          Some (start_addr, end_addr, name))
  end.
(** [SymbolMapIter]. *)
Definition symbol_names (l : SymbolList) : list (Z * string) :=
  omap (λ '(a, x), name ← entry_name x a; Some (a, name)) l.
Definition symbol_count (l : SymbolList) : nat := length (List.filter (λ x, counts_as_proper_symbol (snd x)) l).

(** * File ranges *)
Record SvmaFileRange := { svma : Z; file_offset : Z; range_size : Z }.
Definition from_segment (segment : ObjectSegment) : SvmaFileRange :=
  {| svma := segment_address segment; file_offset := segment_file_offset segment;
     range_size := segment_file_size segment |}.
Definition from_section (section : FileSection) : option SvmaFileRange :=
  '(file_offset', size') ← file_section_range section;
  Some {| svma := file_section_address section; file_offset := file_offset'; range_size := size' |}.
Definition from_object (o : FileObject) : list SvmaFileRange :=
  match from_segment <$> file_segments o with
  | [] => omap from_section (file_sections o)
  | ranges => ranges
  end.
Fixpoint file_offset_to_svma (ranges : list SvmaFileRange) (offset : Z) : option Z :=
  match ranges with
  | [] => None
  | r :: ranges' =>
      if (file_offset r <=? offset) && (offset <? add_u64 (file_offset r) (range_size r)) then
        checked_add_u64 (svma r) (offset - file_offset r)
      else file_offset_to_svma ranges' offset
  end.

(** * Sorting keeps the first entry of an address *)
Definition at_address (a : Z) (x : entry) : bool := fst x =? a.
Lemma find_insert a x l : StronglySorted (λ x y : entry, entry_leb x y = true) l →
  List.find (at_address a) (insert_sorted entry_leb x l) =
  if at_address a x then Some x else List.find (at_address a) l.
Proof.
  unfold at_address, entry_leb. induction 1 as [|y l Hs IH Hy]; [done|]. cbn [insert_sorted].
  destruct (Z.leb_spec (fst x) (fst y)); [done|]. cbn [List.find]. rewrite IH.
  destruct (Z.eqb_spec (fst y) a), (Z.eqb_spec (fst x) a); try done. lia.
Qed.
Lemma entry_leb_trans x y z : entry_leb x y = true → entry_leb y z = true → entry_leb x z = true.
Proof. unfold entry_leb. rewrite !Z.leb_le. lia. Qed.
Lemma entry_leb_total x y : entry_leb x y = true ∨ entry_leb y x = true.
Proof. unfold entry_leb. rewrite !Z.leb_le. lia. Qed.
Lemma entries_sorted es : StronglySorted (λ x y : entry, entry_leb x y = true) (stable_sort entry_leb es).
Proof. apply stable_sort_sorted; [apply entry_leb_trans|apply entry_leb_total]. Qed.
Lemma find_stable_sort a es : List.find (at_address a) (stable_sort entry_leb es) = List.find (at_address a) es.
Proof.
  induction es as [|x es IH]; [done|]. change (stable_sort entry_leb (x :: es)) with
    (insert_sorted entry_leb x (stable_sort entry_leb es)).
  rewrite find_insert by apply entries_sorted. cbn [List.find]. by rewrite IH.
Qed.
Lemma find_dedup_from a (last : entry) l : fst last ≠ a →
  List.find (at_address a) (SymbolTable.dedup_from fst last l) = List.find (at_address a) l.
Proof.
  revert last. induction l as [|x l IH]; intros last Hne; [done|]. cbn [SymbolTable.dedup_from].
  unfold at_address. destruct (Z.eqb_spec (fst x) (fst last)) as [Heq|Hd]; cbn [List.find].
  - rewrite (proj2 (Z.eqb_neq (fst x) a)) by congruence. by apply IH.
  - destruct (Z.eqb_spec (fst x) a); [done|]. by apply IH.
Qed.
Lemma find_dedup a l : List.find (at_address a) (SymbolTable.dedup_by_key fst l) = List.find (at_address a) l.
Proof.
  destruct l as [|x l]; [done|]. cbn. unfold at_address at 1 3. destruct (Z.eqb_spec (fst x) a); [done|].
  by apply find_dedup_from.
Qed.
Lemma dedup_entries_sorted (last : entry) l :
  StronglySorted (λ x y : entry, entry_leb x y = true) (last :: l) →
  StronglySorted (λ x y : entry, fst x < fst y) (last :: SymbolTable.dedup_from fst last l).
Proof.
  revert last. induction l as [|x l IH]; intros last Hs; [by repeat constructor|]. cbn [SymbolTable.dedup_from].
  apply StronglySorted_cons in Hs as [Hlast Hs]. apply Forall_cons in Hlast as [Hx Hlast]. unfold entry_leb in Hx.
  destruct (Z.eqb_spec (fst x) (fst last)) as [Heq|Hne].
  - apply IH. apply StronglySorted_cons in Hs as [_ Hs]. by apply StronglySorted_cons.
  - specialize (IH x Hs). apply StronglySorted_cons. split; [|done]. apply StronglySorted_cons in IH as [Hall _].
    assert (fst last < fst x) by (apply Z.leb_le in Hx; lia). constructor; [done|].
    eapply Forall_impl; [exact Hall|]. cbn. lia.
Qed.
Lemma of_entries_sorted es : StronglySorted (λ x y : entry, fst x < fst y) (of_entries es).
Proof.
  unfold of_entries. pose proof (entries_sorted es) as Hs. destruct (stable_sort entry_leb es) as [|x l]; [constructor|].
  by apply dedup_entries_sorted.
Qed.
(** Of each address, the first of its entries is kept. *)
Lemma of_entries_find a es : List.find (at_address a) (of_entries es) = List.find (at_address a) es.
Proof. unfold of_entries. by rewrite find_dedup, find_stable_sort. Qed.
Lemma find_at_Some a es x : List.find (at_address a) es = Some x → x ∈ es ∧ fst x = a.
Proof. intros [Hin Ha]%List.find_some. split; [by apply list_elem_of_In|]. by apply Z.eqb_eq. Qed.
Lemma in_entries es a : a ∈ es.*1 ↔ is_Some (List.find (at_address a) es).
Proof.
  split.
  - intros (x & -> & Hx)%list_elem_of_fmap. destruct (List.find (at_address (fst x)) es) as [y|] eqn:Hf; [by eexists|].
    apply list_elem_of_In, (List.find_none _ _ Hf) in Hx. unfold at_address in Hx. by rewrite Z.eqb_refl in Hx.
  - intros [x [Hx <-]%find_at_Some]. apply list_elem_of_fmap. by exists x.
Qed.
Lemma of_entries_addresses es a : a ∈ (of_entries es).*1 ↔ a ∈ es.*1.
Proof. by rewrite !in_entries, of_entries_find. Qed.

(** What a list of entries, from best to worst, says about an address: it is in
    the range from [s] up to the next entry at [e], and the best entry at [s] is not
    an end and has the name [n]. *)
Definition covers (es : list entry) (a : Z) (found : Z * Z * string) : Prop :=
  let '(s, e, n) := found in
  s ≤ a < e ∧ e ∈ es.*1 ∧ (∀ k, k ∈ es.*1 → k ≤ s ∨ e ≤ k) ∧
  ∃ x, List.find (at_address s) es = Some (s, x) ∧ entry_name x s = Some n.
Lemma find_lookup (l : SymbolList) i s x : StronglySorted (λ x y : entry, fst x < fst y) l →
  l !! i = Some (s, x) → List.find (at_address s) l = Some (s, x).
Proof.
  intros Hs. revert i. induction Hs as [|y l Hs IH Hy]; intros i Hi; [done|]. cbn [List.find]. destruct i as [|i].
  - injection Hi as ->. unfold at_address. cbn. by rewrite Z.eqb_refl.
  - rewrite Forall_forall in Hy. cbn in Hi. specialize (Hy _ (list_elem_of_lookup_2 _ _ _ Hi)). cbn in Hy.
    unfold at_address at 1. rewrite (proj2 (Z.eqb_neq _ _)) by lia. by eapply IH.
Qed.
Lemma next_symbol_entry (l : SymbolList) i s x e y k z : StronglySorted (λ x y : entry, fst x < fst y) l →
  l !! i = Some (s, x) → l !! S i = Some (e, y) → (k, z) ∈ l → k ≤ s ∨ e ≤ k.
Proof.
  intros Hs Hi He [j Hj]%list_elem_of_lookup. destruct (lt_eq_lt_dec j i) as [[Hlt| ->]|Hgt].
  - pose proof (SymbolTable.sorted_lookup fst l j i _ _ Hs Hj Hi Hlt). cbn in *. lia.
  - rewrite Hi in Hj. injection Hj as -> ->. lia.
  - destruct (decide (j = S i)) as [->|]; [rewrite He in Hj; injection Hj as -> ->; lia|].
    pose proof (SymbolTable.sorted_lookup fst l (S i) j _ _ Hs He Hj ltac:(lia)). cbn in *. lia.
Qed.
Lemma lookup_covers (es : list entry) a :
  ∃ o, lookup_relative_address (of_entries es) a = Ok o ∧ ∀ found, o = Some found ↔ covers es a found.
Proof.
  pose proof (of_entries_sorted es) as Hs. unfold lookup_relative_address. set (l := of_entries es) in *.
  assert (∀ k, k ∈ es.*1 → ∃ x, (k, x) ∈ l) as Hkeys.
  { intros k ([k' x] & -> & Hx)%of_entries_addresses%list_elem_of_fmap. by exists x. }
  pose proof (BreakpadFunc.position_before_last fst l a Hs) as Hpos.
  destruct (BreakpadSymbolMap.position_before _) as [i|].
  - destruct Hpos as ([s x] & Hi & Hle & Hmax & Hafter). unfold index. rewrite Hi. cbn [unwrap mbind res_bind].
    eexists. split; [done|]. intros [[s' e'] n]. cbn [fst] in Hle, Hmax.
    assert (List.find (at_address s) es = Some (s, x)) as Hfind.
    { rewrite <- of_entries_find. by eapply find_lookup. }
    destruct (l !! S i) as [[e y]|] eqn:He; cbn [mbind option_bind].
    + pose proof (Hafter (S i) _ He ltac:(lia)) as Hae. cbn in Hae.
      assert (e ∈ es.*1) as Hein.
      { apply of_entries_addresses, list_elem_of_fmap. exists (e, y). split; [done|]. by eapply list_elem_of_lookup_2. }
      assert (∀ k, k ∈ es.*1 → k ≤ s ∨ e ≤ k) as Hgap.
      { intros k Hk. destruct (Hkeys k Hk) as [z Hz]. exact (next_symbol_entry l i s x e y k z Hs Hi He Hz). }
      trans (s' = s ∧ e' = e ∧ entry_name x s = Some n).
      { assert (match x with EndAddress => None | _ => entry_name x s end = entry_name x s) as -> by by destruct x.
        destruct (entry_name x s); naive_solver. }
      unfold covers. split.
      * intros (-> & -> & Hn). split; [lia|]. split; [done|]. split; [done|]. by exists x.
      * intros ([Hs1 Hs2] & He' & Hgap' & z & Hz & Hn).
        assert (s' = s) as ->.
        { assert (s' ≤ s); [|assert (s ∈ es.*1) as [?|?]%Hgap'; [|lia..]].
          - destruct (find_at_Some _ _ _ Hz) as [Hin _]. destruct (Hgap s'); [|lia..].
            apply list_elem_of_fmap. by exists (s', z).
          - apply list_elem_of_fmap. exists (s, x). split; [done|]. by eapply find_at_Some. }
        rewrite Hfind in Hz. injection Hz as ->. split; [done|]. split; [|done].
        destruct (Hgap e' He'), (Hgap' e Hein); lia.
    + split; [done|]. intros ([Hs1 Hs2] & He' & _). exfalso. destruct (Hkeys e' He') as [z [j Hj]%list_elem_of_lookup].
      assert (j ≤ i)%nat as Hji. { apply lookup_ge_None in He. apply lookup_lt_Some in Hj. lia. }
      destruct (decide (j = i)) as [->|]; [rewrite Hi in Hj; injection Hj as -> ->; lia|].
      pose proof (SymbolTable.sorted_lookup fst l j i _ _ Hs Hj Hi ltac:(lia)). cbn in *. lia.
  - exists None. split; [done|]. intros [[s e] n]. split; [done|]. intros ([Hs1 Hs2] & _ & _ & x & Hx & _).
    destruct (find_at_Some _ _ _ Hx) as [Hin _]. destruct (Hkeys s) as [z Hz]; [|by specialize (Hpos _ Hz); cbn in Hpos; lia].
    apply list_elem_of_fmap. by exists (s, x).
Qed.

(** C11: The function an object file has at an address: of the entries from symbols,
    dynamic symbols, exports, unwind information, the entry point and the ends of
    sections and functions, the last one at or before the address decides, and of
    several there the best (the first in that order): the address is found if that
    is the start of a function with a name, which reaches up to the next entry; the
    search never panics. *)
Theorem symbol_list_lookup (o : FileObject) (base_address : Z) (starts ends : option (list Z)) (a : Z) :
  ∃ r, lookup_relative_address (new_list o base_address starts ends) a = Ok r ∧
    ∀ found, r = Some found ↔ covers (all_entries o base_address starts ends) a found.
Proof. apply lookup_covers. Qed.

(** A function ends where the next entry begins; behind the last entry there is
    nothing, so a last function without an end is never found. *)
Example last_function_lost :
  let es := [(16, Synthesized); (32, ExportEntry {| export_address := 32; export_name := "f" |})] in
  lookup_relative_address (of_entries es) 20 = Ok (Some (16, 32, "fun_10")) ∧
  lookup_relative_address (of_entries es) 32 = Ok None ∧
  lookup_relative_address (of_entries (es ++ [(48, EndAddress)])) 47 = Ok (Some (32, 48, "f")).
Proof. by vm_compute. Qed.
End SymbolList.

(** * addr2line with split DWARF

    A lookup ends with frames or an error, or with a part that has to be loaded;
    it is resumed with that part, or without if there is none, and the context
    remembers it. *)
Record SplitDwarfLoad := { load_dwo_id : Z; load_comp_dir : option string; load_path : option string }.
Inductive LookupResult (C D : Type) :=
| Load (load : SplitDwarfLoad) (resume : option D → C * LookupResult C D)
| Output (frames : option frame_iter).
Arguments Load {C D}.
Arguments Output {C D}.
Class SplitDwarf := {
  split_context : Type;
  dwarf : Type;
  find_frames : split_context → Z → LookupResult split_context dwarf;
  (** [DwarfPackage::find_cu]: an error, or perhaps the unit. *)
  dwarf_package : Type;
  find_cu : dwarf_package → SplitDwarfLoad → option (option dwarf);
  (** With the parent. *)
  make_dwo : dwarf → SplitDwarfLoad → dwarf
}.
(** An entry of the object map of a mach-O file. *)
Record ObjectMapEntry := {
  map_entry_address : Z;
  map_entry_name : string;
  map_entry_path : string;
  map_entry_member : option string
}.

Module ObjectSymbolMap.
Import RustStr Nom PathMapper SymbolMaps DwarfFrames ExternalFiles.

Definition available (fs : option (list FrameDebugInfo)) : option FramesLookupResult := Available <$> fs.

Section object.
Context `{DebugIdType} `{Nom} `{Demanglers} `{ExternalObjects} `{SplitDwarf}.

(** What does not change after a map is made. *)
Record ObjectInfo := {
  list' : list (Z * SymbolList.FullSymbolListEntry);
  object_debug_id : DebugId;
  object_map : Z → option ObjectMapEntry;
  object_dwp : option dwarf_package;
  (** [DwoDwarfMaker]: a loaded file as DWARF, an error, or nothing if files cannot be
      added. *)
  add_dwo_and_make_dwarf : File → option (option dwarf);
  svma_file_ranges : list SymbolList.SvmaFileRange;
  image_base_address : Z
}.
Record ObjectSymbolMapInner := {
  info : ObjectInfo;
  path_mapper : mapper;
  context : option split_context;
  cached_external_file : option ExternalFileSymbolMap
}.
Definition with_lookup (x : ObjectSymbolMapInner) (c : option split_context) (m : mapper) : ObjectSymbolMapInner :=
  {| info := info x; path_mapper := m; context := c; cached_external_file := cached_external_file x |}.
Definition with_external (x : ObjectSymbolMapInner) (f : option ExternalFileSymbolMap) : ObjectSymbolMapInner :=
  {| info := info x; path_mapper := path_mapper x; context := context x; cached_external_file := f |}.
(** [ObjectSymbolMapInnerWrapper::new]. *)
Definition new_object_map (o : FileObject) (base_address : Z) (c : option split_context)
    (dwp : option dwarf_package) (id : DebugId) (entries : Z → option ObjectMapEntry)
    (starts ends : option (list Z)) (dwo_dwarf_maker : File → option (option dwarf)) : ObjectSymbolMapInner :=
  {| info := {| list' := SymbolList.new_list o base_address starts ends; object_debug_id := id;
                object_map := entries; object_dwp := dwp; add_dwo_and_make_dwarf := dwo_dwarf_maker;
                svma_file_ranges := SymbolList.from_object o; image_base_address := base_address |};
     path_mapper := new_mapper; context := c; cached_external_file := None |}.

Definition frames_lookup_for_object_map_references (i : ObjectInfo) (svma : Z) : option FramesLookupResult :=
  entry ← object_map i svma;
  file_path' ← Utf8.from_utf8 (map_entry_path entry);
  let offset_from_symbol := wrap_u32 (sub_u64 svma (map_entry_address entry)) in
  address_in_file' ←
    match map_entry_member entry with
    | Some member =>
        name_in_archive ← Utf8.from_utf8 member;
        Some (MachoOsoArchive name_in_archive (map_entry_name entry) offset_from_symbol)
    | None => Some (MachoOsoObject (map_entry_name entry) offset_from_symbol)
    end;
  Some (External {| file_ref := MachoExternalObject file_path'; address_in_file := address_in_file' |}).

(** [ExternalFileAddressRef::with_split_dwarf_load] and
    [matches_split_dwarf_load]. *)
Definition with_split_dwarf_load (load : SplitDwarfLoad) (svma : Z) : res ExternalFileAddressRef :=
  comp_dir ← unwrap (load_comp_dir load);
  path ← unwrap (load_path load);
  Ok {| file_ref := ElfExternalDwo (Utf8.from_utf8_lossy comp_dir) (Utf8.from_utf8_lossy path);
        address_in_file := ElfDwo (load_dwo_id load) svma |}.
Definition matches_split_dwarf_load (external : ExternalFileAddressRef) (load : SplitDwarfLoad) : bool :=
  match file_ref external, address_in_file external with
  | ElfExternalDwo comp_dir path, ElfDwo dwo_id _ =>
      bool_decide (Some comp_dir = load_comp_dir load) && bool_decide (Some path = load_path load) &&
      (dwo_id =? load_dwo_id load)
  | _, _ => false
  end.

(** The three forms of an address: the stated address and the relative one. *)
Definition addresses_of (i : ObjectInfo) (a : LookupAddress) : option (Z * Z) :=
  match a with
  | Relative relative_address =>
      svma ← SymbolList.checked_add_u64 (image_base_address i) relative_address; Some (svma, relative_address)
  | Svma svma => relative_address ← SymbolList.relative svma (image_base_address i); Some (svma, relative_address)
  | FileOffset offset =>
      svma ← SymbolList.file_offset_to_svma (svma_file_ranges i) offset;
      relative_address ← SymbolList.relative svma (image_base_address i); Some (svma, relative_address)
  end.

(** The loop of [lookup_sync], which feeds the units of the dwp package. *)
Fixpoint sync_frames (i : ObjectInfo) (svma : Z) (c : split_context) (m : mapper)
    (r : LookupResult split_context dwarf) : res (split_context * mapper * option FramesLookupResult) :=
  match r with
  | Load load resume =>
      match dwp ← object_dwp i; find_cu dwp load with
      | Some maybe_cu => match resume maybe_cu with (c', r') => sync_frames i svma c' m r' end
      | None => external ← with_split_dwarf_load load svma; Ok (c, m, Some (External external))
      end
  | Output (Some it) => '(fs, m') ← convert_frames it m; Ok (c, m', available fs)
  | Output None => Ok (c, m, frames_lookup_for_object_map_references i svma)
  end.
Definition lookup_sync (x : ObjectSymbolMapInner) (a : LookupAddress)
    : res (ObjectSymbolMapInner * option SyncAddressInfo) :=
  match addresses_of (info x) a with
  | None => Ok (x, None)
  | Some (svma, relative_address) =>
      found ← SymbolList.lookup_relative_address (list' (info x)) relative_address;
      match found with
      | None => Ok (x, None)
      | Some (start_addr, end_addr, name) =>
          name' ← Demangle.demangle_any name;
          let symbol' := {| address := start_addr; size := Some (wrap_u32 (end_addr - start_addr));
                            symbol_name := name' |} in
          '(x', frames') ←
            match context x with
            | None => Ok (x, None)
            | Some c =>
                '(c', m, fs) ← sync_frames (info x) svma c (path_mapper x) (find_frames c svma);
                Ok (with_lookup x (Some c') m, fs)
            end;
          let frames'' := match frames' with
                          | None => frames_lookup_for_object_map_references (info x) svma
                          | Some fs => Some fs
                          end in
          Ok (x', Some {| symbol := symbol'; frames := frames'' |})
      end
  end.

(** * External files *)
Inductive ExternalLookupRequest :=
| ReplyIfYouHaveOrTellMeWhatYouNeed
| UseThisMaybeAndReplyOrTellMeWhatElseYouNeed (file_contents : option File).
(** The loop of [try_lookup_external_impl] for split DWARF. *)
Fixpoint dwo_frames (i : ObjectInfo) (external : ExternalFileAddressRef) (svma : Z) (c : split_context) (m : mapper)
    (request : ExternalLookupRequest) (r : LookupResult split_context dwarf)
    : res (split_context * mapper * option FramesLookupResult) :=
  match r with
  | Load load resume =>
      match (if matches_split_dwarf_load external load then request else ReplyIfYouHaveOrTellMeWhatYouNeed) with
      | ReplyIfYouHaveOrTellMeWhatYouNeed =>
          external' ← with_split_dwarf_load load svma; Ok (c, m, Some (External external'))
      | UseThisMaybeAndReplyOrTellMeWhatElseYouNeed file_contents =>
          let maybe_dwarf := contents ← file_contents; d ← add_dwo_and_make_dwarf i contents; d' ← d; Some (make_dwo d' load) in
          match resume maybe_dwarf with
          | (c', r') => dwo_frames i external svma c' m ReplyIfYouHaveOrTellMeWhatYouNeed r'
          end
      end
  | Output (Some it) => '(fs, m') ← convert_frames it m; Ok (c, m', available fs)
  | Output None => Ok (c, m, None)
  end.
Definition try_lookup_external_impl (x : ObjectSymbolMapInner) (external : ExternalFileAddressRef)
    (request : ExternalLookupRequest) : res (ObjectSymbolMapInner * option FramesLookupResult) :=
  match file_ref external with
  | MachoExternalObject file_path' =>
      match f ← cached_external_file x; if bool_decide (external_file_path f = file_path') then Some f else None with
      | Some f =>
          '(f', fs) ← lookup_external_address f (address_in_file external);
          Ok (with_external x (Some f'), available fs)
      | None =>
          match request with
          | ReplyIfYouHaveOrTellMeWhatYouNeed => Ok (x, Some (External external))
          | UseThisMaybeAndReplyOrTellMeWhatElseYouNeed None => Ok (x, None)
          | UseThisMaybeAndReplyOrTellMeWhatElseYouNeed (Some file_contents) =>
              match new_external file_path' (file_bytes file_contents) with
              | inl _ => Ok (x, None)
              | inr f =>
                  '(f', fs) ← lookup_external_address f (address_in_file external);
                  Ok (with_external x (Some f'), available fs)
              end
          end
      end
  | ElfExternalDwo _ _ =>
      match context x, address_in_file external with
      | Some c, ElfDwo _ svma =>
          '(c', m, fs) ← dwo_frames (info x) external svma c (path_mapper x) request (find_frames c svma);
          Ok (with_lookup x (Some c') m, fs)
      | _, _ => Ok (x, None)
      end
  end.
End object.
End ObjectSymbolMap.
