(* ===== verification/ExternalLookups.v ===== *)
(** Symbol maps and what they need of files: [SymbolMap] of
    samply-symbols/src/symbol_map.rs, the interfaces of shared.rs, error.rs. *)
From S2P Require Import Prelude SymbolTable LibTable SyntheticJit RustStr ObjectFiles CodeIds Demangle LineBuffer Nom.
From S2P Require Import MappedPath SymbolMaps BreakpadRecords ExternalFiles ObjectSymbolMap.
From stdpp Require Import options.
Open Scope Z_scope.

(** [LibraryInfo]: what is known about a library. *)
Module LibraryInfo.
Section info.
Context `{DebugIdType}.
Record LibraryInfo := {
  debug_name : option string;
  debug_id : option DebugId;
  debug_path : option string;
  name : option string;
  code_id : option CodeIds.CodeId;
  path : option string;
  arch : option string
}.
Definition absorb (self other : LibraryInfo) : LibraryInfo :=
  let fill {A} (a b : option A) := match a with None => b | Some x => Some x end in
  {| debug_name := fill (debug_name self) (debug_name other); debug_id := fill (debug_id self) (debug_id other);
     debug_path := fill (debug_path self) (debug_path other); name := fill (name self) (name other);
     code_id := fill (code_id self) (code_id other); path := fill (path self) (path other);
     arch := fill (arch self) (arch other) |}.
End info.
End LibraryInfo.

Inductive CandidatePathInfo (L : Type) :=
| SingleFile (location : L)
| InDyldCache (dyld_cache_path : L) (dylib_path : string).
Arguments SingleFile {L}.
Arguments InDyldCache {L}.
Inductive MultiArchDisambiguator `{DebugIdType} :=
| Arch (arch : string) | BestMatch (archs : list string) | BestMatchForNative | DisambiguateDebugId (id : DebugId).

(** A symbol map, with what it keeps between two calls (behind a [Mutex]). *)
Record SymbolMapTrait `{DebugIdType} := {
  trait_caches : Type;
  trait_state : trait_caches;
  trait_debug_id : DebugId;
  trait_symbol_count : nat;
  trait_symbols : trait_caches → loops (list (Z * string) * trait_caches);
  trait_lookup_sync : trait_caches → SymbolMaps.LookupAddress → loops (option SymbolMaps.SyncAddressInfo * trait_caches)
}.
Definition with_trait_state `{DebugIdType} (t : SymbolMapTrait) (c : trait_caches t) : SymbolMapTrait :=
  {| trait_caches := trait_caches t; trait_state := c; trait_debug_id := trait_debug_id t;
     trait_symbol_count := trait_symbol_count t; trait_symbols := trait_symbols t;
     trait_lookup_sync := trait_lookup_sync t |}.

(** [FileAndPathHelper] and [FileLocation], implemented by the caller of the crate.
    Errors are [None]. *)
Class Helper `{DebugIdType} := {
  location : Type;
  location_string : location → string;
  location_for_external_object_file : location → string → option location;
  location_for_source_file : location → string → option location;
  location_for_breakpad_symindex : location → option location;
  location_for_dwo : location → string → string → option location;
  location_for_dwp : location → option location;
  load_file : location → option File;
  get_candidate_paths_for_debug_file : LibraryInfo.LibraryInfo → option (list (CandidatePathInfo location));
  get_candidate_paths_for_gnu_debug_link_dest : location → string → option (list location);
  get_candidate_paths_for_supplementary_debug_file : location → string → list Z → option (list location);
  get_candidate_paths_for_binary : LibraryInfo.LibraryInfo → option (list (CandidatePathInfo location));
  get_symbol_map_for_library : LibraryInfo.LibraryInfo → option (location * SymbolMapTrait)
}.

Module SymbolMap.
Import RustStr Nom SymbolMaps DwarfFrames ExternalFiles ObjectSymbolMap.

Inductive FileKind := Elf32 | Elf64 | MachO32 | MachO64 | MachOFat32 | MachOFat64 | Pe32 | Pe64 | OtherKind.
Inductive Error `{DebugIdType} :=
| UnmatchedDebugId (expected received : DebugId)
| UnmatchedDebugIdOptional (expected : DebugId) (received : option DebugId)
| UnmatchedCodeId (expected : CodeIds.CodeId) (received : option CodeIds.CodeId)
| BreakpadError (e : SymbolMaps.Error)
| JitDumpFileReading
| NotEnoughInformationToIdentifyBinary
| NotEnoughInformationToIdentifySymbolMap
| FileLocationRefusedSourceFileLocation
| InvalidInputError (what : string)
| ObjectParseError (file_kind : FileKind)
| DebugLinkCrcMismatch (actual expected : Z)
| HelperErrorDuringGetCandidatePathsForDebugFile (info : LibraryInfo.LibraryInfo)
| HelperErrorDuringGetCandidatePathsForBinary
| HelperErrorDuringOpenFile (file : string)
| HelperErrorDuringFileReading (file : string)
| NoCandidatePathForBinary (name : option string) (id : option DebugId)
| NoCandidatePathForDebugFile (info : LibraryInfo.LibraryInfo)
| NoSuccessfulCandidate (errors : list Error)
| InvalidBreakpadId (id : string)
| FormatError (what : string).
Notation result A := (Error + A)%type.

(** * Symbol maps *)
Section maps.
Context `{DebugIdType} `{Nom} `{Demanglers} `{ExternalObjects} `{!SplitDwarf} `{!Helper}.

(** [GetInnerSymbolMap], of the maps of the crate. *)
Inductive PlainSymbolMap := AnsweringMap (answers : SymbolMapTrait) | ObjectMap (object : ObjectSymbolMapInner).
Inductive InnerSymbolMap :=
| WithoutAddFile (inner : PlainSymbolMap)
| WithAddFile (inner : ObjectSymbolMapInner)
| Direct (inner : SymbolMapTrait).
Record SymbolMap := {
  debug_file_location : location;
  inner : InnerSymbolMap;
  (** [helper.is_some()]. *)
  has_helper : bool
}.
Definition new_plain (l : location) (t : PlainSymbolMap) : SymbolMap :=
  {| debug_file_location := l; inner := WithoutAddFile t; has_helper := false |}.
Definition new_with_external_file_support (l : location) (x : ObjectSymbolMapInner) : SymbolMap :=
  {| debug_file_location := l; inner := WithAddFile x; has_helper := true |}.
Definition with_symbol_map_trait (l : location) (t : SymbolMapTrait) : SymbolMap :=
  {| debug_file_location := l; inner := Direct t; has_helper := false |}.
Definition with_inner_map (m : SymbolMap) (i : InnerSymbolMap) : SymbolMap :=
  {| debug_file_location := debug_file_location m; inner := i; has_helper := has_helper m |}.
Definition with_inner (m : SymbolMap) (x : ObjectSymbolMapInner) : SymbolMap := with_inner_map m (WithAddFile x).
Definition debug_id_of (m : SymbolMap) : DebugId :=
  match inner m with
  | WithoutAddFile (AnsweringMap t) | Direct t => trait_debug_id t
  | WithoutAddFile (ObjectMap x) | WithAddFile x => object_debug_id (info x)
  end.
Definition symbol_count (m : SymbolMap) : nat :=
  match inner m with
  | WithoutAddFile (AnsweringMap t) | Direct t => trait_symbol_count t
  | WithoutAddFile (ObjectMap x) | WithAddFile x => SymbolList.symbol_count (list' (info x))
  end.
(** What a map answers, and the map with its caches after that. *)
Definition iter_trait (t : SymbolMapTrait) : loops (SymbolMapTrait * list (Z * string)) :=
  '(symbols, c) ← trait_symbols t (trait_state t); returned (Ok (with_trait_state t c, symbols)).
Definition lookup_trait (t : SymbolMapTrait) (a : LookupAddress) : loops (SymbolMapTrait * option SyncAddressInfo) :=
  '(r, c) ← trait_lookup_sync t (trait_state t) a; returned (Ok (with_trait_state t c, r)).
Definition iter_symbols (m : SymbolMap) : loops (SymbolMap * list (Z * string)) :=
  match inner m with
  | WithoutAddFile (AnsweringMap t) =>
      '(t', symbols) ← iter_trait t; returned (Ok (with_inner_map m (WithoutAddFile (AnsweringMap t')), symbols))
  | Direct t => '(t', symbols) ← iter_trait t; returned (Ok (with_inner_map m (Direct t'), symbols))
  | WithoutAddFile (ObjectMap x) | WithAddFile x => returned (Ok (m, SymbolList.symbol_names (list' (info x))))
  end.
Definition lookup_sync (m : SymbolMap) (a : LookupAddress) : loops (SymbolMap * option SyncAddressInfo) :=
  match inner m with
  | WithoutAddFile (AnsweringMap t) =>
      '(t', r) ← lookup_trait t a; returned (Ok (with_inner_map m (WithoutAddFile (AnsweringMap t')), r))
  | Direct t => '(t', r) ← lookup_trait t a; returned (Ok (with_inner_map m (Direct t'), r))
  | WithoutAddFile (ObjectMap x) =>
      '(x', r) ← returned (ObjectSymbolMap.lookup_sync x a);
      returned (Ok (with_inner_map m (WithoutAddFile (ObjectMap x')), r))
  | WithAddFile x => '(x', r) ← returned (ObjectSymbolMap.lookup_sync x a); returned (Ok (with_inner m x', r))
  end.

(** The file of a reference, if it can be loaded. *)
Definition load_external (l : location) (external : ExternalFileAddressRef) : option File :=
  l' ← match file_ref external with
       | MachoExternalObject file_path' => location_for_external_object_file l file_path'
       | ElfExternalDwo comp_dir path => location_for_dwo l comp_dir path
       end;
  load_file l'.
(** The loop that loads files until the frames are known. *)
Fixpoint resolve (fuel : nat) (l : location) (x : ObjectSymbolMapInner) (external : ExternalFileAddressRef)
    : loops (ObjectSymbolMapInner * option (list FrameDebugInfo)) :=
  match fuel with
  | O => None
  | S fuel' =>
      let contents := load_external l external in
      '(x', r) ← returned (try_lookup_external_impl x external
                              (UseThisMaybeAndReplyOrTellMeWhatElseYouNeed contents));
      match r with
      | Some (Available fs) => returned (Ok (x', Some fs))
      | None => returned (Ok (x', None))
      | Some (External external') => resolve fuel' l x' external'
      end
  end.
Record AddressInfo := { info_symbol : SymbolInfo; info_frames : option (list FrameDebugInfo) }.
Definition lookup (fuel : nat) (m : SymbolMap) (a : LookupAddress) : loops (SymbolMap * option AddressInfo) :=
  '(m1, r) ← lookup_sync m a;
  match r with
  | None => returned (Ok (m1, None))
  | Some address_info =>
      let known fs := Some {| info_symbol := symbol address_info; info_frames := fs |} in
      match frames address_info, inner m1 with
      | Some (Available fs), _ => returned (Ok (m1, known (Some fs)))
      | Some (External external), WithAddFile x =>
          if has_helper m1 then
            '(x', fs) ← resolve fuel (debug_file_location m1) x external;
            returned (Ok (with_inner m1 x', known fs))
          else returned (Ok (m1, None))
      | _, _ => returned (Ok (m1, known None))
      end
  end.
Definition lookup_external (fuel : nat) (m : SymbolMap) (external : ExternalFileAddressRef)
    : loops (SymbolMap * option (list FrameDebugInfo)) :=
  if has_helper m then
    match inner m with
    | WithAddFile x =>
        '(x1, r) ← returned (try_lookup_external_impl x external ReplyIfYouHaveOrTellMeWhatYouNeed);
        match r with
        | Some (Available fs) => returned (Ok (with_inner m x1, Some fs))
        | None => returned (Ok (with_inner m x1, None))
        | Some (External external') =>
            '(x2, fs) ← resolve fuel (debug_file_location m) x1 external';
            returned (Ok (with_inner m x2, fs))
        end
    | _ => returned (Ok (m, None))
    end
  else returned (Ok (m, None)).

(** * Frames of external mach-O files *)

(** What the file of a reference says, if it can be loaded. *)
Definition is_macho (external : ExternalFileAddressRef) : bool :=
  match file_ref external with MachoExternalObject _ => true | ElfExternalDwo _ _ => false end.
Definition external_frames (l : location) (external : ExternalFileAddressRef)
    : res (option (list FrameDebugInfo)) :=
  match load_external l external with
  | Some f => plain_external (file_bytes f) (address_in_file external)
  | None => Ok None
  end.
(** The file that is kept is the one at its path. *)
Definition cached_ok (l : location) (x : ObjectSymbolMapInner) : Prop :=
  match cached_external_file x with
  | None => True
  | Some f => external_ok f ∧
      ∃ file l', location_for_external_object_file l (external_file_path f) = Some l' ∧ load_file l' = Some file ∧
        file_bytes file = ExternalFiles.file_contents f
  end.
(** A step that answers [r] and leaves the map as it was but for its caches. *)
Definition step_ok {A} (l : location) (x : ObjectSymbolMapInner) (y : res (ObjectSymbolMapInner * A)) (r : res A) : Prop :=
  match r with
  | Panic => y = Panic
  | Ok a => ∃ x', y = Ok (x', a) ∧ cached_ok l x' ∧ info x' = info x ∧ context x' = context x ∧
      ObjectSymbolMap.path_mapper x' = ObjectSymbolMap.path_mapper x
  end.
Lemma ask_cached l x f p a request : cached_ok l x → cached_external_file x = Some f → external_file_path f = p →
  step_ok l x (try_lookup_external_impl x {| file_ref := MachoExternalObject p; address_in_file := a |} request)
    (available <$> external_frames l {| file_ref := MachoExternalObject p; address_in_file := a |}).
Proof.
  intros Hc Hf <-. unfold cached_ok in Hc. rewrite Hf in Hc. destruct Hc as (Hok & file & l' & Hl & Hload & Hbytes).
  unfold try_lookup_external_impl, external_frames, load_external. cbn [file_ref address_in_file]. rewrite Hl. cbn [mbind option_bind].
  rewrite Hload, Hf. cbn [mbind option_bind]. rewrite bool_decide_eq_true_2 by done. rewrite Hbytes.
  pose proof (lookup_external_ok f a Hok) as Ha. destruct (plain_external _ a) as [o|]; [|by rewrite Ha].
  destruct Ha as (f' & -> & Hok' & Hfc & Hfp). cbn [mbind res_bind fmap res_fmap step_ok]. eexists. split; [done|].
  split; [|done]. unfold cached_ok. cbn [cached_external_file with_external]. split; [done|]. exists file, l'.
  by rewrite Hfp, Hfc.
Qed.
Lemma cached_or_not x p :
  (∃ f, cached_external_file x = Some f ∧ external_file_path f = p) ∨
  (f ← cached_external_file x; if bool_decide (external_file_path f = p) then Some f else None) = None.
Proof.
  destruct (cached_external_file x) as [f|]; [|by right]. cbn [mbind option_bind].
  case_bool_decide; [left; by eexists|by right].
Qed.
Lemma ask_with_file l x p a : cached_ok l x →
  let external := {| file_ref := MachoExternalObject p; address_in_file := a |} in
  step_ok l x (try_lookup_external_impl x external
      (UseThisMaybeAndReplyOrTellMeWhatElseYouNeed (load_external l external)))
    (available <$> external_frames l external).
Proof.
  intros Hc external. destruct (cached_or_not x p) as [(f & Hf & Hp)|Hnone]; [by eapply ask_cached|].
  unfold try_lookup_external_impl, external_frames. cbn [file_ref address_in_file external]. rewrite Hnone.
  destruct (load_external l external) as [file|] eqn:Hload; cbn [fmap option_fmap option_map res_fmap];
    [|eexists; split; [done|]; by split].
  destruct (new_external p (file_bytes file)) as [e|f] eqn:Hnew.
  - assert (plain_external (file_bytes file) a = Ok None) as ->.
    { unfold new_external in Hnew. unfold plain_external. by destruct (make_inner _). }
    eexists. split; [done|]. by split.
  - destruct (new_external_ok _ _ _ Hnew) as (Hok & Hfc & Hfp). pose proof (lookup_external_ok f a Hok) as Ha.
    rewrite Hfc in Ha. destruct (plain_external (file_bytes file) a) as [o|]; [|by rewrite Ha].
    destruct Ha as (f' & -> & Hok' & Hfc' & Hfp'). eexists. split; [done|]. split; [|done].
    unfold cached_ok. cbn [cached_external_file with_external]. split; [done|]. rewrite Hfp', Hfp.
    unfold load_external in Hload. cbn [external file_ref] in Hload.
    destruct (location_for_external_object_file l p) as [l'|]; [|done]. exists file, l'. by rewrite Hfc'.
Qed.
(** The same for a computation with loops; only the caches of the map change. *)
Definition ends_with {A} (l : location) (x : ObjectSymbolMapInner) (y : loops (ObjectSymbolMapInner * A)) (r : res A) : Prop :=
  match r with
  | Panic => y = Some Panic
  | Ok a => ∃ x', y = Some (Ok (x', a)) ∧ cached_ok l x' ∧ info x' = info x ∧ context x' = context x
  end.
Lemma resolve_ok fuel l x external : (1 ≤ fuel)%nat → cached_ok l x → is_macho external = true →
  ends_with l x (resolve fuel l x external) (external_frames l external).
Proof.
  intros Hfuel Hc Hm. destruct fuel as [|fuel]; [lia|]. cbn [resolve].
  destruct external as [[p|] a]; [|done]. pose proof (ask_with_file l x p a Hc) as Ha. cbn zeta in Ha.
  destruct (external_frames l _) as [o|]; cbn [step_ok fmap res_fmap] in Ha; [|by rewrite Ha].
  destruct Ha as (x' & -> & Hc' & Hinfo & Hctx & _). cbn [returned mbind loops_bind]. destruct o; by exists x'.
Qed.
Lemma lookup_external_step fuel m x external : (1 ≤ fuel)%nat → inner m = WithAddFile x → has_helper m = true →
  cached_ok (debug_file_location m) x → is_macho external = true →
  match external_frames (debug_file_location m) external with
  | Panic => lookup_external fuel m external = Some Panic
  | Ok o => ∃ x', lookup_external fuel m external = Some (Ok (with_inner m x', o)) ∧
      cached_ok (debug_file_location m) x' ∧ info x' = info x ∧ context x' = context x
  end.
Proof.
  intros Hfuel Hi Hh Hc Hm. unfold lookup_external. rewrite Hh, Hi. set (l := debug_file_location m) in *.
  destruct external as [[p|] a]; [|done]. destruct (cached_or_not x p) as [(f & Hf & Hp)|Hnone].
  - pose proof (ask_cached l x f p a ReplyIfYouHaveOrTellMeWhatYouNeed Hc Hf Hp) as Ha.
    destruct (external_frames l _) as [o|]; cbn [step_ok fmap res_fmap] in Ha; [|by rewrite Ha].
    destruct Ha as (x' & -> & Hc' & Hinfo & Hctx & _). cbn [returned mbind loops_bind]. destruct o; by exists x'.
  - unfold try_lookup_external_impl. cbn [file_ref]. rewrite Hnone. cbn [returned mbind loops_bind].
    pose proof (resolve_ok fuel l x {| file_ref := MachoExternalObject p; address_in_file := a |} Hfuel Hc Hm) as Hr.
    destruct (external_frames l _) as [o|]; [|by rewrite Hr]. destruct Hr as (x' & -> & Hr). by exists x'.
Qed.
Fixpoint lookup_externals (fuel : nat) (m : SymbolMap) (es : list ExternalFileAddressRef)
    : loops (list (option (list FrameDebugInfo))) :=
  match es with
  | [] => returned (Ok [])
  | e :: es' => '(m', fs) ← lookup_external fuel m e; rest ← lookup_externals fuel m' es'; returned (Ok (fs :: rest))
  end.
(** A map as it is made: nothing is kept yet. *)
Definition fresh (m : SymbolMap) : Prop :=
  has_helper m = true ∧ match inner m with WithAddFile x => cached_external_file x = None | _ => False end.

(** C9: Lookups of addresses in external mach-O files and archives find what these
    files say, whichever file was asked last and is still kept: any sequence of them
    is answered as if each loaded its file anew (and panics only where demangling a
    name of that file panics), loading at most one file each; and a lookup of an
    address whose frames are in such a file finds the same. *)
Theorem external_lookups_answer (fuel : nat) (m : SymbolMap) :
  (1 ≤ fuel)%nat → fresh m →
  (∀ es, Forall (λ e, is_macho e = true) es →
     lookup_externals fuel m es = Some (mapM (external_frames (debug_file_location m)) es)) ∧
  (∀ a m1 info e, lookup_sync m a = Some (Ok (m1, Some info)) → frames info = Some (External e) → is_macho e = true →
     match external_frames (debug_file_location m) e with
     | Panic => lookup fuel m a = Some Panic
     | Ok fs => ∃ m2, lookup fuel m a = Some (Ok (m2, Some {| info_symbol := symbol info; info_frames := fs |}))
     end).
Proof.
  intros Hfuel [Hh Hf]. destruct (inner m) as [|x|] eqn:Hi; [done| |done].
  assert (cached_ok (debug_file_location m) x) as Hc by (unfold cached_ok; by rewrite Hf). split.
  - intros es Hes. clear Hf. revert m x Hh Hi Hc. induction Hes as [|e es He _ IH]; intros m x Hh Hi Hc; [done|].
    cbn [lookup_externals mapM]. pose proof (lookup_external_step fuel m x e Hfuel Hi Hh Hc He) as Hl.
    destruct (external_frames _ e) as [o|]; [|by rewrite Hl]. destruct Hl as (x' & -> & Hc' & _).
    cbn [mbind loops_bind res_bind]. rewrite (IH (with_inner m x') x'); [|done..].
    change (debug_file_location (with_inner m x')) with (debug_file_location m).
    by destruct (mapM (external_frames (debug_file_location m)) es).
  - intros a m1 ai e Hl Hfr He. unfold lookup. rewrite Hl. cbn [mbind loops_bind]. rewrite Hfr.
    unfold lookup_sync in Hl. rewrite Hi in Hl.
    destruct (ObjectSymbolMap.lookup_sync x a) as [[x1 r]|] eqn:Hx; [|done]. cbn [returned mbind loops_bind] in Hl. injection Hl as <- ->. cbn [inner with_inner with_inner_map].
    cbn [has_helper with_inner with_inner_map]. rewrite Hh. cbn [debug_file_location with_inner with_inner_map].
    assert (cached_ok (debug_file_location m) x1) as Hc1.
    { unfold cached_ok. enough (cached_external_file x1 = None) as -> by done. rewrite <- Hf. revert Hx.
      unfold ObjectSymbolMap.lookup_sync. destruct (addresses_of _ _) as [[svma rel]|]; [|by intros [= <- _]].
      destruct (SymbolList.lookup_relative_address _ _) as [[[[s e'] n]|]|]; [|by intros [= <- _]|done].
      cbn [mbind res_bind]. destruct (Demangle.demangle_any n); [|done]. cbn [mbind res_bind].
      destruct (context x) as [c|]; [|by intros [= <- _]]. destruct (sync_frames _ _ _ _ _) as [[[c' m'] fs]|]; [|done].
      by intros [= <- _]. }
    pose proof (resolve_ok fuel _ x1 e Hfuel Hc1 He) as Hr. destruct (external_frames _ e) as [o|]; [|by rewrite Hr].
    destruct Hr as (x' & -> & _). by eexists.
Qed.
End maps.
End SymbolMap.
