(* ===== verification/ElfFiles.v ===== *)
(** ELF files as sources of symbols: samply-symbols/src/elf.rs, with the DWARF sections
    of samply-symbols/src/dwarf.rs. *)
From S2P Require Import Prelude SymbolTable LibTable SyntheticJit RustStr ObjectFiles CodeIds Demangle LineBuffer Nom.
From S2P Require Import MappedPath SymbolMaps BreakpadRecords BreakpadFunc ExternalFiles ObjectSymbolMap ExternalLookups.
From stdpp Require Import options.
Open Scope Z_scope.

(** * The checksum of debug links *)
Module DebugLinkCrc.
Import SymbolMaps LineBuffer.

Definition CRC32_TABLE : list Z :=
  [0x00000000; 0x77073096; 0xee0e612c; 0x990951ba; 0x076dc419; 0x706af48f; 0xe963a535; 0x9e6495a3;
   0x0edb8832; 0x79dcb8a4; 0xe0d5e91e; 0x97d2d988; 0x09b64c2b; 0x7eb17cbd; 0xe7b82d07; 0x90bf1d91;
   0x1db71064; 0x6ab020f2; 0xf3b97148; 0x84be41de; 0x1adad47d; 0x6ddde4eb; 0xf4d4b551; 0x83d385c7;
   0x136c9856; 0x646ba8c0; 0xfd62f97a; 0x8a65c9ec; 0x14015c4f; 0x63066cd9; 0xfa0f3d63; 0x8d080df5;
   0x3b6e20c8; 0x4c69105e; 0xd56041e4; 0xa2677172; 0x3c03e4d1; 0x4b04d447; 0xd20d85fd; 0xa50ab56b;
   0x35b5a8fa; 0x42b2986c; 0xdbbbc9d6; 0xacbcf940; 0x32d86ce3; 0x45df5c75; 0xdcd60dcf; 0xabd13d59;
   0x26d930ac; 0x51de003a; 0xc8d75180; 0xbfd06116; 0x21b4f4b5; 0x56b3c423; 0xcfba9599; 0xb8bda50f;
   0x2802b89e; 0x5f058808; 0xc60cd9b2; 0xb10be924; 0x2f6f7c87; 0x58684c11; 0xc1611dab; 0xb6662d3d;
   0x76dc4190; 0x01db7106; 0x98d220bc; 0xefd5102a; 0x71b18589; 0x06b6b51f; 0x9fbfe4a5; 0xe8b8d433;
   0x7807c9a2; 0x0f00f934; 0x9609a88e; 0xe10e9818; 0x7f6a0dbb; 0x086d3d2d; 0x91646c97; 0xe6635c01;
   0x6b6b51f4; 0x1c6c6162; 0x856530d8; 0xf262004e; 0x6c0695ed; 0x1b01a57b; 0x8208f4c1; 0xf50fc457;
   0x65b0d9c6; 0x12b7e950; 0x8bbeb8ea; 0xfcb9887c; 0x62dd1ddf; 0x15da2d49; 0x8cd37cf3; 0xfbd44c65;
   0x4db26158; 0x3ab551ce; 0xa3bc0074; 0xd4bb30e2; 0x4adfa541; 0x3dd895d7; 0xa4d1c46d; 0xd3d6f4fb;
   0x4369e96a; 0x346ed9fc; 0xad678846; 0xda60b8d0; 0x44042d73; 0x33031de5; 0xaa0a4c5f; 0xdd0d7cc9;
   0x5005713c; 0x270241aa; 0xbe0b1010; 0xc90c2086; 0x5768b525; 0x206f85b3; 0xb966d409; 0xce61e49f;
   0x5edef90e; 0x29d9c998; 0xb0d09822; 0xc7d7a8b4; 0x59b33d17; 0x2eb40d81; 0xb7bd5c3b; 0xc0ba6cad;
   0xedb88320; 0x9abfb3b6; 0x03b6e20c; 0x74b1d29a; 0xead54739; 0x9dd277af; 0x04db2615; 0x73dc1683;
   0xe3630b12; 0x94643b84; 0x0d6d6a3e; 0x7a6a5aa8; 0xe40ecf0b; 0x9309ff9d; 0x0a00ae27; 0x7d079eb1;
   0xf00f9344; 0x8708a3d2; 0x1e01f268; 0x6906c2fe; 0xf762575d; 0x806567cb; 0x196c3671; 0x6e6b06e7;
   0xfed41b76; 0x89d32be0; 0x10da7a5a; 0x67dd4acc; 0xf9b9df6f; 0x8ebeeff9; 0x17b7be43; 0x60b08ed5;
   0xd6d6a3e8; 0xa1d1937e; 0x38d8c2c4; 0x4fdff252; 0xd1bb67f1; 0xa6bc5767; 0x3fb506dd; 0x48b2364b;
   0xd80d2bda; 0xaf0a1b4c; 0x36034af6; 0x41047a60; 0xdf60efc3; 0xa867df55; 0x316e8eef; 0x4669be79;
   0xcb61b38c; 0xbc66831a; 0x256fd2a0; 0x5268e236; 0xcc0c7795; 0xbb0b4703; 0x220216b9; 0x5505262f;
   0xc5ba3bbe; 0xb2bd0b28; 0x2bb45a92; 0x5cb36a04; 0xc2d7ffa7; 0xb5d0cf31; 0x2cd99e8b; 0x5bdeae1d;
   0x9b64c2b0; 0xec63f226; 0x756aa39c; 0x026d930a; 0x9c0906a9; 0xeb0e363f; 0x72076785; 0x05005713;
   0x95bf4a82; 0xe2b87a14; 0x7bb12bae; 0x0cb61b38; 0x92d28e9b; 0xe5d5be0d; 0x7cdcefb7; 0x0bdbdf21;
   0x86d3d2d4; 0xf1d4e242; 0x68ddb3f8; 0x1fda836e; 0x81be16cd; 0xf6b9265b; 0x6fb077e1; 0x18b74777;
   0x88085ae6; 0xff0f6a70; 0x66063bca; 0x11010b5c; 0x8f659eff; 0xf862ae69; 0x616bffd3; 0x166ccf45;
   0xa00ae278; 0xd70dd2ee; 0x4e048354; 0x3903b3c2; 0xa7672661; 0xd06016f7; 0x4969474d; 0x3e6e77db;
   0xaed16a4a; 0xd9d65adc; 0x40df0b66; 0x37d83bf0; 0xa9bcae53; 0xdebb9ec5; 0x47b2cf7f; 0x30b5ffe9;
   0xbdbdf21c; 0xcabac28a; 0x53b39330; 0x24b4a3a6; 0xbad03605; 0xcdd70693; 0x54de5729; 0x23d967bf;
   0xb3667a2e; 0xc4614ab8; 0x5d681b02; 0x2a6f2b94; 0xb40bbe37; 0xc30c8ea1; 0x5a05df1b; 0x2d02ef8d].
Definition not32 (z : Z) : Z := Z.lxor z (2 ^ 32 - 1).
Definition crc_byte (crc : Z) (byte : ascii) : Z :=
  Z.lxor (nth (Z.to_nat (Z.lxor (Z.land crc 255) (Utf8.byte byte))) CRC32_TABLE 0) (Z.shiftr crc 8).
Definition crc_bytes (crc : Z) (buf : string) : Z := foldl crc_byte crc (String.list_ascii_of_string buf).
(** [GnuDebugLinkCrc32Computer]. *)
Definition consume (computer : Z) (buf : string) : Z := not32 (crc_bytes (not32 computer) buf).

(** [compute_debug_link_crc_of_file_contents]: the loop over the chunks of a file;
    [None] is an error. *)
Definition CHUNK_SIZE : Z := 1024 * 1024.
Section file.
Context (file : File).
#[local] Instance file_contents : FileContents (file_bytes file) := contents file.
Fixpoint crc_chunks (fuel : nat) (computer offset : Z) : option (option Z) :=
  match fuel with
  | O => None
  | S fuel' =>
      if offset <? slen (file_bytes file) then
        let chunk_len := Z.min CHUNK_SIZE (slen (file_bytes file) - offset) in
        match read_bytes_into offset chunk_len with
        | None => Some None
        | Some buffer => crc_chunks fuel' (consume computer buffer) (add_u64 offset CHUNK_SIZE)
        end
      else Some (Some computer)
  end.
Definition crc_fuel : nat := S (S (Z.to_nat (slen (file_bytes file) / CHUNK_SIZE))).
Definition compute_debug_link_crc_of_file_contents : option (option Z) := crc_chunks crc_fuel 0 0.
End file.

(** * The checksum, bit by bit *)
Definition POLYNOMIAL : Z := 0xedb88320.
Definition bit_step (crc : Z) : Z := Z.lxor (if Z.odd crc then POLYNOMIAL else 0) (Z.shiftr crc 1).
Definition byte_step (crc : Z) (byte : ascii) : Z := Nat.iter 8 bit_step (Z.lxor crc (Utf8.byte byte)).
Definition crc32 (bytes : string) : Z :=
  not32 (foldl byte_step (not32 0) (String.list_ascii_of_string bytes)).

Lemma lxor_swap a b c d : Z.lxor (Z.lxor a b) (Z.lxor c d) = Z.lxor (Z.lxor a c) (Z.lxor b d).
Proof. by rewrite !Z.lxor_assoc, <- (Z.lxor_assoc b c), (Z.lxor_comm b c), !Z.lxor_assoc. Qed.
Lemma odd_lxor a b : Z.odd (Z.lxor a b) = xorb (Z.odd a) (Z.odd b).
Proof. by rewrite <- !Z.bit0_odd, Z.lxor_spec. Qed.
Lemma bit_step_lxor a b : bit_step (Z.lxor a b) = Z.lxor (bit_step a) (bit_step b).
Proof.
  unfold bit_step. rewrite odd_lxor, Z.shiftr_lxor, lxor_swap. f_equal.
  destruct (Z.odd a), (Z.odd b); cbn [xorb]; by rewrite ?Z.lxor_nilpotent, ?Z.lxor_0_l, ?Z.lxor_0_r.
Qed.
Lemma bit_steps_lxor n a b : Nat.iter n bit_step (Z.lxor a b) = Z.lxor (Nat.iter n bit_step a) (Nat.iter n bit_step b).
Proof. induction n as [|n IH]; [done|]. rewrite !Nat.iter_succ, IH. apply bit_step_lxor. Qed.
Lemma bit_steps_shift n y : Nat.iter n bit_step (Z.shiftl y (Z.of_nat n)) = y.
Proof.
  induction n as [|n IH]; [apply Z.shiftl_0_r|]. rewrite Nat.iter_succ_r.
  enough (bit_step (Z.shiftl y (Z.of_nat (S n))) = Z.shiftl y (Z.of_nat n)) as -> by done.
  unfold bit_step. rewrite Nat2Z.inj_succ, <- Z.bit0_odd, Z.shiftl_spec_low, Z.lxor_0_l by lia.
  rewrite Z.shiftr_shiftl_l by lia. f_equal. lia.
Qed.
Lemma table_steps lo : 0 ≤ lo < 256 → nth (Z.to_nat lo) CRC32_TABLE 0 = Nat.iter 8 bit_step lo.
Proof.
  intros Hlo. assert (CRC32_TABLE = (λ n, Nat.iter 8 bit_step (Z.of_nat n)) <$> seq 0 256) as -> by by vm_compute.
  rewrite nth_lookup, list_lookup_fmap, lookup_seq_lt by lia. cbn [fmap option_fmap option_map default from_option id].
  by rewrite Nat.add_0_l, Z2Nat.id by lia.
Qed.
Lemma byte_range c : 0 ≤ Utf8.byte c < 256.
Proof. unfold Utf8.byte. pose proof (nat_ascii_bounded c). lia. Qed.
Lemma crc_low_byte a : Z.land a (Z.ones 8) = a ↔ 0 ≤ a < 256.
Proof.
  rewrite Z.land_ones by lia. change (2 ^ 8) with 256. split; [|apply Z.mod_small].
  intros <-. by apply Z.mod_pos_bound.
Qed.
Lemma land_lxor a b c : Z.land (Z.lxor a b) c = Z.lxor (Z.land a c) (Z.land b c).
Proof.
  apply Z.bits_inj'. intros n _. rewrite !Z.land_spec, !Z.lxor_spec, !Z.land_spec.
  by destruct (Z.testbit a n), (Z.testbit b n), (Z.testbit c n).
Qed.
Lemma low_and_rest crc : crc = Z.lxor (Z.land crc (Z.ones 8)) (Z.shiftl (Z.shiftr crc 8) 8).
Proof.
  apply Z.bits_inj'. intros n Hn. rewrite Z.lxor_spec, Z.land_spec, Z.testbit_ones_nonneg by lia.
  destruct (Z.ltb_spec n 8).
  - by rewrite Z.shiftl_spec_low, xorb_false_r, andb_true_r by lia.
  - by rewrite Z.shiftl_spec_high, Z.shiftr_spec, Z.sub_add, andb_false_r, xorb_false_l by lia.
Qed.
Lemma crc_byte_step crc byte : crc_byte crc byte = byte_step crc byte.
Proof.
  unfold crc_byte, byte_step. change 255 with (Z.ones 8). set (lo := Z.lxor (Z.land crc (Z.ones 8)) (Utf8.byte byte)).
  assert (0 ≤ lo < 256) as Hlo.
  { apply crc_low_byte. unfold lo. rewrite land_lxor, <- Z.land_assoc, Z.land_diag. f_equal. apply crc_low_byte, byte_range. }
  rewrite (table_steps lo Hlo). rewrite (low_and_rest crc) at 2.
  rewrite (Z.lxor_comm (Z.land crc _)), Z.lxor_assoc. fold lo. rewrite Z.lxor_comm, bit_steps_lxor.
  by rewrite (bit_steps_shift 8).
Qed.
Lemma crc_bytes_steps crc buf : crc_bytes crc buf = foldl byte_step crc (String.list_ascii_of_string buf).
Proof.
  unfold crc_bytes. generalize (String.list_ascii_of_string buf) as l. intros l. revert crc.
  induction l as [|c l IH]; intros crc; [done|]. cbn [foldl]. rewrite IH. by rewrite crc_byte_step.
Qed.
Lemma not32_twice z : not32 (not32 z) = z.
Proof. unfold not32. by rewrite Z.lxor_assoc, Z.lxor_nilpotent, Z.lxor_0_r. Qed.
Lemma list_ascii_of_app a b :
  String.list_ascii_of_string (a +:+ b) = String.list_ascii_of_string a ++ String.list_ascii_of_string b.
Proof. induction a as [|c a IH]; [done|]. rewrite RustStr.app_cons. cbn [String.list_ascii_of_string]. by rewrite IH. Qed.
Lemma consume_app computer a b : consume (consume computer a) b = consume computer (a +:+ b).
Proof.
  unfold consume. rewrite not32_twice. f_equal. unfold crc_bytes. rewrite list_ascii_of_app, foldl_app. done.
Qed.
Lemma consume_crc32 bytes : consume 0 bytes = crc32 bytes.
Proof. unfold consume, crc32. by rewrite crc_bytes_steps. Qed.
(** The loop ends, and what it computes without an error is the checksum. *)
Lemma crc_chunks_ok (file : File) fuel offset :
  (0 < fuel)%nat → 0 ≤ offset → slen (file_bytes file) + CHUNK_SIZE < 2 ^ 64 →
  slen (file_bytes file) ≤ offset + (Z.of_nat fuel - 1) * CHUNK_SIZE →
  ∃ r, crc_chunks file fuel (consume 0 (String.substring 0 (Z.to_nat offset) (file_bytes file))) offset = Some r ∧
    ∀ crc, r = Some crc → crc = crc32 (file_bytes file).
Proof.
  revert offset. induction fuel as [|fuel IH]; intros offset Hf Hoff Hlt Hle; [lia|]. cbn [crc_chunks].
  assert (∀ n, slen (file_bytes file) ≤ Z.of_nat n → String.substring 0 n (file_bytes file) = file_bytes file) as Hwhole
    by (intros n Hn; apply RustStr.substring_whole; unfold slen in Hn; lia).
  destruct (Z.ltb_spec offset (slen (file_bytes file))) as [Hin|Hout].
  2: { eexists. split; [done|]. intros crc [= <-]. rewrite Hwhole by lia. apply consume_crc32. }
  assert (0 < CHUNK_SIZE) by done. destruct fuel as [|fuel]; [lia|].
  destruct (read_bytes_into offset _) as [buffer|] eqn:Hr; [|by eexists].
  apply read_bytes_into_spec in Hr as [Hsize ->]; [|lia..]. rewrite consume_app, add_u64_id by lia.
  pose proof (RustStr.substring_join (file_bytes file) 0 (Z.to_nat offset)
    (Z.to_nat (Z.min CHUNK_SIZE (slen (file_bytes file) - offset)))) as Hjoin.
  rewrite Nat.add_0_l in Hjoin. rewrite <- Hjoin. clear Hjoin.
  enough (String.substring 0 (Z.to_nat offset + Z.to_nat (Z.min CHUNK_SIZE (slen (file_bytes file) - offset))) (file_bytes file) =
          String.substring 0 (Z.to_nat (offset + CHUNK_SIZE)) (file_bytes file)) as -> by (apply IH; lia).
  destruct (Z.min_spec CHUNK_SIZE (slen (file_bytes file) - offset)) as [[Hmin ->]|[Hmin ->]].
  - f_equal. lia.
  - by rewrite !Hwhole by lia.
Qed.
Lemma debug_link_crc_ok (file : File) : slen (file_bytes file) + CHUNK_SIZE < 2 ^ 64 →
  ∃ r, compute_debug_link_crc_of_file_contents file = Some r ∧ ∀ crc, r = Some crc → crc = crc32 (file_bytes file).
Proof.
  intros Hlt. unfold compute_debug_link_crc_of_file_contents.
  pose proof (slen_nonneg (file_bytes file)). pose proof (Z.div_mod (slen (file_bytes file)) CHUNK_SIZE ltac:(done)).
  pose proof (Z.mod_pos_bound (slen (file_bytes file)) CHUNK_SIZE ltac:(done)).
  pose proof (Z.div_pos (slen (file_bytes file)) CHUNK_SIZE ltac:(lia) ltac:(done)).
  pose proof (crc_chunks_ok file (crc_fuel file) 0) as Hok. rewrite RustStr.substring_none in Hok.
  apply Hok; unfold crc_fuel, CHUNK_SIZE in *; lia.
Qed.
Example crc_of_test : consume 0 ("Hello, world!" +:+ String "000" "") = 2608877062.
Proof. reflexivity. Qed.
End DebugLinkCrc.

(** * Dependencies

    Sections, as the object crate finds them, the gimli crate, which reads DWARF and
    exception handling information, and the decompressors. *)
Inductive CompressionFormat := NotCompressed | Zlib | OtherFormat.
Record CompressedFileRange := {
  range_format : CompressionFormat;
  range_offset : Z;
  range_compressed_size : Z;
  range_uncompressed_size : Z
}.
Record ElfSection := {
  elf_section_address : Z;
  elf_compressed_range : option CompressedFileRange;
  elf_section_data : option string;
  elf_uncompressed_data : option string
}.
Record ElfObject := {
  elf_object : Object;
  elf_file_object : FileObject;
  elf_object_map : Z → option ObjectMapEntry;
  elf_section : string → option ElfSection;
  gnu_debuglink : option (string * Z);
  gnu_debugaltlink : option (string * list Z);
  address_size : option Z
}.
Class ElfFiles := {
  parse_elf : File → option ElfObject;
  xz_decompress : string → option string;
  (** With the capacity of the vector. *)
  inflate : string → Z → option string
}.
(** Where the addresses of sections are: .eh_frame_hdr, .eh_frame, .text, .got. *)
Record BaseAddresses := { base_eh_frame_hdr : Z; base_eh_frame : Z; base_text : Z; base_got : Z }.
Inductive CieOrFde (C F : Type) := Cie (cie : C) | Fde (partial_fde : F).
Arguments Cie {C F}.
Arguments Fde {C F}.
Class Gimli `{SplitDwarf} := {
  section_id : Type;
  section_name : section_id → string;
  dwo_name : section_id → option string;
  load_dwarf : bool → (section_id → string) → option dwarf;
  load_sup : dwarf → (section_id → string) → option dwarf;
  context_from_dwarf : dwarf → option split_context;
  load_package : bool → (section_id → string) → option dwarf_package;
  (** The exception handling information of a section: its entries, up to the first
      error; an FDE is parsed with the CIE at its offset. *)
  eh_frame : Type;
  new_eh_frame : string → bool → Z → eh_frame;
  cie : Type;
  cie_offset : cie → Z;
  fde : Type;
  fde_cie_offset : fde → Z;
  parse_fde : fde → cie → option (Z * Z);
  eh_frame_entries : eh_frame → BaseAddresses → list (CieOrFde cie fde);
  cie_from_offset : eh_frame → BaseAddresses → Z → option cie;
  cie_from_offset_spec x b o c : cie_from_offset x b o = Some c → cie_offset c = o;
  eh_frame_entries_spec x b c : Cie c ∈ eh_frame_entries x b → cie_from_offset x b (cie_offset c) = Some c
}.

(** * Sections with DWARF: dwarf.rs *)
Module DwarfSections.
Import SymbolMaps.
Section sections.
Context `{Gimli} `{!ElfFiles}.

Inductive SingleSectionData := View (offset size : Z) | Owned (data : string).
Definition try_get_section_data (file : File) (obj : ElfObject) (id : section_id) (is_for_dwo_dwp : bool)
    : option SingleSectionData :=
  name ← (if is_for_dwo_dwp then dwo_name id else Some (section_name id));
  section ← elf_section obj name;
  file_range ← elf_compressed_range section;
  match range_format file_range with
  | NotCompressed => Some (View (range_offset file_range) (range_uncompressed_size file_range))
  | Zlib =>
      compressed_bytes ← @read_bytes_at _ (contents file) (range_offset file_range) (range_compressed_size file_range);
      decompressed ← inflate compressed_bytes (range_uncompressed_size file_range);
      Some (Owned decompressed)
  | OtherFormat => None
  end.
Definition sect (file : File) (obj : ElfObject) (is_for_dwo_dwp : bool) (id : section_id) : string :=
  match try_get_section_data file obj id is_for_dwo_dwp with
  | Some (Owned section_data) => section_data
  | Some (View offset size) => default "" (@read_bytes_at _ (contents file) offset size)
  | None => ""
  end.
Definition endian (obj : ElfObject) : bool := is_little_endian (elf_object obj).
Definition make_context (file : File) (obj : ElfObject) (sup : option (File * ElfObject)) : option split_context :=
  d ← load_dwarf (endian obj) (sect file obj false);
  d' ← match sup with
       | Some (sup_data, sup_obj) => load_sup d (sect sup_data sup_obj false)
       | None => Some d
       end;
  context_from_dwarf d'.
Definition make_package (file : File) (obj : ElfObject) (dwp : option (File * ElfObject)) : option dwarf_package :=
  match dwp' ← dwp; load_package (endian obj) (sect (fst dwp') (snd dwp') true) with
  | Some package => Some package
  | None => _ ← elf_section obj ".debug_cu_index"; load_package (endian obj) (sect file obj true)
  end.
Definition make_dwarf_for_dwo (file : File) (obj : ElfObject) : option dwarf :=
  load_dwarf (endian obj) (sect file obj true).
End sections.
End DwarfSections.

(** * elf.rs *)
Module ElfFiles.
Import RustStr SymbolMaps ObjectSymbolMap SymbolMap DwarfSections.

(** ** Functions with exception handling information *)
Section eh_frame.
Context `{Gimli} (from_offset : Z → option cie).
(** The CIE of an FDE: the last one, or another one, which is then the last one. *)
Definition cie_of (cur_cie : option cie) (offset : Z) : option cie :=
  match c ← cur_cie; if cie_offset c =? offset then Some c else None with
  | Some c => Some c
  | None => from_offset offset
  end.
Fixpoint fde_loop (entries : list (CieOrFde cie fde)) (cur_cie : option cie) (start_addresses end_addresses : list Z)
    : list Z * list Z :=
  match entries with
  | [] => (start_addresses, end_addresses)
  | Cie c :: entries' => fde_loop entries' (Some c) start_addresses end_addresses
  | Fde partial_fde :: entries' =>
      let c := cie_of cur_cie (fde_cie_offset partial_fde) in
      let cur_cie' := match c with Some c' => Some c' | None => cur_cie end in
      match c' ← c; parse_fde partial_fde c' with
      | Some (initial_address, len) =>
          fde_loop entries' cur_cie' (push start_addresses (wrap_u32 initial_address))
            (push end_addresses (wrap_u32 (add_u64 initial_address len)))
      | None => fde_loop entries' cur_cie' start_addresses end_addresses
      end
  end.
(** Without the CIE that is kept. *)
Definition fde_range (entry : CieOrFde cie fde) : option (Z * Z) :=
  match entry with
  | Cie _ => None
  | Fde partial_fde => c ← from_offset (fde_cie_offset partial_fde); parse_fde partial_fde c
  end.
Definition known_cie (c : cie) : Prop := from_offset (cie_offset c) = Some c.
Lemma fde_loop_ok entries cur_cie starts ends :
  (∀ o c, from_offset o = Some c → cie_offset c = o) → (∀ c, Cie c ∈ entries → known_cie c) →
  (∀ c, cur_cie = Some c → known_cie c) →
  fde_loop entries cur_cie starts ends =
    (starts ++ ((λ r, wrap_u32 r.1) <$> omap fde_range entries),
     ends ++ ((λ r, wrap_u32 (add_u64 r.1 r.2)) <$> omap fde_range entries)).
Proof.
  intros Hoff. revert cur_cie starts ends. induction entries as [|[c|f] entries IH]; intros cur starts ends Hin Hcur.
  { cbn. by rewrite !app_nil_r. }
  { cbn [fde_loop omap list_omap fde_range]. apply IH; [intros c' Hc'; apply Hin; by right|].
    intros c' [= <-]. apply Hin. left. }
  cbn [fde_loop]. assert (cie_of cur (fde_cie_offset f) = from_offset (fde_cie_offset f)) as Hc.
  { unfold cie_of. destruct cur as [c|]; [|done]. cbn [mbind option_bind].
    destruct (Z.eqb_spec (cie_offset c) (fde_cie_offset f)) as [<-|]; [|done]. symmetry. by apply Hcur. }
  assert (∀ c, match cie_of cur (fde_cie_offset f) with Some c' => Some c' | None => cur end = Some c → known_cie c) as Hcur'.
  { rewrite Hc. intros c. destruct (from_offset (fde_cie_offset f)) as [c'|] eqn:Hf; [|apply Hcur].
    intros [= <-]. unfold known_cie. by rewrite (Hoff _ _ Hf). }
  rewrite Hc in *. cbn [omap list_omap fde_range].
  destruct (c' ← from_offset (fde_cie_offset f); parse_fde f c') as [[start len]|];
    rewrite IH; [|intros c' ?; apply Hin; by right|done| |intros c' ?; apply Hin; by right|done]; [|done].
  cbn [fmap list_fmap fst snd]. unfold push. by rewrite <- !app_assoc.
Qed.
End eh_frame.
Section elf.
Context `{DebugIdType} `{!DebugIdOps} `{!DebugIds.UuidDebugIds} `{Nom} `{Demanglers} `{ExternalObjects}.
Context `{Gimli} `{!ElfFiles} `{!Helper}.

Definition section_addr_or_zero (section : option ElfSection) : Z :=
  match section with Some s => elf_section_address s | None => 0 end.
Definition compute_function_addresses_elf (obj : ElfObject) : option (list Z) * option (list Z) :=
  let bases := {| base_eh_frame_hdr := section_addr_or_zero (elf_section obj ".eh_frame_hdr");
                  base_eh_frame := section_addr_or_zero (elf_section obj ".eh_frame");
                  base_text := section_addr_or_zero (elf_section obj ".text");
                  base_got := section_addr_or_zero (elf_section obj ".got") |} in
  match section ← elf_section obj ".eh_frame"; elf_uncompressed_data section with
  | None => (None, None)
  | Some eh_frame_data =>
      let x := new_eh_frame eh_frame_data (endian obj) (default 8 (address_size obj)) in
      let '(start_addresses, end_addresses) :=
        fde_loop (cie_from_offset x bases) (eh_frame_entries x bases) None [] [] in
      (Some start_addresses, Some end_addresses)
  end.

(** ** The objects of a symbol map *)
Definition add_dwo_and_make_dwarf (dwo_file_data : File) : option (option dwarf) :=
  obj ← parse_elf dwo_file_data; d ← make_dwarf_for_dwo dwo_file_data obj; Some (Some d).
(** A file that may be missing, but is not malformed. *)
Definition parse_optional (file_kind : FileKind) (file : option File) : result (option (File * ElfObject)) :=
  match file with
  | None => inr None
  | Some f => match parse_elf f with Some obj => inr (Some (f, obj)) | None => inl (ObjectParseError file_kind) end
  end.
Definition make_inner (file : File) (obj : ElfObject) (sup dwp : option (File * ElfObject)) (debug_id : DebugId)
    : ObjectSymbolMapInner :=
  let '(function_starts, function_ends) := compute_function_addresses_elf obj in
  new_object_map (elf_file_object obj) (ObjectFiles.relative_address_base (elf_object obj))
    (make_context file obj sup) (make_package file obj dwp) debug_id (elf_object_map obj)
    function_starts function_ends add_dwo_and_make_dwarf.
(** [ElfSymbolMapDataAndObjects::new] and [ObjectSymbolMap::new]. *)
Definition new_elf_map (file : File) (sup dwp : option File) (file_kind : FileKind) (override_debug_id : option DebugId)
    : res (result ObjectSymbolMapInner) :=
  match parse_elf file, parse_optional file_kind sup, parse_optional file_kind dwp with
  | None, _, _ => Ok (inl (ObjectParseError file_kind))
  | _, inl e, _ => Ok (inl e)
  | _, _, inl e => Ok (inl e)
  | Some obj, inr sup', inr dwp' =>
      id ← match override_debug_id with
           | Some id => Ok (Some id)
           | None => DebugIds.debug_id_for_object (elf_object obj)
           end;
      Ok match id with
         | None => inl (InvalidInputError "debug ID cannot be read")
         | Some id => inr (make_inner file obj sup' dwp' id)
         end
  end.
Definition load_dwp (l : location) : option File := l' ← location_for_dwp l; load_file l'.

(** ** Debug links *)
Definition get_symbol_map_for_debug_link_candidate (original_file_location path : location) (debug_id : DebugId)
    (expected_crc : Z) (file_kind : FileKind) : loops (result SymbolMap) :=
  match load_file path with
  | None => returned (Ok (inl (HelperErrorDuringOpenFile (location_string path))))
  | Some file =>
      actual ← ended (DebugLinkCrc.compute_debug_link_crc_of_file_contents file);
      match actual with
      | None => returned (Ok (inl (HelperErrorDuringFileReading "DebugLinkForCrc")))
      | Some actual_crc =>
          if actual_crc =? expected_crc then
            x ← returned (new_elf_map file None (load_dwp path) file_kind (Some debug_id));
            returned (Ok match x with
                         | inl e => inl e
                         | inr x' => inr (new_plain original_file_location (ObjectMap x'))
                         end)
          else returned (Ok (inl (DebugLinkCrcMismatch actual_crc expected_crc)))
      end
  end.
Fixpoint try_debug_link_candidates (original_file_location : location) (candidate_paths : list location)
    (debug_id : DebugId) (crc : Z) (file_kind : FileKind) : loops (option SymbolMap) :=
  match candidate_paths with
  | [] => returned (Ok None)
  | candidate_path :: candidate_paths' =>
      r ← get_symbol_map_for_debug_link_candidate original_file_location candidate_path debug_id crc file_kind;
      match r with
      | inr symbol_map => returned (Ok (Some symbol_map))
      | inl _ => try_debug_link_candidates original_file_location candidate_paths' debug_id crc file_kind
      end
  end.
Definition try_to_get_symbol_map_from_debug_link (original_file_location : location) (obj : ElfObject)
    (file_kind : FileKind) : loops (option SymbolMap) :=
  match gnu_debuglink obj with
  | None => returned (Ok None)
  | Some (name, crc) =>
      id ← returned (DebugIds.debug_id_for_object (elf_object obj));
      match id, name' ← Utf8.from_utf8 name; get_candidate_paths_for_gnu_debug_link_dest original_file_location name' with
      | Some debug_id, Some candidate_paths =>
          try_debug_link_candidates original_file_location candidate_paths debug_id crc file_kind
      | _, _ => returned (Ok None)
      end
  end.

(** ** Supplementary files and compressed symbols *)
Fixpoint try_supplementary_candidates (supplementary_build_id : list Z) (candidate_paths : list location) : option File :=
  match candidate_paths with
  | [] => None
  | candidate_path :: candidate_paths' =>
      match file ← load_file candidate_path; obj ← parse_elf file;
            if bool_decide (build_id (elf_object obj) = Some supplementary_build_id) then Some file else None with
      | Some file => Some file
      | None => try_supplementary_candidates supplementary_build_id candidate_paths'
      end
  end.
Definition try_to_load_supplementary_file (original_file_location : location) (obj : ElfObject) : option File :=
  '(path, supplementary_build_id) ← gnu_debugaltlink obj;
  path' ← Utf8.from_utf8 path;
  candidate_paths ← get_candidate_paths_for_supplementary_debug_file original_file_location path' supplementary_build_id;
  try_supplementary_candidates supplementary_build_id candidate_paths.
Definition try_get_symbol_map_from_mini_debug_info (obj : ElfObject) (file_kind : FileKind)
    (debug_file_location' : location) : res (option SymbolMap) :=
  match debugdata ← elf_section obj ".gnu_debugdata"; data ← elf_section_data debugdata; xz_decompress data with
  | None => Ok None
  | Some objdata =>
      x ← new_elf_map {| file_bytes := objdata; contents := slice_contents objdata |} None None file_kind None;
      Ok match x with inl _ => None | inr x' => Some (new_plain debug_file_location' (ObjectMap x')) end
  end.

(** Without its debug link. *)
Definition load_from_file_itself (file_location : location) (file : File) (file_kind : FileKind) (obj : ElfObject)
    : res (result SymbolMap) :=
  let dwp_file_contents := load_dwp file_location in
  match try_to_load_supplementary_file file_location obj with
  | Some supplementary_file =>
      x ← new_elf_map file (Some supplementary_file) dwp_file_contents file_kind None;
      Ok match x with inl e => inl e | inr x' => inr (new_plain file_location (ObjectMap x')) end
  | None =>
      mini ← try_get_symbol_map_from_mini_debug_info obj file_kind file_location;
      match mini with
      | Some symbol_map => Ok (inr symbol_map)
      | None =>
          x ← new_elf_map file None dwp_file_contents file_kind None;
          Ok match x with inl e => inl e | inr x' => inr (new_with_external_file_support file_location x') end
      end
  end.
Definition load_symbol_map_for_elf (file_location : location) (file : File) (file_kind : FileKind)
    : loops (result SymbolMap) :=
  match parse_elf file with
  | None => returned (Ok (inl (ObjectParseError file_kind)))
  | Some obj =>
      linked ← try_to_get_symbol_map_from_debug_link file_location obj file_kind;
      match linked with
      | Some symbol_map => returned (Ok (inr symbol_map))
      | None => returned (load_from_file_itself file_location file file_kind obj)
      end
  end.

(** * What is found *)
Lemma function_addresses_ok obj section data : elf_section obj ".eh_frame" = Some section →
  elf_uncompressed_data section = Some data →
  ∃ x bases, let ranges := omap (fde_range (cie_from_offset x bases)) (eh_frame_entries x bases) in
    compute_function_addresses_elf obj =
      (Some ((λ r, wrap_u32 r.1) <$> ranges), Some ((λ r, wrap_u32 (add_u64 r.1 r.2)) <$> ranges)).
Proof.
  intros Hs Hd. unfold compute_function_addresses_elf. rewrite Hs. cbn [mbind option_bind]. rewrite Hd.
  do 2 eexists. rewrite fde_loop_ok; [reflexivity| |intros c; apply eh_frame_entries_spec|done].
  intros o c. apply cie_from_offset_spec.
Qed.
Lemma new_elf_map_with_id file dwp kind id :
  ∃ r, new_elf_map file None dwp kind (Some id) = Ok r ∧
    ∀ x, r = inr x → object_debug_id (info x) = id.
Proof.
  unfold new_elf_map. cbn [parse_optional]. destruct (parse_elf file) as [obj|]; [|by eexists].
  destruct (parse_optional kind dwp) as [e|dwp']; [by eexists|]. cbn [mbind res_bind]. eexists. split; [done|].
  intros x [= <-]. unfold make_inner. by destruct (compute_function_addresses_elf obj).
Qed.

Section debug_links.
Context (original : location) (debug_id : DebugId) (crc : Z) (file_kind : FileKind).
(** A candidate with the checksum and what is made of it. *)
Definition linked_by (c : location) (m : SymbolMap) : Prop :=
  ∃ file x, load_file c = Some file ∧ DebugLinkCrc.crc32 (file_bytes file) = crc ∧
    new_elf_map file None (load_dwp c) file_kind (Some debug_id) = Ok (inr x) ∧ m = new_plain original (ObjectMap x).
(** One that cannot be read, has another checksum, or is malformed. *)
Definition skipped (c : location) : Prop :=
  load_file c = None ∨
  ∃ file, load_file c = Some file ∧
    (DebugLinkCrc.compute_debug_link_crc_of_file_contents file = Some None ∨
     DebugLinkCrc.crc32 (file_bytes file) ≠ crc ∨
     ∃ e, new_elf_map file None (load_dwp c) file_kind (Some debug_id) = Ok (inl e)).
Definition files_small : Prop :=
  ∀ l file, load_file l = Some file → LineBuffer.slen (file_bytes file) + DebugLinkCrc.CHUNK_SIZE < 2 ^ 64.
Lemma candidate_ok c : files_small →
  ∃ r, get_symbol_map_for_debug_link_candidate original c debug_id crc file_kind = Some (Ok r) ∧
    match r with
    | inl _ => skipped c
    | inr m => linked_by c m ∧ debug_id_of m = debug_id
    end.
Proof.
  intros Hsmall. unfold get_symbol_map_for_debug_link_candidate.
  destruct (load_file c) as [file|] eqn:Hload; [|eexists; split; [done|]; by left].
  destruct (DebugLinkCrc.debug_link_crc_ok file (Hsmall _ _ Hload)) as (actual & Hcrc & Hok). rewrite Hcrc.
  cbn [ended fmap option_fmap option_map mbind loops_bind].
  assert (DebugLinkCrc.compute_debug_link_crc_of_file_contents file = Some None ∨
     DebugLinkCrc.crc32 (file_bytes file) ≠ crc ∨
     (∃ e, new_elf_map file None (load_dwp c) file_kind (Some debug_id) = Ok (inl e)) → skipped c) as Hskip
    by (intros HP; right; by exists file).
  destruct actual as [actual|]; [|eexists; split; [done|]; apply Hskip; by left].
  pose proof (Hok actual eq_refl) as ->. destruct (Z.eqb_spec (DebugLinkCrc.crc32 (file_bytes file)) crc) as [Heq|Hne].
  - destruct (new_elf_map_with_id file (load_dwp c) file_kind debug_id) as (x & Hx & Hid). rewrite Hx.
    cbn [returned mbind loops_bind]. eexists. split; [done|]. destruct x as [e|x].
    + apply Hskip. right. right. by eexists.
    + split; [|by apply Hid]. by exists file, x.
  - eexists. split; [done|]. apply Hskip. by right; left.
Qed.
Lemma candidates_ok cs : files_small →
  ∃ r, try_debug_link_candidates original cs debug_id crc file_kind = Some (Ok r) ∧
    match r with
    | Some m => ∃ before c after, cs = before ++ c :: after ∧ Forall skipped before ∧ linked_by c m ∧ debug_id_of m = debug_id
    | None => Forall skipped cs
    end.
Proof.
  intros Hsmall. induction cs as [|c cs (r & IH & Hr)]; [by exists None|]. cbn [try_debug_link_candidates].
  destruct (candidate_ok c Hsmall) as ([e|m] & -> & Hc); cbn [mbind loops_bind].
  - exists r. split; [done|]. destruct r as [m|]; [|by constructor].
    destruct Hr as (before & c' & after & -> & Hb & Hm). exists (c :: before), c', after. split; [done|].
    split; [by constructor|done].
  - exists (Some m). split; [done|]. exists [], c, cs. split; [done|]. split; [constructor|done].
Qed.
End debug_links.

(** C10: Debug links: the symbols of a file with a debug link are those of the first
    candidate that has the checksum of the link (bit by bit, not by the table) and is
    well-formed, under the debug ID of the file that has the link; a candidate that is
    missing, unreadable, of another checksum or malformed is never used, and if there
    are only such, the symbols are looked for as if there was no link. *)
Theorem debug_link_verified (file_location : location) (file : File) (file_kind : FileKind) (obj : ElfObject)
    (name : string) (crc : Z) (debug_id : DebugId) (candidates : list location) :
  parse_elf file = Some obj → gnu_debuglink obj = Some (name, crc) →
  DebugIds.debug_id_for_object (elf_object obj) = Ok (Some debug_id) → Utf8.from_utf8 name = Some name →
  get_candidate_paths_for_gnu_debug_link_dest file_location name = Some candidates → files_small →
  (∃ before c after m, candidates = before ++ c :: after ∧ Forall (skipped debug_id crc file_kind) before ∧
     linked_by file_location debug_id crc file_kind c m ∧ debug_id_of m = debug_id ∧
     load_symbol_map_for_elf file_location file file_kind = Some (Ok (inr m))) ∨
  (Forall (skipped debug_id crc file_kind) candidates ∧
   load_symbol_map_for_elf file_location file file_kind =
     Some (load_from_file_itself file_location file file_kind obj)).
Proof.
  intros Hobj Hlink Hid Hname Hcs Hsmall. unfold load_symbol_map_for_elf, try_to_get_symbol_map_from_debug_link.
  rewrite Hobj, Hlink, Hid, Hname. cbn [returned mbind loops_bind option_bind]. rewrite Hcs.
  destruct (candidates_ok file_location debug_id crc file_kind candidates Hsmall) as (r & -> & Hr).
  cbn [mbind loops_bind]. destruct r as [m|]; [|by right].
  left. destruct Hr as (before & c & after & -> & Hb & Hm & Hdid). by exists before, c, after, m.
Qed.
End elf.
End ElfFiles.
