(* ===== verification/SymbolManager.v ===== *)
(** Finding symbol maps, binaries and source files: [SymbolManager] of
    samply-symbols/src/lib.rs. *)
From S2P Require Import Prelude RustStr Nom LibTable CodeIds MappedPath Demangle LineBuffer SymbolMaps.
From S2P Require Import BreakpadRecords BreakpadIndex BreakpadSymbolMap BreakpadLookup SyntheticJit JitDump JitDumpMap.
From S2P Require Import ObjectFiles ExternalFiles ObjectSymbolMap ExternalLookups ElfFiles.
From stdpp Require Import options.
Open Scope Z_scope.

Module SymbolManager.
Import RustStr Nom SymbolMaps DwarfFrames ExternalFiles ObjectSymbolMap.
Export SymbolMap.

(** * Loading *)
(** The readers of the formats of the object and pdb crates (macho.rs, windows.rs) and [FileKind::parse]. *)
Class Formats `{DebugIdType} `{Nom} `{Demanglers} `{ExternalObjects} `{!SplitDwarf} `{!Helper} := {
  parse_file_kind : File → option FileKind;
  fat_archive_member : Type;
  get_fat_archive_member : File → FileKind → option MultiArchDisambiguator → result fat_archive_member;
  get_symbol_map_for_fat_archive_member : location → File → fat_archive_member → result SymbolMap;
  get_symbol_map_for_macho : location → File → result SymbolMap;
  load_symbol_map_for_pdb_corresponding_to_binary : FileKind → File → location → result SymbolMap;
  get_symbol_map_for_pe : File → FileKind → location → result SymbolMap;
  is_pdb_file : File → bool;
  get_symbol_map_for_pdb : File → location → result SymbolMap;
  load_symbol_map_for_dyld_cache : location → string → result SymbolMap;
  binary_image : Type;
  image_debug_id : binary_image → option DebugId;
  image_code_id : binary_image → option CodeIds.CodeId;
  load_binary_at_location : location → option string → option MultiArchDisambiguator → result binary_image;
  load_binary_from_dyld_cache : location → string → result binary_image
}.

Section loading.
Context `{DebugIdType} `{!BreakpadRecords.BreakpadIds} `{!DebugIdOps} `{!CodeIds.UuidOps}.
Context `{Nom} `{Demanglers} `{ExternalObjects} `{!SplitDwarf} `{!Helper} `{!Formats}.
Context `{∀ bytes, JitDumpFile bytes} `{!DebugIds.UuidDebugIds} `{!Gimli} `{!ElfFiles}.

(** Results of two kinds: an error of the manager, or a value. *)
Definition and_then {A B} (x : result A) (f : A → result B) : result B :=
  match x with inl e => inl e | inr a => f a end.

(** A breakpad file and its index, and a jitdump file and its index, as symbol maps
    that have not been asked yet. *)
Definition breakpad_trait (f : File) (idx : BreakpadIndex.BreakpadIndex) : SymbolMapTrait :=
  let _ := contents f in
  {| trait_caches := BreakpadSymbolMap.Caches; trait_state := BreakpadSymbolMap.new_caches;
     trait_debug_id := BreakpadIndex.debug_id idx; trait_symbol_count := BreakpadSymbolMap.symbol_count idx;
     trait_symbols := BreakpadSymbolMap.iter_symbols idx; trait_lookup_sync := BreakpadSymbolMap.lookup_sync idx |}.
Definition jitdump_trait (f : File) (idx : JitDumpMap.JitDumpIndex (bytes := file_bytes f)) : SymbolMapTrait :=
  let _ := contents f in
  {| trait_caches := JitDumpMap.JitDumpSymbolMapCache; trait_state := JitDumpMap.new_cache;
     trait_debug_id := JitDumpMap.index_debug_id idx; trait_symbol_count := JitDumpMap.symbol_count idx;
     trait_symbols c := '(c', symbols) ← returned (JitDumpMap.iter_symbols idx c); returned (Ok (symbols, c'));
     trait_lookup_sync c a := '(c', r) ← returned (JitDumpMap.lookup_sync idx c a); returned (Ok (r, c')) |}.

Definition load_breakpad (file_location : location) (f : File) : loops (result SymbolMap) :=
  let index_file := l ← location_for_breakpad_symindex file_location; load_file l in
  let _ := contents f in
  r ← match index_file with
      | Some i => BreakpadSymbolMap.new_outer (bytes := file_bytes f) (Some (contents i))
      | None => BreakpadSymbolMap.new_outer (bytes := file_bytes f) (index_bytes := "") None
      end;
  returned (Ok match r with
               | inl e => inl (BreakpadError e)
               | inr idx => inr (new_plain file_location (AnsweringMap (breakpad_trait f idx)))
               end).
Definition load_jitdump (file_location : location) (f : File) : loops (result SymbolMap) :=
  r ← JitDumpMap.new_outer (bytes := file_bytes f);
  returned (Ok match r with
               | None => inl JitDumpFileReading
               | Some idx => inr (new_plain file_location (AnsweringMap (jitdump_trait f idx)))
               end).
Definition load_object (kind : FileKind) (file_location : location) (f : File)
    (disambiguator : option MultiArchDisambiguator) : loops (result SymbolMap) :=
  match kind with
  | Elf32 | Elf64 => ElfFiles.load_symbol_map_for_elf file_location f kind
  | MachOFat32 | MachOFat64 =>
      returned (Ok (and_then (get_fat_archive_member f kind disambiguator)
                      (get_symbol_map_for_fat_archive_member file_location f)))
  | MachO32 | MachO64 => returned (Ok (get_symbol_map_for_macho file_location f))
  | Pe32 | Pe64 =>
      returned (Ok match load_symbol_map_for_pdb_corresponding_to_binary kind f file_location with
                   | inr m => inr m
                   | inl _ => get_symbol_map_for_pe f kind file_location
                   end)
  | OtherKind =>
      returned (Ok (inl (InvalidInputError "Input was Archive, Coff or Wasm format, which are unsupported for now")))
  end.
Definition load_symbol_map_from_location (file_location : location)
    (disambiguator : option MultiArchDisambiguator) : loops (result SymbolMap) :=
  match load_file file_location with
  | None => returned (Ok (inl (HelperErrorDuringOpenFile (location_string file_location))))
  | Some f =>
      match parse_file_kind f with
      | Some kind => load_object kind file_location f disambiguator
      | None =>
          if is_pdb_file f then returned (Ok (get_symbol_map_for_pdb f file_location))
          else if @BreakpadSymbolMap.is_breakpad_file (file_bytes f) (contents f) then load_breakpad file_location f
          else if @JitDumpMap.is_jitdump_file (file_bytes f) (contents f) then load_jitdump file_location f
          else returned (Ok (inl (InvalidInputError
            "The file does not have a known format; PDB::open was not able to parse it and object::FileKind::parse was not able to detect the format.")))
      end
  end.

Definition load_candidate (id : DebugId) (candidate_info : CandidatePathInfo location) : loops (result SymbolMap) :=
  match candidate_info with
  | SingleFile file_location => load_symbol_map_from_location file_location (Some (DisambiguateDebugId id))
  | InDyldCache dyld_cache_path dylib_path =>
      returned (Ok (load_symbol_map_for_dyld_cache dyld_cache_path dylib_path))
  end.
Definition errors_to_error (info : LibraryInfo.LibraryInfo) (all_errors : list Error) : Error :=
  match all_errors with
  | [] => NoCandidatePathForDebugFile info
  | [e] => e
  | _ => NoSuccessfulCandidate all_errors
  end.
(** The loop over the candidates. *)
Fixpoint try_candidates (info : LibraryInfo.LibraryInfo) (id : DebugId)
    (candidates : list (CandidatePathInfo location)) (all_errors : list Error) : loops (result SymbolMap) :=
  match candidates with
  | [] => returned (Ok (inl (errors_to_error info all_errors)))
  | candidate_info :: candidates' =>
      r ← load_candidate id candidate_info;
      match r with
      | inr m =>
          if bool_decide (debug_id_of m = id) then returned (Ok (inr m))
          else try_candidates info id candidates' (push all_errors (UnmatchedDebugId (debug_id_of m) id))
      | inl e => try_candidates info id candidates' (push all_errors e)
      end
  end.
Definition load_symbol_map (library_info : LibraryInfo.LibraryInfo) : loops (result SymbolMap) :=
  match get_symbol_map_for_library library_info with
  | Some (l, t) => returned (Ok (inr (with_symbol_map_trait l t)))
  | None =>
      match LibraryInfo.debug_id library_info with
      | None => returned (Ok (inl NotEnoughInformationToIdentifySymbolMap))
      | Some id =>
          match get_candidate_paths_for_debug_file library_info with
          | None => returned (Ok (inl (HelperErrorDuringGetCandidatePathsForDebugFile library_info)))
          | Some candidate_paths => try_candidates library_info id candidate_paths []
          end
      end
  end.

Definition load_source_file (debug_file_location : location) (source_file_path : MappedPath.SourceFilePath)
    : result string :=
  match location_for_source_file debug_file_location (MappedPath.raw_path source_file_path) with
  | None => inl FileLocationRefusedSourceFileLocation
  | Some source_file_location =>
      match load_file source_file_location with
      | None => inl (HelperErrorDuringOpenFile (location_string source_file_location))
      | Some f =>
          match @read_bytes_at _ (contents f) 0 (LineBuffer.slen (file_bytes f)) with
          | None => inl (HelperErrorDuringFileReading (location_string source_file_location))
          | Some contents => inr (Utf8.from_utf8_lossy contents)
          end
      end
  end.

(** * Binaries *)
Definition disambiguator_of (info : LibraryInfo.LibraryInfo) : option MultiArchDisambiguator :=
  match LibraryInfo.debug_id info, LibraryInfo.arch info with
  | Some id, _ => Some (DisambiguateDebugId id)
  | None, Some arch => Some (Arch arch)
  | None, None => None
  end.
Definition load_binary_candidate (info : LibraryInfo.LibraryInfo) (candidate_info : CandidatePathInfo location)
    : result binary_image :=
  match candidate_info with
  | SingleFile file_location =>
      load_binary_at_location file_location (LibraryInfo.name info) (disambiguator_of info)
  | InDyldCache dyld_cache_path dylib_path => load_binary_from_dyld_cache dyld_cache_path dylib_path
  end.
(** Whether an image is the one that was asked for: the error if it is not. *)
Definition check_image (info : LibraryInfo.LibraryInfo) (image : binary_image) : res (option Error) :=
  match LibraryInfo.debug_id info, LibraryInfo.code_id info with
  | Some expected_debug_id, _ =>
      Ok (if decide (image_debug_id image = Some expected_debug_id) then None
          else Some (UnmatchedDebugIdOptional expected_debug_id (image_debug_id image)))
  | None, Some expected_code_id =>
      Ok (if decide (image_code_id image = Some expected_code_id) then None
          else Some (UnmatchedCodeId expected_code_id (image_code_id image)))
  | None, None => Panic
  end.
Fixpoint try_binaries (info : LibraryInfo.LibraryInfo) (candidates : list (CandidatePathInfo location))
    (last_err : option Error) : res (result binary_image) :=
  match candidates with
  | [] => Ok (inl (default (NoCandidatePathForBinary (LibraryInfo.debug_name info) (LibraryInfo.debug_id info)) last_err))
  | candidate_info :: candidates' =>
      match load_binary_candidate info candidate_info with
      | inl e => try_binaries info candidates' (Some e)
      | inr image =>
          e ← check_image info image;
          match e with
          | None => Ok (inr image)
          | Some e => try_binaries info candidates' (Some e)
          end
      end
  end.
Definition load_binary (info : LibraryInfo.LibraryInfo) : res (result binary_image) :=
  let unknown {A} (o : option A) := match o with None => true | Some _ => false end in
  if unknown (LibraryInfo.code_id info) &&
     (unknown (LibraryInfo.debug_name info) || unknown (LibraryInfo.debug_id info)) then
    Ok (inl NotEnoughInformationToIdentifyBinary)
  else
    match get_candidate_paths_for_binary info with
    | None => Ok (inl HelperErrorDuringGetCandidatePathsForBinary)
    | Some candidates => try_binaries info candidates None
    end.

(** * Which candidate is taken *)
Definition failed (id : DebugId) (candidate_info : CandidatePathInfo location) (e : Error) : Prop :=
  load_candidate id candidate_info = Some (Ok (inl e)) ∨
  ∃ m, load_candidate id candidate_info = Some (Ok (inr m)) ∧ debug_id_of m ≠ id ∧
       e = UnmatchedDebugId (debug_id_of m) id.
(** The first candidate with the right ID, or the errors of all. *)
Definition first_match (info : LibraryInfo.LibraryInfo) (id : DebugId)
    (candidates : list (CandidatePathInfo location)) (all_errors : list Error) (r : result SymbolMap) : Prop :=
  (∃ before c after m errors, candidates = before ++ c :: after ∧ Forall2 (failed id) before errors ∧
     load_candidate id c = Some (Ok (inr m)) ∧ debug_id_of m = id ∧ r = inr m) ∨
  (∃ errors, Forall2 (failed id) candidates errors ∧ r = inl (errors_to_error info (all_errors ++ errors))).
Lemma first_match_failed info id c e candidates all_errors r : failed id c e →
  first_match info id candidates (push all_errors e) r ↔ first_match info id (c :: candidates) all_errors r.
Proof.
  intros He. unfold first_match, push. split.
  - intros [(before & c' & after & m & errors & -> & Hb & Hc & Hm & ->)|(errors & Hall & ->)].
    + left. exists (c :: before), c', after, m, (e :: errors). split; [done|]. split; [by constructor|done].
    + right. exists (e :: errors). split; [by constructor|]. by rewrite <- app_assoc.
  - assert (∀ e', failed id c e' → e' = e) as Huniq.
    { intros e' He'. destruct He as [He|(m & He & Hne & ->)], He' as [He'|(m' & He' & Hne' & ->)]; congruence. }
    intros [(before & c' & after & m & errors & Heq & Hb & Hc & Hm & ->)|(errors & Hall & ->)].
    + destruct before as [|b before]; injection Heq as -> ->.
      * exfalso. destruct He as [He|(m' & He & Hne & ->)]; congruence.
      * apply Forall2_cons_inv_l in Hb as (e' & errors' & _ & Hb & ->). left. by exists before, c', after, m, errors'.
    + apply Forall2_cons_inv_l in Hall as (e' & errors' & He' & Hall & ->). rewrite (Huniq e' He'). right.
      exists errors'. by rewrite <- app_assoc.
Qed.
Lemma try_candidates_spec info id candidates all_errors r :
  try_candidates info id candidates all_errors = Some (Ok r) ↔ first_match info id candidates all_errors r.
Proof.
  revert all_errors. induction candidates as [|c candidates IH]; intros all_errors; cbn [try_candidates].
  - unfold first_match. split.
    + intros [= <-]. right. exists []. split; [constructor|]. by rewrite app_nil_r.
    + intros [([|] & ? & ? & ? & ? & ? & _)|(errors & ->%Forall2_nil_inv_l & ->)]; [done..|]. by rewrite app_nil_r.
  - assert ((∀ x, load_candidate id c ≠ Some (Ok x)) → first_match info id (c :: candidates) all_errors r → False) as Hstuck.
    { intros Hno [(before & c' & after & m & errors & Heq & Hb & Hc & _)|(errors & Hall & _)].
      - destruct before as [|b before]; injection Heq as -> ->; [by apply (Hno _ Hc)|].
        apply Forall2_cons_inv_l in Hb as (e & ? & [He|(m' & He & _)] & _); by apply (Hno _ He).
      - apply Forall2_cons_inv_l in Hall as (e & ? & [He|(m' & He & _)] & _); by apply (Hno _ He). }
    destruct (load_candidate id c) as [[[e|m]|]|] eqn:Hc; cbn [mbind loops_bind].
    + rewrite IH. apply first_match_failed. by left.
    + case_bool_decide as Hid.
      * split; [intros [= <-]; left; by exists [], c, candidates, m, []|].
        intros [(before & c' & after & m' & errors & Heq & Hb & Hc' & Hm' & ->)|(errors & Hall & ->)].
        -- destruct before as [|b before]; injection Heq as -> ->; [|].
           { rewrite Hc in Hc'. injection Hc' as ->. done. }
           apply Forall2_cons_inv_l in Hb as (e & ? & [He|(m2 & He & Hne & _)] & _); congruence.
        -- apply Forall2_cons_inv_l in Hall as (e & ? & [He|(m2 & He & Hne & _)] & _); congruence.
      * rewrite IH. apply first_match_failed. right. by exists m.
    + split; [done|]. intros Hf. exfalso. by apply Hstuck.
    + split; [done|]. intros Hf. exfalso. by apply Hstuck.
Qed.

(** C8: Symbols are never those of another library: a symbol map that is found among
    the candidates for a library is the one of the first candidate that can be loaded
    and has the debug ID that was asked for, and if there is none, the error lists
    why each candidate was rejected, in their order. *)
Theorem load_symbol_map_first_match (info : LibraryInfo.LibraryInfo) (id : DebugId)
    (candidates : list (CandidatePathInfo location)) (r : result SymbolMap) :
  get_symbol_map_for_library info = None → LibraryInfo.debug_id info = Some id →
  get_candidate_paths_for_debug_file info = Some candidates →
  load_symbol_map info = Some (Ok r) ↔ first_match info id candidates [] r.
Proof. intros Hno Hid Hc. unfold load_symbol_map. rewrite Hno, Hid, Hc. apply try_candidates_spec. Qed.

(** A binary that is found is one that was asked for, by its debug ID or else by its
    code ID; asking for a binary does not panic. *)
Lemma try_binaries_ok info candidates last_err :
  LibraryInfo.debug_id info ≠ None ∨ LibraryInfo.code_id info ≠ None →
  ∃ r, try_binaries info candidates last_err = Ok r ∧
    ∀ image, r = inr image →
      match LibraryInfo.debug_id info with
      | Some id => image_debug_id image = Some id
      | None => image_code_id image = LibraryInfo.code_id info
      end.
Proof.
  intros Hsome. revert last_err. induction candidates as [|c candidates IH]; intros last_err; cbn [try_binaries].
  { by eexists. }
  destruct (load_binary_candidate info c) as [e|image]; [apply IH|]. unfold check_image.
  destruct (LibraryInfo.debug_id info) as [id|], (LibraryInfo.code_id info) as [code|]; cbn [mbind res_bind];
    [..|by destruct Hsome]; (destruct (decide _) as [Heq|_]; [eexists; split; [done|]; by intros ? [= <-]|apply IH]).
Qed.
Theorem load_binary_matches (info : LibraryInfo.LibraryInfo) :
  ∃ r, load_binary info = Ok r ∧
    ∀ image, r = inr image →
      match LibraryInfo.debug_id info with
      | Some id => image_debug_id image = Some id
      | None => image_code_id image = LibraryInfo.code_id info
      end.
Proof.
  unfold load_binary. destruct (LibraryInfo.code_id info) as [code|] eqn:Hc, (LibraryInfo.debug_id info) as [id|] eqn:Hd;
    destruct (LibraryInfo.debug_name info); cbn [andb orb]; try by eexists.
  all: destruct (get_candidate_paths_for_binary info) as [cs|]; [|by eexists].
  all: pose proof (try_binaries_ok info cs None) as Hok; rewrite Hc, Hd in Hok; apply Hok; naive_solver.
Qed.
End loading.

(** * An example: files in a table *)
Module ExampleFiles.
#[export] Existing Instance string_debug_ids.
#[export] Existing Instance string_debug_id_ops.
#[export] Existing Instance Nom.documented.
#[export] Existing Instance CodeIds.hex_uuids.
#[export] Instance any_id : BreakpadRecords.BreakpadIds := {| BreakpadRecords.from_breakpad s := Some s |}.
#[export] Instance plain_names : Demanglers :=
  {| msvc_demangle _ := None; scala_native_demangle _ := None; rustc_demangle _ := None; cpp_demangle _ := None;
     wide_char_is_uppercase _ := false |}.
(** A context of addr2line is the name of a source file; the line is the address. *)
#[export] Instance named_contexts : Addr2line :=
  {| a2l_context := string;
     find_frames_skipping_loads file address' :=
       Some ([{| raw_function := Some (Some "inlined"); raw_location := Some (Some file, Some address') |};
              {| raw_function := Some None; raw_location := None |}], true) |}.
(** An object is the name of its source file, and an archive has one member; all
    objects have a function f. *)
#[export] Instance named_objects : ExternalObjects :=
  {| external_file_kind s := Some (if starts_with s "archive:" then ExternalArchive else ExternalMachO);
     parse_object_in s start size' :=
       Some (Some (String.substring (Z.to_nat start) (Z.to_nat size') s), [(Some "f", 16)]);
     parse_archive s := Some [Some ("member.o", (8, LineBuffer.slen s - 8))] |}.
#[export] Instance no_split_dwarf : SplitDwarf :=
  {| split_context := unit; dwarf := unit; find_frames _ _ := Output None; dwarf_package := unit;
     find_cu _ _ := None; make_dwo d _ := d |}.
Definition sym_file (id name : string) : string :=
  "MODULE Linux x86_64 " +:+ id +:+ " lib" +:+ LineBuffer.LF +:+ "PUBLIC 1000 0 " +:+ name.
Definition table (name : string) : option string :=
  if decide (name = "a.o") then Some "a.c"
  else if decide (name = "b.a") then Some "archive:b.c"
  else if decide (name = "old.sym") then Some (sym_file "AAA" "old")
  else if decide (name = "new.sym") then Some (sym_file "BBB" "new")
  else if decide (name = "src/a.c") then Some "int main;"
  else if decide (name = "old.debug") then Some "ELF:old symbols"
  else if decide (name = "lib.debug") then Some "ELF:symbols"
  else None.
Definition file_of (bytes : string) : File :=
  {| file_bytes := bytes; contents := SymbolMaps.slice_contents bytes |}.
#[export] Instance table_helper : Helper :=
  {| location := string; location_string l := l; location_for_external_object_file _ path := Some path;
     location_for_source_file _ path := Some ("src/" +:+ path); location_for_breakpad_symindex l := Some (l +:+ ".symindex");
     location_for_dwo _ _ _ := None; location_for_dwp _ := None;
     get_candidate_paths_for_gnu_debug_link_dest _ name := Some ["missing.debug"; "old.debug"; name];
     get_candidate_paths_for_supplementary_debug_file _ _ _ := Some []; load_file l := file_of <$> table l;
     get_candidate_paths_for_debug_file _ := Some [SingleFile "missing.sym"; SingleFile "old.sym"; SingleFile "new.sym"];
     get_candidate_paths_for_binary _ := None; get_symbol_map_for_library _ := None |}.
#[export] Instance no_formats `{!Helper} : Formats :=
  {| parse_file_kind _ := None; fat_archive_member := unit;
     get_fat_archive_member _ _ _ := inl (FormatError "fat");
     get_symbol_map_for_fat_archive_member _ _ _ := inl (FormatError "fat");
     get_symbol_map_for_macho _ _ := inl (FormatError "macho");
     load_symbol_map_for_pdb_corresponding_to_binary _ _ _ := inl (FormatError "pdb");
     get_symbol_map_for_pe _ _ _ := inl (FormatError "pe"); is_pdb_file _ := false;
     get_symbol_map_for_pdb _ _ := inl (FormatError "pdb"); load_symbol_map_for_dyld_cache _ _ := inl (FormatError "dyld");
     binary_image := unit; image_debug_id _ := None; image_code_id _ := None;
     load_binary_at_location _ _ _ := inl (FormatError "binary"); load_binary_from_dyld_cache _ _ := inl (FormatError "dyld") |}.
#[export, refine] Instance no_jitdump_files bytes : JitDumpFile bytes :=
  {| file_reader := Empty_set; endianness := unit; debug_info := unit; new_reader := None;
     reader_header r := match r with end; reader_endian r := match r with end;
     next_record_header r := match r with end; next_record r := match r with end;
     skip_next_record r := match r with end; next_record_offset r := match r with end;
     parse_debug_info _ _ := None; debug_code_addr _ := 0; debug_lookup _ _ := None;
     NAME_OFFSET_FROM_RECORD_START := 0; HEADER_SIZE := 0; records r := match r with end |}.
Proof. all: by intros []. Defined.
(** The name of a file without symbols is its debug link, and its build ID is 1. *)
#[export] Instance hex_uuid_ids : DebugIds.UuidDebugIds :=
  {| DebugIds.from_uuid := foldr (λ b s, HexText.padded HexText.hex_digit_upper 2 b +:+ s) "" |}.
#[export, refine] Instance no_dwarf : Gimli :=
  {| section_id := unit; section_name _ := ".debug_info"; dwo_name _ := None; load_dwarf _ _ := None;
     load_sup _ _ := None; context_from_dwarf _ := None; load_package _ _ := None; eh_frame := unit;
     new_eh_frame _ _ _ := (); cie := Empty_set; cie_offset c := match c with end; fde := Empty_set;
     fde_cie_offset f := match f with end; parse_fde f := match f with end; eh_frame_entries _ _ := [];
     cie_from_offset _ _ _ := None |}.
Proof. all: by intros ? ? [] || by intros ? ? []. Defined.
Definition debug_crc : Z := Eval vm_compute in DebugLinkCrc.crc32 "ELF:symbols".
Definition plain_object : Object :=
  {| segments := []; sections := []; section_by_name _ := None; symbols := []; is_elf := true; is_64 := true;
     is_little_endian := true; image_base := 0; pdb_info := None; build_id := Some [1]; mach_uuid := None |}.
Definition no_symbols : FileObject :=
  {| file_segments := []; file_sections := []; file_symbols := []; dynamic_symbols := []; exports := None;
     entry_address := 0 |}.
Definition elf_named (name : string) : ElfObject :=
  {| elf_object := plain_object; elf_file_object := no_symbols; elf_object_map _ := None; elf_section _ := None;
     gnu_debuglink := if decide (name = "stripped") then Some ("lib.debug", debug_crc) else None;
     gnu_debugaltlink := None; address_size := None |}.
#[export] Instance named_elf_files : ElfFiles :=
  {| parse_elf f := elf_named <$> strip_prefix (file_bytes f) "ELF:"; xz_decompress _ := None; inflate _ _ := None |}.
(** A linked file with a function whose debug information is in an object file, and
    one whose is in an archive. *)
Definition linked : FileObject :=
  {| file_segments := [];
     file_sections := [{| file_section_index := 1; file_section_kind := TextSection; elf_sh_flags := None;
                          file_section_address := 4096; file_section_size := 64; file_section_range := None |}];
     file_symbols := [{| file_symbol_address := 4100; file_symbol_size := 0; file_symbol_kind := TextSymbol;
                         file_symbol_section := Some 1%nat; name_bytes := Some "f" |}];
     dynamic_symbols := []; exports := None; entry_address := 0 |}.
Definition linked_map (svma : Z) : option ObjectMapEntry :=
  if svma <? 4112 then Some {| map_entry_address := 4100; map_entry_name := "f"; map_entry_path := "a.o"; map_entry_member := None |}
  else Some {| map_entry_address := 4112; map_entry_name := "f"; map_entry_path := "b.a"; map_entry_member := Some "member.o" |}.
Definition linked_symbols : SymbolMap :=
  new_with_external_file_support ("lib" : location)
    (new_object_map linked 4096 None None ("id" : DebugId) linked_map None None (λ _, Some None)).
End ExampleFiles.

Section examples.
Import ExampleFiles.
Definition in_object (offset : Z) : ExternalFileAddressRef :=
  {| file_ref := MachoExternalObject "a.o"; address_in_file := MachoOsoObject "f" offset |}.
Definition in_archive (offset : Z) : ExternalFileAddressRef :=
  {| file_ref := MachoExternalObject "b.a"; address_in_file := MachoOsoArchive "member.o" "f" offset |}.
Definition two_frames (file : string) (line : Z) : list FrameDebugInfo :=
  [{| function := Some "inlined"; file_path := Some (MappedPath.new_path file None); line_number := Some line |};
   {| function := None; file_path := None; line_number := None |}].
Example external_lookups_answer_witness :
  lookup_externals 1 linked_symbols [in_object 1; in_archive 2; in_object 3] =
    Some (Ok [Some (two_frames "a.c" 17); Some (two_frames "b.c" 18); Some (two_frames "a.c" 19)]) ∧
  ∃ m, lookup 1 linked_symbols (Relative 18) =
    Some (Ok (m, Some {| info_symbol := {| address := 4; size := Some 60; symbol_name := "f" |};
                         info_frames := Some (two_frames "b.c" 18) |})).
Proof.
  destruct (external_lookups_answer 1 linked_symbols (le_n 1) (conj eq_refl eq_refl)) as [Hall Hone]. split.
  - etrans; [apply Hall; by repeat constructor|by vm_compute].
  - destruct (lookup_sync linked_symbols (Relative 18)) as [[[m1 [i|]]|]|] eqn:Hl; [|by vm_compute in Hl..].
    assert (Hi := Hl). vm_compute in Hi. injection Hi as _ <-.
    exact (Hone (Relative 18) m1 _ (in_archive 2) Hl eq_refl eq_refl).
Defined.
Definition build_id_1 : DebugId := "00000001000000000000000000000000".
Example debug_link_verified_witness :
  ∃ m, ElfFiles.linked_by ("lib" : location) build_id_1 debug_crc Elf64 "lib.debug" m ∧ debug_id_of m = build_id_1 ∧
    ElfFiles.load_symbol_map_for_elf ("lib" : location) (file_of "ELF:stripped") Elf64 = Some (Ok (inr m)).
Proof.
  destruct (ElfFiles.debug_link_verified ("lib" : @location _ table_helper) (file_of "ELF:stripped") Elf64 (elf_named "stripped")
    "lib.debug" debug_crc build_id_1 ["missing.debug"; "old.debug"; "lib.debug"])
    as [(before & c & after & m & Hcs & _ & Hm & Hid & Hload)|[Hskip _]];
    [reflexivity..| | |].
  - intros l file Hl. cbn in Hl. unfold table in Hl. repeat (case_decide; [by injection Hl as <-|]). done.
  - exists m. split; [|exact (conj Hid Hload)]. assert (Hm' := Hm). destruct Hm' as (file & x & Hfile & Hcrc & _).
    destruct before as [|? [|? [|? before]]].
    + injection Hcs as <- _. discriminate Hfile.
    + injection Hcs as _ <- _. apply (inj Some) in Hfile as <-. by vm_compute in Hcrc.
    + injection Hcs as _ _ <- _. exact Hm.
    + apply (f_equal length) in Hcs. rewrite length_app in Hcs. cbn in Hcs. lia.
  - apply Forall_lookup_1 with (i := 2%nat) (x := ("lib.debug" : @location _ table_helper)) in Hskip; [|done].
    destruct Hskip as [Hl|(file & Hl & [Hc|[Hc|[e He]]])]; [discriminate Hl|..]; apply (inj Some) in Hl as <-.
    + by vm_compute in Hc.
    + by destruct Hc.
    + discriminate He.
Defined.
Definition wanted : LibraryInfo.LibraryInfo :=
  {| LibraryInfo.debug_name := Some "lib"; LibraryInfo.debug_id := Some ("BBB" : DebugId); LibraryInfo.debug_path := None;
     LibraryInfo.name := None; LibraryInfo.code_id := None; LibraryInfo.path := None; LibraryInfo.arch := None |}.
Example load_symbol_map_first_match_witness :
  ∃ m, load_symbol_map wanted = Some (Ok (inr m)) ∧
    (∃ m', iter_symbols m = Some (Ok (m', [(4096, "new")]))) ∧
    first_match wanted ("BBB" : DebugId)
      [SingleFile "missing.sym"; SingleFile "old.sym"; SingleFile "new.sym"] [] (inr m).
Proof.
  assert (match load_symbol_map wanted with
          | Some (Ok (inr m)) =>
              match iter_symbols m with Some (Ok (_, symbols)) => bool_decide (symbols = [(4096, "new")]) | _ => false end
          | _ => false
          end = true) as Hc by by vm_compute.
  destruct (load_symbol_map wanted) as [[[e|m]|]|] eqn:Hm; try discriminate Hc.
  exists m. split; [done|]. split.
  { destruct (iter_symbols m) as [[[m' symbols]|]|]; try discriminate Hc. apply bool_decide_eq_true_1 in Hc as ->.
    by exists m'. }
  exact (proj1 (load_symbol_map_first_match wanted _ _ (inr m) eq_refl eq_refl eq_refl) Hm).
Defined.
End examples.
End SymbolManager.
