(* ===== verification/Symbolicate.v ===== *)
(** The symbolication API: samply-api/src/symbolicate. *)
From S2P Require Import Prelude RustStr Nom LibTable CodeIds Demangle MappedPath SymbolMaps BreakpadRecords SyntheticJit.
From S2P Require Import JitDumpMap ExternalFiles ObjectSymbolMap ExternalLookups ElfFiles SymbolManager.
From stdpp Require Import options.
Open Scope Z_scope.

(** The order in which a hash map is iterated over is arbitrary. *)
Class HashOrder := {
  hash_iter : ∀ {K} `{Countable K} {V}, gmap K V → list (K * V);
  hash_iter_permutation : ∀ {K} `{Countable K} {V} (m : gmap K V), hash_iter m ≡ₚ map_to_list m
}.
(** [sort_unstable_by] promises a permutation, whatever the order. *)
Class UnstableSortBy := {
  sort_unstable_by : ∀ {A}, (A → A → comparison) → list A → list A;
  sort_unstable_by_permutation : ∀ {A} (cmp : A → A → comparison) (l : list A), sort_unstable_by cmp l ≡ₚ l
}.

Module Symbolicate.
Import RustStr Nom SymbolMaps SymbolManager.

(** * Requests *)
Record Lib := { lib_debug_name : string; breakpad_id : string }.
#[global] Instance Lib_eq_dec : EqDecision Lib.
Proof. solve_decision. Defined.
#[global] Program Instance Lib_countable : Countable Lib :=
  inj_countable' (λ l, (lib_debug_name l, breakpad_id l)) (λ '(n, b), {| lib_debug_name := n; breakpad_id := b |}) _.
Next Obligation. by intros []. Qed.
Record StackFrame := { module_index : Z; frame_address : Z }.
Record Job := { memory_map : list Lib; stacks : list (list StackFrame) }.
Inductive Request := WithJobsList (jobs : list Job) | JustOneJob (job : Job).
Definition jobs (r : Request) : list Job := match r with WithJobsList jobs => jobs | JustOneJob job => [job] end.

(** * Responses *)
Record ResponseFrameInfo := {
  inline_function : option string;
  inline_file : option string;
  inline_line : option Z
}.
Record DebugInfo := { file : option string; line : option Z; inlines : list ResponseFrameInfo }.
Record Symbol := {
  symbol_function : string;
  function_offset : Z;
  function_size : option Z;
  debug_info : option DebugInfo
}.
Record ResponseFrame := { frame_index : Z; module_offset : Z; module : string; symbol : option Symbol }.

Definition to_api_file_path (p : MappedPath.SourceFilePath) : string :=
  match MappedPath.mapped_path p with
  | Some mapped_path => MappedPath.to_special_path_str mapped_path
  | None => MappedPath.raw_path p
  end.

(** * Looked up addresses *)
Record AddressResult := {
  symbol_address : Z;
  result_symbol_name : string;
  result_function_size : option Z;
  inline_frames : option (list FrameDebugInfo)
}.
(** [address_results], a map of addresses, and [symbol_count]. *)
Record LookedUpAddresses := { address_results : gmap Z (option AddressResult); symbol_count : Z }.
Definition for_addresses (addresses : list Z) : LookedUpAddresses :=
  {| address_results := list_to_map ((λ a, (a, None)) <$> addresses); symbol_count := 0 |}.
(** [*get_mut(&address).unwrap() = ...]. *)
Definition set_result (l : LookedUpAddresses) (a : Z) (f : option AddressResult → AddressResult)
    : res LookedUpAddresses :=
  entry ← unwrap (address_results l !! a);
  Ok {| address_results := <[a := Some (f entry)]> (address_results l); symbol_count := symbol_count l |}.
Definition add_address_symbol (l : LookedUpAddresses) (a symbol_address' : Z) (symbol_name' : string)
    (function_size' : option Z) : res LookedUpAddresses :=
  set_result l a (λ _,
    {| symbol_address := symbol_address'; result_symbol_name := symbol_name';
       result_function_size := function_size'; inline_frames := None |}).
Definition with_debug_info (a : Z) (frames' : list FrameDebugInfo) (entry : option AddressResult) : AddressResult :=
  let outer_function_name := f ← last frames'; function f in
  match entry with
  | Some r =>
      {| symbol_address := symbol_address r; result_symbol_name := default (result_symbol_name r) outer_function_name;
         result_function_size := result_function_size r; inline_frames := Some frames' |}
  | None =>
      {| symbol_address := a; result_symbol_name := default (hex_string a) outer_function_name;
         result_function_size := None; inline_frames := Some frames' |}
  end.
Definition add_address_debug_info (l : LookedUpAddresses) (a : Z) (frames' : list FrameDebugInfo)
    : res LookedUpAddresses := set_result l a (with_debug_info a frames').
Definition set_total_symbol_count (l : LookedUpAddresses) (total_symbol_count : Z) : LookedUpAddresses :=
  {| address_results := address_results l; symbol_count := total_symbol_count |}.

(** The derived order of [ExternalFileAddressRef]. *)
Definition then_compare (c d : comparison) : comparison := match c with Eq => d | _ => c end.
Definition compare_file_ref (a b : ExternalFileRef) : comparison :=
  match a, b with
  | MachoExternalObject x, MachoExternalObject y => String.compare x y
  | MachoExternalObject _, ElfExternalDwo _ _ => Lt
  | ElfExternalDwo _ _, MachoExternalObject _ => Gt
  | ElfExternalDwo c p, ElfExternalDwo d q => then_compare (String.compare c d) (String.compare p q)
  end.
Definition variant (a : ExternalFileAddressInFileRef) : Z :=
  match a with MachoOsoObject _ _ => 0 | MachoOsoArchive _ _ _ => 1 | ElfDwo _ _ => 2 end.
Definition compare_in_file (a b : ExternalFileAddressInFileRef) : comparison :=
  match a, b with
  | MachoOsoObject n o, MachoOsoObject m p => then_compare (String.compare n m) (o ?= p)
  | MachoOsoArchive n s o, MachoOsoArchive m t p =>
      then_compare (String.compare n m) (then_compare (String.compare s t) (o ?= p))
  | ElfDwo d s, ElfDwo e t => then_compare (d ?= e) (s ?= t)
  | _, _ => variant a ?= variant b
  end.
Definition compare_external (a b : ExternalFileAddressRef) : comparison :=
  then_compare (compare_file_ref (file_ref a) (file_ref b))
    (compare_in_file (address_in_file a) (address_in_file b)).

(** * The API *)
Section api.
Context `{DebugIdType} `{!BreakpadRecords.BreakpadIds} `{!DebugIdOps} `{!CodeIds.UuidOps}.
Context `{Nom} `{Demanglers} `{ExternalObjects} `{!SplitDwarf} `{!Helper} `{!Formats}.
Context `{∀ bytes, JitDumpFile bytes} `{!DebugIds.UuidDebugIds} `{!Gimli} `{!ElfFiles} `{HashOrder} `{UnstableSort} `{UnstableSortBy}.
(** How many files a lookup of external frames may load. *)
Context (fuel : nat).

Inductive ApiError := Symbols (e : Error) | ParseRequestErrorContents (what : string).

Definition to_debug_id (breakpad_id' : string) : Error + DebugId :=
  match BreakpadRecords.from_breakpad breakpad_id' with
  | Some id => if decide (id = nil) then inl (InvalidBreakpadId breakpad_id') else inr id
  | None => inl (InvalidBreakpadId breakpad_id')
  end.

Definition push_to {K} `{Countable K} (k : K) (l : list Z) (m : gmap K (list Z)) : gmap K (list Z) :=
  <[k := default [] (m !! k) ++ l]> m.
Definition by_module_index (job : Job) : gmap Z (list Z) :=
  foldl (λ m frame, push_to (module_index frame) [frame_address frame] m) ∅ (concat (stacks job)).
Fixpoint gather_modules (memory_map' : list Lib) (modules : list (Z * list Z)) (m : gmap Lib (list Z))
    : ApiError + gmap Lib (list Z) :=
  match modules with
  | [] => inr m
  | (module_index', addresses) :: modules' =>
      match memory_map' !! Z.to_nat module_index' with
      | None => inl (ParseRequestErrorContents "Stack frame module index beyond the memoryMap")
      | Some lib => gather_modules memory_map' modules' (push_to lib addresses m)
      end
  end.
Fixpoint gather_jobs (js : list Job) (m : gmap Lib (list Z)) : ApiError + gmap Lib (list Z) :=
  match js with
  | [] => inr m
  | job :: js' =>
      match gather_modules (memory_map job) (hash_iter (by_module_index job)) m with
      | inl e => inl e
      | inr m' => gather_jobs js' m'
      end
  end.
Definition gather_requested_addresses (request : Request) : ApiError + gmap Lib (list Z) :=
  gather_jobs (jobs request) ∅.

(** The synchronous lookups, and the addresses that need a file. *)
Definition add_sync_result (l : LookedUpAddresses) (external_addresses : list (Z * ExternalFileAddressRef)) (a : Z)
    (info : option SyncAddressInfo) : res (LookedUpAddresses * list (Z * ExternalFileAddressRef)) :=
  match info with
  | None => Ok (l, external_addresses)
  | Some address_info =>
      let s := SymbolMaps.symbol address_info in
      l1 ← add_address_symbol l a (address s) (symbol_name s) (size s);
      match frames address_info with
      | Some (Available frames') => l2 ← add_address_debug_info l1 a frames'; Ok (l2, external_addresses)
      | Some (External ext_address) => Ok (l1, push external_addresses (a, ext_address))
      | None => Ok (l1, external_addresses)
      end
  end.
Fixpoint sync_lookups (m : SymbolMap) (l : LookedUpAddresses) (external_addresses : list (Z * ExternalFileAddressRef))
    (addresses : list Z) : loops (SymbolMap * LookedUpAddresses * list (Z * ExternalFileAddressRef)) :=
  match addresses with
  | [] => returned (Ok (m, l, external_addresses))
  | a :: addresses' =>
      '(m1, info) ← lookup_sync m (Relative a);
      '(l1, external_addresses1) ← returned (add_sync_result l external_addresses a info);
      sync_lookups m1 l1 external_addresses1 addresses'
  end.
Fixpoint external_lookups (m : SymbolMap) (l : LookedUpAddresses)
    (external_addresses : list (Z * ExternalFileAddressRef)) : loops LookedUpAddresses :=
  match external_addresses with
  | [] => returned (Ok l)
  | (a, ext_address) :: external_addresses' =>
      '(m1, found) ← lookup_external fuel m ext_address;
      match found with
      | None => external_lookups m1 l external_addresses'
      | Some frames' =>
          l1 ← returned (add_address_debug_info l a frames'); external_lookups m1 l1 external_addresses'
      end
  end.
Definition library_info (lib : Lib) (id : DebugId) : LibraryInfo.LibraryInfo :=
  {| LibraryInfo.debug_name := Some (lib_debug_name lib); LibraryInfo.debug_id := Some id;
     LibraryInfo.debug_path := None; LibraryInfo.name := None; LibraryInfo.code_id := None;
     LibraryInfo.path := None; LibraryInfo.arch := None |}.
(** [sort_unstable] and [dedup]. *)
Definition sorted_addresses (addresses : list Z) : list Z :=
  SymbolTable.SymbolTable.dedup_by_key id (sort_unstable_by_key id addresses).
Definition symbolicate_requested_addresses_for_lib (lib : Lib) (addresses : list Z)
    : loops (Error + LookedUpAddresses) :=
  let addresses' := sorted_addresses addresses in
  match to_debug_id (breakpad_id lib) with
  | inl e => returned (Ok (inl e))
  | inr id =>
      loaded ← load_symbol_map (library_info lib id);
      match loaded with
      | inl e => returned (Ok (inl e))
      | inr symbol_map =>
          let l := set_total_symbol_count (for_addresses addresses')
                     (u32_of_usize (SymbolMap.symbol_count symbol_map)) in
          '(m1, l1, external_addresses) ← sync_lookups symbol_map l [] addresses';
          l2 ← external_lookups m1 l1
                 (sort_unstable_by (λ x y, compare_external (snd x) (snd y)) external_addresses);
          returned (Ok (inr l2))
      end
  end.
Fixpoint symbolicate_libs (libs : list (Lib * list Z)) (m : gmap Lib (Error + LookedUpAddresses))
    : loops (gmap Lib (Error + LookedUpAddresses)) :=
  match libs with
  | [] => returned (Ok m)
  | (lib, addresses) :: libs' =>
      address_results' ← symbolicate_requested_addresses_for_lib lib addresses;
      symbolicate_libs libs' (<[lib := address_results']> m)
  end.
Definition symbolicate_requested_addresses (requested_addresses : gmap Lib (list Z))
    : loops (gmap Lib (Error + LookedUpAddresses)) :=
  symbolicate_libs (hash_iter requested_addresses) ∅.

(** ** The response *)
Record JobResult := {
  result_stacks : list (list ResponseFrame);
  found_modules : gmap string bool;
  module_errors : gmap string (list Error)
}.
(** [NonZeroU32::new]. *)
Definition non_zero (line' : Z) : option Z := if line' =? 0 then None else Some line'.
Definition api_file (f : FrameDebugInfo) : option string := to_api_file_path <$> file_path f.
Definition api_line (f : FrameDebugInfo) : option Z := l ← line_number f; non_zero l.
(** [split_last]: the outermost function and the functions inlined into it. *)
Definition debug_info_of (frames' : list FrameDebugInfo) : res DebugInfo :=
  outer ← unwrap (last frames');
  Ok {| file := api_file outer; line := api_line outer;
        inlines :=
          (λ f, {| inline_function := function f; inline_file := api_file f; inline_line := api_line f |})
            <$> take (length frames' - 1) frames' |}.
Definition symbol_of (a : Z) (r : AddressResult) : res Symbol :=
  info ← match inline_frames r with
         | None => Ok None
         | Some frames' => d ← debug_info_of frames'; Ok (Some d)
         end;
  Ok {| symbol_function := result_symbol_name r; function_offset := wrap_u32 (a - symbol_address r);
        function_size := result_function_size r; debug_info := info |}.
Definition response_frame_for_request_frame (frame : StackFrame) (frame_index' : Z) (memory_map' : list Lib)
    (symbols_by_module_index : gmap Z (gmap Z (option AddressResult))) : res ResponseFrame :=
  symbol' ←
    match symbols_by_module_index !! module_index frame with
    | None => Ok None
    | Some symbol_map =>
        address_result ← unwrap (symbol_map !! frame_address frame);
        match address_result with
        | None => Ok None
        | Some r => s ← symbol_of (frame_address frame) r; Ok (Some s)
        end
    end;
  lib ← index memory_map' (Z.to_nat (module_index frame));
  Ok {| frame_index := frame_index'; module_offset := frame_address frame; module := lib_debug_name lib;
        symbol := symbol' |}.
Fixpoint response_frames (frames' : list StackFrame) (i : nat) (memory_map' : list Lib)
    (symbols_by_module_index : gmap Z (gmap Z (option AddressResult))) : res (list ResponseFrame) :=
  match frames' with
  | [] => Ok []
  | frame :: frames'' =>
      f ← response_frame_for_request_frame frame (u32_of_usize i) memory_map' symbols_by_module_index;
      fs ← response_frames frames'' (S i) memory_map' symbols_by_module_index;
      Ok (f :: fs)
  end.
Definition response_stack_for_request_stack (memory_map' : list Lib)
    (symbols_by_module_index : gmap Z (gmap Z (option AddressResult))) (stack : list StackFrame)
    : res (list ResponseFrame) := response_frames stack 0 memory_map' symbols_by_module_index.
Definition module_key (lib : Lib) : string := lib_debug_name lib +:+ "/" +:+ breakpad_id lib.
(** The loop over the modules of a job. *)
Record Modules := {
  found : gmap string bool;
  errors : gmap string (list Error);
  symbols_by_module_index : gmap Z (gmap Z (option AddressResult))
}.
Fixpoint collect_modules (symbolicated : gmap Lib (Error + LookedUpAddresses)) (i : nat) (libs : list Lib) (m : Modules)
    : Modules :=
  match libs with
  | [] => m
  | lib :: libs' =>
      collect_modules symbolicated (S i) libs'
        match symbolicated !! lib with
        | None => m
        | Some (inr symbols) =>
            {| found := <[module_key lib := true]> (found m); errors := errors m;
               symbols_by_module_index :=
                 <[u32_of_usize i := address_results symbols]> (symbols_by_module_index m) |}
        | Some (inl err) =>
            {| found := <[module_key lib := false]> (found m); errors := <[module_key lib := [err]]> (errors m);
               symbols_by_module_index := symbols_by_module_index m |}
        end
  end.
Definition no_modules : Modules := {| found := ∅; errors := ∅; symbols_by_module_index := ∅ |}.
Definition result_for_job (symbolicated : gmap Lib (Error + LookedUpAddresses)) (job : Job) : res JobResult :=
  let m := collect_modules symbolicated 0 (memory_map job) no_modules in
  result_stacks' ←
    mapM (response_stack_for_request_stack (memory_map job) (symbols_by_module_index m)) (stacks job);
  Ok {| result_stacks := result_stacks'; found_modules := found m; module_errors := errors m |}.
Definition create_response (request : Request) (symbolicated : gmap Lib (Error + LookedUpAddresses))
    : res (list JobResult) := mapM (result_for_job symbolicated) (jobs request).
Definition query_api (request : Request) : loops (ApiError + list JobResult) :=
  match gather_requested_addresses request with
  | inl e => returned (Ok (inl e))
  | inr requested_addresses =>
      symbolicated_addresses ← symbolicate_requested_addresses requested_addresses;
      response ← returned (create_response request symbolicated_addresses);
      returned (Ok (inr response))
  end.

(** * What the symbol maps answer *)

(** The frames at an address, of the map or of an external file. *)
Definition full_frames (sync : Z → option SyncAddressInfo)
    (ext : ExternalFileAddressRef → option (list FrameDebugInfo)) (a : Z) : option (list FrameDebugInfo) :=
  info ← sync a;
  match frames info with
  | Some (Available fs) => Some fs
  | Some (External e) => ext e
  | None => None
  end.
(** A symbol map whose caches do not show: it answers a lookup and a lookup of
    external frames in the same way whatever was asked before. *)
Definition pure_map (m : SymbolMap) (sync : Z → option SyncAddressInfo)
    (ext : ExternalFileAddressRef → option (list FrameDebugInfo)) : Prop :=
  ∃ I : SymbolMap → Prop, I m ∧
    (∀ m' a, I m' → ∃ m'', lookup_sync m' (Relative a) = Some (Ok (m'', sync a)) ∧ I m'') ∧
    (∀ m' e, I m' → ∃ m'', lookup_external fuel m' e = Some (Ok (m'', ext e)) ∧ I m'') ∧
    (∀ m' a, I m' → ∃ m'' r, lookup fuel m' (Relative a) = Some (Ok (m'', r)) ∧ I m'' ∧
       debug_file_location m' = debug_file_location m ∧ (ai ← r; info_frames ai) = full_frames sync ext a).
(** Where there are frames, there is at least one. *)
Definition frames_ok (sync : Z → option SyncAddressInfo)
    (ext : ExternalFileAddressRef → option (list FrameDebugInfo)) : Prop :=
  (∀ a info fs, sync a = Some info → frames info = Some (Available fs) → fs ≠ []) ∧
  (∀ e fs, ext e = Some fs → fs ≠ []).
(** What is known of an address without external files, and with them. *)
Definition sync_answer (sync : Z → option SyncAddressInfo) (a : Z) : option AddressResult :=
  info ← sync a;
  let s := SymbolMaps.symbol info in
  let r := {| symbol_address := address s; result_symbol_name := symbol_name s; result_function_size := size s;
              inline_frames := None |} in
  Some (match frames info with Some (Available fs) => with_debug_info a fs (Some r) | _ => r end).
Definition pending (sync : Z → option SyncAddressInfo) (a : Z) : option ExternalFileAddressRef :=
  info ← sync a; match frames info with Some (External e) => Some e | _ => None end.
Definition answer_for (sync : Z → option SyncAddressInfo)
    (ext : ExternalFileAddressRef → option (list FrameDebugInfo)) (a : Z) : option AddressResult :=
  match e ← pending sync a; ext e with
  | Some fs => Some (with_debug_info a fs (sync_answer sync a))
  | None => sync_answer sync a
  end.

Lemma set_result_ok l a f entry : address_results l !! a = Some entry →
  ∃ l', set_result l a f = Ok l' ∧ address_results l' = <[a := Some (f entry)]> (address_results l).
Proof. intros Ha. unfold set_result. rewrite Ha. by eexists. Qed.
Definition pending_at (sync : Z → option SyncAddressInfo) (a : Z) : option (Z * ExternalFileAddressRef) :=
  e ← pending sync a; Some (a, e).
Lemma add_sync_result_ok sync l es a : address_results l !! a = Some None →
  ∃ l', add_sync_result l es a (sync a) = Ok (l', es ++ option_list (pending_at sync a)) ∧
    address_results l' = <[a := sync_answer sync a]> (address_results l).
Proof.
  intros Ha. unfold add_sync_result, pending_at, pending, sync_answer.
  destruct (sync a) as [info|]; cbn [mbind option_bind option_list];
    [|exists l; rewrite app_nil_r; by rewrite insert_id].
  unfold add_address_symbol. destruct (set_result_ok l a (λ _, {| symbol_address := address (SymbolMaps.symbol info);
      result_symbol_name := symbol_name (SymbolMaps.symbol info); result_function_size := size (SymbolMaps.symbol info);
      inline_frames := None |}) None Ha) as (l1 & -> & Hl1). cbn [mbind res_bind].
  destruct (frames info) as [[fs|e]|]; cbn [option_list].
  - unfold add_address_debug_info. edestruct (set_result_ok l1 a (with_debug_info a fs)) as (l2 & -> & Hl2).
    { by rewrite Hl1, lookup_insert_eq. }
    exists l2. cbn [mbind res_bind]. rewrite app_nil_r. split; [done|]. by rewrite Hl2, Hl1, insert_insert_eq.
  - by exists l1.
  - exists l1. by rewrite app_nil_r.
Qed.
Lemma sync_lookups_ok sync (I : SymbolMap → Prop) m l es addresses :
  (∀ m' a, I m' → ∃ m'', lookup_sync m' (Relative a) = Some (Ok (m'', sync a)) ∧ I m'') →
  I m → NoDup addresses → (∀ a, a ∈ addresses → address_results l !! a = Some None) →
  ∃ m' l', sync_lookups m l es addresses = Some (Ok (m', l', es ++ omap (pending_at sync) addresses)) ∧ I m' ∧
    ∀ a, address_results l' !! a =
      if decide (a ∈ addresses) then Some (sync_answer sync a) else address_results l !! a.
Proof.
  intros Hstep. revert m l es. induction addresses as [|a addresses IH]; intros m l es Hm Hnd Hl.
  { exists m, l. cbn. rewrite app_nil_r. split; [done|]. split; [done|]. intros a. by rewrite decide_False by set_solver. }
  apply NoDup_cons in Hnd as [Ha Hnd]. cbn [sync_lookups omap list_omap].
  destruct (Hstep m a Hm) as (m1 & -> & Hm1). cbn [mbind loops_bind].
  destruct (add_sync_result_ok sync l es a) as (l1 & -> & Hl1); [apply Hl; left|]. cbn [returned mbind loops_bind].
  destruct (IH m1 l1 (es ++ option_list (pending_at sync a)) Hm1 Hnd) as (m' & l' & -> & Hm' & Hl').
  { intros a' Ha'. rewrite Hl1, lookup_insert_ne by set_solver. apply Hl. by right. }
  exists m', l'. rewrite <- app_assoc. split; [by destruct (pending_at sync a)|]. split; [done|].
  intros a'. rewrite Hl', Hl1. destruct (decide (a' ∈ addresses)); [by rewrite decide_True by (by right)|].
  destruct (decide (a' = a)) as [->|]; [by rewrite decide_True, lookup_insert_eq by left|].
  by rewrite decide_False, lookup_insert_ne by set_solver.
Qed.
Lemma external_lookups_ok ext (I : SymbolMap → Prop) m l es :
  (∀ m' e, I m' → ∃ m'', lookup_external fuel m' e = Some (Ok (m'', ext e)) ∧ I m'') →
  I m → NoDup es.*1 → (∀ a, a ∈ es.*1 → is_Some (address_results l !! a)) →
  ∃ l', external_lookups m l es = Some (Ok l') ∧
    (∀ a e, (a, e) ∈ es → address_results l' !! a =
      match ext e with
      | Some fs => (λ entry, Some (with_debug_info a fs entry)) <$> address_results l !! a
      | None => address_results l !! a
      end) ∧
    (∀ a, a ∉ es.*1 → address_results l' !! a = address_results l !! a).
Proof.
  intros Hstep. revert m l. induction es as [|[a e] es IH]; intros m l Hm Hnd Hl.
  { exists l. split; [done|]. split; [by intros a e ?%not_elem_of_nil|done]. }
  cbn [fmap list_fmap fst] in Hnd, Hl. apply NoDup_cons in Hnd as [Ha Hnd]. cbn [external_lookups].
  destruct (Hstep m e Hm) as (m1 & -> & Hm1). cbn [mbind loops_bind].
  assert (∃ l1, (match ext e with
                 | None => external_lookups m1 l es
                 | Some frames' => l1 ← returned (add_address_debug_info l a frames'); external_lookups m1 l1 es
                 end) = external_lookups m1 l1 es ∧
      address_results l1 !! a = match ext e with
        | Some fs => (λ entry, Some (with_debug_info a fs entry)) <$> address_results l !! a
        | None => address_results l !! a end ∧
      ∀ a', a' ≠ a → address_results l1 !! a' = address_results l !! a') as (l1 & -> & Hl1a & Hl1).
  { destruct (ext e) as [fs|]; [|by exists l]. destruct (Hl a ltac:(left)) as [entry Hentry].
    destruct (set_result_ok l a (with_debug_info a fs) entry Hentry) as (l1 & Hs & Hl1). exists l1.
    unfold add_address_debug_info. rewrite Hs. split; [done|]. rewrite Hl1, Hentry. split; [by rewrite lookup_insert_eq|].
    intros a' Hne. by rewrite lookup_insert_ne. }
  destruct (IH m1 l1 Hm1 Hnd) as (l' & -> & Hin & Hout).
  { intros a' Ha'. rewrite Hl1 by set_solver. apply Hl. by right. }
  exists l'. split; [done|]. split.
  - intros a' e' [[= -> ->]|Hin']%elem_of_cons; [by rewrite Hout|]. rewrite (Hin a' e' Hin').
    assert (a' ≠ a) by (intros ->; apply Ha, list_elem_of_fmap; by exists (a, e')). by rewrite Hl1.
  - intros a' Hn. cbn [fmap list_fmap fst] in Hn. rewrite Hout by set_solver. apply Hl1. set_solver.
Qed.
Lemma dedup_addresses_sorted (last : Z) l : StronglySorted Z.le (last :: l) →
  StronglySorted Z.lt (last :: SymbolTable.SymbolTable.dedup_from id last l) ∧
  ∀ x, x ∈ last :: SymbolTable.SymbolTable.dedup_from id last l ↔ x ∈ last :: l.
Proof.
  revert last. induction l as [|y l IH]; intros last Hs; [split; [by repeat constructor|done]|].
  apply StronglySorted_cons in Hs as [Hlast Hs]. apply Forall_cons in Hlast as [Hy Hlast].
  cbn [SymbolTable.SymbolTable.dedup_from id]. destruct (Z.eqb_spec y last) as [->|Hne].
  - destruct (IH last Hs) as [Hs' Hin]. split; [done|]. intros x. rewrite Hin. set_solver.
  - destruct (IH y Hs) as [Hs' Hin]. split; [|intros x; rewrite elem_of_cons, Hin; set_solver].
    apply StronglySorted_cons. split; [|done]. apply StronglySorted_cons in Hs' as [Hall _].
    assert (last < y) by lia. constructor; [done|]. eapply Forall_impl; [exact Hall|]. cbn. lia.
Qed.
Lemma sorted_addresses_ok addresses :
  NoDup (sorted_addresses addresses) ∧ ∀ a, a ∈ sorted_addresses addresses ↔ a ∈ addresses.
Proof.
  unfold sorted_addresses. pose proof (sort_unstable_permutation id addresses) as Hp.
  pose proof (sort_unstable_sorted id addresses) as Hs. destruct (sort_unstable_by_key id addresses) as [|x l].
  { split; [constructor|]. intros a. by rewrite <- Hp. }
  destruct (dedup_addresses_sorted x l Hs) as [Hs' Hin]. split; [|intros a; rewrite <- Hp; apply Hin].
  revert Hs'. cbn [SymbolTable.SymbolTable.dedup_by_key]. generalize (x :: SymbolTable.SymbolTable.dedup_from id x l).
  induction 1 as [|y ys Hys IH Hy]; constructor; [|done]. intros Hin'. rewrite Forall_forall in Hy. specialize (Hy _ Hin'). lia.
Qed.
Lemma pending_nodup sync addresses : NoDup addresses →
  NoDup (omap (pending_at sync) addresses).*1 ∧
  ∀ a e, (a, e) ∈ omap (pending_at sync) addresses ↔ a ∈ addresses ∧ pending sync a = Some e.
Proof.
  intros Hnd. assert (∀ a e, (a, e) ∈ omap (pending_at sync) addresses ↔ a ∈ addresses ∧ pending sync a = Some e) as Hin.
  { intros a e. rewrite list_elem_of_omap. unfold pending_at. split.
    - intros (x & Hx & Hp). destruct (pending sync x) as [e'|] eqn:He; [|done]. by injection Hp as -> ->.
    - intros [Ha He]. exists a. by rewrite He. }
  split; [|done]. clear Hin. induction Hnd as [|a addresses Ha _ IH]; [constructor|]. cbn [omap list_omap].
  destruct (pending_at sync a) as [[a' e]|] eqn:Hp; [|done]. unfold pending_at in Hp.
  destruct (pending sync a); [|done]. injection Hp as <- _. cbn. constructor; [|done].
  intros ([a'' e''] & Heq & (x & Hx & Hp)%list_elem_of_omap)%list_elem_of_fmap. cbn in Heq. subst a''.
  unfold pending_at in Hp. destruct (pending sync x); [|done]. injection Hp as -> _. done.
Qed.

(** What there is to know about a library: why it has no symbols, or what they are
    at each address. *)
Definition lib_outcome (lib : Lib) (out : Error + (Z → option AddressResult)) : Prop :=
  match to_debug_id (breakpad_id lib) with
  | inl e => out = inl e
  | inr id =>
      ∃ loaded, load_symbol_map (library_info lib id) = Some (Ok loaded) ∧
        match loaded with
        | inl e => out = inl e
        | inr m => ∃ sync ext, pure_map m sync ext ∧ frames_ok sync ext ∧ out = inr (answer_for sync ext)
        end
  end.
(** What was looked up of it agrees. *)
Definition agrees (addresses : list Z) (out : Error + (Z → option AddressResult)) (r : Error + LookedUpAddresses)
    : Prop :=
  match out, r with
  | inl e, inl e' => e = e'
  | inr f, inr l => ∀ a, a ∈ addresses → address_results l !! a = Some (f a)
  | _, _ => False
  end.
Lemma for_lib_ok lib addresses out : lib_outcome lib out →
  ∃ r, symbolicate_requested_addresses_for_lib lib addresses = Some (Ok r) ∧ agrees addresses out r.
Proof.
  intros Hout. unfold symbolicate_requested_addresses_for_lib. unfold lib_outcome in Hout.
  destruct (to_debug_id (breakpad_id lib)) as [e|id]; [subst; by eexists|].
  destruct Hout as (loaded & -> & Hout). cbn [mbind loops_bind].
  destruct loaded as [e|m]; [subst; by eexists|]. destruct Hout as (sync & ext & (I & Hm & Hsync & Hext & _) & _ & ->).
  destruct (sorted_addresses_ok addresses) as [Hnd Hin]. set (as' := sorted_addresses addresses) in *.
  set (l0 := set_total_symbol_count _ _).
  assert (∀ a, address_results l0 !! a = if decide (a ∈ as') then Some None else None) as Hl0.
  { intros a. unfold l0, for_addresses. cbn [address_results set_total_symbol_count]. destruct (decide (a ∈ as')) as [Ha|Ha].
    - apply elem_of_list_to_map.
      + rewrite <- list_fmap_compose. unfold compose. cbn. by rewrite list_fmap_id.
      + apply list_elem_of_fmap. by exists a.
    - apply not_elem_of_list_to_map. rewrite <- list_fmap_compose. unfold compose. cbn. by rewrite list_fmap_id. }
  destruct (sync_lookups_ok sync I m l0 [] as' Hsync Hm Hnd) as (m' & l1 & -> & Hm' & Hl1).
  { intros a Ha. by rewrite Hl0, decide_True. }
  cbn [returned mbind loops_bind]. destruct (pending_nodup sync as' Hnd) as [Hnd' Hin'].
  set (es := omap (pending_at sync) as') in *. rewrite app_nil_l.
  set (cmp := λ x y : Z * ExternalFileAddressRef, compare_external x.2 y.2).
  pose proof (sort_unstable_by_permutation cmp es) as Hp.
  destruct (external_lookups_ok ext I m' l1 (sort_unstable_by cmp es) Hext Hm') as (l2 & -> & Hl2in & Hl2out).
  { by rewrite Hp. }
  { intros a. rewrite Hp. intros ([a' e] & -> & [Ha' _]%Hin')%list_elem_of_fmap. rewrite Hl1, decide_True by done. by eexists. }
  cbn [mbind loops_bind]. eexists. split; [done|]. cbn [agrees]. intros a Ha%Hin. unfold answer_for.
  destruct (pending sync a) as [e|] eqn:He; cbn [mbind option_bind].
  - rewrite (Hl2in a e) by (rewrite Hp; by apply Hin'). rewrite Hl1, decide_True by done. by destruct (ext e).
  - rewrite Hl2out, Hl1, decide_True; [done..|]. rewrite Hp.
    intros ([a' e'] & Heq & [_ He']%Hin')%list_elem_of_fmap. cbn in Heq. congruence.
Qed.
End api.
End Symbolicate.

