(* ===== verification/SymbolicateAnswers.v ===== *)
(** What the symbolication API answers: the gathering of the addresses, the loop over
    the libraries and the response, of samply-api/src/symbolicate/mod.rs, against a
    reference. *)
From S2P Require Import Prelude RustStr Nom LibTable CodeIds Demangle MappedPath SymbolMaps BreakpadRecords SyntheticJit.
From S2P Require Import LineBuffer BreakpadIndex BreakpadSymbolMap BreakpadLookup BreakpadFile JitDumpMap.
From S2P Require Import ExternalFiles ObjectSymbolMap ExternalLookups ElfFiles SymbolManager Symbolicate.
From stdpp Require Import options.
Open Scope Z_scope.

Module SymbolicateAnswers.
Import RustStr Nom SymbolMaps SymbolManager Symbolicate.

(** * Maps of lists *)
Section gather.
Context {K : Type} `{Countable K}.
(** The lists of a map hold exactly the pairs of [S], and none of them is empty. *)
Definition holds (m : gmap K (list Z)) (S : K → Z → Prop) : Prop :=
  ∀ k, match m !! k with
       | Some l => l ≠ [] ∧ ∀ a, a ∈ l ↔ S k a
       | None => ∀ a, ¬ S k a
       end.
Lemma holds_empty : holds ∅ (λ _ _, False).
Proof. intros k. rewrite lookup_empty. auto. Qed.
Lemma holds_iff m S S' : (∀ k a, S k a ↔ S' k a) → holds m S → holds m S'.
Proof.
  intros Hiff Hm k. specialize (Hm k). destruct (m !! k) as [l|].
  - destruct Hm as [Hne Hl]. split; [done|]. intros a. by rewrite Hl.
  - intros a. rewrite <- Hiff. apply Hm.
Qed.
Lemma holds_push_to m S k l : holds m S → l ≠ [] → holds (push_to k l m) (λ k' a, S k' a ∨ k' = k ∧ a ∈ l).
Proof.
  intros Hm Hl k'. unfold push_to. destruct (decide (k' = k)) as [->|Hne].
  - rewrite lookup_insert_eq. specialize (Hm k). split; [by destruct (default [] (m !! k)), l|].
    intros a. rewrite elem_of_app. destruct (m !! k) as [l0|]; cbn [default].
    + destruct Hm as [_ ->]. naive_solver.
    + specialize (Hm a). set_solver.
  - rewrite lookup_insert_ne by done. specialize (Hm k'). destruct (m !! k') as [l0|].
    + destruct Hm as [Hne' Hl']. split; [done|]. intros a. rewrite Hl'. naive_solver.
    + intros a. specialize (Hm a). naive_solver.
Qed.
End gather.

(** * The requested addresses *)
Section requested.
Context `{DebugIdType} `{Order : HashOrder}.

Definition frames_of (job : Job) : list StackFrame := concat (stacks job).
Definition lib_of (job : Job) (frame : StackFrame) : option Lib := memory_map job !! Z.to_nat (module_index frame).
(** Each frame is of a module of its job. *)
Definition in_range (job : Job) : bool := forallb (λ frame, bool_decide (is_Some (lib_of job frame))) (frames_of job).
Definition asked (js : list Job) (lib : Lib) (a : Z) : Prop :=
  ∃ job frame, job ∈ js ∧ frame ∈ frames_of job ∧ lib_of job frame = Some lib ∧ frame_address frame = a.
Definition requested (js : list Job) (lib : Lib) : bool :=
  existsb (λ job, existsb (λ frame, bool_decide (lib_of job frame = Some lib)) (frames_of job)) js.
Lemma requested_spec js lib : requested js lib = true ↔ ∃ a, asked js lib a.
Proof.
  unfold requested, asked. rewrite existsb_exists. setoid_rewrite existsb_exists.
  setoid_rewrite <- list_elem_of_In. setoid_rewrite bool_decide_eq_true. naive_solver.
Qed.
Lemma in_range_spec job : in_range job = true ↔ ∀ frame, frame ∈ frames_of job → is_Some (lib_of job frame).
Proof.
  unfold in_range. rewrite forallb_forall.
  setoid_rewrite <- list_elem_of_In. by setoid_rewrite bool_decide_eq_true.
Qed.

Lemma by_module_index_holds job :
  holds (by_module_index job) (λ i a, ∃ frame, frame ∈ frames_of job ∧ module_index frame = i ∧ frame_address frame = a).
Proof.
  unfold by_module_index, frames_of. induction (concat (stacks job)) as [|frame fs IH] using rev_ind.
  { apply (holds_iff _ (λ _ _, False)); [set_solver|apply holds_empty]. }
  rewrite foldl_app. cbn [foldl]. eapply holds_iff; [|apply holds_push_to; [exact IH|done]].
  intros i a. cbn. set_solver.
Qed.
Lemma gather_modules_ok libs modules m S :
  holds m S → Forall (λ p, p.2 ≠ []) modules →
  (∀ i l, (i, l) ∈ modules → is_Some (libs !! Z.to_nat i)) →
  ∃ m', gather_modules libs modules m = inr m' ∧
    holds m' (λ lib a, S lib a ∨ ∃ i l, (i, l) ∈ modules ∧ libs !! Z.to_nat i = Some lib ∧ a ∈ l).
Proof.
  revert m S. induction modules as [|[i l] modules IH]; intros m S Hm Hne Hin; cbn [gather_modules].
  { exists m. split; [done|]. eapply holds_iff; [|exact Hm]. intros lib a. cbn. set_solver. }
  apply Forall_cons in Hne as [Hl Hne]. destruct (Hin i l ltac:(left)) as [lib Hlib]. rewrite Hlib.
  destruct (IH _ _ (holds_push_to m S lib l Hm Hl) Hne) as (m' & -> & Hm'); [intros i' l' Hin'; eapply Hin; by right|].
  exists m'. split; [done|]. eapply holds_iff; [|exact Hm']. intros lib' a. cbn.
  setoid_rewrite elem_of_cons. naive_solver.
Qed.
Lemma gather_modules_out libs modules m i l :
  (i, l) ∈ modules → libs !! Z.to_nat i = None →
  gather_modules libs modules m = inl (ParseRequestErrorContents "Stack frame module index beyond the memoryMap").
Proof.
  revert m. induction modules as [|[i' l'] modules IH]; intros m; [by intros ?%not_elem_of_nil|].
  intros Hin Hout. cbn [gather_modules]. destruct (libs !! Z.to_nat i') as [lib|] eqn:Hl; [|done].
  apply IH; [|done]. apply elem_of_cons in Hin as [[= -> ->]|]; congruence.
Qed.
(** The modules of a job, in the order of the hash map. *)
Lemma modules_spec job :
  Forall (λ p, p.2 ≠ []) (hash_iter (by_module_index job)) ∧
  ∀ i a, (∃ l, (i, l) ∈ hash_iter (by_module_index job) ∧ a ∈ l) ↔
    ∃ frame, frame ∈ frames_of job ∧ module_index frame = i ∧ frame_address frame = a.
Proof.
  pose proof (by_module_index_holds job) as Hh.
  assert (∀ i l, (i, l) ∈ hash_iter (by_module_index job) ↔ by_module_index job !! i = Some l) as Hin
    by (intros i l; by rewrite hash_iter_permutation, elem_of_map_to_list).
  split.
  - apply Forall_forall. intros [i l] Hl%Hin. specialize (Hh i). rewrite Hl in Hh. apply Hh.
  - intros i a. setoid_rewrite Hin. specialize (Hh i). destruct (by_module_index job !! i) as [l|].
    + destruct Hh as [_ Hl]. rewrite <- Hl. naive_solver.
    + split; [naive_solver|]. intros (frame & Hf). exfalso. by apply (Hh a); exists frame.
Qed.
Lemma gather_jobs_ok js m S : holds m S →
  if forallb in_range js
  then ∃ m', gather_jobs js m = inr m' ∧ holds m' (λ lib a, S lib a ∨ asked js lib a)
  else gather_jobs js m = inl (ParseRequestErrorContents "Stack frame module index beyond the memoryMap").
Proof.
  revert m S. induction js as [|job js IH]; intros m S Hm; cbn [gather_jobs forallb].
  { exists m. split; [done|]. eapply holds_iff; [|exact Hm]. unfold asked. set_solver. }
  destruct (modules_spec job) as [Hne Hmod]. destruct (in_range job) eqn:Hr; cbn [andb].
  - assert (Hr' := proj1 (in_range_spec job) Hr).
    edestruct (gather_modules_ok (memory_map job) _ m S Hm Hne) as (m' & -> & Hm').
    { intros i l Hil. pose proof (proj1 (Forall_forall _ _) Hne _ Hil) as Hl. cbn in Hl.
      destruct l as [|a l]; [done|]. destruct (proj1 (Hmod i a)) as (frame & Hf & <- & _); [eexists; split; [exact Hil|left]|].
      by apply Hr'. }
    specialize (IH m' _ Hm'). destruct (forallb in_range js); [|done]. destruct IH as (m'' & -> & Hm'').
    exists m''. split; [done|]. eapply holds_iff; [|exact Hm'']. intros lib a. cbn.
    assert ((∃ i l, (i, l) ∈ hash_iter (by_module_index job) ∧ memory_map job !! Z.to_nat i = Some lib ∧ a ∈ l) ↔
            ∃ frame, frame ∈ frames_of job ∧ lib_of job frame = Some lib ∧ frame_address frame = a) as ->.
    { unfold lib_of. split.
      - intros (i & l & Hil & Hlib & Ha). destruct (proj1 (Hmod i a)) as (frame & Hf & <- & <-); [by exists l|]. by exists frame.
      - intros (frame & Hf & Hlib & <-). destruct (proj2 (Hmod (module_index frame) (frame_address frame))) as (l & Hl & Ha);
          [by exists frame|]. by exists (module_index frame), l. }
    unfold asked. setoid_rewrite elem_of_cons. naive_solver.
  - assert (∃ frame, frame ∈ frames_of job ∧ lib_of job frame = None) as (frame & Hf & Hout).
    { apply not_true_iff_false in Hr. rewrite in_range_spec in Hr.
      destruct (decide (Exists (λ frame, lib_of job frame = None) (frames_of job))) as [He|Hn].
      - apply Exists_exists in He. naive_solver.
      - exfalso. apply Hr. intros frame Hf. apply not_eq_None_Some. intros Ho. apply Hn, Exists_exists. eauto. }
    destruct (proj2 (Hmod (module_index frame) (frame_address frame))) as (l & Hl & Ha); [by exists frame|].
    by rewrite (gather_modules_out _ _ m _ _ Hl Hout).
Qed.
Lemma gather_ok request :
  if forallb in_range (jobs request)
  then ∃ m, gather_requested_addresses request = inr m ∧ holds m (asked (jobs request))
  else gather_requested_addresses request =
         inl (ParseRequestErrorContents "Stack frame module index beyond the memoryMap").
Proof.
  pose proof (gather_jobs_ok (jobs request) ∅ _ holds_empty) as Hg. unfold gather_requested_addresses.
  destruct (forallb in_range (jobs request)); [|done]. destruct Hg as (m & -> & Hm). exists m. split; [done|].
  eapply holds_iff; [|exact Hm]. naive_solver.
Qed.
End requested.

(** * The symbol maps

    Those of the crate that are no object files with debug information answer in the
    same way whatever was asked before. *)
Section pure.
Context `{DebugIdType} `{!BreakpadRecords.BreakpadIds} `{!DebugIdOps} `{!CodeIds.UuidOps}.
Context `{Nom} `{Demanglers} `{ExternalObjects} `{!SplitDwarf} `{!Helper} `{!Formats}.
Context `{∀ bytes, JitDumpFile bytes} `{!DebugIds.UuidDebugIds} `{!Gimli} `{!ElfFiles}.
(** A map with caches that stay in order, [I], and do not show in its answers. *)
Section caches.
Context (fuel : nat) (m : SymbolMap) (t : SymbolMapTrait) (sync : Z → option SyncAddressInfo).
Context (I : trait_caches t → Prop) (make : SymbolMapTrait → InnerSymbolMap).
Hypothesis Hmake : make = (λ t, WithoutAddFile (AnsweringMap t)) ∨ make = Direct.
Hypothesis Hm : inner m = make t.
Hypothesis Hh : has_helper m = false.
Hypothesis HI : I (trait_state t).
Hypothesis Hsync : ∀ c a, I c → ∃ c', trait_lookup_sync t c (Relative a) = Some (Ok (sync a, c')) ∧ I c'.
Let same (m' : SymbolMap) : Prop := ∃ c, I c ∧ m' = with_inner_map m (make (with_trait_state t c)).
Lemma trait_sync m' a : same m' → ∃ m'', lookup_sync m' (Relative a) = Some (Ok (m'', sync a)) ∧ same m''.
Proof using Hm Hmake Hsync.
  intros (c & Hc & ->). destruct (Hsync c a Hc) as (c' & Hl & Hc').
  exists (with_inner_map m (make (with_trait_state t c'))). split; [|by exists c'].
  unfold lookup_sync. destruct Hmake as [-> | ->]; cbn [inner with_inner_map]; unfold lookup_trait;
    cbn [trait_lookup_sync trait_state with_trait_state]; by rewrite Hl.
Qed.
Lemma trait_map_pure : (∀ a info e, sync a = Some info → frames info ≠ Some (External e)) →
  pure_map fuel m sync (λ _, None).
Proof using All.
  intros Hext. exists same. split.
  { exists (trait_state t). split; [done|]. destruct m as [l i h]. cbn in *. subst i h. by destruct t. }
  split; [apply trait_sync|]. split.
  - intros m' e Hm'. exists m'. split; [|done]. destruct Hm' as (c & Hc & ->). unfold lookup_external.
    cbn [has_helper with_inner_map]. by rewrite Hh.
  - intros m' a Hm'. destruct (trait_sync m' a Hm') as (m'' & Hl & Hm''). exists m''. unfold lookup. rewrite Hl.
    cbn [mbind loops_bind]. unfold full_frames. destruct Hm' as (c & Hc & ->).
    destruct (sync a) as [info|] eqn:Ha; cbn [mbind option_bind]; [|by eexists].
    specialize (Hext a info). destruct (frames info) as [[fs|e]|]; [by eexists| |by eexists].
    by destruct (Hext e Ha).
Qed.
End caches.

(** ** Breakpad and jitdump files *)
#[local] Existing Instance contents.
Lemma breakpad_map_pure fuel l (f : File) idx :
  BreakpadLookup.index_known idx →
  pure_map fuel (new_plain l (AnsweringMap (breakpad_trait f idx))) (λ a, BreakpadLookup.answer (bytes := file_bytes f) idx (Relative a)) (λ _, None).
Proof using All.
  intros Hk. apply (trait_map_pure fuel _ (breakpad_trait f idx) _ (BreakpadLookup.caches_ok (bytes := file_bytes f) idx)
                        (λ t, WithoutAddFile (AnsweringMap t))); [by left|done|done|..].
  - apply BreakpadLookup.new_caches_ok.
  - intros cs a Hcs. by apply BreakpadLookup.lookup_sync_ok.
  - intros a info e. cbn [BreakpadLookup.answer]. destruct (BreakpadLookup.symbol_before idx a) as [[sa [p|g]]|]; [| |done].
    + cbn [mbind option_bind fst snd]. unfold BreakpadLookup.public_answer. destruct (BreakpadSymbolMap.ok_of _); [|done].
      by intros [= <-].
    + cbn [mbind option_bind fst snd]. destruct (BreakpadLookup.func_of g); [|done]. cbn [mbind option_bind].
      unfold BreakpadLookup.answer_func. destruct (_ <=? _); [done|]. by intros [= <-].
Qed.
Lemma breakpad_frames_ok (f : File) idx :
  frames_ok (λ a, BreakpadLookup.answer (bytes := file_bytes f) idx (Relative a)) (λ _, None).
Proof using All.
  split; [|done]. intros a info fs. cbn [BreakpadLookup.answer].
  destruct (BreakpadLookup.symbol_before idx a) as [[sa [p|g]]|]; [| |done]; cbn [mbind option_bind fst snd].
  - unfold BreakpadLookup.public_answer. destruct (BreakpadSymbolMap.ok_of _); [|done]. by intros [= <-].
  - destruct (BreakpadLookup.func_of g); [|done]. cbn [mbind option_bind].
    unfold BreakpadLookup.answer_func. destruct (_ <=? _); [done|]. intros [= <-] [= <-].
    unfold BreakpadLookup.frames_at, BreakpadLookup.frames_of. destruct (BreakpadLookup.calls_of _ _ _) as [calls n].
    rewrite reverse_snoc. done.
Qed.
Lemma jitdump_map_pure fuel l (f : File) (idx : JitDumpMap.JitDumpIndex (bytes := file_bytes f)) :
  length (JitDumpMap.entries idx) = length (JitDumpMap.relative_addresses idx) →
  pure_map fuel (new_plain l (AnsweringMap (jitdump_trait f idx))) (λ a, JitDumpMap.jit_answer idx (Relative a)) (λ _, None).
Proof using All.
  intros Hlen. apply (trait_map_pure fuel _ (jitdump_trait f idx) _ (JitDumpMap.cache_of_file idx)
                          (λ t, WithoutAddFile (AnsweringMap t))); [by left|done|done|..].
  - apply JitDumpMap.new_cache_of_file.
  - intros cs a Hcs. destruct (JitDumpMap.lookup_sync_alone idx Hlen cs (Relative a) Hcs) as (c' & Hl & Hc'). exists c'.
    split; [|done]. cbn [trait_lookup_sync jitdump_trait]. by rewrite Hl.
  - intros a info e. unfold JitDumpMap.jit_answer. destruct (JitDumpMap.jit_found idx (Relative a)) as [[[i sa] o]|]; [|done].
    cbn [mbind option_bind]. destruct (JitDumpMap.entries idx !! i) as [desc|]; [|done]. cbn [mbind option_bind].
    destruct (JitDumpMap.read_name desc); [|done]. cbn. intros [= <-]. cbn [frames]. unfold JitDumpMap.frames_at.
    destruct (JitDumpMap.read_debug_info idx desc); [|done]. cbn [mbind option_bind].
    by destruct (debug_lookup _ _) as [[]|].
Qed.
Lemma jitdump_frames_ok (f : File) (idx : JitDumpMap.JitDumpIndex (bytes := file_bytes f)) :
  frames_ok (λ a, JitDumpMap.jit_answer idx (Relative a)) (λ _, None).
Proof using All.
  split; [|done]. intros a info fs.
  unfold JitDumpMap.jit_answer. destruct (JitDumpMap.jit_found idx (Relative a)) as [[[i sa] o]|]; [|done].
  cbn [mbind option_bind]. destruct (JitDumpMap.entries idx !! i) as [desc|]; [|done]. cbn [mbind option_bind].
  destruct (JitDumpMap.read_name desc); [|done]. cbn. intros [= <-]. cbn [frames]. unfold JitDumpMap.frames_at.
  destruct (JitDumpMap.read_debug_info idx desc); [|done]. cbn [mbind option_bind].
  destruct (debug_lookup _ _) as [[]|]; [|done]. by intros [= <-].
Qed.

Lemma external_frames_nonempty l e fs : external_frames l e = Ok (Some fs) → fs ≠ [].
Proof using Type.
  unfold external_frames. destruct (load_external l e) as [f|]; [|done]. unfold ExternalFiles.plain_external.
  assert (∀ c name o, ExternalFiles.plain_member_lookup c name o = Ok (Some fs) → fs ≠ []) as Hm.
  { intros c name o. unfold ExternalFiles.plain_member_lookup. destruct (_ !! _); [|done].
    unfold DwarfFrames.plain_frames_at. destruct (_ ≫= _); [apply DwarfFrames.plain_frames_nonempty|done]. }
  destruct (ExternalFiles.make_inner _) as [|[c|ranges contexts]]; [done|..]; destruct (address_in_file e); try done.
  - apply Hm.
  - destruct (_ ≫= _); [apply Hm|done].
Qed.

(** The first candidate for a library is a breakpad file without a symindex file. *)
Lemma load_breakpad_first info l candidates (f : File) idx :
  get_symbol_map_for_library info = None → LibraryInfo.debug_id info = Some (BreakpadIndex.debug_id idx) →
  get_candidate_paths_for_debug_file info = Some (SingleFile l :: candidates) →
  load_file l = Some f → parse_file_kind f = None → is_pdb_file f = false →
  BreakpadSymbolMap.is_breakpad_file (bytes := file_bytes f) = true →
  (l' ← location_for_breakpad_symindex l; load_file l') = None →
  BreakpadSymbolMap.index_of_file (bytes := file_bytes f) = Some (Ok (inr idx)) →
  load_symbol_map info = Some (Ok (inr (new_plain l (AnsweringMap (breakpad_trait f idx))))).
Proof using Type.
  intros Hg Hid Hc Hl Hk Hp Hb Hs Hi. unfold load_symbol_map. rewrite Hg, Hid, Hc. cbn [try_candidates load_candidate].
  unfold load_symbol_map_from_location. rewrite Hl, Hk, Hp, Hb. unfold load_breakpad. rewrite Hs.
  unfold BreakpadSymbolMap.new_outer. cbn [BreakpadSymbolMap.supplied_index returned mbind loops_bind]. rewrite Hi.
  cbn [returned mbind loops_bind]. by rewrite bool_decide_eq_true_2.
Qed.

(** An object file without debug information of its own, whose object map refers to
    files, unless demangling panics. *)
Section object.
Context (fuel : nat) (m : SymbolMap) (x : ObjectSymbolMap.ObjectSymbolMapInner).
Context (sync : Z → option SyncAddressInfo) (ext : ExternalFileAddressRef → option (list FrameDebugInfo)).
Hypothesis Hfuel : (1 ≤ fuel)%nat.
Hypothesis Hfresh : fresh m.
Hypothesis Hinner : inner m = WithAddFile x.
Hypothesis Hctx : ObjectSymbolMap.context x = None.
Hypothesis Hsync : ∀ a, ObjectSymbolMap.lookup_sync x (Relative a) = Ok (x, sync a).
Hypothesis Hext :
  ∀ e, (if is_macho e then external_frames (debug_file_location m) e else Ok None) = Ok (ext e).
Let same (m' : SymbolMap) : Prop :=
  has_helper m' = true ∧ debug_file_location m' = debug_file_location m ∧
  ∃ x', inner m' = WithAddFile x' ∧ cached_ok (debug_file_location m) x' ∧
    ObjectSymbolMap.info x' = ObjectSymbolMap.info x ∧ ObjectSymbolMap.context x' = None.
Lemma object_sync m' a : same m' → ∃ x', inner m' = WithAddFile x' ∧
  lookup_sync m' (Relative a) = Some (Ok (with_inner m' x', sync a)) ∧ same (with_inner m' x') ∧
  cached_ok (debug_file_location m) x' ∧ ObjectSymbolMap.info x' = ObjectSymbolMap.info x ∧
  ObjectSymbolMap.context x' = None.
Proof using Hctx Hsync.
  intros (Hh' & Hl' & x' & Hi' & Hc' & Hinfo & Hctx'). exists x'. unfold lookup_sync. rewrite Hi'.
  assert (ObjectSymbolMap.lookup_sync x' (Relative a) = Ok (x', sync a)) as ->.
  { specialize (Hsync a). revert Hsync. unfold ObjectSymbolMap.lookup_sync. rewrite Hinfo, Hctx', Hctx.
    destruct (ObjectSymbolMap.addresses_of _ _) as [[svma rel]|]; [|by intros [= <-]].
    destruct (SymbolList.lookup_relative_address _ _) as [[[[s e] n]|]|]; [|by intros [= <-]|done].
    cbn [mbind res_bind]. destruct (Demangle.demangle_any n); [|done]. cbn [mbind res_bind]. by intros [= <-]. }
  cbn [returned mbind loops_bind]. split; [done|]. split; [done|]. split; [|done]. split; [done|]. split; [done|]. by exists x'.
Qed.
Lemma object_resolve x' e : cached_ok (debug_file_location m) x' →
  ObjectSymbolMap.info x' = ObjectSymbolMap.info x → ObjectSymbolMap.context x' = None →
  ∃ x'', resolve fuel (debug_file_location m) x' e = Some (Ok (x'', ext e)) ∧ cached_ok (debug_file_location m) x'' ∧
    ObjectSymbolMap.info x'' = ObjectSymbolMap.info x ∧ ObjectSymbolMap.context x'' = None.
Proof using Hfuel Hext.
  intros Hc' Hinfo Hctx'. specialize (Hext e). destruct (is_macho e) eqn:He.
  - pose proof (resolve_ok fuel _ x' e Hfuel Hc' He) as Hr. rewrite Hext in Hr.
    destruct Hr as (x'' & Hr & Hc'' & Hinfo'' & Hctx''). exists x''. repeat split; congruence || done.
  - injection Hext as <-. exists x'. split; [|done]. destruct fuel; [lia|]. cbn [resolve].
    unfold ObjectSymbolMap.try_lookup_external_impl, is_macho in *. destruct (file_ref e); [done|]. by rewrite Hctx'.
Qed.
Lemma object_map_pure : pure_map fuel m sync ext.
Proof using All.
  destruct Hfresh as [Hh Hf]. rewrite Hinner in Hf.
  assert (same m) as Hm by (split; [done|]; split; [done|]; exists x; split; [done|]; unfold cached_ok; by rewrite Hf).
  exists same. split; [done|]. split.
  - intros m' a Hm'. destruct (object_sync m' a Hm') as (x' & _ & Hs & Hsame & _). by exists (with_inner m' x').
  - split.
    + intros m' e (Hh' & Hl' & x' & Hi' & Hc' & Hinfo & Hctx'). specialize (Hext e). destruct (is_macho e) eqn:He.
      * pose proof (lookup_external_step fuel m' x' e Hfuel Hi' Hh') as Hstep. rewrite Hl', Hext in Hstep.
        destruct (Hstep Hc' He) as (x'' & -> & Hc'' & Hinfo'' & Hctx''). exists (with_inner m' x''). split; [done|].
        split; [done|]. split; [done|]. exists x''. repeat split; congruence || done.
      * injection Hext as <-. exists (with_inner m' x').
        unfold lookup_external. rewrite Hh', Hi'. unfold ObjectSymbolMap.try_lookup_external_impl, is_macho in *.
        destruct (file_ref e); [done|]. rewrite Hctx'. cbn [returned mbind loops_bind]. split; [done|].
        split; [done|]. split; [done|]. by exists x'.
    + intros m' a Hm'. destruct (object_sync m' a Hm') as (x' & Hi' & Hs & Hsame & Hc' & Hinfo & Hctx').
      destruct Hm' as (Hh' & Hl' & _). unfold lookup. rewrite Hs. cbn [mbind loops_bind]. unfold full_frames.
      destruct (sync a) as [info|]; cbn [mbind option_bind]; [|by do 2 eexists].
      destruct (frames info) as [[fs|e]|]; [by do 2 eexists| |by do 2 eexists]. cbn [inner with_inner with_inner_map has_helper].
      rewrite Hh'. cbn [debug_file_location with_inner with_inner_map]. rewrite Hl'.
      destruct (object_resolve x' e Hc' Hinfo Hctx') as (x'' & -> & Hc'' & Hinfo'' & Hctx''). cbn [mbind loops_bind].
      do 2 eexists. split; [done|]. split; [|done]. split; [done|]. split; [done|]. by exists x''.
Qed.
Lemma object_frames_ok : frames_ok sync ext.
Proof using Hctx Hsync Hext.
  split.
  - intros a info fs Ha Hfs. specialize (Hsync a). rewrite Ha in Hsync. revert Hsync. unfold ObjectSymbolMap.lookup_sync.
    rewrite Hctx. destruct (ObjectSymbolMap.addresses_of _ _) as [[svma rel]|]; [|done].
    destruct (SymbolList.lookup_relative_address _ _) as [[[[s e] n]|]|]; [|done..]. cbn [mbind res_bind].
    destruct (Demangle.demangle_any n); [|done]. cbn [mbind res_bind]. intros [= <-]. cbn [frames] in Hfs.
    unfold ObjectSymbolMap.frames_lookup_for_object_map_references in Hfs.
    destruct (ObjectSymbolMap.object_map _ _) as [entry|]; [|done]. cbn [mbind option_bind] in Hfs.
    destruct (Utf8.from_utf8 _) as [path|]; [|done]. cbn [mbind option_bind] in Hfs.
    destruct (ObjectSymbolMap.map_entry_member entry) as [member|]; [|done].
    by destruct (Utf8.from_utf8 member).
  - intros e fs Hfs. specialize (Hext e). rewrite Hfs in Hext. destruct (is_macho e); [|done].
    by eapply external_frames_nonempty.
Qed.
End object.

(** What a map that has just been loaded answers: the maps of breakpad files (with the
    index of the file) and of jitdump files, linked mach-O files without debug
    information of their own (unless demangling a name panics), and any map that is
    known to answer in the same way whatever was asked before. *)
Inductive answers_as (fuel : nat) (m : SymbolMap)
    : (Z → option SyncAddressInfo) → (ExternalFileAddressRef → option (list FrameDebugInfo)) → Prop :=
| breakpad_answers l f idx :
    m = new_plain l (AnsweringMap (breakpad_trait f idx)) →
    LineBuffer.slen (file_bytes f) + BreakpadSymbolMap.CHUNK_SIZE < 2 ^ 64 →
    BreakpadSymbolMap.index_of_file (bytes := file_bytes f) = Some (Ok (inr idx)) →
    answers_as fuel m (λ a, BreakpadLookup.answer (bytes := file_bytes f) idx (Relative a)) (λ _, None)
| jitdump_answers l f idx :
    m = new_plain l (AnsweringMap (jitdump_trait f idx)) →
    JitDumpMap.new_outer (bytes := file_bytes f) = Some (Ok (Some idx)) →
    answers_as fuel m (λ a, JitDumpMap.jit_answer idx (Relative a)) (λ _, None)
| macho_answers x sync ext :
    fresh m → inner m = WithAddFile x → ObjectSymbolMap.context x = None →
    (∀ a, ObjectSymbolMap.lookup_sync x (Relative a) = Ok (x, sync a)) →
    (∀ e, (if is_macho e then external_frames (debug_file_location m) e else Ok None) = Ok (ext e)) →
    answers_as fuel m sync ext
| other_answers sync ext : pure_map fuel m sync ext → frames_ok sync ext → answers_as fuel m sync ext.
Lemma answers_as_pure fuel m sync ext :
  (1 ≤ fuel)%nat → answers_as fuel m sync ext → pure_map fuel m sync ext ∧ frames_ok sync ext.
Proof using All.
  intros Hfuel [l f idx -> Hlt Hi|l f idx -> Hi|x s e Hfresh Hin Hctx Hsync Hext|s e Hp Hok]; [..|done].
  - split; [|apply breakpad_frames_ok]. by apply breakpad_map_pure, BreakpadFile.index_of_file_known.
  - split; [|apply jitdump_frames_ok]. by apply jitdump_map_pure, JitDumpMap.new_outer_lengths.
  - split; [by eapply object_map_pure|by eapply object_frames_ok].
Qed.
End pure.

(** * The reference *)
Section answers.
Context `{DebugIdType} `{!BreakpadRecords.BreakpadIds} `{!DebugIdOps} `{!CodeIds.UuidOps}.
Context `{Nom} `{Demanglers} `{ExternalObjects} `{!SplitDwarf} `{!Helper} `{!Formats}.
Context `{∀ bytes, JitDumpFile bytes} `{!DebugIds.UuidDebugIds} `{!Gimli} `{!ElfFiles} `{Order : HashOrder} `{UnstableSort} `{UnstableSortBy}.
Context (fuel : nat).
(** What there is to know about each library. *)
Context (outcome : Lib → Error + (Z → option AddressResult)).

Definition expected_debug_info (fs : list FrameDebugInfo) : option DebugInfo :=
  outer ← last fs;
  Some {| file := api_file outer; line := api_line outer;
          inlines := (λ f, {| inline_function := function f; inline_file := api_file f; inline_line := api_line f |})
                       <$> take (length fs - 1) fs |}.
Definition expected_symbol (a : Z) (r : AddressResult) : Symbol :=
  {| symbol_function := result_symbol_name r; function_offset := wrap_u32 (a - symbol_address r);
     function_size := result_function_size r; debug_info := fs ← inline_frames r; expected_debug_info fs |}.
Definition expected_frame (job : Job) (i : nat) (frame : StackFrame) : ResponseFrame :=
  {| frame_index := u32_of_usize i; module_offset := frame_address frame;
     module := default "" (lib_debug_name <$> lib_of job frame);
     symbol := lib ← lib_of job frame;
               match outcome lib with
               | inl _ => None
               | inr f => expected_symbol (frame_address frame) <$> f (frame_address frame)
               end |}.
(** Of the modules with the same key, the last one counts. *)
Definition last_of {A} (l : list (string * A)) : gmap string A := list_to_map (reverse l).
Definition expected_result (js : list Job) (job : Job) : JobResult :=
  let libs := filter (λ lib, requested js lib = true) (memory_map job) in
  {| result_stacks := imap (expected_frame job) <$> stacks job;
     found_modules := last_of ((λ lib, (module_key lib, match outcome lib with inl _ => false | inr _ => true end)) <$> libs);
     module_errors :=
       last_of (omap (λ lib, match outcome lib with inl e => Some (module_key lib, [e]) | inr _ => None end) libs) |}.

Definition symbolicated (js : list Job) (m : gmap Lib (Error + LookedUpAddresses)) : Prop :=
  ∀ lib, if requested js lib
         then ∃ addresses r, m !! lib = Some r ∧ agrees addresses (outcome lib) r ∧ ∀ a, asked js lib a → a ∈ addresses
         else m !! lib = None.
Lemma symbolicate_libs_ok libs m :
  NoDup libs.*1 → Forall (λ p, lib_outcome fuel p.1 (outcome p.1)) libs →
  ∃ m', symbolicate_libs fuel libs m = Some (Ok m') ∧
    (∀ lib addresses, (lib, addresses) ∈ libs → ∃ r, m' !! lib = Some r ∧ agrees addresses (outcome lib) r) ∧
    (∀ lib, lib ∉ libs.*1 → m' !! lib = m !! lib).
Proof.
  revert m. induction libs as [|[lib addresses] libs IH]; intros m Hnd Hout; cbn [symbolicate_libs].
  { exists m. split; [done|]. split; [by intros ? ? ?%not_elem_of_nil|done]. }
  cbn [fmap list_fmap fst] in Hnd. apply NoDup_cons in Hnd as [Hni Hnd]. apply Forall_cons in Hout as [Hlib Hout].
  destruct (for_lib_ok fuel lib addresses _ Hlib) as (r & -> & Hr). cbn [mbind loops_bind].
  destruct (IH (<[lib := r]> m) Hnd Hout) as (m' & -> & Hin & Hni'). exists m'. split; [done|]. split.
  - intros lib' addresses' [[= -> ->]|Hl]%elem_of_cons; [|by apply Hin].
    exists r. by rewrite Hni', lookup_insert_eq.
  - intros lib' Hl. cbn [fmap list_fmap fst] in Hl. rewrite Hni' by set_solver. apply lookup_insert_ne. set_solver.
Qed.
Lemma symbolicate_ok js requested_addresses :
  holds requested_addresses (asked js) → (∀ lib a, asked js lib a → lib_outcome fuel lib (outcome lib)) →
  ∃ m, symbolicate_requested_addresses fuel requested_addresses = Some (Ok m) ∧ symbolicated js m.
Proof.
  intros Hholds Hout. unfold symbolicate_requested_addresses.
  assert (∀ lib l, (lib, l) ∈ hash_iter requested_addresses ↔ requested_addresses !! lib = Some l) as Hin
    by (intros lib l; by rewrite hash_iter_permutation, elem_of_map_to_list).
  destruct (symbolicate_libs_ok (hash_iter requested_addresses) ∅) as (m & -> & Hm & Hno).
  - rewrite hash_iter_permutation. apply NoDup_fst_map_to_list.
  - apply Forall_forall. intros [lib l] Hl%Hin. specialize (Hholds lib). rewrite Hl in Hholds.
    destruct Hholds as [Hne Hl']. destruct l as [|a l]; [done|]. apply (Hout lib a), Hl'. left.
  - exists m. split; [done|]. intros lib. specialize (Hholds lib).
    destruct (requested_addresses !! lib) as [l|] eqn:Hl.
    + destruct Hholds as [Hne Hl']. assert (requested js lib = true) as ->.
      { apply requested_spec. destruct l as [|a l]; [done|]. exists a. apply Hl'. left. }
      destruct (Hm lib l) as (r & Hr & Ha); [by apply Hin|]. exists l, r. split; [done|]. split; [done|].
      intros a. apply Hl'.
    + destruct (requested js lib) eqn:Hr; [apply requested_spec in Hr; naive_solver|].
      rewrite Hno, lookup_empty; [done|]. intros ([lib' l] & -> & Hl'%Hin)%list_elem_of_fmap. cbn in Hl. congruence.
Qed.

(** * The modules of a job *)
Definition symbols_at (m : gmap Lib (Error + LookedUpAddresses)) (lib : Lib) : option (gmap Z (option AddressResult)) :=
  match m !! lib with Some (inr l) => Some (address_results l) | _ => None end.
Lemma collect_keeps sym i libs m j : Z.of_nat (i + length libs) ≤ 2 ^ 32 → (j < i)%nat →
  symbols_by_module_index (collect_modules sym i libs m) !! Z.of_nat j = symbols_by_module_index m !! Z.of_nat j.
Proof.
  revert i m. induction libs as [|lib libs IH]; intros i m Hi Hj; [done|]. cbn [collect_modules length] in *.
  rewrite IH by lia. destruct (sym !! lib) as [[|]|]; cbn [symbols_by_module_index]; [done| |done].
  rewrite u32_of_usize_id by lia. apply lookup_insert_ne. lia.
Qed.
Lemma collect_symbols sym i libs m k lib : Z.of_nat (i + length libs) ≤ 2 ^ 32 →
  (∀ j, (i ≤ j)%nat → symbols_by_module_index m !! Z.of_nat j = None) → libs !! k = Some lib →
  symbols_by_module_index (collect_modules sym i libs m) !! Z.of_nat (i + k) = symbols_at sym lib.
Proof.
  revert i m k. induction libs as [|lib' libs IH]; intros i m k Hi Hm Hk; [done|]. cbn [collect_modules length] in *.
  destruct k as [|k]; cbn [lookup list_lookup] in Hk.
  - injection Hk as ->. rewrite collect_keeps by lia. rewrite Nat.add_0_r. unfold symbols_at.
    destruct (sym !! lib) as [[|]|]; cbn [symbols_by_module_index]; [by apply Hm| |by apply Hm].
    rewrite u32_of_usize_id by lia. by rewrite lookup_insert_eq.
  - rewrite Nat.add_succ_r. apply (IH (S i)); [lia| |done]. intros j Hj.
    destruct (sym !! lib') as [[|]|]; cbn [symbols_by_module_index]; [apply Hm; lia| |apply Hm; lia].
    rewrite u32_of_usize_id, lookup_insert_ne by lia. apply Hm. lia.
Qed.
Lemma last_of_cons {A} (p : string * A) l : last_of (p :: l) = last_of l ∪ {[p.1 := p.2]}.
Proof. unfold last_of. rewrite reverse_cons, list_to_map_app. destruct p as [k x]. cbn. by rewrite insert_empty. Qed.
Lemma collect_found js sym i libs m : symbolicated js sym →
  found (collect_modules sym i libs m) =
    last_of ((λ lib, (module_key lib, match outcome lib with inl _ => false | inr _ => true end))
               <$> filter (λ lib, requested js lib = true) libs) ∪ found m ∧
  errors (collect_modules sym i libs m) =
    last_of (omap (λ lib, match outcome lib with inl e => Some (module_key lib, [e]) | inr _ => None end)
               (filter (λ lib, requested js lib = true) libs)) ∪ errors m.
Proof.
  intros Hsym. revert i m. induction libs as [|lib libs IH]; intros i m; cbn [collect_modules].
  { split; symmetry; apply (left_id_L ∅ (∪)). }
  pose proof (Hsym lib) as Hlib. rewrite filter_cons. destruct (requested js lib).
  - rewrite decide_True by done. destruct Hlib as (addresses & r & -> & Ha & _). unfold agrees in Ha.
    destruct (IH (S i) (match r with
        | inl err => {| found := <[module_key lib := false]> (found m); errors := <[module_key lib := [err]]> (errors m);
                        symbols_by_module_index := symbols_by_module_index m |}
        | inr symbols => {| found := <[module_key lib := true]> (found m); errors := errors m;
                            symbols_by_module_index := <[u32_of_usize i := address_results symbols]> (symbols_by_module_index m) |}
        end)) as [Hf He].
    destruct r as [e|l]; rewrite Hf, He; clear Hf He; cbn [fmap list_fmap omap list_omap found errors];
      destruct (outcome lib) as [e'|f]; try done; subst; rewrite !last_of_cons; cbn [fst snd];
      rewrite <- ?(assoc_L (∪)), <- ?insert_union_singleton_l; done.
  - rewrite decide_False by done. rewrite Hlib. apply IH.
Qed.

(** * The response *)
Lemma with_debug_info_frames a fs entry : inline_frames (with_debug_info a fs entry) = Some fs.
Proof. by destruct entry. Qed.
Lemma answer_for_frames sync ext a r fs :
  frames_ok sync ext → answer_for sync ext a = Some r → inline_frames r = Some fs → fs ≠ [].
Proof.
  intros [Hsync Hext] Ha Hr. unfold answer_for in Ha.
  destruct (e ← pending sync a; ext e) as [fs'|] eqn:He.
  - apply (inj Some) in Ha as <-. rewrite with_debug_info_frames in Hr. injection Hr as ->.
    destruct (pending sync a) as [e|]; [|done]. by apply (Hext e).
  - clear He. unfold sync_answer in Ha. destruct (sync a) as [info|] eqn:Hs; [|done]. cbn [mbind option_bind] in Ha.
    apply (inj Some) in Ha as <-. destruct (frames info) as [[fs'|]|] eqn:Hf; [|discriminate Hr..].
    rewrite with_debug_info_frames in Hr. injection Hr as ->. by eapply Hsync.
Qed.
Lemma outcome_frames lib f a r fs :
  lib_outcome fuel lib (outcome lib) → outcome lib = inr f → f a = Some r → inline_frames r = Some fs → fs ≠ [].
Proof.
  intros Hout Hf. unfold lib_outcome in Hout. rewrite Hf in Hout. destruct (to_debug_id _) as [|id]; [done|].
  destruct Hout as ([e|m] & _ & Hm); [done|]. destruct Hm as (sync & ext & _ & Hok & [= ->]). by eapply answer_for_frames.
Qed.
Lemma symbol_of_ok a r : (∀ fs, inline_frames r = Some fs → fs ≠ []) → symbol_of a r = Ok (expected_symbol a r).
Proof.
  intros Hne. unfold symbol_of, expected_symbol. destruct (inline_frames r) as [fs|]; [|done]. cbn [mbind option_bind].
  unfold debug_info_of, expected_debug_info. destruct (last fs) as [outer|] eqn:Hlast; [done|].
  apply last_None in Hlast. by destruct (Hne fs).
Qed.
Section job.
Context (js : list Job) (job : Job) (sym : gmap Lib (Error + LookedUpAddresses)).
Hypothesis Hjob : job ∈ js.
Hypothesis Hsym : symbolicated js sym.
Hypothesis Hlen : Z.of_nat (length (memory_map job)) ≤ 2 ^ 32.
Hypothesis Hout : Forall (λ lib, lib_outcome fuel lib (outcome lib)) (memory_map job).
Hypothesis Hindex : Forall (λ frame, 0 ≤ module_index frame) (frames_of job).
Hypothesis Hrange : in_range job = true.
Let symbols := symbols_by_module_index (collect_modules sym 0 (memory_map job) no_modules).
Lemma symbols_lookup frame lib : frame ∈ frames_of job → lib_of job frame = Some lib →
  symbols !! module_index frame = symbols_at sym lib.
Proof using Hlen Hindex.
  intros Hf Hlib. pose proof (proj1 (Forall_forall _ _) Hindex _ Hf) as Hi. cbn in Hi. unfold lib_of in Hlib.
  rewrite <- (Z2Nat.id (module_index frame) Hi). apply (collect_symbols sym 0); [cbn; lia|by intros|done].
Qed.
Lemma response_frame_ok frame i : frame ∈ frames_of job →
  response_frame_for_request_frame frame (u32_of_usize i) (memory_map job) symbols = Ok (expected_frame job i frame).
Proof using Hjob Hsym Hlen Hout Hindex Hrange.
  intros Hf. destruct (proj1 (in_range_spec job) Hrange frame Hf) as [lib Hlib].
  assert (lib_outcome fuel lib (outcome lib)) as Ho.
  { apply (proj1 (Forall_forall _ _) Hout). by eapply list_elem_of_lookup_2. }
  assert (asked js lib (frame_address frame)) as Hasked by by exists job, frame.
  assert (Hs := Hsym lib). rewrite (proj2 (requested_spec js lib)) in Hs by by eexists.
  destruct Hs as (addresses & r & Hr & Hagrees & Hall). unfold response_frame_for_request_frame, expected_frame.
  rewrite (symbols_lookup frame lib Hf Hlib). unfold symbols_at. rewrite Hr, Hlib. unfold index. unfold lib_of in Hlib.
  rewrite Hlib. cbn [mbind res_bind option_bind unwrap]. unfold agrees in Hagrees.
  destruct r as [e|l], (outcome lib) as [e'|f] eqn:Houtcome; try contradiction; [done|].
  rewrite (Hagrees _ (Hall _ Hasked)). cbn [mbind res_bind unwrap].
  destruct (f (frame_address frame)) as [r|] eqn:Hfa; [|done].
  rewrite symbol_of_ok; [done|]. intros fs Hfs. refine (outcome_frames lib f _ r fs _ Houtcome Hfa Hfs). by rewrite Houtcome.
Qed.
Lemma response_frames_ok frames' i : frames' ⊆ frames_of job →
  response_frames frames' i (memory_map job) symbols = Ok (imap (λ k, expected_frame job (i + k)) frames').
Proof using Hjob Hsym Hlen Hout Hindex Hrange.
  revert i. induction frames' as [|frame frames' IH]; intros i Hsub; [done|]. cbn [response_frames].
  rewrite response_frame_ok by (apply Hsub; left). cbn [mbind res_bind].
  rewrite IH by (intros x Hx; apply Hsub; by right). cbn [mbind res_bind imap]. rewrite Nat.add_0_r. do 2 f_equal.
  apply imap_ext. intros k x _. cbn. by rewrite Nat.add_succ_r.
Qed.
Lemma mapM_res {A B} (f : A → res B) g (l : list A) : (∀ x, x ∈ l → f x = Ok (g x)) → mapM f l = Ok (g <$> l).
Proof using Type.
  induction l as [|x l IH]; intros Hf; [done|]. cbn [mapM]. rewrite (Hf x) by left. cbn [mbind res_bind].
  rewrite IH; [done|]. intros y Hy. apply Hf. by right.
Qed.
Lemma result_for_job_ok : result_for_job sym job = Ok (expected_result js job).
Proof using Hjob Hsym Hlen Hout Hindex Hrange.
  unfold result_for_job. rewrite (mapM_res _ (imap (expected_frame job))).
  - cbn [mbind res_bind]. destruct (collect_found js sym 0 (memory_map job) no_modules Hsym) as [-> ->].
    unfold expected_result. cbn [found errors no_modules]. by rewrite !(right_id_L ∅ (∪)).
  - intros stack Hstack. apply response_frames_ok. intros frame Hf. unfold frames_of. apply elem_of_concat. by exists stack.
Qed.
End job.

(** What there is to know about a library: why it has no symbols, or what the map that
    is loaded for it answers. Loading it must end without a panic. *)
Definition lib_answers (lib : Lib) (out : Error + (Z → option AddressResult)) : Prop :=
  match to_debug_id (breakpad_id lib) with
  | inl e => out = inl e
  | inr id =>
      ∃ loaded, load_symbol_map (library_info lib id) = Some (Ok loaded) ∧
        match loaded with
        | inl e => out = inl e
        | inr m => ∃ sync ext, answers_as fuel m sync ext ∧ out = inr (answer_for sync ext)
        end
  end.
Lemma lib_answers_outcome lib out : (1 ≤ fuel)%nat → lib_answers lib out → lib_outcome fuel lib out.
Proof.
  intros Hfuel. unfold lib_answers, lib_outcome. destruct (to_debug_id _) as [|id]; [done|].
  intros (loaded & Hl & Hout). exists loaded. split; [done|]. destruct loaded as [|m]; [done|].
  destruct Hout as (sync & ext & Hm & ->). exists sync, ext. by destruct (answers_as_pure fuel m sync ext Hfuel Hm).
Qed.

(** C5: Symbolication, of requests for libraries whose symbol maps are loaded, or not,
    without a panic: what is answered for a frame depends only on its library and its
    address. Whatever order the hash maps are iterated in and the lookups are made
    in, every frame gets the symbol of its address in its library (with frames of
    external files, if these can be loaded), or none if the library's symbols cannot
    be loaded; every module with frames is reported as found, or not and why; a frame
    of a module that there is not is the only error of the request; and the answer
    comes without a panic. The maps ([answers_as]) of breakpad files (with their
    index), of jitdump files and of linked mach-O files keep caches between the
    lookups, which do not show; of maps of another kind (made by the embedder, from
    DWARF or by the pdb crate) it is assumed that a lookup ends and does not depend on
    those before it, and that frames are never an empty list. *)
Theorem symbolicate_answers (request : Request) :
  (1 ≤ fuel)%nat →
  (∀ job, job ∈ jobs request →
     Z.of_nat (length (memory_map job)) ≤ 2 ^ 32 ∧
     Forall (λ frame, 0 ≤ module_index frame) (frames_of job) ∧
     Forall (λ lib, lib_answers lib (outcome lib)) (memory_map job)) →
  query_api fuel request =
    Some (Ok (if forallb in_range (jobs request)
              then inr (expected_result (jobs request) <$> jobs request)
              else inl (ParseRequestErrorContents "Stack frame module index beyond the memoryMap"))).
Proof.
  intros Hfuel Hjobs'. assert (∀ job, job ∈ jobs request →
     Z.of_nat (length (memory_map job)) ≤ 2 ^ 32 ∧ Forall (λ frame, 0 ≤ module_index frame) (frames_of job) ∧
     Forall (λ lib, lib_outcome fuel lib (outcome lib)) (memory_map job)) as Hjobs.
  { intros job Hjob. destruct (Hjobs' job Hjob) as (? & ? & Hout). split; [done|]. split; [done|].
    eapply Forall_impl; [exact Hout|]. intros lib. by apply lib_answers_outcome. }
  unfold query_api. pose proof (gather_ok request) as Hg.
  destruct (forallb in_range (jobs request)) eqn:Hr; [|by rewrite Hg]. destruct Hg as (m & -> & Hm).
  destruct (symbolicate_ok (jobs request) m Hm) as (sym & -> & Hsym).
  { intros lib a (job & frame & Hjob & _ & Hlib & _). destruct (Hjobs job Hjob) as (_ & _ & Hout).
    apply (proj1 (Forall_forall _ _) Hout). by eapply list_elem_of_lookup_2. }
  cbn [mbind loops_bind]. unfold create_response. rewrite (mapM_res _ (expected_result (jobs request))); [done|].
  intros job Hjob. destruct (Hjobs job Hjob) as (Hlen & Hindex & Hout). apply result_for_job_ok; [done..|].
  rewrite forallb_forall in Hr. by apply Hr, list_elem_of_In.
Qed.
End answers.

(** * An example *)
Section examples.
Import ExampleFiles.
Definition known_symbol (a : LookupAddress) : option SyncAddressInfo :=
  match a with
  | Relative a' =>
      if (4096 <=? a') && (a' <? 4112) then
        Some {| SymbolMaps.symbol := {| address := 4096; size := Some 16; symbol_name := "f" |};
                frames := Some (Available
                  [{| function := Some "g"; file_path := Some (MappedPath.new_path "a.c" None); line_number := Some 7 |};
                   {| function := Some "f()"; file_path := None; line_number := Some 0 |}]) |}
      else None
  | _ => None
  end.
Definition known_symbols : SymbolMapTrait :=
  {| trait_caches := nat; trait_state := O; trait_debug_id := "AAA" : DebugId; trait_symbol_count := 1;
     trait_symbols n := returned (Ok ([(4096, "f")], S n));
     trait_lookup_sync n a := returned (Ok (known_symbol a, S n)) |}.
(** Only the symbols of lib are known. *)
#[export] Instance known_helper : Helper :=
  {| location := string; location_string l := l; location_for_external_object_file _ _ := None;
     location_for_source_file _ path := Some ("src/" +:+ path); location_for_breakpad_symindex _ := None;
     location_for_dwo _ _ _ := None; location_for_dwp _ := None;
     get_candidate_paths_for_gnu_debug_link_dest _ _ := Some [];
     get_candidate_paths_for_supplementary_debug_file _ _ _ := Some []; load_file l := file_of <$> table l; 
     get_candidate_paths_for_debug_file info :=
       if decide (LibraryInfo.debug_name info = Some "sym") then Some [SingleFile "new.sym"] else None;
     get_candidate_paths_for_binary _ := None;
     get_symbol_map_for_library info :=
       if decide (LibraryInfo.debug_name info = Some "lib") then Some ("lib.sym", known_symbols) else None |}.
#[local] Instance map_order : HashOrder.
Proof. refine {| hash_iter K _ _ V m := map_to_list m |}. by intros. Defined.
#[local] Instance any_order : UnstableSortBy.
Proof. refine {| sort_unstable_by A _ l := l |}. by intros. Defined.

Definition example_lib : Lib := {| lib_debug_name := "lib"; breakpad_id := "AAA" |}.
Definition breakpad_lib : Lib := {| lib_debug_name := "sym"; breakpad_id := "BBB" |}.
Definition unknown_lib : Lib := {| lib_debug_name := "gone"; breakpad_id := "BBB" |}.
Definition new_sym : File := file_of (sym_file "BBB" "new").
#[local] Instance new_sym_contents : FileContents (file_bytes new_sym) := contents new_sym.
Definition new_index : BreakpadIndex.BreakpadIndex :=
  {| BreakpadIndex.module_info_bytes := "MODULE Linux x86_64 BBB lib"; BreakpadIndex.debug_name := "lib";
     BreakpadIndex.debug_id := "BBB"; BreakpadIndex.arch := "x86_64"; BreakpadIndex.os := "Linux"; BreakpadIndex.name := None;
     BreakpadIndex.code_id := None; BreakpadIndex.symbol_addresses := [4096];
     BreakpadIndex.symbol_offsets := [BreakpadRecords.Public {| BreakpadRecords.public_offset := 28; BreakpadRecords.line_length := 17 |}];
     BreakpadIndex.files := {| BreakpadIndex.inner := [] |}; BreakpadIndex.inline_origins := {| BreakpadIndex.inner := [] |} |}.
Definition example_outcome (lib : Lib) : Error + (Z → option AddressResult) :=
  if decide (lib = example_lib) then inr (answer_for (λ a, known_symbol (Relative a)) (λ _, None))
  else if decide (lib = breakpad_lib) then
    inr (answer_for (λ a, BreakpadLookup.answer (bytes := file_bytes new_sym) new_index (Relative a)) (λ _, None))
  else inl (HelperErrorDuringGetCandidatePathsForDebugFile (library_info unknown_lib ("BBB" : DebugId))).
Lemma known_symbols_pure :
  pure_map 1 (with_symbol_map_trait ("lib.sym" : @location _ known_helper) known_symbols)
    (λ a, known_symbol (Relative a)) (λ _, None) ∧
  frames_ok (λ a, known_symbol (Relative a)) (λ _, None).
Proof.
  split.
  { apply (trait_map_pure 1 _ known_symbols _ (λ _, True) Direct); [by right|done..|by intros c a _; exists (S c)|].
    intros a info e. cbn [known_symbol]. destruct (_ && _); [|done]. by intros [= <-]. }
  split; [|done].
  intros a info fs. unfold known_symbol. destruct (_ && _); [|done]. by intros [= <-] [= <-].
Qed.
Lemma new_sym_loaded :
  BreakpadSymbolMap.index_of_file (bytes := file_bytes new_sym) = Some (Ok (inr new_index)) ∧
  load_symbol_map (library_info breakpad_lib ("BBB" : DebugId)) =
    Some (Ok (inr (new_plain ("new.sym" : @location _ known_helper) (AnsweringMap (breakpad_trait new_sym new_index))))).
Proof.
  assert (BreakpadSymbolMap.index_of_file (bytes := file_bytes new_sym) = Some (Ok (inr new_index))) as Hi by by vm_compute.
  split; [exact Hi|]. by apply (load_breakpad_first _ ("new.sym" : @location _ known_helper) [] new_sym new_index).
Qed.
Lemma example_outcomes lib : lib = example_lib ∨ lib = breakpad_lib ∨ lib = unknown_lib → lib_answers 1 lib (example_outcome lib).
Proof.
  intros [-> |[-> | ->]]; unfold lib_answers; cbn [to_debug_id].
  - exists (inr (with_symbol_map_trait ("lib.sym" : @location _ known_helper) known_symbols)). split; [reflexivity|].
    exists (λ a, known_symbol (Relative a)), (λ _, None). split; [|done]. apply other_answers; apply known_symbols_pure.
  - exists (inr (new_plain ("new.sym" : @location _ known_helper) (AnsweringMap (breakpad_trait new_sym new_index)))).
    split; [apply new_sym_loaded|]. do 2 eexists. split; [|reflexivity]. eapply breakpad_answers; [done|by vm_compute|].
    apply new_sym_loaded.
  - eexists (inl _). by split.
Qed.
Definition example_job (last_module : Z) : Job :=
  {| memory_map := [example_lib; unknown_lib; breakpad_lib];
     stacks := [[{| module_index := 0; frame_address := 4100 |}; {| module_index := 1; frame_address := 8 |};
                 {| module_index := 2; frame_address := 4100 |}];
                [{| module_index := last_module; frame_address := 5000 |}; {| module_index := 0; frame_address := 4100 |}]] |}.
Definition example_frame (i : Z) : ResponseFrame :=
  {| frame_index := i; module_offset := 4100; module := "lib";
     symbol := Some {| symbol_function := "f()"; function_offset := 4; function_size := Some 16;
       debug_info := Some {| file := None; line := None;
         inlines := [{| inline_function := Some "g"; inline_file := Some "a.c"; inline_line := Some 7 |}] |} |} |}.
Definition breakpad_frame (i : Z) : ResponseFrame :=
  {| frame_index := i; module_offset := 4100; module := "sym";
     symbol := Some {| symbol_function := "new"; function_offset := 4; function_size := None; debug_info := None |} |}.
Definition unknown_frame (i : Z) (name : string) (a : Z) : ResponseFrame :=
  {| frame_index := i; module_offset := a; module := name; symbol := None |}.

Example symbolicate_answers_witness :
  query_api 1 (WithJobsList [example_job 0]) = Some (Ok (inr
    [{| result_stacks :=
          [[example_frame 0; unknown_frame 1 "gone" 8; breakpad_frame 2]; [unknown_frame 0 "lib" 5000; example_frame 1]];
        found_modules := {["lib/AAA" := true; "gone/BBB" := false; "sym/BBB" := true]};
        module_errors := {["gone/BBB" := [HelperErrorDuringGetCandidatePathsForDebugFile
                                            (library_info unknown_lib ("BBB" : DebugId))]]} |}])) ∧
  query_api 1 (JustOneJob (example_job 3)) =
    Some (Ok (inl (ParseRequestErrorContents "Stack frame module index beyond the memoryMap"))).
Proof.
  split.
  - etrans; [apply (symbolicate_answers 1 example_outcome); [done|]|by vm_compute].
    intros job ->%list_elem_of_singleton. split; [done|]. split; [repeat constructor; done|].
    repeat constructor; apply example_outcomes; auto.
  - etrans; [apply (symbolicate_answers 1 example_outcome); [done|]|by vm_compute].
    intros job ->%list_elem_of_singleton. split; [done|]. split; [repeat constructor; done|].
    repeat constructor; apply example_outcomes; auto.
Defined.
End examples.
End SymbolicateAnswers.
