(* ===== verification/SourceApi.v ===== *)
(** The source API: samply-api/src/source/mod.rs, with the numbers of requests
    (samply-api/src/hex.rs). *)
From S2P Require Import Prelude RustStr Nom LibTable CodeIds Demangle MappedPath SymbolMaps BreakpadRecords SyntheticJit.
From S2P Require Import JitDumpMap ExternalFiles ObjectSymbolMap ExternalLookups ElfFiles SymbolManager Symbolicate SymbolicateAnswers.
From stdpp Require Import options.
Open Scope Z_scope.

Module Hex.
Import RustStr CodeIds.HexText.
(** [{:#x}]. *)
Definition as_hex_string (field : Z) : string := hex_string field.
Definition from_prefixed_hex_str (s : string) : option Z :=
  digits ← strip_prefix s "0x"; from_str_radix (2 ^ 32) digits 16.

Lemma as_hex_string_read z : u32_range z → from_prefixed_hex_str (as_hex_string z) = Some z.
Proof.
  intros Hz. unfold from_prefixed_hex_str, as_hex_string, hex_string.
  rewrite (proj2 (strip_prefix_Some _ "0x" _) eq_refl). cbn [mbind option_bind].
  destruct (hex_digits_padded 16 z "") as (n & Hn & Hlt & ->); [unfold u32_range in Hz; lia|lia|].
  rewrite app_nil. apply from_str_radix_padded; [apply hex_digit_ok|lia|unfold u32_range in Hz; lia|apply Hz].
Qed.
End Hex.

Module SourceApi.
Import Nom SymbolMaps SymbolManager Symbolicate SymbolicateAnswers.

Record Request := { debug_name : string; debug_id : string; module_offset : Z; requested_file : string }.
Record Response := { response_file : string; source : string }.

Section source.
Context `{DebugIdType} `{!BreakpadRecords.BreakpadIds} `{!DebugIdOps} `{!CodeIds.UuidOps}.
Context `{Nom} `{Demanglers} `{ExternalObjects} `{!SplitDwarf} `{!Helper} `{!Formats}.
Context `{∀ bytes, JitDumpFile bytes} `{!DebugIds.UuidDebugIds} `{!Gimli} `{!ElfFiles}.
Context (fuel : nat).

Inductive SourceError := NoSymbols (e : Error) | NoDebugInfo | InvalidPath.

Definition is_requested (request : Request) (p : MappedPath.SourceFilePath) : bool :=
  bool_decide (to_api_file_path p = requested_file request).
Definition library_of (request : Request) : Lib :=
  {| lib_debug_name := debug_name request; breakpad_id := debug_id request |}.
Definition read_requested (request : Request) (debug_file_location' : location) (frames' : list FrameDebugInfo)
    : SourceError + Response :=
  match list_find (λ p, is_requested request p = true) (omap file_path frames') with
  | None => inl InvalidPath
  | Some (_, source_file_path) =>
      match load_source_file debug_file_location' source_file_path with
      | inl e => inl (NoSymbols e)
      | inr source' => inr {| response_file := requested_file request; source := source' |}
      end
  end.
Definition query_api (request : Request) : loops (SourceError + Response) :=
  match to_debug_id (debug_id request) with
  | inl e => returned (Ok (inl (NoSymbols e)))
  | inr id =>
      loaded ← load_symbol_map (library_info (library_of request) id);
      match loaded with
      | inl e => returned (Ok (inl (NoSymbols e)))
      | inr symbol_map =>
          '(_, address_info) ← lookup fuel symbol_map (Relative (module_offset request));
          match ai ← address_info; info_frames ai with
          | None => returned (Ok (inl NoDebugInfo))
          | Some frames' => returned (Ok (read_requested request (debug_file_location symbol_map) frames'))
          end
      end
  end.

(** * The files of a symbol *)
(** Those symbolication shows for it. *)
Definition shown_files (s : Symbol) : list string :=
  match debug_info s with
  | Some d => omap inline_file (inlines d) ++ option_list (file d)
  | None => []
  end.
Lemma answer_frames sync ext a : (r ← answer_for sync ext a; inline_frames r) = full_frames sync ext a.
Proof.
  unfold answer_for, full_frames, pending, sync_answer. destruct (sync a) as [info|]; [|done]. cbn [mbind option_bind].
  destruct (frames info) as [[fs|e]|]; cbn [mbind option_bind]; [apply with_debug_info_frames| |done].
  destruct (ext e) as [fs|]; [apply with_debug_info_frames|done].
Qed.
Lemma shown_api_files a r fs : inline_frames r = Some fs → fs ≠ [] →
  shown_files (expected_symbol a r) = omap api_file fs.
Proof.
  intros Hr Hne. unfold shown_files, expected_symbol, expected_debug_info. cbn [debug_info]. rewrite Hr.
  cbn [mbind option_bind]. destruct fs as [|outer fs' _] using rev_ind; [done|]. rewrite last_snoc. cbn [mbind option_bind].
  cbn [inlines file]. rewrite length_app, Nat.add_sub, take_app_length, omap_app. cbn [omap list_omap].
  f_equal. clear. induction fs' as [|f fs IH]; [done|].
  cbn [fmap list_fmap omap list_omap inline_file]. by rewrite IH.
Qed.
Lemma shown_are_frames sync ext a fs : frames_ok sync ext → full_frames sync ext a = Some fs →
  ∃ s, expected_symbol a <$> answer_for sync ext a = Some s ∧
    debug_info s ≠ None ∧ shown_files s = omap api_file fs.
Proof.
  intros Hok Hfs. rewrite <- answer_frames in Hfs. destruct (answer_for sync ext a) as [r|] eqn:Ha; [|done].
  cbn [mbind option_bind] in Hfs. exists (expected_symbol a r). split; [done|].
  assert (fs ≠ []) as Hne by by eapply answer_for_frames. split; [|by apply shown_api_files].
  unfold expected_symbol, expected_debug_info. cbn [debug_info]. rewrite Hfs. cbn [mbind option_bind].
  destruct (last fs) eqn:Hlast; [done|]. by apply last_None in Hlast.
Qed.
Lemma not_shown sync ext a : full_frames sync ext a = None →
  (s ← expected_symbol a <$> answer_for sync ext a; debug_info s) = None.
Proof.
  rewrite <- answer_frames. destruct (answer_for sync ext a) as [r|]; [|done]. cbn [mbind option_bind fmap option_fmap option_map].
  unfold expected_symbol. cbn [debug_info]. by intros ->.
Qed.

Lemma read_requested_ok request l fs :
  if decide (requested_file request ∈ omap api_file fs) then
    ∃ f p, f ∈ fs ∧ file_path f = Some p ∧ to_api_file_path p = requested_file request ∧
      read_requested request l fs = match load_source_file l p with
        | inl e => inl (NoSymbols e)
        | inr text => inr {| response_file := requested_file request; source := text |}
        end
  else read_requested request l fs = inl InvalidPath.
Proof.
  unfold read_requested. destruct (list_find _ _) as [[i p]|] eqn:Hfind.
  - apply list_find_Some in Hfind as (Hp & Hreq & _). apply bool_decide_eq_true_1 in Hreq.
    apply list_elem_of_lookup_2, list_elem_of_omap in Hp as (f & Hf & Hp).
    rewrite decide_True; [by exists f, p|]. apply list_elem_of_omap. exists f. split; [done|]. unfold api_file.
    rewrite Hp. cbn. by f_equal.
  - rewrite decide_False; [done|]. intros (f & Hf & Ha)%list_elem_of_omap. unfold api_file in Ha.
    destruct (file_path f) as [p|] eqn:Hp; [|done]. cbn in Ha. apply (inj Some) in Ha.
    apply list_find_None in Hfind. rewrite Forall_forall in Hfind. apply (Hfind p).
    + apply list_elem_of_omap. by exists f.
    + by apply bool_decide_eq_true_2.
Qed.

(** C6: Reading sources: the only files that can be read are those that symbolication
    shows for the address. Whether a request for a file is accepted depends on just
    this; if it is, the answer is the file at the path as it is in the debug
    information of a frame of that address, or why that cannot be read. *)
Theorem source_files_shown (request : Request) id m sync ext :
  to_debug_id (debug_id request) = inr id →
  load_symbol_map (library_info (library_of request) id) = Some (Ok (inr m)) →
  pure_map fuel m sync ext → frames_ok sync ext →
  let answer := expected_symbol (module_offset request) <$> answer_for sync ext (module_offset request) in
  ∃ r, query_api request = Some (Ok r) ∧
    match s ← answer; debug_info s with
    | None => r = inl NoDebugInfo
    | Some _ =>
        if decide (requested_file request ∈ default [] (shown_files <$> answer)) then
          ∃ fs f p, full_frames sync ext (module_offset request) = Some fs ∧ f ∈ fs ∧ file_path f = Some p ∧
            to_api_file_path p = requested_file request ∧
            r = match load_source_file (debug_file_location m) p with
                | inl e => inl (NoSymbols e)
                | inr text => inr {| response_file := requested_file request; source := text |}
                end
        else r = inl InvalidPath
    end.
Proof.
  intros Hid Hload (I & Hm & _ & _ & Hlookup) Hok answer. unfold query_api. rewrite Hid, Hload. cbn [mbind loops_bind].
  destruct (Hlookup m (module_offset request) Hm) as (m' & r & -> & _ & _ & Hr). cbn [mbind loops_bind]. rewrite Hr.
  destruct (full_frames sync ext (module_offset request)) as [fs|] eqn:Hfs.
  - destruct (shown_are_frames sync ext _ fs Hok Hfs) as (s & Hs & Hd & Hshown). fold answer in Hs. rewrite Hs.
    cbn [mbind option_bind fmap option_fmap option_map default]. rewrite Hshown. eexists. split; [done|].
    destruct (debug_info s) as [d|]; [|done].
    pose proof (read_requested_ok request (debug_file_location m) fs) as Hread.
    destruct (decide _); [|done]. destruct Hread as (f & p & Hf & Hp & Hreq & ->). by exists fs, f, p.
  - rewrite (not_shown sync ext _ Hfs : (s ← answer; debug_info s) = None). by eexists.
Qed.
End source.

(** * An example *)
Section examples.
Import ExampleFiles.
#[local] Existing Instance known_helper.
Definition example_request (file : string) : Request :=
  {| debug_name := "lib"; debug_id := "AAA"; module_offset := 4100; requested_file := file |}.
Example source_files_shown_witness :
  query_api 1 (example_request "a.c") = Some (Ok (inr {| response_file := "a.c"; source := "int main;" |})) ∧
  query_api 1 (example_request "b.c") = Some (Ok (inl InvalidPath)).
Proof.
  pose proof (λ file, source_files_shown 1 (example_request file) ("AAA" : DebugId)
    (with_symbol_map_trait ("lib.sym" : @location _ known_helper) known_symbols)
    (λ a, known_symbol (Relative a)) (λ _, None) eq_refl eq_refl (proj1 known_symbols_pure) (proj2 known_symbols_pure)) as Hall.
  split.
  - destruct (Hall "a.c") as (r & -> & Hr). vm_compute in Hr. destruct Hr as (fs & f & p & [= <-] & Hf & Hp & Hpath & ->).
    apply elem_of_cons in Hf as [->|Hf]; [injection Hp as <-; reflexivity|].
    apply elem_of_cons in Hf as [->|Hf]; [discriminate Hp|]. by apply not_elem_of_nil in Hf.
  - destruct (Hall "b.c") as (r & -> & Hr). vm_compute in Hr. by rewrite Hr.
Defined.
End examples.
End SourceApi.
